(* ===== verification/_CoqProject ===== *)
-Q . S2P
Prelude.v
Effects.v
GoInt.v
GoFloat.v
GoSort.v
GoStrings.v
GoStrconv.v
Sha256.v
Hdlc.v
QTraceConfig.v
Ddmin.v
ReducerQmdl.v
ReducerRunner.v
ReducerBatch.v
ReducerDryRun.v
ReducerMain.v
SmsText.v
SmsForward.v
SmsService.v
SshServer.v
Gin.v
Json.v
Jwt.v
NetIP.v
WebUser.v
Access.v
Records.v
SysInit.v
Shell.v
Threads.v
UbusBatch.v
Update.v
Proxies.v
Mihomo.v
NetSettings.v
Wifi.v
HomeCards.v
Wallpaper.v
Devui.v
SpeedTest.v
DevInfo.v
Sessions.v
NeighborQmdl.v
NeighborCell.v
ProbeQTrace.v
NeighborManager.v
ProbeModel.v
ProbeQmi.v
ProbeScan.v
ProbeTrace.v
ProbeActive.v
ProbeRun.v
