(* ===== verification/Prelude.v ===== *)
(** A verification library for WebSSH-u60pro.

    The repository is a web service for a ZTE U60 Pro router
    ([src/gossh], with vendored copies of third-party packages beside its own
    code in [src/gossh/app] and [src/gossh/main.go]) and two command-line tools
    that work on the modem's diagnostic interface: the trace reducer
    [src/tools/u60-qtrace-reducer] and the crossband probe
    [src/tools/u60-nr-crossband-probe].  This library models the parts with
    logic of their own as executable definitions and proves what makes them
    correct.  Definitions keep the names of the Go functions; a name in lower
    case with underscores is a piece of a Go function (a loop, a guard, a
    record literal) that has no name of its own there.

    * Files

    Shared ground, no Go file of the repository:
    - [Prelude]: tactics, hint databases, list and option lemmas, the outcome
      type [go] of Go functions (a value, an error, or a run-time panic);
    - [Effects]: the state monad [ST] of effectful functions and its [wp];
    - [GoInt], [GoFloat], [GoSort], [GoStrings], [GoStrconv], [Sha256], [Json],
      [NetIP]: the parts of Go's language and standard library the program uses:
      wrap-around integers, IEEE doubles, [sort.Slice] as a class with its two
      laws, strings, number parsing, digests, JSON texts, addresses and networks;
    - [Threads]: goroutines as programs of calls and their interleavings.

    The trace reducer finds the smallest DIAG mask configuration that still
    makes the modem report neighbour cells:
    - [Hdlc] ([config.go]): framing and CRC of DIAG frames;
    - [QTraceConfig] ([config.go]): the mask configuration, its parser, the
      selection of frames and their encoding;
    - [ReducerDryRun] ([config.go]): the dry run, [parseQTraceConfig];
    - [Ddmin] ([ddmin.go]): the delta-debugging loop over an abstract test;
    - [ReducerQmdl] ([qmdl.go]): the analyser of a capture window;
    - [ReducerRunner] ([runner.go], [report.go], [writeFileAtomic],
      [emergencyRelease]): lock, processes, one capture, one tested candidate;
    - [ReducerBatch] ([ddmin.go], [controls.go]): repeated runs, calibration,
      control groups, the minimisation batch; it gives [Ddmin] its test;
    - [ReducerMain] ([main.go], [private_probe.go]): the commands.

    The crossband probe asks the modem for one neighbour scan on a frequency
    the serving cell does not use, inside a transaction that restores the
    device:
    - [ProbeQTrace] ([qtrace.go]): the patch that enables one more log;
    - [ProbeModel] ([model.go]), [ProbeQmi] ([qmi_protocol.go], part of
      [diff.go]): QMI packets; [ProbeScan] ([qmi_linux.go]): the scan over a
      QRTR socket; [ProbeTrace] ([diff.go], [qmi_trace.go]): traces;
    - [ProbeActive] ([qmdl.go]): the results in a capture;
    - [ProbeRun] ([runner.go], [device.go], [main.go]): the run, its recovery
      journal and the recovery command.

    The web service:
    - [NeighborQmdl] ([neighbor_qmdl.go]): its own parser of captures;
    - [NeighborCell] ([neighbor_cell.go]): results from the ubus snapshot and
      their combination with the parser's;
    - [NeighborManager] ([neighbor_cell.go]): the collection process, its
      manager under a mutex, assets, request handlers;
    - [SmsText], [SmsForward], [SmsService] ([system_tools.go]): the contents of
      text messages, the pending messages and one poll of the forwarder, its
      worker goroutine and request handlers;
    - [SshServer] ([sshd_server.go]): the requests of an SSH session, the
      channel of terminal sizes between its handler and its shells, the check
      of public keys; [Sessions] ([ssh_conn.go], [ssh_status.go],
      [service_init.go]): the table of terminal sessions and who closes them;
    - [Gin] (vendored [gin]), [Jwt] (vendored [jwt], [jwt_auth.go]), [WebUser]
      ([model/web_user.go], [service/web_user.go]), [Access] ([middleware/], the
      routes of [main.go]): the handler chain of a request, tokens, users and
      login, the guards in front of the protected handlers;
    - [Records] ([ssh_conf.go], [cmd_note.go] under [service/] and [model/]): the
      saved hosts and command notes, one set of handlers over two tables;
    - [SysInit] ([sys_init.go], [db_conn.go], [RewriteConfig]): the first
      initialisation of the service;
    - [Shell] ([main.go], [ssh_sftp.go], [shell_helper_unix.go]): the quoting of
      command lines and the archive commands of the file manager;
    - [Update] ([main.go]): the self-update; [Proxies] ([mihomo.go],
      [mihomo_connectivity.go]): local proxies and public lines, used by the
      downloads of [Update] and [Mihomo]; [Mihomo] ([mihomo.go]): the proxy core,
      its data files and its installation;
    - [UbusBatch] ([zwrt_ubus.go]): many calls of router services at once;
      [NetSettings] ([network_settings.go], [model/user_setting.go]) and [Wifi]
      ([zwrt_wifi.go], [wifi_autostart.go]): network settings and radios;
    - [HomeCards], [Wallpaper], [Devui] ([system_tools.go]): the replaced screen
      program: the text it shows, the picture behind it, its mount, service and
      worker; [DevInfo] ([devinfo.go], [parseQci]): its status line;
    - [SpeedTest] ([speedtest.go]): the download the browser measures.

    * How state and effects are modelled

    A pure Go function is a function into its results, into [go] when it can
    fail or panic; a slice index out of range is a [Panic], never a default.
    Effectful code passes a record of everything it touches: the files it
    writes, the processes it starts, its variables and a log of what it did to
    the outside ([ReducerRunner.world], [ProbeRun], [NeighborManager.world]).
    The outside is an argument: a class ([ReducerRunner.Device]) or an oracle
    that answers the n-th call, so a theorem holds for every behaviour of the
    system: failing calls, processes that exit early, contexts cancelled at any
    moment.  Code under a mutex is one atomic step; what runs in between is a
    step relation ([NeighborManager], [SmsService], [SshServer]) or the
    environment's answer to a sleep or a call.  Where goroutines and requests
    meet ([Update], [Proxies], [Mihomo], [UbusBatch], [Wifi], [Devui],
    [SpeedTest], [Wallpaper]) a handler is a program of [Threads]: a tree of
    calls whose answers the world of the component allows; a theorem is then an
    invariant of every interleaving, or a weakest precondition of one program
    under a relation that bounds what the others do between its calls.
    Third-party functions are parameters: the text of a JSON document
    ([ReducerBatch.Json], with [JsonLaws] that decoding inverts encoding on the
    fields used), the order of [sort.Slice] among equal elements
    ([GoSort.SortSlice], two laws, implemented by insertion sort), the process
    environment ([NeighborManager.EnvironmentLaws]), the cipher of passwords,
    the MACs of tokens beyond SHA-256, the parser of addresses, the POSIX shell
    ([Shell.Shell], with a tokenizer as its instance).  Each class has an
    instance, on which the witnesses evaluate.  Conversions of floats that do
    not fit are left open by the language: they are a parameter [undef].

    * What the theorems show

    - Round trips: HDLC frames, configurations, mask frames and QMI packets are
      recovered from their encodings, and damaged ones are refused.
    - Decoders and readers never panic, never run out of fuel, and deliver
      exactly the frames of a stream; the reported cells are exactly the groups
      of usable reports, in range, without repetition.
    - Algorithms against a specification: [ddmin] terminates with a 1-minimal
      result, minimal outright for a monotone test; stopping repeated runs
      early does not change a verdict; the calibrated window is the percentile
      it claims to be; comparison of traces is exact.
    - Device safety: a tested candidate is always surrounded by zero-mask runs;
      no command touches the device without confirmation and lock; a scan is
      never left running; a probe run is a transaction whose journal is ahead
      of the device, and recovery completes it.
    - Refinement: the collection manager implements an abstract collector (who
      wants the process, whether it runs or is still being taken down); at most
      one collector exists and no foreign process is signalled; pids of children
      that were waited for come again, and the collector says what a late reaper
      then does.
    - Text messages: a worker hands out no message twice and passes over none
      that a later one of the same sender does not replace; at most one worker
      has not been told to stop.
    - Sessions: complete terminal sizes cannot end the server process and
      incomplete ones can; the handler waits only on a full channel; no handle
      of a terminal session is lost unless its id is used twice.
    - Access: a protected handler runs only behind every guard; a token that is
      accepted is signed with the secret, or is one of the texts that an error
      message lets through; users stay well formed under every handler.
    - Records: a user's requests show and change only his own hosts and notes, but
      an update may give a note away; the table of hosts is a map, in which a new
      host has the defaults of its columns for what it leaves out, its secrets
      stored sealed.
    - Initialisation: success means that everything is in place; a failure loses no
      row, but cannot be repeated once the first user is there, and may have lost
      the configuration file, which is removed before it is written.
    - Downloads, as long as nobody else touches their files and state: an update
      starts only with a complete response; data files and the core are replaced
      whole or not at all.  A proxy that is detected answered a probe, now or within
      the life of the cache.
    - Settings: every ubus call carries values of the form the device expects, but
      for the numbers of a cell lock, which may be padded or signed; a tick of the
      correction gives exactly the commands the settings saved last ask for; a batch
      answers every call once, in order, without getting stuck.
    - Command lines: the words the shell reads are the ones that were meant.
    - Screen: the cards have the layout the screen reads by line numbers; a
      wallpaper changes its area of the program and nothing else, only while the
      program is not mounted, as far as its mounts can be listed; start and stop of
      the screen without errors leave one worker and one mount or none; the status
      line shows the last values its sources gave, in range except for a
      load computed from NaN, whose conversion the platform decides.
    - Speed test: only addresses outside private, local and multicast networks of
      both families are fetched, each redirection checked, at most eight at once.
    - Errors: the request handlers, asset installation and dry run report a
      failure or leave exactly what they promise.

    * Bounds and fuel

    Loops that consume input are structural in it.  [Ddmin.ddmin_fuel] bounds
    the rounds by the items left and the granularity; [ddmin_total] shows it
    is enough for every test.  The scan and polling loops run over the finite
    sequence of events the environment delivers, and the theorems hold for
    every sequence; a sequence that ends stands for the deadline.  The index of
    the 95th percentile is computed in binary64 and compared with the exact one
    by evaluation up to 500 runs, the bound of the theorems that use it.
    The waits of [Wifi] and [Devui] poll a clock that moves on by at least the
    sleep between two polls: their fuel is the time-out divided by the sleep with
    room to spare, and the theorems show they end before it.  The client of
    [SpeedTest] follows five redirections because the check refuses the sixth;
    [UbusBatch.collect] reads as many responses as the channel can hold.
    Each floating-point operation is rounded on its own; the compiler of a
    platform with fused operations may round once less in the width of a bar or
    in a scaled pixel; the bounds proved of them do not look at the rounding.
    Counters the code keeps in [int] without overflow checks are unbounded [Z]
    or [nat] where they count bytes or frames of files; integers whose width
    matters (words of frames, durations, CRC, bit masks) wrap as in the code.

    * Not modelled

    Vendored packages other than the two named, the browser front end, the
    control script of the proxy core and the bindings to the vendor's DIAG
    library are outside the program's own Go code.  Code that only relays has
    no logic to state beyond that of its libraries: the stream of a terminal,
    the file transfers of [ssh_sftp.go] beside its archive commands, the record
    handlers of certificates, policies and filters over the database mapper, the reading of the configuration file at
    the start, the files of [rc.local] and the serial update, the session rate of
    [zwrt_net_ambr.go], the output of the control script as a stream.
    Of the modelled parts: the text of reports and of JSON documents, flag
    parsing, log messages, time stamps taken from the clock beyond their order.
    [strings.ToLower], [ToUpper] and [TrimSpace] act on the ASCII range.
    Late writes of a process after the clean-up timeout of the probe and
    crashes in the middle of a write are outside the model. *)

From stdpp Require Export base tactics list numbers option strings sets fin_maps gmap.
From Stdlib Require Export ZArith Lia Sorting.Sorted.
#[export] Set Default Goal Selector "!".

(** Outcome of a Go call: a value, a returned error, or a run-time panic
    (index or slice bounds out of range).  The parsers below are written in
    this monad so that "never panics" is a theorem about them. *)

Inductive go (E A : Type) : Type :=
| Ok (a : A)
| Err (e : E)
| Panic.
Arguments Ok {E A} a.
Arguments Err {E A} e.
Arguments Panic {E A}.

#[export] Instance go_ret {E} : MRet (go E) := fun A a => Ok a.
#[export] Instance go_bind {E} : MBind (go E) :=
  fun A B f m => match m with Ok a => f a | Err e => Err e | Panic => Panic end.
#[export] Instance go_fmap {E} : FMap (go E) :=
  fun A B f m => match m with Ok a => Ok (f a) | Err e => Err e | Panic => Panic end.

Declare Scope go_scope.
Delimit Scope go_scope with go.
Open Scope go_scope.

(** [if cond { return err }] followed by the rest of the body. *)
Notation "'guard_err' c 'else' e ';;' k" :=
  (if c then Err e else k)
  (at level 100, c at level 99, e at level 99, k at level 200, only parsing) : go_scope.

Definition is_ok {E A} (m : go E A) : bool :=
  match m with Ok _ => true | _ => false end.

Definition is_panic {E A} (m : go E A) : bool :=
  match m with Panic => true | _ => false end.

Definition from_option_panic {E A} (o : option A) : go E A :=
  match o with Some a => Ok a | None => Panic end.

(** [l[i]] and [l[lo:hi]] with the bounds checks of Go's run time. *)
Definition index {E A} (l : list A) (i : nat) : go E A :=
  from_option_panic (l !! i).

Definition slice {E A} (l : list A) (lo hi : nat) : go E (list A) :=
  if bool_decide (lo <= hi <= length l) then Ok (take (hi - lo) (drop lo l)) else Panic.

Definition slice_from {E A} (l : list A) (lo : nat) : go E (list A) :=
  slice l lo (length l).

(** [l[:len(l)-n]]. *)
Definition trim_end {E A} (n : nat) (l : list A) : go E (list A) :=
  if bool_decide (n <= length l)%nat then Ok (take (length l - n) l) else Panic.

(** Wrapping of a callee's error. *)
Definition map_err {E E' A} (f : E -> E') (m : go E A) : go E' A :=
  match m with Ok a => Ok a | Err e => Err (f e) | Panic => Panic end.

(** Left-to-right loop whose body may return an error. *)
Fixpoint go_fold {E A B} (f : B -> A -> go E B) (acc : B) (l : list A) : go E B :=
  match l with
  | [] => Ok acc
  | x :: l' => match f acc x with
               | Ok acc' => go_fold f acc' l'
               | Err e => Err e
               | Panic => Panic
               end
  end.

(** The positions of a list, [for index := range l]. *)
Fixpoint go_map {E A B} (f : A -> go E B) (l : list A) : go E (list B) :=
  match l with
  | [] => Ok []
  | x :: l' => y ← f x; ys ← go_map f l'; mret (y :: ys)
  end.

(** [strings.Split]/[bytes.Split] with a one-element separator. *)
Fixpoint split_on {A} `{EqDecision A} (sep : A) (l : list A) : list (list A) :=
  match l with
  | [] => [[]]
  | x :: l' =>
    if decide (x = sep) then [] :: split_on sep l'
    else match split_on sep l' with
         | [] => [[x]]
         | s :: ss => (x :: s) :: ss
         end
  end.

(** * Tactics *)

(** Destructs the scrutinee of the first [match] or [if] of the goal or of a
    hypothesis, keeping the equation. *)
Ltac case_match_eq :=
  match goal with
  | |- context [match ?x with _ => _ end] => let E := fresh "E" in destruct x eqn:E
  | H : context [match ?x with _ => _ end] |- _ => let E := fresh "E" in destruct x eqn:E
  end.

(** Unfolds the monad operations on [go]. *)
Ltac go_unfold :=
  unfold mbind, go_bind, mret, go_ret, fmap, go_fmap in *.

(** Turns boolean reflections into propositions. *)
Ltac bool_to_prop :=
  repeat match goal with
  | H : bool_decide _ = true |- _ => apply bool_decide_eq_true in H
  | H : bool_decide _ = false |- _ => apply bool_decide_eq_false in H
  | H : andb _ _ = true |- _ => apply andb_true_iff in H; destruct H
  | H : orb _ _ = false |- _ => apply orb_false_iff in H; destruct H
  | H : negb _ = true |- _ => apply negb_true_iff in H
  | H : negb _ = false |- _ => apply negb_false_iff in H
  | H : Z.eqb _ _ = true |- _ => apply Z.eqb_eq in H
  | H : Z.eqb _ _ = false |- _ => apply Z.eqb_neq in H
  | H : Z.ltb _ _ = true |- _ => apply Z.ltb_lt in H
  | H : Z.ltb _ _ = false |- _ => apply Z.ltb_ge in H
  | H : Z.leb _ _ = true |- _ => apply Z.leb_le in H
  | H : Z.leb _ _ = false |- _ => apply Z.leb_gt in H
  | H : Nat.eqb _ _ = true |- _ => apply Nat.eqb_eq in H
  | H : Nat.eqb _ _ = false |- _ => apply Nat.eqb_neq in H
  | H : Nat.ltb _ _ = true |- _ => apply Nat.ltb_lt in H
  | H : Nat.ltb _ _ = false |- _ => apply Nat.ltb_ge in H
  | H : Nat.leb _ _ = true |- _ => apply Nat.leb_le in H
  | H : Nat.leb _ _ = false |- _ => apply Nat.leb_gt in H
  end.

(** Inverts an equation [x <- m; k = Ok v]. *)
Ltac go_inv H :=
  go_unfold; cbn in H;
  repeat match type of H with
  | context [match ?m with _ => _ end] =>
    let E := fresh "E" in destruct m eqn:E; try discriminate H; cbn in H
  end.

(** * Lemmas *)

Section Outcome.
Context {E A B : Type}.

Lemma index_ok (l : list A) (i : nat) (x : A) :
  l !! i = Some x -> @index E A l i = Ok x.
Proof. unfold index. by intros ->. Qed.

Lemma index_inv (l : list A) (i : nat) (x : A) :
  @index E A l i = Ok x -> l !! i = Some x.
Proof. unfold index. destruct (l !! i); simpl; congruence. Qed.

Lemma index_in_range (l : list A) (i : nat) :
  (i < length l)%nat -> exists x, l !! i = Some x /\ @index E A l i = Ok x.
Proof.
  intros H. destruct (lookup_lt_is_Some_2 l i H) as [x Hx].
  exists x. split; [done | by apply index_ok].
Qed.

Lemma slice_ok (l : list A) (lo hi : nat) :
  (lo <= hi <= length l)%nat -> @slice E A l lo hi = Ok (take (hi - lo) (drop lo l)).
Proof. intros H. unfold slice. by rewrite bool_decide_eq_true_2. Qed.

Lemma slice_from_ok (l : list A) (lo : nat) :
  (lo <= length l)%nat -> @slice_from E A l lo = Ok (drop lo l).
Proof.
  intros H. unfold slice_from. rewrite slice_ok by lia.
  f_equal. apply take_ge. rewrite length_drop. lia.
Qed.

Lemma go_fold_app (f : B -> A -> go E B) (l1 l2 : list A) (b : B) :
  go_fold f b (l1 ++ l2) = (b' ← go_fold f b l1; go_fold f b' l2).
Proof.
  revert b. induction l1 as [|x l1 IH]; intros b; simpl; [done|].
  destruct (f b x); simpl; done.
Qed.

Lemma go_fold_ind (P : B -> list A -> Prop) (f : B -> A -> go E B) :
  (forall b done x b', P b done -> f b x = Ok b' -> P b' (done ++ [x])) ->
  forall l b b' done, P b done -> go_fold f b l = Ok b' -> P b' (done ++ l).
Proof.
  intros Hstep l. induction l as [|x l IH]; intros b b' done HP H; simpl in H.
  - injection H as ->. by rewrite app_nil_r.
  - destruct (f b x) as [b1| |] eqn:Hf; try discriminate.
    rewrite cons_middle, app_assoc. eapply IH; eauto.
Qed.

Lemma go_fold_no_panic (Q : A -> Prop) (f : B -> A -> go E B) (l : list A) (b : B) :
  (forall b x, Q x -> f b x <> Panic) -> Forall Q l -> go_fold f b l <> Panic.
Proof.
  intros Hf Hl. revert b. induction Hl as [|x l Hx Hl IH]; intros b; simpl; [done|].
  specialize (Hf b x Hx). destruct (f b x); done.
Qed.

End Outcome.

Lemma trim_end_ok {E A} n (l : list A) :
  (n <= length l)%nat -> @trim_end E A n l = Ok (take (length l - n) l).
Proof. intros. unfold trim_end. by rewrite bool_decide_eq_true_2. Qed.

Lemma trim_end_app {E A} n (l tail : list A) :
  length tail = n -> @trim_end E A n (l ++ tail) = Ok l.
Proof.
  intros <-. unfold trim_end. rewrite length_app, bool_decide_eq_true_2 by lia.
  f_equal. replace (length l + length tail - length tail)%nat with (length l) by lia.
  apply take_app_length.
Qed.

Lemma trim_end_inv {E A} n (l p : list A) :
  @trim_end E A n l = Ok p -> exists tail, length tail = n /\ l = p ++ tail.
Proof.
  unfold trim_end. case_bool_decide; [|done]. intros [= <-].
  exists (drop (length l - n) l). rewrite length_drop, take_drop. split; [lia|done].
Qed.

Lemma go_map_Ok {E A B} (f : A -> go E B) (l : list A) (ys : list B) :
  Forall2 (fun x y => f x = Ok y) l ys -> go_map f l = Ok ys.
Proof. induction 1 as [|x y l ys Hx _ IH]; simpl; [done|]. rewrite Hx. simpl. by rewrite IH. Qed.

Lemma go_map_inv {E A B} (f : A -> go E B) (l : list A) (ys : list B) :
  go_map f l = Ok ys -> Forall2 (fun x y => f x = Ok y) l ys.
Proof.
  revert ys. induction l as [|x l IH]; intros ys H; simpl in H.
  - injection H as <-. constructor.
  - destruct (f x) eqn:Hx; try done. simpl in H. destruct (go_map f l); try done.
    injection H as <-. constructor; auto.
Qed.

Lemma fold_left_pair {A B} (f : B -> A -> B) (l1 l2 : list A) (a1 a2 : A) (b : B) :
  fold_left f (l1 ++ a1 :: a2 :: l2) b = fold_left f l2 (f (f (fold_left f l1 b) a1) a2).
Proof. by rewrite fold_left_app. Qed.

Lemma filter_all {A} (P : A -> Prop) `{forall x, Decision (P x)} (l : list A) :
  Forall P l -> filter P l = l.
Proof. induction 1 as [|x l Hx _ IH]; [done|]. by rewrite filter_cons_True, IH. Qed.

Lemma filter_none {A} (P : A -> Prop) `{forall x, Decision (P x)} (l : list A) :
  Forall (fun x => ~ P x) l -> filter P l = [].
Proof. induction 1 as [|x l Hx _ IH]; [done|]. by rewrite filter_cons_False, IH. Qed.

Lemma sublist_full {A} (c l : list A) :
  c `sublist_of` l -> (length l <= length c)%nat -> c = l.
Proof.
  induction 1 as [|x c l Hc IH|x c l Hc IH]; simpl; intros Hl; [done| |].
  - f_equal. apply IH. lia.
  - apply sublist_length in Hc. lia.
Qed.

Lemma sublist_fmap {A B} (f : A -> B) (l1 l2 : list A) : l1 `sublist_of` l2 -> f <$> l1 `sublist_of` f <$> l2.
Proof. induction 1; simpl; by constructor. Qed.

Lemma Forall_kept {A} (P Q : A -> Prop) `{forall x, Decision (Q x)} (l : list A) : Forall P l -> Forall P (filter Q l).
Proof. rewrite !Forall_forall. intros HP x [_ Hx]%list_elem_of_filter. by apply HP. Qed.

Lemma sublist_filter_mono {A} (P : A -> Prop) `{forall x, Decision (P x)} (c l : list A) :
  c `sublist_of` l -> filter P c `sublist_of` filter P l.
Proof.
  induction 1 as [|x c l Hc IH|x c l Hc IH]; [done| |];
    destruct (decide (P x)); rewrite ?filter_cons_True, ?filter_cons_False by done; try done.
  - by apply sublist_skip.
  - by apply sublist_cons.
Qed.

Section SplitOn.
Context {A : Type} `{EqDecision A}.

Lemma split_on_nonempty (sep : A) (l : list A) : split_on sep l <> [].
Proof. induction l as [|x l IH]; simpl; repeat case_match; done. Qed.

(** A separator-free prefix followed by the separator is one segment. *)
Lemma split_on_app_sep (sep : A) (s l : list A) :
  sep ∉ s -> split_on sep (s ++ sep :: l) = s :: split_on sep l.
Proof.
  induction s as [|x s IH]; intros Hs; simpl.
  - by destruct (decide (sep = sep)).
  - apply not_elem_of_cons in Hs as [Hx Hs].
    destruct (decide (x = sep)) as [->|_]; [done|].
    by rewrite IH.
Qed.

Lemma split_on_no_sep (sep : A) (l : list A) :
  Forall (fun s => sep ∉ s) (split_on sep l).
Proof.
  induction l as [|x l IH]; simpl.
  - repeat constructor. apply not_elem_of_nil.
  - destruct (decide (x = sep)) as [->|Hx].
    + constructor; [apply not_elem_of_nil | done].
    + destruct (split_on sep l) as [|s ss].
      * repeat constructor. by apply not_elem_of_cons; split; [congruence|apply not_elem_of_nil].
      * apply Forall_cons in IH as [Hs Hss]. constructor; [|done].
        apply not_elem_of_cons; split; [congruence|done].
Qed.

Lemma split_on_fresh (sep : A) (l : list A) : sep ∉ l -> split_on sep l = [l].
Proof.
  induction l as [|x l IH]; intros Hs; [done|]. apply not_elem_of_cons in Hs as [Hx Hs]. simpl.
  destruct (decide (x = sep)) as [->|_]; [done|]. by rewrite IH.
Qed.

Lemma split_on_Forall (P : A -> Prop) (sep : A) (l : list A) :
  Forall P l -> Forall (Forall P) (split_on sep l).
Proof.
  induction 1 as [|x l Hx Hl IH]; simpl; [repeat constructor|].
  destruct (decide (x = sep)); [by constructor|].
  destruct (split_on sep l) as [|s ss]; [by repeat constructor|].
  apply Forall_cons in IH as [Hs Hss]. constructor; [by constructor|done].
Qed.

End SplitOn.
