(* ===== verification/Effects.v ===== *)
(** Effectful code as state passing: the monad of functions from a world to a
    result and a world, and its weakest preconditions.  Every component with
    effects of its own chooses its world; the rules are shared. *)

From S2P Require Import Prelude.

Definition ST (W A : Type) : Type := W -> A * W.

#[export] Instance st_ret {W} : MRet (ST W) := fun A a w => (a, w).
#[export] Instance st_bind {W} : MBind (ST W) := fun A B f m w => let '(a, w) := m w in f a w.

Definition st_get {W} : ST W W := fun w => (w, w).
Definition st_modify {W} (f : W -> W) : ST W unit := fun w => (tt, f w).

(** [if err := m; err != nil { return err }] followed by [k]. *)
Definition and_then {W E} (m k : ST W (option E)) : ST W (option E) :=
  e ← m; match e with Some err => mret (Some err) | None => k end.

(** [wp m Q w]: [m] run in [w] ends with a result and a world satisfying [Q]. *)
Definition wp {W A} (m : ST W A) (Q : A -> W -> Prop) (w : W) : Prop := Q (m w).1 (m w).2.

Section Rules.
Context {W : Type}.

Lemma wp_bind {A B} (m : ST W A) (f : A -> ST W B) Q w :
  wp (m ≫= f) Q w <-> wp m (fun a w' => wp (f a) Q w') w.
Proof. unfold wp, mbind, st_bind. by destruct (m w). Qed.

Lemma wp_ret {A} (a : A) (Q : A -> W -> Prop) w : wp (mret a) Q w <-> Q a w.
Proof. reflexivity. Qed.

Lemma wp_mono {A} (m : ST W A) (Q Q' : A -> W -> Prop) w :
  wp m Q w -> (forall a w', Q a w' -> Q' a w') -> wp m Q' w.
Proof. unfold wp. auto. Qed.

Lemma wp_elim {A} (m : ST W A) (Q : A -> W -> Prop) w : wp m Q w -> let '(a, w') := m w in Q a w'.
Proof. unfold wp. by destruct (m w). Qed.

Lemma wp_get (Q : W -> W -> Prop) w : Q w w -> wp st_get Q w.
Proof. done. Qed.

Lemma wp_modify (f : W -> W) (Q : unit -> W -> Prop) w : Q tt (f w) -> wp (st_modify f) Q w.
Proof. done. Qed.

End Rules.

(** Operations that append to a log in their world: what one appends,
    whatever the world it starts in. *)
Section Logs.
Context {W E : Type} (log : W -> list E).

Definition Logs {A} (m : ST W A) (P : A -> list E -> Prop) : Prop :=
  forall w, exists ev, log (m w).2 = log w ++ ev /\ P (m w).1 ev.

Lemma logs_ret {A} (a : A) (P : A -> list E -> Prop) : P a [] -> Logs (mret a) P.
Proof. intros HP w. exists []. by rewrite app_nil_r. Qed.

Lemma logs_mono {A} (m : ST W A) (P P' : A -> list E -> Prop) :
  Logs m P -> (forall a ev, P a ev -> P' a ev) -> Logs m P'.
Proof. intros Hm HP w. destruct (Hm w) as (ev & Hw & Ha). exists ev. eauto. Qed.

Lemma logs_bind {A B} (m : ST W A) (f : A -> ST W B) (P : A -> list E -> Prop) (Q : B -> list E -> Prop) :
  Logs m P -> (forall a ev, P a ev -> Logs (f a) (fun b ev' => Q b (ev ++ ev'))) -> Logs (m ≫= f) Q.
Proof.
  intros Hm Hf w. destruct (Hm w) as (ev & Hw & Ha). unfold mbind, st_bind.
  destruct (m w) as [a w1] eqn:Hmw. cbn [fst snd] in *.
  destruct (Hf a ev Ha w1) as (ev' & Hw' & Hb). exists (ev ++ ev'). by rewrite Hw', Hw, (assoc app).
Qed.

(** A step that logs nothing. *)
Lemma logs_silent {A B} (m : ST W A) (f : A -> ST W B) (Q : B -> list E -> Prop) :
  (forall w, log (m w).2 = log w) -> (forall a, Logs (f a) Q) -> Logs (m ≫= f) Q.
Proof.
  intros Hm Hf. apply logs_bind with (P := fun _ ev => ev = []).
  - intros w. exists []. by rewrite app_nil_r, Hm.
  - intros a ev ->. apply Hf.
Qed.

Lemma logs_wp {A} (m : ST W A) (P : A -> list E -> Prop) (Q : A -> W -> Prop) w :
  Logs m P -> (forall a w' ev, log w' = log w ++ ev -> P a ev -> Q a w') -> wp m Q w.
Proof. intros Hm HQ. destruct (Hm w) as (ev & Hw & Ha). by eapply HQ. Qed.

End Logs.
