(* ===== verification/GoInt.v ===== *)
(** Machine-width integers of Go as [Z] with the wrap-around of the
    conversions written out, bytes, and the accessors of [encoding/binary]'s
    [LittleEndian]. *)

From S2P Require Import Prelude.
Open Scope Z_scope.

(** [uintN(x)] and [intN(x)]. *)
Definition wrap (w x : Z) : Z := x `mod` 2 ^ w.
Definition swrap (w x : Z) : Z := (x + 2 ^ (w - 1)) `mod` 2 ^ w - 2 ^ (w - 1).

Abbreviation u8 := (wrap 8).
Abbreviation u16 := (wrap 16).
Abbreviation u32 := (wrap 32).
Abbreviation u64 := (wrap 64).
Abbreviation i8 := (swrap 8).
Abbreviation i16 := (swrap 16).
Abbreviation i32 := (swrap 32).
Abbreviation i64 := (swrap 64).

Definition in_range (w x : Z) : Prop := 0 <= x < 2 ^ w.
Abbreviation is_byte := (in_range 8).
Definition bytes_ok (l : list Z) : Prop := Forall is_byte l.

#[export] Instance in_range_dec w x : Decision (in_range w x).
Proof. unfold in_range. apply _. Defined.

(** [byte(x)], [byte(x >> 8)] ... of [PutUint16] and [PutUint32]. *)
Definition put_u16 (x : Z) : list Z := [u8 x; u8 (Z.shiftr x 8)].
Definition put_u32 (x : Z) : list Z :=
  [u8 x; u8 (Z.shiftr x 8); u8 (Z.shiftr x 16); u8 (Z.shiftr x 24)].

Definition le16 (a b : Z) : Z := Z.lor a (Z.shiftl b 8).
Definition le32 (a b c d : Z) : Z :=
  Z.lor (Z.lor (Z.lor a (Z.shiftl b 8)) (Z.shiftl c 16)) (Z.shiftl d 24).

(** [binary.LittleEndian.Uint16(l)]: panics on a short slice. *)
Definition Uint16 {E} (l : list Z) : go E Z :=
  match l with a :: b :: _ => Ok (le16 a b) | _ => Panic end.
Definition Uint32 {E} (l : list Z) : go E Z :=
  match l with a :: b :: c :: d :: _ => Ok (le32 a b c d) | _ => Panic end.

(** Total computations of the index monad. *)
Definition total {A} (m : go Empty_set A) : Prop := exists a, m = Ok a.

(** * Lemmas *)

Lemma u8_byte x : is_byte (u8 x).
Proof. unfold in_range, wrap. apply Z.mod_pos_bound. lia. Qed.

Lemma wrap_range w x : 0 <= w -> in_range w (wrap w x).
Proof. intros. apply Z.mod_pos_bound. lia. Qed.

Lemma wrap_id w x : in_range w x -> wrap w x = x.
Proof. intros. by apply Z.mod_small. Qed.

Lemma swrap_range w x : 0 < w -> - 2 ^ (w - 1) <= swrap w x < 2 ^ (w - 1).
Proof.
  intros. unfold swrap.
  assert (H2 : 2 ^ w = 2 * 2 ^ (w - 1)).
  { rewrite <- Z.pow_succ_r by lia. f_equal. lia. }
  pose proof (Z.mod_pos_bound (x + 2 ^ (w - 1)) (2 ^ w) ltac:(lia)). lia.
Qed.

Lemma swrap_id w x : 0 < w -> - 2 ^ (w - 1) <= x < 2 ^ (w - 1) -> swrap w x = x.
Proof.
  intros. unfold swrap.
  assert (H2 : 2 ^ w = 2 * 2 ^ (w - 1)).
  { rewrite <- Z.pow_succ_r by lia. f_equal. lia. }
  rewrite Z.mod_small by lia. lia.
Qed.

Lemma testbit_high w x i : in_range w x -> w <= i -> Z.testbit x i = false.
Proof.
  intros [H0 Hx] Hi. destruct (decide (w < 0)).
  { rewrite Z.pow_neg_r in Hx by lia. lia. }
  destruct (decide (x = 0)) as [->|Hnz]; [apply Z.bits_0|].
  apply Z.bits_above_log2; [lia|].
  apply Z.lt_le_trans with w; [|done]. apply Z.log2_lt_pow2; lia.
Qed.

Lemma testbit_range w x :
  0 <= w -> 0 <= x -> (forall i, w <= i -> Z.testbit x i = false) -> in_range w x.
Proof.
  intros Hw H0 Hb. split; [done|].
  rewrite <- (Z.mod_small x (2 ^ w)); [apply Z.mod_pos_bound; lia|].
  split; [done|]. destruct (decide (x = 0)) as [->|Hnz]; [lia|].
  apply Z.log2_lt_pow2; [lia|].
  destruct (decide (Z.log2 x < w)); [done|].
  specialize (Hb (Z.log2 x) ltac:(lia)). rewrite Z.bit_log2 in Hb by lia. done.
Qed.

(** Decides goals on bits of words whose bounds are known: the index is
    compared with the constants in the goal. *)
Ltac bits_rw :=
  repeat first
    [ rewrite Z.lxor_spec | rewrite Z.lor_spec | rewrite Z.land_spec
    | rewrite Z.shiftr_spec by lia | rewrite Z.shiftl_spec by lia
    | rewrite Z.testbit_mod_pow2 by lia ].

Lemma lxor_range w x y : 0 <= w -> in_range w x -> in_range w y -> in_range w (Z.lxor x y).
Proof.
  intros Hw Hx Hy. apply testbit_range; [done| |].
  - apply Z.lxor_nonneg. split; intros _; [apply Hy|apply Hx].
  - intros i Hi. bits_rw. by rewrite (testbit_high w x), (testbit_high w y).
Qed.

Lemma lor_range w x y : 0 <= w -> in_range w x -> in_range w y -> in_range w (Z.lor x y).
Proof.
  intros Hw Hx Hy. apply testbit_range; [done| |].
  - apply Z.lor_nonneg. split; [apply Hx|apply Hy].
  - intros i Hi. bits_rw. by rewrite (testbit_high w x), (testbit_high w y).
Qed.

Lemma shiftr_range w k x : 0 <= w -> 0 <= k -> in_range w x -> in_range w (Z.shiftr x k).
Proof.
  intros Hw Hk Hx. apply testbit_range; [done|apply Z.shiftr_nonneg, Hx|].
  intros i Hi. bits_rw. apply (testbit_high w); [done|lia].
Qed.

Lemma shiftl_range w k x :
  0 <= w -> 0 <= k -> in_range w x -> in_range (w + k) (Z.shiftl x k).
Proof.
  intros Hw Hk [H0 H1]. unfold in_range. rewrite Z.shiftl_mul_pow2, Z.pow_add_r by lia. nia.
Qed.

Lemma in_range_weaken w w' x : w <= w' -> in_range w x -> in_range w' x.
Proof.
  intros Hw [? Hx]. split; [done|]. eapply Z.lt_le_trans; [exact Hx|].
  by apply Z.pow_le_mono_r.
Qed.

(** A word is the sum of its bytes: the form in which [lia] computes. *)
Lemma lor_shiftl_add a b k : 0 <= k -> in_range k a -> Z.lor a (Z.shiftl b k) = a + b * 2 ^ k.
Proof.
  intros Hk Ha. rewrite <- Z.shiftl_mul_pow2 by done. symmetry. apply Z.add_nocarry_lor.
  apply Z.bits_inj'. intros i Hi. bits_rw. rewrite Z.bits_0.
  destruct (decide (i < k)).
  - by rewrite (Z.testbit_neg_r b), andb_false_r by lia.
  - by rewrite (testbit_high k a) by (done || lia).
Qed.

Lemma le16_add a b : is_byte a -> le16 a b = a + 256 * b.
Proof. intros. unfold le16. rewrite lor_shiftl_add by (lia || done). lia. Qed.

Lemma le32_add a b c d :
  is_byte a -> is_byte b -> is_byte c ->
  le32 a b c d = a + 256 * b + 65536 * c + 16777216 * d.
Proof.
  unfold in_range. intros Ha Hb Hc. unfold le32.
  rewrite (lor_shiftl_add a b 8) by (unfold in_range; lia).
  rewrite (lor_shiftl_add _ c 16) by (unfold in_range; lia).
  rewrite lor_shiftl_add by (unfold in_range; lia). lia.
Qed.

Lemma le16_range a b : is_byte a -> is_byte b -> in_range 16 (le16 a b).
Proof. intros. rewrite le16_add by done. unfold in_range in *. lia. Qed.

Lemma le32_range a b c d :
  is_byte a -> is_byte b -> is_byte c -> is_byte d -> in_range 32 (le32 a b c d).
Proof. intros. rewrite le32_add by done. unfold in_range in *. lia. Qed.

Lemma le16_put x : in_range 16 x -> le16 (u8 x) (u8 (Z.shiftr x 8)) = x.
Proof.
  unfold in_range. intros Hx. rewrite le16_add by apply u8_byte.
  unfold wrap. rewrite Z.shiftr_div_pow2 by lia.
  Z.to_euclidean_division_equations. lia.
Qed.

Lemma le32_put x :
  in_range 32 x ->
  le32 (u8 x) (u8 (Z.shiftr x 8)) (u8 (Z.shiftr x 16)) (u8 (Z.shiftr x 24)) = x.
Proof.
  unfold in_range. intros Hx. rewrite le32_add by apply u8_byte.
  unfold wrap. rewrite !Z.shiftr_div_pow2 by lia.
  Z.to_euclidean_division_equations. lia.
Qed.

Lemma put_u16_le16 a b : is_byte a -> is_byte b -> put_u16 (le16 a b) = [a; b].
Proof.
  unfold in_range. intros Ha Hb. unfold put_u16. rewrite le16_add by done.
  unfold wrap. rewrite Z.shiftr_div_pow2 by lia.
  do 2 f_equal; [|f_equal]; Z.to_euclidean_division_equations; lia.
Qed.

Lemma put_u32_le32 a b c d :
  is_byte a -> is_byte b -> is_byte c -> is_byte d ->
  put_u32 (le32 a b c d) = [a; b; c; d].
Proof.
  unfold in_range. intros Ha Hb Hc Hd. unfold put_u32. rewrite le32_add by done.
  unfold wrap. rewrite !Z.shiftr_div_pow2 by lia.
  repeat f_equal; Z.to_euclidean_division_equations; lia.
Qed.

Lemma put_u16_bytes x : bytes_ok (put_u16 x).
Proof. repeat constructor; apply u8_byte. Qed.

Lemma put_u32_bytes x : bytes_ok (put_u32 x).
Proof. repeat constructor; apply u8_byte. Qed.

Lemma bytes_ok_app l1 l2 : bytes_ok (l1 ++ l2) <-> bytes_ok l1 /\ bytes_ok l2.
Proof. apply Forall_app. Qed.

Lemma bytes_ok_take n l : bytes_ok l -> bytes_ok (take n l).
Proof. apply Forall_take. Qed.

Lemma bytes_ok_drop n l : bytes_ok l -> bytes_ok (drop n l).
Proof. apply Forall_drop. Qed.

Lemma bytes_ok_lookup l i x : bytes_ok l -> l !! i = Some x -> is_byte x.
Proof. intros H. by apply Forall_lookup_1. Qed.

(** Splits [bytes_ok] of an explicit list into its bytes. *)
Ltac bytes_list :=
  unfold bytes_ok; repeat first [apply List.Forall_nil | apply List.Forall_cons].

(** The same on hypotheses. *)
Ltac bytes_inv :=
  unfold bytes_ok in *;
  repeat match goal with H : Forall _ (_ :: _) |- _ => apply List.Forall_cons_iff in H as [? H] end.

(** ** Computations that index within bounds *)

Lemma total_ret {A} (a : A) : total (mret a).
Proof. by exists a. Qed.

Lemma total_bind {A B} (m : go Empty_set A) (f : A -> go Empty_set B) :
  total m -> (forall a, m = Ok a -> total (f a)) -> total (m ≫= f).
Proof. intros [a ->] Hf. by apply Hf. Qed.

Lemma total_index (l : list Z) i : (i < length l)%nat -> total (index l i).
Proof. intros H. destruct (@index_in_range Empty_set Z l i H) as (x & _ & ->). by exists x. Qed.

Lemma total_slice16 (l : list Z) lo hi :
  (lo + 2 = hi)%nat -> (hi <= length l)%nat -> total (b ← slice l lo hi; Uint16 b).
Proof.
  intros <- Hl. rewrite slice_ok by lia. cbn [mbind go_bind].
  replace (lo + 2 - lo)%nat with 2%nat by lia.
  pose proof (length_drop l lo). destruct (drop lo l) as [|a [|b m]]; simpl in *; try lia. by eexists.
Qed.

Lemma total_uint16 (l : list Z) lo : (lo + 2 <= length l)%nat -> total (b ← slice_from l lo; Uint16 b).
Proof.
  intros Hl. rewrite slice_from_ok by lia. cbn [mbind go_bind].
  pose proof (length_drop l lo). destruct (drop lo l) as [|a [|b m]]; simpl in *; try lia. by eexists.
Qed.

Lemma total_uint32 (l : list Z) lo : (lo + 4 <= length l)%nat -> total (b ← slice_from l lo; Uint32 b).
Proof.
  intros Hl. rewrite slice_from_ok by lia. cbn [mbind go_bind].
  pose proof (length_drop l lo).
  destruct (drop lo l) as [|a [|b [|c [|d m]]]]; simpl in *; try lia. by eexists.
Qed.

Lemma total_slice32 (l : list Z) lo hi :
  (lo + 4 = hi)%nat -> (hi <= length l)%nat -> total (b ← slice l lo hi; Uint32 b).
Proof.
  intros <- Hl. rewrite slice_ok by lia. cbn [mbind go_bind].
  replace (lo + 4 - lo)%nat with 4%nat by lia. pose proof (length_drop l lo).
  destruct (drop lo l) as [|a [|b [|c [|d m]]]]; simpl in *; try lia. by eexists.
Qed.

Lemma total_go_map {A B} (f : A -> go Empty_set B) l :
  (forall x, x ∈ l -> total (f x)) -> total (go_map f l).
Proof.
  induction l as [|x l IH]; intros Hf; simpl; [by eexists|].
  apply total_bind; [apply Hf; left|]. intros y _.
  apply total_bind; [apply IH; intros z Hz; apply Hf; by right|]. intros. by eexists.
Qed.

(** Walks through a computation, leaving the bounds of the indices. *)
Ltac total_step :=
  match goal with
  | |- total (mret _) => apply total_ret
  | |- total (Ok _) => by eexists
  | |- total (_ ≫= _) => apply total_bind; [|intros ? ?]
  | |- total (if _ then _ else _) => case_match
  | |- total (match _ with _ => _ end) => case_match
  | |- total (index _ _) => apply total_index
  end.
Ltac total_walk := repeat total_step.

Create HintDb bytes.
#[export] Hint Resolve u8_byte le16_range le32_range put_u16_bytes put_u32_bytes
  bytes_ok_take bytes_ok_drop bytes_ok_lookup : bytes.

(** A decidable fact of all bytes is checked one by one. *)
Lemma bytes_all (f : Z -> bool) : forallb f (map Z.of_nat (seq 0 256)) = true -> forall v, is_byte v -> f v = true.
Proof.
  intros Hf v Hv. unfold in_range in Hv. apply (proj1 (forallb_forall _ _) Hf). apply in_map_iff. exists (Z.to_nat v).
  split; [lia|]. apply in_seq. lia.
Qed.
