(* ===== verification/GoFloat.v ===== *)
(** [float64] of Go: IEEE-754 binary64 with round-to-nearest-even, on the
    executable [spec_float] of the Standard Library, and the functions of
    [math] the program uses. *)

From S2P Require Import Prelude.
From Stdlib Require Export Floats.SpecFloat.
Open Scope Z_scope.

Abbreviation float64 := spec_float.

Definition f_of_Z (z : Z) : float64 := binary_normalize 53 1024 z 0 false.
Definition fmul : float64 -> float64 -> float64 := SFmul 53 1024.
Definition fadd : float64 -> float64 -> float64 := SFadd 53 1024.
Definition fsub : float64 -> float64 -> float64 := SFsub 53 1024.
Definition fdiv : float64 -> float64 -> float64 := SFdiv 53 1024.
Definition fltb : float64 -> float64 -> bool := SFltb.
Definition fleb : float64 -> float64 -> bool := SFleb.
Definition feqb : float64 -> float64 -> bool := SFeqb.

(** The rational [n/d] correctly rounded: the quotient is computed to more bits
    than the format has, its last bit standing for the remainder. *)
Definition f_lit (n d : Z) : float64 :=
  let a := Z.abs n in
  let s := Z.max 0 (60 + Z.log2 d - Z.log2 a) in
  let q := a * 2 ^ s / d in
  let sticky := if a * 2 ^ s - q * d =? 0 then 0 else 1 in
  binary_normalize 53 1024 ((if n <? 0 then -1 else 1) * (2 * q + sticky)) (- s - 1) false.

Definition signed (s : bool) (z : Z) : Z := if s then - z else z.

(** Integer parts; the infinities and NaN, which no caller passes, give 0. *)
Definition f_floor (f : float64) : Z :=
  match f with
  | S754_finite s m e =>
    if 0 <=? e then signed s (Z.pos m * 2 ^ e) else signed s (Z.pos m) / 2 ^ (- e)
  | _ => 0
  end.
Definition f_ceil (f : float64) : Z := - f_floor (SFopp f).

(** [int64(f)] and [math.Round] (half away from zero). *)
Definition f_trunc (f : float64) : Z :=
  match f with
  | S754_finite s m e =>
    signed s (if 0 <=? e then Z.pos m * 2 ^ e else Z.pos m / 2 ^ (- e))
  | _ => 0
  end.
Definition f_round (f : float64) : Z :=
  match f with
  | S754_finite s m e =>
    signed s (if 0 <=? e then Z.pos m * 2 ^ e
              else (2 * Z.pos m + 2 ^ (- e)) / 2 ^ (- e + 1))
  | _ => 0
  end.

Example f_round_half : (f_round (f_lit 5 2), f_round (f_lit (-5) 2)) = (3, -3).
Proof. reflexivity. Qed.
Example f_ceil_95 : f_ceil (fmul (f_lit 95 100) (f_of_Z 20)) = 19.
Proof. reflexivity. Qed.
Example f_lit_tenth : f_lit 1 10 = fdiv (f_of_Z 1) (f_of_Z 10). Proof. reflexivity. Qed.
Example f_lit_neg : f_lit (-1234) 1000 = fdiv (f_of_Z (-1234)) (f_of_Z 1000).
Proof. reflexivity. Qed.

(** * Integers are exact below 2^53 *)

Lemma digits2_log2 p : Z.pos (digits2_pos p) = Z.log2 (Z.pos p) + 1.
Proof.
  induction p as [p IH|p IH|]; cbn [digits2_pos]; [| |done].
  - rewrite Pos2Z.inj_succ, IH, (Pos2Z.inj_xI p), Z.log2_succ_double by done. lia.
  - rewrite Pos2Z.inj_succ, IH, (Pos2Z.inj_xO p), Z.log2_double by done. lia.
Qed.

Lemma iter_pos_nat {A} (f : A -> A) n x : iter_pos f n x = Nat.iter (Pos.to_nat n) f x.
Proof.
  revert x. induction n as [n IH|n IH|]; intros x; cbn [iter_pos].
  - rewrite !IH, <- Nat.iter_add, Pos2Nat.inj_xI, Nat.iter_succ_r. f_equal. lia.
  - rewrite !IH, <- Nat.iter_add, Pos2Nat.inj_xO. f_equal. lia.
  - done.
Qed.

Lemma shr_1_even m : 0 < m -> shr_1 (Build_shr_record (2 * m) false false) = Build_shr_record m false false.
Proof. by destruct m. Qed.

Lemma shr_1_iter k q : 0 < q ->
  Nat.iter k shr_1 (Build_shr_record (q * 2 ^ Z.of_nat k) false false) = Build_shr_record q false false.
Proof.
  intros Hq. induction k as [|k IH]; [by rewrite Z.mul_1_r|]. rewrite Nat.iter_succ_r, <- IH. f_equal.
  rewrite Nat2Z.inj_succ, Z.pow_succ_r by lia.
  replace (q * (2 * 2 ^ Z.of_nat k)) with (2 * (q * 2 ^ Z.of_nat k)) by ring. apply shr_1_even. nia.
Qed.

(** Mantissas of 53 bits, possibly with zeros behind them. *)
Lemma binary_round_aux_exact q e k : Z.log2 (Z.pos q) = 52 -> 0 <= k -> -1074 <= e + k <= 971 ->
  forall p, Z.pos p = Z.pos q * 2 ^ k -> binary_round_aux 53 1024 false (Z.pos p) e loc_Exact = S754_finite false q (e + k).
Proof.
  intros Hq Hk He p Hp.
  assert (Hfexp : forall x, fexp 53 1024 (53 + e + x) = Z.max (e + x) (-1074)) by (intros x; unfold fexp, emin; lia).
  assert (Hlog : Z.log2 (Z.pos p) = 52 + k) by (rewrite Hp, <- Z.shiftl_mul_pow2, Z.log2_shiftl by lia; lia).
  unfold binary_round_aux, shr_fexp. cbn [shr_record_of_loc Zdigits2]. rewrite digits2_log2, Hlog.
  replace (52 + k + 1 + e) with (53 + e + k) by lia. rewrite Hfexp, Z.max_l by lia.
  assert (Hshr : shr (Build_shr_record (Z.pos p) false false) e (e + k - e) = (Build_shr_record (Z.pos q) false false, e + k)).
  { replace (e + k - e) with k by lia. unfold shr. destruct k as [|k|]; [|  |lia].
    - rewrite Z.mul_1_r in Hp. by rewrite Hp, Z.add_0_r.
    - rewrite iter_pos_nat, Hp. pose proof (shr_1_iter (Pos.to_nat k) (Z.pos q) eq_refl) as Hs.
      rewrite positive_nat_Z in Hs. by rewrite Hs. }
  rewrite Hshr. cbn [shr_m loc_of_shr_record round_nearest_even shr_record_of_loc Zdigits2]. rewrite digits2_log2, Hq.
  replace (52 + 1 + (e + k)) with (53 + e + k) by lia. rewrite Hfexp, Z.max_l, Z.sub_diag by lia. cbn [shr shr_m].
  by rewrite (proj2 (Z.leb_le _ _)) by lia.
Qed.

Lemma iter_xO p k : Z.pos (Pos.iter xO p k) = Z.pos p * 2 ^ Z.pos k.
Proof.
  induction k as [|k IH] using Pos.peano_ind; [simpl; lia|].
  rewrite Pos.iter_succ, Pos2Z.inj_xO, IH, Pos2Z.inj_succ, Z.pow_succ_r by done. ring.
Qed.

(** The float of an integer. *)
Definition mantissa (n : Z) : positive := Z.to_pos (n * 2 ^ (52 - Z.log2 n)).
Definition float_of (n : Z) : float64 := S754_finite false (mantissa n) (Z.log2 n - 52).

Lemma mantissa_spec n : 0 < n < 2 ^ 53 ->
  0 <= Z.log2 n <= 52 /\ Z.pos (mantissa n) = n * 2 ^ (52 - Z.log2 n) /\ Z.log2 (Z.pos (mantissa n)) = 52.
Proof.
  intros Hn. pose proof (Z.log2_nonneg n). assert (Z.log2 n < 53) by (apply Z.log2_lt_pow2; lia).
  assert (Hm : Z.pos (mantissa n) = n * 2 ^ (52 - Z.log2 n)).
  { unfold mantissa. apply Z2Pos.id. pose proof (Z.pow_pos_nonneg 2 (52 - Z.log2 n)). nia. }
  split; [lia|]. split; [done|]. rewrite Hm, <- Z.shiftl_mul_pow2, Z.log2_shiftl by lia. lia.
Qed.

Lemma f_of_Z_exact n : 0 < n < 2 ^ 53 -> f_of_Z n = float_of n.
Proof.
  intros Hn. destruct (mantissa_spec n Hn) as (Hl & Hm & Hlm). destruct n as [|p|]; try lia.
  unfold f_of_Z, binary_normalize, binary_round, float_of. rewrite digits2_log2.
  replace (fexp 53 1024 (Z.log2 (Z.pos p) + 1 + 0)) with (Z.log2 (Z.pos p) - 52) by (unfold fexp, emin; lia).
  unfold shl_align. rewrite Z.sub_0_r. destruct (Z.log2 (Z.pos p) - 52) as [|d|d] eqn:Hd; [| lia|].
  - replace (52 - Z.log2 (Z.pos p)) with 0 in Hm by lia.
    apply (binary_round_aux_exact (mantissa (Z.pos p)) 0 0); lia.
  - rewrite (binary_round_aux_exact (mantissa (Z.pos p)) (Z.neg d) 0 Hlm ltac:(lia) ltac:(lia));
      [by rewrite Z.add_0_r|]. rewrite iter_xO, Hm, Z.mul_1_r. do 2 f_equal. lia.
Qed.

(** * Integers beyond *)

Lemma shr_exponent r e n : e <= (shr r e n).2.
Proof. destruct n; cbn; lia. Qed.
(** Rounding keeps the sign and never lowers the exponent. *)
Lemma binary_round_aux_shape s m e l :
  match binary_round_aux 53 1024 s m e l with
  | S754_finite s' _ e' => s' = s /\ e <= e'
  | S754_infinity s' => s' = s
  | _ => True
  end.
Proof.
  unfold binary_round_aux, shr_fexp.
  pose proof (shr_exponent (shr_record_of_loc m l) e (fexp 53 1024 (Zdigits2 m + e) - e)) as H1.
  destruct (shr (shr_record_of_loc m l) e _) as [r1 e1]. cbn in H1.
  set (m1 := round_nearest_even _ _).
  pose proof (shr_exponent (shr_record_of_loc m1 loc_Exact) e1 (fexp 53 1024 (Zdigits2 m1 + e1) - e1)) as H2.
  destruct (shr (shr_record_of_loc m1 loc_Exact) e1 _) as [r2 e2]. cbn in H2.
  destruct (shr_m r2); [done| |done]. destruct (_ <=? _); [split; [done|lia]|done].
Qed.
(** At least 2^53: the exponent is not negative. *)
Lemma f_of_Z_beyond k : 2 ^ 53 <= k ->
  match f_of_Z k with S754_finite s _ e => s = false /\ 0 <= e | S754_infinity s => s = false | _ => True end.
Proof.
  intros Hk. destruct k as [|p|p]; [lia| |lia]. unfold f_of_Z, binary_normalize, binary_round.
  assert (53 <= Z.log2 (Z.pos p)) by (apply Z.log2_le_pow2; lia).
  rewrite digits2_log2. unfold shl_align.
  destruct (fexp 53 1024 (Z.log2 (Z.pos p) + 1 + 0) - 0) as [|d|d] eqn:Hd; [apply binary_round_aux_shape..|].
  exfalso. unfold fexp, emin in Hd. lia.
Qed.
Lemma f_of_Z_negative k : k < 0 ->
  match f_of_Z k with S754_finite s _ _ | S754_infinity s => s = true | _ => True end.
Proof.
  intros Hk. destruct k as [|p|p]; [lia..|]. unfold f_of_Z, binary_normalize, binary_round.
  destruct (shl_align _ _ _) as [m e]. pose proof (binary_round_aux_shape true (Z.pos m) e loc_Exact) as H.
  destruct (binary_round_aux _ _ _ _ _ _); try done. tauto.
Qed.

(** The order of integers is that of their floats. *)
Lemma float_of_ltb a b : 0 < a < 2 ^ 53 -> 0 < b < 2 ^ 53 -> fltb (float_of a) (float_of b) = (a <? b).
Proof.
  intros Ha Hb. destruct (mantissa_spec a Ha) as (La & Ma & Qa), (mantissa_spec b Hb) as (Lb & Mb & Qb).
  unfold fltb, SFltb, float_of. cbn [SFcompare].
  destruct (Z.compare_spec (Z.log2 a - 52) (Z.log2 b - 52)) as [He|He|He].
  - assert (Z.log2 a = Z.log2 b) as Hl by lia. change (Pos.compare_cont Eq (mantissa a) (mantissa b)) with (Z.pos (mantissa a) ?= Z.pos (mantissa b)).
    rewrite Ma, Mb, Hl. pose proof (Z.pow_pos_nonneg 2 (52 - Z.log2 b)). rewrite Z.ltb_compare.
    destruct (Z.compare_spec a b), (Z.compare_spec (a * 2 ^ (52 - Z.log2 b)) (b * 2 ^ (52 - Z.log2 b))); try done; nia.
  - symmetry. apply Z.ltb_lt. apply Z.log2_lt_cancel. lia.
  - symmetry. apply Z.ltb_ge. apply Z.lt_le_incl, Z.log2_lt_cancel. lia.
Qed.

Lemma f_lit_exact n : 0 < n < 2 ^ 53 -> f_lit n 1 = float_of n.
Proof.
  intros Hn. destruct (mantissa_spec n Hn) as (Hl & Hm & Hlm). unfold f_lit. rewrite Z.abs_eq by lia.
  change (Z.log2 1) with 0. rewrite Z.max_r, Z.div_1_r, Z.mul_1_r, Z.sub_diag by lia. change (0 =? 0) with true. cbv iota.
  rewrite (proj2 (Z.ltb_ge _ _)) by lia. set (s := 60 + 0 - Z.log2 n).
  assert (Hp : 1 * (2 * (n * 2 ^ s) + 0) = Z.pos (mantissa n) * 2 ^ 9).
  { rewrite Hm, <- Z.mul_assoc, <- Z.pow_add_r by lia. replace (52 - Z.log2 n + 9) with (Z.succ s) by lia.
    rewrite Z.pow_succ_r by lia. ring. }
  rewrite Hp. destruct (Z.pos (mantissa n) * 2 ^ 9) as [|p|] eqn:Hq; try lia.
  assert (Hlp : Z.log2 (Z.pos p) = 61) by (rewrite <- Hq, <- Z.shiftl_mul_pow2, Z.log2_shiftl by lia; lia).
  unfold binary_normalize, binary_round. rewrite digits2_log2, Hlp. unfold shl_align.
  replace (fexp 53 1024 (61 + 1 + (- s - 1))) with (8 - s) by (unfold fexp, emin; lia).
  replace (8 - s - (- s - 1)) with 9 by lia. unfold float_of.
  replace (Z.log2 n - 52) with (- s - 1 + 9) by lia.
  apply (binary_round_aux_exact (mantissa n) (- s - 1) 9); lia.
Qed.

Lemma f_trunc_exact n : 0 < n < 2 ^ 53 -> f_trunc (float_of n) = n.
Proof.
  intros Hn. destruct (mantissa_spec n Hn) as (Hl & Hm & Hlm). unfold float_of, f_trunc, signed. rewrite Hm.
  destruct (Z.leb_spec 0 (Z.log2 n - 52)).
  - replace (Z.log2 n - 52) with 0 by lia. replace (52 - Z.log2 n) with 0 by lia. lia.
  - replace (- (Z.log2 n - 52)) with (52 - Z.log2 n) by lia. apply Z.div_mul. apply Z.pow_nonzero; lia.
Qed.

Lemma float_of_sub n : fsub (float_of n) (float_of n) = S754_zero false.
Proof. unfold fsub, float_of, SFsub. by rewrite Z.sub_diag. Qed.
