(* ===== verification/GoSort.v ===== *)
(** [sort.Slice] as an interface.  Go's implementation is not stable, so a
    client may rely on nothing but the two laws: the result is a permutation
    of the input and no later element is less than an earlier one. *)

From S2P Require Import Prelude.

(** The precondition of [sort.Slice]: [less] is a strict weak ordering. *)
Record strict_weak {A} (less : A -> A -> bool) : Prop := mkStrictWeak {
  sw_irrefl : forall x, less x x = false;
  sw_trans : forall x y z, less x y = true -> less y z = true -> less x z = true;
  sw_incomp : forall x y z, less y x = false -> less z y = false -> less z x = false }.

Class SortSlice := mkSortSlice {
  sortSlice : forall {A}, (A -> A -> bool) -> list A -> list A;
  sortSlice_perm : forall A (less : A -> A -> bool) l, sortSlice less l ≡ₚ l;
  sortSlice_sorted : forall A (less : A -> A -> bool) l, strict_weak less ->
    StronglySorted (fun x y => less y x = false) (sortSlice less l) }.

(** The insertion sort Go runs on short slices. *)
Fixpoint insert_sorted {A} (less : A -> A -> bool) (x : A) (l : list A) : list A :=
  match l with
  | [] => [x]
  | y :: l' => if less y x then y :: insert_sorted less x l' else x :: l
  end.

Definition insertion_sort {A} (less : A -> A -> bool) (l : list A) : list A :=
  foldr (insert_sorted less) [] l.

Lemma insert_sorted_perm {A} (less : A -> A -> bool) x l : insert_sorted less x l ≡ₚ x :: l.
Proof.
  induction l as [|y l IH]; simpl; [done|]. destruct (less y x); [|done].
  rewrite IH. apply Permutation_swap.
Qed.

Lemma insertion_sort_perm {A} (less : A -> A -> bool) l : insertion_sort less l ≡ₚ l.
Proof.
  induction l as [|x l IH]; simpl; [done|]. by rewrite insert_sorted_perm, IH.
Qed.

Lemma insert_sorted_sorted {A} (less : A -> A -> bool) x l :
  strict_weak less ->
  StronglySorted (fun x y => less y x = false) l ->
  StronglySorted (fun x y => less y x = false) (insert_sorted less x l).
Proof.
  intros Hsw. induction 1 as [|y l Hl IH Hy]; simpl; [repeat constructor|].
  destruct (less y x) eqn:Hyx.
  - constructor; [done|]. rewrite insert_sorted_perm. constructor; [|done].
    destruct (less x y) eqn:Hxy; [|done].
    pose proof (sw_trans _ Hsw _ _ _ Hyx Hxy) as H. by rewrite (sw_irrefl _ Hsw) in H.
  - constructor; [by constructor|]. constructor; [done|].
    eapply Forall_impl; [exact Hy|]. intros z Hz. by eapply (sw_incomp _ Hsw).
Qed.

#[export] Program Instance insertion_SortSlice : SortSlice :=
  {| sortSlice := @insertion_sort |}.
Next Obligation. intros. apply insertion_sort_perm. Qed.
Next Obligation.
  intros A less l Hsw. induction l as [|x l IH]; simpl; [constructor|].
  by apply insert_sorted_sorted.
Qed.

Section SortFacts.
Context `{SortSlice} {A : Type}.
Implicit Types (less : A -> A -> bool) (l : list A).

Lemma sortSlice_length less l : length (sortSlice less l) = length l.
Proof. apply Permutation_length, sortSlice_perm. Qed.

Lemma elem_of_sortSlice less l x : x ∈ sortSlice less l <-> x ∈ l.
Proof. by rewrite sortSlice_perm. Qed.

Lemma sortSlice_NoDup less l : NoDup l -> NoDup (sortSlice less l).
Proof. by rewrite sortSlice_perm. Qed.

Lemma sortSlice_nil less : sortSlice less [] = [].
Proof. apply Permutation_nil_r, sortSlice_perm. Qed.

End SortFacts.

(** Orders given by a key in [Z]. *)
Lemma strict_weak_Z {A} (key : A -> Z) : strict_weak (fun x y => (key x <? key y)%Z).
Proof. split; intros *; rewrite ?Z.ltb_irrefl, ?Z.ltb_lt, ?Z.ltb_ge; lia. Qed.

Lemma strict_weak_nat {A} (key : A -> nat) : strict_weak (fun x y => (key x <? key y)%nat).
Proof. split; intros *; rewrite ?Nat.ltb_irrefl, ?Nat.ltb_lt, ?Nat.ltb_ge; lia. Qed.
