(* ===== verification/GoStrings.v ===== *)
(** The parts of [strings], [strconv] and [path] the program uses, on byte
    strings: Go strings are sequences of UTF-8 bytes, as Rocq's [string] is.
    [ToLower], [ToUpper] and [TrimSpace] act on the ASCII range. *)

From S2P Require Import Prelude.
From S2P Require Import GoSort.
From stdpp Require sorting.
From Stdlib Require Export Strings.Ascii.
From Stdlib Require Strings.String.
Open Scope Z_scope.
Open Scope list_scope.

Abbreviation chars := String.list_ascii_of_string.
Abbreviation of_chars := String.string_of_list_ascii.

Definition ord (c : ascii) : Z := Z.of_N (N_of_ascii c).
Definition chr (v : Z) : ascii := ascii_of_N (Z.to_N v).

(** [[]byte(s)] and [string(b)]. *)
Definition string_bytes (s : string) : list Z := ord <$> chars s.
Definition bytes_string (l : list Z) : string := of_chars (chr <$> l).

Definition strlen (s : string) : nat := String.length s.

Definition is_digit (c : ascii) : bool := (48 <=? ord c) && (ord c <=? 57).
Definition is_lower (c : ascii) : bool := (97 <=? ord c) && (ord c <=? 122).
Definition is_upper (c : ascii) : bool := (65 <=? ord c) && (ord c <=? 90).
Definition is_letter (c : ascii) : bool := is_lower c || is_upper c.

(** ASCII [unicode.IsSpace]. *)
Definition is_space (c : ascii) : bool := ((9 <=? ord c) && (ord c <=? 13)) || (ord c =? 32).

Definition to_lower (c : ascii) : ascii := if is_upper c then chr (ord c + 32) else c.
Definition to_upper (c : ascii) : ascii := if is_lower c then chr (ord c - 32) else c.

Definition ToLower (s : string) : string := of_chars (to_lower <$> chars s).
Definition ToUpper (s : string) : string := of_chars (to_upper <$> chars s).
Definition EqualFold (s t : string) : bool := bool_decide (ToLower s = ToLower t).

Fixpoint drop_while {A} (f : A -> bool) (l : list A) : list A :=
  match l with x :: l' => if f x then drop_while f l' else l | [] => [] end.

Definition trim_by {A} (f : A -> bool) (l : list A) : list A :=
  rev (drop_while f (rev (drop_while f l))).

(** The bytes a UTF-8 rune takes at the head of a string, one for a byte that
    starts none ([utf8.DecodeRune]). *)
Definition continues (lo hi : Z) (c : ascii) : bool := (lo <=? ord c) && (ord c <=? hi).

Definition rune_width (l : list ascii) : nat :=
  match l with
  | [] => 0
  | a :: rest =>
    let b := ord a in
    let second := if b =? 0xe0 then (0xa0, 0xbf) else if b =? 0xed then (0x80, 0x9f)
                  else if b =? 0xf0 then (0x90, 0xbf) else if b =? 0xf4 then (0x80, 0x8f)
                  else (0x80, 0xbf) in
    let want := if (0xc2 <=? b) && (b <=? 0xdf) then 2%nat
                else if (0xe0 <=? b) && (b <=? 0xef) then 3%nat
                else if (0xf0 <=? b) && (b <=? 0xf4) then 4%nat else 1%nat in
    match take (want - 1) rest with
    | [] => 1%nat
    | c :: tail =>
      if (length tail =? want - 2)%nat && continues second.1 second.2 c &&
         forallb (continues 0x80 0xbf) tail
      then want else 1%nat
    end
  end.

(** [strings.Map] with a mapping that keeps or replaces a rune by one byte:
    [f] is told the byte of an ASCII rune, [None] for every other rune. *)
Fixpoint map_runes (fuel : nat) (f : option ascii -> ascii) (l : list ascii) : list ascii :=
  match fuel, l with
  | S fuel, a :: _ =>
    f (if ord a <? 128 then Some a else None) :: map_runes fuel f (drop (rune_width l) l)
  | _, _ => []
  end.
Definition Map (f : option ascii -> ascii) (s : string) : string :=
  of_chars (map_runes (strlen s) f (chars s)).

Definition TrimSpace (s : string) : string := of_chars (trim_by is_space (chars s)).
Definition TrimFunc (f : ascii -> bool) (s : string) : string := of_chars (trim_by f (chars s)).
Definition TrimLeftFunc (f : ascii -> bool) (s : string) : string := of_chars (drop_while f (chars s)).
Definition TrimRightFunc (f : ascii -> bool) (s : string) : string :=
  of_chars (rev (drop_while f (rev (chars s)))).

Fixpoint is_prefix {A} `{EqDecision A} (p l : list A) : bool :=
  match p, l with
  | [], _ => true
  | x :: p', y :: l' => bool_decide (x = y) && is_prefix p' l'
  | _ :: _, [] => false
  end.

Definition HasPrefix (s p : string) : bool := is_prefix (chars p) (chars s).
Definition HasSuffix (s p : string) : bool := is_prefix (rev (chars p)) (rev (chars s)).
Definition TrimPrefix (s p : string) : string :=
  if HasPrefix s p then of_chars (drop (strlen p) (chars s)) else s.
Definition TrimSuffix (s p : string) : string :=
  if HasSuffix s p then of_chars (take (strlen s - strlen p) (chars s)) else s.

(** Position of the first occurrence of [p], [strings.Index]. *)
Fixpoint index_of {A} `{EqDecision A} (p l : list A) : option nat :=
  if is_prefix p l then Some 0%nat else
  match l with [] => None | _ :: l' => S <$> index_of p l' end.

Definition Index (s p : string) : option nat := index_of (chars p) (chars s).
Definition Contains (s p : string) : bool := bool_decide (is_Some (Index s p)).

Infix "+++" := String.append (right associativity, at level 60) : string_scope.

(** [strings.Split] with a one-byte separator, [strings.Fields], [strings.Join]. *)
Definition Split1 (s : string) (sep : ascii) : list string := of_chars <$> split_on sep (chars s).

Fixpoint fields_loop (cur : list ascii) (l : list ascii) : list (list ascii) :=
  match l with
  | [] => match cur with [] => [] | _ => [rev cur] end
  | c :: l' => if is_space c
               then match cur with [] => fields_loop [] l' | _ => rev cur :: fields_loop [] l' end
               else fields_loop (c :: cur) l'
  end.
Definition Fields (s : string) : list string := of_chars <$> fields_loop [] (chars s).

Definition Join (l : list string) (sep : string) : string :=
  match l with
  | [] => EmptyString
  | x :: l' => fold_left (fun acc y => String.append acc (String.append sep y)) l' x
  end.

(** [strconv]: unsigned decimal digits and [Atoi]'s optional sign, the value
    refused outside the target range as [ParseInt] and [ParseUint] do. *)
Fixpoint digits_value (base : Z) (acc : Z) (l : list Z) : Z :=
  match l with [] => acc | d :: l' => digits_value base (acc * base + d) l' end.

Definition digit_of (base : Z) (c : ascii) : option Z :=
  let v := if is_digit c then ord c - 48
           else if is_lower c then ord c - 87
           else if is_upper c then ord c - 55 else base in
  if v <? base then Some v else None.

Definition parse_digits (base : Z) (s : list ascii) : option Z :=
  match s with
  | [] => None
  | _ => ds ← mapM (digit_of base) s; mret (digits_value base 0 ds)
  end.

(** [strconv.ParseUint(s, base, bits)] for an explicit base. *)
Definition ParseUint (s : string) (base bits : Z) : option Z :=
  v ← parse_digits base (chars s); if v <? 2 ^ bits then Some v else None.

Definition ParseInt (s : string) (base bits : Z) : option Z :=
  match chars s with
  | c :: l =>
    if ord c =? 45 then
      v ← parse_digits base l; if v <=? 2 ^ (bits - 1) then Some (- v) else None
    else
      v ← parse_digits base (if ord c =? 43 then l else c :: l);
      if v <? 2 ^ (bits - 1) then Some v else None
  | [] => None
  end.

Definition Atoi (s : string) : option Z := ParseInt s 10 64.

(** [strconv.ParseUint(s, 0, bits)]: the base is read from the prefix, and an
    underscore may stand between the prefix and the digits or between two
    digits. *)
Fixpoint underscores_ok (after_digit : bool) (l : list ascii) : bool :=
  match l with
  | [] => after_digit
  | c :: l' => if ord c =? 95 then after_digit && underscores_ok false l' else underscores_ok true l'
  end.

Definition base_prefix (l : list ascii) : Z * list ascii :=
  match l with
  | c :: d :: e :: l' =>
    if ord c =? 48 then
      let d' := ord (to_lower d) in
      if d' =? 98 then (2, e :: l') else if d' =? 111 then (8, e :: l') else if d' =? 120 then (16, e :: l')
      else (8, d :: e :: l')
    else (10, l)
  | c :: l' => if ord c =? 48 then (8, l') else (10, l)
  | [] => (10, l)
  end.

Definition ParseUint0 (s : string) (bits : Z) : option Z :=
  match chars s with
  | [] => None
  | l =>
    let '(base, body) := base_prefix l in
    ds ← mapM (digit_of base) (List.filter (fun c => negb (ord c =? 95)) body);
    let v := digits_value base 0 ds in
    if (v <? 2 ^ bits) && underscores_ok (negb (base =? 10)) body then Some v else None
  end.

(** [hex.DecodeString]. *)
Fixpoint hex_pairs (l : list ascii) : option (list Z) :=
  match l with
  | [] => Some []
  | [_] => None
  | c :: d :: l' =>
    hi ← digit_of 16 c; lo ← digit_of 16 d; rest ← hex_pairs l'; mret (16 * hi + lo :: rest)
  end.
Definition hex_DecodeString (s : string) : option (list Z) := hex_pairs (chars s).

(** [strconv.Itoa]. *)
Fixpoint dec_digits (fuel : nat) (n : Z) (acc : list ascii) : list ascii :=
  match fuel with
  | O => acc
  | S fuel => let acc := chr (48 + n `mod` 10) :: acc in
              if n / 10 =? 0 then acc else dec_digits fuel (n / 10) acc
  end.
Definition Itoa (n : Z) : string :=
  if n <? 0 then of_chars (chr 45 :: dec_digits (Z.to_nat (Z.log2 (- n)) + 1) (- n) [])
  else of_chars (dec_digits (Z.to_nat (Z.log2 n) + 1) n []).

(** The order of Go strings and [sort.Strings]. *)
Fixpoint chars_less (l m : list ascii) : bool :=
  match l, m with
  | _, [] => false
  | [], _ :: _ => true
  | a :: l', b :: m' => (ord a <? ord b) || ((ord a =? ord b) && chars_less l' m')
  end.
Definition string_less (s t : string) : bool := chars_less (chars s) (chars t).
Definition sort_Strings `{SortSlice} (l : list string) : list string := sortSlice string_less l.

(** [path.Clean] and [path.Join]: the lexical processing of Go's [path]. *)
Fixpoint clean_elems (rooted : bool) (out : list string) (l : list string) : list string :=
  match l with
  | [] => rev out
  | e :: l' =>
    if bool_decide (e = ""%string) || bool_decide (e = "."%string) then clean_elems rooted out l'
    else if bool_decide (e = ".."%string) then
      match out with
      | o :: out' => if bool_decide (o = ".."%string) then clean_elems rooted (e :: out) l'
                     else clean_elems rooted out' l'
      | [] => if rooted then clean_elems rooted [] l' else clean_elems rooted [e] l'
      end
    else clean_elems rooted (e :: out) l'
  end.

Definition slash : ascii := chr 47.

Definition Clean (p : string) : string :=
  let rooted := HasPrefix p "/" in
  let body := Join (clean_elems rooted [] (Split1 p slash)) "/" in
  if rooted then String slash body
  else if bool_decide (body = EmptyString) then "."%string else body.

Definition path_Join (elems : list string) : string :=
  match List.filter (fun e => negb (bool_decide (e = EmptyString))) elems with
  | [] => EmptyString
  | l => Clean (Join l "/")
  end.

(** [path.Dir] and [path.Base]. *)
Definition Dir (p : string) : string :=
  Clean (of_chars (rev (drop_while (fun c => negb (bool_decide (c = slash))) (rev (chars p))))).
Definition Base (p : string) : string :=
  if bool_decide (p = EmptyString) then "."%string
  else match drop_while (fun c => bool_decide (c = slash)) (rev (chars p)) with
       | [] => "/"%string
       | l => of_chars (rev (List.fold_right (fun c acc => if bool_decide (c = slash) then [] else c :: acc) [] l))
       end.

(** [strings.ReplaceAll] of one byte. *)
Definition ReplaceByte (s : string) (old : ascii) (new : string) : string :=
  of_chars (flat_map (fun c => if bool_decide (c = old) then chars new else [c]) (chars s)).

Example base_dir : (Base <$> ["/a/b.txt"; "/a/b/"; "b"; "///"; ""])%string = ["b.txt"; "b"; "b"; "/"; "."]%string /\
  (Dir <$> ["/a/b.txt"; "/a/b/"; "b"; "/"])%string = ["/a"; "/a/b"; "."; "/"]%string.
Proof. split; vm_compute; reflexivity. Qed.

(** * The order of strings *)

Lemma ord_inj a b : ord a = ord b -> a = b.
Proof. unfold ord. intros H%N2Z.inj. by rewrite <- (ascii_N_embedding a), H, ascii_N_embedding. Qed.

Lemma chars_inj s t : chars s = chars t -> s = t.
Proof.
  intros H. by rewrite <- (String.string_of_list_ascii_of_string s), H, String.string_of_list_ascii_of_string.
Qed.

Lemma chars_of_chars l : chars (of_chars l) = l.
Proof. apply String.list_ascii_of_string_of_list_ascii. Qed.
Lemma of_chars_chars s : of_chars (chars s) = s.
Proof. apply String.string_of_list_ascii_of_string. Qed.
Lemma length_chars s : length (chars s) = strlen s.
Proof. induction s; simpl; [done|]. by f_equal. Qed.

Lemma chars_less_trichotomy l m : chars_less l m = false -> chars_less m l = false -> l = m.
Proof.
  revert m. induction l as [|a l IH]; intros [|b m]; simpl; intros H1 H2; try done.
  bool_to_prop. assert (Hab : ord a = ord b) by lia. rewrite Hab, Z.eqb_refl in *. simpl in *.
  by rewrite (ord_inj a b Hab), (IH m).
Qed.

Lemma chars_less_sw : strict_weak chars_less.
Proof.
  split.
  - induction x as [|a x IH]; simpl; [done|]. by rewrite Z.ltb_irrefl, IH, andb_false_r.
  - induction x as [|a x IH]; intros [|b y] [|c z]; simpl; try done.
    rewrite !orb_true_iff, !andb_true_iff, !Z.ltb_lt, !Z.eqb_eq.
    intros [?|[? H1]] [?|[? H2]]; [left; lia..|]. right. split; [lia|by eapply IH].
  - induction x as [|a x IH]; intros [|b y] [|c z]; simpl; try done.
    rewrite !orb_false_iff, !andb_false_iff, !Z.ltb_ge, !Z.eqb_neq.
    intros [? H1] [? H2]. split; [lia|]. destruct (decide (ord c = ord a)) as [Hca|]; [|by left].
    right. destruct H1 as [?|H1]; [lia|]. destruct H2 as [?|H2]; [lia|]. by eapply IH.
Qed.

Lemma string_less_sw : strict_weak string_less.
Proof. unfold string_less. split; intros *; apply chars_less_sw. Qed.

(** Sorted strings do not depend on the order they come in. *)
Lemma sort_Strings_perm `{SortSlice} l1 l2 : l1 ≡ₚ l2 -> sort_Strings l1 = sort_Strings l2.
Proof.
  intros Hp. unfold sort_Strings.
  assert (AntiSymm (=) (fun x y => string_less y x = false)).
  { intros x y H1 H2. apply chars_inj. by apply chars_less_trichotomy. }
  eapply (sorting.StronglySorted_unique (fun x y => string_less y x = false));
    [apply sortSlice_sorted, string_less_sw..|]. by rewrite !sortSlice_perm.
Qed.

(** * Values of digit strings *)

Lemma digit_of_nonneg base c d : digit_of base c = Some d -> 0 <= base -> 0 <= d.
Proof.
  unfold digit_of, is_digit, is_lower, is_upper. intros Hd Hb.
  repeat case_match; try done; bool_to_prop; injection Hd as <-; lia.
Qed.

Lemma digits_value_nonneg base acc l :
  0 <= base -> 0 <= acc -> Forall (fun d => 0 <= d) l -> 0 <= digits_value base acc l.
Proof.
  intros Hb Ha Hl. revert acc Ha. induction Hl as [|d l Hd _ IH]; intros acc Ha; [done|].
  cbn [digits_value]. apply IH. nia.
Qed.

Lemma digits_nonneg base l ds :
  0 <= base -> mapM (digit_of base) l = Some ds -> Forall (fun d => 0 <= d) ds.
Proof.
  intros Hb H. apply mapM_Some in H. induction H as [|c d l ds Hd _ IH]; constructor; [|done].
  by eapply digit_of_nonneg.
Qed.

Lemma base_prefix_nonneg l : 0 <= (base_prefix l).1.
Proof. unfold base_prefix. repeat case_match; simpl; lia. Qed.

Lemma ParseUint0_range s bits v : ParseUint0 s bits = Some v -> 0 <= v < 2 ^ bits.
Proof.
  unfold ParseUint0. destruct (chars s) as [|c l]; [done|].
  pose proof (base_prefix_nonneg (c :: l)) as Hb. destruct (base_prefix (c :: l)) as [base body].
  simpl in Hb. destruct (mapM (digit_of base) _) as [ds|] eqn:Hds; [|done]. cbn [mbind option_bind].
  destruct (digits_value base 0 ds <? 2 ^ bits) eqn:Hv; [|done]. case_match; [|done]. intros [= <-].
  split; [|by apply Z.ltb_lt in Hv]. apply digits_value_nonneg; [done|done|by eapply digits_nonneg].
Qed.

Lemma ParseUint_range s base bits v : 0 <= base -> ParseUint s base bits = Some v -> 0 <= v < 2 ^ bits.
Proof.
  intros Hb. unfold ParseUint, parse_digits. destruct (chars s) as [|c l]; [done|].
  destruct (mapM (digit_of base) _) as [ds|] eqn:Hds; [|done]. cbn [mbind option_bind mret option_ret].
  destruct (digits_value base 0 ds <? 2 ^ bits) eqn:Hv; [|done]. intros [= <-].
  split; [|by apply Z.ltb_lt in Hv]. apply digits_value_nonneg; [done|done|by eapply digits_nonneg].
Qed.

Example atoi_1 : Atoi "-0123" = Some (-123). Proof. reflexivity. Qed.
Example atoi_2 : Atoi "12a" = None. Proof. reflexivity. Qed.
Example itoa_1 : Itoa (-1050) = "-1050"%string. Proof. reflexivity. Qed.
Example clean_1 : Clean "/a/../../b//./c/" = "/b/c"%string. Proof. reflexivity. Qed.
Example clean_2 : Clean "../a/.." = ".."%string. Proof. reflexivity. Qed.
Example fields_1 : Fields "  a bc  " = ["a"; "bc"]%string. Proof. reflexivity. Qed.
Example uint0_1 : ParseUint0 "0x7B_49e" 32 = Some 504990. Proof. reflexivity. Qed.
Example uint0_2 : ParseUint0 "010" 32 = Some 8. Proof. reflexivity. Qed.
Example uint0_3 : ParseUint0 "1__0" 32 = None. Proof. reflexivity. Qed.
Example uint0_4 : ParseUint0 "0" 32 = Some 0. Proof. reflexivity. Qed.

(** * Decimal numbers and fields *)

Lemma ord_chr v : 0 <= v < 256 -> ord (chr v) = v.
Proof.
  intros Hv. unfold ord, chr. rewrite N_ascii_embedding by lia. lia.
Qed.

Lemma digit_char d : 0 <= d < 10 -> digit_of 10 (chr (48 + d)) = Some d /\ is_space (chr (48 + d)) = false.
Proof.
  intros Hd. unfold digit_of, is_digit, is_space. rewrite ord_chr by lia.
  destruct (Z.leb_spec 48 (48 + d)); [|lia]. destruct (Z.leb_spec (48 + d) 57); [|lia]. cbn [andb].
  replace (48 + d - 48) with d by lia. destruct (Z.ltb_spec d 10); [|lia]. split; [done|].
  destruct (Z.leb_spec (48 + d) 13); [lia|]. rewrite andb_false_r. cbn [orb]. apply Z.eqb_neq. lia.
Qed.

Lemma digits_value_app base acc l1 l2 :
  digits_value base acc (l1 ++ l2) = digits_value base (digits_value base acc l1) l2.
Proof. revert acc. induction l1; intros acc; simpl; auto. Qed.

(** The digits written are those of the number, in front of what was there. *)
Lemma dec_digits_spec fuel n acc :
  0 <= n < 2 ^ Z.of_nat fuel -> (0 < fuel)%nat ->
  exists ds, dec_digits fuel n acc = ((fun d => chr (48 + d)) <$> ds) ++ acc /\ ds <> [] /\
    Forall (fun d => 0 <= d < 10) ds /\ digits_value 10 0 ds = n.
Proof.
  revert n acc. induction fuel as [|fuel IH]; intros n acc Hn Hf; [lia|]. cbn [dec_digits].
  pose proof (Z.mod_pos_bound n 10) as Hm. pose proof (Z.div_mod n 10) as Hd.
  destruct (Z.eqb_spec (n / 10) 0) as [H0|H0].
  - exists [n `mod` 10]. split_and!; [done|done|repeat constructor; lia|]. simpl. lia.
  - assert (Hpos : 0 < n / 10) by (pose proof (Z.div_pos n 10); lia).
    assert (Hlt : n / 10 < 2 ^ Z.of_nat fuel).
    { apply Z.div_lt_upper_bound; [lia|]. rewrite Nat2Z.inj_succ, Z.pow_succ_r in Hn by lia. lia. }
    assert (Hf' : (0 < fuel)%nat) by (destruct fuel; [simpl in Hlt; lia|lia]).
    destruct (IH (n / 10) (chr (48 + n `mod` 10) :: acc)) as (ds & -> & Hne & Hall & Hv); [lia|done|].
    exists (ds ++ [n `mod` 10]). split_and!.
    + by rewrite fmap_app, <- app_assoc.
    + by destruct ds.
    + apply Forall_app. split; [done|]. repeat constructor; lia.
    + rewrite digits_value_app, Hv. simpl. lia.
Qed.

Lemma Itoa_digits n :
  0 <= n -> exists ds, chars (Itoa n) = (fun d => chr (48 + d)) <$> ds /\ ds <> [] /\
    Forall (fun d => 0 <= d < 10) ds /\ digits_value 10 0 ds = n.
Proof.
  intros Hn. unfold Itoa. destruct (Z.ltb_spec n 0); [lia|].
  destruct (dec_digits_spec (Z.to_nat (Z.log2 n) + 1) n []) as (ds & Hds & Hne & Hall & Hv); [|lia|].
  - split; [done|]. rewrite Nat2Z.inj_add, Z2Nat.id by apply Z.log2_nonneg.
    replace (Z.log2 n + Z.of_nat 1) with (Z.succ (Z.log2 n)) by lia.
    destruct (decide (n = 0)) as [->|]; [done|]. apply Z.log2_spec. lia.
  - exists ds. rewrite String.list_ascii_of_string_of_list_ascii, Hds, app_nil_r. done.
Qed.

Lemma parse_digits_written ds :
  ds <> [] -> Forall (fun d => 0 <= d < 10) ds ->
  parse_digits 10 ((fun d => chr (48 + d)) <$> ds) = Some (digits_value 10 0 ds).
Proof.
  intros Hne Hall. unfold parse_digits.
  assert (Hm : mapM (digit_of 10) ((fun d => chr (48 + d)) <$> ds) = Some ds).
  { apply mapM_Some. clear Hne. induction Hall as [|d ds Hd _ IH]; [constructor|].
    constructor; [by apply digit_char|done]. }
  rewrite Hm. by destruct ds.
Qed.

(** [Atoi] inverts [Itoa]. *)
Lemma Atoi_Itoa n : 0 <= n < 2 ^ 63 -> Atoi (Itoa n) = Some n.
Proof.
  intros Hn. destruct (Itoa_digits n) as (ds & Hc & Hne & Hall & Hv); [lia|].
  unfold Atoi, ParseInt. rewrite Hc. destruct ds as [|d ds]; [done|].
  pose proof (Forall_inv Hall) as Hd. cbv beta in Hd. cbn [fmap list_fmap]. rewrite ord_chr by lia.
  destruct (Z.eqb_spec (48 + d) 45); [lia|]. destruct (Z.eqb_spec (48 + d) 43); [lia|].
  change (chr (48 + d) :: _) with ((fun d => chr (48 + d)) <$> d :: ds).
  rewrite parse_digits_written, Hv by done. cbn [mbind option_bind].
  destruct (Z.ltb_spec n (2 ^ (64 - 1))); [done|]. lia.
Qed.

(** Words are non-empty and have no space. *)
Definition word (s : string) : Prop := chars s <> [] /\ Forall (fun c => is_space c = false) (chars s).

Lemma Itoa_word n : 0 <= n -> word (Itoa n).
Proof.
  intros Hn. destruct (Itoa_digits n Hn) as (ds & Hc & Hne & Hall & _). unfold word. rewrite Hc.
  split; [by destruct ds|]. apply Forall_fmap. eapply Forall_impl; [exact Hall|]. intros d Hd. by apply digit_char.
Qed.

Lemma fields_loop_word cur w rest :
  Forall (fun c => is_space c = false) w ->
  fields_loop cur (w ++ rest) = fields_loop (rev w ++ cur) rest.
Proof.
  intros Hw. revert cur. induction Hw as [|c w Hc _ IH]; intros cur; [done|].
  simpl. rewrite Hc, IH, <- app_assoc. done.
Qed.

Lemma chars_append s t : chars (String.append s t) = chars s ++ chars t.
Proof. induction s; simpl; [done|]. by f_equal. Qed.

Lemma append_assoc s t u : String.append (String.append s t) u = String.append s (String.append t u).
Proof. apply chars_inj. by rewrite !chars_append, app_assoc. Qed.

Lemma chars_Join_words x l :
  chars (Join (x :: l) " ") = chars x ++ mjoin ((fun y => chr 32 :: chars y) <$> l).
Proof.
  unfold Join. revert x. induction l as [|y l IH]; intros x; [by rewrite app_nil_r|].
  cbn [fold_left]. rewrite IH, !chars_append, <- app_assoc. done.
Qed.

Lemma Fields_Join l : Forall word l -> Fields (Join l " ") = l.
Proof.
  intros Hl. unfold Fields. destruct l as [|x l]; [done|]. rewrite chars_Join_words.
  apply Forall_cons in Hl as [[Hne Hx] Hl].
  rewrite fields_loop_word by done. rewrite app_nil_r.
  assert (Hgo : forall cur, cur <> [] ->
    fields_loop cur (mjoin ((fun y => chr 32 :: chars y) <$> l)) = rev cur :: (chars <$> l)).
  { clear -Hl. induction Hl as [|y l [Hne Hy] Hl IH]; intros cur Hcur.
    - by destruct cur.
    - cbn [fmap list_fmap mjoin list_join app fields_loop]. change (is_space (chr 32)) with true. cbv iota.
      destruct cur as [|c cur]; [done|]. f_equal. rewrite fields_loop_word, app_nil_r by done.
      rewrite IH, rev_involutive; [done|]. by intros Hr%(f_equal (@rev _)); rewrite rev_involutive in Hr. }
  rewrite Hgo by (by intros Hr%(f_equal (@rev _)); rewrite rev_involutive in Hr).
  rewrite rev_involutive. cbn [fmap list_fmap]. rewrite String.string_of_list_ascii_of_string. f_equal.
  rewrite <- list_fmap_compose. rewrite <- (list_fmap_id l) at 2. apply list_fmap_ext. intros i y _. simpl.
  apply String.string_of_list_ascii_of_string.
Qed.

(** Trimming what has nothing to trim. *)
Lemma drop_while_none {A} (f : A -> bool) l : Forall (fun c => f c = false) l -> drop_while f l = l.
Proof. destruct 1 as [|c l Hc _]; [done|]. cbn [drop_while]. by rewrite Hc. Qed.

Lemma TrimFunc_none f s : Forall (fun c => f c = false) (chars s) -> TrimFunc f s = s.
Proof.
  intros H. unfold TrimFunc, trim_by. rewrite (drop_while_none f (chars s)) by done.
  rewrite (drop_while_none f (rev (chars s))) by (apply List.Forall_rev; exact H).
  rewrite rev_involutive. apply String.string_of_list_ascii_of_string.
Qed.

(** ** The numerals [strconv.Atoi] reads *)

(** An optional sign and decimal digits, leading zeros included, with a value of 64 bits. *)
Definition numeral (l : list ascii) (n : Z) : Prop :=
  exists sign ds, l = (sign ++ ((fun d => chr (48 + d)) <$> ds))%list /\ ds <> [] /\ Forall (fun d => 0 <= d < 10) ds /\
    ((sign = [] \/ sign = [chr 43]) /\ n = digits_value 10 0 ds /\ n < 2 ^ 63 \/
     sign = [chr 45] /\ n = - digits_value 10 0 ds /\ - 2 ^ 63 <= n).

Lemma digit_of_inv c d : digit_of 10 c = Some d -> 0 <= d < 10 /\ c = chr (48 + d).
Proof.
  destruct c as [[] [] [] [] [] [] [] []]; intros H; vm_compute in H; try discriminate; injection H as <-; (split; [lia|reflexivity]).
Qed.

Lemma parse_digits_inv l v : parse_digits 10 l = Some v ->
  exists ds, l = ((fun d => chr (48 + d)) <$> ds)%list /\ ds <> [] /\ Forall (fun d => 0 <= d < 10) ds /\ v = digits_value 10 0 ds.
Proof.
  unfold parse_digits. destruct l as [|c l]; [done|]. intros (ds & Hds & [= <-])%bind_Some. exists ds. apply mapM_Some in Hds.
  split; [|split; [by inversion Hds|split; [|done]]].
  - induction Hds as [|c' d l' ds' Hd _ IH]; [done|]. apply digit_of_inv in Hd as [_ ->]. by rewrite fmap_cons, <- IH.
  - induction Hds as [|c' d l' ds' Hd _ IH]; [constructor|]. apply digit_of_inv in Hd as [Hd _]. by constructor.
Qed.

Lemma chr_of_ord c : chr (ord c) = c.
Proof. unfold chr, ord. by rewrite N2Z.id, ascii_N_embedding. Qed.

Lemma Atoi_numeral s n : Atoi s = Some n -> numeral (chars s) n.
Proof.
  unfold Atoi, ParseInt. destruct (chars s) as [|c l]; [done|].
  assert (Hc : forall k, 0 <= k < 256 -> ord c = k -> c = chr k) by (intros k Hk <-; symmetry; apply chr_of_ord).
  destruct (Z.eqb_spec (ord c) 45) as [E|_].
  - intros (v & (ds & -> & Hne & Hd & ->)%parse_digits_inv & H)%bind_Some.
    destruct (Z.leb_spec (digits_value 10 0 ds) (2 ^ (64 - 1))); [|done]. injection H as <-.
    exists [c], ds. split; [by rewrite ?Hl|]. split; [done|]. split; [done|]. right. split; [by rewrite (Hc 45) by (lia || done)|]. split; [done|lia].
  - destruct (Z.eqb_spec (ord c) 43) as [E|_]; intros (v & (ds & Hl & Hne & Hd & ->)%parse_digits_inv & H)%bind_Some;
      (destruct (Z.ltb_spec (digits_value 10 0 ds) (2 ^ (64 - 1))); [|done]); injection H as <-.
    + exists [c], ds. split; [by rewrite Hl|]. split; [done|]. split; [done|]. left.
      split; [right; by rewrite (Hc 43) by (lia || done)|]. split; [done|lia].
    + exists [], ds. split; [by rewrite Hl|]. split; [done|]. split; [done|]. left. split; [by left|]. split; [done|lia].
Qed.

Lemma drop_while_split {A} (f : A -> bool) l : exists pre, l = (pre ++ drop_while f l)%list /\ Forall (fun c => f c = true) pre.
Proof.
  induction l as [|x l (pre & IH & Hp)]; [by exists []|]. cbn [drop_while]. destruct (f x) eqn:Hx; [|by exists []].
  exists (x :: pre). split; [cbn; by rewrite <- IH|by constructor].
Qed.

Lemma trim_by_split {A} (f : A -> bool) l : exists pre post, l = (pre ++ trim_by f l ++ post)%list /\
  Forall (fun c => f c = true) pre /\ Forall (fun c => f c = true) post.
Proof.
  destruct (drop_while_split f l) as (pre & Hl & Hp). destruct (drop_while_split f (rev (drop_while f l))) as (post & Hr & Hq).
  exists pre, (rev post). split; [|split; [done|by apply Forall_rev]].
  rewrite Hl at 1. f_equal. unfold trim_by. rewrite <- rev_app_distr, <- Hr. by rewrite rev_involutive.
Qed.
