(* ===== verification/GoStrconv.v ===== *)
(** [strconv.ParseFloat] and [strconv.FormatFloat(f, 'f', -1, 64)] on decimal
    notation, exactly rounded; the hexadecimal notation of [ParseFloat] is left
    out. *)

From S2P Require Import Prelude.
From S2P Require Import GoInt.
From S2P Require Import GoFloat.
From S2P Require Import GoStrings.
Open Scope Z_scope.

(** A leading run of decimal digits and the rest. *)
Fixpoint take_digits (l : list ascii) : list Z * list ascii :=
  match l with
  | c :: l' => if is_digit c then let '(ds, r) := take_digits l' in (ord c - 48 :: ds, r) else ([], l)
  | [] => ([], [])
  end.

Definition float_sign (l : list ascii) : bool * list ascii :=
  match l with
  | c :: l' => if ord c =? 45 then (true, l') else if ord c =? 43 then (false, l') else (false, l)
  | [] => (false, [])
  end.

(** The exponent part: nothing, or [e], a sign and at least one digit. *)
Definition float_exponent (l : list ascii) : option Z :=
  match l with
  | [] => Some 0
  | c :: l' =>
    if (ord c =? 101) || (ord c =? 69) then
      let '(neg, r) := float_sign l' in
      match take_digits r with
      | ((_ :: _) as ds, []) => let v := digits_value 10 0 ds in Some (if neg : bool then - v else v)
      | _ => None
      end
    else None
  end.

Definition float_of_decimal (neg : bool) (mantissa exponent : Z) : option float64 :=
  let n := if neg then - mantissa else mantissa in
  if mantissa =? 0 then Some (S754_zero neg) else
  match (if 0 <=? exponent then f_lit (n * 10 ^ exponent) 1 else f_lit n (10 ^ (- exponent))) with
  | S754_infinity _ => None
  | f => Some f
  end.

Definition ParseFloat (s : string) : option float64 :=
  let '(neg, l) := float_sign (chars s) in
  let word := ToLower (of_chars l) in
  if bool_decide (word = "inf"%string) || bool_decide (word = "infinity"%string)
  then Some (S754_infinity neg)
  else if bool_decide (ToLower s = "nan"%string) then Some S754_nan else
  let '(ints, r) := take_digits l in
  let '(fracs, r) := match r with
                     | c :: r' => if ord c =? 46 then take_digits r' else ([], r)
                     | [] => ([], [])
                     end in
  match ints ++ fracs with
  | [] => None
  | ds => e ← float_exponent r;
          float_of_decimal neg (digits_value 10 0 ds) (e - Z.of_nat (length fracs))
  end.

(** The decimal exponent [p] with [10^p <= n/d < 10^(p+1)]. *)
Fixpoint scale_up (fuel : nat) (n d p : Z) : Z :=
  match fuel with
  | O => p
  | S fuel => if d * 10 <=? n then scale_up fuel n (d * 10) (p + 1) else p
  end.
Fixpoint scale_down (fuel : nat) (n d p : Z) : Z :=
  match fuel with
  | O => p
  | S fuel => if n <? d then scale_down fuel (n * 10) d (p - 1) else p
  end.
Definition decimal_exponent (n d : Z) : Z :=
  if d <=? n then scale_up 310 n d 0 else scale_down 330 n d 0.

(** [n/d] rounded to the multiple [k * 10^q] (half up): the integer [k]. *)
Definition round_to (n d q : Z) : Z :=
  let '(a, b) := if 0 <=? q then (n, d * 10 ^ q) else (n * 10 ^ (- q), d) in
  (2 * a + b) / (2 * b).

(** The shortest decimal that is read back as [f]: digits and exponent. *)
Fixpoint shortest (fuel : nat) (digits : Z) (f : float64) (n d p : Z) : Z * Z :=
  let q := p - digits + 1 in
  let k := round_to n d q in
  match fuel with
  | O => (k, q)
  | S fuel =>
    if match float_of_decimal false k q with Some g => feqb f g | None => false end then (k, q)
    else shortest fuel (digits + 1) f n d p
  end.

(** Plain notation of [k * 10^q]. *)
Definition plain_decimal (k q : Z) : string :=
  if 0 <=? q then Itoa (k * 10 ^ q)
  else
    let frac := k `mod` 10 ^ (- q) in
    let digits := Itoa (frac + 10 ^ (- q)) in
    (Itoa (k / 10 ^ (- q)) ++ "." ++ of_chars (drop 1 (chars digits)))%string.

Fixpoint strip_zeros (fuel : nat) (k q : Z) : Z * Z :=
  match fuel with
  | O => (k, q)
  | S fuel => if (q <? 0) && (k `mod` 10 =? 0) then strip_zeros fuel (k / 10) (q + 1) else (k, q)
  end.

Definition FormatFloat (f : float64) : string :=
  match f with
  | S754_zero s => if s then "-0"%string else "0"%string
  | S754_infinity s => if s then "-Inf"%string else "+Inf"%string
  | S754_nan => "NaN"%string
  | S754_finite s m e =>
    let '(n, d) := if 0 <=? e then (Z.pos m * 2 ^ e, 1) else (Z.pos m, 2 ^ (- e)) in
    let '(k, q) := shortest 16 1 (S754_finite false m e) n d (decimal_exponent n d) in
    let '(k, q) := strip_zeros 20 k q in
    ((if s then "-" else "") ++ plain_decimal k q)%string
  end.

Example format_1 : FormatFloat (f_lit (-1105) 10) = "-110.5"%string. Proof. vm_compute. reflexivity. Qed.
Example format_2 : FormatFloat (f_of_Z 504990) = "504990"%string. Proof. vm_compute. reflexivity. Qed.
Example format_3 : FormatFloat (f_lit 1 10) = "0.1"%string. Proof. vm_compute. reflexivity. Qed.
Example parse_1 : ParseFloat "-95.25" = Some (f_lit (-9525) 100). Proof. vm_compute. reflexivity. Qed.
Example parse_2 : ParseFloat "1e-2" = Some (f_lit 1 100). Proof. vm_compute. reflexivity. Qed.
Example parse_3 : ParseFloat "12dB" = None. Proof. vm_compute. reflexivity. Qed.
Example parse_4 : ParseFloat "." = None. Proof. vm_compute. reflexivity. Qed.
