(* ===== verification/Sha256.v ===== *)
(** [crypto/sha256] of Go's standard library, executable, so that the digests
    the program pins can be evaluated on the bytes it embeds. *)

From S2P Require Import Prelude.
From S2P Require Import GoInt.
Open Scope Z_scope.

Module Sha256.

(** The constants of FIPS 180-4: fractional bits of the cube roots of the first
    64 primes and of the square roots of the first 8. *)
Definition is_prime (n : Z) : bool := forallb (fun d => negb (n `mod` d =? 0)) (seqZ 2 (n - 2)).
Definition primes : list Z := List.filter is_prime (seqZ 2 310).

Fixpoint cube_root (bits : nat) (r n : Z) : Z :=
  match bits with
  | O => r
  | S bits => let c := r + 2 ^ Z.of_nat bits in
              cube_root bits (if c * c * c <=? n then c else r) n
  end.

Definition K : list Z :=
  Eval vm_compute in (fun p => u32 (cube_root 40 0 (p * 2 ^ 96))) <$> primes.
Definition H0 : list Z :=
  Eval vm_compute in (fun p => u32 (Z.sqrt (p * 2 ^ 64))) <$> take 8 primes.

Definition rotr (x n : Z) : Z := Z.lor (Z.shiftr x n) (u32 (Z.shiftl x (32 - n))).
Definition ch (x y z : Z) : Z := Z.lxor (Z.land x y) (Z.land (Z.lxor x 0xffffffff) z).
Definition maj (x y z : Z) : Z := Z.lxor (Z.lxor (Z.land x y) (Z.land x z)) (Z.land y z).
Definition Sigma0 x := Z.lxor (Z.lxor (rotr x 2) (rotr x 13)) (rotr x 22).
Definition Sigma1 x := Z.lxor (Z.lxor (rotr x 6) (rotr x 11)) (rotr x 25).
Definition sigma0 x := Z.lxor (Z.lxor (rotr x 7) (rotr x 18)) (Z.shiftr x 3).
Definition sigma1 x := Z.lxor (Z.lxor (rotr x 17) (rotr x 19)) (Z.shiftr x 10).

(** The message schedule, most recent word first. *)
Fixpoint schedule (n : nat) (w : list Z) : list Z :=
  match n with
  | O => w
  | S n =>
    let word i := nth i w 0 in
    schedule n (u32 (sigma1 (word 1%nat) + word 6%nat + sigma0 (word 14%nat) + word 15%nat) :: w)
  end.

Definition round (h : list Z) (kw : Z * Z) : list Z :=
  match h with
  | [a; b; c; d; e; f; g; hh] =>
    let t1 := hh + Sigma1 e + ch e f g + kw.1 + kw.2 in
    let t2 := Sigma0 a + maj a b c in
    [u32 (t1 + t2); a; b; c; u32 (d + t1); e; f; g]
  | _ => h
  end.

Fixpoint be_words (l : list Z) : list Z :=
  match l with
  | a :: b :: c :: d :: l => le32 d c b a :: be_words l
  | _ => []
  end.

Definition block (h : list Z) (bytes : list Z) : list Z :=
  let w := rev (schedule 48 (rev (be_words bytes))) in
  zip_with (fun x y => u32 (x + y)) h (fold_left round (combine K w) h).

Definition be64 (n : Z) : list Z :=
  (fun i => u8 (Z.shiftr n (8 * i))) <$> [7; 6; 5; 4; 3; 2; 1; 0].

Definition pad (data : list Z) : list Z :=
  data ++ 0x80 :: repeat 0 (Z.to_nat ((55 - Z.of_nat (length data)) `mod` 64)) ++
  be64 (8 * Z.of_nat (length data)).

Fixpoint blocks (fuel : nat) (h l : list Z) : list Z :=
  match fuel, l with
  | S fuel, _ :: _ => blocks fuel (block h (take 64 l)) (drop 64 l)
  | _, _ => h
  end.

Definition Sum256 (data : list Z) : list Z :=
  let l := pad data in
  flat_map (fun x => rev (put_u32 x)) (blocks (length l) H0 l).

End Sha256.

Definition hex_digit (v : Z) : Ascii.ascii :=
  Ascii.ascii_of_N (Z.to_N (if v <? 10 then 48 + v else 87 + v)).

(** [hex.EncodeToString]. *)
Fixpoint hex_EncodeToString (l : list Z) : string :=
  match l with
  | [] => EmptyString
  | v :: l => String (hex_digit (Z.shiftr v 4)) (String (hex_digit (Z.land v 15)) (hex_EncodeToString l))
  end.

(** FIPS 180-4 test vectors. *)
Example sha256_abc :
  hex_EncodeToString (Sha256.Sum256 [97; 98; 99]) =
  "ba7816bf8f01cfea414140de5dae2223b00361a396177a9cb410ff61f20015ad"%string.
Proof. vm_compute. reflexivity. Qed.

Example sha256_empty :
  hex_EncodeToString (Sha256.Sum256 []) =
  "e3b0c44298fc1c149afbf4c8996fb92427ae41e4649b934ca495991b7852b855"%string.
Proof. vm_compute. reflexivity. Qed.
