(* ===== verification/Hdlc.v ===== *)
(** HDLC framing of Qualcomm DIAG frames and its CRC-16/X-25, from
    [src/tools/u60-qtrace-reducer/config.go]: [hdlcEscape], [hdlcUnescape] and
    [diagCRC16].  The crossband probe and the web service carry their own
    copies, modelled in [ProbeQTrace] and [NeighborQmdl]. *)

From S2P Require Import Prelude.
From S2P Require Import GoInt.
Open Scope Z_scope.

Inductive hdlcError := TruncatedHDLCEscape.

Definition hdlcEscape (decoded : list Z) : list Z :=
  flat_map (fun value =>
    if (value =? 0x7d) || (value =? 0x7e) then [0x7d; Z.lxor value 0x20] else [value]) decoded.

Fixpoint unescape_loop (escaped : bool) (encoded decoded : list Z) : go hdlcError (list Z) :=
  match encoded with
  | [] => if escaped then Err TruncatedHDLCEscape else Ok decoded
  | value :: rest =>
    if escaped then unescape_loop false rest (decoded ++ [Z.lxor value 0x20])
    else if value =? 0x7d then unescape_loop true rest decoded
    else unescape_loop false rest (decoded ++ [value])
  end.

Definition hdlcUnescape (encoded : list Z) : go hdlcError (list Z) :=
  unescape_loop false encoded [].

(** One iteration of the bit loop, and the eight of a byte. *)
Definition crc_bit (crc : Z) : Z :=
  if negb (Z.land crc 1 =? 0) then Z.lxor (Z.shiftr crc 1) 0x8408 else Z.shiftr crc 1.

Definition crc_byte (crc value : Z) : Z := Nat.iter 8 crc_bit (Z.lxor crc value).

Definition diagCRC16 (data : list Z) : Z := Z.lxor (fold_left crc_byte data 0xffff) 0xffff.

(** The bytes that are sent as two. *)
Definition needs_escape (v : Z) : bool := (v =? 0x7d) || (v =? 0x7e).

(** * Escaping *)

Lemma unescape_loop_acc escaped encoded decoded :
  unescape_loop escaped encoded decoded =
  (tail ← unescape_loop escaped encoded []; mret (decoded ++ tail)).
Proof.
  revert escaped decoded. induction encoded as [|v rest IH]; intros escaped decoded; simpl.
  { destruct escaped; simpl; [done|]. unfold mret, go_ret. by rewrite app_nil_r. }
  destruct escaped; [|destruct (v =? 0x7d)].
  - rewrite IH, (IH _ [_]). destruct (unescape_loop false rest []); simpl; try done.
    unfold mret, go_ret. by rewrite <- app_assoc.
  - apply IH.
  - rewrite IH, (IH _ [_]). destruct (unescape_loop false rest []); simpl; try done.
    unfold mret, go_ret. by rewrite <- app_assoc.
Qed.

Lemma escape_cons v l :
  hdlcEscape (v :: l) =
  (if (v =? 0x7d) || (v =? 0x7e) then [0x7d; Z.lxor v 0x20] else [v]) ++ hdlcEscape l.
Proof. done. Qed.

Lemma lxor_0x20_invol v : Z.lxor (Z.lxor v 0x20) 0x20 = v.
Proof. by rewrite Z.lxor_assoc, Z.lxor_nilpotent, Z.lxor_0_r. Qed.

Lemma unescape_escape l : hdlcUnescape (hdlcEscape l) = Ok l.
Proof.
  unfold hdlcUnescape. induction l as [|v l IH]; [done|].
  rewrite escape_cons. destruct ((v =? 0x7d) || (v =? 0x7e)) eqn:Hv; simpl.
  - rewrite unescape_loop_acc, IH, lxor_0x20_invol. done.
  - apply orb_false_iff in Hv as [-> _]. by rewrite unescape_loop_acc, IH.
Qed.

Lemma escape_no_flag l : 0x7e ∉ hdlcEscape l.
Proof.
  induction l as [|v l IH]; [apply not_elem_of_nil|].
  rewrite escape_cons. apply not_elem_of_app. split; [|done].
  destruct ((v =? 0x7d) || (v =? 0x7e)) eqn:Hv; bool_to_prop.
  - apply orb_true_iff in Hv as [Hv|Hv]; apply Z.eqb_eq in Hv as ->;
      repeat (apply not_elem_of_cons; split; [done|]); apply not_elem_of_nil.
  - rewrite list_elem_of_singleton. lia.
Qed.

Lemma escape_nonempty l : l <> [] -> hdlcEscape l <> [].
Proof. destruct l as [|v l]; [done|]. rewrite escape_cons. by case_match. Qed.

Lemma escape_bytes l : bytes_ok l -> bytes_ok (hdlcEscape l).
Proof.
  induction 1 as [|v l Hv Hl IH]; [constructor|]. rewrite escape_cons.
  apply bytes_ok_app. split; [|done].
  case_match; bytes_list; try done. apply lxor_range; done || lia.
Qed.

Lemma escape_length l :
  length (hdlcEscape l) = (length l + length (List.filter needs_escape l))%nat.
Proof.
  induction l as [|v l IH]; [done|]. rewrite escape_cons, length_app, IH. simpl.
  unfold needs_escape at 2. destruct ((v =? 0x7d) || (v =? 0x7e)); simpl; lia.
Qed.

Lemma unescape_not_panic l : hdlcUnescape l <> Panic.
Proof.
  unfold hdlcUnescape. generalize false, (@nil Z).
  induction l as [|v l IH]; intros e acc; simpl; repeat case_match; done.
Qed.

Lemma unescape_loop_bytes l e acc out :
  bytes_ok l -> bytes_ok acc -> unescape_loop e l acc = Ok out -> bytes_ok out.
Proof.
  intros Hl. revert e acc. induction Hl as [|v l Hv Hl IH]; intros e acc Hacc H; simpl in H.
  - destruct e; [done|]. by injection H as <-.
  - repeat case_match; (eapply IH; [|eassumption]); try done;
      apply bytes_ok_app; (split; [done|]); bytes_list; try done.
    apply lxor_range; done || lia.
Qed.

Lemma unescape_bytes l out : bytes_ok l -> hdlcUnescape l = Ok out -> bytes_ok out.
Proof. intros. by eapply unescape_loop_bytes; [| |eassumption]; [|constructor]. Qed.

Lemma unescape_length l out :
  hdlcUnescape l = Ok out -> (length out <= length l)%nat.
Proof.
  unfold hdlcUnescape.
  enough (forall e acc, unescape_loop e l acc = Ok out -> (length out <= length acc + length l)%nat)
    as H by apply (H false []).
  induction l as [|v l IH]; intros e acc H; simpl in H.
  - destruct e; [done|]. injection H as <-. simpl. lia.
  - repeat case_match; apply IH in H; revert H; rewrite ?length_app; simpl; lia.
Qed.

(** * The CRC as a linear map on 16-bit words *)

Lemma crc_bit_spec crc :
  crc_bit crc = if Z.testbit crc 0 then Z.lxor (Z.shiftr crc 1) 0x8408 else Z.shiftr crc 1.
Proof.
  unfold crc_bit. change 1 with (Z.ones 1) at 1. rewrite Z.land_ones by lia.
  change (2 ^ 1) with 2. rewrite <- Z.bit0_mod. by destruct (Z.testbit crc 0).
Qed.

Lemma crc_bit_range crc : in_range 16 crc -> in_range 16 (crc_bit crc).
Proof.
  intros. rewrite crc_bit_spec. case_match.
  - apply lxor_range; [lia|by apply shiftr_range|done].
  - by apply shiftr_range.
Qed.

Lemma crc_bit_lxor x y : crc_bit (Z.lxor x y) = Z.lxor (crc_bit x) (crc_bit y).
Proof.
  rewrite !crc_bit_spec, Z.lxor_spec, Z.shiftr_lxor.
  apply Z.bits_inj'. intros i Hi.
  destruct (Z.testbit x 0), (Z.testbit y 0); simpl; rewrite !Z.lxor_spec;
    repeat match goal with |- context [Z.testbit ?a ?b] => destruct (Z.testbit a b) end; done.
Qed.

(** Bit 15 of the result tells which branch was taken, so a step is undone. *)
Lemma crc_bit_inj x y :
  in_range 16 x -> in_range 16 y -> crc_bit x = crc_bit y -> x = y.
Proof.
  intros Hx Hy H. apply Z.lxor_eq. set (d := Z.lxor x y).
  assert (Hd : in_range 16 d) by (apply lxor_range; done || lia).
  assert (H0 : crc_bit d = 0).
  { unfold d. rewrite crc_bit_lxor, H. apply Z.lxor_nilpotent. }
  rewrite crc_bit_spec in H0. destruct (Z.testbit d 0) eqn:E.
  - apply (f_equal (fun z => Z.testbit z 15)) in H0. revert H0.
    rewrite Z.lxor_spec, Z.shiftr_spec, (testbit_high 16 d) by (done || lia). done.
  - apply Z.bits_inj'. intros i Hi. rewrite Z.bits_0.
    destruct (decide (i = 0)) as [->|]; [done|].
    apply (f_equal (fun z => Z.testbit z (i - 1))) in H0. revert H0.
    rewrite Z.shiftr_spec, Z.bits_0 by lia. by replace (i - 1 + 1) with i by lia.
Qed.

Lemma crc_iter_range n x : in_range 16 x -> in_range 16 (Nat.iter n crc_bit x).
Proof. intros. induction n as [|n IH]; simpl; [done|by apply crc_bit_range]. Qed.

Lemma crc_iter_inj n x y :
  in_range 16 x -> in_range 16 y -> Nat.iter n crc_bit x = Nat.iter n crc_bit y -> x = y.
Proof.
  intros Hx Hy. induction n as [|n IH]; simpl; [done|].
  intros H. apply IH, crc_bit_inj; auto using crc_iter_range.
Qed.

Lemma crc_iter_lxor n x y :
  Nat.iter n crc_bit (Z.lxor x y) = Z.lxor (Nat.iter n crc_bit x) (Nat.iter n crc_bit y).
Proof. induction n as [|n IH]; simpl; [done|]. by rewrite IH, crc_bit_lxor. Qed.

(** A word whose low [n] bits are clear is only shifted. *)
Lemma crc_iter_shift n v :
  Nat.iter n crc_bit (Z.shiftl v (Z.of_nat n)) = v.
Proof.
  revert v. induction n as [|n IH]; intros v; [by rewrite Z.shiftl_0_r|].
  rewrite Nat.iter_succ_r, crc_bit_spec.
  rewrite Z.shiftl_spec, Z.testbit_neg_r by lia.
  rewrite Z.shiftr_shiftl_l by lia.
  replace (Z.of_nat (S n) - 1) with (Z.of_nat n) by lia. apply IH.
Qed.

Lemma byte_in_16 v : is_byte v -> in_range 16 v.
Proof. by apply in_range_weaken. Qed.

Lemma crc_byte_range crc v : in_range 16 crc -> is_byte v -> in_range 16 (crc_byte crc v).
Proof. intros. apply crc_iter_range, lxor_range; auto using byte_in_16. lia. Qed.

(** Two consecutive bytes are absorbed as one 16-bit word. *)
Lemma crc_two_bytes crc a b :
  is_byte a ->
  crc_byte (crc_byte crc a) b = Nat.iter 16 crc_bit (Z.lxor crc (le16 a b)).
Proof.
  intros Ha.
  assert (Hl : le16 a b = Z.lxor a (Z.shiftl b 8)).
  { apply Z.bits_inj'. intros i Hi. unfold le16. rewrite Z.lor_spec, Z.lxor_spec, Z.shiftl_spec by lia.
    destruct (decide (i < 8)).
    - rewrite (Z.testbit_neg_r b) by lia. by destruct (Z.testbit a i).
    - rewrite (testbit_high 8 a) by (done || lia). by destruct (Z.testbit b (i - 8)). }
  pose proof (crc_iter_shift 8 b) as Hshift. change (Z.of_nat 8) with 8 in Hshift.
  rewrite Hl, <- Z.lxor_assoc. unfold crc_byte.
  change 16%nat with (8 + 8)%nat. rewrite Nat.iter_add, (crc_iter_lxor 8 _ (Z.shiftl b 8)).
  by rewrite Hshift.
Qed.

Lemma fold_crc_range data crc :
  in_range 16 crc -> bytes_ok data -> in_range 16 (fold_left crc_byte data crc).
Proof.
  intros Hc H. revert crc Hc. induction H as [|v l Hv Hl IH]; intros crc Hc; simpl; [done|].
  by apply IH, crc_byte_range.
Qed.

Lemma fold_crc_inj data x y :
  in_range 16 x -> in_range 16 y -> bytes_ok data ->
  fold_left crc_byte data x = fold_left crc_byte data y -> x = y.
Proof.
  intros Hx Hy H. revert x y Hx Hy. induction H as [|v l Hv Hl IH]; intros x y Hx Hy; simpl; [done|].
  intros Heq. apply IH in Heq; try by apply crc_byte_range.
  apply crc_iter_inj in Heq; try (apply lxor_range; auto using byte_in_16; lia).
  apply (f_equal (Z.lxor v)) in Heq.
  by rewrite !(Z.lxor_comm v), !Z.lxor_assoc, !Z.lxor_nilpotent, !Z.lxor_0_r in Heq.
Qed.

Lemma diagCRC16_range data : bytes_ok data -> in_range 16 (diagCRC16 data).
Proof. intros. apply lxor_range; [lia| |done]. by apply fold_crc_range. Qed.

(** What precedes and follows two neighbouring bytes acts injectively. *)
Lemma fold_crc_pair pre post a b x :
  is_byte a ->
  fold_left crc_byte (pre ++ a :: b :: post) x =
  fold_left crc_byte post
    (Nat.iter 16 crc_bit (Z.lxor (fold_left crc_byte pre x) (le16 a b))).
Proof. intros. by rewrite fold_left_pair, crc_two_bytes. Qed.

Lemma lxor_cancel_r x y c : Z.lxor x c = Z.lxor y c -> x = y.
Proof.
  intros H. apply (f_equal (fun z => Z.lxor z c)) in H.
  by rewrite !Z.lxor_assoc, Z.lxor_nilpotent, !Z.lxor_0_r in H.
Qed.

Lemma lxor_word_range c a b :
  in_range 16 c -> is_byte a -> is_byte b -> in_range 16 (Z.lxor c (le16 a b)).
Proof. intros. apply lxor_range; auto using le16_range. lia. Qed.

Lemma fold_crc_pair_inj post a b a' b' c :
  bytes_ok post -> in_range 16 c ->
  is_byte a -> is_byte b -> is_byte a' -> is_byte b' ->
  fold_left crc_byte post (Nat.iter 16 crc_bit (Z.lxor c (le16 a b))) =
  fold_left crc_byte post (Nat.iter 16 crc_bit (Z.lxor c (le16 a' b'))) ->
  a = a' /\ b = b'.
Proof.
  intros Hpost Hc Ha Hb Ha' Hb' H.
  apply fold_crc_inj in H; auto using crc_iter_range, lxor_word_range.
  apply crc_iter_inj in H; auto using lxor_word_range.
  rewrite !(Z.lxor_comm c) in H. apply lxor_cancel_r in H.
  rewrite !le16_add in H by done. unfold in_range in *. lia.
Qed.

(** The CRC of a frame changes whenever at most two neighbouring bytes do. *)
Lemma crc_burst_eq pre post a b a' b' :
  bytes_ok pre -> bytes_ok post -> is_byte a -> is_byte b -> is_byte a' -> is_byte b' ->
  diagCRC16 (pre ++ a :: b :: post) = diagCRC16 (pre ++ a' :: b' :: post) ->
  a = a' /\ b = b'.
Proof.
  intros Hpre Hpost Ha Hb Ha' Hb' H. apply lxor_cancel_r in H.
  rewrite !fold_crc_pair in H by done.
  eapply fold_crc_pair_inj; [exact Hpost| |done..|exact H]. by apply fold_crc_range.
Qed.

(** The CRC of a frame with its CRC appended is the X-25 residue. *)
Lemma crc_residue p : bytes_ok p -> diagCRC16 (p ++ put_u16 (diagCRC16 p)) = 0x0f47.
Proof.
  intros Hp. pose proof (fold_crc_range p 0xffff ltac:(done) Hp) as Hc.
  unfold diagCRC16 at 1. unfold put_u16.
  rewrite (fold_crc_pair p []) by apply u8_byte.
  rewrite le16_put by by apply diagCRC16_range. cbn [fold_left].
  unfold diagCRC16. rewrite <- Z.lxor_assoc, Z.lxor_nilpotent. reflexivity.
Qed.

(** * Properties *)

(** every frame survives escaping: [hdlcUnescape] inverts [hdlcEscape] on
    every byte string, the escaped form contains no [0x7e] delimiter, so frames
    can be concatenated, and it is longer than the frame by exactly the number
    of bytes that need an escape. *)
Theorem hdlc_roundtrip (decoded : list Z) :
  hdlcUnescape (hdlcEscape decoded) = Ok decoded /\
  (0x7e ∉ hdlcEscape decoded) /\
  length (hdlcEscape decoded) =
    (length decoded + length (List.filter needs_escape decoded))%nat.
Proof. eauto using unescape_escape, escape_no_flag, escape_length. Qed.

(** the CRC of [diagCRC16] is a 16-bit word and detects every error burst
    confined to two neighbouring bytes of a frame (so also every single-byte
    substitution), whatever surrounds it. *)
Theorem crc_detects_burst (pre post : list Z) (a b a' b' : Z) :
  bytes_ok pre -> bytes_ok post -> is_byte a -> is_byte b -> is_byte a' -> is_byte b' ->
  (a, b) <> (a', b') ->
  diagCRC16 (pre ++ a :: b :: post) <> diagCRC16 (pre ++ a' :: b' :: post) /\
  0 <= diagCRC16 (pre ++ a :: b :: post) < 65536.
Proof.
  intros Hpre Hpost Ha Hb Ha' Hb' Hne. split.
  - intros H. apply crc_burst_eq in H as [-> ->]; done.
  - apply (diagCRC16_range (pre ++ a :: b :: post)), bytes_ok_app.
    split; [done|]. by bytes_list.
Qed.

Example crc_detects_burst_witness :
  diagCRC16 [0x4b; 0x44; 1; 0x90] <> diagCRC16 [0x4b; 0x45; 0; 0x90].
Proof.
  apply (crc_detects_burst [0x4b] [0x90] 0x44 1 0x45 0);
    try (bytes_list; unfold in_range; lia); unfold in_range; try lia. done.
Defined.

#[export] Hint Resolve diagCRC16_range escape_bytes unescape_bytes : bytes.
