(* ===== verification/QTraceConfig.v ===== *)
(** The DIAG mask configuration of the trace reducer,
    [src/tools/u60-qtrace-reducer/config.go]: parsing a configuration file into
    frames, building message-mask frames, selecting frames for a candidate and
    encoding them again. *)

From S2P Require Import Prelude.
From S2P Require Import GoInt.
From S2P Require Import Hdlc.
From S2P Require Import Sha256.
Open Scope Z_scope.

Definition diagExtMessageConfig : Z := 0x7d.
Definition diagSubsysCommand : Z := 0x4b.
Definition extMessageSetMask : Z := 0x04.

Record diagFrame := mkDiagFrame { frame_ID : nat; Decoded : list Z }.

#[export] Instance diagFrame_eq : EqDecision diagFrame.
Proof. solve_decision. Defined.

(** [diagFrame{}]. *)
Definition noFrame : diagFrame := mkDiagFrame 0 [].

Record messageMaskFrame := mkMessageMaskFrame {
  mm_Frame : diagFrame; First : Z; Last : Z; Reserved : Z; Masks : list Z }.

Record qtraceConfig := mkQtraceConfig {
  Frames : list diagFrame;
  MessageFrames : list messageMaskFrame;
  PrivateFrames : list diagFrame;
  SourceSHA256 : string;
  SourceBytes : nat }.

Inductive configError :=
| ErrHDLC (e : hdlcError)
| ErrFrameTooShort (id len : nat)
| ErrCRCMismatch (id : nat) (got want : Z)
| ErrSubsystemTooShort (id : nat)
| ErrUnsupportedCommand (cmd : Z) (id : nat)
| ErrNoFrames
| ErrMessageTooShort (id : nat)
| ErrMessageSubcommand (id : nat) (sub : Z)
| ErrReversedRange (id : nat) (first last : Z)
| ErrMessageLength (id len want : nat) (first last : Z)
| ErrInvalidMaskCount (id : nat).

(** [int(last-first) + 1], the subtraction in [uint16]. *)
Definition ssid_count (first last : Z) : nat := Z.to_nat (u16 (last - first)) + 1.

Definition parseMessageMaskFrame (frame : diagFrame) : go configError messageMaskFrame :=
  payload ← trim_end 2 (Decoded frame);
  if bool_decide (length payload < 8)%nat then Err (ErrMessageTooShort (frame_ID frame)) else
  sub ← index payload 1;
  if negb (sub =? extMessageSetMask) then Err (ErrMessageSubcommand (frame_ID frame) sub) else
  first ← (b ← slice payload 2 4; Uint16 b);
  last ← (b ← slice payload 4 6; Uint16 b);
  if last <? first then Err (ErrReversedRange (frame_ID frame) first last) else
  let count := ssid_count first last in
  let wantLength := (8 + count * 4)%nat in
  if negb (length payload =? wantLength)%nat
  then Err (ErrMessageLength (frame_ID frame) (length payload) wantLength first last) else
  masks ← go_map (fun i => b ← slice_from payload (8 + i * 4); Uint32 b) (seq 0 count);
  reserved ← (b ← slice payload 6 8; Uint16 b);
  mret (mkMessageMaskFrame frame first last reserved masks).

(** The loop body of [parseQTraceConfigBytes] after the frame is unescaped. *)
Definition add_decoded (config : qtraceConfig) (decoded : list Z) : go configError qtraceConfig :=
  let id := length (Frames config) in
  if bool_decide (length decoded < 3)%nat then Err (ErrFrameTooShort id (length decoded)) else
  payload ← trim_end 2 decoded;
  gotCRC ← (b ← slice_from decoded (length decoded - 2); Uint16 b);
  let wantCRC := diagCRC16 payload in
  if negb (gotCRC =? wantCRC) then Err (ErrCRCMismatch id gotCRC wantCRC) else
  let frame := mkDiagFrame id decoded in
  let frames := Frames config ++ [frame] in
  cmd ← index decoded 0;
  if cmd =? diagExtMessageConfig then
    message ← parseMessageMaskFrame frame;
    mret (mkQtraceConfig frames (MessageFrames config ++ [message]) (PrivateFrames config)
            (SourceSHA256 config) (SourceBytes config))
  else if cmd =? diagSubsysCommand then
    if bool_decide (length decoded < 6)%nat then Err (ErrSubsystemTooShort id) else
    mret (mkQtraceConfig frames (MessageFrames config) (PrivateFrames config ++ [frame])
            (SourceSHA256 config) (SourceBytes config))
  else Err (ErrUnsupportedCommand cmd id).

Definition parse_segment (config : qtraceConfig) (segment : list Z) : go configError qtraceConfig :=
  match segment with
  | [] => Ok config
  | _ => decoded ← map_err ErrHDLC (hdlcUnescape segment); add_decoded config decoded
  end.

Definition empty_config (data : list Z) : qtraceConfig :=
  mkQtraceConfig [] [] [] (hex_EncodeToString (Sha256.Sum256 data)) (length data).

Definition parseQTraceConfigBytes (data : list Z) : go configError qtraceConfig :=
  config ← go_fold parse_segment (empty_config data) (split_on 0x7e data);
  match Frames config with [] => Err ErrNoFrames | _ => mret config end.

Definition allMessageFrameIDs (config : qtraceConfig) : list nat :=
  (fun frame => frame_ID (mm_Frame frame)) <$> MessageFrames config.

Definition allSSIDs (config : qtraceConfig) (frameIDs : list nat) : list Z :=
  let selected : gset nat := list_to_set frameIDs in
  flat_map (fun frame =>
    if bool_decide (frame_ID (mm_Frame frame) ∈ selected)
    then seqZ (First frame) (Last frame - First frame + 1) else []) (MessageFrames config).

(** The payload [buildMessageMaskFrame] fills in. *)
Definition maskPayload (first last reserved : Z) (masks : list Z) : list Z :=
  [diagExtMessageConfig; extMessageSetMask] ++ put_u16 first ++ put_u16 last ++
  put_u16 reserved ++ flat_map put_u32 masks.

Definition buildMessageMaskFrame (id : nat) (first last reserved : Z) (masks : list Z)
    : go configError diagFrame :=
  if (last <? first) || negb (length masks =? ssid_count first last)%nat
  then Err (ErrInvalidMaskCount id) else
  let payload := maskPayload first last reserved masks in
  mret (mkDiagFrame id (payload ++ put_u16 (diagCRC16 payload))).

Definition zeroMessageFrames (config : qtraceConfig) : go configError (list diagFrame) :=
  go_map (fun original =>
    let masks := repeat 0 (length (Masks original)) in
    buildMessageMaskFrame (frame_ID (mm_Frame original)) (First original) (Last original)
      (Reserved original) masks) (MessageFrames config).

Inductive privateMode := privateNone | privateBoth | private9001 | private0004.

#[export] Instance privateMode_eq : EqDecision privateMode.
Proof. solve_decision. Defined.

Definition privateFrameSelected (frame : diagFrame) (mode : privateMode) : bool :=
  if bool_decide (mode = privateNone) || bool_decide (length (Decoded frame) < 6)%nat then false else
  match Decoded frame with
  | cmd :: subsystem :: c0 :: c1 :: _ =>
    if negb (cmd =? diagSubsysCommand) then false else
    if bool_decide (mode = privateBoth) then true else
    let subcommand := le16 c0 c1 in
    (bool_decide (mode = private9001) && (subsystem =? 0x44) && (subcommand =? 0x9001)) ||
    (bool_decide (mode = private0004) && (subsystem =? 0x55) && (subcommand =? 0x0004))
  | _ => false
  end.

(** The loop of [selectFrames] over the frames of the configuration. *)
Definition select_step (selected : gset nat) (zeroByID : gmap nat diagFrame) (zeroMasks : bool)
    (private : privateMode) (frames : list diagFrame) (original : diagFrame)
    : go configError (list diagFrame) :=
  if bool_decide (frame_ID original ∈ selected) then
    if zeroMasks then mret (frames ++ [default noFrame (zeroByID !! frame_ID original)])
    else mret (frames ++ [original])
  else
    cmd ← index (Decoded original) 0;
    if (cmd =? diagSubsysCommand) && privateFrameSelected original private
    then mret (frames ++ [original]) else mret frames.

Definition selectFrames (config : qtraceConfig) (messageFrameIDs : list nat) (zeroMasks : bool)
    (private : privateMode) : go configError (list diagFrame) :=
  let selected : gset nat := list_to_set messageFrameIDs in
  zeroByID ← (if zeroMasks
              then zeroFrames ← zeroMessageFrames config;
                   mret (foldl (fun m f => <[frame_ID f := f]> m) ∅ zeroFrames)
              else mret (∅ : gmap nat diagFrame));
  go_fold (select_step selected zeroByID zeroMasks private) [] (Frames config).

Definition encodeConfig (frames : list diagFrame) : list Z :=
  flat_map (fun frame => hdlcEscape (Decoded frame) ++ [0x7e]) frames.

(** What a parsed message-mask frame looks like. *)
Definition mask_ok (m : messageMaskFrame) : Prop :=
  in_range 16 (First m) /\ in_range 16 (Last m) /\ First m <= Last m /\
  in_range 16 (Reserved m) /\
  length (Masks m) = ssid_count (First m) (Last m) /\ Forall (in_range 32) (Masks m).

(** A payload with its CRC. *)
Definition with_crc (payload : list Z) : list Z := payload ++ put_u16 (diagCRC16 payload).

(** The frames [parseQTraceConfigBytes] accepts. *)
Inductive valid_decoded : list Z -> Prop :=
| valid_message m : mask_ok m ->
    valid_decoded (with_crc (maskPayload (First m) (Last m) (Reserved m) (Masks m)))
| valid_private rest : bytes_ok rest -> (3 <= length rest)%nat ->
    valid_decoded (with_crc (diagSubsysCommand :: rest)).

(** The invariant of the parser: frames are numbered in file order and
    accepted, the message and private frames partition them in order, and the
    fields of a message frame are the ones its bytes encode. *)
Definition is_message (f : diagFrame) : Prop := Decoded f !! 0%nat = Some diagExtMessageConfig.
Definition is_private (f : diagFrame) : Prop := Decoded f !! 0%nat = Some diagSubsysCommand.

#[export] Instance is_message_dec f : Decision (is_message f).
Proof. unfold is_message. apply _. Defined.
#[export] Instance is_private_dec f : Decision (is_private f).
Proof. unfold is_private. apply _. Defined.

Definition message_describes (m : messageMaskFrame) : Prop :=
  mask_ok m /\
  Decoded (mm_Frame m) = with_crc (maskPayload (First m) (Last m) (Reserved m) (Masks m)).

Record config_ok (config : qtraceConfig) : Prop := mkConfigOk {
  ok_ids : frame_ID <$> Frames config = seq 0 (length (Frames config));
  ok_valid : Forall (fun f => valid_decoded (Decoded f)) (Frames config);
  ok_messages : mm_Frame <$> MessageFrames config = filter is_message (Frames config);
  ok_masks : Forall message_describes (MessageFrames config);
  ok_private : PrivateFrames config = filter is_private (Frames config) }.

(** The frame [zeroMessageFrames] makes of a message frame. *)
Definition zeroed (m : messageMaskFrame) : diagFrame :=
  mkDiagFrame (frame_ID (mm_Frame m))
    (with_crc (maskPayload (First m) (Last m) (Reserved m) (repeat 0 (length (Masks m))))).

(** The frames of a configuration a selection keeps, and what becomes of one. *)
Definition chosen (ids : list nat) (private : privateMode) (f : diagFrame) : Prop :=
  frame_ID f ∈ ids \/ privateFrameSelected f private = true.

#[export] Instance chosen_dec ids private f : Decision (chosen ids private f).
Proof. unfold chosen. apply _. Defined.

Definition selected_as (config : qtraceConfig) (ids : list nat) (zeroMasks : bool)
    (f g : diagFrame) : Prop :=
  if zeroMasks && bool_decide (frame_ID f ∈ ids)
  then exists m, m ∈ MessageFrames config /\ mm_Frame m = f /\ g = zeroed m
  else g = f.

(** The configuration after one more accepted frame. *)
Definition add_valid (config : qtraceConfig) (frame : diagFrame) : go configError qtraceConfig :=
  if decide (is_message frame) then
    m ← parseMessageMaskFrame frame;
    mret (mkQtraceConfig (Frames config ++ [frame]) (MessageFrames config ++ [m])
            (PrivateFrames config) (SourceSHA256 config) (SourceBytes config))
  else mret (mkQtraceConfig (Frames config ++ [frame]) (MessageFrames config)
               (PrivateFrames config ++ [frame]) (SourceSHA256 config) (SourceBytes config)).

(** Frames used by the witnesses: the probe frame of the embedded
    configuration and a message frame of SSIDs 9500 and 9501. *)
Definition sample_private : list Z := with_crc [0x4b; 0x44; 0x01; 0x90; 0x7e; 0x7d].
Definition sample_message : list Z := with_crc (maskPayload 9500 9501 0 [0xffffffff; 0x8000]).

Definition sample_frames : list diagFrame :=
  [mkDiagFrame 0 sample_private; mkDiagFrame 1 sample_message].

(** * Lemmas: mask frames *)

Lemma length_flat_put_u32 ms : length (flat_map put_u32 ms) = (4 * length ms)%nat.
Proof. induction ms as [|m ms IH]; simpl in *; lia. Qed.

Lemma drop_flat_put_u32 i ms :
  drop (i * 4) (flat_map put_u32 ms) = flat_map put_u32 (drop i ms).
Proof.
  revert ms. induction i as [|i IH]; intros ms; [done|].
  destruct ms as [|m ms]; [done|]. apply IH.
Qed.

Lemma words_exist n l :
  length l = (4 * n)%nat -> bytes_ok l ->
  exists ms, length ms = n /\ Forall (in_range 32) ms /\ l = flat_map put_u32 ms.
Proof.
  revert l. induction n as [|n IH]; intros l Hl Hb.
  - exists []. destruct l; done.
  - destruct l as [|a [|b [|c [|d l]]]]; try (simpl in Hl; lia).
    bytes_inv.
    destruct (IH l ltac:(simpl in Hl; lia) Hb) as (ms & <- & Hms & ->).
    exists (le32 a b c d :: ms). split_and!; [done| |].
    + constructor; [by apply le32_range|done].
    + cbn [flat_map]. by rewrite put_u32_le32.
Qed.

Lemma read_masks {E} (payload hdr ms : list Z) :
  payload = hdr ++ flat_map put_u32 ms -> length hdr = 8%nat -> Forall (in_range 32) ms ->
  go_map (fun i => b ← slice_from payload (8 + i * 4); @Uint32 E b) (seq 0 (length ms)) = Ok ms.
Proof.
  intros -> Hh Hms. apply go_map_Ok, Forall2_same_length_lookup_2.
  { apply length_seq. }
  intros i x y Hi Hy. apply lookup_seq in Hi as [-> Hi]. simpl.
  rewrite slice_from_ok by (rewrite length_app, length_flat_put_u32; lia). simpl.
  replace (S (S (S (S (S (S (S (S (i * 4)))))))))%nat with (length hdr + i * 4)%nat by lia.
  rewrite <- drop_drop, drop_app_length, drop_flat_put_u32.
  rewrite (drop_S _ _ _ Hy). simpl. f_equal.
  apply le32_put. by eapply Forall_lookup_1.
Qed.

Lemma parse_mask_payload id cmd first last reserved masks tail :
  in_range 16 first -> in_range 16 last -> first <= last -> in_range 16 reserved ->
  length masks = ssid_count first last -> Forall (in_range 32) masks -> length tail = 2%nat ->
  let decoded := cmd :: extMessageSetMask :: put_u16 first ++ put_u16 last ++
                 put_u16 reserved ++ flat_map put_u32 masks ++ tail in
  parseMessageMaskFrame (mkDiagFrame id decoded) =
  Ok (mkMessageMaskFrame (mkDiagFrame id decoded) first last reserved masks).
Proof.
  intros Hf Hl Hfl Hr Hc Hm Ht decoded. unfold parseMessageMaskFrame.
  set (payload := [cmd; extMessageSetMask] ++ put_u16 first ++ put_u16 last ++
                  put_u16 reserved ++ flat_map put_u32 masks).
  replace (Decoded (mkDiagFrame id decoded)) with (payload ++ tail)
    by (unfold payload, decoded; by rewrite <- !app_assoc).
  rewrite trim_end_app by done. cbn [mbind go_bind].
  assert (Hlen : length payload = (8 + 4 * length masks)%nat).
  { unfold payload. rewrite !length_app, length_flat_put_u32. simpl. lia. }
  assert (H1 : payload !! 1%nat = Some extMessageSetMask) by done.
  assert (H2 : take (4 - 2) (drop 2 payload) = put_u16 first) by done.
  assert (H4 : take (6 - 4) (drop 4 payload) = put_u16 last) by done.
  assert (H6 : take (8 - 6) (drop 6 payload) = put_u16 reserved) by done.
  pose proof (@read_masks configError payload (take 8 payload) masks eq_refl eq_refl Hm) as Hread.
  clearbody payload. rewrite bool_decide_eq_false_2 by lia.
  rewrite (index_ok _ _ _ H1), !slice_ok, H2, H4, H6 by lia. simpl. rewrite !le16_put by done.
  rewrite (proj2 (Z.ltb_ge last first)) by done.
  rewrite <- Hc. rewrite Hlen. replace (4 * length masks)%nat with (length masks * 4)%nat by lia.
  rewrite Nat.eqb_refl. simpl in *. by rewrite Hread.
Qed.

Lemma parse_mask_inv f m :
  bytes_ok (Decoded f) -> parseMessageMaskFrame f = Ok m ->
  mm_Frame m = f /\ mask_ok m /\
  exists cmd tail, length tail = 2%nat /\
    Decoded f = cmd :: extMessageSetMask :: put_u16 (First m) ++ put_u16 (Last m) ++
                put_u16 (Reserved m) ++ flat_map put_u32 (Masks m) ++ tail.
Proof.
  intros Hb H. pose proof H as H0. unfold parseMessageMaskFrame in H.
  destruct (trim_end 2 (Decoded f)) as [payload| |] eqn:Ht; try done.
  apply trim_end_inv in Ht as (tail & Htail & Hd). rewrite Hd in Hb.
  apply bytes_ok_app in Hb as [Hp _]. cbn [mbind go_bind] in H.
  case_bool_decide as Hlen; [done|].
  destruct payload as [|a0 [|a1 [|a2 [|a3 [|a4 [|a5 [|a6 [|a7 rest]]]]]]]];
    try (simpl in Hlen; lia).
  simpl in H. bytes_inv.
  destruct (a1 =? extMessageSetMask) eqn:Hsub; simpl in H; [|done]. apply Z.eqb_eq in Hsub as ->.
  destruct (le16 a4 a5 <? le16 a2 a3) eqn:Hle; [done|]. apply Z.ltb_ge in Hle.
  destruct (length rest =? _)%nat eqn:Hrest; simpl in H; [|done]. apply Nat.eqb_eq in Hrest.
  clear H. destruct (words_exist (ssid_count (le16 a2 a3) (le16 a4 a5)) rest)
    as (ms & Hms & Hok & ->); [lia|done|].
  assert (Hdec : Decoded f = a0 :: extMessageSetMask :: put_u16 (le16 a2 a3) ++
     put_u16 (le16 a4 a5) ++ put_u16 (le16 a6 a7) ++ flat_map put_u32 ms ++ tail).
  { by rewrite !put_u16_le16, Hd. }
  destruct f as [id d]. cbn [Decoded] in Hdec. clear Hd. subst d.
  rewrite parse_mask_payload in H0 by eauto with bytes. injection H0 as <-. simpl.
  split; [done|]. split; [|by eauto].
  unfold mask_ok. simpl. eauto 10 with bytes.
Qed.

Lemma parse_mask_no_panic f :
  (2 <= length (Decoded f))%nat -> parseMessageMaskFrame f <> Panic.
Proof.
  intros Hl. unfold parseMessageMaskFrame. rewrite trim_end_ok by done.
  cbn [mbind go_bind]. set (payload := take _ _). clearbody payload.
  case_bool_decide as Hlen; [done|].
  destruct payload as [|a0 [|a1 [|a2 [|a3 [|a4 [|a5 [|a6 [|a7 rest]]]]]]]];
    try (simpl in Hlen; lia).
  simpl. destruct (negb (a1 =? _)); [done|]. destruct (_ <? _); [done|].
  destruct (negb _) eqn:Hr; [done|]. bool_to_prop.
  set (count := ssid_count _ _) in *. clearbody count.
  match goal with |- context [go_map ?f ?l] => enough (exists ms, go_map f l = Ok ms) as [ms ->] by done end.
  assert (Hall : forall i, i ∈ seq 0 count -> (i < count)%nat)
    by (intros i Hi; apply elem_of_seq in Hi; lia).
  revert Hall. generalize (seq 0 count). intros l. induction l as [|i l IH]; intros Hall; [by exists []|].
  destruct IH as [ms Hms]; [intros j Hj; apply Hall; by constructor|].
  specialize (Hall i ltac:(constructor)). simpl.
  rewrite slice_from_ok by (simpl; lia). simpl.
  pose proof (length_drop rest (i * 4)) as Hd.
  destruct (drop (i * 4) rest) as [|b0 [|b1 [|b2 [|b3 l']]]]; simpl in Hd; try lia.
  simpl. rewrite Hms. simpl. by eexists.
Qed.

(** * Lemmas: frames accepted by the parser *)

Lemma with_crc_bytes p : bytes_ok p -> bytes_ok (with_crc p).
Proof. intros. apply bytes_ok_app. auto with bytes. Qed.

Lemma flat_put_u32_bytes ms : bytes_ok (flat_map put_u32 ms).
Proof. induction ms as [|m ms IH]; [constructor|]. apply bytes_ok_app. auto with bytes. Qed.

Lemma maskPayload_bytes first last reserved masks :
  bytes_ok (maskPayload first last reserved masks).
Proof.
  unfold maskPayload. rewrite !bytes_ok_app.
  split_and!; auto using flat_put_u32_bytes with bytes. by bytes_list.
Qed.

Lemma valid_decoded_bytes d : valid_decoded d -> bytes_ok d.
Proof.
  destruct 1; apply with_crc_bytes; [apply maskPayload_bytes|]. by bytes_list.
Qed.

Lemma add_decoded_crc config cmd rest :
  bytes_ok (cmd :: rest) -> (cmd = diagExtMessageConfig \/ cmd = diagSubsysCommand /\ 3 <= length rest)%nat ->
  add_decoded config (with_crc (cmd :: rest)) =
  add_valid config (mkDiagFrame (length (Frames config)) (with_crc (cmd :: rest))).
Proof.
  intros Hb Hcmd. pose proof (diagCRC16_range _ Hb) as Hr.
  assert (Hlen : length (with_crc (cmd :: rest)) = (length rest + 3)%nat)
    by (unfold with_crc; rewrite length_app; simpl; lia).
  assert (Htrim : @trim_end configError _ 2 (with_crc (cmd :: rest)) = Ok (cmd :: rest))
    by by apply trim_end_app.
  assert (Hcrc : @slice_from configError _ (with_crc (cmd :: rest)) (length rest + 3 - 2) =
                 Ok (put_u16 (diagCRC16 (cmd :: rest)))).
  { rewrite slice_from_ok by lia. f_equal.
    replace (length rest + 3 - 2)%nat with (length (cmd :: rest)) by (simpl; lia).
    apply drop_app_length. }
  assert (H0 : with_crc (cmd :: rest) !! 0%nat = Some cmd) by done.
  unfold add_decoded, add_valid. cbn [Decoded].
  set (d := with_crc (cmd :: rest)) in *. clearbody d.
  rewrite Hlen, bool_decide_eq_false_2, Htrim by lia. cbn [mbind go_bind].
  rewrite Hcrc. cbn [mbind go_bind Uint16 put_u16]. rewrite le16_put, Z.eqb_refl by done.
  simpl. rewrite (index_ok _ _ _ H0). simpl.
  destruct Hcmd as [->|[-> ?]].
  - by rewrite decide_True.
  - rewrite decide_False by (unfold is_message; cbn [Decoded]; by rewrite H0).
    by rewrite bool_decide_eq_false_2 by lia.
Qed.

Lemma valid_decoded_cases d :
  valid_decoded d ->
  exists cmd rest, d = with_crc (cmd :: rest) /\ bytes_ok (cmd :: rest) /\
    (cmd = diagExtMessageConfig \/ cmd = diagSubsysCommand /\ 3 <= length rest)%nat.
Proof.
  destruct 1 as [m Hm|rest Hr Hl].
  - eexists _, _. split_and!; [reflexivity| |by left].
    apply (maskPayload_bytes (First m) (Last m) (Reserved m) (Masks m)).
  - eexists _, _. split_and!; [reflexivity|by bytes_list|by right].
Qed.

Lemma parse_mask_with_crc id first last reserved masks :
  mask_ok (mkMessageMaskFrame noFrame first last reserved masks) ->
  let f := mkDiagFrame id (with_crc (maskPayload first last reserved masks)) in
  parseMessageMaskFrame f = Ok (mkMessageMaskFrame f first last reserved masks).
Proof.
  intros (Hf & Hl & Hfl & Hr & Hc & Hm) f.
  pose proof (parse_mask_payload id diagExtMessageConfig first last reserved masks
    (put_u16 (diagCRC16 (maskPayload first last reserved masks))) Hf Hl Hfl Hr Hc Hm eq_refl) as H.
  unfold f, with_crc, maskPayload in *. rewrite <- !app_assoc. exact H.
Qed.

Lemma mask_ok_frame m f :
  mask_ok m -> mask_ok (mkMessageMaskFrame f (First m) (Last m) (Reserved m) (Masks m)).
Proof. done. Qed.

(** An accepted frame extends the configuration and keeps the invariant. *)
Lemma add_decoded_valid config d :
  config_ok config -> valid_decoded d ->
  exists config', add_decoded config d = Ok config' /\ config_ok config' /\
    Frames config' = Frames config ++ [mkDiagFrame (length (Frames config)) d] /\
    SourceSHA256 config' = SourceSHA256 config /\ SourceBytes config' = SourceBytes config.
Proof.
  intros [Hids Hvalid Hmsg Hmask Hpriv] Hd.
  assert (Hids' : frame_ID <$> (Frames config ++ [mkDiagFrame (length (Frames config)) d]) =
    seq 0 (length (Frames config ++ [mkDiagFrame (length (Frames config)) d]))).
  { rewrite fmap_app, length_app, Hids, seq_app. done. }
  assert (Hvalid' : Forall (fun f => valid_decoded (Decoded f))
    (Frames config ++ [mkDiagFrame (length (Frames config)) d])).
  { apply Forall_app. split; [done|]. by apply Forall_singleton. }
  destruct (valid_decoded_cases d Hd) as (cmd & rest & Hdec & Hb & Hcmd).
  rewrite Hdec, add_decoded_crc, <- Hdec by done.
  set (f := mkDiagFrame _ d) in *. unfold add_valid. destruct Hd as [m Hm|rest' Hr Hl].
  - rewrite decide_True by done.
    pose proof (parse_mask_with_crc (length (Frames config)) _ _ _ _ (mask_ok_frame _ noFrame Hm))
      as Hparse. cbn zeta in Hparse. fold f in Hparse.
    rewrite Hparse. eexists. split; [done|].
    split; [|done]. constructor; simpl; try done.
    + rewrite fmap_app, filter_app, Hmsg. done.
    + apply Forall_app. split; [done|]. apply Forall_singleton. done.
    + rewrite filter_app, Hpriv, app_nil_r. done.
  - rewrite decide_False by done. eexists. split; [done|].
    split; [|done]. constructor; simpl; try done.
    + by rewrite filter_app, Hmsg, app_nil_r.
    + by rewrite filter_app, Hpriv.
Qed.

Lemma add_decoded_inv config d config' :
  bytes_ok d -> add_decoded config d = Ok config' -> valid_decoded d.
Proof.
  intros Hb H. unfold add_decoded in H. case_bool_decide as Hlen; [done|].
  destruct (trim_end 2 d) as [p| |] eqn:Htrim; try done.
  apply trim_end_inv in Htrim as (tail & Htail & ->). cbn [mbind go_bind] in H.
  rewrite slice_from_ok in H by lia. rewrite length_app, Htail in *.
  replace (length p + 2 - 2)%nat with (length p) in H by lia.
  rewrite drop_app_length in H. cbn [mbind go_bind] in H.
  destruct tail as [|t0 [|t1 [|]]]; try done. cbn [Uint16 mbind go_bind] in H.
  apply bytes_ok_app in Hb as [Hp Ht]. bytes_inv.
  destruct (le16 t0 t1 =? diagCRC16 p) eqn:Hcrc; [|done]. apply Z.eqb_eq in Hcrc.
  assert (Heq : p ++ [t0; t1] = with_crc p) by (unfold with_crc; by rewrite <- Hcrc, put_u16_le16).
  rewrite Heq in *. destruct p as [|cmd rest]; [simpl in Hlen; lia|]. bytes_inv.
  cbn [negb] in H. change (index _ 0) with (@Ok configError Z cmd) in H.
  cbn [mbind go_bind] in H.
  destruct (cmd =? diagExtMessageConfig) eqn:Hc1.
  - apply Z.eqb_eq in Hc1 as ->.
    destruct (parseMessageMaskFrame _) as [m| |] eqn:Hm in H; try done.
    apply parse_mask_inv in Hm as (_ & Hok & c & tail & Hl & Hdec);
      [|cbn [Decoded]; apply with_crc_bytes; by bytes_list].
    assert (Hpay : diagExtMessageConfig :: rest =
      maskPayload (First m) (Last m) (Reserved m) (Masks m)).
    { unfold with_crc in Hdec. cbn [Decoded] in Hdec.
      eapply (app_inj_2 _ _ (put_u16 _) tail); [by rewrite Hl|].
      rewrite Hdec. unfold maskPayload. simpl in Hdec. injection Hdec as <- _.
      by rewrite <- !app_assoc. }
    rewrite Hpay. by apply valid_message.
  - destruct (cmd =? diagSubsysCommand) eqn:Hc2; [|done]. apply Z.eqb_eq in Hc2 as ->.
    case_bool_decide as Hl; [done|]. apply valid_private; [done|].
    simpl in Hl. lia.
Qed.

Lemma empty_config_ok data : config_ok (empty_config data).
Proof. by constructor; simpl. Qed.

(** The parser run on a list of accepted frames. *)
Lemma add_decoded_fold config ds :
  config_ok config -> Forall valid_decoded ds ->
  exists config', go_fold add_decoded config ds = Ok config' /\ config_ok config' /\
    Decoded <$> Frames config' = (Decoded <$> Frames config) ++ ds /\
    SourceSHA256 config' = SourceSHA256 config /\ SourceBytes config' = SourceBytes config.
Proof.
  intros Hok Hds. revert config Hok. induction Hds as [|d ds Hd Hds IH]; intros config Hok.
  - exists config. by rewrite app_nil_r.
  - destruct (add_decoded_valid config d Hok Hd) as (c1 & Heq & Hok1 & Hfr & Hsha & Hlen).
    destruct (IH c1 Hok1) as (c2 & Heq2 & Hok2 & Hfr2 & Hsha2 & Hlen2).
    exists c2. simpl. rewrite Heq, Heq2. split_and!; [done|done| |congruence..].
    rewrite Hfr2, Hfr, fmap_app, <- app_assoc. done.
Qed.

Lemma parse_segment_escape config d :
  d <> [] -> parse_segment config (hdlcEscape d) = add_decoded config d.
Proof.
  intros Hd. unfold parse_segment. pose proof (escape_nonempty d Hd) as Hne.
  destruct (hdlcEscape d) eqn:E; [done|]. by rewrite <- E, unescape_escape.
Qed.

Lemma split_encode frames :
  split_on 0x7e (encodeConfig frames) = ((fun f => hdlcEscape (Decoded f)) <$> frames) ++ [[]].
Proof.
  induction frames as [|f frames IH]; [done|]. simpl.
  rewrite <- app_assoc. simpl. rewrite split_on_app_sep by apply escape_no_flag.
  by rewrite IH.
Qed.

Lemma parse_encode_fold config frames :
  Forall (fun f => Decoded f <> []) frames ->
  go_fold parse_segment config (split_on 0x7e (encodeConfig frames)) =
  go_fold add_decoded config (Decoded <$> frames).
Proof.
  intros H. rewrite split_encode. revert config.
  induction H as [|f frames Hf H IH]; intros config; [done|]. simpl.
  rewrite parse_segment_escape by done. destruct (add_decoded config (Decoded f)); [|done..].
  apply IH.
Qed.

Lemma valid_decoded_nonempty d : valid_decoded d -> d <> [].
Proof. by destruct 1. Qed.

Lemma parse_encode frames :
  frames <> [] -> Forall (fun f => valid_decoded (Decoded f)) frames ->
  exists config, parseQTraceConfigBytes (encodeConfig frames) = Ok config /\
    config_ok config /\ Decoded <$> Frames config = Decoded <$> frames.
Proof.
  intros Hne Hv. unfold parseQTraceConfigBytes. rewrite parse_encode_fold.
  2: { eapply Forall_impl; [exact Hv|]. intros f. apply valid_decoded_nonempty. }
  destruct (add_decoded_fold (empty_config (encodeConfig frames)) (Decoded <$> frames))
    as (c & -> & Hok & Hfr & _); [apply empty_config_ok|by apply Forall_fmap|].
  exists c. simpl in Hfr |- *. split_and!; [|done|done].
  destruct frames as [|f frames]; [done|]. by destruct (Frames c).
Qed.

Lemma encode_nil : parseQTraceConfigBytes (encodeConfig []) = Err ErrNoFrames.
Proof. done. Qed.

(** A configuration is determined by its frames. *)
Lemma config_ok_frames c1 c2 :
  config_ok c1 -> config_ok c2 -> Decoded <$> Frames c1 = Decoded <$> Frames c2 ->
  Frames c1 = Frames c2.
Proof.
  intros H1 H2 H. pose proof (ok_ids _ H1) as I1. pose proof (ok_ids _ H2) as I2.
  pose proof (f_equal length H) as Hl. rewrite !length_fmap in Hl. rewrite Hl in I1.
  rewrite <- I2 in I1. clear -H I1. revert H I1.
  generalize (Frames c1), (Frames c2). intros l1.
  induction l1 as [|[i d] l1 IH]; intros [|[i2 d2] l2]; simpl; try done.
  intros [= -> H] [= -> I]. f_equal. by apply IH.
Qed.

Lemma parse_fold_ok config data config' :
  config_ok config -> Forall bytes_ok data ->
  go_fold parse_segment config data = Ok config' ->
  config_ok config' /\ SourceSHA256 config' = SourceSHA256 config /\
  SourceBytes config' = SourceBytes config.
Proof.
  intros Hok Hb. revert config Hok. induction Hb as [|seg segs Hs Hb IH]; intros config Hok H.
  { by injection H as <-. }
  simpl in H. destruct (parse_segment config seg) as [c1| |] eqn:Hseg; try done.
  unfold parse_segment in Hseg. destruct seg as [|x seg].
  { injection Hseg as <-. by apply IH. }
  destruct (hdlcUnescape (x :: seg)) as [d| |] eqn:Hd; try done. simpl in Hseg.
  pose proof (unescape_bytes _ _ Hs Hd) as Hdb.
  pose proof (add_decoded_inv _ _ _ Hdb Hseg) as Hv.
  destruct (add_decoded_valid config d Hok Hv) as (c2 & Heq & Hok2 & _ & Hsha & Hlen).
  rewrite Heq in Hseg. injection Hseg as ->.
  destruct (IH c1 Hok2 H) as (? & ? & ?). split_and!; [done|congruence..].
Qed.

Lemma parse_config_ok data config :
  bytes_ok data -> parseQTraceConfigBytes data = Ok config ->
  config_ok config /\ Frames config <> [] /\ SourceBytes config = length data /\
  SourceSHA256 config = hex_EncodeToString (Sha256.Sum256 data).
Proof.
  intros Hb H. unfold parseQTraceConfigBytes in H.
  destruct (go_fold _ _ _) as [c| |] eqn:Hf; try done. simpl in H.
  destruct (Frames c) eqn:Hfr; [done|]. injection H as ->.
  apply parse_fold_ok in Hf as (? & ? & ?);
    [|apply empty_config_ok|by apply split_on_Forall].
  split_and!; try done. congruence.
Qed.

Lemma add_decoded_no_panic config d : add_decoded config d <> Panic.
Proof.
  unfold add_decoded. case_bool_decide as Hl; [done|].
  rewrite trim_end_ok by lia. cbn [mbind go_bind].
  rewrite slice_from_ok by lia. cbn [mbind go_bind].
  pose proof (length_drop d (length d - 2)) as Hd.
  destruct (drop (length d - 2) d) as [|t0 [|t1 t]]; simpl in Hd; try lia.
  cbn [Uint16 mbind go_bind]. destruct (negb _); [done|].
  destruct d as [|cmd d]; [simpl in Hl; lia|].
  change (index (cmd :: d) 0) with (@Ok configError Z cmd). cbn [mbind go_bind].
  destruct (cmd =? _).
  - destruct (parseMessageMaskFrame _) eqn:E; simpl; try done.
    by apply parse_mask_no_panic in E; [|simpl in *; lia].
  - destruct (cmd =? _); [|done]. by case_bool_decide.
Qed.

Lemma parse_segment_no_panic config seg : parse_segment config seg <> Panic.
Proof.
  unfold parse_segment. destruct seg as [|x seg]; [done|].
  pose proof (unescape_not_panic (x :: seg)).
  destruct (hdlcUnescape (x :: seg)) as [d| |]; [|done..]. apply add_decoded_no_panic.
Qed.

Lemma parse_no_panic data : parseQTraceConfigBytes data <> Panic.
Proof.
  unfold parseQTraceConfigBytes.
  pose proof (go_fold_no_panic (fun _ => True) parse_segment (split_on 0x7e data) (empty_config data))
    as H.
  destruct (go_fold _ _ _) as [c| |]; simpl.
  - by destruct (Frames c).
  - done.
  - exfalso. apply H; [|by apply Forall_true|done]. intros. apply parse_segment_no_panic.
Qed.

(** * Lemmas: selection *)

Lemma mask_ok_zero m : mask_ok m ->
  mask_ok (mkMessageMaskFrame (mm_Frame m) (First m) (Last m) (Reserved m)
             (repeat 0 (length (Masks m)))).
Proof.
  intros (Hf & Hl & Hfl & Hr & Hc & _). unfold mask_ok. simpl.
  rewrite repeat_length. split_and!; try done.
  apply Forall_forall. intros x Hx. apply list_elem_of_In, repeat_spec in Hx as ->. done.
Qed.

Lemma build_mask_frame id m : mask_ok m ->
  buildMessageMaskFrame id (First m) (Last m) (Reserved m) (Masks m) =
  Ok (mkDiagFrame id (with_crc (maskPayload (First m) (Last m) (Reserved m) (Masks m)))).
Proof.
  intros (_ & _ & Hfl & _ & Hc & _). unfold buildMessageMaskFrame.
  by rewrite (proj2 (Z.ltb_ge _ _) Hfl), Hc, Nat.eqb_refl.
Qed.

Lemma zero_frames_ok config :
  config_ok config -> zeroMessageFrames config = Ok (zeroed <$> MessageFrames config).
Proof.
  intros Hok. apply go_map_Ok. rewrite Forall2_fmap_r.
  apply Forall_Forall2_diag. eapply Forall_impl; [apply (ok_masks _ Hok)|].
  intros m [Hm _]. exact (build_mask_frame _ _ (mask_ok_zero m Hm)).
Qed.

Lemma valid_zeroed m : mask_ok m -> valid_decoded (Decoded (zeroed m)).
Proof. intros Hm. exact (valid_message _ (mask_ok_zero m Hm)). Qed.

Lemma message_ids_NoDup config : config_ok config -> NoDup (allMessageFrameIDs config).
Proof.
  intros Hok. unfold allMessageFrameIDs.
  rewrite (list_fmap_compose mm_Frame frame_ID), (ok_messages _ Hok).
  eapply sublist_NoDup; [|apply fmap_sublist, sublist_filter].
  rewrite (ok_ids _ Hok). apply NoDup_seq.
Qed.

Lemma insert_by_id_lookup (fs : list diagFrame) (m0 : gmap nat diagFrame) f :
  NoDup (frame_ID <$> fs) -> f ∈ fs ->
  foldl (fun m f => <[frame_ID f := f]> m) m0 fs !! frame_ID f = Some f.
Proof.
  revert m0. induction fs as [|g fs IH]; intros m0 Hnd Hf; [by apply elem_of_nil in Hf|].
  simpl in *. apply NoDup_cons in Hnd as [Hg Hnd].
  apply elem_of_cons in Hf as [<-|Hf]; [|by apply IH].
  assert (Hkeep : forall m1 : gmap nat diagFrame, m1 !! frame_ID f = Some f ->
    foldl (fun m f => <[frame_ID f := f]> m) m1 fs !! frame_ID f = Some f).
  { clear IH Hnd. induction fs as [|h fs IH]; intros m1 Hm1; [done|]. simpl in *.
    apply not_elem_of_cons in Hg as [Hne Hg]. apply IH; [done|].
    by rewrite lookup_insert_ne. }
  apply Hkeep. apply lookup_insert_eq.
Qed.

Lemma message_of_id config f :
  config_ok config -> f ∈ Frames config -> frame_ID f ∈ allMessageFrameIDs config ->
  exists m, m ∈ MessageFrames config /\ mm_Frame m = f.
Proof.
  intros Hok Hf Hid. unfold allMessageFrameIDs in Hid.
  apply list_elem_of_fmap in Hid as (m & Hid & Hm). exists m. split; [done|].
  assert (Hmf : mm_Frame m ∈ Frames config).
  { assert (H : mm_Frame m ∈ mm_Frame <$> MessageFrames config) by by apply list_elem_of_fmap_2.
    rewrite (ok_messages _ Hok) in H. by apply list_elem_of_filter in H as [_ H]. }
  apply list_elem_of_lookup in Hf as [i Hi]. apply list_elem_of_lookup in Hmf as [j Hj].
  assert (NoDup (frame_ID <$> Frames config)) as Hnd by (rewrite (ok_ids _ Hok); apply NoDup_seq).
  assert (i = j) as ->; [|congruence].
  eapply NoDup_lookup; [exact Hnd| |]; rewrite list_lookup_fmap; [by rewrite Hi|].
  rewrite Hj. simpl. by rewrite Hid.
Qed.

Lemma valid_head d : valid_decoded d ->
  exists cmd, d !! 0%nat = Some cmd /\ (cmd = diagExtMessageConfig \/ cmd = diagSubsysCommand).
Proof.
  intros Hv. destruct (valid_decoded_cases d Hv) as (cmd & rest & -> & _ & Hc).
  exists cmd. split; [done|]. destruct Hc as [?|[? _]]; auto.
Qed.

Lemma private_selected_head f mode :
  privateFrameSelected f mode = true -> Decoded f !! 0%nat = Some diagSubsysCommand.
Proof.
  unfold privateFrameSelected. destruct (_ || _); [done|].
  destruct (Decoded f) as [|cmd [|s [|c0 [|c1 l]]]]; try done.
  destruct (cmd =? diagSubsysCommand) eqn:E; [|done]. by apply Z.eqb_eq in E as ->.
Qed.

Lemma private_both_selected f :
  valid_decoded (Decoded f) -> is_private f -> privateFrameSelected f privateBoth = true.
Proof.
  intros Hv Hp. unfold is_private in Hp. unfold privateFrameSelected.
  destruct Hv as [m Hm|rest Hb Hl]; [done|].
  rewrite bool_decide_eq_false_2 by done.
  rewrite bool_decide_eq_false_2 by (unfold with_crc; rewrite length_app; simpl; lia).
  destruct rest as [|a [|b [|c rest]]]; simpl in Hl; try lia. done.
Qed.

Lemma selected_valid config ids z f g :
  config_ok config -> f ∈ Frames config -> selected_as config ids z f g ->
  frame_ID g = frame_ID f /\ valid_decoded (Decoded g).
Proof.
  intros Hok Hf Hg. unfold selected_as in Hg. destruct (z && _).
  - destruct Hg as (m & Hm & <- & ->). split; [done|].
    apply valid_zeroed. pose proof (ok_masks _ Hok) as H.
    by apply (proj1 (Forall_forall _ _) H) in Hm as [? _].
  - subst g. split; [done|]. by apply (proj1 (Forall_forall _ _) (ok_valid _ Hok)).
Qed.

Lemma select_step_ok config ids z p (zby : gmap nat diagFrame) acc f :
  config_ok config -> (forall i, i ∈ ids -> i ∈ allMessageFrameIDs config) ->
  (z = true -> forall m, m ∈ MessageFrames config ->
     zby !! frame_ID (mm_Frame m) = Some (zeroed m)) ->
  f ∈ Frames config ->
  exists gs, select_step (list_to_set ids) zby z p acc f = Ok (acc ++ gs) /\
    Forall2 (selected_as config ids z) (filter (chosen ids p) [f]) gs.
Proof.
  intros Hok Hids Hlook Hf. unfold select_step. case_bool_decide as Hin.
  - apply elem_of_list_to_set in Hin. rewrite filter_cons_True by by left.
    destruct z; [|exists [f]; split; [done|]; by repeat constructor].
    destruct (message_of_id config f Hok Hf (Hids _ Hin)) as (m & Hm & Hmf).
    exists [zeroed m]. subst f. rewrite (Hlook eq_refl m Hm). split; [done|].
    constructor; [|constructor]. unfold selected_as. rewrite bool_decide_eq_true_2 by done.
    by exists m.
  - rewrite elem_of_list_to_set in Hin.
    assert (Hv : valid_decoded (Decoded f)) by by apply (proj1 (Forall_forall _ _) (ok_valid _ Hok)).
    destruct (valid_head _ Hv) as (cmd & Hcmd & _). rewrite (index_ok _ _ _ Hcmd).
    cbn [mbind go_bind]. destruct (privateFrameSelected f p) eqn:Hsel.
    + rewrite filter_cons_True by by right. apply private_selected_head in Hsel as Hc.
      rewrite Hc in Hcmd. injection Hcmd as <-. rewrite Z.eqb_refl.
      exists [f]. split; [done|]. constructor; [|constructor].
      unfold selected_as. by rewrite (bool_decide_eq_false_2 _ Hin), andb_false_r.
    + rewrite filter_cons_False by (unfold chosen; rewrite Hsel; intros [?|?]; done).
      rewrite andb_false_r. exists []. rewrite app_nil_r. by constructor.
Qed.

Lemma zero_lookup config m :
  config_ok config -> m ∈ MessageFrames config ->
  foldl (fun m f => <[frame_ID f := f]> m) (∅ : gmap nat diagFrame)
    (zeroed <$> MessageFrames config) !! frame_ID (mm_Frame m) = Some (zeroed m).
Proof.
  intros Hok Hm. change (frame_ID (mm_Frame m)) with (frame_ID (zeroed m)).
  apply insert_by_id_lookup; [|by apply list_elem_of_fmap_2].
  rewrite <- list_fmap_compose. exact (message_ids_NoDup _ Hok).
Qed.

(** The selection keeps the chosen frames in file order. *)
Lemma select_frames_ok config ids z p :
  config_ok config -> (forall i, i ∈ ids -> i ∈ allMessageFrameIDs config) ->
  exists fs, selectFrames config ids z p = Ok fs /\
    Forall2 (selected_as config ids z) (filter (chosen ids p) (Frames config)) fs.
Proof.
  intros Hok Hids. unfold selectFrames.
  assert (Hz : exists zby : gmap nat diagFrame,
    (z = true -> forall m, m ∈ MessageFrames config ->
       zby !! frame_ID (mm_Frame m) = Some (zeroed m)) /\
    (if z then zeroFrames ← zeroMessageFrames config;
               mret (foldl (fun m f => <[frame_ID f := f]> m) (∅ : gmap nat diagFrame) zeroFrames)
     else mret (∅ : gmap nat diagFrame)) = @Ok configError _ zby).
  { destruct z; [|by exists ∅]. rewrite zero_frames_ok by done. eexists. split; [|done].
    intros _ m Hm. by apply zero_lookup. }
  destruct Hz as (zby & Hlook & ->). cbn [mbind go_bind].
  enough (forall l acc, (forall f, f ∈ l -> f ∈ Frames config) ->
    exists fs, go_fold (select_step (list_to_set ids) zby z p) acc l = Ok (acc ++ fs) /\
      Forall2 (selected_as config ids z) (filter (chosen ids p) l) fs) as H.
  { exact (H (Frames config) [] (fun f Hf => Hf)). }
  intros l. induction l as [|f l IH]; intros acc Hl.
  { exists []. rewrite app_nil_r. by constructor. }
  destruct (select_step_ok config ids z p zby acc f Hok Hids Hlook) as (gs & Hgs & Hrel);
    [apply Hl; left|].
  destruct (IH (acc ++ gs)) as (fs & Hfs & Hrel2); [intros g Hg; apply Hl; by right|].
  exists (gs ++ fs). cbn [go_fold]. rewrite Hgs, Hfs, <- app_assoc. split; [done|].
  change (f :: l) with ([f] ++ l). rewrite filter_app. by apply Forall2_app.
Qed.

Lemma selected_id config ids f g : selected_as config ids false f g <-> g = f.
Proof. done. Qed.

Lemma chosen_all config f :
  config_ok config -> f ∈ Frames config -> chosen (allMessageFrameIDs config) privateBoth f.
Proof.
  intros Hok Hf. assert (Hv : valid_decoded (Decoded f))
    by by apply (proj1 (Forall_forall _ _) (ok_valid _ Hok)).
  destruct (valid_head _ Hv) as (cmd & Hcmd & [->| ->]).
  - left. unfold allMessageFrameIDs. rewrite (list_fmap_compose mm_Frame frame_ID).
    apply list_elem_of_fmap_2. rewrite (ok_messages _ Hok).
    by apply list_elem_of_filter.
  - right. by apply private_both_selected.
Qed.

Lemma messages_determined config m :
  config_ok config -> m ∈ MessageFrames config ->
  parseMessageMaskFrame (mm_Frame m) = Ok m.
Proof.
  intros Hok Hm. pose proof (proj1 (Forall_forall _ _) (ok_masks _ Hok) m Hm) as [Hmask Hd].
  destruct m as [[id d] f l r ms]. simpl in *. subst d. by apply parse_mask_with_crc.
Qed.

(** A parsed configuration is a function of its frames. *)
Lemma config_ok_parts c1 c2 :
  config_ok c1 -> config_ok c2 -> Frames c1 = Frames c2 ->
  MessageFrames c1 = MessageFrames c2 /\ PrivateFrames c1 = PrivateFrames c2.
Proof.
  intros H1 H2 H. split; [|by rewrite (ok_private _ H1), (ok_private _ H2), H].
  pose proof (ok_messages _ H1) as M1. pose proof (ok_messages _ H2) as M2.
  rewrite H, <- M2 in M1. clear -M1 H1 H2.
  pose proof (messages_determined c1) as D1. pose proof (messages_determined c2) as D2.
  specialize (D1) with (1 := H1). specialize (D2) with (1 := H2). clear H1 H2.
  revert M1 D1 D2. generalize (MessageFrames c1), (MessageFrames c2).
  intros l1. induction l1 as [|m1 l1 IH]; intros [|m2 l2] M D1 D2; try done.
  injection M as Hm M. f_equal.
  - specialize (D1 m1 ltac:(left)). specialize (D2 m2 ltac:(left)). congruence.
  - apply IH; [done| |]; intros m Hm'; [apply D1|apply D2]; by right.
Qed.

Lemma fold_all_valid config ds config' :
  config_ok config -> Forall bytes_ok ds -> go_fold add_decoded config ds = Ok config' ->
  Forall valid_decoded ds.
Proof.
  intros Hok Hb. revert config Hok. induction Hb as [|d ds Hd Hb IH]; intros config Hok H;
    [constructor|].
  simpl in H. destruct (add_decoded config d) as [c1| |] eqn:Ha; try done.
  pose proof (add_decoded_inv _ _ _ Hd Ha) as Hv.
  destruct (add_decoded_valid config d Hok Hv) as (c2 & Heq & Hok2 & _).
  rewrite Heq in Ha. injection Ha as ->. constructor; [done|]. by eapply IH.
Qed.

Lemma corrupted_not_valid pre a b a' b' post :
  valid_decoded (pre ++ a :: b :: post) -> is_byte a' -> is_byte b' -> (a, b) <> (a', b') ->
  ~ valid_decoded (pre ++ a' :: b' :: post).
Proof.
  intros H1 Ha' Hb' Hne H2.
  pose proof (valid_decoded_bytes _ H1) as Hb. apply bytes_ok_app in Hb as [Hpre Hpost].
  apply valid_decoded_cases in H1 as (c1 & r1 & E1 & B1 & _).
  apply valid_decoded_cases in H2 as (c2 & r2 & E2 & B2 & _).
  bytes_inv. apply Hne. apply f_equal2; 
  eapply (crc_burst_eq pre post a b a' b'); try done;
  rewrite E1, E2; unfold with_crc; by rewrite !crc_residue by by bytes_list.
Qed.

Lemma parse_reencode data config :
  bytes_ok data -> parseQTraceConfigBytes data = Ok config ->
  exists config', parseQTraceConfigBytes (encodeConfig (Frames config)) = Ok config' /\
    Frames config' = Frames config /\ MessageFrames config' = MessageFrames config /\
    PrivateFrames config' = PrivateFrames config.
Proof.
  intros Hb H. destruct (parse_config_ok _ _ Hb H) as (Hok & Hne & _).
  destruct (parse_encode (Frames config) Hne (ok_valid _ Hok)) as (c & Hc & Hcok & Hd).
  exists c. pose proof (config_ok_frames _ _ Hcok Hok Hd) as Hf.
  split; [done|]. split; [done|]. by apply config_ok_parts.
Qed.

(** * Properties *)

(** C40: parsing is total and sound.  On every byte string the parser returns a
    configuration or an error, it never indexes out of range; and what it
    returns satisfies the invariant [config_ok] (frames numbered in file order
    and CRC-checked, message and private frames a partition of them, mask
    words exactly those of the SSID range), is not empty, carries the length
    and the SHA-256 of the input, and is recovered from its own encoding. *)
Theorem parseQTraceConfigBytes_sound (data : list Z) :
  bytes_ok data ->
  match parseQTraceConfigBytes data with
  | Ok config =>
    config_ok config /\ Frames config <> [] /\ SourceBytes config = length data /\
    SourceSHA256 config = hex_EncodeToString (Sha256.Sum256 data) /\
    exists config', parseQTraceConfigBytes (encodeConfig (Frames config)) = Ok config' /\
      Frames config' = Frames config /\ MessageFrames config' = MessageFrames config /\
      PrivateFrames config' = PrivateFrames config
  | Err _ => True
  | Panic => False
  end.
Proof.
  intros Hb. pose proof (parse_no_panic data) as Hp.
  destruct (parseQTraceConfigBytes data) as [c| |] eqn:H; [|done|by apply Hp].
  destruct (parse_config_ok _ _ Hb H) as (? & ? & ? & ?).
  split_and!; try done. by eapply parse_reencode.
Qed.

Lemma sample_private_valid : valid_decoded sample_private.
Proof. apply (valid_private [0x44; 0x01; 0x90; 0x7e; 0x7d]); [by bytes_list|simpl; lia]. Qed.

Lemma sample_message_valid : valid_decoded sample_message.
Proof.
  apply (valid_message (mkMessageMaskFrame noFrame 9500 9501 0 [0xffffffff; 0x8000])).
  unfold mask_ok. simpl. split_and!; try done. by bytes_list.
Qed.

Lemma sample_frames_valid : Forall (fun f => valid_decoded (Decoded f)) sample_frames.
Proof. bytes_list; [apply sample_private_valid|apply sample_message_valid]. Qed.

Example parseQTraceConfigBytes_sound_witness :
  bytes_ok (encodeConfig sample_frames) /\
  exists config, parseQTraceConfigBytes (encodeConfig sample_frames) = Ok config /\
    config_ok config.
Proof.
  assert (Hb : bytes_ok (encodeConfig sample_frames)).
  { apply (bool_decide_unpack _). vm_compute. exact I. }
  split; [exact Hb|].
  pose proof (parseQTraceConfigBytes_sound (encodeConfig sample_frames) Hb) as H.
  destruct (parseQTraceConfigBytes (encodeConfig sample_frames)) as [c| |] eqn:E.
  - exists c. split; [reflexivity|exact (proj1 H)].
  - exfalso. vm_compute in E. discriminate E.
  - destruct H.
Defined.

(** C39: encoding is a right inverse of parsing on every non-empty list of
    acceptable frames, whatever bytes they contain: the parser accepts
    [encodeConfig frames] and returns the same frame contents in the same
    order, numbered from 0; an empty list of frames is the one case whose
    encoding is refused, as "no HDLC frames". *)
Theorem encodeConfig_roundtrip (frames : list diagFrame) :
  Forall (fun f => valid_decoded (Decoded f)) frames ->
  match parseQTraceConfigBytes (encodeConfig frames) with
  | Ok config => frames <> [] /\ config_ok config /\
                 Decoded <$> Frames config = Decoded <$> frames /\
                 encodeConfig (Frames config) = encodeConfig frames
  | Err e => frames = [] /\ e = ErrNoFrames
  | Panic => False
  end.
Proof.
  intros Hv. destruct (decide (frames = [])) as [->|Hne]; [done|].
  destruct (parse_encode frames Hne Hv) as (c & -> & Hok & Hd).
  split_and!; try done. unfold encodeConfig.
  revert Hd. generalize (Frames c). clear. intros l. revert frames.
  induction l as [|[i d] l IH]; intros [|[i2 d2] frames] H; try done.
  simpl in H. injection H as -> H. simpl. by rewrite (IH frames H).
Qed.

Example encodeConfig_roundtrip_witness :
  exists config, parseQTraceConfigBytes (encodeConfig sample_frames) = Ok config /\
    Decoded <$> Frames config = [sample_private; sample_message].
Proof.
  pose proof (encodeConfig_roundtrip sample_frames sample_frames_valid) as H.
  destruct (parseQTraceConfigBytes (encodeConfig sample_frames)) as [c|e|].
  - exists c. split; [reflexivity|exact (proj1 (proj2 (proj2 H)))].
  - exfalso. discriminate (proj1 H).
  - destruct H.
Defined.

(** building a message-mask frame and parsing it are inverse: a frame is
    built exactly when the SSID range is ordered and has one mask per SSID,
    and parsing what was built gives back range, reserved word and masks; its
    bytes carry a valid CRC, so it is accepted inside a configuration. *)
Theorem buildMessageMaskFrame_roundtrip (id : nat) (first last reserved : Z) (masks : list Z) :
  in_range 16 first -> in_range 16 last -> in_range 16 reserved -> Forall (in_range 32) masks ->
  match buildMessageMaskFrame id first last reserved masks with
  | Ok frame =>
    (first <= last /\ Z.of_nat (length masks) = last - first + 1) /\
    parseMessageMaskFrame frame = Ok (mkMessageMaskFrame frame first last reserved masks) /\
    frame_ID frame = id /\ valid_decoded (Decoded frame)
  | Err e => e = ErrInvalidMaskCount id /\
             (last < first \/ Z.of_nat (length masks) <> last - first + 1)
  | Panic => False
  end.
Proof.
  intros Hf Hl Hr Hm. unfold buildMessageMaskFrame.
  assert (Hc : first <= last -> Z.of_nat (ssid_count first last) = last - first + 1).
  { unfold ssid_count, in_range in *. intros. rewrite wrap_id by (unfold in_range; lia). lia. }
  destruct (last <? first) eqn:Hlt; simpl; bool_to_prop; [split; [done|by left]|].
  destruct (length masks =? _)%nat eqn:Hlen; simpl; bool_to_prop.
  - assert (Hok : mask_ok (mkMessageMaskFrame noFrame first last reserved masks))
      by by unfold mask_ok.
    split_and!; [done| |by apply parse_mask_with_crc|done|exact (valid_message _ Hok)].
    rewrite Hlen. auto.
  - split; [done|]. right. lia.
Qed.

Example buildMessageMaskFrame_roundtrip_witness :
  exists frame, buildMessageMaskFrame 3 9500 9501 7 [1; 0xffffffff] = Ok frame /\
    parseMessageMaskFrame frame = Ok (mkMessageMaskFrame frame 9500 9501 7 [1; 0xffffffff]).
Proof.
  assert (H1 : in_range 16 9500) by (unfold in_range; lia).
  assert (H2 : in_range 16 9501) by (unfold in_range; lia).
  assert (H3 : in_range 16 7) by (unfold in_range; lia).
  assert (H4 : Forall (in_range 32) [1; 0xffffffff]) by by bytes_list.
  pose proof (buildMessageMaskFrame_roundtrip 3 9500 9501 7 [1; 0xffffffff] H1 H2 H3 H4) as H.
  destruct (buildMessageMaskFrame 3 9500 9501 7 [1; 0xffffffff]) as [f| |] eqn:E.
  - exists f. split; [reflexivity|exact (proj1 (proj2 H))].
  - exfalso. vm_compute in E. discriminate E.
  - destruct H.
Defined.

(** [selectFrames] never fails on a parsed configuration.  For message
    identifiers of that configuration it returns, in file order, exactly the
    selected message frames and the private frames of the mode; each frame is
    kept as it is, or, under [zeroMasks], rebuilt with the same identifier,
    SSID range and reserved word and every mask zero; all of them are
    acceptable frames.  Selecting everything returns the original frames. *)
Theorem selectFrames_spec (config : qtraceConfig) (ids : list nat) (zeroMasks : bool)
    (private : privateMode) :
  config_ok config -> (forall i, i ∈ ids -> i ∈ allMessageFrameIDs config) ->
  exists frames, selectFrames config ids zeroMasks private = Ok frames /\
    Forall2 (fun f g => selected_as config ids zeroMasks f g /\ frame_ID g = frame_ID f /\
                        valid_decoded (Decoded g))
      (filter (chosen ids private) (Frames config)) frames /\
    selectFrames config (allMessageFrameIDs config) false privateBoth = Ok (Frames config).
Proof.
  intros Hok Hids. destruct (select_frames_ok config ids zeroMasks private Hok Hids) as (fs & Hfs & Hrel).
  exists fs. split; [done|]. split.
  - apply Forall2_same_length_lookup_2; [by apply Forall2_length in Hrel|].
    intros i f g Hf Hg. pose proof (Forall2_lookup_lr _ _ _ _ _ _ Hrel Hf Hg) as H.
    split; [done|]. eapply selected_valid; [done| |exact H].
    apply list_elem_of_lookup_2, list_elem_of_filter in Hf. by destruct Hf.
  - destruct (select_frames_ok config (allMessageFrameIDs config) false privateBoth Hok)
      as (gs & -> & Hall); [done|].
    f_equal. rewrite filter_all in Hall.
    + apply list_eq_Forall2. eapply Forall2_flip, Forall2_impl; [exact Hall|]. by intros f g ->.
    + apply Forall_forall. intros f Hf. by apply chosen_all.
Qed.

Example selectFrames_spec_witness :
  exists config frames, parseQTraceConfigBytes (encodeConfig sample_frames) = Ok config /\
    selectFrames config [1%nat] true private9001 = Ok frames /\
    Forall2 (fun f g => selected_as config [1%nat] true f g /\ frame_ID g = frame_ID f /\
                        valid_decoded (Decoded g))
      (filter (chosen [1%nat] private9001) (Frames config)) frames.
Proof.
  destruct (parse_encode sample_frames ltac:(discriminate) sample_frames_valid) as (c & Hc & Hok & _).
  exists c. vm_compute in Hc. injection Hc as Hc.
  destruct (selectFrames_spec c [1%nat] true private9001 Hok) as (fs & Hfs & Hrel & _).
  - intros i Hi. apply list_elem_of_singleton in Hi as ->. subst c.
    apply (bool_decide_unpack _). vm_compute. exact I.
  - exists fs. split; [|split; [exact Hfs|exact Hrel]]. subst c. vm_compute. reflexivity.
Defined.

(** a corrupted configuration is refused.  If any accepted frame of a file
    is hit by an error burst of at most two neighbouring bytes (after
    unescaping), in its payload, in its CRC or across the two, the whole file
    fails to parse, whatever the other frames are. *)
Theorem corrupted_frame_rejected (before after : list diagFrame) (id : nat)
    (pre post : list Z) (a b a' b' : Z) :
  Forall (fun f => valid_decoded (Decoded f)) before ->
  Forall (fun f => valid_decoded (Decoded f)) after ->
  valid_decoded (pre ++ a :: b :: post) -> is_byte a' -> is_byte b' -> (a, b) <> (a', b') ->
  exists e, parseQTraceConfigBytes
    (encodeConfig (before ++ mkDiagFrame id (pre ++ a' :: b' :: post) :: after)) = Err e.
Proof.
  intros Hbefore Hafter Hv Ha' Hb' Hne.
  set (frames := before ++ _ :: after). unfold parseQTraceConfigBytes.
  pose proof (valid_decoded_bytes _ Hv) as Hb.
  assert (Hall : Forall bytes_ok (Decoded <$> frames)).
  { apply Forall_fmap, Forall_app. split; [|constructor].
    - eapply Forall_impl; [exact Hbefore|]. intros f. apply valid_decoded_bytes.
    - apply bytes_ok_app in Hb as [? Hb]. apply bytes_ok_app. bytes_inv. split; [done|]. by bytes_list.
    - eapply Forall_impl; [exact Hafter|]. intros f. apply valid_decoded_bytes. }
  rewrite parse_encode_fold.
  2: { apply Forall_app. split; [|constructor].
       - eapply Forall_impl; [exact Hbefore|]. intros f. apply valid_decoded_nonempty.
       - by destruct pre.
       - eapply Forall_impl; [exact Hafter|]. intros f. apply valid_decoded_nonempty. }
  destruct (go_fold _ _ _) as [c|e|] eqn:Hf; [|by exists e|].
  - exfalso. apply fold_all_valid in Hf; [|apply empty_config_ok|done].
    unfold frames in Hf. rewrite fmap_app, Forall_app in Hf. destruct Hf as [_ Hf].
    apply Forall_cons in Hf as [Hbad _].
    by apply (corrupted_not_valid pre a b a' b' post).
  - exfalso. revert Hf. apply (go_fold_no_panic (fun _ => True)); [|by apply Forall_true].
    intros. apply add_decoded_no_panic.
Qed.

Example corrupted_frame_rejected_witness :
  exists e, parseQTraceConfigBytes (encodeConfig
    [mkDiagFrame 0 sample_message;
     mkDiagFrame 1 ([0x4b; 0x44] ++ 0x03 :: 0x91 :: drop 4 sample_private)]) = Err e.
Proof.
  apply (corrupted_frame_rejected [mkDiagFrame 0 sample_message] [] 1 [0x4b; 0x44]
           (drop 4 sample_private) 0x01 0x90 0x03 0x91).
  - bytes_list. apply sample_message_valid.
  - constructor.
  - exact sample_private_valid.
  - unfold in_range; lia.
  - unfold in_range; lia.
  - discriminate.
Defined.
