(* ===== verification/Ddmin.v ===== *)
(** Delta debugging of the trace reducer,
    [src/tools/u60-qtrace-reducer/ddmin.go]: [partitionStable],
    [stableComplement] and the loop of [ddmin].  The device is a state [S] that
    every test of a candidate transforms; [ReducerBatch] supplies the test, the
    repeated runs of a candidate. *)

From S2P Require Import Prelude.
From S2P Require Import GoInt.
From S2P Require Import GoFloat.
From S2P Require Import GoSort.
Open Scope nat_scope.

(** * Partitions *)

Fixpoint partition_loop (items : list nat) (base extra offset idx count : nat) : list (list nat) :=
  match count with
  | O => []
  | S count =>
    let size := base + (if idx <? extra then 1 else 0) in
    take size (drop offset items) ::
    partition_loop items base extra (offset + size) (Datatypes.S idx) count
  end.

Definition partitionStable (items : list nat) (parts : nat) : list (list nat) :=
  let parts := if length items <? parts then length items else parts in
  let parts := if parts <? 1 then 1 else parts in
  partition_loop items (length items `div` parts) (length items `mod` parts) 0 0 parts.

Definition count_of (counts : gmap nat nat) (value : nat) : nat := default 0 (counts !! value).

Fixpoint complement_loop (counts : gmap nat nat) (items : list nat) : list nat :=
  match items with
  | [] => []
  | value :: items' =>
    if 0 <? count_of counts value
    then complement_loop (<[value := count_of counts value - 1]> counts) items'
    else value :: complement_loop counts items'
  end.

Definition stableComplement (items remove : list nat) : list nat :=
  let counts := fold_left (fun m value => <[value := count_of m value + 1]> m) remove ∅ in
  complement_loop counts items.

(** * The minimisation loop *)

Section Ddmin.
Context {S E : Type}.
Variable test : list nat -> S -> S * go E bool.

(** The first subset the test accepts. *)
Fixpoint try_subsets (subsets : list (list nat)) (s : S) : S * go E (option (list nat)) :=
  match subsets with
  | [] => (s, Ok None)
  | subset :: rest =>
    let '(s, r) := test subset s in
    match r with
    | Err e => (s, Err e)
    | Panic => (s, Panic)
    | Ok passed => if passed : bool then (s, Ok (Some subset)) else try_subsets rest s
    end
  end.

(** The complements of the subsets, empty ones skipped. *)
Definition complements (current : list nat) (subsets : list (list nat)) : list (list nat) :=
  List.filter (fun c => negb (length c =? 0)) (stableComplement current <$> subsets).

Definition shrink_n (n : nat) : nat := if 2 <? n then n - 1 else n.

Definition grow_n (n len : nat) : nat := if len <? n * 2 then len else n * 2.

(** [for len(current) >= 2]; [None] when the fuel runs out. *)
Fixpoint ddmin_loop (fuel : nat) (current : list nat) (n : nat) (s : S)
    : option (S * go E (list nat)) :=
  match fuel with
  | O => None
  | Datatypes.S fuel =>
    if length current <? 2 then Some (s, Ok current) else
    let partitions := partitionStable current n in
    let '(s, r) := try_subsets partitions s in
    match r with
    | Err e => Some (s, Err e)
    | Panic => Some (s, Panic)
    | Ok (Some subset) => ddmin_loop fuel subset (shrink_n n) s
    | Ok None =>
      let '(s, r) := try_subsets (complements current partitions) s in
      match r with
      | Err e => Some (s, Err e)
      | Panic => Some (s, Panic)
      | Ok (Some complement) => ddmin_loop fuel complement (shrink_n n) s
      | Ok None =>
        if length current <=? n then Some (s, Ok current)
        else ddmin_loop fuel current (grow_n n (length current)) s
      end
    end
  end.

(** Rounds that are enough for [len] items. *)
Definition ddmin_fuel (len : nat) : nat := (len + 1) * (len + 2).

Definition ddmin (items : list nat) (s : S) : option (S * go E (list nat)) :=
  if length items =? 0 then Some (s, Ok items)
  else ddmin_loop (ddmin_fuel (length items)) items 2 s.

End Ddmin.

(** Rounds left: every reduction shortens [current], every other round
    brings [n] closer to its length. *)
Definition measure (bound len n : nat) : nat := len * (bound + 1) + (len - n).

(** A deterministic test that counts its runs, for the examples. *)
Definition is_superset (need c : list nat) : bool := forallb (fun x => bool_decide (x ∈ c)) need.
Definition needs_3_5 (c : list nat) (runs : nat) : nat * go Empty_set bool :=
  (runs + 1, Ok (is_superset [3; 5] c)).

(** * Partition lemmas *)

Lemma partition_loop_spec items base extra offset idx count :
  offset + (base * count + (if idx <? extra then Nat.min (extra - idx) count else 0)) =
    length items ->
  concat (partition_loop items base extra offset idx count) = drop offset items /\
  Forall (fun p => base <= length p <= base + 1) (partition_loop items base extra offset idx count).
Proof.
  revert offset idx. induction count as [|count IH]; intros offset idx H; simpl.
  - split; [|constructor]. rewrite drop_ge; [done|].
    destruct (idx <? extra); lia.
  - set (size := base + (if idx <? extra then 1 else 0)).
    assert (Hsize : offset + size <= length items).
    { subst size. destruct (idx <? extra) eqn:Hi in *; bool_to_prop; rewrite Nat.mul_succ_r in H; lia. }
    destruct (IH (offset + size) (Datatypes.S idx)) as [IHc IHf].
    { rewrite <- H. subst size. clear Hsize H IH. rewrite Nat.mul_succ_r.
      destruct (idx <? extra) eqn:Hi, (Datatypes.S idx <? extra) eqn:Hj; bool_to_prop; lia. }
    rewrite IHc. split.
    + rewrite <- drop_drop. apply take_drop.
    + constructor; [|done]. rewrite length_take, length_drop.
      subst size. destruct (idx <? extra); lia.
Qed.

Section PartitionFacts.
Variables (items : list nat) (parts : nat).
Hypothesis Hitems : 1 <= length items.
Hypothesis Hparts : 1 <= parts.

Let k := Nat.min parts (length items).

Lemma partition_unfold :
  partitionStable items parts =
  partition_loop items (length items `div` k) (length items `mod` k) 0 0 k.
Proof.
  unfold partitionStable, k.
  destruct (length items <? parts) eqn:H1; bool_to_prop.
  - replace (Nat.min parts (length items)) with (length items) by lia.
    by rewrite (proj2 (Nat.ltb_ge _ _)) by lia.
  - replace (Nat.min parts (length items)) with parts by lia.
    by rewrite (proj2 (Nat.ltb_ge _ _)) by lia.
Qed.

Lemma partition_loop_length base extra offset idx count :
  length (partition_loop items base extra offset idx count) = count.
Proof. revert offset idx. induction count; intros; simpl; auto. Qed.

Lemma partition_spec :
  concat (partitionStable items parts) = items /\
  length (partitionStable items parts) = k /\
  Forall (fun p => length items `div` k <= length p <= length items `div` k + 1)
    (partitionStable items parts).
Proof.
  rewrite partition_unfold, partition_loop_length.
  assert (Hk : 1 <= k) by (unfold k; lia).
  pose proof (Nat.div_mod_eq (length items) k) as Hdm.
  pose proof (Nat.mod_upper_bound (length items) k ltac:(lia)) as Hm.
  destruct (partition_loop_spec items (length items `div` k) (length items `mod` k) 0 0 k)
    as [Hc Hf].
  { destruct (0 <? length items `mod` k) eqn:H0; bool_to_prop; nia. }
  split_and!; [by rewrite Hc, drop_0|done|done].
Qed.

End PartitionFacts.

(** * Complement lemmas *)

Lemma complement_loop_sublist counts items : complement_loop counts items `sublist_of` items.
Proof.
  revert counts. induction items as [|v items IH]; intros counts; simpl; [done|].
  destruct (0 <? _); [by apply sublist_cons|by apply sublist_skip].
Qed.

Lemma stableComplement_sublist items remove : stableComplement items remove `sublist_of` items.
Proof. apply complement_loop_sublist. Qed.

Lemma complement_loop_shorter counts items v :
  v ∈ items -> 0 < count_of counts v -> length (complement_loop counts items) < length items.
Proof.
  revert counts. induction items as [|w items IH]; intros counts Hv Hc; [by apply elem_of_nil in Hv|].
  simpl. destruct (0 <? count_of counts w) eqn:Hw; simpl.
  - apply Nat.lt_succ_r, sublist_length, complement_loop_sublist.
  - apply elem_of_cons in Hv as [->|Hv]; [bool_to_prop; lia|].
    apply -> Nat.succ_lt_mono. by apply IH.
Qed.

Lemma count_insert m v w k :
  count_of (<[w := k]> m) v = if decide (v = w) then k else count_of m v.
Proof.
  unfold count_of. destruct (decide (v = w)) as [->|Hne].
  - by rewrite lookup_insert_eq.
  - by rewrite lookup_insert_ne.
Qed.

Lemma count_fold_ge remove counts v :
  count_of counts v <=
  count_of (fold_left (fun m value => <[value := count_of m value + 1]> m) remove counts) v.
Proof.
  revert counts. induction remove as [|w remove IH]; intros counts; simpl; [done|].
  etrans; [|apply IH]. rewrite count_insert. destruct (decide (v = w)) as [->|]; lia.
Qed.

Lemma count_fold_pos remove counts v :
  v ∈ remove ->
  0 < count_of (fold_left (fun m value => <[value := count_of m value + 1]> m) remove counts) v.
Proof.
  revert counts. induction remove as [|w remove IH]; intros counts Hv; [by apply elem_of_nil in Hv|].
  simpl. apply elem_of_cons in Hv as [->|Hv]; [|by apply IH].
  eapply Nat.lt_le_trans; [|apply count_fold_ge].
  rewrite count_insert, decide_True by done. lia.
Qed.

Lemma stableComplement_shorter items remove v :
  v ∈ items -> v ∈ remove -> length (stableComplement items remove) < length items.
Proof. intros. eapply complement_loop_shorter; [done|]. by apply count_fold_pos. Qed.

(** On distinct items the complement of a singleton is the filtered list. *)
Lemma complement_loop_none items counts :
  (forall w, w ∈ items -> count_of counts w = 0) -> complement_loop counts items = items.
Proof.
  induction items as [|w items IH]; intros Hc; simpl; [done|].
  rewrite (Hc w) by left. simpl. f_equal. apply IH. intros u Hu. apply Hc. by right.
Qed.

Lemma complement_loop_single items v counts :
  NoDup items -> (forall w, 0 < count_of counts w <-> w = v) ->
  complement_loop counts items = filter (fun w => w <> v) items.
Proof.
  intros Hnd. revert counts. induction Hnd as [|w items Hw Hnd IH]; intros counts Hc; [done|].
  simpl. destruct (0 <? count_of counts w) eqn:Hb; bool_to_prop.
  - apply Hc in Hb as ->. rewrite filter_cons_False by (intros H; by apply H).
    rewrite filter_all by (apply Forall_forall; intros u Hu ->; done).
    apply complement_loop_none. intros u Hu. rewrite count_insert, decide_False by (intros ->; done).
    destruct (decide (0 < count_of counts u)) as [Hp|Hp]; [by apply Hc in Hp as ->|lia].
  - assert (w <> v) as Hne by (intros ->; pose proof (proj2 (Hc v) eq_refl); lia).
    rewrite filter_cons_True by done. f_equal. by apply IH.
Qed.

Lemma stableComplement_single items v :
  NoDup items -> stableComplement items [v] = filter (fun w => w <> v) items.
Proof.
  intros Hnd. apply complement_loop_single; [done|]. intros w. simpl. rewrite count_insert.
  destruct (decide (w = v)) as [->|Hw]; [split; [done|]; intros _; cbn; lia|].
  change (count_of ∅ w) with 0. split; [lia|done].
Qed.

(** * Loop lemmas *)

Lemma sublist_concat {A} (p : list A) (ps : list (list A)) : p ∈ ps -> p `sublist_of` concat ps.
Proof.
  intros (l1 & l2 & ->)%list_elem_of_split. rewrite concat_app. simpl.
  apply sublist_inserts_l. by apply sublist_inserts_r.
Qed.

Lemma concat_length_lower (ps : list (list nat)) :
  Forall (fun p => 1 <= length p) ps -> length ps <= length (concat ps).
Proof. induction 1; simpl; [done|]. rewrite length_app. lia. Qed.

Lemma partition_parts items n p :
  2 <= length items -> 2 <= n -> p ∈ partitionStable items n ->
  p `sublist_of` items /\ 1 <= length p < length items.
Proof.
  intros Hl Hn Hp. destruct (partition_spec items n) as (Hc & Hlen & Hsz); [lia..|].
  assert (Hpos : Forall (fun p => 1 <= length p) (partitionStable items n)).
  { eapply Forall_impl; [exact Hsz|]. intros q [Hq _]. etrans; [|exact Hq].
    apply Nat.div_le_lower_bound; lia. }
  assert (Hsub : p `sublist_of` items) by (rewrite <- Hc; by apply sublist_concat).
  split; [done|]. split.
  { by apply (proj1 (Forall_forall _ _) Hpos). }
  destruct (list_elem_of_split _ _ Hp) as (l1 & l2 & Heq). rewrite Heq in *.
  apply Forall_app in Hpos as [H1 H2]. apply Forall_cons in H2 as [_ H2].
  apply concat_length_lower in H1, H2. rewrite length_app in Hlen. simpl in Hlen.
  rewrite <- Hc. rewrite concat_app, !length_app. simpl. rewrite length_app. lia.
Qed.

Lemma complements_parts items n c :
  2 <= length items -> 2 <= n -> c ∈ complements items (partitionStable items n) ->
  c `sublist_of` items /\ 1 <= length c < length items.
Proof.
  intros Hl Hn Hc. unfold complements in Hc. apply list_elem_of_In, filter_In in Hc as [Hc Hne].
  apply list_elem_of_In, list_elem_of_fmap in Hc as (p & -> & Hp). bool_to_prop.
  split; [apply stableComplement_sublist|]. split; [lia|].
  destruct (partition_parts items n p Hl Hn Hp) as [Hsub [Hp1 _]].
  destruct p as [|v p]; [simpl in Hp1; lia|].
  eapply (stableComplement_shorter _ _ v); [|left].
  eapply sublist_subseteq; [exact Hsub|left].
Qed.

(** With at least as many parts as elements the parts are the singletons. *)
Lemma concat_singletons (ps : list (list nat)) x :
  Forall (fun p => 1 <= length p) ps -> length ps = length (concat ps) -> x ∈ concat ps ->
  [x] ∈ ps.
Proof.
  induction 1 as [|p ps Hp Hps IH]; simpl; intros Hl Hx; [by apply elem_of_nil in Hx|].
  rewrite length_app in Hl. pose proof (concat_length_lower ps Hps).
  apply elem_of_app in Hx as [Hx|Hx].
  - destruct p as [|y [|]]; simpl in *; try lia. apply list_elem_of_singleton in Hx as ->. left.
  - right. apply IH; [lia|done].
Qed.

Lemma partition_singletons items n x :
  2 <= length items -> length items <= n -> x ∈ items -> [x] ∈ partitionStable items n.
Proof.
  intros Hl Hn Hx. destruct (partition_spec items n) as (Hc & Hlen & Hsz); [lia..|].
  rewrite Nat.min_r in Hlen, Hsz by lia. rewrite Nat.div_same in Hsz by lia.
  apply concat_singletons; rewrite ?Hc; [|lia|done].
  eapply Forall_impl; [exact Hsz|]. by intros p [? _].
Qed.

Lemma complements_singletons items n x :
  2 <= length items -> length items <= n -> NoDup items -> x ∈ items ->
  stableComplement items [x] ∈ complements items (partitionStable items n).
Proof.
  intros Hl Hn Hnd Hx. unfold complements.
  apply list_elem_of_In, filter_In. split.
  { by apply list_elem_of_In, list_elem_of_fmap_2, partition_singletons. }
  rewrite stableComplement_single by done.
  destruct (filter _ items) as [|y l] eqn:Hf; [|done]. exfalso.
  destruct items as [|a [|b l]]; try (simpl in Hl; lia).
  apply NoDup_cons in Hnd as [Hnd _]. apply not_elem_of_cons in Hnd as [Hab _].
  assert (Hno : forall y, y ∈ a :: b :: l -> y = x).
  { intros y Hy. destruct (decide (y = x)) as [|Hne]; [done|].
    assert (Hyf : y ∈ filter (fun w => w <> x) (a :: b :: l)) by by apply list_elem_of_filter.
    rewrite Hf in Hyf. by apply elem_of_nil in Hyf. }
  apply Hab. rewrite (Hno a), (Hno b); [done|right; left|left].
Qed.

Section DdminFacts.
Context {S E : Type}.
Variable test : list nat -> S -> S * go E bool.

Lemma try_subsets_some subsets s s' c :
  try_subsets test subsets s = (s', Ok (Some c)) ->
  c ∈ subsets /\ exists s1, test c s1 = (s', Ok true).
Proof.
  revert s. induction subsets as [|c0 rest IH]; intros s H; simpl in H; [done|].
  destruct (test c0 s) as [s1 [[]| |]] eqn:Ht; try done.
  - injection H as <- <-. split; [left|by eexists].
  - apply IH in H as [Hc ?]. split; [by right|done].
Qed.

Lemma try_subsets_err subsets s s' e :
  try_subsets test subsets s = (s', Err e) -> exists c s1, c ∈ subsets /\ test c s1 = (s', Err e).
Proof.
  revert s. induction subsets as [|c0 rest IH]; intros s H; simpl in H; [done|].
  destruct (test c0 s) as [s1 [[]| |]] eqn:Ht; try done.
  - apply IH in H as (c & s2 & Hc & ?). exists c, s2. split; [by right|done].
  - injection H as <- <-. exists c0, s. split; [left|done].
Qed.

Lemma try_subsets_none subsets s s' c :
  try_subsets test subsets s = (s', Ok None) -> c ∈ subsets ->
  exists s1 s2, test c s1 = (s2, Ok false).
Proof.
  revert s. induction subsets as [|c0 rest IH]; intros s H Hc; [by apply elem_of_nil in Hc|].
  simpl in H. destruct (test c0 s) as [s1 [[]| |]] eqn:Ht; try done.
  apply elem_of_cons in Hc as [->|Hc]; [by eexists _, _|by eapply IH].
Qed.

Lemma measure_shrink bound len len' n :
  len' < len -> len <= bound -> 2 <= n -> measure bound len' (shrink_n n) < measure bound len n.
Proof. unfold measure, shrink_n. intros. destruct (2 <? n) eqn:?; bool_to_prop; nia. Qed.

Lemma measure_grow bound len n :
  n < len -> 2 <= n -> measure bound len (grow_n n len) < measure bound len n.
Proof. unfold measure, grow_n. intros. destruct (len <? n * 2) eqn:?; bool_to_prop; lia. Qed.

Lemma shrink_n_ge n : 2 <= n -> 2 <= shrink_n n.
Proof. unfold shrink_n. destruct (2 <? n) eqn:?; bool_to_prop; lia. Qed.

Lemma grow_n_ge n len : 2 <= n -> n < len -> 2 <= grow_n n len.
Proof. unfold grow_n. destruct (len <? n * 2) eqn:?; bool_to_prop; lia. Qed.

Lemma ddmin_loop_total bound fuel current n s :
  length current <= bound -> 2 <= n -> measure bound (length current) n < fuel ->
  exists r, ddmin_loop test fuel current n s = Some r.
Proof.
  revert current n s. induction fuel as [|fuel IH]; intros current n s Hb Hn Hf; [lia|].
  simpl. destruct (length current <? 2) eqn:Hl; [by eexists|]. bool_to_prop.
  destruct (try_subsets test (partitionStable current n) s) as [s1 [[c|]| |]] eqn:H1;
    try by eexists.
  - apply try_subsets_some in H1 as [Hc _].
    apply partition_parts in Hc as [_ Hc]; [|lia..].
    apply IH; [lia|by apply shrink_n_ge|].
    pose proof (measure_shrink bound (length current) (length c) n ltac:(lia) Hb Hn). lia.
  - destruct (try_subsets test (complements current _) s1) as [s2 [[c|]| |]] eqn:H2;
      try by eexists.
    + apply try_subsets_some in H2 as [Hc _].
      apply complements_parts in Hc as [_ Hc]; [|lia..].
      apply IH; [lia|by apply shrink_n_ge|].
      pose proof (measure_shrink bound (length current) (length c) n ltac:(lia) Hb Hn). lia.
    + destruct (length current <=? n) eqn:Hln; [by eexists|]. bool_to_prop.
      apply IH; [done|by apply grow_n_ge|].
      pose proof (measure_grow bound (length current) n ltac:(lia) Hn). lia.
Qed.

(** What a finished loop guarantees, for any predicate [Q] on lists that
    every accepted candidate satisfies. *)
Lemma ddmin_loop_result fuel current n s s' r :
  2 <= n -> ddmin_loop test fuel current n s = Some (s', Ok r) ->
  r `sublist_of` current /\ (1 <= length current -> 1 <= length r) /\
  (r = current \/ exists s1 s2, test r s1 = (s2, Ok true)).
Proof.
  revert current n s. induction fuel as [|fuel IH]; intros current n s Hn H; simpl in H; [done|].
  destruct (length current <? 2) eqn:Hl; [injection H as <- <-; split_and!; [done|lia|by left]|].
  bool_to_prop.
  assert (Hstep : forall c s1, c `sublist_of` current -> 1 <= length c ->
    (exists s0, test c s0 = (s1, Ok true)) -> ddmin_loop test fuel c (shrink_n n) s1 = Some (s', Ok r) ->
    r `sublist_of` current /\ (1 <= length current -> 1 <= length r) /\
    (r = current \/ exists s1 s2, test r s1 = (s2, Ok true))).
  { intros c s1 Hsub Hlen [s0 Hc] Hrec. apply IH in Hrec as (Hr & Hr1 & Hcase); [|by apply shrink_n_ge].
    split_and!; [by etrans|by auto|]. right. destruct Hcase as [->|?]; [by eexists _, _|done]. }
  destruct (try_subsets test (partitionStable current n) s) as [s1 [[c|]| |]] eqn:H1; try done.
  - apply try_subsets_some in H1 as [Hc Ht].
    apply partition_parts in Hc as [Hsub Hc]; [|lia..]. eapply Hstep; try done. lia.
  - destruct (try_subsets test (complements current _) s1) as [s2 [[c|]| |]] eqn:H2; try done.
    + apply try_subsets_some in H2 as [Hc Ht].
      apply complements_parts in Hc as [Hsub Hc]; [|lia..]. eapply Hstep; try done. lia.
    + destruct (length current <=? n) eqn:Hln.
      * injection H as <- <-. split_and!; [done|lia|by left].
      * bool_to_prop. eapply IH; [|exact H]. by apply grow_n_ge.
Qed.

Lemma ddmin_loop_err fuel current n s s' e :
  ddmin_loop test fuel current n s = Some (s', Err e) ->
  exists c s1, test c s1 = (s', Err e).
Proof.
  revert current n s. induction fuel as [|fuel IH]; intros current n s H; simpl in H; [done|].
  destruct (length current <? 2); [done|].
  destruct (try_subsets test (partitionStable current n) s) as [s1 [[c|]| |]] eqn:H1; try done.
  - by eapply IH.
  - destruct (try_subsets test (complements current _) s1) as [s2 [[c|]| |]] eqn:H2; try done.
    + by eapply IH.
    + destruct (length current <=? n); [done|]. by eapply IH.
    + injection H as <- <-. apply try_subsets_err in H2 as (? & ? & _ & ?). by eexists _, _.
  - injection H as <- <-. apply try_subsets_err in H1 as (? & ? & _ & ?). by eexists _, _.
Qed.

(** At the exit of the loop every single element and every complement of one
    was tested and refused. *)
Lemma ddmin_loop_exit fuel current n s s' r x :
  2 <= n -> NoDup current -> ddmin_loop test fuel current n s = Some (s', Ok r) ->
  2 <= length r -> x ∈ r ->
  (exists s1 s2, test [x] s1 = (s2, Ok false)) /\
  (exists s1 s2, test (filter (fun y => y <> x) r) s1 = (s2, Ok false)).
Proof.
  intros Hn Hnd H Hr Hx. revert current n s Hn Hnd H.
  induction fuel as [|fuel IH]; intros current n s Hn Hnd H; simpl in H; [done|].
  destruct (length current <? 2) eqn:Hl; bool_to_prop; [injection H as <- <-; lia|].
  destruct (try_subsets test (partitionStable current n) s) as [s1 [[c|]| |]] eqn:H1; try done.
  { apply try_subsets_some in H1 as [Hc _].
    apply partition_parts in Hc as [Hsub Hc]; [|lia..].
    eapply IH; [|by eapply sublist_NoDup|exact H]. by apply shrink_n_ge. }
  destruct (try_subsets test (complements current _) s1) as [s2 [[c|]| |]] eqn:H2; try done.
  { apply try_subsets_some in H2 as [Hc _].
    apply complements_parts in Hc as [Hsub Hc]; [|lia..].
    eapply IH; [|by eapply sublist_NoDup|exact H]. by apply shrink_n_ge. }
  destruct (length current <=? n) eqn:Hln; bool_to_prop.
  2: { eapply IH; [|done|exact H]. by apply grow_n_ge. }
  injection H as _ <-. clear IH.
  split; [by eapply try_subsets_none, partition_singletons|].
  rewrite <- stableComplement_single by done.
  eapply try_subsets_none; [exact H2|]. by apply complements_singletons.
Qed.

(** [R] relates the states across tests that answer, [R'] those before and
    after a run that ends with an error. *)
Section States.
Variables (R : S -> S -> Prop) (R' : E -> S -> S -> Prop).
Hypothesis R_refl : forall s, R s s.
Hypothesis R_trans : forall s1 s2 s3, R s1 s2 -> R s2 s3 -> R s1 s3.
Hypothesis R'_after : forall e s1 s2 s3, R s1 s2 -> R' e s2 s3 -> R' e s1 s3.

(** The outcome [r] of a part of the run, from [s] to [s']. *)
Definition respects {A} (s s' : S) (r : go E A) : Prop :=
  match r with Ok _ => R s s' | Err e => R' e s s' | Panic => False end.

Lemma respects_after {A} s1 s2 s3 (r : go E A) : R s1 s2 -> respects s2 s3 r -> respects s1 s3 r.
Proof. destruct r; simpl; eauto. Qed.

Lemma try_subsets_states subsets s s' r :
  (forall c s0, c ∈ subsets -> respects s0 (test c s0).1 (test c s0).2) ->
  try_subsets test subsets s = (s', r) -> respects s s' r.
Proof.
  revert s. induction subsets as [|c rest IH]; intros s Ht H; simpl in H.
  { injection H as <- <-. apply R_refl. }
  pose proof (Ht c s ltac:(left)) as Hc. destruct (test c s) as [s1 [[]|e|]]; simpl in Hc.
  - by injection H as <- <-.
  - eapply respects_after; [exact Hc|]. eapply IH; [|exact H]. intros. apply Ht. by right.
  - by injection H as <- <-.
  - done.
Qed.

Lemma ddmin_loop_states fuel current n s s' r :
  2 <= n -> (forall c s0, c `sublist_of` current -> respects s0 (test c s0).1 (test c s0).2) ->
  ddmin_loop test fuel current n s = Some (s', r) -> respects s s' r.
Proof.
  revert current n s. induction fuel as [|fuel IH]; intros current n s Hn Ht H; simpl in H; [done|].
  destruct (length current <? 2) eqn:Hl; bool_to_prop; [injection H as <- <-; apply R_refl|].
  destruct (try_subsets test (partitionStable current n) s) as [s1 r1] eqn:H1.
  assert (Hr1 : respects s s1 r1).
  { eapply try_subsets_states; [|exact H1]. intros c s0 Hc. apply Ht.
    by apply partition_parts in Hc as [? _]; [|lia..]. }
  destruct r1 as [[c|]|e|]; [| |by injection H as <- <-|done].
  { eapply respects_after; [exact Hr1|]. apply try_subsets_some in H1 as [Hc _].
    apply partition_parts in Hc as [Hsub _]; [|lia..].
    eapply IH; [| |exact H]; [by apply shrink_n_ge|]. intros d s0 Hd. apply Ht. by etrans. }
  destruct (try_subsets test (complements current _) s1) as [s2 r2] eqn:H2.
  assert (Hr2 : respects s1 s2 r2).
  { eapply try_subsets_states; [|exact H2]. intros c s0 Hc. apply Ht.
    by apply complements_parts in Hc as [? _]; [|lia..]. }
  eapply respects_after; [exact Hr1|].
  destruct r2 as [[c|]|e|]; [| |by injection H as <- <-|done].
  - eapply respects_after; [exact Hr2|]. apply try_subsets_some in H2 as [Hc _].
    apply complements_parts in Hc as [Hsub _]; [|lia..].
    eapply IH; [| |exact H]; [by apply shrink_n_ge|]. intros d s0 Hd. apply Ht. by etrans.
  - destruct (length current <=? n) eqn:Hln; bool_to_prop; [by injection H as <- <-|].
    eapply respects_after; [exact Hr2|]. eapply IH; [|exact Ht|exact H]. by apply grow_n_ge.
Qed.

Lemma ddmin_states items s s' r :
  (forall c s0, c `sublist_of` items -> respects s0 (test c s0).1 (test c s0).2) ->
  ddmin test items s = Some (s', r) -> respects s s' r.
Proof.
  unfold ddmin. intros Ht H. destruct (length items =? 0); [injection H as <- <-; apply R_refl|].
  by eapply ddmin_loop_states in H.
Qed.

End States.

Lemma ddmin_total items s : exists s' r, ddmin test items s = Some (s', r).
Proof.
  unfold ddmin. destruct (length items =? 0); [by eexists _, _|].
  destruct (ddmin_loop_total (length items) (ddmin_fuel (length items)) items 2 s)
    as [[s' r] Hr]; [done|done|unfold measure, ddmin_fuel; lia|by eexists _, _].
Qed.

Lemma ddmin_result items s s' result :
  ddmin test items s = Some (s', Ok result) ->
  result `sublist_of` items /\ (items <> [] -> result <> []) /\
  (result = items \/ exists s1 s2, test result s1 = (s2, Ok true)).
Proof.
  unfold ddmin. intros H. destruct (length items =? 0) eqn:Hl; bool_to_prop.
  { destruct items; [|done]. injection H as <- <-. split_and!; [done|done|by left]. }
  apply ddmin_loop_result in H as (Hsub & Hlen & Hcase); [|done].
  split_and!; [done| |done]. intros _ ->. simpl in Hlen. lia.
Qed.

End DdminFacts.

(** A proper sub-sequence of distinct items misses one of them. *)
Lemma sublist_misses (l c : list nat) :
  NoDup l -> c `sublist_of` l -> c <> l ->
  exists x, x ∈ l /\ c `sublist_of` filter (fun y => y <> x) l.
Proof.
  intros Hnd Hc Hne.
  destruct (decide (Forall (fun x => x ∈ c) l)) as [Hall|Hno].
  - exfalso. apply Hne. apply sublist_full; [done|].
    apply submseteq_length, NoDup_submseteq; [done|]. by apply Forall_forall.
  - apply not_Forall_Exists in Hno; [|apply _]. apply Exists_exists in Hno as (x & Hx & Hxc).
    exists x. split; [done|].
    rewrite <- (filter_all (fun y => y <> x) c) by (apply Forall_forall; intros y Hy ->; done).
    by apply sublist_filter_mono.
Qed.

(** * Properties *)

(** [ddmin] terminates on every input and against every test, stateful
    and failing ones included.  A returned set is a stable sub-sequence of the
    items, non-empty unless there were none, and it is either the items
    themselves or a set the test accepted; an error is the error of a run of
    the test, in the state that run left. *)
Theorem ddmin_sound {S E : Type} (test : list nat -> S -> S * go E bool) (items : list nat) (s : S) :
  exists s' r, ddmin test items s = Some (s', r) /\
  match r with
  | Ok result =>
    result `sublist_of` items /\ (items <> [] -> result <> []) /\
    (result = items \/ exists s1 s2, test result s1 = (s2, Ok true))
  | Err e => exists c s1, test c s1 = (s', Err e)
  | Panic => True
  end.
Proof.
  destruct (ddmin_total test items s) as (s' & r & Hr). exists s', r. split; [done|].
  destruct r as [result|e|]; [by eapply ddmin_result| |done].
  unfold ddmin in Hr. destruct (length items =? 0); [done|]. by eapply ddmin_loop_err.
Qed.

(** C36: against a deterministic test the set [ddmin] returns from distinct
    items is 1-minimal: if it has at least two elements, no single element
    passes and dropping any single element makes the test fail.  If the test
    is moreover monotone, no other non-empty subset of the result passes, so
    the result is minimal among all subsets. *)
Theorem ddmin_minimal {S E : Type} (test : list nat -> S -> S * go E bool) (P : list nat -> bool)
    (items : list nat) (s s' : S) (result : list nat) :
  (forall c s, (test c s).2 = Ok (P c)) -> NoDup items ->
  ddmin test items s = Some (s', Ok result) -> 2 <= length result ->
  (forall x, x ∈ result -> P [x] = false /\ P (filter (fun y => y <> x) result) = false) /\
  (P items = true -> P result = true) /\
  ((forall c d, c `sublist_of` d -> P c = true -> P d = true) ->
   forall c, c `sublist_of` result -> c <> result -> P c = false).
Proof.
  intros Hdet Hnd H Hr. unfold ddmin in H. destruct (length items =? 0) eqn:Hl.
  { injection H as _ <-. bool_to_prop. lia. }
  assert (Hmin : forall x, x ∈ result ->
    P [x] = false /\ P (filter (fun y => y <> x) result) = false).
  { intros x Hx. destruct (ddmin_loop_exit _ _ _ 2 _ _ _ x (le_n 2) Hnd H Hr Hx)
      as [(s1 & s2 & H1) (s3 & s4 & H2)].
    pose proof (Hdet [x] s1) as D1. rewrite H1 in D1.
    pose proof (Hdet (filter (fun y => y <> x) result) s3) as D2. rewrite H2 in D2.
    simpl in D1, D2. split; congruence. }
  apply ddmin_loop_result in H as (Hsub & _ & Hcase); [|done].
  split_and!; [done| |].
  - intros HP. destruct Hcase as [->|(s1 & s2 & Ht)]; [done|].
    pose proof (Hdet result s1) as D. rewrite Ht in D. simpl in D. congruence.
  - intros Hmono c Hc Hne. destruct (P c) eqn:HPc; [|done]. exfalso.
    destruct (sublist_misses result c) as (x & Hx & Hcx); [by eapply sublist_NoDup|done|done|].
    destruct (Hmin x Hx) as [_ Hf]. rewrite (Hmono c _ Hcx HPc) in Hf. done.
Qed.

(** The reducer on a target that needs frames 3 and 5 together. *)
Example ddmin_minimal_witness :
  ddmin needs_3_5 [1; 2; 3; 4; 5; 6] 0 = Some (28, Ok [3; 5]) /\
  forall x, x ∈ [3; 5] -> is_superset [3; 5] [x] = false /\
    is_superset [3; 5] (filter (fun y => y <> x) [3; 5]) = false.
Proof.
  assert (H : ddmin needs_3_5 [1; 2; 3; 4; 5; 6] 0 = Some (28, Ok [3; 5]))
    by (vm_compute; reflexivity).
  split; [exact H|].
  eapply (ddmin_minimal needs_3_5 (is_superset [3; 5]) [1; 2; 3; 4; 5; 6] 0 28 [3; 5]).
  - reflexivity.
  - apply (bool_decide_unpack _). vm_compute. exact I.
  - exact H.
  - reflexivity.
Defined.
