(* ===== verification/ReducerQmdl.v ===== *)
(** The QMDL analyser of the trace reducer,
    [src/tools/u60-qtrace-reducer/qmdl.go]: the streaming HDLC reader, the
    QShrink reports and candidates found in a frame, their correlation and the
    cells reported at the end of a capture window. *)

From S2P Require Import Prelude.
From S2P Require Import GoInt.
From S2P Require Import GoFloat.
From S2P Require Import GoSort.
From S2P Require Import GoStrings.
From S2P Require Import Hdlc.
Open Scope Z_scope.

Definition maxQSHWords : Z := 236.

Inductive targetKind := targetNR | targetLTE | targetCombined.

#[export] Instance targetKind_eq : EqDecision targetKind.
Proof. solve_decision. Defined.

(** [parseTarget]; [None] is the error. *)
Definition parseTarget (value : string) : option targetKind :=
  let v := ToLower (TrimSpace value) in
  if bool_decide (v = "nr"%string) then Some targetNR
  else if bool_decide (v = "lte"%string) then Some targetLTE
  else if bool_decide (v ∈ ["combined"; "nr+lte"; "lte+nr"]%string) then Some targetCombined
  else None.

Record servingIdentity := mkServing { si_RAT : string; si_PCI : Z; si_ARFCN : Z }.

Record parsedCell := mkParsedCell {
  pc_RAT : string; pc_PCI : Z; pc_ARFCN : Z; pc_Band : Z; pc_RSRP : float64; pc_Samples : nat }.

Record captureMetrics := mkMetrics {
  CapturedBytes : Z;
  FrameCount : nat;
  MalformedFrames : nat;
  QSHFrameCount : nat;
  QSHTotalBytes : Z;
  TargetHashCount : nat;
  ParseSuccessCount : nat;
  ParseErrorCount : nat;
  NRCellCount : nat;
  LTECellCount : nat;
  NRHashCount : nat;
  LTEHashCount : nat;
  Cells : list parsedCell }.

Definition noMetrics : captureMetrics := mkMetrics 0 0 0 0 0 0 0 0 0 0 0 0 [].

Definition matches (m : captureMetrics) (target : targetKind) : bool :=
  match target with
  | targetNR => (0 <? NRCellCount m)%nat
  | targetLTE => (0 <? LTECellCount m)%nat
  | targetCombined => (0 <? NRCellCount m)%nat && (0 <? LTECellCount m)%nat
  end.

Record qshCandidate := mkCandidate {
  c_seq : Z; c_file : Z; c_pci : Z; c_arfcn : Z; c_band : Z }.

(** [rat] is 0 for NR and 1 for LTE. *)
Record qshReport := mkReport {
  r_seq : Z; r_file : Z; r_rat : Z; r_pci : Z; r_arfcn : Z; r_band : Z;
  r_rsrp : float64; r_direct : bool; r_requiresARFCN : bool }.

Definition f_zero : float64 := S754_zero false.
Definition noReport : qshReport := mkReport 0 0 0 0 0 0 f_zero false false.

Record qshParser := mkParser {
  metrics : captureMetrics;
  candidates : list qshCandidate;
  reports : list qshReport;
  serving : list servingIdentity }.

(** * Signal values *)

Definition roundQSH (value : float64) : float64 :=
  fdiv (f_of_Z (f_floor (fadd (fmul value (f_of_Z 100)) (f_lit 1 2)))) (f_of_Z 100).

Definition validQ7Signal (raw : Z) : bool :=
  let value := fdiv (f_of_Z raw) (f_of_Z 128) in
  fleb (f_of_Z (-160)) value && fleb value (f_of_Z (-20)).

Definition decodeLTERSRP (raw : Z) : float64 * bool :=
  if (-140 <=? raw) && (raw <=? -30) then (f_of_Z raw, true)
  else if (-1400 <=? raw) && (raw <=? -300) then (roundQSH (fdiv (f_of_Z raw) (f_of_Z 10)), true)
  else (f_zero, false).

Definition decodeLTEFractionalRSRP (integer fraction : Z) : float64 * bool :=
  if (integer <? -140) || (-30 <? integer) || (9999 <? fraction) then (f_zero, false)
  else (roundQSH (fsub (f_of_Z integer) (fdiv (f_of_Z fraction) (f_of_Z 10000))), true).

Definition validLTERSRQRaw (raw : Z) : bool := (-400 <=? raw) && (raw <? 0).

Definition unsignedDistance (left right : Z) : Z :=
  if right <=? left then left - right else right - left.

(** * Message layouts *)

(** [nrReportSpec]: strict, minimum number of words; [None] when unknown. *)
Definition nrReportSpec (hash : Z) : option (bool * nat) :=
  if bool_decide (hash ∈ [0xda01a364; 0xda016098; 0xf9486c3c]) then Some (false, 12%nat)
  else if hash =? 0xda0539fc then Some (true, 12%nat)
  else if hash =? 0xda054a0c then Some (true, 11%nat)
  else if hash =? 0xda01af24 then Some (true, 11%nat)
  else if hash =? 0xda019f14 then Some (false, 12%nat)
  else if hash =? 0xda06ba1c then Some (true, 11%nat)
  else if hash =? 0xda06aa0c then Some (false, 12%nat)
  else None.

(** Words of a candidate layout: minimum length, then band, arfcn and pci. *)
Definition candidate_fields (hash : Z) (words : list Z)
    : option (go Empty_set (nat * (Z * Z * Z))) :=
  let pick (minimum : nat) (band arfcn pci : option nat) :=
    let word (o : option nat) : go Empty_set Z :=
      match o with Some i => index words i | None => Ok 0 end in
    if bool_decide (minimum <= length words)%nat
    then b ← word band; a ← word arfcn; p ← word pci; mret (minimum, (b, a, p))
    else mret (minimum, (0, 0, 0)) in
  if bool_decide (hash ∈ [0xd8fc0f04; 0xd8facf74; 0xd8f773e8; 0xd8fc5cc0; 0xd8fb8ad0;
                          0xd8f82d98; 0xd8f84514])
  then Some (pick 4 (Some 0) (Some 1) (Some 2))%nat
  else if hash =? 0xda014184 then Some (pick 6 None (Some 4) (Some 2))%nat
  else if bool_decide (hash ∈ [0xd9fca428; 0xf93fc16a])
  then Some (pick 7 None (Some 4) (Some 2))%nat
  else if bool_decide (hash ∈ [0xd9fc7a44; 0xf93fc624])
  then Some (pick 6 None (Some 3) (Some 1))%nat
  else if bool_decide (hash ∈ [0xf9ad1341; 0xbcbafaec])
  then Some (pick (if (hash =? 0xf9ad1341)%Z then 5 else 3) None (Some 0) (Some 1))%nat
  else if bool_decide (hash ∈ [0xd8f72994; 0xd9877e9c])
  then Some (pick 5 None (Some 1) (Some 0))%nat
  else if hash =? 0xd8f7e394 then Some (pick 4 None (Some 1) (Some 0))%nat
  else None.

Definition decodeQSHCandidate (hash : Z) (words : list Z) : go Empty_set (option qshCandidate) :=
  match candidate_fields hash words with
  | None => mret None
  | Some fields =>
    f ← fields;
    let '(minimum, (band, arfcn, pci)) := f in
    if bool_decide (length words < minimum)%nat || (1007 <? pci) || (arfcn =? 0) ||
       (3279165 <? arfcn) || (1024 <? band)
    then mret None else mret (Some (mkCandidate 0 0 pci arfcn band))
  end.

(** An LTE layout: minimum number of words and the positions of arfcn, pci,
    RSRP, its fraction and RSRQ, and whether [words[1]] flags validity. *)
Record lteLayout := mkLayout {
  l_min : nat; l_arfcn : nat; l_pci : nat;
  l_rsrp : option nat; l_fraction : option nat; l_rsrq : option nat; l_requireValid : bool }.

Definition lteLayoutOf (hash : Z) : option lteLayout :=
  if hash =? 0xd936846c then Some (mkLayout 2 0 1 None None None false)
  else if hash =? 0xd8fe54a0 then Some (mkLayout 4 0 1 (Some 2) None (Some 3) false)%nat
  else if hash =? 0xd8fea29c then Some (mkLayout 6 1 2 (Some 3) None (Some 4) false)%nat
  else if bool_decide (hash ∈ [0xd8f02d94; 0xd8fea210])
  then Some (mkLayout 6 2 3 (Some 4) None (Some 5) true)%nat
  else if hash =? 0xd939607c then Some (mkLayout 2 0 1 None None None false)
  else if bool_decide (hash ∈ [0xd93960a0; 0xd8fea258])
  then Some (mkLayout 5 0 1 (Some 2) None (Some 3) false)%nat
  else if hash =? 0xd94f5690 then Some (mkLayout 6 0 1 (Some 2) (Some 3) None false)%nat
  else None.

(** [(report, recognized, valid)]. *)
Definition decodeQSHLTEReport (hash : Z) (words : list Z)
    : go Empty_set (qshReport * bool * bool) :=
  match lteLayoutOf hash with
  | None => mret (noReport, false, false)
  | Some l =>
    if bool_decide (length words < l_min l)%nat then mret (noReport, true, false) else
    arfcn ← index words (l_arfcn l);
    pci ← index words (l_pci l);
    flag ← (if l_requireValid l then index words 1 else Ok 1);
    if l_requireValid l && (flag =? 0) then mret (noReport, true, false) else
    if (arfcn =? 0) || (262143 <? arfcn) || (503 <? pci) then mret (noReport, true, false) else
    let report rsrp direct := mkReport 0 0 1 pci arfcn 0 rsrp direct false in
    match l_rsrp l with
    | None => mret (report f_zero false, true, true)
    | Some i =>
      raw ← index words i;
      signal ← match l_fraction l with
               | Some j => fraction ← index words j;
                           mret (decodeLTEFractionalRSRP (i32 raw) fraction)
               | None => mret (decodeLTERSRP (i32 raw))
               end;
      rsrqOK ← match l_rsrq l with
               | Some j => rsrq ← index words j; mret (validLTERSRQRaw (i32 rsrq))
               | None => mret true
               end;
      let r := report signal.1 signal.2 in
      if negb rsrqOK then mret (r, true, false) else mret (r, true, signal.2)
    end
  end.

(** * Frames *)

Definition upd_metrics (f : captureMetrics -> captureMetrics) (p : qshParser) : qshParser :=
  mkParser (f (metrics p)) (candidates p) (reports p) (serving p).

Definition add_report (r : qshReport) (p : qshParser) : qshParser :=
  mkParser (metrics p) (candidates p) (reports p ++ [r]) (serving p).

Definition add_candidate (c : qshCandidate) (p : qshParser) : qshParser :=
  mkParser (metrics p) (candidates p ++ [c]) (reports p) (serving p).

(** The counters, each incremented as the code does. *)
Definition incFrame (m : captureMetrics) := mkMetrics (CapturedBytes m) (FrameCount m + 1)
  (MalformedFrames m) (QSHFrameCount m) (QSHTotalBytes m) (TargetHashCount m) (ParseSuccessCount m)
  (ParseErrorCount m) (NRCellCount m) (LTECellCount m) (NRHashCount m) (LTEHashCount m) (Cells m).
Definition incMalformed (m : captureMetrics) := mkMetrics (CapturedBytes m) (FrameCount m)
  (MalformedFrames m + 1) (QSHFrameCount m) (QSHTotalBytes m) (TargetHashCount m)
  (ParseSuccessCount m) (ParseErrorCount m) (NRCellCount m) (LTECellCount m) (NRHashCount m)
  (LTEHashCount m) (Cells m).
Definition incError (m : captureMetrics) := mkMetrics (CapturedBytes m) (FrameCount m)
  (MalformedFrames m) (QSHFrameCount m) (QSHTotalBytes m) (TargetHashCount m) (ParseSuccessCount m)
  (ParseErrorCount m + 1) (NRCellCount m) (LTECellCount m) (NRHashCount m) (LTEHashCount m) (Cells m).
Definition incSuccess (m : captureMetrics) := mkMetrics (CapturedBytes m) (FrameCount m)
  (MalformedFrames m) (QSHFrameCount m) (QSHTotalBytes m) (TargetHashCount m)
  (ParseSuccessCount m + 1) (ParseErrorCount m) (NRCellCount m) (LTECellCount m) (NRHashCount m)
  (LTEHashCount m) (Cells m).
Definition incQSH (bytes : Z) (m : captureMetrics) := mkMetrics (CapturedBytes m) (FrameCount m)
  (MalformedFrames m) (QSHFrameCount m + 1) (QSHTotalBytes m + bytes) (TargetHashCount m)
  (ParseSuccessCount m) (ParseErrorCount m) (NRCellCount m) (LTECellCount m) (NRHashCount m)
  (LTEHashCount m) (Cells m).
Definition incNRHash (m : captureMetrics) := mkMetrics (CapturedBytes m) (FrameCount m)
  (MalformedFrames m) (QSHFrameCount m) (QSHTotalBytes m) (TargetHashCount m) (ParseSuccessCount m)
  (ParseErrorCount m) (NRCellCount m) (LTECellCount m) (NRHashCount m + 1) (LTEHashCount m) (Cells m).
Definition incLTEHash (m : captureMetrics) := mkMetrics (CapturedBytes m) (FrameCount m)
  (MalformedFrames m) (QSHFrameCount m) (QSHTotalBytes m) (TargetHashCount m) (ParseSuccessCount m)
  (ParseErrorCount m) (NRCellCount m) (LTECellCount m) (NRHashCount m) (LTEHashCount m + 1) (Cells m).
Definition incTarget (m : captureMetrics) := mkMetrics (CapturedBytes m) (FrameCount m)
  (MalformedFrames m) (QSHFrameCount m) (QSHTotalBytes m) (TargetHashCount m + 1)
  (ParseSuccessCount m) (ParseErrorCount m) (NRCellCount m) (LTECellCount m) (NRHashCount m)
  (LTEHashCount m) (Cells m).
Definition addCaptured (n : Z) (m : captureMetrics) := mkMetrics (CapturedBytes m + n)
  (FrameCount m) (MalformedFrames m) (QSHFrameCount m) (QSHTotalBytes m) (TargetHashCount m)
  (ParseSuccessCount m) (ParseErrorCount m) (NRCellCount m) (LTECellCount m) (NRHashCount m)
  (LTEHashCount m) (Cells m).

(** [addNRReport]: the parser and whether the report was accepted. *)
Definition addNRReport (p : qshParser) (seq fileIndex : Z) (words : list Z) (requiresARFCN : bool)
    : go Empty_set (qshParser * bool) :=
  if bool_decide (length words < 7)%nat then mret (p, false) else
  w3 ← index words 3; w4 ← index words 4; w5 ← index words 5; w6 ← index words 6;
  if (1007 <? w3) || (1007 <? w5) then mret (p, false) else
  let rsrpRaw := i32 w4 in
  if negb (validQ7Signal rsrpRaw) || negb (validQ7Signal (i32 w6)) then mret (p, false) else
  mret (add_report (mkReport seq fileIndex 0 w3 0 0
                      (roundQSH (fdiv (f_of_Z rsrpRaw) (f_of_Z 128))) true requiresARFCN) p, true).

(** The word array of a QSH payload. *)
Definition read_words (payload : list Z) (wordCount : nat) : go Empty_set (list Z) :=
  go_map (fun i => b ← slice_from payload (16 + i * 4); Uint32 b) (seq 0 wordCount).

(** The report half of [consumeFrame]. *)
Definition consume_report (p : qshParser) (hash : Z) (words : list Z) (seq fileIndex : Z)
    (target : targetKind) : go Empty_set qshParser :=
  match nrReportSpec hash with
  | Some (strict, minimum) =>
    let p := upd_metrics incNRHash p in
    let p := if bool_decide (target = targetNR \/ target = targetCombined)
             then upd_metrics incTarget p else p in
    if bool_decide (length words < minimum)%nat then mret (upd_metrics incError p) else
    r ← addNRReport p seq fileIndex words strict;
    if r.2 : bool then mret (upd_metrics incSuccess r.1) else mret (upd_metrics incError r.1)
  | None =>
    d ← decodeQSHLTEReport hash words;
    let '(report, recognized, valid) := d in
    if negb recognized then mret p else
    let p := upd_metrics incLTEHash p in
    let p := if bool_decide (target = targetLTE \/ target = targetCombined)
             then upd_metrics incTarget p else p in
    if negb valid then mret (upd_metrics incError p) else
    mret (upd_metrics incSuccess
            (add_report (mkReport seq fileIndex (r_rat report) (r_pci report) (r_arfcn report)
                           (r_band report) (r_rsrp report) (r_direct report)
                           (r_requiresARFCN report)) p))
  end.

Definition consumeFrame (p : qshParser) (frame : list Z) (escaped : bool) (seq fileIndex : Z)
    (target : targetKind) : go Empty_set qshParser :=
  let p := upd_metrics incFrame p in
  if escaped || bool_decide (length frame <= 2)%nat
  then mret (upd_metrics incError (upd_metrics incMalformed p)) else
  payload ← trim_end 2 frame;
  gotCRC ← (b ← slice_from frame (length frame - 2); Uint16 b);
  if negb (gotCRC =? diagCRC16 payload)
  then mret (upd_metrics incError (upd_metrics incMalformed p)) else
  if bool_decide (length payload <= 15)%nat then mret p else
  b0 ← index payload 0;
  if negb (b0 =? 0x9d) then mret p else
  let p := upd_metrics (incQSH (Z.of_nat (length payload))) p in
  b4 ← index payload 4;
  let wordCount := b4 - 0x13 in
  if (wordCount <? 0) || (maxQSHWords <? wordCount) ||
     (Z.of_nat (length payload) <? (wordCount + 4) * 4)
  then mret (upd_metrics incError p) else
  hash ← (b ← slice payload 12 16; Uint32 b);
  words ← read_words payload (Z.to_nat wordCount);
  candidate ← decodeQSHCandidate hash words;
  let p := match candidate with
           | Some c => add_candidate (mkCandidate seq fileIndex (c_pci c) (c_arfcn c) (c_band c)) p
           | None => p
           end in
  consume_report p hash words seq fileIndex target.

(** * Correlation and aggregation *)

(** [isServing]. *)
Definition isServing (p : qshParser) (rat pci arfcn : Z) : bool :=
  let ratName := if rat =? 1 then "LTE"%string else "NR"%string in
  existsb (fun cell => EqualFold (si_RAT cell) ratName && (si_PCI cell =? pci) &&
             ((si_ARFCN cell =? 0) || (arfcn =? 0) || (si_ARFCN cell =? arfcn))) (serving p).

(** The scan of [correlateNRReports] over the candidates: the first one at the
    smallest distance among those of the same file and cell. *)
Definition scan_candidate (r : qshReport) (best : option (qshCandidate * Z)) (c : qshCandidate)
    : option (qshCandidate * Z) :=
  if negb (c_file c =? r_file r) || negb (c_pci c =? r_pci r) then best else
  let distance := unsignedDistance (c_seq c) (r_seq r) in
  match best with
  | None => Some (c, distance)
  | Some (_, bestDistance) => if distance <? bestDistance then Some (c, distance) else best
  end.

Definition best_candidate (r : qshReport) (cs : list qshCandidate) : option qshCandidate :=
  fst <$> fold_left (scan_candidate r) cs None.

Definition correlate_report (cs : list qshCandidate) (r : qshReport) : qshReport :=
  if negb (r_rat r =? 0) then r else
  match best_candidate r cs with
  | Some c => mkReport (r_seq r) (r_file r) (r_rat r) (r_pci r) (c_arfcn c) (c_band c) (r_rsrp r)
                (r_direct r) (r_requiresARFCN r)
  | None => r
  end.

Definition correlateNRReports (p : qshParser) : qshParser :=
  mkParser (metrics p) (candidates p) (correlate_report (candidates p) <$> reports p) (serving p).

(** [aggregateKey] is rat, pci, arfcn; an aggregate is band and RSRP values. *)
Abbreviation aggregateKey := (Z * Z * Z)%type.
Record aggregate := mkAggregate { ag_band : Z; ag_rsrp : list float64 }.

Definition report_key (r : qshReport) : aggregateKey := (r_rat r, r_pci r, r_arfcn r).

Definition skip_report (p : qshParser) (r : qshReport) : bool :=
  negb (r_direct r) || (r_arfcn r =? 0) || fltb (r_rsrp r) (f_of_Z (-140)) ||
  fltb (f_of_Z (-30)) (r_rsrp r) || isServing p (r_rat r) (r_pci r) (r_arfcn r).

Definition aggregate_report (p : qshParser) (m : gmap aggregateKey aggregate) (r : qshReport)
    : gmap aggregateKey aggregate :=
  if skip_report p r then m else
  let item := default (mkAggregate 0 []) (m !! report_key r) in
  <[report_key r := mkAggregate (if negb (r_band r =? 0) then r_band r else ag_band item)
                      (ag_rsrp item ++ [r_rsrp r])]> m.

Definition key_less (a b : aggregateKey) : bool :=
  let '(rat1, pci1, arfcn1) := a in let '(rat2, pci2, arfcn2) := b in
  if negb (rat1 =? rat2) then rat1 <? rat2
  else if negb (arfcn1 =? arfcn2) then arfcn1 <? arfcn2
  else pci1 <? pci2.

(** What a report needs to count: a direct measurement of a known channel, a
    plausible RSRP, and a cell that does not serve. *)
Definition counts (p : qshParser) (r : qshReport) : Prop :=
  r_direct r = true /\ r_arfcn r <> 0 /\ fltb (r_rsrp r) (f_of_Z (-140)) = false /\
  fltb (f_of_Z (-30)) (r_rsrp r) = false /\ isServing p (r_rat r) (r_pci r) (r_arfcn r) = false.

#[export] Instance counts_dec p r : Decision (counts p r).
Proof. unfold counts. apply _. Defined.

(** The reports that count for a cell. *)
Definition usable (p : qshParser) (k : aggregateKey) : list qshReport :=
  filter (fun r => counts p r /\ report_key r = k) (reports p).

(** The band of the last report that names one. *)
Definition last_band (rs : list qshReport) : Z :=
  fold_left (fun b r => if negb (r_band r =? 0) then r_band r else b) rs 0.

Section Finish.
Context `{SortSlice}.

(** The median of the sorted values. *)
Definition median (rsrp : list float64) : float64 :=
  let sorted := sortSlice fltb rsrp in
  let n := length sorted in
  let at_ i := default f_zero (sorted !! i) in
  if (n `mod` 2 =? 0)%nat
  then roundQSH (fdiv (fadd (at_ (n / 2 - 1)%nat) (at_ (n / 2)%nat)) (f_of_Z 2))
  else at_ (n / 2)%nat.

Definition cell_of (key : aggregateKey) (item : aggregate) : parsedCell :=
  let '(rat, pci, arfcn) := key in
  mkParsedCell (if rat =? 1 then "LTE"%string else "NR"%string) pci arfcn (ag_band item)
    (median (ag_rsrp item)) (length (ag_rsrp item)).

Definition add_cell (m : captureMetrics) (kv : aggregateKey * aggregate) : captureMetrics :=
  let lte := (kv.1.1.1 =? 1) in
  mkMetrics (CapturedBytes m) (FrameCount m) (MalformedFrames m) (QSHFrameCount m)
    (QSHTotalBytes m) (TargetHashCount m) (ParseSuccessCount m) (ParseErrorCount m)
    (if lte then NRCellCount m else NRCellCount m + 1)
    (if lte then LTECellCount m + 1 else LTECellCount m)
    (NRHashCount m) (LTEHashCount m) (Cells m ++ [cell_of kv.1 kv.2]).

(** The aggregates in the order of [sort.Slice(keys, ...)]. *)
Definition sorted_aggregates (p : qshParser) : list (aggregateKey * aggregate) :=
  let aggregates := fold_left (aggregate_report p) (reports p) ∅ in
  let keys := sortSlice key_less (fst <$> map_to_list aggregates) in
  (fun key => (key, default (mkAggregate 0 []) (aggregates !! key))) <$> keys.

Definition finish (p : qshParser) : qshParser :=
  let p := correlateNRReports p in
  upd_metrics (fun m => fold_left add_cell (sorted_aggregates p) m) p.

End Finish.

(** * The stream of a file *)

Inductive qmdlError := ErrCancelled | ErrOpen (path : string).

Record readerState := mkReader {
  rd_parser : qshParser; rd_frame : list Z; rd_escaped : bool; rd_seq : Z; rd_discard : bool }.

(** One byte of the loop of [parseReader]. *)
Definition reader_byte (fileIndex : Z) (target : targetKind) (st : readerState) (value : Z)
    : go Empty_set readerState :=
  if value =? 0x7e then
    if rd_discard st then mret (mkReader (rd_parser st) [] false (rd_seq st) false) else
    match rd_frame st with
    | [] => mret (mkReader (rd_parser st) [] false (rd_seq st) false)
    | frame =>
      p ← consumeFrame (rd_parser st) frame (rd_escaped st) (rd_seq st) fileIndex target;
      mret (mkReader p [] false (u32 (rd_seq st + 1)) false)
    end
  else if rd_escaped st then
    mret (mkReader (rd_parser st) (rd_frame st ++ [Z.lxor value 0x20]) false (rd_seq st) (rd_discard st))
  else if value =? 0x7d then
    mret (mkReader (rd_parser st) (rd_frame st) true (rd_seq st) (rd_discard st))
  else mret (mkReader (rd_parser st) (rd_frame st ++ [value]) false (rd_seq st) (rd_discard st)).

Section Stream.
(** [ctx.Err() != nil] when file [file] has been read up to byte [n]. *)
Variable cancelled : nat -> nat -> bool.

Fixpoint reader_loop (file : nat) (target : targetKind) (bytesRead : nat) (st : readerState)
    (source : list Z) : go qmdlError readerState :=
  if (Z.of_nat bytesRead `mod` 16384 =? 0) && cancelled file bytesRead then Err ErrCancelled else
  match source with
  | [] => Ok st
  | value :: rest =>
    match reader_byte (u32 (Z.of_nat file)) target st value with
    | Ok st => reader_loop file target (S bytesRead) st rest
    | _ => Panic
    end
  end.

Definition parseReader (p : qshParser) (source : list Z) (file : nat) (target : targetKind)
    (discardFirst : bool) : go qmdlError qshParser :=
  st ← reader_loop file target 0 (mkReader p [] false 0 discardFirst) source;
  mret (rd_parser st).

(** A file of the capture directory; [None] when it cannot be opened. *)
Record qmdlFile := mkFile { fl_path : string; fl_content : option (list Z) }.

(** [offsets[path]], zero when absent. *)
Definition offset_of (offsets : gmap string nat) (path : string) : nat :=
  default 0%nat (offsets !! path).

Definition analyze_file (offsets : gmap string nat) (target : targetKind)
    (acc : nat * qshParser) (file : qmdlFile) : go qmdlError (nat * qshParser) :=
  let '(idx, p) := acc in
  if cancelled idx 0 then Err ErrCancelled else
  match fl_content file with
  | None => Err (ErrOpen (fl_path file))
  | Some content =>
    let offset := Nat.min (offset_of offsets (fl_path file)) (length content) in
    let p := upd_metrics (addCaptured (Z.of_nat (length content) - Z.of_nat offset)) p in
    let discardFirst :=
      (0 <? offset)%nat &&
      match content !! (offset - 1)%nat with Some b => negb (b =? 0x7e) | None => false end in
    p ← parseReader p (drop offset content) idx target discardFirst;
    mret (S idx, p)
  end.

Definition analyzeQMDLWindow `{SortSlice} (files : list qmdlFile) (offsets : gmap string nat)
    (servingCells : list servingIdentity) (target : targetKind) : go qmdlError captureMetrics :=
  acc ← go_fold (analyze_file offsets target) (0%nat, mkParser noMetrics [] [] servingCells) files;
  mret (metrics (finish acc.2)).

Definition analyzeQMDLFiles `{SortSlice} (files : list qmdlFile)
    (servingCells : list servingIdentity) (target : targetKind) : go qmdlError captureMetrics :=
  analyzeQMDLWindow files ∅ servingCells target.

End Stream.

(** The parser after a list of complete frames, numbered from [seq]. *)
Fixpoint consume_frames (fi : Z) (t : targetKind) (seq : Z) (p : qshParser)
    (frames : list (list Z)) : go Empty_set qshParser :=
  match frames with
  | [] => Ok p
  | f :: frames =>
    p ← consumeFrame p f false seq fi t; consume_frames fi t (u32 (seq + 1)) p frames
  end.

Definition never : nat -> nat -> bool := fun _ _ => false.

(** * Invariants *)

(** A decoded report before correlation: NR reports have no channel yet. *)
Definition report_ok (r : qshReport) : Prop :=
  (r_rat r = 0 /\ r_pci r <= 1007 /\ r_arfcn r = 0 /\ r_band r = 0 /\ r_direct r = true) \/
  (r_rat r = 1 /\ r_pci r <= 503 /\ r_arfcn r <> 0 /\ r_arfcn r <= 262143 /\ r_band r = 0).

Definition candidate_ok (c : qshCandidate) : Prop :=
  c_pci c <= 1007 /\ c_arfcn c <> 0 /\ c_arfcn c <= 3279165 /\ c_band c <= 1024.

Definition counters_ok (t : targetKind) (m : captureMetrics) (n : nat) : Prop :=
  (QSHFrameCount m + MalformedFrames m <= FrameCount m /\
   NRHashCount m + LTEHashCount m <= QSHFrameCount m /\
   ParseSuccessCount m <= NRHashCount m + LTEHashCount m /\
   ParseSuccessCount m = n /\
   MalformedFrames m <= ParseErrorCount m /\
   NRHashCount m + LTEHashCount m <= ParseSuccessCount m + ParseErrorCount m /\
   ParseSuccessCount m + ParseErrorCount m <= FrameCount m /\
   TargetHashCount m = match t with
                       | targetNR => NRHashCount m
                       | targetLTE => LTEHashCount m
                       | targetCombined => NRHashCount m + LTEHashCount m
                       end)%nat.

Record parser_ok (t : targetKind) (p : qshParser) : Prop := mkParserOk {
  po_counters : counters_ok t (metrics p) (length (reports p));
  po_reports : Forall report_ok (reports p);
  po_candidates : Forall candidate_ok (candidates p);
  po_cells : Cells (metrics p) = [] /\ NRCellCount (metrics p) = 0%nat /\
             LTECellCount (metrics p) = 0%nat }.

(** After correlation an NR report carries the channel of a candidate. *)
Definition correlated_ok (r : qshReport) : Prop :=
  (r_rat r = 0 /\ r_pci r <= 1007 /\ r_arfcn r <= 3279165 /\ r_band r <= 1024) \/
  (r_rat r = 1 /\ r_pci r <= 503 /\ r_arfcn r <= 262143 /\ r_band r = 0).

(** A reported cell: not a serving cell, with a channel and a measurement. *)
Definition cell_ok (servingCells : list servingIdentity) (c : parsedCell) : Prop :=
  pc_ARFCN c <> 0 /\ (1 <= pc_Samples c)%nat /\
  ((pc_RAT c = "NR"%string /\ pc_PCI c <= 1007 /\ pc_ARFCN c <= 3279165 /\ pc_Band c <= 1024) \/
   (pc_RAT c = "LTE"%string /\ pc_PCI c <= 503 /\ pc_ARFCN c <= 262143 /\ pc_Band c = 0)) /\
  isServing (mkParser noMetrics [] [] servingCells)
    (if bool_decide (pc_RAT c = "LTE"%string) then 1 else 0) (pc_PCI c) (pc_ARFCN c) = false.

Definition has_RAT (rat : string) (c : parsedCell) : bool := bool_decide (pc_RAT c = rat).

(** One LTE report and one NR report with its candidate. *)
Definition sample_parser : qshParser :=
  mkParser (mkMetrics 0 2 0 2 0 2 2 0 0 0 1 1 [])
    [mkCandidate 0 0 77 504990 41]
    [mkReport 0 0 1 5 1300 0 (f_of_Z (-90)) true false;
     mkReport 1 0 0 77 0 0 (f_of_Z (-100)) true true] [].

(** * No index out of range *)

Lemma addNRReport_total p seq fi words strict : total (addNRReport p seq fi words strict).
Proof. unfold addNRReport. total_walk; bool_to_prop; lia. Qed.

Lemma decodeQSHCandidate_total hash words : total (decodeQSHCandidate hash words).
Proof.
  unfold decodeQSHCandidate, candidate_fields.
  repeat match goal with
  | |- context [if bool_decide (hash ∈ _) then _ else _] => case_bool_decide
  | |- context [if hash =? ?h then Some _ else _] => destruct (hash =? h)
  end; total_walk; bool_to_prop; try lia; try (by eexists).
  all: case_match; lia.
Qed.

Lemma lteLayout_cases hash l : lteLayoutOf hash = Some l ->
  (l_arfcn l < l_min l)%nat /\ (l_pci l < l_min l)%nat /\
  (l_requireValid l = true -> (1 < l_min l)%nat) /\
  (forall i, l_rsrp l = Some i -> (i < l_min l)%nat) /\
  (forall i, l_fraction l = Some i -> (i < l_min l)%nat) /\
  (forall i, l_rsrq l = Some i -> (i < l_min l)%nat).
Proof.
  unfold lteLayoutOf.
  repeat match goal with
  | |- context [if bool_decide (hash ∈ _) then _ else _] => case_bool_decide
  | |- context [if hash =? ?h then Some _ else _] => destruct (hash =? h)
  end; intros [= <-]; simpl; split_and!; intros; simplify_eq; lia.
Qed.

Lemma decodeQSHLTEReport_total hash words : total (decodeQSHLTEReport hash words).
Proof.
  unfold decodeQSHLTEReport. destruct (lteLayoutOf hash) as [l|] eqn:Hl; [|by eexists].
  destruct (lteLayout_cases hash l Hl) as (Ha & Hp & Hv & Hr & Hf & Hq).
  case_bool_decide as Hlen; [by eexists|].
  total_walk; bool_to_prop; try lia; eauto with lia.
  all: try (specialize (Hv eq_refl)).
  all: repeat match goal with
       | Hx : forall i, Some ?n = Some i -> _ |- _ => specialize (Hx n eq_refl)
       end; lia.
Qed.

Lemma consume_report_total p hash words seq fi t : total (consume_report p hash words seq fi t).
Proof.
  unfold consume_report. destruct (nrReportSpec hash) as [[strict minimum]|].
  - case_bool_decide; [by eexists|].
    apply total_bind; [apply addNRReport_total|]. intros r _. destruct r.2; by eexists.
  - apply total_bind; [apply decodeQSHLTEReport_total|]. intros [[r rec] v] _.
    destruct (negb rec); [by eexists|]. destruct (negb v); by eexists.
Qed.

Lemma read_words_total payload n :
  (16 + n * 4 <= length payload)%nat -> total (read_words payload n).
Proof.
  intros Hl. apply total_go_map. intros i Hi. apply elem_of_seq in Hi.
  apply total_uint32. lia.
Qed.

Lemma consumeFrame_total p frame escaped seq fi t : total (consumeFrame p frame escaped seq fi t).
Proof.
  unfold consumeFrame. destruct (escaped || _) eqn:He; [by eexists|].
  apply orb_false_iff in He as [_ He]. bool_to_prop.
  rewrite trim_end_ok by lia. cbn [mbind go_bind].
  apply total_bind; [apply total_uint16; lia|]. intros crc _.
  destruct (negb _); [by eexists|]. set (payload := take _ frame).
  case_bool_decide as Hlen; [by eexists|].
  apply total_bind; [apply total_index; lia|]. intros b0 _. destruct (negb _); [by eexists|].
  apply total_bind; [apply total_index; lia|]. intros b4 _.
  destruct ((_ <? 0) || _ || _) eqn:Hw; [by eexists|].
  apply orb_false_iff in Hw as [Hw Hw3]. apply orb_false_iff in Hw as [Hw1 Hw2]. bool_to_prop.
  apply total_bind; [apply total_slice32; lia|]. intros hash _.
  apply total_bind; [apply read_words_total; lia|]. intros words _.
  apply total_bind; [apply decodeQSHCandidate_total|]. intros c _. apply consume_report_total.
Qed.

Lemma reader_byte_total fi t st v : total (reader_byte fi t st v).
Proof.
  unfold reader_byte. total_walk. apply consumeFrame_total.
Qed.

(** * The reader as a sequence of frames *)

Lemma consume_frames_total fi t seq p frames : total (consume_frames fi t seq p frames).
Proof.
  revert seq p. induction frames as [|f frames IH]; intros; simpl; [by eexists|].
  apply total_bind; [apply consumeFrame_total|]. intros. apply IH.
Qed.

Lemma reader_loop_never file t n m st source :
  reader_loop never file t n st source = reader_loop never file t m st source.
Proof.
  revert n m st. induction source as [|v source IH]; intros n m st; simpl;
    rewrite !andb_false_r; [done|]. destruct (reader_byte _ _ _ _); [apply IH|done..].
Qed.

Lemma reader_loop_app file t n st l1 l2 :
  reader_loop never file t n st (l1 ++ l2) =
  (st' ← reader_loop never file t n st l1; reader_loop never file t n st' l2).
Proof.
  revert n st. induction l1 as [|v l1 IH]; intros n st; simpl; rewrite !andb_false_r; [done|].
  destruct (reader_byte _ _ _ _) as [st'| |]; [|done..]. rewrite IH.
  destruct (reader_loop never file t (S n) st' l1); [|done..]. simpl. apply reader_loop_never.
Qed.

(** Bytes without a delimiter only fill the frame buffer. *)
Lemma reader_loop_plain file t n st l :
  0x7e ∉ l -> exists fr esc, reader_loop never file t n st l =
    Ok (mkReader (rd_parser st) fr esc (rd_seq st) (rd_discard st)).
Proof.
  revert n st. induction l as [|v l IH]; intros n st Hl; simpl; rewrite !andb_false_r.
  { destruct st. by eexists _, _. }
  apply not_elem_of_cons in Hl as [Hv Hl]. unfold reader_byte.
  rewrite (proj2 (Z.eqb_neq v 0x7e)) by congruence.
  destruct (rd_escaped st); [|destruct (v =? 0x7d)]; simpl;
    match goal with |- context [reader_loop _ _ _ _ ?s l] => destruct (IH (S n) s Hl) as (fr & esc & ->) end;
    by eexists _, _.
Qed.

(** An escaped frame is read back into the buffer. *)
Lemma reader_loop_escape file t n p fr seq d f :
  reader_loop never file t n (mkReader p fr false seq d) (hdlcEscape f) =
  Ok (mkReader p (fr ++ f) false seq d).
Proof.
  revert n fr. induction f as [|v f IH]; intros n fr.
  { simpl. by rewrite andb_false_r, app_nil_r. }
  rewrite escape_cons, reader_loop_app.
  assert (Hv : reader_loop never file t n (mkReader p fr false seq d)
    (if (v =? 0x7d) || (v =? 0x7e) then [0x7d; Z.lxor v 0x20] else [v]) =
    Ok (mkReader p (fr ++ [v]) false seq d)).
  { destruct ((v =? 0x7d) || (v =? 0x7e)) eqn:E; simpl; rewrite !andb_false_r; unfold reader_byte; simpl.
    - assert (Hx : (Z.lxor v 32 =? 0x7e) = false).
      { apply orb_true_iff in E as [E|E]; apply Z.eqb_eq in E as ->; done. }
      by rewrite Hx, lxor_0x20_invol.
    - apply orb_false_iff in E as [-> ->]. done. }
  rewrite Hv. simpl. rewrite IH, <- app_assoc. done.
Qed.

Lemma reader_loop_frames file t n p seq frames :
  reader_loop never file t n (mkReader p [] false seq false)
    (flat_map (fun f => hdlcEscape f ++ [0x7e]) frames) =
  let complete := filter (fun f => f <> []) frames in
  match consume_frames (u32 (Z.of_nat file)) t seq p complete with
  | Ok p' => Ok (mkReader p' [] false (fold_left (fun s _ => u32 (s + 1)) complete seq) false)
  | _ => Panic
  end.
Proof.
  revert n p seq. induction frames as [|f frames IH]; intros n p seq.
  { simpl. by rewrite andb_false_r. }
  cbn [flat_map]. rewrite filter_cons. cbv zeta. rewrite !reader_loop_app, reader_loop_escape.
  cbn [mbind go_bind reader_loop app]. rewrite andb_false_r.
  unfold reader_byte. cbn [rd_discard rd_frame rd_parser rd_escaped rd_seq].
  change (0x7e =? 0x7e) with true. cbn match.
  destruct f as [|x f].
  { rewrite decide_False by (intros Hne; by apply Hne). cbn [mbind go_bind mret go_ret].
    rewrite andb_false_r. apply IH. }
  rewrite decide_True by done. cbn [consume_frames fold_left].
  destruct (consumeFrame_total p (x :: f) false seq (u32 (Z.of_nat file)) t) as [p' ->].
  cbn [mbind go_bind]. rewrite andb_false_r. apply IH.
Qed.

(** * The aggregates *)

Lemma skip_report_counts p r : skip_report p r = negb (bool_decide (counts p r)).
Proof.
  unfold skip_report. case_bool_decide as H; unfold counts in H; revert H;
    destruct (r_direct r), (fltb _ (f_of_Z (-140))), (fltb (f_of_Z (-30)) _), (isServing _ _ _ _),
      (Z.eqb_spec (r_arfcn r) 0); intros H; try done; exfalso; intuition congruence.
Qed.

Lemma aggregate_lookup p rs k :
  fold_left (aggregate_report p) rs ∅ !! k =
  match filter (fun r => counts p r /\ report_key r = k) rs with
  | [] => None
  | l => Some (mkAggregate (last_band l) (r_rsrp <$> l))
  end.
Proof.
  induction rs as [|r rs IH] using rev_ind; [done|].
  rewrite fold_left_app, filter_app. cbn [fold_left]. unfold aggregate_report at 1.
  rewrite skip_report_counts. case_bool_decide as Hs; cbn [negb].
  2:{ rewrite IH, (filter_none _ [r]), app_nil_r; [done|]. apply Forall_singleton. by intros [? _]. }
  destruct (decide (report_key r = k)) as [<-|Hk].
  - rewrite lookup_insert_eq, IH. rewrite (filter_all _ [r]) by by apply Forall_singleton.
    destruct (filter _ rs) as [|r0 l]; [done|]. cbn [app default]. f_equal.
    unfold last_band. cbn [ag_band ag_rsrp]. cbn [from_option id].
    rewrite (fold_left_app _ (r0 :: l) [r]), (app_comm_cons l [r] r0), fmap_app. done.
  - rewrite lookup_insert_ne, IH by done.
    rewrite (filter_none _ [r]), app_nil_r; [done|].
    apply Forall_singleton. by intros [_ ?].
Qed.

Lemma key_less_sw : strict_weak key_less.
Proof.
  unfold key_less. split.
  - intros [[a b] c]. rewrite !Z.eqb_refl. simpl. apply Z.ltb_irrefl.
  - intros [[a b] c] [[a2 b2] c2] [[a3 b3] c3].
    repeat case_match; bool_to_prop; subst; rewrite ?Z.ltb_lt; intros; try lia.
  - intros [[a b] c] [[a2 b2] c2] [[a3 b3] c3].
    repeat case_match; bool_to_prop; subst; rewrite ?Z.ltb_ge; intros; try lia.
Qed.

Lemma key_less_total a b : key_less b a = false -> a <> b -> key_less a b = true.
Proof.
  unfold key_less. destruct a as [[r1 p1] a1], b as [[r2 p2] a2].
  repeat case_match; bool_to_prop; subst; rewrite ?Z.ltb_ge, ?Z.ltb_lt; intros; try lia.
  assert (p1 <> p2) by congruence. lia.
Qed.

Lemma strict_of_sorted {A} (less : A -> A -> bool) l :
  (forall a b, less b a = false -> a <> b -> less a b = true) ->
  StronglySorted (fun x y => less y x = false) l -> NoDup l ->
  StronglySorted (fun x y => less x y = true) l.
Proof.
  intros Ht. induction 1 as [|x l Hl IH Hx]; intros Hnd; [constructor|].
  apply NoDup_cons in Hnd as [Hin Hnd]. constructor; [by apply IH|].
  apply Forall_forall. intros y Hy. apply Ht; [by apply (proj1 (Forall_forall _ _) Hx)|].
  by intros ->.
Qed.

Section FinishFacts.
Context `{SortSlice}.

Lemma fold_add_cell l m :
  Cells (fold_left add_cell l m) = Cells m ++ ((fun kv => cell_of kv.1 kv.2) <$> l) /\
  NRCellCount (fold_left add_cell l m) =
    (NRCellCount m + length (List.filter (fun kv => negb (kv.1.1.1 =? 1)%Z) l))%nat /\
  LTECellCount (fold_left add_cell l m) =
    (LTECellCount m + length (List.filter (fun kv => (kv.1.1.1 =? 1)%Z) l))%nat.
Proof.
  revert m. induction l as [|kv l IH]; intros m; simpl.
  { rewrite app_nil_r. split_and!; [done|lia..]. }
  destruct (IH (add_cell m kv)) as (-> & -> & ->). unfold add_cell. simpl.
  rewrite <- app_assoc. destruct (kv.1.1.1 =? 1); simpl; split_and!; done || lia.
Qed.

(** The keys that are reported, in order. *)
Lemma sorted_aggregates_spec p :
  exists keys, StronglySorted (fun a b => key_less a b = true) keys /\
    (forall k, k ∈ keys <-> usable p k <> []) /\
    sorted_aggregates p =
      (fun k => (k, mkAggregate (last_band (usable p k)) (r_rsrp <$> usable p k))) <$> keys.
Proof.
  unfold sorted_aggregates. set (m := fold_left (aggregate_report p) (reports p) ∅).
  set (keys := sortSlice key_less (fst <$> map_to_list m)).
  assert (Hin : forall k, k ∈ keys <-> usable p k <> []).
  { intros k. unfold keys. rewrite elem_of_sortSlice, list_elem_of_fmap. split.
    - intros ([k' a] & -> & Ha). apply elem_of_map_to_list in Ha. unfold m in Ha.
      rewrite aggregate_lookup in Ha. fold (usable p k') in Ha. cbn [fst].
      by destruct (usable p k').
    - intros Hu. destruct (m !! k) as [a|] eqn:Ha.
      + exists (k, a). split; [done|]. by apply elem_of_map_to_list.
      + unfold m in Ha. rewrite aggregate_lookup in Ha. fold (usable p k) in Ha.
        by destruct (usable p k). }
  exists keys. split_and!; [|done|].
  - apply strict_of_sorted; [exact key_less_total| |].
    + apply sortSlice_sorted, key_less_sw.
    + apply sortSlice_NoDup, NoDup_fst_map_to_list.
  - apply list_fmap_ext. intros i k Hk. apply list_elem_of_lookup_2, Hin in Hk. f_equal.
    unfold m. rewrite aggregate_lookup. fold (usable p k). by destruct (usable p k).
Qed.

End FinishFacts.

(** * Preservation of the invariant *)

Lemma candidate_decoded hash words c :
  decodeQSHCandidate hash words = Ok (Some c) -> candidate_ok c.
Proof.
  unfold decodeQSHCandidate. destruct (candidate_fields hash words) as [fields|]; [|done].
  destruct fields as [[minimum [[band arfcn] pci]]| |]; try done. cbn [mbind go_bind].
  destruct (_ || _ || _ || _ || _) eqn:Hc; [done|]. intros [= <-].
  repeat (apply orb_false_iff in Hc as [Hc ?]). bool_to_prop. unfold candidate_ok. simpl. lia.
Qed.

Lemma lte_decoded hash words r b :
  decodeQSHLTEReport hash words = Ok (r, b, true) -> report_ok r.
Proof.
  unfold decodeQSHLTEReport. destruct (lteLayoutOf hash) as [l|]; [|done].
  case_bool_decide as Hlen; [done|].
  destruct (index words (l_arfcn l)) as [arfcn| |]; try done. cbn [mbind go_bind].
  destruct (index words (l_pci l)) as [pci| |]; try done. cbn [mbind go_bind].
  destruct (if l_requireValid l then _ else _) as [flag| |]; try done. cbn [mbind go_bind].
  destruct (l_requireValid l && _); [done|].
  destruct (_ || _ || _) eqn:Hc; [done|].
  repeat (apply orb_false_iff in Hc as [Hc ?]). bool_to_prop. intros Hdec.
  assert (Hrep : exists rsrp direct, r = mkReport 0 0 1 pci arfcn 0 rsrp direct false).
  { destruct (l_rsrp l) as [i|]; [|injection Hdec as <- _; by eexists _, _].
    destruct (index words i) as [raw| |]; try done. cbn [mbind go_bind] in Hdec.
    destruct (match l_fraction l with Some _ => _ | None => _ end) as [sig| |]; try done.
    cbn [mbind go_bind] in Hdec.
    destruct (match l_rsrq l with Some _ => _ | None => _ end) as [ok| |]; try done.
    cbn [mbind go_bind] in Hdec. destruct (negb ok); [done|]. injection Hdec as <- _ _. by eexists _, _. }
  destruct Hrep as (rsrp & direct & ->). right. simpl. lia.
Qed.

Lemma addNRReport_inv p seq fi words strict p' b :
  addNRReport p seq fi words strict = Ok (p', b) ->
  if b then exists r, p' = add_report r p /\ report_ok r else p' = p.
Proof.
  unfold addNRReport. case_bool_decide; [by intros [= <- <-]|].
  destruct (index words 3) as [w3| |]; try done. cbn [mbind go_bind].
  destruct (index words 4) as [w4| |]; try done. cbn [mbind go_bind].
  destruct (index words 5) as [w5| |]; try done. cbn [mbind go_bind].
  destruct (index words 6) as [w6| |]; try done. cbn [mbind go_bind].
  destruct (_ || _) eqn:Hpci; [by intros [= <- <-]|].
  destruct (negb _ || _); [by intros [= <- <-]|]. intros [= <- <-].
  eexists. split; [done|]. apply orb_false_iff in Hpci as [? _]. bool_to_prop. left. simpl. lia.
Qed.

(** The cases in which counters move together. *)
Ltac counters := unfold counters_ok in *; simpl in *; rewrite ?length_app; simpl; lia.

Lemma consume_report_ok t p hash words seq fi p' :
  parser_ok t p ->
  (QSHFrameCount (metrics p) + MalformedFrames (metrics p) <= FrameCount (metrics p))%nat ->
  (NRHashCount (metrics p) + LTEHashCount (metrics p) + 1 <= QSHFrameCount (metrics p))%nat ->
  (ParseSuccessCount (metrics p) + ParseErrorCount (metrics p) + 1 <= FrameCount (metrics p))%nat ->
  consume_report p hash words seq fi t = Ok p' -> parser_ok t p'.
Proof.
  intros [Hc Hr Hcand Hcells] H1 H2 H3. unfold consume_report.
  destruct (nrReportSpec hash) as [[strict minimum]|].
  - set (q := if bool_decide (t = targetNR \/ t = targetCombined) then _ else _).
    assert (Hq : forall b, counters_ok t (if b : bool then incSuccess (metrics q) else incError (metrics q))
      (length (reports p) + if b then 1 else 0)%nat /\ reports q = reports p /\
      candidates q = candidates p /\ Cells (metrics q) = [] /\ NRCellCount (metrics q) = 0%nat /\
      LTECellCount (metrics q) = 0%nat).
    { intros b. unfold q. destruct t, b; simpl; split_and!; try apply Hcells; try done; counters. }
    clearbody q. destruct (Hq false) as (Hf & Hrq & Hcq & Hcellq). destruct (Hq true) as (Ht & _).
    case_bool_decide.
    { intros [= <-]. constructor; simpl; rewrite ?Hrq, ?Hcq; try done.
      by rewrite Nat.add_0_r in Hf. }
    destruct (addNRReport q seq fi words strict) as [[q' b]| |] eqn:Ha; try done.
    apply addNRReport_inv in Ha. cbn [mbind go_bind snd fst].
    destruct b; intros [= <-]; [destruct Ha as (r & -> & Hok)|subst q'].
    + constructor; simpl; rewrite ?Hrq, ?Hcq, ?length_app; try done. by apply Forall_app_2, Forall_singleton.
    + constructor; simpl; rewrite ?Hrq, ?Hcq; try done. by rewrite Nat.add_0_r in Hf.
  - destruct (decodeQSHLTEReport hash words) as [[[r rec] v]| |] eqn:Hd; try done. cbn [mbind go_bind].
    destruct rec; simpl; [|intros [= <-]; by constructor].
    set (q := if bool_decide (t = targetLTE \/ t = targetCombined) then _ else _).
    assert (Hq : forall b, counters_ok t (if b : bool then incSuccess (metrics q) else incError (metrics q))
      (length (reports p) + if b then 1 else 0)%nat /\ reports q = reports p /\
      candidates q = candidates p /\ Cells (metrics q) = [] /\ NRCellCount (metrics q) = 0%nat /\
      LTECellCount (metrics q) = 0%nat).
    { intros b. unfold q. destruct t, b; simpl; split_and!; try apply Hcells; try done; counters. }
    clearbody q. destruct (Hq false) as (Hf & Hrq & Hcq & Hcellq). destruct (Hq true) as (Ht & _).
    destruct v; simpl; intros [= <-].
    + apply lte_decoded in Hd.
      constructor; simpl; rewrite ?Hrq, ?Hcq, ?length_app; try done.
      apply Forall_app_2; [done|]. apply Forall_singleton. exact Hd.
    + constructor; simpl; rewrite ?Hrq, ?Hcq; try done. by rewrite Nat.add_0_r in Hf.
Qed.

Lemma consumeFrame_ok t p frame escaped seq fi p' :
  parser_ok t p -> consumeFrame p frame escaped seq fi t = Ok p' -> parser_ok t p'.
Proof.
  intros Hok H. pose proof Hok as [Hc Hr Hcand Hcells].
  assert (Hmal : parser_ok t (upd_metrics incError (upd_metrics incMalformed (upd_metrics incFrame p)))).
  { constructor; try done. counters. }
  assert (Hf : parser_ok t (upd_metrics incFrame p)).
  { constructor; try done. counters. }
  unfold consumeFrame in H. destruct (escaped || _); [by injection H as <-|].
  destruct (trim_end 2 frame) as [payload| |]; try done. cbn [mbind go_bind] in H.
  destruct (slice_from frame (length frame - 2) ≫= _) as [crc| |]; try done. cbn [mbind go_bind] in H.
  destruct (negb _); [by injection H as <-|].
  case_bool_decide; [by injection H as <-|].
  destruct (index payload 0) as [b0| |]; try done. cbn [mbind go_bind] in H.
  destruct (negb _); [by injection H as <-|].
  destruct (index payload 4) as [b4| |]; try done. cbn [mbind go_bind] in H.
  set (q := upd_metrics (incQSH _) _) in H.
  assert (Hq : parser_ok t q) by (constructor; try done; counters).
  assert (Hqc : (QSHFrameCount (metrics q) + MalformedFrames (metrics q) <= FrameCount (metrics q) /\
    NRHashCount (metrics q) + LTEHashCount (metrics q) + 1 <= QSHFrameCount (metrics q) /\
    ParseSuccessCount (metrics q) + ParseErrorCount (metrics q) + 1 <= FrameCount (metrics q))%nat)
    by counters.
  assert (Hqe : parser_ok t (upd_metrics incError q)) by (constructor; try done; counters).
  clearbody q. destruct ((_ <? 0) || _ || _); [by injection H as <-|].
  destruct (slice payload 12 16 ≫= _) as [hash| |]; try done. cbn [mbind go_bind] in H.
  destruct (read_words payload _) as [words| |]; try done. cbn [mbind go_bind] in H.
  destruct (decodeQSHCandidate hash words) as [c| |] eqn:Hcd; try done. cbn [mbind go_bind] in H.
  destruct c as [c|]; (eapply consume_report_ok; [| | | |exact H]); try apply Hqc; try done.
  destruct Hq as [H1 H2 H3 H4]. constructor; try done. simpl.
  apply Forall_app_2; [done|]. apply Forall_singleton. by apply candidate_decoded in Hcd.
Qed.

(** Anything the frames preserve is preserved by the whole analysis. *)
Section StreamInvariant.
Variable P : qshParser -> Prop.
Variable t : targetKind.
Hypothesis Hframe : forall p frame escaped seq fi p',
  P p -> consumeFrame p frame escaped seq fi t = Ok p' -> P p'.
Hypothesis Hcaptured : forall n p, P p -> P (upd_metrics (addCaptured n) p).

Lemma reader_byte_inv fi st v st' :
  P (rd_parser st) -> reader_byte fi t st v = Ok st' -> P (rd_parser st').
Proof.
  intros HP H. unfold reader_byte in H. repeat case_match; try by injection H as <-.
  destruct (consumeFrame _ _ _ _ _ _) as [q| |] eqn:Hq; try done. injection H as <-.
  by eapply Hframe.
Qed.

Lemma reader_loop_inv cancelled file n st source st' :
  P (rd_parser st) -> reader_loop cancelled file t n st source = Ok st' -> P (rd_parser st').
Proof.
  revert n st. induction source as [|v source IH]; intros n st HP H; simpl in H;
    destruct (_ && _); try done; [by injection H as <-|].
  destruct (reader_byte _ _ _ _) as [st1| |] eqn:Hb; try done.
  eapply IH; [|exact H]. by eapply reader_byte_inv.
Qed.

Lemma analyze_file_inv cancelled offsets acc f acc' :
  P acc.2 -> analyze_file cancelled offsets t acc f = Ok acc' -> P acc'.2.
Proof.
  destruct acc as [i p]. intros HP H. unfold analyze_file in H.
  destruct (cancelled i 0%nat); [done|]. destruct (fl_content f) as [content|]; [|done].
  unfold parseReader in H. destruct (reader_loop _ _ _ _ _ _) as [st| |] eqn:Hl; try done.
  injection H as <-. simpl. eapply reader_loop_inv; [|exact Hl]. by apply Hcaptured.
Qed.

Lemma analyze_files_inv cancelled offsets acc files acc' :
  P acc.2 -> go_fold (analyze_file cancelled offsets t) acc files = Ok acc' -> P acc'.2.
Proof.
  revert acc. induction files as [|f files IH]; intros acc HP H; simpl in H; [by injection H as <-|].
  destruct (analyze_file _ _ _ _ _) as [a1| |] eqn:Ha; try done.
  eapply IH; [|exact H]. by eapply analyze_file_inv.
Qed.

End StreamInvariant.

Lemma reader_loop_no_panic cancelled file t n st source :
  reader_loop cancelled file t n st source <> Panic.
Proof.
  revert n st. induction source as [|v source IH]; intros n st; simpl; destruct (_ && _); try done.
  destruct (reader_byte_total (u32 (Z.of_nat file)) t st v) as [st' ->]. apply IH.
Qed.

Lemma analyze_file_no_panic cancelled offsets t acc f :
  analyze_file cancelled offsets t acc f <> Panic.
Proof.
  unfold analyze_file. destruct acc as [i p]. destruct (cancelled i 0%nat); [done|].
  destruct (fl_content f) as [content|]; [|done]. unfold parseReader.
  match goal with |- context [reader_loop ?a ?b ?c ?d ?e ?g] =>
    pose proof (reader_loop_no_panic a b c d e g); destruct (reader_loop a b c d e g) end; done.
Qed.

Lemma empty_parser_ok t cells : parser_ok t (mkParser noMetrics [] [] cells).
Proof. constructor; try done. unfold counters_ok. simpl. destruct t; lia. Qed.

(** * Correlation *)

Lemma scan_candidate_spec r cs best :
  match fold_left (scan_candidate r) cs best with
  | Some (c, d) =>
    ((c ∈ cs /\ c_file c = r_file r /\ c_pci c = r_pci r /\ d = unsignedDistance (c_seq c) (r_seq r)) \/
     best = Some (c, d)) /\
    (forall c', c' ∈ cs -> c_file c' = r_file r -> c_pci c' = r_pci r ->
       d <= unsignedDistance (c_seq c') (r_seq r)) /\
    (forall cb db, best = Some (cb, db) -> d <= db)
  | None => best = None /\ forall c', c' ∈ cs -> c_file c' = r_file r -> c_pci c' <> r_pci r
  end.
Proof.
  revert best. induction cs as [|c0 cs IH]; intros best; simpl.
  { destruct best as [[c d]|]; split_and!; auto.
    - intros c' Hc'. by apply elem_of_nil in Hc'.
    - intros cb db [= <- <-]. lia.
    - intros c' Hc'. by apply elem_of_nil in Hc'. }
  specialize (IH (scan_candidate r best c0)).
  destruct (fold_left (scan_candidate r) cs (scan_candidate r best c0)) as [[c d]|] eqn:Hf.
  - destruct IH as (Hc & Hmin & Hb).
    unfold scan_candidate in Hc, Hb.
    destruct (negb (c_file c0 =? r_file r) || negb (c_pci c0 =? r_pci r)) eqn:E.
    + split_and!; [|intros c' [->|Hc']%elem_of_cons|]; auto.
      * destruct Hc as [(? & ?)|]; [left; split; [by right|done]|by right].
      * intros Hfile Hpci. rewrite Hfile, Hpci, !Z.eqb_refl in E. done.
    + apply orb_false_iff in E as [E1 E2]. bool_to_prop.
      assert (Hdist : d <= unsignedDistance (c_seq c0) (r_seq r) /\
                      (forall cb db, best = Some (cb, db) -> d <= db) /\
                      ((c ∈ c0 :: cs /\ c_file c = r_file r /\ c_pci c = r_pci r /\
                        d = unsignedDistance (c_seq c) (r_seq r)) \/ best = Some (c, d))).
      { destruct best as [[cb db]|]; [destruct (_ <? db) eqn:Hlt; bool_to_prop|].
        - specialize (Hb _ _ eq_refl). split_and!; [done|intros ? ? [= <- <-]; lia|].
          left. destruct Hc as [(? & ? & ? & ?)|[= <- <-]]; split_and!; try done; [by right|left].
        - specialize (Hb _ _ eq_refl). split_and!; [lia|intros ? ? [= <- <-]; lia|].
          destruct Hc as [(? & ?)|]; [left; split; [by right|done]|by right].
        - specialize (Hb _ _ eq_refl). split_and!; [done|done|]. left.
          destruct Hc as [(? & ? & ? & ?)|[= <- <-]]; split_and!; try done; [by right|left]. }
      destruct Hdist as (Hd1 & Hd2 & Hd3). split_and!; [done| |done].
      intros c' [->|Hc']%elem_of_cons; auto.
  - destruct IH as [Hnone Hno]. unfold scan_candidate in Hnone.
    destruct (negb (c_file c0 =? r_file r) || negb (c_pci c0 =? r_pci r)) eqn:E.
    + split; [done|]. intros c' [->|Hc']%elem_of_cons; [|by apply Hno].
      intros Hfile Hpci. by rewrite Hfile, Hpci, !Z.eqb_refl in E.
    + destruct best as [[cb db]|]; [destruct (_ <? db)|]; done.
Qed.

(** * The reported cells *)

Lemma best_candidate_in r cs c : best_candidate r cs = Some c -> c ∈ cs.
Proof.
  unfold best_candidate. pose proof (scan_candidate_spec r cs None) as H.
  destruct (fold_left _ _ _) as [[c' d]|]; [|done]. simpl. intros [= <-].
  destruct H as [[[? _]|?] _]; done.
Qed.

Lemma correlate_ok t p :
  parser_ok t p -> Forall correlated_ok (reports (correlateNRReports p)).
Proof.
  intros [_ Hr Hc _]. apply Forall_fmap. eapply Forall_impl; [exact Hr|].
  intros r Hok. unfold compose, correlate_report, correlated_ok.
  destruct Hok as [(H0 & ? & ? & ? & _)|(H1 & ? & ? & ? & ?)].
  - rewrite H0. simpl. destruct (best_candidate r (candidates p)) as [c|] eqn:Hb; simpl.
    + apply best_candidate_in in Hb. apply (proj1 (Forall_forall _ _) Hc) in Hb.
      unfold candidate_ok in Hb. left. lia.
    + left. lia.
  - rewrite H1. simpl. right. lia.
Qed.

Lemma last_band_le rs b :
  Forall (fun r => r_band r <= b) rs -> 0 <= b -> last_band rs <= b.
Proof.
  intros H Hb. unfold last_band. assert (0 <= b) as H0 by done. revert H0. generalize 0 at 1 3.
  induction H as [|r rs Hr H IH]; intros z Hz; simpl; [done|]. apply IH. by case_match.
Qed.

Lemma last_band_zero rs : Forall (fun r => r_band r = 0) rs -> last_band rs = 0.
Proof.
  intros H. unfold last_band. induction H as [|r rs Hr H IH]; [done|]. simpl. by rewrite Hr.
Qed.

Lemma usable_cell_ok `{SortSlice} p k :
  Forall correlated_ok (reports p) -> usable p k <> [] ->
  cell_ok (serving p) (cell_of k (mkAggregate (last_band (usable p k)) (r_rsrp <$> usable p k))).
Proof.
  intros Hok Hne. destruct k as [[rat pci] arfcn].
  assert (Hall : Forall (fun r => correlated_ok r /\ counts p r /\
                                  report_key r = (rat, pci, arfcn)) (usable p (rat, pci, arfcn))).
  { apply Forall_forall. intros r Hr. apply list_elem_of_filter in Hr as [? Hr].
    split; [|done]. by apply (proj1 (Forall_forall _ _) Hok). }
  revert Hne Hall. generalize (usable p (rat, pci, arfcn)). intros rs Hne Hall.
  destruct rs as [|r rs]; [done|]. pose proof (Forall_inv Hall) as (Hc & Hs & Hk).
  destruct Hs as (Hs & ? & ? & ? & ?).
  unfold report_key in Hk. simplify_eq. unfold cell_ok, cell_of. cbn [pc_ARFCN pc_Samples pc_RAT pc_PCI pc_Band ag_band ag_rsrp].
  assert (Hbands : (r_rat r = 0 -> last_band (r :: rs) <= 1024) /\
                   (r_rat r = 1 -> last_band (r :: rs) = 0)).
  { split; intros Hrat; [apply last_band_le; [|lia]|apply last_band_zero];
      eapply Forall_impl; try exact Hall; intros r' (Hc' & _ & Hk'); unfold report_key in Hk';
      simplify_eq; unfold correlated_ok in Hc'; lia. }
  split_and!; [done|simpl; lia| |].
  - destruct Hc as [(Hrat & ?)|(Hrat & ?)]; [left|right]; rewrite Hrat; simpl; (split; [done|]);
      destruct Hbands as [Hb1 Hb2]; [specialize (Hb1 Hrat)|specialize (Hb2 Hrat)]; lia.
  - destruct Hc as [(Hrat & _)|(Hrat & _)]; rewrite ?Hrat in *; done.
Qed.

Lemma count_filter {A} (f g : A -> bool) l :
  (forall x, x ∈ l -> f x = g x) -> List.filter f l = List.filter g l.
Proof.
  induction l as [|x l IH]; intros Hfg; simpl; [done|].
  rewrite (Hfg x) by left. rewrite IH; [done|]. intros y Hy. apply Hfg. by right.
Qed.

Lemma length_filter_fmap {A B} (f : A -> B) (g : B -> bool) l :
  length (List.filter g (f <$> l)) = length (List.filter (fun x => g (f x)) l).
Proof. induction l as [|x l IH]; simpl; [done|]. destruct (g (f x)); simpl; auto. Qed.

(** The cells that [finish] adds to a parser that has none. *)
Lemma finish_cells `{SortSlice} t p :
  parser_ok t p ->
  let m := metrics (finish p) in
  exists keys, StronglySorted (fun a b => key_less a b = true) keys /\
    (forall k, k ∈ keys <-> usable (correlateNRReports p) k <> []) /\
    Cells m = (fun k => cell_of k (mkAggregate (last_band (usable (correlateNRReports p) k))
                 (r_rsrp <$> usable (correlateNRReports p) k))) <$> keys /\
    Forall (cell_ok (serving p)) (Cells m) /\
    NRCellCount m = length (List.filter (has_RAT "NR") (Cells m)) /\
    LTECellCount m = length (List.filter (has_RAT "LTE") (Cells m)).
Proof.
  intros Hok m. destruct (po_cells _ _ Hok) as (Hc0 & Hn0 & Hl0).
  unfold finish, upd_metrics in m. set (q := correlateNRReports p) in *. cbn [metrics] in m.
  destruct (sorted_aggregates_spec q) as (keys & Hsort & Hin & Heq).
  destruct (fold_add_cell (sorted_aggregates q) (metrics q)) as (HC & HN & HL).
  fold m in HC, HN, HL. change (metrics q) with (metrics p) in *.
  rewrite Hc0, Heq, <- list_fmap_compose in HC. cbn [app] in HC.
  assert (Hcells : Forall (cell_ok (serving p)) (Cells m)).
  { rewrite HC. apply Forall_fmap, Forall_forall. intros k Hk. apply Hin in Hk.
    apply (usable_cell_ok q k); [by eapply correlate_ok|done]. }
  assert (Hrat : forall k, k ∈ keys -> k.1.1 = 0 \/ k.1.1 = 1).
  { intros k Hk. apply Hin in Hk. destruct (usable q k) as [|r l] eqn:Hu; [done|].
    assert (Hr : r ∈ usable q k) by (rewrite Hu; left). apply list_elem_of_filter in Hr as [[_ Hkey] Hr].
    pose proof (proj1 (Forall_forall _ _) (correlate_ok _ _ Hok) r Hr) as Hc.
    unfold report_key in Hkey. subst k. unfold correlated_ok in Hc. simpl. lia. }
  exists keys. split_and!; try done.
  - rewrite HN, Hn0, Heq, HC, !length_filter_fmap. simpl. f_equal. apply count_filter.
    intros k Hk. destruct k as [[rat pci] arfcn]. specialize (Hrat _ Hk). simpl in *.
    destruct Hrat as [-> | ->]; done.
  - rewrite HL, Hl0, Heq, HC, !length_filter_fmap. simpl. f_equal. apply count_filter.
    intros k Hk. destruct k as [[rat pci] arfcn]. specialize (Hrat _ Hk). simpl in *.
    destruct Hrat as [-> | ->]; done.
Qed.

Lemma fold_add_cell_counters `{SortSlice} t m l :
  counters_ok t m (ParseSuccessCount m) ->
  counters_ok t (fold_left add_cell l m) (ParseSuccessCount (fold_left add_cell l m)).
Proof. revert m. induction l as [|kv l IH]; intros m Hm; [done|]. by apply IH. Qed.

Lemma consume_report_serving p hash words seq fi t p' :
  consume_report p hash words seq fi t = Ok p' -> serving p' = serving p.
Proof.
  unfold consume_report. destruct (nrReportSpec hash) as [[strict minimum]|].
  - case_bool_decide; [intros [= <-]; by case_bool_decide|].
    destruct (addNRReport _ _ _ _ _) as [[q b]| |] eqn:Ha; try done.
    apply addNRReport_inv in Ha. cbn [mbind go_bind snd fst].
    destruct b; intros [= <-]; [destruct Ha as (r & -> & _)|subst q]; by case_bool_decide.
  - destruct (decodeQSHLTEReport hash words) as [[[r rec] v]| |]; try done. cbn [mbind go_bind].
    destruct rec, v; simpl; intros [= <-]; try done; by case_bool_decide.
Qed.

Lemma consumeFrame_serving p frame escaped seq fi t p' :
  consumeFrame p frame escaped seq fi t = Ok p' -> serving p' = serving p.
Proof.
  unfold consumeFrame. intros Hcf.
  repeat match type of Hcf with
  | (if ?c then _ else _) = _ => destruct c; [by injection Hcf as <-|]
  | (?m ≫= _) = _ => destruct m eqn:?; try done; cbn [mbind go_bind] in Hcf
  end.
  apply consume_report_serving in Hcf. by case_match.
Qed.

Lemma reader_loop_err cancelled file t n st source e :
  reader_loop cancelled file t n st source = Err e ->
  e = ErrCancelled /\ exists m, cancelled file m = true.
Proof.
  revert n st. induction source as [|v source IH]; intros n st H; simpl in H;
    (destruct (_ && _) eqn:Hc; [injection H as <-; split; [done|]; bool_to_prop; eauto|]); [done|].
  destruct (reader_byte_total (u32 (Z.of_nat file)) t st v) as [st' Hst]. rewrite Hst in H. eauto.
Qed.

Lemma analyze_files_err cancelled offsets t acc files e :
  go_fold (analyze_file cancelled offsets t) acc files = Err e ->
  match e with
  | ErrCancelled => exists file n, cancelled file n = true
  | ErrOpen path => mkFile path None ∈ files
  end.
Proof.
  revert acc. induction files as [|f files IH]; intros acc H; simpl in H; [done|].
  destruct (analyze_file cancelled offsets t acc f) as [a1|e1|] eqn:Ha; try done.
  - apply IH in H. destruct e; [done|by right].
  - injection H as ->. destruct acc as [i p]. unfold analyze_file in Ha.
    destruct (cancelled i 0%nat) eqn:Hc; [injection Ha as <-; eauto|].
    destruct f as [path [content|]]; simpl in Ha; [|injection Ha as <-; left].
    unfold parseReader in Ha. destruct (reader_loop _ _ _ _ _ _) as [|e1|] eqn:Hl; try done.
    injection Ha as ->. apply reader_loop_err in Hl as (-> & m & ?). eauto.
Qed.

(** What a successful analysis returns. *)
Lemma analyze_window_ok `{SortSlice} cancelled files offsets servingCells t m :
  analyzeQMDLWindow cancelled files offsets servingCells t = Ok m ->
  counters_ok t m (ParseSuccessCount m) /\ Forall (cell_ok servingCells) (Cells m) /\
  NRCellCount m = length (List.filter (has_RAT "NR") (Cells m)) /\
  LTECellCount m = length (List.filter (has_RAT "LTE") (Cells m)).
Proof.
  unfold analyzeQMDLWindow. destruct (go_fold _ _ files) as [[i p]|e|] eqn:Hf; [|done|done].
  simpl. intros [= <-].
  assert (Hok : parser_ok t p /\ serving p = servingCells).
  { eapply (analyze_files_inv (fun p => parser_ok t p /\ serving p = servingCells) t) in Hf;
      [exact Hf| | |split; [apply empty_parser_ok|done]].
    - intros q frame esc sq fi q' [Hq Hs] Hcf. split; [by eapply consumeFrame_ok|].
      rewrite <- Hs. by eapply consumeFrame_serving.
    - intros n q [[Hc Hr Hcand Hcells] Hs]. split; [by constructor|done]. }
  destruct Hok as [Hok Hs]. destruct (finish_cells t p Hok) as (keys & _ & _ & _ & Hcell & HN & HL).
  rewrite Hs in Hcell. split_and!; try done.
  pose proof (po_counters _ _ Hok) as Hc. unfold finish, upd_metrics. cbn [metrics].
  apply fold_add_cell_counters. change (metrics (correlateNRReports p)) with (metrics p).
  by replace (ParseSuccessCount (metrics p)) with (length (reports p)) by (symmetry; apply Hc).
Qed.

Lemma analyze_window_no_panic `{SortSlice} cancelled files offsets servingCells t :
  analyzeQMDLWindow cancelled files offsets servingCells t <> Panic.
Proof.
  unfold analyzeQMDLWindow. destruct (go_fold _ _ files) as [[i p]|e|] eqn:Hf; [done|done|].
  exfalso. revert Hf. apply (go_fold_no_panic (fun _ => True)); [|by apply Forall_true].
  intros. apply analyze_file_no_panic.
Qed.

(** * Properties *)

(** the streaming reader delivers exactly the complete frames of a file.
    For any frames written with [hdlcEscape] and their delimiter, preceded,
    when the window starts inside a frame, by the rest of that frame, and
    followed by a partial frame, [parseReader] has the effect of [consumeFrame]
    on the non-empty frames in order, numbered from 0: the leading and the
    trailing fragment are never parsed, an empty frame (a repeated delimiter)
    does not count, and the read never fails. *)
Theorem parseReader_frames (p : qshParser) (file : nat) (t : targetKind) (discardFirst : bool)
    (fragment tail : list Z) (frames : list (list Z)) :
  0x7e ∉ fragment -> 0x7e ∉ tail ->
  exists p', consume_frames (u32 (Z.of_nat file)) t 0 p (filter (fun f => f <> []) frames) = Ok p' /\
    parseReader never p
      ((if discardFirst then fragment ++ [0x7e] else []) ++
       flat_map (fun f => hdlcEscape f ++ [0x7e]) frames ++ tail) file t discardFirst = Ok p'.
Proof.
  intros Hfrag Htail.
  destruct (consume_frames_total (u32 (Z.of_nat file)) t 0 p (filter (fun f => f <> []) frames)) as [p' Hp'].
  exists p'. split; [done|]. unfold parseReader.
  assert (Hstart : reader_loop never file t 0 (mkReader p [] false 0 discardFirst)
    (if discardFirst then fragment ++ [0x7e] else []) = Ok (mkReader p [] false 0 false)).
  { destruct discardFirst; [|by simpl].
    rewrite reader_loop_app.
    destruct (reader_loop_plain file t 0 (mkReader p [] false 0 true) fragment Hfrag) as (fr & esc & ->).
    simpl. rewrite ?andb_false_r. done. }
  rewrite reader_loop_app, Hstart. cbn [mbind go_bind].
  rewrite reader_loop_app, reader_loop_frames. cbv zeta. rewrite Hp'. cbn [mbind go_bind].
  match goal with |- context [reader_loop _ _ _ _ ?st tail] =>
    destruct (reader_loop_plain file t 0 st tail Htail) as (fr & esc & ->) end.
  done.
Qed.

Example parseReader_frames_witness :
  exists p', parseReader never (mkParser noMetrics [] [] [])
    ([1; 2; 0x7e] ++ flat_map (fun f => hdlcEscape f ++ [0x7e]) [[0x7e; 1; 2; 3]; []; [5]] ++ [7; 0x7d])
    0 targetNR true = Ok p'.
Proof.
  destruct (parseReader_frames (mkParser noMetrics [] [] []) 0 targetNR true [1; 2] [7; 0x7d]
    [[0x7e; 1; 2; 3]; []; [5]]) as (p' & _ & H).
  - apply (bool_decide_unpack _). vm_compute. exact I.
  - apply (bool_decide_unpack _). vm_compute. exact I.
  - exists p'. exact H.
Defined.

(** analysing a capture window never panics, whatever bytes the files
    hold; it fails only when cancelled or when a file cannot be opened.  The
    counters it returns are consistent: every counted hash is in a well-formed
    QSH frame and is either a success or an error, malformed frames are errors,
    no frame is counted twice, the target count is that of the requested RATs;
    every reported cell has a channel and a measurement, lies in the range of
    its technology and is not a serving cell, and the cell counts are those of
    the list. *)
Theorem analyzeQMDLWindow_sound `{SortSlice} (cancelled : nat -> nat -> bool)
    (files : list qmdlFile) (offsets : gmap string nat) (servingCells : list servingIdentity)
    (t : targetKind) :
  match analyzeQMDLWindow cancelled files offsets servingCells t with
  | Ok m =>
    counters_ok t m (ParseSuccessCount m) /\ Forall (cell_ok servingCells) (Cells m) /\
    NRCellCount m = length (List.filter (has_RAT "NR") (Cells m)) /\
    LTECellCount m = length (List.filter (has_RAT "LTE") (Cells m))
  | Err ErrCancelled => exists file n, cancelled file n = true
  | Err (ErrOpen path) => mkFile path None ∈ files
  | Panic => False
  end.
Proof.
  pose proof (analyze_window_no_panic cancelled files offsets servingCells t) as Hnp.
  destruct (analyzeQMDLWindow cancelled files offsets servingCells t) as [m|e|] eqn:Ha; [|clear Hnp|done].
  - by apply analyze_window_ok in Ha.
  - unfold analyzeQMDLWindow in Ha. destruct (go_fold _ _ files) as [[i p]|e'|] eqn:Hf; try done.
    injection Ha as ->. apply analyze_files_err in Hf. by destruct e.
Qed.

(** the cells of a capture are exactly the groups of usable reports: after
    correlation, one cell per technology, channel and PCI for which some direct
    report with a channel and an RSRP between -140 and -30 dBm of a non-serving
    cell exists, with the number of those reports, the last band they name and
    the median of their RSRP, ordered by technology, channel and PCI without
    repetition. *)
Theorem finish_cells_exact `{SortSlice} (t : targetKind) (p : qshParser) :
  parser_ok t p ->
  exists keys, StronglySorted (fun a b => key_less a b = true) keys /\ NoDup keys /\
    (forall k, k ∈ keys <-> exists r, r ∈ reports (correlateNRReports p) /\
       report_key r = k /\ counts (correlateNRReports p) r) /\
    Cells (metrics (finish p)) = (fun k =>
      let rs := usable (correlateNRReports p) k in
      cell_of k (mkAggregate (last_band rs) (r_rsrp <$> rs))) <$> keys.
Proof.
  intros Hok. destruct (finish_cells t p Hok) as (keys & Hs & Hin & Hc & _).
  exists keys. split_and!; [done| | |exact Hc].
  - clear -Hs. induction Hs as [|k keys Hs IH Hk]; constructor; [|done].
    intros Hin. apply (proj1 (Forall_forall _ _) Hk) in Hin.
    by rewrite (sw_irrefl _ key_less_sw) in Hin.
  - intros k. rewrite Hin. unfold usable. split.
    + intros Hne. destruct (filter _ _) as [|r l] eqn:Hf; [done|].
      assert (Hr : r ∈ r :: l) by left. rewrite <- Hf in Hr.
      apply list_elem_of_filter in Hr as [[? ?] ?]. by exists r.
    + intros (r & Hr & Hk & Hsk) Hf.
      assert (Hr' : r ∈ filter (fun r => counts (correlateNRReports p) r /\
        report_key r = k) (reports (correlateNRReports p))) by by apply list_elem_of_filter.
      rewrite Hf in Hr'. by apply elem_of_nil in Hr'.
Qed.

Lemma sample_parser_ok : parser_ok targetCombined sample_parser.
Proof.
  constructor; simpl; try done.
  - apply Forall_cons_2; [right; simpl; lia|].
    apply Forall_cons_2; [left; simpl; split_and!; done || lia|constructor].
  - apply Forall_cons_2; [unfold candidate_ok; simpl; lia|constructor].
Qed.

Example finish_cells_exact_witness :
  length (Cells (metrics (finish sample_parser))) = 2%nat /\
  exists keys : list aggregateKey, NoDup keys /\ length keys = 2%nat.
Proof.
  destruct (finish_cells_exact targetCombined sample_parser sample_parser_ok)
    as (keys & _ & Hnd & _ & Hc).
  assert (Hl : length (Cells (metrics (finish sample_parser))) = 2%nat)
    by (vm_compute; reflexivity).
  split; [exact Hl|]. exists keys. split; [exact Hnd|].
  rewrite Hc, length_fmap in Hl. exact Hl.
Defined.

(** an NR report takes its channel and band from a nearest candidate: one
    of the same file and PCI whose frame number is at minimal distance; without
    such a candidate, and for LTE, the report is left as it is, so an NR report
    without a channel never becomes a cell. *)
Theorem correlate_nearest (cs : list qshCandidate) (r : qshReport) :
  let same c := c ∈ cs /\ c_file c = r_file r /\ c_pci c = r_pci r in
  (r_rat r = 0 /\ exists c, same c /\
     (forall c', same c' ->
        unsignedDistance (c_seq c) (r_seq r) <= unsignedDistance (c_seq c') (r_seq r)) /\
     correlate_report cs r = mkReport (r_seq r) (r_file r) (r_rat r) (r_pci r) (c_arfcn c)
       (c_band c) (r_rsrp r) (r_direct r) (r_requiresARFCN r)) \/
  (correlate_report cs r = r /\ (r_rat r <> 0 \/ forall c, ~ same c)).
Proof.
  intros same. unfold correlate_report. destruct (r_rat r =? 0) eqn:Hrat; simpl; bool_to_prop; [|by auto].
  unfold best_candidate. pose proof (scan_candidate_spec r cs None) as H.
  destruct (fold_left _ _ _) as [[c d]|]; simpl.
  - left. destruct H as ([(Hc & Hf & Hp & ->)|] & Hmin & _); [|done].
    split; [done|]. exists c. split; [done|]. split; [|done].
    intros c' (? & ? & ?). by apply Hmin.
  - right. destruct H as [_ Hno]. split; [done|]. right. intros c (Hc & Hf & Hp). by apply (Hno c).
Qed.

(** the RSRP decoders reject what is outside their range and keep what
    they accept inside it: an accepted LTE value lies between -140 and -30 dBm
    after the conversion from dBm or tenths of a dBm and the rounding to
    hundredths, and every raw word in either range is accepted. *)
Theorem decodeLTERSRP_bounds (raw : Z) :
  let '(value, ok) := decodeLTERSRP raw in
  if ok : bool
  then fleb (f_of_Z (-140)) value && fleb value (f_of_Z (-30)) = true /\ -1400 <= raw <= -30
  else ~ (-140 <= raw <= -30) /\ ~ (-1400 <= raw <= -300).
Proof.
  destruct (decide (-1400 <= raw <= -30)) as [Hr|Hr].
  - assert (Hall : forallb (fun raw =>
      let '(value, ok) := decodeLTERSRP raw in
      if ok : bool then fleb (f_of_Z (-140)) value && fleb value (f_of_Z (-30))
      else negb ((-140 <=? raw) && (raw <=? -30)) && negb ((-1400 <=? raw) && (raw <=? -300)))
      (seqZ (-1400) 1371) = true) by (vm_compute; reflexivity).
    rewrite forallb_forall in Hall. specialize (Hall raw).
    rewrite <- list_elem_of_In, elem_of_seqZ in Hall. specialize (Hall ltac:(lia)).
    destruct (decodeLTERSRP raw) as [value [|]]; [done|].
    apply andb_true_iff in Hall as [H1 H2]. bool_to_prop.
    apply andb_false_iff in H1. apply andb_false_iff in H2. lia.
  - unfold decodeLTERSRP.
    destruct (_ && _) eqn:H1; bool_to_prop; [lia|]. apply andb_false_iff in H1.
    destruct ((-1400 <=? raw) && _) eqn:H2; bool_to_prop; [lia|]. apply andb_false_iff in H2. lia.
Qed.
