(* ===== verification/ReducerRunner.v ===== *)
(** The device runner of the trace reducer,
    [src/tools/u60-qtrace-reducer/runner.go] and [report.go]: one [diag_mdlog]
    capture under a mask configuration, the zero-mask clean-up around it, the
    run record of a candidate.

    The world is the files the reducer writes, its lock, the processes it has
    started and a log of what it did.  The device is an environment: the outcome
    of every system call, and for every process started what happens to it and
    which log files it leaves. *)

From S2P Require Import Prelude.
From S2P Require Import Effects.
From S2P Require Import GoInt.
From S2P Require Import GoFloat.
From S2P Require Import GoSort.
From S2P Require Import GoStrings.
From S2P Require Import Hdlc.
From S2P Require Import QTraceConfig.
From S2P Require Import ReducerQmdl.
Open Scope string_scope.
Open Scope Z_scope.

(** * Data *)

Definition target_string (t : targetKind) : string :=
  match t with targetNR => "nr" | targetLTE => "lte" | targetCombined => "combined" end.

Definition private_string (p : privateMode) : string :=
  match p with
  | privateNone => "none" | privateBoth => "both"
  | private9001 => "0x44/0x9001-only" | private0004 => "0x55/0x0004-only"
  end.

Definition millisecond : Z := 1000000.
Definition second : Z := 1000 * millisecond.

(** [Duration.Milliseconds]. *)
Definition Milliseconds (d : Z) : Z := Z.quot d millisecond.

(** Configuration and report writer are never nil: [makeRunner] sets both.
    [Settle], [Poll] and [StopGrace] only decide when events of the environment
    come; the operations do not read them. *)
Record deviceOptions := mkOptions {
  Config : qtraceConfig; WorkDir : string; DiagMDLog : string;
  Settle : Z; Drain : Z; Poll : Z; StopGrace : Z;
  KeepCaptures : bool; FileSizeMB : Z; FileCount : Z; ReportDir : string }.

Inductive batchError :=
| ErrSystem (call : string)                 (** error of a system call *)
| ErrLockHeld (owner : string)
| ErrDiagRunning (processes : list string)
| ErrConfig (e : configError)
| ErrCandidate (e : configError)            (** the generated candidate does not parse *)
| ErrContext
| ErrSettleExit (exit : string)
| ErrEarlyExit (exit : string)
| ErrAnalysis (e : qmdlError)
| ErrPreCleanup (e : batchError)
| ErrJoined (first second : batchError)
| ErrPanic.                                 (** a run-time panic; excluded by theorem *)

Record captureOutcome := mkOutcome {
  Metrics : captureMetrics; FirstHitLatency : option Z; FirstHitIsUpperBound : bool;
  CaptureDuration : Z; CaptureDirectory : string; DiagExit : string }.
Definition noOutcome : captureOutcome := mkOutcome noMetrics None false 0 "" "".

(** [Metadata], which nothing sets, is left out; [FailureReason] is the error. *)
Inductive failureReason := NoFailure | FailedCapture (e : batchError) | FailedCleanup (e : batchError) | NoTarget.

Record runRecord := mkRecord {
  RunID : string; Timestamp : string; Stage : string; ControlGroup : string; Target : targetKind;
  Attempt : Z; CandidateFrameIDs : list nat; CandidateSSIDs : list Z; CandidateMaskBits : list Z;
  PrivateCommandState : string; PositiveControlStatus : bool; CaptureDurationMS : Z;
  FirstHitLatencyMS : option Z; rr_FirstHitIsUpperBound : bool;
  rr_QSHFrameCount : nat; rr_QSHTotalBytes : Z; rr_TargetHashCount : nat; rr_ParseSuccessCount : nat;
  rr_ParseErrorCount : nat; rr_NRCellCount : nat; rr_LTECellCount : nat; rr_CapturedBytes : Z;
  rr_MalformedFrames : nat; Result : bool; FailureReason : failureReason; rr_Cells : list parsedCell;
  rr_CaptureDirectory : string; rr_DiagExit : string; MaskApplyReference : string }.
Definition noRecord : runRecord :=
  mkRecord "" "" "" "" targetNR 0 [] [] [] "" false 0 None false 0 0 0 0 0 0 0 0 0 false NoFailure [] "" "" "".

(** What the reducer did, in order. *)
Inductive event :=
| Started (args : list string) (config : list Z)   (** [diag_mdlog] runs with this configuration file *)
| Stopped (exit : string)                          (** it has ended *)
| Wrote (path : string) (data : list Z)            (** a file was replaced as a whole *)
| Locked | Unlocked                                (** the lock file *)
| Signalled                                        (** SIGTERM to the remembered process *)
| Recorded (r : runRecord).                        (** a line of runs.jsonl *)

Record world := mkWorld {
  w_calls : nat;                       (** system calls so far *)
  w_runs : nat;                        (** processes started so far *)
  w_files : gmap string (list Z);
  w_temps : gmap nat (list Z);         (** files [CreateTemp] made, by the call *)
  w_serial : Z;
  w_locked : bool;
  w_active : option nat;               (** [options.active], by number of the process *)
  w_log : list event }.

Abbreviation M := (ST world).

(** ** The environment *)

(** An entry of a capture directory; [None] when it cannot be opened. *)
Record dirEntry := mkEntry { en_name : string; en_dir : bool; en_content : option (list Z) }.

Inductive settleEvent := SettleElapsed | SettleExit (err : option string) | SettleCancelled.

(** One turn of the polling loop: the time at its head, and what [select]
    chose.  At a tick: the time after the analysis, the directory, and when the
    context was found done. *)
Inductive pollChoice :=
| PollTick (elapsed : Z) (dir : option (list dirEntry)) (cancelled : nat -> nat -> bool)
| PollExit (err : option string)
| PollCancelled.
Record pollEvent := mkPoll { pe_now : Z; pe_choice : pollChoice }.

(** What becomes of a process after SIGTERM. *)
Inductive stopEvent := StopExit (err : option string) | StopKill (err : option string).

Record captureRun := mkCapture {
  cr_settle : settleEvent; cr_start : option (list dirEntry); cr_polls : list pollEvent;
  cr_stop : stopEvent; cr_final : option (list dirEntry); cr_cancelled : nat -> nat -> bool }.

(** A JSON value decoded with [UseNumber]; [JOther] carries the text
    [fmt.Sprint] gives. *)
Inductive jsonValue := JString (s : string) | JNumber (s : string) | JNull | JOther (printed : string).

Class Device := mkDevice {
  dv_ok : nat -> bool;                              (** the n-th call succeeds *)
  dv_pidof : nat -> string * bool;                  (** output of pidof, and whether it failed *)
  dv_cmdline : nat -> Z -> string;
  dv_getpid : Z;
  dv_owner : nat -> string;                         (** contents of a held lock file *)
  dv_stamp : nat -> string;                         (** the clock, formatted *)
  dv_ubus : nat -> option (gmap string jsonValue);
  dv_capture : nat -> captureRun }.

(** ** Pure helpers *)

(** The defaults [acquire] fills in. *)
Definition with_defaults (o : deviceOptions) : deviceOptions :=
  mkOptions (Config o) (WorkDir o) (if bool_decide (DiagMDLog o = "") then "diag_mdlog" else DiagMDLog o)
    (Settle o) (Drain o) (if Poll o <=? 0 then 250 * millisecond else Poll o)
    (if StopGrace o <=? 0 then 2 * second else StopGrace o) (KeepCaptures o)
    (if FileSizeMB o <=? 0 then 4 else FileSizeMB o) (if FileCount o <=? 0 then 32 else FileCount o)
    (ReportDir o).

Definition formatExit (err : option string) : string := default "exit=0" err.

Definition safe_rune (r : option ascii) : ascii :=
  match r with
  | Some c => if is_letter c || is_digit c || (ord c =? 45) || (ord c =? 95) || (ord c =? 46) then c else chr 45
  | None => chr 45
  end.
Definition sanitizeName (value : string) : string :=
  TrimFunc (fun c => ord c =? 45) (Map safe_rune value).

Definition qmdl_entry (dir : string) (e : dirEntry) : option qmdlFile :=
  if en_dir e || negb (HasPrefix (en_name e) "diag_log_") || negb (HasSuffix (en_name e) ".qmdl") then None
  else Some (mkFile (path_Join [dir; en_name e]) (en_content e)).

Definition path_less (a b : qmdlFile) : bool := string_less (fl_path a) (fl_path b).

(** The paths of [findQMDLFiles], each with what opening it gives. *)
Definition findQMDLFiles `{SortSlice} (dir : string) (entries : option (list dirEntry)) : list qmdlFile :=
  match entries with
  | None => []
  | Some entries => sortSlice path_less (omap (qmdl_entry dir) entries)
  end.

Definition snapshotQMDLSizes `{SortSlice} (dir : string) (entries : option (list dirEntry)) : gmap string nat :=
  fold_left (fun sizes f =>
    match fl_content f with Some content => <[fl_path f := length content]> sizes | None => sizes end)
    (findQMDLFiles dir entries) ∅.

(** [strconv.ParseUint(s, 10, 32)] with the value it returns beside an error:
    the largest word when the number does not fit, zero otherwise. *)
Fixpoint parse_word (n : Z) (l : list ascii) : Z * bool :=
  match l with
  | [] => (n, true)
  | c :: l =>
    match digit_of 10 c with
    | None => (0, false)
    | Some d => let n := n * 10 + d in if 2 ^ 32 <=? n then (2 ^ 32 - 1, false) else parse_word n l
    end
  end.

Definition mapUint (values : gmap string jsonValue) (key : string) : Z * bool :=
  match values !! key with
  | None | Some JNull => (0, false)
  | Some (JString s | JNumber s | JOther s) =>
    let text := TrimSpace s in
    if bool_decide (text = "") || bool_decide (text = "-") || EqualFold text "null" then (0, false)
    else parse_word 0 (chars text)
  end.

(** The channel is taken whether or not it was readable. *)
Definition serving_of (snapshot : gmap string jsonValue) : list servingIdentity :=
  ((let '(pci, ok) := mapUint snapshot "lte_pci" in
    if ok && (pci <=? 503) then [mkServing "LTE" pci (mapUint snapshot "wan_active_channel").1] else []) ++
   (let '(pci, ok) := mapUint snapshot "nr5g_pci" in
    if ok && (pci <=? 1007) then [mkServing "NR" pci (mapUint snapshot "nr5g_action_channel").1] else []))%list.

Definition diagArguments (o : deviceOptions) (configPath runDir : string) : list string :=
  ["-f"; configPath; "-o"; runDir; "-s"; Itoa (FileSizeMB o); "-n"; Itoa (FileCount o); "-d"].

(** [%03d]. *)
Definition pad3 (n : Z) : string :=
  let s := Itoa n in
  String.append (match strlen s with 1%nat => "00" | 2%nat => "0" | _ => "" end) s.

(** [nextID]'s format. *)
Definition run_id (stamp prefix : string) (serial : Z) : string :=
  Join [stamp; prefix; pad3 serial] "-".

(** What the polling loop leaves behind. *)
Inductive pollEnd := PollDeadline | PollExited (exit : string) | PollContext.

(** [errors.Join]. *)
Definition join_errors (a b : option batchError) : option batchError :=
  match a, b with
  | None, None => None
  | Some e, None | None, Some e => Some e
  | Some e, Some e' => Some (ErrJoined e e')
  end.

(** * Operations *)

Section Runner.
Context `{SortSlice} `{Device}.
Context (o : deviceOptions).

(** ** System calls *)

Definition attempt : M bool := fun w =>
  (dv_ok (w_calls w),
   mkWorld (S (w_calls w)) (w_runs w) (w_files w) (w_temps w) (w_serial w) (w_locked w) (w_active w) (w_log w)).

Definition fallible (call : string) : M (option batchError) :=
  ok ← attempt; mret (if ok : bool then None else Some (ErrSystem call)).

(** A call that answers with something else than success; it is counted too. *)
Definition ask {A} (answer : nat -> A) : M A :=
  w ← st_get; _ ← attempt; mret (answer (w_calls w)).

Definition log_event (e : event) : M unit := st_modify (fun w =>
  mkWorld (w_calls w) (w_runs w) (w_files w) (w_temps w) (w_serial w) (w_locked w) (w_active w)
    (w_log w ++ [e])%list).
Definition set_files (f : gmap string (list Z) -> gmap string (list Z)) : M unit := st_modify (fun w =>
  mkWorld (w_calls w) (w_runs w) (f (w_files w)) (w_temps w) (w_serial w) (w_locked w) (w_active w) (w_log w)).
Definition set_temps (f : gmap nat (list Z) -> gmap nat (list Z)) : M unit := st_modify (fun w =>
  mkWorld (w_calls w) (w_runs w) (w_files w) (f (w_temps w)) (w_serial w) (w_locked w) (w_active w) (w_log w)).
Definition set_active (a : option nat) : M unit := st_modify (fun w =>
  mkWorld (w_calls w) (w_runs w) (w_files w) (w_temps w) (w_serial w) (w_locked w) a (w_log w)).
Definition set_locked (locked : bool) : M unit := st_modify (fun w =>
  mkWorld (w_calls w) (w_runs w) (w_files w) (w_temps w) (w_serial w) locked (w_active w)
    (w_log w ++ [if locked then Locked else Unlocked])%list).

(** [writeFileAtomic] of config.go; its deferred function removes the temporary
    file unless the rename happened. *)
Definition discard_temp (tmp : nat) (call : string) : M (option batchError) :=
  ok ← attempt;
  _ ← set_temps (fun temps => if ok : bool then delete tmp temps else temps);
  mret (Some (ErrSystem call)).

Definition temp_step (tmp : nat) (call : string) (k : M (option batchError)) : M (option batchError) :=
  ok ← attempt; if ok : bool then k else discard_temp tmp call.

Definition writeFileAtomic (path : string) (data : list Z) : M (option batchError) :=
  and_then (fallible "mkdir") (
  tmp ← ask id;
  and_then (fallible "create") (
  _ ← set_temps <[tmp := []]>;
  temp_step tmp "chmod" (
  temp_step tmp "write" (
  _ ← set_temps <[tmp := data]>;
  temp_step tmp "sync" (
  temp_step tmp "close" (
  temp_step tmp "rename" (
  _ ← set_temps (delete tmp);
  _ ← set_files <[path := data]>;
  _ ← log_event (Wrote path data);
  mret None))))))).

(** ** Processes *)

Definition nul_to_space (s : string) : string :=
  of_chars ((fun c => if ord c =? 0 then chr 32 else c) <$> chars s).

(** The other [diag_mdlog] processes of a [pidof] answer. *)
Definition active_process (n : nat) (field : string) : option string :=
  match Atoi field with
  | None => None
  | Some pid =>
    if pid =? dv_getpid then None
    else Some (String.append "pid=" (String.append (Itoa pid) (String.append " cmd="
           (TrimSpace (nul_to_space (dv_cmdline n pid))))))
  end.

Definition ensureNoDiagMDLog : M (option batchError) :=
  n ← ask id;
  let '(out, failed) := dv_pidof n in
  if failed && bool_decide (out = "") then mret None else
  match omap (active_process n) (Fields out) with
  | [] => mret None
  | active => mret (Some (ErrDiagRunning active))
  end.

(** SIGTERM, then SIGKILL after the grace period; the process has ended when
    it returns. *)
Definition terminateCommand (run : captureRun) : M string :=
  let exit := match cr_stop run with
              | StopExit err => formatExit err
              | StopKill err => String.append "forced-kill: " (formatExit err)
              end in
  _ ← log_event (Stopped exit); mret exit.

Definition clearActive (command : nat) : M unit :=
  w ← st_get; if decide (w_active w = Some command) then set_active None else mret tt.

Definition stopActive : M unit :=
  w ← st_get; match w_active w with None => mret tt | Some _ => log_event Signalled end.

(** [acquire] after its defaults: the lock is dropped again when a later step
    fails. *)
Definition unlock_on_error (m : M (option batchError)) : M (option batchError) :=
  e ← m;
  match e with None => mret None | Some err => _ ← set_locked false; mret (Some err) end.

Definition release : M unit :=
  _ ← stopActive;
  w ← st_get; if w_locked w then set_locked false else mret tt.

Definition acquire : M (option batchError) :=
  and_then (fallible "mkdir") (
  and_then (fallible "open") (
  n ← ask id;
  if negb (dv_ok n) then mret (Some (ErrLockHeld (TrimSpace (dv_owner n)))) else
  _ ← set_locked true;
  and_then (unlock_on_error (fallible "truncate")) (
  and_then (unlock_on_error (fallible "seek")) (
  _ ← attempt;                                       (* the pid is written for information *)
  e ← ensureNoDiagMDLog;
  match e with None => mret None | Some err => _ ← release; mret (Some err) end)))).

(** ** A capture *)

(** The polling loop: the first hit, the last metrics and how it ended.  An
    analysis that fails changes nothing; it never panics. *)
Fixpoint poll_loop (runDir : string) (baseline : gmap string nat) (serving : list servingIdentity)
    (target : targetKind) (window : Z) (events : list pollEvent)
    (firstHit : option Z) (latest : captureMetrics) : option Z * captureMetrics * pollEnd :=
  match events with
  | [] => (firstHit, latest, PollDeadline)
  | e :: events =>
    if negb (pe_now e <? window) then (firstHit, latest, PollDeadline) else
    match pe_choice e with
    | PollCancelled => (firstHit, latest, PollContext)
    | PollExit err => (firstHit, latest, PollExited (formatExit err))
    | PollTick elapsed dir cancelled =>
      match analyzeQMDLWindow cancelled (findQMDLFiles runDir dir) baseline serving target with
      | Ok metrics =>
        poll_loop runDir baseline serving target window events
          (match firstHit with
           | None => if matches metrics target then Some elapsed else None
           | Some hit => Some hit
           end) metrics
      | _ => poll_loop runDir baseline serving target window events firstHit latest
      end
    end
  end.

(** The outcome once the process has ended. *)
Definition capture_outcome (run : captureRun) (runDir : string) (baseline : gmap string nat)
    (serving : list servingIdentity) (target : targetKind) (window : Z)
    (firstHit : option Z) (latest : captureMetrics) (diagExit : string) (exitedEarly : bool)
    : captureOutcome * option batchError :=
  let '(latest, parseErr) :=
    match analyzeQMDLWindow (cr_cancelled run) (findQMDLFiles runDir (cr_final run)) baseline serving target with
    | Ok final => (final, None)
    | Err e => (latest, Some (ErrAnalysis e))
    | Panic => (latest, Some ErrPanic)
    end in
  let upperBound := match firstHit with None => matches latest target | Some _ => false end in
  let firstHit := if upperBound then Some window else firstHit in
  let outcome := mkOutcome latest firstHit upperBound window
                   (if KeepCaptures o then runDir else "") diagExit in
  (outcome,
   match parseErr with
   | Some e => Some e
   | None => if exitedEarly then Some (ErrEarlyExit diagExit) else None
   end).

Definition remove_all (dir : string) (files : gmap string (list Z)) : gmap string (list Z) :=
  filter (fun kv => HasPrefix kv.1 (String.append dir "/") = false) files.

(** From the start of the process to the result. *)
Definition run_process (command : nat) (run : captureRun) (runDir : string) (target : targetKind)
    (window : Z) (serving : list servingIdentity) : M (captureOutcome * option batchError) :=
  match cr_settle run with
  | SettleCancelled => _ ← terminateCommand run; mret (noOutcome, Some ErrContext)
  | SettleExit err =>
    _ ← log_event (Stopped (formatExit err));
    _ ← clearActive command;
    mret (noOutcome, Some (ErrSettleExit (formatExit err)))
  | SettleElapsed =>
    let baseline := snapshotQMDLSizes runDir (cr_start run) in
    let '(firstHit, latest, ended) :=
      poll_loop runDir baseline serving target window (cr_polls run) None noMetrics in
    match ended with
    | PollContext =>
      _ ← terminateCommand run; _ ← clearActive command; mret (noOutcome, Some ErrContext)
    | _ =>
      diagExit ← (match ended with
                  | PollExited exit => _ ← log_event (Stopped exit); mret exit
                  | _ => terminateCommand run
                  end);
      _ ← clearActive command;
      _ ← (if KeepCaptures o then mret tt
           else ok ← attempt; set_files (if ok : bool then remove_all runDir else id));
      mret (capture_outcome run runDir baseline serving target window firstHit latest diagExit
              (match ended with PollExited _ => true | _ => false end))
    end
  end.

Definition runDiagCapture (name : string) (frames : list diagFrame) (target : targetKind)
    (window : Z) (serving : list servingIdentity) : M (captureOutcome * option batchError) :=
  let failed (m : M (option batchError)) (k : M (captureOutcome * option batchError)) :=
    e ← m; match e with Some err => mret (noOutcome, Some err) | None => k end in
  failed ensureNoDiagMDLog (
  let runDir := path_Join [WorkDir o; "captures"; sanitizeName name] in
  failed (fallible "mkdir") (
  let configPath := path_Join [runDir; "candidate.cfg"] in
  let configData := encodeConfig frames in
  match parseQTraceConfigBytes configData with
  | Err e => mret (noOutcome, Some (ErrCandidate e))
  | Panic => mret (noOutcome, Some ErrPanic)
  | Ok _ =>
    failed (writeFileAtomic configPath configData) (
    failed (fallible "open") (
    failed (fallible "start") (
    w ← st_get;
    let command := w_runs w in
    _ ← log_event (Started (DiagMDLog o :: diagArguments o configPath runDir)
                     (default [] (w_files w !! configPath)));
    _ ← st_modify (fun w => mkWorld (w_calls w) (S (w_runs w)) (w_files w) (w_temps w) (w_serial w)
                              (w_locked w) (w_active w) (w_log w));
    _ ← set_active (Some command);
    run_process command (dv_capture command) runDir target window serving)))
  end)).

(** ** A candidate *)

Definition cleanup (label : string) : M (option batchError) :=
  match zeroMessageFrames (Config o) with
  | Err e => mret (Some (ErrConfig e))
  | Panic => mret (Some ErrPanic)
  | Ok zero =>
    r ← runDiagCapture (String.append "cleanup-" label) zero targetCombined (Drain o) [];
    mret r.2
  end.

Definition nextID (prefix : string) : M string :=
  stamp ← ask dv_stamp;
  _ ← st_modify (fun w => mkWorld (w_calls w) (w_runs w) (w_files w) (w_temps w) (w_serial w + 1)
                            (w_locked w) (w_active w) (w_log w));
  w ← st_get;
  mret (run_id stamp prefix (w_serial w)).

Definition readServingIdentities : M (list servingIdentity) :=
  snapshot ← ask dv_ubus;
  mret (match snapshot with None => [] | Some snapshot => serving_of snapshot end).

(** [reportWriter.Write]: encoding, the line, its sync, the row, its sync. *)
Definition Write (record : runRecord) : M (option batchError) :=
  and_then (fallible "marshal") (
  and_then (fallible "write") (
  _ ← log_event (Recorded record);
  and_then (fallible "sync") (
  and_then (fallible "csv") (
  and_then (fallible "flush") (
  fallible "sync"))))).

Definition record_of (runID stamp stage control : string) (target : targetKind) (frameIDs : list nat)
    (private : privateMode) (privateState : string) (attempt : Z) (positiveOK : bool)
    (outcome : captureOutcome) (captureErr cleanupErr : option batchError) : runRecord :=
  let m := Metrics outcome in
  mkRecord runID stamp stage control target attempt frameIDs (allSSIDs (Config o) frameIDs) []
    (if bool_decide (privateState = "") then private_string private else privateState) positiveOK
    (Milliseconds (CaptureDuration outcome)) (Milliseconds <$> FirstHitLatency outcome)
    (FirstHitIsUpperBound outcome) (QSHFrameCount m) (QSHTotalBytes m) (TargetHashCount m)
    (ParseSuccessCount m) (ParseErrorCount m) (NRCellCount m) (LTECellCount m) (CapturedBytes m)
    (MalformedFrames m)
    (match captureErr, cleanupErr with None, None => matches m target | _, _ => false end)
    (match captureErr, cleanupErr with
     | Some e, _ => FailedCapture e
     | None, Some e => FailedCleanup e
     | None, None => if matches m target then NoFailure else NoTarget
     end)
    (Cells m) (CaptureDirectory outcome) (DiagExit outcome) "end of configured settle interval".

Definition testCandidate (stage control : string) (target : targetKind) (frameIDs : list nat)
    (zeroMasks : bool) (private : privateMode) (privateState : string) (attempt : Z) (positiveOK : bool)
    (window : Z) : M (runRecord * option batchError) :=
  e ← ensureNoDiagMDLog;
  match e with Some err => mret (noRecord, Some err) | None =>
  e ← cleanup "before";
  match e with Some err => mret (noRecord, Some (ErrPreCleanup err)) | None =>
  match selectFrames (Config o) frameIDs zeroMasks private with
  | Err e => mret (noRecord, Some (ErrConfig e))
  | Panic => mret (noRecord, Some ErrPanic)
  | Ok frames =>
    runID ← nextID (if bool_decide (control = "") then stage else Join [stage; control] "-");
    serving ← readServingIdentities;
    '(outcome, captureErr) ← runDiagCapture runID frames target window serving;
    cleanupErr ← cleanup (String.append "after-" runID);
    stamp ← ask dv_stamp;
    let record := record_of runID stamp stage control target frameIDs private privateState attempt
                    positiveOK outcome captureErr cleanupErr in
    e ← Write record;
    (* the deferred clean-up *)
    _ ← (match cleanupErr with Some _ => cleanup "deferred" | None => mret None end);
    mret (record, match e with Some err => Some err | None => join_errors captureErr cleanupErr end)
  end end end.

Definition emergencyRelease : M unit :=
  _ ← stopActive; _ ← cleanup "process-exit"; release.

End Runner.

(** * What the log says *)

(** The configurations applied, in order. *)
Definition applied_of (e : event) : option (list Z) :=
  match e with Started _ config => Some config | _ => None end.
Definition applied (ev : list event) : list (list Z) := omap applied_of ev.

Definition recorded_of (e : event) : option runRecord :=
  match e with Recorded r => Some r | _ => None end.
Definition recorded (ev : list event) : list runRecord := omap recorded_of ev.

(** Every process started has ended before anything else happens. *)
Inductive bracketed : list event -> Prop :=
| bracketed_nil : bracketed []
| bracketed_run args config exit ev : bracketed ev -> bracketed (Started args config :: Stopped exit :: ev)
| bracketed_record r ev : bracketed ev -> bracketed (Recorded r :: ev)
| bracketed_wrote path data ev : bracketed ev -> bracketed (Wrote path data :: ev)
| bracketed_signal ev : bracketed ev -> bracketed (Signalled :: ev).

Fixpoint no_panic (e : batchError) : Prop :=
  match e with
  | ErrPanic => False
  | ErrPreCleanup e => no_panic e
  | ErrJoined a b => no_panic a /\ no_panic b
  | _ => True
  end.
Definition clean_error (e : option batchError) : Prop := match e with Some e => no_panic e | None => True end.

(** The lock after a list of events. *)
Definition lock_step (locked : bool) (e : event) : bool :=
  match e with Locked => true | Unlocked => false | _ => locked end.
Definition lock_after (locked : bool) (ev : list event) : bool := fold_left lock_step ev locked.

(** The events between two worlds. *)
Definition grew (w w' : world) (ev : list event) : Prop :=
  w_log w' = (w_log w ++ ev)%list /\ w_locked w' = lock_after (w_locked w) ev.

(** [m] returns and appends to the log as [P] says, from every world. *)
Definition Does {A} (m : M A) (P : A -> list event -> Prop) : Prop :=
  forall w, wp m (fun a w' => exists ev, grew w w' ev /\ P a ev) w.

Lemma grew_nil w w' : w_log w' = w_log w -> w_locked w' = w_locked w -> grew w w' [].
Proof. intros Hl Hk. split; [by rewrite Hl, app_nil_r|done]. Qed.

Lemma grew_refl w : grew w w [].
Proof. by apply grew_nil. Qed.

Lemma grew_trans w1 w2 w3 ev1 ev2 : grew w1 w2 ev1 -> grew w2 w3 ev2 -> grew w1 w3 (ev1 ++ ev2).
Proof.
  intros [H1 K1] [H2 K2]. split; [by rewrite H2, H1, app_assoc|].
  rewrite K2, K1. unfold lock_after. by rewrite fold_left_app.
Qed.

Lemma bracketed_lock b ev : bracketed ev -> lock_after b ev = b.
Proof. unfold lock_after. induction 1; simpl; auto. Qed.

Lemma applied_app a b : applied (a ++ b) = (applied a ++ applied b)%list.
Proof. apply omap_app. Qed.

Lemma recorded_app a b : recorded (a ++ b) = (recorded a ++ recorded b)%list.
Proof. apply omap_app. Qed.

Lemma bracketed_app a b : bracketed a -> bracketed b -> bracketed (a ++ b).
Proof. induction 1; intros; simpl; [done|constructor; auto..]. Qed.

Lemma does_mono {A} (m : M A) (P Q : A -> list event -> Prop) :
  Does m P -> (forall a ev, P a ev -> Q a ev) -> Does m Q.
Proof. intros Hm HPQ w. eapply wp_mono; [apply Hm|]. intros a w' (ev & ? & ?). eauto. Qed.

Lemma does_ret {A} (a : A) : Does (mret a) (fun b ev => b = a /\ ev = []).
Proof. intros w. apply wp_ret. exists []. split; [apply grew_refl|done]. Qed.

Lemma does_bind {A B} (m : M A) (f : A -> M B) P Q :
  Does m P -> (forall a ev, P a ev -> Does (f a) (fun b ev' => Q b (ev ++ ev')%list)) -> Does (m ≫= f) Q.
Proof.
  intros Hm Hf w. apply wp_bind. eapply wp_mono; [apply Hm|]. intros a w1 (ev & Hw1 & HP).
  eapply wp_mono; [by apply Hf|]. intros b w2 (ev' & Hw2 & HQ).
  exists (ev ++ ev')%list. split; [by eapply grew_trans|done].
Qed.

(** A step that logs nothing: only its value matters. *)
Lemma does_quiet {A B} (m : M A) (f : A -> M B) P Q :
  Does m (fun a ev => ev = [] /\ P a) -> (forall a, P a -> Does (f a) Q) -> Does (m ≫= f) Q.
Proof. intros Hm Hf. eapply does_bind; [exact Hm|]. intros a ev [-> HP]. by apply Hf. Qed.

Lemma does_modify (f : world -> world) :
  (forall w, w_log (f w) = w_log w /\ w_locked (f w) = w_locked w) -> Does (st_modify f) (fun _ ev => ev = []).
Proof. intros Hf w. apply wp_modify. exists []. split; [by apply grew_nil; apply Hf|done]. Qed.

Lemma does_log e :
  (forall b, lock_step b e = b) -> Does (log_event e) (fun _ ev => ev = [e]).
Proof. intros He w. apply wp_modify. exists [e]. split; [|done]. split; [done|]. symmetry. apply He. Qed.

(** ** What a test run does *)

(** The target is present in the counts of a record, and its cells are sound. *)
Definition record_matches (target : targetKind) (r : runRecord) : Prop :=
  match target with
  | targetNR => (0 < rr_NRCellCount r)%nat
  | targetLTE => (0 < rr_LTECellCount r)%nat
  | targetCombined => (0 < rr_NRCellCount r)%nat /\ (0 < rr_LTECellCount r)%nat
  end.
Definition record_sound (r : runRecord) : Prop :=
  exists servingCells, Forall (cell_ok servingCells) (rr_Cells r) /\
    rr_NRCellCount r = length (List.filter (has_RAT "NR") (rr_Cells r)) /\
    rr_LTECellCount r = length (List.filter (has_RAT "LTE") (rr_Cells r)).

(** The test of a candidate refused before its capture, or carried out: [a]
    tells whether the candidate was applied and [k] how often the zero
    configuration was applied after it. *)
Definition refused (zero : list Z) (r : runRecord) (err : option batchError) (ev : list event) : Prop :=
  r = noRecord /\ err <> None /\ recorded ev = [] /\ (applied ev = [] \/ applied ev = [zero]).

Record carried_out (zero cand : list Z) (target : targetKind) (window : Z) (r : runRecord)
    (err : option batchError) (ev : list event) (a k : nat) : Prop := mkCarriedOut {
  co_applied : applied ev = zero :: repeat cand a ++ repeat zero k;
  co_once : (a <= 1)%nat /\ (k <= 2)%nat;
  co_recorded : recorded ev = [r] \/ (recorded ev = [] /\ err <> None);
  co_success : err = None -> a = 1%nat /\ k = 1%nat /\ recorded ev = [r] /\
    CaptureDurationMS r = Milliseconds window /\ record_sound r /\
    (Result r = true <-> record_matches target r);
  co_result : Result r = true ->
    a = 1%nat /\ k = 1%nat /\ record_matches target r /\ record_sound r /\ is_Some (FirstHitLatencyMS r) }.

Definition tested (zero cand : list Z) (target : targetKind) (window : Z)
    (res : runRecord * option batchError) (ev : list event) : Prop :=
  clean_error res.2 /\ bracketed ev /\
  (refused zero res.1 res.2 ev \/
   exists a k, carried_out zero cand target window res.1 res.2 ev a k).

Section Effects.
Context `{SortSlice} `{Device}.

Lemma does_attempt : Does attempt (fun _ ev => ev = []).
Proof. intros w. exists []. split; [by apply grew_nil|done]. Qed.

Lemma does_ask {A} (answer : nat -> A) : Does (ask answer) (fun _ ev => ev = []).
Proof. intros w. exists []. split; [by apply grew_nil|done]. Qed.

Lemma does_fallible call : Does (fallible call) (fun e ev => ev = [] /\ clean_error e).
Proof.
  eapply does_bind; [apply does_attempt|]. intros ok ev ->.
  eapply does_mono; [apply does_ret|]. intros e ev [-> ->]. by destruct ok.
Qed.

Lemma does_and_then {m k : M (option batchError)} P Q :
  Does m P -> (forall e ev, P (Some e) ev -> Q (Some e) ev) ->
  (forall ev, P None ev -> Does k (fun e ev' => Q e (ev ++ ev')%list)) -> Does (and_then m k) Q.
Proof.
  intros Hm Herr Hk. eapply does_bind; [exact Hm|]. intros [e|] ev HP; [|by apply Hk].
  eapply does_mono; [apply does_ret|]. intros a ev' [-> ->]. rewrite app_nil_r. auto.
Qed.

Lemma does_ensure : Does ensureNoDiagMDLog (fun e ev => ev = [] /\ clean_error e).
Proof.
  eapply does_bind; [apply does_ask|]. intros n ev ->. destruct (dv_pidof n) as [out failed].
  destruct (failed && _); [|destruct (omap _ _)];
    (eapply does_mono; [apply does_ret|]; intros e ev [-> ->]; done).
Qed.

Lemma does_quiet_fallible {k : M (option batchError)} call Q :
  (forall e, no_panic e -> Q (Some e) []) -> Does k Q -> Does (and_then (fallible call) k) Q.
Proof.
  intros Herr Hk. eapply does_and_then; [apply does_fallible| |].
  - intros e ev [-> He]. auto.
  - intros ev [-> _]. exact Hk.
Qed.

(** ** Files *)

(** Worlds that differ in nothing but the calls made and the temporary files. *)
Definition same (w w' : world) : Prop :=
  w_log w' = w_log w /\ w_files w' = w_files w /\ w_runs w' = w_runs w /\ w_serial w' = w_serial w /\
  w_locked w' = w_locked w /\ w_active w' = w_active w.

Lemma same_trans w1 w2 w3 : same w1 w2 -> same w2 w3 -> same w1 w3.
Proof. unfold same. intros; destruct_and!; split_and!; congruence. Qed.

Lemma wp_call (Q : bool -> world -> Prop) w :
  (forall ok w', same w w' -> Q ok w') -> wp attempt Q w.
Proof. intros HQ. by apply HQ. Qed.

Lemma wp_set_temps f (Q : unit -> world -> Prop) w :
  (forall w', same w w' -> Q tt w') -> wp (set_temps f) Q w.
Proof. intros HQ. by apply HQ. Qed.

Lemma wp_fallible_call call (Q : option batchError -> world -> Prop) w :
  (forall e w', same w w' -> clean_error e -> Q e w') -> wp (fallible call) Q w.
Proof.
  intros HQ. apply wp_bind, wp_call. intros ok w' Hw. apply wp_ret, HQ; [done|by destruct ok].
Qed.

Lemma wp_discard tmp call (Q : option batchError -> world -> Prop) w :
  (forall e w', same w w' -> Q (Some (ErrSystem e)) w') -> wp (discard_temp tmp call) Q w.
Proof.
  intros HQ. apply wp_bind, wp_call. intros ok w1 H1.
  apply wp_bind, wp_set_temps. intros w2 H2. by eapply wp_ret, HQ, same_trans.
Qed.

(** Either the whole of the data is in the file, or nothing has changed. *)
Definition file_written (path : string) (data : list Z) (w : world) (e : option batchError) (w' : world) : Prop :=
  match e with
  | Some err => same w w' /\ no_panic err
  | None => w_files w' = <[path := data]> (w_files w) /\ w_log w' = (w_log w ++ [Wrote path data])%list /\ w_runs w' = w_runs w /\
            w_serial w' = w_serial w /\ w_locked w' = w_locked w /\ w_active w' = w_active w
  end.

Lemma file_written_same path data w w1 e w' :
  same w w1 -> file_written path data w1 e w' -> file_written path data w e w'.
Proof.
  intros Hs. destruct e as [e|]; simpl.
  - intros [Hs' ?]. split; [|done]. by eapply same_trans.
  - unfold same in Hs. intros. destruct_and!. split_and!; congruence.
Qed.

Lemma wp_temp_step tmp call k path data w :
  (forall w', same w w' -> wp k (file_written path data w') w') ->
  wp (temp_step tmp call k) (file_written path data w) w.
Proof.
  intros Hk. apply wp_bind, wp_call. intros [|] w1 H1.
  - eapply wp_mono; [by apply Hk|]. intros e w'. by apply file_written_same.
  - apply wp_discard. intros e w' H2. split; [by eapply same_trans|done].
Qed.

Lemma wp_writeFileAtomic path data w :
  wp (writeFileAtomic path data) (file_written path data w) w.
Proof.
  apply wp_bind, wp_fallible_call. intros [e|] w1 H1 He; [by apply wp_ret|].
  apply wp_bind, wp_bind, wp_get, wp_bind, wp_call. intros _ w2 H2. apply wp_ret.
  apply wp_bind, wp_fallible_call. intros [e|] w3 H3 He'.
  { apply wp_ret. split; [|done]. by eapply same_trans; [|eapply same_trans]. }
  apply wp_bind, wp_set_temps. intros w4 H4.
  assert (Hs : same w w4) by (eapply same_trans; [exact H1|]; eapply same_trans; [exact H2|]; by eapply same_trans).
  eapply wp_mono; [|intros e w'; by apply file_written_same].
  apply wp_temp_step. intros w5 _. apply wp_temp_step. intros w6 _.
  apply wp_bind, wp_set_temps. intros w7 H7.
  eapply wp_mono; [|intros e w'; by apply file_written_same].
  do 3 (apply wp_temp_step; clear; intros ? _).
  apply wp_bind, wp_set_temps. intros w11 H11. unfold same in H11. destruct_and!.
  apply wp_bind, wp_modify, wp_bind, wp_modify, wp_ret. simpl. split_and!; congruence.
Qed.

Lemma does_writeFileAtomic path data :
  Does (writeFileAtomic path data) (fun e ev => clean_error e /\
    ev = match e with Some _ => [] | None => [Wrote path data] end).
Proof.
  intros w. eapply wp_mono; [apply wp_writeFileAtomic|]. intros [e|] w' Hw; simpl in Hw.
  - exists []. destruct Hw as [Hs He]. split; [by apply grew_nil; apply Hs|done].
  - exists [Wrote path data]. destruct Hw as (_ & Hl & _ & _ & Hk & _). by split; [split|].
Qed.

(** ** Captures *)

(** The outcome of a capture that reports no error. *)
Definition good_outcome (serving : list servingIdentity) (target : targetKind) (window : Z)
    (out : captureOutcome) : Prop :=
  (exists cancelled files baseline,
     analyzeQMDLWindow cancelled files baseline serving target = Ok (Metrics out)) /\
  CaptureDuration out = window /\
  (matches (Metrics out) target = true -> is_Some (FirstHitLatency out)) /\
  (FirstHitIsUpperBound out = true -> FirstHitLatency out = Some window).

Context (o : deviceOptions).

Lemma capture_outcome_good run runDir baseline serving target window firstHit latest exit early :
  let r := capture_outcome o run runDir baseline serving target window firstHit latest exit early in
  clean_error r.2 /\ (r.2 = None -> good_outcome serving target window r.1).
Proof.
  unfold capture_outcome.
  destruct (analyzeQMDLWindow (cr_cancelled run) (findQMDLFiles runDir (cr_final run)) baseline serving target)
    as [m|e|] eqn:Ha; cbn.
  - split; [by destruct early|]. intros _. unfold good_outcome. cbn.
    split; [by eauto|]. split; [done|]. destruct firstHit, (matches m target); cbn; naive_solver.
  - done.
  - by apply analyze_window_no_panic in Ha.
Qed.

(** What the outcome of a capture says, and the log of one process. *)
Definition process_result (serving : list servingIdentity) (target : targetKind) (window : Z)
    (r : captureOutcome * option batchError) (ev : list event) : Prop :=
  (exists exit, ev = [Stopped exit]) /\ clean_error r.2 /\
  (r.2 = None -> good_outcome serving target window r.1).

Lemma does_clearActive command : Does (clearActive command) (fun _ ev => ev = []).
Proof.
  intros w. apply wp_bind, wp_get. destruct (decide _).
  - by apply does_modify.
  - apply wp_ret. exists []. split; [apply grew_refl|done].
Qed.

Lemma does_terminate run : Does (terminateCommand run) (fun exit ev => ev = [Stopped exit]).
Proof.
  eapply does_bind; [by apply does_log|]. intros _ ev ->. eapply does_mono; [apply does_ret|].
  by intros exit ev' [-> ->].
Qed.

Lemma does_finish {A} command (a : A) :
  Does (_ ← clearActive command; mret a) (fun b ev => b = a /\ ev = []).
Proof. eapply does_bind; [apply does_clearActive|]. intros _ ev ->. apply does_ret. Qed.

Lemma does_run_process command run runDir target window serving :
  Does (run_process o command run runDir target window serving) (process_result serving target window).
Proof.
  unfold run_process. destruct (cr_settle run) as [|err|].
  - destruct (poll_loop _ _ _ _ _ _ _ _) as [[firstHit latest] ended].
    set (early := match ended with PollExited _ => true | _ => false end).
    assert (Hend : forall m : M string, Does m (fun exit ev => ev = [Stopped exit]) ->
      Does (diagExit ← m; _ ← clearActive command;
            _ ← (if KeepCaptures o then mret tt
                 else ok ← attempt; set_files (if ok : bool then remove_all runDir else id));
            mret (capture_outcome o run runDir (snapshotQMDLSizes runDir (cr_start run)) serving target
                    window firstHit latest diagExit early))
        (process_result serving target window)).
    { intros m Hm. eapply does_bind; [exact Hm|]. intros exit ev ->.
      eapply does_bind; [apply does_clearActive|]. intros _ ev ->.
      eapply (does_bind _ _ (fun _ ev => ev = [])).
      { destruct (KeepCaptures o).
        - eapply does_mono; [apply does_ret|]. by intros ? ? [_ ->].
        - eapply does_bind; [apply does_attempt|]. intros ok ev ->. apply does_modify. by destruct ok. }
      intros _ ev ->. eapply does_mono; [apply does_ret|]. intros r ev [-> ->].
      split; [by eexists|]. apply capture_outcome_good. }
    destruct ended as [|exit|].
    + apply Hend, does_terminate.
    + apply Hend. eapply does_bind; [by apply does_log|]. intros _ ev ->.
      eapply does_mono; [apply does_ret|]. by intros ? ? [-> ->].
    + eapply does_bind; [apply does_terminate|]. intros exit ev ->.
      eapply does_mono; [apply does_finish|]. intros r ev [-> ->]. by split; [eexists|].
  - eapply does_bind; [by apply does_log|]. intros _ ev ->.
    eapply does_mono; [apply does_finish|]. intros r ev [-> ->]. by split; [eexists|].
  - eapply does_bind; [apply does_terminate|]. intros exit ev ->.
    eapply does_mono; [apply does_ret|]. intros r ev [-> ->]. by split; [eexists|].
Qed.

(** A capture either fails before a process starts, or runs one process under
    exactly the given frames, to its end. *)
Definition captured (frames : list diagFrame) (serving : list servingIdentity) (target : targetKind)
    (window : Z) (r : captureOutcome * option batchError) (ev : list event) : Prop :=
  clean_error r.2 /\
  ((r.2 <> None /\ (ev = [] \/ exists path, ev = [Wrote path (encodeConfig frames)])) \/
   (exists path args exit,
      ev = [Wrote path (encodeConfig frames); Started args (encodeConfig frames); Stopped exit] /\
      (r.2 = None -> good_outcome serving target window r.1))).

Lemma does_runDiagCapture name frames target window serving :
  Does (runDiagCapture o name frames target window serving) (captured frames serving target window).
Proof.
  assert (Hfail : forall e, clean_error (Some e) -> captured frames serving target window (noOutcome, Some e) []).
  { intros e He. split; [done|]. left. by split; [|left]. }
  assert (Hquiet : forall (m : M (option batchError)) k,
    Does m (fun e ev => ev = [] /\ clean_error e) -> Does k (captured frames serving target window) ->
    Does (e ← m; match e with Some err => mret (noOutcome, Some err) | None => k end)
      (captured frames serving target window)).
  { intros m k Hm Hk. eapply does_quiet; [exact Hm|]. intros [e|] He; [|exact Hk].
    eapply does_mono; [apply does_ret|]. intros r ev [-> ->]. by apply Hfail. }
  unfold runDiagCapture. cbv zeta. apply Hquiet; [apply does_ensure|]. apply Hquiet; [apply does_fallible|].
  pose proof (parse_no_panic (encodeConfig frames)) as Hnp.
  destruct (parseQTraceConfigBytes (encodeConfig frames)) as [c|e|]; [|clear Hnp|done].
  2: { eapply does_mono; [apply does_ret|]. intros r ev [-> ->]. by apply Hfail. }
  intros w. apply wp_bind. eapply wp_mono; [apply wp_writeFileAtomic|].
  intros [e|] w1 H1; simpl in H1.
  { apply wp_ret. exists []. destruct H1 as [Hs ?]. split; [by apply grew_nil; apply Hs|]. by auto. }
  destruct H1 as (Hfiles & Hlog & _ & _ & Hlock & _).
  assert (Hg : forall w', same w1 w' -> grew w w' [Wrote (path_Join [path_Join [WorkDir o; "captures"; sanitizeName name];
                            "candidate.cfg"]) (encodeConfig frames)]).
  { intros w' Hs. split; [by rewrite (proj1 Hs)|]. rewrite <- Hlock. apply Hs. }
  apply wp_bind, wp_fallible_call. intros e w2 H2 He. destruct e as [e|].
  { apply wp_ret. eexists. split; [by apply Hg|]. split; [done|]. left. eauto. }
  apply wp_bind, wp_fallible_call. intros e w3 H3 He'. destruct e as [e|].
  { apply wp_ret. eexists. split; [by eapply Hg, same_trans|]. split; [done|]. left. eauto. }
  pose proof (Hg _ (same_trans _ _ _ H2 H3)) as [Hlog3 Hlock3].
  apply wp_bind, wp_get, wp_bind, wp_modify, wp_bind, wp_modify, wp_bind, wp_modify.
  eapply wp_mono; [apply does_run_process|]. simpl. intros r w' (ev & Hw' & (exit & ->) & Hr1 & Hr2).
  destruct Hw' as [Hw' Hk']. simpl in Hw', Hk'.
  destruct H2 as (_ & H2 & _), H3 as (_ & H3 & _). rewrite H3, H2, Hfiles, lookup_insert_eq in Hw'.
  eexists. split; [split; [by rewrite Hw', Hlog3, <- !app_assoc|by rewrite Hk', Hlock3]|].
  split; [done|]. right. by eexists _, _, _.
Qed.

(** ** Candidates *)

(** [n] processes under the configuration, nothing recorded. *)
Definition runs_of (config : list Z) (n : nat) (ev : list event) : Prop :=
  applied ev = repeat config n /\ bracketed ev /\ recorded ev = [].

Lemma captured_runs frames serving target window r ev :
  captured frames serving target window r ev ->
  clean_error r.2 /\ exists n, (n <= 1)%nat /\ runs_of (encodeConfig frames) n ev /\
    (r.2 = None -> n = 1%nat /\ good_outcome serving target window r.1).
Proof.
  intros [He [[Hne Hev]|(path & args & exit & -> & Hgood)]]; (split; [done|]).
  - exists 0%nat. split_and!; [lia|destruct Hev as [->|[path ->]]; by repeat constructor|done].
  - exists 1%nat. split; [lia|]. split; [by repeat constructor|]. auto.
Qed.

Section Config.
Hypothesis Hconfig : config_ok (Config o).

(** The zero configuration. *)
Definition zero_data : list Z := encodeConfig (zeroed <$> MessageFrames (Config o)).

Lemma does_cleanup label :
  Does (cleanup o label) (fun e ev => clean_error e /\
    exists n, (n <= 1)%nat /\ runs_of zero_data n ev /\ (e = None -> n = 1%nat)).
Proof.
  unfold cleanup. rewrite zero_frames_ok by done. eapply does_bind; [apply does_runDiagCapture|].
  intros r ev (He & n & Hn & Hruns & Hr)%captured_runs. eapply does_mono; [apply does_ret|].
  intros e ev' [-> ->]. rewrite app_nil_r. split; [done|]. exists n. split_and!; [done|done|].
  intros. by apply Hr.
Qed.

Lemma does_Write r :
  Does (Write r) (fun e ev => clean_error e /\ bracketed ev /\ applied ev = [] /\
    (recorded ev = [r] \/ (recorded ev = [] /\ e <> None))).
Proof.
  apply does_quiet_fallible; [intros; split_and!; [done|constructor|done|by right]|].
  apply does_quiet_fallible; [intros; split_and!; [done|constructor|done|by right]|].
  eapply does_bind; [by apply does_log|]. intros _ ev ->.
  assert (Hrec : forall e, clean_error e -> clean_error e /\ bracketed ([Recorded r] ++ []) /\
    applied ([Recorded r] ++ []) = [] /\ (recorded ([Recorded r] ++ []) = [r] \/
    (recorded ([Recorded r] ++ []) = [] /\ e <> None))).
  { intros e He. split_and!; [done|by repeat constructor|done|by left]. }
  do 3 (apply does_quiet_fallible; [intros e He; by apply Hrec|]).
  eapply does_mono; [apply does_fallible|]. intros e ev [-> He]. by apply Hrec.
Qed.

Lemma does_nextID prefix : Does (nextID prefix) (fun _ ev => ev = []).
Proof.
  eapply does_bind; [apply does_ask|]. intros stamp ev ->.
  eapply does_bind; [by apply does_modify|]. intros _ ev ->.
  intros w. apply wp_bind, wp_get, wp_ret. exists []. split; [apply grew_refl|done].
Qed.

Lemma does_serving : Does readServingIdentities (fun _ ev => ev = []).
Proof.
  eapply does_bind; [apply does_ask|]. intros s ev ->. eapply does_mono; [apply does_ret|].
  by intros ? ? [_ ->].
Qed.

(** The record of a capture and a clean-up without errors. *)
Lemma record_of_good runID stamp stage control target ids private state attempt ok window serving out ce cl :
  let r := record_of o runID stamp stage control target ids private state attempt ok out ce cl in
  (ce = None -> good_outcome serving target window out) ->
  (Result r = true -> ce = None /\ cl = None /\ record_matches target r /\ record_sound r /\
                      is_Some (FirstHitLatencyMS r)) /\
  (ce = None -> cl = None -> CaptureDurationMS r = Milliseconds window /\ record_sound r /\
                             (Result r = true <-> record_matches target r)).
Proof.
  intros r Hgood.
  assert (Hmatch : matches (Metrics out) target = true <-> record_matches target r).
  { unfold matches, record_matches, r. destruct target; rewrite ?andb_true_iff, !Nat.ltb_lt; reflexivity. }
  destruct ce as [e|]; [split; [by destruct cl|done]|].
  destruct (Hgood eq_refl) as ((c & f & b & Ha) & Hdur & Hhit & _).
  apply analyze_window_ok in Ha as (_ & Hcells & HN & HL).
  assert (Hsound : record_sound r) by by exists serving.
  destruct cl as [e|]; [done|]. cbn. rewrite Hdur. split; [|by auto].
  intros Hm. split_and!; [done|done|by apply Hmatch|done|]. destruct (Hhit Hm) as [l ->]. by eexists.
Qed.

Lemma does_testCandidate stage control target ids zeroMasks private state attempt ok window cand :
  selectFrames (Config o) ids zeroMasks private = Ok cand ->
  Does (testCandidate o stage control target ids zeroMasks private state attempt ok window)
    (tested zero_data (encodeConfig cand) target window).
Proof.
  intros Hsel. unfold testCandidate. rewrite Hsel.
  eapply does_quiet; [apply does_ensure|]. intros [e|] He.
  { eapply does_mono; [apply does_ret|]. intros r ev [-> ->]. split_and!; [done|constructor|].
    left. split_and!; [done|done|done|by left]. }
  eapply does_bind; [apply does_cleanup|]. intros [e|] ev1 (He1 & n1 & Hn1 & (Ha1 & Hb1 & Hr1) & Hok1).
  { eapply does_mono; [apply does_ret|]. intros r ev [-> ->]. rewrite app_nil_r.
    split_and!; [done|done|]. left. split_and!; [done|done|done|]. simpl. rewrite Ha1.
    destruct n1 as [|[|]]; [by left|by right|lia]. }
  rewrite (Hok1 eq_refl) in Ha1. clear n1 Hn1 Hok1 He1 He.
  eapply does_bind; [apply does_nextID|]. intros runID ev ->.
  eapply does_bind; [apply does_serving|]. intros serving ev ->.
  eapply does_bind; [apply does_runDiagCapture|].
  intros [out ce] ev2 (He2 & a & Ha & (Ha2 & Hb2 & Hr2) & Hok2)%captured_runs.
  eapply does_bind; [apply does_cleanup|]. intros cl ev3 (He3 & n3 & Hn3 & (Ha3 & Hb3 & Hr3) & Hok3).
  eapply does_bind; [apply does_ask|]. intros stamp ev ->.
  eapply does_bind; [apply does_Write|]. intros we ev4 (He4 & Hb4 & Ha4 & Hr4).
  set (r := record_of _ _ _ _ _ _ _ _ _ _ _ _ _ _) in *.
  eapply (does_bind _ _ (fun _ ev => exists n, (n <= 1)%nat /\ runs_of zero_data n ev /\ (cl = None -> n = 0%nat))).
  { destruct cl as [e|].
    - eapply does_mono; [apply does_cleanup|]. intros e' ev (_ & n & ? & ? & _). by exists n.
    - eapply does_mono; [apply does_ret|]. intros e' ev [_ ->]. exists 0%nat. split; [lia|]. by repeat constructor. }
  intros _ ev5 (n5 & Hn5 & (Ha5 & Hb5 & Hr5) & Hok5).
  eapply does_mono; [apply does_ret|]. intros res ev [-> ->].
  destruct (record_of_good runID stamp stage control target ids private state attempt ok window serving out ce cl)
    as [Hres Hgood]; [by intros ->; apply Hok2|]. fold r in Hres, Hgood.
  assert (Hjoin : clean_error (join_errors ce cl)) by (by destruct ce, cl).
  split; [by destruct we|]. split.
  { repeat apply bracketed_app; try done; constructor. }
  right. exists a, (n3 + n5)%nat. cbn [fst snd].
  constructor.
  - rewrite !applied_app, Ha1, Ha2, Ha3, Ha4, Ha5, repeat_app. cbn. by rewrite !app_nil_r.
  - lia.
  - rewrite !recorded_app, Hr1, Hr2, Hr3, Hr5. cbn. rewrite !app_nil_r.
    destruct Hr4 as [->|[-> ?]]; [by left|]. right. by destruct we.
  - intros Hnone. destruct we as [|]; [done|]. destruct ce, cl; try done.
    destruct (Hgood eq_refl eq_refl) as (? & ? & ?). rewrite (Hok5 eq_refl), (Hok3 eq_refl).
    split_and!; [by apply Hok2|done| |done..].
    rewrite !recorded_app, Hr1, Hr2, Hr3, Hr5. cbn. rewrite !app_nil_r. by destruct Hr4 as [->|[_ ?]].
  - intros (-> & -> & ? & ? & ?)%Hres. rewrite (Hok5 eq_refl), (Hok3 eq_refl).
    split_and!; [by apply Hok2|done..].
Qed.

End Config.
End Effects.

(** ** A sample device *)

(** An LTE report of channel 1300, PCI 5 and -100 dBm, as a log file. *)
Definition sample_report : list Z :=
  with_crc (([0x9d; 0; 0; 0; 0x17] ++ repeat 0 7 ++ put_u32 0xd8fe54a0 ++
             put_u32 1300 ++ put_u32 5 ++ put_u32 (2 ^ 32 - 1000) ++ put_u32 (2 ^ 32 - 100))%list).
Definition sample_dir : option (list dirEntry) :=
  Some [mkEntry "diag_log_1.qmdl" false (Some (hdlcEscape sample_report ++ [0x7e])%list)].

(** Every call succeeds, no other process runs, every capture sees the report. *)
Definition sample_device : Device := {|
  dv_ok := fun _ => true; dv_pidof := fun _ => ("", true); dv_cmdline := fun _ _ => ""; dv_getpid := 7;
  dv_owner := fun _ => ""; dv_stamp := fun _ => "T"; dv_ubus := fun _ => None;
  dv_capture := fun _ => mkCapture SettleElapsed (Some []) [mkPoll 0 (PollTick second sample_dir never)]
                          (StopExit None) sample_dir never |}.

Definition sample_config : qtraceConfig :=
  match parseQTraceConfigBytes (encodeConfig sample_frames) with Ok c => c | _ => empty_config [] end.
Definition sample_options : deviceOptions :=
  mkOptions sample_config "/w" "diag_mdlog" second second second second false 4 32 "/w/reports".
Definition sample_world : world := mkWorld 0 0 ∅ ∅ 0 false None [].

Lemma sample_config_ok : config_ok sample_config.
Proof.
  destruct (parse_encode sample_frames ltac:(discriminate) sample_frames_valid) as (c & Hc & Hok & _).
  unfold sample_config. by rewrite Hc.
Qed.

(** * Properties *)

(** C34: testing a candidate never leaves its masks on the device unnoticed.
    From any world and for any behaviour of the device, a test applies nothing
    but the zero configuration and the candidate's own, the candidate at most
    once and only right after a completed zero run; every process it starts has
    ended before anything else happens; no run-time panic occurs.  Without an
    error exactly zero, candidate, zero were applied and exactly the returned
    record was written, and its verdict is that of the cells found.  A positive
    verdict, even beside an error, means that the candidate was applied and
    followed by a zero run, and that the record names valid target cells and a
    latency. *)
Theorem testCandidate_masks `{SortSlice} `{Device} (o : deviceOptions) (stage control : string)
    (target : targetKind) (frameIDs : list nat) (zeroMasks : bool) (private : privateMode)
    (privateState : string) (attempt : Z) (positiveOK : bool) (window : Z) :
  config_ok (Config o) -> (forall i, i ∈ frameIDs -> i ∈ allMessageFrameIDs (Config o)) ->
  exists zero cand,
    zeroMessageFrames (Config o) = Ok zero /\ selectFrames (Config o) frameIDs zeroMasks private = Ok cand /\
    forall w, let '(result, w') := testCandidate o stage control target frameIDs zeroMasks private
                                     privateState attempt positiveOK window w in
    exists ev, grew w w' ev /\
      tested (encodeConfig zero) (encodeConfig cand) target window result ev.
Proof.
  intros Hok Hids. destruct (select_frames_ok (Config o) frameIDs zeroMasks private Hok Hids) as (cand & Hc & _).
  exists (zeroed <$> MessageFrames (Config o)), cand. split_and!; [by apply zero_frames_ok|done|].
  intros w. apply (wp_elim _ (fun res w' => exists ev, _ /\ _)). by apply does_testCandidate.
Qed.

(** A test on the sample device finds the LTE cell. *)
Example testCandidate_masks_witness :
  let '((r, err), w') := @testCandidate insertion_SortSlice sample_device sample_options "control" "positive"
                           targetLTE [1%nat] false privateBoth "both" 1 true second sample_world in
  (Result r, err, FirstHitLatencyMS r) = (true, None, Some 1000) /\ length (applied (w_log w')) = 3%nat /\
  exists zero cand, tested zero cand targetLTE second (r, err) (w_log w').
Proof.
  assert (Hids : forall i, i ∈ [1%nat] -> i ∈ allMessageFrameIDs (Config sample_options)).
  { intros i Hi. apply list_elem_of_singleton in Hi as ->. apply (bool_decide_unpack _). vm_compute. exact I. }
  destruct (@testCandidate_masks insertion_SortSlice sample_device sample_options "control" "positive"
    targetLTE [1%nat] false privateBoth "both" 1 true second sample_config_ok Hids)
    as (zero & cand & _ & _ & Hw).
  specialize (Hw sample_world).
  assert (Hev : let '((r, err), w') := @testCandidate insertion_SortSlice sample_device sample_options "control"
                  "positive" targetLTE [1%nat] false privateBoth "both" 1 true second sample_world in
    (Result r, err, FirstHitLatencyMS r) = (true, None, Some 1000) /\ length (applied (w_log w')) = 3%nat)
    by (vm_compute; split; reflexivity).
  destruct (@testCandidate _ _ _ _ _ _ _ _ _ _ _ _ _ _) as [[r err] w'].
  destruct Hev as [He Hn], Hw as (ev & [Hlog _] & Ht). split; [exact He|]. split; [exact Hn|].
  exists (encodeConfig zero), (encodeConfig cand). rewrite Hlog. exact Ht.
Defined.
