(* ===== verification/ReducerBatch.v ===== *)
(** The batches of the trace reducer over the device runner:
    [src/tools/u60-qtrace-reducer/ddmin.go] (repeated runs, calibration of the
    capture window, the frame minimisation), [controls.go] (the control groups
    and the check of their report) and the commands of [main.go] and
    [private_probe.go] that start them. *)

From S2P Require Import Prelude.
From S2P Require Import Effects.
From S2P Require Import GoInt.
From S2P Require Import GoFloat.
From S2P Require Import GoSort.
From S2P Require Import GoStrings.
From S2P Require Import QTraceConfig.
From S2P Require Import Ddmin.
From S2P Require Import ReducerQmdl.
From S2P Require Import ReducerRunner.
Open Scope string_scope.
Open Scope Z_scope.

(** * Data *)

Record repeatedResult := mkRepeated { Passed : bool; Hits : Z; Runs : Z; Records : list runRecord }.
Definition noRepeated : repeatedResult := mkRepeated false 0 0 [].

Inductive runError :=
| ErrBatch (e : batchError)
| ErrNoControls                              (** no -controls-report *)
| ErrReadControls
| ErrDecodeControls
| ErrControlsIncomplete
| ErrControlsTarget (have want : targetKind)
| ErrControlsGroup
| ErrPositiveControl (hits runs need : Z)
| ErrPositiveEnd (hits runs : Z)
| ErrValidation                              (** the minimal candidate failed *)
| ErrEndControl                              (** the positive control at the end failed *)
| ErrColdState
| ErrFlags
| ErrTarget (value : string)
| ErrUnlimited.                              (** ddmin without end; excluded by theorem *)

Definition batch (e : option batchError) : option runError := ErrBatch <$> e.

Record calibrationResult := mkCalibration {
  cal_Target : targetKind; cal_Runs : Z; cal_Hits : Z; LatenciesMS : list Z; P95MS : Z;
  CandidateWindow : Z; cal_Passed : bool; cal_Failure : option runError; cal_Records : list runRecord }.

Record ddminOptions := mkDdminOptions {
  dd_Target : targetKind; ControlsReport : string; CalibrationRuns : Z; PositiveMinimumHit : Z;
  CandidateRepeats : Z; CandidateMinHits : Z; WindowMargin : Z; MinimumWindow : Z; MaximumWindow : Z }.

Record volumeComparison := mkVolume {
  ReferenceWindowMS : Z; MinimalWindowMS : Z; WindowsComparable : bool;
  OriginalReference : string; MinimalReference : string;
  OriginalMessageFrames : Z; MinimalMessageFrames : Z; FrameReductionPercent : float64;
  OriginalAvgQSHFrames : float64; MinimalAvgQSHFrames : float64; QSHFrameReduction : float64;
  OriginalAvgQSHBytes : float64; MinimalAvgQSHBytes : float64; QSHByteReduction : float64 }.

(** [Started] and the fixed notes are left out. *)
Record ddminSummary := mkDdminSummary {
  OriginalFrameIDs : list nat; MinimalFrameIDs : list nat; MinimalSSIDs : list Z;
  ds_PrivateCommandState : string; Calibration : calibrationResult;
  EmptyCandidate : repeatedResult; MinimalValidation : repeatedResult;
  EndPositiveControl : repeatedResult; Volume : volumeComparison;
  OutputConfig : string; OutputConfigFrameCount : nat; ds_Completed : option string }.

Record controlGroupResult := mkGroup {
  Name : string; ExpectedMatch : bool; ObservedHits : Z; ObservedNRRuns : Z; ObservedLTERuns : Z;
  UnexpectedRuns : Z; gr_Runs : Z; ExpectationMet : bool; gr_Records : list runRecord }.

(** [Started] and the fixed texts are left out; [Completed] is [None] when it is
    the zero time. *)
Record controlsSummary := mkControls {
  cs_Target : targetKind; Completed : option string; ColdStateConfirmed : bool;
  ExecutionOrder : list string; Groups : list controlGroupResult; cs_PositiveControlStatus : bool }.

Record controlOptions := mkControlOptions {
  co_Target : targetKind; Repeats : Z; MinimumPositiveHit : Z; co_ColdState : bool; co_Window : Z }.

(** [encoding/json] on the two summaries. *)
Class Json := mkJson {
  encode_controls : controlsSummary -> list Z;
  decode_controls : list Z -> option controlsSummary;
  encode_ddmin : ddminSummary -> list Z }.

(** What a summary says to [validateControlsReport]. *)
Definition controls_view (s : controlsSummary) : targetKind * bool * bool * bool * list string :=
  (cs_Target s, ColdStateConfirmed s, cs_PositiveControlStatus s,
   bool_decide (is_Some (Completed s)), Name <$> Groups s).

(** Documented behaviour of [encoding/json]: a summary that was written with a
    line feed behind it reads back with the fields the check looks at. *)
Class JsonLaws `{Json} := mkJsonLaws {
  decode_encode : forall s, exists s', decode_controls (encode_controls s ++ [10])%list = Some s' /\
    controls_view s' = controls_view s }.

(** * Pure parts *)

Definition count_hits (records : list runRecord) : Z := Z.of_nat (length (List.filter Result records)).

(** [math.Ceil(0.95*float64(n)) - 1], not below zero. *)
Definition p95_index (n : nat) : nat :=
  Z.to_nat (f_ceil (fmul (f_lit 95 100) (f_of_Z (Z.of_nat n))) - 1).

(** The window from the 95th percentile, in wrapping 64-bit nanoseconds. *)
Definition clamp_window (opts : ddminOptions) (p95 : Z) : Z :=
  let window := swrap 64 (swrap 64 (p95 * millisecond) + WindowMargin opts) in
  let window := if window <? MinimumWindow opts then MinimumWindow opts else window in
  if (0 <? MaximumWindow opts) && (MaximumWindow opts <? window) then MaximumWindow opts else window.

Definition hit_latency (r : runRecord) : option Z := if Result r then FirstHitLatencyMS r else None.

Definition calibration_of `{SortSlice} (opts : ddminOptions) (repeated : repeatedResult)
    (err : option batchError) : calibrationResult * option runError :=
  let latencies := omap hit_latency (Records repeated) in
  let failed e := (mkCalibration (dd_Target opts) (CalibrationRuns opts) (Hits repeated) latencies 0 0
                     false (Some e) (Records repeated), Some e) in
  match err with
  | Some e => failed (ErrBatch e)
  | None =>
    if (Hits repeated <? PositiveMinimumHit opts) || bool_decide (latencies = [])
    then failed (ErrPositiveControl (Hits repeated) (Runs repeated) (PositiveMinimumHit opts)) else
    let latencies := sortSlice Z.ltb latencies in
    match latencies !! p95_index (length latencies) with
    | None => failed (ErrBatch ErrPanic)
    | Some p95 =>
      (mkCalibration (dd_Target opts) (CalibrationRuns opts) (Hits repeated) latencies p95
         (Milliseconds (clamp_window opts p95)) true None (Records repeated), None)
    end
  end.

Definition commonCaptureDuration (records : list runRecord) : Z :=
  match records with
  | [] => 0
  | r :: rest =>
    if forallb (fun q => CaptureDurationMS q =? CaptureDurationMS r) rest then CaptureDurationMS r else 0
  end.

Definition averageVolume (records : list runRecord) : float64 * float64 :=
  match records with
  | [] => (f_zero, f_zero)
  | _ =>
    let n := f_of_Z (Z.of_nat (length records)) in
    let '(frames, bytes) := fold_left (fun acc r =>
      (fadd acc.1 (f_of_Z (Z.of_nat (rr_QSHFrameCount r))), fadd acc.2 (f_of_Z (rr_QSHTotalBytes r))))
      records (f_zero, f_zero) in
    (fdiv frames n, fdiv bytes n)
  end.

(** [math.Round] as a float: zero keeps its sign. *)
Definition round_float (f : float64) : float64 :=
  if f_round f =? 0 then S754_zero (fltb f f_zero) else f_of_Z (f_round f).

Definition reductionPercent (original reduced : float64) : float64 :=
  if fleb original f_zero then f_zero
  else fdiv (round_float (fmul (fsub (f_of_Z 1) (fdiv reduced original)) (f_of_Z 10000))) (f_of_Z 100).

Definition compareVolumes (originalFrames minimalFrames : nat) (originalRuns minimalRuns : list runRecord)
    : volumeComparison :=
  let '(oFrames, oBytes) := averageVolume originalRuns in
  let '(mFrames, mBytes) := averageVolume minimalRuns in
  let reference := commonCaptureDuration originalRuns in
  let minimal := commonCaptureDuration minimalRuns in
  let comparable := (0 <? reference) && (reference =? minimal) in
  mkVolume reference minimal comparable "batch-end-positive-control" "minimal-validation"
    (Z.of_nat originalFrames) (Z.of_nat minimalFrames)
    (reductionPercent (f_of_Z (Z.of_nat originalFrames)) (f_of_Z (Z.of_nat minimalFrames)))
    oFrames mFrames (if comparable then reductionPercent oFrames mFrames else f_zero)
    oBytes mBytes (if comparable then reductionPercent oBytes mBytes else f_zero).
Definition noVolume : volumeComparison :=
  mkVolume 0 0 false "" "" 0 0 f_zero f_zero f_zero f_zero f_zero f_zero f_zero.

Definition controlHasUnexpectedTarget (record : runRecord) (target : targetKind) : bool :=
  match target with
  | targetNR => (0 <? rr_NRCellCount record)%nat
  | targetLTE => (0 <? rr_LTECellCount record)%nat
  | targetCombined => (0 <? rr_NRCellCount record)%nat || (0 <? rr_LTECellCount record)%nat
  end.

Definition controls_wanted : list string :=
  ["all-off"; "message-only"; "positive"; "zero-mask-private"; "positive-end"].

(** The checks of [validateControlsReport] on a decoded report. *)
Definition validate_controls (report : controlsSummary) (target : targetKind) : option runError :=
  if negb (ColdStateConfirmed report) || negb (cs_PositiveControlStatus report) ||
     bool_decide (Completed report = None) then Some ErrControlsIncomplete else
  if (bool_decide (target = targetCombined) && bool_decide (cs_Target report <> targetCombined)) ||
     (bool_decide (target = targetNR) && bool_decide (cs_Target report <> targetNR) &&
      bool_decide (cs_Target report <> targetCombined)) ||
     (bool_decide (target = targetLTE) && bool_decide (cs_Target report <> targetLTE) &&
      bool_decide (cs_Target report <> targetCombined))
  then Some (ErrControlsTarget (cs_Target report) target) else
  if forallb (fun name => bool_decide (name ∈ Name <$> Groups report)) controls_wanted then None
  else Some ErrControlsGroup.

Definition with_dd_defaults (opts : ddminOptions) : ddminOptions :=
  let runs := if CalibrationRuns opts <=? 0 then 10 else CalibrationRuns opts in
  mkDdminOptions (dd_Target opts) (ControlsReport opts) runs
    (if PositiveMinimumHit opts <=? 0 then runs else PositiveMinimumHit opts)
    (if CandidateRepeats opts <=? 0 then 3 else CandidateRepeats opts)
    (if CandidateMinHits opts <=? 0 then 2 else CandidateMinHits opts)
    (WindowMargin opts) (MinimumWindow opts) (MaximumWindow opts).

Definition with_control_defaults (opts : controlOptions) : controlOptions :=
  let repeats := if Repeats opts <=? 0 then 3 else Repeats opts in
  mkControlOptions (co_Target opts) repeats
    (if MinimumPositiveHit opts <=? 0 then repeats else MinimumPositiveHit opts)
    (co_ColdState opts) (co_Window opts).

Definition output_name (target : targetKind) : string :=
  match target with
  | targetCombined => "cell-neighbor-combined-frame-min.cfg"
  | _ => String.append (target_string target) "-neighbor-frame-min.cfg"
  end.

(** * Operations *)

Section Batch.
Context `{SortSlice} `{Device} `{Json}.
Context (o : deviceOptions).

(** ** Repeated runs *)

(** The attempts left, the number of the next one and the result so far. *)
Fixpoint repeat_loop (n : nat) (attempt : Z) (stage control : string) (target : targetKind)
    (frameIDs : list nat) (private : privateMode) (minimumHits : Z) (positiveOK : bool) (window : Z)
    (result : repeatedResult) : M (repeatedResult * option batchError) :=
  let finished result := mret (mkRepeated (minimumHits <=? Hits result) (Hits result) (Runs result)
                                 (Records result), None) in
  match n with
  | O => finished result
  | S n =>
    '(record, err) ← testCandidate o stage control target frameIDs false private (private_string private)
                       attempt positiveOK window;
    let result := mkRepeated (Passed result) (if Result record then Hits result + 1 else Hits result)
                    (Runs result) (Records result ++ [record])%list in
    match err with
    | Some e => mret (result, Some e)
    | None =>
      let remaining := Runs result - attempt in
      if Hits result + remaining <? minimumHits then finished result
      else repeat_loop n (attempt + 1) stage control target frameIDs private minimumHits positiveOK
             window result
    end
  end.

Definition runRepeated (stage control : string) (target : targetKind) (frameIDs : list nat)
    (private : privateMode) (runs minimumHits : Z) (positiveOK : bool) (window : Z)
    : M (repeatedResult * option batchError) :=
  repeat_loop (Z.to_nat runs) 1 stage control target frameIDs private minimumHits positiveOK window
    (mkRepeated false 0 runs []).

Definition calibrate (opts : ddminOptions) (allIDs : list nat) : M (calibrationResult * option runError) :=
  '(repeated, err) ← runRepeated "positive-control" "batch-start-calibration" (dd_Target opts) allIDs
                       privateBoth (CalibrationRuns opts) (PositiveMinimumHit opts) false (MaximumWindow opts);
  mret (calibration_of opts repeated err).

(** ** Reports *)

(** [reportWriter.WriteSummary]. *)
Definition WriteSummary (name : string) (data : list Z) : M (option batchError) :=
  and_then (fallible "marshal") (writeFileAtomic (path_Join [ReportDir o; name]) (data ++ [10])%list).

Definition validateControlsReport (path : string) (target : targetKind) : M (option runError) :=
  if bool_decide (path = "") then mret (Some ErrNoControls) else
  ok ← attempt;
  w ← st_get;
  mret (match w_files w !! path with
        | Some data =>
          if negb ok then Some ErrReadControls else
          match decode_controls data with
          | None => Some ErrDecodeControls
          | Some report => validate_controls report target
          end
        | None => Some ErrReadControls
        end).

(** ** Frame minimisation *)

Definition candidate_run (opts : ddminOptions) (stage control : string) (frameIDs : list nat) (window : Z)
    : M (repeatedResult * option batchError) :=
  runRepeated stage control (dd_Target opts) frameIDs privateBoth (CandidateRepeats opts)
    (CandidateMinHits opts) true window.

(** The test [ddmin] is given. *)
Definition frame_test (opts : ddminOptions) (window : Z) (candidate : list nat) (w : world)
    : world * go batchError bool :=
  let '((result, err), w) := candidate_run opts "frame-ddmin" "" candidate window w in
  (w, match err with Some e => Err e | None => Ok (Passed result) end).

Definition minimise (opts : ddminOptions) (allIDs : list nat) (window : Z) : M (list nat + runError) := fun w =>
  match ddmin (frame_test opts window) allIDs w with
  | Some (w, Ok current) => (inl current, w)
  | Some (w, Err e) => (inr (ErrBatch e), w)
  | Some (w, Panic) => (inr (ErrBatch ErrPanic), w)
  | None => (inr ErrUnlimited, w)
  end.

(** From the validation of the minimal set to the summary. *)
Definition conclude (opts : ddminOptions) (allIDs current : list nat) (window : Z)
    (calibration : calibrationResult) (empty : repeatedResult) : M (ddminSummary * option runError) :=
  let minimalSSIDs := allSSIDs (Config o) current in
  let summary validation control volume path count completed :=
    mkDdminSummary allIDs current minimalSSIDs (private_string privateBoth) calibration empty
      validation control volume path count completed in
  '(validation, err) ← candidate_run opts "frame-ddmin-validation" "minimal" current window;
  match err with Some e => mret (summary validation noRepeated noVolume "" 0%nat None, Some (ErrBatch e)) | None =>
  if negb (Passed validation)
  then mret (summary validation noRepeated noVolume "" 0%nat None, Some ErrValidation) else
  '(control, err) ← candidate_run opts "positive-control" "batch-end" allIDs window;
  match err with Some e => mret (summary validation control noVolume "" 0%nat None, Some (ErrBatch e)) | None =>
  if negb (Passed control)
  then mret (summary validation control noVolume "" 0%nat None, Some ErrEndControl) else
  match selectFrames (Config o) current false privateBoth with
  | Err e => mret (summary validation control noVolume "" 0%nat None, Some (ErrBatch (ErrConfig e)))
  | Panic => mret (summary validation control noVolume "" 0%nat None, Some (ErrBatch ErrPanic))
  | Ok frames =>
    let path := String.append (ReportDir o) (String.append "/" (output_name (dd_Target opts))) in
    e ← writeFileAtomic path (encodeConfig frames);
    match e with
    | Some e => mret (summary validation control noVolume "" 0%nat None, Some (ErrBatch e))
    | None =>
      completed ← ask dv_stamp;
      let result := summary validation control
                      (compareVolumes (length allIDs) (length current) (Records control) (Records validation))
                      path (length frames) (Some completed) in
      e ← WriteSummary (String.append "ddmin-" (String.append (target_string (dd_Target opts)) "-summary.json"))
            (encode_ddmin result);
      mret (result, batch e)
    end
  end end end.

(** [ddminOptions.run] after the check of the controls report. *)
Definition ddmin_batch (opts : ddminOptions) : M (option ddminSummary * option runError) :=
  let allIDs := allMessageFrameIDs (Config o) in
  let partial calibration empty :=
    Some (mkDdminSummary allIDs [] [] (private_string privateBoth) calibration empty noRepeated noRepeated
            noVolume "" 0%nat None) in
  '(calibration, err) ← calibrate opts allIDs;
  match err with Some e => mret (partial calibration noRepeated, Some e) | None =>
  let window := CandidateWindow calibration * millisecond in
  '(empty, err) ← candidate_run opts "frame-ddmin" "empty-message-set" [] window;
  match err with Some e => mret (partial calibration empty, Some (ErrBatch e)) | None =>
  r ← (if Passed empty then mret (inl []) else minimise opts allIDs window);
  match r with
  | inr e => mret (partial calibration empty, Some e)
  | inl current =>
    '(summary, err) ← conclude opts allIDs current window calibration empty;
    mret (Some summary, err)
  end end end.

(** [ddminOptions.run]; [None] for a nil summary. *)
Definition ddminRun (opts : ddminOptions) : M (option ddminSummary * option runError) :=
  e ← validateControlsReport (ControlsReport opts) (dd_Target opts);
  match e with Some e => mret (None, Some e) | None => ddmin_batch (with_dd_defaults opts) end.

(** ** Controls *)

Fixpoint group_loop (n : nat) (attempt : Z) (opts : controlOptions) (frameIDs : list nat)
    (zeroMasks : bool) (private : privateMode) (positiveOK : bool) (result : controlGroupResult)
    : M (controlGroupResult * option batchError) :=
  match n with
  | O => mret (mkGroup (Name result) (ExpectedMatch result) (ObservedHits result) (ObservedNRRuns result)
                 (ObservedLTERuns result) (UnexpectedRuns result) (gr_Runs result)
                 (if ExpectedMatch result then ObservedHits result =? gr_Runs result
                  else UnexpectedRuns result =? 0) (gr_Records result), None)
  | S n =>
    '(record, err) ← testCandidate o "control" (Name result) (co_Target opts) frameIDs zeroMasks private
                       (private_string private) attempt positiveOK (co_Window opts);
    let result := mkGroup (Name result) (ExpectedMatch result)
      (if Result record then ObservedHits result + 1 else ObservedHits result)
      (if (0 <? rr_NRCellCount record)%nat then ObservedNRRuns result + 1 else ObservedNRRuns result)
      (if (0 <? rr_LTECellCount record)%nat then ObservedLTERuns result + 1 else ObservedLTERuns result)
      (if negb (ExpectedMatch result) && controlHasUnexpectedTarget record (co_Target opts)
       then UnexpectedRuns result + 1 else UnexpectedRuns result)
      (gr_Runs result) (ExpectationMet result) (gr_Records result ++ [record])%list in
    match err with
    | Some e => mret (result, Some e)
    | None => group_loop n (attempt + 1) opts frameIDs zeroMasks private positiveOK result
    end
  end.

Definition runGroup (opts : controlOptions) (name : string) (expectedMatch : bool) (frameIDs : list nat)
    (zeroMasks : bool) (private : privateMode) (positiveOK : bool)
    : M (controlGroupResult * option batchError) :=
  group_loop (Z.to_nat (Repeats opts)) 1 opts frameIDs zeroMasks private positiveOK
    (mkGroup name expectedMatch 0 0 0 0 (Repeats opts) false []).

Definition add_group (g : controlGroupResult) (s : controlsSummary) : controlsSummary :=
  mkControls (cs_Target s) (Completed s) (ColdStateConfirmed s) (ExecutionOrder s)
    (Groups s ++ [g])%list (cs_PositiveControlStatus s).

(** A group and what follows it; an error leaves the summary as it was. *)
Definition then_group (opts : controlOptions) (name : string) (expectedMatch : bool) (zeroMasks : bool)
    (private : privateMode) (positiveOK : bool) (summary : controlsSummary)
    (k : controlGroupResult -> controlsSummary -> M (option controlsSummary * option runError))
    : M (option controlsSummary * option runError) :=
  '(group, err) ← runGroup opts name expectedMatch (allMessageFrameIDs (Config o)) zeroMasks private positiveOK;
  match err with
  | Some e => mret (Some summary, Some (ErrBatch e))
  | None => k group (add_group group summary)
  end.

Definition set_positive (ok : bool) (s : controlsSummary) : controlsSummary :=
  mkControls (cs_Target s) (Completed s) (ColdStateConfirmed s) (ExecutionOrder s) (Groups s) ok.
Definition set_completed (stamp : string) (s : controlsSummary) : controlsSummary :=
  mkControls (cs_Target s) (Some stamp) (ColdStateConfirmed s) (ExecutionOrder s) (Groups s)
    (cs_PositiveControlStatus s).

Definition controls_name (target : targetKind) : string :=
  String.append "controls-" (String.append (target_string target) "-summary.json").

(** [controlOptions.run]. *)
Definition controlsRun (opts : controlOptions) : M (option controlsSummary * option runError) :=
  if negb (co_ColdState opts) then mret (None, Some ErrColdState) else
  let opts := with_control_defaults opts in
  let summary := mkControls (co_Target opts) None true controls_wanted [] false in
  then_group opts "all-off" false true privateNone false summary (fun _ summary =>
  then_group opts "message-only" false false privateNone false summary (fun _ summary =>
  then_group opts "positive" true false privateBoth false summary (fun positive summary =>
  if ObservedHits positive <? MinimumPositiveHit opts 
  then mret (Some summary, Some (ErrPositiveControl (ObservedHits positive) (gr_Runs positive)
                                   (MinimumPositiveHit opts))) else
  let summary := set_positive true summary in
  then_group opts "zero-mask-private" false true privateBoth true summary (fun _ summary =>
  then_group opts "positive-end" true false privateBoth true summary (fun positiveEnd summary =>
  if ObservedHits positiveEnd <? MinimumPositiveHit opts
  then mret (Some (set_positive false summary),
             Some (ErrPositiveEnd (ObservedHits positiveEnd) (gr_Runs positiveEnd))) else
  stamp ← ask dv_stamp;
  let summary := set_completed stamp summary in
  e ← WriteSummary (controls_name (co_Target opts)) (encode_controls summary);
  mret (Some summary, batch e)))))).

End Batch.

(** * What batches do *)

(** The configuration a test applies for a set of frames. *)
Definition masks_of (o : deviceOptions) (ids : list nat) (zeroMasks : bool) (private : privateMode) : list Z :=
  match selectFrames (Config o) ids zeroMasks private with Ok frames => encodeConfig frames | _ => [] end.

(** The configurations of one complete test: zero, candidate, zero. *)
Definition test_masks (zero cand : list Z) : list (list Z) := [zero; cand; zero].

(** A record of a test without errors. *)
Definition good_record (target : targetKind) (window : Z) (r : runRecord) : Prop :=
  CaptureDurationMS r = Milliseconds window /\ record_sound r /\
  (Result r = true <-> record_matches target r) /\
  (Result r = true -> is_Some (FirstHitLatencyMS r)).

(** [n] tests of a candidate with the records [rs], or a part of them. *)
Definition complete_tests (zero cand : list Z) (target : targetKind) (window : Z)
    (rs : list runRecord) (ev : list event) : Prop :=
  applied ev = concat (repeat (test_masks zero cand) (length rs)) /\ recorded ev = rs /\
  Forall (good_record target window) rs.
Definition partial_tests (masks : list Z -> Prop) (ev : list event) : Prop :=
  bracketed ev /\ Forall masks (applied ev).

(** The records [rs] of a repeated run decide the verdict, and no shorter list
    does: the remaining runs could still have reached the minimum. *)
Definition decisive (runs minimumHits : Z) (rs : list runRecord) : Prop :=
  Z.of_nat (length rs) <= Z.max 0 runs /\
  (Z.of_nat (length rs) < runs -> count_hits rs + (runs - Z.of_nat (length rs)) < minimumHits) /\
  (forall k, (0 < k < length rs)%nat ->
     minimumHits <= count_hits (take k rs) + (runs - Z.of_nat k)).

Record repeated (zero cand : list Z) (target : targetKind) (window runs minimumHits : Z)
    (res : repeatedResult * option batchError) (ev : list event) : Prop := mkRepeatedOk {
  rp_clean : clean_error res.2;
  rp_partial : partial_tests (fun config => config = zero \/ config = cand) ev;
  rp_success : res.2 = None ->
    complete_tests zero cand target window (Records res.1) ev /\
    decisive runs minimumHits (Records res.1) /\
    Runs res.1 = runs /\ Hits res.1 = count_hits (Records res.1) /\
    Passed res.1 = (minimumHits <=? count_hits (Records res.1)) }.

Lemma partial_app masks a b : partial_tests masks a -> partial_tests masks b -> partial_tests masks (a ++ b).
Proof.
  intros [Hb1 H1] [Hb2 H2]. split; [by apply bracketed_app|]. rewrite applied_app. by apply Forall_app.
Qed.

Lemma partial_nil masks : partial_tests masks [].
Proof. split; constructor. Qed.

Lemma partial_weaken (masks masks' : list Z -> Prop) ev :
  partial_tests masks ev -> (forall c, masks c -> masks' c) -> partial_tests masks' ev.
Proof. intros [Hb Hf] Hsub. split; [done|]. by eapply Forall_impl. Qed.

Lemma count_hits_app a b : count_hits (a ++ b) = count_hits a + count_hits b.
Proof. unfold count_hits. rewrite List.filter_app, length_app. lia. Qed.

Lemma count_hits_range rs : 0 <= count_hits rs <= Z.of_nat (length rs).
Proof. unfold count_hits. pose proof (List.filter_length_le Result rs). lia. Qed.

Lemma complete_app zero cand target window rs1 rs2 ev1 ev2 :
  complete_tests zero cand target window rs1 ev1 -> complete_tests zero cand target window rs2 ev2 ->
  complete_tests zero cand target window (rs1 ++ rs2) (ev1 ++ ev2).
Proof.
  intros (Ha1 & Hr1 & Hg1) (Ha2 & Hr2 & Hg2).
  split_and!; [|by rewrite recorded_app, Hr1, Hr2|by apply Forall_app].
  by rewrite applied_app, Ha1, Ha2, length_app, repeat_app, concat_app.
Qed.

Lemma tested_step zero cand target window res ev :
  tested zero cand target window res ev ->
  clean_error res.2 /\ partial_tests (fun config => config = zero \/ config = cand) ev /\
  (res.2 = None -> complete_tests zero cand target window [res.1] ev).
Proof.
  intros (Hc & Hb & Ht). split; [done|]. destruct Ht as [(_ & He & _ & Ha)|(a & k & Ht)].
  - split; [|done]. split; [done|]. destruct Ha as [->| ->]; repeat constructor; by left.
  - split.
    + split; [done|]. rewrite (co_applied _ _ _ _ _ _ _ _ _ Ht). constructor; [by left|].
      apply Forall_app. split; apply Forall_forall; intros c Hin%list_elem_of_In%repeat_spec; subst c; auto.
    + intros He. destruct (co_success _ _ _ _ _ _ _ _ _ Ht He) as (-> & -> & Hr & Hd & Hs & Hm).
      split_and!; [by rewrite (co_applied _ _ _ _ _ _ _ _ _ Ht)|done|].
      constructor; [|done]. split_and!; try done.
      intros H. by apply (co_result _ _ _ _ _ _ _ _ _ Ht).
Qed.

(** ** The 95th percentile *)

Definition p95_exact (n : nat) : bool :=
  (f_ceil (fmul (f_lit 95 100) (f_of_Z (Z.of_nat n))) =? (19 * Z.of_nat n + 19) / 20).

Lemma p95_table : forallb p95_exact (seq 1 500) = true.
Proof. vm_compute. reflexivity. Qed.

(** The rounding of the floating-point product never moves the index. *)
Lemma p95_index_exact n :
  (1 <= n <= 500)%nat -> (p95_index n < n)%nat /\ (19 * n <= 20 * (p95_index n + 1) < 19 * n + 20)%nat.
Proof.
  intros Hn. pose proof p95_table as Ht. rewrite List.forallb_forall in Ht.
  specialize (Ht n). rewrite in_seq in Ht. specialize (Ht ltac:(lia)). unfold p95_exact in Ht.
  apply Z.eqb_eq in Ht. unfold p95_index. rewrite Ht. clear Ht.
  pose proof (Z.div_mod (19 * Z.of_nat n + 19) 20 ltac:(lia)).
  pose proof (Z.mod_pos_bound (19 * Z.of_nat n + 19) 20 ltac:(lia)).
  set (c := (19 * Z.of_nat n + 19) / 20) in *. clearbody c. lia.
Qed.

Lemma sorted_prefix_le (l : list Z) i x :
  StronglySorted (fun a b => (b <? a) = false) l -> l !! i = Some x ->
  Forall (fun y => y <= x) (take (S i) l).
Proof.
  intros Hs. revert i. induction Hs as [|y l Hs IH Hy]; intros i Hi; [done|].
  destruct i as [|i]; simpl in Hi.
  - injection Hi as ->. simpl. rewrite take_0. by repeat constructor.
  - cbn [take]. constructor; [|by apply IH].
    rewrite Forall_forall in Hy. specialize (Hy x (list_elem_of_lookup_2 _ _ _ Hi)). bool_to_prop. lia.
Qed.

(** What a calibration that passed says. *)
Definition calibrated (opts : ddminOptions) (records : list runRecord) (c : calibrationResult) : Prop :=
  LatenciesMS c ≡ₚ omap hit_latency records /\ LatenciesMS c <> [] /\
  P95MS c ∈ LatenciesMS c /\
  (19 * length (LatenciesMS c) <= 20 * length (filter (fun l => (l <= P95MS c)%Z) (LatenciesMS c)))%nat /\
  CandidateWindow c = Milliseconds (clamp_window opts (P95MS c)) /\
  cal_Passed c = true /\ cal_Records c = records /\ PositiveMinimumHit opts <= cal_Hits c.

Lemma filter_prefix_length (P : Z -> Prop) `{forall x, Decision (P x)} (l : list Z) n :
  Forall P (take n l) -> (n <= length l)%nat -> (n <= length (filter P l))%nat.
Proof.
  intros Hf Hn. rewrite <- (take_drop n l), filter_app, (filter_all P (take n l)) by done.
  rewrite !length_app, length_take. lia.
Qed.

Lemma omap_length_le {A B} (f : A -> option B) l : (length (omap f l) <= length l)%nat.
Proof. induction l as [|x l IH]; [done|]. csimpl. destruct (f x); cbn [length]; lia. Qed.

Lemma calibration_of_spec `{SortSlice} opts rep err c e :
  calibration_of opts rep err = (c, e) -> (length (Records rep) <= 500)%nat -> clean_error err ->
  e <> Some (ErrBatch ErrPanic) /\ cal_Records c = Records rep /\
  (e = None -> err = None /\ calibrated opts (Records rep) c).
Proof.
  unfold calibration_of. intros Hc Hlen Herr.
  destruct err as [err|]; [injection Hc as <- <-; split_and!; [by intros [= ->]|done|done]|].
  destruct (_ || _) eqn:Hor; [injection Hc as <- <-; done|]. bool_to_prop.
  set (ls := omap hit_latency (Records rep)) in *. set (l := sortSlice Z.ltb ls) in *.
  assert (Hperm : l ≡ₚ ls) by apply sortSlice_perm.
  assert (Hll : (1 <= length l <= 500)%nat).
  { rewrite Hperm. pose proof (omap_length_le hit_latency (Records rep)).
    assert (length ls <> 0%nat) by (by destruct ls). unfold ls in *. lia. }
  destruct (p95_index_exact _ Hll) as [Hin Hrange].
  destruct (lookup_lt_is_Some_2 l (p95_index (length l)) Hin) as [p Hp]. rewrite Hp in Hc.
  injection Hc as <- <-. split_and!; [done|done|]. intros _. split; [done|].
  unfold calibrated. cbn. split_and!; try done.
  - by destruct l.
  - by eapply list_elem_of_lookup_2.
  - pose proof (sorted_prefix_le l _ p (sortSlice_sorted _ Z.ltb ls (strict_weak_Z id)) Hp) as Hpre.
    pose proof (filter_prefix_length (fun l0 => (l0 <= p)%Z) l (S (p95_index (length l))) Hpre ltac:(lia)).
    lia.
Qed.

Lemma filter_length_all {A} (f : A -> bool) l :
  length (List.filter f l) = length l <-> Forall (fun x => f x = true) l.
Proof.
  induction l as [|x l IH]; simpl; [by split|]. rewrite Forall_cons, <- IH. clear IH.
  pose proof (List.filter_length_le f l). destruct (f x); simpl; split; intros Hl; [|lia|lia|].
  - split; [done|lia].
  - by destruct Hl.
Qed.

Lemma filter_length_none {A} (f : A -> bool) l :
  length (List.filter f l) = 0%nat <-> Forall (fun x => f x = false) l.
Proof.
  induction l as [|x l IH]; simpl; [by split|]. rewrite Forall_cons, <- IH. clear IH.
  destruct (f x); simpl; [split; [lia|by intros []]|by split; [|intros []]].
Qed.

(** ** Batches *)

Section BatchFacts.
Context `{SortSlice} `{Device} `{Json}.
Context (o : deviceOptions).
Hypothesis Hconfig : config_ok (Config o).

Abbreviation zero := (zero_data o).

(** Frame sets of the configuration. *)
Definition frames_known (ids : list nat) : Prop := forall i, i ∈ ids -> i ∈ allMessageFrameIDs (Config o).

Lemma does_test stage control target ids zeroMasks private state attempt ok window :
  frames_known ids ->
  Does (testCandidate o stage control target ids zeroMasks private state attempt ok window)
    (fun res ev => clean_error res.2 /\
       partial_tests (fun config => config = zero \/ config = masks_of o ids zeroMasks private) ev /\
       (res.2 = None -> complete_tests zero (masks_of o ids zeroMasks private) target window [res.1] ev)).
Proof.
  intros Hids. destruct (select_frames_ok (Config o) ids zeroMasks private Hconfig Hids) as (fs & Hfs & _).
  unfold masks_of. rewrite Hfs.
  eapply does_mono; [by apply does_testCandidate|]. intros res ev. apply tested_step.
Qed.

(** What a loop of tests still does: [rs0] are the records so far. *)
Record repeating (cand : list Z) (target : targetKind) (window minimumHits : Z) (n : nat)
    (acc : repeatedResult) (res : repeatedResult * option batchError) (ev : list event) : Prop := {
  rg_clean : clean_error res.2;
  rg_partial : partial_tests (fun config => config = zero \/ config = cand) ev;
  rg_success : res.2 = None -> exists rs,
    complete_tests zero cand target window rs ev /\
    Records res.1 = (Records acc ++ rs)%list /\ Runs res.1 = Runs acc /\
    Hits res.1 = count_hits (Records res.1) /\ Passed res.1 = (minimumHits <=? Hits res.1) /\
    (length rs <= n)%nat /\
    ((length rs < n)%nat -> Hits res.1 + (Z.of_nat n - Z.of_nat (length rs)) < minimumHits) /\
    (forall k, (0 < k < length rs)%nat ->
       minimumHits <= count_hits (Records acc ++ take k rs) + (Z.of_nat n - Z.of_nat k)) }.

Lemma does_repeat_loop n attempt stage control target ids private minimumHits ok window acc :
  frames_known ids ->
  Z.of_nat n = Z.max 0 (Runs acc) - Z.of_nat (length (Records acc)) ->
  attempt = Z.of_nat (length (Records acc)) + 1 -> Hits acc = count_hits (Records acc) ->
  Does (repeat_loop o n attempt stage control target ids private minimumHits ok window acc)
    (repeating (masks_of o ids false private) target window minimumHits n acc).
Proof.
  intros Hids. revert attempt acc. induction n as [|n IH]; intros attempt acc Hn -> Hh; simpl.
  { eapply does_mono; [apply does_ret|]. intros res ev [-> ->]. constructor; [done|apply partial_nil|].
    intros _. exists []. cbn. rewrite app_nil_r. split_and!; try done; try lia. }
  eapply does_bind; [by apply does_test|]. intros [r err] ev (Hc & Hp & Hok).
  set (acc' := mkRepeated _ _ _ _).
  destruct err as [e|].
  { eapply does_mono; [apply does_ret|]. intros res ev' [-> ->]. rewrite app_nil_r. by constructor. }
  specialize (Hok eq_refl).
  assert (Hh' : Hits acc' = count_hits (Records acc')).
  { unfold acc'. cbn. rewrite count_hits_app. unfold count_hits at 2. cbn. destruct (Result r); cbn; lia. }
  assert (Hlen' : length (Records acc') = S (length (Records acc))).
  { unfold acc'. cbn. rewrite length_app. cbn. lia. }
  assert (Hhit : (if Result r then Hits acc + 1 else Hits acc) = count_hits (Records acc ++ [r])%list) by exact Hh'.
  destruct (_ <? minimumHits) eqn:Hstop; bool_to_prop.
  - eapply does_mono; [apply does_ret|]. intros res ev' [-> ->]. rewrite app_nil_r. constructor; [done|done|].
    intros _. exists [r]. cbn. split_and!; try done; try lia.
  - eapply does_mono; [apply IH|].
    + change (Runs acc') with (Runs acc). lia.
    + lia.
    + done.
    + intros res ev' [Hc' Hp' Hs']. constructor; [done|by apply partial_app|].
      intros He. destruct (Hs' He) as (rs & Ht & Hr & Hru & Hhi & Hpa & Hle & Hearly & Hmin).
      exists (r :: rs). split; [apply (complete_app _ _ _ _ [r] rs); done|].
      split; [rewrite Hr; unfold acc'; cbn; by rewrite <- app_assoc|].
      split_and!; try done; [cbn; lia|cbn [length]; intros; lia|].
      intros [|k] Hk; [lia|]. cbn [take length] in *.
      rewrite cons_middle, app_assoc. change (Records acc ++ [r])%list with (Records acc').
      destruct k as [|k].
      * rewrite take_0, app_nil_r. rewrite <- Hh'. change (Hits acc') with (if Result r then Hits acc + 1 else Hits acc). lia.
      * specialize (Hmin (S k) ltac:(lia)). lia.
Qed.

Lemma does_runRepeated stage control target ids private runs minimumHits ok window :
  frames_known ids ->
  Does (runRepeated o stage control target ids private runs minimumHits ok window)
    (repeated zero (masks_of o ids false private) target window runs minimumHits).
Proof.
  intros Hids. eapply does_mono; [apply does_repeat_loop; cbn; [done|lia..|done]|].
  intros res ev [Hc Hp Hs]. constructor; [done|done|]. intros He.
  destruct (Hs He) as (rs & Ht & Hr & Hru & Hh & Hpa & Hle & Hearly & Hmin). cbn in *. subst rs.
  split; [done|]. split_and!; try done; [|by rewrite <- Hh].
  split_and!; [lia|intros; lia|]. intros k Hk. specialize (Hmin k Hk). lia.
Qed.

(** ** Minimisation *)

Abbreviation allIDs := (allMessageFrameIDs (Config o)).

Definition run_clean (e : option runError) : Prop :=
  match e with Some (ErrBatch e) => no_panic e | Some ErrUnlimited => False | _ => True end.

(** Complete tests of the frame sets [cs], in order. *)
Definition frame_masks (ids : list nat) : list Z := masks_of o ids false privateBoth.
Definition complete_runs (cs : list (list nat)) (ev : list event) : Prop :=
  bracketed ev /\ applied ev = concat ((fun ids => test_masks zero (frame_masks ids)) <$> cs).

(** The configurations a minimisation may apply. *)
Definition allowed (config : list Z) : Prop :=
  config = zero \/ exists ids, ids `sublist_of` allIDs /\ config = frame_masks ids.

Lemma complete_runs_app cs1 cs2 ev1 ev2 :
  complete_runs cs1 ev1 -> complete_runs cs2 ev2 -> complete_runs (cs1 ++ cs2) (ev1 ++ ev2).
Proof.
  intros [Hb1 Ha1] [Hb2 Ha2]. split; [by apply bracketed_app|].
  by rewrite applied_app, Ha1, Ha2, fmap_app, concat_app.
Qed.

Lemma complete_runs_nil : complete_runs [] [].
Proof. by split; [constructor|]. Qed.

Lemma complete_runs_quiet cs ev ev' :
  complete_runs cs ev -> bracketed ev' -> applied ev' = [] -> complete_runs cs (ev ++ ev').
Proof. intros [Hb Ha] Hb' Ha'. split; [by apply bracketed_app|]. by rewrite applied_app, Ha, Ha', app_nil_r. Qed.

Lemma sublist_known ids : ids `sublist_of` allIDs -> frames_known ids.
Proof. intros Hs i Hi. by eapply sublist_subseteq. Qed.

Lemma fmap_repeat {A B} (f : A -> B) x n : f <$> repeat x n = repeat (f x) n.
Proof. apply List.map_repeat. Qed.

Lemma known_all : frames_known allIDs.
Proof. by apply sublist_known. Qed.

(** A candidate run: its verdict rests on complete tests under the window. *)
Definition verdict (opts : ddminOptions) (window : Z) (res : repeatedResult) : Prop :=
  Forall (good_record (dd_Target opts) window) (Records res) /\
  decisive (CandidateRepeats opts) (CandidateMinHits opts) (Records res) /\
  Hits res = count_hits (Records res) /\
  Passed res = (CandidateMinHits opts <=? count_hits (Records res)).

Lemma does_candidate_run opts stage control ids window :
  ids `sublist_of` allIDs ->
  Does (candidate_run o opts stage control ids window) (fun res ev =>
    clean_error res.2 /\ partial_tests allowed ev /\
    (res.2 = None -> verdict opts window res.1 /\ complete_runs (repeat ids (length (Records res.1))) ev)).
Proof.
  intros Hids. eapply does_mono; [by apply does_runRepeated, sublist_known|].
  intros res ev [Hc Hp Hs]. split; [done|]. split.
  - eapply partial_weaken; [exact Hp|]. intros c [->| ->]; [by left|]. right. by exists ids.
  - intros He. destruct (Hs He) as ((Ha & Hr & Hg) & Hd & _ & Hh & Hpa). split; [done|].
    split; [apply Hp|]. by rewrite Ha, fmap_repeat.
Qed.

(** Worlds along the tests of a minimisation. *)
Definition ran (w w' : world) : Prop :=
  exists ev cs, grew w w' ev /\ Forall (fun ids => ids `sublist_of` allIDs) cs /\
    complete_runs cs ev.
Definition ran_partly (e : batchError) (w w' : world) : Prop :=
  exists ev, grew w w' ev /\ partial_tests allowed ev /\ no_panic e.

Lemma complete_partial cs ev :
  Forall (fun ids => ids `sublist_of` allIDs) cs -> complete_runs cs ev -> partial_tests allowed ev.
Proof.
  intros Hcs [Hb Ha]. split; [done|]. rewrite Ha. clear Ha Hb.
  induction Hcs as [|ids cs Hids Hcs IH]; [constructor|].
  repeat (constructor; [first [by left|right; by exists ids]|]). exact IH.
Qed.

Lemma does_minimise opts window :
  Does (minimise o opts allIDs window) (fun r ev => partial_tests allowed ev /\
    match r with
    | inl current => current `sublist_of` allIDs /\ (allIDs <> [] -> current <> []) /\
        exists cs, Forall (fun ids => ids `sublist_of` allIDs) cs /\ complete_runs cs ev
    | inr e => run_clean (Some e)
    end).
Proof.
  intros w. unfold wp, minimise.
  destruct (ddmin_total (frame_test o opts window) allIDs w) as (w' & r & Hr). rewrite Hr.
  assert (Hrefl : forall w, ran w w).
  { intros w0. exists [], []. split_and!; [apply grew_refl|constructor|apply complete_runs_nil]. }
  assert (Htrans : forall w1 w2 w3, ran w1 w2 -> ran w2 w3 -> ran w1 w3).
  { intros w1 w2 w3 (e1 & c1 & L1 & F1 & R1) (e2 & c2 & L2 & F2 & R2).
    exists (e1 ++ e2)%list, (c1 ++ c2)%list.
    split_and!; [by eapply grew_trans|by apply Forall_app|by apply complete_runs_app]. }
  assert (Hafter : forall e w1 w2 w3, ran w1 w2 -> ran_partly e w2 w3 -> ran_partly e w1 w3).
  { intros e w1 w2 w3 (e1 & c1 & L1 & F1 & R1) (e2 & L2 & R2 & He).
    exists (e1 ++ e2)%list. split_and!; [by eapply grew_trans| |done].
    apply partial_app; [by eapply complete_partial|done]. }
  assert (Htest : forall c w0, c `sublist_of` allIDs ->
    respects ran ran_partly w0 (frame_test o opts window c w0).1 (frame_test o opts window c w0).2).
  { intros c w0 Hc. unfold frame_test.
    pose proof (does_candidate_run opts "frame-ddmin" "" c window Hc w0) as Hd.
    apply wp_elim in Hd. destruct (candidate_run _ _ _ _ _ _ w0) as [[res err] w1].
    destruct Hd as (ev & Hw & Hcl & Hp & Hs). destruct err as [e|]; simpl.
    - by exists ev.
    - destruct (Hs eq_refl) as [_ Hrun]. eexists ev, _. split_and!; [done| |exact Hrun].
      apply Forall_forall. by intros x ->%list_elem_of_In%repeat_spec. }
  pose proof (ddmin_states (frame_test o opts window) ran ran_partly Hrefl Htrans Hafter allIDs w w' r
    Htest Hr) as Hst.
  destruct r as [current|e|]; simpl in *; [| |done].
  - apply ddmin_result in Hr as (Hsub & Hne & _). destruct Hst as (ev & cs & Hw & Hcs & Hrun).
    exists ev. split; [done|]. split; [by eapply complete_partial|]. by eauto.
  - by destruct Hst as (ev & ? & ? & ?); exists ev.
Qed.

(** ** The whole minimisation *)

Lemma does_WriteSummary name data :
  Does (WriteSummary o name data) (fun e ev => clean_error e /\ bracketed ev /\ applied ev = [] /\
    (e = None -> ev = [Wrote (path_Join [ReportDir o; name]) (data ++ [10])%list])).
Proof.
  apply does_quiet_fallible; [intros; split_and!; [done|constructor|done|done]|].
  eapply does_mono; [apply does_writeFileAtomic|]. intros [e|] ev [Hc ->]; split_and!; by repeat constructor.
Qed.

Lemma does_calibrate opts :
  CalibrationRuns opts <= 500 ->
  Does (calibrate o opts allIDs) (fun res ev => run_clean res.2 /\ partial_tests allowed ev /\
    (res.2 = None ->
       calibrated opts (cal_Records res.1) res.1 /\
       Forall (good_record (dd_Target opts) (MaximumWindow opts)) (cal_Records res.1) /\
       decisive (CalibrationRuns opts) (PositiveMinimumHit opts) (cal_Records res.1) /\
       complete_runs (repeat allIDs (length (cal_Records res.1))) ev)).
Proof.
  intros Hruns. eapply does_bind; [apply does_runRepeated, known_all|].
  intros [rep err] ev [Hc Hp Hs]. eapply does_mono; [apply does_ret|]. intros res ev' [-> ->].
  rewrite app_nil_r. assert (Hp' : partial_tests allowed ev).
  { eapply partial_weaken; [exact Hp|]. intros c [->| ->]; [by left|]. right.
    exists allIDs. split; reflexivity. }
  destruct err as [e|]; [by split_and!|]. destruct (Hs eq_refl) as ((Ha & Hr & Hg) & Hd & _). cbn [fst snd] in *.
  destruct (calibration_of opts rep None) as [c e] eqn:Hcal.
  destruct (calibration_of_spec opts rep None c e Hcal) as (Hnp & Hrec & Hok); [|done|].
  { destruct Hd as [Hlen _]. lia. }
  simpl. rewrite Hrec. split.
  { destruct e as [e|]; [|done]. unfold calibration_of in Hcal.
    destruct (_ || _); [by injection Hcal as <- <-|].
    destruct (_ !! _); [done|]. injection Hcal as <- <-. done. }
  split; [done|]. intros He. destruct (Hok He) as [_ Hcalib]. split_and!; try done.
  split; [apply Hp|]. by rewrite Ha, fmap_repeat.
Qed.

(** What [conclude] reports when it succeeds. *)
Record concluded (opts : ddminOptions) (current : list nat) (cw : Z)
    (calibration : calibrationResult) (empty : repeatedResult) (s : ddminSummary) (ev : list event) : Prop := {
  cc_frames : OriginalFrameIDs s = allIDs /\ MinimalFrameIDs s = current /\
    MinimalSSIDs s = allSSIDs (Config o) current /\ Calibration s = calibration /\ EmptyCandidate s = empty;
  cc_validation : verdict opts (cw * millisecond) (MinimalValidation s) /\ Passed (MinimalValidation s) = true;
  cc_control : verdict opts (cw * millisecond) (EndPositiveControl s) /\ Passed (EndPositiveControl s) = true;
  cc_masks : complete_runs (repeat current (length (Records (MinimalValidation s))) ++
                            repeat allIDs (length (Records (EndPositiveControl s)))) ev;
  cc_output : exists frames, selectFrames (Config o) current false privateBoth = Ok frames /\
    OutputConfigFrameCount s = length frames /\ Wrote (OutputConfig s) (encodeConfig frames) ∈ ev;
  cc_volume : WindowsComparable (Volume s) = (0 <? cw) }.

Lemma passed_nonempty opts window res :
  0 < CandidateMinHits opts -> verdict opts window res -> Passed res = true -> Records res <> [].
Proof.
  intros Hmin (_ & _ & _ & ->) Hp Hnil. rewrite Hnil in Hp. unfold count_hits in Hp. simpl in Hp.
  bool_to_prop. lia.
Qed.

Lemma common_duration opts cw res :
  verdict opts (cw * millisecond) res -> Records res <> [] -> commonCaptureDuration (Records res) = cw.
Proof.
  intros (Hg & _) Hne.
  assert (Hms : Milliseconds (cw * millisecond) = cw) by (apply Z.quot_mul; done).
  destruct (Records res) as [|r rest]; [done|]. simpl. apply Forall_cons in Hg as [[Hr _] Hg].
  rewrite Hms in Hr. rewrite (proj2 (List.forallb_forall _ _)); [done|].
  intros q Hq. rewrite Forall_forall in Hg. destruct (Hg q) as [Hd _]; [by apply list_elem_of_In|].
  rewrite Hd, Hms, Hr. apply Z.eqb_refl.
Qed.

Lemma does_conclude opts current cw calibration empty :
  0 < CandidateMinHits opts -> current `sublist_of` allIDs ->
  Does (conclude o opts allIDs current (cw * millisecond) calibration empty) (fun res ev =>
    run_clean res.2 /\ partial_tests allowed ev /\
    (res.2 = None -> concluded opts current cw calibration empty res.1 ev)).
Proof.
  intros Hmin Hsub. unfold conclude.
  eapply does_bind; [by apply does_candidate_run|]. intros [val err] ev1 (Hc1 & Hp1 & Hs1).
  destruct err as [e|].
  { eapply does_mono; [apply does_ret|]. intros res ev [-> ->]. by rewrite app_nil_r. }
  destruct (Hs1 eq_refl) as [Hv1 Hr1]. simpl in Hv1, Hr1. clear Hs1.
  destruct (Passed val) eqn:Hpass1; simpl.
  2: { eapply does_mono; [apply does_ret|]. intros res ev [-> ->]. by rewrite app_nil_r. }
  eapply does_bind; [by apply does_candidate_run|]. intros [ctl err] ev2 (Hc2 & Hp2 & Hs2).
  pose proof (partial_app _ _ _ Hp1 Hp2) as Hp. destruct err as [e|].
  { eapply does_mono; [apply does_ret|]. intros res ev [-> ->]. by rewrite app_nil_r. }
  destruct (Hs2 eq_refl) as [Hv2 Hr2]. simpl in Hv2, Hr2. clear Hs2.
  destruct (Passed ctl) eqn:Hpass2; simpl.
  2: { eapply does_mono; [apply does_ret|]. intros res ev [-> ->]. by rewrite app_nil_r. }
  destruct (select_frames_ok (Config o) current false privateBoth Hconfig (sublist_known _ Hsub))
    as (frames & Hsel & _).
  rewrite Hsel. eapply does_bind; [apply does_writeFileAtomic|]. intros e ev3 [Hc3 ->].
  destruct e as [e|].
  { eapply does_mono; [apply does_ret|]. intros res ev [-> ->]. by rewrite !app_nil_r. }
  eapply does_bind; [apply does_ask|]. intros stamp ev ->.
  eapply does_bind; [apply does_WriteSummary|]. intros e ev4 (Hc4 & Hb4 & Ha4 & _).
  eapply does_mono; [apply does_ret|]. intros res ev [-> ->]. rewrite app_nil_r. simpl.
  assert (Hquiet : bracketed (Wrote (ReportDir o ++ "/" ++ output_name (dd_Target opts)) (encodeConfig frames) :: ev4))
    by by constructor.
  split; [by destruct e|]. split.
  { rewrite app_assoc. apply partial_app; [done|]. split; [done|]. simpl. by rewrite Ha4. }
  intros _. constructor; simpl; try done.
  - rewrite app_assoc. apply complete_runs_quiet; [by apply complete_runs_app|done|done].
  - exists frames. split_and!; [done|done|]. apply elem_of_app. right. apply elem_of_app. right. left.
  - unfold compareVolumes. destruct (averageVolume (Records ctl)), (averageVolume (Records val)). simpl.
    rewrite (common_duration opts cw ctl), (common_duration opts cw val), Z.eqb_refl, andb_true_r; try done;
      by eapply passed_nonempty.
Qed.

(** What a minimisation reports when it succeeds; [mids] are the frame sets
    the delta debugging tested. *)
Record minimised (opts : ddminOptions) (s : ddminSummary) (ev : list event) : Prop := {
  mi_original : OriginalFrameIDs s = allIDs /\ MinimalFrameIDs s `sublist_of` allIDs;
  mi_calibration : calibrated opts (cal_Records (Calibration s)) (Calibration s) /\
    Forall (good_record (dd_Target opts) (MaximumWindow opts)) (cal_Records (Calibration s)) /\
    decisive (CalibrationRuns opts) (PositiveMinimumHit opts) (cal_Records (Calibration s));
  mi_empty : verdict opts (CandidateWindow (Calibration s) * millisecond) (EmptyCandidate s) /\
    (Passed (EmptyCandidate s) = true -> MinimalFrameIDs s = []) /\
    (Passed (EmptyCandidate s) = false -> allIDs <> [] -> MinimalFrameIDs s <> []);
  mi_validation : verdict opts (CandidateWindow (Calibration s) * millisecond) (MinimalValidation s) /\
    Passed (MinimalValidation s) = true;
  mi_control : verdict opts (CandidateWindow (Calibration s) * millisecond) (EndPositiveControl s) /\
    Passed (EndPositiveControl s) = true;
  mi_masks : exists mids, Forall (fun ids => ids `sublist_of` allIDs) mids /\
    complete_runs (repeat allIDs (length (cal_Records (Calibration s))) ++
                   repeat [] (length (Records (EmptyCandidate s))) ++ mids ++
                   repeat (MinimalFrameIDs s) (length (Records (MinimalValidation s))) ++
                   repeat allIDs (length (Records (EndPositiveControl s)))) ev;
  mi_output : exists frames, selectFrames (Config o) (MinimalFrameIDs s) false privateBoth = Ok frames /\
    OutputConfigFrameCount s = length frames /\ Wrote (OutputConfig s) (encodeConfig frames) ∈ ev;
  mi_volume : WindowsComparable (Volume s) = (0 <? CandidateWindow (Calibration s)) }.

Lemma does_ddmin_batch opts :
  CalibrationRuns opts <= 500 -> 0 < CandidateMinHits opts ->
  Does (ddmin_batch o opts) (fun res ev => run_clean res.2 /\ partial_tests allowed ev /\
    (res.2 = None -> exists s, res.1 = Some s /\ minimised opts s ev)).
Proof.
  intros Hruns Hmin. unfold ddmin_batch.
  eapply does_bind; [by apply does_calibrate|]. intros [cal err] ev1 (Hc1 & Hp1 & Hs1).
  destruct err as [e|].
  { eapply does_mono; [apply does_ret|]. intros res ev [-> ->]. by rewrite app_nil_r. }
  destruct (Hs1 eq_refl) as (Hcal & Hgood & Hdec & Hrun1). clear Hs1. simpl in Hcal, Hgood, Hdec, Hrun1.
  eapply does_bind; [apply does_candidate_run, sublist_nil_l|]. intros [empty err] ev2 (Hc2 & Hp2 & Hs2).
  pose proof (partial_app _ _ _ Hp1 Hp2) as Hp. destruct err as [e|].
  { eapply does_mono; [apply does_ret|]. intros res ev [-> ->]. by rewrite app_nil_r. }
  destruct (Hs2 eq_refl) as [Hv2 Hrun2]. clear Hs2. simpl in Hv2, Hrun2.
  eapply (does_bind _ _ (fun r ev => partial_tests allowed ev /\
    match r with
    | inl current => current `sublist_of` allIDs /\
        (Passed empty = true -> current = []) /\
        (Passed empty = false -> allIDs <> [] -> current <> []) /\
        exists cs, Forall (fun ids => ids `sublist_of` allIDs) cs /\ complete_runs cs ev
    | inr e => run_clean (Some e)
    end)).
  { destruct (Passed empty) eqn:Hpe.
    - eapply does_mono; [apply does_ret|]. intros r ev [-> ->]. split; [apply partial_nil|].
      split_and!; try done; [apply sublist_nil_l|]. exists []. split; [constructor|apply complete_runs_nil].
    - eapply does_mono; [apply does_minimise|]. intros [cur|e] ev [Hpe3 H3]; (split; [done|]); [|done].
      destruct H3 as (? & ? & ?). by split_and!. }
  intros r ev3 [Hp3 Hr3]. destruct r as [current|e].
  2: { eapply does_mono; [apply does_ret|]. intros res ev [-> ->]. rewrite app_nil_r. split_and!; [done| |done].
       rewrite app_assoc. by apply partial_app. }
  destruct Hr3 as (Hsub & He1 & He2 & mids & Hmids & Hrun3).
  eapply does_bind; [by apply does_conclude|]. intros [s err] ev4 (Hc4 & Hp4 & Hs4).
  eapply does_mono; [apply does_ret|]. intros res ev [-> ->]. rewrite app_nil_r. simpl.
  split; [done|]. split.
  { rewrite !app_assoc. apply partial_app; [|done]. by apply partial_app. }
  intros ->. exists s. split; [done|].
  destruct (Hs4 eq_refl) as [(F1 & F2 & F3 & F4 & F5) Hval Hctl Hmasks Hout Hvol]. simpl in *.
  constructor; rewrite ?F1, ?F2, ?F4, ?F5; try done.
  - exists mids. split; [done|]. do 3 (apply complete_runs_app; [done|]). done.
  - destruct Hout as (frames & ? & ? & ?). exists frames. split_and!; [done|done|].
    do 3 (apply elem_of_app; right). done.
Qed.

(** ** Controls *)

(** A control group that ran to its end: [zeroMasks] and [private] choose what
    is applied, [expected] what is expected of it. *)
Record group_ran (opts : controlOptions) (name : string) (expected zeroMasks : bool)
    (private : privateMode) (g : controlGroupResult) (ev : list event) : Prop := {
  gp_name : Name g = name /\ ExpectedMatch g = expected /\ gr_Runs g = Repeats opts;
  gp_length : length (gr_Records g) = Z.to_nat (Repeats opts);
  gp_tests : bracketed ev /\ complete_tests zero (masks_of o allIDs zeroMasks private) (co_Target opts)
    (co_Window opts) (gr_Records g) ev;
  gp_hits : ObservedHits g = count_hits (gr_Records g);
  gp_expectation : ExpectationMet g = true <->
    if expected then Forall (fun r => Result r = true) (gr_Records g)
    else Forall (fun r => controlHasUnexpectedTarget r (co_Target opts) = false) (gr_Records g) }.

Definition count_unexpected (target : targetKind) (rs : list runRecord) : Z :=
  Z.of_nat (length (List.filter (fun r => controlHasUnexpectedTarget r target) rs)).

(** The configurations a control run may apply. *)
Definition control_masks (config : list Z) : Prop :=
  config = zero \/ exists zeroMasks private, config = masks_of o allIDs zeroMasks private.

Lemma does_group_loop n attempt opts zeroMasks private ok acc :
  Does (group_loop o n attempt opts allIDs zeroMasks private ok acc) (fun res ev =>
    clean_error res.2 /\ partial_tests control_masks ev /\
    (res.2 = None -> exists rs,
       complete_tests zero (masks_of o allIDs zeroMasks private) (co_Target opts) (co_Window opts) rs ev /\
       length rs = n /\ gr_Records res.1 = (gr_Records acc ++ rs)%list /\
       Name res.1 = Name acc /\ ExpectedMatch res.1 = ExpectedMatch acc /\ gr_Runs res.1 = gr_Runs acc /\
       ObservedHits res.1 = ObservedHits acc + count_hits rs /\
       ExpectationMet res.1 =
         if ExpectedMatch acc then ObservedHits acc + count_hits rs =? gr_Runs acc
         else UnexpectedRuns acc + count_unexpected (co_Target opts) rs =? 0)).
Proof.
  revert attempt acc. induction n as [|n IH]; intros attempt acc; cbn [group_loop].
  { eapply does_mono; [apply does_ret|]. intros res ev [-> ->]. split; [done|]. split; [apply partial_nil|].
    intros _. exists []. unfold count_hits, count_unexpected. cbn. rewrite app_nil_r, !Z.add_0_r.
    split; [by repeat constructor|done]. }
  eapply does_bind; [apply does_test, known_all|]. intros [r err] ev (Hc & Hp & Hok).
  assert (Hp' : partial_tests control_masks ev).
  { eapply partial_weaken; [exact Hp|]. intros c [->| ->]; [by left|]. right. eexists _, _. reflexivity. }
  destruct err as [e|].
  { eapply does_mono; [apply does_ret|]. intros res ev' [-> ->]. by rewrite app_nil_r. }
  specialize (Hok eq_refl). cbn [fst snd] in Hok. set (acc' := mkGroup _ _ _ _ _ _ _ _ _).
  eapply does_mono; [apply (IH _ acc')|]. intros res ev' (Hc' & Hpp & Hs).
  split; [done|]. split; [by apply partial_app|]. intros He.
  destruct (Hs He) as (rs & Ht & Hl & Hr & Hname & Hexp & Hruns & Hhits & Hmet).
  exists (r :: rs). split; [apply (complete_app _ _ _ _ [r] rs); done|].
  assert (Hh : ObservedHits acc' + count_hits rs = ObservedHits acc + count_hits (r :: rs)).
  { unfold acc', count_hits. cbn. destruct (Result r); cbn; lia. }
  split_and!; [cbn; lia|rewrite Hr; unfold acc'; cbn; by rewrite <- app_assoc|done..|by rewrite <- Hh|].
  rewrite Hmet. change (ExpectedMatch acc') with (ExpectedMatch acc). change (gr_Runs acc') with (gr_Runs acc).
  destruct (ExpectedMatch acc) eqn:He'; [by rewrite Hh|]. f_equal.
  unfold acc', count_unexpected. cbn. destruct (controlHasUnexpectedTarget r _); cbn; lia.
Qed.

Lemma does_runGroup opts name expected zeroMasks private ok :
  0 <= Repeats opts ->
  Does (runGroup o opts name expected allIDs zeroMasks private ok) (fun res ev =>
    clean_error res.2 /\ partial_tests control_masks ev /\
    (res.2 = None -> group_ran opts name expected zeroMasks private res.1 ev)).
Proof.
  intros Hrep. eapply does_mono; [apply does_group_loop|]. intros res ev (Hc & Hp & Hs). split_and!; [done|done|].
  intros He. destruct (Hs He) as (rs & Ht & Hl & Hr & Hname & Hexp & Hruns & Hhits & Hmet). cbn in *. subst rs.
  constructor; try done.
  - split; [apply Hp|done].
  - rewrite Hmet. destruct expected; rewrite Z.eqb_eq.
    + rewrite <- filter_length_all. unfold count_hits. lia.
    + rewrite <- filter_length_none. unfold count_unexpected. lia.
Qed.

(** The groups in their order: name, expectation, zeroed masks, private frames. *)
Definition control_plan : list (string * bool * bool * privateMode) :=
  [("all-off", false, true, privateNone); ("message-only", false, false, privateNone);
   ("positive", true, false, privateBoth); ("zero-mask-private", false, true, privateBoth);
   ("positive-end", true, false, privateBoth)].

(** A control run that reported no error: its groups, each with its events,
    followed by the writing of the summary. *)
Definition control_groups (opts : controlOptions) (s : controlsSummary)
    (gs : list (controlGroupResult * list event)) : Prop :=
  Forall2 (fun entry ge => let '(name, expected, zeroMasks, private) := entry in
    group_ran opts name expected zeroMasks private ge.1 ge.2) control_plan gs /\
  Groups s = fst <$> gs /\
  Forall (fun g => ExpectedMatch g = true -> MinimumPositiveHit opts <= ObservedHits g) (Groups s).

Definition controls_done (opts : controlOptions) (s : controlsSummary) (ev : list event) : Prop :=
  cs_Target s = co_Target opts /\ ColdStateConfirmed s = true /\ cs_PositiveControlStatus s = true /\
  is_Some (Completed s) /\
  exists gs path, control_groups opts s gs /\
    ev = (concat (snd <$> gs) ++ [Wrote path (encode_controls s ++ [10])])%list.

Definition controls_result (opts : controlOptions) (before : list event)
    (res : option controlsSummary * option runError) (ev : list event) : Prop :=
  run_clean res.2 /\ partial_tests control_masks ev /\
  (res.2 = None -> exists s, res.1 = Some s /\ controls_done opts s (before ++ ev)).

Lemma does_then_group opts name expected zeroMasks private ok summary k before :
  0 <= Repeats opts ->
  (forall g ev, group_ran opts name expected zeroMasks private g ev ->
     Does (k g (add_group g summary)) (controls_result opts (before ++ ev))) ->
  Does (then_group o opts name expected zeroMasks private ok summary k) (controls_result opts before).
Proof.
  intros Hrep Hk. eapply does_bind; [by apply does_runGroup|]. intros [g err] ev (Hc & Hp & Hs).
  destruct err as [e|].
  { eapply does_mono; [apply does_ret|]. intros res ev' [-> ->]. by rewrite app_nil_r. }
  eapply does_mono; [by apply Hk, Hs|]. intros res ev' (Hc' & Hp' & Hs').
  split; [done|]. split; [by apply partial_app|]. by rewrite app_assoc.
Qed.

Lemma controls_failed opts before summary e :
  run_clean (Some e) -> Does (mret (Some summary, Some e)) (controls_result opts before).
Proof.
  intros He. eapply does_mono; [apply does_ret|]. intros res ev [-> ->].
  split_and!; [done|apply partial_nil|done].
Qed.

Lemma control_repeats opts : 0 <= Repeats (with_control_defaults opts).
Proof. simpl. destruct (Repeats opts <=? 0) eqn:?; bool_to_prop; lia. Qed.

Lemma does_controlsRun opts :
  Does (controlsRun o opts) (controls_result (with_control_defaults opts) []).
Proof.
  unfold controlsRun. destruct (co_ColdState opts); cbn [negb].
  2: { eapply does_mono; [apply does_ret|]. intros res ev [-> ->]. split_and!; [done|apply partial_nil|done]. }
  cbv zeta. pose proof (control_repeats opts) as Hrep. revert Hrep.
  generalize (with_control_defaults opts) as dopts. intros dopts Hrep.
  apply does_then_group; [done|]. intros g1 e1 R1.
  apply does_then_group; [done|]. intros g2 e2 R2.
  apply does_then_group; [done|]. intros g3 e3 R3.
  destruct (ObservedHits g3 <? _) eqn:H3; [by apply controls_failed|]. bool_to_prop.
  apply does_then_group; [done|]. intros g4 e4 R4.
  apply does_then_group; [done|]. intros g5 e5 R5.
  destruct (ObservedHits g5 <? _) eqn:H5; [by apply controls_failed|]. bool_to_prop.
  eapply does_bind; [apply does_ask|]. intros stamp ev ->.
  eapply does_bind; [apply does_WriteSummary|]. intros e ev (Hc & Hb & Ha & Hw).
  eapply does_mono; [apply does_ret|]. intros res ev' [-> ->]. rewrite app_nil_r.
  split; [by destruct e|]. split; [split; [done|simpl; by rewrite Ha]|].
  intros He. assert (e = None) as -> by by destruct e. rewrite (Hw eq_refl).
  eexists. split; [reflexivity|]. split_and!; try done.
  exists [(g1, e1); (g2, e2); (g3, e3); (g4, e4); (g5, e5)]. eexists. split.
  - split; [repeat (apply Forall2_cons_2; [assumption|]); apply Forall2_nil_2|]. split; [done|].
    cbn. repeat (apply Forall_cons; split); [..|constructor]; intros Hexp; try lia;
      match goal with R : group_ran _ _ _ _ _ ?g _ |- _ <= ObservedHits ?g =>
        by rewrite (proj1 (proj2 (gp_name _ _ _ _ _ _ _ R))) in Hexp end.
  - simpl. rewrite app_nil_r, <- !app_assoc. reflexivity.
Qed.

End BatchFacts.

(** ** The report of a control run *)

(** A control run for both technologies covers every target. *)
Definition covers (have want : targetKind) : Prop := have = want \/ have = targetCombined.

Lemma plan_names opts o `{SortSlice} gs :
  Forall2 (fun entry ge => let '(name, expected, zeroMasks, private) := entry in
    group_ran o opts name expected zeroMasks private ge.1 ge.2) control_plan gs ->
  Name <$> (fst <$> gs) = controls_wanted.
Proof.
  intros Hf. unfold control_plan in Hf. decompose_Forall_hyps.
  repeat match goal with R : group_ran _ _ _ _ _ _ _ _ |- _ => destruct (gp_name _ _ _ _ _ _ _ _ R) as (? & _ & _); clear R end.
  simpl. unfold controls_wanted. by repeat f_equal.
Qed.

Lemma validate_controls_ok s want :
  ColdStateConfirmed s = true -> cs_PositiveControlStatus s = true -> is_Some (Completed s) ->
  Name <$> Groups s = controls_wanted -> covers (cs_Target s) want -> validate_controls s want = None.
Proof.
  intros Hcold Hpos [stamp Hdone] Hnames Hcov. unfold validate_controls. rewrite Hcold, Hpos, Hdone, Hnames.
  simpl. destruct Hcov as [-> | ->]; by destruct want.
Qed.

(** The check sees nothing but the view of a report. *)
Lemma validate_view s s' want :
  controls_view s' = controls_view s -> validate_controls s' want = validate_controls s want.
Proof.
  unfold controls_view, validate_controls. intros [= Ht Hc Hp Hd Hn].
  rewrite Ht, Hc, Hp, Hn. destruct (Completed s), (Completed s'); simpl in Hd; try done;
    rewrite bool_decide_eq_true_2 in Hd; naive_solver.
Qed.

Lemma wp_validate `{Device} `{Json} path target (Q : option runError -> world -> Prop) w :
  (forall e w', same w w' ->
     (e = None -> exists data report, w_files w !! path = Some data /\ decode_controls data = Some report /\
        validate_controls report target = None) ->
     run_clean e -> Q e w') ->
  wp (validateControlsReport path target) Q w.
Proof.
  intros HQ. unfold validateControlsReport. case_bool_decide; [by apply wp_ret, HQ|].
  apply wp_bind, wp_call. intros ok w1 Hw. apply wp_bind, wp_get, wp_ret.
  assert (Hf : w_files w1 = w_files w) by apply Hw. apply HQ; [done| |].
  - rewrite Hf. destruct (w_files w !! path) as [data|]; [|done]. destruct ok; [|done]. simpl.
    destruct (decode_controls data) as [report|] eqn:?; [|done]. intros. by exists data, report.
  - destruct (w_files w1 !! path) as [data|]; [|done]. destruct ok; [|done]. simpl.
    destruct (decode_controls data) as [report|]; [|done]. unfold validate_controls.
    repeat (destruct (_ : bool); [done|]). done.
Qed.

Lemma dd_defaults_min opts : 0 < CandidateMinHits (with_dd_defaults opts).
Proof. simpl. destruct (CandidateMinHits opts <=? 0) eqn:?; bool_to_prop; lia. Qed.

Lemma clamp_window_bounds opts p95 :
  0 < MinimumWindow opts -> MinimumWindow opts <= MaximumWindow opts ->
  MinimumWindow opts <= clamp_window opts p95 <= MaximumWindow opts.
Proof.
  intros Hpos Hle. unfold clamp_window. set (x := swrap 64 _). clearbody x.
  rewrite (proj2 (Z.ltb_lt 0 (MaximumWindow opts))) by lia. simpl.
  destruct (x <? MinimumWindow opts) eqn:Hx; bool_to_prop;
    match goal with |- context [if ?b then _ else _] => destruct b eqn:Hb end; bool_to_prop; lia.
Qed.

(** * Properties *)

(** C35: a minimisation reports only what it has tested.  It succeeds only
    under a controls report on disk that passes the check for its target; then
    the calibration, the empty set, every set the delta debugging tried, the
    minimal set and the final positive control were each tested by complete
    runs zero, candidate, zero, in this order; the minimal set is a
    sub-sequence of the message frames, it and the final control reached the
    required hits under the calibrated window, and the file written under the
    reported name is exactly the encoding of its frames beside all private
    ones.  Whatever happens, no configuration other than zero and selections of
    the original frames is applied, every process has ended before the next
    one starts, and the minimisation ends without a run-time panic. *)
Theorem ddminRun_spec `{SortSlice} `{Device} `{Json} (o : deviceOptions) (opts : ddminOptions) (w : world) :
  config_ok (Config o) -> CalibrationRuns opts <= 500 ->
  let '(result, w') := ddminRun o opts w in
  exists ev, grew w w' ev /\ run_clean result.2 /\ partial_tests (allowed o) ev /\
    (result.2 = None ->
       (exists data report, w_files w !! ControlsReport opts = Some data /\
          decode_controls data = Some report /\ validate_controls report (dd_Target opts) = None) /\
       exists s, result.1 = Some s /\ minimised o (with_dd_defaults opts) s ev).
Proof.
  intros Hok Hruns. apply (wp_elim _ (fun result w' => _)).
  apply wp_bind, wp_validate. intros e w1 Hlog Hrep Hclean. destruct e as [e|].
  { apply wp_ret. exists []. split_and!; [by apply grew_nil; apply Hlog|done|apply partial_nil|done]. }
  assert (Hruns' : CalibrationRuns (with_dd_defaults opts) <= 500).
  { simpl. by destruct (CalibrationRuns opts <=? 0). }
  eapply wp_mono; [apply (does_ddmin_batch o Hok _ Hruns' (dd_defaults_min opts))|].
  intros [summary err] w' (ev & Hw & Hc & Hp & Hs). exists ev.
  split_and!; [apply (grew_trans _ w1 _ [] ev); [by apply grew_nil; apply Hlog|done]|done|done|]. intros He. split; [by apply Hrep|]. by apply Hs.
Qed.

(** a control run keeps its order and its report is accepted.  It starts
    only with a confirmed cold state.  Without an error the five groups ran in
    their fixed order, each as the configured number of complete tests, the two
    groups without private frames before any private frame was sent; the
    expectation recorded for a group is that of its records, both positive
    groups reached the required hits, and the summary written last, read back
    from any file, passes the check of a minimisation for every target it
    covers.  Whatever happens, only zero and the group's configurations are
    applied and no run-time panic occurs. *)
Theorem controlsRun_spec `{SortSlice} `{Device} `{JsonLaws} (o : deviceOptions) (opts : controlOptions)
    (w : world) :
  config_ok (Config o) ->
  let '(result, w') := controlsRun o opts w in
  exists ev, grew w w' ev /\ run_clean result.2 /\ partial_tests (control_masks o) ev /\
    (result.2 = None -> co_ColdState opts = true /\
       exists s, result.1 = Some s /\ controls_done o (with_control_defaults opts) s ev /\
         forall want path w2, covers (cs_Target s) want -> path <> "" -> dv_ok (w_calls w2) = true ->
           w_files w2 !! path = Some (encode_controls s ++ [10])%list ->
           (validateControlsReport path want w2).1 = None).
Proof.
  intros Hok. destruct (co_ColdState opts) eqn:Hcold.
  2: { unfold controlsRun. rewrite Hcold. exists []. split_and!; [apply grew_refl|done|apply partial_nil|done]. }
  apply (wp_elim _ (fun result w' => _)). eapply wp_mono; [by apply does_controlsRun|].
  intros [summary err] w' (ev & Hw & Hc & Hp & Hs). exists ev. split_and!; [done|done|done|].
  intros He. split; [done|]. destruct (Hs He) as (s & Hsum & Hd). exists s. split; [done|]. split; [done|].
  intros want path w2 Hcov Hpath Hread Hfile. destruct Hd as (_ & Hcs & Hpos & Hdone & gs & p & (Hplan & Hgs & _) & _).
  destruct (decode_encode s) as (s' & Hdec & Hview).
  unfold validateControlsReport. rewrite bool_decide_eq_false_2 by done.
  unfold mbind, st_bind, attempt, st_get. simpl. rewrite Hread, Hfile, Hdec.
  change (validate_controls s' want = None). rewrite (validate_view _ _ _ Hview).
  apply validate_controls_ok; try done. rewrite Hgs. by eapply plan_names.
Qed.

(** stopping a candidate early never changes its verdict.  The records of
    a repeated run without error decide it: whatever the runs that were skipped
    would have given, the verdict is that of all runs, and after fewer runs the
    minimum was still within reach; each record belongs to one complete test of
    the candidate. *)
Theorem runRepeated_verdict `{SortSlice} `{Device} `{Json} (o : deviceOptions) (stage control : string)
    (target : targetKind) (frameIDs : list nat) (private : privateMode) (runs minimumHits : Z)
    (positiveOK : bool) (window : Z) (w : world) :
  config_ok (Config o) -> frames_known o frameIDs ->
  let '(result, w') := runRepeated o stage control target frameIDs private runs minimumHits positiveOK window w in
  result.2 = None ->
  (forall skipped, length (Records result.1 ++ skipped) = Z.to_nat runs ->
     Passed result.1 = (minimumHits <=? count_hits (Records result.1 ++ skipped))) /\
  (forall k, (0 < k < length (Records result.1))%nat ->
     minimumHits <= count_hits (take k (Records result.1)) + (runs - Z.of_nat k)) /\
  Hits result.1 = count_hits (Records result.1) /\
  exists ev, grew w w' ev /\
    complete_tests (zero_data o) (masks_of o frameIDs false private) target window (Records result.1) ev.
Proof.
  intros Hok Hids. apply (wp_elim _ (fun result w' => _)).
  eapply wp_mono; [by apply does_runRepeated|]. intros result w' (ev & Hw & [Hc Hp Hs]) He.
  destruct (Hs He) as (Ht & (Hlen & Hearly & Hmin) & _ & Hh & ->). split_and!; [|done|done|by exists ev].
  intros skipped Hskip. rewrite length_app in Hskip. rewrite count_hits_app.
  pose proof (count_hits_range skipped). pose proof (count_hits_range (Records result.1)).
  destruct (decide (skipped = [])) as [->|Hne].
  { unfold count_hits at 3. simpl. by rewrite Z.add_0_r. }
  assert (0 < length skipped)%nat by (destruct skipped; [done|simpl; lia]).
  specialize (Hearly ltac:(lia)). rewrite !(proj2 (Z.leb_gt _ _)) by lia. done.
Qed.

(** a calibration that passes derives its window from the right latency.
    Up to 500 runs the floating-point index is exactly that of the 95th
    percentile, never out of range: at least 95 percent of the hit latencies are
    at most the chosen one, which is one of them.  The window in milliseconds
    lies between the configured bounds, and unless it is capped it leaves the
    margin beyond the percentile, as long as their sum fits 64 bits. *)
Theorem calibrate_window `{SortSlice} `{Device} `{Json} (o : deviceOptions) (opts : ddminOptions) (w : world) :
  config_ok (Config o) -> CalibrationRuns opts <= 500 ->
  0 < MinimumWindow opts -> MinimumWindow opts <= MaximumWindow opts ->
  let '(result, w') := calibrate o opts (allMessageFrameIDs (Config o)) w in
  let c := result.1 in
  run_clean result.2 /\
  (result.2 = None -> calibrated opts (cal_Records c) c /\
     MinimumWindow opts - millisecond < CandidateWindow c * millisecond <= MaximumWindow opts /\
     (0 <= P95MS c -> 0 <= WindowMargin opts -> P95MS c * millisecond + WindowMargin opts < 2 ^ 63 ->
      P95MS c * millisecond + WindowMargin opts < (CandidateWindow c + 1) * millisecond \/
      MaximumWindow opts < (CandidateWindow c + 1) * millisecond)).
Proof.
  intros Hok Hruns Hpos Hle. apply (wp_elim _ (fun result w' => _)).
  eapply wp_mono; [by apply does_calibrate|]. intros result w' (ev & Hw & Hc & _ & Hs).
  split; [done|]. intros He. destruct (Hs He) as (Hcal & _). split; [done|].
  destruct Hcal as (_ & _ & _ & _ & -> & _).
  pose proof (clamp_window_bounds opts (P95MS result.1) Hpos Hle) as Hb.
  unfold Milliseconds. rewrite Z.quot_div_nonneg by (unfold millisecond; lia).
  pose proof (Z.div_mod (clamp_window opts (P95MS result.1)) millisecond ltac:(done)) as Hdm.
  pose proof (Z.mod_pos_bound (clamp_window opts (P95MS result.1)) millisecond ltac:(done)) as Hm.
  split; [lia|]. intros H95 Hmargin Hfit.
  assert (Hcw : P95MS result.1 * millisecond + WindowMargin opts <= clamp_window opts (P95MS result.1) \/
                clamp_window opts (P95MS result.1) = MaximumWindow opts); [|lia].
  clear Hdm Hm Hb. unfold clamp_window.
  rewrite (swrap_id 64 (P95MS result.1 * millisecond)) by (unfold millisecond in *; lia).
  rewrite swrap_id by (unfold millisecond in *; lia).
  rewrite (proj2 (Z.ltb_lt 0 (MaximumWindow opts))) by lia. simpl.
  destruct (_ <? MinimumWindow opts) eqn:Hx; bool_to_prop;
    match goal with |- context [if ?b then _ else _] => destruct b eqn:Hbb end; bool_to_prop; lia.
Qed.

(** ** Samples *)

(** A codec that keeps what the check looks at. *)
Fixpoint read_names (k : nat) (l : list Z) : list string :=
  match k, l with
  | S k, n :: rest => bytes_string (take (Z.to_nat n) rest) :: read_names k (drop (Z.to_nat n) rest)
  | _, _ => []
  end.
Definition write_names (names : list string) : list Z :=
  flat_map (fun name => Z.of_nat (length (string_bytes name)) :: string_bytes name) names.

Definition sample_group (name : string) : controlGroupResult := mkGroup name false 0 0 0 0 0 false [].
Definition target_code (t : targetKind) : Z := match t with targetNR => 0 | targetLTE => 1 | targetCombined => 2 end.

#[local] Instance sample_json : Json := {|
  encode_controls := fun s =>
    ([target_code (cs_Target s); Z.b2z (bool_decide (is_Some (Completed s))); Z.b2z (ColdStateConfirmed s);
      Z.b2z (cs_PositiveControlStatus s); Z.of_nat (length (Groups s))] ++ write_names (Name <$> Groups s))%list;
  decode_controls := fun data =>
    match data with
    | t :: c :: cold :: pos :: n :: names =>
      Some (mkControls (if t =? 0 then targetNR else if t =? 1 then targetLTE else targetCombined)
              (if c =? 1 then Some "T" else None) (cold =? 1) []
              (sample_group <$> read_names (Z.to_nat n) names) (pos =? 1))
    | _ => None
    end;
  encode_ddmin := fun _ => [] |}.

Lemma bytes_string_bytes s : bytes_string (string_bytes s) = s.
Proof.
  unfold bytes_string, string_bytes. rewrite <- (String.string_of_list_ascii_of_string s) at 2. f_equal.
  rewrite <- list_fmap_compose. rewrite <- (list_fmap_id (chars s)) at 2. apply list_fmap_ext. intros i c _.
  unfold chr, ord. simpl. rewrite N2Z.id. apply ascii_N_embedding.
Qed.

Lemma read_write_names names tail : read_names (length names) (write_names names ++ tail) = names.
Proof.
  induction names as [|name names IH]; [done|]. simpl. rewrite Nat2Z.id, <- !app_assoc.
  rewrite take_app_length, drop_app_length, bytes_string_bytes. by f_equal.
Qed.

#[local] Instance sample_json_laws : JsonLaws.
Proof.
  constructor. intros s. eexists. split; [reflexivity|]. unfold controls_view. simpl.
  rewrite Nat2Z.id, <- (length_fmap Name (Groups s)), read_write_names.
  rewrite <- list_fmap_compose. repeat f_equal.
  - by destruct (cs_Target s).
  - by destruct (ColdStateConfirmed s).
  - by destruct (cs_PositiveControlStatus s).
  - by destruct (Completed s).
  - by apply list_fmap_id.
Qed.

Definition sample_controls : controlOptions := mkControlOptions targetLTE 2 0 true second.

(** A control run on the sample device. *)
Example controlsRun_spec_witness :
  let '(result, w') := @controlsRun insertion_SortSlice sample_device sample_json sample_options sample_controls
                         sample_world in
  result.2 = None /\ length (applied (w_log w')) = 30%nat /\
  exists s, result.1 = Some s /\
    controls_done sample_options (with_control_defaults sample_controls) s (w_log w').
Proof.
  pose proof (@controlsRun_spec insertion_SortSlice sample_device sample_json sample_json_laws sample_options
    sample_controls sample_world sample_config_ok) as Hs.
  assert (He : let '(result, w') := @controlsRun insertion_SortSlice sample_device sample_json sample_options
                 sample_controls sample_world in
    result.2 = None /\ length (applied (w_log w')) = 30%nat) by (vm_compute; split; reflexivity).
  destruct (@controlsRun _ _ _ _ _ _) as [result w']. destruct He as [He Hn].
  destruct Hs as (ev & [Hw _] & _ & _ & Hs). destruct (Hs He) as (_ & s & Hsum & Hd & _).
  split; [exact He|]. split; [exact Hn|]. exists s. split; [exact Hsum|]. rewrite Hw. exact Hd.
Defined.

(** A world where the report of a control run lies at a path. *)
Definition sample_report_path : string := "/w/controls.json".
Definition sample_controls_report : controlsSummary :=
  mkControls targetCombined (Some "T") true [] (sample_group <$> controls_wanted) true.
Definition sample_batch_world : world :=
  mkWorld 0 0 {[sample_report_path := (encode_controls sample_controls_report ++ [10])%list]} ∅ 0 true None [].
Definition sample_ddmin : ddminOptions :=
  mkDdminOptions targetLTE sample_report_path 3 0 3 2 second second (5 * second).

(** A minimisation on the sample device, which finds its cell without any
    message frame. *)
Example ddminRun_spec_witness :
  let '(result, w') := @ddminRun insertion_SortSlice sample_device sample_json sample_options sample_ddmin
                         sample_batch_world in
  result.2 = None /\ length (applied (w_log w')) = 36%nat /\
  exists s, result.1 = Some s /\ MinimalFrameIDs s = [] /\
    minimised sample_options (with_dd_defaults sample_ddmin) s (w_log w').
Proof.
  assert (Hruns : CalibrationRuns sample_ddmin <= 500) by (simpl; lia).
  pose proof (@ddminRun_spec insertion_SortSlice sample_device sample_json sample_options sample_ddmin
    sample_batch_world sample_config_ok Hruns) as Hs.
  assert (He : let '(result, w') := @ddminRun insertion_SortSlice sample_device sample_json sample_options
                 sample_ddmin sample_batch_world in
    result.2 = None /\ length (applied (w_log w')) = 36%nat /\ option_map MinimalFrameIDs result.1 = Some [])
    by (vm_compute; split_and!; reflexivity).
  destruct (@ddminRun _ _ _ _ _ _) as [result w']. destruct He as (He & Hn & Hm).
  destruct Hs as (ev & [Hw _] & _ & _ & Hs). destruct (Hs He) as (_ & s & Hsum & Hd).
  split; [exact He|]. split; [exact Hn|]. exists s. split; [exact Hsum|]. rewrite Hsum in Hm.
  split; [by injection Hm|]. rewrite Hw. exact Hd.
Defined.

Example runRepeated_verdict_witness :
  let '(result, w') := @runRepeated insertion_SortSlice sample_device sample_options "s" "" targetNR [1%nat]
                         privateBoth 3 2 true second sample_world in
  Passed result.1 = false /\ length (Records result.1) = 2%nat /\
  forall skipped, length (Records result.1 ++ skipped) = 3%nat ->
    (2 <=? count_hits (Records result.1 ++ skipped)) = false.
Proof.
  assert (Hids : frames_known sample_options [1%nat]).
  { intros i Hi. apply list_elem_of_singleton in Hi as ->. apply (bool_decide_unpack _). vm_compute. exact I. }
  pose proof (@runRepeated_verdict insertion_SortSlice sample_device sample_json sample_options "s" "" targetNR
    [1%nat] privateBoth 3 2 true second sample_world sample_config_ok Hids) as Hs.
  assert (He : let '(result, w') := @runRepeated insertion_SortSlice sample_device sample_options "s" "" targetNR
                 [1%nat] privateBoth 3 2 true second sample_world in
    result.2 = None /\ Passed result.1 = false /\ length (Records result.1) = 2%nat)
    by (vm_compute; split_and!; reflexivity).
  destruct (@runRepeated _ _ _ _ _ _ _ _ _ _ _ _ _) as [result w']. destruct He as (He & Hp & Hl).
  destruct (Hs He) as (Hv & _). split; [exact Hp|]. split; [exact Hl|].
  intros skipped Hlen. rewrite <- Hp. symmetry. apply Hv. exact Hlen.
Defined.

Example calibrate_window_witness :
  let '(result, w') := @calibrate insertion_SortSlice sample_device sample_options
                         (with_dd_defaults sample_ddmin) [1%nat] sample_world in
  result.2 = None /\ P95MS result.1 = 1000 /\ CandidateWindow result.1 = 2000 /\
  calibrated (with_dd_defaults sample_ddmin) (cal_Records result.1) result.1.
Proof.
  pose proof (@calibrate_window insertion_SortSlice sample_device sample_json sample_options
    (with_dd_defaults sample_ddmin) sample_world sample_config_ok) as Hs.
  assert (He : let '(result, w') := @calibrate insertion_SortSlice sample_device sample_options
                 (with_dd_defaults sample_ddmin) [1%nat] sample_world in
    result.2 = None /\ P95MS result.1 = 1000 /\ CandidateWindow result.1 = 2000)
    by (vm_compute; split_and!; reflexivity).
  assert (Hids : allMessageFrameIDs (Config sample_options) = [1%nat]) by (vm_compute; reflexivity).
  rewrite Hids in Hs.
  destruct (@calibrate _ _ _ _ _ _) as [result w'].
  destruct He as (He & H95 & Hcw).
  destruct Hs as [_ Hs]; [vm_compute; discriminate|vm_compute; reflexivity|vm_compute; discriminate|].
  destruct (Hs He) as [Hc _]. split_and!; [exact He|exact H95|exact Hcw|exact Hc].
Defined.
