(* ===== verification/ReducerDryRun.v ===== *)
(** The off-line dry run of the trace reducer, [writeDryRun] of
    [src/tools/u60-qtrace-reducer/config.go], and the checks of the command line
    in [main.go] and [private_probe.go]. *)

From S2P Require Import Prelude.
From S2P Require Import Effects.
From S2P Require Import GoInt.
From S2P Require Import GoSort.
From S2P Require Import GoStrings.
From S2P Require Import Hdlc.
From S2P Require Import Sha256.
From S2P Require Import QTraceConfig.
From S2P Require Import ReducerQmdl.
From S2P Require Import ReducerRunner.
From S2P Require Import ReducerBatch.
Open Scope string_scope.
Open Scope Z_scope.

(** * Data *)

Record manifestMaskFrame := mkMaskEntry {
  me_ID : nat; me_First : Z; me_Last : Z; me_SSIDCount : nat; me_Mask : string }.
Record manifestDiagFrame := mkDiagEntry {
  de_ID : nat; de_Command : string; de_Subsystem : Z; de_Subcommand : Z; de_Length : nat }.
Record generatedConfigRef := mkGenerated {
  ge_Name : string; ge_Path : string; ge_SHA256 : string; ge_Bytes : nat; ge_FrameCount : nat }.

Record configManifest := mkManifest {
  mf_Source : string; mf_SourceSHA256 : string; mf_SourceBytes : nat;
  mf_FrameCount : nat; mf_MessageFrameCount : nat; mf_PrivateFrameCount : nat; mf_SSIDCount : nat;
  mf_AllMasksFFFFFFFF : bool; mf_RoundTripExact : bool; mf_ContainsGlobalClear : bool;
  mf_MessageFrames : list manifestMaskFrame; mf_PrivateFrames : list manifestDiagFrame;
  mf_Generated : list generatedConfigRef }.

Inductive dryError :=
| DryBatch (e : batchError)
| DryRoundTrip (name : string) (e : option configError).

(** * The manifest *)

Definition mask_entry (m : messageMaskFrame) : manifestMaskFrame :=
  mkMaskEntry (frame_ID (mm_Frame m)) (First m) (Last m) (length (Masks m))
    (if forallb (fun mask => mask =? 0xffffffff) (Masks m) then "0xffffffff" else "mixed").

Definition all_full (ms : list messageMaskFrame) : bool :=
  forallb (fun m => forallb (fun mask => mask =? 0xffffffff) (Masks m)) ms.

Definition diag_entry (frame : diagFrame) : go Empty_set manifestDiagFrame :=
  payload ← trim_end 2 (Decoded frame);
  subsystem ← index payload 1;
  subcommand ← (b ← slice payload 2 4; Uint16 b);
  command ← index payload 0;
  mret (mkDiagEntry (frame_ID frame) (String.append "0x" (hex_EncodeToString [command])) subsystem subcommand
          (length (Decoded frame))).

Definition is_global_clear (frame : diagFrame) : go Empty_set bool :=
  payload ← trim_end 2 (Decoded frame);
  if bool_decide (length payload < 2)%nat then mret false else
  b0 ← index payload 0;
  if negb (b0 =? 0x7d) then mret false else
  b1 ← index payload 1; mret (b1 =? 0x05).

(** [positive, _ := config.selectFrames(...)]: no frames beside an error. *)
Definition selected (config : qtraceConfig) (ids : list nat) (zeroMasks : bool) (private : privateMode)
    : list diagFrame :=
  match selectFrames config ids zeroMasks private with Ok frames => frames | _ => [] end.

Definition dry_outputs (config : qtraceConfig) (zeroFrames : list diagFrame) : list (string * list diagFrame) :=
  let allIDs := allMessageFrameIDs config in
  let positive := selected config allIDs false privateBoth in
  [("original-roundtrip.cfg", positive);
   ("cleanup-zero.cfg", zeroFrames);
   (path_Join ["controls"; "positive.cfg"], positive);
   (path_Join ["controls"; "zero-mask-private.cfg"], selected config allIDs true privateBoth);
   (path_Join ["controls"; "message-only.cfg"], selected config allIDs false privateNone);
   (path_Join ["controls"; "all-off.cfg"], selected config allIDs true privateNone);
   (path_Join ["controls"; "private-both-only.cfg"], selected config [] false privateBoth);
   (path_Join ["controls"; "private-9001-only.cfg"], selected config [] false private9001);
   (path_Join ["controls"; "private-0004-only.cfg"], selected config [] false private0004)].

(** The manifest before anything is generated. *)
Definition manifest_of (configPath : string) (source : list Z) (config : qtraceConfig)
    : go Empty_set configManifest :=
  private ← go_map diag_entry (PrivateFrames config);
  clears ← go_map is_global_clear (Frames config);
  mret (mkManifest configPath (SourceSHA256 config) (SourceBytes config) (length (Frames config))
          (length (MessageFrames config)) (length (PrivateFrames config))
          (sum_list ((fun m => length (Masks m)) <$> MessageFrames config)) (all_full (MessageFrames config))
          (bool_decide (source = encodeConfig (selected config (allMessageFrameIDs config) false privateBoth)))
          (existsb id clears) (mask_entry <$> MessageFrames config) private []).

Definition generated_of (outputDir : string) (output : string * list diagFrame) : generatedConfigRef :=
  let data := encodeConfig output.2 in
  mkGenerated output.1 (path_Join [outputDir; output.1]) (hex_EncodeToString (Sha256.Sum256 data))
    (length data) (length output.2).

Definition with_generated (m : configManifest) (refs : list generatedConfigRef) : configManifest :=
  mkManifest (mf_Source m) (mf_SourceSHA256 m) (mf_SourceBytes m) (mf_FrameCount m) (mf_MessageFrameCount m)
    (mf_PrivateFrameCount m) (mf_SSIDCount m) (mf_AllMasksFFFFFFFF m) (mf_RoundTripExact m)
    (mf_ContainsGlobalClear m) (mf_MessageFrames m) (mf_PrivateFrames m) refs.

Definition name_less (a b : generatedConfigRef) : bool := string_less (ge_Name a) (ge_Name b).

Section DryRun.
Context `{SortSlice} `{Device}.
(** [json.MarshalIndent] of the manifest. *)
Context (encode_manifest : configManifest -> list Z).

Definition readFile (path : string) : M (option (list Z)) :=
  ok ← attempt; w ← st_get; mret (if ok : bool then w_files w !! path else None).

(** [parseQTraceConfig]: the configuration and the bytes read. *)
Definition parseQTraceConfig (path : string) : M ((qtraceConfig * list Z) + dryError) :=
  data ← readFile path;
  mret (match data with
        | None => inr (DryBatch (ErrSystem "read"))
        | Some data =>
          match parseQTraceConfigBytes data with
          | Ok config => inl (config, data)
          | Err e => inr (DryBatch (ErrConfig e))
          | Panic => inr (DryBatch ErrPanic)
          end
        end).

Fixpoint write_outputs (outputDir : string) (outputs : list (string * list diagFrame))
    (refs : list generatedConfigRef) : M (list generatedConfigRef + dryError) :=
  match outputs with
  | [] => mret (inl refs)
  | output :: outputs =>
    let data := encodeConfig output.2 in
    e ← writeFileAtomic (path_Join [outputDir; output.1]) data;
    match e with
    | Some e => mret (inr (DryBatch e))
    | None =>
      match parseQTraceConfigBytes data with
      | Panic => mret (inr (DryBatch ErrPanic))
      | Err e => mret (inr (DryRoundTrip output.1 (Some e)))
      | Ok parsed =>
        if negb (length (Frames parsed) =? length output.2)%nat then mret (inr (DryRoundTrip output.1 None))
        else write_outputs outputDir outputs (refs ++ [generated_of outputDir output])%list
      end
    end
  end.

(** [writeDryRun] once the configuration is parsed. *)
Definition write_parsed (configPath outputDir : string) (config : qtraceConfig) (source : list Z)
    : M (configManifest + dryError) :=
  e ← fallible "mkdir";
  match e with Some e => mret (inr (DryBatch e)) | None =>
  match zeroMessageFrames config, manifest_of configPath source config with
  | Err e, _ => mret (inr (DryBatch (ErrConfig e)))
  | Ok zeroFrames, Ok manifest =>
    r ← write_outputs outputDir (dry_outputs config zeroFrames) [];
    match r with
    | inr e => mret (inr e)
    | inl refs =>
      let manifest := with_generated manifest (sortSlice name_less refs) in
      e ← fallible "marshal";
      match e with Some e => mret (inr (DryBatch e)) | None =>
      e ← writeFileAtomic (path_Join [outputDir; "manifest.json"]) (encode_manifest manifest ++ [10])%list;
      mret (match e with Some e => inr (DryBatch e) | None => inl manifest end)
      end
    end
  | _, _ => mret (inr (DryBatch ErrPanic))
  end end.

Definition writeDryRun (configPath outputDir : string) : M (configManifest + dryError) :=
  r ← parseQTraceConfig configPath;
  match r with
  | inr e => mret (inr e)
  | inl (config, source) => write_parsed configPath outputDir config source
  end.

End DryRun.

(** * The manifest of a parsed configuration *)

Definition dry_clean (e : dryError) : Prop := match e with DryBatch e => no_panic e | DryRoundTrip _ _ => True end.

(** A payload long enough for the fields the manifest shows. *)
Lemma private_payload f :
  valid_decoded (Decoded f) -> is_private f ->
  exists b0 b1 b2 b3 rest crc, Decoded f = ((b0 :: b1 :: b2 :: b3 :: rest) ++ crc)%list /\ length crc = 2%nat.
Proof.
  intros Hv Hp. unfold is_private in Hp. destruct Hv as [m Hm|rest Hb Hl]; [done|].
  destruct rest as [|b1 [|b2 [|b3 rest]]]; simpl in Hl; try lia.
  eexists _, b1, b2, b3, rest, _. split; [reflexivity|]. done.
Qed.

Lemma diag_entry_ok f :
  valid_decoded (Decoded f) -> is_private f -> exists e, diag_entry f = Ok e /\ de_ID e = frame_ID f.
Proof.
  intros Hv Hp. destruct (private_payload f Hv Hp) as (b0 & b1 & b2 & b3 & rest & crc & Hd & Hc).
  unfold diag_entry. rewrite Hd, trim_end_app by done. by eexists.
Qed.

Lemma global_clear_never f : valid_decoded (Decoded f) -> is_global_clear f = Ok false.
Proof.
  unfold is_global_clear. destruct 1 as [m Hm|rest Hb Hl]; unfold with_crc; rewrite trim_end_app by done; [done|].
  cbn [mbind go_bind]. case_bool_decide; [done|]. done.
Qed.

Lemma go_map_total {E A B} (f : A -> go E B) (P : A -> B -> Prop) (l : list A) :
  (forall x, x ∈ l -> exists y, f x = Ok y /\ P x y) -> exists ys, go_map f l = Ok ys /\ Forall2 P l ys.
Proof.
  induction l as [|x l IH]; intros Hl; [exists []; by split|].
  destruct (Hl x ltac:(left)) as (y & Hy & HP). destruct IH as (ys & Hys & HPs).
  { intros z Hz. apply Hl. by right. }
  exists (y :: ys). simpl. rewrite Hy, Hys. split; [done|by constructor].
Qed.

Lemma selected_all config : config_ok config ->
  selected config (allMessageFrameIDs config) false privateBoth = Frames config.
Proof.
  intros Hok. unfold selected.
  destruct (select_frames_ok config (allMessageFrameIDs config) false privateBoth Hok) as (fs & -> & Hrel); [done|].
  rewrite filter_all in Hrel by (apply Forall_forall; intros; by apply chosen_all).
  symmetry. apply list_eq_Forall2. eapply Forall2_impl; [exact Hrel|]. by intros f g ->.
Qed.

Lemma manifest_of_ok path source config :
  config_ok config -> exists m, manifest_of path source config = Ok m /\
    mf_FrameCount m = length (Frames config) /\ mf_MessageFrameCount m = length (MessageFrames config) /\
    mf_PrivateFrameCount m = length (PrivateFrames config) /\
    mf_SSIDCount m = sum_list ((fun x => length (Masks x)) <$> MessageFrames config) /\
    mf_AllMasksFFFFFFFF m = all_full (MessageFrames config) /\
    mf_RoundTripExact m = bool_decide (source = encodeConfig (Frames config)) /\
    mf_ContainsGlobalClear m = false /\ mf_MessageFrames m = mask_entry <$> MessageFrames config /\
    de_ID <$> mf_PrivateFrames m = frame_ID <$> PrivateFrames config.
Proof.
  intros Hok. pose proof (ok_valid _ Hok) as Hv. rewrite Forall_forall in Hv.
  destruct (go_map_total diag_entry (fun f e => de_ID e = frame_ID f) (PrivateFrames config))
    as (ps & Hps & Hids).
  { intros f Hf. rewrite (ok_private _ Hok) in Hf. apply list_elem_of_filter in Hf as [Hp Hf].
    apply diag_entry_ok; auto. }
  destruct (go_map_total is_global_clear (fun f b => b = false) (Frames config)) as (cs & Hcs & Hno).
  { intros f Hf. exists false. split; [by apply global_clear_never, Hv|done]. }
  unfold manifest_of. rewrite Hps, Hcs. cbn [mbind go_bind]. eexists. split; [reflexivity|]. cbn.
  rewrite selected_all by done. split_and!; try done.
  - clear Hcs Hv. induction Hno as [|f b fs bs -> _ IH]; [done|exact IH].
  - clear Hps. by induction Hids; simpl; f_equal.
Qed.

(** * Writing the outputs *)

Definition wrote_output (dir : string) (output : string * list diagFrame) : event :=
  Wrote (path_Join [dir; output.1]) (encodeConfig output.2).
Definition reparses (output : string * list diagFrame) : Prop :=
  exists parsed, parseQTraceConfigBytes (encodeConfig output.2) = Ok parsed /\
    length (Frames parsed) = length output.2.

Section DryFacts.
Context `{SortSlice} `{Device}.

Definition quiet_log (ev : list event) : Prop := bracketed ev /\ applied ev = [].

Lemma quiet_log_app a b : quiet_log a -> quiet_log b -> quiet_log (a ++ b).
Proof.
  intros [Hb1 Ha1] [Hb2 Ha2]. split; [by apply bracketed_app|]. by rewrite applied_app, Ha1, Ha2.
Qed.

Lemma quiet_nil : quiet_log [].
Proof. by split; [constructor|]. Qed.

Lemma does_write path data : Does (writeFileAtomic path data) (fun e ev =>
  quiet_log ev /\ clean_error e /\ (e = None -> ev = [Wrote path data])).
Proof.
  eapply does_mono; [apply does_writeFileAtomic|]. intros [e|] ev [Hc ->].
  - split_and!; [apply quiet_nil|done|done].
  - split_and!; [by repeat constructor|done|done].
Qed.

Lemma does_write_outputs dir outputs refs :
  Does (write_outputs dir outputs refs) (fun r ev => quiet_log ev /\
    match r with
    | inl refs' => refs' = (refs ++ (generated_of dir <$> outputs))%list /\
        ev = wrote_output dir <$> outputs /\ Forall reparses outputs
    | inr e => dry_clean e
    end).
Proof.
  revert refs. induction outputs as [|out outputs IH]; intros refs; cbn [write_outputs].
  { eapply does_mono; [apply does_ret|]. intros r ev [-> ->]. split; [apply quiet_nil|].
    by rewrite app_nil_r. }
  eapply does_bind; [apply does_write|]. intros [e|] ev (Hq & Hc & Hw).
  { eapply does_mono; [apply does_ret|]. intros r ev' [-> ->]. by rewrite app_nil_r. }
  rewrite (Hw eq_refl) in *. clear Hw.
  pose proof (parse_no_panic (encodeConfig out.2)) as Hnp.
  destruct (parseQTraceConfigBytes (encodeConfig out.2)) as [parsed|e|] eqn:Hparse; [| |done].
  2: { eapply does_mono; [apply does_ret|]. intros r ev' [-> ->]. by rewrite app_nil_r. }
  destruct (length (Frames parsed) =? length out.2)%nat eqn:Hlen; cbn [negb]; bool_to_prop.
  2: { eapply does_mono; [apply does_ret|]. intros r ev' [-> ->]. by rewrite app_nil_r. }
  eapply does_mono; [apply IH|]. intros r ev' [Hq' Hr]. split; [by apply quiet_log_app|].
  destruct r as [refs'|e]; [|done]. destruct Hr as (-> & -> & Hf).
  split_and!; [by rewrite <- app_assoc|done|]. constructor; [|done]. by exists parsed.
Qed.

Lemma does_readFile path w :
  wp (readFile path) (fun r w' => same w w' /\ forall data, r = Some data -> w_files w !! path = Some data) w.
Proof.
  apply wp_bind, wp_call. intros ok w' Hw. apply wp_bind, wp_get, wp_ret. split; [done|].
  assert (Hf : w_files w' = w_files w) by apply Hw. rewrite Hf. by destruct ok.
Qed.

Lemma name_less_sw : strict_weak name_less.
Proof.
  unfold name_less. destruct string_less_sw as [Hi Ht Hc]. split; eauto.
Qed.

End DryFacts.

(** The frames of every output of a parsed configuration are acceptable. *)
Lemma selected_frames_valid config ids zeroMasks private :
  config_ok config -> (forall i, i ∈ ids -> i ∈ allMessageFrameIDs config) ->
  Forall (fun f => valid_decoded (Decoded f)) (selected config ids zeroMasks private).
Proof.
  intros Hok Hids. unfold selected.
  destruct (select_frames_ok config ids zeroMasks private Hok Hids) as (fs & -> & Hrel).
  apply Forall_forall. intros g Hg. apply list_elem_of_lookup in Hg as [i Hg].
  destruct (Forall2_lookup_r _ _ _ _ _ Hrel Hg) as (f & Hf & Hs).
  apply list_elem_of_lookup_2, list_elem_of_filter in Hf as [_ Hf].
  by destruct (selected_valid config ids zeroMasks f g Hok Hf Hs).
Qed.

Lemma dry_outputs_valid config :
  config_ok config ->
  Forall (fun out => Forall (fun f => valid_decoded (Decoded f)) out.2)
    (dry_outputs config (zeroed <$> MessageFrames config)).
Proof.
  intros Hok. unfold dry_outputs.
  repeat (apply Forall_cons; split); try (apply selected_frames_valid; [done|]; try done;
    intros i Hi; by apply elem_of_nil in Hi); [|constructor].
  apply Forall_fmap, Forall_forall. intros m Hm. apply valid_zeroed.
  pose proof (ok_masks _ Hok) as Hall. rewrite Forall_forall in Hall. by apply Hall.
Qed.

Lemma reparses_nonempty out :
  Forall (fun f => valid_decoded (Decoded f)) out.2 -> reparses out ->
  out.2 <> [] /\ exists parsed, parseQTraceConfigBytes (encodeConfig out.2) = Ok parsed /\ config_ok parsed /\
    Decoded <$> Frames parsed = Decoded <$> out.2.
Proof.
  intros Hv (parsed & Hp & _). assert (Hne : out.2 <> []).
  { intros Hnil. rewrite Hnil in Hp. discriminate Hp. }
  split; [done|]. by apply parse_encode.
Qed.

(** What a manifest and the events of its dry run say about the configuration. *)
Record dry_done `{SortSlice} (encode_manifest : configManifest -> list Z) (outputDir : string)
    (config : qtraceConfig) (source : list Z) (m : configManifest) (ev : list event) : Prop := {
  dn_counts : mf_FrameCount m = length (Frames config) /\
    mf_MessageFrameCount m = length (MessageFrames config) /\
    mf_PrivateFrameCount m = length (PrivateFrames config) /\
    mf_SSIDCount m = sum_list ((fun x => length (Masks x)) <$> MessageFrames config) /\
    mf_MessageFrames m = mask_entry <$> MessageFrames config /\
    (de_ID <$> mf_PrivateFrames m) = (frame_ID <$> PrivateFrames config);
  dn_flags : mf_AllMasksFFFFFFFF m = all_full (MessageFrames config) /\
    (mf_RoundTripExact m = true <-> source = encodeConfig (Frames config)) /\
    mf_ContainsGlobalClear m = false;
  dn_generated : mf_Generated m ≡ₚ
      generated_of outputDir <$> dry_outputs config (zeroed <$> MessageFrames config) /\
    StronglySorted (fun a b => name_less b a = false) (mf_Generated m);
  dn_outputs : Forall (fun out => out.2 <> [] /\ exists parsed,
      parseQTraceConfigBytes (encodeConfig out.2) = Ok parsed /\ config_ok parsed /\
    Decoded <$> Frames parsed = Decoded <$> out.2) (dry_outputs config (zeroed <$> MessageFrames config));
  dn_events : ev = ((wrote_output outputDir <$> dry_outputs config (zeroed <$> MessageFrames config)) ++
      [Wrote (path_Join [outputDir; "manifest.json"]) (encode_manifest m ++ [10])])%list }.

Lemma does_write_parsed `{SortSlice} `{Device} encode_manifest configPath outputDir config source :
  config_ok config ->
  Does (write_parsed encode_manifest configPath outputDir config source) (fun r ev => applied ev = [] /\
    match r with
    | inl m => dry_done encode_manifest outputDir config source m ev
    | inr e => dry_clean e
    end).
Proof.
  intros Hok. unfold write_parsed. eapply does_quiet; [apply does_fallible|]. intros [e|] Hc.
  { eapply does_mono; [apply does_ret|]. by intros r ev [-> ->]. }
  rewrite zero_frames_ok by done.
  destruct (manifest_of_ok configPath source config Hok) as (m & -> & C1 & C2 & C3 & C4 & F1 & F2 & F3 & C5 & C6).
  eapply does_bind; [apply does_write_outputs|]. intros [refs|e] ev1 [[_ Hq] Hr].
  2: { eapply does_mono; [apply does_ret|]. intros r ev [-> ->]. by rewrite app_nil_r. }
  destruct Hr as (-> & -> & Hre). eapply does_quiet; [apply does_fallible|]. intros [e|] Hc'.
  { eapply does_mono; [apply does_ret|]. intros r ev [-> ->]. by rewrite app_nil_r. }
  eapply does_bind; [apply does_write|]. intros e ev2 ([_ Hq2] & Hc2 & Hw2).
  eapply does_mono; [apply does_ret|]. intros r ev [-> ->]. rewrite app_nil_r.
  split; [by rewrite applied_app, Hq, Hq2|]. destruct e as [e|]; [done|]. rewrite (Hw2 eq_refl).
  constructor; cbn; try done.
  - split_and!; [done| |done]. rewrite F2. apply bool_decide_eq_true.
  - split; [apply sortSlice_perm|]. apply sortSlice_sorted, name_less_sw.
  - pose proof (dry_outputs_valid config Hok) as Hv. rewrite Forall_forall in Hv, Hre |- *.
    intros out Hout. by apply reparses_nonempty; auto.
Qed.

(** * Properties *)

(** a dry run writes what its manifest says and touches no device.
    Whatever happens no process is started and no run-time panic occurs.  When
    it reports a manifest, the source was a well-formed configuration and the
    counts, the mask flags and the entries are those of its frames; the
    round-trip flag tells whether encoding all frames gives the source back;
    the flag for a global clear is never set, because the parser refuses such a
    frame; each of the nine outputs is not empty, was written as the encoding
    of its frames and parses back to the same contents; the manifest lists
    exactly these outputs, with digest and size, in the order of their names,
    and was itself written last. *)
Theorem writeDryRun_spec `{SortSlice} `{Device} (encode_manifest : configManifest -> list Z)
    (configPath outputDir : string) (w : world) :
  (forall source, w_files w !! configPath = Some source -> bytes_ok source) ->
  let '(result, w') := writeDryRun encode_manifest configPath outputDir w in
  exists ev, grew w w' ev /\ applied ev = [] /\
    match result with
    | inr e => dry_clean e
    | inl m => exists source config,
        w_files w !! configPath = Some source /\ parseQTraceConfigBytes source = Ok config /\
        dry_done encode_manifest outputDir config source m ev
    end.
Proof.
  intros Hbytes. apply (wp_elim _ (fun result w' => _)).
  apply wp_bind, wp_bind. eapply wp_mono; [apply does_readFile|]. intros data w1 [Hw1 Hdata].
  assert (Hlog : grew w w1 []) by (by apply grew_nil; apply Hw1).
  apply wp_ret. destruct data as [source|]; [|by apply wp_ret; exists []].
  specialize (Hdata source eq_refl). pose proof (Hbytes _ Hdata) as Hb. pose proof (parse_no_panic source) as Hnp.
  destruct (parseQTraceConfigBytes source) as [config|e|] eqn:Hparse; [|by apply wp_ret; exists []|done].
  destruct (parse_config_ok _ _ Hb Hparse) as [Hok _].
  eapply wp_mono; [by apply does_write_parsed|]. intros result w' (ev & Hw & Ha & Hr).
  exists ev. split_and!; [exact (grew_trans _ _ _ [] ev Hlog Hw)|done|].
  destruct result as [m|e]; [|done]. by exists source, config.
Qed.

Definition sample_dry_world : world := mkWorld 0 0 {["/q.cfg" := encodeConfig sample_frames]} ∅ 0 false None [].

(** The sample configuration has no frame 0x55/0x0004, so that its dry run is
    refused after eight outputs; with such a frame it reports a manifest. *)
Definition sample_both : list diagFrame :=
  (sample_frames ++ [mkDiagFrame 2 (with_crc [0x4b; 0x55; 0x04; 0x00; 1])])%list.

Example writeDryRun_spec_witness :
  let w := mkWorld 0 0 {["/q.cfg" := encodeConfig sample_both]} ∅ 0 false None [] in
  (exists e, (@writeDryRun insertion_SortSlice sample_device (fun _ => []) "/q.cfg" "/out" sample_dry_world).1 = inr e) /\
  let '(result, w') := @writeDryRun insertion_SortSlice sample_device (fun _ => []) "/q.cfg" "/out" w in
  exists m source config, result = inl m /\ mf_RoundTripExact m = true /\ length (w_log w') = 10%nat /\
    @dry_done insertion_SortSlice (fun _ => []) "/out" config source m (w_log w').
Proof.
  intros w. split; [eexists; vm_compute; reflexivity|].
  assert (Hbytes : forall source, w_files w !! "/q.cfg" = Some source -> bytes_ok source).
  { intros source Hs. vm_compute in Hs. injection Hs as <-. apply (bool_decide_unpack _). vm_compute. exact I. }
  pose proof (@writeDryRun_spec insertion_SortSlice sample_device (fun _ => []) "/q.cfg" "/out" w Hbytes) as Hs.
  assert (He : let '(result, w') := @writeDryRun insertion_SortSlice sample_device (fun _ => []) "/q.cfg" "/out" w in
    match result with inl m => mf_RoundTripExact m = true | inr _ => False end /\ length (w_log w') = 10%nat)
    by (vm_compute; split; reflexivity).
  destruct (@writeDryRun _ _ _ _ _ _) as [[m|e] w']; [|destruct He as [[] _]].
  destruct He as [He Hn], Hs as (ev & [Hw _] & _ & source & config & _ & _ & Hd).
  exists m, source, config. split; [reflexivity|]. split; [exact He|]. split; [exact Hn|]. rewrite Hw. exact Hd.
Defined.
