(* ===== verification/ReducerMain.v ===== *)
(** The commands of the trace reducer, [src/tools/u60-qtrace-reducer/main.go]
    and [private_probe.go]: the checks of the flags, the runner they build, the
    lock they hold and the clean-up they leave with.  Parsing the command line
    itself is the standard [flag] package's; the flags are given as records. *)

From S2P Require Import Prelude.
From S2P Require Import Effects.
From S2P Require Import GoInt.
From S2P Require Import GoSort.
From S2P Require Import GoStrings.
From S2P Require Import QTraceConfig.
From S2P Require Import ReducerQmdl.
From S2P Require Import ReducerRunner.
From S2P Require Import ReducerBatch.
From S2P Require Import ReducerDryRun.
Open Scope string_scope.
Open Scope Z_scope.

(** * Flags *)

Record commonDeviceFlags := mkCommon {
  fl_config : string; fl_workDir : string; fl_diagMDLog : string; fl_confirm : bool;
  fl_settle : Z; fl_drain : Z; fl_poll : Z; fl_stopGrace : Z; fl_keep : bool;
  fl_fileSize : Z; fl_fileCount : Z }.

Record controlsFlags := mkControlsFlags {
  cf_common : commonDeviceFlags; cf_target : string; cf_window : Z; cf_repeats : Z;
  cf_minimumHits : Z; cf_cold : bool }.

Record ddminFlags := mkDdminFlags {
  df_common : commonDeviceFlags; df_target : string; df_controlsReport : string;
  df_calibrationRuns : Z; df_positiveMin : Z; df_candidateRepeats : Z; df_candidateMin : Z;
  df_minimumWindow : Z; df_maximumWindow : Z; df_windowMargin : Z }.

Record probeFlags := mkProbeFlags {
  pf_common : commonDeviceFlags; pf_target : string; pf_mode : string; pf_label : string;
  pf_window : Z; pf_cold : bool; pf_prior : string }.

Inductive mainError :=
| MainUnconfirmed | MainDurations | MainFileSizes | MainFlags
| MainTarget (value : string) | MainMode (value : string)
| MainConfig (e : dryError) | MainBatch (e : batchError) | MainRun (e : runError).

(** The summary of a private probe without its fixed texts. *)
Record privateProbeSummary := mkProbeSummary {
  ps_Target : targetKind; ps_Mode : privateMode; ps_Label : string; ps_Cold : bool;
  ps_Prior : string; ps_Record : runRecord; ps_StateAtExit : string }.

Definition parseTargetList (value : string) : list targetKind + mainError :=
  if EqualFold (TrimSpace value) "all" then inl [targetNR; targetLTE; targetCombined] else
  match parseTarget value with
  | Some target => inl [target]
  | None => inr (MainTarget value)
  end.

Definition parsePrivateProbeMode (value : string) : privateMode + mainError :=
  let mode := ToLower (TrimSpace value) in
  if bool_decide (mode = "both") then inl privateBoth
  else if bool_decide (mode ∈ ["9001"; "0x9001"; "0x44/0x9001"]) then inl private9001
  else if bool_decide (mode ∈ ["0004"; "0x0004"; "0x55/0x0004"]) then inl private0004
  else inr (MainMode value).

(** The checks of [makeRunner] before it touches a file. *)
Definition common_error (c : commonDeviceFlags) : option mainError :=
  if negb (fl_confirm c) then Some MainUnconfirmed
  else if (fl_settle c <? 0) || (fl_drain c <=? 0) || (fl_poll c <=? 0) || (fl_stopGrace c <=? 0)
  then Some MainDurations
  else if (fl_fileSize c <=? 0) || (fl_fileCount c <=? 0) then Some MainFileSizes
  else None.

Definition controls_flags_ok (f : controlsFlags) : bool :=
  negb ((cf_repeats f <=? 0) || (cf_window f <=? 0) || (cf_minimumHits f <? 0) ||
        (cf_repeats f <? cf_minimumHits f)) && cf_cold f.

Definition ddmin_flags_ok (f : ddminFlags) : bool :=
  negb ((df_calibrationRuns f <=? 0) || (df_candidateRepeats f <=? 0) || (df_candidateMin f <=? 0) ||
        (df_candidateRepeats f <? df_candidateMin f)) &&
  negb ((df_positiveMin f <? 0) || (df_calibrationRuns f <? df_positiveMin f)) &&
  negb ((df_minimumWindow f <=? 0) || (df_maximumWindow f <=? 0) ||
        (df_maximumWindow f <? df_minimumWindow f) || (df_windowMargin f <? 0)).

Definition probe_flags_ok (f : probeFlags) : bool :=
  let prior := TrimSpace (pf_prior f) in
  (pf_cold f || bool_decide (prior <> "")) && negb (pf_cold f && bool_decide (prior <> "")) &&
  negb ((pf_window f <=? 0) || bool_decide (TrimSpace (pf_label f) = "")).

(** * Commands *)

Section Commands.
Context `{SortSlice} `{Device} `{Json}.
Context (encode_probe : privateProbeSummary -> list Z).

(** [newReportWriter]: the two report files, the header of an empty table. *)
Definition newReportWriter : M (option batchError) :=
  and_then (fallible "mkdir") (and_then (fallible "open") (
  nonEmpty ← attempt;
  and_then (fallible "open") (if nonEmpty : bool then mret None else fallible "header"))).

Definition makeRunner (c : commonDeviceFlags) : M (deviceOptions + mainError) :=
  match common_error c with
  | Some e => mret (inr e)
  | None =>
    r ← parseQTraceConfig (fl_config c);
    match r with
    | inr e => mret (inr (MainConfig e))
    | inl (config, _) =>
      e ← newReportWriter;
      match e with
      | Some e => mret (inr (MainBatch e))
      | None =>
        mret (inl (mkOptions config (fl_workDir c) (fl_diagMDLog c) (fl_settle c) (fl_drain c) (fl_poll c)
                     (fl_stopGrace c) (fl_keep c) (fl_fileSize c) (fl_fileCount c)
                     (path_Join [fl_workDir c; "reports"])))
      end
    end
  end.

(** A runner that holds the lock while [k] runs, and [finish], deferred. *)
Definition with_runner (c : commonDeviceFlags) (finish : deviceOptions -> M unit)
    (k : deviceOptions -> M (option mainError)) : M (option mainError) :=
  r ← makeRunner c;
  match r with
  | inr e => mret (Some e)
  | inl o =>
    e ← acquire;
    match e with
    | Some e => mret (Some (MainBatch e))
    | None => let o := with_defaults o in e ← k o; _ ← finish o; mret e
    end
  end.

Definition runCleanupCommand (c : commonDeviceFlags) : M (option mainError) :=
  with_runner c (fun _ => release) (fun o => e ← cleanup o "manual"; mret (MainBatch <$> e)).

Definition runControlsCommand (f : controlsFlags) : M (option mainError) :=
  if negb (controls_flags_ok f) then mret (Some MainFlags) else
  match parseTarget (cf_target f) with
  | None => mret (Some (MainTarget (cf_target f)))
  | Some target =>
    with_runner (cf_common f) emergencyRelease (fun o =>
    '(summary, err) ← controlsRun o (mkControlOptions target (cf_repeats f) (cf_minimumHits f) (cf_cold f)
                                       (cf_window f));
    _ ← (match summary with
         | Some s => WriteSummary o (String.append "controls-"
                       (String.append (target_string target) "-partial.json")) (encode_controls s)
         | None => mret None
         end);
    mret (MainRun <$> err))
  end.

Fixpoint check_reports (path : string) (targets : list targetKind) : M (option runError) :=
  match targets with
  | [] => mret None
  | target :: targets => and_then (validateControlsReport path target) (check_reports path targets)
  end.

Fixpoint run_targets (o : deviceOptions) (f : ddminFlags) (targets : list targetKind) : M (option mainError) :=
  match targets with
  | [] => mret None
  | target :: targets =>
    '(summary, err) ← ddminRun o (mkDdminOptions target (df_controlsReport f) (df_calibrationRuns f)
                                    (df_positiveMin f) (df_candidateRepeats f) (df_candidateMin f)
                                    (df_windowMargin f) (df_minimumWindow f) (df_maximumWindow f));
    _ ← (match summary with
         | Some s => WriteSummary o (String.append "ddmin-"
                       (String.append (target_string target) "-partial.json")) (encode_ddmin s)
         | None => mret None
         end);
    match err with
    | Some e => mret (Some (MainRun e))
    | None => run_targets o f targets
    end
  end.

Definition runDDMinCommand (f : ddminFlags) : M (option mainError) :=
  if negb (ddmin_flags_ok f) then mret (Some MainFlags) else
  match parseTargetList (df_target f) with
  | inr e => mret (Some e)
  | inl targets =>
    e ← check_reports (df_controlsReport f) targets;
    match e with
    | Some e => mret (Some (MainRun e))
    | None => with_runner (df_common f) emergencyRelease (fun o => run_targets o f targets)
    end
  end.

Definition probe_state (prior : string) (mode : privateMode) : string * string :=
  if bool_decide (prior = "") then ("cold-private-probe", private_string mode)
  else ("sequential-private-control",
        String.append "prior " (String.append prior (String.append " + sent " (private_string mode)))).

Definition runPrivateProbeCommand (f : probeFlags) : M (option mainError) :=
  if negb (probe_flags_ok f) then mret (Some MainFlags) else
  match parseTarget (pf_target f), parsePrivateProbeMode (pf_mode f) with
  | None, _ => mret (Some (MainTarget (pf_target f)))
  | _, inr e => mret (Some e)
  | Some target, inl mode =>
    with_runner (pf_common f) emergencyRelease (fun o =>
    let prior := TrimSpace (pf_prior f) in
    let '(stage, state) := probe_state prior mode in
    '(record, err) ← testCandidate o stage (pf_label f) target [] false mode state 1 false (pf_window f);
    e ← WriteSummary o (String.append "private-probe-" (String.append (sanitizeName (pf_label f)) "-summary.json"))
          (encode_probe (mkProbeSummary target mode (pf_label f) (pf_cold f) prior record
             (String.append state "; persistence/disable semantics unknown")));
    mret (match e with Some e => Some (MainBatch e) | None => MainBatch <$> err end))
  end.

(** The commands that change the device. *)
Inductive command :=
| Cleanup (c : commonDeviceFlags) | Controls (f : controlsFlags)
| PrivateProbe (f : probeFlags) | DDMin (f : ddminFlags).

Definition common_of (c : command) : commonDeviceFlags :=
  match c with Cleanup c => c | Controls f => cf_common f | PrivateProbe f => pf_common f | DDMin f => df_common f end.

Definition run_command (c : command) : M (option mainError) :=
  match c with
  | Cleanup c => runCleanupCommand c
  | Controls f => runControlsCommand f
  | PrivateProbe f => runPrivateProbeCommand f
  | DDMin f => runDDMinCommand f
  end.

End Commands.

(** * The lock around the device *)

(** Every process is started under the lock. *)
Fixpoint guarded (locked : bool) (ev : list event) : Prop :=
  match ev with
  | [] => True
  | e :: ev => match e with Started _ _ => locked = true | _ => True end /\ guarded (lock_step locked e) ev
  end.

Lemma guarded_app b ev1 ev2 : guarded b (ev1 ++ ev2) <-> guarded b ev1 /\ guarded (lock_after b ev1) ev2.
Proof.
  revert b. induction ev1 as [|e ev1 IH]; intros b; simpl; [by split; [|intros []]|].
  rewrite IH. unfold lock_after. simpl. tauto.
Qed.

Lemma guarded_no_runs b ev : applied ev = [] -> guarded b ev.
Proof.
  revert b. induction ev as [|e ev IH]; intros b Ha; [done|].
  destruct e; simpl in Ha |- *; try done; (split; [done|by apply IH]).
Qed.

Lemma bracketed_guarded ev : bracketed ev -> guarded true ev.
Proof. by induction 1. Qed.

(** The configurations a command may apply: zero and selections of the
    original frames. *)
Definition masks_allowed (config : qtraceConfig) (data : list Z) : Prop :=
  (exists zero, zeroMessageFrames config = Ok zero /\ data = encodeConfig zero) \/
  exists ids zeroMasks private frames, (forall i, i ∈ ids -> i ∈ allMessageFrameIDs config) /\
    selectFrames config ids zeroMasks private = Ok frames /\ data = encodeConfig frames.

Definition main_clean (e : option mainError) : Prop :=
  match e with
  | Some (MainBatch e) => no_panic e
  | Some (MainConfig e) => dry_clean e
  | Some (MainRun e) => run_clean (Some e)
  | _ => True
  end.

Section MainFacts.
Context `{HSort : SortSlice} `{HDevice : Device} `{HJson : Json}.

(** Nothing but bookkeeping: no process was started between two worlds. *)
Definition idle (w w' : world) : Prop := exists ev, grew w w' ev /\ applied ev = [].

Lemma idle_refl w : idle w w.
Proof. exists []. split; [apply grew_refl|done]. Qed.

Lemma idle_trans w1 w2 w3 : idle w1 w2 -> idle w2 w3 -> idle w1 w3.
Proof.
  intros (a & Ga & Ha) (b & Gb & Hb). exists (a ++ b)%list. split; [by eapply grew_trans|].
  by rewrite applied_app, Ha, Hb.
Qed.

Lemma idle_same w w' : same w w' -> idle w w'.
Proof. intros Hs. exists []. split; [by apply grew_nil; apply Hs|done]. Qed.

Lemma wp_set_locked b (Q : unit -> world -> Prop) w :
  (forall w', idle w w' -> w_locked w' = b -> Q tt w') -> wp (set_locked b) Q w.
Proof.
  intros HQ. apply wp_modify, HQ; [|done]. exists [if b then Locked else Unlocked]. split; [split|]; by destruct b.
Qed.

Lemma wp_release (Q : unit -> world -> Prop) w :
  (forall w', idle w w' -> w_locked w' = false -> Q tt w') -> wp release Q w.
Proof.
  intros HQ. apply wp_bind.
  assert (Hstop : wp stopActive (fun _ w' => idle w w') w).
  { apply wp_bind, wp_get. destruct (w_active w); [|apply wp_ret, idle_refl].
    apply wp_modify. exists [Signalled]. by split. }
  eapply wp_mono; [exact Hstop|]. intros [] w1 H1. apply wp_bind, wp_get.
  destruct (w_locked w1) eqn:Hl; [|by apply wp_ret, HQ].
  apply wp_set_locked. intros w2 H2 Hl2. apply HQ; [by eapply idle_trans|done].
Qed.

Lemma wp_unlock_on_error call (Q : option batchError -> world -> Prop) w :
  (forall e w', idle w w' -> clean_error e -> match e with None => w_locked w' = w_locked w | Some _ => w_locked w' = false end ->
     Q e w') ->
  wp (unlock_on_error (fallible call)) Q w.
Proof.
  intros HQ. apply wp_bind, wp_fallible_call. intros [e|] w1 H1 He.
  - apply wp_bind, wp_set_locked. intros w2 H2 Hl. apply wp_ret, HQ; [|done|done].
    eapply idle_trans; [by apply idle_same|done].
  - apply wp_ret, HQ; [by apply idle_same|done|]. apply H1.
Qed.

Lemma wp_acquire (Q : option batchError -> world -> Prop) w :
  w_locked w = false ->
  (forall e w', idle w w' -> clean_error e -> w_locked w' = bool_decide (e = None) -> Q e w') ->
  wp acquire Q w.
Proof.
  intros Hl HQ.
  assert (Hquit : forall e w', idle w w' -> no_panic e -> w_locked w' = false -> Q (Some e) w').
  { intros e w' Hi He Hw. by apply HQ. }
  apply wp_bind, wp_fallible_call. intros e w1 H1 He. pose proof (idle_same _ _ H1) as I1.
  assert (L1 : w_locked w1 = false) by (rewrite <- Hl; apply H1).
  destruct e as [e|]; [by apply wp_ret, Hquit|].
  apply wp_bind, wp_fallible_call. intros e w2 H2 He2. pose proof (idle_trans _ _ _ I1 (idle_same _ _ H2)) as I2.
  assert (L2 : w_locked w2 = false) by (rewrite <- L1; apply H2).
  destruct e as [e|]; [by apply wp_ret, Hquit|].
  apply wp_bind, wp_bind, wp_get, wp_bind, wp_call. intros ok w3 H3. apply wp_ret.
  pose proof (idle_trans _ _ _ I2 (idle_same _ _ H3)) as I3.
  destruct (dv_ok _); cbn [negb]; [|apply wp_ret, Hquit; [done|done|rewrite <- L2; apply H3]].
  apply wp_bind, wp_set_locked. intros w4 H4 L4. pose proof (idle_trans _ _ _ I3 H4) as I4.
  apply wp_bind, wp_unlock_on_error. intros e w5 H5 He5 L5. pose proof (idle_trans _ _ _ I4 H5) as I5.
  destruct e as [e|]; [by apply wp_ret, Hquit|].
  apply wp_bind, wp_unlock_on_error. intros e w6 H6 He6 L6. pose proof (idle_trans _ _ _ I5 H6) as I6.
  destruct e as [e|]; [by apply wp_ret, Hquit|].
  apply wp_bind, wp_call. intros _ w7 H7. pose proof (idle_trans _ _ _ I6 (idle_same _ _ H7)) as I7.
  assert (L7 : w_locked w7 = true) by (rewrite <- L4, <- L5, <- L6; apply H7).
  apply wp_bind. eapply wp_mono; [apply does_ensure|]. intros e w8 (ev & G8 & -> & He8).
  assert (I8 : idle w w8) by (eapply idle_trans; [exact I7|by exists []]).
  destruct e as [e|].
  - apply wp_bind, wp_release. intros w9 I9 L9. apply wp_ret, Hquit; [by eapply idle_trans|done|done].
  - apply wp_ret, HQ; [done|done|]. destruct G8 as [_ ->]. by rewrite L7.
Qed.

Lemma does_newReportWriter : Does newReportWriter (fun e ev => ev = [] /\ clean_error e).
Proof.
  do 2 (apply does_quiet_fallible; [done|]).
  eapply does_bind; [apply does_attempt|]. intros nonEmpty ev ->.
  apply does_quiet_fallible; [done|]. destruct nonEmpty; [|apply does_fallible].
  eapply does_mono; [apply does_ret|]. by intros e ev [-> ->].
Qed.

(** The configuration a command works with. *)
Definition read_config (c : commonDeviceFlags) (w : world) (config : qtraceConfig) : Prop :=
  exists source, w_files w !! fl_config c = Some source /\ parseQTraceConfigBytes source = Ok config.

Definition bytes_at (path : string) (w : world) : Prop :=
  forall source, w_files w !! path = Some source -> bytes_ok source.

Lemma wp_makeRunner c w (Q : deviceOptions + mainError -> world -> Prop) :
  bytes_at (fl_config c) w ->
  (forall e w', idle w w' -> w_locked w' = w_locked w -> main_clean (Some e) -> Q (inr e) w') ->
  (forall o w', idle w w' -> w_locked w' = w_locked w -> common_error c = None ->
     read_config c w (Config o) -> config_ok (Config o) -> Q (inl o) w') ->
  wp (makeRunner c) Q w.
Proof.
  intros Hbytes Herr Hok. unfold makeRunner. destruct (common_error c) as [e|] eqn:Hc.
  { apply wp_ret, Herr; [apply idle_refl|done|]. unfold common_error in Hc.
    by repeat (destruct (_ : bool) in Hc; [by injection Hc as <-|]). }
  apply wp_bind, wp_bind. eapply wp_mono; [apply does_readFile|]. intros data w1 [S1 Hdata].
  pose proof (idle_same _ _ S1) as I1. assert (L1 : w_locked w1 = w_locked w) by apply S1.
  apply wp_ret. destruct data as [source|]; [|by apply wp_ret, Herr].
  specialize (Hdata source eq_refl). pose proof (parse_no_panic source) as Hnp.
  destruct (parseQTraceConfigBytes source) as [config|e|] eqn:Hparse; [|by apply wp_ret, Herr|done].
  destruct (parse_config_ok _ _ (Hbytes _ Hdata) Hparse) as [Hcok _].
  apply wp_bind. eapply wp_mono; [apply does_newReportWriter|]. intros e w2 (ev & G2 & -> & He).
  assert (I2 : idle w w2) by (eapply idle_trans; [exact I1|by exists []]).
  assert (L2 : w_locked w2 = w_locked w) by (rewrite <- L1; apply G2).
  destruct e as [e|]; [by apply wp_ret, Herr|]. apply wp_ret, Hok; try done. by exists source.
Qed.

(** What the command line must say before a command may touch the device. *)
Definition confirmed (c : commonDeviceFlags) : Prop :=
  fl_confirm c = true /\ 0 <= fl_settle c /\ 0 < fl_drain c /\ 0 < fl_poll c /\ 0 < fl_stopGrace c /\
  0 < fl_fileSize c /\ 0 < fl_fileCount c.

Lemma common_error_confirmed c : common_error c = None -> confirmed c.
Proof.
  unfold common_error, confirmed. destruct (fl_confirm c); [simpl|done].
  destruct (_ || (fl_stopGrace c <=? 0)) eqn:Hd; [done|]. destruct (_ || (fl_fileCount c <=? 0)) eqn:Hf; [done|].
  rewrite !orb_false_iff, !Z.leb_gt, Z.ltb_ge in Hd. rewrite orb_false_iff, !Z.leb_gt in Hf. lia.
Qed.

(** What every command guarantees. *)
Definition command_safe (c : commonDeviceFlags) (w : world) (e : option mainError) (w' : world) : Prop :=
  w_locked w' = false /\ main_clean e /\
  exists ev, grew w w' ev /\ guarded false ev /\
    Forall (fun data => exists config, read_config c w config /\ masks_allowed config data) (applied ev) /\
    (e = None \/ applied ev <> [] -> confirmed c).

Lemma idle_safe c w w' e :
  idle w w' -> w_locked w' = false -> main_clean (Some e) -> command_safe c w (Some e) w'.
Proof.
  intros (ev & Hg & Ha) Hl He. split_and!; [done|done|]. exists ev.
  split_and!; [done|by apply guarded_no_runs|by rewrite Ha|]. by rewrite Ha; intros [|].
Qed.

(** Leaving a command: the lock is dropped after nothing but allowed masks. *)
Definition leaves (o : deviceOptions) (finish : M unit) : Prop :=
  forall w, w_locked w = true ->
  wp finish (fun _ w' => exists ev, grew w w' ev /\ guarded true ev /\
    Forall (masks_allowed (Config o)) (applied ev) /\ w_locked w' = false) w.

Lemma wp_with_runner c finish k w :
  w_locked w = false -> bytes_at (fl_config c) w ->
  (forall o, config_ok (Config o) ->
     Does (k o) (fun e ev => main_clean e /\ partial_tests (masks_allowed (Config o)) ev) /\ leaves o (finish o)) ->
  wp (with_runner c finish k) (command_safe c w) w.
Proof.
  intros Hl Hbytes Hk. apply wp_bind, wp_makeRunner; [done| |].
  { intros e w1 I1 L1 He. apply wp_ret, idle_safe; [done|by rewrite L1|done]. }
  intros o w1 I1 L1 Hc Hread Hok. apply wp_bind, wp_acquire; [by rewrite L1|].
  intros e w2 I2 He L2. pose proof (idle_trans _ _ _ I1 I2) as (ev2 & G2 & A2).
  destruct e as [e|].
  { apply wp_ret, idle_safe; [by exists ev2|by rewrite L2|done]. }
  destruct (Hk (with_defaults o) Hok) as [Hrun Hfin].
  apply wp_bind. eapply wp_mono; [apply Hrun|]. intros e w3 (ev3 & G3 & Hclean & Hb3 & A3).
  assert (L3 : w_locked w3 = true).
  { rewrite (proj2 G3), bracketed_lock by done. by rewrite L2. }
  apply wp_bind. eapply wp_mono; [by apply Hfin|]. intros [] w4 (ev4 & G4 & Hg4 & A4 & L4). apply wp_ret.
  split_and!; [done|done|]. exists (ev2 ++ ev3 ++ ev4)%list. split_and!.
  - eapply grew_trans; [done|]. by eapply grew_trans.
  - apply guarded_app. split; [by apply guarded_no_runs|].
    assert (lock_after false ev2 = true) as ->.
    { rewrite <- Hl. destruct G2 as [_ G2]. rewrite <- G2. by rewrite L2. }
    apply guarded_app. split; [by apply bracketed_guarded|]. by rewrite bracketed_lock.
  - rewrite !applied_app, A2. simpl. apply Forall_app. split; (eapply Forall_impl; [eassumption|]);
      intros data Hd; by exists (Config o).
  - intros _. by apply common_error_confirmed.
Qed.

Lemma zero_allowed o : config_ok (Config o) -> masks_allowed (Config o) (zero_data o).
Proof. intros Hok. left. eexists. split; [by apply zero_frames_ok|done]. Qed.

Lemma masks_of_allowed o ids zeroMasks private :
  config_ok (Config o) -> frames_known o ids -> masks_allowed (Config o) (masks_of o ids zeroMasks private).
Proof.
  intros Hok Hids. right. destruct (select_frames_ok (Config o) ids zeroMasks private Hok Hids) as (fs & Hfs & _).
  exists ids, zeroMasks, private, fs. unfold masks_of. by rewrite Hfs.
Qed.

Lemma leaves_release o : leaves o release.
Proof.
  intros w Hl. apply wp_release. intros w' (ev & Hg & Ha) Hl'. exists ev.
  split_and!; [done|by apply guarded_no_runs|by rewrite Ha|done].
Qed.

Lemma cleanup_masks o label : config_ok (Config o) ->
  Does (cleanup o label) (fun e ev => clean_error e /\ partial_tests (masks_allowed (Config o)) ev).
Proof.
  intros Hok. eapply does_mono; [by apply does_cleanup|]. intros e ev (He & n & _ & (Ha & Hb & _) & _).
  split; [done|]. split; [done|]. rewrite Ha. apply Forall_forall.
  intros data ->%list_elem_of_In%repeat_spec. by apply zero_allowed.
Qed.

Lemma leaves_emergency o : config_ok (Config o) -> leaves o (emergencyRelease o).
Proof.
  intros Hok w Hl. apply wp_bind.
  assert (Hstop : wp stopActive (fun _ w' => idle w w' /\ w_locked w' = w_locked w) w).
  { apply wp_bind, wp_get. destruct (w_active w); [|by apply wp_ret; split; [apply idle_refl|]].
    apply wp_modify. split; [|done]. exists [Signalled]. by split. }
  eapply wp_mono; [exact Hstop|]. intros [] w1 [(ev1 & G1 & A1) L1].
  apply wp_bind. eapply wp_mono; [by apply cleanup_masks|]. intros e w2 (ev2 & G2 & _ & Hb2 & A2).
  eapply wp_mono; [apply leaves_release|].
  { rewrite (proj2 G2), bracketed_lock by done. by rewrite L1. }
  intros [] w3 (ev3 & G3 & Hg3 & A3 & L3). exists (ev1 ++ ev2 ++ ev3)%list.
  split_and!; [| | |done].
  - eapply grew_trans; [done|]. by eapply grew_trans.
  - apply guarded_app. split; [by apply guarded_no_runs|].
    assert (lock_after true ev1 = true) as -> by (rewrite <- Hl at 1; rewrite <- (proj2 G1); by rewrite L1).
    apply guarded_app. split; [by apply bracketed_guarded|]. by rewrite bracketed_lock.
  - rewrite !applied_app, A1. simpl. by apply Forall_app.
Qed.

Lemma partial_quiet masks ev ev' :
  partial_tests masks ev -> bracketed ev' -> applied ev' = [] -> partial_tests masks (ev ++ ev').
Proof. intros Hp Hb Ha. apply partial_app; [done|]. split; [done|]. by rewrite Ha. Qed.

Lemma does_ddminRun o opts :
  config_ok (Config o) -> CalibrationRuns opts <= 500 ->
  Does (ddminRun o opts) (fun res ev => run_clean res.2 /\ partial_tests (masks_allowed (Config o)) ev).
Proof.
  intros Hok Hruns w. apply wp_bind, wp_validate. intros e w1 Hs _ Hclean.
  assert (G1 : grew w w1 []) by (apply grew_nil; apply Hs). destruct e as [e|].
  { apply wp_ret. exists []. by split; [|split; [|apply partial_nil]]. }
  assert (Hruns' : CalibrationRuns (with_dd_defaults opts) <= 500).
  { simpl. by destruct (CalibrationRuns opts <=? 0). }
  eapply wp_mono; [apply (does_ddmin_batch o Hok _ Hruns' (dd_defaults_min opts))|].
  intros res w2 (ev & G2 & Hc & Hp & _). exists ev. split; [exact (grew_trans _ _ _ [] ev G1 G2)|].
  split; [done|]. eapply partial_weaken; [exact Hp|]. intros data [->|(ids & Hids & ->)].
  - by apply zero_allowed.
  - by apply masks_of_allowed, sublist_known.
Qed.

Lemma does_run_targets o f targets :
  config_ok (Config o) -> df_calibrationRuns f <= 500 ->
  Does (run_targets o f targets) (fun e ev => main_clean e /\ partial_tests (masks_allowed (Config o)) ev).
Proof.
  intros Hok Hruns. induction targets as [|target targets IH]; cbn [run_targets].
  { eapply does_mono; [apply does_ret|]. intros e ev [-> ->]. split; [done|apply partial_nil]. }
  eapply does_bind; [by apply does_ddminRun|]. intros [summary err] ev (Hc & Hp).
  eapply (does_bind _ _ (fun _ ev => bracketed ev /\ applied ev = [])).
  { destruct summary.
    - eapply does_mono; [apply does_WriteSummary|]. by intros ? ? (_ & ? & ? & _).
    - eapply does_mono; [apply does_ret|]. intros ? ? [_ ->]. by split; [constructor|]. }
  intros _ ev1 [Hb1 Ha1]. pose proof (partial_quiet _ _ _ Hp Hb1 Ha1) as Hp1. destruct err as [e|].
  - eapply does_mono; [apply does_ret|]. intros res ev2 [-> ->]. rewrite app_nil_r. by split.
  - eapply does_mono; [exact IH|]. intros res ev2 [Hc2 Hp2]. split; [done|].
    rewrite app_assoc. by apply partial_app.
Qed.

Lemma control_masks_allowed o opts : config_ok (Config o) ->
  Does (controlsRun o opts) (fun res ev => run_clean res.2 /\ partial_tests (masks_allowed (Config o)) ev).
Proof.
  intros Hok. eapply does_mono; [by apply does_controlsRun|]. intros res ev (Hc & Hp & _). split; [done|].
  eapply partial_weaken; [exact Hp|]. intros data [->|(z & p & ->)].
  - by apply zero_allowed.
  - by apply masks_of_allowed, known_all.
Qed.

Lemma probe_masks o stage control target private state attempt ok window : config_ok (Config o) ->
  Does (testCandidate o stage control target [] false private state attempt ok window)
    (fun res ev => clean_error res.2 /\ partial_tests (masks_allowed (Config o)) ev).
Proof.
  intros Hok. assert (Hnil : frames_known o []) by (intros i Hi; by apply elem_of_nil in Hi).
  eapply does_mono; [by apply does_test|]. intros res ev (Hc & Hp & _). split; [done|].
  eapply partial_weaken; [exact Hp|]. intros data [->| ->]; [by apply zero_allowed|by apply masks_of_allowed].
Qed.

Lemma wp_check_reports path targets w (Q : option runError -> world -> Prop) :
  (forall e w', same w w' -> run_clean e -> Q e w') -> wp (check_reports path targets) Q w.
Proof.
  revert w Q. induction targets as [|target targets IH]; intros w Q HQ; cbn [check_reports].
  { by apply wp_ret, HQ. }
  apply wp_bind, wp_validate. intros e w1 S1 _ He. destruct e as [e|]; [by apply wp_ret, HQ|].
  apply IH. intros e w2 S2 He2. apply HQ; [by eapply same_trans|done].
Qed.

Lemma same_safe c w w1 e w' : same w w1 -> command_safe c w1 e w' -> command_safe c w e w'.
Proof.
  intros Hs (Hl & He & ev & Hg & Hgu & Hf & Hc). split_and!; [done|done|]. exists ev. split_and!; [|done| |done].
  - apply (grew_trans _ w1 _ [] ev); [by apply grew_nil; apply Hs|done].
  - eapply Forall_impl; [exact Hf|]. intros data (config & (source & Hr & Hp) & Hm).
    exists config. split; [|done]. exists source. split; [|done]. rewrite <- Hr. f_equal. symmetry. apply Hs.
Qed.

(** Flags that are refused leave everything as it was. *)
Lemma refused_safe c w e : w_locked w = false -> main_clean (Some e) -> wp (mret (Some e)) (command_safe c w) w.
Proof. intros Hl He. apply wp_ret, idle_safe; [apply idle_refl|done|done]. Qed.

Lemma controls_safe f w :
  w_locked w = false -> bytes_at (fl_config (cf_common f)) w ->
  wp (runControlsCommand f) (command_safe (cf_common f) w) w.
Proof.
  intros Hl Hb. unfold runControlsCommand. destruct (controls_flags_ok f); cbn [negb]; [|by apply refused_safe].
  destruct (parseTarget (cf_target f)) as [target|]; [|by apply refused_safe].
  apply wp_with_runner; [done|done|]. intros o Hok. split; [|by apply leaves_emergency].
  eapply does_bind; [by apply control_masks_allowed|]. intros [summary err] ev (Hc & Hp).
  eapply (does_bind _ _ (fun _ ev => bracketed ev /\ applied ev = [])).
  { destruct summary.
    - eapply does_mono; [apply does_WriteSummary|]. by intros ? ? (_ & ? & ? & _).
    - eapply does_mono; [apply does_ret|]. intros ? ? [_ ->]. by split; [constructor|]. }
  intros _ ev1 [Hb1 Ha1]. eapply does_mono; [apply does_ret|]. intros e ev2 [-> ->]. rewrite app_nil_r.
  split; [by destruct err|]. by apply partial_quiet.
Qed.

Lemma probe_safe encode_probe f w :
  w_locked w = false -> bytes_at (fl_config (pf_common f)) w ->
  wp (runPrivateProbeCommand encode_probe f) (command_safe (pf_common f) w) w.
Proof.
  intros Hl Hb. unfold runPrivateProbeCommand. destruct (probe_flags_ok f); cbn [negb]; [|by apply refused_safe].
  destruct (parseTarget (pf_target f)) as [target|]; [|by apply refused_safe].
  destruct (parsePrivateProbeMode (pf_mode f)) as [mode|e] eqn:Hm.
  2: { apply refused_safe; [done|]. unfold parsePrivateProbeMode in Hm.
       repeat (case_bool_decide; [done|]). by injection Hm as <-. }
  apply wp_with_runner; [done|done|]. intros o Hok. split; [|by apply leaves_emergency].
  destruct (probe_state _ _) as [stage state].
  eapply does_bind; [by apply probe_masks|]. intros [record err] ev (Hc & Hp).
  eapply does_bind; [apply does_WriteSummary|]. intros e ev1 (He & Hb1 & Ha1 & _).
  eapply does_mono; [apply does_ret|]. intros r ev2 [-> ->]. rewrite app_nil_r.
  split; [by destruct e, err|]. by apply partial_quiet.
Qed.

Lemma ddmin_safe f w :
  w_locked w = false -> bytes_at (fl_config (df_common f)) w -> df_calibrationRuns f <= 500 ->
  wp (runDDMinCommand f) (command_safe (df_common f) w) w.
Proof.
  intros Hl Hb Hruns. unfold runDDMinCommand. destruct (ddmin_flags_ok f); cbn [negb]; [|by apply refused_safe].
  destruct (parseTargetList (df_target f)) as [targets|e] eqn:Ht.
  2: { apply refused_safe; [done|]. unfold parseTargetList in Ht. destruct (EqualFold _ _); [done|].
       destruct (parseTarget _); [done|]. by injection Ht as <-. }
  apply wp_bind, wp_check_reports. intros e w1 S1 He.
  assert (L1 : w_locked w1 = false) by (rewrite <- Hl; apply S1).
  destruct e as [e|].
  { apply wp_ret, (same_safe _ _ _ _ _ S1), idle_safe; [apply idle_refl|done|done]. }
  eapply wp_mono; [apply wp_with_runner; [done| |]|].
  - intros source Hs. apply Hb. rewrite <- Hs. f_equal. symmetry. apply S1.
  - intros o Hok. split; [by apply does_run_targets|by apply leaves_emergency].
  - intros e w2. by apply same_safe.
Qed.

End MainFacts.

(** A probe says either that the modem is cold or what was sent to it before. *)
Definition cold_or_prior (cold : bool) (prior : string) : Prop :=
  (cold = true /\ prior = "") \/ (cold = false /\ prior <> "").

(** What the flags of a command of its own must say, whatever [--confirm-device] says. *)
Definition permitted (c : command) : Prop :=
  match c with
  | Cleanup _ => True
  | Controls f =>
      cf_cold f = true /\ 0 < cf_window f /\ 0 < cf_repeats f /\ 0 <= cf_minimumHits f <= cf_repeats f
  | PrivateProbe f =>
      (cold_or_prior (pf_cold f) (TrimSpace (pf_prior f))) /\ 0 < pf_window f /\ TrimSpace (pf_label f) <> ""
  | DDMin f =>
      0 < df_calibrationRuns f /\ 0 <= df_positiveMin f <= df_calibrationRuns f /\
      0 < df_candidateMin f <= df_candidateRepeats f /\
      0 < df_minimumWindow f <= df_maximumWindow f /\ 0 <= df_windowMargin f
  end.

Lemma controls_flags_permitted f : controls_flags_ok f = true -> permitted (Controls f).
Proof.
  unfold controls_flags_ok. rewrite andb_true_iff, negb_true_iff, !orb_false_iff, !Z.leb_gt, !Z.ltb_ge.
  simpl. intuition.
Qed.

Lemma ddmin_flags_permitted f : ddmin_flags_ok f = true -> permitted (DDMin f).
Proof.
  unfold ddmin_flags_ok. rewrite !andb_true_iff, !negb_true_iff, !orb_false_iff, !Z.leb_gt, !Z.ltb_ge.
  simpl. lia.
Qed.

Lemma probe_flags_permitted f : probe_flags_ok f = true -> permitted (PrivateProbe f).
Proof.
  unfold probe_flags_ok, permitted, cold_or_prior.
  destruct (pf_cold f); repeat case_bool_decide; cbn; rewrite ?andb_true_r, ?orb_false_r, ?orb_true_r; try done;
    rewrite negb_true_iff, Z.leb_gt; naive_solver.
Qed.

(** Refused flags: the command returns at once and has done nothing. *)
Lemma not_permitted_refused `{SortSlice} `{Device} `{Json} (encode_probe : privateProbeSummary -> list Z) c w :
  ~ permitted c -> run_command encode_probe c w = (Some MainFlags, w).
Proof.
  intros Hn. destruct c as [c|f|f|f]; simpl.
  - by destruct Hn.
  - unfold runControlsCommand. destruct (controls_flags_ok f) eqn:Hf; [|done].
    by apply controls_flags_permitted in Hf.
  - unfold runPrivateProbeCommand. destruct (probe_flags_ok f) eqn:Hf; [|done].
    by apply probe_flags_permitted in Hf.
  - unfold runDDMinCommand. destruct (ddmin_flags_ok f) eqn:Hf; [|done].
    by apply ddmin_flags_permitted in Hf.
Qed.

(** * Properties *)

(** C33: the commands that change the device keep others out and leave it
    clean.  Started without the lock, a command starts processes only while it
    holds the lock of the work directory and has released it when it returns,
    on every path; it applies nothing but zero masks and selections of the
    frames of the configuration file, which parsed; it starts a process or
    succeeds only with --confirm-device, positive intervals and positive sizes;
    with flags of its own that are not permitted (controls without the
    confirmed cold state, a probe that says neither or both of cold and a prior
    state, counts or windows that are impossible) it fails at once and changes
    nothing, not even the log of system calls; and it never ends in a run-time panic (up to 500 calibration runs). *)
Theorem run_command_safe `{SortSlice} `{Device} `{Json} (encode_probe : privateProbeSummary -> list Z)
    (c : command) (w : world) :
  w_locked w = false -> bytes_at (fl_config (common_of c)) w ->
  match c with DDMin f => df_calibrationRuns f <= 500 | _ => True end ->
  let '(e, w') := run_command encode_probe c w in
  command_safe (common_of c) w e w' /\ (~ permitted c -> e = Some MainFlags /\ w' = w).
Proof.
  intros Hl Hb Hruns. pose proof (not_permitted_refused encode_probe c w) as Hp.
  cut (let '(e, w') := run_command encode_probe c w in command_safe (common_of c) w e w').
  { destruct (run_command encode_probe c w) as [e w']. intros Hs. split; [done|].
    by intros [= -> ->]%Hp. }
  clear Hp. apply (wp_elim _ (fun e w' => _)). destruct c as [c|f|f|f].
  - apply wp_with_runner; [done|done|]. intros o Hok. split; [|by apply leaves_release].
    eapply does_bind; [by apply cleanup_masks|]. intros e ev (He & Hp).
    eapply does_mono; [apply does_ret|]. intros r ev' [-> ->]. rewrite app_nil_r. split; [by destruct e|done].
  - by apply controls_safe.
  - by apply probe_safe.
  - by apply ddmin_safe.
Qed.

Definition sample_common : commonDeviceFlags :=
  mkCommon "/q.cfg" "/w" "diag_mdlog" true second second second second false 4 32.
Definition sample_command : command := Controls (mkControlsFlags sample_common "lte" second 1 0 true).

(** A control run of one repeat, started from the command line. *)
Example run_command_safe_witness :
  let '(e, w') := @run_command insertion_SortSlice sample_device sample_json (fun _ => []) sample_command
                    sample_dry_world in
  e = None /\ w_locked w' = false /\ length (applied (w_log w')) = 16%nat /\
  @command_safe sample_common sample_dry_world e w'.
Proof.
  assert (Hb : bytes_at (fl_config (common_of sample_command)) sample_dry_world).
  { intros source Hs. vm_compute in Hs. injection Hs as <-. apply (bool_decide_unpack _). vm_compute. exact I. }
  pose proof (@run_command_safe insertion_SortSlice sample_device sample_json (fun _ => []) sample_command
    sample_dry_world eq_refl Hb I) as Hs.
  assert (He : let '(e, w') := @run_command insertion_SortSlice sample_device sample_json (fun _ => [])
                 sample_command sample_dry_world in
    e = None /\ w_locked w' = false /\ length (applied (w_log w')) = 16%nat)
    by (vm_compute; split_and!; reflexivity).
  destruct (@run_command _ _ _ _ _ _) as [e w']. destruct He as (He & Hl & Hn).
  split; [exact He|]. split; [exact Hl|]. split; [exact Hn|]. exact (proj1 Hs).
Defined.
