(* ===== verification/SmsText.v ===== *)
(** Text messages as the modem stores them,
    [src/gossh/app/service/system_tools.go]: the record of a message, its
    contents in hexadecimal UTF-16, its date, and the list read over ubus. *)

From S2P Require Import Prelude GoInt GoFloat GoSort GoStrings.
Open Scope string_scope.
Open Scope Z_scope.

(** * Values of a decoded JSON document *)

(** What [encoding/json] puts into an [interface{}]; [printed] is the text
    [fmt.Sprint] gives. *)
Inductive jval :=
| JText (s : string)
| JFloat (f : float64) (printed : string)
| JNone
| JElse (printed : string).

Definition stringValue (v : jval) : string :=
  match v with JText s => s | JNone => "" | JFloat _ printed | JElse printed => printed end.

(** The integer beside the error of [strconv.Atoi]: the nearest one of 64 bits
    for a number out of range, zero for a text that is none. *)
Definition clamp64 (n : Z) : Z := Z.max (- 2 ^ 63) (Z.min (2 ^ 63 - 1) n).
Definition Atoi_value (s : string) : Z :=
  match chars s with
  | [] => 0
  | c :: l =>
    if ord c =? 45 then default 0 ((fun v => clamp64 (- v)) <$> parse_digits 10 l)
    else default 0 (clamp64 <$> parse_digits 10 (if ord c =? 43 then l else c :: l))
  end.

(** The conversion of a float out of range is that of arm64, which saturates. *)
Definition intValue (v : jval) : Z :=
  match v with
  | JFloat f _ => clamp64 (f_trunc f)
  | JText s => Atoi_value s
  | JNone | JElse _ => 0
  end.

(** * UTF-16 and UTF-8 *)

Definition is_surrogate (r : Z) : bool := (0xd800 <=? r) && (r <? 0xe000).
Definition replacement : Z := 0xfffd.

(** [utf16.Decode]: pairs of surrogates, a lone one replaced. *)
Fixpoint utf16_Decode (units : list Z) : list Z :=
  match units with
  | [] => []
  | u :: rest =>
    if (u <? 0xd800) || (0xe000 <=? u) then u :: utf16_Decode rest
    else match rest with
         | v :: rest' =>
           if (u <? 0xdc00) && (0xdc00 <=? v) && (v <? 0xe000)
           then Z.lor (Z.shiftl (u - 0xd800) 10) (v - 0xdc00) + 0x10000 :: utf16_Decode rest'
           else replacement :: utf16_Decode rest
         | [] => [replacement]
         end
  end.

(** The bytes of a rune in the conversion [string(runes)]. *)
Definition utf8_continue (r shift : Z) : Z := Z.lor 0x80 (Z.land (Z.shiftr r shift) 0x3f).
Definition utf8_encode (r : Z) : list Z :=
  if (r <? 0) || (0x10ffff <? r) || is_surrogate r then [0xef; 0xbf; 0xbd]
  else if r <=? 0x7f then [r]
  else if r <=? 0x7ff then [Z.lor 0xc0 (Z.shiftr r 6); utf8_continue r 0]
  else if r <=? 0xffff then [Z.lor 0xe0 (Z.shiftr r 12); utf8_continue r 6; utf8_continue r 0]
  else [Z.lor 0xf0 (Z.shiftr r 18); utf8_continue r 12; utf8_continue r 6; utf8_continue r 0].

Definition utf8_string (runes : list Z) : string := bytes_string (flat_map utf8_encode runes).

(** The 16-bit units of a byte string, a last odd byte left out. *)
Fixpoint be16_units (l : list Z) : list Z :=
  match l with
  | hi :: lo :: rest => Z.lor (Z.shiftl hi 8) lo :: be16_units rest
  | _ => []
  end.

Definition decodeUtf16BEHex (value : string) : string :=
  let value := TrimSpace value in
  if bool_decide (value = "") then "" else
  match hex_DecodeString value with
  | Some bytesValue =>
    if (length bytesValue <? 2)%nat then value else utf8_string (utf16_Decode (be16_units bytesValue))
  | None => value
  end.

(** * Dates *)

(** [%0<w>d]: zeros up to the width, after the sign. *)
Definition zero_pad (w : nat) (n : Z) : string :=
  let digits := Itoa (Z.abs n) in
  let zeros w := of_chars (repeat (chr 48) (w - strlen digits)) in
  if n <? 0 then String.append "-" (String.append (zeros (w - 1)%nat) digits)
  else String.append (zeros w) digits.

Definition date_text (year month day hour minute sec : Z) : string :=
  String.append (zero_pad 4 year) (String.append " 年 " (String.append (zero_pad 2 month)
    (String.append " 月 " (String.append (zero_pad 2 day) (String.append " 日 "
    (String.append (zero_pad 2 hour) (String.append ":" (String.append (zero_pad 2 minute)
    (String.append ":" (zero_pad 2 sec)))))))))).

Definition formatSmsDate (value : string) : string :=
  match mapM (fun part => Atoi (TrimSpace part)) (take 6 (Split1 value (chr 44))) with
  | Some [year; month; day; hour; minute; sec] =>
    date_text (if year <? 100 then year + 2000 else year) month day hour minute sec
  | _ => value
  end.

(** * Messages *)

Record smsMessage := mkMessage {
  ID : Z; Number : string; Date : string; Content : string; RawHex : string;
  Tag : string; MemStore : string }.

(** A missing key of an object is nil. *)
Definition json_field (obj : gmap string jval) (key : string) : jval := default JNone (obj !! key).

Definition message_of (obj : gmap string jval) : smsMessage :=
  let rawHex := stringValue (json_field obj "content") in
  mkMessage (intValue (json_field obj "id")) (stringValue (json_field obj "number"))
    (formatSmsDate (stringValue (json_field obj "date"))) (decodeUtf16BEHex rawHex) rawHex
    (stringValue (json_field obj "tag")) (stringValue (json_field obj "mem_store")).

(** [loadSmsMessages] on the reply: [None] when it has no list of messages; an
    element that is no object is passed over. *)
Definition loaded_messages `{SortSlice} (reply : option (list (option (gmap string jval)))) : list smsMessage :=
  match reply with
  | None => []
  | Some items => sortSlice (fun a b => ID b <? ID a) (message_of <$> omap id items)
  end.

(** * Facts *)

(** The writing side of the encoding, as the modem stores a text. *)
Definition scalar (r : Z) : Prop := 0 <= r <= 0x10ffff /\ is_surrogate r = false.
Definition utf16_units (r : Z) : list Z :=
  if r <? 0x10000 then [r]
  else [0xd800 + Z.shiftr (r - 0x10000) 10; 0xdc00 + Z.land (r - 0x10000) 0x3ff].
Definition be16_bytes (u : Z) : list Z := [Z.shiftr u 8; Z.land u 0xff].
Definition hex_digit (d : Z) : ascii := chr (if d <? 10 then 48 + d else 55 + d).
Definition hex_text (l : list Z) : string :=
  of_chars (flat_map (fun b => [hex_digit (b / 16); hex_digit (b `mod` 16)]) l).

Example decode_sample : decodeUtf16BEHex " 4F60597D " = "你好". Proof. reflexivity. Qed.
Example decode_emoji : decodeUtf16BEHex "d83dde00" = "😀". Proof. reflexivity. Qed.
Example decode_plain : decodeUtf16BEHex "hello" = "hello". Proof. reflexivity. Qed.
Example date_sample : formatSmsDate "24,5,1,08,03,59,+0800" = "2024 年 05 月 01 日 08:03:59".
Proof. vm_compute. reflexivity. Qed.

Lemma hex_digit_spec d : 0 <= d < 16 -> digit_of 16 (hex_digit d) = Some d /\ is_space (hex_digit d) = false.
Proof.
  intros Hd. assert (Hin : d ∈ seqZ 0 16) by (apply elem_of_seqZ; lia).
  assert (H : Forall (fun d => digit_of 16 (hex_digit d) = Some d /\ is_space (hex_digit d) = false) (seqZ 0 16))
    by (vm_compute; repeat constructor).
  by apply (proj1 (Forall_forall _ _) H).
Qed.

Lemma hex_text_chars l : chars (hex_text l) = flat_map (fun b => [hex_digit (b / 16); hex_digit (b `mod` 16)]) l.
Proof. unfold hex_text. apply String.list_ascii_of_string_of_list_ascii. Qed.

Lemma hex_pairs_text l : bytes_ok l -> hex_DecodeString (hex_text l) = Some l.
Proof.
  unfold hex_DecodeString. rewrite hex_text_chars. induction 1 as [|b l Hb Hl IH]; [done|].
  unfold in_range in Hb. pose proof (Z.div_mod b 16 ltac:(done)). pose proof (Z.mod_pos_bound b 16 ltac:(done)).
  assert (0 <= b / 16 < 16) by (split; [apply Z.div_pos|apply Z.div_lt_upper_bound]; lia).
  cbn [flat_map app hex_pairs].
  rewrite (proj1 (hex_digit_spec (b / 16) ltac:(lia))), (proj1 (hex_digit_spec (b `mod` 16) ltac:(lia))).
  cbn [mbind option_bind]. rewrite IH. cbn. f_equal. f_equal. lia.
Qed.

Lemma hex_text_trim l : bytes_ok l -> TrimSpace (hex_text l) = hex_text l.
Proof.
  intros Hl. apply TrimFunc_none. rewrite hex_text_chars. induction Hl as [|b l Hb Hl IH]; [constructor|].
  unfold in_range in Hb. pose proof (Z.mod_pos_bound b 16 ltac:(done)).
  assert (0 <= b / 16 < 16) by (split; [apply Z.div_pos|apply Z.div_lt_upper_bound]; lia).
  cbn [flat_map app]. constructor; [by apply hex_digit_spec|]. constructor; [by apply hex_digit_spec|done].
Qed.

Lemma be16_bytes_unit u rest : in_range 16 u -> be16_units (be16_bytes u ++ rest)%list = u :: be16_units rest.
Proof.
  intros Hu. cbn. f_equal. rewrite Z.lor_comm. unfold in_range in Hu.
  change 255 with (Z.ones 8). rewrite Z.land_ones by done. pose proof (Z.mod_pos_bound u (2 ^ 8) ltac:(done)).
  rewrite lor_shiftl_add by (unfold in_range; lia). rewrite Z.shiftr_div_pow2 by done.
  pose proof (Z.div_mod u (2 ^ 8) ltac:(done)). lia.
Qed.

Lemma be16_bytes_ok u : in_range 16 u -> bytes_ok (be16_bytes u).
Proof.
  intros Hu. unfold in_range in Hu. constructor; [|constructor; [|constructor]]; unfold in_range.
  - rewrite Z.shiftr_div_pow2 by done. split; [apply Z.div_pos; lia|apply Z.div_lt_upper_bound; lia].
  - change 255 with (Z.ones 8). rewrite Z.land_ones by done. by apply Z.mod_pos_bound.
Qed.

Lemma be16_units_text units : Forall (in_range 16) units ->
  be16_units (flat_map be16_bytes units) = units /\ bytes_ok (flat_map be16_bytes units).
Proof.
  induction 1 as [|u units Hu Hus [IH1 IH2]]; [by split; [|constructor]|]. split.
  - change (be16_units (be16_bytes u ++ flat_map be16_bytes units)%list = u :: units).
    by rewrite be16_bytes_unit, IH1.
  - apply Forall_app. split; [by apply be16_bytes_ok|done].
Qed.

(** The pair of surrogates of a rune beyond the basic plane. *)
Lemma surrogates r : 0x10000 <= r <= 0x10ffff ->
  exists hi lo, utf16_units r = [hi; lo] /\ 0xd800 <= hi < 0xdc00 /\ 0xdc00 <= lo < 0xe000 /\
    Z.lor (Z.shiftl (hi - 0xd800) 10) (lo - 0xdc00) + 0x10000 = r.
Proof.
  intros Hr. unfold utf16_units. rewrite (proj2 (Z.ltb_ge _ _)) by lia. eexists _, _. split; [done|].
  set (x := r - 0x10000). assert (0 <= x < 2 ^ 20) by lia.
  change 1023 with (Z.ones 10). rewrite Z.land_ones, Z.shiftr_div_pow2 by done.
  pose proof (Z.mod_pos_bound x (2 ^ 10) ltac:(done)). pose proof (Z.div_mod x (2 ^ 10) ltac:(done)).
  assert (0 <= x / 2 ^ 10 < 2 ^ 10) by (split; [apply Z.div_pos|apply Z.div_lt_upper_bound]; lia).
  split; [lia|]. split; [lia|]. rewrite Z.lor_comm, !Z.add_simpl_l.
  rewrite lor_shiftl_add by (unfold in_range; lia). lia.
Qed.

Lemma utf16_roundtrip runes : Forall scalar runes ->
  utf16_Decode (flat_map utf16_units runes) = runes /\ Forall (in_range 16) (flat_map utf16_units runes).
Proof.
  induction 1 as [|r runes [Hr Hs] Hrs [IH1 IH2]]; [by split; [|constructor]|].
  unfold is_surrogate in Hs. destruct (decide (r < 0x10000)) as [Hlt|Hge].
  - assert (Hu : utf16_units r = [r]) by (unfold utf16_units; by rewrite (proj2 (Z.ltb_lt _ _))).
    cbn [flat_map]. rewrite Hu. split; [|constructor; [unfold in_range; lia|done]].
    cbn [app utf16_Decode].
    assert (((r <? 55296) || (57344 <=? r)) = true) as -> by (destruct (r <? 55296) eqn:?; lia).
    by rewrite IH1.
  - destruct (surrogates r ltac:(lia)) as (hi & lo & Hu & Hhi & Hlo & Hsum).
    cbn [flat_map]. rewrite Hu. split; [|constructor; [|constructor; [|done]]; unfold in_range; lia].
    cbn [app utf16_Decode].
    assert (((hi <? 55296) || (57344 <=? hi)) = false) as -> by lia.
    assert (((hi <? 56320) && (56320 <=? lo) && (lo <? 57344)) = true) as -> by lia.
    by rewrite Hsum, IH1.
Qed.

Lemma be16_units_range n l : (length l <= n)%nat -> bytes_ok l -> Forall (in_range 16) (be16_units l).
Proof.
  revert l. induction n as [|n IH]; intros l Hlen Hl.
  { destruct l; simpl in Hlen; [constructor|lia]. }
  destruct Hl as [|hi l Hhi Hl]; [constructor|]. destruct Hl as [|lo l Hlo Hl]; [constructor|].
  cbn [be16_units]. constructor; [|apply IH; [simpl in Hlen; lia|done]].
  unfold in_range in *. rewrite Z.lor_comm, lor_shiftl_add by (unfold in_range; lia). lia.
Qed.

Lemma utf16_Decode_scalar n units : (length units <= n)%nat ->
  Forall (in_range 16) units -> Forall scalar (utf16_Decode units).
Proof.
  assert (Hrep : scalar replacement) by (by split; [unfold replacement; lia|]).
  revert units. induction n as [|n IH]; intros units Hlen Hu.
  { destruct units; simpl in Hlen; [constructor|lia]. }
  destruct Hu as [|u units Hu Hus]; [constructor|]. cbn [utf16_Decode]. unfold in_range in Hu. simpl in Hlen.
  destruct (_ || _) eqn:Hs.
  { constructor; [|apply IH; [lia|done]]. split; [lia|]. unfold is_surrogate. lia. }
  destruct Hus as [|v units Hv Hus]; [by repeat constructor|]. unfold in_range in Hv. simpl in Hlen.
  destruct (_ && _) eqn:Hp; [|constructor; [done|apply IH; [simpl; lia|by constructor]]].
  constructor; [|apply IH; [lia|done]].
  rewrite Z.lor_comm, lor_shiftl_add by (unfold in_range; lia).
  split; [lia|]. unfold is_surrogate. lia.
Qed.

Lemma digit_of_range base c d : digit_of base c = Some d -> 0 <= base -> 0 <= d < base.
Proof.
  intros Hd Hb. split; [by eapply digit_of_nonneg|]. unfold digit_of in Hd.
  destruct (_ <? base) eqn:Hlt; [|done]. injection Hd as <-. lia.
Qed.

Lemma hex_pairs_bytes n s l : (length s <= n)%nat -> hex_pairs s = Some l -> bytes_ok l.
Proof.
  revert s l. induction n as [|n IH]; intros s l Hlen Hl.
  - destruct s; [|simpl in Hlen; lia]. injection Hl as <-. constructor.
  - destruct s as [|c [|d s]]; [injection Hl as <-; constructor|done|]. cbn [hex_pairs] in Hl. simpl in Hlen.
    destruct (digit_of 16 c) as [hi|] eqn:Hc; [|done]. destruct (digit_of 16 d) as [lo|] eqn:Hd; [|done].
    cbn [mbind option_bind] in Hl. destruct (hex_pairs s) as [rest|] eqn:Hr; [|done]. injection Hl as <-.
    constructor; [|eapply (IH s); [lia|done]].
    pose proof (digit_of_range _ _ _ Hc ltac:(done)). pose proof (digit_of_range _ _ _ Hd ltac:(done)). unfold in_range. lia.
Qed.

(** * Properties *)

(** a stored text is shown as it was written.  Every non-empty sequence of
    Unicode scalar values, stored by the modem as hexadecimal UTF-16, is decoded
    to the UTF-8 encoding of the same sequence, surrogate pairs included;
    whatever else is stored, the result is either the stored text itself,
    trimmed, or the UTF-8 encoding of scalar values. *)
Theorem decodeUtf16BEHex_roundtrip :
  (forall runes, runes <> [] -> Forall scalar runes ->
     decodeUtf16BEHex (hex_text (flat_map be16_bytes (flat_map utf16_units runes))) = utf8_string runes) /\
  (forall value, decodeUtf16BEHex value = TrimSpace value \/
     exists runes, Forall scalar runes /\ decodeUtf16BEHex value = utf8_string runes).
Proof.
  split.
  - intros runes Hne Hr. destruct (utf16_roundtrip runes Hr) as [Hdec Hu].
    destruct (be16_units_text _ Hu) as [Hb Hok]. unfold decodeUtf16BEHex.
    rewrite hex_text_trim, hex_pairs_text, Hb, Hdec by done.
    assert (Hlen : (2 <= length (flat_map be16_bytes (flat_map utf16_units runes)))%nat).
    { destruct runes as [|r runes]; [done|]. unfold utf16_units at 1. cbn [flat_map].
      destruct (r <? 65536); cbn; lia. }
    rewrite bool_decide_eq_false_2.
    + by rewrite (proj2 (Nat.ltb_ge _ _)).
    + intros He. apply (f_equal chars) in He. rewrite hex_text_chars in He.
      destruct (flat_map be16_bytes _); [simpl in Hlen; lia|done].
  - intros value. unfold decodeUtf16BEHex. destruct (bool_decide_reflect (TrimSpace value = "")) as [He|_];
      [by left|]. destruct (hex_DecodeString _) as [l|] eqn:Hl; [|by left].
    destruct (_ <? _)%nat; [by left|]. right. eexists. split; [|done]. eapply utf16_Decode_scalar; [done|].
    eapply be16_units_range; [done|]. by eapply hex_pairs_bytes.
Qed.

(** A character of the basic plane and one beyond it. *)
Example decodeUtf16BEHex_roundtrip_witness :
  hex_text (flat_map be16_bytes (flat_map utf16_units [0x4f60; 0x1f600])) = "4F60D83DDE00" /\
  decodeUtf16BEHex "4F60D83DDE00" = "你😀".
Proof.
  split; [vm_compute; reflexivity|].
  pose proof (proj1 decodeUtf16BEHex_roundtrip [0x4f60; 0x1f600] ltac:(discriminate)) as H.
  apply H. repeat constructor; vm_compute; discriminate.
Defined.
