(* ===== verification/SmsForward.v ===== *)
(** Forwarding of text messages, [src/gossh/app/service/system_tools.go]: the
    configuration on disk, the state of pending messages, one poll, the worker
    goroutine and its start and stop, and the request handlers.

    The world is the files of the forwarder, its status variable and a log of
    what it sent.  Every system call may fail, and other requests may rewrite
    the configuration file at any of them.  Times are nanoseconds of the
    monotonic clock. *)

From S2P Require Import Prelude Effects GoInt GoSort GoStrings SmsText.
Open Scope string_scope.
Open Scope Z_scope.

(** * Data *)

Definition second : Z := 1000000000.
Definition smsForwardCompleteQuietWindow : Z := 3 * second.
Definition smsForwardCompleteMaxWait : Z := 9 * second.

Record smsForwardConfig := mkConfig {
  BarkEnabled : bool; BarkURL : string; BarkGroup : string;
  TgEnabled : bool; TgBotToken : string; TgChatID : string; LastID : Z }.
Definition noConfig : smsForwardConfig := mkConfig false "" "" false "" "" 0.
Definition with_last (c : smsForwardConfig) (id : Z) : smsForwardConfig :=
  mkConfig (BarkEnabled c) (BarkURL c) (BarkGroup c) (TgEnabled c) (TgBotToken c) (TgChatID c) id.

Record smsForwardRuntimeStatus := mkStatus {
  Running : bool; StartedAt : string; LastError : option string; SentCount : Z; st_LastID : Z }.

Record smsForwardPendingBatch := mkBatch {
  pb_Number : string; Message : smsMessage; signature : string;
  FirstSeen : Z; LastSeen : Z }.

Record smsForwardPendingState := mkPending {
  byNumber : gmap string smsForwardPendingBatch; completed : gset Z }.

(** What [net/url] reads from an address. *)
Record url := mkURL { Scheme : string; Host : string; Path : string; RawQuery : string; Fragment : string }.

Inductive request :=
| BarkRequest (endpoint : url) (payload : gmap string string)
| TelegramRequest (token chat_id text : string).

Inductive event :=
| Handed (m : smsMessage)            (** a message goes out to the enabled services *)
| Pushed (r : request)               (** a service has accepted it *)
| MarkedRead (id : Z)
| Saved (lastID : Z).                (** the configuration is written *)

Inductive sendError :=
| BarkEmpty | BarkInvalid | BarkNoKey | TelegramEmpty
| SendFailed (text : string) | SendStatus (status : Z) (body : string)
| MarkFailed (id : Z).

Inductive smsError :=
| ErrReadConfig | ErrDecodeConfig (text : string) | ErrMkdir | ErrWriteConfig
| ErrNoService | ErrNoBarkURL | ErrNoTelegram | ErrMessages | ErrRemoveMarker
| ErrSend (errs : list sendError).

Record world := mkWorld {
  w_calls : nat;                  (** system calls so far *)
  w_config : option (list Z);     (** config.json; [None] when there is no such file *)
  w_marker : bool;                (** the autostart marker *)
  w_status : smsForwardRuntimeStatus;
  w_log : list event }.

Abbreviation M := (ST world).

(** * The environment *)

(** The n-th call: whether it succeeds, and how others rewrite the
    configuration file at that moment. *)
Class Sms := mkSms {
  se_ok : nat -> bool;
  se_file : nat -> option (list Z) -> option (list Z);
  se_messages : nat -> option (option (list (option (gmap string jval))));   (** [None]: ubus failed *)
  se_http : nat -> string + Z * string;           (** an error, or status and body *)
  se_now : nat -> Z;
  se_stamp : nat -> string;
  se_error : smsError -> string;                  (** the text of an error *)
  url_parse : string -> option url;
  url_query : url -> string -> string;            (** [Query().Get(key)] *)
  encode_config : smsForwardConfig -> list Z;
  decode_config : list Z -> smsForwardConfig * option string }.

(** * Pending messages *)

Definition newSmsForwardPendingState : smsForwardPendingState := mkPending ∅ ∅.

Definition smsForwardPendingKey (m : smsMessage) : string :=
  let number := TrimSpace (Number m) in
  if bool_decide (number = "") then String.append "message:" (Itoa (ID m)) else String.append "number:" number.

Definition smsForwardMessageSignature (m : smsMessage) : string :=
  Join [Itoa (ID m); Date m; Content m; RawHex m] (of_chars [chr 0]).

Definition add (s : smsForwardPendingState) (m : smsMessage) (now : Z) : smsForwardPendingState :=
  if bool_decide (ID m ∈ completed s) then s else
  let key := smsForwardPendingKey m in
  let sig := smsForwardMessageSignature m in
  match byNumber s !! key with
  | None => mkPending (<[key := mkBatch (Number m) m sig now now]> (byNumber s)) (completed s)
  | Some batch =>
    if ID m <? ID (Message batch) then s
    else if (ID (Message batch) <? ID m) || negb (bool_decide (sig = signature batch))
    then mkPending (<[key := mkBatch (Number m) m sig (FirstSeen batch) now]> (byNumber s)) (completed s)
    else s
  end.

Definition due (now : Z) (b : smsForwardPendingBatch) : bool :=
  (smsForwardCompleteQuietWindow <=? now - LastSeen b) || (smsForwardCompleteMaxWait <=? now - FirstSeen b).

(** The batches to send and the state without them; one whose message has the
    identifier 0 is dropped. *)
Definition ready `{SortSlice} (s : smsForwardPendingState) (now : Z)
    : list smsForwardPendingBatch * smsForwardPendingState :=
  (sortSlice (fun a b => ID (Message a) <? ID (Message b))
     (filter (fun b => negb (ID (Message b) =? 0) && due now b = true) ((map_to_list (byNumber s)).*2)),
   mkPending (filter (fun kb => negb (ID (Message kb.2) =? 0) && negb (due now kb.2) = true) (byNumber s))
     (completed s)).

Definition minPendingID (pending : gmap string smsForwardPendingBatch) : Z :=
  map_fold (fun _ b min => if (min =? 0) || (ID (Message b) <? min) then ID (Message b) else min) 0 pending.

Definition nextLastID (s : smsForwardPendingState) (current : Z) : Z :=
  let min := minPendingID (byNumber s) in
  set_fold (fun id next => if (next <? id) && ((min =? 0) || (id <? min)) then id else next) current (completed s).

Definition discardCompletedThrough (s : smsForwardPendingState) (lastID : Z) : smsForwardPendingState :=
  mkPending (byNumber s) (filter (fun id => lastID < id) (completed s)).

Definition complete (s : smsForwardPendingState) (id : Z) : smsForwardPendingState :=
  mkPending (byNumber s) ({[id]} ∪ completed s).

(** * Configuration *)

Definition validateSmsForwardConfig (c : smsForwardConfig) : option smsError :=
  let blank s := bool_decide (TrimSpace s = "") in
  if negb (BarkEnabled c) && negb (TgEnabled c) then Some ErrNoService
  else if BarkEnabled c && blank (BarkURL c) then Some ErrNoBarkURL
  else if TgEnabled c && (blank (TgBotToken c) || blank (TgChatID c)) then Some ErrNoTelegram
  else None.

Section Forward.
Context `{SortSlice} `{Sms}.

(** One system call: others may have rewritten the configuration file. *)
Definition call {A} (answer : nat -> A) : M A := fun w =>
  (answer (w_calls w),
   mkWorld (S (w_calls w)) (se_file (w_calls w) (w_config w)) (w_marker w) (w_status w) (w_log w)).

Definition log_event (e : event) : M unit := st_modify (fun w =>
  mkWorld (w_calls w) (w_config w) (w_marker w) (w_status w) (w_log w ++ [e])%list).
Definition set_config (data : list Z) : M unit := st_modify (fun w =>
  mkWorld (w_calls w) (Some data) (w_marker w) (w_status w) (w_log w)).
Definition set_marker (b : bool) : M unit := st_modify (fun w =>
  mkWorld (w_calls w) (w_config w) b (w_status w) (w_log w)).
Definition set_status (f : smsForwardRuntimeStatus -> smsForwardRuntimeStatus) : M unit := st_modify (fun w =>
  mkWorld (w_calls w) (w_config w) (w_marker w) (f (w_status w)) (w_log w)).

Definition setSmsForwardLastError (msg : option string) : M unit :=
  set_status (fun s => mkStatus (Running s) (StartedAt s) msg (SentCount s) (st_LastID s)).
Definition setSmsForwardLastID (lastID : Z) : M unit :=
  set_status (fun s => mkStatus (Running s) (StartedAt s) (LastError s) (SentCount s) lastID).
Definition setSmsForwardSent (sent lastID : Z) : M unit :=
  set_status (fun s => mkStatus (Running s) (StartedAt s) (LastError s) (SentCount s + sent) lastID).

(** The configuration is the partly decoded one beside a decoding error. *)
Definition loadSmsForwardConfig : M (smsForwardConfig * option smsError) :=
  ok ← call se_ok;
  w ← st_get;
  mret (if negb ok then (noConfig, Some ErrReadConfig) else
        match w_config w with
        | None => (noConfig, None)
        | Some data =>
          if bool_decide (data = []) then (noConfig, None)
          else let '(c, e) := decode_config data in (c, ErrDecodeConfig <$> e)
        end).

(** A write that fails may leave what it has written so far. *)
Definition saveSmsForwardConfig (c : smsForwardConfig) : M (option smsError) :=
  ok ← call se_ok;
  if negb ok then mret (Some ErrMkdir) else
  ok ← call se_ok;
  if negb ok then mret (Some ErrWriteConfig) else
  _ ← set_config (encode_config c); _ ← log_event (Saved (LastID c)); mret None.

Definition loadSmsMessages : M (list smsMessage + smsError) :=
  reply ← call se_messages;
  mret (match reply with None => inr ErrMessages | Some reply => inl (loaded_messages reply) end).

(** ** Sending *)

(** The first element of the path is the device key, unless it is the word
    [push]. *)
Definition bark_device_key (base : url) : string :=
  match Split1 (TrimFunc (fun c => ord c =? 47) (Path base)) (chr 47) with
  | part :: _ => if bool_decide (part = "push") then "" else part
  | [] => ""
  end.
Definition bark_endpoint (base : url) : url := mkURL (Scheme base) (Host base) "/push" "" "".

Definition notifyRequest (r : request) : M (option sendError) :=
  answer ← call se_http;
  match answer with
  | inl text => mret (Some (SendFailed text))
  | inr (status, body) =>
    if (status <? 200) || (300 <=? status) then mret (Some (SendStatus status (TrimSpace body)))
    else _ ← log_event (Pushed r); mret None
  end.

Definition bark_payload (base : url) (deviceKey group title body : string) : gmap string string :=
  let payload : gmap string string := <["body" := body]> (<["title" := title]> {["device_key" := deviceKey]}) in
  let icon := TrimSpace (url_query base "icon") in
  let payload := if bool_decide (icon = "") then payload else <["icon" := icon]> payload in
  let group := if bool_decide (TrimSpace group = "") then TrimSpace (url_query base "group") else TrimSpace group in
  if bool_decide (group = "") then payload else <["group" := group]> payload.

Definition sendBark (rawURL group title body : string) : M (option sendError) :=
  let rawURL := TrimSpace rawURL in
  if bool_decide (rawURL = "") then mret (Some BarkEmpty) else
  match url_parse rawURL with
  | None => mret (Some BarkInvalid)
  | Some base =>
    if bool_decide (Scheme base = "") || bool_decide (Host base = "") then mret (Some BarkInvalid) else
    let deviceKey := bark_device_key base in
    if bool_decide (deviceKey = "") then mret (Some BarkNoKey) else
    notifyRequest (BarkRequest (bark_endpoint base) (bark_payload base deviceKey group title body))
  end.

Definition sendTelegram (token chatID text : string) : M (option sendError) :=
  let token := TrimSpace token in
  let chatID := TrimSpace chatID in
  if bool_decide (token = "") || bool_decide (chatID = "") then mret (Some TelegramEmpty) else
  notifyRequest (TelegramRequest token chatID text).

Definition markSmsRead (id : Z) : M (option sendError) :=
  if id <=? 0 then mret None else
  ok ← call se_ok;
  if (ok : bool) then _ ← log_event (MarkedRead id); mret None else mret (Some (MarkFailed id)).

(** A message to the enabled services: how many accepted it, and the errors.
    [text] is what Bark and Telegram are given. *)
Definition send_to (bark : bool) (barkURL barkGroup : string) (tg : bool) (token chatID : string)
    (m : smsMessage) (title text : string) : M (Z * list sendError) :=
  _ ← log_event (Handed m);
  e1 ← (if bark then e ← sendBark barkURL barkGroup title text; mret (Some e) else mret None);
  e2 ← (if tg then e ← sendTelegram token chatID text; mret (Some e) else mret None);
  let accepted e := match e with Some None => 1 | _ => 0 end in
  let failed e := match e with Some (Some err) => [err] | _ => [] end in
  let sent := accepted e1 + accepted e2 in
  e3 ← (if 0 <? sent then markSmsRead (ID m) else mret None);
  mret (sent, failed e1 ++ failed e2 ++ option_list e3)%list.

Definition sms_title (number : string) : string := String.append "短信 " number.

Definition sendSmsForwardBatch (c : smsForwardConfig) (b : smsForwardPendingBatch) : M (Z * list sendError) :=
  send_to (BarkEnabled c) (BarkURL c) (BarkGroup c) (TgEnabled c) (TgBotToken c) (TgChatID c)
    (Message b) (sms_title (pb_Number b)) (Content (Message b)).

(** ** One poll *)

(** The batches that are due, in order: each is sent once and completed,
    whether a service accepted it or not. *)
Fixpoint send_batches (c : smsForwardConfig) (batches : list smsForwardPendingBatch)
    (s : smsForwardPendingState) (sent : Z) (errs : list sendError)
    : M (smsForwardPendingState * Z * list sendError) :=
  match batches with
  | [] => mret (s, sent, errs)
  | b :: batches =>
    '(batchSent, batchErrs) ← sendSmsForwardBatch c b;
    send_batches c batches (complete s (ID (Message b))) (sent + batchSent) (errs ++ batchErrs)%list
  end.

Definition latest_id (messages : list smsMessage) (lastID : Z) : Z :=
  fold_left (fun latest m => if latest <? ID m then ID m else latest) messages lastID.

Definition newer `{SortSlice} (messages : list smsMessage) (lastID : Z) : list smsMessage :=
  sortSlice (fun a b => ID a <? ID b) (filter (fun m => lastID < ID m) messages).

(** The end of a poll, once the due batches are sent. *)
Definition finish_poll (c : smsForwardConfig) (s : smsForwardPendingState) (sent : Z) (errs : list sendError)
    : M (smsForwardPendingState * option smsError) :=
  let report s lastID : M (smsForwardPendingState * option smsError) :=
    _ ← setSmsForwardSent sent lastID;
    match errs with
    | _ :: _ => mret (s, Some (ErrSend errs))
    | [] => _ ← setSmsForwardLastError None; mret (s, None)
    end in
  let newLastID := nextLastID s (LastID c) in
  if LastID c <? newLastID then
    e ← saveSmsForwardConfig (with_last c newLastID);
    match e with
    | Some e => mret (s, Some e)
    | None => report (discardCompletedThrough s newLastID) newLastID
    end
  else report s (LastID c).

(** Without a last identifier the poll only notes the newest message. *)
Definition first_poll (c : smsForwardConfig) (messages : list smsMessage) (s : smsForwardPendingState)
    : M (smsForwardPendingState * option smsError) :=
  let c := with_last c (latest_id messages (LastID c)) in
  e ← saveSmsForwardConfig c;
  match e with
  | Some e => mret (s, Some e)
  | None => _ ← setSmsForwardLastID (LastID c); mret (s, None)
  end.

Definition smsForwardPollOnce (pending : smsForwardPendingState)
    : M (smsForwardPendingState * option smsError) :=
  '(c, e) ← loadSmsForwardConfig;
  match e with Some e => mret (pending, Some e) | None =>
  match validateSmsForwardConfig c with Some e => mret (pending, Some e) | None =>
  r ← loadSmsMessages;
  match r with
  | inr e => mret (pending, Some e)
  | inl messages =>
    if LastID c =? 0 then first_poll c messages pending else
    now ← call se_now;
    let '(batches, s) := ready (fold_left (fun s m => add s m now) (newer messages (LastID c)) pending) now in
    '(s, sent, errs) ← send_batches c batches s 0 [];
    finish_poll c s sent errs
  end end end.

End Forward.

(** * Facts about the pending state *)

Definition handed_of (e : event) : option (string * Z) :=
  match e with Handed m => Some (smsForwardPendingKey m, ID m) | _ => None end.
(** The messages handed out, by sender and identifier. *)
Definition handed (log : list event) : list (string * Z) := omap handed_of log.

Definition noted_of (e : event) : option Z := match e with Saved id => Some id | _ => None end.
(** The last identifiers written to the configuration. *)
Definition noted (log : list event) : list Z := omap noted_of log.

Lemma handed_app l1 l2 : handed (l1 ++ l2) = (handed l1 ++ handed l2)%list.
Proof. apply omap_app. Qed.
Lemma noted_app l1 l2 : noted (l1 ++ l2) = (noted l1 ++ noted l2)%list.
Proof. apply omap_app. Qed.

(** Batches are filed under the key of their message. *)
Definition filed (s : smsForwardPendingState) : Prop :=
  map_Forall (fun k b => smsForwardPendingKey (Message b) = k) (byNumber s).

Section PendingFacts.
Context `{HSort : SortSlice}.

Lemma add_completed s m now : completed (add s m now) = completed s.
Proof. unfold add. repeat case_match; done. Qed.

Lemma add_filed s m now : filed s -> filed (add s m now).
Proof.
  intros Hs. unfold add. repeat case_match; try done; by apply map_Forall_insert_2.
Qed.

(** Every batch after an addition is an old one, or holds the new message. *)
Lemma add_lookup s m now k b :
  byNumber (add s m now) !! k = Some b ->
  byNumber s !! k = Some b \/ (k = smsForwardPendingKey m /\ Message b = m /\ ID m ∉ completed s).
Proof.
  unfold add. destruct (bool_decide_reflect (ID m ∈ completed s)) as [|Hn]; [by left|].
  repeat case_match; try (by left); simpl;
    (rewrite lookup_insert_Some; intros [[<- <-]|[_ ?]]; [right|left]; done).
Qed.

(** A batch keeps its place, with a newer or corrected message. *)
Lemma add_keeps s m now k b :
  byNumber s !! k = Some b ->
  exists b', byNumber (add s m now) !! k = Some b' /\ ID (Message b) <= ID (Message b') /\
    FirstSeen b' = FirstSeen b.
Proof.
  intros Hb. unfold add. destruct (bool_decide _); [by exists b|].
  destruct (decide (smsForwardPendingKey m = k)) as [<-|Hne].
  - rewrite Hb. destruct (ID m <? ID (Message b)) eqn:Hlt; [by exists b|].
    destruct (_ || _); [|by exists b]. eexists. simpl. rewrite lookup_insert_eq. split; [done|]. simpl. split; [lia|done].
  - exists b. repeat case_match; simpl; rewrite ?lookup_insert_ne by done; done.
Qed.

(** The message added is completed, or its sender's batch is as new. *)
Lemma add_covers s m now :
  ID m ∈ completed s \/
  exists b, byNumber (add s m now) !! smsForwardPendingKey m = Some b /\ ID m <= ID (Message b).
Proof.
  unfold add. destruct (bool_decide_reflect (ID m ∈ completed s)) as [|Hn]; [by left|]. right.
  destruct (byNumber s !! smsForwardPendingKey m) as [b|] eqn:Hb.
  - destruct (ID m <? ID (Message b)) eqn:Hlt; [exists b; split; [done|lia]|].
    destruct (_ || _) eqn:Hn'; [|exists b; split; [done|lia]].
    eexists. simpl. rewrite lookup_insert_eq. split; [done|]. simpl. lia.
  - eexists. simpl. rewrite lookup_insert_eq. split; [done|]. simpl. lia.
Qed.

Definition add_all (s : smsForwardPendingState) (ms : list smsMessage) (now : Z) : smsForwardPendingState :=
  fold_left (fun s m => add s m now) ms s.

Lemma add_all_completed s ms now : completed (add_all s ms now) = completed s.
Proof. revert s. induction ms as [|m ms IH]; intros s; [done|]. etrans; [apply (IH (add s m now))|apply add_completed]. Qed.

Lemma add_all_filed s ms now : filed s -> filed (add_all s ms now).
Proof. revert s. induction ms as [|m ms IH]; intros s Hs; [done|]. by apply IH, add_filed. Qed.

Lemma add_all_lookup s ms now k b :
  byNumber (add_all s ms now) !! k = Some b ->
  byNumber s !! k = Some b \/ (k = smsForwardPendingKey (Message b) /\ Message b ∈ ms /\ ID (Message b) ∉ completed s).
Proof.
  revert s. induction ms as [|m ms IH]; intros s Hb; [by left|].
  destruct (IH (add s m now) Hb) as [Hb'|(? & ? & Hc)].
  - destruct (add_lookup _ _ _ _ _ Hb') as [|(-> & <- & ?)]; [by left|]. right. set_solver.
  - right. rewrite add_completed in Hc. set_solver.
Qed.

Lemma add_all_keeps s ms now k b :
  byNumber s !! k = Some b ->
  exists b', byNumber (add_all s ms now) !! k = Some b' /\ ID (Message b) <= ID (Message b') /\
    FirstSeen b' = FirstSeen b.
Proof.
  revert s b. induction ms as [|m ms IH]; intros s b Hb; [by exists b|].
  destruct (add_keeps s m now k b Hb) as (b1 & Hb1 & Hle & Hf).
  destruct (IH _ _ Hb1) as (b2 & ? & ? & ?). exists b2. split; [done|]. split; [lia|congruence].
Qed.

Lemma add_all_covers s ms now m :
  m ∈ ms ->
  ID m ∈ completed s \/
  exists b, byNumber (add_all s ms now) !! smsForwardPendingKey m = Some b /\ ID m <= ID (Message b).
Proof.
  intros Hm. apply list_elem_of_split in Hm as (l1 & l2 & ->). unfold add_all. rewrite fold_left_app.
  fold (add_all s l1 now). destruct (add_covers (add_all s l1 now) m now) as [Hc|(b & Hb & Hle)].
  - left. by rewrite add_all_completed in Hc.
  - right. destruct (add_all_keeps _ l2 now _ _ Hb) as (b' & ? & ? & _). exists b'. split; [done|lia].
Qed.

(** Messages seen for the first time in this poll. *)
Definition fresh (now : Z) (s : smsForwardPendingState) : Prop :=
  map_Forall (fun _ b => FirstSeen b = now /\ LastSeen b = now) (byNumber s).

Lemma add_all_fresh s ms now : fresh now s -> fresh now (add_all s ms now).
Proof.
  revert s. induction ms as [|m ms IH]; intros s Hs; [done|]. apply IH. unfold add.
  destruct (bool_decide _); [done|]. destruct (byNumber s !! _) as [b|] eqn:Hb.
  - destruct (_ <? _); [done|]. destruct (_ || _); [|done]. apply map_Forall_insert_2; [|done].
    by split; [apply (Hs _ _ Hb)|].
  - by apply map_Forall_insert_2.
Qed.

(** ** What is due *)

Lemma ready_batches s now b :
  b ∈ (ready s now).1 <-> exists k, byNumber s !! k = Some b /\ ID (Message b) <> 0 /\ due now b = true.
Proof.
  unfold ready. cbn [fst]. rewrite sortSlice_perm, list_elem_of_filter, list_elem_of_fmap.
  rewrite andb_true_iff, negb_true_iff, Z.eqb_neq. split.
  - intros [Hd ([k b'] & -> & Hb)]. apply elem_of_map_to_list in Hb. by exists k.
  - intros (k & Hb & Hd). split; [done|]. exists (k, b). by rewrite elem_of_map_to_list.
Qed.

Lemma ready_pending s now k b :
  byNumber (ready s now).2 !! k = Some b <->
  byNumber s !! k = Some b /\ ID (Message b) <> 0 /\ due now b = false.
Proof.
  unfold ready. cbn [snd byNumber]. rewrite map_lookup_filter_Some. cbn [snd].
  rewrite andb_true_iff, !negb_true_iff, Z.eqb_neq. done.
Qed.

Lemma ready_keys s now : filed s -> NoDup ((fun b => smsForwardPendingKey (Message b)) <$> (ready s now).1).
Proof.
  intros Hs. unfold ready. cbn [fst]. rewrite sortSlice_perm.
  eapply sublist_NoDup; [|apply fmap_sublist, sublist_filter]. rewrite <- list_fmap_compose.
  rewrite (list_fmap_ext _ fst); [apply NoDup_fst_map_to_list|].
  intros i [k b] Hb%list_elem_of_lookup_2%elem_of_map_to_list. apply (Hs _ _ Hb).
Qed.

(** The sentinel 0 stands for no batch at all, as long as none has it. *)
Lemma minPendingID_spec (pending : gmap string smsForwardPendingBatch) :
  map_Forall (fun _ b => ID (Message b) <> 0) pending ->
  (minPendingID pending = 0 /\ pending = ∅) \/
  (minPendingID pending <> 0 /\ map_Forall (fun _ b => minPendingID pending <= ID (Message b)) pending).
Proof.
  unfold minPendingID. apply (map_fold_weak_ind (fun r pending =>
    map_Forall (fun _ b => ID (Message b) <> 0) pending ->
    (r = 0 /\ pending = ∅) \/ (r <> 0 /\ map_Forall (fun _ b => r <= ID (Message b)) pending))); [by left|].
  intros k b m r Hk IH [Hb Hm]%map_Forall_insert; [|done]. right.
  destruct (IH Hm) as [[-> ->]|[Hr Hall]].
  - simpl. split; [done|]. rewrite map_Forall_insert by done. split; [lia|]. apply map_Forall_empty.
  - rewrite (proj2 (Z.eqb_neq r 0)) by done. simpl. destruct (ID (Message b) <? r) eqn:Hlt.
    + split; [done|]. rewrite map_Forall_insert by done. split; [lia|].
      eapply map_Forall_impl; [exact Hall|]. simpl. intros. lia.
    + split; [done|]. rewrite map_Forall_insert by done. split; [lia|done].
Qed.

Lemma nextLastID_spec s current :
  map_Forall (fun _ b => ID (Message b) <> 0) (byNumber s) ->
  current <= nextLastID s current /\
  (current < nextLastID s current -> nextLastID s current ∈ completed s /\
     map_Forall (fun _ b => nextLastID s current < ID (Message b)) (byNumber s)).
Proof.
  intros Hne. unfold nextLastID.
  pose proof (minPendingID_spec _ Hne) as Hmin. set (min := minPendingID (byNumber s)) in *.
  apply (set_fold_ind_L (fun next X => current <= next /\
    (current < next -> next ∈ X /\ map_Forall (fun _ b => next < ID (Message b)) (byNumber s)))).
  - split; [lia|lia].
  - intros id X next Hid [Hle Hn]. destruct (_ && _) eqn:Hc; 
      [|split; [done|]; intros [? ?]%Hn; split; [by apply elem_of_union_r|done]].
    split; [lia|]. intros _. split; [by apply elem_of_union_l, elem_of_singleton|]. intros k b Hb.
    destruct Hmin as [[_ He]|[Hz Hm]]; [by rewrite He, lookup_empty in Hb|].
    specialize (Hm k b Hb). simpl in Hm. lia.
Qed.

End PendingFacts.

(** * Facts about a poll *)

(** What the pending state of a worker has to do with what the worker did. *)
Record tracked (s : smsForwardPendingState) (log : list event) : Prop := mkTracked {
  tr_filed : filed s;
  tr_once : NoDup (handed log);
  tr_pending : map_Forall (fun k b => (k, ID (Message b)) ∉ handed log) (byNumber s);
  tr_handed : forall k id, (k, id) ∈ handed log -> id ∈ completed s \/ exists n, n ∈ noted log /\ id <= n;
  tr_completed : forall id, id ∈ completed s -> exists k, (k, id) ∈ handed log }.

Section PollFacts.
Context `{HSort : SortSlice} `{HSms : Sms}.

Abbreviation SLogs := (Logs w_log).
Definition quiet (ev : list event) : Prop := handed ev = [] /\ noted ev = [].

Lemma quiet_app l1 l2 : quiet l1 -> quiet l2 -> quiet (l1 ++ l2).
Proof. intros [H1 H2] [H3 H4]. unfold quiet. by rewrite handed_app, noted_app, H1, H2, H3, H4. Qed.

Lemma logs_event e : SLogs (log_event e) (fun _ ev => ev = [e]).
Proof. intros w. by exists [e]. Qed.

Lemma logs_notify r : SLogs (notifyRequest r) (fun _ ev => quiet ev).
Proof.
  apply logs_silent; [done|]. intros [text|[status body]]; [by apply logs_ret|].
  destruct (_ || _); [by apply logs_ret|]. eapply logs_bind; [apply logs_event|].
  intros [] ev ->. by apply logs_ret.
Qed.

Lemma logs_bark url group title body : SLogs (sendBark url group title body) (fun _ ev => quiet ev).
Proof. unfold sendBark. repeat case_match; first [by apply logs_ret | apply logs_notify]. Qed.

Lemma logs_telegram token chat text : SLogs (sendTelegram token chat text) (fun _ ev => quiet ev).
Proof. unfold sendTelegram. repeat case_match; first [by apply logs_ret | apply logs_notify]. Qed.

Lemma logs_mark id : SLogs (markSmsRead id) (fun _ ev => quiet ev).
Proof.
  unfold markSmsRead. destruct (id <=? 0); [by apply logs_ret|]. apply logs_silent; [done|].
  intros [|]; [|by apply logs_ret]. eapply logs_bind; [apply logs_event|]. intros [] ev ->. by apply logs_ret.
Qed.

Lemma logs_send bark barkURL group tg token chat m title text :
  SLogs (send_to bark barkURL group tg token chat m title text)
    (fun _ ev => handed ev = [(smsForwardPendingKey m, ID m)] /\ noted ev = []).
Proof.
  assert (Hif : forall (b : bool) (k : M (option sendError)),
    SLogs k (fun _ ev => quiet ev) ->
    SLogs (if b then e ← k; mret (Some e) else mret None) (fun _ ev => quiet ev)).
  { intros [] k Hk; [|by apply logs_ret]. eapply logs_bind; [exact Hk|]. intros e ev Hq.
    apply logs_ret. by rewrite app_nil_r. }
  unfold send_to. eapply logs_bind; [apply logs_event|]. intros [] ev0 ->.
  eapply logs_bind; [apply Hif, logs_bark|]. intros e1 ev1 Q1.
  eapply logs_bind; [apply Hif, logs_telegram|]. intros e2 ev2 Q2. cbn zeta.
  eapply logs_bind with (P := fun _ ev => quiet ev).
  { destruct (0 <? _); [apply logs_mark|by apply logs_ret]. }
  intros e3 ev3 Q3. apply logs_ret. rewrite app_nil_r.
  destruct (quiet_app _ _ Q1 (quiet_app _ _ Q2 Q3)) as [Hh Hn].
  rewrite (handed_app [_]), (noted_app [_]), Hh, Hn. done.
Qed.

Lemma logs_save c : SLogs (saveSmsForwardConfig c)
  (fun e ev => handed ev = [] /\ noted ev = match e with None => [LastID c] | Some _ => [] end).
Proof.
  apply logs_silent; [done|]. intros [|]; [|by apply logs_ret]. apply logs_silent; [done|].
  intros [|]; [|by apply logs_ret]. apply logs_silent; [done|]. intros [].
  eapply logs_bind; [apply logs_event|]. intros [] ev ->. by apply logs_ret.
Qed.

(** The key under which a batch is handed out. *)
Definition batch_key (b : smsForwardPendingBatch) : string * Z :=
  (smsForwardPendingKey (Message b), ID (Message b)).

Definition completed_all (s : smsForwardPendingState) (bs : list smsForwardPendingBatch) : smsForwardPendingState :=
  fold_left (fun s b => complete s (ID (Message b))) bs s.

Lemma completed_all_spec s bs :
  byNumber (completed_all s bs) = byNumber s /\
  forall id, id ∈ completed (completed_all s bs) <-> id ∈ completed s \/ exists b, b ∈ bs /\ ID (Message b) = id.
Proof.
  revert s. induction bs as [|b bs IH]; intros s.
  { split; [done|]. intros id. split; [by left|]. intros [?|(b & []%not_elem_of_nil & _)]. done. }
  destruct (IH (complete s (ID (Message b)))) as [Hb Hc]. split; [exact Hb|].
  intros id. change (completed_all s (b :: bs)) with (completed_all (complete s (ID (Message b))) bs).
  rewrite Hc. simpl. rewrite elem_of_union, elem_of_singleton. setoid_rewrite elem_of_cons. clear Hb Hc IH.
  split; [intros [[->|?]|(b' & ? & ?)]|intros [?|(b' & [->|?] & ?)]]; eauto.
Qed.

Lemma logs_batches c bs s sent errs :
  SLogs (send_batches c bs s sent errs)
    (fun r ev => r.1.1 = completed_all s bs /\ handed ev = batch_key <$> bs /\ noted ev = []).
Proof.
  revert s sent errs. induction bs as [|b bs IH]; intros s sent errs; [by apply logs_ret|].
  eapply logs_bind; [apply logs_send|]. intros [n es] ev [Hh Hn].
  eapply logs_mono; [apply IH|]. intros r ev' (Hr & Hh' & Hn'). split; [exact Hr|].
  rewrite handed_app, noted_app, Hh, Hn, Hh', Hn'. done.
Qed.

Lemma logs_first c messages s :
  SLogs (first_poll c messages s) (fun r ev => r.1 = s /\ handed ev = []).
Proof.
  eapply logs_bind; [apply logs_save|]. intros [e|] ev [Hh _]; [by apply logs_ret; rewrite app_nil_r|].
  apply logs_silent; [done|]. intros []. apply logs_ret. by rewrite app_nil_r.
Qed.

(** The end of a poll notes the new identifier, or nothing. *)
Lemma logs_finish c s sent errs :
  SLogs (finish_poll c s sent errs) (fun r ev => handed ev = [] /\
    ((r.1 = s /\ noted ev = []) \/
     (LastID c < nextLastID s (LastID c) /\ noted ev = [nextLastID s (LastID c)] /\
      r.1 = discardCompletedThrough s (nextLastID s (LastID c))))).
Proof.
  assert (Hrep : forall s lastID, Logs w_log (_ ← setSmsForwardSent sent lastID;
      match errs with
      | _ :: _ => mret (s, Some (ErrSend errs))
      | [] => _ ← setSmsForwardLastError None; mret (s, None)
      end : M (smsForwardPendingState * option smsError)) (fun r ev => r.1 = s /\ ev = [])).
  { intros s0 lastID. apply logs_silent; [done|]. intros [].
    destruct errs; [apply logs_silent; [done|]; intros []|]; by apply logs_ret. }
  unfold finish_poll. destruct (LastID c <? _) eqn:Hlt.
  - eapply logs_bind; [apply logs_save|]. intros [e|] ev [Hh Hn].
    + apply logs_ret. rewrite app_nil_r. split; [done|by left].
    + eapply logs_mono; [apply Hrep|]. intros r ev' [Hr ->]. rewrite app_nil_r.
      split; [done|]. right. split; [lia|done].
  - eapply logs_mono; [apply Hrep|]. intros r ev [Hr ->]. by split; [|left].
Qed.

(** ** What a poll does *)

(** The state once the due batches are sent. *)
Definition after_sending (s : smsForwardPendingState) (messages : list smsMessage) (lastID now : Z)
    : list smsForwardPendingBatch * smsForwardPendingState :=
  let r := ready (add_all s (newer messages lastID) now) now in (r.1, completed_all r.2 r.1).

(** A poll that gets as far as sending. *)
Record poll_sends (s : smsForwardPendingState) (w : world) (c : smsForwardConfig)
    (messages : list smsMessage) (now : Z) : Prop := mkPollSends {
  ps_config : (loadSmsForwardConfig w).1 = (c, None);
  ps_valid : validateSmsForwardConfig c = None;
  ps_last : LastID c <> 0;
  ps_messages : loaded_messages <$> se_messages (S (w_calls w)) = Some messages;
  ps_now : now = se_now (S (S (w_calls w))) }.

Definition sends_result (s : smsForwardPendingState) (c : smsForwardConfig) (messages : list smsMessage) (now : Z)
    (s' : smsForwardPendingState) (ev : list event) : Prop :=
  let '(bs, s2) := after_sending s messages (LastID c) now in
  handed ev = batch_key <$> bs /\
  ((s' = s2 /\ noted ev = []) \/
   (LastID c < nextLastID s2 (LastID c) /\ noted ev = [nextLastID s2 (LastID c)] /\
    s' = discardCompletedThrough s2 (nextLastID s2 (LastID c)))).

(** After a step that only counts. *)
Definition stepped (w w' : world) : Prop := w_log w' = w_log w /\ w_calls w' = S (w_calls w).

Lemma wp_answer {A} (answer : nat -> A) (Q : A -> world -> Prop) w :
  (forall w', stepped w w' -> Q (answer (w_calls w)) w') -> wp (call answer) Q w.
Proof. intros HQ. by apply HQ. Qed.

Lemma wp_load (Q : smsForwardConfig * option smsError -> world -> Prop) w :
  (forall w', stepped w w' -> Q (loadSmsForwardConfig w).1 w') -> wp loadSmsForwardConfig Q w.
Proof. intros HQ. by apply HQ. Qed.

(** What a poll leaves behind. *)
Definition poll_did (s : smsForwardPendingState) (w : world)
    (r : smsForwardPendingState * option smsError) (w' : world) : Prop :=
  exists ev, w_log w' = (w_log w ++ ev)%list /\
    ((r.1 = s /\ handed ev = [] /\ forall c messages now, ~ poll_sends s w c messages now) \/
     (exists c messages now, poll_sends s w c messages now /\ sends_result s c messages now r.1 ev)).

Lemma poll_cases s w : wp (smsForwardPollOnce s) (poll_did s w) w.
Proof.
  apply wp_bind, wp_load. intros w1 [Hl1 Hc1].
  assert (Hstop : forall e w', w_log w' = w_log w ->
    (forall c messages now, ~ poll_sends s w c messages now) -> poll_did s w (s, e) w').
  { intros e w' Hw Hno. exists []. rewrite app_nil_r. split; [done|by left]. }
  destruct (loadSmsForwardConfig w).1 as [c [e|]] eqn:Hload.
  { apply wp_ret, Hstop; [done|]. intros c' ms now [Hc' _ _ _ _]. congruence. }
  destruct (validateSmsForwardConfig c) as [e|] eqn:Hvalid.
  { apply wp_ret, Hstop; [done|]. intros c' ms now [Hc' ? _ _ _]. congruence. }
  apply wp_bind, wp_bind, wp_answer. intros w2 [Hl2 Hc2]. rewrite Hc1. apply wp_ret.
  destruct (se_messages (S (w_calls w))) as [reply|] eqn:Hreply.
  2: { apply wp_ret, Hstop; [congruence|]. intros c' ms now [_ _ _ Hm _]. by rewrite Hreply in Hm. }
  destruct (LastID c =? 0) eqn:Hzero.
  - assert (Hno : forall c' ms now, ~ poll_sends s w c' ms now).
    { intros c' ms now [Hc' _ Hz _ _]. rewrite Hload in Hc'. injection Hc' as <-. lia. }
    eapply (logs_wp w_log); [apply logs_first|]. intros r w' ev Hev [Hr Hh].
    exists ev. split; [congruence|]. by left.
  - apply wp_bind, wp_answer. intros w3 [Hl3 Hc3]. rewrite Hc2, Hc1.
    set (now := se_now _). set (ms := loaded_messages reply) in *.
    change (fold_left _ (newer ms (LastID c)) s) with (add_all s (newer ms (LastID c)) now).
    destruct (ready _ now) as [bs s2] eqn:Hr. apply wp_bind.
    eapply (logs_wp w_log); [apply logs_batches|]. intros [[s3 sent] errs] w4 ev Hev (Hs3 & Hh & Hn).
    cbn [fst snd] in Hs3. subst s3.
    eapply (logs_wp w_log); [apply logs_finish|]. intros r w5 ev' Hev' [Hh' Hres].
    exists (ev ++ ev')%list. split; [rewrite Hev', Hev, (assoc app); congruence|]. right.
    exists c, ms, now. split.
    { split; try done; [lia|]. by rewrite Hreply. }
    unfold sends_result, after_sending. rewrite Hr. cbn [fst snd].
    rewrite handed_app, noted_app, Hh, Hh', Hn, app_nil_r. by split.
Qed.

(** ** The bookkeeping over many polls *)

Lemma tracked_more s log ev : tracked s log -> handed ev = [] -> tracked s (log ++ ev).
Proof.
  intros [Hf Ho Hp Hh Hc] Hev.
  assert (Happ : handed (log ++ ev) = handed log) by (by rewrite handed_app, Hev, app_nil_r).
  split; rewrite ?Happ; try done.
  intros k id Hid. destruct (Hh k id Hid) as [?|(n & ? & ?)]; [by left|]. right. exists n.
  rewrite noted_app, elem_of_app. auto.
Qed.

Lemma elem_of_newer ms lastID m : m ∈ newer ms lastID <-> lastID < ID m /\ m ∈ ms.
Proof. unfold newer. by rewrite sortSlice_perm, list_elem_of_filter. Qed.

(** Nothing that is pending after the additions has been handed out. *)
Lemma pending_new s log ms lastID now k b :
  tracked s log -> Forall (fun n => n <= lastID) (noted log) ->
  byNumber (add_all s (newer ms lastID) now) !! k = Some b ->
  smsForwardPendingKey (Message b) = k /\ (k, ID (Message b)) ∉ handed log.
Proof.
  intros Ht Hle Hb. destruct (add_all_lookup _ _ _ _ _ Hb) as [Hold|(-> & Hm & Hnc)].
  - split; [by apply (tr_filed _ _ Ht)|by apply (tr_pending _ _ Ht)].
  - split; [done|]. apply elem_of_newer in Hm as [Hlt _]. intros Hh.
    destruct (tr_handed _ _ Ht _ _ Hh) as [|(n & Hn & Hidn)]; [done|].
    rewrite Forall_forall in Hle. specialize (Hle n Hn). lia.
Qed.

Lemma elem_of_batch_keys k id (bs : list smsForwardPendingBatch) :
  (k, id) ∈ batch_key <$> bs <-> exists b, b ∈ bs /\ smsForwardPendingKey (Message b) = k /\ ID (Message b) = id.
Proof.
  rewrite list_elem_of_fmap. split.
  - intros (b & [= -> ->] & Hb). by exists b.
  - intros (b & Hb & <- & <-). by exists b.
Qed.

Lemma tracked_sends s log c ms now s' ev :
  tracked s log -> Forall (fun n => n <= LastID c) (noted log) ->
  sends_result s c ms now s' ev -> tracked s' (log ++ ev).
Proof.
  intros Ht Hle. unfold sends_result, after_sending. cbn zeta.
  set (s1 := add_all s _ now). set (s2 := completed_all _ _). intros [Hh Hs'].
  assert (Hf : filed s1) by (apply add_all_filed, Ht).
  pose proof (completed_all_spec (ready s1 now).2 (ready s1 now).1) as [Hpend Hcomp]. fold s2 in Hpend, Hcomp.
  assert (Hbs : forall b, b ∈ (ready s1 now).1 -> exists k, byNumber s1 !! k = Some b /\ due now b = true).
  { intros b (k & ? & _ & ?)%ready_batches. by exists k. }
  assert (Hs1c : completed (ready s1 now).2 = completed s) by apply add_all_completed.
  assert (Hby : byNumber s' = byNumber (ready s1 now).2) by (destruct Hs' as [[-> _]|(_ & _ & ->)]; exact Hpend).
  assert (Hhanded : forall k id, (k, id) ∈ handed (log ++ ev) -> id ∈ completed s2 \/ exists n, n ∈ noted log /\ id <= n).
  { intros k id. rewrite handed_app, Hh, elem_of_app, elem_of_batch_keys. intros [Hl|(b & Hb & _ & Hid)].
    - destruct (tr_handed _ _ Ht _ _ Hl); [left; rewrite Hcomp, Hs1c|right]; auto.
    - left. apply Hcomp. right. by exists b. }
  split.
  - unfold filed. rewrite Hby. intros k b (Hb & _)%ready_pending. by apply Hf.
  - rewrite handed_app, Hh. apply NoDup_app. split; [apply Ht|]. split.
    + intros [k id] Hl (b & Hb & <- & <-)%elem_of_batch_keys. destruct (Hbs b Hb) as (k & Hk & _).
      destruct (pending_new _ _ _ _ _ _ _ Ht Hle Hk) as [Hkey Hnew]. by rewrite Hkey in Hl.
    + apply (NoDup_fmap_1 fst). rewrite <- list_fmap_compose. by apply (ready_keys s1).
  - rewrite Hby. intros k b (Hb & _ & Hnd)%ready_pending.
    destruct (pending_new _ _ _ _ _ _ _ Ht Hle Hb) as [Hkey Hnew].
    rewrite handed_app, Hh, elem_of_app, elem_of_batch_keys. intros [|(b' & Hb' & Hk & _)]; [done|].
    destruct (Hbs b' Hb') as (k' & Hk' & Hdue). rewrite (Hf _ _ Hk') in Hk. congruence.
  - intros k id Hid. rewrite noted_app. setoid_rewrite elem_of_app.
    destruct (Hhanded k id Hid) as [Hc|(n & ? & ?)]; [|by right; exists n; auto].
    destruct Hs' as [[-> _]|(_ & -> & ->)]; [by left|].
    set (n := nextLastID s2 (LastID c)). destruct (decide (n < id)).
    + left. by apply elem_of_filter.
    + right. exists n. split; [right; by apply list_elem_of_singleton|lia].
  - intros id Hid. setoid_rewrite handed_app. setoid_rewrite elem_of_app.
    assert (Hc : id ∈ completed s2) by (destruct Hs' as [[-> _]|(_ & _ & ->)]; [done|by apply elem_of_filter in Hid as [_ ?]]).
    rewrite Hcomp, Hs1c in Hc. destruct Hc as [Hc|(b & Hb & <-)].
    + destruct (tr_completed _ _ Ht id Hc) as [k Hk]. exists k. by left.
    + exists (smsForwardPendingKey (Message b)). right. rewrite Hh. apply elem_of_batch_keys. by exists b.
Qed.

(** A worker's polls: the pending state it has and what it has logged.  Others
    may change the configuration in between, but not to a last identifier below
    one this worker has saved. *)
Inductive polls : smsForwardPendingState -> list event -> Prop :=
| polls_start : polls newSmsForwardPendingState []
| polls_more s log w ev :
    polls s log ->
    (forall c, (loadSmsForwardConfig w).1 = (c, None) -> Forall (fun n => n <= LastID c) (noted log)) ->
    w_log (smsForwardPollOnce s w).2 = (w_log w ++ ev)%list ->
    polls (smsForwardPollOnce s w).1.1 (log ++ ev).

Lemma polls_tracked s log : polls s log -> tracked s log.
Proof.
  induction 1 as [|s log w ev _ Ht Hle Hev].
  { by split; [| |apply map_Forall_empty|intros ? ? []%not_elem_of_nil|intros ? []%not_elem_of_empty]; try constructor. }
  destruct (poll_cases s w) as (ev' & Hev' & Hres).
  assert (ev' = ev) as -> by (apply (app_inv_head (w_log w)); by rewrite <- Hev').
  destruct Hres as [(-> & Hh & _)|(c & ms & now & Hps & Hres)]; [by apply tracked_more|].
  eapply tracked_sends; [done|apply Hle, Hps|exact Hres].
Qed.

(** A message of the store that is newer than the last identifier is accounted
    for: handed out, or followed by one of the same sender that is handed out
    or waits beyond every identifier noted. *)
Definition accounted (log ev : list event) (s' : smsForwardPendingState) (m : smsMessage) : Prop :=
  (exists k, (k, ID m) ∈ handed (log ++ ev)) \/
  exists id, ID m <= id /\
    ((smsForwardPendingKey m, id) ∈ handed ev \/
     exists b, byNumber s' !! smsForwardPendingKey m = Some b /\ ID (Message b) = id /\
       Forall (fun n => n < id) (noted ev)).

Lemma due_ready s now k b :
  byNumber s !! k = Some b -> ID (Message b) <> 0 -> due now b = true -> b ∈ (ready s now).1.
Proof. intros. apply ready_batches. by exists k. Qed.

Lemma sends_accounts s log c ms now s' ev m :
  tracked s log -> LastID c <> 0 -> sends_result s c ms now s' ev ->
  m ∈ ms -> LastID c < ID m -> 0 < ID m -> accounted log ev s' m.
Proof.
  intros Ht Hlast. unfold sends_result, after_sending. cbn zeta.
  set (s1 := add_all s _ now). set (s2 := completed_all _ _). intros [Hh Hs'] Hm Hlt Hpos.
  destruct (completed_all_spec (ready s1 now).2 (ready s1 now).1) as [Hpend _]. fold s2 in Hpend.
  destruct (add_all_covers s (newer ms (LastID c)) now m) as [Hc|(b & Hb & Hle)]; [by apply elem_of_newer| |].
  { left. destruct (tr_completed _ _ Ht _ Hc) as [k Hk]. exists k. rewrite handed_app, elem_of_app. by left. }
  right. exists (ID (Message b)). split; [done|].
  destruct (due now b) eqn:Hdue.
  { left. rewrite Hh. apply elem_of_batch_keys. exists b. split; [eapply due_ready; [exact Hb|lia|done]|].
    split; [|done]. assert (Hf : filed s1) by (apply add_all_filed, Ht). by apply (Hf _ _ Hb). }
  right. exists b.
  assert (Hb2 : byNumber s2 !! smsForwardPendingKey m = Some b).
  { rewrite Hpend. apply ready_pending. split; [done|]. split; [lia|done]. }
  destruct Hs' as [[-> ->]|(Hgt & -> & ->)]; [done|]. split; [done|]. split; [done|].
  constructor; [|constructor].
  assert (Hne : map_Forall (fun _ b => ID (Message b) <> 0) (byNumber s2)).
  { rewrite Hpend. intros k b' (_ & Hz & _)%ready_pending. exact Hz. }
  destruct (nextLastID_spec s2 (LastID c) Hne) as [_ Hn]. apply (proj2 (Hn Hgt) _ _ Hb2).
Qed.

(** A batch goes out at the latest when it has waited for the longest time. *)
Lemma sends_in_time s log c ms now s' ev k b :
  tracked s log -> sends_result s c ms now s' ev ->
  byNumber s !! k = Some b -> 0 < ID (Message b) -> smsForwardCompleteMaxWait <= now - FirstSeen b ->
  exists id, ID (Message b) <= id /\ (k, id) ∈ handed ev.
Proof.
  intros Ht. unfold sends_result, after_sending. cbn zeta. set (s1 := add_all s _ now).
  intros [Hh _] Hb Hpos Hwait. destruct (add_all_keeps s (newer ms (LastID c)) now k b Hb) as (b' & Hb' & Hle & Hf).
  exists (ID (Message b')). split; [done|]. rewrite Hh. apply elem_of_batch_keys. exists b'.
  split; [eapply due_ready; [exact Hb'|lia|]|split; [|done]].
  - apply orb_true_iff. right. apply Z.leb_le. by rewrite Hf.
  - assert (Hfiled : filed s1) by (apply add_all_filed, Ht). by apply (Hfiled _ _ Hb').
Qed.

Lemma sends_pending s c ms now s' ev k b :
  sends_result s c ms now s' ev -> byNumber s' !! k = Some b ->
  now - LastSeen b < smsForwardCompleteQuietWindow /\ now - FirstSeen b < smsForwardCompleteMaxWait.
Proof.
  unfold sends_result, after_sending. cbn zeta. set (s1 := add_all s _ now). intros [_ Hs'] Hb.
  assert (Hb1 : byNumber (ready s1 now).2 !! k = Some b).
  { rewrite <- (proj1 (completed_all_spec _ (ready s1 now).1)). by destruct Hs' as [[-> _]|(_ & _ & ->)]. }
  apply ready_pending in Hb1 as (_ & _ & Hdue). unfold due in Hdue. lia.
Qed.

Lemma sends_ordered s c ms now s' ev :
  sends_result s c ms now s' ev -> StronglySorted (fun x y => x.2 <= y.2) (handed ev).
Proof.
  unfold sends_result, after_sending. cbn zeta. set (s1 := add_all s _ now). intros [-> _].
  unfold ready. cbn [fst].
  pose proof (sortSlice_sorted _ (fun a b => ID (Message a) <? ID (Message b))
    (filter (fun b => negb (ID (Message b) =? 0) && due now b = true) ((map_to_list (byNumber s1)).*2))
    (strict_weak_Z (fun b => ID (Message b)))) as Hs.
  induction Hs as [|b l Hl IH Hb]; [constructor|]. simpl. constructor; [done|].
  apply Forall_fmap. eapply Forall_impl; [exact Hb|]. simpl. intros b'. lia.
Qed.

Lemma first_poll_sends_nothing w ev :
  w_log (smsForwardPollOnce newSmsForwardPendingState w).2 = (w_log w ++ ev)%list -> handed ev = [].
Proof.
  intros Hev. destruct (poll_cases newSmsForwardPendingState w) as (ev' & Hev' & Hres).
  assert (ev' = ev) as -> by (apply (app_inv_head (w_log w)); by rewrite <- Hev').
  destruct Hres as [(_ & Hh & _)|(c & ms & now & _ & Hres)]; [done|].
  unfold sends_result, after_sending in Hres. destruct Hres as [-> _].
  destruct (ready _ now).1 as [|b bs] eqn:Hr; [done|].
  assert (Hb : b ∈ (ready (add_all newSmsForwardPendingState (newer ms (LastID c)) now) now).1).
  { rewrite Hr. by left. }
  apply ready_batches in Hb as (k & Hb & _ & Hdue).
  destruct (add_all_fresh newSmsForwardPendingState (newer ms (LastID c)) now (map_Forall_empty _) k b Hb) as [Hf Hl].
  unfold due in Hdue. rewrite Hf, Hl, Z.sub_diag in Hdue. done.
Qed.

End PollFacts.

(** * Properties *)

(** C11: no text message is forwarded twice.  Over the whole life of a worker,
    whatever the message store shows, however the clock moves, whichever sends
    and writes fail and however others change the configuration, as long as
    they set no last identifier below one the worker has saved, each pair of
    sender and identifier is handed out at most once; the first poll after a
    start hands out nothing. *)
Theorem polls_hand_out_once `{SortSlice} `{Sms} (s : smsForwardPendingState) (log : list event) :
  polls s log ->
  NoDup (handed log) /\
  (forall w ev, w_log (smsForwardPollOnce newSmsForwardPendingState w).2 = (w_log w ++ ev)%list -> handed ev = []).
Proof.
  intros Hp. split; [apply (tr_once _ _ (polls_tracked _ _ Hp))|]. intros w ev. apply first_poll_sends_nothing.
Qed.

(** C12: no text message is passed over.  A poll that does not get as far as
    sending - the configuration cannot be read, is not valid or has no last
    identifier yet, or the store cannot be read - hands out nothing and keeps
    what waits, so that it postpones everything to a later poll.  When a poll of
    a worker gets as far as sending, and the last identifier it reads is none
    below those the worker has saved, every message of the store beyond it has
    been handed out, or a later one of the same sender takes its place, which is
    handed out or still waits with an identifier beyond the one saved; a message
    that has waited for nine seconds by then goes out in this poll, as itself or
    in its later form; whatever stays behind was changed less than three seconds
    ago and first seen less than nine; and the messages go out in the order of
    their identifiers. *)
Theorem poll_accounts `{SortSlice} `{Sms} (s : smsForwardPendingState) (log ev : list event) (w : world) :
  let '((s', _), w') := smsForwardPollOnce s w in
  w_log w' = (w_log w ++ ev)%list ->
  ((forall c messages now, ~ poll_sends s w c messages now) -> s' = s /\ handed ev = []) /\
  (forall c messages now, polls s log -> poll_sends s w c messages now -> Forall (fun n => n <= LastID c) (noted log) ->
     (forall m, m ∈ messages -> LastID c < ID m -> 0 < ID m -> accounted log ev s' m) /\
     (forall k b, byNumber s !! k = Some b -> 0 < ID (Message b) ->
        smsForwardCompleteMaxWait <= now - FirstSeen b -> exists id, ID (Message b) <= id /\ (k, id) ∈ handed ev) /\
     map_Forall (fun _ b => now - LastSeen b < smsForwardCompleteQuietWindow /\
                            now - FirstSeen b < smsForwardCompleteMaxWait) (byNumber s') /\
     StronglySorted (fun x y => x.2 <= y.2) (handed ev)).
Proof.
  pose proof (poll_cases s w) as Hcase.
  unfold wp in Hcase. destruct (smsForwardPollOnce s w) as [[s' e] w']. intros Hev.
  destruct Hcase as (ev' & Hev' & Hres). cbn [fst snd] in *.
  assert (ev' = ev) as -> by (apply (app_inv_head (w_log w)); by rewrite <- Hev').
  destruct Hres as [(-> & Hh & Hno)|(c' & ms' & now' & Hps' & Hres)].
  { split; [done|]. intros c messages now _ Hps. by destruct (Hno _ _ _ Hps). }
  split; [intros Hno; by destruct (Hno _ _ _ Hps')|].
  intros c messages now Hp [Hc' _ Hlast Hm' ->] Hle. pose proof (polls_tracked _ _ Hp) as Ht.
  destruct Hps' as [Hc _ _ Hm ->].
  assert (c' = c) as -> by congruence. assert (ms' = messages) as -> by congruence.
  split_and!.
  - intros m. by eapply sends_accounts.
  - intros k b. by eapply sends_in_time.
  - intros k b. by eapply sends_pending.
  - by eapply sends_ordered.
Qed.

(** ** A concrete modem *)

Definition sample_message (id : string) (text : string) : option (gmap string jval) :=
  Some {["id" := JText id; "number" := JText "10086"; "content" := JText text]}.

(** Two messages of one sender; every call succeeds and the clock advances four
    seconds with each. *)
#[local] Instance sample_sms : Sms := {|
  se_ok _ := true;
  se_file _ file := file;
  se_messages _ := Some (Some [sample_message "6" "4F60"; sample_message "5" "597D"]);
  se_http _ := inr (200, "");
  se_now n := Z.of_nat n * (4 * second);
  se_stamp _ := "";
  se_error _ := "";
  url_parse s := Some (mkURL "https" "api.day.app" s "" "");
  url_query _ _ := "";
  encode_config c := LastID c :: string_bytes (BarkURL c);
  decode_config l := match l with
    | id :: l => (mkConfig true (bytes_string l) "" false "" "" id, None)
    | [] => (noConfig, Some "")
    end |}.

Definition sample_world : world :=
  mkWorld 0 (Some (encode_config (mkConfig true "/key/" "" false "" "" 4))) true
    (mkStatus true "" None 0 4) [].

Definition sample_poll (s : smsForwardPendingState) (w : world) : smsForwardPendingState * world :=
  let '((s', _), w') := smsForwardPollOnce s w in (s', w').
Definition sample_first : smsForwardPendingState * world := sample_poll newSmsForwardPendingState sample_world.
Definition sample_second : smsForwardPendingState * world := sample_poll sample_first.1 sample_first.2.

(** Of two messages of one sender within one poll only the later one goes out,
    and the identifier saved passes over the earlier one for good. *)
Example later_replaces_earlier :
  handed (w_log sample_second.2) = [("number:10086", 6)] /\ noted (w_log sample_second.2) = [6] /\
  completed sample_second.1 = ∅ /\ byNumber sample_second.1 = ∅.
Proof. vm_compute. split_and!; reflexivity. Qed.

Lemma sample_polls_first : polls sample_first.1 [].
Proof.
  change sample_first.1 with (smsForwardPollOnce newSmsForwardPendingState sample_world).1.1.
  change ([] : list event) with ([] ++ [] : list event)%list.
  apply (polls_more _ _ sample_world); [constructor|constructor|vm_compute; reflexivity].
Qed.

Lemma sample_polls : polls sample_second.1 (w_log sample_second.2).
Proof.
  change sample_second.1 with (smsForwardPollOnce sample_first.1 sample_first.2).1.1.
  change (w_log sample_second.2) with ([] ++ w_log sample_second.2)%list.
  apply (polls_more _ _ sample_first.2); [apply sample_polls_first|constructor|vm_compute; reflexivity].
Qed.

(** After two polls one message has gone out, once. *)
Example polls_hand_out_once_witness :
  handed (w_log sample_second.2) = [("number:10086", 6)] /\ NoDup (handed (w_log sample_second.2)).
Proof.
  split; [vm_compute; reflexivity|].
  exact (proj1 (polls_hand_out_once sample_second.1 (w_log sample_second.2) sample_polls)).
Defined.

Definition sample_config : smsForwardConfig := mkConfig true "/key/" "" false "" "" 4.
Definition sample_messages : list smsMessage :=
  loaded_messages (Some [sample_message "6" "4F60"; sample_message "5" "597D"]).

(** The second poll accounts for both messages: the earlier one is replaced. *)
Example poll_accounts_witness :
  (ID <$> sample_messages) = [6; 5] /\
  forall m, m ∈ sample_messages -> LastID sample_config < ID m -> 0 < ID m ->
    accounted [] (w_log sample_second.2) sample_second.1 m.
Proof.
  split; [vm_compute; reflexivity|].
  pose proof (poll_accounts sample_first.1 [] (w_log sample_second.2) sample_first.2) as H.
  assert (Hps : poll_sends sample_first.1 sample_first.2 sample_config sample_messages (20 * second)).
  { split; [vm_compute; reflexivity..|discriminate|vm_compute; reflexivity|vm_compute; reflexivity]. }
  revert H. unfold sample_second, sample_poll.
  destruct (smsForwardPollOnce sample_first.1 sample_first.2) as [[s' e] w'] eqn:Hpoll. intros H.
  refine (proj1 (proj2 (H _) _ _ _ sample_polls_first Hps (Forall_nil_2 _))). assert (Hlog : w_log sample_first.2 = []) by (vm_compute; reflexivity).
  rewrite Hlog. reflexivity.
Defined.
