(* ===== verification/SmsService.v ===== *)
(** The text-message forwarder as a service,
    [src/gossh/app/service/system_tools.go]: starting and stopping the worker
    goroutine, its loop, and the request handlers.

    A worker is known by the channel that stops it.  The operations under
    [smsForwardMu] are atomic; a poll runs as one step, during which other
    requests may still rewrite the configuration file (see [SmsForward.Sms]).
    Between its steps a worker waits for its ticker or its channel; when both
    are ready Go picks either. *)

From S2P Require Import Prelude Effects GoInt GoSort GoStrings SmsText SmsForward.
From stdpp Require sorting.
Open Scope string_scope.
Open Scope Z_scope.

(** * State *)

(** A goroutine that still sleeps after an automatic start, one before its
    first poll, and one in its loop. *)
Inductive phase := Sleeping | Starting | Looping.
Record worker := mkWorker { wk_phase : phase; wk_pending : smsForwardPendingState }.

Record service := mkService {
  sv_world : world;
  sv_stop : option nat;              (** [smsForwardStop]: a channel, or nil *)
  sv_closed : gset nat;              (** the channels that are closed *)
  sv_workers : gmap nat worker;      (** the goroutines that have not returned *)
  sv_next : nat;                     (** the next channel *)
  sv_panicked : bool }.              (** a closed channel was closed again *)

Abbreviation SM := (ST service).

(** * Requests and replies *)

Record forwardRequest := mkForward {
  fr_config : smsForwardConfig; OnlyLatest : bool; DryRun : bool }.

(** Code, latest identifier, number of acceptances, messages and errors. *)
Record forwardReply := mkForwardReply {
  fp_code : Z; fp_latest : Z; fp_sent : Z; fp_messages : list smsMessage; fp_errs : list sendError }.

Section Service.
Context `{SortSlice} `{Sms}.

Definition in_world {A} (m : M A) : SM A := fun s =>
  let '(a, w) := m (sv_world s) in
  (a, mkService w (sv_stop s) (sv_closed s) (sv_workers s) (sv_next s) (sv_panicked s)).

Definition set_worker (n : nat) (wk : option worker) : SM unit := st_modify (fun s =>
  mkService (sv_world s) (sv_stop s) (sv_closed s) (partial_alter (fun _ => wk) n (sv_workers s)) (sv_next s)
    (sv_panicked s)).
Definition set_stop (stop : option nat) : SM unit := st_modify (fun s =>
  mkService (sv_world s) stop (sv_closed s) (sv_workers s) (sv_next s) (sv_panicked s)).

(** [make(chan struct{})]. *)
Definition make_channel : SM nat := fun s =>
  (sv_next s, mkService (sv_world s) (sv_stop s) (sv_closed s) (sv_workers s) (S (sv_next s)) (sv_panicked s)).

(** [close(ch)]. *)
Definition close_channel (n : nat) : SM unit := st_modify (fun s =>
  mkService (sv_world s) (sv_stop s) ({[n]} ∪ sv_closed s) (sv_workers s) (sv_next s)
    (sv_panicked s || bool_decide (n ∈ sv_closed s))).

Definition set_running (running : bool) : SM unit :=
  in_world (set_status (fun st => mkStatus running (StartedAt st) (LastError st) (SentCount st) (st_LastID st))).

(** ** The worker *)

Definition startSmsForwardWorker (fromAutostart : bool) : SM (option smsError) :=
  s ← st_get;
  match sv_stop s with
  | Some _ => mret None
  | None =>
    '(c, e) ← in_world loadSmsForwardConfig;
    match e with Some e => mret (Some e) | None =>
    match validateSmsForwardConfig c with Some e => mret (Some e) | None =>
    stop ← make_channel;
    _ ← set_stop (Some stop);
    stamp ← in_world (call se_stamp);
    _ ← in_world (set_status (fun _ => mkStatus true stamp None 0 (LastID c)));
    _ ← set_worker stop (Some (mkWorker (if fromAutostart then Sleeping else Starting) newSmsForwardPendingState));
    mret None
    end end
  end.

Definition stopSmsForwardWorker : SM unit :=
  s ← st_get;
  _ ← (match sv_stop s with
       | Some n => _ ← close_channel n; set_stop None
       | None => mret tt
       end);
  set_running false.

(** The worker's deferred function. *)
Definition worker_return (n : nat) : SM unit :=
  s ← st_get;
  _ ← (if bool_decide (sv_stop s = Some n) then set_stop None else mret tt);
  _ ← set_running false;
  set_worker n None.

Definition worker_poll (n : nat) (wk : worker) : SM unit :=
  '(pending, e) ← in_world (smsForwardPollOnce (wk_pending wk));
  _ ← (match e with
       | Some e => in_world (setSmsForwardLastError (Some (se_error e)))
       | None => mret tt
       end);
  set_worker n (Some (mkWorker Looping pending)).

Definition worker_wake (n : nat) (wk : worker) : SM unit :=
  set_worker n (Some (mkWorker Starting (wk_pending wk))).

Definition getSmsForwardStatus (s : service) : smsForwardRuntimeStatus :=
  let st := w_status (sv_world s) in
  mkStatus (bool_decide (is_Some (sv_stop s))) (StartedAt st) (LastError st) (SentCount st) (st_LastID st).

Definition getSmsForwardAutostartEnabled : M bool :=
  w ← st_get; mret (w_marker w).

(** [os.WriteFile] or [os.Remove] of the marker. *)
Definition setSmsForwardAutostartEnabled (enabled : bool) : M (option smsError) :=
  ok ← call se_ok;
  if negb ok then mret (Some ErrMkdir) else
  ok ← call se_ok;
  if (enabled : bool) then
    if ok : bool then _ ← set_marker true; mret None else mret (Some ErrWriteConfig)
  else
    w ← st_get;
    if negb (w_marker w) then mret None
    else if ok : bool then _ ← set_marker false; mret None else mret (Some ErrRemoveMarker).

Definition InitSmsForwardAutostart : SM (option smsError) :=
  enabled ← in_world getSmsForwardAutostartEnabled;
  if enabled : bool then startSmsForwardWorker true else mret None.

(** ** Handlers *)

(** The configuration and the status, with the identifier on disk. *)
Definition SystemSmsForwardStatusHandler : SM ((smsForwardConfig * smsForwardRuntimeStatus * bool) + smsError) :=
  '(c, e) ← in_world loadSmsForwardConfig;
  match e with
  | Some e => mret (inr e)
  | None =>
    s ← st_get;
    enabled ← in_world getSmsForwardAutostartEnabled;
    let st := getSmsForwardStatus s in
    mret (inl (c, mkStatus (Running st) (StartedAt st) (LastError st) (SentCount st) (LastID c), enabled))
  end.

(** A request without a last identifier keeps the one on disk. *)
Definition SystemSmsForwardConfigHandler (req : smsForwardConfig) : SM (smsForwardConfig + smsError) :=
  '(current, _) ← in_world loadSmsForwardConfig;
  let req := if LastID req =? 0 then with_last req (LastID current) else req in
  e ← in_world (saveSmsForwardConfig req);
  mret (match e with Some e => inr e | None => inl req end).

(** The code of the reply, and the status beside code 0. *)
Definition SystemSmsForwardControlHandler (action : string) : SM (Z * option smsForwardRuntimeStatus) :=
  let reply (e : option smsError) : SM (Z * option smsForwardRuntimeStatus) :=
    match e with
    | Some _ => mret (2, None)
    | None => s ← st_get; mret (0, Some (getSmsForwardStatus s))
    end in
  if bool_decide (action = "start") then e ← startSmsForwardWorker false; reply e
  else if bool_decide (action = "stop") then _ ← stopSmsForwardWorker; reply None
  else if bool_decide (action = "restart") then
    _ ← stopSmsForwardWorker; e ← startSmsForwardWorker false; reply e
  else mret (1, None).

Definition SystemSmsForwardAutostartHandler (enabled : bool) : SM (option smsError) :=
  in_world (setSmsForwardAutostartEnabled enabled).

(** Forwarding on request: what the handler sends for one message. *)
Definition forward_text (m : smsMessage) : string :=
  String.append (Content m) (String.append (of_chars [chr 10]) (String.append "时间: " (Date m))).

Fixpoint forward_all (c : smsForwardConfig) (targets : list smsMessage) (sent : Z) (errs : list sendError)
    : M (Z * list sendError) :=
  match targets with
  | [] => mret (sent, errs)
  | m :: targets =>
    '(n, es) ← send_to (BarkEnabled c) (BarkURL c) (BarkGroup c) (TgEnabled c) (TgBotToken c) (TgChatID c)
                 m (sms_title (Number m)) (forward_text m);
    forward_all c targets (sent + n) (errs ++ es)%list
  end.

Definition forward_targets (req : forwardRequest) (messages : list smsMessage) : list smsMessage :=
  let targets := newer messages (LastID (fr_config req)) in
  if OnlyLatest req && (1 <? length targets)%nat then drop (length targets - 1) targets else targets.

Definition SystemSmsForwardHandler (req : forwardRequest) : M (forwardReply + smsError) :=
  r ← loadSmsMessages;
  match r with
  | inr e => mret (inr e)
  | inl messages =>
    let targets := forward_targets req messages in
    let latestID := latest_id messages (LastID (fr_config req)) in
    if DryRun req then mret (inl (mkForwardReply 0 latestID 0 targets [])) else
    '(sent, errs) ← forward_all (fr_config req) targets 0 [];
    mret (inl (mkForwardReply (match errs with [] => 0 | _ => 3 end) latestID sent targets errs))
  end.

(** ** Steps *)

(** What happens to the service: requests, and the moves of its workers.  A
    worker in its loop may poll even after its channel is closed, when its
    ticker is ready as well. *)
Inductive step (s : service) : service -> Prop :=
| step_start auto : step s (startSmsForwardWorker auto s).2
| step_init : step s (InitSmsForwardAutostart s).2
| step_status : step s (SystemSmsForwardStatusHandler s).2
| step_config req : step s (SystemSmsForwardConfigHandler req s).2
| step_control action : step s (SystemSmsForwardControlHandler action s).2
| step_autostart enabled : step s (SystemSmsForwardAutostartHandler enabled s).2
| step_forward req : step s (in_world (SystemSmsForwardHandler req) s).2
| step_wake n wk : sv_workers s !! n = Some wk -> wk_phase wk = Sleeping -> step s (worker_wake n wk s).2
| step_poll n wk : sv_workers s !! n = Some wk -> wk_phase wk <> Sleeping -> step s (worker_poll n wk s).2
| step_return n wk : sv_workers s !! n = Some wk -> wk_phase wk = Looping -> n ∈ sv_closed s ->
    step s (worker_return n s).2.

Definition initial (w : world) : service := mkService w None ∅ ∅ 0 false.

Inductive reachable : service -> Prop :=
| reachable_initial w : reachable (initial w)
| reachable_step s s' : reachable s -> step s s' -> reachable s'.

End Service.

(** * The invariant *)

Definition open_worker (s : service) (n : nat) : Prop := is_Some (sv_workers s !! n) /\ n ∉ sv_closed s.

Record service_ok (s : service) : Prop := mkServiceOk {
  so_safe : sv_panicked s = false;
  so_known : forall n, is_Some (sv_workers s !! n) \/ n ∈ sv_closed s -> (n < sv_next s)%nat;
  so_stop : forall n, sv_stop s = Some n -> open_worker s n;
  so_open : forall n, open_worker s n -> sv_stop s = Some n }.

Definition with_world (s : service) (w : world) : service :=
  mkService w (sv_stop s) (sv_closed s) (sv_workers s) (sv_next s) (sv_panicked s).

Lemma with_world_ok s w : service_ok s -> service_ok (with_world s w).
Proof. by intros []. Qed.

Section ServiceFacts.
Context `{HSort : SortSlice} `{HSms : Sms}.

Lemma wp_in_world {A} (m : M A) (Q : A -> service -> Prop) s :
  (forall a w, Q a (with_world s w)) -> wp (in_world m) Q s.
Proof. intros HQ. unfold wp, in_world. destruct (m (sv_world s)). apply HQ. Qed.

Lemma ok_in_world {A} (m : M A) s : service_ok s -> service_ok (in_world m s).2.
Proof. intros Hs. apply (wp_in_world m (fun _ s' => service_ok s')). intros _ w. by apply with_world_ok. Qed.

(** A stopped service: no worker is open. *)
Lemma stopped_ok s : service_ok s -> wp stopSmsForwardWorker (fun _ s' => service_ok s' /\ sv_stop s' = None) s.
Proof.
  intros Hs. apply wp_bind, wp_get, wp_bind. destruct (sv_stop s) as [n|] eqn:Hstop.
  - destruct (so_stop _ Hs n Hstop) as [Hw Hc]. apply wp_bind, wp_modify, wp_modify, wp_in_world.
    intros [] w. split; [|done]. split; simpl.
    + rewrite bool_decide_eq_false_2 by done. rewrite orb_false_r. apply Hs.
    + intros k [Hk|Hk]; [apply Hs; by left|]. apply elem_of_union in Hk as [->%elem_of_singleton|Hk];
        apply Hs; [left|right]; done.
    + done.
    + intros k [Hk Hk']. simpl in *. apply not_elem_of_union in Hk' as [Hne Hk'].
      pose proof (so_open _ Hs k (conj Hk Hk')) as He. rewrite Hstop in He. injection He as ->.
      by rewrite elem_of_singleton in Hne.
  - apply wp_ret, wp_in_world. intros [] w. split; [by apply with_world_ok|done].
Qed.

(** Starting leaves an open worker, or an error and the service as it was. *)
Lemma started_ok auto s : service_ok s ->
  wp (startSmsForwardWorker auto) (fun e s' => service_ok s' /\ (e = None -> is_Some (sv_stop s'))) s.
Proof.
  intros Hs. apply wp_bind, wp_get. destruct (sv_stop s) as [n|] eqn:Hstop; [by apply wp_ret; rewrite Hstop|].
  apply wp_bind, wp_in_world. intros [c e] w1. pose proof (with_world_ok s w1 Hs) as Hs1.
  set (s1 := with_world s w1) in *. destruct e as [e|]; [by apply wp_ret|].
  destruct (validateSmsForwardConfig c) as [e|]; [by apply wp_ret|].
  apply wp_bind. unfold wp at 1, make_channel. cbn [fst snd].
  apply wp_bind, wp_modify, wp_bind, wp_in_world. intros stamp w2. apply wp_bind, wp_in_world. intros [] w3.
  apply wp_bind, wp_modify, wp_ret. cbn. split; [|done].
  assert (Hnew : sv_next s ∉ sv_closed s).
  { intros Hc. assert (sv_next s < sv_next s)%nat by (apply Hs; by right). lia. }
  split; cbn [sv_panicked sv_workers sv_closed sv_next sv_stop].
  - apply Hs.
  - intros n. destruct (decide (n = sv_next s)) as [->|Hne]; [lia|].
    rewrite lookup_partial_alter_ne by done. intros Hn. assert (n < sv_next s)%nat by (by apply Hs). lia.
  - intros n [= <-]. split; [|done]. cbn. by rewrite lookup_partial_alter_eq.
  - intros n [Hn Hc]. cbn in Hn, Hc. destruct (decide (n = sv_next s)) as [->|Hne]; [done|].
    rewrite lookup_partial_alter_ne in Hn by done.
    pose proof (so_open _ Hs n (conj Hn Hc)) as He. congruence.
Qed.

(** Replacing the state of a worker. *)
Lemma set_worker_ok s n wk : service_ok s -> is_Some (sv_workers s !! n) ->
  service_ok (set_worker n (Some wk) s).2.
Proof.
  intros Hs Hn. assert (Hsame : forall k, is_Some (partial_alter (fun _ => Some wk) n (sv_workers s) !! k) <->
    is_Some (sv_workers s !! k)).
  { intros k. destruct (decide (k = n)) as [->|Hne].
    - rewrite lookup_partial_alter_eq. by split.
    - by rewrite lookup_partial_alter_ne. }
  split; simpl.
  - apply Hs.
  - intros k. rewrite Hsame. apply Hs.
  - intros k Hk. destruct (so_stop _ Hs k Hk). split; [by apply Hsame|done].
  - intros k [Hk Hc]. apply (so_open _ Hs). split; [by apply Hsame|done].
Qed.

(** A worker returns only after its channel is closed. *)
Lemma returned_ok s n : service_ok s -> n ∈ sv_closed s ->
  wp (worker_return n) (fun _ s' => service_ok s' /\ sv_stop s' = sv_stop s) s.
Proof.
  intros Hs Hc. apply wp_bind, wp_get, wp_bind.
  assert (Hstop : sv_stop s <> Some n) by (intros He; by destruct (so_stop _ Hs n He)).
  rewrite bool_decide_eq_false_2 by done. apply wp_ret, wp_bind, wp_in_world. intros [] w. apply wp_modify.
  split; [|done]. split; simpl.
  - apply Hs.
  - intros k Hk. apply Hs. destruct (decide (k = n)) as [->|Hne]; [by right|].
    by rewrite lookup_partial_alter_ne in Hk.
  - intros k Hk. assert (k <> n) by congruence. destruct (so_stop _ Hs k Hk).
    split; [|done]. simpl. by rewrite lookup_partial_alter_ne.
  - intros k [Hk Hkc]. simpl in *. apply (so_open _ Hs). split; [|done].
    assert (k <> n) by congruence. by rewrite lookup_partial_alter_ne in Hk.
Qed.

Lemma control_ok action s : service_ok s ->
  wp (SystemSmsForwardControlHandler action) (fun r s' => service_ok s' /\
    (r.1 = 0 -> (action = "start" \/ action = "restart") /\ is_Some (sv_stop s') \/
                action = "stop" /\ sv_stop s' = None)) s.
Proof.
  intros Hs. unfold SystemSmsForwardControlHandler.
  destruct (bool_decide_reflect (action = "start")) as [->|_].
  { apply wp_bind. eapply wp_mono; [by apply started_ok|]. intros [e|] s1 [Hs1 He].
    - by apply wp_ret.
    - apply wp_bind, wp_get, wp_ret. split; [done|]. intros _. left. split; [by left|by apply He]. }
  destruct (bool_decide_reflect (action = "stop")) as [->|_].
  { apply wp_bind. eapply wp_mono; [by apply stopped_ok|]. intros [] s1 [Hs1 He].
    apply wp_bind, wp_get, wp_ret. split; [done|]. by right. }
  destruct (bool_decide_reflect (action = "restart")) as [->|_]; [|by apply wp_ret].
  apply wp_bind. eapply wp_mono; [by apply stopped_ok|]. intros [] s1 [Hs1 _].
  apply wp_bind. eapply wp_mono; [by apply started_ok|]. intros [e|] s2 [Hs2 He].
  - by apply wp_ret.
  - apply wp_bind, wp_get, wp_ret. split; [done|]. intros _. left. split; [by right|by apply He].
Qed.

Lemma step_ok s s' : service_ok s -> step s s' -> service_ok s'.
Proof.
  intros Hs [auto| | |req|action|enabled|req|n wk Hwk Hp|n wk Hwk Hp|n wk Hwk Hp Hc].
  - apply (started_ok auto s Hs).
  - apply (wp_bind _ _ (fun _ s' => service_ok s')), wp_in_world. intros [] w; [|by apply wp_ret, with_world_ok].
    eapply wp_mono; [by apply started_ok, with_world_ok|]. by intros e s1 [].
  - apply (wp_bind _ _ (fun _ s' => service_ok s')), wp_in_world. intros [c [e|]] w; [by apply wp_ret, with_world_ok|].
    apply wp_bind, wp_get, wp_bind, wp_in_world. intros b w'. by apply wp_ret, with_world_ok, with_world_ok.
  - apply (wp_bind _ _ (fun _ s' => service_ok s')), wp_in_world. intros [c e] w.
    apply wp_bind, wp_in_world. intros e' w'. by apply wp_ret, with_world_ok, with_world_ok.
  - apply (control_ok action s Hs).
  - by apply ok_in_world.
  - by apply ok_in_world.
  - by apply set_worker_ok.
  - apply (wp_bind _ _ (fun _ s' => service_ok s')), wp_in_world. intros [pending e] w. apply wp_bind.
    destruct e as [e|].
    + apply wp_in_world. intros [] w'. by apply set_worker_ok; [apply with_world_ok, with_world_ok|].
    + apply wp_ret. by apply set_worker_ok; [apply with_world_ok|].
  - by apply returned_ok.
Qed.

Lemma reachable_ok s : reachable s -> service_ok s.
Proof.
  induction 1 as [w|s s' _ IH Hstep]; [|by eapply step_ok].
  split; simpl; try done; [intros n [[? Hn]|Hn]; [by rewrite lookup_empty in Hn|by apply not_elem_of_empty in Hn]|].
  intros n [[? Hn] _]. simpl in Hn. by rewrite lookup_empty in Hn.
Qed.

(** The steps of a worker that has been told to stop. *)
Lemma worker_can_return s n wk : service_ok s -> sv_workers s !! n = Some wk -> n ∈ sv_closed s ->
  exists s', rtc step s s' /\ sv_workers s' !! n = None /\ sv_stop s' = sv_stop s.
Proof.
  intros Hs.
  assert (Hloop : forall s wk, service_ok s -> sv_workers s !! n = Some wk -> wk_phase wk = Looping ->
    n ∈ sv_closed s -> exists s', rtc step s s' /\ sv_workers s' !! n = None /\ sv_stop s' = sv_stop s).
  { intros s0 wk0 Hs0 Hwk0 Hp0 Hc0. exists (worker_return n s0).2.
    split; [by eapply rtc_once, step_return|]. destruct (returned_ok s0 n Hs0 Hc0) as [_ Hstop].
    split; [|exact Hstop]. unfold worker_return, mbind, st_bind, st_get, set_running, in_world, set_worker.
    rewrite bool_decide_eq_false_2 by (intros He; by destruct (so_stop _ Hs0 n He)).
    simpl. by rewrite lookup_partial_alter_eq. }
  assert (Hpoll : forall s wk, service_ok s -> sv_workers s !! n = Some wk -> wk_phase wk <> Sleeping ->
    n ∈ sv_closed s -> exists s', rtc step s s' /\ sv_workers s' !! n = None /\ sv_stop s' = sv_stop s).
  { intros s0 wk0 Hs0 Hwk0 Hp0 Hc0.
    assert (Hstep : step s0 (worker_poll n wk0 s0).2) by by apply step_poll.
    assert (Hafter : wp (worker_poll n wk0) (fun _ s1 => (exists pending,
      sv_workers s1 !! n = Some (mkWorker Looping pending)) /\ sv_closed s1 = sv_closed s0 /\ sv_stop s1 = sv_stop s0) s0).
    { apply wp_bind, wp_in_world. intros [pending e] w. apply wp_bind.
      destruct e as [e|]; [apply wp_in_world; intros [] w'|apply wp_ret]; apply wp_modify; simpl;
        (split; [exists pending; by rewrite lookup_partial_alter_eq|done]). }
    destruct Hafter as [[pending Hwk1] [Hc1 Hst1]].
    destruct (Hloop _ _ (step_ok _ _ Hs0 Hstep) Hwk1 eq_refl) as (s' & Hrtc & Hn & Hst); [by rewrite Hc1|].
    exists s'. split; [by eapply rtc_l|]. split; [done|congruence]. }
  intros Hwk Hc. destruct (wk_phase wk) eqn:Hp; [|by eapply Hpoll; rewrite ?Hp|by eapply Hpoll; rewrite ?Hp].
  assert (Hstep : step s (worker_wake n wk s).2) by by apply step_wake.
  destruct (Hpoll (worker_wake n wk s).2 (mkWorker Starting (wk_pending wk))) as (s' & Hrtc & Hn & Hst);
    [by eapply step_ok|by simpl; rewrite lookup_partial_alter_eq|done|done|].
  exists s'. split; [by eapply rtc_l|]. split; [done|exact Hst].
Qed.

End ServiceFacts.

(** * Forwarding on request *)

Definition pushed_of (e : event) : option request := match e with Pushed r => Some r | _ => None end.
Definition pushed (log : list event) : list request := omap pushed_of log.
Definition marked_of (e : event) : option Z := match e with MarkedRead id => Some id | _ => None end.
Definition marked (log : list event) : list Z := omap marked_of log.

Lemma snoc_cases {A} (l : list A) : l = [] \/ exists l' x, l = (l' ++ [x])%list.
Proof. induction l as [|x l _] using rev_ind; [by left|right; eauto]. Qed.

(** How many services a configuration enables. *)
Definition services (c : smsForwardConfig) : Z :=
  (if BarkEnabled c then 1 else 0) + (if TgEnabled c then 1 else 0).

(** The identifiers the modem can mark. *)
Definition markable (ids : list Z) : list Z := filter (fun id => 0 < id) ids.

Section RequestFacts.
Context `{HSort : SortSlice} `{HSms : Sms}.

(** One service: accepted and logged, or an error and nothing. *)
Definition push_logged (e : option sendError) (ev : list event) : Prop :=
  handed ev = [] /\ marked ev = [] /\ length (pushed ev) = match e with None => 1%nat | Some _ => 0%nat end.

Lemma notify_pushed r : Logs w_log (notifyRequest r) push_logged.
Proof.
  apply logs_silent; [done|]. intros [text|[status body]]; [by apply logs_ret|].
  destruct (_ || _); [by apply logs_ret|]. eapply logs_bind; [apply logs_event|].
  intros [] ev ->. by apply logs_ret.
Qed.

Lemma bark_pushed url group title body : Logs w_log (sendBark url group title body) push_logged.
Proof. unfold sendBark. repeat case_match; first [by apply logs_ret | apply notify_pushed]. Qed.

Lemma telegram_pushed token chat text : Logs w_log (sendTelegram token chat text) push_logged.
Proof. unfold sendTelegram. repeat case_match; first [by apply logs_ret | apply notify_pushed]. Qed.

Lemma mark_logged id : Logs w_log (markSmsRead id) (fun e ev =>
  handed ev = [] /\ pushed ev = [] /\ (e = None -> marked ev = markable [id])).
Proof.
  unfold markSmsRead. destruct (id <=? 0) eqn:Hid.
  { apply logs_ret. split_and!; [done|done|]. intros _. unfold markable. by rewrite filter_cons_False by lia. }
  apply logs_silent; [done|]. intros [|]; [|by apply logs_ret].
  eapply logs_bind; [apply logs_event|]. intros [] ev ->. apply logs_ret. split_and!; [done|done|].
  intros _. unfold markable. by rewrite filter_cons_True by lia.
Qed.

(** Several messages, or one: the acceptances are counted, every message is
    handed out once, and without an error every service accepted every message
    and all of them are marked. *)
Definition forwarded (c : smsForwardConfig) (ms : list smsMessage) (sent : Z) (errs : list sendError)
    (ev : list event) : Prop :=
  handed ev = (fun m => (smsForwardPendingKey m, ID m)) <$> ms /\ Z.of_nat (length (pushed ev)) = sent /\
  (errs = [] -> sent = services c * Z.of_nat (length ms) /\
    (0 < services c -> marked ev = markable (ID <$> ms))).

Lemma send_forwarded c m title text :
  Logs w_log (send_to (BarkEnabled c) (BarkURL c) (BarkGroup c) (TgEnabled c) (TgBotToken c) (TgChatID c) m title text)
    (fun r ev => forwarded c [m] r.1 r.2 ev).
Proof.
  assert (Hif : forall (b : bool) (k : M (option sendError)), Logs w_log k push_logged ->
    Logs w_log (if b then e ← k; mret (Some e) else mret None)
      (fun e ev => handed ev = [] /\ marked ev = [] /\
        length (pushed ev) = match e with Some None => 1%nat | _ => 0%nat end /\ bool_decide (is_Some e) = b)).
  { intros [] k Hk; [|by apply logs_ret]. eapply logs_bind; [exact Hk|]. intros e ev (H1 & H2 & H3).
    apply logs_ret. rewrite app_nil_r. split_and!; [done|done|by destruct e|done]. }
  unfold send_to. eapply logs_bind; [apply logs_event|]. intros [] ev0 ->.
  eapply logs_bind; [apply Hif, bark_pushed|]. intros e1 ev1 (Hh1 & Hm1 & Hp1 & Hb1).
  eapply logs_bind; [apply Hif, telegram_pushed|]. intros e2 ev2 (Hh2 & Hm2 & Hp2 & Hb2). cbn zeta.
  set (sent := _ + _).
  eapply logs_bind with (P := fun e ev => handed ev = [] /\ pushed ev = [] /\
   (e = None -> marked ev = if 0 <? sent then markable [ID m] else [])).
  { destruct (0 <? sent); [apply mark_logged|by apply logs_ret]. }
  intros e3 ev3 (Hh3 & Hp3 & Hm3). apply logs_ret. rewrite app_nil_r. unfold forwarded. cbn [fst snd].
  unfold handed, pushed, marked in *. rewrite !omap_app, Hh1, Hh2, Hh3, Hp3, Hm1, Hm2, !length_app, Hp1, Hp2.
  split; [done|]. split; [subst sent; destruct e1 as [[]|], e2 as [[]|]; done|].
  unfold services. intros Herrs. rewrite <- Hb1, <- Hb2 in *.
  apply app_eq_nil in Herrs as [Herrs1 [Herrs2 Herrs3]%app_eq_nil].
  destruct e3 as [e3|]; [done|]. specialize (Hm3 eq_refl). simpl. rewrite Hm3.
  destruct e1 as [[e1|]|], e2 as [[e2|]|]; try done; subst sent; simpl; (split; [done|intros ?; try lia; done]).
Qed.

Lemma forwarded_app c ms1 ms2 n1 n2 es1 es2 ev1 ev2 :
  forwarded c ms1 n1 es1 ev1 -> forwarded c ms2 n2 es2 ev2 ->
  forwarded c (ms1 ++ ms2) (n1 + n2) (es1 ++ es2) (ev1 ++ ev2).
Proof.
  intros (Hh1 & Hp1 & He1) (Hh2 & Hp2 & He2). unfold forwarded, handed, pushed, marked in *.
  rewrite !omap_app, Hh1, Hh2, !fmap_app, length_app. split; [done|]. split; [lia|].
  intros [-> ->]%app_eq_nil. destruct (He1 eq_refl) as [Hn1 Hm1], (He2 eq_refl) as [Hn2 Hm2].
  rewrite length_app. split; [lia|]. intros Hpos. unfold markable. rewrite filter_app, Hm1, Hm2 by done. done.
Qed.

Lemma forward_all_logs c targets sent errs :
  Logs w_log (forward_all c targets sent errs) (fun r ev => exists n es,
    r = (sent + n, errs ++ es)%list /\ forwarded c targets n es ev).
Proof.
  revert sent errs. induction targets as [|m targets IH]; intros sent errs.
  { apply logs_ret. exists 0, []. rewrite Z.add_0_r, app_nil_r. split; [done|]. split_and!; [done|done|].
    intros _. split; [simpl; lia|done]. }
  eapply logs_bind; [apply send_forwarded|]. intros [n es] ev Hf.
  eapply logs_mono; [apply IH|]. intros r ev' (n' & es' & -> & Hf'). exists (n + n'), (es ++ es')%list.
  rewrite Z.add_assoc, (assoc app). split; [done|]. by apply (forwarded_app _ [m]).
Qed.

(** The newest identifier of the store, or the one of the request. *)
Lemma latest_id_spec messages lastID :
  lastID <= latest_id messages lastID /\ (forall m, m ∈ messages -> ID m <= latest_id messages lastID) /\
  (latest_id messages lastID = lastID \/ exists m, m ∈ messages /\ ID m = latest_id messages lastID).
Proof.
  unfold latest_id. revert lastID. induction messages as [|m ms IH]; intros lastID.
  { split_and!; [done|intros ? []%not_elem_of_nil|by left]. }
  cbn [fold_left]. destruct (IH (if lastID <? ID m then ID m else lastID)) as (H1 & H2 & H3).
  set (r := fold_left _ ms _) in *. assert (Hm : lastID <= r /\ ID m <= r) by (destruct (lastID <? ID m) eqn:?; lia).
  split_and!; [lia|intros m' [->|?]%elem_of_cons; [lia|by apply H2]|].
  destruct H3 as [H3|(m' & ? & ?)]; [|right; exists m'; rewrite elem_of_cons; auto].
  destruct (lastID <? ID m) eqn:?; [right; exists m; rewrite elem_of_cons; auto|by left].
Qed.

(** The messages of a request: those beyond its identifier, in order, or the
    newest of them. *)
Record targets_of (req : forwardRequest) (messages targets : list smsMessage) : Prop := {
  to_new : forall m, m ∈ targets -> m ∈ messages /\ LastID (fr_config req) < ID m;
  to_ordered : StronglySorted (fun a b => ID a <= ID b) targets;
  to_all : OnlyLatest req = false -> forall m, m ∈ messages -> LastID (fr_config req) < ID m -> m ∈ targets;
  to_latest : OnlyLatest req = true -> (length targets <= 1)%nat /\
   forall m, m ∈ messages -> LastID (fr_config req) < ID m -> exists t, t ∈ targets /\ ID m <= ID t }.

Lemma newer_ordered ms lastID : StronglySorted (fun a b => ID a <= ID b) (newer ms lastID).
Proof.
  unfold newer. set (l := filter _ ms).
  induction (sortSlice_sorted _ (fun a b => ID a <? ID b) l (strict_weak_Z ID)) as [|m l' Hl IH Hm]; constructor; [done|].
  eapply Forall_impl; [exact Hm|]. simpl. intros m'. lia.
Qed.

Lemma forward_targets_ok req messages : targets_of req messages (forward_targets req messages).
Proof.
  unfold forward_targets. set (ts := newer messages _).
  assert (Hts : forall m, m ∈ ts <-> LastID (fr_config req) < ID m /\ m ∈ messages) by apply elem_of_newer.
  assert (Hord : StronglySorted (fun a b => ID a <= ID b) ts) by apply newer_ordered.
  destruct (OnlyLatest req && _) eqn:Hone.
  - apply andb_prop in Hone as [Ho Hlen%Nat.ltb_lt].
    destruct (snoc_cases ts) as [Hnil|(l & t & Hl)]; [rewrite Hnil in Hlen; simpl in Hlen; lia|].
    rewrite Hl, length_app, Nat.add_sub, drop_app_length. rewrite Hl in Hts, Hord. split.
    + intros m ->%list_elem_of_singleton. split; apply Hts; rewrite elem_of_app, list_elem_of_singleton; auto.
    + by repeat constructor.
    + congruence.
    + intros _. split; [done|]. intros m Hm Hlt. exists t. split; [by apply list_elem_of_singleton|].
      assert (Hin : m ∈ (l ++ [t])%list) by (by apply Hts).
      apply elem_of_app in Hin as [Hin| ->%list_elem_of_singleton]; [|lia].
      apply (sorting.StronglySorted_app_1_elem_of _ l [t] m t Hord Hin). by apply list_elem_of_singleton.
  - split; [intros m Hm; by apply Hts in Hm as [? ?]|done|intros _ m ? ?; by apply Hts|].
    intros Ho. rewrite Ho in Hone. apply Nat.ltb_ge in Hone. split; [done|].
    intros m Hm Hlt. exists m. split; [by apply Hts|done].
Qed.

End RequestFacts.

(** * Properties *)

(** C13: the life of the workers.  In every state the requests and goroutines
    can reach, no channel is closed twice, at most one worker has not been told
    to stop, it is the one [smsForwardStop] names, and the reported status says
    so; a control request that is answered with success leaves such a worker
    exactly when it asked for one; and a worker told to stop can return,
    without help from another request. *)
Theorem worker_lifecycle `{SortSlice} `{Sms} (s : service) :
  reachable s ->
  sv_panicked s = false /\
  (forall n, open_worker s n <-> sv_stop s = Some n) /\
  (Running (getSmsForwardStatus s) = true <-> exists n, open_worker s n) /\
  (forall action, let '((code, _), s') := SystemSmsForwardControlHandler action s in
     code = 0 -> (exists n, open_worker s' n) <-> action <> "stop") /\
  (forall n wk, sv_workers s !! n = Some wk -> n ∈ sv_closed s ->
     exists s', rtc step s s' /\ sv_workers s' !! n = None /\ sv_stop s' = sv_stop s).
Proof.
  intros Hr. pose proof (reachable_ok s Hr) as Hs.
  assert (Hopen : forall s, service_ok s -> forall n, open_worker s n <-> sv_stop s = Some n).
  { intros s0 Hs0 n. split; [apply Hs0|apply (so_stop _ Hs0)]. }
  split; [apply Hs|]. split; [by apply Hopen|]. split; [|split; [|intros n wk; by apply worker_can_return]].
  - simpl. rewrite bool_decide_eq_true. unfold is_Some. by setoid_rewrite (Hopen s Hs).
  - intros action. pose proof (control_ok action s Hs) as Hc. unfold wp in Hc.
    destruct (SystemSmsForwardControlHandler action s) as [[code st] s']. cbn [fst snd] in Hc.
    destruct Hc as [Hs' Hcode]. intros Hzero. setoid_rewrite (Hopen s' Hs').
    destruct (Hcode Hzero) as [[Ha Hstop]|[-> Hstop]].
    + split; [intros _; by destruct Ha as [->| ->]|intros _; exact Hstop].
    + rewrite Hstop. split; [by intros [n Hn]|done].
Qed.

(** forwarding on request.  The handler sends each message of the store
    beyond the request's identifier to every enabled service, oldest first, or
    only the newest of them; it answers with these messages, with the newest
    identifier and with the number of acceptances; the code is 0 exactly
    without an error, and then every service has accepted every message and
    all of them are marked as read; a dry run sends nothing. *)
Theorem SystemSmsForwardHandler_spec `{SortSlice} `{Sms} (req : forwardRequest) (w : world) :
  let '(r, w') := SystemSmsForwardHandler req w in
  exists ev, w_log w' = (w_log w ++ ev)%list /\
  match r with
  | inr e => e = ErrMessages /\ se_messages (w_calls w) = None /\ ev = []
  | inl reply =>
    exists messages, loaded_messages <$> se_messages (w_calls w) = Some messages /\
    targets_of req messages (fp_messages reply) /\
    (LastID (fr_config req) <= fp_latest reply /\ (forall m, m ∈ messages -> ID m <= fp_latest reply) /\
     (fp_latest reply = LastID (fr_config req) \/ exists m, m ∈ messages /\ ID m = fp_latest reply)) /\
    (fp_code reply = 0 <-> fp_errs reply = []) /\
    if DryRun req then fp_sent reply = 0 /\ ev = []
    else forwarded (fr_config req) (fp_messages reply) (fp_sent reply) (fp_errs reply) ev
  end.
Proof.
  apply (wp_elim _ (fun r w' => _)). apply wp_bind, wp_bind, wp_answer. intros w1 [Hl1 _]. apply wp_ret.
  destruct (se_messages (w_calls w)) as [reply|]; [|by apply wp_ret; exists []; rewrite app_nil_r].
  set (messages := loaded_messages reply).
  destruct (DryRun req).
  { apply wp_ret. exists []. rewrite app_nil_r. split; [done|]. exists messages.
    split; [done|]. split; [apply forward_targets_ok|]. split; [apply latest_id_spec|]. by split. }
  apply wp_bind. eapply (logs_wp w_log); [apply forward_all_logs|].
  intros r w2 ev Hev (n & es & -> & Hf). apply wp_ret. exists ev. split; [congruence|]. exists messages.
  split; [done|]. split; [apply forward_targets_ok|]. split; [apply latest_id_spec|]. split; [by destruct es|exact Hf].
Qed.

#[local] Existing Instance sample_sms.

(** A service whose worker was started by a request and has polled once. *)
Definition sample_started : service := (SystemSmsForwardControlHandler "start" (initial sample_world)).2.
Definition sample_polled : service :=
  (worker_poll 0 (mkWorker Starting newSmsForwardPendingState) sample_started).2.

Example worker_lifecycle_witness :
  (sv_stop sample_polled, Running (getSmsForwardStatus sample_polled)) = (Some 0%nat, true) /\
  sv_panicked sample_polled = false /\ open_worker sample_polled 0.
Proof.
  split; [vm_compute; reflexivity|].
  assert (Hr : reachable sample_polled).
  { eapply reachable_step; [eapply reachable_step; [apply reachable_initial|apply step_control]|].
    apply step_poll; [vm_compute; reflexivity|discriminate]. }
  destruct (worker_lifecycle sample_polled Hr) as (Hsafe & Hopen & _).
  split; [exact Hsafe|]. apply Hopen. vm_compute. reflexivity.
Defined.
