(* ===== verification/SshServer.v ===== *)
(** The SSH server of the web service, [src/gossh/app/service/sshd_server.go]:
    the requests of a session channel, the queue of terminal sizes between the
    request loop and the shell, and the check of public keys.

    The SSH protocol itself is the vendored [gossh/crypto/ssh]; the requests of
    a channel are given in order, and starting a terminal succeeds or not. *)

From S2P Require Import Prelude GoInt GoStrings.
Open Scope string_scope.
Open Scope Z_scope.

(** * Payloads *)

(** [binary.BigEndian.Uint32]: the first four bytes, or a panic. *)
Definition BigEndian_Uint32 {E} (l : list Z) : go E Z :=
  match l with
  | a :: b :: c :: d :: _ =>
    Ok (Z.lor (Z.lor (Z.lor d (Z.shiftl c 8)) (Z.shiftl b 16)) (Z.shiftl a 24))
  | _ => Panic
  end.

(** Width and height of a terminal. *)
Definition parseDims (b : list Z) : go Empty_set (Z * Z) :=
  w ← BigEndian_Uint32 b; rest ← slice_from b 4; h ← BigEndian_Uint32 rest; mret (w, h).

(** The name of the terminal and the rest of a pty request; [len(b)-12] is
    computed in [int] and compared as [uint64]. *)
Definition parsePtyReq (b : list Z) : go Empty_set (option (list Z * list Z)) :=
  if (length b <? 4)%nat then Ok None else
  prefix ← slice b 0 4;
  termLen ← BigEndian_Uint32 prefix;
  if wrap 64 (Z.of_nat (length b) - 12) <? termLen then Ok None else
  let resizeOffset := (4 + Z.to_nat termLen)%nat in
  term ← slice b 4 resizeOffset;
  resize ← slice_from b resizeOffset;
  mret (Some (term, resize)).

(** [ssh.Unmarshal] of a name and a value; what is read before an error stays. *)
Definition parseString (b : list Z) : option (list Z * list Z) :=
  match BigEndian_Uint32 (E := Empty_set) b with
  | Ok n =>
    let rest := drop 4 b in
    if wrap 32 (Z.of_nat (length rest)) <? n then None
    else Some (take (Z.to_nat n) rest, drop (Z.to_nat n) rest)
  | _ => None
  end.
Definition parse_env (b : list Z) : string * string :=
  match parseString b with
  | None => ("", "")
  | Some (name, rest) =>
    match parseString rest with
    | None => (bytes_string name, "")
    | Some (value, _) => (bytes_string name, bytes_string value)
    end
  end.

(** * The environment of the shell *)

(** [strings.SplitN(kv, "=", 2)[0]]. *)
Definition env_name (kv : string) : string := default kv (head (Split1 kv (chr 61))).

Fixpoint replace_first (f : string -> bool) (kv : string) (env : list string) : option (list string) :=
  match env with
  | [] => None
  | e :: env => if f e then Some (kv :: env) else (e ::.) <$> replace_first f kv env
  end.

Definition appendEnv (env : list string) (kv : string) : list string :=
  let k := String.append (env_name kv) "=" in
  default (env ++ [kv])%list (replace_first (fun e => HasPrefix e k) kv env).

(** * Sessions *)

Record request := mkRequest { rq_Type : string; WantReply : bool; Payload : list Z }.

(** The handler: in its loop, after a return, after a panic it recovered from;
    or the whole process ended by a panic nobody recovers from. *)
Inductive status := Serving | Returned | Recovered | Crashed.

Record session := mkSession {
  ss_requests : list request;      (** what the client still sends *)
  ss_env : list string;
  ss_resizes : list (list Z);      (** the buffered channel [resizes] *)
  ss_starts : nat;                 (** terminals started or tried *)
  ss_shells : nat;                 (** goroutines that receive from [resizes] *)
  ss_sizes : list (Z * Z);         (** rows and columns set, in order *)
  ss_replies : list bool;
  ss_status : status }.

Definition resizes_cap : nat := 10.

Definition with_status (st : status) (s : session) : session :=
  mkSession (ss_requests s) (ss_env s) (ss_resizes s) (ss_starts s) (ss_shells s) (ss_sizes s) (ss_replies s) st.
Definition with_env (env : list string) (s : session) : session :=
  mkSession (ss_requests s) env (ss_resizes s) (ss_starts s) (ss_shells s) (ss_sizes s) (ss_replies s) (ss_status s).
Definition with_requests (rs : list request) (s : session) : session :=
  mkSession rs (ss_env s) (ss_resizes s) (ss_starts s) (ss_shells s) (ss_sizes s) (ss_replies s) (ss_status s).
Definition with_resizes (q : list (list Z)) (s : session) : session :=
  mkSession (ss_requests s) (ss_env s) q (ss_starts s) (ss_shells s) (ss_sizes s) (ss_replies s) (ss_status s).

(** [req.Reply]: nothing when the client wants no reply. *)
Definition Reply (rq : request) (ok : bool) (s : session) : session :=
  if WantReply rq then
    mkSession (ss_requests s) (ss_env s) (ss_resizes s) (ss_starts s) (ss_shells s) (ss_sizes s)
      (ss_replies s ++ [ok])%list (ss_status s)
  else s.

(** Sending to the channel blocks while its buffer is full. *)
Definition send_resize (payload : list Z) (s : session) : option session :=
  if (length (ss_resizes s) <? resizes_cap)%nat then Some (with_resizes (ss_resizes s ++ [payload])%list s) else None.

Section Session.
(** [s.cli.LoadEnv] and whether the n-th terminal starts. *)
Context (LoadEnv : string) (pty_starts : nat -> bool).

(** A size waiting in the channel is taken for the new terminal; one that is
    too short is dropped. *)
Definition attachShell (s : session) : bool * session :=
  let '(size, s) := match ss_resizes s with
                    | [] => (None, s)
                    | payload :: q =>
                      (if (8 <=? length payload)%nat then
                         match parseDims payload with Ok (w, h) => Some (wrap 16 h, wrap 16 w) | _ => None end
                       else None, with_resizes q s)
                    end in
  let started := pty_starts (ss_starts s) in
  (started,
   mkSession (ss_requests s) (ss_env s) (ss_resizes s) (S (ss_starts s))
     (if started then S (ss_shells s) else ss_shells s)
     (if started then ss_sizes s ++ option_list size else ss_sizes s)%list (ss_replies s) (ss_status s)).

(** One turn of the loop; [None] while it waits to send to the channel. *)
Definition handle_request (rq : request) (s : session) : option session :=
  if bool_decide (rq_Type rq = "subsystem") then
    match slice_from (E := Empty_set) (Payload rq) 4 with
    | Ok name => if bool_decide (bytes_string name = "sftp") then Some (with_status Returned (Reply rq true s)) else Some s
    | _ => Some (with_status Recovered s)
    end
  else if bool_decide (rq_Type rq = "pty-req") then
    match parsePtyReq (Payload rq) with
    | Ok None => Some (Reply rq false s)
    | Ok (Some (term, resizePayload)) =>
      let s := if bool_decide (bytes_string term = "") then s
               else with_env (appendEnv (ss_env s) (String.append "TERM=" (bytes_string term))) s in
      Reply rq true <$> send_resize resizePayload s
    | _ => Some (with_status Recovered s)
    end
  else if bool_decide (rq_Type rq = "window-change") then send_resize (Payload rq) s
  else if bool_decide (rq_Type rq = "env") then
    let '(name, value) := parse_env (Payload rq) in
    Some (if bool_decide (LoadEnv = "Y")
          then with_env (appendEnv (ss_env s) (String.append name (String.append "=" value))) s else s)
  else if bool_decide (rq_Type rq = "shell") then
    let '(started, s) := attachShell s in Some (Reply rq started s)
  else if bool_decide (rq_Type rq = "exec") then
    let s := Reply rq true s in
    match slice_from (E := Empty_set) (Payload rq) 4 with
    | Ok command => Some (with_status Returned s)
    | _ => Some (with_status Recovered s)
    end
  else Some s.

(** A shell's goroutine sets the next size; nobody recovers from its panic. *)
Definition set_size (payload : list Z) (s : session) : session :=
  match parseDims payload with
  | Ok (w, h) =>
    mkSession (ss_requests s) (ss_env s) (ss_resizes s) (ss_starts s) (ss_shells s)
      (ss_sizes s ++ [(wrap 16 h, wrap 16 w)])%list (ss_replies s) (ss_status s)
  | _ => with_status Crashed s
  end.

(** The handler and the goroutines of the shells take turns; the goroutines
    also empty the channel after the handler has returned and closed it. *)
Inductive step (s : session) : session -> Prop :=
| step_handle rq rest s' :
    ss_status s = Serving -> ss_requests s = rq :: rest ->
    handle_request rq (with_requests rest s) = Some s' -> step s s'
| step_end : ss_status s = Serving -> ss_requests s = [] -> step s (with_status Returned s)
| step_resize payload q :
    ss_status s <> Crashed -> ss_shells s <> 0%nat -> ss_resizes s = payload :: q ->
    step s (set_size payload (with_resizes q s)).

Definition opened (env : list string) (rs : list request) : session := mkSession rs env [] 0 0 [] [] Serving.

Inductive reachable (env : list string) (rs : list request) : session -> Prop :=
| reachable_opened : reachable env rs (opened env rs)
| reachable_step s s' : reachable env rs s -> step s s' -> reachable env rs s'.

End Session.

(** * Public keys *)

Section Keys.
(** [ssh.ParseAuthorizedKey] on a line: the marshalled key and its comment. *)
Context (ParseAuthorizedKey : list Z -> option (list Z * string)).

Definition parseKeys (b : list Z) : option (gmap (list Z) string) :=
  let keys := fold_left (fun keys l =>
    match ParseAuthorizedKey l with Some (key, cmt) => <[key := cmt]> keys | None => keys end)
    (split_on 10 b) (∅ : gmap (list Z) string) in
  if bool_decide (keys = ∅) then None else Some keys.

(** The callback: [None] when the stored keys cannot be read. *)
Definition PublicKeyCallback (authorizedKeys : option (list Z)) (key : list Z) : bool :=
  match authorizedKeys with
  | None => false
  | Some data =>
    match parseKeys data with
    | None => false
    | Some keys => bool_decide (is_Some (keys !! key))
    end
  end.

End Keys.

(** * Facts *)

(** The encoding of a length, and of a pty request as a client writes it. *)
Definition put_be32 (n : Z) : list Z := [u8 (Z.shiftr n 24); u8 (Z.shiftr n 16); u8 (Z.shiftr n 8); u8 n].
Definition pty_request (term rest : list Z) : list Z := (put_be32 (Z.of_nat (length term)) ++ term ++ rest)%list.

Lemma BigEndian_range {E} b : bytes_ok b -> (4 <= length b)%nat ->
  exists n, @BigEndian_Uint32 E b = Ok n /\ 0 <= n < 2 ^ 32.
Proof.
  intros Hb Hlen. destruct b as [|a [|b' [|c [|d l]]]]; simpl in Hlen; try lia.
  eexists. split; [done|]. apply Forall_cons in Hb as [Ha Hb]. apply Forall_cons in Hb as [Hb' Hb].
  apply Forall_cons in Hb as [Hc Hb]. apply Forall_cons in Hb as [Hd _]. unfold in_range in *.
  rewrite (lor_shiftl_add d c 8) by (unfold in_range; lia).
  rewrite (lor_shiftl_add _ b' 16) by (unfold in_range; lia).
  rewrite lor_shiftl_add by (unfold in_range; lia). lia.
Qed.

Lemma BigEndian_put {E} n rest : 0 <= n < 2 ^ 32 -> @BigEndian_Uint32 E (put_be32 n ++ rest)%list = Ok n.
Proof.
  intros Hn. unfold put_be32, BigEndian_Uint32. cbn [app]. f_equal. unfold wrap.
  rewrite !Z.shiftr_div_pow2 by done.
  pose proof (Z.mod_pos_bound n (2 ^ 8) ltac:(done)).
  pose proof (Z.mod_pos_bound (n / 2 ^ 8) (2 ^ 8) ltac:(done)).
  pose proof (Z.mod_pos_bound (n / 2 ^ 16) (2 ^ 8) ltac:(done)).
  pose proof (Z.mod_pos_bound (n / 2 ^ 24) (2 ^ 8) ltac:(done)).
  rewrite (lor_shiftl_add (n mod _) _ 8) by (unfold in_range; lia).
  rewrite (lor_shiftl_add _ _ 16) by (unfold in_range; lia).
  rewrite lor_shiftl_add by (unfold in_range; lia).
  pose proof (Z.div_mod n (2 ^ 8) ltac:(done)). pose proof (Z.div_mod (n / 2 ^ 8) (2 ^ 8) ltac:(done)).
  pose proof (Z.div_mod (n / 2 ^ 16) (2 ^ 8) ltac:(done)). rewrite !Z.div_div in * by done.
  change (2 ^ 8 * 2 ^ 8) with (2 ^ 16) in *. change (2 ^ 16 * 2 ^ 8) with (2 ^ 24) in *.
  assert (n / 2 ^ 24 < 2 ^ 8) by (apply Z.div_lt_upper_bound; lia).
  assert (0 <= n / 2 ^ 24) by (apply Z.div_pos; lia).
  rewrite (Z.mod_small (n / 2 ^ 24)) by lia. lia.
Qed.

Lemma parseDims_spec b : bytes_ok b ->
  if (8 <=? length b)%nat then exists d, parseDims b = Ok d else parseDims b = Panic.
Proof.
  intros Hb. destruct (8 <=? length b)%nat eqn:Hlen.
  - apply Nat.leb_le in Hlen. unfold parseDims. destruct (BigEndian_range (E := Empty_set) b Hb ltac:(lia)) as (w & -> & _).
    cbn [mbind go_bind]. rewrite slice_from_ok by lia.
    destruct (BigEndian_range (E := Empty_set) (drop 4 b)) as (h & Hh & _).
    + by apply Forall_drop.
    + rewrite length_drop. lia.
    + cbn. rewrite Hh. by eexists.
  - apply Nat.leb_gt in Hlen. destruct b as [|? [|? [|? [|? [|? [|? [|? [|? ?]]]]]]]]; try reflexivity. simpl in Hlen. lia.
Qed.

(** The claimed length of the terminal's name decides. *)
Lemma parsePtyReq_cases b : bytes_ok b -> Z.of_nat (length b) < 2 ^ 63 -> (4 <= length b)%nat ->
  exists n, @BigEndian_Uint32 Empty_set b = Ok n /\ 0 <= n < 2 ^ 32 /\
  parsePtyReq b =
    if (12 <=? length b)%nat && (Z.of_nat (length b) <? n + 12) then Ok None
    else if Z.of_nat (length b) <? n + 4 then Panic
    else Ok (Some (take (Z.to_nat n) (drop 4 b), drop (4 + Z.to_nat n) b)).
Proof.
  intros Hb Hmax Hlen. destruct (BigEndian_range (E := Empty_set) b Hb Hlen) as (n & Hn & Hr).
  exists n. split; [done|]. split; [done|]. unfold parsePtyReq.
  rewrite (proj2 (Nat.ltb_ge _ _)) by done. rewrite slice_ok by lia. cbn [mbind go_bind].
  assert (Hpre : @BigEndian_Uint32 Empty_set (take (4 - 0) (drop 0 b)) = Ok n).
  { rewrite <- Hn. by destruct b as [|? [|? [|? [|? ?]]]]. }
  rewrite Hpre. cbn [mbind go_bind]. unfold wrap.
  destruct (12 <=? length b)%nat eqn:H12.
  - apply Nat.leb_le in H12. rewrite Z.mod_small by lia. simpl andb.
    destruct (Z.of_nat (length b) - 12 <? n) eqn:Hlt.
    + by rewrite (proj2 (Z.ltb_lt _ _)) by lia.
    + rewrite !(proj2 (Z.ltb_ge _ _)) by lia. rewrite slice_ok by lia. cbn [mbind go_bind].
      rewrite slice_from_ok by lia. cbn [mbind go_bind]. by rewrite Nat.add_comm, Nat.add_sub.
  - apply Nat.leb_gt in H12. simpl andb.
    assert (Hw : (Z.of_nat (length b) - 12) mod 2 ^ 64 = 2 ^ 64 + (Z.of_nat (length b) - 12)).
    { symmetry. apply Zmod_unique with (q := -1); lia. }
    rewrite Hw, (proj2 (Z.ltb_ge _ n)) by lia. destruct (Z.of_nat (length b) <? n + 4) eqn:Hlt.
    + unfold slice. by rewrite bool_decide_eq_false_2 by lia.
    + rewrite slice_ok by lia. cbn [mbind go_bind]. rewrite slice_from_ok by lia. cbn [mbind go_bind].
      by rewrite Nat.add_comm, Nat.add_sub.
Qed.

(** What an accepted request leaves for the size is as long as the check says. *)
Lemma parsePtyReq_size b term rest :
  bytes_ok b -> Z.of_nat (length b) < 2 ^ 63 -> (12 <= length b)%nat ->
  parsePtyReq b = Ok (Some (term, rest)) -> (8 <= length rest)%nat /\ bytes_ok rest.
Proof.
  intros Hb Hmax Hlen Hp. destruct (parsePtyReq_cases b Hb Hmax ltac:(lia)) as (n & _ & Hn & Hcase).
  rewrite Hp in Hcase. destruct (_ && _) eqn:Hc; [done|]. destruct (_ <? n + 4) eqn:Hlt; [done|].
  injection Hcase as -> ->. rewrite (proj2 (Nat.leb_le _ _)) in Hc by done. simpl in Hc.
  rewrite length_drop. split; [lia|by apply Forall_drop].
Qed.

Lemma parsePtyReq_total b : bytes_ok b -> Z.of_nat (length b) < 2 ^ 63 -> (12 <= length b)%nat ->
  exists r, parsePtyReq b = Ok r.
Proof.
  intros Hb Hmax Hlen. destruct (parsePtyReq_cases b Hb Hmax ltac:(lia)) as (n & _ & Hn & ->).
  rewrite (proj2 (Nat.leb_le _ _)) by done. simpl andb. destruct (_ <? n + 12) eqn:Hlt; [by eexists|].
  rewrite (proj2 (Z.ltb_ge _ _)) by lia. by eexists.
Qed.

(** ** Sessions *)

(** The requests of a well-behaved client. *)
Definition well_sized (rq : request) : Prop :=
  bytes_ok (Payload rq) /\
  (rq_Type rq = "window-change" -> (8 <= length (Payload rq))%nat) /\
  (rq_Type rq = "pty-req" -> (12 <= length (Payload rq))%nat /\ Z.of_nat (length (Payload rq)) < 2 ^ 63).

Definition wants (rs : list request) : nat := length (filter (fun rq => WantReply rq = true) rs).

(** The handler waits to send a size nobody takes. *)
Definition blocked (s : session) : Prop :=
  length (ss_resizes s) = resizes_cap /\ ss_shells s = 0%nat /\
  exists rq rest, ss_requests s = rq :: rest /\ (rq_Type rq = "pty-req" \/ rq_Type rq = "window-change").

Definition env_kept (LoadEnv : string) (env : list string) (s : session) : Prop :=
  LoadEnv <> "Y" -> Forall (fun e => e ∈ env \/ exists term, e = String.append "TERM=" term) (ss_env s).

(** The invariant, with [k] replies still owed for the request at hand. *)
Record session_ok (LoadEnv : string) (env : list string) (rs : list request) (k : nat) (s : session) : Prop :=
  mkSessionOk {
  so_queue : (length (ss_resizes s) <= resizes_cap)%nat;
  so_replies : (length (ss_replies s) + wants (ss_requests s) + k <= wants rs)%nat;
  so_env : env_kept LoadEnv env s;
  so_sized : Forall well_sized rs ->
    Forall well_sized (ss_requests s) /\ Forall (fun p => bytes_ok p /\ (8 <= length p)%nat) (ss_resizes s) /\
    ss_status s <> Crashed }.

Lemma appendEnv_elem env kv e : e ∈ appendEnv env kv -> e ∈ env \/ e = kv.
Proof.
  unfold appendEnv. set (f := fun e => HasPrefix e _).
  assert (Hr : forall env env', replace_first f kv env = Some env' -> e ∈ env' -> e ∈ env \/ e = kv).
  { clear. intros env. induction env as [|x env IH]; intros env' Hr He; [done|]. simpl in Hr.
    destruct (f x); [injection Hr as <-; apply elem_of_cons in He as [->|He]; [by right|left; by right]|].
    destruct (replace_first f kv env) as [env''|] eqn:H; [|done]. injection Hr as <-.
    apply elem_of_cons in He as [->|He]; [left; by left|]. destruct (IH _ eq_refl He); [left; by right|by right]. }
  destruct (replace_first f kv env) as [env'|] eqn:Hf; simpl; [by apply (Hr env)|].
  rewrite elem_of_app, list_elem_of_singleton. done.
Qed.

Section SessionFacts.
Context (LoadEnv : string) (pty_starts : nat -> bool) (env : list string) (rs : list request).
Abbreviation ok := (session_ok LoadEnv env rs).

Definition credit (rq : request) : nat := if WantReply rq then 1%nat else 0%nat.

Lemma ok_weaken k s : ok k s -> ok 0 s.
Proof. intros []. split; [done|lia|done|done]. Qed.

Lemma ok_reply rq b s : ok (credit rq) s -> ok 0 (Reply rq b s).
Proof.
  intros []. unfold Reply, credit in *. destruct (WantReply rq); [|by split].
  split; simpl; [done|rewrite length_app; simpl; lia|done|done].
Qed.

Lemma ok_status k st s : ok k s -> st <> Crashed -> ok k (with_status st s).
Proof. intros [? ? ? Hs] Hst. split; try done. simpl. intros H. by destruct (Hs H) as (? & ? & _). Qed.

Lemma ok_env k env' s :
  ok k s -> (LoadEnv <> "Y" -> Forall (fun e => e ∈ env \/ exists term, e = String.append "TERM=" term) env') ->
  ok k (with_env env' s).
Proof. intros [] He. by split. Qed.

Lemma ok_append k kv s :
  ok k s -> (LoadEnv <> "Y" -> exists term, kv = String.append "TERM=" term) ->
  ok k (with_env (appendEnv (ss_env s) kv) s).
Proof.
  intros Hs Hkv. apply ok_env; [done|]. intros HL. apply Forall_forall. intros e [He| ->]%appendEnv_elem.
  - pose proof (so_env _ _ _ _ _ Hs HL) as Hall. rewrite Forall_forall in Hall. by apply Hall.
  - right. by apply Hkv.
Qed.

Lemma ok_send k payload s s' :
  ok k s -> (Forall well_sized rs -> bytes_ok payload /\ (8 <= length payload)%nat) ->
  send_resize payload s = Some s' -> ok k s'.
Proof.
  intros [Hq ? ? Hs] Hp. unfold send_resize. destruct (_ <? _)%nat eqn:Hlt; [|done]. intros [= <-].
  apply Nat.ltb_lt in Hlt. split; simpl; [rewrite length_app; simpl; lia|done|done|].
  intros H. destruct (Hs H) as (? & ? & ?). split; [done|]. split; [|done].
  apply Forall_app. split; [done|]. repeat constructor; by apply Hp.
Qed.

Lemma ok_attach k s : ok k s -> ok k (attachShell pty_starts s).2.
Proof.
  intros [Hq ? ? Hs]. unfold attachShell. destruct (ss_resizes s) as [|payload q] eqn:Hr; cbn [snd]; split; try done.
  - simpl. rewrite Hr. simpl. lia.
  - simpl. by rewrite Hr.
  - simpl in *. lia.
  - simpl. intros H. destruct (Hs H) as (? & Hall & ?). by apply Forall_cons in Hall as [_ Hall].
Qed.

Lemma handle_ok rq s s' :
  ok (credit rq) s -> (Forall well_sized rs -> well_sized rq) ->
  handle_request LoadEnv pty_starts rq s = Some s' -> ok 0 s'.
Proof.
  intros Hs Hrq. unfold handle_request.
  destruct (bool_decide_reflect (rq_Type rq = "subsystem")) as [_|_].
  { destruct (slice_from _ _); [destruct (bool_decide _)|..]; intros [= <-];
      [by apply ok_status; [apply ok_reply|]|by eapply ok_weaken|by apply ok_status; [eapply ok_weaken|]..]. }
  destruct (bool_decide_reflect (rq_Type rq = "pty-req")) as [Hpty|_].
  { destruct (parsePtyReq (Payload rq)) as [[[term payload]|]| |] eqn:Hp;
      [|intros [= <-]; by apply ok_reply|intros [= <-]; by apply ok_status; [eapply ok_weaken|]..].
    set (s1 := if bool_decide _ then _ else _).
    assert (H1 : ok (credit rq) s1).
    { subst s1. destruct (bool_decide _); [done|]. apply ok_append; [done|]. intros _. by eexists. }
    destruct (send_resize payload s1) as [s2|] eqn:Hsend; [|done]. intros [= <-]. apply ok_reply.
    eapply ok_send; [exact H1| |exact Hsend]. intros Hall. destruct (Hrq Hall) as (Hb & _ & Hlen).
    destruct (Hlen Hpty) as [H12 Hmax]. by destruct (parsePtyReq_size _ _ _ Hb Hmax H12 Hp). }
  destruct (bool_decide_reflect (rq_Type rq = "window-change")) as [Hwin|_].
  { intros Hsend. apply (ok_weaken (credit rq)). eapply ok_send; [exact Hs| |exact Hsend].
    intros Hall. destruct (Hrq Hall) as (Hb & Hlen & _). split; [done|by apply Hlen]. }
  destruct (bool_decide (rq_Type rq = "env")).
  { destruct (parse_env _) as [name value]. intros [= <-]. apply (ok_weaken (credit rq)).
    destruct (bool_decide_reflect (LoadEnv = "Y")); [by apply ok_append|done]. }
  destruct (bool_decide (rq_Type rq = "shell")).
  { pose proof (ok_attach _ _ Hs) as Ha. destruct (attachShell pty_starts s) as [started s1].
    intros [= <-]. by apply ok_reply. }
  destruct (bool_decide (rq_Type rq = "exec")); [|intros [= <-]; by eapply ok_weaken].
  destruct (slice_from _ _); intros [= <-]; by apply ok_status; [apply ok_reply|].
Qed.

Lemma session_step_ok s s' : ok 0 s -> step LoadEnv pty_starts s s' -> ok 0 s'.
Proof.
  intros Hs [rq rest s1 Hserv Hreq Hh|Hserv Hreq|payload q Hst Hshell Hq].
  - eapply handle_ok; [| |exact Hh]; destruct Hs as [? Hrep ? Hsized]; rewrite Hreq in Hrep, Hsized.
    + split; simpl; [done| |done|].
      * unfold wants, credit in *. rewrite filter_cons in Hrep. destruct (WantReply rq); simpl in Hrep |- *; lia.
      * intros H. destruct (Hsized H) as (Hall & ? & ?). by apply Forall_cons in Hall as [_ ?].
    + intros H. destruct (Hsized H) as (Hall & _). by apply Forall_cons in Hall as [? _].
  - by apply ok_status.
  - destruct Hs as [Hlen ? ? Hsized]. rewrite Hq in Hlen, Hsized. simpl in Hlen. unfold set_size.
    destruct (parseDims payload) as [[w h]| |] eqn:Hd; (split; simpl; [lia|done|done|]); intros H;
      destruct (Hsized H) as (? & Hall & ?); apply Forall_cons in Hall as [[Hb H8] Hall]; try done;
      pose proof (parseDims_spec payload Hb) as Hspec; rewrite (proj2 (Nat.leb_le _ _)), Hd in Hspec by done;
      by destruct Hspec.
Qed.

Lemma session_reachable_ok s : reachable LoadEnv pty_starts env rs s -> ok 0 s.
Proof.
  induction 1 as [|s s' _ IH Hstep]; [|by eapply session_step_ok].
  split; simpl; [lia|lia|intros _; apply Forall_forall; by left|done].
Qed.

(** The handler waits for nothing but room in the channel. *)
Lemma handle_waits rq s :
  handle_request LoadEnv pty_starts rq s = None ->
  (resizes_cap <= length (ss_resizes s))%nat /\ (rq_Type rq = "pty-req" \/ rq_Type rq = "window-change").
Proof.
  assert (Hsend : forall payload s0, send_resize payload s0 = None -> (resizes_cap <= length (ss_resizes s0))%nat).
  { intros payload s0. unfold send_resize. destruct (_ <? _)%nat eqn:H; [done|]. intros _. by apply Nat.ltb_ge. }
  unfold handle_request.
  destruct (bool_decide (rq_Type rq = "subsystem")); [by destruct (slice_from _ _); [destruct (bool_decide _)|..]|].
  destruct (bool_decide_reflect (rq_Type rq = "pty-req")) as [Hp|_].
  { destruct (parsePtyReq _) as [[[term payload]|]| |]; try done. set (s1 := if bool_decide _ then _ else _).
    destruct (send_resize payload s1) as [s2|] eqn:Hs; [done|]. intros _. apply Hsend in Hs.
    split; [|by left]. subst s1. by destruct (bool_decide _). }
  destruct (bool_decide_reflect (rq_Type rq = "window-change")) as [Hw|_].
  { intros Hs%Hsend. by split; [|right]. }
  destruct (bool_decide _); [by destruct (parse_env _)|].
  destruct (bool_decide _); [by destruct (attachShell _ _)|].
  destruct (bool_decide _); [by destruct (slice_from _ _)|done].
Qed.

Lemma serving_progress s : ok 0 s -> ss_status s = Serving ->
  (exists s', step LoadEnv pty_starts s s') \/ blocked s.
Proof.
  intros Hs Hserv. destruct (ss_requests s) as [|rq rest] eqn:Hreq; [left; eexists; by apply step_end|].
  destruct (handle_request LoadEnv pty_starts rq (with_requests rest s)) as [s'|] eqn:Hh;
    [left; eexists; by eapply step_handle|].
  apply handle_waits in Hh as [Hfull Htype]. simpl in Hfull.
  destruct (ss_resizes s) as [|payload q] eqn:Hq; [simpl in Hfull; unfold resizes_cap in Hfull; lia|].
  destruct (decide (ss_shells s = 0%nat)) as [H0|Hne].
  - right. split; [rewrite Hq; pose proof (so_queue _ _ _ _ _ Hs) as Hle; rewrite Hq in Hle; lia|].
    split; [done|]. by exists rq, rest.
  - left. eexists. eapply step_resize; [by rewrite Hserv|done|done].
Qed.

End SessionFacts.

(** A session that has received [k] sizes and no shell. *)
Definition size_request (payload : list Z) : request := mkRequest "window-change" false payload.
Definition waiting (env : list string) (payload : list Z) (rest : list request) (k : nat) : session :=
  mkSession (repeat (size_request payload) (11 - k) ++ rest) env (repeat payload k) 0 0 [] [] Serving.

Lemma waiting_reachable LoadEnv pty_starts env payload rest k : (k <= 10)%nat ->
  reachable LoadEnv pty_starts env (repeat (size_request payload) 11 ++ rest) (waiting env payload rest k).
Proof.
  induction k as [|k IH]; intros Hk; [apply reachable_opened|].
  eapply reachable_step; [apply IH; lia|].
  apply (step_handle _ _ _ (size_request payload) (repeat (size_request payload) (11 - S k) ++ rest)).
  - done.
  - simpl. by replace (11 - k)%nat with (S (10 - k)) by lia.
  - unfold handle_request. simpl. unfold send_resize. simpl. rewrite repeat_length.
    rewrite (proj2 (Nat.ltb_lt _ _)) by (unfold resizes_cap; lia).
    unfold with_resizes, waiting. simpl. by rewrite <- repeat_cons.
Qed.

(** * Properties *)

(** terminal requests are read exactly.  What a client encodes is read
    back; a request of at least twelve bytes never makes the parser panic and,
    when accepted, splits into the length, the name of that length and at least
    eight bytes for the size; a shorter one panics exactly when the name it
    claims does not fit, because the check of its length wraps around. *)
Theorem parsePtyReq_spec (b : list Z) :
  bytes_ok b -> Z.of_nat (length b) < 2 ^ 63 ->
  (forall term rest, b = pty_request term rest -> Z.of_nat (length term) < 2 ^ 32 -> (8 <= length rest)%nat ->
     parsePtyReq b = Ok (Some (term, rest))) /\
  (forall term rest, (12 <= length b)%nat -> parsePtyReq b = Ok (Some (term, rest)) ->
     b = (take 4 b ++ term ++ rest)%list /\ @BigEndian_Uint32 Empty_set b = Ok (Z.of_nat (length term)) /\
     (8 <= length rest)%nat) /\
  (parsePtyReq b = Panic <->
     (4 <= length b < 12)%nat /\
     exists n, @BigEndian_Uint32 Empty_set b = Ok n /\ Z.of_nat (length b) < n + 4).
Proof.
  intros Hb Hmax. split; [|split].
  - intros term rest -> Hterm Hrest.
    assert (Hlen : length (pty_request term rest) = (4 + length term + length rest)%nat).
    { unfold pty_request. rewrite !length_app. simpl. lia. }
    destruct (parsePtyReq_cases _ Hb Hmax ltac:(lia)) as (n & Hn & _ & ->).
    unfold pty_request in Hn. rewrite BigEndian_put in Hn by lia. injection Hn as <-.
    rewrite (proj2 (Nat.leb_le _ _)), !(proj2 (Z.ltb_ge _ _)) by lia. simpl andb. cbn iota.
    unfold pty_request. rewrite Nat2Z.id. do 3 f_equal.
    + change (drop 4 (put_be32 _ ++ term ++ rest)%list) with (term ++ rest)%list. apply take_app_length.
    + change (4 + length term)%nat with (length (put_be32 (Z.of_nat (length term))) + length term)%nat.
      rewrite <- drop_drop, drop_app_length. apply drop_app_length.
  - intros term rest H12 Hp. destruct (parsePtyReq_cases b Hb Hmax ltac:(lia)) as (n & Hn & Hr & Hcase).
    rewrite Hp, (proj2 (Nat.leb_le _ _)) in Hcase by done. simpl andb in Hcase.
    destruct (_ <? n + 12) eqn:Hlt; [done|]. destruct (_ <? n + 4); [done|]. injection Hcase as -> ->.
    rewrite Hn, length_take, !length_drop. split; [|split; [f_equal; lia|lia]].
    change (S (S (S (S (Z.to_nat n))))) with (4 + Z.to_nat n)%nat.
    replace (drop (4 + Z.to_nat n) b) with (drop (Z.to_nat n) (drop 4 b)) by (rewrite drop_drop; f_equal; lia).
    by rewrite take_drop, take_drop.
  - split.
    + intros Hp. destruct (decide (4 <= length b)%nat) as [H4|].
      * destruct (parsePtyReq_cases b Hb Hmax H4) as (n & Hn & Hr & Hcase). rewrite Hp in Hcase.
        destruct (12 <=? length b)%nat eqn:H12; simpl andb in Hcase.
        -- destruct (_ <? n + 12) eqn:Hlt; [done|]. by rewrite (proj2 (Z.ltb_ge _ (n + 4))) in Hcase by lia.
        -- apply Nat.leb_gt in H12. split; [lia|]. exists n. split; [done|].
           destruct (_ <? n + 4) eqn:Hlt; [lia|done].
      * unfold parsePtyReq in Hp. by rewrite (proj2 (Nat.ltb_lt _ _)) in Hp by lia.
    + intros [[H4 H12] (n & Hn & Hlt)]. destruct (parsePtyReq_cases b Hb Hmax H4) as (n' & Hn' & _ & ->).
      assert (n' = n) as -> by congruence. rewrite (proj2 (Nat.leb_gt _ _)) by done. simpl andb.
      by rewrite (proj2 (Z.ltb_lt _ _)).
Qed.

(** C32: a session keeps the server alive for a client that follows the
    protocol.  In every state a session reaches, at most ten sizes wait, no more
    replies were sent than requested, and unless the configuration loads the
    client's environment only TERM was added to the server's; if every size
    the client sends is complete, the process never ends; the handler goes on
    unless ten sizes wait and no shell takes them.  A client that sends one
    incomplete size after its shell has started can end the process, and one
    that sends eleven before it is never served again. *)
Theorem session_safe (LoadEnv : string) (pty_starts : nat -> bool) (env : list string) (rs : list request) :
  (forall s, reachable LoadEnv pty_starts env rs s ->
     (length (ss_resizes s) <= resizes_cap)%nat /\ (length (ss_replies s) <= wants rs)%nat /\
     env_kept LoadEnv env s /\
     (Forall well_sized rs -> ss_status s <> Crashed) /\
     (ss_status s = Serving -> (exists s', step LoadEnv pty_starts s s') \/ blocked s)) /\
  (forall payload rest, bytes_ok payload -> (length payload < 8)%nat -> pty_starts 0%nat = true ->
     rs = mkRequest "shell" true [] :: mkRequest "window-change" false payload :: rest ->
     exists s, reachable LoadEnv pty_starts env rs s /\ ss_status s = Crashed) /\
  (forall payload rest, rs = (repeat (size_request payload) 11 ++ rest)%list ->
     exists s, reachable LoadEnv pty_starts env rs s /\ ss_status s = Serving /\ blocked s /\
       forall s', ~ step LoadEnv pty_starts s s').
Proof.
  split; [|split].
  - intros s Hr. pose proof (session_reachable_ok _ _ _ _ _ Hr) as Hs. split_and!.
    + apply Hs.
    + pose proof (so_replies _ _ _ _ _ Hs). lia.
    + apply Hs.
    + intros Hall. apply (so_sized _ _ _ _ _ Hs Hall).
    + by apply (serving_progress _ _ env rs).
  - intros payload rest Hb Hshort Hpty ->. eexists. split.
    + eapply reachable_step; [eapply reachable_step; [eapply reachable_step; [apply reachable_opened|]|]|].
      * by eapply step_handle.
      * by eapply step_handle.
      * eapply step_resize; [done| |done]. simpl. by rewrite Hpty.
    + unfold set_size. pose proof (parseDims_spec payload Hb) as Hd.
      rewrite (proj2 (Nat.leb_gt _ _)) in Hd by done. simpl. by rewrite Hd.
  - intros payload rest ->. exists (waiting env payload rest 10).
    split; [by apply waiting_reachable|]. split; [done|]. split.
    + split; [done|]. split; [done|]. eexists _, _. split; [done|by right].
    + intros s' Hstep. inversion Hstep as [rq rest' s1 _ Hreq Hh| |p q _ Hshell]; subst; simpl in *; [|done|done].
      by injection Hreq as <- <-.
Qed.

(** A request for the terminal xterm with an 80 by 24 size and no modes. *)
Example parsePtyReq_spec_witness :
  let rest := [0; 0; 0; 80; 0; 0; 0; 24; 0; 0; 0; 0; 0; 0; 0; 0; 0; 0; 0; 1; 0] in
  let term := [120; 116; 101; 114; 109] in
  parsePtyReq (pty_request term rest) = Ok (Some (term, rest)) /\ parseDims rest = Ok (80, 24).
Proof.
  cbn zeta. split; [|reflexivity].
  apply (parsePtyReq_spec (pty_request [120; 116; 101; 114; 109]
    [0; 0; 0; 80; 0; 0; 0; 24; 0; 0; 0; 0; 0; 0; 0; 0; 0; 0; 0; 1; 0])); [|vm_compute; reflexivity|reflexivity|
    vm_compute; reflexivity|simpl; lia].
  apply (bool_decide_unpack _). vm_compute. exact I.
Defined.

(** A session with a terminal and a shell. *)
Definition sample_requests : list request :=
  [mkRequest "pty-req" true (pty_request [120] [0; 0; 0; 80; 0; 0; 0; 24]); mkRequest "shell" true []].
Definition sample_session : session :=
  mkSession [] ["HOME=/root"; "TERM=x"] [] 1 1 [(24, 80)] [true; true] Serving.

Example session_safe_witness :
  reachable "N" (fun _ => true) ["HOME=/root"] sample_requests sample_session /\
  env_kept "N" ["HOME=/root"] sample_session.
Proof.
  assert (Hr : reachable "N" (fun _ => true) ["HOME=/root"] sample_requests sample_session).
  { eapply reachable_step; [eapply reachable_step; [apply reachable_opened|]|].
    - eapply step_handle; [reflexivity|reflexivity|vm_compute; reflexivity].
    - eapply step_handle; [reflexivity|reflexivity|vm_compute; reflexivity]. }
  split; [exact Hr|].
  exact (proj1 (proj2 (proj2 (proj1 (session_safe "N" (fun _ => true) ["HOME=/root"] sample_requests) _ Hr)))).
Defined.

(** A key is accepted exactly when a stored line parses to it. *)
Lemma PublicKeyCallback_spec ParseAuthorizedKey data key :
  PublicKeyCallback ParseAuthorizedKey (Some data) key = true <->
  exists line cmt, line ∈ split_on 10 data /\ ParseAuthorizedKey line = Some (key, cmt).
Proof.
  unfold PublicKeyCallback, parseKeys. set (f := fun keys l => _).
  assert (Hf : forall lines keys, is_Some (fold_left f lines keys !! key) <->
    is_Some (keys !! key) \/ exists line cmt, line ∈ lines /\ ParseAuthorizedKey line = Some (key, cmt)).
  { intros lines. induction lines as [|l lines IH]; intros keys; simpl.
    { split; [by left|]. intros [?|(? & ? & []%not_elem_of_nil & _)]. done. }
    rewrite IH. setoid_rewrite elem_of_cons. unfold f at 1.
    destruct (ParseAuthorizedKey l) as [[k cmt]|] eqn:Hl.
    - destruct (decide (k = key)) as [->|Hne].
      + rewrite lookup_insert_eq. split; [intros _; right; exists l, cmt; auto|intros _; left; by eexists].
      + rewrite lookup_insert_ne by done. split; [intros [?|(x & y & ? & ?)]; [by left|right; exists x, y; auto]|].
        intros [?|(x & y & [->|?] & ?)]; [by left|congruence|right; by exists x, y].
    - split; [intros [?|(x & y & ? & ?)]; [by left|right; exists x, y; auto]|].
      intros [?|(x & y & [->|?] & ?)]; [by left|congruence|right; by exists x, y]. }
  set (keys := fold_left f _ _). specialize (Hf (split_on 10 data) ∅). fold keys in Hf.
  rewrite lookup_empty, is_Some_alt in Hf.
  destruct (bool_decide_reflect (keys = ∅)) as [He|Hne].
  - rewrite He, lookup_empty in Hf. split; [done|]. intros H. destruct (proj2 Hf (or_intror H)).
  - rewrite bool_decide_eq_true. rewrite is_Some_alt. rewrite Hf. split; [by intros [[]|?]|by right].
Qed.
