(* ===== verification/Gin.v ===== *)
(** The handler chain of the web framework, [src/gossh/gin/context.go] and
    [src/gossh/gin/routergroup.go]: the index that walks over the handlers of a
    request, the re-entrant [Next], [Abort], and the paths of route groups.

    A handler is a program over a state of its own with calls of [Next] and
    [Abort]; [serve] is the loop of [Next].  Theorems: the walk ends, enters
    each handler at most once and in order, and its [int8] index never
    overflows; a chain of guards behaves as the guards one after another. *)

From S2P Require Import Prelude GoInt GoStrings Effects.
From stdpp Require Import sorting.
Open Scope string_scope.
Open Scope Z_scope.

(** * Handlers *)

(** A handler reads and changes the state of the program ([Run]), calls
    [c.Next()], calls [c.Abort()], panics or returns.  [NextOr rescue k] is a
    [Next] whose panic is recovered by [rescue]. *)
Inductive handler (W : Type) : Type :=
| Return
| Crash
| Run {A : Type} (m : ST W A) (k : A -> handler W)
| NextOr (rescue k : handler W)
| Abort (k : handler W).
Arguments Return {W}. Arguments Crash {W}. Arguments Run {W A}. Arguments NextOr {W}. Arguments Abort {W}.

(** A panic below a plain [Next] goes on upwards. *)
Abbreviation Next := (NextOr Crash).

Definition abortIndex : Z := 63.

Record Context (W : Type) := mkContext {
  c_index : Z;                 (** [int8] *)
  c_world : W;
  c_entered : list nat }.      (** handlers entered so far, for the statements *)
Arguments mkContext {W}. Arguments c_index {W}. Arguments c_world {W}. Arguments c_entered {W}.

Inductive result (W : Type) : Type :=
| Finished (c : Context W)
| Panicked (c : Context W)
| Exhausted.
Arguments Finished {W}. Arguments Panicked {W}. Arguments Exhausted {W}.

Section Chain.
Context {W : Type}.
Implicit Types (h : handler W) (hs : list (handler W)) (c : Context W).

Definition set_index (i : Z) c : Context W := mkContext i (c_world c) (c_entered c).
Definition set_world (w : W) c : Context W := mkContext (c_index c) w (c_entered c).
Definition incr c : Context W := set_index (swrap 8 (c_index c + 1)) c.
Definition enter c : Context W :=
  mkContext (c_index c) (c_world c) (c_entered c ++ [Z.to_nat (c_index c)])%list.

Definition IsAborted c : bool := abortIndex <=? c_index c.

(** One handler, [next] being what [c.Next()] does. *)
Fixpoint exec (next : Context W -> result W) h c : result W :=
  match h with
  | Return => Finished c
  | Crash => Panicked c
  | Run m k => let '(a, w) := m (c_world c) in exec next (k a) (set_world w c)
  | NextOr rescue k =>
    match next c with
    | Finished c => exec next k c
    | Panicked c => exec next rescue c
    | Exhausted => Exhausted
    end
  | Abort k => exec next k (set_index abortIndex c)
  end.

(** [for c.index < int8(len(c.handlers)) { c.handlers[c.index](c); c.index++ }]. *)
Fixpoint serve (fuel : nat) hs c : result W :=
  match fuel with
  | O => Exhausted
  | S fuel =>
    if c_index c <? swrap 8 (Z.of_nat (length hs)) then
      match (if c_index c <? 0 then None else hs !! Z.to_nat (c_index c)) with
      | None => Panicked c
      | Some h =>
        match exec (fun c => serve fuel hs (incr c)) h (enter c) with
        | Finished c => serve fuel hs (incr c)
        | r => r
        end
      end
    else Finished c
  end.

(** [c.Next()] on a context that was reset, with one turn of the loop for each
    handler and one to leave it. *)
Definition call_next (fuel : nat) hs c : result W := serve fuel hs (incr c).
Definition reset (w : W) : Context W := mkContext (-1) w [].
Definition handleHTTPRequest hs (w : W) : result W := call_next (S (length hs)) hs (reset w).

(** At most [n] calls of [Next] on every path. *)
Fixpoint calls h (n : nat) : Prop :=
  match h with
  | Return | Crash => True
  | Run m k => forall a, calls (k a) n
  | NextOr rescue k => match n with O => False | S n => calls rescue n /\ calls k n end
  | Abort k => calls k n
  end.

(** ** The guards of a chain, one after another *)

(** A guard passes the request on, by [Next] or by returning, or stops it; what
    panics below it is left to [rescue]. *)
Inductive verdict := Passed (rescue : handler W) | Stopped | Crashed.

Definition crashed (v : verdict) : bool := match v with Crashed => true | _ => false end.

Fixpoint verdict_of h (w : W) : verdict * W :=
  match h with
  | Return => (Passed Crash, w)
  | NextOr rescue _ => (Passed rescue, w)
  | Crash => (Crashed, w)
  | Run m k => let '(a, w) := m w in verdict_of (k a) w
  | Abort k => let '(v, w) := verdict_of k w in (if crashed v then Crashed else Stopped, w)
  end.

(** What becomes of the rest of a chain when its panics are recovered. *)
Definition rescued (rescue : handler W) (o : bool * W * list nat) : bool * W * list nat :=
  let '(p, w, l) := o in
  if p : bool then let '(v, w) := verdict_of rescue w in (crashed v, w, l) else o.

(** Whether the chain panicked, the state it leaves, the handlers entered from
    the [i]-th on. *)
Fixpoint pipeline (i : nat) hs (w : W) : bool * W * list nat :=
  match hs with
  | [] => (false, w, [])
  | h :: hs =>
    match verdict_of h w with
    | (Passed rescue, w) =>
      let '(p, w, l) := rescued rescue (pipeline (S i) hs w) in (p, w, i :: l)
    | (Stopped, w) => (false, w, [i])
    | (Crashed, w) => (true, w, [i])
    end
  end.

(** Nothing but further calls of [Next]; no call of [Next] at all; a guard. *)
Fixpoint quiet h : Prop :=
  match h with Return => True | NextOr rescue k => rescue = Crash /\ quiet k | _ => False end.
Fixpoint plain h : Prop :=
  match h with
  | Return | Crash => True
  | Run m k => forall a, plain (k a)
  | NextOr _ _ => False
  | Abort k => plain k
  end.
(** A handler that panics or aborts on every path. *)
Fixpoint aborts h : Prop :=
  match h with
  | Return | NextOr _ _ => False
  | Crash => True
  | Run m k => forall a, aborts (k a)
  | Abort k => plain k
  end.
Fixpoint guard h : Prop :=
  match h with
  | Return | Crash => True
  | Run m k => forall a, guard (k a)
  | NextOr rescue k => aborts rescue /\ quiet k
  | Abort k => plain k
  end.

End Chain.

(** * Middleware of the framework *)

(** The log of a request goes to the standard output only. *)
Definition Logger {W} : handler W := Next Return.

(** [gin.Recovery()], with what [c.AbortWithStatus] does to the response. *)
Definition Recovery {W} (set_status : Z -> W -> W) : handler W :=
  NextOr (Run (st_modify (set_status 500)) (fun _ => Abort Return)) Return.

(** * Route groups *)

Definition combineHandlers {W} (group handlers : list (handler W)) : go Empty_set (list (handler W)) :=
  if Z.of_nat (length group + length handlers) <? abortIndex then Ok (group ++ handlers)%list else Panic.

Definition joinPaths (absolutePath relativePath : string) : string :=
  if bool_decide (relativePath = "") then absolutePath
  else
    let finalPath := path_Join [absolutePath; relativePath] in
    if HasSuffix relativePath "/" && negb (HasSuffix finalPath "/") then finalPath +++ "/" else finalPath.

(** * The walk ends and does not overflow *)

Section Walk.
Context {W : Type}.
Implicit Types (h : handler W) (hs : list (handler W)) (c : Context W).

(** The invariant, for [k] increments of the index the callers still make: a
    handler accounts for three, its own and those of two calls of [Next]. *)
Record walk (n : nat) (k b : Z) c : Prop := mkWalk {
  wk_sorted : StronglySorted lt (c_entered c);
  wk_entered : Forall (fun j => (j < n)%nat /\ Z.of_nat j <= c_index c) (c_entered c);
  wk_low : b <= c_index c;
  wk_high : c_index c <= 63 + 3 * Z.of_nat (length (c_entered c)) - k }.

Definition after (P : Context W -> Prop) (r : result W) : Prop :=
  match r with Finished c | Panicked c => P c | Exhausted => False end.

Lemma sorted_below_length (l : list nat) n :
  StronglySorted lt l -> Forall (fun j => (j < n)%nat) l -> (length l <= n)%nat.
Proof.
  intros Hs Hb. transitivity (length (seq 0 n)); [|by rewrite length_seq].
  apply submseteq_length, NoDup_submseteq.
  - clear Hb. induction Hs as [|x l Hs IH Hx]; constructor; [|done].
    intros Hin. rewrite Forall_forall in Hx. specialize (Hx _ Hin). lia.
  - intros j Hj. rewrite Forall_forall in Hb. apply elem_of_seq. specialize (Hb _ Hj). lia.
Qed.

Lemma walk_high n k b c : (n <= 21)%nat -> walk n k b c -> 0 <= k -> c_index c <= 126 - k.
Proof.
  intros Hn [Hs He Hl Hh] Hk.
  assert (length (c_entered c) <= n)%nat.
  { apply sorted_below_length; [done|]. eapply Forall_impl; [exact He|]. by intros j []. }
  lia.
Qed.

Lemma walk_weaken n k k' b b' c : walk n k b c -> k' <= k -> b' <= b -> walk n k' b' c.
Proof. intros []. split; try done; lia. Qed.

Lemma walk_world n k b w c : walk n k b c -> walk n k b (set_world w c).
Proof. by intros []. Qed.

Lemma walk_abort n k b c : (n <= 21)%nat -> b <= 63 -> k <= 3 * Z.of_nat (length (c_entered c)) ->
  walk n k b c -> walk n k b (set_index abortIndex c).
Proof.
  intros Hn Hb Hk []. split; simpl; unfold abortIndex; try done; try lia.
  eapply Forall_impl; [done|]. intros j []. lia.
Qed.

Lemma walk_incr n k b c : (n <= 21)%nat -> 0 <= b -> 0 <= k -> walk n (k + 1) b c ->
  walk n k (b + 1) (incr c) /\ c_index (incr c) = c_index c + 1.
Proof.
  intros Hn Hb Hk Hw. pose proof (walk_high _ _ _ _ Hn Hw ltac:(lia)). destruct Hw.
  assert (c_index (incr c) = c_index c + 1) as Hi by (simpl; apply swrap_id; lia).
  split; [|done]. split; rewrite ?Hi; simpl; try done; try lia.
  eapply Forall_impl; [done|]. intros j []. lia.
Qed.

(** The credit of the entered handlers never exceeds their number. *)
Definition paid (k : Z) c : Prop := k <= 3 * Z.of_nat (length (c_entered c)).

(** From [c] to [c']: handlers are only appended, none once the chain is over. *)
Record leads (n : nat) c c' : Prop := mkLeads {
  ld_prefix : c_entered c `prefix_of` c_entered c';
  ld_over : Z.of_nat n <= c_index c -> c_entered c' = c_entered c /\ Z.of_nat n <= c_index c' }.

Lemma leads_refl n c : leads n c c.
Proof. by split. Qed.
Lemma leads_trans n c1 c2 c3 : leads n c1 c2 -> leads n c2 c3 -> leads n c1 c3.
Proof.
  intros [Hp1 Ho1] [Hp2 Ho2]. split; [by transitivity (c_entered c2)|].
  intros H. destruct (Ho1 H) as [<- H2]. by apply Ho2.
Qed.

Lemma after_leads n (P : Context W -> Prop) c c1 r :
  leads n c c1 -> after (fun c' => P c' /\ leads n c1 c') r -> after (fun c' => P c' /\ leads n c c') r.
Proof. intros Hl. destruct r; simpl; try done; intros []; split; try done; by eapply leads_trans. Qed.

Lemma paid_leads n k c c1 : paid k c -> leads n c c1 -> paid k c1.
Proof. unfold paid. intros Hp Hl. pose proof (prefix_length _ _ (ld_prefix _ _ _ Hl)). lia. Qed.

Lemma exec_walk n b next h :
  (n <= 21)%nat -> 0 <= b <= 63 ->
  (forall c k, 0 <= k -> walk n (k + 1) b c -> paid (k + 1) c ->
     after (fun c' => walk n k b c' /\ leads n c c') (next c)) ->
  forall m k c, calls h m -> 0 <= k -> walk n (k + Z.of_nat m) b c -> paid (k + Z.of_nat m) c ->
  after (fun c' => walk n k b c' /\ leads n c c') (exec next h c).
Proof.
  intros Hn Hb Hnext. induction h as [| |A p f IH|rescue IHr h IHh|h IH]; intros m k c Hc Hk Hw Hp; simpl.
  - split; [eapply walk_weaken; [done|lia|lia]|apply leads_refl].
  - split; [eapply walk_weaken; [done|lia|lia]|apply leads_refl].
  - destruct (p (c_world c)) as [a w]. apply (after_leads n _ c (set_world w c)); [by split|].
    by apply (IH a m); [apply Hc| |apply walk_world|].
  - destruct m as [|m]; [done|]. destruct Hc as [Hcr Hck].
    assert (Hone : k + Z.of_nat m + 1 = k + Z.of_nat (S m)) by lia.
    pose proof (Hnext c (k + Z.of_nat m) ltac:(lia)) as H. rewrite Hone in H. specialize (H Hw Hp).
    assert (forall c1, leads n c c1 -> paid (k + Z.of_nat m) c1) as Hpaid.
    { intros c1 Hl. eapply paid_leads; [|done]. unfold paid in *. lia. }
    destruct (next c) as [c1|c1|]; simpl in H; [| |done]; destruct H as [Hw1 Hl1];
      (apply (after_leads n _ c c1); [done|]); [by eapply IHh; auto|by eapply IHr; auto].
  - apply (after_leads n _ c (set_index abortIndex c)).
    + split; [done|]. intros _. split; [done|]. simpl. unfold abortIndex. lia.
    + by apply (IH m); [| |apply walk_abort; [| lia| |]|].
Qed.

Lemma serve_walk hs fuel : (length hs <= 21)%nat -> Forall (fun h => calls h 2) hs ->
  forall c k b, 0 <= k -> 0 <= b <= 63 -> walk (length hs) k b c -> paid k c ->
  Forall (fun j => Z.of_nat j < c_index c) (c_entered c) ->
  Z.of_nat (length hs) - c_index c < Z.of_nat fuel -> (0 < fuel)%nat ->
  after (fun c' => walk (length hs) k b c' /\ leads (length hs) c c') (serve fuel hs c).
Proof.
  intros Hn Hcalls. induction fuel as [|fuel IH]; intros c k b Hk Hb Hw Hp Hlt Hfuel Hpos; [lia|].
  cbn [serve]. rewrite swrap_id by lia. destruct (Z.ltb_spec (c_index c) (Z.of_nat (length hs))) as [Hi|Hi];
    [|by split; [|apply leads_refl]].
  pose proof (wk_low _ _ _ _ Hw) as Hlow. rewrite (proj2 (Z.ltb_ge _ _)) by lia.
  destruct (lookup_lt_is_Some_2 hs (Z.to_nat (c_index c)) ltac:(lia)) as [h Hh]. rewrite Hh.
  set (i := c_index c) in *.
  assert (walk (length hs) (k + 1 + Z.of_nat 2) i (enter c)) as Hwe.
  { destruct Hw. split; simpl; fold i.
    - apply StronglySorted_app_2; [|done|repeat constructor]. intros j j' Hj ->%list_elem_of_singleton.
      rewrite Forall_forall in Hlt. specialize (Hlt _ Hj). lia.
    - apply Forall_app. split; [done|]. repeat constructor; lia.
    - lia.
    - rewrite length_app. simpl. lia. }
  assert (paid (k + 1 + Z.of_nat 2) (enter c)) as Hpe.
  { unfold paid in *. simpl. rewrite length_app. simpl. lia. }
  assert (leads (length hs) c (enter c)) as Hle.
  { split; simpl; [by apply prefix_app_r|fold i; lia]. }
  assert (forall c' k', 0 <= k' -> walk (length hs) (k' + 1) i c' -> paid (k' + 1) c' ->
    after (fun c'' => walk (length hs) k' i c'' /\ leads (length hs) c' c'') (serve fuel hs (incr c'))) as Hnext.
  { intros c' k' Hk' Hw' Hp'. destruct (walk_incr (length hs) k' i c' Hn ltac:(lia) Hk' Hw') as [Hwi Hii].
    pose proof (wk_low _ _ _ _ Hwi). apply (after_leads _ _ _ (incr c')).
    { split; [done|]. simpl in *. split; [done|]. lia. }
    apply IH; try lia; [by eapply walk_weaken; [exact Hwi|lia|lia]| |].
    - unfold paid in *. simpl. lia.
    - rewrite Hii. eapply Forall_impl; [apply (wk_entered _ _ _ _ Hw')|]. intros j []. lia. }
  rewrite Forall_lookup in Hcalls.
  pose proof (exec_walk (length hs) i _ h Hn ltac:(lia) Hnext 2 (k + 1) (enter c) (Hcalls _ _ Hh) ltac:(lia) Hwe Hpe) as He.
  destruct (exec _ h (enter c)) as [c1|c1|]; simpl in He; [| |done]; destruct He as [Hw1 Hl1].
  - apply (after_leads _ _ _ c1); [by eapply leads_trans|].
    assert (after (fun c'' => walk (length hs) k i c'' /\ leads (length hs) c1 c'') (serve fuel hs (incr c1))) as H.
    { apply Hnext; [lia|done|]. eapply paid_leads; [|exact Hl1]. unfold paid in *. lia. }
    destruct (serve _ _ _); simpl in *; try done; destruct H; (split; [eapply walk_weaken; [done|lia|lia]|done]).
  - simpl. split; [eapply walk_weaken; [done|lia|lia]|by eapply leads_trans].
Qed.

(** ** The guards of a chain *)

Lemma rescued_crash (o : bool * W * list nat) : rescued Crash o = o.
Proof. by destruct o as [[[] w] l]. Qed.

(** What a result is: the state, the handlers entered since, and the index. *)
Definition yields (lo hi : Z) (o : bool * W * list nat) c (r : result W) : Prop :=
  let '(p, w, l) := o in
  match r with
  | Finished c' => p = false /\ c_world c' = w /\ c_entered c' = (c_entered c ++ l)%list /\ lo <= c_index c' <= hi
  | Panicked c' => p = true /\ c_world c' = w /\ c_entered c' = (c_entered c ++ l)%list
  | Exhausted => False
  end.

Lemma plain_guard h n : plain h -> guard h /\ calls h n.
Proof.
  assert (plain h -> calls h n) as Hc by (induction h; simpl; naive_solver).
  intros Hp. split; [|auto]. clear Hc. induction h; simpl in *; naive_solver.
Qed.

Lemma exec_plain next h lo hi c : plain h -> lo <= c_index c <= hi -> lo <= 63 <= hi ->
  let '(v, w) := verdict_of h (c_world c) in
  yields lo hi (crashed v, w, []) c (exec next h c).
Proof.
  intros Hp Hi Hr. revert c Hp Hi. induction h as [| |A m k IH|? IH1 ? IH2|h IH]; intros c Hp Hi; simpl in *.
  - by rewrite app_nil_r.
  - by rewrite app_nil_r.
  - destruct (m (c_world c)) as [a w]. exact (IH a (set_world w c) (Hp a) Hi).
  - done.
  - specialize (IH (set_index abortIndex c) Hp Hr). simpl in IH.
    destruct (verdict_of h (c_world c)) as [[] w]; exact IH.
Qed.

Lemma exec_aborts next h lo hi c : aborts h -> lo <= 63 <= hi ->
  let '(v, w) := verdict_of h (c_world c) in yields lo hi (crashed v, w, []) c (exec next h c).
Proof.
  intros Hp Hr. revert c Hp. induction h as [| |A m k IH|? IH1 ? IH2|h IH]; intros c Hp; simpl in *; try done.
  - by rewrite app_nil_r.
  - destruct (m (c_world c)) as [a w]. exact (IH a (set_world w c) (Hp a)).
  - pose proof (exec_plain next h lo hi (set_index abortIndex c) Hp Hr Hr) as H. simpl in H.
    destruct (verdict_of h (c_world c)) as [[] w]; exact H.
Qed.

(** Once the index is past the handlers, [Next] only moves it. *)
Definition over n (next : Context W -> result W) : Prop :=
  forall c, n <= c_index c <= 126 -> next c = Finished (set_index (c_index c + 1) c).

Lemma exec_quiet n next h : over n next -> quiet h -> forall m c,
  calls h m -> n <= c_index c -> c_index c + Z.of_nat m <= 127 ->
  yields n (c_index c + Z.of_nat m) (false, c_world c, []) c (exec next h c).
Proof.
  intros Ho. induction h as [| |A p f _|? IH1 ? IH2|? _]; intros Hq m c Hm Hn Hhi; simpl in *; try done.
  - rewrite app_nil_r. repeat split; lia.
  - destruct m as [|m]; [done|]. destruct Hq as [-> Hq]. rewrite Ho by lia.
    specialize (IH2 Hq m (set_index (c_index c + 1) c) (proj2 Hm)). simpl in IH2.
    replace (c_index c + Z.of_nat (S m)) with (c_index c + 1 + Z.of_nat m) by lia. apply IH2; lia.
Qed.

Lemma yields_wider lo hi lo' hi' o c r : yields lo hi o c r -> lo' <= lo -> hi <= hi' -> yields lo' hi' o c r.
Proof. destruct o as [[p w] l], r; simpl; try done. intros (-> & -> & -> & H) ? ?. repeat split; lia. Qed.

Lemma yields_app lo hi p w l1 l2 c c1 r :
  c_entered c1 = (c_entered c ++ l1)%list -> yields lo hi (p, w, l2) c1 r -> yields lo hi (p, w, l1 ++ l2)%list c r.
Proof. intros He. destruct r; simpl; rewrite ?He, <- ?app_assoc; done. Qed.

Lemma yields_entered lo hi o c c1 r : c_entered c1 = c_entered c -> yields lo hi o c1 r -> yields lo hi o c r.
Proof. intros He. destruct o as [[p w] l], r; simpl; by rewrite ?He. Qed.

(** The loop leaves after a result past the handlers. *)
Lemma loop_end n hi o c next r : over n next -> hi <= 126 -> yields n hi o c r ->
  yields n (hi + 1) o c (match r with Finished c => next c | Panicked c => Panicked c | Exhausted => Exhausted end).
Proof.
  intros Ho Hhi. destruct o as [[p w] l], r as [c1|c1|]; simpl; try done.
  intros (-> & <- & He & Hlo). rewrite Ho by lia. simpl. repeat split; [done|lia|lia].
Qed.

(** A guard at index [i], [rest] being what follows it. *)
Lemma exec_guard n next h (rest : W -> bool * W * list nat) hi :
  over n next -> 63 <= hi -> hi <= 125 -> n <= 63 ->
  forall i, 0 <= i < n ->
  (forall c, c_index c = i -> yields n hi (rest (c_world c)) c (next c)) ->
  forall c, guard h -> calls h 2 -> c_index c = i ->
  let '(v, w) := verdict_of h (c_world c) in
  match v with
  | Passed rescue =>
    (rescue = Crash /\ exec next h c = Finished (set_world w c)) \/
    yields n (hi + 1) (rescued rescue (rest w)) c (exec next h c)
  | Stopped => yields n hi (false, w, []) c (exec next h c)
  | Crashed => yields n hi (true, w, []) c (exec next h c)
  end.
Proof.
  intros Ho Hhi Hhi' Hn i Hi Hnext. induction h as [| |A m k IH|rescue _ k _|h _]; intros c Hg Hc Hci; simpl.
  - left. by destruct c.
  - by rewrite app_nil_r.
  - destruct (m (c_world c)) as [a w]. specialize (IH a (set_world w c) (Hg a) (Hc a) Hci). exact IH.
  - right. destruct Hg as [Hr Hq], Hc as [_ Hk]. specialize (Hnext c Hci).
    destruct (rest (c_world c)) as [[p w] l]. destruct (next c) as [c1|c1|]; [| |done].
    + destruct Hnext as (-> & <- & He & Hlo).
      pose proof (exec_quiet n next k Ho Hq 1 c1 Hk ltac:(lia) ltac:(lia)) as H. simpl.
      rewrite <- (app_nil_r l). eapply yields_app; [done|]. eapply yields_wider; [exact H|lia|lia].
    + destruct Hnext as (-> & <- & He). simpl. pose proof (exec_aborts next rescue n (hi + 1) c1 Hr ltac:(lia)) as H.
      destruct (verdict_of rescue (c_world c1)) as [v w]. rewrite <- (app_nil_r l). by eapply yields_app.
  - pose proof (exec_plain next h n hi (set_index abortIndex c) Hg ltac:(simpl; unfold abortIndex; lia) ltac:(lia)) as H.
    simpl in H. destruct (verdict_of h (c_world c)) as [[] w]; exact H.
Qed.

Lemma serve_over fuel hs c : (length hs <= 21)%nat -> Z.of_nat (length hs) <= c_index c -> serve (S fuel) hs c = Finished c.
Proof. intros Hn Hi. cbn [serve]. rewrite swrap_id by lia. by rewrite (proj2 (Z.ltb_ge _ _)) by lia. Qed.

Lemma serve_next_over fuel hs : (length hs <= 21)%nat ->
  over (Z.of_nat (length hs)) (call_next (S fuel) hs).
Proof.
  intros Hn c Hc. unfold call_next, incr. rewrite swrap_id by lia. apply serve_over; simpl; [done|lia].
Qed.

Lemma serve_pipeline fuel hs : (length hs <= 21)%nat -> Forall guard hs -> Forall (fun h => calls h 2) hs ->
  forall i c, c_index c = Z.of_nat i -> (i <= length hs)%nat -> (length hs - i < fuel)%nat ->
  yields (Z.of_nat (length hs)) (63 + 3 * (Z.of_nat (length hs) - Z.of_nat i)) (pipeline i (drop i hs) (c_world c)) c
    (serve fuel hs c).
Proof.
  intros Hn Hg Hc. set (n := Z.of_nat (length hs)). induction fuel as [|fuel IH]; intros i c Hi Hin Hfuel; [lia|].
  destruct (decide (i = length hs)) as [->|Hne].
  { rewrite drop_ge by done. rewrite serve_over by lia. simpl. rewrite app_nil_r. repeat split; lia. }
  destruct fuel as [|fuel]; [lia|].
  destruct (lookup_lt_is_Some_2 hs i ltac:(lia)) as [h Hh].
  rewrite (drop_S _ _ _ Hh). remember (S fuel) as f eqn:Ef. cbn [serve pipeline]. rewrite swrap_id by lia.
  rewrite Hi. rewrite (proj2 (Z.ltb_lt _ _)), (proj2 (Z.ltb_ge _ _)), Nat2Z.id, Hh by lia.
  assert (forall c1, c_index c1 = Z.of_nat i ->
    yields n (63 + 3 * (n - Z.of_nat (S i))) (pipeline (S i) (drop (S i) hs) (c_world c1)) c1 (call_next f hs c1)) as Hrest.
  { intros c1 Hc1. unfold call_next. assert (c_index (incr c1) = Z.of_nat (S i)) as Hs.
    { simpl. rewrite Hc1, swrap_id by lia. lia. }
    specialize (IH (S i) (incr c1) Hs ltac:(lia) ltac:(lia)).
    by apply (yields_entered _ _ _ _ (incr c1)). }
  rewrite Forall_lookup in Hg, Hc.
  assert (over n (call_next f hs)) as Hover by (subst f; by apply serve_next_over).
  pose proof (exec_guard n (call_next f hs) h (pipeline (S i) (drop (S i) hs)) (63 + 3 * (n - Z.of_nat (S i))) Hover
    ltac:(lia) ltac:(lia) ltac:(lia) (Z.of_nat i) ltac:(lia) Hrest (enter c) (Hg _ _ Hh) (Hc _ _ Hh) Hi) as H.
  change (c_world (enter c)) with (c_world c) in H. fold (call_next f hs).
  assert (He : c_entered (enter c) = (c_entered c ++ [i])%list) by (simpl; by rewrite Hi, Nat2Z.id).
  destruct (verdict_of h (c_world c)) as [[rescue| |] w].
  - destruct H as [[-> H]|H].
    + rewrite H. specialize (Hrest (set_world w (enter c)) Hi). simpl c_world in Hrest. rewrite rescued_crash.
      destruct (pipeline (S i) _ w) as [[p w'] l]. eapply (yields_app _ _ _ _ [i]); [exact He|].
      eapply yields_wider; [exact Hrest|lia|lia].
    + destruct (rescued rescue _) as [[p w'] l]. eapply (yields_app _ _ _ _ [i]); [exact He|].
      apply (loop_end _ _ _ _ _ _ Hover) in H; [|lia]. eapply yields_wider; [exact H|lia|lia].
  - eapply (yields_app _ _ _ _ [i] []); [exact He|]. apply (loop_end _ _ _ _ _ _ Hover) in H; [|lia].
    eapply yields_wider; [exact H|lia|lia].
  - eapply (yields_app _ _ _ _ [i] []); [exact He|]. apply (loop_end _ _ _ _ _ _ Hover) in H; [|lia].
    eapply yields_wider; [exact H|lia|lia].
Qed.

End Walk.

(** * Joining paths *)

Section Paths.
Open Scope list_scope.

(** A path in normal form: [/s1/s2...], empty for no segment. *)
Definition slashed (segs : list string) : list ascii := mjoin ((fun s => slash :: chars s) <$> segs).
Definition path_of (segs : list string) : string := of_chars (slashed segs).

(** A segment that [path.Clean] keeps. *)
Definition segment (s : string) : Prop := s <> "" /\ s <> "." /\ s <> ".." /\ slash ∉ chars s.
#[export] Instance segment_dec s : Decision (segment s).
Proof. unfold segment. apply _. Defined.

Lemma clean_elems_segments l : forall out, Forall (fun s => s = "" \/ segment s) l ->
  clean_elems true out l = rev out ++ filter (fun s => s <> "") l.
Proof.
  induction l as [|s l IH]; intros out Hl; [by rewrite app_nil_r|]. apply Forall_cons in Hl as [Hs Hl]. cbn [clean_elems].
  destruct Hs as [->|(H1 & H2 & H3 & _)].
  - rewrite (filter_cons_False (fun s => s <> "")) by naive_solver. by apply IH.
  - rewrite !(bool_decide_eq_false_2 (s = _)) by done. rewrite (filter_cons_True (fun s => s <> "")) by done.
    cbn [orb]. rewrite IH by done. cbn [rev]. by rewrite <- app_assoc.
Qed.

Lemma chars_Join_slash x l : chars (GoStrings.Join (x :: l) "/") = (chars x ++ slashed l)%list.
Proof.
  unfold GoStrings.Join, slashed. revert x. induction l as [|y l IH]; intros x; [by rewrite app_nil_r|].
  cbn [fold_left]. rewrite IH, !chars_append, <- app_assoc. done.
Qed.

Lemma Clean_segments p : HasPrefix p "/" = true -> Forall (fun s => s = "" \/ segment s) (Split1 p slash) ->
  filter (fun s => s <> "") (Split1 p slash) <> [] -> Clean p = path_of (filter (fun s => s <> "") (Split1 p slash)).
Proof.
  intros Hp Hs Hne. unfold Clean. rewrite Hp, clean_elems_segments by done. cbn [rev app].
  destruct (filter _ _) as [|x l]; [done|]. apply chars_inj. unfold path_of. rewrite chars_of_chars.
  change (chars (String slash (GoStrings.Join (x :: l) "/"))) with (slash :: chars (GoStrings.Join (x :: l) "/")).
  by rewrite chars_Join_slash.
Qed.

Lemma split_head l : split_on slash (slash :: l) = [] :: split_on slash l.
Proof. apply (split_on_app_sep slash []), not_elem_of_nil. Qed.

Lemma split_slashed segs l : Forall (fun s => slash ∉ chars s) segs ->
  split_on slash (slashed segs ++ slash :: l) = ([] :: (chars <$> segs) ++ split_on slash l)%list.
Proof.
  induction 1 as [|s segs Hs _ IH].
  - cbn [slashed app fmap list_fmap mjoin list_join]. apply split_head.
  - unfold slashed in *. cbn [fmap list_fmap mjoin list_join]. rewrite <- !app_comm_cons, <- app_assoc.
    rewrite split_head. f_equal.
    destruct (mjoin _ ++ slash :: l)%list as [|c m] eqn:Hm; [by destruct (mjoin _)|].
    assert (c = slash) as ->.
    { destruct segs; cbn in Hm; by injection Hm as <- _. }
    rewrite split_on_app_sep by done. rewrite split_head in IH.
    injection IH as ->. done.
Qed.

Lemma split_path segs : segs <> [] -> Forall (fun s => slash ∉ chars s) segs ->
  split_on slash (slashed segs) = [] :: (chars <$> segs).
Proof.
  intros Hne Hs. induction segs as [|s segs _] using rev_ind; [done|]. apply Forall_app in Hs as [Hs Hx].
  unfold slashed. rewrite fmap_app, join_app. cbn [fmap list_fmap mjoin list_join]. rewrite app_nil_r.
  fold (slashed segs). rewrite split_slashed by done. rewrite split_on_fresh by (by apply Forall_inv in Hx).
  by rewrite fmap_app.
Qed.

Lemma filter_segments segs : Forall segment segs -> filter (fun s => s <> "") segs = segs.
Proof. induction 1 as [|s l [Hs _] _ IH]; [done|]. rewrite (filter_cons_True (fun s => s <> "")) by done. by rewrite IH. Qed.

Lemma HasSuffix_slash l c : HasSuffix (of_chars (l ++ [c])%list) "/" = bool_decide (c = slash).
Proof.
  unfold HasSuffix. rewrite chars_of_chars, rev_app_distr. cbn [rev app is_prefix chars String.list_ascii_of_string].
  rewrite andb_true_r. apply bool_decide_ext. unfold slash. naive_solver.
Qed.

(** A normal path does not end with a slash. *)
Lemma path_no_slash segs : segs <> [] -> Forall segment segs -> HasSuffix (path_of segs) "/" = false.
Proof.
  intros Hne Hs. destruct segs as [|s segs _] using rev_ind; [done|]. apply Forall_app in Hs as [_ Hx].
  apply Forall_inv in Hx as (Hne' & _ & _ & Hf). unfold path_of, slashed. rewrite fmap_app, join_app.
  cbn [fmap list_fmap mjoin list_join]. rewrite app_nil_r.
  destruct (chars s) as [|c l _] eqn:Hc using rev_ind.
  { exfalso. apply Hne'. apply chars_inj. done. }
  rewrite app_comm_cons, app_assoc, HasSuffix_slash. apply bool_decide_eq_false. intros ->. apply Hf.
  apply elem_of_app. right. by apply list_elem_of_singleton.
Qed.

(** [path.Clean] of a rooted text, from the pieces between its slashes. *)
Lemma Clean_pieces p l parts : chars p = slash :: l -> split_on slash l = parts ->
  Forall (fun s => s = "" \/ segment s) (of_chars <$> parts) ->
  filter (fun s => s <> "") (of_chars <$> parts) <> [] ->
  Clean p = path_of (filter (fun s => s <> "") (of_chars <$> parts)).
Proof.
  intros Hp Hl Hs Hne. assert (Split1 p slash = "" :: (of_chars <$> parts)) as He.
  { unfold Split1. rewrite Hp, split_head, Hl. done. }
  assert (filter (fun s => s <> "") (Split1 p slash) = filter (fun s => s <> "") (of_chars <$> parts)) as Hf.
  { rewrite He. by rewrite (filter_cons_False (fun s => s <> "")) by naive_solver. }
  rewrite <- Hf. apply Clean_segments; [|rewrite He; constructor; auto|by rewrite Hf].
  unfold HasPrefix. rewrite Hp. reflexivity.
Qed.

Lemma segments_pieces segs : Forall segment segs -> Forall (fun s => s = "" \/ segment s) segs.
Proof. intros H. eapply Forall_impl; [exact H|]. auto. Qed.

Lemma of_chars_segments (segs : list string) : of_chars <$> (chars <$> segs) = segs.
Proof. rewrite <- list_fmap_compose. rewrite <- (list_fmap_id segs) at 2. apply list_fmap_ext. intros i s _. apply of_chars_chars. Qed.

Lemma fresh_segments segs : Forall segment segs -> Forall (fun s => slash ∉ chars s) segs.
Proof. intros H. eapply Forall_impl; [exact H|]. by intros s (_ & _ & _ & ?). Qed.

Lemma chars_path segs : segs <> [] -> chars (path_of segs) = slash :: tail (slashed segs).
Proof. intros Hne. unfold path_of. rewrite chars_of_chars. by destruct segs. Qed.

Lemma path_not_empty segs : segs <> [] -> path_of segs <> "".
Proof. intros Hne He. pose proof (chars_path segs Hne) as H. by rewrite He in H. Qed.

Lemma split_tail segs : segs <> [] -> Forall segment segs -> split_on slash (tail (slashed segs)) = chars <$> segs.
Proof.
  intros Hne Hs. pose proof (split_path segs Hne (fresh_segments _ Hs)) as H.
  destruct segs as [|s segs]; [done|]. unfold slashed in *. cbn [fmap list_fmap mjoin list_join tail] in *.
  rewrite <- app_comm_cons in H. rewrite split_head in H. by injection H.
Qed.

Lemma path_Join_two a b : a <> "" -> b <> "" -> path_Join [a; b] = Clean (a +++ "/" +++ b).
Proof.
  intros Ha Hb. unfold path_Join. cbn [List.filter]. by rewrite !bool_decide_eq_false_2 by done.
Qed.

(** A group may be written as a normal path, with a slash at its end, or
    without the one at its front. *)
Inductive group_path (segs : list string) : string -> bool -> Prop :=
| gp_normal : group_path segs (path_of segs) false
| gp_closed : group_path segs (path_of segs +++ "/") true
| gp_bare : segs <> [] -> group_path segs (of_chars (tail (slashed segs))) false.

Definition base_path (segs : list string) (closed : bool) : string :=
  if closed || bool_decide (segs = []) then path_of segs +++ "/" else path_of segs.

Lemma joinPaths_group segs base closed : Forall segment segs -> group_path segs base closed ->
  joinPaths "/" base = base_path segs closed.
Proof.
  intros Hs Hg. unfold joinPaths, base_path. destruct (decide (segs = [])) as [->|Hne].
  { destruct Hg; [done| |done]. vm_compute. done. }
  assert (Hclean : forall p l, chars p = slash :: slash :: l ->
    split_on slash l = (chars <$> segs) \/ split_on slash l = [] :: (chars <$> segs) \/
    split_on slash l = ([] :: (chars <$> segs) ++ [[]])%list -> Clean p = path_of segs).
  { intros p l Hp Hl.
    assert (filter (fun s => s <> "") (of_chars <$> [] :: split_on slash l) = segs /\
            Forall (fun s => s = "" \/ segment s) (of_chars <$> [] :: split_on slash l)) as [Hf Ha].
    { destruct Hl as [->|[->| ->]]; rewrite ?fmap_cons, ?fmap_app, ?of_chars_segments; change (of_chars []) with "";
        rewrite ?(filter_cons_False (fun s => s <> "")), ?filter_app by naive_solver;
        change (of_chars <$> [[]]) with [""];
        rewrite ?filter_segments, ?(filter_cons_False (fun s => s <> "")), ?filter_nil, ?app_nil_r by naive_solver;
        (split; [done|]); rewrite ?Forall_cons, ?Forall_app, ?Forall_singleton;
        pose proof (segments_pieces _ Hs); tauto. }
    rewrite <- Hf. eapply Clean_pieces; [exact Hp| |done|by rewrite Hf].
    apply split_head. }
  rewrite (bool_decide_eq_false_2 (segs = [])) by done.
  assert (Ht : chars (path_of segs) = slash :: tail (slashed segs)) by by apply chars_path.
  destruct Hg; cbn [orb].
  - rewrite (bool_decide_eq_false_2 (path_of segs = "")) by by apply path_not_empty.
    rewrite path_Join_two, (path_no_slash _ Hne Hs) by (try done; by apply path_not_empty). cbn [andb].
    apply (Hclean _ (slash :: tail (slashed segs))).
    + rewrite !chars_append, Ht. done.
    + right; left. rewrite split_head. by rewrite split_tail.
  - assert (path_of segs +++ "/" <> "") as Hn by (intros He; apply (f_equal chars) in He; by rewrite chars_append, Ht in He).
    rewrite (bool_decide_eq_false_2 (_ = "")) by done. rewrite path_Join_two by done.
    replace (Clean _) with (path_of segs).
    { rewrite (path_no_slash _ Hne Hs). cbn [negb andb].
      assert (path_of segs +++ "/" = of_chars (chars (path_of segs) ++ [slash])%list) as ->.
      { apply chars_inj. by rewrite chars_append, chars_of_chars. }
      by rewrite HasSuffix_slash, bool_decide_eq_true_2. }
    symmetry. apply (Hclean _ (slashed segs ++ [slash])%list).
    + rewrite !chars_append. unfold path_of. by rewrite chars_of_chars.
    + right; right. by rewrite split_slashed by by apply fresh_segments.
  - assert (of_chars (tail (slashed segs)) <> "") as Hn.
    { intros He. apply (f_equal chars) in He. rewrite chars_of_chars in He. pose proof (split_tail segs Hne Hs) as Hsp.
      rewrite He in Hsp. destruct segs as [|s segs]; [done|]. apply Forall_inv in Hs as [Hs' _].
      apply Hs', chars_inj. by injection Hsp. }
    rewrite (bool_decide_eq_false_2 (_ = "")) by done. rewrite path_Join_two by done.
    replace (HasSuffix (of_chars (tail (slashed segs))) "/") with false.
    2:{ symmetry. pose proof (path_no_slash _ Hne Hs) as Hp. unfold path_of in Hp. clear Hclean Hn.
        destruct (slashed segs) as [|c l] eqn:Hsl; [done|]. cbn [tail].
        destruct l as [|d l _] using rev_ind; [done|]. rewrite HasSuffix_slash. 
        rewrite app_comm_cons, HasSuffix_slash in Hp. done. }
    cbn [andb]. apply (Hclean _ (tail (slashed segs))).
    + by rewrite !chars_append, chars_of_chars.
    + left. by apply split_tail.
Qed.

(** The full path of a route. *)
Lemma joinPaths_route segs psegs closed : Forall segment segs -> Forall segment psegs -> psegs <> [] ->
  joinPaths (base_path segs closed) (path_of psegs) = path_of (segs ++ psegs).
Proof.
  intros Hs Hp Hne. unfold joinPaths. rewrite (bool_decide_eq_false_2 (path_of psegs = "")) by by apply path_not_empty.
  rewrite (path_no_slash _ Hne Hp). cbn [andb].
  assert (chars (path_of psegs) = slash :: tail (slashed psegs)) as Ht by by apply chars_path.
  assert (Hparts : forall l, l = [slash] \/ l = [] -> 
    filter (fun s => s <> "") (of_chars <$> split_on slash (l ++ slash :: tail (slashed psegs))%list) = psegs /\
    Forall (fun s => s = "" \/ segment s) (of_chars <$> split_on slash (l ++ slash :: tail (slashed psegs))%list)).
  { intros l [->| ->]; cbn [app]; rewrite !split_head;
      rewrite split_tail, ?fmap_cons, of_chars_segments by done; change (of_chars []) with "";
      rewrite ?(filter_cons_False (fun s => s <> "")) by naive_solver; rewrite filter_segments by done;
      (split; [done|]); rewrite ?Forall_cons; pose proof (segments_pieces _ Hp); tauto. }
  assert (Hroot : forall p l, l = [slash] \/ l = [] -> chars p = (slashed segs ++ slash :: l ++ slash :: tail (slashed psegs))%list ->
    Clean p = path_of (segs ++ psegs)).
  { intros p l Hl Hc. destruct (Hparts l Hl) as [Hf Ha].
    pose proof (split_slashed segs (l ++ slash :: tail (slashed psegs))%list (fresh_segments _ Hs)) as Hsp.
    rewrite <- Hc in Hsp.
    assert (exists m, chars p = slash :: m /\ split_on slash m = (chars <$> segs) ++ split_on slash (l ++ slash :: tail (slashed psegs)))
      as (m & Hm & Hsm).
    { destruct (chars p) as [|c m] eqn:Hcp; [by destruct (slashed segs)|]. assert (c = slash) as ->.
      { destruct segs; cbn in Hc; by injection Hc as -> _. }
      exists m. split; [done|]. rewrite split_head in Hsp. by injection Hsp. }
    replace (segs ++ psegs) with (filter (fun s => s <> "") (of_chars <$> (chars <$> segs) ++ split_on slash (l ++ slash :: tail (slashed psegs)))).
    2:{ by rewrite fmap_app, of_chars_segments, filter_app, filter_segments, Hf. }
    eapply Clean_pieces; [exact Hm|exact Hsm| |].
    - rewrite fmap_app, of_chars_segments. apply Forall_app. split; [by apply segments_pieces|done].
    - rewrite fmap_app, of_chars_segments, filter_app, filter_segments, Hf by done. by intros [_ ?]%app_nil. }
  assert (Hbase : base_path segs closed <> "").
  { unfold base_path. destruct (closed || bool_decide (segs = [])) eqn:Hc.
    - intros He%(f_equal chars). rewrite chars_append in He. by destruct (chars (path_of segs)).
    - apply path_not_empty. apply orb_false_iff in Hc as [_ Hc]. by apply bool_decide_eq_false in Hc. }
  rewrite path_Join_two by (try done; by apply path_not_empty). unfold base_path.
  destruct (closed || bool_decide (segs = [])); [apply (Hroot _ [slash])|apply (Hroot _ [])]; auto;
    rewrite !chars_append, Ht; unfold path_of; by rewrite chars_of_chars, <- ?app_assoc.
Qed.

End Paths.

(** * Properties *)

(** The walk over the handlers of a request ends, whatever the handlers do
    with the state and whether they abort or panic, when there are at most 21
    of them with at most two calls of [Next] each: every handler is entered at
    most once, in order, and the [int8] index never wraps around. *)
Theorem chain_walk {W} (hs : list (handler W)) (w : W) :
  (length hs <= 21)%nat -> Forall (fun h => calls h 2) hs ->
  match handleHTTPRequest hs w with
  | Finished c | Panicked c =>
    StronglySorted lt (c_entered c) /\ Forall (fun j => (j < length hs)%nat) (c_entered c) /\ 0 <= c_index c <= 126
  | Exhausted => False
  end.
Proof.
  intros Hn Hc. unfold handleHTTPRequest, call_next.
  assert (walk (length hs) 0 0 (incr (reset w))) as Hw by (split; simpl; try done; constructor).
  pose proof (serve_walk hs (S (length hs)) Hn Hc (incr (reset w)) 0 0 ltac:(done) ltac:(done) Hw ltac:(done)
    ltac:(constructor) ltac:(change (c_index (incr (reset w))) with 0; lia) ltac:(lia)) as H.
  destruct (serve _ hs _) as [c|c|]; simpl in H; [| |done];
    (destruct H as [H _]; pose proof (walk_high _ _ _ _ Hn H ltac:(done)); destruct H;
     split; [done|split; [|lia]]; eapply Forall_impl; [done|]; by intros j []).
Qed.

(** Guards behave as a pipeline: although [Next] re-enters the loop from
    inside the handlers, the state a request leaves, whether it panics and the
    handlers it enters are those of running the guards one after another until
    one aborts; a guard that called [Next] and recovers sees the panic of what
    follows it. *)
Theorem chain_pipeline {W} (hs : list (handler W)) (w : W) :
  (length hs <= 21)%nat -> Forall guard hs -> Forall (fun h => calls h 2) hs ->
  match handleHTTPRequest hs w with
  | Finished c => pipeline 0 hs w = (false, c_world c, c_entered c) /\ Z.of_nat (length hs) <= c_index c
  | Panicked c => pipeline 0 hs w = (true, c_world c, c_entered c)
  | Exhausted => False
  end.
Proof.
  intros Hn Hg Hc. pose proof (serve_pipeline (S (length hs)) hs Hn Hg Hc 0 (incr (reset w)) eq_refl ltac:(lia) ltac:(lia)) as H.
  rewrite drop_0 in H. unfold handleHTTPRequest, call_next. change (c_world (incr (reset w))) with w in H.
  destruct (pipeline 0 hs w) as [[p w'] l]. destruct (serve _ hs _) as [c|c|]; simpl in H; [| |done].
  - destruct H as (-> & <- & -> & ? & _). by split.
  - by destruct H as (-> & <- & ->).
Qed.

(** A chain that counts, with a handler that stops it in the middle. *)
Definition counting : list (handler nat) :=
  [Recovery (fun _ w => w); Next (Next Return); Run (st_modify S) (fun _ => Return);
   Run st_get (fun n => if (n =? 1)%nat then Abort (Run (st_modify S) (fun _ => Return)) else Return);
   Run (st_modify (fun _ => 100%nat)) (fun _ => Return)].

Lemma chain_walk_witness :
  (length counting <= 21)%nat /\ Forall (fun h => calls h 2) counting /\
  match handleHTTPRequest counting 0%nat with
  | Finished c => c_entered c = [0; 1; 2; 3]%nat /\ c_world c = 2%nat /\ 0 <= c_index c <= 126
  | _ => False
  end.
Proof.
  assert (length counting <= 21)%nat as Hn by (simpl; lia).
  assert (Forall (fun h => calls h 2) counting) as Hc.
  { unfold counting. rewrite !Forall_cons. simpl. split_and!; try done; intros n; by destruct (n =? 1)%nat. }
  split; [done|]. split; [done|]. pose proof (chain_walk counting 0%nat Hn Hc) as H.
  vm_compute in H |- *. tauto.
Defined.

Lemma chain_pipeline_witness :
  Forall guard counting /\ pipeline 0 counting 0%nat = (false, 2%nat, [0; 1; 2; 3]%nat) /\
  match handleHTTPRequest counting 0%nat with Finished c => c_world c = 2%nat | _ => False end.
Proof.
  assert (Forall guard counting) as Hg.
  { unfold counting. rewrite !Forall_cons. simpl. split_and!; try done; intros n; by destruct (n =? 1)%nat. }
  assert (Forall (fun h => calls h 2) counting) as Hc.
  { unfold counting. rewrite !Forall_cons. simpl. split_and!; try done; intros n; by destruct (n =? 1)%nat. }
  split; [done|]. split; [reflexivity|].
  pose proof (chain_pipeline counting 0%nat ltac:(simpl; lia) Hg Hc) as H.
  vm_compute in H |- *. by destruct H.
Defined.
