(* ===== verification/Json.v ===== *)
(** The JSON texts of [encoding/json] and the unpadded URL alphabet of
    [encoding/base64]: what the middleware of the web service uses of them to
    read and write tokens.  The text of a syntax error is left to its users. *)

From S2P Require Import Prelude GoInt GoFloat GoStrings GoStrconv SmsText.
Open Scope string_scope.
Open Scope Z_scope.

(** * Values *)

(** Literals keep their text, which the decoders of Go types see. *)
#[warnings="-register-all"] Inductive json :=
| VNull
| VBool (b : bool)
| VNumber (item : string)
| VString (item val : string)
| VArray (l : list json)
| VObject (l : list (string * json)).

(** * Scanning *)

Definition is_ws (c : ascii) : bool :=
  (ord c =? 32) || (ord c =? 9) || (ord c =? 10) || (ord c =? 13).
Definition skip_ws (l : list ascii) : list ascii := drop_while is_ws l.

Definition is_hex (c : ascii) : bool := bool_decide (is_Some (digit_of 16 c)).

(** A string after its opening quote: its text up to the closing quote. *)
Fixpoint scan_string (l : list ascii) : option (list ascii * list ascii) :=
  match l with
  | [] => None
  | c :: l1 =>
    if ord c =? 34 then Some ([], l1)
    else if ord c <? 32 then None
    else if ord c =? 92 then
      match l1 with
      | e :: l2 =>
        if ord e =? 117 then
          match l2 with
          | a :: b :: x :: y :: l3 =>
            if is_hex a && is_hex b && is_hex x && is_hex y then
              '(s, rest) ← scan_string l3; Some (c :: e :: a :: b :: x :: y :: s, rest)
            else None
          | _ => None
          end
        else if bool_decide (ord e ∈ [98; 102; 110; 114; 116; 92; 47; 34]) then
          '(s, rest) ← scan_string l2; Some (c :: e :: s, rest)
        else None
      | [] => None
      end
    else '(s, rest) ← scan_string l1; Some (c :: s, rest)
  end.

Fixpoint span {A} (f : A -> bool) (l : list A) : list A * list A :=
  match l with
  | x :: l' => if f x then let '(s, r) := span f l' in (x :: s, r) else ([], l)
  | [] => ([], [])
  end.

(** One or more digits. *)
Definition scan_digits (l : list ascii) : option (list ascii * list ascii) :=
  match span is_digit l with ([], _) => None | r => Some r end.

(** A number at the head of a text: a sign, an integer without leading zeros, a
    fraction and an exponent. *)
Definition scan_int (l : list ascii) : option (list ascii * list ascii) :=
  match l with
  | c :: l' => if ord c =? 48 then Some ([c], l') else scan_digits l
  | [] => None
  end.
Definition scan_frac (l : list ascii) : option (list ascii * list ascii) :=
  match l with
  | c :: l' => if ord c =? 46 then '(ds, r) ← scan_digits l'; Some (c :: ds, r) else Some ([], l)
  | [] => Some ([], [])
  end.
Definition scan_exp (l : list ascii) : option (list ascii * list ascii) :=
  match l with
  | c :: l1 =>
    if (ord c =? 101) || (ord c =? 69) then
      match l1 with
      | g :: l2 =>
        if (ord g =? 43) || (ord g =? 45) then '(ds, r) ← scan_digits l2; Some (c :: g :: ds, r)
        else '(ds, r) ← scan_digits l1; Some (c :: ds, r)
      | [] => None
      end
    else Some ([], l)
  | [] => Some ([], [])
  end.
Definition scan_number (l : list ascii) : option (list ascii * list ascii) :=
  let '(sign, l) := match l with
                    | c :: l' => if ord c =? 45 then ([c], l') else ([], l)
                    | [] => ([], l)
                    end in
  '(i, l) ← scan_int l; '(f, l) ← scan_frac l; '(e, l) ← scan_exp l;
  Some (sign ++ i ++ f ++ e, l)%list.

Definition isValidNumber (s : string) : bool :=
  match scan_number (chars s) with Some (_, []) => true | _ => false end.

(** * Strings *)

Definition hex4 (a b c d : ascii) : Z :=
  default 0 (digits_value 16 0 <$> mapM (digit_of 16) [a; b; c; d]).

Definition unescape (e : ascii) : ascii :=
  let o := ord e in
  if o =? 98 then chr 8 else if o =? 102 then chr 12 else if o =? 110 then chr 10
  else if o =? 114 then chr 13 else if o =? 116 then chr 9 else e.

(** The code unit of [\uXXXX] at the head of a text. *)
Definition getu4 (l : list ascii) : option (Z * list ascii) :=
  match l with
  | s :: u :: a :: b :: c :: d :: l =>
    if (ord s =? 92) && (ord u =? 117) && is_hex a && is_hex b && is_hex c && is_hex d then Some (hex4 a b c d, l) else None
  | _ => None
  end.

(** [unquote] of what [scan_string] returns: escapes, pairs of surrogates, and
    the replacement of bytes that are no UTF-8. *)
Fixpoint unquote (fuel : nat) (l : list ascii) : list ascii :=
  match fuel, l with
  | S fuel, c :: l1 =>
    if ord c =? 92 then
      match getu4 l with
      | Some (u, l2) =>
        if is_surrogate u then
          match getu4 l2 with
          | Some (v, l3) =>
            if (u <? 0xdc00) && (0xdc00 <=? v) && (v <? 0xe000)
            then (chr <$> utf8_encode (Z.lor (Z.shiftl (u - 0xd800) 10) (v - 0xdc00) + 0x10000)) ++ unquote fuel l3
            else (chr <$> utf8_encode replacement) ++ unquote fuel l2
          | None => (chr <$> utf8_encode replacement) ++ unquote fuel l2
          end
        else (chr <$> utf8_encode u) ++ unquote fuel l2
      | None => match l1 with e :: l2 => unescape e :: unquote fuel l2 | [] => [] end
      end
    else
      let w := rune_width l in
      if (128 <=? ord c) && (w =? 1)%nat then (chr <$> utf8_encode replacement) ++ unquote fuel l1
      else take w l ++ unquote fuel (drop w l)
  | _, _ => []
  end%list.

Definition quote_char : ascii := chr 34.
Definition string_value (raw : list ascii) : json :=
  VString (of_chars (quote_char :: raw ++ [quote_char])%list) (of_chars (unquote (length raw) raw)).

(** * Documents *)

Definition maxNestingDepth : Z := 10000.

Definition literal (word : string) (v : json) (l : list ascii) : option (json * list ascii) :=
  if is_prefix (chars word) l then Some (v, drop (strlen word) l) else None.

(** A value at the head of a text, inside [depth] arrays and objects. *)
Fixpoint value (fuel : nat) (depth : Z) (l : list ascii) {struct fuel} : option (json * list ascii) :=
  match fuel with
  | O => None
  | S fuel =>
    match skip_ws l with
    | [] => None
    | (c :: l1) as l0 =>
      let o := ord c in
      if o =? 34 then '(raw, rest) ← scan_string l1; Some (string_value raw, rest)
      else if o =? 91 then
        if maxNestingDepth <? depth + 1 then None else
        match skip_ws l1 with
        | e :: l2 => if ord e =? 93 then Some (VArray [], l2)
                     else '(vs, rest) ← elements fuel (depth + 1) l1; Some (VArray vs, rest)
        | [] => None
        end
      else if o =? 123 then
        if maxNestingDepth <? depth + 1 then None else
        match skip_ws l1 with
        | e :: l2 => if ord e =? 125 then Some (VObject [], l2)
                     else '(vs, rest) ← members fuel (depth + 1) l1; Some (VObject vs, rest)
        | [] => None
        end
      else if o =? 116 then literal "true" (VBool true) l0
      else if o =? 102 then literal "false" (VBool false) l0
      else if o =? 110 then literal "null" VNull l0
      else '(item, rest) ← scan_number l0; Some (VNumber (of_chars item), rest)
    end
  end
with elements (fuel : nat) (depth : Z) (l : list ascii) {struct fuel} : option (list json * list ascii) :=
  match fuel with
  | O => None
  | S fuel =>
    '(v, rest) ← value fuel depth l;
    match skip_ws rest with
    | c :: rest =>
      if ord c =? 44 then '(vs, rest) ← elements fuel depth rest; Some (v :: vs, rest)
      else if ord c =? 93 then Some ([v], rest) else None
    | [] => None
    end
  end
with members (fuel : nat) (depth : Z) (l : list ascii) {struct fuel} : option (list (string * json) * list ascii) :=
  match fuel with
  | O => None
  | S fuel =>
    match skip_ws l with
    | q :: l1 =>
      if negb (ord q =? 34) then None else
      '(raw, rest) ← scan_string l1;
      match skip_ws rest with
      | c :: rest =>
        if negb (ord c =? 58) then None else
        '(v, rest) ← value fuel depth rest;
        let key := of_chars (unquote (length raw) raw) in
        match skip_ws rest with
        | d :: rest =>
          if ord d =? 44 then '(vs, rest) ← members fuel depth rest; Some ((key, v) :: vs, rest)
          else if ord d =? 125 then Some ([(key, v)], rest) else None
        | [] => None
        end
      | [] => None
      end
    | [] => None
    end
  end.

(** A whole text; every step of the parser reads a character or descends from a
    [members] or [elements] into a [value]. *)
Definition parse_json (l : list ascii) : option json :=
  match value (2 * length l + 2) 0 l with
  | Some (v, rest) => match skip_ws rest with [] => Some v | _ => None end
  | None => None
  end.

(** A text written with single quotes for double ones. *)
Definition quoted (s : string) : string :=
  of_chars ((fun c => if ord c =? 39 then quote_char else c) <$> chars s).

Example json_doc :
  parse_json (chars (quoted " {'Id': 1, 'a':[true ,null,-1.5e3],'\u00e9':'x\n'} ")) =
  Some (VObject [("Id", VNumber "1"); ("a", VArray [VBool true; VNull; VNumber "-1.5e3"]);
                 ("é", VString (quoted "'x\n'") (of_chars [chr 120; chr 10]))]).
Proof. vm_compute. reflexivity. Qed.
Example json_bad : parse_json <$> (chars ∘ quoted <$> ["{'a':01}"; "[1,]"; "'a"; "{} {}"; "-"]) = [None; None; None; None; None].
Proof. vm_compute. reflexivity. Qed.

(** * [base64.RawURLEncoding] *)

Definition base64_alphabet : list ascii :=
  chars "ABCDEFGHIJKLMNOPQRSTUVWXYZabcdefghijklmnopqrstuvwxyz0123456789-_".

Definition base64_char (v : Z) : ascii := nth (Z.to_nat v) base64_alphabet (chr 0).
Definition base64_digit (c : ascii) : option Z := Z.of_nat ∘ fst <$> list_find (eq c) base64_alphabet.

Fixpoint base64_encode (l : list Z) : list ascii :=
  match l with
  | [] => []
  | [a] => [base64_char (Z.shiftr a 2); base64_char (Z.land (Z.shiftl a 4) 63)]
  | [a; b] =>
    [base64_char (Z.shiftr a 2); base64_char (Z.lor (Z.land (Z.shiftl a 4) 63) (Z.shiftr b 4));
     base64_char (Z.land (Z.shiftl b 2) 63)]
  | a :: b :: c :: l =>
    base64_char (Z.shiftr a 2) :: base64_char (Z.lor (Z.land (Z.shiftl a 4) 63) (Z.shiftr b 4)) ::
    base64_char (Z.lor (Z.land (Z.shiftl b 2) 63) (Z.shiftr c 6)) :: base64_char (Z.land c 63) :: base64_encode l
  end.
Definition EncodeToString (l : list Z) : string := of_chars (base64_encode l).

(** The bytes of a group of digits; two digits carry one byte, three carry two,
    and the bits left over are ignored. *)
Definition base64_bytes (ds : list Z) : option (list Z) :=
  match ds with
  | [] => Some []
  | [a; b] => Some [Z.lor (u8 (Z.shiftl a 2)) (Z.shiftr b 4)]
  | [a; b; c] => Some [Z.lor (u8 (Z.shiftl a 2)) (Z.shiftr b 4); Z.lor (u8 (Z.shiftl b 4)) (Z.shiftr c 2)]
  | [a; b; c; d] =>
    Some [Z.lor (u8 (Z.shiftl a 2)) (Z.shiftr b 4); Z.lor (u8 (Z.shiftl b 4)) (Z.shiftr c 2);
          Z.lor (u8 (Z.shiftl c 6)) d]
  | _ => None
  end.

(** [DecodeString], or the offset of the error: line breaks are skipped, any
    other byte outside the alphabet is an error. *)
Fixpoint base64_decode (pos : Z) (group : list Z) (l : list ascii) : list Z + Z :=
  match l with
  | [] => match base64_bytes group with Some bs => inl bs | None => inr (pos - Z.of_nat (length group)) end
  | c :: l =>
    match base64_digit c with
    | Some v =>
      match (group ++ [v])%list with
      | [a; b; x; y] as g =>
        match base64_decode (pos + 1) [] l with
        | inl bs => inl (default [] (base64_bytes g) ++ bs)%list
        | inr p => inr p
        end
      | g => base64_decode (pos + 1) g l
      end
    | None =>
      if (ord c =? 10) || (ord c =? 13) then base64_decode (pos + 1) group l else inr pos
    end
  end.
Definition DecodeString (s : string) : list Z + Z := base64_decode 0 [] (chars s).

Example base64_1 : EncodeToString (string_bytes (quoted "{'alg':'HS256','typ':'JWT'}")) = "eyJhbGciOiJIUzI1NiIsInR5cCI6IkpXVCJ9".
Proof. vm_compute. reflexivity. Qed.
Example base64_2 : DecodeString "YWJj-_8" = inl [97; 98; 99; 251; 255]. Proof. vm_compute. reflexivity. Qed.
Example base64_3 : (DecodeString "YWJjY", DecodeString "YW=j") = (inr 4, inr 2). Proof. vm_compute. reflexivity. Qed.

(** * Facts *)

(** ** Base64 *)

Definition below (n : Z) (f : Z -> bool) : bool := forallb f (seqZ 0 n).
Lemma below_spec n f x : below n f = true -> 0 <= x < n -> f x = true.
Proof. unfold below. rewrite forallb_forall. intros H Hx. apply H, list_elem_of_In, elem_of_seqZ. lia. Qed.
Lemma below2_spec n m f x y :
  below n (fun x => below m (f x)) = true -> 0 <= x < n -> 0 <= y < m -> f x y = true.
Proof. intros H Hx Hy. apply (below_spec m (f x)); [|done]. exact (below_spec n _ x H Hx). Qed.

(** A claim about two small numbers by looking at all of them. *)
Ltac table2 n m x y :=
  apply Z.eqb_eq; pattern x, y;
  match goal with |- (fun a b => @?f a b = true) _ _ => apply (below2_spec n m f x y); [by vm_compute|lia|lia] end.

Lemma base64_digit_char v : 0 <= v < 64 -> base64_digit (base64_char v) = Some v.
Proof.
  intros Hv. pose proof (below_spec 64 (fun v => bool_decide (base64_digit (base64_char v) = Some v)) v) as H.
  apply bool_decide_eq_true_1 in H; [done|by vm_compute|done].
Qed.

Lemma sextet_first a : 0 <= a < 256 -> Z.shiftr a 2 = a / 4.
Proof. intros. by rewrite Z.shiftr_div_pow2. Qed.
Lemma sextet_second a b : 0 <= a < 256 -> 0 <= b < 256 ->
  Z.lor (Z.land (Z.shiftl a 4) 63) (Z.shiftr b 4) = 16 * (a mod 4) + b / 16.
Proof.
  intros Ha Hb. table2 256 256 a b.
Qed.
Lemma sextet_third b c : 0 <= b < 256 -> 0 <= c < 256 ->
  Z.lor (Z.land (Z.shiftl b 2) 63) (Z.shiftr c 6) = 4 * (b mod 16) + c / 64.
Proof.
  intros Hb Hc. table2 256 256 b c.
Qed.
Lemma sextet_last c : 0 <= c < 256 -> Z.land c 63 = c mod 64.
Proof. intros _. change 63 with (Z.ones 6). by rewrite Z.land_ones. Qed.

Lemma octet_first x y : 0 <= x < 64 -> 0 <= y < 64 -> Z.lor (u8 (Z.shiftl x 2)) (Z.shiftr y 4) = 4 * x + y / 16.
Proof. intros Hx Hy. table2 64 64 x y. Qed.
Lemma octet_second x y : 0 <= x < 64 -> 0 <= y < 64 ->
  Z.lor (u8 (Z.shiftl x 4)) (Z.shiftr y 2) = 16 * (x mod 16) + y / 4.
Proof. intros Hx Hy. table2 64 64 x y. Qed.
Lemma octet_third x y : 0 <= x < 64 -> 0 <= y < 64 -> Z.lor (u8 (Z.shiftl x 6)) y = 64 * (x mod 4) + y.
Proof. intros Hx Hy. table2 64 64 x y. Qed.

Ltac euclid := Z.to_euclidean_division_equations; lia.

(** A last group of one or two bytes. *)
Lemma encode_1 a : 0 <= a < 256 -> Z.land (Z.shiftl a 4) 63 = 16 * (a mod 4).
Proof.
  intros Ha. pose proof (sextet_second a 0 Ha ltac:(lia)) as H.
  change (Z.shiftr 0 4) with 0 in H. change (0 / 16) with 0 in H. by rewrite Z.lor_0_r, Z.add_0_r in H.
Qed.
Lemma encode_2 b : 0 <= b < 256 -> Z.land (Z.shiftl b 2) 63 = 4 * (b mod 16).
Proof.
  intros Hb. pose proof (sextet_third b 0 Hb ltac:(lia)) as H.
  change (Z.shiftr 0 6) with 0 in H. change (0 / 64) with 0 in H. by rewrite Z.lor_0_r, Z.add_0_r in H.
Qed.

(** A digit that does not complete its group, and one that does. *)
Lemma decode_digit pos g v l : 0 <= v < 64 -> (length g < 3)%nat ->
  base64_decode pos g (base64_char v :: l) = base64_decode (pos + 1) (g ++ [v])%list l.
Proof.
  intros Hv Hg. cbn [base64_decode]. rewrite base64_digit_char by done.
  by destruct g as [|? [|? [|? ?]]]; [| | |simpl in Hg; lia].
Qed.
Lemma decode_group pos x y z v l : 0 <= v < 64 ->
  base64_decode pos [x; y; z] (base64_char v :: l) =
  match base64_decode (pos + 1) [] l with
  | inl bs => inl (default [] (base64_bytes [x; y; z; v]) ++ bs)%list
  | inr p => inr p
  end.
Proof. intros Hv. cbn [base64_decode]. by rewrite base64_digit_char. Qed.

Lemma base64_decode_encode n : forall l pos, (length l <= n)%nat -> bytes_ok l -> base64_decode pos [] (base64_encode l) = inl l.
Proof.
  induction n as [|n IH]; intros l pos Hn Hl; [by destruct l; simpl in Hn; try lia|].
  unfold bytes_ok in *. destruct l as [|a [|b [|c l]]]; [done| | |];
    repeat match goal with H : Forall _ (_ :: _) |- _ => apply Forall_cons in H as [? H] end;
    unfold is_byte, in_range in *; cbn [base64_encode].
  - rewrite encode_1, sextet_first, !decode_digit by (euclid || (cbn [length app]; lia)). cbn [app base64_decode base64_bytes].
    rewrite octet_first by euclid. do 2 f_equal. euclid.
  - rewrite encode_2, sextet_second, sextet_first, !decode_digit by (euclid || (cbn [length app]; lia)).
    cbn [app base64_decode base64_bytes].
    rewrite octet_first, octet_second by euclid. do 2 f_equal; [|f_equal]; euclid.
  - rewrite sextet_third, sextet_second, sextet_first, sextet_last by lia.
    do 3 rewrite decode_digit by (euclid || (cbn [length app]; lia)).
    cbn [app]. rewrite decode_group by euclid. cbn [base64_bytes].
    rewrite octet_first, octet_second, octet_third by euclid. simpl in Hn. rewrite IH by (done || lia).
    cbn [from_option id app].
    do 2 f_equal; [|f_equal; [|f_equal]]; euclid.
Qed.

(** [DecodeString] inverts [EncodeToString]. *)
Lemma base64_inverse l : bytes_ok l -> DecodeString (EncodeToString l) = inl l.
Proof.
  intros Hl. unfold DecodeString, EncodeToString. rewrite String.list_ascii_of_string_of_list_ascii.
  by apply (base64_decode_encode (length l)).
Qed.

(** What is encoded has no dot. *)
Lemma base64_char_dot v : 0 <= v < 64 -> base64_char v <> chr 46.
Proof.
  intros Hv. pose proof (below_spec 64 (fun v => bool_decide (base64_char v <> chr 46)) v) as H.
  apply bool_decide_eq_true_1 in H; [done|by vm_compute|done].
Qed.
Lemma base64_no_dot n : forall l, (length l <= n)%nat -> bytes_ok l -> chr 46 ∉ base64_encode l.
Proof.
  induction n as [|n IH]; intros l Hn Hl; [destruct l; simpl in Hn; [apply not_elem_of_nil|lia]|].
  assert (Hne : forall v r, 0 <= v < 64 -> chr 46 ∉ r -> chr 46 ∉ base64_char v :: r).
  { intros v r Hv Hr [Hin|Hin]%elem_of_cons; [|done]. by apply (base64_char_dot v). }
  unfold bytes_ok in *. destruct l as [|a [|b [|c l]]]; [apply not_elem_of_nil| | |];
    repeat match goal with H : Forall _ (_ :: _) |- _ => apply Forall_cons in H as [? H] end;
    unfold is_byte, in_range in *; cbn [base64_encode].
  - rewrite encode_1, sextet_first by euclid. repeat (apply Hne; [euclid|]). apply not_elem_of_nil.
  - rewrite encode_2, sextet_second, sextet_first by euclid. repeat (apply Hne; [euclid|]). apply not_elem_of_nil.
  - rewrite sextet_third, sextet_second, sextet_first, sextet_last by euclid. repeat (apply Hne; [euclid|]).
    apply IH; [simpl in Hn; lia|done].
Qed.

(** ** Numbers and members *)

(** Decides the comparisons of a character that is known to be another one. *)
Ltac other_char c :=
  repeat match goal with |- context [ord c =? ?k] => rewrite (proj2 (Z.eqb_neq (ord c) k)) by (done || lia) end.

Lemma dec_digits_head fuel n acc : 0 < n < 2 ^ Z.of_nat fuel ->
  exists d r, dec_digits fuel n acc = (chr (48 + d) :: r)%list /\ 1 <= d <= 9.
Proof.
  revert n acc. induction fuel as [|fuel IH]; intros n acc Hn; [simpl in Hn; lia|]. cbn [dec_digits].
  destruct (Z.eqb_spec (n / 10) 0) as [H0|H0].
  - exists (n mod 10), acc. split; [done|]. euclid.
  - apply IH. rewrite Nat2Z.inj_succ, Z.pow_succ_r in Hn by lia. split; [euclid|].
    apply Z.div_lt_upper_bound; lia.
Qed.

(** Decimal text: digits, none leading that is zero unless it stands alone. *)
Definition decimal (l : list ascii) : Prop :=
  Forall (fun c => is_digit c = true) l /\
  match l with [] => False | c :: l' => ord c = 48 -> l' = [] end.

Lemma Itoa_decimal n : 0 <= n -> decimal (chars (Itoa n)).
Proof.
  intros Hn. split.
  - destruct (Itoa_digits n Hn) as (ds & -> & _ & Hds & _). apply Forall_fmap. eapply Forall_impl; [exact Hds|].
    intros d Hd. cbv beta in Hd. unfold compose, is_digit. rewrite ord_chr by lia.
    rewrite (proj2 (Z.leb_le _ _)), (proj2 (Z.leb_le _ _)); lia || done.
  - destruct (decide (n = 0)) as [->|]; [done|]. unfold Itoa. rewrite (proj2 (Z.ltb_ge _ _)) by lia.
    rewrite String.list_ascii_of_string_of_list_ascii.
    destruct (dec_digits_head (Z.to_nat (Z.log2 n) + 1) n []) as (d & r & -> & Hd).
    + split; [lia|]. rewrite Nat2Z.inj_add, Z2Nat.id by apply Z.log2_nonneg.
      change (Z.of_nat 1) with 1. rewrite Z.add_1_r. apply Z.log2_spec. lia.
    + rewrite ord_chr by lia. lia.
Qed.

Lemma span_app {A} (f : A -> bool) l r :
  Forall (fun x => f x = true) l -> match r with [] => True | c :: _ => f c = false end -> span f (l ++ r) = (l, r).
Proof.
  intros Hl Hr. induction Hl as [|x l Hx _ IH]; simpl.
  - destruct r; [done|]. simpl. by rewrite Hr.
  - by rewrite Hx, IH.
Qed.

Definition ends_number (c : ascii) : Prop := is_digit c = false /\ ord c <> 46 /\ ord c <> 101 /\ ord c <> 69.

Lemma scan_decimal l c r : decimal l -> ends_number c -> scan_number (l ++ c :: r) = Some (l, c :: r).
Proof.
  intros [Hl Hlead] (Hc & Hdot & He & HE). destruct l as [|d l]; [done|]. pose proof (Forall_inv Hl) as Hd.
  cbv beta in Hd. unfold is_digit in Hd. apply andb_true_iff in Hd as [H1%Z.leb_le H2%Z.leb_le].
  unfold scan_number. cbn [app]. destruct (Z.eqb_spec (ord d) 45); [lia|].
  assert (Hint : scan_int (d :: l ++ c :: r) = Some (d :: l, c :: r)).
  { unfold scan_int. destruct (Z.eqb_spec (ord d) 48) as [Hz|Hz]; [by rewrite Hlead|].
    unfold scan_digits. change (d :: l ++ c :: r)%list with ((d :: l) ++ c :: r)%list. by rewrite span_app. }
  rewrite Hint. cbn [mbind option_bind]. unfold scan_frac. rewrite (proj2 (Z.eqb_neq _ _)) by done.
  cbn [mbind option_bind]. unfold scan_exp. other_char c.
  cbn [mbind option_bind orb]. by rewrite !app_nil_r.
Qed.

Lemma value_decimal fuel depth l c r : decimal l -> ends_number c ->
  value (S fuel) depth (l ++ c :: r) = Some (VNumber (of_chars l), c :: r).
Proof.
  intros Hl Hc. pose proof (scan_decimal l c r Hl Hc) as Hs. destruct Hl as [Hl Hlead]. destruct l as [|d l]; [done|].
  pose proof (Forall_inv Hl) as Hd. cbv beta in Hd. unfold is_digit in Hd.
  apply andb_true_iff in Hd as [H1%Z.leb_le H2%Z.leb_le].
  cbn [value app]. unfold skip_ws at 1. cbn [drop_while]. unfold is_ws at 1.
  other_char d. cbn [orb]. cbv iota zeta. other_char d. cbn [app] in Hs. by rewrite Hs.
Qed.

(** Text without quotes, escapes and control characters. *)
Definition plain_text (l : list ascii) : Prop := Forall (fun c => 32 <= ord c /\ ord c <> 34 /\ ord c <> 92) l.

Lemma scan_plain l r : plain_text l -> scan_string (l ++ quote_char :: r) = Some (l, r).
Proof.
  induction 1 as [|c l (H1 & H2 & H3) _ IH]; [done|]. cbn [app scan_string].
  other_char c. rewrite (proj2 (Z.ltb_ge _ _)) by done. by rewrite IH.
Qed.

Lemma members_member fuel depth raw l v c rest :
  plain_text raw -> value fuel depth l = Some (v, c :: rest) -> is_ws c = false ->
  members (S fuel) depth (quote_char :: raw ++ quote_char :: chr 58 :: l) =
    if ord c =? 44 then
      '(vs, rest) ← members fuel depth rest; Some ((of_chars (unquote (length raw) raw), v) :: vs, rest)
    else if ord c =? 125 then Some ([(of_chars (unquote (length raw) raw), v)], rest) else None.
Proof.
  intros Hraw Hv Hc. cbn [members]. change (skip_ws (quote_char :: ?x)) with (quote_char :: x).
  change (negb (ord quote_char =? 34)) with false. cbv iota. rewrite scan_plain by done. cbn [mbind option_bind].
  change (skip_ws (chr 58 :: ?x)) with (chr 58 :: x). change (negb (ord (chr 58) =? 58)) with false. cbv iota.
  rewrite Hv. cbn [mbind option_bind]. unfold skip_ws. cbn [drop_while]. by rewrite Hc.
Qed.

Lemma value_plain fuel depth raw r : plain_text raw ->
  value (S fuel) depth (quote_char :: raw ++ quote_char :: r) = Some (string_value raw, r).
Proof.
  intros Hraw. cbn [value]. change (skip_ws (quote_char :: ?x)) with (quote_char :: x). cbv iota zeta.
  change (ord quote_char =? 34) with true. cbv iota. by rewrite scan_plain.
Qed.

Lemma value_object fuel depth l : depth < maxNestingDepth ->
  value (S fuel) depth (chr 123 :: quote_char :: l) =
  '(vs, rest) ← members fuel (depth + 1) (quote_char :: l); Some (VObject vs, rest).
Proof.
  intros Hd. cbn [value]. change (skip_ws (chr 123 :: ?x)) with (chr 123 :: x). cbv iota zeta.
  change (ord (chr 123) =? 34) with false. change (ord (chr 123) =? 91) with false.
  change (ord (chr 123) =? 123) with true. cbv iota. rewrite (proj2 (Z.ltb_ge _ _)) by lia.
  change (skip_ws (quote_char :: ?x)) with (quote_char :: x). cbv iota.
  by change (ord quote_char =? 125) with false.
Qed.

(** * Flat objects, as [json.Marshal] writes them *)

(** Texts that need no escapes, and booleans. *)
Inductive flat := FText (s : string) | FBool (b : bool).

Definition flat_text (v : flat) : list ascii :=
  match v with
  | FText s => quote_char :: chars s ++ [quote_char]
  | FBool b => chars (if b then "true" else "false")
  end%list.
Definition flat_value (v : flat) : json :=
  match v with
  | FText s => VString (of_chars (quote_char :: chars s ++ [quote_char])%list) s
  | FBool b => VBool b
  end.

Definition flat_member (m : string * flat) : list ascii :=
  (quote_char :: chars (fst m) ++ quote_char :: chr 58 :: flat_text (snd m))%list.
Fixpoint flat_members (l : list (string * flat)) : list ascii :=
  match l with
  | [] => []
  | [m] => flat_member m
  | m :: l => flat_member m ++ chr 44 :: flat_members l
  end%list.
Definition flat_object (l : list (string * flat)) : list ascii := (chr 123 :: flat_members l ++ [chr 125])%list.

Definition plain_ascii (s : string) : Prop := Forall (fun c => 32 <= ord c < 128 /\ ord c <> 34 /\ ord c <> 92) (chars s).
Definition plain_flat (v : flat) : Prop := match v with FText s => plain_ascii s | FBool _ => True end.

Lemma plain_ascii_text s : plain_ascii s -> plain_text (chars s).
Proof. intros H. eapply Forall_impl; [exact H|]. cbn. intros c. tauto. Qed.

Lemma unquote_plain l : Forall (fun c => 32 <= ord c < 128 /\ ord c <> 34 /\ ord c <> 92) l ->
  forall fuel, (length l <= fuel)%nat -> unquote fuel l = l.
Proof.
  induction 1 as [|c l (Hc & _ & H92) _ IH]; intros fuel Hf; [by destruct fuel|]. destruct fuel as [|fuel]; [cbn in Hf; lia|].
  assert (Hw : rune_width (c :: l) = 1%nat).
  { cbn [rune_width]. rewrite (proj2 (Z.leb_gt 0xc2 (ord c))), (proj2 (Z.leb_gt 0xe0 (ord c))), (proj2 (Z.leb_gt 0xf0 (ord c))) by lia.
    by destruct l. }
  cbn [unquote]. rewrite (proj2 (Z.eqb_neq (ord c) 92)) by done. rewrite Hw, (proj2 (Z.leb_gt 128 (ord c))) by lia.
  cbn [andb take drop app]. f_equal. apply IH. cbn in Hf. lia.
Qed.

Lemma unquote_name s : plain_ascii s -> of_chars (unquote (length (chars s)) (chars s)) = s.
Proof. intros H. rewrite unquote_plain by done. apply of_chars_chars. Qed.

(** A value of a flat object, before a comma or a brace. *)
Lemma value_flat v fuel depth r : plain_flat v -> value (S fuel) depth (flat_text v ++ r) = Some (flat_value v, r).
Proof.
  destruct v as [s|[]]; intros Hv; cbn [flat_text flat_value].
  - rewrite <- app_comm_cons, <- app_assoc. cbn [app]. rewrite value_plain by by apply plain_ascii_text.
    unfold string_value. by rewrite unquote_name.
  - reflexivity.
  - reflexivity.
Qed.

Lemma members_flat l : forall fuel, l <> [] -> Forall (fun m => plain_ascii (fst m) /\ plain_flat (snd m)) l ->
  (length l < fuel)%nat ->
  members fuel 1 (flat_members l ++ [chr 125])%list = Some ((fun m => (fst m, flat_value (snd m))) <$> l, []).
Proof.
  induction l as [|[k v] l IH]; intros fuel Hne Hl Hf; [done|]. apply Forall_cons in Hl as [[Hk Hv] Hl].
  destruct fuel as [|[|fuel]]; [cbn in Hf; lia..|]. cbn [fst snd] in *.
  destruct l as [|m l].
  - cbn [flat_members]. unfold flat_member. cbn [fst snd]. rewrite <- app_comm_cons, <- app_assoc, <- !app_comm_cons.
    rewrite (members_member _ _ _ _ (flat_value v) (chr 125) []); [|by apply plain_ascii_text|by apply value_flat|done].
    cbn. by rewrite unquote_name.
  - change (flat_members ((k, v) :: m :: l)) with (flat_member (k, v) ++ chr 44 :: flat_members (m :: l))%list.
    unfold flat_member at 1. cbn [fst snd]. rewrite <- !app_assoc, <- !app_comm_cons, <- !app_assoc, <- !app_comm_cons.
    rewrite (members_member _ _ _ _ (flat_value v) (chr 44) (flat_members (m :: l) ++ [chr 125])%list);
      [|by apply plain_ascii_text|by apply value_flat|done].
    change (ord (chr 44) =? 44) with true. cbv iota. rewrite IH; [|done|done|cbn in *; lia]. cbn. by rewrite unquote_name.
Qed.

Lemma flat_parsed l : l <> [] -> Forall (fun m => plain_ascii (fst m) /\ plain_flat (snd m)) l ->
  parse_json (flat_object l) = Some (VObject ((fun m => (fst m, flat_value (snd m))) <$> l)).
Proof.
  intros Hne Hl. unfold parse_json.
  assert (Hlen : (length l <= length (flat_members l))%nat).
  { clear. induction l as [|m l IH]; [done|]. destruct l as [|m' l]; [cbn; lia|].
    change (flat_members (m :: m' :: l)) with (flat_member m ++ chr 44 :: flat_members (m' :: l))%list.
    rewrite length_app. cbn [length] in *. lia. }
  assert (Hhead : exists t, flat_members l = quote_char :: t) by (destruct l as [|m [|m' l]]; [done|by eexists|by eexists]).
  destruct Hhead as [t Ht]. unfold flat_object.
  assert (exists f, (2 * length (chr 123 :: flat_members l ++ [chr 125])%list + 2 = S f /\ length l < f)%nat) as (f & -> & Hf).
  { exists (2 * length (chr 123 :: flat_members l ++ [chr 125])%list + 1)%nat. split; [lia|]. cbn [length]. rewrite length_app. cbn [length]. lia. }
  pose proof (members_flat l f Hne Hl Hf) as Hm. rewrite Ht in Hm |- *. cbn [app] in *.
  rewrite value_object by done. change (0 + 1) with 1. by rewrite Hm.
Qed.
