(* ===== verification/Jwt.v ===== *)
(** Tokens of the web service: the vendored parser and validator
    [src/gossh/gin/jwt] and the token functions of
    [src/gossh/app/middleware/jwt_auth.go].

    Errors are their texts, as the middleware looks for words in them.  The
    texts of the syntax errors of [encoding/json] and the MACs with SHA-384 and
    SHA-512 are parameters.  Theorems: what the middleware accepts is signed
    with the server's secret or its claims break off with an error that quotes
    an attacker's words; a token of the latter kind is accepted with any
    secret; the life of an issued token. *)

From S2P Require Import Prelude GoInt GoFloat GoStrings GoStrconv Sha256 SmsText Json.
Open Scope string_scope.
Open Scope Z_scope.


(** * Errors *)

Definition ErrTokenMalformed := "token is malformed".
Definition ErrTokenUnverifiable := "token is unverifiable".
Definition ErrTokenSignatureInvalid := "token signature is invalid".
Definition ErrTokenExpired := "token is expired".
Definition ErrTokenNotValidYet := "token is not valid yet".
Definition ErrTokenInvalidClaims := "token has invalid claims".
Definition ErrInvalidKeyType := "key is of invalid type".
Definition ErrInvalidType := "invalid type for claim".
Definition ErrSignatureInvalid := "signature is invalid".

Definition newError (message err : string) (more : list string) : string :=
  fold_left (fun text e => text +++ ": " +++ e) more
    (if bool_decide (message = "") then err else err +++ ": " +++ message).

Definition joinErrors (errs : list string) : string := Join errs ", ".

(** [strconv.Quote] of bytes; what is not ASCII is taken as printable. *)
Definition quote_byte (c : ascii) : list ascii :=
  let o := ord c in
  let esc d := [chr 92; chr d] in
  if (o =? 34) || (o =? 92) then esc o
  else if o =? 7 then esc 97 else if o =? 8 then esc 98 else if o =? 12 then esc 102
  else if o =? 10 then esc 110 else if o =? 13 then esc 114 else if o =? 9 then esc 116
  else if o =? 11 then esc 118
  else if (o <? 32) || (o =? 127) then esc 120 ++ chars (hex_EncodeToString [o])
  else [c].
Definition Quote (s : string) : string :=
  of_chars (quote_char :: flat_map quote_byte (chars s) ++ [quote_char])%list.

(** * Claims *)

(** Dates are the seconds of a [time.Time], an [int64] from the year 1. *)
Definition unixToInternal : Z := 62135596800.
Definition of_unix (s : Z) : Z := swrap 64 (s + unixToInternal).
Definition Unix (d : Z) : Z := swrap 64 (d - unixToInternal).

Record JwtClaims := mkClaims {
  Id : Z;
  Issuer : string;
  Subject : string;
  Audience : list string;
  ExpiresAt : option Z;
  NotBefore : option Z;
  IssuedAt : option Z;
  ClaimID : string }.

Definition noClaims : JwtClaims := mkClaims 0 "" "" [] None None None "".

(** The parts of [math.Modf], the fraction in nanoseconds; truncation to the
    second goes towards the past.  The conversion to [int64] saturates. *)
Definition newNumericDateFromSeconds (f : float64) : Z :=
  let round := f_trunc f in
  let nsec := f_trunc (fmul (fsub f (f_of_Z round)) (f_of_Z 1000000000)) in
  of_unix (if nsec <? 0 then clamp64 round - 1 else clamp64 round).

Definition kind_of (v : json) : string :=
  match v with
  | VNull => "null" | VBool _ => "bool" | VNumber _ => "number" | VString _ _ => "string"
  | VArray _ => "array" | VObject _ => "object"
  end.

Definition parse_date (number : string) : Z + string :=
  match ParseFloat number with
  | Some f => inl (newNumericDateFromSeconds f)
  | None =>
    inr ("could not convert json number value to float: strconv.ParseFloat: parsing " +++ Quote number +++
         ": value out of range")
  end.

(** Through [json.Number], which also takes a string that holds a number; the
    error of any other string quotes it. *)
Definition NumericDate_UnmarshalJSON (v : json) : Z + string :=
  match v with
  | VNumber item => parse_date item
  | VString item val =>
    if isValidNumber val then parse_date val
    else inr ("could not parse NumericData: json: invalid number literal, trying to unmarshal " +++
              Quote item +++ " into Number")
  | v => inr ("could not parse NumericData: json: cannot unmarshal " +++ kind_of v +++
              " into Go value of type json.Number")
  end.

(** The first number of a value that is no [float64]. *)
Fixpoint any_error (v : json) : option string :=
  let first := fix first (l : list json) : option string :=
    match l with [] => None | v :: l => match any_error v with Some e => Some e | None => first l end end in
  let firsts := fix firsts (l : list (string * json)) : option string :=
    match l with [] => None | (_, v) :: l => match any_error v with Some e => Some e | None => firsts l end end in
  match v with
  | VNumber item =>
    match ParseFloat item with
    | Some _ => None
    | None => Some ("json: cannot unmarshal number " +++ item +++ " into Go value of type float64")
    end
  | VArray l => first l
  | VObject l => firsts l
  | _ => None
  end.

Definition ClaimStrings_UnmarshalJSON (old : list string) (v : json) : list string + string :=
  match any_error v with
  | Some e => inr e
  | None =>
    match v with
    | VString _ s => inl [s]
    | VArray l =>
      match mapM (fun v => match v with VString _ s => Some s | _ => None end) l with
      | Some aud => inl aud
      | None => inr ErrInvalidType
      end
    | VNull => inl old
    | _ => inr ErrInvalidType
    end
  end.

Definition typeError (value field type : string) : string :=
  "json: cannot unmarshal " +++ value +++ " into Go struct field JwtClaims." +++ field +++ " of type " +++ type.

(** A field of a basic type: what it becomes, or the error that is remembered. *)
Definition set_text (field : string) (old : string) (v : json) : string * option string :=
  match v with
  | VNull => (old, None)
  | VString _ s => (s, None)
  | v => (old, Some (typeError (kind_of v) field "string"))
  end.
Definition set_uint (field : string) (old : Z) (v : json) : Z * option string :=
  match v with
  | VNull => (old, None)
  | VNumber item =>
    match ParseUint item 10 64 with
    | Some n => (n, None)
    | None => (old, Some (typeError ("number " +++ item) field "uint"))
    end
  | v => (old, Some (typeError (kind_of v) field "uint"))
  end.
(** A pointer to a date: an error leaves a new zero date where there was none. *)
Definition set_date (old : option Z) (v : json) : option Z * option string :=
  match v with
  | VNull => (None, None)
  | v => match NumericDate_UnmarshalJSON v with
         | inl d => (Some d, None)
         | inr e => (Some (default 0 old), Some e)
         end
  end.

(** What a member does: the claims, the error that is remembered, the error
    that ends the decoding. *)
Definition member_result : Type := JwtClaims * option string * option string.

Definition with_Id (c : JwtClaims) v := mkClaims v (Issuer c) (Subject c) (Audience c) (ExpiresAt c) (NotBefore c) (IssuedAt c) (ClaimID c).
Definition with_Issuer (c : JwtClaims) v := mkClaims (Id c) v (Subject c) (Audience c) (ExpiresAt c) (NotBefore c) (IssuedAt c) (ClaimID c).
Definition with_Subject (c : JwtClaims) v := mkClaims (Id c) (Issuer c) v (Audience c) (ExpiresAt c) (NotBefore c) (IssuedAt c) (ClaimID c).
Definition with_Audience (c : JwtClaims) v := mkClaims (Id c) (Issuer c) (Subject c) v (ExpiresAt c) (NotBefore c) (IssuedAt c) (ClaimID c).
Definition with_ExpiresAt (c : JwtClaims) v := mkClaims (Id c) (Issuer c) (Subject c) (Audience c) v (NotBefore c) (IssuedAt c) (ClaimID c).
Definition with_NotBefore (c : JwtClaims) v := mkClaims (Id c) (Issuer c) (Subject c) (Audience c) (ExpiresAt c) v (IssuedAt c) (ClaimID c).
Definition with_IssuedAt (c : JwtClaims) v := mkClaims (Id c) (Issuer c) (Subject c) (Audience c) (ExpiresAt c) (NotBefore c) v (ClaimID c).
Definition with_ClaimID (c : JwtClaims) v := mkClaims (Id c) (Issuer c) (Subject c) (Audience c) (ExpiresAt c) (NotBefore c) (IssuedAt c) v.

Definition claim_names : list string := ["Id"; "iss"; "sub"; "aud"; "exp"; "nbf"; "iat"; "jti"].

(** The field of a key: the one of that name, else the first whose name is equal
    under (ASCII) case folding. *)
Definition field_of (key : string) : option string :=
  if bool_decide (key ∈ claim_names) then Some key else snd <$> list_find (fun n => EqualFold n key) claim_names.

Definition saved {A} (set : JwtClaims -> A -> JwtClaims) (c : JwtClaims) (r : A * option string) : member_result :=
  (set c r.1, r.2, None).
Definition aborting {A} (set : JwtClaims -> A -> JwtClaims) (c : JwtClaims) (r : A * option string) : member_result :=
  (set c r.1, None, r.2).

Definition set_member (c : JwtClaims) (key : string) (v : json) : member_result :=
  match field_of key with
  | None => (c, None, None)
  | Some f =>
    if bool_decide (f = "Id") then saved with_Id c (set_uint f (Id c) v)
    else if bool_decide (f = "iss") then saved with_Issuer c (set_text f (Issuer c) v)
    else if bool_decide (f = "sub") then saved with_Subject c (set_text f (Subject c) v)
    else if bool_decide (f = "aud") then
      match ClaimStrings_UnmarshalJSON (Audience c) v with
      | inl aud => (with_Audience c aud, None, None)
      | inr e => (c, None, Some e)
      end
    else if bool_decide (f = "exp") then aborting with_ExpiresAt c (set_date (ExpiresAt c) v)
    else if bool_decide (f = "nbf") then aborting with_NotBefore c (set_date (NotBefore c) v)
    else if bool_decide (f = "iat") then aborting with_IssuedAt c (set_date (IssuedAt c) v)
    else saved with_ClaimID c (set_text f (ClaimID c) v)
  end.

(** The members in the order of the text; the first error remembered counts. *)
Fixpoint set_members (c : JwtClaims) (err : option string) (l : list (string * json)) : JwtClaims * option string :=
  match l with
  | [] => (c, err)
  | (key, v) :: l =>
    match set_member c key v with
    | (c, _, Some e) => (c, Some e)
    | (c, e, None) => set_members c (match err with Some _ => err | None => e end) l
    end
  end.

(** * Tokens *)

Inductive SigningMethod := HS256 | HS384 | HS512 | RSA | RSAPSS | ECDSA | Ed25519 | NoneMethod.
#[export] Instance SigningMethod_eq_dec : EqDecision SigningMethod := ltac:(solve_decision).

Definition signingMethods : list (string * SigningMethod) :=
  [("HS256", HS256); ("HS384", HS384); ("HS512", HS512);
   ("RS256", RSA); ("RS384", RSA); ("RS512", RSA); ("PS256", RSAPSS); ("PS384", RSAPSS); ("PS512", RSAPSS);
   ("ES256", ECDSA); ("ES384", ECDSA); ("ES512", ECDSA); ("EdDSA", Ed25519); ("none", NoneMethod)].
Definition GetSigningMethod (alg : string) : option SigningMethod :=
  '(_, (_, method)) ← list_find (fun m => fst m = alg) signingMethods; Some method.

(** [hmac.New(sha256.New, key)] of a message. *)
Definition hmac_sha256 (key msg : list Z) : list Z :=
  let key := if (64 <? length key)%nat then Sha256.Sum256 key else key in
  let block := (key ++ repeat 0 (64 - length key))%list in
  let xored v := Z.lxor v <$> block in
  Sha256.Sum256 (xored 0x5c ++ Sha256.Sum256 (xored 0x36 ++ msg))%list.

Definition DecodeSegment (seg : string) : list Z + string :=
  match DecodeString seg with
  | inl bs => inl bs
  | inr p => inr ("illegal base64 data at input byte " +++ Itoa p)
  end.
Definition EncodeSegment (seg : list Z) : string := EncodeToString seg.

Definition dot : ascii := chr 46.
Definition seconds (now : Z) : Z := now / 10 ^ 9.

Section Tokens.
(** The text of the error for a document that is no JSON, and the MACs of the
    [crypto] packages for HS384 and HS512. *)
Context (syntaxError : list Z -> string) (hmac_sha384 hmac_sha512 : list Z -> list Z -> list Z).

Definition Unmarshal_claims (text : list Z) : JwtClaims * option string :=
  match parse_json (chr <$> text) with
  | None => (noClaims, Some (syntaxError text))
  | Some (VObject l) => set_members noClaims None l
  | Some VNull => (noClaims, None)
  | Some v => (noClaims, Some ("json: cannot unmarshal " +++ kind_of v +++ " into Go value of type middleware.JwtClaims"))
  end.

(** [token.Header["alg"].(string)] of a header, or the error. *)
Definition last_member (key : string) (l : list (string * json)) : option json :=
  snd <$> last (filter (fun m => fst m = key) l).
Definition Unmarshal_header (text : list Z) : option string + string :=
  match parse_json (chr <$> text) with
  | None => inr (syntaxError text)
  | Some VNull => inl None
  | Some (VObject l) =>
    match any_error (VObject l) with
    | Some e => inr e
    | None => inl (match last_member "alg" l with Some (VString _ s) => Some s | _ => None end)
    end
  | Some v => inr ("json: cannot unmarshal " +++ kind_of v +++ " into Go value of type map[string]interface {}")
  end.

(** The method and the three parts, or the error; beside it what the claims have
    become. *)
Definition ParseUnverified (tokenString : string) : JwtClaims * (SigningMethod * string * string * string + string) :=
  match Split1 tokenString dot with
  | [h; c; s] =>
    match DecodeSegment h with
    | inr e => (noClaims, inr (newError "could not base64 decode header" ErrTokenMalformed [e]))
    | inl headerBytes =>
      match Unmarshal_header headerBytes with
      | inr e => (noClaims, inr (newError "could not JSON decode header" ErrTokenMalformed [e]))
      | inl alg =>
        match DecodeSegment c with
        | inr e => (noClaims, inr (newError "could not base64 decode claim" ErrTokenMalformed [e]))
        | inl claimBytes =>
          match Unmarshal_claims claimBytes with
          | (claims, Some e) => (claims, inr (newError "could not JSON decode claim" ErrTokenMalformed [e]))
          | (claims, None) =>
            (claims,
             match alg with
             | None => inr (newError "signing method (alg) is unspecified" ErrTokenUnverifiable [])
             | Some alg =>
               match GetSigningMethod alg with
               | None => inr (newError "signing method (alg) is unavailable" ErrTokenUnverifiable [])
               | Some method => inl (method, h, c, s)
               end
             end)
          end
        end
      end
    end
  | _ => (noClaims, inr (newError "token contains an invalid number of segments" ErrTokenMalformed []))
  end.

(** The verification with the bytes of a secret, which only the HMAC methods take
    for a key. *)
Definition mac (method : SigningMethod) (key msg : list Z) : option (list Z) :=
  match method with
  | HS256 => Some (hmac_sha256 key msg)
  | HS384 => Some (hmac_sha384 key msg)
  | HS512 => Some (hmac_sha512 key msg)
  | _ => None
  end.
Definition Verify (method : SigningMethod) (signingString : string) (sig key : list Z) : option string :=
  match mac method key (string_bytes signingString) with
  | Some sum => if bool_decide (sig = sum) then None else Some ErrSignatureInvalid
  | None =>
    Some match method with
         | RSA => newError "RSA verify expects *rsa.PublicKey" ErrInvalidKeyType []
         | RSAPSS => newError "RSA-PSS verify expects *rsa.PublicKey" ErrInvalidKeyType []
         | ECDSA => newError "ECDSA verify expects *ecdsa.PublicKey" ErrInvalidKeyType []
         | Ed25519 => newError "Ed25519 verify expects ed25519.PublicKey" ErrInvalidKeyType []
         | _ => newError "'none' signature type is not allowed" ErrTokenUnverifiable []
         end
  end.

(** The default validator: [exp] and [nbf] where they are present, against the
    time in nanoseconds. *)
Definition Before (now date : Z) : bool := seconds now + unixToInternal <? date.
Definition verifyExpiresAt (claims : JwtClaims) (now : Z) : option string :=
  match ExpiresAt claims with
  | None => None
  | Some exp => if Before now exp then None else Some ErrTokenExpired
  end.
Definition verifyNotBefore (claims : JwtClaims) (now : Z) : option string :=
  match NotBefore claims with
  | None => None
  | Some nbf => if negb (Before now nbf) then None else Some ErrTokenNotValidYet
  end.
Definition Validate (claims : JwtClaims) (now : Z) : option string :=
  match (option_list (verifyExpiresAt claims now) ++ option_list (verifyNotBefore claims now))%list with
  | [] => None
  | errs => Some (joinErrors errs)
  end.

(** ** [jwt_auth.go] *)

Context (JwtSecret : list Z) (JwtExpire : Z).

(** With [ParseWithClaims] written out: the claims, and the error if there is one. *)
Definition ParseToken (tokenString : string) (now : Z) : JwtClaims * option string :=
  match ParseUnverified tokenString with
  | (claims, inr e) => (claims, Some e)
  | (claims, inl (method, h, c, s)) =>
    (claims,
     match DecodeSegment s with
     | inr e => Some (newError "could not base64 decode signature" ErrTokenMalformed [e])
     | inl sig =>
       match Verify method (h +++ "." +++ c) sig JwtSecret with
       | Some e => Some (newError "" ErrTokenSignatureInvalid [e])
       | None =>
         match Validate claims now with
         | Some e => Some (newError "" ErrTokenInvalidClaims [e])
         | None => None
         end
       end
     end)
  end.

Definition claims_text (id exp : Z) : string :=
  quoted "{'Id':" +++ Itoa id +++ quoted ",'iss':'go_web_ssh','exp':" +++ Itoa exp +++ "}".
Definition header_text : string := quoted "{'alg':'HS256','typ':'JWT'}".

(** The expiry is truncated to the second. *)
Definition expiry (now : Z) : Z := seconds (now + JwtExpire).
Definition SigningString (id exp : Z) : string :=
  EncodeSegment (string_bytes header_text) +++ "." +++ EncodeSegment (string_bytes (claims_text id exp)).
Definition GenerateToken (id now : Z) : string :=
  let sstr := SigningString id (expiry now) in
  sstr +++ "." +++ EncodeSegment (hmac_sha256 JwtSecret (string_bytes sstr)).

Definition withinLimit (s l now : Z) : bool := swrap 64 (seconds now - s) <? l.

(** [None] is the error; a token without an expiry is dereferenced all the same. *)
Definition RenewToken (claims : JwtClaims) (now : Z) : go Empty_set (option string) :=
  exp ← from_option_panic (ExpiresAt claims);
  mret (if withinLimit (Unix exp) 600 now then Some (GenerateToken (Id claims) now) else None).

(** What [JWTAuth] makes of the header of a request. *)
Inductive auth := Accepted (uid : Z) (newToken : option string) | Rejected | Fault.

Definition JWTAuth_decision (tokenString : string) (now : Z) : auth :=
  match ParseToken tokenString now with
  | (claims, None) => Accepted (Id claims) None
  | (claims, Some err) =>
    if Contains err "token is expired" then
      match RenewToken claims now with
      | Ok (Some newToken) => Accepted (Id claims) (Some newToken)
      | Ok None => Rejected
      | _ => Fault
      end
    else Rejected
  end.

End Tokens.

(** The token a client needs nothing for: the claims break off at [nbf]. *)
Definition forged_claims : string := quoted "{'Id':1,'exp':4102444800,'nbf':'token is expired'}".
Definition forged : string :=
  EncodeSegment (string_bytes (quoted "{'alg':'HS256'}")) +++ "." +++ EncodeSegment (string_bytes forged_claims) +++ ".".

Lemma forged_parsed syntaxError :
  ParseUnverified syntaxError forged =
  (mkClaims 1 "" "" [] (Some (of_unix 4102444800)) (Some 0) None "",
   inr (newError "could not JSON decode claim" ErrTokenMalformed
     ["could not parse NumericData: json: invalid number literal, trying to unmarshal " +++
      Quote (quoted "'token is expired'") +++ " into Number"])).
Proof. vm_compute. reflexivity. Qed.

(** * Facts *)

Lemma is_prefix_app_inv (p l d : list ascii) :
  Forall (fun c => c ∉ p) d -> is_prefix p (l ++ d) = true -> is_prefix p l = true.
Proof.
  revert l. induction p as [|x p IH]; intros l Hd Hp; [by destruct l|].
  destruct l as [|y l].
  - destruct d as [|y d]; [done|]. apply Forall_cons in Hd as [Hy _]. simpl in Hp.
    case_bool_decide; [|done]. subst. set_solver.
  - simpl in *. case_bool_decide; [|done]. apply IH; [|done]. eapply Forall_impl; [exact Hd|]. set_solver.
Qed.

Lemma index_of_app_none (p l d : list ascii) :
  p <> [] -> Forall (fun c => c ∉ p) d -> index_of p l = None -> index_of p (l ++ d) = None.
Proof.
  intros Hp Hd. induction l as [|x l IH]; simpl.
  - intros _. induction Hd as [|y d Hy Hd IH]; [by destruct p|]. simpl.
    destruct p as [|z p]; [done|]. simpl. rewrite bool_decide_eq_false_2 by set_solver. by rewrite IH.
  - destruct (is_prefix p (x :: l)) eqn:Hx; [done|]. destruct (index_of p l) eqn:Hl; [done|]. intros _.
    destruct (is_prefix p (x :: l ++ d)) eqn:Hxd.
    + apply (is_prefix_app_inv p (x :: l) d) in Hxd; [|done]. congruence.
    + by rewrite IH.
Qed.

Lemma base64_decode_error pos group l p :
  Z.of_nat (length group) <= pos -> base64_decode pos group l = inr p -> 0 <= p.
Proof.
  revert pos group. induction l as [|c l IH]; intros pos group Hpos; cbn [base64_decode].
  - destruct (base64_bytes group); [done|]. intros [= <-]. lia.
  - destruct (base64_digit c) as [v|].
    + assert (Z.of_nat (length (group ++ [v])) <= pos + 1) by (rewrite length_app; cbn [length]; lia).
      destruct (group ++ [v])%list as [|a [|b [|x [|y [|z g]]]]] eqn:Hg; try (apply IH; cbn [length] in *; lia).
      destruct (base64_decode (pos + 1) [] l) as [bs|q] eqn:Hd; [done|]. intros [= ->].
      by eapply (IH (pos + 1) []); [simpl; lia|].
    + destruct (_ || _); [apply IH; lia|]. intros [= <-]. lia.
Qed.

Lemma Itoa_fresh n (p : list ascii) :
  0 <= n -> Forall (fun c => is_digit c = false) p -> Forall (fun c => c ∉ p) (chars (Itoa n)).
Proof.
  intros Hn Hp. destruct (Itoa_digits n Hn) as (ds & -> & _ & Hds & _). apply Forall_fmap.
  eapply Forall_impl; [exact Hds|]. intros d Hd Hin. rewrite Forall_forall in Hp. specialize (Hp _ Hin).
  cbv beta in Hd. unfold is_digit in Hp. rewrite ord_chr in Hp by lia. apply andb_false_iff in Hp as [?%Z.leb_gt|?%Z.leb_gt]; lia.
Qed.

(** The error of a segment does not speak of expiry. *)
Lemma signature_error_quiet seg e :
  DecodeSegment seg = inr e ->
  Contains (newError "could not base64 decode signature" ErrTokenMalformed [e]) "token is expired" = false.
Proof.
  unfold DecodeSegment, DecodeString. destruct (base64_decode 0 [] (chars seg)) as [bs|p] eqn:Hd; [done|].
  intros [= <-]. apply base64_decode_error in Hd; [|done]. apply bool_decide_eq_false_2.
  unfold Index. cbn [newError fold_left]. case_bool_decide; [done|]. rewrite !chars_append, !app_assoc.
  rewrite index_of_app_none; [by intros []|done| |reflexivity].
  apply Itoa_fresh; [done|]. by repeat constructor.
Qed.

Section Facts.
Context (syntaxError : list Z -> string) (hmac_sha384 hmac_sha512 : list Z -> list Z -> list Z).
Context (JwtSecret : list Z) (JwtExpire : Z).
Abbreviation decision := (JWTAuth_decision syntaxError hmac_sha384 hmac_sha512 JwtSecret JwtExpire).

(** A token refused with an error: what it takes to be let in all the same. *)
Lemma renewed_spec claims now r :
  match RenewToken JwtSecret JwtExpire claims now with
  | Ok (Some newToken) => Accepted (Id claims) (Some newToken)
  | Ok None => Rejected
  | _ => Fault
  end = r ->
  match r with
  | Accepted uid newToken =>
    uid = Id claims /\ newToken = Some (GenerateToken JwtSecret JwtExpire uid now) /\
    exists exp, ExpiresAt claims = Some exp /\ withinLimit (Unix exp) 600 now = true
  | Rejected => exists exp, ExpiresAt claims = Some exp /\ withinLimit (Unix exp) 600 now = false
  | Fault => ExpiresAt claims = None
  end.
Proof.
  unfold RenewToken. destruct (ExpiresAt claims) as [exp|]; [|by intros <-]. cbn.
  destruct (withinLimit _ _ _) eqn:Hw; intros <-; [|by exists exp]. split; [done|]. split; [done|]. by exists exp.
Qed.

(** The server's secret is under the signature. *)
Definition signed (method : SigningMethod) (h c s : string) : Prop :=
  exists sig, DecodeSegment s = inl sig /\
    mac hmac_sha384 hmac_sha512 method JwtSecret (string_bytes (h +++ "." +++ c)) = Some sig.

Lemma Verify_signed method text sig :
  Verify hmac_sha384 hmac_sha512 method text sig JwtSecret = None ->
  mac hmac_sha384 hmac_sha512 method JwtSecret (string_bytes text) = Some sig.
Proof.
  unfold Verify. destruct (mac _ _ _ _ _) as [sum|]; [|done]. case_bool_decide; [|done]. by intros _; subst.
Qed.

Lemma Verify_quiet method text sig e :
  Verify hmac_sha384 hmac_sha512 method text sig JwtSecret = Some e ->
  Contains (newError "" ErrTokenSignatureInvalid [e]) "token is expired" = false.
Proof.
  unfold Verify. destruct (mac _ _ _ _ _) as [sum|].
  - case_bool_decide; [done|]. intros [= <-]. by vm_compute.
  - intros [= <-]. by destruct method; vm_compute.
Qed.

(** Why a token whose claims were read is refused, or let in. *)
Lemma decision_verified tok now claims method h c s :
  ParseUnverified syntaxError tok = (claims, inl (method, h, c, s)) ->
  match decision tok now with
  | Accepted uid newToken =>
    signed method h c s /\ uid = Id claims /\
    match newToken with
    | None => Validate claims now = None
    | Some t => t = GenerateToken JwtSecret JwtExpire uid now /\ Validate claims now <> None /\
                exists exp, ExpiresAt claims = Some exp /\ withinLimit (Unix exp) 600 now = true
    end
  | _ => True
  end.
Proof.
  intros Hp. unfold JWTAuth_decision, ParseToken. rewrite Hp.
  destruct (DecodeSegment s) as [sig|e] eqn:Hs; [|by rewrite (signature_error_quiet _ _ Hs)].
  destruct (Verify _ _ _ _ _ _) as [e|] eqn:Hv; [by rewrite (Verify_quiet _ _ _ _ Hv)|].
  apply Verify_signed in Hv. assert (signed method h c s) as Hsig by (by exists sig).
  destruct (Validate claims now) as [e|] eqn:Hval; [|done].
  destruct (Contains _ _); [|done]. pose proof (renewed_spec claims now _ eq_refl) as Hr.
  destruct (match RenewToken _ _ claims now with Ok _ => _ | _ => _ end) as [uid new| |]; [|done|done].
  destruct Hr as (-> & -> & Hexp). done.
Qed.

(** A refused parse without claims is never let in. *)
Lemma refused_without_claims tok now e :
  ParseUnverified syntaxError tok = (noClaims, inr e) -> forall uid t, decision tok now <> Accepted uid t.
Proof.
  intros Hp uid t. unfold JWTAuth_decision, ParseToken. rewrite Hp. by destruct (Contains e _).
Qed.

Lemma GetSigningMethod_errors_quiet :
  Contains (newError "signing method (alg) is unspecified" ErrTokenUnverifiable []) "token is expired" = false /\
  Contains (newError "signing method (alg) is unavailable" ErrTokenUnverifiable []) "token is expired" = false.
Proof. split; by vm_compute. Qed.

End Facts.

(** ** Issued tokens *)

Lemma ord_range c : 0 <= ord c < 256.
Proof. unfold ord. pose proof (N_ascii_bounded c). lia. Qed.
Lemma chr_ord c : chr (ord c) = c.
Proof. unfold chr, ord. by rewrite N2Z.id, ascii_N_embedding. Qed.

Lemma string_bytes_ok s : bytes_ok (string_bytes s).
Proof. unfold string_bytes. apply Forall_fmap, Forall_true. intros c. apply ord_range. Qed.
Lemma string_bytes_chars s : chr <$> string_bytes s = chars s.
Proof.
  unfold string_bytes. induction (chars s) as [|c l IH]; [done|]. cbn [fmap list_fmap]. by rewrite chr_ord, IH.
Qed.

Lemma Sum256_ok l : bytes_ok (Sha256.Sum256 l).
Proof.
  unfold Sha256.Sum256. apply Forall_flat_map, Forall_true. intros x. apply Forall_rev, put_u32_bytes.
Qed.

Lemma DecodeSegment_Encode l : bytes_ok l -> DecodeSegment (EncodeSegment l) = inl l.
Proof. intros Hl. unfold DecodeSegment, EncodeSegment. by rewrite base64_inverse. Qed.

Lemma EncodeSegment_dot l : bytes_ok l -> dot ∉ chars (EncodeSegment l).
Proof. intros Hl. unfold EncodeSegment, EncodeToString. rewrite chars_of_chars. by apply (base64_no_dot (length l)). Qed.

(** Three segments are taken apart again. *)
Lemma Split1_segments h c s : dot ∉ chars h -> dot ∉ chars c -> dot ∉ chars s ->
  Split1 (h +++ "." +++ c +++ "." +++ s) dot = [h; c; s].
Proof.
  intros Hh Hc Hs. unfold Split1. rewrite !chars_append. change (chars ".") with [dot]. cbn [app].
  rewrite (split_on_app_sep dot (chars h)) by done. rewrite (split_on_app_sep dot (chars c)) by done.
  rewrite split_on_fresh by done. cbn [fmap list_fmap]. by rewrite !of_chars_chars.
Qed.

Lemma claims_parsed id exp : 0 <= id -> 0 <= exp ->
  parse_json (chars (claims_text id exp)) =
  Some (VObject [("Id", VNumber (Itoa id)); ("iss", string_value (chars "go_web_ssh")); ("exp", VNumber (Itoa exp))]).
Proof.
  intros Hid Hexp. pose proof (Itoa_decimal id Hid) as Di. pose proof (Itoa_decimal exp Hexp) as De.
  set (di := chars (Itoa id)) in *. set (de := chars (Itoa exp)) in *.
  set (q := quote_char).
  assert (Ht : chars (claims_text id exp) = (chr 123 :: q :: chars "Id" ++ q :: chr 58 :: di ++
    chr 44 :: q :: chars "iss" ++ q :: chr 58 :: q :: chars "go_web_ssh" ++ q ::
    chr 44 :: q :: chars "exp" ++ q :: chr 58 :: de ++ [chr 125])%list).
  { unfold claims_text. rewrite !chars_append. by rewrite <- ?app_assoc. }
  rewrite Ht. unfold parse_json.
  match goal with |- context [value (2 * length ?t + 2) 0 ?t] => set (text := t) end.
  assert (exists f, (2 * length text + 2 = S (S (S (S (S (S f))))))%nat) as [f ->].
  { exists (2 * length text - 4)%nat. unfold text. cbn [length]. lia. }
  assert (ends_number (chr 44) /\ ends_number (chr 125)) as [Hcomma Hbrace] by (repeat split; done).
  assert (Hm3 : members (S (S (S f))) 1 (q :: chars "exp" ++ q :: chr 58 :: de ++ [chr 125]) =
    Some ([("exp", VNumber (Itoa exp))], [])).
  { rewrite (members_member _ _ _ _ (VNumber (of_chars de)) (chr 125) []);
      [|repeat constructor; done|by apply value_decimal|done].
    unfold de. by rewrite of_chars_chars. }
  assert (Hm2 : members (S (S (S (S f)))) 1 (q :: chars "iss" ++ q :: chr 58 :: q :: chars "go_web_ssh" ++ q ::
    chr 44 :: q :: chars "exp" ++ q :: chr 58 :: de ++ [chr 125]) =
    Some ([("iss", string_value (chars "go_web_ssh")); ("exp", VNumber (Itoa exp))], [])).
  { rewrite (members_member _ _ _ _ (string_value (chars "go_web_ssh")) (chr 44)
      (q :: chars "exp" ++ q :: chr 58 :: de ++ [chr 125])%list);
      [|repeat constructor; done|apply value_plain; repeat constructor; done|done].
    change (ord (chr 44) =? 44) with true. cbv iota. by rewrite Hm3. }
  assert (Hm1 : members (S (S (S (S (S f))))) 1 (tail text) =
    Some ([("Id", VNumber (Itoa id)); ("iss", string_value (chars "go_web_ssh")); ("exp", VNumber (Itoa exp))], [])).
  { unfold text. cbn [tail].
    match goal with |- context [(di ++ chr 44 :: ?r)%list] =>
      rewrite (members_member _ _ (chars "Id") _ (VNumber (of_chars di)) (chr 44) r) end;
      [|repeat constructor; done|by apply value_decimal|done].
    change (ord (chr 44) =? 44) with true. cbv iota. rewrite Hm2. unfold di. by rewrite of_chars_chars. }
  unfold text in *. cbn [tail] in Hm1. unfold q in *. rewrite value_object by done. change (0 + 1) with 1. by rewrite Hm1.
Qed.

Lemma float_date n : 0 < n < 2 ^ 53 -> newNumericDateFromSeconds (f_lit n 1) = of_unix n.
Proof.
  intros Hn. unfold newNumericDateFromSeconds. rewrite f_lit_exact, f_trunc_exact, f_of_Z_exact, float_of_sub by done.
  assert (Hz : f_trunc (fmul (S754_zero false) (f_of_Z 1000000000)) = 0) by (vm_compute; reflexivity).
  rewrite Hz. unfold clamp64. rewrite Z.min_r, Z.max_r by lia. done.
Qed.

Lemma take_digits_written ds : Forall (fun d => 0 <= d < 10) ds ->
  take_digits ((fun d => chr (48 + d)) <$> ds) = (ds, []).
Proof.
  induction 1 as [|d ds Hd _ IH]; [done|]. cbn [fmap list_fmap take_digits]. unfold is_digit. rewrite ord_chr by lia.
  rewrite !(proj2 (Z.leb_le _ _)) by lia. cbn [andb]. rewrite IH. do 2 f_equal. lia.
Qed.

Lemma digit_word c l w : is_digit c = true -> match chars w with i :: _ => 57 < ord i | [] => False end ->
  ToLower (of_chars (c :: l)) <> w.
Proof.
  intros Hc Hw <-. unfold is_digit in Hc. apply andb_true_iff in Hc as [H1%Z.leb_le H2%Z.leb_le].
  unfold ToLower in Hw. rewrite !chars_of_chars in Hw. cbn [fmap list_fmap] in Hw. unfold to_lower, is_upper in Hw.
  rewrite (proj2 (Z.leb_gt 65 (ord c))) in Hw by lia. cbn [andb] in Hw. lia.
Qed.

Lemma ParseFloat_Itoa n : 0 < n < 2 ^ 53 -> ParseFloat (Itoa n) = Some (f_lit n 1).
Proof.
  intros Hn. destruct (Itoa_digits n ltac:(lia)) as (ds & Hc & Hne & Hds & Hv). unfold ParseFloat. rewrite Hc.
  destruct ds as [|d ds]; [done|]. pose proof (Forall_inv Hds) as Hd. cbv beta in Hd. cbn [fmap list_fmap].
  assert (is_digit (chr (48 + d)) = true) as Hdig.
  { unfold is_digit. rewrite ord_chr by lia. by rewrite !(proj2 (Z.leb_le _ _)) by lia. }
  unfold float_sign. rewrite ord_chr by lia. rewrite !(proj2 (Z.eqb_neq _ _)) by lia.
  assert (Hs : Itoa n = of_chars ((fun d => chr (48 + d)) <$> d :: ds)) by (by rewrite <- Hc, of_chars_chars).
  rewrite !bool_decide_eq_false_2 by (rewrite ?Hs; apply digit_word; [done|vm_compute; done]). cbn [orb].
  change (chr (48 + d) :: _) with ((fun d => chr (48 + d)) <$> d :: ds). rewrite take_digits_written by done.
  cbn [app]. rewrite app_nil_r. cbn [float_exponent mbind option_bind length]. rewrite Hv. unfold float_of_decimal.
  rewrite (proj2 (Z.eqb_neq _ _)) by lia. change (0 - Z.of_nat 0) with 0. cbn [Z.leb Z.compare].
  rewrite Z.pow_0_r, Z.mul_1_r, f_lit_exact by done. done.
Qed.

Lemma ParseUint_Itoa n : 0 <= n < 2 ^ 64 -> ParseUint (Itoa n) 10 64 = Some n.
Proof.
  intros Hn. destruct (Itoa_digits n ltac:(lia)) as (ds & Hc & Hne & Hds & Hv). unfold ParseUint. rewrite Hc.
  rewrite parse_digits_written, Hv by done. cbn [mbind option_bind]. by rewrite (proj2 (Z.ltb_lt _ _)) by lia.
Qed.

Lemma set_member_Id c v : set_member c "Id" v = saved with_Id c (set_uint "Id" (Id c) v).
Proof. reflexivity. Qed.
Lemma set_member_iss c v : set_member c "iss" v = saved with_Issuer c (set_text "iss" (Issuer c) v).
Proof. reflexivity. Qed.
Lemma set_member_exp c v : set_member c "exp" v = aborting with_ExpiresAt c (set_date (ExpiresAt c) v).
Proof. reflexivity. Qed.

Lemma issued_parsed syntaxError JwtSecret JwtExpire id now :
  0 <= id < 2 ^ 64 -> 0 < expiry JwtExpire now < 2 ^ 53 ->
  let sstr := SigningString id (expiry JwtExpire now) in
  ParseUnverified syntaxError (GenerateToken JwtSecret JwtExpire id now) =
  (mkClaims id "go_web_ssh" "" [] (Some (of_unix (expiry JwtExpire now))) None None "",
   inl (HS256, EncodeSegment (string_bytes header_text), EncodeSegment (string_bytes (claims_text id (expiry JwtExpire now))),
        EncodeSegment (hmac_sha256 JwtSecret (string_bytes sstr)))).
Proof.
  intros Hid Hexp sstr. unfold GenerateToken. fold sstr. set (exp := expiry JwtExpire now) in *. unfold ParseUnverified.
  assert (Hseg : sstr +++ "." +++ EncodeSegment (hmac_sha256 JwtSecret (string_bytes sstr)) =
    EncodeSegment (string_bytes header_text) +++ "." +++ EncodeSegment (string_bytes (claims_text id exp)) +++ "." +++
    EncodeSegment (hmac_sha256 JwtSecret (string_bytes sstr))).
  { unfold sstr at 1, SigningString. apply chars_inj. rewrite !chars_append. by rewrite <- !app_assoc. }
  rewrite Hseg, Split1_segments by (apply EncodeSegment_dot; apply string_bytes_ok || apply Sum256_ok).
  rewrite !DecodeSegment_Encode by apply string_bytes_ok.
  assert (Hh : Unmarshal_header syntaxError (string_bytes header_text) = inl (Some "HS256")) by (vm_compute; reflexivity).
  rewrite Hh. unfold Unmarshal_claims. rewrite string_bytes_chars, claims_parsed by lia.
  change (string_value (chars "go_web_ssh")) with (VString (quoted "'go_web_ssh'") "go_web_ssh").
  cbn [set_members]. rewrite set_member_Id. unfold set_uint, saved. rewrite ParseUint_Itoa by done. cbv iota zeta.
  rewrite set_member_iss. cbn [set_text saved fst snd]. cbv iota zeta. rewrite set_member_exp.
  unfold set_date, NumericDate_UnmarshalJSON, parse_date, aborting. rewrite ParseFloat_Itoa, float_date by done. done.
Qed.

Lemma Validate_expiry id exp now : 0 < exp < 2 ^ 53 ->
  Validate (mkClaims id "go_web_ssh" "" [] (Some (of_unix exp)) None None "") now =
  if seconds now <? exp then None else Some ErrTokenExpired.
Proof.
  intros Hexp. unfold Validate, verifyExpiresAt, verifyNotBefore, Before, of_unix. cbn [ExpiresAt NotBefore].
  rewrite swrap_id by (unfold unixToInternal; lia). destruct (Z.ltb_spec (seconds now) exp).
  - by rewrite (proj2 (Z.ltb_lt _ _)) by lia.
  - by rewrite (proj2 (Z.ltb_ge _ _)) by lia.
Qed.

Lemma Verify_own hmac_sha384 hmac_sha512 key text :
  Verify hmac_sha384 hmac_sha512 HS256 text (hmac_sha256 key (string_bytes text)) key = None.
Proof. unfold Verify. cbn [mac]. by rewrite bool_decide_eq_true_2. Qed.

(** * Properties *)

(** C4: A request passes the authentication only with a token whose signature is
    the MAC of its text under the server's secret - whatever algorithm its
    header names - and whose dates are valid, or whose expiry is less than 600
    seconds past and which is then answered with a fresh token of the same user;
    or because its claims could not be decoded and the error quotes the words
    the middleware looks for. *)
Theorem accepted_only_signed syntaxError hmac_sha384 hmac_sha512 JwtSecret JwtExpire tok now uid newToken :
  JWTAuth_decision syntaxError hmac_sha384 hmac_sha512 JwtSecret JwtExpire tok now = Accepted uid newToken ->
  (exists claims method h c s,
     ParseUnverified syntaxError tok = (claims, inl (method, h, c, s)) /\
     signed hmac_sha384 hmac_sha512 JwtSecret method h c s /\ uid = Id claims /\
     match newToken with
     | None => Validate claims now = None
     | Some t => t = GenerateToken JwtSecret JwtExpire uid now /\ Validate claims now <> None /\
                 exists exp, ExpiresAt claims = Some exp /\ withinLimit (Unix exp) 600 now = true
     end) \/
  (exists h c s claimBytes claims e,
     Split1 tok dot = [h; c; s] /\ DecodeSegment c = inl claimBytes /\
     Unmarshal_claims syntaxError claimBytes = (claims, Some e) /\ uid = Id claims /\
     Contains (newError "could not JSON decode claim" ErrTokenMalformed [e]) "token is expired" = true).
Proof.
  intros Hd. destruct (ParseUnverified syntaxError tok) as [claims [[[[method h] c] s]|err]] eqn:Hp.
  - left. pose proof (decision_verified syntaxError hmac_sha384 hmac_sha512 JwtSecret JwtExpire tok now _ _ _ _ _ Hp) as H.
    rewrite Hd in H. exists claims, method, h, c, s. done.
  - right. pose proof Hp as Hp0. unfold ParseUnverified in Hp.
    assert (forall e, (claims, err) <> (noClaims, e)) as Hclaims.
    { intros e [= -> ->]. by eapply refused_without_claims in Hd. }
    destruct (Split1 tok dot) as [|h [|c [|s [|? ?]]]]; try (injection Hp as <- <-; by edestruct Hclaims).
    destruct (DecodeSegment h) as [hb|]; [|injection Hp as <- <-; by edestruct Hclaims].
    destruct (Unmarshal_header syntaxError hb) as [alg|]; [|injection Hp as <- <-; by edestruct Hclaims].
    destruct (DecodeSegment c) as [cb|] eqn:Hc; [|injection Hp as <- <-; by edestruct Hclaims].
    destruct GetSigningMethod_errors_quiet as [Hq1 Hq2].
    destruct (Unmarshal_claims syntaxError cb) as [cl [e|]] eqn:Hu.
    + injection Hp as <- <-. exists h, c, s, cb, cl, e. split_and!; try done.
      * unfold JWTAuth_decision, ParseToken in Hd. rewrite Hp0 in Hd. destruct (Contains _ _); [|done].
        apply renewed_spec in Hd. by destruct Hd.
      * unfold JWTAuth_decision, ParseToken in Hd. rewrite Hp0 in Hd. by destruct (Contains _ _).
    + unfold JWTAuth_decision, ParseToken in Hd. rewrite Hp0 in Hd.
      destruct alg as [alg|]; [destruct (GetSigningMethod alg); [done|]|];
        injection Hp as <- <-; [rewrite Hq2 in Hd|rewrite Hq1 in Hd]; done.
Qed.

(** The life of an issued token: it is accepted for its user until it expires,
    answered with a fresh token during the 600 seconds after that, and refused
    from then on. *)
Theorem token_life syntaxError hmac_sha384 hmac_sha512 JwtSecret JwtExpire id issued now :
  0 <= id < 2 ^ 64 -> 0 < seconds (issued + JwtExpire) < 2 ^ 53 -> 0 <= seconds now < 2 ^ 53 ->
  JWTAuth_decision syntaxError hmac_sha384 hmac_sha512 JwtSecret JwtExpire (GenerateToken JwtSecret JwtExpire id issued) now =
  if seconds now <? seconds (issued + JwtExpire) then Accepted id None
  else if seconds now <? seconds (issued + JwtExpire) + 600 then
    Accepted id (Some (GenerateToken JwtSecret JwtExpire id now))
  else Rejected.
Proof.
  intros Hid Hexp Hnow. unfold JWTAuth_decision, ParseToken. rewrite issued_parsed by done.
  cbv zeta. rewrite DecodeSegment_Encode by apply Sum256_ok. change (EncodeSegment ?h +++ "." +++ EncodeSegment ?c) with (SigningString id (expiry JwtExpire issued)). rewrite Verify_own.
  fold (expiry JwtExpire issued) in *. set (exp := expiry JwtExpire issued) in *. rewrite Validate_expiry by done.
  destruct (Z.ltb_spec (seconds now) exp) as [Hlt|Hge]; [done|].
  match goal with |- context [Contains ?a ?b] => replace (Contains a b) with true by (vm_compute; reflexivity) end.
  unfold RenewToken, withinLimit, Unix, of_unix. cbn [ExpiresAt from_option_panic mbind go_bind Id].
  rewrite (swrap_id 64 (exp + unixToInternal)) by (unfold unixToInternal; lia).
  replace (exp + unixToInternal - unixToInternal) with exp by lia. rewrite (swrap_id 64 exp), swrap_id by lia.
  destruct (Z.ltb_spec (seconds now) (exp + 600)).
  - by rewrite (proj2 (Z.ltb_lt _ _)) by lia.
  - by rewrite (proj2 (Z.ltb_ge _ _)) by lia.
Qed.

Lemma token_life_witness :
  JWTAuth_decision (fun _ => "") (fun _ m => m) (fun _ m => m) (string_bytes "secret") (7200 * 10 ^ 9)
    (GenerateToken (string_bytes "secret") (7200 * 10 ^ 9) 7 (1767225600 * 10 ^ 9)) (1767232800 * 10 ^ 9) =
  Accepted 7 (Some (GenerateToken (string_bytes "secret") (7200 * 10 ^ 9) 7 (1767232800 * 10 ^ 9))).
Proof.
  rewrite (token_life (fun _ => "") (fun _ m => m) (fun _ m => m) (string_bytes "secret") (7200 * 10 ^ 9) 7
    (1767225600 * 10 ^ 9) (1767232800 * 10 ^ 9)) by (vm_compute; split; congruence).
  rewrite (proj2 (Z.ltb_ge _ _)), (proj2 (Z.ltb_lt _ _)) by (by vm_compute). reflexivity.
Defined.

(** The first case of [accepted_only_signed], on a token issued for user 7. *)
Lemma accepted_only_signed_witness :
  let secret := string_bytes "secret" in
  let token := GenerateToken secret (7200 * 10 ^ 9) 7 (1767225600 * 10 ^ 9) in
  let decision := JWTAuth_decision (fun _ => "") (fun _ m => m) (fun _ m => m) secret (7200 * 10 ^ 9) token (1767225700 * 10 ^ 9) in
  decision = Accepted 7 None /\ ParseUnverified (fun _ => "") token <> ParseUnverified (fun _ => "") forged.
Proof.
  assert (JWTAuth_decision (fun _ => "") (fun _ m => m) (fun _ m => m) (string_bytes "secret") (7200 * 10 ^ 9)
    (GenerateToken (string_bytes "secret") (7200 * 10 ^ 9) 7 (1767225600 * 10 ^ 9)) (1767225700 * 10 ^ 9) = Accepted 7 None)
    as Hd by (vm_compute; reflexivity).
  split; [exact Hd|].
  destruct (accepted_only_signed _ _ _ _ _ _ _ _ _ Hd) as [(cl & m & h & c & s & Hp & _)|(h & c & s & bs & cl & e & _ & _ & _ & Hid & _)].
  - intros H. rewrite Hp in H. rewrite forged_parsed in H. discriminate.
  - intros H. rewrite issued_parsed in H by (vm_compute; split; congruence). rewrite forged_parsed in H. discriminate.
Defined.

(** C5: The second case is real: the token [forged], which needs no secret, is
    accepted as user 1 with every secret until the year 2100, and answered with
    a properly signed token for that user. *)
Theorem forged_accepted syntaxError hmac_sha384 hmac_sha512 JwtSecret JwtExpire now :
  0 <= seconds now < 4102444800 ->
  JWTAuth_decision syntaxError hmac_sha384 hmac_sha512 JwtSecret JwtExpire forged now =
  Accepted 1 (Some (GenerateToken JwtSecret JwtExpire 1 now)).
Proof.
  intros Hnow. unfold JWTAuth_decision, ParseToken. rewrite forged_parsed. cbv iota beta.
  match goal with |- context [Contains ?a ?b] => replace (Contains a b) with true by (vm_compute; reflexivity) end.
  unfold RenewToken. cbn [ExpiresAt from_option_panic mbind go_bind].
  replace (Unix (of_unix 4102444800)) with 4102444800 by reflexivity. unfold withinLimit.
  rewrite swrap_id by lia. by rewrite (proj2 (Z.ltb_lt _ _)) by lia.
Qed.

Lemma forged_accepted_witness :
  0 <= seconds (1767225600 * 10 ^ 9) < 4102444800 /\
  exists t, JWTAuth_decision (fun _ => "") (fun _ m => m) (fun _ m => m) (string_bytes "secret") 0 forged (1767225600 * 10 ^ 9) =
            Accepted 1 (Some t).
Proof.
  assert (0 <= seconds (1767225600 * 10 ^ 9) < 4102444800) as H by (vm_compute; split; congruence).
  split; [done|]. eexists. apply (forged_accepted (fun _ => "") (fun _ m => m) (fun _ m => m) (string_bytes "secret") 0 _ H).
Defined.
