(* ===== verification/NetIP.v ===== *)
(** Addresses and networks of Go's [net] package: [ParseIP], [ParseCIDR] and
    [IPNet.Contains], which the address filter of the web service uses. *)

From S2P Require Import Prelude GoInt GoStrings.
Open Scope string_scope.
Open Scope Z_scope.

(** * Parsing *)

(** A decimal field of one to three digits, without leading zeros. *)
Definition v4_field (l : list ascii) : option Z :=
  match l with
  | [] => None
  | [c] => digit_of 10 c
  | c :: _ =>
    if ord c =? 48 then None else
    v ← parse_digits 10 l; if (3 <? length l)%nat || (255 <? v) then None else Some v
  end.

Definition parseIPv4 (l : list ascii) : option (list Z) :=
  fields ← mapM v4_field (split_on (chr 46) l);
  if bool_decide (length fields = 4%nat) then Some fields else None.

(** The hexadecimal digits at the head of a text. *)
Fixpoint hex_run (l : list ascii) : list Z * list ascii :=
  match l with
  | c :: l' =>
    match digit_of 16 c with
    | Some d => let '(ds, r) := hex_run l' in (d :: ds, r)
    | None => ([], l)
    end
  | [] => ([], [])
  end.

(** The groups from [ip] on, with the place of the ellipsis. *)
Fixpoint v6_groups (fuel : nat) (ip : list Z) (ellipsis : option nat) (s : list ascii) : option (list Z * option nat) :=
  match fuel with
  | O => match s with [] => Some (ip, ellipsis) | _ => None end
  | S fuel =>
    if (16 <=? length ip)%nat then match s with [] => Some (ip, ellipsis) | _ => None end else
    let '(ds, rest) := hex_run s in
    if (length ds =? 0)%nat || (4 <? length ds)%nat then None else
    match rest with
    | [] => let acc := digits_value 16 0 ds in Some ((ip ++ [Z.shiftr acc 8; u8 acc])%list, ellipsis)
    | c :: rest' =>
      if ord c =? 46 then
        if bool_decide (ellipsis = None) && negb (length ip =? 12)%nat then None
        else if (16 <? length ip + 4)%nat then None
        else v4 ← parseIPv4 s; Some ((ip ++ v4)%list, ellipsis)
      else
        let acc := digits_value 16 0 ds in
        let ip := (ip ++ [Z.shiftr acc 8; u8 acc])%list in
        if negb (ord c =? 58) then None else
        match rest' with
        | [] => None
        | d :: rest'' =>
          if ord d =? 58 then
            match ellipsis, rest'' with
            | Some _, _ => None
            | None, [] => Some (ip, Some (length ip))
            | None, _ => v6_groups fuel ip (Some (length ip)) rest''
            end
          else v6_groups fuel ip ellipsis rest'
        end
    end
  end.

Definition parseIPv6 (s : list ascii) : option (list Z) :=
  let '(ellipsis, s) := match s with
                        | c :: d :: s' => if (ord c =? 58) && (ord d =? 58) then (Some 0%nat, s') else (None, s)
                        | _ => (None, s)
                        end in
  match ellipsis, s with
  | Some _, [] => Some (repeat 0 16)
  | _, _ =>
    '(ip, ellipsis) ← v6_groups 9 [] ellipsis s;
    match ellipsis with
    | Some e => if (length ip <? 16)%nat then Some (take e ip ++ repeat 0 (16 - length ip) ++ drop e ip)%list else None
    | None => if (length ip <? 16)%nat then None else Some ip
    end
  end.

(** [netip.ParseAddr] without zones: four bytes or sixteen. *)
Definition ParseAddr (s : string) : option (list Z) :=
  match list_find (fun c => ord c ∈ [46; 58; 37]) (chars s) with
  | Some (_, c) => if ord c =? 46 then parseIPv4 (chars s) else if ord c =? 58 then parseIPv6 (chars s) else None
  | None => None
  end.

Definition v4InV6Prefix : list Z := [0; 0; 0; 0; 0; 0; 0; 0; 0; 0; 255; 255].

(** [net.ParseIP]: sixteen bytes; an address with a zone is none. *)
Definition ParseIP (s : string) : option (list Z) :=
  addr ← ParseAddr s; Some (if (length addr =? 4)%nat then v4InV6Prefix ++ addr else addr)%list.

(** * Networks *)

Definition To4 (ip : list Z) : option (list Z) :=
  if (length ip =? 4)%nat then Some ip
  else if (length ip =? 16)%nat && bool_decide (take 12 ip = v4InV6Prefix) then Some (drop 12 ip) else None.

(** [n] ones over [len] bytes. *)
Fixpoint CIDRMask (n : Z) (len : nat) : list Z :=
  match len with
  | O => []
  | S len => (if 8 <=? n then 255 else 256 - 2 ^ (8 - n)) :: CIDRMask (Z.max 0 (n - 8)) len
  end.

Record IPNet := mkIPNet { net_IP : list Z; net_Mask : list Z }.

(** The network of a text [address/bits]; its address is masked. *)
Definition ParseCIDR (s : string) : option IPNet :=
  match split_on (chr 47) (chars s) with
  | addr :: (_ :: _) as parts =>
    ip ← ParseAddr (of_chars addr);
    let mask := drop (S (length addr)) (chars s) in
    n ← parse_digits 10 mask;
    if (0xFFFFFF <=? n) || (8 * Z.of_nat (length ip) <? n) then None
    else let m := CIDRMask n (length ip) in Some (mkIPNet (zip_with Z.land ip m) m)
  | _ => None
  end.

(** [ipNet.Contains(ip)]; an IPv4 network mapped into IPv6 compares the last four
    bytes.  [None] is the nil address. *)
Definition net_contains (n : IPNet) (ip : option (list Z)) : bool :=
  match ip with
  | None => false
  | Some ip =>
    let '(nn, m) := match To4 (net_IP n) with
                    | Some v4 => (v4, if (length (net_Mask n) =? 16)%nat then drop 12 (net_Mask n) else net_Mask n)
                    | None => (net_IP n, net_Mask n)
                    end in
    let ip := default ip (To4 ip) in
    bool_decide (length ip = length nn) &&
    forallb (fun p => Z.land p.1.1 p.2 =? Z.land p.1.2 p.2) (combine (combine nn ip) m)
  end.

Example ip_v4 : ParseIP "192.168.0.1" = Some (v4InV6Prefix ++ [192; 168; 0; 1])%list. Proof. vm_compute. reflexivity. Qed.
Example ip_v6 : ParseIP "fe80::1:2" = Some [254; 128; 0; 0; 0; 0; 0; 0; 0; 0; 0; 0; 0; 1; 0; 2]. Proof. vm_compute. reflexivity. Qed.
Example ip_mapped : ParseIP "::ffff:10.0.0.1" = ParseIP "10.0.0.1". Proof. vm_compute. reflexivity. Qed.
Example ip_bad : ParseIP <$> ["1.2.3"; "1.2.3.256"; "01.2.3.4"; "fe80::1%eth0"; "1::2::3"; "1:2:3:4:5:6:7:8:9"; ""] =
  [None; None; None; None; None; None; None]. Proof. vm_compute. reflexivity. Qed.
Example ip_zone : ParseIP "fe80::1%eth0" = None. Proof. vm_compute. reflexivity. Qed.
Example cidr_in : (fun ip => (fun n => net_contains n (ParseIP ip)) <$> ParseCIDR "192.168.0.7/24") <$>
  ["192.168.0.200"; "192.168.1.1"; "::1"; "::ffff:192.168.0.9"] = [Some true; Some false; Some false; Some true].
Proof. vm_compute. reflexivity. Qed.
Example cidr_bad : ParseCIDR <$> ["10.0.0.0"; "10.0.0.0/33"; "10.0.0.0/"; "x/8"] = [None; None; None; None].
Proof. vm_compute. reflexivity. Qed.
