(* ===== verification/WebUser.v ===== *)
(** The web service's users: the table behind [src/gossh/app/model/web_user.go]
    with its password hooks, the handlers of
    [src/gossh/app/service/web_user.go] and the login with its audit.

    The state of the service [web] holds the configuration, the tables and the
    request at hand.  A table is the list of its rows; a statement of SQL does
    on it what its clauses say, or fails, which [fails] decides for the n-th
    statement.  The cipher of the passwords is a parameter. *)

From S2P Require Import Prelude GoInt GoStrings Effects Sha256 Jwt.
Open Scope string_scope.
Open Scope Z_scope.

(** * Data *)

(** Times are seconds of Unix time. *)
Record WebUser := mkWebUser {
  u_ID : Z;
  u_Name : string;
  u_Pwd : string;
  u_DescInfo : string;
  IsAdmin : string;
  IsEnable : string;
  IsRoot : string;
  ExpiryAt : Z }.
#[export] Instance WebUser_eq_dec : EqDecision WebUser := ltac:(solve_decision).

Record PolicyConf := mkPolicyConf { pc_ID : Z; pc_NetPolicy : string }.
Record NetFilter := mkNetFilter {
  nf_ID : Z; nf_Name : string; Cidr : string; nf_NetPolicy : string; PolicyNo : Z; nf_ExpiryAt : Z; nf_UpdatedAt : Z }.
Record LoginAudit := mkLoginAudit { la_Name : string; la_Pwd : string; ErrMsg : string; IsSuccess : string }.

Record database := mkDatabase {
  db_users : list WebUser;
  db_seq : Z;                     (** the largest user id ever given, [AUTOINCREMENT] *)
  db_policies : list PolicyConf;
  db_filters : list NetFilter;
  db_audits : list LoginAudit;
  db_queries : nat }.             (** statements executed *)

Record appConfig := mkAppConfig { IsInit : bool; WebBaseDir : string; AesSecret : string }.

(** A request: what the handlers read of it.  Bodies are what decoding gives
    before validation; [None] is a body that cannot be decoded. *)
Record request := mkRequest {
  Method : string;
  FullPath : string;
  RemoteIP : string;
  hdr_Authorization : string;
  query_Authorization : string;
  rq_now : Z;                     (** nanoseconds *)
  param_id : string;
  query_limit : string;
  query_offset : string;
  body_user : option WebUser;
  body_text : option string;      (** the field [pwd] or [name] of a body with one field *)
  body_login : bool * string * string }.

(** A JSON reply: the status and its [code] or the [data] it carries. *)
Inductive reply :=
| Code (status code : Z)
| Users (l : list WebUser)
| LoggedIn (token : string) (is_root is_admin : string)
| Denied (status : Z)
| Served.

Record web := mkWeb {
  w_cfg : appConfig;
  w_open : bool;                  (** [model.Db != nil] *)
  w_db : database;
  w_req : request;
  w_uid : option Z;               (** the context key [uid] *)
  w_NewToken : option string;     (** the response header *)
  w_replies : list reply }.

Definition set_db (d : database) (w : web) : web :=
  mkWeb (w_cfg w) (w_open w) d (w_req w) (w_uid w) (w_NewToken w) (w_replies w).
Definition set_uid (uid : Z) (w : web) : web :=
  mkWeb (w_cfg w) (w_open w) (w_db w) (w_req w) (Some uid) (w_NewToken w) (w_replies w).
Definition set_NewToken (t : string) (w : web) : web :=
  mkWeb (w_cfg w) (w_open w) (w_db w) (w_req w) (w_uid w) (Some t) (w_replies w).
Definition add_reply (r : reply) (w : web) : web :=
  mkWeb (w_cfg w) (w_open w) (w_db w) (w_req w) (w_uid w) (w_NewToken w) (w_replies w ++ [r])%list.

Definition set_users (l : list WebUser) (seq : Z) (d : database) : database :=
  mkDatabase l seq (db_policies d) (db_filters d) (db_audits d) (db_queries d).
Definition add_audit (a : LoginAudit) (d : database) : database :=
  mkDatabase (db_users d) (db_seq d) (db_policies d) (db_filters d) (db_audits d ++ [a])%list (db_queries d).
Definition tick (d : database) : database :=
  mkDatabase (db_users d) (db_seq d) (db_policies d) (db_filters d) (db_audits d) (S (db_queries d)).

Abbreviation M := (ST web).
Definition asks {A} (f : web -> A) : M A := w ← st_get; mret (f w).
Definition JSON (r : reply) : M unit := st_modify (add_reply r).
Definition now_seconds : M Z := asks (fun w => seconds (rq_now (w_req w))).
(** [c.GetUint("uid")]. *)
Definition GetUint_uid : M Z := asks (fun w => default 0 (w_uid w)).

Definition with_Pwd (u : WebUser) (pwd : string) : WebUser :=
  mkWebUser (u_ID u) (u_Name u) pwd (u_DescInfo u) (IsAdmin u) (IsEnable u) (IsRoot u) (ExpiryAt u).
Definition with_ID (u : WebUser) (id : Z) : WebUser :=
  mkWebUser id (u_Name u) (u_Pwd u) (u_DescInfo u) (IsAdmin u) (IsEnable u) (IsRoot u) (ExpiryAt u).
Definition with_IsRoot (u : WebUser) (r : string) : WebUser :=
  mkWebUser (u_ID u) (u_Name u) (u_Pwd u) (u_DescInfo u) (IsAdmin u) (IsEnable u) r (ExpiryAt u).

(** * Validation *)

(** [utf8.RuneCountInString]. *)
Fixpoint rune_count (fuel : nat) (l : list ascii) : nat :=
  match fuel, l with
  | S fuel, _ :: _ => S (rune_count fuel (drop (rune_width l) l))
  | _, _ => 0
  end.
Definition RuneCount (s : string) : nat := rune_count (strlen s) (chars s).

(** [required,min=1,max=n]. *)
Definition text_ok (n : nat) (s : string) : bool := negb (bool_decide (s = "")) && (RuneCount s <=? n)%nat.
(** [oneof=Y N]. *)
Definition yes_no (s : string) : bool := bool_decide (s = "Y") || bool_decide (s = "N").

(** The binding tags; a zero expiry is a missing one. *)
Definition WebUser_valid (u : WebUser) : bool :=
  text_ok 63 (u_Name u) && text_ok 64 (u_Pwd u) && text_ok 64 (u_DescInfo u) &&
  yes_no (IsAdmin u) && yes_no (IsEnable u) && negb (ExpiryAt u =? - unixToInternal).

Definition ShouldBind_user : M (option WebUser) :=
  asks (fun w => u ← body_user (w_req w); if WebUser_valid u then Some u else None).
Definition ShouldBind_text : M (option string) :=
  asks (fun w => p ← body_text (w_req w); if text_ok 64 p then Some p else None).
(** Beside the decision the values as far as they were decoded. *)
Definition ShouldBind_login : M (bool * string * string) :=
  asks (fun w => let '(ok, name, pwd) := body_login (w_req w) in (ok && text_ok 64 name && text_ok 64 pwd, name, pwd)).

(** [utils.TruncateString]: at most [n] runes; a byte that is no rune becomes
    the replacement character. *)
Fixpoint take_runes (n : nat) (l : list ascii) : list ascii :=
  match n, l with
  | S n, a :: _ =>
    let w := rune_width l in
    ((if (w =? 1)%nat && (128 <=? ord a) then [chr 0xef; chr 0xbf; chr 0xbd] else take w l) ++
     take_runes n (drop w l))%list
  | _, _ => []
  end.
Definition TruncateString (s : string) (length : nat) : string :=
  if (RuneCount s <=? length)%nat then s else of_chars (take_runes length (chars s)).

(** * The table *)

Section Service.
(** Whether the n-th statement fails; AES-GCM with its random nonce and base64,
    sealed under the n-th nonce, and its inverse. *)
Context (fails : nat -> bool).
Context (seal : nat -> string -> string -> string) (open : string -> string -> option string).
Context (JwtSecret : list Z) (JwtExpire : Z).

(** [utils.EncryptString] and [utils.DecryptString]; [None] is the error. *)
Definition EncryptString (nonce : nat) (plaintext key : string) : option string :=
  let plaintext := TrimSpace plaintext in
  if bool_decide (plaintext = "") then Some ""
  else if negb (strlen key =? 32)%nat then None else Some (seal nonce key plaintext).
Definition DecryptString (encrypted key : string) : option string :=
  let encrypted := TrimSpace encrypted in
  if bool_decide (encrypted = "") then Some ""
  else if negb (strlen key =? 32)%nat then None else open key encrypted.

(** One statement: whether it was executed, and the tables. *)
Definition statement : M bool :=
  w ← st_get;
  _ ← st_modify (fun w => set_db (tick (w_db w)) w);
  mret (negb (fails (db_queries (w_db w)))).

Definition key : M string := asks (fun w => AesSecret (w_cfg w)).

(** The hooks of the model. *)
Definition AfterFind (k : string) (u : WebUser) : option WebUser := with_Pwd u <$> DecryptString (u_Pwd u) k.
Definition Before (n : nat) (k : string) (u : WebUser) : option WebUser := with_Pwd u <$> EncryptString n (u_Pwd u) k.

(** [Db.First(&user, cond)]: the row with the smallest id. *)
Definition first_row (P : WebUser -> bool) (l : list WebUser) : option WebUser :=
  fold_left (fun best u =>
    if P u then match best with Some b => if u_ID u <? u_ID b then Some u else best | None => Some u end else best)
    l None.
Definition First (P : WebUser -> bool) : M (option WebUser) :=
  ok ← statement; k ← key; l ← asks (fun w => db_users (w_db w));
  mret (if ok : bool then u ← first_row P l; AfterFind k u else None).

Definition FindByID (id : Z) : M (option WebUser) := First (fun u => u_ID u =? id).

Definition FindByNameAndPwd (name pwd : string) : M (option WebUser) :=
  user ← First (fun u => bool_decide (u_Name u = name));
  mret (u ← user; if bool_decide (u_Pwd u = pwd) then Some u else None).

(** [Db.Find(&user, cond)]: no row is no error. *)
Definition FindByName (name : string) : M (option (option WebUser)) :=
  ok ← statement; k ← key; l ← asks (fun w => db_users (w_db w));
  mret (if ok : bool then
          match first_row (fun u => bool_decide (u_Name u = name)) l with
          | None => Some None
          | Some u => Some <$> AfterFind k u
          end
        else None).

(** [Limit] below zero is none, [Offset] up to zero is none. *)
Definition FindAll (limit offset : Z) : M (option (list WebUser)) :=
  ok ← statement; k ← key; l ← asks (fun w => db_users (w_db w));
  let rows := filter (fun u => IsRoot u = "N") l in
  let rows := drop (Z.to_nat offset) rows in
  let rows := if limit <? 0 then rows else take (Z.to_nat limit) rows in
  mret (if ok : bool then mapM (AfterFind k) rows else None).

(** [Db.Create]: a free id, above all that were ever given when the row brings
    none, and a free name. *)
Definition insert_user (u : WebUser) (d : database) : option database :=
  let u := if u_ID u =? 0 then with_ID u (db_seq d + 1) else u in
  if existsb (fun v => (u_ID v =? u_ID u) || bool_decide (u_Name v = u_Name u)) (db_users d) then None
  else Some (set_users (db_users d ++ [u])%list (Z.max (db_seq d) (u_ID u)) d).
Definition Create (u : WebUser) : M bool :=
  w ← st_get;
  match Before (db_queries (w_db w)) (AesSecret (w_cfg w)) u with
  | None => mret false
  | Some u =>
    ok ← statement;
    w ← st_get;
    match (if ok : bool then insert_user u (w_db w) else None) with
    | Some d => _ ← st_modify (set_db d); mret true
    | None => mret false
    end
  end.

(** An update of the rows that satisfy [P]; the name of another row is refused. *)
Definition update_users (P : WebUser -> bool) (f : WebUser -> WebUser) (l : list WebUser) : option (list WebUser) :=
  let l' := (fun u => if P u then f u else u) <$> l in
  if bool_decide (NoDup (u_Name <$> l')) then Some l' else None.
Definition Updates (P : WebUser -> bool) (columns : WebUser -> WebUser -> WebUser) (u : WebUser) : M bool :=
  w ← st_get;
  match Before (db_queries (w_db w)) (AesSecret (w_cfg w)) u with
  | None => mret false
  | Some u =>
    ok ← statement;
    w ← st_get;
    match (if ok : bool then update_users P (columns u) (db_users (w_db w)) else None) with
    | Some l => _ ← st_modify (fun w => set_db (set_users l (db_seq (w_db w)) (w_db w)) w); mret true
    | None => mret false
    end
  end.

(** [Select("*").Omit("id", "is_root")] and [Select("*").Omit("id")]. *)
Definition UpdateById (id : Z) (u : WebUser) : M bool :=
  Updates (fun v => (u_ID v =? id) && bool_decide (IsRoot v = "N"))
    (fun u v => with_IsRoot (with_ID u (u_ID v)) (IsRoot v)) u.
Definition UpdatePassword (id : Z) (u : WebUser) : M bool :=
  Updates (fun v => u_ID v =? id) (fun u v => with_ID u (u_ID v)) u.

Definition DeleteByID (id : Z) : M bool :=
  ok ← statement;
  if ok : bool then
    _ ← st_modify (fun w =>
          let d := w_db w in
          set_db (set_users (filter (fun v => ~ (u_ID v = id /\ IsRoot v = "N")) (db_users d)) (db_seq d) d) w);
    mret true
  else mret false.

(** * The handlers *)

Definition UserFindAll : M unit :=
  l ← asks (fun w => Atoi (query_limit (w_req w)));
  match l with
  | None => JSON (Code 200 1)
  | Some limit =>
    o ← asks (fun w => Atoi (query_offset (w_req w)));
    match o with
    | None => JSON (Code 200 2)
    | Some offset =>
      data ← FindAll limit offset;
      match data with Some l => JSON (Users l) | None => JSON (Code 200 4) end
    end
  end.

Definition UserFindByID : M unit :=
  p ← asks (fun w => Atoi (param_id (w_req w)));
  match p with
  | None => JSON (Code 200 1)
  | Some id =>
    data ← FindByID (wrap 64 id);
    match data with Some u => JSON (Users [u]) | None => JSON (Code 200 3) end
  end.

Definition UserCreate : M unit :=
  b ← ShouldBind_user;
  match b with
  | None => JSON (Code 200 1)
  | Some user =>
    ok ← Create (with_IsRoot user "N");
    if ok : bool then UserFindAll else JSON (Code 200 3)
  end.

Definition ModifyPasswd : M unit :=
  b ← ShouldBind_text;
  match b with
  | None => JSON (Code 200 1)
  | Some pwd =>
    uid ← GetUint_uid;
    user ← FindByID uid;
    match user with
    | None => JSON (Code 200 2)
    | Some user =>
      ok ← UpdatePassword uid (with_Pwd user pwd);
      if ok : bool then JSON (Code 200 0) else JSON (Code 200 3)
    end
  end.

Definition CheckUserNameExists : M unit :=
  b ← asks (fun w => n ← body_text (w_req w); if text_ok 128 n then Some n else None);
  match b with
  | None => JSON (Code 200 1)
  | Some name =>
    r ← FindByName name;
    match r with
    | None => JSON (Code 200 3)
    | Some (Some u) => if negb (u_ID u =? 0) then JSON (Code 200 4) else JSON (Code 200 0)
    | Some None => JSON (Code 200 0)
    end
  end.

Definition UserUpdateById : M unit :=
  b ← ShouldBind_user;
  match b with
  | None => JSON (Code 200 1)
  | Some user =>
    tmp ← FindByID (u_ID user);
    match tmp with
    | None => JSON (Code 200 3)
    | Some tmpUser =>
      let user := if bool_decide (IsRoot tmpUser = "N") then with_IsRoot user "N" else user in
      if bool_decide (IsRoot tmpUser = "Y") then JSON (Code 200 4) else
      ok ← UpdateById (u_ID user) user;
      if ok : bool then UserFindAll else JSON (Code 200 5)
    end
  end.

Definition UserDeleteById : M unit :=
  p ← asks (fun w => Atoi (param_id (w_req w)));
  match p with
  | None => JSON (Code 200 1)
  | Some id =>
    tmp ← FindByID (wrap 64 id);
    match tmp with
    | None => JSON (Code 200 3)
    | Some tmpUser =>
      if bool_decide (IsRoot tmpUser = "Y") then JSON (Code 200 4) else
      ok ← DeleteByID (wrap 64 id);
      if ok : bool then UserFindAll else JSON (Code 200 5)
    end
  end.

(** ** Login *)

(** [loginAudit.Create]; its error is ignored. *)
Definition audit_Create (a : LoginAudit) : M unit :=
  ok ← statement;
  if ok : bool then st_modify (fun w => set_db (add_audit a (w_db w)) w) else mret tt.

Definition refuse (name pwd msg : string) (r : reply) : M unit :=
  _ ← audit_Create (mkLoginAudit name pwd msg "N"); JSON r.

Definition UserLogin : M unit :=
  init ← asks (fun w => IsInit (w_cfg w));
  if negb init then JSON (Code 401 401) else
  b ← ShouldBind_login;
  let '(ok, name, pwd) := b in
  let auditName := TruncateString name 60 in
  let auditPwd := TruncateString pwd 60 in
  if negb ok then refuse auditName auditPwd "请求参数错误" (Code 200 1) else
  u ← FindByNameAndPwd name pwd;
  match u with
  | None => refuse auditName auditPwd "账号密码错误" (Code 401 2)
  | Some u =>
    if bool_decide (IsEnable u = "N") then refuse auditName auditPwd "账号已禁用" (Code 401 3) else
    t ← now_seconds;
    if ExpiryAt u <? t then refuse auditName auditPwd "账号已过期" (Code 401 4) else
    now ← asks (fun w => rq_now (w_req w));
    _ ← audit_Create (mkLoginAudit name "*" "*" "Y");
    JSON (LoggedIn (GenerateToken JwtSecret JwtExpire (u_ID u) now) (IsRoot u) (IsAdmin u))
  end.

End Service.

(** * Facts *)

Lemma first_row_acc (P : WebUser -> bool) l best :
  match fold_left (fun (best : option WebUser) u =>
    if P u then match best with Some b => if u_ID u <? u_ID b then Some u else best | None => Some u end else best)
    l best with
  | Some u => best = Some u \/ (u ∈ l /\ P u = true)
  | None => best = None /\ Forall (fun u => P u = false) l
  end.
Proof.
  revert best. induction l as [|x l IH]; intros best; cbn [fold_left]; [destruct best; auto|].
  match goal with |- context [fold_left _ l ?b] => specialize (IH b) end. cbv beta zeta in IH |- *.
  destruct (P x) eqn:Hx; destruct best as [b|];
    repeat match type of IH with context [if u_ID x <? u_ID b then _ else _] => destruct (u_ID x <? u_ID b) end;
    destruct (fold_left _ l _) as [u|];
    repeat match goal with
    | H : _ /\ _ |- _ => destruct H
    | H : _ \/ _ |- _ => destruct H
    end; simplify_eq; auto using list_elem_of_here, list_elem_of_further.
Qed.

Lemma first_row_some P l u : first_row P l = Some u -> u ∈ l /\ P u = true.
Proof. intros H. pose proof (first_row_acc P l None) as Ha. unfold first_row in H. rewrite H in Ha. by destruct Ha. Qed.
Lemma first_row_none P l : first_row P l = None -> Forall (fun u => P u = false) l.
Proof. intros H. pose proof (first_row_acc P l None) as Ha. unfold first_row in H. rewrite H in Ha. by destruct Ha. Qed.

(** ** Steps of the state *)

Definition steps {A} (R : web -> web -> Prop) (m : M A) : Prop := forall w, R w (m w).2.

Section Steps.
Context (R : web -> web -> Prop) `{!PreOrder R}.

Lemma steps_ret {A} (a : A) : steps R (mret a).
Proof. intros w. reflexivity. Qed.
Lemma steps_get : steps R st_get.
Proof. intros w. reflexivity. Qed.
Lemma steps_asks {A} (f : web -> A) : steps R (asks f).
Proof. intros w. reflexivity. Qed.
Lemma steps_bind {A B} (m : M A) (f : A -> M B) : steps R m -> (forall a, steps R (f a)) -> steps R (m ≫= f).
Proof.
  intros Hm Hf w. specialize (Hm w). change ((m ≫= f) w) with (let '(a, w') := m w in f a w').
  destruct (m w) as [a w']. etrans; [exact Hm|apply Hf].
Qed.
(** The value asked for is one of the state. *)
Lemma steps_asked {A B} (f : web -> A) (g : A -> M B) : (forall w0, steps R (g (f w0))) -> steps R (asks f ≫= g).
Proof. intros Hg w. exact (Hg w w). Qed.
End Steps.

(** A change of the tables by everything but a change of passwords. *)
Record users_ok (d : database) : Prop := mkUsersOk {
  uk_ids : NoDup (u_ID <$> db_users d);
  uk_names : NoDup (u_Name <$> db_users d);
  uk_flags : Forall (fun u => yes_no (IsAdmin u) && yes_no (IsEnable u) && yes_no (IsRoot u) = true) (db_users d);
  uk_seq : Forall (fun u => u_ID u <= db_seq d) (db_users d) }.

Definition roots (d : database) : list WebUser := filter (fun u => IsRoot u = "Y") (db_users d).

Record admin_step (w w' : web) : Prop := mkAdminStep {
  as_ok : users_ok (w_db w) -> users_ok (w_db w');
  as_roots : roots (w_db w') = roots (w_db w);
  as_seq : db_seq (w_db w) <= db_seq (w_db w');
  as_rules : db_policies (w_db w') = db_policies (w_db w) /\ db_filters (w_db w') = db_filters (w_db w) }.

#[export] Instance admin_step_preorder : PreOrder admin_step.
Proof.
  split.
  - intros w. split; auto. lia.
  - intros w1 w2 w3 [H1 H2 H3 [H4 H5]] [G1 G2 G3 [G4 G5]]. split; [auto|congruence|lia|split; congruence].
Qed.

(** A step that leaves the users alone. *)
Lemma admin_step_same w w' :
  db_users (w_db w') = db_users (w_db w) -> db_seq (w_db w') = db_seq (w_db w) ->
  db_policies (w_db w') = db_policies (w_db w) -> db_filters (w_db w') = db_filters (w_db w) -> admin_step w w'.
Proof.
  intros Hu Hs Hp Hf. split; [|unfold roots; by rewrite Hu|lia|done].
  intros []. split; by rewrite ?Hu, ?Hs.
Qed.

Lemma steps_modify_same (f : web -> web) :
  (forall w, db_users (w_db (f w)) = db_users (w_db w) /\ db_seq (w_db (f w)) = db_seq (w_db w) /\
    db_policies (w_db (f w)) = db_policies (w_db w) /\ db_filters (w_db (f w)) = db_filters (w_db w)) ->
  steps admin_step (st_modify f).
Proof. intros H w. destruct (H w) as (? & ? & ? & ?). by apply admin_step_same. Qed.

Lemma steps_JSON r : steps admin_step (JSON r).
Proof. by apply steps_modify_same. Qed.

Create HintDb web_steps.
#[export] Hint Resolve steps_JSON : web_steps.

(** Walks through a handler. *)
Ltac web_walk :=
  repeat first
    [ apply steps_ret; exact _
    | apply steps_get; exact _
    | apply steps_asks; exact _
    | solve [auto with web_steps]
    | apply steps_bind; [exact _| |intros ?]
    | case_match ].

(** ** The model layer *)

Section ServiceFacts.
Context (fails : nat -> bool).
Context (seal : nat -> string -> string -> string) (open : string -> string -> option string).
Context (JwtSecret : list Z) (JwtExpire : Z).

Lemma steps_statement : steps admin_step (statement fails).
Proof.
  unfold statement. web_walk. by apply steps_modify_same.
Qed.
#[local] Hint Resolve steps_statement : web_steps.

Lemma steps_First P : steps admin_step (First fails open P).
Proof. unfold First, key. web_walk. Qed.
#[local] Hint Resolve steps_First : web_steps.

Lemma steps_FindAll limit offset : steps admin_step (FindAll fails open limit offset).
Proof. unfold FindAll, key. web_walk. Qed.
#[local] Hint Resolve steps_FindAll : web_steps.

Lemma steps_UserFindAll : steps admin_step (UserFindAll fails open).
Proof. unfold UserFindAll. web_walk. Qed.
#[local] Hint Resolve steps_UserFindAll : web_steps.

Lemma Before_fields n k u u' : Before seal n k u = Some u' -> u' = with_Pwd u (u_Pwd u').
Proof. unfold Before. destruct (EncryptString _ _ _ _); [|done]. by intros [= <-]. Qed.

(** The flags of a row that may be written. *)
Definition flags_ok (u : WebUser) : Prop := yes_no (IsAdmin u) && yes_no (IsEnable u) && yes_no (IsRoot u) = true.

Lemma insert_user_step u w d :
  IsRoot u = "N" -> flags_ok u -> insert_user u (w_db w) = Some d -> admin_step w (set_db d w).
Proof.
  intros Hr Hf. unfold insert_user. set (v := if u_ID u =? 0 then _ else u).
  assert (IsRoot v = "N" /\ flags_ok v) as [Hrv Hfv] by (unfold v; by destruct (u_ID u =? 0)).
  destruct (existsb _ _) eqn:He; [done|]. intros [= <-].
  rewrite <- not_true_iff_false, existsb_exists in He.
  split; [|unfold roots; simpl; rewrite filter_app, filter_cons_False, filter_nil, app_nil_r by congruence; done|simpl; lia|done].
  intros [Hids Hnames Hflags Hseq]. split; simpl; rewrite ?fmap_app.
  - apply NoDup_app. split; [done|]. split; [|apply NoDup_singleton].
    intros i (x & -> & Hx)%list_elem_of_fmap Hi%list_elem_of_singleton. apply He. exists x.
    split; [by apply list_elem_of_In|]. by rewrite Hi, Z.eqb_refl.
  - apply NoDup_app. split; [done|]. split; [|apply NoDup_singleton].
    intros i (x & -> & Hx)%list_elem_of_fmap Hi%list_elem_of_singleton. apply He. exists x.
    split; [by apply list_elem_of_In|]. rewrite Hi, bool_decide_eq_true_2 by done. apply orb_true_r.
  - apply Forall_app. split; [done|]. by repeat constructor.
  - apply Forall_app. split; [|repeat constructor; lia]. eapply Forall_impl; [done|]. intros x Hx. cbv beta in Hx. lia.
Qed.

Lemma steps_Create u : IsRoot u = "N" -> flags_ok u -> steps admin_step (Create fails seal u).
Proof.
  intros Hr Hf w. unfold Create. change ((st_get ≫= ?f) w) with (f w w). cbv beta.
  destruct (Before _ _ _ u) as [u'|] eqn:Hb; [|reflexivity]. apply Before_fields in Hb.
  pose proof (steps_statement w) as Hs.
  change ((statement fails ≫= ?f) w) with (let '(a, w') := statement fails w in f a w').
  destruct (statement fails w) as [ok w1]. cbn [snd] in Hs. change ((st_get ≫= ?f) w1) with (f w1 w1). cbv beta.
  destruct ok; [|exact Hs]. destruct (insert_user u' (w_db w1)) as [d|] eqn:Hi; [|exact Hs].
  etrans; [exact Hs|]. apply (insert_user_step u'); [by rewrite Hb|by rewrite Hb|done].
Qed.

(** An update of rows: [f] keeps the identity and the root flag of a row. *)
Lemma update_users_step P f w l :
  (forall v, u_ID (f v) = u_ID v) -> (forall v, P v = true -> IsRoot v = "N" /\ IsRoot (f v) = "N" /\ flags_ok (f v)) ->
  update_users P f (db_users (w_db w)) = Some l ->
  admin_step w (set_db (set_users l (db_seq (w_db w)) (w_db w)) w).
Proof.
  intros Hid HP. unfold update_users. case_bool_decide as Hn; [|done]. intros [= <-].
  assert (Hids : u_ID <$> ((fun u => if P u then f u else u) <$> db_users (w_db w)) = u_ID <$> db_users (w_db w)).
  { rewrite <- list_fmap_compose. apply list_fmap_ext. intros i v _. unfold compose. by destruct (P v). }
  split.
  - intros [Hi Hna Hf Hs]. split; simpl; [by rewrite Hids|done| |].
    + apply Forall_fmap. eapply Forall_impl; [exact Hf|]. intros v Hv. unfold compose. destruct (P v) eqn:Hp; [|done].
      by apply HP.
    + apply Forall_fmap. eapply Forall_impl; [exact Hs|]. intros v Hv. unfold compose. destruct (P v); [|done]. by rewrite Hid.
  - unfold roots. simpl. clear Hn Hids. induction (db_users (w_db w)) as [|v l IH]; [done|]. cbn [fmap list_fmap].
    destruct (P v) eqn:Hp.
    + destruct (HP v Hp) as (Hv & Hfv & _). rewrite !filter_cons_False by congruence. exact IH.
    + destruct (decide (IsRoot v = "Y")); [rewrite !filter_cons_True by done; by rewrite IH|
        rewrite !filter_cons_False by done; exact IH].
  - simpl. lia.
  - done.
Qed.

Lemma steps_UpdateById id u :
  yes_no (IsAdmin u) && yes_no (IsEnable u) = true -> steps admin_step (UpdateById fails seal id u).
Proof.
  intros Hf w. unfold UpdateById, Updates. change ((st_get ≫= ?f) w) with (f w w). cbv beta.
  destruct (Before _ _ _ u) as [u'|] eqn:Hb; [|reflexivity]. apply Before_fields in Hb.
  pose proof (steps_statement w) as Hs.
  change ((statement fails ≫= ?f) w) with (let '(a, w') := statement fails w in f a w').
  destruct (statement fails w) as [ok w1]. cbn [snd] in Hs. change ((st_get ≫= ?f) w1) with (f w1 w1). cbv beta.
  destruct ok; [|exact Hs].
  destruct (update_users _ _ _) as [l|] eqn:Hi; [|exact Hs].
  etrans; [exact Hs|]. eapply update_users_step; [| |exact Hi]; [done|].
  intros v [_ Hv%bool_decide_eq_true]%andb_true_iff. split; [done|]. split; [done|].
  unfold flags_ok. rewrite Hb. simpl. by rewrite Hf, Hv.
Qed.

Lemma steps_DeleteByID id : steps admin_step (DeleteByID fails id).
Proof.
  unfold DeleteByID. web_walk. intros w. cbn [st_modify snd]. split; simpl; [|  |lia|done].
  - intros [Hi Hn Hf Hs]. split; simpl.
    + eapply sublist_NoDup; [exact Hi|apply sublist_fmap, sublist_filter].
    + eapply sublist_NoDup; [exact Hn|apply sublist_fmap, sublist_filter].
    + by apply Forall_kept.
    + by apply Forall_kept.
  - unfold roots. simpl. rewrite list_filter_filter_l; [done|]. intros v Hv [_ Hn]. congruence.
Qed.

(** ** What the operations return *)

Definition ticked (w : web) : web := set_db (tick (w_db w)) w.

Lemma First_run P w :
  First fails open P w =
  (if negb (fails (db_queries (w_db w))) then u ← first_row P (db_users (w_db w)); AfterFind open (AesSecret (w_cfg w)) u
   else None, ticked w).
Proof. unfold First. reflexivity. Qed.

Lemma First_some P w u w' : First fails open P w = (Some u, w') ->
  w' = ticked w /\ exists row, row ∈ db_users (w_db w) /\ P row = true /\ u = with_Pwd row (u_Pwd u) /\
    DecryptString open (u_Pwd row) (AesSecret (w_cfg w)) = Some (u_Pwd u).
Proof.
  rewrite First_run. destruct (negb _); [|done]. destruct (first_row _ _) as [row|] eqn:Hr; [|done].
  cbn [mbind option_bind]. unfold AfterFind. destruct (DecryptString _ _ _) as [p|] eqn:Hd; [|done].
  intros [= <- <-]. split; [done|]. apply first_row_some in Hr as [Hin HP]. by exists row.
Qed.

Lemma audit_run a w :
  audit_Create fails a w = (tt, set_db (if fails (db_queries (w_db w)) then tick (w_db w) else add_audit a (tick (w_db w))) w).
Proof.
  unfold audit_Create, statement. cbv [mbind st_bind st_get st_modify mret st_ret]. cbn. by destruct (fails _).
Qed.

Lemma steps_audit a : steps admin_step (audit_Create fails a).
Proof. intros w. rewrite audit_run. by destruct (fails _); apply admin_step_same. Qed.

Lemma Updates_run P columns u w :
  Updates fails seal P columns u w =
  match Before seal (db_queries (w_db w)) (AesSecret (w_cfg w)) u with
  | None => (false, w)
  | Some u' =>
    match (if negb (fails (db_queries (w_db w))) then update_users P (columns u') (db_users (w_db w)) else None) with
    | Some l => (true, set_db (set_users l (db_seq (w_db w)) (tick (w_db w))) w)
    | None => (false, ticked w)
    end
  end.
Proof.
  unfold Updates. change ((st_get ≫= ?f) w) with (f w w). cbv beta. destruct (Before _ _ _ _); [|done].
  unfold statement. cbv [mbind st_bind st_get st_modify mret st_ret]. cbn [fst snd].
  destruct (negb _); [|done]. simpl db_users. by destruct (update_users _ _ _).
Qed.

Lemma row_unique d u v : users_ok d -> u ∈ db_users d -> v ∈ db_users d -> u_ID u = u_ID v -> u = v.
Proof.
  intros Hd Hu Hv He. apply list_elem_of_lookup in Hu as [i Hi], Hv as [j Hj].
  assert (i = j) as ->; [|congruence].
  apply (NoDup_lookup (u_ID <$> db_users d) i j (u_ID u)); [apply (uk_ids _ Hd)| |]; rewrite list_lookup_fmap; [by rewrite Hi|by rewrite Hj, He].
Qed.

(** The cipher opens what it sealed, and its text is base64. *)
Definition cipher_ok : Prop :=
  forall n k p, open k (seal n k p) = Some p /\ TrimSpace (seal n k p) = seal n k p /\ seal n k p <> "".

Lemma Decrypt_Encrypt n p k c : cipher_ok -> EncryptString seal n p k = Some c -> DecryptString open c k = Some (TrimSpace p).
Proof.
  intros Hc. unfold EncryptString, DecryptString. case_bool_decide as He; [intros [= <-]; by rewrite He|].
  destruct (strlen k =? 32)%nat; [|done]. intros [= <-]. destruct (Hc n k (TrimSpace p)) as (Ho & Ht & Hne).
  rewrite Ht. by rewrite bool_decide_eq_false_2.
Qed.

Lemma users_ok_passwords f d :
  users_ok d -> (forall v, v ∈ db_users d -> exists p, f v = with_Pwd v p) ->
  users_ok (set_users (f <$> db_users d) (db_seq d) d).
Proof.
  intros [Hi Hn Hf Hs] Hp.
  assert (Hsame : forall A (g : WebUser -> A), (forall v p, g (with_Pwd v p) = g v) ->
    g <$> (f <$> db_users d) = g <$> db_users d).
  { intros A g Hg. rewrite <- list_fmap_compose. apply list_fmap_ext. intros i v Hv. unfold compose.
    destruct (Hp v) as [p ->]; [by eapply list_elem_of_lookup_2|done]. }
  split; simpl; rewrite ?Hsame by done; try done; apply Forall_fmap, Forall_forall; intros v Hv; unfold compose;
    destruct (Hp v Hv) as [p ->]; rewrite Forall_forall in Hf, Hs; first [exact (Hf v Hv)|exact (Hs v Hv)].
Qed.

End ServiceFacts.

#[export] Hint Resolve steps_statement steps_First steps_FindAll steps_UserFindAll steps_audit steps_DeleteByID : web_steps.

Lemma bound_user w :
  (exists u, (u ← body_user (w_req w); if WebUser_valid u then Some u else None) = Some u /\
             yes_no (IsAdmin u) && yes_no (IsEnable u) = true) \/
  (u ← body_user (w_req w); if WebUser_valid u then Some u else None) = None.
Proof.
  destruct (body_user (w_req w)) as [u|]; [|by right]. cbn [mbind option_bind].
  destruct (WebUser_valid u) eqn:Hv; [|by right]. left. exists u. split; [done|]. unfold WebUser_valid in Hv.
  destruct (yes_no (IsAdmin u)), (yes_no (IsEnable u)); try done; by rewrite ?andb_false_r in Hv.
Qed.

(** What a change of password does to the tables. *)
Definition same_tables (d d' : database) : Prop :=
  db_seq d' = db_seq d /\ db_policies d' = db_policies d /\ db_filters d' = db_filters d.

Lemma ModifyPasswd_rows fails seal open (w : web) :
  users_ok (w_db w) ->
  let w' := (ModifyPasswd fails seal open w).2 in
  users_ok (w_db w') /\ same_tables (w_db w) (w_db w') /\ exists r, w_replies w' = (w_replies w ++ [r])%list /\
  (r <> Code 200 0 /\ db_users (w_db w') = db_users (w_db w) \/
   r = Code 200 0 /\ exists row pwd n stored,
     row ∈ db_users (w_db w) /\ u_ID row = default 0 (w_uid w) /\ body_text (w_req w) = Some pwd /\
     EncryptString seal n pwd (AesSecret (w_cfg w)) = Some stored /\
     db_users (w_db w') = (fun v => if u_ID v =? u_ID row then with_Pwd v stored else v) <$> db_users (w_db w)).
Proof.
  intros Hok. unfold ModifyPasswd, ShouldBind_text. change ((asks ?f ≫= ?g) w) with (g (f w) w). cbv beta.
  destruct (body_text (w_req w)) as [pwd|] eqn:Hb; [|split; [done|]; split; [done|]; eexists; split; [done|by left]]. cbn [mbind option_bind].
  destruct (text_ok 64 pwd); [|split; [done|]; split; [done|]; eexists; split; [done|by left]].
  unfold GetUint_uid. change ((asks ?f ≫= ?g) w) with (g (f w) w). cbv beta. unfold FindByID.
  change ((First ?a ?b ?c ≫= ?f) w) with (let '(u, w') := First a b c w in f u w').
  destruct (First _ _ _ w) as [[u|] w1] eqn:Hf.
  2:{ rewrite First_run in Hf. injection Hf as _ <-. split; [by destruct Hok|]. split; [done|]. eexists. split; [done|by left]. }
  apply First_some in Hf as (-> & row & Hrow & Hid & Hu & _). apply Z.eqb_eq in Hid.
  unfold UpdatePassword. change ((Updates ?a ?b ?c ?d ?e ≫= ?f) ?x) with (let '(ok, w') := Updates a b c d e x in f ok w').
  rewrite Updates_run. cbn [ticked set_db w_db w_cfg tick db_queries db_users db_seq].
  destruct (Before _ _ _ (with_Pwd u pwd)) as [u'|] eqn:Henc.
  2:{ split; [by destruct Hok|]. split; [done|]. eexists. split; [done|by left]. }
  destruct (if negb _ then _ else None) as [l|] eqn:Hup.
  2:{ split; [by destruct Hok|]. split; [done|]. eexists. split; [done|by left]. }
  destruct (negb _); [|done]. unfold update_users in Hup. case_bool_decide; [|done]. injection Hup as <-.
  unfold Before in Henc. destruct (EncryptString _ _ _ _) as [stored|] eqn:Hst; [|done]. injection Henc as <-.
  assert (Hrows : forall v, v ∈ db_users (w_db w) ->
    (if u_ID v =? default 0 (w_uid w) then with_ID (with_Pwd (with_Pwd u pwd) stored) (u_ID v) else v) =
    (if u_ID v =? u_ID row then with_Pwd v stored else v)).
  { intros v Hv. rewrite <- Hid. destruct (Z.eqb_spec (u_ID v) (u_ID row)) as [He|]; [|done].
    rewrite (row_unique _ _ _ Hok Hv Hrow He), Hu. done. }
  assert (Hmap : (fun v => if u_ID v =? default 0 (w_uid w) then with_ID (with_Pwd (with_Pwd u pwd) stored) (u_ID v) else v)
      <$> db_users (w_db w) = (fun v => if u_ID v =? u_ID row then with_Pwd v stored else v) <$> db_users (w_db w)).
  { apply list_fmap_ext. intros i v Hv. apply Hrows. by eapply list_elem_of_lookup_2. }
  split.
  - cbn [JSON st_modify snd add_reply set_db w_db]. rewrite Hmap.
    pose proof (users_ok_passwords (fun v => if u_ID v =? u_ID row then with_Pwd v stored else v) (w_db w) Hok) as [? ? ? ?].
    { intros v _. destruct (_ =? _); [by exists stored|]. exists (u_Pwd v). by destruct v. }
    by split.
  - split; [done|]. eexists. split; [done|]. right. split; [done|]. eexists row, pwd, _, stored. by split_and!.
Qed.

(** * Properties *)

(** C7: Every handler of user management but the change of one's own password
    keeps the table of users well formed - distinct ids and names, flags that
    are Y or N, ids below the sequence - and leaves the rows of built-in root
    users and the network rules as they are; ids are only ever given upwards.
    The change of a password keeps the table well formed as well and changes
    no column of no row but the password of the caller's own row, who may be a
    root user. *)
Theorem admin_handlers_safe fails seal open JwtSecret JwtExpire (w : web) :
  (forall h : M unit,
     h ∈ [UserCreate fails seal open; UserUpdateById fails seal open; UserDeleteById fails open; UserFindAll fails open;
          UserFindByID fails open; CheckUserNameExists fails open; UserLogin fails open JwtSecret JwtExpire] ->
     admin_step w (h w).2) /\
  (users_ok (w_db w) ->
   let w' := (ModifyPasswd fails seal open w).2 in
   users_ok (w_db w') /\ same_tables (w_db w) (w_db w') /\
   (db_users (w_db w') = db_users (w_db w) \/
    exists row stored, row ∈ db_users (w_db w) /\ u_ID row = default 0 (w_uid w) /\
      db_users (w_db w') = (fun v => if u_ID v =? u_ID row then with_Pwd v stored else v) <$> db_users (w_db w))).
Proof.
  split.
  2:{ intros Hok. destruct (ModifyPasswd_rows fails seal open w Hok) as (Hok' & Ht & r & _ & H). split_and!; [done|apply Ht..|].
      destruct H as [[_ ?]|(_ & row & pwd & n & stored & ? & ? & _ & _ & ?)]; [by left|right]. by exists row, stored. }
  intros h Hh. revert w. change (steps admin_step h). repeat (apply elem_of_cons in Hh as [->|Hh]); [| | | | | | |by inversion Hh].
  - unfold UserCreate, ShouldBind_user. apply steps_asked. intros w0. cbv beta. destruct (bound_user w0) as [(u & -> & Hf)| ->].
    + apply steps_bind; [exact _| |intros []; auto with web_steps]. apply steps_Create; [done|].
      unfold flags_ok. simpl. by rewrite Hf.
    + auto with web_steps.
  - unfold UserUpdateById, ShouldBind_user, FindByID. apply steps_asked. intros w0. cbv beta.
    destruct (bound_user w0) as [(u & -> & Hf)| ->]; [|auto with web_steps].
    apply steps_bind; [exact _|auto with web_steps|]. intros [tmp|]; [|auto with web_steps].
    case_bool_decide; [auto with web_steps|].
    apply steps_bind; [exact _| |intros []; auto with web_steps]. apply steps_UpdateById. by case_bool_decide.
  - unfold UserDeleteById, FindByID. web_walk.
  - auto with web_steps.
  - unfold UserFindByID, FindByID. web_walk.
  - unfold CheckUserNameExists, FindByName, key. web_walk.
  - unfold UserLogin, refuse, FindByNameAndPwd, ShouldBind_login, now_seconds. web_walk.
Qed.

(** A change of password writes nothing but the password of the caller's own
    row, and the password stored is the one sent without the spaces around it;
    a request that is refused changes no row. *)
Theorem ModifyPasswd_spec fails seal open (w : web) :
  cipher_ok seal open -> users_ok (w_db w) ->
  let w' := (ModifyPasswd fails seal open w).2 in
  users_ok (w_db w') /\ exists r, w_replies w' = (w_replies w ++ [r])%list /\
  (r <> Code 200 0 /\ db_users (w_db w') = db_users (w_db w) \/
   r = Code 200 0 /\ exists row pwd stored,
     row ∈ db_users (w_db w) /\ u_ID row = default 0 (w_uid w) /\ body_text (w_req w) = Some pwd /\
     DecryptString open stored (AesSecret (w_cfg w)) = Some (TrimSpace pwd) /\
     db_users (w_db w') = (fun v => if u_ID v =? u_ID row then with_Pwd v stored else v) <$> db_users (w_db w)).
Proof.
  intros Hc Hok. destruct (ModifyPasswd_rows fails seal open w Hok) as (Hok' & _ & r & Hr & H). split; [done|].
  exists r. split; [done|]. destruct H as [?|(? & row & pwd & n & stored & ? & ? & ? & ? & ?)]; [by left|right].
  split; [done|]. exists row, pwd, stored. split_and!; try done. by eapply Decrypt_Encrypt.
Qed.

(** What a login needs of a row. *)
Definition admits (open : string -> string -> option string) (w : web) (name pwd : string) (row : WebUser) : Prop :=
  row ∈ db_users (w_db w) /\ u_Name row = name /\ DecryptString open (u_Pwd row) (AesSecret (w_cfg w)) = Some pwd /\
  IsEnable row <> "N" /\ seconds (rq_now (w_req w)) <= ExpiryAt row.

(** What an attempt leaves: one reply [r], one record [a], and whom [r] lets in. *)
Definition login_answer fails open JwtSecret JwtExpire (w w' : web) (r : reply) (a : LoginAudit) : Prop :=
  let '(ok, name, pwd) := body_login (w_req w) in
  w_replies w' = (w_replies w ++ [r])%list /\ db_users (w_db w') = db_users (w_db w) /\
  (db_audits (w_db w') = (db_audits (w_db w) ++ [a])%list \/
   db_audits (w_db w') = db_audits (w_db w) /\ exists n, fails n = true) /\
  match r with
  | LoggedIn t root admin =>
    exists row, admits open w name pwd row /\ t = GenerateToken JwtSecret JwtExpire (u_ID row) (rq_now (w_req w)) /\
      root = IsRoot row /\ admin = IsAdmin row /\ a = mkLoginAudit name "*" "*" "Y"
  | Code _ _ =>
    la_Name a = TruncateString name 60 /\ la_Pwd a = TruncateString pwd 60 /\ IsSuccess a = "N" /\
    forall row, ok && text_ok 64 name && text_ok 64 pwd = true -> fails (db_queries (w_db w)) = false ->
      ~ admits open w name pwd row
  | _ => False
  end.

(** [w1] is [w] but for the number of statements. *)
Lemma refuse_answer fails open JwtSecret JwtExpire w w1 msg s c :
  let '(ok, name, pwd) := body_login (w_req w) in
  w1 = w \/ w1 = ticked w ->
  (forall row, ok && text_ok 64 name && text_ok 64 pwd = true -> fails (db_queries (w_db w)) = false ->
     ~ admits open w name pwd row) ->
  login_answer fails open JwtSecret JwtExpire w
    (refuse fails (TruncateString name 60) (TruncateString pwd 60) msg (Code s c) w1).2 (Code s c)
    (mkLoginAudit (TruncateString name 60) (TruncateString pwd 60) msg "N").
Proof.
  unfold login_answer. destruct (body_login (w_req w)) as [[ok name] pwd]. intros Hw1 Hno. unfold refuse.
  change ((audit_Create ?a ?b ≫= ?f) w1) with (let '(u, w') := audit_Create a b w1 in f u w').
  rewrite audit_run. cbn [JSON st_modify snd add_reply w_replies set_db w_db].
  destruct (fails (db_queries (w_db w1))) eqn:Hf; destruct Hw1 as [-> | ->]; simpl in *; split_and!; eauto.
Qed.

Lemma first_row_name w name row : users_ok (w_db w) -> row ∈ db_users (w_db w) -> u_Name row = name ->
  first_row (fun u => bool_decide (u_Name u = name)) (db_users (w_db w)) = Some row.
Proof.
  intros Hok Hrow Hname. destruct (first_row _ _) as [u|] eqn:Hf.
  - apply first_row_some in Hf as [Hu Hn%bool_decide_eq_true]. f_equal.
    apply list_elem_of_lookup in Hu as [i Hi], Hrow as [j Hj]. assert (i = j) as ->; [|congruence].
    apply (NoDup_lookup (u_Name <$> db_users (w_db w)) i j name); [apply (uk_names _ Hok)| |];
      rewrite list_lookup_fmap; [rewrite Hi|rewrite Hj]; simpl; congruence.
  - apply first_row_none in Hf. rewrite Forall_forall in Hf. specialize (Hf _ Hrow). cbv beta in Hf.
    by apply bool_decide_eq_false in Hf.
Qed.

(** Login.  After the initialisation every attempt is answered once and
    recorded once, unless the audit itself fails, with the name; a token is
    given exactly for the name and password of an enabled, unexpired row - it is
    that row's token - and then the record holds no password. *)
Theorem UserLogin_spec fails open JwtSecret JwtExpire (w : web) :
  IsInit (w_cfg w) = true -> users_ok (w_db w) ->
  exists r a, login_answer fails open JwtSecret JwtExpire w (UserLogin fails open JwtSecret JwtExpire w).2 r a.
Proof.
  intros Hinit Hok. pose proof (fun w1 msg s c => refuse_answer fails open JwtSecret JwtExpire w w1 msg s c) as Hrefuse.
  unfold UserLogin. change ((asks ?f ≫= ?g) w) with (g (f w) w). cbv beta. rewrite Hinit. cbn [negb].
  unfold ShouldBind_login. change ((asks ?f ≫= ?g) w) with (g (f w) w). cbv beta.
  destruct (body_login (w_req w)) as [[ok name] pwd] eqn:Hbody.
  destruct (ok && text_ok 64 name && text_ok 64 pwd) eqn:Hbind; cbn [negb].
  2:{ eexists _, _. apply Hrefuse; [by left|done]. }
  unfold FindByNameAndPwd. change (((First ?a ?b ?c ≫= ?g) ≫= ?f) w) with
    (let '(u, w') := First a b c w in let '(v, w') := g u w' in f v w').
  rewrite First_run. cbv [mret st_ret].
  destruct (negb (fails (db_queries (w_db w)))) eqn:Hf.
  2:{ eexists _, _. apply Hrefuse; [by right|]. intros row _ Hf'. by rewrite Hf' in Hf. }
  assert (Hadm : forall row, admits open w name pwd row ->
    first_row (fun u => bool_decide (u_Name u = name)) (db_users (w_db w)) = Some row).
  { intros row (H1 & H2 & _). by apply first_row_name. }
  destruct (first_row _ _) as [row|] eqn:Hrow.
  2:{ eexists _, _. apply Hrefuse; [by right|]. intros row _ _ H%Hadm. done. }
  cbn [mbind option_bind]. unfold AfterFind.
  destruct (DecryptString open (u_Pwd row) _) as [p|] eqn:Hdec.
  2:{ eexists _, _. apply Hrefuse; [by right|]. intros row' _ _ H. apply Hadm in H as Hr. simplify_eq.
      destruct H as (_ & _ & Hd & _). congruence. }
  cbn [fmap option_fmap option_map mbind option_bind]. case_bool_decide as Hp; simpl in Hp.
  2:{ eexists _, _. apply Hrefuse; [by right|]. intros row' _ _ H. apply Hadm in H as Hr. simplify_eq.
      destruct H as (_ & _ & Hd & _). congruence. }
  subst p. apply first_row_some in Hrow as [Hin Hn%bool_decide_eq_true]. simpl IsEnable. case_bool_decide as Hen.
  { eexists _, _. apply Hrefuse; [by right|]. intros row' _ _ H. apply Hadm in H as Hr. simplify_eq.
    by destruct H as (_ & _ & _ & Hd & _). }
  unfold now_seconds. change ((asks ?f ≫= ?g) ?w) with (g (f w) w). cbv beta. change (ExpiryAt (with_Pwd row pwd)) with (ExpiryAt row).
  destruct (Z.ltb_spec (ExpiryAt row) (seconds (rq_now (w_req (ticked w))))) as [Hexp|Hexp].
  { eexists _, _. apply Hrefuse; [by right|]. intros row' _ _ H. apply Hadm in H as Hr. simplify_eq.
    destruct H as (_ & _ & _ & _ & Hd). simpl in Hexp. lia. }
  change ((asks ?f ≫= ?g) ?w) with (g (f w) w). cbv beta.
  change ((audit_Create ?a ?b ≫= ?f) ?w1) with (let '(u, w') := audit_Create a b w1 in f u w').
  rewrite audit_run. eexists (LoggedIn _ _ _), (mkLoginAudit name "*" "*" "Y"). unfold login_answer. rewrite Hbody.
  cbn [JSON st_modify snd add_reply w_replies set_db w_db]. split_and!.
  - done.
  - by destruct (fails (db_queries (w_db (ticked w)))).
  - destruct (fails (db_queries (w_db (ticked w)))) eqn:Hf2; [right; split; [done|by eexists]|by left].
  - exists row. by split_and!.
Qed.

(** * Concrete inputs *)

(** A cipher that can be looked through. *)
Definition toy_seal (_ : nat) (_ p : string) : string := "[" +++ p +++ "]".
Definition toy_open (_ s : string) : option string := Some (of_chars (removelast (tail (chars s)))).

Lemma toy_cipher_ok : cipher_ok toy_seal toy_open.
Proof.
  intros n k p. unfold toy_seal, toy_open. rewrite !chars_append. change (chars "[") with [chr 91]. change (chars "]") with [chr 93].
  split_and!; [| |done].
  - cbn [app tail]. rewrite removelast_last. by rewrite of_chars_chars.
  - unfold TrimSpace, trim_by. rewrite !chars_append. change (chars "[") with [chr 91]. change (chars "]") with [chr 93].
    cbn [app drop_while]. change (is_space (chr 91)) with false. cbv iota.
    change (chr 91 :: chars p ++ [chr 93])%list with ((chr 91 :: chars p) ++ [chr 93])%list. rewrite rev_app_distr.
    cbn [rev app drop_while]. change (is_space (chr 93)) with false. cbv iota. cbn [rev].
    rewrite !rev_app_distr, rev_involutive. apply chars_inj. rewrite chars_of_chars, !chars_append. done.
Qed.

Definition some_user (id : Z) (name pwd root : string) : WebUser := mkWebUser id name pwd "-" "Y" "Y" root 4102358400.
Definition some_db : database :=
  mkDatabase [some_user 1 "root" "[secret]" "Y"; some_user 2 "ann" "[pass]" "N"] 2 [mkPolicyConf 1 "N"] [] [] 0.
Definition some_request : request :=
  mkRequest "PUT" "/api/user" "192.168.0.7" "" "" (1767225600 * 10 ^ 9) "2" "10000" "0"
    (Some (some_user 2 "anne" "new" "Y")) (Some " new ") (true, "ann", "pass").
Definition some_web : web :=
  mkWeb (mkAppConfig true "" "0123456789abcdef0123456789abcdef") true some_db some_request (Some 2) None [].

Lemma some_web_ok : users_ok some_db.
Proof.
  split; simpl.
  - apply (bool_decide_unpack _). vm_compute. exact I.
  - apply (bool_decide_unpack _). vm_compute. exact I.
  - rewrite !Forall_cons. by split_and!.
  - rewrite !Forall_cons. simpl. split_and!; [lia|lia|done].
Qed.

Lemma admin_handlers_safe_witness :
  let w' := (UserUpdateById (fun _ => false) toy_seal toy_open some_web).2 in
  admin_step some_web w' /\ u_Name <$> db_users (w_db w') = ["root"; "anne"] /\ IsRoot <$> db_users (w_db w') = ["Y"; "N"] /\
  users_ok (w_db (ModifyPasswd (fun _ => false) toy_seal toy_open some_web).2).
Proof.
  split; [|split; [by vm_compute|split; [by vm_compute|
    by apply (admin_handlers_safe (fun _ => false) toy_seal toy_open [] 0 some_web), some_web_ok]]].
  apply (admin_handlers_safe (fun _ => false) toy_seal toy_open [] 0 some_web); right; left.
Defined.

Lemma ModifyPasswd_spec_witness :
  let w' := (ModifyPasswd (fun _ => false) toy_seal toy_open some_web).2 in
  users_ok (w_db w') /\ u_Pwd <$> db_users (w_db w') = ["[secret]"; "[new]"].
Proof.
  split; [|by vm_compute]. exact (proj1 (ModifyPasswd_spec (fun _ => false) toy_seal toy_open some_web toy_cipher_ok some_web_ok)).
Defined.

Lemma UserLogin_spec_witness :
  exists a, login_answer (fun _ => false) toy_open [] 0 some_web (UserLogin (fun _ => false) toy_open [] 0 some_web).2
    (LoggedIn (GenerateToken [] 0 2 (1767225600 * 10 ^ 9)) "N" "Y") a.
Proof.
  destruct (UserLogin_spec (fun _ => false) toy_open [] 0 some_web eq_refl some_web_ok) as (r & a & H). exists a.
  assert (w_replies (UserLogin (fun _ => false) toy_open [] 0 some_web).2 =
    [LoggedIn (GenerateToken [] 0 2 (1767225600 * 10 ^ 9)) "N" "Y"]) as Hr by reflexivity.
  pose proof H as H0. destruct H0 as (Hr' & _). rewrite Hr in Hr'. by injection Hr' as <-.
Defined.
