(* ===== verification/Access.v ===== *)
(** The guards of the web service, [src/gossh/app/middleware/], the routes of
    [src/gossh/main.go] they protect, and the chain that serves a request.

    A guard is a [Gin.handler] over the state [WebUser.web].  Theorems: the
    network filter decides by the rules that are in force; a protected handler
    runs only after every guard has passed; the administrator check covers its
    routes under a base directory in normal form, and covers none of them under
    the same directory written with a slash at its end. *)

From S2P Require Import Prelude GoInt GoSort GoStrings Effects Jwt NetIP Gin WebUser.
Open Scope string_scope.
Open Scope Z_scope.

(** * The network filter *)

(** [order by policy_no asc, expiry_at, updated_at desc]. *)
Definition rule_less (f g : WebUser.NetFilter) : bool :=
  (PolicyNo f <? PolicyNo g) ||
  ((PolicyNo f =? PolicyNo g) &&
   ((nf_ExpiryAt f <? nf_ExpiryAt g) ||
    ((nf_ExpiryAt f =? nf_ExpiryAt g) && (nf_UpdatedAt g <? nf_UpdatedAt f)))).

(** A rule of [policy] that has not expired. *)
Definition in_force (policy : string) (now : Z) (f : WebUser.NetFilter) : Prop :=
  nf_NetPolicy f = policy /\ now < nf_ExpiryAt f * 10 ^ 9.
#[export] Instance in_force_dec policy now f : Decision (in_force policy now f).
Proof. unfold in_force. apply _. Defined.

(** The loops over the rules: [hit] is the answer of a rule that contains the
    address, [rest] that of none. *)
Fixpoint scan (hit rest : bool) (ip : option (list Z)) (l : list WebUser.NetFilter) : bool :=
  match l with
  | [] => rest
  | item :: l =>
    match ParseCIDR (Cidr item) with
    | None => false
    | Some ipNet => if net_contains ipNet ip then hit else scan hit rest ip l
    end
  end.

Section Guards.
Context `{SortSlice}.
(** The n-th statement fails; the n-th migration fails; the cipher; the tokens. *)
Context (fails : nat -> bool) (migrate_fails : nat -> bool).
Context (open : string -> string -> option string).
Context (syntaxError : list Z -> string) (hmac_sha384 hmac_sha512 : list Z -> list Z -> list Z).
Context (JwtSecret : list Z) (JwtExpire : Z).

Definition PolicyConf_FindByID (id : Z) : M (option PolicyConf) :=
  ok ← statement fails; l ← asks (fun w => db_policies (w_db w));
  mret (if ok : bool then List.find (fun p => pc_ID p =? id) l else None).

Definition FindAllPolicy (policy : string) : M (option (list WebUser.NetFilter)) :=
  ok ← statement fails; l ← asks (fun w => db_filters (w_db w)); now ← asks (fun w => rq_now (w_req w));
  mret (if ok : bool then Some (sortSlice rule_less (filter (in_force policy now) l)) else None).

(** An error of [FindAllPolicy] is logged and the empty list used. *)
Definition check (ip : option (list Z)) : M bool :=
  conf ← PolicyConf_FindByID 1;
  match conf with
  | None => mret false
  | Some conf =>
    if bool_decide (pc_NetPolicy conf = "Y") then
      list ← FindAllPolicy "Y"; mret (scan true false ip (default [] list))
    else if bool_decide (pc_NetPolicy conf = "N") then
      list ← FindAllPolicy "N"; mret (scan false true ip (default [] list))
    else mret false
  end.

(** * The guards *)

(** [model.DbMigrate] opens the database of the configuration again. *)
Definition DbMigrate : M bool :=
  w ← st_get;
  _ ← st_modify (fun w => set_db (tick (w_db w)) w);
  mret (migrate_fails (db_queries (w_db w))).

Definition DbCheck : handler web :=
  Run (asks (fun w => IsInit (w_cfg w))) (fun init : bool =>
  if negb init then Next Return else
  Run (asks w_open) (fun is_open : bool =>
  if is_open then
    Run (statement fails) (fun ok : bool =>
    if ok then Next (Next Return)
    else Run DbMigrate (fun err : bool =>
         if err then Abort (Run (JSON (Code 500 500)) (fun _ => Return)) else Next Return))
  else Next Return)).

(** Without a database the first statement of [check] dereferences nil. *)
Definition NetFilter : handler web :=
  Run (asks (fun w => IsInit (w_cfg w))) (fun init : bool =>
  if negb init then Next Return else
  Run (asks w_open) (fun is_open : bool =>
  if negb is_open then Crash else
  Run (asks (fun w => ParseIP (RemoteIP (w_req w)))) (fun ip =>
  Run (check ip) (fun ok : bool =>
  if negb ok then Run (JSON (Denied 403)) (fun _ => Abort Return) else Next Return)))).

Definition SysInit : handler web :=
  Run (asks (fun w => IsInit (w_cfg w))) (fun init : bool =>
  if negb init then Abort (Run (JSON (Code 401 401)) (fun _ => Return)) else Next Return).

(** The token a request brings: the header, else the query. *)
Definition sent_token (r : request) : string :=
  if bool_decide (hdr_Authorization r = "") then query_Authorization r else hdr_Authorization r.

Definition decide_token (w : web) : auth :=
  JWTAuth_decision syntaxError hmac_sha384 hmac_sha512 JwtSecret JwtExpire (sent_token (w_req w)) (rq_now (w_req w)).

Definition JWTAuth : handler web :=
  Run (asks (fun w => sent_token (w_req w))) (fun auth =>
  if bool_decide (auth = "") then Abort (Run (JSON (Code 401 401)) (fun _ => Return)) else
  Run (asks decide_token) (fun d =>
  match d with
  | Accepted uid None => Run (st_modify (set_uid uid)) (fun _ => Next Return)
  | Accepted uid (Some newToken) =>
    Run (st_modify (set_NewToken newToken)) (fun _ => Run (st_modify (set_uid uid)) (fun _ => Next Return))
  | Rejected => Abort (Run (JSON (Code 401 401)) (fun _ => Return))
  | Fault => Crash
  end)).

Definition checkRoute : list string :=
  ["GET:/api/sshd_cert"; "GET:/api/sshd_cert_text"; "GET:/api/sshd_cert/:id"; "GET:/api/sshd_user";
   "GET:/api/sshd_user/:id"; "GET:/api/sys/is_init"; "GET:/api/sys/config"; "GET:/api/conn_manage/online_client";
   "GET:/api/policy_conf"; "GET:/api/policy_conf/:id"; "GET:/api/net_filter"; "GET:/api/net_filter/:id";
   "GET:/api/user"; "GET:/api/user/:id"; "POST:/api/sshd_user"; "POST:/api/sshd_cert"; "POST:/api/sys/db_conn_check";
   "POST:/api/sys/init"; "POST:/api/sys/config"; "POST:/api/login_audit"; "POST:/api/policy_conf";
   "POST:/api/net_filter"; "POST:/api/user"; "PUT:/api/sshd_user"; "PUT:/api/sshd_cert"; "PUT:/api/policy_conf";
   "PUT:/api/net_filter"; "PUT:/api/user"; "DELETE:/api/sshd_user/:id"; "DELETE:/api/sshd_cert/:id";
   "DELETE:/api/policy_conf/:id"; "DELETE:/api/net_filter/:id"; "DELETE:/api/user/:id";
   "PATCH:/api/sshd_user/check_name_exists"; "PATCH:/api/sshd_cert/check_name_exists";
   "PATCH:/api/user/check_name_exists"].

(** The route as the list names it. *)
Definition checked_name (base method full : string) : string :=
  let baseDir := TrimFunc (fun c => ord c =? 32) base in
  let tmp := if negb (bool_decide (baseDir = "")) && HasPrefix full baseDir then TrimPrefix full baseDir else full in
  method +++ ":" +++ tmp.
Definition needs_admin (w : web) : bool :=
  bool_decide (checked_name (WebBaseDir (w_cfg w)) (Method (w_req w)) (FullPath (w_req w)) ∈ checkRoute).

Definition PremCheck : handler web :=
  Run (asks needs_admin) (fun checked : bool =>
  if checked then
    Run (uid ← GetUint_uid; FindByID fails open uid) (fun u =>
    if match u with Some u => bool_decide (IsAdmin u = "N") | None => true end
    then Run (JSON (Code 200 403)) (fun _ => Abort Return)
    else Next Return)
  else Next Return).

(** * The chain of a protected route *)

(** [gin.Default()], the guards of the engine, those of the group, the handler. *)
Definition engine_handlers : list (handler web) :=
  [Logger; Recovery (fun code => add_reply (Denied code)); DbCheck; NetFilter].
Definition auth_group : list (handler web) := [SysInit; JWTAuth; PremCheck].
Definition protected (h : handler web) : go Empty_set (list (handler web)) :=
  g ← combineHandlers engine_handlers auth_group; combineHandlers g [h].

End Guards.

(** The routes behind the guards. *)
Definition auth_routes : list (string * string) :=
  [("POST", "/api/ubus"); ("POST", "/api/wifi/psm/get"); ("POST", "/api/wifi/psm/set");
   ("POST", "/api/wifi/state/set"); ("GET", "/api/device/settings"); ("PUT", "/api/device/settings");
   ("POST", "/api/network/mode"); ("POST", "/api/network/band/lte"); ("POST", "/api/network/band/nr");
   ("POST", "/api/network/cell/lte"); ("POST", "/api/network/cell/nr"); ("GET", "/api/wifi/settings");
   ("POST", "/api/wifi/settings"); ("POST", "/api/net/ambr/get"); ("GET", "/api/speedtest");
   ("GET", "/api/system/sms"); ("POST", "/api/system/sms/forward"); ("GET", "/api/system/sms-forward/status");
   ("PUT", "/api/system/sms-forward/config"); ("POST", "/api/system/sms-forward/control");
   ("POST", "/api/system/sms-forward/autostart"); ("GET", "/api/system/devui/status");
   ("POST", "/api/system/devui/download"); ("GET", "/api/system/devui/download/status");
   ("POST", "/api/system/devui/control"); ("POST", "/api/system/devui/autostart");
   ("GET", "/api/system/devui/wallpaper/preview"); ("POST", "/api/system/devui/wallpaper");
   ("POST", "/api/system/serial-update"); ("GET", "/api/system/rc-local"); ("PUT", "/api/system/rc-local");
   ("GET", "/api/conn_conf"); ("GET", "/api/conn_conf/:id"); ("POST", "/api/conn_conf"); ("PUT", "/api/conn_conf");
   ("DELETE", "/api/conn_conf/:id"); ("GET", "/api/cmd_note"); ("GET", "/api/cmd_note/:id");
   ("POST", "/api/cmd_note"); ("PUT", "/api/cmd_note"); ("DELETE", "/api/cmd_note/:id"); ("GET", "/api/policy_conf");
   ("GET", "/api/policy_conf/:id"); ("POST", "/api/policy_conf"); ("PUT", "/api/policy_conf");
   ("DELETE", "/api/policy_conf/:id"); ("GET", "/api/net_filter"); ("GET", "/api/net_filter/:id");
   ("POST", "/api/net_filter"); ("PUT", "/api/net_filter"); ("DELETE", "/api/net_filter/:id"); ("GET", "/api/user");
   ("GET", "/api/user/:id"); ("POST", "/api/user"); ("PUT", "/api/user"); ("DELETE", "/api/user/:id");
   ("PATCH", "/api/user/check_name_exists"); ("PATCH", "/api/user/pwd"); ("GET", "/api/sshd_user");
   ("GET", "/api/sshd_user/:id"); ("POST", "/api/sshd_user"); ("PUT", "/api/sshd_user");
   ("DELETE", "/api/sshd_user/:id"); ("PATCH", "/api/sshd_user/check_name_exists"); ("GET", "/api/sshd_cert");
   ("GET", "/api/sshd_cert_text"); ("GET", "/api/sshd_cert/:id"); ("POST", "/api/sshd_cert");
   ("PUT", "/api/sshd_cert"); ("DELETE", "/api/sshd_cert/:id"); ("PATCH", "/api/sshd_cert/check_name_exists");
   ("POST", "/api/login_audit"); ("GET", "/api/conn_manage/online_client");
   ("PUT", "/api/conn_manage/refresh_conn_time"); ("POST", "/api/sftp/create_dir");
   ("POST", "/api/sftp/create_file"); ("POST", "/api/sftp/list"); ("GET", "/api/sftp/download");
   ("PUT", "/api/sftp/upload"); ("DELETE", "/api/sftp/delete"); ("PATCH", "/api/sftp/rename");
   ("PATCH", "/api/sftp/chmod"); ("POST", "/api/sftp/read"); ("PUT", "/api/sftp/save");
   ("POST", "/api/sftp/compress"); ("POST", "/api/sftp/extract"); ("GET", "/api/ssh/conn");
   ("PATCH", "/api/ssh/conn"); ("POST", "/api/ssh/exec"); ("POST", "/api/ssh/disconnect");
   ("POST", "/api/ssh/create_session"); ("GET", "/api/sys/config"); ("POST", "/api/sys/config");
   ("GET", "/api/update/version"); ("GET", "/api/update/status"); ("POST", "/api/update/run");
   ("POST", "/api/update/cancel"); ("POST", "/api/openadb"); ("GET", "/api/neighbor/status");
   ("GET", "/api/neighbor/cells"); ("POST", "/api/neighbor/stop"); ("GET", "/api/mihomo/status");
   ("GET", "/api/mihomo/connectivity"); ("GET", "/api/mihomo/dir"); ("POST", "/api/mihomo/control");
   ("GET", "/api/mihomo/control/stream"); ("GET", "/api/mihomo/data/version"); ("POST", "/api/mihomo/data/update");
   ("GET", "/api/mihomo/data/update/status"); ("POST", "/api/mihomo/data/update/cancel");
   ("GET", "/api/mihomo/binary/version"); ("GET", "/api/mihomo/install/status");
   ("POST", "/api/mihomo/install/cancel"); ("POST", "/api/mihomo/install"); ("POST", "/api/mihomo/uninstall");
   ("GET", "/api/mihomo/config"); ("PUT", "/api/mihomo/config"); ("POST", "/api/mihomo/config/check");
   ("GET", "/api/mihomo/autostart"); ("POST", "/api/mihomo/autostart")].

(** The full path of a route of the group [config.DefaultConfig.WebBaseDir]. *)
Definition route_path (base path : string) : string := joinPaths (joinPaths "/" base) path.

(** * The administrator check *)

Definition route_segs (path : string) : list string := tail (Split1 path slash).

(** A segment of a base directory; a blank at its end would be trimmed. *)
Definition base_segment (s : string) : Prop := segment s /\ chr 32 ∉ chars s.
#[export] Instance base_segment_dec s : Decision (base_segment s).
Proof. unfold base_segment. apply _. Defined.

Lemma routes_normal : Forall (fun r => r.2 = path_of (route_segs r.2) /\ route_segs r.2 <> [] /\ Forall segment (route_segs r.2)) auth_routes.
Proof. apply (bool_decide_unpack _). vm_compute. exact I. Qed.

Lemma is_prefix_app {A} `{EqDecision A} (p l : list A) : is_prefix p (p ++ l)%list = true.
Proof. induction p as [|x p IH]; [done|]. cbn [app is_prefix]. by rewrite bool_decide_eq_true_2, IH. Qed.

Lemma TrimPrefix_chars s p l : chars s = (chars p ++ l)%list -> HasPrefix s p = true /\ TrimPrefix s p = of_chars l.
Proof.
  intros Hs. unfold TrimPrefix, HasPrefix. rewrite Hs, is_prefix_app. split; [done|].
  assert (strlen p = length (chars p)) as -> by (symmetry; apply length_chars).
  by rewrite drop_app_length.
Qed.

(** A base directory without blanks is not trimmed. *)
Lemma base_not_trimmed segs base closed : Forall base_segment segs -> group_path segs base closed ->
  TrimFunc (fun c => ord c =? 32) base = base.
Proof.
  intros Hs Hg. apply TrimFunc_none. apply Forall_forall. intros c Hc. apply Z.eqb_neq. intros Ho.
  assert (c = chr 32) as -> by (apply ord_inj; by rewrite Ho).
  assert (chr 32 ∉ slashed segs) as Hn.
  { clear Hg Hc. induction Hs as [|s segs [_ Hf] _ IH]; [apply not_elem_of_nil|]. unfold slashed in *.
    cbn [fmap list_fmap mjoin list_join]. rewrite elem_of_app, elem_of_cons. intros [[H|H]|H]; done. }
  destruct Hg; unfold path_of in Hc; rewrite ?chars_append, ?chars_of_chars in Hc.
  - done.
  - apply elem_of_app in Hc as [Hc|Hc]; [done|]. by apply list_elem_of_singleton in Hc.
  - apply Hn. destruct (slashed segs); [done|]. by right.
Qed.

(** Nothing the list names lies below a route: what a base directory left in
    front of a route is not found in it. *)
Definition below (e : string) (r : string * string) : bool :=
  HasPrefix e (r.1 +++ ":") && HasSuffix e r.2 && (strlen (r.1 +++ ":" +++ r.2) <? strlen e)%nat.
Lemma nothing_below : Forall (fun r => Forall (fun e => below e r = false) checkRoute) auth_routes.
Proof. apply (bool_decide_unpack _). vm_compute. exact I. Qed.
Lemma no_relative : Forall (fun r => r.1 +++ ":" +++ of_chars (tail (chars r.2)) ∉ checkRoute) auth_routes.
Proof. apply (bool_decide_unpack _). vm_compute. exact I. Qed.

Lemma not_below m pre p : (m, p) ∈ auth_routes -> pre <> [] -> m +++ ":" +++ of_chars (pre ++ chars p)%list ∉ checkRoute.
Proof.
  intros Hr Hpre Hin. pose proof nothing_below as Hb. rewrite Forall_forall in Hb. specialize (Hb _ Hr).
  rewrite Forall_forall in Hb. specialize (Hb _ Hin). unfold below in Hb. cbn [fst snd] in Hb.
  set (e := m +++ ":" +++ of_chars (pre ++ chars p)%list) in *.
  assert (chars e = (chars (m +++ ":") ++ pre ++ chars p)%list) as He.
  { unfold e. rewrite !chars_append, chars_of_chars, <- app_assoc. done. }
  rewrite (proj1 (TrimPrefix_chars e (m +++ ":") _ He)) in Hb.
  assert (HasSuffix e p = true) as Hs.
  { unfold HasSuffix. rewrite He, app_assoc, rev_app_distr. apply is_prefix_app. }
  rewrite Hs in Hb. cbn [andb] in Hb. apply Nat.ltb_ge in Hb. rewrite <- !length_chars, He, !chars_append, !length_app in Hb.
  destruct pre; [done|]. cbn [length] in Hb. lia.
Qed.

Lemma slashed_app s1 s2 : slashed (s1 ++ s2)%list = (slashed s1 ++ slashed s2)%list.
Proof. unfold slashed. by rewrite fmap_app, join_app. Qed.

(** How the guard names a route under a base directory. *)
Lemma checked_name_base segs base closed m p :
  Forall base_segment segs -> group_path segs base closed -> (m, p) ∈ auth_routes ->
  (base = path_of segs -> checked_name base m (route_path base p) = m +++ ":" +++ p) /\
  (base <> path_of segs -> checked_name base m (route_path base p) ∉ checkRoute).
Proof.
  intros Hs Hg Hr. pose proof routes_normal as Hn. rewrite Forall_forall in Hn. destruct (Hn _ Hr) as (Hp & Hne & Hps).
  cbn [snd] in Hp, Hne, Hps. set (psegs := route_segs p) in *.
  assert (Forall segment segs) as Hseg by (eapply Forall_impl; [exact Hs|]; by intros ? []).
  assert (route_path base p = path_of (segs ++ psegs)) as Hfull.
  { unfold route_path. rewrite (joinPaths_group segs base closed Hseg Hg), Hp. by apply joinPaths_route. }
  assert (chars (route_path base p) = (slashed segs ++ chars p)%list) as Hc.
  { rewrite Hfull. unfold path_of. rewrite chars_of_chars, slashed_app. f_equal. rewrite Hp. unfold path_of. by rewrite chars_of_chars. }
  unfold checked_name. rewrite (base_not_trimmed segs base closed Hs Hg).
  destruct (decide (segs = [])) as [->|Hsne].
  { destruct Hg as [| |]; [|split; [done|intros _]|done].
    - split; [intros _|done]. change (path_of []) with "" in *. rewrite bool_decide_eq_true_2 by done. cbn [negb andb].
      do 2 f_equal. apply chars_inj. by rewrite Hc.
    - assert (chars p = chars (path_of [] +++ "/") ++ tail (chars p))%list as Ht.
      { rewrite Hp, chars_path by done. done. }
      change (slashed [] ++ chars p)%list with (chars p) in Hc. rewrite Ht in Hc.
      destruct (TrimPrefix_chars _ _ _ Hc) as [-> ->]. rewrite bool_decide_eq_false_2 by done. cbn [negb andb].
      pose proof no_relative as Hrel. rewrite Forall_forall in Hrel. exact (Hrel _ Hr). }
  assert (slashed segs <> []) as Hsl by by destruct segs.
  destruct Hg as [| |_].
  - split; [intros _|done]. rewrite bool_decide_eq_false_2 by by apply path_not_empty.
    assert (chars (path_of segs) = slashed segs) as Hcp by apply chars_of_chars. rewrite <- Hcp in Hc.
    destruct (TrimPrefix_chars _ _ _ Hc) as [-> ->]. cbn [negb andb]. by rewrite of_chars_chars.
  - split; [intros He%(f_equal (length ∘ chars)); unfold compose in He; rewrite chars_append, length_app in He; simpl in He; lia|].
    intros _. rewrite (bool_decide_eq_false_2 (_ = "")).
    2:{ intros He%(f_equal chars). rewrite chars_append in He. by destruct (chars (path_of segs)). }
    assert (chars p = slash :: tail (chars p)) as Ht by (rewrite Hp, chars_path by done; done).
    assert (chars (route_path (path_of segs +++ "/") p) = chars (path_of segs +++ "/") ++ tail (chars p))%list as Hc'.
    { rewrite Hc, chars_append. unfold path_of. rewrite chars_of_chars, Ht, <- app_assoc. done. }
    destruct (TrimPrefix_chars _ _ _ Hc') as [-> ->]. cbn [negb andb].
    pose proof no_relative as Hrel. rewrite Forall_forall in Hrel. exact (Hrel _ Hr).
  - split; [intros He%(f_equal chars); unfold path_of in He; rewrite !chars_of_chars in He; destruct (slashed segs); [done|];
      cbn [tail] in He; apply (f_equal length) in He; simpl in He; lia|]. intros _.
    replace (HasPrefix _ _) with false.
    2:{ unfold HasPrefix. rewrite Hc, chars_of_chars. destruct segs as [|s segs]; [done|]. unfold slashed.
        cbn [fmap list_fmap mjoin list_join app tail]. apply Forall_inv in Hs as [(H1 & _ & _ & Hf) _].
        destruct (chars s) as [|c l] eqn:Hcs; [exfalso; by apply H1, chars_inj|]. cbn [app is_prefix].
        rewrite bool_decide_eq_false_2; [done|]. intros ->. apply Hf. by left. }
    rewrite andb_false_r. assert (route_path (of_chars (tail (slashed segs))) p = of_chars (slashed segs ++ chars p)%list) as ->.
    { apply chars_inj. by rewrite Hc, chars_of_chars. }
    by apply not_below.
Qed.

(** * What the guards decide *)

(** [w'] is [w] after some statements. *)
Definition waited (n : nat) (d : database) : database :=
  mkDatabase (db_users d) (db_seq d) (db_policies d) (db_filters d) (db_audits d) n.
Definition idle (w w' : web) : Prop := exists n, w' = set_db (waited n (w_db w)) w.

#[export] Instance idle_preorder : PreOrder idle.
Proof.
  split.
  - intros w. exists (db_queries (w_db w)). by destruct w as [? ? [] ? ? ? ?].
  - intros w1 w2 w3 [n ->] [m ->]. by exists m.
Qed.

Lemma idle_ticked w : idle w (ticked w).
Proof. by exists (S (db_queries (w_db w))). Qed.
#[local] Hint Resolve idle_ticked : core.

(** A rule that contains an address; one of them in force. *)
Definition contains (ip : option (list Z)) (f : WebUser.NetFilter) : bool :=
  match ParseCIDR (Cidr f) with Some n => net_contains n ip | None => false end.
Definition covered (w : web) (pol : string) (ip : option (list Z)) : Prop :=
  exists f, f ∈ db_filters (w_db w) /\ in_force pol (rq_now (w_req w)) f /\ contains ip f = true.
(** What binding checks of every row. *)
Definition rules_ok (w : web) : Prop := Forall (fun f => is_Some (ParseCIDR (Cidr f))) (db_filters (w_db w)).

(** The policy of the service. *)
Definition policy (w : web) : option string :=
  pc_NetPolicy <$> List.find (fun p => pc_ID p =? 1) (db_policies (w_db w)).

Lemma scan_true ip l : scan true false ip l = true -> Exists (fun f => contains ip f = true) l.
Proof.
  induction l as [|f l IH]; [done|]. cbn [scan]. unfold contains in *. intros Hs.
  destruct (ParseCIDR (Cidr f)) as [n|] eqn:Hp; [|done]. destruct (net_contains n ip) eqn:Hc.
  - left. by rewrite Hp.
  - right. auto.
Qed.
Lemma scan_false ip l : scan false true ip l = true -> ~ Exists (fun f => contains ip f = true) l.
Proof.
  induction l as [|f l IH]; intros Hs He; [by inversion He|]. cbn [scan] in Hs. unfold contains in *.
  apply Exists_cons in He. destruct (ParseCIDR (Cidr f)) as [n|] eqn:Hp; [|done].
  destruct (net_contains n ip); [done|]. destruct He as [He|He]; [done|by apply IH].
Qed.
Lemma scan_exact hit rest ip l : Forall (fun f => is_Some (ParseCIDR (Cidr f))) l ->
  Exists (fun f => contains ip f = true) l /\ scan hit rest ip l = hit \/
  ~ Exists (fun f => contains ip f = true) l /\ scan hit rest ip l = rest.
Proof.
  induction 1 as [|f l [n Hn] _ IH]; [right; split; [by intros He; inversion He|done]|].
  cbn [scan]. rewrite Hn, Exists_cons. unfold contains at 1 3. rewrite Hn.
  destruct (net_contains n ip); [left; split; [by left|done]|].
  destruct IH as [[? ?]|[? ?]]; [left; split; [by right|done]|right; split; [by intros [?|?]|done]].
Qed.

Ltac not_seven := let H := fresh in intros H; repeat (apply elem_of_cons in H as [H|H]; [done|]); by apply elem_of_nil in H.
Ltac refusal := repeat first [apply list_elem_of_here | apply list_elem_of_further].

Section ChainFacts.
Context `{SortSlice}.
Context (fails : nat -> bool) (migrate_fails : nat -> bool).
Context (open : string -> string -> option string).
Context (syntaxError : list Z -> string) (hmac_sha384 hmac_sha512 : list Z -> list Z -> list Z).
Context (JwtSecret : list Z) (JwtExpire : Z).

Lemma rules_exists (pol : string) (w : web) ip :
  Exists (fun f => contains ip f = true) (sortSlice rule_less (filter (in_force pol (rq_now (w_req w))) (db_filters (w_db w)))) <->
  covered w pol ip.
Proof.
  rewrite Exists_exists. unfold covered.
  split; intros (f & Hf & Hr); exists f.
  - rewrite sortSlice_perm in Hf. by apply list_elem_of_filter in Hf as [? ?].
  - destruct Hr as [Hi Hc]. split; [|done]. rewrite sortSlice_perm. by apply list_elem_of_filter.
Qed.

(** The list a policy is checked against. *)
Definition listed (pol : string) (w : web) : list WebUser.NetFilter :=
  if fails (S (db_queries (w_db w))) then []
  else sortSlice rule_less (filter (in_force pol (rq_now (w_req w))) (db_filters (w_db w))).

Lemma check_run ip w :
  check fails ip w =
  match (if fails (db_queries (w_db w)) then None else policy w) with
  | None => (false, ticked w)
  | Some pol =>
    if bool_decide (pol = "Y") then (scan true false ip (listed "Y" w), ticked (ticked w))
    else if bool_decide (pol = "N") then (scan false true ip (listed "N" w), ticked (ticked w))
    else (false, ticked w)
  end.
Proof.
  unfold check, PolicyConf_FindByID, FindAllPolicy, statement, policy, listed.
  cbv [mbind st_bind st_get st_modify mret st_ret asks]. cbn [fst snd set_db w_db tick db_policies db_queries].
  destruct (fails (db_queries (w_db w))); cbn [negb]; [done|].
  destruct (List.find _ _) as [conf|]; [|done]. cbn [fmap option_fmap option_map].
  repeat case_bool_decide; try done; cbn [db_filters set_db w_db tick db_queries w_req];
    by destruct (fails (S (db_queries (w_db w)))).
Qed.

Lemma check_idle ip w : idle w (check fails ip w).2.
Proof.
  rewrite check_run. destruct (if fails _ then _ else _); [|auto]. repeat case_bool_decide; cbn [snd]; auto.
  all: etrans; apply idle_ticked.
Qed.

(** What a positive answer of the filter means. *)
Definition admitted (w : web) (ip : option (list Z)) : Prop :=
  policy w = Some "Y" /\ covered w "Y" ip \/
  policy w = Some "N" /\ (covered w "N" ip -> fails (S (db_queries (w_db w))) = true).

Lemma check_sound ip w : (check fails ip w).1 = true -> admitted w ip.
Proof.
  rewrite check_run. destruct (fails (db_queries (w_db w))); [done|]. unfold admitted.
  destruct (policy w) as [pol|]; [|done]. unfold listed. repeat case_bool_decide; cbn [fst]; [| |done]; subst.
  - intros He%scan_true. left. split; [done|]. destruct (fails (S _)); [by inversion He|]. by apply rules_exists.
  - intros He%scan_false. right. split; [done|]. intros Hc. destruct (fails (S _)); [done|]. exfalso.
    by apply He, rules_exists.
Qed.

Lemma check_complete ip w : (forall n, fails n = false) -> rules_ok w ->
  policy w = Some "Y" /\ covered w "Y" ip \/ policy w = Some "N" /\ ~ covered w "N" ip -> (check fails ip w).1 = true.
Proof.
  intros Hf Hok Hp. rewrite check_run, Hf. unfold listed. rewrite Hf.
  assert (forall pol, Forall (fun f => is_Some (ParseCIDR (Cidr f)))
    (sortSlice rule_less (filter (in_force pol (rq_now (w_req w))) (db_filters (w_db w))))) as Hall.
  { intros pol. apply Forall_forall. intros f Hi. rewrite sortSlice_perm in Hi. apply list_elem_of_filter in Hi as [_ Hi].
    unfold rules_ok in Hok. rewrite Forall_forall in Hok. by apply Hok. }
  destruct Hp as [[-> Hc]|[-> Hc]].
  - rewrite bool_decide_eq_true_2 by done. cbn [fst].
    destruct (scan_exact true false ip _ (Hall "Y")) as [[_ H1]|[H1 _]]; [done|]. by rewrite rules_exists in H1.
  - rewrite bool_decide_eq_false_2, bool_decide_eq_true_2 by done. cbn [fst].
    destruct (scan_exact false true ip _ (Hall "N")) as [[H1 _]|[_ H1]]; [by rewrite rules_exists in H1|done].
Qed.

(** ** The verdict of each guard *)

Lemma verdict_asks {A} (f : web -> A) (k : A -> handler web) w :
  verdict_of (Run (asks f) k) w = verdict_of (k (f w)) w.
Proof. done. Qed.
Lemma verdict_run {A} (m : M A) (k : A -> handler web) w : verdict_of (Run m k) w = verdict_of (k (m w).1) (m w).2.
Proof. cbn [verdict_of]. by destruct (m w). Qed.
Lemma statement_run w : statement fails w = (negb (fails (db_queries (w_db w))), ticked w).
Proof. done. Qed.

Lemma DbCheck_verdict w : exists w1, idle w w1 /\
  (verdict_of (DbCheck fails migrate_fails) w = (Passed Crash, w1) \/
   (exists n, fails n = true) /\ verdict_of (DbCheck fails migrate_fails) w = (Stopped, add_reply (Code 500 500) w1)).
Proof.
  unfold DbCheck. rewrite verdict_asks. destruct (IsInit (w_cfg w)); cbn [negb]; [|by exists w; split; [reflexivity|left]].
  rewrite verdict_asks. destruct (w_open w); [|by exists w; split; [reflexivity|left]].
  rewrite verdict_run, statement_run. cbn [fst snd].
  destruct (fails (db_queries (w_db w))) eqn:Hf; cbn [negb]; [|by exists (ticked w); split; [auto|left]].
  rewrite verdict_run. exists (ticked (ticked w)). split; [etrans; apply idle_ticked|].
  change (DbMigrate migrate_fails (ticked w)) with (migrate_fails (db_queries (w_db (ticked w))), ticked (ticked w)). cbn [fst snd].
  destruct (migrate_fails _); [right; split; [by eexists|done]|by left].
Qed.

(** Once the service is initialised. *)
Lemma NetFilter_verdict w : IsInit (w_cfg w) = true ->
  let ip := ParseIP (RemoteIP (w_req w)) in
  (w_open w = false /\ verdict_of (NetFilter fails) w = (Crashed, w)) \/
  (w_open w = true /\ exists w1, idle w w1 /\
   ((check fails ip w).1 = true /\ verdict_of (NetFilter fails) w = (Passed Crash, w1) \/
    (check fails ip w).1 = false /\ verdict_of (NetFilter fails) w = (Stopped, add_reply (Denied 403) w1))).
Proof.
  intros Hi ip. unfold NetFilter. rewrite verdict_asks, Hi. cbn [negb]. rewrite verdict_asks.
  destruct (w_open w); [right|by left]. split; [done|]. cbn [negb]. rewrite verdict_asks, verdict_run. fold ip.
  exists (check fails ip w).2. split; [apply check_idle|]. destruct (check fails ip w).1; [by left|by right].
Qed.

Abbreviation decide_token := (decide_token syntaxError hmac_sha384 hmac_sha512 JwtSecret JwtExpire).
Abbreviation JWTAuth := (JWTAuth syntaxError hmac_sha384 hmac_sha512 JwtSecret JwtExpire).

(** The request after it was let in. *)
Definition let_in (uid : Z) (newToken : option string) (w : web) : web :=
  set_uid uid (match newToken with Some t => set_NewToken t w | None => w end).

Lemma JWTAuth_verdict w :
  (exists uid t, sent_token (w_req w) <> "" /\ decide_token w = Accepted uid t /\
     verdict_of JWTAuth w = (Passed Crash, let_in uid t w)) \/
  (sent_token (w_req w) = "" \/ decide_token w = Rejected) /\
    verdict_of JWTAuth w = (Stopped, add_reply (Code 401 401) w) \/
  (decide_token w = Fault /\ verdict_of JWTAuth w = (Crashed, w)).
Proof.
  unfold Access.JWTAuth. rewrite verdict_asks. case_bool_decide as Hs; [by right; left; split; [left|]|].
  rewrite verdict_asks. destruct (decide_token w) as [uid [t|]| |] eqn:Hd.
  - left. exists uid, (Some t). by rewrite !verdict_run.
  - left. exists uid, None. by rewrite !verdict_run.
  - right; left. by split; [right|].
  - by right; right.
Qed.

(** The caller may use a route of administrators. *)
Definition admin (uid : Z) (w : web) : Prop :=
  exists row, row ∈ db_users (w_db w) /\ u_ID row = uid /\ IsAdmin row <> "N".

Lemma PremCheck_verdict w : exists w1, idle w w1 /\
  (verdict_of (PremCheck fails open) w = (Passed Crash, w1) /\ (needs_admin w = true -> admin (default 0 (w_uid w)) w) \/
   needs_admin w = true /\ verdict_of (PremCheck fails open) w = (Stopped, add_reply (Code 200 403) w1)).
Proof.
  unfold PremCheck. rewrite verdict_asks. destruct (needs_admin w); [|by exists w; split; [reflexivity|left]].
  rewrite verdict_run. unfold GetUint_uid, FindByID.
  change ((asks ?f ≫= ?g) w) with (g (f w) w). cbv beta. exists (ticked w). split; [auto|].
  destruct (First fails open _ w) as [[u|] w1] eqn:Hf; cbn [fst snd].
  - apply First_some in Hf as (-> & row & Hrow & Hid%Z.eqb_eq & Hu & _). case_bool_decide as Ha; [by right|left].
    split; [done|]. intros _. exists row. split_and!; try done. by rewrite Hu in Ha.
  - rewrite First_run in Hf. injection Hf as _ <-. by right.
Qed.

(** ** The chain *)

Abbreviation protected := (protected fails migrate_fails open syntaxError hmac_sha384 hmac_sha512 JwtSecret JwtExpire).

(** What a protected request needs: a filter that admits it - or could not read
    its list - a token, and an administrator where one is asked for. *)
Record authorised (w : web) (uid : Z) (newToken : option string) : Prop := mkAuthorised {
  au_init : IsInit (w_cfg w) = true;
  au_open : w_open w = true;
  au_filter : let ip := ParseIP (RemoteIP (w_req w)) in
    policy w = Some "Y" /\ covered w "Y" ip \/
    policy w = Some "N" /\ (covered w "N" ip -> exists n, fails n = true);
  au_sent : sent_token (w_req w) <> "";
  au_token : decide_token w = Accepted uid newToken;
  au_admin : needs_admin w = true -> admin uid w }.

(** The handler at the end, its panic recovered. *)
Definition answered (h : handler web) (w : web) : web :=
  let '(v, w') := verdict_of h w in if crashed v then add_reply (Denied 500) w' else w'.

Definition refusals : list reply := [Code 500 500; Denied 500; Denied 403; Code 401 401; Code 200 403].

(** A request is let in, or refused with one reply and nothing changed. *)
Inductive outcome (h : handler web) (w : web) : web -> list nat -> Prop :=
| LetIn uid t w1 : authorised w uid t -> idle (let_in uid t w) w1 -> outcome h w (answered h w1) (seq 0 8)
| RefusedBefore w1 r l : idle w w1 -> r ∈ refusals -> 7%nat ∉ l -> outcome h w (add_reply r w1) l
| RefusedAfter uid t w1 r l : idle (let_in uid t w) w1 -> r ∈ refusals -> 7%nat ∉ l -> outcome h w (add_reply r w1) l.

(** The guards behind the recovery: whether they panicked. *)
Inductive inner (h : handler web) (w : web) : bool * web * list nat -> Prop :=
| InLet uid t w1 (v : @verdict web) w2 : authorised w uid t -> idle (let_in uid t w) w1 -> verdict_of h w1 = (v, w2) ->
    inner h w (crashed v, w2, seq 2 6)
| InBefore w1 r l : idle w w1 -> r ∈ refusals -> 7%nat ∉ l -> inner h w (false, add_reply r w1, l)
| InAfter uid t w1 r l : idle (let_in uid t w) w1 -> r ∈ refusals -> 7%nat ∉ l -> inner h w (false, add_reply r w1, l)
| InPanic w1 l : idle w w1 -> 7%nat ∉ l -> inner h w (true, w1, l).

Lemma last_pipeline (h : handler web) i (w : web) (v : @verdict web) w2 : verdict_of h w = (v, w2) -> pipeline i [h] w = (crashed v, w2, [i]).
Proof. intros Hv. cbn [pipeline]. rewrite Hv. by destruct v. Qed.

Lemma idle_req w w' : idle w w' -> w_req w' = w_req w /\ w_cfg w' = w_cfg w /\ w_open w' = w_open w.
Proof. by intros [n ->]. Qed.
Lemma idle_asked w w' uid : idle w w' -> decide_token w' = decide_token w /\ needs_admin w' = needs_admin w /\
  policy w' = policy w /\ (forall pol ip, covered w' pol ip <-> covered w pol ip) /\ (admin uid w' <-> admin uid w).
Proof. by intros [n ->]. Qed.
Lemma idle_let_in uid t w w' : idle w w' -> idle (let_in uid t w) (let_in uid t w').
Proof. intros [n ->]. exists n. by destruct t. Qed.
Lemma let_in_asked uid t w : needs_admin (let_in uid t w) = needs_admin w /\ w_uid (let_in uid t w) = Some uid /\
  (admin uid (let_in uid t w) <-> admin uid w).
Proof. by destruct t. Qed.

Abbreviation guards h := [DbCheck fails migrate_fails; NetFilter fails; SysInit; JWTAuth; PremCheck fails open; h].

Lemma SysInit_verdict w : IsInit (w_cfg w) = true -> verdict_of SysInit w = (Passed Crash, w).
Proof. intros Hi. unfold SysInit. by rewrite verdict_asks, Hi. Qed.

Lemma guards_inner h w : inner h w (pipeline 2 (guards h) w).
Proof.
  cbn [pipeline]. destruct (DbCheck_verdict w) as (w1 & H1 & [->|[_ ->]]); [|apply InBefore; [done|refusal|not_seven]].
  rewrite rescued_crash. destruct (IsInit (w_cfg w)) eqn:Hi.
  2:{ destruct (idle_req _ _ H1) as (_ & Hc & _). unfold NetFilter, SysInit. rewrite verdict_asks, Hc, Hi. cbn [negb].
      cbn [verdict_of]. rewrite rescued_crash. change (asks _ w1) with (IsInit (w_cfg w1), w1). rewrite Hc, Hi.
      apply InBefore; [done|refusal|not_seven]. }
  destruct (idle_req _ _ H1) as (Hr1 & Hc1 & Ho1). assert (IsInit (w_cfg w1) = true) as Hi1 by by rewrite Hc1.
  destruct (NetFilter_verdict w1 Hi1) as [[Ho ->]|(Ho & w2 & H2 & [[Hok ->]|[_ ->]])].
  { apply InPanic; [done|not_seven]. }
  2:{ apply InBefore; [by etrans|refusal|not_seven]. }
  rewrite rescued_crash. assert (IsInit (w_cfg w2) = true) as Hi2 by by destruct (idle_req _ _ H2) as (_ & -> & _).
  rewrite SysInit_verdict by done. rewrite rescued_crash. apply check_sound in Hok.
  assert (idle w w2) as Hw2 by by etrans.
  destruct (JWTAuth_verdict w2) as [(uid & t & Hs & Ht & ->)|[[_ ->]|[_ ->]]];
    [|apply InBefore; [done|refusal|not_seven]|apply InPanic; [done|not_seven]].
  rewrite rescued_crash. set (w3 := let_in uid t w2). assert (idle (let_in uid t w) w3) as H3 by by apply idle_let_in.
  destruct (PremCheck_verdict w3) as (w4 & H4 & [[-> Ha]|[_ ->]]);
    [|apply (InAfter _ _ uid t); [by etrans|refusal|not_seven]].
  rewrite rescued_crash. destruct (verdict_of h w4) as [v w5] eqn:Hv.
  assert (authorised w uid t) as Hau.
  { destruct (let_in_asked uid t w2) as (Hn & Hu & Hadm). destruct (idle_asked _ _ uid Hw2) as (Htok & Hneed & _ & _ & Hadm2).
    destruct (idle_asked _ _ uid H1) as (_ & _ & Hpol & Hcov & _).
    destruct (idle_req _ _ Hw2) as (Hr2 & _). split; [done|by rewrite <- Ho1| |by rewrite <- Hr2|by rewrite <- Htok|].
    - rewrite <- Hr1. destruct Hok as [[Hp Hco]|[Hp Hco]]; rewrite Hpol in Hp; [left|right]; (split; [done|]).
      + by apply Hcov.
      + intros Hco'. eexists. by apply Hco, Hcov.
    - intros Hneed'. apply Hadm2, Hadm. unfold w3 in Ha. rewrite Hu in Ha. apply Ha. by rewrite Hn, Hneed. }
  assert (idle (let_in uid t w) w4) as Hw4 by by etrans.
  pose proof (InLet h w uid t w4 v w5 Hau Hw4 Hv) as Hin. by destruct v.
Qed.

(** Every stored password can be opened. *)
Definition readable (w : web) : Prop :=
  Forall (fun u => is_Some (DecryptString open (u_Pwd u) (AesSecret (w_cfg w)))) (db_users (w_db w)).

Lemma PremCheck_complete w uid : (forall n, fails n = false) -> users_ok (w_db w) -> readable w -> w_uid w = Some uid ->
  (needs_admin w = true -> admin uid w) -> exists w1, idle w w1 /\ verdict_of (PremCheck fails open) w = (Passed Crash, w1).
Proof.
  intros Hf Hok Hread Hu Ha. unfold PremCheck. rewrite verdict_asks.
  destruct (needs_admin w); [|by exists w]. destruct (Ha eq_refl) as (row & Hrow & Hid & Hadm).
  exists (ticked w). split; [auto|]. rewrite verdict_run. unfold GetUint_uid, FindByID.
  change ((asks ?f ≫= ?g) w) with (g (f w) w). cbv beta. rewrite Hu, First_run, Hf. cbn [negb default fst snd].
  destruct (first_row _ _) as [r|] eqn:Hr.
  2:{ apply first_row_none in Hr. rewrite Forall_forall in Hr. specialize (Hr _ Hrow). cbv beta in Hr.
      by rewrite Hid, Z.eqb_refl in Hr. }
  apply first_row_some in Hr as [Hin Hr%Z.eqb_eq].
  assert (r = row) as -> by (apply (row_unique _ _ _ Hok Hin Hrow); by rewrite Hr, Hid).
  unfold readable in Hread. rewrite Forall_forall in Hread. destruct (Hread _ Hrow) as [p Hp].
  cbn [mbind option_bind]. unfold AfterFind. rewrite Hp. cbn [fmap option_fmap option_map].
  by rewrite bool_decide_eq_false_2.
Qed.

Lemma guards_complete h w uid t : (forall n, fails n = false) -> rules_ok w -> users_ok (w_db w) -> readable w ->
  authorised w uid t -> exists o, pipeline 2 (guards h) w = (o, seq 2 6).
Proof.
  intros Hf Hrules Hok Hread [Hi Ho Hfilter Hs Ht Ha]. cbn [pipeline].
  destruct (DbCheck_verdict w) as (w1 & H1 & [->|[[n Hn] _]]); [|by rewrite Hf in Hn].
  rewrite rescued_crash. destruct (idle_req _ _ H1) as (Hr1 & Hc1 & Ho1).
  assert (IsInit (w_cfg w1) = true) as Hi1 by by rewrite Hc1.
  destruct (NetFilter_verdict w1 Hi1) as [[Ho' _]|(_ & w2 & H2 & [[_ ->]|[Hno _]])]; [congruence| |].
  2:{ rewrite check_complete in Hno; [done|done| |].
      - destruct H1 as [m ->]. exact Hrules.
      - rewrite Hr1. destruct (idle_asked _ _ uid H1) as (_ & _ & -> & Hcov & _). rewrite !Hcov.
        destruct Hfilter as [?|[Hp Hno']]; [by left|right]. split; [done|]. intros [n Hn]%Hno'. by rewrite Hf in Hn. }
  rewrite rescued_crash. assert (idle w w2) as Hw2 by by etrans. destruct (idle_req _ _ Hw2) as (Hr2 & Hc2 & _).
  rewrite SysInit_verdict by by rewrite Hc2. rewrite rescued_crash.
  destruct (idle_asked _ _ uid Hw2) as (Htok & Hneed & _ & _ & Hadm).
  destruct (JWTAuth_verdict w2) as [(uid' & t' & _ & Ht' & ->)|[[Hno _]|[Hno _]]].
  2:{ rewrite Hr2, Htok, Ht in Hno. by destruct Hno. }
  2:{ by rewrite Htok, Ht in Hno. }
  rewrite Htok, Ht in Ht'. injection Ht' as <- <-. rewrite rescued_crash.
  destruct (let_in_asked uid t w2) as (Hn & Hu & Hadm2).
  destruct (PremCheck_complete (let_in uid t w2) uid Hf) as (w3 & _ & ->).
  - destruct Hw2 as [n ->]. destruct Hok. by destruct t.
  - destruct Hw2 as [n ->]. by destruct t.
  - done.
  - intros Hneed'. apply Hadm2, Hadm, Ha. by rewrite <- Hneed, <- Hn.
  - rewrite rescued_crash. destruct (verdict_of h w3) as [v w4]. destruct v; by eexists.
Qed.

Lemma chain_guards h : plain h ->
  let hs := Logger :: Recovery (fun code => add_reply (Denied code)) :: guards h in
  Forall guard hs /\ Forall (fun h => calls h 2) hs.
Proof.
  intros Hh. destruct (plain_guard h 2 Hh) as [Hg Hc]. cbv zeta.
  split; repeat (apply Forall_cons; split); try done;
    repeat first [progress cbn -[check] | progress intros | split | case_match]; auto.
Qed.

Lemma chain_run h w : plain h ->
  exists c, handleHTTPRequest (Logger :: Recovery (fun code => add_reply (Denied code)) :: guards h) w = Finished c /\
  let '(p, w', l) := pipeline 2 (guards h) w in
  c_world c = (if p : bool then add_reply (Denied 500) w' else w') /\ c_entered c = 0%nat :: 1%nat :: l.
Proof.
  intros Hh. destruct (chain_guards h Hh) as [Hg Hc]. set (hs := Logger :: _) in *.
  pose proof (serve_pipeline (S (length hs)) hs ltac:(simpl; lia) Hg Hc 0 (incr (reset w)) eq_refl ltac:(lia) ltac:(lia)) as Hs.
  rewrite drop_0 in Hs. unfold handleHTTPRequest, call_next. change (c_world (incr (reset w))) with w in Hs.
  assert (pipeline 0 hs w = let '(p, w', l) := pipeline 2 (guards h) w in
    (false, if p : bool then add_reply (Denied 500) w' else w', 0%nat :: 1%nat :: l)) as Hp.
  { change (pipeline 0 hs w) with (let '(p, w', l) := rescued Crash (let '(p, w', l) := rescued (Run (st_modify (add_reply (Denied 500)))
      (fun _ => Abort Return)) (pipeline 2 (guards h) w) in (p, w', 1%nat :: l)) in (p, w', 0%nat :: l)).
    destruct (pipeline 2 (guards h) w) as [[[] w'] l]; done. }
  rewrite Hp in Hs. destruct (pipeline 2 (guards h) w) as [[p w'] l].
  destruct (serve _ hs _) as [c|c|]; cbn [yields] in Hs; [|by destruct Hs|done].
  destruct Hs as (_ & Hw & He & _). exists c. split; [done|]. split; [done|]. exact He.
Qed.

End ChainFacts.

(** * Properties *)

(** The network filter.  An address passes only under a whitelist with a rule
    in force that contains it, or under a blacklist without one - or whose list
    could not be read.  When no statement fails and the rules are well formed
    it passes exactly then, whatever the order of the rules.  A blacklist that
    cannot be read lets everybody in. *)
Theorem check_spec `{SortSlice} fails ip (w : web) :
  let '(ok, w') := check fails ip w in
  idle w w' /\ (ok = true -> admitted fails w ip) /\
  ((forall n, fails n = false) -> rules_ok w ->
     (ok = true <-> policy w = Some "Y" /\ covered w "Y" ip \/ policy w = Some "N" /\ ~ covered w "N" ip)) /\
  (policy w = Some "N" -> fails (db_queries (w_db w)) = false -> fails (S (db_queries (w_db w))) = true -> ok = true).
Proof.
  pose proof (check_idle fails ip w) as Hi. pose proof (check_sound fails ip w) as Hs.
  pose proof (check_complete fails ip w) as Hc. pose proof (check_run fails ip w) as Hr.
  destruct (check fails ip w) as [ok w']. cbn [fst snd] in *. split_and!; [done|done| |].
  - intros Hf Hok. split; [|auto]. intros Ha%Hs. destruct Ha as [?|[Hp Ha]]; [by left|right].
    split; [done|]. intros Hcov%Ha. by rewrite Hf in Hcov.
  - intros Hp Hf1 Hf2. rewrite Hf1, Hp in Hr. unfold listed in Hr. rewrite Hf2 in Hr. by injection Hr as ->.
Qed.

(** C3: A protected handler runs only for requests the guards let in: the service
    is initialised, the filter admits the address, the token is accepted, and
    the caller is an administrator where the route asks for one.  Every other
    request is answered with one refusal and changes no table.  No panic leaves
    the chain, and when the database works every authorised request is served. *)
Theorem protected_outcome `{SortSlice} fails migrate_fails open syntaxError hmac_sha384 hmac_sha512 JwtSecret JwtExpire
    (h : handler web) (w : web) :
  plain h ->
  exists hs c, protected fails migrate_fails open syntaxError hmac_sha384 hmac_sha512 JwtSecret JwtExpire h = Ok hs /\
    handleHTTPRequest hs w = Finished c /\
    outcome fails syntaxError hmac_sha384 hmac_sha512 JwtSecret JwtExpire h w (c_world c) (c_entered c) /\
    ((forall n, fails n = false) -> rules_ok w -> users_ok (w_db w) -> readable open w ->
     forall uid t, authorised fails syntaxError hmac_sha384 hmac_sha512 JwtSecret JwtExpire w uid t -> 7%nat ∈ c_entered c).
Proof.
  intros Hh. destruct (chain_run fails migrate_fails open syntaxError hmac_sha384 hmac_sha512 JwtSecret JwtExpire h w Hh) as (c & Hc & Hp).
  eexists _, c. split; [reflexivity|]. split; [exact Hc|]. clear Hc.
  pose proof (guards_inner fails migrate_fails open syntaxError hmac_sha384 hmac_sha512 JwtSecret JwtExpire h w) as Hin.
  split.
  - destruct Hin as [uid t w1 v w2 Hau Hid Hv|w1 r l Hid Hr Hl|uid t w1 r l Hid Hr Hl|w1 l Hid Hl]; destruct Hp as [-> ->].
    + replace (if crashed v then _ else _) with (answered h w1) by (unfold answered; by rewrite Hv). by eapply LetIn.
    + apply RefusedBefore; [done|done|by rewrite !not_elem_of_cons].
    + eapply RefusedAfter; [done|done|by rewrite !not_elem_of_cons].
    + apply RefusedBefore; [done|refusal|by rewrite !not_elem_of_cons].
  - intros Hf Hrules Hok Hread uid t Hau.
    destruct (guards_complete fails migrate_fails open syntaxError hmac_sha384 hmac_sha512 JwtSecret JwtExpire h w uid t) as [[p w'] Ho];
      try done.
    rewrite Ho in Hp. destruct Hp as [_ ->]. refusal.
Qed.

(** C6: The administrator check covers its routes under a base directory in
    normal form and no other ones; under the same directory with a slash at its
    end, or without the one at its front, it covers none at all. *)
Theorem admin_check_scope (segs : list string) (base m p : string) (closed : bool) (w : web) :
  Forall base_segment segs -> group_path segs base closed -> (m, p) ∈ auth_routes ->
  WebBaseDir (w_cfg w) = base -> Method (w_req w) = m -> FullPath (w_req w) = route_path base p ->
  needs_admin w = bool_decide (base = path_of segs) && bool_decide (m +++ ":" +++ p ∈ checkRoute).
Proof.
  intros Hs Hg Hr Hb Hm Hp. destruct (checked_name_base segs base closed m p Hs Hg Hr) as [Hyes Hno].
  unfold needs_admin. rewrite Hb, Hm, Hp. destruct (decide (base = path_of segs)) as [He|He].
  - by rewrite (bool_decide_eq_true_2 _ He), Hyes.
  - rewrite (bool_decide_eq_false_2 _ He). apply bool_decide_eq_false. by apply Hno.
Qed.

(** * Concrete inputs *)

(** A user who is no administrator deletes one, under a base directory. *)
Definition office_db : database :=
  mkDatabase [some_user 1 "root" "[secret]" "Y"; mkWebUser 2 "ann" "[pass]" "-" "N" "Y" "N" 4102358400;
              mkWebUser 3 "bob" "[word]" "-" "Y" "Y" "N" 4102358400] 3 [mkPolicyConf 1 "N"]
    [mkNetFilter 1 "lab" "10.0.0.0/8" "N" 1 4102358400 0] [] 0.
Definition office (base ip : string) : web :=
  mkWeb (mkAppConfig true base "0123456789abcdef0123456789abcdef") true office_db
    (mkRequest "DELETE" (route_path base "/api/user/:id") ip (GenerateToken [] (7200 * 10 ^ 9) 2 (1767225600 * 10 ^ 9)) ""
       (1767225600 * 10 ^ 9) "3" "10000" "0" None None (false, "", "")) None None [].
Definition delete_user (fails : nat -> bool) : handler web := Run (UserDeleteById fails toy_open) (fun _ => Return).
Definition no_sha : list Z -> list Z -> list Z := fun _ _ => [].
Definition run_office (fails : nat -> bool) (base ip : string) : option (list nat * list Z * list reply) :=
  match protected fails (fun _ => false) toy_open (fun _ => "syntax") no_sha no_sha [] 0 (delete_user fails) with
  | Ok hs => match handleHTTPRequest hs (office base ip) with
             | Finished c => Some (c_entered c, u_ID <$> db_users (w_db (c_world c)), take 1 (w_replies (c_world c)))
             | _ => None
             end
  | _ => None
  end.

Lemma admin_check_scope_witness :
  needs_admin (office "/ssh" "192.168.0.7") = true /\ needs_admin (office "/ssh/" "192.168.0.7") = false /\
  run_office (fun _ => false) "/ssh" "192.168.0.7" = Some (seq 0 7, [1; 2; 3], [Code 200 403]) /\
  (exists l, run_office (fun _ => false) "/ssh/" "192.168.0.7" = Some (seq 0 8, [1; 2], l)).
Proof.
  assert (Forall base_segment ["ssh"]) as Hs by (apply (bool_decide_unpack _); vm_compute; exact I).
  assert (("DELETE", "/api/user/:id") ∈ auth_routes) as Hr by (apply (bool_decide_unpack _); vm_compute; exact I).
  split_and!.
  - rewrite (admin_check_scope ["ssh"] "/ssh" "DELETE" "/api/user/:id" false (office "/ssh" "192.168.0.7") Hs (gp_normal ["ssh"]) Hr eq_refl eq_refl eq_refl).
    by vm_compute.
  - by rewrite (admin_check_scope ["ssh"] "/ssh/" "DELETE" "/api/user/:id" true (office "/ssh/" "192.168.0.7") Hs (gp_closed ["ssh"]) Hr eq_refl eq_refl eq_refl).
  - vm_compute. reflexivity.
  - eexists. vm_compute. reflexivity.
Defined.

(** The statement that reads a blacklist fails. *)
Lemma check_spec_witness :
  let ip := ParseIP "10.1.2.3" in let w := office "" "10.1.2.3" in
  (check (fun _ => false) ip w).1 = false /\ (check (fun n => (n =? 1)%nat) ip w).1 = true /\
  (check (fun _ => false) (ParseIP "192.168.0.7") w).1 = true.
Proof.
  intros ip w. assert (rules_ok w) as Hok by (repeat constructor; by eexists).
  assert (covered w "N" ip) as Hc.
  { eexists. split; [by left|]. split; [|by vm_compute]. by apply (bool_decide_unpack _). }
  pose proof (check_spec (fun _ => false) ip w) as H1. pose proof (check_spec (fun n => (n =? 1)%nat) ip w) as H2.
  split_and!.
  - destruct (check (fun _ => false) ip w) as [[] w']; [|done]. destruct H1 as (_ & _ & H1 & _).
    destruct (proj1 (H1 (fun _ => eq_refl) Hok) eq_refl) as [[Hp _]|[_ Hn]]; [done|by apply Hn in Hc].
  - destruct (check (fun n => (n =? 1)%nat) ip w) as [ok w']. by apply H2.
  - by vm_compute.
Defined.

Lemma office_ok : users_ok office_db.
Proof.
  split; simpl.
  - apply (bool_decide_unpack _). vm_compute. exact I.
  - apply (bool_decide_unpack _). vm_compute. exact I.
  - rewrite !Forall_cons. by split_and!.
  - rewrite !Forall_cons. simpl. split_and!; done || lia.
Qed.

Lemma protected_outcome_witness :
  exists hs c, protected (fun _ => false) (fun _ => false) toy_open (fun _ => "syntax") no_sha no_sha [] 0
                 (delete_user (fun _ => false)) = Ok hs /\
    handleHTTPRequest hs (office "/ssh/" "192.168.0.7") = Finished c /\ 7%nat ∈ c_entered c.
Proof.
  assert (plain (delete_user (fun _ => false))) as Hh by (intros a; exact I).
  destruct (protected_outcome (fun _ => false) (fun _ => false) toy_open (fun _ => "syntax") no_sha no_sha [] 0 _
    (office "/ssh/" "192.168.0.7") Hh) as (hs & c & Hp & Hc & Ho & Hserved).
  exists hs, c. split; [done|]. split; [done|]. eapply (Hserved (fun _ => eq_refl)).
  - repeat constructor. by eexists.
  - exact office_ok.
  - unfold readable. simpl. rewrite !Forall_cons. split_and!; try done; by eexists.
  - split; [done|done| |done| |].
    + right. split; [done|]. intros (f & Hf & _ & Hcon). apply list_elem_of_singleton in Hf as ->. by vm_compute in Hcon.
    + vm_compute. reflexivity.
    + intros Hn. by vm_compute in Hn.
Defined.
