(* ===== verification/Records.v ===== *)
(** The records a user keeps: saved hosts and command notes
    ([service/ssh_conf.go], [model/ssh_conf.go], [service/cmd_note.go],
    [model/cmd_note.go]).

    Both handler files are the same text over another model, and so they are here:
    handlers over an interface of table operations, and the two tables that
    implement it.  A statement of SQL does on the rows what its clauses say, or
    fails, which [fails] decides for the n-th statement.  Theorems: whose rows a
    user's requests read and change; that a saved host is read back and its secrets
    are stored sealed. *)

From S2P Require Import Prelude.
From S2P Require Import GoInt.
From S2P Require Import GoStrings.
From S2P Require Import Effects.
From S2P Require Import WebUser.
Open Scope string_scope.
Open Scope Z_scope.

(** * Data *)

(** Times are nanoseconds; a zero time is 0. *)
Record SshConf := mkSshConf {
  h_ID : Z; h_Uid : Z; Name : string; Address : string; User : string; Pwd : string; AuthType : string; NetType : string;
  CertData : string; CertPwd : string; Port : Z; FontSize : Z; Background : string; Foreground : string; CursorColor : string;
  FontFamily : string; CursorStyle : string; Shell : string; PtyType : string; InitCmd : string; InitBanner : string;
  h_CreatedAt : Z; h_UpdatedAt : Z }.
Record CmdNote := mkCmdNote { n_ID : Z; n_Uid : Z; CmdName : string; CmdData : string; n_CreatedAt : Z; n_UpdatedAt : Z }.

(** A table: its rows and the largest id ever given. *)
Record table (T : Type) := mkTable { rows : list T; seq : Z }.
Arguments mkTable {T}. Arguments rows {T}. Arguments seq {T}.

Inductive reply := Failed (code : Z) | Found (l : list SshConf) | FoundNotes (l : list CmdNote).
Record desk := mkDesk { hosts : table SshConf; notes : table CmdNote; queries : nat; replies : list reply }.

Definition set_hosts (t : table SshConf) (w : desk) : desk := mkDesk t (notes w) (queries w) (replies w).
Definition set_notes (t : table CmdNote) (w : desk) : desk := mkDesk (hosts w) t (queries w) (replies w).
Definition add_reply (r : reply) (w : desk) : desk := mkDesk (hosts w) (notes w) (queries w) (replies w ++ [r])%list.
Definition count_query (w : desk) : desk := mkDesk (hosts w) (notes w) (S (queries w)) (replies w).

(** What is read of a request; [None] is a body that cannot be decoded. *)
Record request := mkRequest {
  rq_uid : Z;                     (** [c.GetUint("uid")], set by the guard *)
  rq_now : Z; rq_id : string; rq_limit : string; rq_offset : string;
  rq_conf : option SshConf; rq_note : option CmdNote }.

Abbreviation M := (ST desk).
Definition JSON (r : reply) : M unit := st_modify (add_reply r).

(** * Validation *)

Definition is_hex (c : ascii) : bool :=
  is_digit c || ((97 <=? ord c) && (ord c <=? 102)) || ((65 <=? ord c) && (ord c <=? 70)).
Definition hexcolor (s : string) : bool :=
  match chars s with
  | c :: l => (ord c =? 35) && forallb is_hex l && bool_decide (length l ∈ [3; 4; 6; 8]%nat)
  | [] => false
  end.
Definition at_most (n : nat) (s : string) : bool := (RuneCount s <=? n)%nat.
(** The binding tags. *)
Definition SshConf_valid (c : SshConf) : bool :=
  text_ok 63 (Name c) && text_ok 128 (Address c) && text_ok 128 (User c) && at_most 4096 (Pwd c) &&
  bool_decide (AuthType c ∈ ["pwd"; "cert"]) && bool_decide (NetType c ∈ ["tcp4"; "tcp6"]) && at_most 128 (CertPwd c) &&
  (1 <=? Port c) && (Port c <=? 65535) && (8 <=? FontSize c) && (FontSize c <=? 48) &&
  hexcolor (Background c) && hexcolor (Foreground c) && hexcolor (CursorColor c) &&
  text_ok 128 (FontFamily c) && text_ok 128 (CursorStyle c) && text_ok 128 (Shell c) && text_ok 128 (PtyType c).
Definition CmdNote_valid (n : CmdNote) : bool := negb (bool_decide (CmdName n = "")) && negb (bool_decide (CmdData n = "")).

(** * The interface of a table *)

(** What the handlers call of a model; errors are [None] and [false]. *)
Record model (T : Type) := mkModel {
  Bind : request -> option T;
  ID : T -> Z;
  with_Uid : Z -> T -> T;
  Create : T -> M bool;
  FindByID : Z -> Z -> M (option T);
  FindAll : Z -> Z -> Z -> M (option (list T));
  UpdateById : Z -> Z -> T -> M bool;
  DeleteByID : Z -> Z -> M bool;
  Show : list T -> reply }.
Arguments Bind {T}. Arguments ID {T}. Arguments with_Uid {T}. Arguments Create {T}. Arguments FindByID {T}.
Arguments FindAll {T}. Arguments UpdateById {T}. Arguments DeleteByID {T}. Arguments Show {T}.

(** * The handlers *)

Section Handlers.
Context {T : Type} (m : model T) (rq : request).

Definition find_all : M unit :=
  match Atoi (rq_limit rq) with
  | None => JSON (Failed 2)
  | Some limit =>
    match Atoi (rq_offset rq) with
    | None => JSON (Failed 2)
    | Some offset =>
      data ← FindAll m offset limit (rq_uid rq);
      match data with Some l => JSON (Show m l) | None => JSON (Failed 2) end
    end
  end.
Definition create : M unit :=
  match Bind m rq with
  | None => JSON (Failed 1)
  | Some t =>
    ok ← Create m (with_Uid m (rq_uid rq) t);
    if ok : bool then find_all else JSON (Failed 2)
  end.
Definition find_by_id : M unit :=
  match Atoi (rq_id rq) with
  | None => JSON (Failed 2)
  | Some id =>
    data ← FindByID m (wrap 64 id) (rq_uid rq);
    match data with Some t => JSON (Show m [t]) | None => JSON (Failed 2) end
  end.
Definition update_by_id : M unit :=
  match Bind m rq with
  | None => JSON (Failed 1)
  | Some t =>
    ok ← UpdateById m (ID m t) (rq_uid rq) t;
    if ok : bool then find_all else JSON (Failed 2)
  end.
Definition delete_by_id : M unit :=
  match Atoi (rq_id rq) with
  | None => JSON (Failed 2)
  | Some id =>
    ok ← DeleteByID m (wrap 64 id) (rq_uid rq);
    if ok : bool then find_all else JSON (Failed 2)
  end.
End Handlers.

(** * Statements *)

Section Tables.
(** Whether the n-th statement fails; the cipher, sealed under the n-th nonce, and
    its key; the order the database gives rows of one query in ([updated_at desc]). *)
Context (fails : nat -> bool).
Context (seal : nat -> string -> string -> string) (open : string -> string -> option string) (AesSecret : string).
Context (order : forall T, (T -> Z) -> list T -> list T).
Context (now : Z).

Definition statement : M bool := w ← st_get; _ ← st_modify count_query; mret (negb (fails (queries w))).

(** [Db.First]: the row of the smallest id. *)
Definition first_row {T} (id : T -> Z) (P : T -> bool) (l : list T) : option T :=
  fold_left (fun best t => if P t then match best with Some b => if id t <? id b then Some t else best | None => Some t end else best)
    l None.
(** [Limit] below zero is none, [Offset] up to zero is none. *)
Definition page {T} (offset limit : Z) (l : list T) : list T :=
  let l := drop (Z.to_nat offset) l in
  if limit <? 0 then l else take (Z.to_nat limit) l.
(** A free id, above all that were ever given when the row brings none. *)
Definition insert {T} (id : T -> Z) (with_id : Z -> T -> T) (t : T) (tab : table T) : option (table T) :=
  let t := if id t =? 0 then with_id (seq tab + 1) t else t in
  if existsb (fun v => id v =? id t) (rows tab) then None
  else Some (mkTable (rows tab ++ [t])%list (Z.max (seq tab) (id t))).
Definition change {T} (P : T -> bool) (f : T -> T) (tab : table T) : table T := mkTable ((fun t => if P t then f t else t) <$> rows tab) (seq tab).
Definition remove {T} (P : T -> bool) (tab : table T) : table T := mkTable (List.filter (fun t => negb (P t)) (rows tab)) (seq tab).
Definition or_now (t : Z) : Z := if t =? 0 then now else t.

(** ** Hosts *)

Definition conf_with_id (id : Z) (c : SshConf) : SshConf :=
  mkSshConf id (h_Uid c) (Name c) (Address c) (User c) (Pwd c) (AuthType c) (NetType c) (CertData c) (CertPwd c) (Port c) (FontSize c)
    (Background c) (Foreground c) (CursorColor c) (FontFamily c) (CursorStyle c) (Shell c) (PtyType c) (InitCmd c) (InitBanner c)
    (h_CreatedAt c) (h_UpdatedAt c).
Definition conf_with_uid (uid : Z) (c : SshConf) : SshConf :=
  mkSshConf (h_ID c) uid (Name c) (Address c) (User c) (Pwd c) (AuthType c) (NetType c) (CertData c) (CertPwd c) (Port c) (FontSize c)
    (Background c) (Foreground c) (CursorColor c) (FontFamily c) (CursorStyle c) (Shell c) (PtyType c) (InitCmd c) (InitBanner c)
    (h_CreatedAt c) (h_UpdatedAt c).
Definition conf_with_times (created updated : Z) (c : SshConf) : SshConf :=
  mkSshConf (h_ID c) (h_Uid c) (Name c) (Address c) (User c) (Pwd c) (AuthType c) (NetType c) (CertData c) (CertPwd c) (Port c) (FontSize c)
    (Background c) (Foreground c) (CursorColor c) (FontFamily c) (CursorStyle c) (Shell c) (PtyType c) (InitCmd c) (InitBanner c)
    created updated.
Definition conf_with_secrets (pwd certPwd certData : string) (c : SshConf) : SshConf :=
  mkSshConf (h_ID c) (h_Uid c) (Name c) (Address c) (User c) pwd (AuthType c) (NetType c) certData certPwd (Port c) (FontSize c)
    (Background c) (Foreground c) (CursorColor c) (FontFamily c) (CursorStyle c) (Shell c) (PtyType c) (InitCmd c) (InitBanner c)
    (h_CreatedAt c) (h_UpdatedAt c).

(** The defaults of the columns, which a new row takes where its field is empty or 0. *)
Definition or_text (d s : string) : string := if bool_decide (s = "") then d else s.
Definition or_number (d n : Z) : Z := if n =? 0 then d else n.
Definition with_defaults (c : SshConf) : SshConf :=
  mkSshConf (h_ID c) (h_Uid c) (Name c) (Address c) (User c) (Pwd c) (or_text "pwd" (AuthType c)) (or_text "tcp4" (NetType c)) (CertData c)
    (CertPwd c) (or_number 22 (Port c)) (or_number 14 (FontSize c)) (or_text "#000000" (Background c)) (or_text "#FFFFFF" (Foreground c))
    (or_text "#FFFFFF" (CursorColor c)) (or_text "Courier" (FontFamily c)) (or_text "block" (CursorStyle c)) (or_text "sh" (Shell c))
    (or_text "xterm-256color" (PtyType c)) (InitCmd c) (InitBanner c) (h_CreatedAt c) (h_UpdatedAt c).

(** The hooks; every sealing takes a nonce of its own. *)
Definition sshConfEncrypt (n : nat) (c : SshConf) : option SshConf :=
  pwd ← EncryptString seal (3 * n) (Pwd c) AesSecret;
  certPwd ← EncryptString seal (3 * n + 1) (CertPwd c) AesSecret;
  certData ← EncryptString seal (3 * n + 2) (CertData c) AesSecret;
  Some (conf_with_secrets pwd certPwd certData c).
Definition AfterFind (c : SshConf) : option SshConf :=
  pwd ← DecryptString open (Pwd c) AesSecret;
  certPwd ← DecryptString open (CertPwd c) AesSecret;
  certData ← DecryptString open (CertData c) AesSecret;
  Some (conf_with_secrets pwd certPwd certData c).

Definition conf_is (id uid : Z) (c : SshConf) : bool := (h_ID c =? id) && (h_Uid c =? uid).

(** The hook runs before the statement, which is built with the defaults. *)
Definition conf_Create (c : SshConf) : M bool :=
  w ← st_get;
  match sshConfEncrypt (queries w) c with
  | None => mret false
  | Some c =>
    ok ← statement;
    let c := with_defaults (conf_with_times (or_now (h_CreatedAt c)) (or_now (h_UpdatedAt c)) c) in
    match (if ok : bool then insert h_ID conf_with_id c (hosts w) else None) with
    | Some t => _ ← st_modify (set_hosts t); mret true
    | None => mret false
    end
  end.
Definition conf_FindByID (id uid : Z) : M (option SshConf) :=
  ok ← statement;
  w ← st_get;
  mret (if ok : bool then first_row h_ID (conf_is id uid) (rows (hosts w)) ≫= AfterFind else None).
Definition conf_FindAll (offset limit uid : Z) : M (option (list SshConf)) :=
  ok ← statement;
  w ← st_get;
  mret (if ok : bool
        then mapM AfterFind (page offset limit (order _ h_UpdatedAt (List.filter (fun c => h_Uid c =? uid) (rows (hosts w)))))
        else None).
(** [Select("*").Omit("id", "uid")]: every other column, the time of creation too. *)
Definition conf_UpdateById (id uid : Z) (c : SshConf) : M bool :=
  w ← st_get;
  match sshConfEncrypt (queries w) c with
  | None => mret false
  | Some c =>
    ok ← statement;
    if ok : bool then
      _ ← st_modify (set_hosts (change (conf_is id uid)
            (fun v => conf_with_id (h_ID v) (conf_with_uid (h_Uid v) (conf_with_times (h_CreatedAt c) now c))) (hosts w)));
      mret true
    else mret false
  end.
Definition conf_DeleteByID (id uid : Z) : M bool :=
  ok ← statement;
  w ← st_get;
  if ok : bool then _ ← st_modify (set_hosts (remove (conf_is id uid) (hosts w))); mret true else mret false.

Definition SshConf_model : model SshConf :=
  mkModel _ (fun rq => c ← rq_conf rq; if SshConf_valid c then Some c else None) h_ID conf_with_uid
    conf_Create conf_FindByID conf_FindAll conf_UpdateById conf_DeleteByID Found.

(** ** Notes *)

Definition note_with_id (id : Z) (n : CmdNote) : CmdNote := mkCmdNote id (n_Uid n) (CmdName n) (CmdData n) (n_CreatedAt n) (n_UpdatedAt n).
Definition note_with_uid (uid : Z) (n : CmdNote) : CmdNote := mkCmdNote (n_ID n) uid (CmdName n) (CmdData n) (n_CreatedAt n) (n_UpdatedAt n).
Definition note_with_times (created updated : Z) (n : CmdNote) : CmdNote := mkCmdNote (n_ID n) (n_Uid n) (CmdName n) (CmdData n) created updated.
Definition note_is (id uid : Z) (n : CmdNote) : bool := (n_ID n =? id) && (n_Uid n =? uid).

Definition note_Create (n : CmdNote) : M bool :=
  ok ← statement;
  w ← st_get;
  let n := note_with_times (or_now (n_CreatedAt n)) (or_now (n_UpdatedAt n)) n in
  match (if ok : bool then insert n_ID note_with_id n (notes w) else None) with
  | Some t => _ ← st_modify (set_notes t); mret true
  | None => mret false
  end.
Definition note_FindByID (id uid : Z) : M (option CmdNote) :=
  ok ← statement;
  w ← st_get;
  mret (if ok : bool then first_row n_ID (note_is id uid) (rows (notes w)) else None).
Definition note_FindAll (offset limit uid : Z) : M (option (list CmdNote)) :=
  ok ← statement;
  w ← st_get;
  mret (if ok : bool then Some (page offset limit (order _ n_UpdatedAt (List.filter (fun n => n_Uid n =? uid) (rows (notes w))))) else None).
(** [Updates] of a struct: the columns that are not zero, the owner among them. *)
Definition nonzero (new old : Z) : Z := if new =? 0 then old else new.
Definition nonempty (new old : string) : string := if bool_decide (new = "") then old else new.
Definition note_UpdateById (id uid : Z) (n : CmdNote) : M bool :=
  ok ← statement;
  w ← st_get;
  if ok : bool then
    _ ← st_modify (set_notes (change (note_is id uid)
          (fun v => mkCmdNote (nonzero (n_ID n) (n_ID v)) (nonzero (n_Uid n) (n_Uid v)) (nonempty (CmdName n) (CmdName v))
             (nonempty (CmdData n) (CmdData v)) (nonzero (n_CreatedAt n) (n_CreatedAt v)) now) (notes w)));
    mret true
  else mret false.
Definition note_DeleteByID (id uid : Z) : M bool :=
  ok ← statement;
  w ← st_get;
  if ok : bool then _ ← st_modify (set_notes (remove (note_is id uid) (notes w))); mret true else mret false.

Definition CmdNote_model : model CmdNote :=
  mkModel _ (fun rq => n ← rq_note rq; if CmdNote_valid n then Some n else None) n_ID note_with_uid
    note_Create note_FindByID note_FindAll note_UpdateById note_DeleteByID FoundNotes.

End Tables.

(** ** The routes *)

Section Routes.
Context (fails : nat -> bool) (seal : nat -> string -> string -> string) (open : string -> string -> option string) (AesSecret : string).
Context (order : forall T, (T -> Z) -> list T -> list T) (rq : request).

Definition conf_of : model SshConf := SshConf_model fails seal open AesSecret order (rq_now rq).
Definition ConfCreate : M unit := create conf_of rq.
Definition ConfFindByID : M unit := find_by_id conf_of rq.
Definition ConfFindAll : M unit := find_all conf_of rq.
Definition ConfUpdateById : M unit := update_by_id conf_of rq.
Definition ConfDeleteById : M unit := delete_by_id conf_of rq.

Definition note_of : model CmdNote := CmdNote_model fails order (rq_now rq).
Definition CmdNoteCreate : M unit := create note_of rq.
Definition CmdNoteFindByID : M unit := find_by_id note_of rq.
Definition CmdNoteFindAll : M unit := find_all note_of rq.
Definition CmdNoteUpdateById : M unit := update_by_id note_of rq.
Definition CmdNoteDeleteById : M unit := delete_by_id note_of rq.
End Routes.

#[global] Arguments sshConfEncrypt : simpl never.
#[global] Arguments AfterFind : simpl never.

(** * Whose rows *)

(** What a model promises for the requests of one user: [R] relates the states
    before and after, [Upd] for an update with a body, and [mine] says which records
    may be shown. *)
Class Private {T} (m : model T) (u : Z) (R : desk -> desk -> Prop) (Upd : T -> desk -> desk -> Prop) (mine : desk -> T -> Prop) : Prop := {
  pr_trans : forall w1 w2 w3, R w1 w2 -> R w2 w3 -> R w1 w3;
  pr_upd_trans : forall t w1 w2 w3, Upd t w1 w2 -> R w2 w3 -> Upd t w1 w3;
  pr_upd_refl : forall t w r, Upd t w (add_reply r w);
  pr_reply : forall w r, R w (add_reply r w);
  pr_mine : forall w r t, mine w t -> mine (add_reply r w) t;
  pr_create : forall t w, wp (Create m (with_Uid m u t)) (fun _ w' => R w w' /\ replies w' = replies w) w;
  pr_find : forall id w, wp (FindByID m id u) (fun a w' => (R w w' /\ replies w' = replies w) /\ forall t, a = Some t -> mine w' t) w;
  pr_all : forall o l w, wp (FindAll m o l u) (fun a w' => (R w w' /\ replies w' = replies w) /\ forall ts, a = Some ts -> Forall (mine w') ts) w;
  pr_update : forall t w, wp (UpdateById m (ID m t) u t) (fun _ w' => Upd t w w' /\ replies w' = replies w) w;
  pr_delete : forall id w, wp (DeleteByID m id u) (fun _ w' => R w w' /\ replies w' = replies w) w }.

(** One answer, which shows what the user may see. *)
Definition answered {T} (m : model T) (mine : desk -> T -> Prop) (w w' : desk) : Prop :=
  exists r, replies w' = (replies w ++ [r])%list /\ ((exists c, r = Failed c) \/ exists l, r = Show m l /\ Forall (mine w') l).

Section Handled.
Context {T : Type} (m : model T) (rq : request) (R : desk -> desk -> Prop) (Upd : T -> desk -> desk -> Prop) (mine : desk -> T -> Prop).
Context `{HP : !Private m (rq_uid rq) R Upd mine}.

Lemma answered_failed w w' c : replies w' = replies w -> answered m mine w (add_reply (Failed c) w').
Proof. intros Hr. exists (Failed c). cbn. rewrite Hr. eauto. Qed.
Lemma answered_shown w w' l : replies w' = replies w -> Forall (mine w') l -> answered m mine w (add_reply (Show m l) w').
Proof.
  intros Hr Hl. exists (Show m l). cbn. rewrite Hr. split; [done|]. right. exists l. split; [done|].
  eapply Forall_impl; [exact Hl|]. intros t. apply pr_mine.
Qed.
Lemma answered_after w1 w2 w3 : replies w2 = replies w1 -> answered m mine w2 w3 -> answered m mine w1 w3.
Proof. unfold answered. by intros ->. Qed.

Lemma find_all_spec w : wp (find_all m rq) (fun _ w' => R w w' /\ answered m mine w w') w.
Proof.
  unfold find_all. destruct (Atoi (rq_limit rq)) as [limit|]; [|split; [apply pr_reply|by apply answered_failed]].
  destruct (Atoi (rq_offset rq)) as [offset|]; [|split; [apply pr_reply|by apply answered_failed]].
  apply wp_bind. eapply wp_mono; [apply pr_all|]. intros [l|] w' ((HR & Hr) & Hm); (split; [eapply pr_trans; [exact HR|apply pr_reply]|]).
  - apply answered_shown; auto.
  - by apply answered_failed.
Qed.

(** A statement and the list behind it. *)
Lemma then_find_all (x : M bool) (S : desk -> desk -> Prop) w :
  (forall w1 w2 w3, S w1 w2 -> R w2 w3 -> S w1 w3) ->
  wp x (fun _ w' => S w w' /\ replies w' = replies w) w ->
  wp (ok ← x; if ok : bool then find_all m rq else JSON (Failed 2)) (fun _ w' => S w w' /\ answered m mine w w') w.
Proof.
  intros HS Hx. apply wp_bind. eapply wp_mono; [exact Hx|]. intros [] w' (H & Hr).
  - eapply wp_mono; [apply find_all_spec|]. intros [] w'' (HR & Ha). split; [by eapply HS|by eapply answered_after].
  - split; [eapply HS; [exact H|apply pr_reply]|by apply answered_failed].
Qed.

Lemma handlers_private h w : h ∈ [create m rq; find_by_id m rq; find_all m rq; delete_by_id m rq] ->
  wp h (fun _ w' => R w w' /\ answered m mine w w') w.
Proof.
  assert (Hfail : forall c, R w (add_reply (Failed c) w) /\ answered m mine w (add_reply (Failed c) w))
    by (intros c; split; [apply pr_reply|by apply answered_failed]).
  intros H. repeat (apply elem_of_cons in H as [->|H]); [..|by apply elem_of_nil in H].
  - unfold create. destruct (Bind m rq) as [t|]; [|apply Hfail]. apply then_find_all; [apply pr_trans|apply pr_create].
  - unfold find_by_id. destruct (Atoi (rq_id rq)) as [id|]; [|apply Hfail]. apply wp_bind. eapply wp_mono; [apply pr_find|].
    intros [t|] w' ((HR & Hr) & Hm); (split; [eapply pr_trans; [exact HR|apply pr_reply]|]).
    + apply answered_shown; [done|]. constructor; [by apply Hm|constructor].
    + by apply answered_failed.
  - apply find_all_spec.
  - unfold delete_by_id. destruct (Atoi (rq_id rq)) as [id|]; [|apply Hfail]. apply then_find_all; [apply pr_trans|apply pr_delete].
Qed.
Lemma update_private w :
  wp (update_by_id m rq) (fun _ w' => (forall t, Bind m rq = Some t -> Upd t w w') /\ (Bind m rq = None -> R w w') /\ answered m mine w w') w.
Proof.
  unfold update_by_id. destruct (Bind m rq) as [t|] eqn:Hb.
  - eapply wp_mono; [apply (then_find_all _ (Upd t)); [apply pr_upd_trans|apply pr_update]|].
    intros [] w' (HU & Ha). split; [by intros t' [= <-]|]. done.
  - split; [done|]. split; [intros _; apply pr_reply|by apply answered_failed].
Qed.
End Handled.

Lemma wp_read {B} (f : desk -> M B) Q w : wp (f w) Q w -> wp (st_get ≫= f) Q w. Proof. done. Qed.
Lemma wp_put {B} g (k : unit -> M B) Q w : wp (k tt) Q (g w) -> wp (st_modify g ≫= k) Q w. Proof. done. Qed.
Lemma wp_statement {B} fails (f : bool -> M B) Q w : (forall ok, wp (f ok) Q (count_query w)) -> wp (statement fails ≫= f) Q w.
Proof. intros H. apply H. Qed.

Section Owners.
Context (fails : nat -> bool).
Context (order : forall T, (T -> Z) -> list T -> list T).
Context (Horder : forall T key (l : list T), Permutation (order T key l) l).
Context (now u : Z).


(** The rows of everybody else. *)
Definition others {T} (owner : T -> Z) (t : table T) : list T := List.filter (fun r => negb (owner r =? u)) (rows t).

Lemma others_insert {T} (owner id : T -> Z) with_id t tab tab' :
  (forall k, owner (with_id k t) = owner t) -> owner t = u -> insert id with_id t tab = Some tab' -> others owner tab' = others owner tab.
Proof.
  intros Hk Hu. unfold insert, others. destruct (existsb _ _); [done|]. intros [= <-]. cbn [rows].
  rewrite List.filter_app. cbn [List.filter]. replace (owner (if id t =? 0 then _ else t)) with u by (case_match; rewrite ?Hk; done).
  by rewrite Z.eqb_refl, app_nil_r.
Qed.
Lemma others_change {T} (owner : T -> Z) P f tab :
  (forall r, P r = true -> owner r = u /\ owner (f r) = u) -> others owner (change P f tab) = others owner tab.
Proof.
  intros HP. unfold others, change. cbn [rows]. induction (rows tab) as [|r l IH]; [done|]. cbn. rewrite IH.
  destruct (P r) eqn:Hr; [|done]. destruct (HP r Hr) as [-> ->]. by rewrite Z.eqb_refl.
Qed.
Lemma others_remove {T} (owner : T -> Z) P tab : (forall r, P r = true -> owner r = u) -> others owner (remove P tab) = others owner tab.
Proof.
  intros HP. unfold others, remove. cbn [rows]. induction (rows tab) as [|r l IH]; [done|]. cbn.
  destruct (P r) eqn:Hr; cbn; rewrite IH; [|done]. by rewrite (HP r Hr), Z.eqb_refl.
Qed.

Lemma page_incl {T} o l (x : list T) t : t ∈ page o l x -> t ∈ x.
Proof.
  unfold page. case_match; [|intros Ht%list_elem_of_In; apply list_elem_of_In; revert Ht]; rewrite <- ?list_elem_of_In.
  - intros Ht. rewrite <- (take_drop (Z.to_nat o) x). set_solver.
  - intros Ht. rewrite <- (take_drop (Z.to_nat o) x), <- (take_drop (Z.to_nat l) (drop _ x)). set_solver.
Qed.
Lemma first_row_in {T} (id : T -> Z) P l t : first_row id P l = Some t -> t ∈ l /\ P t = true.
Proof.
  unfold first_row. assert (forall b, fold_left (fun best t => if P t then match best with Some b => if id t <? id b then Some t else best | None => Some t end else best) l b = Some t ->
    b = Some t \/ t ∈ l /\ P t = true) as H.
  { induction l as [|x l IH]; intros b; cbn; [by left|]. intros [He|[]]%IH; [|right; split; [by right|done]].
    destruct (P x) eqn:Hx; [|by left]. destruct b as [b|]; [|injection He as ->; right; split; [by left|done]].
    destruct (id x <? id b); [injection He as ->; right; split; [by left|done]|by left]. }
  by intros [|]%H.
Qed.
Lemma owned_rows {T} (owner key : T -> Z) o l x t :
  t ∈ page o l (order T key (List.filter (fun r => owner r =? u) x)) -> t ∈ x /\ owner t = u.
Proof.
  intros H%page_incl. rewrite (Horder _ _ _) in H. apply list_elem_of_In, filter_In in H as [H He%Z.eqb_eq].
  split; [by apply list_elem_of_In|done].
Qed.

(** Hosts *)
Section Hosts.
Context (seal : nat -> string -> string -> string) (open : string -> string -> option string) (AesSecret : string).
Abbreviation hosts_model := (SshConf_model fails seal open AesSecret order now).

Definition hosts_kept (w w' : desk) : Prop := notes w' = notes w /\ others h_Uid (hosts w') = others h_Uid (hosts w).
Definition my_host (w : desk) (c : SshConf) : Prop := exists r, r ∈ rows (hosts w) /\ h_Uid r = u /\ AfterFind open AesSecret r = Some c.

Lemma hosts_kept_refl w : hosts_kept w w. Proof. done. Qed.

#[export] Instance hosts_private : Private hosts_model u hosts_kept (fun _ => hosts_kept) my_host.
Proof.
  assert (Htrans : forall w1 w2 w3, hosts_kept w1 w2 -> hosts_kept w2 w3 -> hosts_kept w1 w3).
  { intros w1 w2 w3 [H1 H2] [H3 H4]. split; congruence. }
  constructor; [exact Htrans|intros _; exact Htrans|done|done|done|..].
  - intros c w. cbn [Create with_Uid SshConf_model]. apply wp_read.
    destruct (sshConfEncrypt _ _ _ _) as [c'|] eqn:He; [|done]. apply wp_statement. intros ok.
    destruct ok; [|done]. cbv zeta. destruct (insert _ _ _ _) as [t|] eqn:Hi; [|done]. apply wp_put, wp_ret. split; [|done]. split; [done|].
    eapply others_insert; [| |exact Hi]; [done|]. cbn.
    unfold sshConfEncrypt in He. repeat (apply bind_Some in He as (? & _ & He)). injection He as <-. done.
  - intros id w. apply wp_statement. intros ok. apply wp_read, wp_ret. split; [done|]. intros c. destruct ok; [|done].
    intros (r & Hr & Hc)%bind_Some. apply first_row_in in Hr as [Hr Hp]. unfold conf_is in Hp. apply andb_true_iff in Hp as [_ Hp%Z.eqb_eq].
    by exists r.
  - intros o l w. apply wp_statement. intros ok. apply wp_read, wp_ret. split; [done|]. intros cs. destruct ok; [|done]. intros H%mapM_Some.
    apply Forall_forall. intros c Hc. destruct (proj1 (list_elem_of_lookup _ _) Hc) as [i Hi].
    destruct (Forall2_lookup_r _ _ _ _ _ H Hi) as (r & Hr%list_elem_of_lookup_2 & Hd). apply (owned_rows h_Uid) in Hr as [Hr Hu].
    by exists r.
  - intros c w. cbn [UpdateById ID SshConf_model]. apply wp_read. destruct (sshConfEncrypt _ _ _ _) as [c'|]; [|done].
    apply wp_statement. intros []; [|done]. apply wp_put, wp_ret. split; [|done]. split; [done|]. cbn. apply others_change.
    intros r. unfold conf_is. rewrite andb_true_iff, !Z.eqb_eq. by intros [_ <-].
  - intros id w. apply wp_statement. intros ok. apply wp_read. destruct ok; [|done]. apply wp_put, wp_ret. split; [|done]. split; [done|]. cbn.
    apply others_remove. intros r. unfold conf_is. rewrite andb_true_iff, !Z.eqb_eq. by intros [_ <-].
Qed.

End Hosts.

(** Notes.  An update writes the owner of its body, when it names one. *)
Abbreviation notes_model := (CmdNote_model fails order now).
Definition notes_kept (w w' : desk) : Prop := hosts w' = hosts w /\ others n_Uid (notes w') = others n_Uid (notes w).
Definition my_note (w : desk) (n : CmdNote) : Prop := n ∈ rows (notes w) /\ n_Uid n = u.
Definition notes_updated (n : CmdNote) (w w' : desk) : Prop :=
  hosts w' = hosts w /\ (n_Uid n = 0 \/ n_Uid n = u -> others n_Uid (notes w') = others n_Uid (notes w)) /\
  (forall r, r ∈ others n_Uid (notes w) -> r ∈ others n_Uid (notes w')) /\
  (forall r, r ∈ others n_Uid (notes w') -> r ∈ others n_Uid (notes w) \/
     n_Uid r = n_Uid n /\ exists old, my_note w old /\ n_ID old = n_ID n).

Lemma elem_of_others {T} (owner : T -> Z) tab r : r ∈ others owner tab <-> r ∈ rows tab /\ owner r <> u.
Proof. unfold others. by rewrite !list_elem_of_In, filter_In, negb_true_iff, Z.eqb_neq. Qed.

#[export] Instance notes_private : Private notes_model u notes_kept notes_updated my_note.
Proof.
  assert (Htrans : forall w1 w2 w3, notes_kept w1 w2 -> notes_kept w2 w3 -> notes_kept w1 w3).
  { intros w1 w2 w3 [H1 H2] [H3 H4]. split; congruence. }
  constructor; [exact Htrans| | |done|done|..].
  - intros n w1 w2 w3 (H1 & H2 & H3 & H4) (H5 & H6). split_and!; [congruence|intros; rewrite H6; auto|rewrite H6; auto..].
  - intros n w r. split_and!; auto.
  - intros n w. apply wp_statement. intros ok. apply wp_read. destruct ok; [|done]. cbv zeta. destruct (insert _ _ _ _) as [t|] eqn:Hi; [|done].
    apply wp_put, wp_ret. split; [|done]. split; [done|]. eapply others_insert; [| |exact Hi]; done.
  - intros id w. apply wp_statement. intros ok. apply wp_read, wp_ret. split; [done|]. intros n. destruct ok; [|done].
    intros [Hr Hp]%first_row_in. unfold note_is in Hp. apply andb_true_iff in Hp as [_ Hp%Z.eqb_eq]. done.
  - intros o l w. apply wp_statement. intros ok. apply wp_read, wp_ret. split; [done|]. intros ns. destruct ok; [|done]. intros [= <-].
    apply Forall_forall. intros n Hn. by apply (owned_rows n_Uid) in Hn.
  - intros n w. apply wp_statement. intros ok. apply wp_read. destruct ok; [|split; [split_and!; auto|done]]. apply wp_put, wp_ret. split; [|done].
    set (f := fun v => _). set (P := note_is _ _).
    assert (HP : forall r, P r = true -> n_ID r = n_ID n /\ n_Uid r = u) by (intros r; unfold P, note_is; by rewrite andb_true_iff, !Z.eqb_eq).
    split_and!; [done|..].
    + intros Hn. cbn [notes set_notes]. apply others_change. intros r Hr. destruct (HP r Hr) as [_ Hu]. split; [done|]. cbn. unfold nonzero. case_match; [done|]. lia.
    + intros r. rewrite !elem_of_others. intros [Hr Hu]. split; [|done]. cbn. apply list_elem_of_fmap. exists r. split; [|done].
      destruct (P r) eqn:Hp; [|done]. by destruct (HP r Hp).
    + intros r. rewrite !elem_of_others. cbn. intros [(v & -> & Hv)%list_elem_of_fmap Hu]. destruct (P v) eqn:Hp; [|by left].
      right. destruct (HP v Hp) as [Hi Ho]. cbn in *. unfold nonzero in *. destruct (n_Uid n =? 0); [done|]. split; [done|]. by exists v.
  - intros id w. apply wp_statement. intros ok. apply wp_read. destruct ok; [|done]. apply wp_put, wp_ret. split; [|done]. split; [done|]. cbn.
    apply others_remove. intros r. unfold note_is. rewrite andb_true_iff, !Z.eqb_eq. by intros [_ <-].
Qed.
End Owners.

(** * What is stored *)

Section Store.
Context (fails : nat -> bool) (seal : nat -> string -> string -> string) (open : string -> string -> option string) (AesSecret : string).
Context (Hcipher : cipher_ok seal open) (now : Z).

(** What the database holds for an id and an owner. *)
Definition host_at (w : desk) (id uid : Z) : option SshConf :=
  first_row h_ID (conf_is id uid) (rows (hosts w)) ≫= AfterFind open AesSecret.
Definition trimmed (c : SshConf) : SshConf := conf_with_secrets (TrimSpace (Pwd c)) (TrimSpace (CertPwd c)) (TrimSpace (CertData c)) c.
Definition sealed_text (s : string) : Prop := s = "" \/ exists n p, s = seal n AesSecret p.
Definition sealed (c : SshConf) : Prop := sealed_text (Pwd c) /\ sealed_text (CertPwd c) /\ sealed_text (CertData c).
Definition hosts_ok (w : desk) : Prop := NoDup (h_ID <$> rows (hosts w)) /\ Forall sealed (rows (hosts w)).

Definition chosen (id uid : Z) (l : list SshConf) : list SshConf := List.filter (conf_is id uid) l.

Lemma conf_is_true id uid c : conf_is id uid c = true <-> h_ID c = id /\ h_Uid c = uid.
Proof. unfold conf_is. by rewrite andb_true_iff, !Z.eqb_eq. Qed.
Lemma fold_first_none {T} (id : T -> Z) P (l : list T) b : (forall t, t ∈ l -> P t = false) ->
  fold_left (fun best t => if P t then match best with Some b => if id t <? id b then Some t else best | None => Some t end else best) l b = b.
Proof.
  induction l as [|t l IH]; intros H; [done|]. cbn. rewrite (H t) by left. apply IH. intros x Hx. apply H. by right.
Qed.
Lemma first_row_head id uid l : NoDup (h_ID <$> l) -> first_row h_ID (conf_is id uid) l = head (chosen id uid l).
Proof.
  induction l as [|t l IH]; [done|]. rewrite fmap_cons, NoDup_cons. intros [Ht Hl]. unfold first_row, chosen. cbn.
  destruct (conf_is id uid t) eqn:Hp; [|by apply IH]. cbn. apply fold_first_none. intros x Hx.
  destruct (conf_is id uid x) eqn:Hq; [|done]. apply conf_is_true in Hp as [<- _], Hq as [Hq _].
  destruct Ht. rewrite <- Hq. by apply list_elem_of_fmap_2.
Qed.
Lemma host_at_chosen w id uid : hosts_ok w -> host_at w id uid = head (chosen id uid (rows (hosts w))) ≫= AfterFind open AesSecret.
Proof. intros [H _]. unfold host_at. by rewrite first_row_head. Qed.

Lemma chosen_cons id uid c l : chosen id uid (c :: l) = if conf_is id uid c then c :: chosen id uid l else chosen id uid l.
Proof. done. Qed.
Lemma chosen_app id uid l m : chosen id uid (l ++ m)%list = (chosen id uid l ++ chosen id uid m)%list.
Proof. apply List.filter_app. Qed.
Lemma chosen_change (P : SshConf -> bool) f id uid l : (forall c, h_ID (f c) = h_ID c /\ h_Uid (f c) = h_Uid c) ->
  chosen id uid ((fun c => if P c then f c else c) <$> l) = (fun c => if P c then f c else c) <$> chosen id uid l.
Proof.
  intros Hf. induction l as [|c l IH]; [done|]. rewrite fmap_cons, !chosen_cons, IH.
  replace (conf_is id uid (if P c then f c else c)) with (conf_is id uid c); [by destruct (conf_is id uid c)|].
  destruct (P c); [|done]. unfold conf_is. by destruct (Hf c) as [-> ->].
Qed.
Lemma chosen_is id uid l c : c ∈ chosen id uid l -> h_ID c = id /\ h_Uid c = uid.
Proof. intros H%list_elem_of_In. unfold chosen in H. rewrite filter_In in H. apply conf_is_true, H. Qed.

Lemma Encrypt_sealed n p c : EncryptString seal n p AesSecret = Some c -> sealed_text c.
Proof. unfold EncryptString. case_bool_decide; [intros [= <-]; by left|]. destruct (strlen AesSecret =? 32)%nat; [|done]. cbn. intros [= <-]. right. eauto. Qed.
Lemma encrypt_spec n c c' : sshConfEncrypt seal AesSecret n c = Some c' ->
  sealed c' /\ exists pwd certPwd certData, c' = conf_with_secrets pwd certPwd certData c /\
  forall id uid created updated,
    AfterFind open AesSecret (conf_with_id id (conf_with_uid uid (conf_with_times created updated c'))) =
    Some (conf_with_id id (conf_with_uid uid (conf_with_times created updated (trimmed c)))).
Proof.
  unfold sshConfEncrypt. intros (pwd & Hp & (certPwd & Hq & (certData & Hr & [= <-])%bind_Some)%bind_Some)%bind_Some.
  split; [split_and!; by eapply Encrypt_sealed|]. exists pwd, certPwd, certData. split; [done|]. intros id uid created updated.
  unfold AfterFind. cbn [Pwd CertPwd CertData conf_with_id conf_with_uid conf_with_times conf_with_secrets].
  by rewrite (Decrypt_Encrypt seal open _ _ _ _ Hcipher Hp), (Decrypt_Encrypt seal open _ _ _ _ Hcipher Hq), (Decrypt_Encrypt seal open _ _ _ _ Hcipher Hr).
Qed.

Definition same_elsewhere (id uid : Z) (w w' : desk) : Prop :=
  forall id' uid', (id', uid') <> (id, uid) -> host_at w' id' uid' = host_at w id' uid'.

Lemma defaults_encrypt n c : sshConfEncrypt seal AesSecret n (with_defaults c) = with_defaults <$> sshConfEncrypt seal AesSecret n c.
Proof.
  unfold sshConfEncrypt. cbn [Pwd CertPwd CertData with_defaults].
  destruct (EncryptString _ _ (Pwd c) _); [|done]. cbn. destruct (EncryptString _ _ (CertPwd c) _); [|done]. cbn.
  by destruct (EncryptString _ _ (CertData c) _).
Qed.

Lemma create_inv c w w' : conf_Create fails seal AesSecret now c w = (true, w') ->
  exists c1 t, sshConfEncrypt seal AesSecret (queries w) (with_defaults c) = Some c1 /\
    insert h_ID conf_with_id (conf_with_times (or_now now (h_CreatedAt c1)) (or_now now (h_UpdatedAt c1)) c1) (hosts w) = Some t /\
    w' = set_hosts t (count_query w).
Proof.
  unfold conf_Create, statement, mbind, st_bind, mret, st_ret, st_get, st_modify. rewrite defaults_encrypt.
  destruct (sshConfEncrypt _ _ _ c) as [c1|]; [|done]. cbv zeta. cbn [fst snd].
  destruct (negb _); [|done]. destruct (insert _ _ _ _) as [t|] eqn:Hi; [|done]. intros [= <-]. by exists (with_defaults c1), t.
Qed.
Lemma update_inv id uid c w w' : conf_UpdateById fails seal AesSecret now id uid c w = (true, w') ->
  exists c1, sshConfEncrypt seal AesSecret (queries w) c = Some c1 /\
    w' = set_hosts (change (conf_is id uid)
      (fun v => conf_with_id (h_ID v) (conf_with_uid (h_Uid v) (conf_with_times (h_CreatedAt c1) now c1))) (hosts w)) (count_query w).
Proof.
  unfold conf_UpdateById, statement, mbind, st_bind, mret, st_ret, st_get, st_modify. destruct (sshConfEncrypt _ _ _ c) as [c1|]; [|done]. cbn.
  destruct (negb _); [|done]. intros [= <-]. by exists c1.
Qed.

Lemma create_stores c w w' : hosts_ok w -> conf_Create fails seal AesSecret now c w = (true, w') ->
  hosts_ok w' /\ exists id, (h_ID c <> 0 -> id = h_ID c) /\ host_at w id (h_Uid c) = None /\
    host_at w' id (h_Uid c) =
      Some (conf_with_id id (conf_with_times (or_now now (h_CreatedAt c)) (or_now now (h_UpdatedAt c)) (trimmed (with_defaults c)))) /\
    same_elsewhere id (h_Uid c) w w'.
Proof.
  intros Hok (c1 & t & He & Hi & ->)%create_inv.
  change (h_ID c) with (h_ID (with_defaults c)). change (h_Uid c) with (h_Uid (with_defaults c)).
  change (h_CreatedAt c) with (h_CreatedAt (with_defaults c)). change (h_UpdatedAt c) with (h_UpdatedAt (with_defaults c)).
  revert c1 He Hi. generalize (with_defaults c). clear c. intros c c1 He Hi. pose proof Hok as [Hnd Hs].
  apply encrypt_spec in He as (Hsc & pwd & certPwd & certData & -> & Haf).
  unfold insert in Hi. set (id := if h_ID c =? 0 then seq (hosts w) + 1 else h_ID c).
  set (row := conf_with_id id (conf_with_uid (h_Uid c) (conf_with_times (or_now now (h_CreatedAt c)) (or_now now (h_UpdatedAt c)) (conf_with_secrets pwd certPwd certData c)))).
  assert (Hrow : (if h_ID (conf_with_times (or_now now (h_CreatedAt (conf_with_secrets pwd certPwd certData c)))
      (or_now now (h_UpdatedAt (conf_with_secrets pwd certPwd certData c))) (conf_with_secrets pwd certPwd certData c)) =? 0
    then conf_with_id (seq (hosts w) + 1) (conf_with_times (or_now now (h_CreatedAt (conf_with_secrets pwd certPwd certData c)))
      (or_now now (h_UpdatedAt (conf_with_secrets pwd certPwd certData c))) (conf_with_secrets pwd certPwd certData c))
    else conf_with_times (or_now now (h_CreatedAt (conf_with_secrets pwd certPwd certData c)))
      (or_now now (h_UpdatedAt (conf_with_secrets pwd certPwd certData c))) (conf_with_secrets pwd certPwd certData c)) = row).
  { unfold row, id. cbn. by destruct c, (_ =? 0). }
  rewrite Hrow in Hi. destruct (existsb _ _) eqn:Hex; [done|]. injection Hi as <-.
  assert (Hfresh : id ∉ h_ID <$> rows (hosts w)).
  { intros (r & Hr & Hin)%list_elem_of_fmap. apply not_true_iff_false in Hex. apply Hex, existsb_exists. exists r.
    split; [by apply list_elem_of_In|]. apply Z.eqb_eq. by rewrite <- Hr. }
  assert (Hnone : forall uid, chosen id uid (rows (hosts w)) = []).
  { intros uid. destruct (chosen id uid _) as [|r l] eqn:Hc; [done|]. destruct Hfresh. assert (Hr : r ∈ chosen id uid (rows (hosts w))) by (rewrite Hc; left).
    destruct (chosen_is _ _ _ _ Hr) as [<- _]. apply list_elem_of_fmap_2. apply list_elem_of_In in Hr. unfold chosen in Hr. by apply filter_In in Hr as [Hr%list_elem_of_In _]. }
  assert (Hok' : hosts_ok (set_hosts (mkTable (rows (hosts w) ++ [row]) (Z.max (seq (hosts w)) (h_ID row))) (count_query w))).
  { split; cbn.
    - rewrite fmap_app. apply NoDup_app. split; [done|]. split; [|apply NoDup_singleton]. intros i Hi Hi'%list_elem_of_singleton. by subst i.
    - apply Forall_app. split; [done|]. by constructor. }
  split; [done|]. exists id. split; [unfold id; intros Hne; by rewrite (proj2 (Z.eqb_neq _ _) Hne)|]. split; [by rewrite host_at_chosen, Hnone|].
  split; [|intros id' uid' Hne]; rewrite !host_at_chosen by done; cbn [hosts set_hosts rows]; rewrite chosen_app.
  - rewrite Hnone, chosen_cons. replace (conf_is id (h_Uid c) row) with true by (symmetry; by apply conf_is_true).
    change (AfterFind open AesSecret row = Some (conf_with_id id (conf_with_times (or_now now (h_CreatedAt c)) (or_now now (h_UpdatedAt c)) (trimmed c)))).
    unfold row. rewrite Haf. by destruct c.
  - rewrite chosen_cons. replace (conf_is id' uid' row) with false; [by rewrite app_nil_r|].
    symmetry. apply not_true_iff_false. intros [<- <-]%conf_is_true. by destruct Hne.
Qed.

Lemma rows_change P f w : (forall c, h_ID (f c) = h_ID c) -> h_ID <$> rows (change P f (hosts w)) = h_ID <$> rows (hosts w).
Proof. intros Hf. cbn. rewrite <- list_fmap_compose. apply list_fmap_ext. intros i c _. cbn. by destruct (P c). Qed.

Lemma update_stores id uid c w w' : hosts_ok w -> conf_UpdateById fails seal AesSecret now id uid c w = (true, w') ->
  hosts_ok w' /\ same_elsewhere id uid w w' /\
  (chosen id uid (rows (hosts w)) <> [] ->
   host_at w' id uid = Some (conf_with_id id (conf_with_uid uid (conf_with_times (h_CreatedAt c) now (trimmed c))))).
Proof.
  intros Hok (c1 & He & ->)%update_inv. pose proof Hok as [Hnd Hs].
  apply encrypt_spec in He as (Hsc & pwd & certPwd & certData & -> & Haf). set (f := fun v => _).
  assert (Hf : forall v, h_ID (f v) = h_ID v /\ h_Uid (f v) = h_Uid v) by done.
  assert (Hok' : hosts_ok (set_hosts (change (conf_is id uid) f (hosts w)) (count_query w))).
  { split; [cbn [hosts set_hosts]; rewrite rows_change; [done|apply Hf]|]. cbn. apply Forall_fmap. eapply Forall_impl; [exact Hs|].
    intros v Hv. cbn. by destruct (conf_is id uid v). }
  split; [done|]. split; [intros id' uid' Hne|intros Hne]; rewrite !host_at_chosen by done; cbn [hosts set_hosts rows change]; rewrite chosen_change by done.
  - f_equal. f_equal. rewrite <- (list_fmap_id (chosen id' uid' _)) at 2. apply list_fmap_ext. intros i v Hv%list_elem_of_lookup_2%chosen_is.
    destruct (conf_is id uid v) eqn:Hp; [|done]. apply conf_is_true in Hp. destruct Hne. destruct Hv, Hp. congruence.
  - destruct (chosen id uid _) as [|v l] eqn:Hc; [done|]. assert (Hv : v ∈ chosen id uid (rows (hosts w))) by (rewrite Hc; left).
    apply chosen_is in Hv. cbn. rewrite (proj2 (conf_is_true id uid v) Hv). unfold f. destruct Hv as [-> ->]. by rewrite Haf.
Qed.

Lemma filter_comm {T} (f g : T -> bool) l : List.filter f (List.filter g l) = List.filter g (List.filter f l).
Proof.
  induction l as [|x l IH]; [done|]. cbn. destruct (f x) eqn:Hf, (g x) eqn:Hg; cbn; rewrite ?Hf, ?Hg, IH; done.
Qed.
Lemma sublist_List_filter {T} (f : T -> bool) l : List.filter f l `sublist_of` l.
Proof. induction l as [|x l IH]; [constructor|]. cbn. destruct (f x); by constructor. Qed.
Lemma delete_stores id uid w w' : hosts_ok w -> conf_DeleteByID fails id uid w = (true, w') ->
  hosts_ok w' /\ same_elsewhere id uid w w' /\ host_at w' id uid = None.
Proof.
  intros Hok. pose proof Hok as [Hnd Hs]. unfold conf_DeleteByID, statement, mbind, st_bind, mret, st_ret, st_get, st_modify. cbn.
  destruct (negb _); [|done]. intros [= <-].
  assert (Hrest : forall id' uid' l, chosen id' uid' (List.filter (fun t => negb (conf_is id uid t)) l) =
    List.filter (fun t => negb (conf_is id uid t)) (chosen id' uid' l)).
  { intros id' uid' l. apply filter_comm. }
  assert (Hok' : hosts_ok (set_hosts (remove (conf_is id uid) (hosts w)) (count_query w))).
  { split; cbn.
    - eapply sublist_NoDup; [exact Hnd|]. apply sublist_fmap, sublist_List_filter.
    - apply List.Forall_forall. intros c [Hc _]%filter_In. rewrite List.Forall_forall in Hs. by apply Hs. }
  split; [done|]. split; [intros id' uid' Hne|]; rewrite !host_at_chosen by done; cbn [hosts set_hosts rows remove]; rewrite Hrest.
  - f_equal. f_equal. assert (Hno : forall c, c ∈ chosen id' uid' (rows (hosts w)) -> conf_is id uid c = false).
    { intros c [Hi Hu]%chosen_is. apply not_true_iff_false. intros [Hi' Hu']%conf_is_true. destruct Hne. congruence. }
    clear -Hno. induction (chosen id' uid' (rows (hosts w))) as [|c l IH]; [done|]. cbn. rewrite (Hno c) by left. cbn. f_equal.
    apply IH. intros x Hx. apply Hno. by right.
  - assert (Hall : forall c, c ∈ chosen id uid (rows (hosts w)) -> conf_is id uid c = true) by (intros c Hc%chosen_is; by apply conf_is_true).
    clear -Hall. induction (chosen id uid (rows (hosts w))) as [|c l IH]; [done|]. cbn. rewrite (Hall c) by left. cbn. apply IH. intros x Hx. apply Hall. by right.
Qed.
Lemma find_stores id uid w : conf_FindByID fails open AesSecret id uid w = (if fails (queries w) then None else host_at w id uid, count_query w).
Proof. unfold conf_FindByID, statement, host_at, mbind, st_bind, mret, st_ret, st_get, st_modify. cbn. by destruct (fails (queries w)). Qed.
End Store.

(** The binding accepts no host with a field that a default would fill. *)
Lemma valid_defaults c : SshConf_valid c = true -> with_defaults c = c.
Proof.
  unfold SshConf_valid. intros H. repeat (apply andb_true_iff in H as [H ?]).
  assert (Ht : forall d n s, text_ok n s = true -> or_text d s = s) by (intros d n s Hs; unfold or_text; destruct (decide (s = EmptyString)) as [->|Hne]; [done|by rewrite bool_decide_eq_false_2]).
  assert (Hx : forall d s, hexcolor s = true -> or_text d s = s) by (intros d s Hs; unfold or_text; destruct (decide (s = EmptyString)) as [->|Hne]; [done|by rewrite bool_decide_eq_false_2]).
  assert (Hn : forall d n, n <> 0 -> or_number d n = n) by (intros d n ?; unfold or_number; by destruct (Z.eqb_spec n 0)).
  assert (Ho : forall d (a b : string) s, a <> "" -> b <> "" -> bool_decide (s ∈ [a; b]) = true -> or_text d s = s).
  { intros d a b s Ha Hb Hs%bool_decide_eq_true. unfold or_text.
    destruct (decide (s = EmptyString)) as [->|Hne]; [|by rewrite bool_decide_eq_false_2]. exfalso.
    apply elem_of_cons in Hs as [?|Hs%list_elem_of_singleton]; congruence. }
  rewrite !Z.leb_le in *. unfold with_defaults.
  rewrite (Hn _ (Port c)), (Hn _ (FontSize c)), (Ho _ "pwd" "cert" (AuthType c)), (Ho _ "tcp4" "tcp6" (NetType c))
    by (assumption || done || lia).
  rewrite !Hx by assumption. rewrite !(Ht _ 128%nat) by assumption. by destruct c.
Qed.

(** C9: the table of hosts is a map from an identifier and an owner to a host: what
    is created or updated is read back, apart from blanks around its secrets and
    the defaults a new row takes for empty fields, of which a host the binding
    accepts has none; what is deleted is gone, and nothing else changes; the
    secrets that are stored are sealed.  (The update also overwrites the time of
    creation with the body's.) *)
Theorem hosts_store fails seal open AesSecret (now : Z) (w w' : desk) :
  cipher_ok seal open -> hosts_ok seal AesSecret w ->
  (forall c, conf_Create fails seal AesSecret now c w = (true, w') ->
     hosts_ok seal AesSecret w' /\ exists id, (h_ID c <> 0 -> id = h_ID c) /\ host_at open AesSecret w id (h_Uid c) = None /\
     host_at open AesSecret w' id (h_Uid c) =
       Some (conf_with_id id (conf_with_times (or_now now (h_CreatedAt c)) (or_now now (h_UpdatedAt c)) (trimmed (with_defaults c)))) /\
     (SshConf_valid c = true -> with_defaults c = c) /\
     same_elsewhere open AesSecret id (h_Uid c) w w') /\
  (forall id uid c, conf_UpdateById fails seal AesSecret now id uid c w = (true, w') ->
     hosts_ok seal AesSecret w' /\ same_elsewhere open AesSecret id uid w w' /\
     (chosen id uid (rows (hosts w)) <> [] ->
      host_at open AesSecret w' id uid = Some (conf_with_id id (conf_with_uid uid (conf_with_times (h_CreatedAt c) now (trimmed c)))))) /\
  (forall id uid, conf_DeleteByID fails id uid w = (true, w') ->
     hosts_ok seal AesSecret w' /\ same_elsewhere open AesSecret id uid w w' /\ host_at open AesSecret w' id uid = None) /\
  (forall id uid, conf_FindByID fails open AesSecret id uid w = (if fails (queries w) then None else host_at open AesSecret w id uid, count_query w)).
Proof.
  intros Hc Hok. split_and!; [intros c Hw|intros id uid c Hw|intros id uid Hw|intros id uid].
  - destruct (create_stores fails seal open AesSecret Hc now c w w' Hok Hw) as (H1 & id & H2 & H3 & H4 & H5).
    split; [done|]. exists id. pose proof (valid_defaults c). by split_and!.
  - by eapply update_stores.
  - by eapply delete_stores.
  - by apply find_stores.
Qed.

(** C8: a request for hosts or notes shows only records of its user, and leaves the
    rows of everybody else as they are, whatever it asks for and whichever
    statements fail.  The one exception is an update of a note: its body may name
    another owner, and the user's note becomes a row of his. *)
Theorem records_private fails seal open AesSecret order (rq : request) (w : desk) :
  (forall T key (l : list T), Permutation (order T key l) l) ->
  (forall h, h ∈ [ConfCreate fails seal open AesSecret order rq; ConfFindByID fails seal open AesSecret order rq;
                  ConfFindAll fails seal open AesSecret order rq; ConfUpdateById fails seal open AesSecret order rq;
                  ConfDeleteById fails seal open AesSecret order rq] ->
     wp h (fun _ w' => hosts_kept (rq_uid rq) w w' /\
       answered (conf_of fails seal open AesSecret order rq) (my_host (rq_uid rq) open AesSecret) w w') w) /\
  (forall h, h ∈ [CmdNoteCreate fails order rq; CmdNoteFindByID fails order rq; CmdNoteFindAll fails order rq; CmdNoteDeleteById fails order rq] ->
     wp h (fun _ w' => notes_kept (rq_uid rq) w w' /\ answered (note_of fails order rq) (my_note (rq_uid rq)) w w') w) /\
  wp (CmdNoteUpdateById fails order rq) (fun _ w' => answered (note_of fails order rq) (my_note (rq_uid rq)) w w' /\
    match Bind (note_of fails order rq) rq with Some n => notes_updated (rq_uid rq) n w w' | None => notes_kept (rq_uid rq) w w' end) w.
Proof.
  intros Ho.
  pose proof (hosts_private fails order Ho (rq_now rq) (rq_uid rq) seal open AesSecret) as Hh.
  pose proof (notes_private fails order Ho (rq_now rq) (rq_uid rq)) as Hn.
  split; [|split].
  - intros h H. assert (h = update_by_id (conf_of fails seal open AesSecret order rq) rq \/
      h ∈ [create (conf_of fails seal open AesSecret order rq) rq; find_by_id (conf_of fails seal open AesSecret order rq) rq;
           find_all (conf_of fails seal open AesSecret order rq) rq; delete_by_id (conf_of fails seal open AesSecret order rq) rq]) as [->|Hin]
      by (revert H; rewrite !elem_of_cons; tauto).
    + eapply wp_mono; [apply (@update_private SshConf _ rq _ _ _ Hh)|]. intros [] w' (H1 & H2 & H3). split; [|done].
      destruct (Bind (conf_of fails seal open AesSecret order rq) rq) as [c|] eqn:Hb; [by apply (H1 c)|by apply H2].
    + by apply (@handlers_private SshConf _ rq _ _ _ Hh).
  - intros h H. by apply (@handlers_private CmdNote _ rq _ _ _ Hn).
  - eapply wp_mono; [apply (@update_private CmdNote _ rq _ _ _ Hn)|]. intros [] w' (H1 & H2 & H3). split; [done|]. case_match; auto.
Qed.

(** * Examples *)

Definition by_id (T : Type) (_ : T -> Z) (l : list T) : list T := l.
Definition secret_key : string := "0123456789abcdef0123456789abcdef".
Definition some_host : SshConf :=
  mkSshConf 0 0 "router" "192.168.0.1" "root" " geheim " "pwd" "tcp4" "" "" 22 16 "#000000" "#FFFFFF" "#FFFFFF" "Courier" "block" "sh"
    "xterm-256color" "" "" 0 0.
Definition some_note (id uid : Z) : CmdNote := mkCmdNote id uid "uptime" "uptime -p" 0 0.
Definition some_request : request := mkRequest 7 100 "1" "10000" "0" (Some some_host) (Some (some_note 1 8)).
Definition some_desk : desk := mkDesk (mkTable [] 0) (mkTable [some_note 1 7] 1) 0 [].

(** A user writes a note into the list of another. *)
Example note_given_away :
  rows (notes (CmdNoteUpdateById (fun _ => false) by_id some_request some_desk).2) = [mkCmdNote 1 8 "uptime" "uptime -p" 0 100].
Proof. reflexivity. Qed.

Lemma records_private_witness :
  replies (ConfCreate (fun _ => false) toy_seal toy_open secret_key by_id some_request some_desk).2 =
    [Found [conf_with_id 1 (conf_with_uid 7 (conf_with_times 100 100 (trimmed some_host)))]] /\
  hosts_kept 7 some_desk (ConfCreate (fun _ => false) toy_seal toy_open secret_key by_id some_request some_desk).2.
Proof.
  split; [vm_compute; reflexivity|].
  destruct (records_private (fun _ => false) toy_seal toy_open secret_key by_id some_request some_desk (fun _ _ l => Permutation_refl l)) as [H _].
  exact (proj1 (H _ ltac:(left))).
Defined.
Lemma hosts_store_witness :
  let w' := (conf_Create (fun _ => false) toy_seal secret_key 100 some_host some_desk).2 in
  hosts_ok toy_seal secret_key w' /\ host_at toy_open secret_key w' 1 0 = Some (conf_with_id 1 (conf_with_times 100 100 (trimmed some_host))).
Proof.
  split; [|vm_compute; reflexivity].
  destruct (hosts_store (fun _ => false) toy_seal toy_open secret_key 100 some_desk
    (conf_Create (fun _ => false) toy_seal secret_key 100 some_host some_desk).2 toy_cipher_ok ltac:(split; constructor)) as [H _].
  exact (proj1 (H some_host ltac:(vm_compute; reflexivity))).
Defined.
