(* ===== verification/SysInit.v ===== *)
(** The first start of the web service ([service/sys_init.go],
    [service/db_conn.go], [RewriteConfig] of [config.go], the models it fills).

    An open request names a database file and the first accounts; ten steps fill the
    tables, rewrite the configuration and start the SSH server.  Every step may
    fail, and nothing is undone: the theorems say what is there after a success,
    what a failure leaves, and that a request that got half-way cannot be repeated.
    Every database file has tables of its own; a step that may fail asks [fails]
    for the n-th attempt. *)

From S2P Require Import Prelude.
From S2P Require Import GoInt.
From S2P Require Import GoStrings.
From S2P Require Import Effects.
From S2P Require Import WebUser.
From S2P Require Import Records.
From stdpp Require Import gmap strings.
Open Scope string_scope.
Open Scope Z_scope.

(** * Data *)

Record AppConfig := mkAppConf {
  c_WebBaseDir : string; c_AppName : string; c_DbType : string; c_DbFile : string; c_IsInit : bool; c_JwtSecret : string;
  c_AesSecret : string; c_JwtExpire : Z; c_StatusRefresh : Z; c_ClientCheck : Z; c_SessionSecret : string; c_Address : string;
  c_Port : string; c_CertFile : string; c_KeyFile : string }.

Record SshdConf := mkSshdConf {
  sc_ID : Z; sc_Name : string; sc_Host : string; sc_Port : Z; sc_Shell : string; sc_KeyFile : string; sc_KeySeed : string;
  sc_KeepAlive : Z; sc_LoadEnv : string; sc_AuthType : string; sc_ServerVersion : string }.
Record SshdUser := mkSshdUser {
  su_ID : Z; su_Name : string; su_Pwd : string; su_DescInfo : string; su_IsEnable : string; su_WorkDir : string; su_ExpiryAt : Z }.

(** The tables of one database file: users and policies, the server, its users, the
    hosts. *)
Record tables := mkTables { t_db : database; t_sshd : list SshdConf; t_sshd_users : list SshdUser; t_hosts : table SshConf }.
Definition no_tables : tables := mkTables (mkDatabase [] 0 [] [] [] 0) [] [] (mkTable [] 0).

(** The configuration file. *)
Inductive config_file := Absent | Holds (c : AppConfig) | Torn.

Record world := mkWorld {
  cfg : AppConfig;
  file : config_file;
  opened : option string;         (** the database [model.Db] is open on *)
  disk : gmap string tables;
  attempts : nat;
  started : nat;                  (** sends to [isStartSshd] *)
  answers : list Z }.

Definition tables_of (w : world) (path : string) : tables := default no_tables (disk w !! path).
Definition set_cfg (c : AppConfig) (f : config_file) (w : world) : world := mkWorld c f (opened w) (disk w) (attempts w) (started w) (answers w).
Definition set_opened (path : string) (w : world) : world := mkWorld (cfg w) (file w) (Some path) (disk w) (attempts w) (started w) (answers w).
Definition set_tables (path : string) (t : tables) (w : world) : world :=
  mkWorld (cfg w) (file w) (opened w) (<[path := t]> (disk w)) (attempts w) (started w) (answers w).
Definition add_attempt (w : world) : world := mkWorld (cfg w) (file w) (opened w) (disk w) (S (attempts w)) (started w) (answers w).
Definition add_start (w : world) : world := mkWorld (cfg w) (file w) (opened w) (disk w) (attempts w) (S (started w)) (answers w).
Definition add_answer (code : Z) (w : world) : world :=
  mkWorld (cfg w) (file w) (opened w) (disk w) (attempts w) (started w) (answers w ++ [code])%list.

(** The body, decoded; [None] is one that cannot be. *)
Record InitConfig := mkInit {
  i_DbFile : string; i_DbType : string; i_JwtSecret : string; i_SessionSecret : string; i_Username : string; i_Password : string;
  i_SshdHost : string; i_SshdPort : Z; i_SshdUser : string; i_SshdPwd : string }.
Definition InitConfig_valid (b : InitConfig) : bool :=
  text_ok 255 (i_DbFile b) && bool_decide (i_DbType b = "sqlite") && text_ok 128 (i_JwtSecret b) && text_ok 128 (i_SessionSecret b) &&
  text_ok 63 (i_Username b) && text_ok 63 (i_Password b) && text_ok 127 (i_SshdHost b) &&
  (1 <=? i_SshdPort b) && (i_SshdPort b <=? 65535) && text_ok 63 (i_SshdUser b) && text_ok 63 (i_SshdPwd b).

Abbreviation M := (ST world).
Definition JSON (code : Z) : M unit := st_modify (add_answer code).

(** * Programs *)

Section Init.
(** Whether the n-th attempt fails, and whether a failing write leaves a torn file;
    the cipher. *)
Context (fails tears : nat -> bool) (seal : nat -> string -> string -> string).
(** [config.WorkDir]; the end of the year 2099; the time; the key that is made; the shell. *)
Context (WorkDir : string) (forever now : Z) (privateKey shell : string).

Definition attempt : M bool := w ← st_get; _ ← st_modify add_attempt; mret (negb (fails (attempts w))).

Definition db_path (file : string) : string := path_Join [WorkDir; file].

(** [GetSqliteDb] and the query. *)
Definition DbConnTestCheck : M bool := ok ← attempt; if ok : bool then attempt else mret false.
Definition DbMigrate (file : string) : M bool :=
  ok ← attempt;
  if ok : bool then _ ← st_modify (set_opened (db_path file)); attempt else mret false.

(** A row into the open database: the hook, then the statement. *)
Definition insert_row (row : nat -> string -> tables -> option tables) : M bool :=
  w ← st_get;
  match opened w with
  | None => mret false
  | Some path =>
    ok ← attempt;
    match (if ok : bool then row (attempts w) (c_AesSecret (cfg w)) (tables_of w path) else None) with
    | Some t => _ ← st_modify (set_tables path t); mret true
    | None => mret false
    end
  end.

Definition root_user (b : InitConfig) : WebUser := mkWebUser 0 (i_Username b) (i_Password b) "管理员" "Y" "Y" "Y" forever.
Definition add_user (u : WebUser) (n : nat) (key : string) (t : tables) : option tables :=
  u ← Before seal n key u; d ← insert_user u (t_db t); Some (mkTables d (t_sshd t) (t_sshd_users t) (t_hosts t)).

Definition add_policy (net : string) (n : nat) (key : string) (t : tables) : option tables :=
  let d := t_db t in
  let id := 1 + fold_right Z.max 0 (pc_ID <$> db_policies d) in
  Some (mkTables (mkDatabase (db_users d) (db_seq d) (db_policies d ++ [mkPolicyConf id net]) (db_filters d) (db_audits d) (db_queries d))
          (t_sshd t) (t_sshd_users t) (t_hosts t)).

Definition sshd_conf (b : InitConfig) : SshdConf :=
  mkSshdConf 1 "init" (i_SshdHost b) (i_SshdPort b) shell privateKey "webssh" 60 "Y" "all" "SSH-2.0-OpenSSH".
(** Identifier, name and port are unique. *)
Definition add_sshd_conf (c : SshdConf) (n : nat) (key : string) (t : tables) : option tables :=
  keyFile ← EncryptString seal n (sc_KeyFile c) key;
  let c := mkSshdConf (sc_ID c) (sc_Name c) (sc_Host c) (sc_Port c) (sc_Shell c) keyFile (sc_KeySeed c) (sc_KeepAlive c) (sc_LoadEnv c)
             (sc_AuthType c) (sc_ServerVersion c) in
  if existsb (fun v => (sc_ID v =? sc_ID c) || bool_decide (sc_Name v = sc_Name c) || (sc_Port v =? sc_Port c)) (t_sshd t) then None
  else Some (mkTables (t_db t) (t_sshd t ++ [c]) (t_sshd_users t) (t_hosts t)).

Definition sshd_user (b : InitConfig) : SshdUser :=
  mkSshdUser 1 (i_SshdUser b) (i_SshdPwd b) "服务器初始化账号" "Y" "" forever.
Definition add_sshd_user (u : SshdUser) (n : nat) (key : string) (t : tables) : option tables :=
  pwd ← EncryptString seal n (su_Pwd u) key;
  let u := mkSshdUser (su_ID u) (su_Name u) pwd (su_DescInfo u) (su_IsEnable u) (su_WorkDir u) (su_ExpiryAt u) in
  if existsb (fun v => (su_ID v =? su_ID u) || bool_decide (su_Name v = su_Name u)) (t_sshd_users t) then None
  else Some (mkTables (t_db t) (t_sshd t) (t_sshd_users t ++ [u]) (t_hosts t)).

Definition self_host (b : InitConfig) : SshConf :=
  mkSshConf 0 1 "self_sshd" "127.0.0.1" (i_SshdUser b) (i_SshdPwd b) "pwd" "tcp4" "" "" (i_SshdPort b) 16 "#000000" "#FFFFFF" "#FFFFFF"
    "Courier" "block" "sh" "xterm-256color" "" "# https://github.com/Jack-bin183/WebSSH-u60pro" 0 0.
Definition add_host (c : SshConf) (n : nat) (key : string) (t : tables) : option tables :=
  c ← sshConfEncrypt seal key n c;
  h ← Records.insert h_ID conf_with_id (with_defaults (conf_with_times (or_now now (h_CreatedAt c)) (or_now now (h_UpdatedAt c)) c)) (t_hosts t);
  Some (mkTables (t_db t) (t_sshd t) (t_sshd_users t) h).

(** The variable is set first, then the file removed and written. *)
Definition RewriteConfig (conf : AppConfig) : M bool :=
  encoded ← attempt;
  if negb encoded then mret false
  else
    _ ← st_modify (fun w => set_cfg conf (file w) w);
    removed ← attempt;
    if negb removed then mret false
    else
      w ← st_get;
      written ← attempt;
      _ ← st_modify (set_cfg conf (if written : bool then Holds conf else if tears (attempts w) then Torn else Absent));
      mret written.

Definition initialised (b : InitConfig) (c : AppConfig) : AppConfig :=
  mkAppConf (c_WebBaseDir c) (c_AppName c) "sqlite" (i_DbFile b) true (i_JwtSecret b) (c_AesSecret c) (c_JwtExpire c) (c_StatusRefresh c)
    (c_ClientCheck c) (i_SessionSecret b) (c_Address c) (c_Port c) (c_CertFile c) (c_KeyFile c).

(** [if err != nil { reply; return }]. *)
Definition step (m : M bool) (code : Z) (k : M unit) : M unit := ok ← m; if ok : bool then k else JSON code.

Definition SysInit (body : option InitConfig) : M unit :=
  match (b ← body; if InitConfig_valid b then Some b else None) with
  | None => JSON 1
  | Some b =>
    w ← st_get;
    if c_IsInit (cfg w) then JSON 1
    else
      step DbConnTestCheck 1 (
      step (DbMigrate (i_DbFile b)) 1 (
      step (insert_row (add_user (root_user b))) 3 (
      step (insert_row (add_policy "N")) 3 (
      step attempt 3 (
      step (insert_row (add_sshd_conf (sshd_conf b))) 3 (
      step (insert_row (add_sshd_user (sshd_user b))) 3 (
      step (RewriteConfig (initialised b (cfg w))) 2 (
      step (insert_row (add_host (self_host b))) 3 (
      _ ← st_modify add_start; JSON 0)))))))))
  end.

(** The page that rewrites the configuration. *)
Definition SetRunConf (body : option AppConfig) : M unit :=
  w ← st_get;
  if c_IsInit (cfg w) then JSON 1
  else
    match body with
    | None => JSON 1
    | Some conf => step (RewriteConfig conf) 1 (JSON 0)
    end.
Definition DbConnCheck (body : option (string * string)) : M unit :=
  w ← st_get;
  if c_IsInit (cfg w) then JSON 1
  else
    match body with
    | Some (dbFile, dbType) =>
      if text_ok 255 dbFile && bool_decide (dbType = "sqlite") then step DbConnTestCheck 1 (JSON 0) else JSON 1
    | None => JSON 1
    end.
End Init.

(** * What the steps do *)

Section Steps.
Context (fails tears : nat -> bool) (seal : nat -> string -> string -> string).
Context (WorkDir : string) (forever now : Z) (privateKey shell : string).

Lemma wp_step m code k (Q : unit -> world -> Prop) w :
  wp m (fun ok w1 => if ok : bool then wp k Q w1 else Q tt (add_answer code w1)) w -> wp (step m code k) Q w.
Proof. intros H. apply wp_bind. eapply wp_mono; [exact H|]. by intros [] w'. Qed.

(** Attempts leave no trace but their number. *)
Definition silent (w w' : world) : Prop :=
  cfg w' = cfg w /\ file w' = file w /\ opened w' = opened w /\ disk w' = disk w /\ started w' = started w /\ answers w' = answers w.
Lemma wp_attempt_silent (Q : bool -> world -> Prop) w : (forall ok w', silent w w' -> Q ok w') -> wp (attempt fails) Q w.
Proof. intros H. apply H. done. Qed.

Lemma wp_insert_row row (Q : bool -> world -> Prop) w path : opened w = Some path ->
  (forall w', silent w w' -> Q false w') ->
  (forall n t w', row n (c_AesSecret (cfg w)) (tables_of w path) = Some t -> silent w w' -> Q true (set_tables path t w')) ->
  wp (insert_row fails row) Q w.
Proof.
  intros Ho Hf Ht. unfold insert_row. apply wp_bind, wp_get. rewrite Ho. apply wp_bind, wp_attempt_silent.
  intros [] w' Hw; [|by apply Hf]. destruct (row _ _ _) as [t|] eqn:Hr; [|by apply Hf]. by apply (Ht (attempts w) t w').
Qed.
Lemma wp_check (Q : bool -> world -> Prop) w : (forall ok w', silent w w' -> Q ok w') -> wp (DbConnTestCheck fails) Q w.
Proof.
  intros H. apply wp_bind, wp_attempt_silent. intros [] w1 H1; [|by apply H]. apply wp_attempt_silent. intros ok w2 H2. apply H.
  unfold silent in *. intuition congruence.
Qed.
Lemma wp_migrate f (Q : bool -> world -> Prop) w :
  (forall w', silent w w' -> Q false w') -> (forall ok w', silent (set_opened (db_path WorkDir f) w) w' -> Q ok w') -> wp (DbMigrate fails WorkDir f) Q w.
Proof.
  intros H1 H2. apply wp_bind, wp_attempt_silent. intros [] w1 Hw; [|by apply H1]. apply wp_bind, wp_modify, wp_attempt_silent. intros ok w2 Hw2. apply H2.
  unfold silent in *. cbn in *. intuition congruence.
Qed.
(** Rewriting sets the variable before the file is written, or not at all. *)
Lemma wp_rewrite c (Q : bool -> world -> Prop) w :
  (forall w', silent w w' -> Q false w') -> (forall f w', silent w w' -> f = file w \/ f = Absent \/ f = Torn -> Q false (set_cfg c f w')) -> (forall w', silent w w' -> Q true (set_cfg c (Holds c) w')) ->
  wp (RewriteConfig fails tears c) Q w.
Proof.
  intros H1 H2 H3. apply wp_bind, wp_attempt_silent. intros [] w1 (? & ? & ? & ? & ? & ?); cbn [negb]; [|by apply H1].
  apply wp_bind, wp_modify, wp_bind, wp_attempt_silent. intros [] w2 Hw2; cbn [negb].
  - apply wp_bind, wp_get, wp_bind, wp_attempt_silent. intros ok w3 Hw3. apply wp_bind, wp_modify, wp_ret.
    assert (Hs : silent w (set_cfg (cfg w) (file w) w3)) by (unfold silent in *; cbn in *; intuition congruence).
    destruct ok; [apply (H3 _ Hs)|apply (H2 _ _ Hs); right; destruct (tears _); auto].
  - apply wp_ret. assert (Hs : silent w (set_cfg (cfg w) (file w) w2)) by (unfold silent in *; cbn in *; intuition congruence).
    assert (Hf : file w2 = file w) by (unfold silent in *; cbn in *; intuition congruence).
    pose proof (H2 (file w2) _ Hs (or_introl Hf)) as Hq. destruct w2, Hw2 as (? & _). cbn in *. by subst.
Qed.

(** * How far a request gets *)

Context (b : InitConfig) (key : string) (t0 : tables).
(** The tables after [k] of the five insertions. *)
Inductive reached : nat -> tables -> Prop :=
| R_none : reached 0 t0
| R_user n t : add_user seal (root_user forever b) n key t0 = Some t -> reached 1 t
| R_policy n t t' : reached 1 t -> add_policy "N" n key t = Some t' -> reached 2 t'
| R_sshd n t t' : reached 2 t -> add_sshd_conf seal (sshd_conf privateKey shell b) n key t = Some t' -> reached 3 t'
| R_sshd_user n t t' : reached 3 t -> add_sshd_user seal (sshd_user forever b) n key t = Some t' -> reached 4 t'
| R_host n t t' : reached 4 t -> add_host seal now (self_host b) n key t = Some t' -> reached 5 t'.

Definition p : string := db_path WorkDir (i_DbFile b).
(** In the middle of a request, [k] rows in. *)
Record here (w w' : world) (k : nat) : Prop := mkHere {
  he_answers : answers w' = answers w;
  he_started : started w' = started w;
  he_key : c_AesSecret (cfg w') = key;
  he_reached : reached k (tables_of w' p);
  he_others : forall q, q <> p -> tables_of w' q = tables_of w q }.
(** What a request leaves with the answer [r]. *)
Record left_with (w w' : world) (r : Z) (k : nat) : Prop := mkLeft {
  lw_answers : answers w' = (answers w ++ [r])%list;
  lw_reached : reached k (tables_of w' p);
  lw_others : forall q, q <> p -> tables_of w' q = tables_of w q;
  lw_code : (r = 0 <-> k = 5%nat) /\ 0 <= r <= 3;
  lw_init : c_IsInit (cfg w') = true -> cfg w' = initialised b (cfg w) /\ (4 <= k)%nat;
  lw_cfg : cfg w' = cfg w \/ cfg w' = initialised b (cfg w);
  lw_file : file w' = file w \/
    cfg w' = initialised b (cfg w) /\ (4 <= k)%nat /\ (file w' = Absent \/ file w' = Torn \/ file w' = Holds (cfg w'));
  lw_done : r = 0 -> file w' = Holds (cfg w') /\ cfg w' = initialised b (cfg w);
  lw_started : started w' = (started w + if (r =? 0)%Z then 1 else 0)%nat }.

Lemma tables_of_set path t w q : tables_of (set_tables path t w) q = if decide (q = path) then t else tables_of w q.
Proof. unfold tables_of. cbn. destruct (decide (q = path)) as [->|]; [by rewrite lookup_insert_eq|by rewrite lookup_insert_ne]. Qed.

Lemma here_silent w w1 w2 k : here w w1 k -> silent w1 w2 -> here w w2 k.
Proof.
  intros [H1 H2 H3 H4 H5] (S1 & S2 & S3 & S4 & S5 & S6). unfold tables_of in *.
  constructor; unfold tables_of; rewrite ?S1, ?S2, ?S4, ?S5, ?S6; done.
Qed.
(** An insertion. *)
Lemma wp_insert_step row code kk k (Q : unit -> world -> Prop) w w1 :
  here w w1 k -> opened w1 = Some p ->
  (forall n t t', reached k t -> row n key t = Some t' -> reached (S k) t') ->
  (forall w', here w w' k -> cfg w' = cfg w1 -> file w' = file w1 -> Q tt (add_answer code w')) ->
  (forall w', here w w' (S k) -> cfg w' = cfg w1 -> file w' = file w1 -> opened w' = Some p -> wp kk Q w') ->
  wp (step (insert_row fails row) code kk) Q w1.
Proof.
  intros Hh Ho Hr Hf Hk. apply wp_step. eapply wp_insert_row; [exact Ho|intros w' Hw|intros n t w' Ht Hw].
  - apply Hf; [by eapply here_silent|apply Hw..].
  - rewrite (he_key _ _ _ Hh) in Ht. destruct Hw as (S1 & S2 & S3 & S4 & S5 & S6). destruct Hh as [H1 H2 H3 H4 H5].
    apply Hk; [|done|done|by rewrite <- Ho, <- S3]. constructor; cbn; rewrite ?S1, ?S5, ?S6; [done|done|done| |].
    + rewrite tables_of_set, decide_True by done. by eapply Hr.
    + intros q Hq. rewrite tables_of_set, decide_False by done. unfold tables_of. rewrite S4. by apply H5.
Qed.

(** [silent] but for the database that is open. *)
Definition untouched (w w' : world) : Prop := cfg w' = cfg w /\ disk w' = disk w /\ started w' = started w /\ answers w' = answers w.
Lemma silent_untouched w w' : silent w w' -> untouched w w'. Proof. unfold silent, untouched. tauto. Qed.
Lemma here_start w w1 : c_AesSecret (cfg w) = key -> t0 = tables_of w p -> untouched w w1 -> here w w1 0.
Proof.
  intros Hk Ht (S1 & S2 & S3 & S4). unfold tables_of in *. constructor; unfold tables_of; rewrite ?S1, ?S2; try done.
  rewrite <- Ht. constructor.
Qed.
(** A request given up. *)
Lemma given_up w w' r k : here w w' k -> 1 <= r <= 3 -> (k < 5)%nat ->
  (cfg w' = cfg w \/ cfg w' = initialised b (cfg w) /\ (4 <= k)%nat) ->
  file w' = file w \/ cfg w' = initialised b (cfg w) /\ (4 <= k)%nat /\ (file w' = Absent \/ file w' = Torn \/ file w' = Holds (cfg w')) ->
  c_IsInit (cfg w) = false -> left_with w (add_answer r w') r k.
Proof.
  intros [H1 H2 H3 H4 H5] Hr Hk Hc Hfile Hi. assert (r <> 0) by lia.
  constructor; cbn; rewrite ?H1, ?H2; try done.
  - split; lia.
  - intros Ht. destruct Hc as [Hc|Hc]; [congruence|done].
  - tauto.
  - rewrite (proj2 (Z.eqb_neq r 0)) by done. lia.
Qed.

Lemma init_run w : InitConfig_valid b = true -> c_IsInit (cfg w) = false -> c_AesSecret (cfg w) = key -> t0 = tables_of w p ->
  wp (SysInit fails tears seal WorkDir forever now privateKey shell (Some b)) (fun _ w' => exists r k, left_with w w' r k) w.
Proof.
  intros Hv Hi Hkey Ht0. unfold SysInit. cbn [mbind option_bind]. rewrite Hv. apply wp_bind, wp_get. rewrite Hi.
  assert (Hup : forall w' r k, here w w' k -> 1 <= r <= 3 -> (k < 5)%nat -> cfg w' = cfg w -> file w' = file w -> exists r0 k0, left_with w (add_answer r w') r0 k0).
  { intros w' r k Hh Hr Hk Hc Hf. exists r, k. apply given_up; auto. }
  apply wp_step, wp_check. intros [] w1 Hw1; [|apply (Hup w1 1 0%nat); [by apply here_start, silent_untouched|lia|lia|apply Hw1..]].
  apply wp_step, wp_migrate; [intros w2 Hw2|intros ok w2 Hw2].
  { apply (Hup w2 1 0%nat); [eapply here_silent; [by apply here_start, silent_untouched|done]|lia|lia|..]; unfold silent in *; intuition congruence. }
  assert (Hh2 : here w w2 0).
  { apply here_start; [done..|]. unfold silent, untouched in *. cbn in *. intuition congruence. }
  assert (Hc2 : cfg w2 = cfg w) by (destruct Hw1, Hw2; cbn in *; congruence).
  assert (Hf2 : file w2 = file w) by (unfold silent in *; cbn in *; intuition congruence).
  assert (Ho2 : opened w2 = Some p) by (destruct Hw2 as (_ & _ & Ho & _); exact Ho).
  destruct ok; [|apply (Hup w2 1 0%nat); [done|lia|lia|done|done]].
  eapply (wp_insert_step _ _ _ 0 _ w w2 Hh2 Ho2); [intros n t t' H; inversion H; subst; eapply R_user; eassumption| |].
  { intros w' Hh Hc Hf. apply (Hup w' 3 0%nat); [done|lia|lia|congruence..]. }
  intros w3 Hh3 Hc3 Hf3 Ho3. eapply (wp_insert_step _ _ _ 1 _ w w3 Hh3 Ho3); [by intros; eapply R_policy| |].
  { intros w' Hh Hc Hf. apply (Hup w' 3 1%nat); [done|lia|lia|congruence..]. }
  intros w4 Hh4 Hc4 Hf4 Ho4. apply wp_step, wp_attempt_silent. intros ok w5 Hw5.
  assert (Hh5 : here w w5 2) by (by eapply here_silent). assert (Hc5 : cfg w5 = cfg w) by (destruct Hw5; congruence).
  assert (Hf5 : file w5 = file w) by (unfold silent in *; intuition congruence).
  assert (Ho5 : opened w5 = Some p) by (destruct Hw5 as (_ & _ & -> & _); done).
  destruct ok; [|apply (Hup w5 3 2%nat); [done|lia|lia|done|done]].
  eapply (wp_insert_step _ _ _ 2 _ w w5 Hh5 Ho5); [by intros; eapply R_sshd| |].
  { intros w' Hh Hc Hf. apply (Hup w' 3 2%nat); [done|lia|lia|congruence..]. }
  intros w6 Hh6 Hc6 Hf6 Ho6. eapply (wp_insert_step _ _ _ 3 _ w w6 Hh6 Ho6); [by intros; eapply R_sshd_user| |].
  { intros w' Hh Hc Hf. apply (Hup w' 3 3%nat); [done|lia|lia|congruence..]. }
  intros w7 Hh7 Hc7 Hf7 Ho7. apply wp_step, wp_rewrite.
  - intros w' Hw'. apply (Hup w' 2 4%nat); [by eapply here_silent|lia|lia|unfold silent in *; intuition congruence..].
  - intros f w' Hw' Hf. exists 2, 4%nat. assert (Hh : here w (set_cfg (initialised b (cfg w)) f w') 4).
    { pose proof (here_silent _ _ _ _ Hh7 Hw') as [H1 H2 H3 H4 H5]. constructor; done. }
    apply given_up; [exact Hh|lia|lia| | |exact Hi]; [right; split; [reflexivity|lia]|].
    cbn [file set_cfg]. destruct Hf as [->|Hf]; [left; congruence|right]. split; [done|]. split; [lia|tauto].
  - intros w' Hw'. set (w8 := set_cfg _ _ w').
    assert (Hh8 : here w w8 4).
    { pose proof (here_silent _ _ _ _ Hh7 Hw') as [H1 H2 H3 H4 H5]. constructor; done. }
    assert (Ho8 : opened w8 = Some p) by (destruct Hw' as (_ & _ & Ho & _); cbn; congruence).
    eapply (wp_insert_step _ _ _ 4 _ w w8 Hh8 Ho8); [by intros; eapply R_host| |].
    + intros w9 Hh Hc Hf. exists 3, 4%nat. apply given_up; [done|lia|lia|right; split; [by rewrite Hc|lia]| |exact Hi].
      right. rewrite Hc, Hf. split; [done|]. split; [lia|]. by right; right.
    + intros w9 [H1 H2 H3 H4 H5] Hc Hfile _. apply wp_bind, wp_modify, wp_modify. exists 0, 5%nat.
      constructor; cbn; rewrite ?H1, ?H2, ?Hc, ?Hfile; try done; [intros _; split; [done|lia]|by right|right; split; [done|]; split; [lia|]; by right; right|lia].
Qed.

(** * What is there *)

Context (open : string -> string -> option string) (Hcipher : cipher_ok seal open).

Definition grows (t t' : tables) : Prop :=
  (forall x, x ∈ db_users (t_db t) -> x ∈ db_users (t_db t')) /\ (forall x, x ∈ db_policies (t_db t) -> x ∈ db_policies (t_db t')) /\
  (forall x, x ∈ t_sshd t -> x ∈ t_sshd t') /\ (forall x, x ∈ t_sshd_users t -> x ∈ t_sshd_users t') /\
  (forall x, x ∈ rows (t_hosts t) -> x ∈ rows (t_hosts t')).
Definition begun (t : tables) : Prop := exists u, u ∈ db_users (t_db t) /\ u_Name u = i_Username b.
Definition has_root (t : tables) : Prop := exists u, u ∈ db_users (t_db t) /\ u_Name u = i_Username b /\
  IsAdmin u = "Y" /\ IsEnable u = "Y" /\ IsRoot u = "Y" /\ DecryptString open (u_Pwd u) key = Some (TrimSpace (i_Password b)).
Definition has_policy (t : tables) : Prop := exists q, q ∈ db_policies (t_db t) /\ pc_NetPolicy q = "N".
Definition has_sshd (t : tables) : Prop := exists c, c ∈ t_sshd t /\ sc_ID c = 1 /\ sc_Host c = i_SshdHost b /\ sc_Port c = i_SshdPort b /\
  DecryptString open (sc_KeyFile c) key = Some (TrimSpace privateKey).
Definition has_sshd_user (t : tables) : Prop := exists u, u ∈ t_sshd_users t /\ su_Name u = i_SshdUser b /\ su_IsEnable u = "Y" /\
  DecryptString open (su_Pwd u) key = Some (TrimSpace (i_SshdPwd b)).
Definition has_host (t : tables) : Prop := exists h, h ∈ rows (t_hosts t) /\ h_Uid h = 1 /\ Address h = "127.0.0.1" /\ Port h = i_SshdPort b /\
  DecryptString open (Pwd h) key = Some (TrimSpace (i_SshdPwd b)).
Definition accounts (t : tables) : Prop := has_root t /\ has_policy t /\ has_sshd t /\ has_sshd_user t.

Lemma grows_refl t : grows t t. Proof. unfold grows. auto. Qed.
Lemma grows_trans t1 t2 t3 : grows t1 t2 -> grows t2 t3 -> grows t1 t3. Proof. unfold grows. intuition. Qed.
Lemma accounts_grows t t' : grows t t' ->
  (has_root t -> has_root t') /\ (has_policy t -> has_policy t') /\ (has_sshd t -> has_sshd t') /\ (has_sshd_user t -> has_sshd_user t') /\
  (begun t -> begun t').
Proof.
  intros (H1 & H2 & H3 & H4 & H5).
  split_and!; intros (x & Hx & Hr); exists x; auto.
Qed.

Lemma add_user_spec n t t' : add_user seal (root_user forever b) n key t = Some t' -> grows t t' /\ has_root t' /\ ~ begun t.
Proof.
  unfold add_user. intros (u & Hb & (d & Hd & [= <-])%bind_Some)%bind_Some.
  unfold Before in Hb. apply fmap_Some in Hb as (pwd & He & ->). unfold insert_user in Hd.
  set (r := if _ =? 0 then _ else _) in Hd. assert (Hr : u_Name r = i_Username b) by (unfold r; by case_match).
  destruct (existsb _ _) eqn:Hex; [done|]. injection Hd as <-. split; [|split].
  - split_and!; cbn; try done. intros x Hx. set_solver.
  - exists r. split; [cbn; set_solver|]. split; [exact Hr|].
    apply (Decrypt_Encrypt seal open _ _ _ _ Hcipher) in He. unfold r. case_match; done.
  - intros (v & Hv & Hn). apply not_true_iff_false in Hex. apply Hex, existsb_exists. exists v. split; [by apply list_elem_of_In|].
    apply orb_true_iff. right. apply bool_decide_eq_true. by rewrite Hn, Hr.
Qed.
Lemma add_policy_spec n t t' : add_policy "N" n key t = Some t' -> grows t t' /\ has_policy t'.
Proof.
  unfold add_policy. set (id := 1 + _). intros [= <-]. split; [split_and!; cbn; try done; set_solver|].
  exists (mkPolicyConf id "N"). split; [cbn; set_solver|done].
Qed.
Lemma add_sshd_conf_spec n t t' : add_sshd_conf seal (sshd_conf privateKey shell b) n key t = Some t' -> grows t t' /\ has_sshd t'.
Proof.
  unfold add_sshd_conf. intros (keyFile & He & H)%bind_Some. destruct (existsb _ _); [done|]. injection H as <-.
  split; [split_and!; cbn; try done; set_solver|]. eexists. split; [cbn; apply elem_of_app; right; left|].
  apply (Decrypt_Encrypt seal open _ _ _ _ Hcipher) in He. done.
Qed.
Lemma add_sshd_user_spec n t t' : add_sshd_user seal (sshd_user forever b) n key t = Some t' -> grows t t' /\ has_sshd_user t'.
Proof.
  unfold add_sshd_user. intros (pwd & He & H)%bind_Some. destruct (existsb _ _); [done|]. injection H as <-.
  split; [split_and!; cbn; try done; set_solver|]. eexists. split; [cbn; apply elem_of_app; right; left|].
  apply (Decrypt_Encrypt seal open _ _ _ _ Hcipher) in He. done.
Qed.
Lemma add_host_spec n t t' : i_SshdPort b <> 0 -> add_host seal now (self_host b) n key t = Some t' -> grows t t' /\ has_host t'.
Proof.
  intros Hport. unfold add_host. intros (c & He & (h & Hi & [= <-])%bind_Some)%bind_Some. unfold Records.insert in Hi.
  set (r := if _ =? 0 then _ else _) in Hi. destruct (existsb _ _); [done|]. injection Hi as <-.
  unfold sshConfEncrypt in He. apply bind_Some in He as (pwd & Hp & He). apply bind_Some in He as (x & _ & He). apply bind_Some in He as (y & _ & [= <-]).
  split; [split_and!; cbn; try done; intros z Hz; set_solver|].
  exists r. split; [cbn; set_solver|]. apply (Decrypt_Encrypt seal open _ _ _ _ Hcipher) in Hp. assert (Hr : Port r = i_SshdPort b).
  { transitivity (or_number 22 (i_SshdPort b)); [unfold r; by case_match|]. unfold or_number. by rewrite (proj2 (Z.eqb_neq _ 0) Hport). }
  split_and!; [unfold r; by case_match|unfold r; by case_match|done|unfold r; by case_match].
Qed.

Lemma reached_spec k t : i_SshdPort b <> 0 -> reached k t ->
  grows t0 t /\ (k = 0%nat -> t = t0) /\ (1 <= k -> has_root t /\ ~ begun t0)%nat /\ (2 <= k -> has_policy t)%nat /\ (3 <= k -> has_sshd t)%nat /\
  (4 <= k -> has_sshd_user t)%nat /\ (5 <= k -> has_host t)%nat.
Proof.
  intros Hport. induction 1 as [|n t Ha|n t t' _ IH Ha|n t t' _ IH Ha|n t t' _ IH Ha|n t t' _ IH Ha].
  - split_and!; try lia; [apply grows_refl|done].
  - apply add_user_spec in Ha as (Hg & Hr & Hb). split_and!; try lia; done.
  - apply add_policy_spec in Ha as (Hg & Hr). pose proof (accounts_grows _ _ Hg) as (K1 & K2 & K3 & K4 & K5).
    destruct IH as (I1 & _ & I2 & I3 & I4 & I5 & I6). split_and!; try lia; [by eapply grows_trans|intros _; destruct (I2 ltac:(lia)); auto|done].
  - apply add_sshd_conf_spec in Ha as (Hg & Hr). pose proof (accounts_grows _ _ Hg) as (K1 & K2 & K3 & K4 & K5).
    destruct IH as (I1 & _ & I2 & I3 & I4 & I5 & I6).
    split_and!; try lia; [by eapply grows_trans|intros _; destruct (I2 ltac:(lia)); auto|intros _; apply K2, I3; lia|done].
  - apply add_sshd_user_spec in Ha as (Hg & Hr). pose proof (accounts_grows _ _ Hg) as (K1 & K2 & K3 & K4 & K5).
    destruct IH as (I1 & _ & I2 & I3 & I4 & I5 & I6).
    split_and!; try lia; [by eapply grows_trans|intros _; destruct (I2 ltac:(lia)); auto|intros _; apply K2, I3; lia|intros _; apply K3, I4; lia|done].
  - apply add_host_spec in Ha as (Hg & Hr); [|done]. pose proof (accounts_grows _ _ Hg) as (K1 & K2 & K3 & K4 & K5).
    destruct IH as (I1 & _ & I2 & I3 & I4 & I5 & I6).
    split_and!; try lia; [by eapply grows_trans|intros _; destruct (I2 ltac:(lia)); auto|intros _; apply K2, I3; lia|intros _; apply K3, I4; lia|
      intros _; apply K4, I5; lia|done].
Qed.
End Steps.

(** C10: an initialisation answers once.  Answered with success, every account and the
    default host are there with secrets that open to what was sent, the
    configuration is written and the SSH server started.  A failure leaves the SSH
    server alone; it may leave rows behind but no table loses one; it counts as
    initialised only with all accounts in place.  The configuration file is as it
    was, unless the accounts were in place and the rewriting had begun: then it is
    gone, torn or the new one, and the old one with its secret is lost.  What got as
    far as the first user cannot be repeated on the same database; and once
    initialised every request is refused, also the one that rewrites the
    configuration. *)
Theorem sysinit_outcomes fails tears seal open WorkDir forever now privateKey shell (w : world) :
  cipher_ok seal open ->
  let run := SysInit fails tears seal WorkDir forever now privateKey shell in
  (c_IsInit (cfg w) = true -> forall body conf,
     (run body w).2 = add_answer 1 w /\ (SetRunConf fails tears conf w).2 = add_answer 1 w) /\
  (c_IsInit (cfg w) = false -> forall b, InitConfig_valid b = true ->
     let key := c_AesSecret (cfg w) in
     let w' := (run (Some b) w).2 in
     let t := tables_of w (p WorkDir b) in
     let t' := tables_of w' (p WorkDir b) in
     exists r, answers w' = (answers w ++ [r])%list /\ 0 <= r <= 3 /\ grows t t' /\
       (forall q, q <> p WorkDir b -> tables_of w' q = tables_of w q) /\
       (r = 0 -> accounts privateKey b key open t' /\ has_host b key open t' /\ cfg w' = initialised b (cfg w) /\
                 file w' = Holds (cfg w') /\ started w' = S (started w)) /\
       (r <> 0 -> started w' = started w /\ (t' <> t -> begun b t') /\
                  (c_IsInit (cfg w') = true -> accounts privateKey b key open t' /\ cfg w' = initialised b (cfg w)) /\
                  (file w' = file w \/
                   accounts privateKey b key open t' /\ cfg w' = initialised b (cfg w) /\
                   (file w' = Absent \/ file w' = Torn \/ file w' = Holds (cfg w')))) /\
       (begun b t -> r <> 0 /\ t' = t /\ cfg w' = cfg w)).
Proof.
  intros Hc run. split.
  - intros Hi body conf. unfold run, SysInit, SetRunConf, mbind, option_bind, st_bind, st_get. rewrite Hi. split; [|done].
    destruct body as [b|]; [|done]. by destruct (InitConfig_valid b); rewrite ?Hi.
  - intros Hi b Hv key w' t t'.
    destruct (init_run fails tears seal WorkDir forever now privateKey shell b key t w Hv Hi eq_refl eq_refl) as (r & k & [H1 H2 H3 [H4 H5] H6 H7 HF H8 H9]).
    fold run in H1, H2, H3, H6, H7, HF, H8, H9. fold w' in H1, H2, H3, H6, H7, HF, H8, H9.
    assert (Hport : i_SshdPort b <> 0) by (unfold InitConfig_valid in Hv; repeat (apply andb_true_iff in Hv as [Hv ?]); lia).
    pose proof (reached_spec fails tears _ _ _ _ _ _ _ _ open Hc k _ Hport H2) as (G1 & G2 & G3 & G4 & G5 & G6 & G7).
    assert (Hacc : (4 <= k)%nat -> accounts privateKey b key open t') by (intros Hk; split_and!; [apply G3|apply G4|apply G5|apply G6]; lia).
    exists r. do 4 (split; [done|]). split; [|split].
    + intros Hr. destruct (H8 Hr) as [Hf Hcf]. assert (k = 5%nat) by tauto. subst k r. split; [apply Hacc; lia|]. split; [apply G7; lia|]. split; [done|]. split; [done|]. rewrite H9. cbn. lia.
    + intros Hr. rewrite H9, (proj2 (Z.eqb_neq r 0) Hr). split; [lia|]. split.
      * intros Hne. destruct k as [|k]; [by destruct Hne; apply G2|]. destruct (G3 ltac:(lia)) as [(u & Hu & Hn & _) _]. by exists u.
      * split; [intros Hin; destruct (H6 Hin) as [Hcf Hk]; split; [by apply Hacc|done]|].
        destruct HF as [|(Hcf & Hk & HF)]; [by left|right]. split; [by apply Hacc|done].
    + intros Hb. assert (k = 0%nat) as -> by (destruct k; [done|]; by destruct (G3 ltac:(lia))).
      split; [intros Hr; by apply H4 in Hr|]. split; [by apply G2|]. destruct H7 as [|Hcf]; [done|].
      destruct (H6 ltac:(by rewrite Hcf)) as [_ Hk]. lia.
Qed.

(** * Examples *)

Definition some_init : InitConfig := mkInit "a.db" "sqlite" "jwt" "session" "admin" "geheim" "0.0.0.0" 2222 "root" "secret".
Definition fresh : world :=
  mkWorld (mkAppConf "" "GoWebSHH" "sqlite" "gowebssh.db" false "j" Records.secret_key 120 3 15 "s" "" "8899" "" "") Absent None ∅ 0 0 [].
Definition first_start (fails : nat -> bool) : world -> world :=
  fun w => (SysInit fails (fun _ => false) toy_seal "/data" 4102416000 100 "KEY" "sh" (Some some_init) w).2.

(** The fifth attempt fails; then nothing does, and the request is refused. *)
Example half_way : answers (first_start (fun _ => false) (first_start (Nat.eqb 5) fresh)) = [3; 3].
Proof. vm_compute. reflexivity. Qed.

(** The accounts are there and the write of the configuration fails: the old file is gone. *)
Example config_lost :
  let w := set_cfg (cfg fresh) (Holds (cfg fresh)) fresh in
  answers (first_start (Nat.eqb 11) w) = [2] /\ file (first_start (Nat.eqb 11) w) = Absent.
Proof. vm_compute. split; reflexivity. Qed.

Lemma sysinit_outcomes_witness :
  answers (first_start (fun _ => false) fresh) = [0] /\ cfg (first_start (fun _ => false) fresh) = initialised some_init (cfg fresh).
Proof.
  destruct (sysinit_outcomes (fun _ => false) (fun _ => false) toy_seal toy_open "/data" 4102416000 100 "KEY" "sh" fresh toy_cipher_ok) as [_ H].
  destruct (H eq_refl some_init eq_refl) as (r & Hr & _ & _ & _ & H0 & _). change (answers (first_start (fun _ => false) fresh) = [r]) in Hr.
  assert (Ha : answers (first_start (fun _ => false) fresh) = [0]) by (vm_compute; reflexivity).
  rewrite Ha in Hr. injection Hr as <-. split; [exact Ha|]. exact (proj1 (proj2 (proj2 (H0 eq_refl)))).
Defined.
