(* ===== verification/Shell.v ===== *)
(** Command lines for a POSIX shell: the quoting functions of
    [src/gossh/main.go], [ssh_sftp.go] and [shell_helper_unix.go] under
    [src/gossh/app/service/], and the archive commands of the file manager.

    The shell is an interface [Shell] with the quoting rules of POSIX as laws; a
    tokenizer is an instance.  Theorem: whatever bytes a path has, the words the
    shell reads are the ones meant. *)

From S2P Require Import Prelude GoInt GoStrings.
Open Scope string_scope.
Open Scope Z_scope.

(** * The code *)

Definition apostrophe : ascii := chr 39.
Definition dquote : ascii := chr 34.
Definition backslash : ascii := chr 92.
Definition tick : string := String apostrophe "".

(** [main.go]: an apostrophe is put between double quotes. *)
Definition shellQuote_main (s : string) : string :=
  if bool_decide (s = "") then tick +++ tick
  else tick +++ ReplaceByte s apostrophe (tick +++ String dquote tick +++ String dquote tick) +++ tick.

(** [ssh_sftp.go] and [shell_helper_unix.go]: it is escaped. *)
Definition shellQuote (value : string) : string :=
  tick +++ ReplaceByte value apostrophe (tick +++ String backslash tick +++ tick) +++ tick.
Definition quoteShellArg (value : string) : string :=
  tick +++ ReplaceByte value apostrophe (tick +++ String backslash tick +++ tick) +++ tick.

(** The command of [SftpCompressDir] with the path of the archive, [None] for a
    path without a name. *)
Definition compress_command (bodyPath : string) : option (string * string) :=
  let dirPath := Clean bodyPath in
  let parentDir := Dir dirPath in
  let baseName := Base dirPath in
  if bool_decide (baseName = ".") || bool_decide (baseName = "/") || bool_decide (baseName = "") then None
  else
    let archiveName := baseName +++ ".tar.gz" in
    Some ("cd " +++ shellQuote parentDir +++ " && tar -czf " +++ shellQuote archiveName +++ " " +++ shellQuote baseName,
          path_Join [parentDir; archiveName]).

Definition archiveExtractCommand (archivePath dstPath : string) : option string :=
  let lowerName := ToLower (Base archivePath) in
  let archive := shellQuote archivePath in
  let dst := shellQuote dstPath in
  let ends := HasSuffix lowerName in
  let tar flags := Some ("mkdir -p " +++ dst +++ " && tar " +++ flags +++ " " +++ archive +++ " -C " +++ dst) in
  if ends ".tar.gz" || ends ".tgz" then tar "-xzf"
  else if ends ".tar.bz2" || ends ".tbz2" then tar "-xjf"
  else if ends ".tar.xz" || ends ".txz" then tar "-xJf"
  else if ends ".tar" then tar "-xf"
  else if ends ".zip" then Some ("mkdir -p " +++ dst +++ " && unzip -o " +++ archive +++ " -d " +++ dst)
  else None.

(** * The shell *)

(** Bytes that stand for themselves outside quotes. *)
Definition plain_byte (c : ascii) : bool :=
  is_digit c || is_letter c || existsb (fun v => ord c =? v) [45; 46; 47; 95].
Definition reserved : list string :=
  ["if"; "then"; "else"; "elif"; "fi"; "do"; "done"; "case"; "esac"; "while"; "until"; "for"; "in"].

(** [denotes t s]: the text [t] is one word and the shell reads it as [s].
    [runs t l]: the text is an AND-list of the simple commands [l]. *)
Class Shell := mkShell {
  denotes : string -> string -> Prop;
  runs : string -> list (list string) -> Prop;
  sh_plain s : s <> "" -> Forall (fun c => plain_byte c = true) (chars s) -> denotes s s;
  sh_single s : apostrophe ∉ chars s -> denotes (tick +++ s +++ tick) s;
  sh_double : denotes (String dquote (tick +++ String dquote "")) tick;
  sh_escape : denotes (String backslash tick) tick;
  sh_concat t1 s1 t2 s2 : denotes t1 s1 -> denotes t2 s2 -> denotes (t1 +++ t2) (s1 +++ s2);
  sh_command t ts s l : t ∉ reserved -> Forall2 denotes (t :: ts) (s :: l) -> runs (Join (t :: ts) " ") [s :: l];
  sh_and t1 l1 t2 l2 : runs t1 l1 -> runs t2 l2 -> runs (t1 +++ " && " +++ t2) (l1 ++ l2)%list }.

(** ** A tokenizer *)

Inductive quoting := Unquoted | Escaped | Single | Double.

Fixpoint tokenize (q : quoting) (l : list ascii) : option (list ascii) :=
  match q, l with
  | Unquoted, [] => Some []
  | _, [] => None
  | Unquoted, c :: l =>
    if bool_decide (c = apostrophe) then tokenize Single l
    else if bool_decide (c = dquote) then tokenize Double l
    else if bool_decide (c = backslash) then tokenize Escaped l
    else if plain_byte c then cons c <$> tokenize Unquoted l else None
  | Escaped, c :: l => if ord c =? 10 then None else cons c <$> tokenize Unquoted l
  | Single, c :: l => if bool_decide (c = apostrophe) then tokenize Unquoted l else cons c <$> tokenize Single l
  | Double, c :: l =>
    if bool_decide (c = dquote) then tokenize Unquoted l
    else if existsb (fun v => ord c =? v) [36; 92; 96] then None else cons c <$> tokenize Double l
  end.

Definition posix_denotes (t s : string) : Prop := tokenize Unquoted (chars t) = Some (chars s).

Inductive posix_runs : string -> list (list string) -> Prop :=
| pr_command t ts s l : t ∉ reserved -> Forall2 posix_denotes (t :: ts) (s :: l) -> posix_runs (Join (t :: ts) " ") [s :: l]
| pr_and t1 l1 t2 l2 : posix_runs t1 l1 -> posix_runs t2 l2 -> posix_runs (t1 +++ " && " +++ t2) (l1 ++ l2)%list.

Lemma tokenize_app q l1 l2 a : tokenize q l1 = Some a -> tokenize q (l1 ++ l2)%list = app a <$> tokenize Unquoted l2.
Proof.
  revert q a. induction l1 as [|c l1 IH]; intros q a.
  - destruct q; [|done..]. intros [= <-]. cbn [app]. by destruct (tokenize Unquoted l2).
  - assert (Hcons : forall q', cons c <$> tokenize q' l1 = Some a ->
      cons c <$> tokenize q' (l1 ++ l2)%list = app a <$> tokenize Unquoted l2).
    { intros q'. destruct (tokenize q' l1) as [a'|] eqn:Ha; [|done]. intros [= <-]. rewrite (IH q' a' Ha).
      by destruct (tokenize Unquoted l2). }
    destruct q; cbn [tokenize app]; repeat case_match; auto; done.
Qed.

#[export] Program Instance posix_shell : Shell := {| denotes := posix_denotes; runs := posix_runs |}.
Next Obligation.
  intros s _ Hs. unfold posix_denotes. induction Hs as [|c l Hc _ IH]; [done|]. cbn [tokenize]. rewrite IH, Hc.
  rewrite !bool_decide_eq_false_2; [done|..]; intros ->; by vm_compute in Hc.
Qed.
Next Obligation.
  intros s Hs. unfold posix_denotes. rewrite !chars_append. change (chars tick) with [apostrophe].
  cbn [app tokenize]. rewrite bool_decide_eq_true_2 by done. revert Hs. generalize (chars s). intros l Hl.
  induction l as [|c l IH]; cbn [app tokenize]; [by rewrite bool_decide_eq_true_2|].
  apply not_elem_of_cons in Hl as [Hc Hl]. rewrite bool_decide_eq_false_2 by done. by rewrite IH.
Qed.
Next Obligation. vm_compute. reflexivity. Qed.
Next Obligation. vm_compute. reflexivity. Qed.
Next Obligation.
  intros t1 s1 t2 s2 H1 H2. unfold posix_denotes in *. by rewrite !chars_append, (tokenize_app _ _ _ _ H1), H2.
Qed.
Next Obligation. intros. by apply pr_command. Qed.
Next Obligation. intros. by apply pr_and. Qed.

(** * Facts *)

Section Quoting.
Context `{Shell}.

Lemma of_chars_append l m : of_chars (l ++ m)%list = of_chars l +++ of_chars m.
Proof. apply chars_inj. by rewrite chars_append, !chars_of_chars. Qed.

(** [x] stands for an apostrophe between two quoted parts. *)
Lemma replaced_denotes x s : denotes x tick -> denotes (tick +++ ReplaceByte s apostrophe (tick +++ x +++ tick) +++ tick) s.
Proof.
  intros Hx. unfold ReplaceByte. set (f := fun c : ascii => if bool_decide (c = apostrophe) then _ else _).
  assert (forall l p, apostrophe ∉ p ->
    denotes (tick +++ of_chars (p ++ flat_map f l)%list +++ tick) (of_chars (p ++ l)%list)) as Hl.
  { induction l as [|c l IH]; intros p Hp; cbn [flat_map].
    - rewrite !app_nil_r. apply sh_single. by rewrite chars_of_chars.
    - destruct (decide (c = apostrophe)) as [->|Hc].
      + assert (f apostrophe = (chars tick ++ chars x ++ chars tick)%list) as ->.
        { unfold f. by rewrite bool_decide_eq_true_2, !chars_append. }
        replace (tick +++ of_chars (p ++ (chars tick ++ chars x ++ chars tick) ++ flat_map f l)%list +++ tick)
          with ((tick +++ of_chars p +++ tick) +++ x +++ (tick +++ of_chars ([] ++ flat_map f l)%list +++ tick)).
        2:{ apply chars_inj. by rewrite !chars_append, !chars_of_chars, ?chars_append, <- !app_assoc. }
        replace (of_chars (p ++ apostrophe :: l)%list) with (of_chars p +++ tick +++ of_chars ([] ++ l)%list).
        2:{ apply chars_inj. by rewrite !chars_append, !chars_of_chars. }
        apply sh_concat; [apply sh_single; by rewrite chars_of_chars|]. apply sh_concat; [done|].
        apply IH, not_elem_of_nil.
      + assert (f c = [c]) as -> by (unfold f; by rewrite bool_decide_eq_false_2).
        replace (p ++ [c] ++ flat_map f l)%list with ((p ++ [c]) ++ flat_map f l)%list by by rewrite <- app_assoc.
        replace (p ++ c :: l)%list with ((p ++ [c]) ++ l)%list by by rewrite <- app_assoc.
        apply IH. rewrite elem_of_app, list_elem_of_singleton. by intros [?|?]. }
  specialize (Hl (chars s) [] ltac:(apply not_elem_of_nil)). cbn [app] in Hl. by rewrite of_chars_chars in Hl.
Qed.

Lemma shellQuote_denotes s : denotes (shellQuote s) s.
Proof. unfold shellQuote. exact (replaced_denotes (String backslash tick) s sh_escape). Qed.
Lemma quoteShellArg_denotes s : denotes (quoteShellArg s) s.
Proof. apply shellQuote_denotes. Qed.
Lemma shellQuote_main_denotes s : denotes (shellQuote_main s) s.
Proof.
  unfold shellQuote_main. case_bool_decide as Hs.
  - subst. exact (sh_single "" ltac:(apply not_elem_of_nil)).
  - exact (replaced_denotes (String dquote (tick +++ String dquote "")) s sh_double).
Qed.

Lemma plain_denotes s : bool_decide (s <> "") && forallb plain_byte (chars s) = true -> denotes s s.
Proof.
  intros [Hs Hp]%andb_true_iff. apply bool_decide_eq_true in Hs. apply sh_plain; [done|].
  apply Forall_forall. intros c Hc. eapply forallb_forall; [exact Hp|]. by apply list_elem_of_In.
Qed.

End Quoting.

(** * The property *)

(** The tools by the ends of lower-case names, in the order of the code. *)
Definition extractors (archive dst : string) : list (list string * list string) :=
  [([".tar.gz"; ".tgz"], ["tar"; "-xzf"; archive; "-C"; dst]); ([".tar.bz2"; ".tbz2"], ["tar"; "-xjf"; archive; "-C"; dst]);
   ([".tar.xz"; ".txz"], ["tar"; "-xJf"; archive; "-C"; dst]); ([".tar"], ["tar"; "-xf"; archive; "-C"; dst]);
   ([".zip"], ["unzip"; "-o"; archive; "-d"; dst])].
Definition extractor (name archive dst : string) : option (list string) :=
  snd <$> List.find (fun e => existsb (HasSuffix name) (fst e)) (extractors archive dst).

Lemma Join_two a b r : Join [a; b] " " +++ r = a +++ " " +++ b +++ r.
Proof. apply chars_inj. cbn [Join fold_left]. by rewrite !chars_append, <- !app_assoc. Qed.
Lemma Join_three a b c r : Join [a; b; c] " " +++ r = a +++ " " +++ b +++ " " +++ c +++ r.
Proof. apply chars_inj. cbn [Join fold_left]. by rewrite !chars_append, <- !app_assoc. Qed.
Lemma Join_four a b c d : Join [a; b; c; d] " " = a +++ " " +++ b +++ " " +++ c +++ " " +++ d.
Proof. apply chars_inj. cbn [Join fold_left]. by rewrite !chars_append, <- !app_assoc. Qed.
Lemma Join_five a b c d e : Join [a; b; c; d; e] " " = a +++ " " +++ b +++ " " +++ c +++ " " +++ d +++ " " +++ e.
Proof. apply chars_inj. cbn [Join fold_left]. by rewrite !chars_append, <- !app_assoc. Qed.
(** Proves that a text consists of words joined by blanks. *)
Ltac joined := rewrite ?Join_three, ?Join_two, ?Join_four, ?Join_five; reflexivity.
(** The words of a simple command, one after another. *)
Ltac command_words :=
  apply sh_command; [by apply (bool_decide_unpack _); vm_compute|];
  repeat (apply List.Forall2_cons; [first [assumption | apply plain_denotes; vm_compute; reflexivity]|]); apply List.Forall2_nil.

Lemma tar_runs `{Shell} flags a a' d d' : denotes flags flags -> denotes a' a -> denotes d' d ->
  runs ("mkdir -p " +++ d' +++ " && tar " +++ flags +++ " " +++ a' +++ " -C " +++ d')
    [["mkdir"; "-p"; d]; ["tar"; flags; a; "-C"; d]].
Proof.
  intros Hf Ha Hd.
  assert ("mkdir -p " +++ d' +++ " && tar " +++ flags +++ " " +++ a' +++ " -C " +++ d' =
    Join ["mkdir"; "-p"; d'] " " +++ " && " +++ Join ["tar"; flags; a'; "-C"; d'] " ") as -> by joined.
  apply (sh_and _ [["mkdir"; "-p"; d]] _ [["tar"; flags; a; "-C"; d]]); command_words.
Qed.

Lemma extract_runs `{Shell} a d :
  match archiveExtractCommand a d with
  | Some cmd => exists words, extractor (ToLower (Base a)) a d = Some words /\ runs cmd [["mkdir"; "-p"; d]; words]
  | None => extractor (ToLower (Base a)) a d = None
  end.
Proof.
  unfold archiveExtractCommand, extractor, extractors. cbn [List.find existsb fst]. set (ends := HasSuffix _).
  pose proof (shellQuote_denotes a) as Ha. pose proof (shellQuote_denotes d) as Hd.
  rewrite !orb_false_r.
  destruct (ends ".tar.gz" || ends ".tgz"); [eexists; split; [reflexivity|apply tar_runs; [apply plain_denotes; reflexivity|done|done]]|].
  destruct (ends ".tar.bz2" || ends ".tbz2"); [eexists; split; [reflexivity|apply tar_runs; [apply plain_denotes; reflexivity|done|done]]|].
  destruct (ends ".tar.xz" || ends ".txz"); [eexists; split; [reflexivity|apply tar_runs; [apply plain_denotes; reflexivity|done|done]]|].
  destruct (ends ".tar"); [eexists; split; [reflexivity|apply tar_runs; [apply plain_denotes; reflexivity|done|done]]|].
  destruct (ends ".zip"); [|done]. eexists. split; [reflexivity|].
  generalize dependent (shellQuote a). generalize dependent (shellQuote d). intros d' Hd a' Ha.
  assert ("mkdir -p " +++ d' +++ " && unzip -o " +++ a' +++ " -d " +++ d' =
    Join ["mkdir"; "-p"; d'] " " +++ " && " +++ Join ["unzip"; "-o"; a'; "-d"; d'] " ") as -> by joined.
  apply (sh_and _ [["mkdir"; "-p"; d]] _ [["unzip"; "-o"; a; "-d"; d]]); command_words.
Qed.

Lemma compress_runs `{Shell} p cmd a : compress_command p = Some (cmd, a) ->
  runs cmd [["cd"; Dir (Clean p)]; ["tar"; "-czf"; Base (Clean p) +++ ".tar.gz"; Base (Clean p)]] /\
  a = path_Join [Dir (Clean p); Base (Clean p) +++ ".tar.gz"].
Proof.
  unfold compress_command. destruct (_ || _); [done|]. intros [= <- <-]. split; [|done].
  set (b := Base (Clean p)). set (d := Dir (Clean p)).
  pose proof (shellQuote_denotes d) as Hd. pose proof (shellQuote_denotes b) as Hb.
  pose proof (shellQuote_denotes (b +++ ".tar.gz")) as Hn.
  generalize dependent (shellQuote d). generalize dependent (shellQuote b).
  generalize dependent (shellQuote (b +++ ".tar.gz")). intros n' Hn b' Hb d' Hd.
  assert ("cd " +++ d' +++ " && tar -czf " +++ n' +++ " " +++ b' =
    Join ["cd"; d'] " " +++ " && " +++ Join ["tar"; "-czf"; n'; b'] " ") as -> by joined.
  apply (sh_and _ [["cd"; d]] _ [["tar"; "-czf"; b +++ ".tar.gz"; b]]); command_words.
Qed.

(** C17: Command lines.  The quoting functions of the program make of every text a
    word the shell reads as that text, so whatever bytes the paths have, the
    archive commands of the file manager are exactly the two commands meant, on
    exactly the paths given; the tool follows the end of the name, and a name
    without a known end is refused. *)
Theorem shell_commands_exact `{Shell} :
  (forall s, denotes (shellQuote_main s) s /\ denotes (shellQuote s) s /\ denotes (quoteShellArg s) s) /\
  (forall p cmd a, compress_command p = Some (cmd, a) ->
     runs cmd [["cd"; Dir (Clean p)]; ["tar"; "-czf"; Base (Clean p) +++ ".tar.gz"; Base (Clean p)]] /\
     a = path_Join [Dir (Clean p); Base (Clean p) +++ ".tar.gz"]) /\
  (forall a d, match archiveExtractCommand a d with
               | Some cmd => exists words, extractor (ToLower (Base a)) a d = Some words /\ runs cmd [["mkdir"; "-p"; d]; words]
               | None => extractor (ToLower (Base a)) a d = None
               end).
Proof.
  split_and!.
  - intros s. split_and!; [apply shellQuote_main_denotes|apply shellQuote_denotes|apply quoteShellArg_denotes].
  - apply compress_runs.
  - apply extract_runs.
Qed.

(** A directory whose name the shell would read as more than one word; one
    whose name [tar] reads as an option. *)
Lemma shell_commands_exact_witness :
  (exists cmd a, compress_command "/tmp/it's; rm -rf x/" = Some (cmd, a) /\
     runs cmd [["cd"; "/tmp"]; ["tar"; "-czf"; "it's; rm -rf x.tar.gz"; "it's; rm -rf x"]]) /\
  (exists cmd a, compress_command "/tmp/-T" = Some (cmd, a) /\ runs cmd [["cd"; "/tmp"]; ["tar"; "-czf"; "-T.tar.gz"; "-T"]]).
Proof.
  destruct (shell_commands_exact (H := posix_shell)) as (_ & Hc & _). split.
  - do 2 eexists. split; [reflexivity|]. by eapply (Hc "/tmp/it's; rm -rf x/").
  - do 2 eexists. split; [reflexivity|]. by eapply (Hc "/tmp/-T").
Defined.
