(* ===== verification/Threads.v ===== *)
(** Goroutines: programs as trees of calls of an environment, and their
    interleaving.  A component chooses its calls, its world and what a call may
    answer; the environment is nondeterministic.  Two ways to reason: an invariant
    that every call of every program keeps, whatever the interleaving; and a
    weakest precondition of one program under a relation that says what the
    others may do between its calls. *)

From S2P Require Import Prelude.

Section Programs.
Context {call : Type} {answer : call -> Type}.

Inductive prog (A : Type) : Type :=
| Ret (a : A)
| Op (c : call) (k : answer c -> prog A).
#[global] Arguments Ret {A} a.
#[global] Arguments Op {A} c k.

#[export] Instance prog_ret : MRet prog := @Ret.
#[export] Instance prog_bind : MBind prog := fun A B f =>
  fix go p := match p with Ret a => f a | Op c k => Op c (fun a => go (k a)) end.

Definition perform (c : call) : prog (answer c) := Op c Ret.

(** Every call the program may come to, whatever the answers are. *)
Fixpoint all_calls {A} (P : call -> Prop) (p : prog A) : Prop :=
  match p with Ret _ => True | Op c k => P c /\ forall a, all_calls P (k a) end.

Lemma all_calls_call {B} (P : call -> Prop) c (f : answer c -> prog B) :
  P c -> (forall a, all_calls P (f a)) -> all_calls P (perform c ≫= f).
Proof. by split. Qed.

Lemma all_calls_mono {A} (P Q : call -> Prop) (p : prog A) : (forall c, P c -> Q c) -> all_calls P p -> all_calls Q p.
Proof. intros HPQ. induction p as [a|c k IH]; [done|]. intros [Hc Hk]. split; [by apply HPQ|]. intros a. by apply IH. Qed.

Lemma all_calls_bind {A B} (P : call -> Prop) (p : prog A) (f : A -> prog B) :
  all_calls P p -> (forall a, all_calls P (f a)) -> all_calls P (p ≫= f).
Proof. intros Hp Hf. induction p as [a|c k IH]; [apply Hf|]. destruct Hp as [Hc Hk]. split; [done|]. intros a. by apply IH. Qed.

Context {world : Type}.
(** What a call may answer, and the world after it; the goroutines it starts. *)
Context (does : forall c, world -> answer c -> world -> Prop).
Context (forks : call -> list (prog unit)).

(** * Interleaving *)

Abbreviation pool := (list (prog unit)).

(** One thread performs its next call, or a request arrives. *)
Inductive step (request : prog unit -> Prop) : world * pool -> world * pool -> Prop :=
| step_call w ts i c k a w' : ts !! i = Some (Op c k) -> does c w a w' ->
    step request (w, ts) (w', <[i := k a]> ts ++ forks c)
| step_request w ts p : request p -> step request (w, ts) (w, ts ++ [p]).

Definition reachable request w0 : world * pool -> Prop := rtc (step request) (w0, []).

(** Every call of the program keeps [I]. *)
Fixpoint keeps {A} (I : world -> Prop) (p : prog A) : Prop :=
  match p with
  | Ret _ => True
  | Op c k => forall w a w', I w -> does c w a w' -> I w' /\ keeps I (k a)
  end.

Lemma keeps_ret {A} I (a : A) : keeps I (mret a).
Proof. exact Logic.I. Qed.

Lemma keeps_bind {A B} I (p : prog A) (f : A -> prog B) :
  keeps I p -> (forall a, keeps I (f a)) -> keeps I (p ≫= f).
Proof.
  intros Hp Hf. induction p as [a|c k IH]; [apply Hf|]. intros w a w' HI Hd. destruct (Hp w a w' HI Hd) as [Hw Hk].
  split; [done|]. by apply IH.
Qed.

(** A call of which the rest knows the answer. *)
Lemma keeps_call {B} (I : world -> Prop) c (f : answer c -> prog B) :
  (forall w a w', I w -> does c w a w' -> I w' /\ keeps I (f a)) -> keeps I (perform c ≫= f).
Proof. intros H. exact H. Qed.

Lemma keeps_perform (I : world -> Prop) c : (forall w a w', I w -> does c w a w' -> I w') -> keeps I (perform c).
Proof. intros H w a w' HI Hd. split; [by eapply H|exact Logic.I]. Qed.

Lemma step_inv (I : world -> Prop) request s s' : step request s s' ->
  (forall p, request p -> keeps I p) -> (forall c p, p ∈ forks c -> keeps I p) ->
  I s.1 /\ Forall (keeps I) s.2 -> I s'.1 /\ Forall (keeps I) s'.2.
Proof.
  intros Hs Hr Hf [HI Hts]. destruct Hs as [w ts i c k a w' Hi Hd|w ts p Hp]; cbn [fst snd] in *.
  - assert (Hp : keeps I (Op c k)) by exact (Forall_lookup_1 _ _ _ _ Hts Hi).
    destruct (Hp w a w' HI Hd) as [Hw Hk]. split; [done|].
    apply Forall_app. split; [by apply Forall_insert|]. apply Forall_forall. intros p. apply Hf.
  - split; [done|]. apply Forall_app. split; [done|]. apply List.Forall_cons; [by apply Hr|constructor].
Qed.

Lemma reachable_inv (I : world -> Prop) request w0 s : reachable request w0 s -> I w0 ->
  (forall p, request p -> keeps I p) -> (forall c p, p ∈ forks c -> keeps I p) -> I s.1.
Proof.
  intros Hs H0 Hr Hf. enough (H : I s.1 /\ Forall (keeps I) s.2) by tauto.
  unfold reachable in Hs. remember (w0, []) as s0 eqn:E.
  assert (H1 : I s0.1 /\ Forall (keeps I) s0.2) by (subst; split; [done|constructor]). clear E.
  induction Hs as [s|s1 s2 s3 Hstep _ IH]; [done|]. apply IH. by eapply step_inv.
Qed.

(** * One program among others *)

Context (rely : world -> world -> Prop).

Fixpoint wpr {A} (p : prog A) (Q : A -> world -> Prop) (w : world) : Prop :=
  match p with
  | Ret a => forall w', rely w w' -> Q a w'
  | Op c k => forall w1 a w2, rely w w1 -> does c w1 a w2 -> wpr (k a) Q w2
  end.

Context `{!PreOrder rely}.

Lemma wpr_rely {A} (p : prog A) Q w w' : rely w w' -> wpr p Q w -> wpr p Q w'.
Proof.
  intros Hr. destruct p as [a|c k]; cbn; intros H; [intros w2 ?; apply H; by etrans|].
  intros w1 a w2 Hr1. apply H. by etrans.
Qed.

Lemma wpr_mono {A} (p : prog A) (Q Q' : A -> world -> Prop) w :
  (forall a w, Q a w -> Q' a w) -> wpr p Q w -> wpr p Q' w.
Proof. intros HQ. revert w. induction p as [a|c k IH]; intros w; cbn; eauto. Qed.

Lemma wpr_and {A} (p : prog A) (Q Q' : A -> world -> Prop) w :
  wpr p Q w -> wpr p Q' w -> wpr p (fun a w => Q a w /\ Q' a w) w.
Proof.
  revert w. induction p as [a|c k IH]; intros w H1 H2; cbn in *; [by intros w' Hr; split; auto|].
  intros w1 a w2 Hr Hd. eapply IH; [by eapply H1|by eapply H2].
Qed.

Lemma wpr_bind {A B} (p : prog A) (f : A -> prog B) Q w :
  wpr p (fun a w => wpr (f a) Q w) w -> wpr (p ≫= f) Q w.
Proof.
  revert w. induction p as [a|c k IH]; intros w; cbn.
  - intros H. exact (H w (reflexivity w)).
  - intros H w1 a w2 Hr Hd. by eapply IH, H.
Qed.

Lemma wpr_call {B} c (f : answer c -> prog B) Q w :
  (forall w1 a w2, rely w w1 -> does c w1 a w2 -> wpr (f a) Q w2) -> wpr (perform c ≫= f) Q w.
Proof. intros H. exact H. Qed.

Lemma wpr_perform c (Q : answer c -> world -> Prop) w :
  (forall w1 a w2 w3, rely w w1 -> does c w1 a w2 -> rely w2 w3 -> Q a w3) -> wpr (perform c) Q w.
Proof. intros H w1 a w2 H1 Hd w3 H3. by eapply H. Qed.

Lemma wpr_ret {A} (a : A) (Q : A -> world -> Prop) w : (forall w', rely w w' -> Q a w') -> wpr (mret a) Q w.
Proof. done. Qed.

End Programs.
