(* ===== verification/UbusBatch.v ===== *)
(** Batches of calls of the router's services:
    [src/gossh/app/service/zwrt_ubus.go].

    A request holds any number of calls; one goroutine per call waits for one of
    twelve slots, calls ubus and puts its response into a channel that is read when
    all have finished.  Theorems, for every interleaving: nothing panics, at most
    twelve calls run at once, the reply holds exactly one response per call in the
    order of their identifiers; a batch comes to its reply in a number of steps
    bounded by its length, and is never stuck before. *)

From S2P Require Import Prelude GoSort Json Threads.
Open Scope string_scope.
Open Scope list_scope.
Open Scope Z_scope.

(** * Data *)

Record ZteRPCRequest := mkRequest { ReqJsonrpc : string; ReqId : Z; Method : string; Params : list json }.

(** An object, or the text of the error. *)
Abbreviation object := (list (string * json)).
Abbreviation outcome := (string + object)%type.

(** The array of a response: a code and a text, or a code and the data. *)
Inductive result := ResultText (code : Z) (text : string) | ResultData (code : Z) (data : object).
Record ZteRPCResponse := mkResponse { Jsonrpc : string; Id : Z; Result : result; CostMs : Z }.

(** [x, _ := v.(string)] and [v.(map[string]interface{})]. *)
Definition as_string (v : option json) : string := match v with Some (VString _ s) => s | _ => "" end.
Definition as_map (v : option json) : option object := match v with Some (VObject l) => Some l | _ => None end.

Definition maxConcurrent : nat := 12.

Inductive call : Type :=
| MakeOut (cap : nat) | WgAdd | WgDone | WgWait | Go (r : ZteRPCRequest)
| Acquire | Release                                  (** [sem <- struct{}{}], [<-sem] *)
| Send (r : ZteRPCResponse) | Recv | Close           (** the channel [out] *)
| Now
| UbusStart (service method : string) (params : option object)
| UbusWait (service method : string) (params : option object)
| Reply (status : Z) (body : option (list ZteRPCResponse)).

Definition answer (c : call) : Type :=
  match c with
  | Recv => option ZteRPCResponse    (** [None]: closed and empty *)
  | Now => Z                         (** nanoseconds *)
  | UbusWait _ _ _ => outcome
  | _ => unit
  end.

Abbreviation prog := (@Threads.prog call answer).
Abbreviation invoke := (@perform call answer).

(** * The goroutine of one call *)

Definition service_of (r : ZteRPCRequest) : string := as_string (Params r !! 1%nat).
Definition method_of (r : ZteRPCRequest) : string := as_string (Params r !! 2%nat).
Definition params_of (r : ZteRPCRequest) : option object := as_map (Params r !! 3%nat).
Definition too_short (r : ZteRPCRequest) : bool := (length (Params r) <? 4)%nat.

(** The command runs between the two calls. *)
Definition GetDataFromUbus (service method : string) (params : option object) : prog outcome :=
  _ ← invoke (UbusStart service method params); invoke (UbusWait service method params).

(** The response to a call that has been made, or to one without parameters. *)
Definition response_of (r : ZteRPCRequest) (o : option outcome) (costMs : Z) : ZteRPCResponse :=
  mkResponse "2.0" (ReqId r)
    match o with
    | None => ResultText 1 "invalid params"
    | Some (inl err) => ResultText 1 err
    | Some (inr data) => ResultData 0 data
    end costMs.
Definition Milliseconds (d : Z) : Z := Z.quot d (10 ^ 6).

Definition respond (r : ZteRPCRequest) : prog ZteRPCResponse :=
  if too_short r then mret (response_of r None 0)
  else
    start ← invoke Now;
    data ← GetDataFromUbus (service_of r) (method_of r) (params_of r);
    now ← invoke Now;
    mret (response_of r (Some data) (Milliseconds (now - start))).

(** The deferred calls run in the opposite order. *)
Definition worker (r : ZteRPCRequest) : prog unit :=
  _ ← invoke Acquire;
  resp ← respond r;
  _ ← invoke (Send resp);
  _ ← invoke Release;
  invoke WgDone.

Definition forks (c : call) : list (prog unit) := match c with Go r => [worker r] | _ => [] end.

(** * The batch *)

Fixpoint launch (reqs : list ZteRPCRequest) : prog unit :=
  match reqs with
  | [] => mret tt
  | rpc :: reqs => _ ← invoke WgAdd; _ ← invoke (Go rpc); launch reqs
  end.

(** [for r := range out]; [None]: out of fuel. *)
Fixpoint collect (fuel : nat) (results : list ZteRPCResponse) : prog (option (list ZteRPCResponse)) :=
  match fuel with
  | O => mret None
  | S fuel =>
    r ← invoke Recv;
    match r with Some r => collect fuel (results ++ [r]) | None => mret (Some results) end
  end.

Definition id_less (x y : ZteRPCResponse) : bool := Id x <? Id y.

Section Batch.
Context `{SortSlice}.

Definition finish (fuel : nat) (results : list ZteRPCResponse) : prog (option (list ZteRPCResponse)) :=
  all ← collect fuel results; mret (option_map (sortSlice id_less) all).

Definition CallUbusBatchAsync (reqs : list ZteRPCRequest) : prog (option (list ZteRPCResponse)) :=
  _ ← invoke (MakeOut (length reqs));
  _ ← launch reqs;
  _ ← invoke WgWait;
  _ ← invoke Close;
  finish (S (length reqs)) [].

(** [None]: the body cannot be bound. *)
Definition ZteUbusBatchHandler (req : option (list ZteRPCRequest)) : prog unit :=
  match req with
  | None => invoke (Reply 400 None)
  | Some req =>
    result ← CallUbusBatchAsync req;
    match result with Some result => invoke (Reply 200 (Some result)) | None => mret tt end
  end.
End Batch.

(** * The world *)

(** Of a batch: the counter of the wait group, the slots taken, the channel; the
    commands that run and those that have ended. *)
Record world := mkWorld {
  wg : Z; slots : nat; cap : nat; out : list ZteRPCResponse; closed : bool; panicked : bool; clock : Z;
  active : nat; asked : list (string * string * option object * outcome); replies : list (Z * option (list ZteRPCResponse)) }.
Definition start : world := mkWorld 0 0 0 [] false false 0 0 [] [].

Definition set_wg n w := mkWorld n (slots w) (cap w) (out w) (closed w) (panicked w) (clock w) (active w) (asked w) (replies w).
Definition set_slots n w := mkWorld (wg w) n (cap w) (out w) (closed w) (panicked w) (clock w) (active w) (asked w) (replies w).
Definition set_chan n o c w := mkWorld (wg w) (slots w) n o c (panicked w) (clock w) (active w) (asked w) (replies w).
Definition set_panic w := mkWorld (wg w) (slots w) (cap w) (out w) (closed w) true (clock w) (active w) (asked w) (replies w).
Definition set_clock t w := mkWorld (wg w) (slots w) (cap w) (out w) (closed w) (panicked w) t (active w) (asked w) (replies w).
Definition set_active n a w := mkWorld (wg w) (slots w) (cap w) (out w) (closed w) (panicked w) (clock w) n a (replies w).
Definition set_replies r w := mkWorld (wg w) (slots w) (cap w) (out w) (closed w) (panicked w) (clock w) (active w) (asked w) r.

(** A call that has to wait has no answer yet. *)
Definition does (c : call) (w : world) : answer c -> world -> Prop :=
  match c with
  | MakeOut n => fun _ w' => w' = set_chan n [] false w
  | WgAdd => fun _ w' => w' = set_wg (wg w + 1) w
  | WgDone => fun _ w' => w' = if 0 <? wg w then set_wg (wg w - 1) w else set_panic w
  | WgWait => fun _ w' => wg w = 0 /\ w' = w
  | Go _ => fun _ w' => w' = w
  | Acquire => fun _ w' => (slots w < maxConcurrent)%nat /\ w' = set_slots (S (slots w)) w
  | Release => fun _ w' => exists n, slots w = S n /\ w' = set_slots n w
  | Send r => fun _ w' =>
      if closed w then w' = set_panic w
      else (length (out w) < cap w)%nat /\ w' = set_chan (cap w) (out w ++ [r]) false w
  | Recv => fun a w' =>
      match out w with
      | r :: l => a = Some r /\ w' = set_chan (cap w) l (closed w) w
      | [] => closed w = true /\ a = None /\ w' = w
      end
  | Close => fun _ w' => w' = if closed w then set_panic w else set_chan (cap w) (out w) true w
  | Now => fun a w' => clock w <= a /\ w' = set_clock a w
  | UbusStart _ _ _ => fun _ w' => w' = set_active (S (active w)) (asked w) w
  | UbusWait s m p => fun a w' => exists n, active w = S n /\ w' = set_active n (asked w ++ [(s, m, p, a)]) w
  | Reply status body => fun _ w' => w' = set_replies (replies w ++ [(status, body)]) w
  end.

(** * Where the goroutines stand *)

Section Run.
Context `{SortSlice} (reqs : list ZteRPCRequest).
Abbreviation Step := (step does forks (fun _ => False)).

(** A goroutine of a call before each of its operations; [o] is the outcome. *)
Inductive phase :=
| AtAcquire | AtNow | AtStart (t : Z) | AtWait (t : Z) | AtNow2 (t : Z) (a : outcome)
| AtSend (o : option outcome) (cost : Z) | AtRelease (o : option outcome) (cost : Z)
| AtDone (o : option outcome) (cost : Z) | Ended (o : option outcome) (cost : Z).

Definition tail (r : ZteRPCRequest) (resp : ZteRPCResponse) : prog unit :=
  _ ← invoke (Send resp); _ ← invoke Release; invoke WgDone.
Definition worker_at (g : ZteRPCRequest * phase) : prog unit :=
  let '(r, ph) := g in
  let answered t a := (now ← invoke Now; tail r (response_of r (Some a) (Milliseconds (now - t)))) in
  let wait t := (a ← invoke (UbusWait (service_of r) (method_of r) (params_of r)); answered t a) in
  let ubus t := (_ ← invoke (UbusStart (service_of r) (method_of r) (params_of r)); wait t) in
  match ph with
  | AtAcquire => worker r
  | AtNow => t ← invoke Now; ubus t
  | AtStart t => ubus t
  | AtWait t => wait t
  | AtNow2 t a => answered t a
  | AtSend o cost => tail r (response_of r o cost)
  | AtRelease _ _ => _ ← invoke Release; invoke WgDone
  | AtDone _ _ => invoke WgDone
  | Ended _ _ => mret tt
  end.

(** The goroutine of the request. *)
Inductive main :=
| MMake | MAdd (rest : list ZteRPCRequest) | MGo (r : ZteRPCRequest) (rest : list ZteRPCRequest)
| MClose | MRecv (fuel : nat) (acc : list ZteRPCResponse) | MReply (l : list ZteRPCResponse) | MEnd (l : list ZteRPCResponse).
Definition main_at (m : main) : prog unit :=
  let reply result := match result with Some result => invoke (Reply 200 (Some result)) | None => mret tt end in
  let read fuel acc := (finish fuel acc ≫= reply : prog unit) in
  let close := (_ ← invoke Close; read (S (length reqs)) []) in
  let rest l := ((_ ← launch l; _ ← invoke WgWait; _ ← invoke Close; finish (S (length reqs)) []) ≫= reply : prog unit) in
  match m with
  | MMake => ZteUbusBatchHandler (Some reqs)
  | MAdd l => rest l
  | MGo r l => _ ← invoke (Go r); rest l
  | MClose => close
  | MRecv fuel acc => read fuel acc
  | MReply l => invoke (Reply 200 (Some l))
  | MEnd _ => mret tt
  end.

(** What a goroutine holds and has done. *)
Definition holds (g : ZteRPCRequest * phase) : bool :=
  match g.2 with AtAcquire | AtDone _ _ | Ended _ _ => false | _ => true end.
Definition calls (g : ZteRPCRequest * phase) : bool := match g.2 with AtWait _ => true | _ => false end.
Definition alive (g : ZteRPCRequest * phase) : bool := match g.2 with Ended _ _ => false | _ => true end.
Definition sent (g : ZteRPCRequest * phase) : option ZteRPCResponse :=
  match g.2 with AtRelease o c | AtDone o c | Ended o c => Some (response_of g.1 o c) | _ => None end.
Definition call_of (r : ZteRPCRequest) (a : outcome) := (service_of r, method_of r, params_of r, a).
Definition called (g : ZteRPCRequest * phase) : option (string * string * option object * outcome) :=
  match g.2 with
  | AtNow2 _ a => Some (call_of g.1 a)
  | AtSend o _ | AtRelease o _ | AtDone o _ | Ended o _ => call_of g.1 <$> o
  | _ => None
  end.

(** A call is made exactly for requests with enough parameters, and its cost is
    no negative time. *)
Definition result_ok (r : ZteRPCRequest) (o : option outcome) (cost : Z) : Prop :=
  (too_short r = false <-> is_Some o) /\ 0 <= cost.
Definition phase_ok (now : Z) (g : ZteRPCRequest * phase) : Prop :=
  match g.2 with
  | AtAcquire => True
  | AtNow => too_short g.1 = false
  | AtStart t | AtWait t | AtNow2 t _ => too_short g.1 = false /\ t <= now
  | AtSend o c | AtRelease o c | AtDone o c | Ended o c => result_ok g.1 o c
  end.

Definition count {A} (P : A -> bool) (l : list A) : nat := length (filter (fun x => P x = true) l).

Definition todo (m : main) : list ZteRPCRequest :=
  match m with MMake => reqs | MAdd l => l | MGo r l => r :: l | _ => [] end.
Definition got (m : main) : list ZteRPCResponse := match m with MRecv _ l | MReply l | MEnd l => l | _ => [] end.
Definition reading (m : main) : bool := match m with MRecv _ _ | MReply _ | MEnd _ => true | _ => false end.
Definition waited (m : main) : bool := match m with MClose => true | _ => reading m end.

(** The order of [sort.Slice]. *)
Definition by_id : list ZteRPCResponse -> Prop := StronglySorted (fun x y => id_less y x = false).

Record inv (m : main) (gs : list (ZteRPCRequest * phase)) (s : world * list (prog unit)) : Prop := mkInv {
  i_pool : s.2 = main_at m :: (worker_at <$> gs);
  i_reqs : gs.*1 ++ todo m = reqs;
  i_wg : wg s.1 = Z.of_nat (count alive gs) + match m with MGo _ _ => 1 | _ => 0 end;
  i_slots : slots s.1 = count holds gs;
  i_max : (slots s.1 <= maxConcurrent)%nat;
  i_active : active s.1 = count calls gs;
  i_panic : panicked s.1 = false;
  i_closed : closed s.1 = reading m;
  i_cap : m = MMake \/ cap s.1 = length reqs;
  i_waited : waited m = true -> count alive gs = 0%nat;
  i_got : out s.1 ++ got m ≡ₚ omap sent gs;
  i_fuel : forall fuel l, m = MRecv fuel l -> (fuel + length l)%nat = S (length reqs);
  i_done : forall l, m = MReply l \/ m = MEnd l -> out s.1 = [] /\ by_id l;
  i_phases : Forall (phase_ok (clock s.1)) gs;
  i_asked : asked s.1 ≡ₚ omap called gs;
  i_replies : replies s.1 = match m with MEnd l => [(200, Some l)] | _ => [] end }.

Lemma inv_start : inv MMake [] (start, [ZteUbusBatchHandler (Some reqs)]).
Proof. split; try done; cbn; [unfold maxConcurrent; lia|by left|by intros l []]. Qed.

(** ** The measure *)

Definition weight_of (g : ZteRPCRequest * phase) : nat :=
  match g.2 with
  | AtAcquire => 8 | AtNow => 7 | AtStart _ => 6 | AtWait _ => 5 | AtNow2 _ _ => 4
  | AtSend _ _ => 3 | AtRelease _ _ => 2 | AtDone _ _ => 1 | Ended _ _ => 0
  end.
Definition main_weight (m : main) : nat :=
  match m with
  | MMake => 11 * length reqs + 5
  | MAdd l => length reqs + 4 + 10 * length l
  | MGo _ l => length reqs + 13 + 10 * length l
  | MClose => length reqs + 3
  | MRecv fuel _ => fuel + 1
  | MReply _ => 1
  | MEnd _ => 0
  end.
Definition weight (m : main) (gs : list (ZteRPCRequest * phase)) : nat := (main_weight m + sum_list (weight_of <$> gs))%nat.

(** ** Changing one goroutine *)

Lemma count_cons {A} (P : A -> bool) x l : count P (x :: l) = ((if P x then 1 else 0) + count P l)%nat.
Proof. unfold count. rewrite filter_cons. by destruct (P x). Qed.
Lemma count_app {A} (P : A -> bool) l l' : count P (l ++ l') = (count P l + count P l')%nat.
Proof. unfold count. by rewrite filter_app, length_app. Qed.

Lemma list_count_insert {A} (P : A -> bool) l j x y : l !! j = Some x ->
  (count P (<[j := y]> l) + (if P x then 1 else 0) = count P l + (if P y then 1 else 0))%nat.
Proof.
  revert j. induction l as [|z l IH]; intros j Hj; [done|]. destruct j as [|j]; cbn in Hj.
  - injection Hj as ->. change (<[0%nat := y]> (x :: l)) with (y :: l). rewrite !count_cons. lia.
  - specialize (IH j Hj). change (<[S j := y]> (z :: l)) with (z :: <[j := y]> l). rewrite !count_cons. lia.
Qed.

Abbreviation total l := (sum_list (weight_of <$> l)).
Lemma total_cons x l : total (x :: l) = (weight_of x + total l)%nat.
Proof. done. Qed.
Lemma total_app l l' : total (l ++ l') = (total l + total l')%nat.
Proof. induction l as [|x l IH]; [done|]. rewrite <- app_comm_cons, !total_cons, IH. lia. Qed.
Lemma sum_insert l j (x y : ZteRPCRequest * phase) : l !! j = Some x ->
  (total (<[j := y]> l) + weight_of x = total l + weight_of y)%nat.
Proof.
  revert j. induction l as [|z l IH]; intros j Hj; [done|]. destruct j as [|j]; cbn in Hj.
  - injection Hj as ->. change (<[0%nat := y]> (x :: l)) with (y :: l). rewrite !total_cons. lia.
  - specialize (IH j Hj). change (<[S j := y]> (z :: l)) with (z :: <[j := y]> l). rewrite !total_cons. lia.
Qed.

Lemma count_elem {A} (P : A -> bool) (l : list A) (j : nat) x : l !! j = Some x -> P x = true -> (0 < count P l)%nat.
Proof.
  revert j. induction l as [|y l IH]; intros j Hj HP; [done|]. rewrite count_cons. destruct j as [|j]; cbn in Hj.
  - injection Hj as ->. rewrite HP. lia.
  - specialize (IH j Hj HP). lia.
Qed.

(** A part of a list when one element that had none gets one, or keeps it. *)
Lemma omap_cons_eq {A B} (f : A -> option B) x l : omap f (x :: l) = match f x with Some b => b :: omap f l | None => omap f l end.
Proof. done. Qed.
Lemma omap_insert {A B} (f : A -> option B) (l : list A) (j : nat) x y : l !! j = Some x ->
  f x = f y -> omap f (<[j := y]> l) = omap f l.
Proof.
  revert j. induction l as [|z l IH]; intros j Hj He; [done|]. destruct j as [|j]; cbn in Hj.
  - injection Hj as ->. change (<[0%nat := y]> (x :: l)) with (y :: l). by rewrite !omap_cons_eq, He.
  - change (<[S j := y]> (z :: l)) with (z :: <[j := y]> l). by rewrite !omap_cons_eq, (IH j).
Qed.
Lemma omap_insert_new {A B} (f : A -> option B) (l : list A) (j : nat) x y b : l !! j = Some x ->
  f x = None -> f y = Some b -> omap f (<[j := y]> l) ≡ₚ omap f l ++ [b].
Proof.
  revert j. induction l as [|z l IH]; intros j Hj Hx Hy; [done|]. destruct j as [|j]; cbn in Hj.
  - injection Hj as ->. change (<[0%nat := y]> (x :: l)) with (y :: l). rewrite !omap_cons_eq, Hx, Hy. apply Permutation_cons_append.
  - change (<[S j := y]> (z :: l)) with (z :: <[j := y]> l). rewrite !omap_cons_eq. specialize (IH j Hj Hx Hy).
    destruct (f z); [by rewrite IH|done].
Qed.

(** What the step of a goroutine adds to a list in the world. *)
Definition grows {B} (f : ZteRPCRequest * phase -> option B) (g g' : ZteRPCRequest * phase) (l l' : list B) : Prop :=
  (f g = f g' /\ l' = l) \/ exists b, f g = None /\ f g' = Some b /\ l' = l ++ [b].
Lemma grows_omap {B} (f : ZteRPCRequest * phase -> option B) gs j g g' l l' rest : gs !! j = Some g -> grows f g g' l l' ->
  l ++ rest ≡ₚ omap f gs -> l' ++ rest ≡ₚ omap f (<[j := g']> gs).
Proof.
  intros Hj [[He ->]|(b & H1 & H2 & ->)] Hp.
  - by erewrite omap_insert.
  - rewrite (omap_insert_new f gs j g g' b) by done. rewrite <- Hp, <- !app_assoc. f_equiv. apply Permutation_app_comm.
Qed.

Abbreviation num b := (if b then 1 else 0)%nat.
Lemma phase_ok_mono now now' g : now <= now' -> phase_ok now g -> phase_ok now' g.
Proof. intros Hn. unfold phase_ok. destruct g as [r []]; cbn; intros; destruct_and?; split_and?; try done; lia. Qed.

(** The step of a goroutine that has not ended. *)
Lemma inv_worker m gs w ts (j : nat) r (ph ph' : phase) w' : inv m gs (w, ts) -> gs !! j = Some (r, ph) -> alive (r, ph) = true ->
  wg w' + Z.of_nat (num (alive (r, ph))) = wg w + Z.of_nat (num (alive (r, ph'))) ->
  (slots w' + num (holds (r, ph)) = slots w + num (holds (r, ph')))%nat -> (slots w' <= maxConcurrent)%nat ->
  (active w' + num (calls (r, ph)) = active w + num (calls (r, ph')))%nat ->
  panicked w' = false -> closed w' = closed w -> cap w' = cap w -> clock w <= clock w' ->
  replies w' = replies w -> grows sent (r, ph) (r, ph') (out w) (out w') -> grows called (r, ph) (r, ph') (asked w) (asked w') ->
  phase_ok (clock w') (r, ph') ->
  inv m (<[j := (r, ph')]> gs) (w', <[S j := worker_at (r, ph')]> ts ++ []) /\
  (weight m (<[j := (r, ph')]> gs) + weight_of (r, ph) = weight m gs + weight_of (r, ph'))%nat.
Proof.
  intros I Hj Ha Hwg Hsl Hmax Hact Hpan Hcl Hcap Hclk Hrep Hout Hask Hph. cbn [fst snd] in *.
  pose proof (count_elem alive gs j _ Hj Ha) as Hpos.
  assert (Hw : waited m = false) by (destruct (waited m) eqn:E; [by rewrite (i_waited _ _ _ I E) in Hpos; lia|done]).
  pose proof (list_count_insert alive gs j _ (r, ph') Hj). pose proof (list_count_insert holds gs j _ (r, ph') Hj).
  pose proof (list_count_insert calls gs j _ (r, ph') Hj).
  split; [|unfold weight; pose proof (sum_insert gs j _ (r, ph') Hj); lia].
  destruct I as [Ip Ir Iw Is Im Ia Ipa Ic Ica Iwt Ig If Id Iph Ias Irep]. cbn [fst snd] in *. split; cbn [fst snd]; try congruence.
  - rewrite app_nil_r, Ip. cbn [insert list_insert]. f_equal. by rewrite list_fmap_insert.
  - rewrite list_fmap_insert. cbn [fst]. rewrite list_insert_id; [done|]. by rewrite list_lookup_fmap, Hj.
  - lia.
  - lia.
  - lia.
  - by eapply grows_omap.
  - done.
  - intros l [->| ->]; done.
  - apply Forall_insert; [|done]. eapply Forall_impl; [exact Iph|]. intros g. by apply phase_ok_mono.
  - rewrite <- (app_nil_r (asked w')). eapply grows_omap; [done|done|]. by rewrite app_nil_r.
Qed.

(** The goroutine goes on to the phase [ph]. *)
Ltac go H ph :=
  apply (H ph); cbn; try done; try lia; try (by left); try (by destruct_and?; split; [done|lia]).

(** The next call of a program. *)
Definition next (p : prog unit) (P : forall c, (answer c -> prog unit) -> Prop) : Prop :=
  match p with Op c k => P c k | Ret _ => True end.

Lemma alive_open m gs s (j : nat) g : inv m gs s -> gs !! j = Some g -> alive g = true -> waited m = false /\ closed s.1 = false.
Proof.
  intros I Hj Ha. pose proof (count_elem alive gs j _ Hj Ha) as Hpos. rewrite (i_closed _ _ _ I).
  destruct (waited m) eqn:E; [rewrite (i_waited _ _ _ I E) in Hpos; lia|]. destruct m; done.
Qed.

Definition advances (m : main) (gs : list (ZteRPCRequest * phase)) (s : world * list (prog unit)) : Prop :=
  exists m' gs', inv m' gs' s /\ (weight m' gs' < weight m gs)%nat.

Lemma worker_next m gs w ts (j : nat) r (ph : phase) : inv m gs (w, ts) -> gs !! j = Some (r, ph) ->
  next (worker_at (r, ph)) (fun c k => forall a w', does c w a w' -> advances m gs (w', <[S j := k a]> ts ++ forks c)).
Proof.
  intros I Hj.
  assert (Hgo : forall ph' w', alive (r, ph) = true ->
    wg w' + Z.of_nat (num (alive (r, ph))) = wg w + Z.of_nat (num (alive (r, ph'))) ->
    (slots w' + num (holds (r, ph)) = slots w + num (holds (r, ph')))%nat -> (slots w' <= maxConcurrent)%nat ->
    (active w' + num (calls (r, ph)) = active w + num (calls (r, ph')))%nat ->
    panicked w' = false -> closed w' = closed w -> cap w' = cap w -> clock w <= clock w' ->
    replies w' = replies w -> grows sent (r, ph) (r, ph') (out w) (out w') -> grows called (r, ph) (r, ph') (asked w) (asked w') ->
    phase_ok (clock w') (r, ph') -> (weight_of (r, ph') < weight_of (r, ph))%nat ->
    advances m gs (w', <[S j := worker_at (r, ph')]> ts ++ [])).
  { intros ph' w' H1 H2 H3 H4 H5 H6 H7 H8 H9 H10 H11 H12 H13 Hlt.
    destruct (inv_worker m gs w ts j r ph ph' w' I Hj H1 H2 H3 H4 H5 H6 H7 H8 H9 H10 H11 H12 H13) as [I' Hwt].
    exists m, (<[j := (r, ph')]> gs). split; [done|lia]. }
  pose proof (i_max _ _ _ I) as Hmax. pose proof (i_panic _ _ _ I) as Hpan. cbn [fst] in Hmax, Hpan.
  pose proof (proj1 (Forall_forall _ _) (i_phases _ _ _ I) (r, ph) (list_elem_of_lookup_2 _ _ _ Hj)) as Hok. cbn [fst] in Hok.
  pose proof (alive_open _ _ _ _ _ I Hj) as Hopen. cbn [fst] in Hopen.
  destruct ph as [| |t|t|t a0|o c|o c|o c|o c]; cbn [next worker_at]; [| | | | | | | |exact Logic.I].
  - intros a w' [Hs ->]. unfold respond. destruct (too_short r) eqn:Hr.
    + go Hgo (AtSend None 0). split; [|lia]. split; [by rewrite Hr|by intros [? ?]].
    + go Hgo AtNow.
  - intros t w' [Ht ->]. go Hgo (AtStart t).
  - intros ? w' ->. go Hgo (AtWait t).
  - intros a w' (n & Hn & ->). go Hgo (AtNow2 t a). right. by eexists.
  - intros now w' [Ht ->]. cbn in Hok. destruct Hok as [Hr Ht0]. go Hgo (AtSend (Some a0) (Milliseconds (now - t))).
    split; [by split; [by eexists|]|]. apply Z.quot_pos; lia.
  - intros ? w' Hd. cbn in Hd. destruct (Hopen eq_refl) as [_ Hcl]. rewrite Hcl in Hd. destruct Hd as [_ ->].
    go Hgo (AtRelease o c). right. by eexists.
  - intros ? w' (n & Hn & ->). go Hgo (AtDone o c).
  - intros [] w' Hd. cbn in Hd. pose proof (i_wg _ _ _ I) as Hwg. cbn [fst] in Hwg.
    pose proof (count_elem alive gs j _ Hj eq_refl) as Hpos.
    destruct (Z.ltb_spec 0 (wg w)); [subst|destruct m; lia]. go Hgo (Ended o c).
Qed.

(** ** The goroutine of the request *)

Lemma omap_length {A B} (f : A -> option B) (l : list A) : (length (omap f l) <= length l)%nat.
Proof. induction l as [|x l IH]; [done|]. rewrite omap_cons_eq. destruct (f x); cbn [length]; lia. Qed.

Lemma omap_snoc {A B} (f : A -> option B) l x : f x = None -> omap f (l ++ [x]) = omap f l.
Proof. intros Hx. rewrite omap_app, omap_cons_eq, Hx. apply app_nil_r. Qed.

Lemma inv_fuel fuel acc gs s : inv (MRecv fuel acc) gs s -> (0 < fuel)%nat.
Proof.
  intros I. pose proof (i_fuel _ _ _ I _ _ eq_refl) as Hf. pose proof (Permutation_length (i_got _ _ _ I)) as Hp.
  rewrite length_app in Hp. pose proof (omap_length sent gs) as Ho. pose proof (f_equal length (i_reqs _ _ _ I)) as Hr.
  rewrite length_app, length_fmap in Hr. cbn [got todo length] in *. lia.
Qed.

Lemma replace_main m m' gs w ts : inv m gs (w, ts) -> <[0%nat := main_at m']> ts ++ [] = main_at m' :: (worker_at <$> gs).
Proof. intros I. pose proof (i_pool _ _ _ I) as Hp. cbn in Hp. subst. by rewrite app_nil_r. Qed.

Lemma sort_by_id l : by_id (sortSlice id_less l).
Proof. apply sortSlice_sorted, strict_weak_Z. Qed.

(** The invariant in the next phase of the request. *)
Ltac settle I :=
  destruct I; split; cbn -[app omap count launch worker_at] in *; try done; try (by right); try (by intros ? [?|?]); try lia;
  try (by match goal with H : _ \/ cap _ = _ |- _ => destruct H; [done|by right] end).

Lemma main_next m gs w ts : inv m gs (w, ts) ->
  next (main_at m) (fun c k => forall a w', does c w a w' -> advances m gs (w', <[0%nat := k a]> ts ++ forks c)).
Proof.
  intros I. pose proof (fun m' => replace_main m m' gs w ts I) as Hp.
  assert (Hgo : forall m' w', inv m' gs (w', main_at m' :: (worker_at <$> gs)) -> (main_weight m' < main_weight m)%nat ->
    advances m gs (w', <[0%nat := main_at m']> ts ++ [])).
  { intros m' w' I' Hlt. exists m', gs. rewrite Hp. split; [done|unfold weight; lia]. }
  pose proof (i_reqs _ _ _ I) as Hr.
  destruct m as [|[|r l]|r l| |[|fuel] acc|l|l]; cbn [next]; [| | | | |exact Logic.I| | |exact Logic.I].
  - intros ? w' ->. assert (gs = []) as ->.
    { destruct gs as [|g gs]; [done|]. apply (f_equal length) in Hr. cbn in Hr. rewrite length_app in Hr. lia. }
    apply (Hgo (MAdd reqs)); [|cbn; lia]. settle I.
  - intros ? w' [Hw ->]. apply (Hgo MClose); [|cbn; lia]. settle I.
  - intros ? w' ->. apply (Hgo (MGo r l)); [|cbn [main_weight length]; lia]. settle I.
  - intros ? w' ->. exists (MAdd l), (gs ++ [(r, AtAcquire)]). split.
    2:{ unfold weight. rewrite total_app. cbn. lia. }
    pose proof (i_pool _ _ _ I) as Hts. cbn [snd] in Hts. destruct I; split; cbn [fst snd forks] in *; try done.
    + subst ts. rewrite fmap_app. done.
    + rewrite fmap_app, <- app_assoc. done.
    + rewrite count_app. change (count alive [(r, AtAcquire)]) with 1%nat. lia.
    + rewrite count_app. change (count holds [(r, AtAcquire)]) with 0%nat. lia.
    + rewrite count_app. change (count calls [(r, AtAcquire)]) with 0%nat. lia.
    + destruct i_cap0; [done|by right].
    + by rewrite omap_snoc.
    + by intros ? [?|?].
    + apply Forall_app. split; [done|]. by apply Forall_singleton.
    + by rewrite omap_snoc.
  - intros ? w' Hd. cbn in Hd. pose proof (i_closed _ _ _ I) as Hc. cbn in Hc. rewrite Hc in Hd. subst w'.
    apply (Hgo (MRecv (S (length reqs)) [])); [|cbn; lia]. settle I.
    intros fuel l [= <- <-]. cbn. lia.
  - intros o w' Hd. cbn in Hd. pose proof (i_fuel _ _ _ I _ _ eq_refl) as Hf. destruct (out w) as [|r q] eqn:Hq.
    + destruct Hd as (_ & -> & ->). apply (Hgo (MReply (sortSlice id_less acc))); [|cbn; lia]. settle I.
      * rewrite Hq in *. cbn. by rewrite sortSlice_perm.
      * intros l [[= <-]|?]; [|done]. split; [done|apply sort_by_id].
    + destruct Hd as (-> & ->). apply (Hgo (MRecv fuel (acc ++ [r]))); [|cbn; lia]. settle I.
      * rewrite <- i_got0, Hq. cbn. rewrite app_assoc. symmetry. apply Permutation_cons_append.
      * intros fuel' l [= <- <-]. rewrite length_app. cbn. lia.
  - intros [] w' ->. apply (Hgo (MEnd l)); [|cbn; lia]. settle I; [|by rewrite i_replies0].
    intros l' [?|[= <-]]; [done|]. apply i_done0. by left.
Qed.

Lemma next_of (p : prog unit) P c k : next p P -> p = Op c k -> P c k.
Proof. by intros Hp ->. Qed.

Lemma step_advances m gs s s' : inv m gs s -> Step s s' -> advances m gs s'.
Proof.
  intros I Hs. destruct Hs as [w ts i c k a w' Hi Hd|]; [|done]. pose proof (i_pool _ _ _ I) as Hp. cbn [snd] in Hp.
  destruct i as [|j].
  - apply (next_of _ _ c k (main_next m gs w ts I)); [|done]. rewrite Hp in Hi. by injection Hi.
  - assert (Hj : (worker_at <$> gs) !! j = Some (Op c k)) by by rewrite Hp in Hi.
    rewrite list_lookup_fmap in Hj. destruct (gs !! j) as [[r ph]|] eqn:Hg; [|done]. injection Hj as Hj.
    by apply (next_of _ _ c k (worker_next m gs w ts j r ph I Hg)).
Qed.

Lemma nsteps_inv n s0 s m gs : inv m gs s0 -> nsteps Step n s0 s ->
  exists m' gs', inv m' gs' s /\ (weight m' gs' + n <= weight m gs)%nat.
Proof.
  intros I Hs. revert m gs I. induction Hs as [s|n s1 s2 s3 Hstep Hs IH]; intros m gs I; [exists m, gs; split; [done|lia]|].
  destruct (step_advances m gs s1 s2 I Hstep) as (m' & gs' & I' & Hlt). destruct (IH m' gs' I') as (m2 & gs2 & I2 & Hle).
  exists m2, gs2. split; [done|lia].
Qed.

(** ** Something can always go on *)

Definition ready (p : prog unit) (w : world) : Prop :=
  match p with Op c k => exists a w', does c w a w' | Ret _ => False end.
Lemma ready_step (w : world) ts (i : nat) p : ts !! i = Some p -> ready p w -> exists s', Step (w, ts) s'.
Proof. destruct p as [u|c k]; [done|]. intros Hi (a & w' & Hd). eexists. by eapply step_call. Qed.

Lemma count_le {A} (P Q : A -> bool) (l : list A) : (forall x, P x = true -> Q x = true) -> (count P l <= count Q l)%nat.
Proof.
  intros HPQ. induction l as [|x l IH]; [done|]. rewrite !count_cons. specialize (HPQ x). destruct (P x); [rewrite HPQ by done|]; lia.
Qed.

Lemma count_pos {A} (P : A -> bool) (l : list A) : (0 < count P l)%nat -> exists (j : nat) x, l !! j = Some x /\ P x = true.
Proof.
  induction l as [|x l IH]; [by unfold count; cbn; lia|]. rewrite count_cons. destruct (P x) eqn:E; [by exists 0%nat, x|].
  intros Hl. destruct (IH ltac:(lia)) as (j & y & Hj & Hy). by exists (S j), y.
Qed.

Lemma omap_short {A B} (f : A -> option B) (l : list A) (j : nat) x : l !! j = Some x -> f x = None -> (length (omap f l) < length l)%nat.
Proof.
  revert j. induction l as [|y l IH]; intros j Hj Hx; [done|]. rewrite omap_cons_eq. destruct j as [|j]; cbn in Hj.
  - injection Hj as ->. rewrite Hx. pose proof (omap_length f l). cbn. lia.
  - specialize (IH j Hj Hx). destruct (f y); cbn; lia.
Qed.

Lemma room m gs w ts (j : nat) g : inv m gs (w, ts) -> gs !! j = Some g -> sent g = None -> (length (out w) < cap w)%nat.
Proof.
  intros I Hj Hs. pose proof (omap_short sent gs j g Hj Hs) as Ho. pose proof (Permutation_length (i_got _ _ _ I)) as Hp.
  pose proof (f_equal length (i_reqs _ _ _ I)) as Hr. rewrite length_app in Hp. rewrite length_app, length_fmap in Hr. cbn [fst] in *.
  destruct (i_cap _ _ _ I) as [->|Hc]; [cbn [todo] in Hr; apply lookup_lt_Some in Hj; lia|]. cbn [fst] in Hc. lia.
Qed.

Lemma worker_ready m gs w ts (j : nat) r (ph : phase) : inv m gs (w, ts) -> gs !! j = Some (r, ph) -> alive (r, ph) = true ->
  (ph = AtAcquire -> (slots w < maxConcurrent)%nat) -> ready (worker_at (r, ph)) w.
Proof.
  intros I Hj Ha Hq. pose proof (room m gs w ts j _ I Hj) as Hroom. destruct (alive_open _ _ _ _ _ I Hj Ha) as [_ Hcl].
  assert (Hslots : holds (r, ph) = true -> exists n, slots w = S n).
  { intros Hh. pose proof (count_elem holds gs j _ Hj Hh) as Hc. rewrite <- (i_slots _ _ _ I) in Hc. cbn in Hc.
    exists (Nat.pred (slots w)). lia. }
  assert (Hactive : calls (r, ph) = true -> exists n, active w = S n).
  { intros Hh. pose proof (count_elem calls gs j _ Hj Hh) as Hc. rewrite <- (i_active _ _ _ I) in Hc. cbn in Hc.
    exists (Nat.pred (active w)). lia. }
  destruct ph as [| |t|t|t a0|o c|o c|o c|o c]; cbn [ready worker_at]; [..|done].
  - exists tt, (set_slots (S (slots w)) w). split; [by apply Hq|done].
  - exists (clock w), (set_clock (clock w) w). split; [lia|done].
  - by exists tt, (set_active (S (active w)) (asked w) w).
  - destruct (Hactive eq_refl) as [n Hn]. exists (inl ""), (set_active n (asked w ++ [call_of r (inl "")]) w), n. done.
  - exists (clock w), (set_clock (clock w) w). split; [lia|done].
  - exists tt, (set_chan (cap w) (out w ++ [response_of r o c]) false w). cbn in Hcl |- *. rewrite Hcl. split; [by apply Hroom|done].
  - destruct (Hslots eq_refl) as [n Hn]. exists tt, (set_slots n w), n. done.
  - by eexists tt, _.
Qed.

Lemma progress m gs w ts : inv m gs (w, ts) -> (forall l, m <> MEnd l) -> exists s', Step (w, ts) s'.
Proof.
  intros I Hm. pose proof (i_pool _ _ _ I) as Hp. cbn [snd] in Hp.
  assert (Hmain : ready (main_at m) w -> exists s', Step (w, ts) s') by (apply (ready_step w ts 0%nat); by rewrite Hp).
  destruct m as [|[|r l]|r l| |fuel acc|l|l]; try (apply Hmain; cbn; by eexists tt, _); [| |by destruct (Hm l)].
  - destruct (decide (count alive gs = 0%nat)) as [Hz|Hz].
    { apply Hmain. exists tt, w. split; [|done]. pose proof (i_wg _ _ _ I) as Hw. cbn [fst] in Hw. lia. }
    assert (Hj : exists (j : nat) r ph, gs !! j = Some (r, ph) /\ alive (r, ph) = true /\ (ph = AtAcquire -> (slots w < maxConcurrent)%nat)).
    { pose proof (i_slots _ _ _ I) as Hs. cbn [fst] in Hs. destruct (decide (0 < count holds gs)%nat) as [Hh|Hh].
      - destruct (count_pos _ _ Hh) as (j & [r ph] & Hj & Hph). exists j, r, ph. by destruct ph.
      - destruct (count_pos alive gs ltac:(lia)) as (j & [r ph] & Hj & Hph). exists j, r, ph. split_and!; [done|done|].
        intros _. unfold maxConcurrent. lia. }
    destruct Hj as (j & r & ph & Hj & Ha & Hq). apply (ready_step w ts (S j) (worker_at (r, ph))); [|by eapply worker_ready].
    rewrite Hp. change ((worker_at <$> gs) !! j = Some (worker_at (r, ph))). by rewrite list_lookup_fmap, Hj.
  - pose proof (inv_fuel _ _ _ _ I) as Hf. destruct fuel as [|fuel]; [lia|]. apply Hmain. cbn.
    pose proof (i_closed _ _ _ I) as Hc. cbn in Hc. destruct (out w) as [|x q]; [by exists None, w|by eexists _, _].
Qed.

(** ** The reply *)

(** Calls with their outcomes and costs. *)
Abbreviation record := (ZteRPCRequest * option outcome * Z)%type.
Definition response (x : record) : ZteRPCResponse := response_of x.1.1 x.1.2 x.2.
Definition record_ok (x : record) : Prop := result_ok x.1.1 x.1.2 x.2.

(** One response per call, in the order of the identifiers, each with what ubus
    answered to this call; nothing else was asked. *)
Definition answers (l : list ZteRPCResponse) (log : list (string * string * option object * outcome)) : Prop :=
  exists done : list record, done.*1.*1 = reqs /\ Forall record_ok done /\
    l ≡ₚ response <$> done /\ by_id l /\ log ≡ₚ omap (fun x => call_of x.1.1 <$> x.1.2) done.

Lemma all_ended now gs : count alive gs = 0%nat -> Forall (phase_ok now) gs ->
  exists done : list record, gs = (fun x => (x.1.1, Ended x.1.2 x.2)) <$> done /\ Forall record_ok done.
Proof.
  induction gs as [|[r ph] gs IH]; intros Hc Hok; [by exists []|]. rewrite count_cons in Hc. inversion_clear Hok as [|? ? Hr Hrest].
  destruct ph as [| | | | | | | |o c]; cbn [alive snd] in Hc; try lia. destruct (IH ltac:(lia) Hrest) as (l & -> & Hl).
  exists ((r, o, c) :: l). split; [done|]. by apply List.Forall_cons.
Qed.

Lemma inv_answers l gs s : inv (MEnd l) gs s -> answers l (asked s.1).
Proof.
  intros I. destruct (all_ended _ gs (i_waited _ _ _ I eq_refl) (i_phases _ _ _ I)) as (d & -> & Hd).
  destruct (i_done _ _ _ I l ltac:(by right)) as [Hout Hs]. exists d. split_and!; [|done| |done|].
  - pose proof (i_reqs _ _ _ I) as Hr. cbn [todo] in Hr. rewrite app_nil_r in Hr. rewrite <- Hr, <- !list_fmap_compose. done.
  - pose proof (i_got _ _ _ I) as Hg. rewrite Hout in Hg. cbn [app got] in Hg. rewrite Hg.
    clear. induction d as [|[[r o] c] d IH]; [done|]. rewrite !fmap_cons, omap_cons_eq. cbn. by rewrite IH.
  - rewrite (i_asked _ _ _ I). clear. induction d as [|[[r o] c] d IH]; [done|]. rewrite fmap_cons, !omap_cons_eq. cbn.
    destruct o as [a|]; cbn; by rewrite IH.
Qed.
End Run.

(** * Properties *)

(** The states a batch may come to. *)
Definition batch_reaches `{SortSlice} (reqs : list ZteRPCRequest) (s : world * list (prog unit)) : Prop :=
  rtc (step does forks (fun _ => False)) (start, [ZteUbusBatchHandler (Some reqs)]) s.

Lemma reaches_inv `{SortSlice} reqs s : batch_reaches reqs s -> exists m gs, inv reqs m gs s.
Proof.
  intros [n Hn]%rtc_nsteps. destruct (nsteps_inv reqs n _ s MMake [] (inv_start reqs) Hn) as (m & gs & I & _). by exists m, gs.
Qed.

(** C29: however the goroutines of a batch are scheduled and whatever ubus answers,
    nothing panics, at most twelve ubus commands run at once, and the reply, once
    there is one, holds exactly one response per call: in the order of the
    identifiers, with the outcome of its own ubus command, or the refusal of a call
    with fewer than four parameters, for which no command is run. *)
Theorem batch_answers `{SortSlice} (reqs : list ZteRPCRequest) (s : world * list (prog unit)) :
  batch_reaches reqs s ->
  panicked s.1 = false /\ (active s.1 <= maxConcurrent)%nat /\
  (replies s.1 = [] \/ exists l, replies s.1 = [(200, Some l)] /\ answers reqs l (asked s.1)).
Proof.
  intros (m & gs & I)%reaches_inv. split_and!; [by eapply i_panic| |].
  - pose proof (i_max _ _ _ _ I) as Hm. rewrite (i_slots _ _ _ _ I) in Hm. rewrite (i_active _ _ _ _ I).
    etrans; [|exact Hm]. by apply count_le; intros [r []].
  - rewrite (i_replies _ _ _ _ I). destruct m as [| | | | | |l]; try by left. right. exists l. split; [done|]. by eapply inv_answers.
Qed.

(** C30: a batch of [n] calls takes at most [11 n + 5] operations, whatever the
    schedule, and until it has replied some goroutine can go on: it always comes to
    its reply. *)
Theorem batch_completes `{SortSlice} (reqs : list ZteRPCRequest) (s : world * list (prog unit)) :
  batch_reaches reqs s ->
  (forall n, nsteps (step does forks (fun _ => False)) n (start, [ZteUbusBatchHandler (Some reqs)]) s -> (n <= 11 * length reqs + 5)%nat) /\
  (replies s.1 = [] -> exists s', step does forks (fun _ => False) s s').
Proof.
  intros Hs. split.
  - intros n Hn. destruct (nsteps_inv reqs n _ s MMake [] (inv_start reqs) Hn) as (m & gs & _ & Hle). cbn [weight main_weight] in Hle.
    unfold weight in Hle. cbn in Hle |- *. lia.
  - apply reaches_inv in Hs as (m & gs & I). intros Hr. destruct s as [w ts]. eapply progress; [exact I|].
    intros l ->. by rewrite (i_replies _ _ _ _ I) in Hr.
Qed.

(** ** A run of a batch of one call without parameters *)

(** Goroutine [i] performs the call [c], with answer [a]. *)
Ltac turn i c a :=
  eapply rtc_l; [eapply (step_call does forks (fun _ => False) _ _ i c _ a); [reflexivity|
    cbn; first [reflexivity | split; [unfold maxConcurrent; lia|reflexivity] | split; [reflexivity|reflexivity]
               | eexists; split; reflexivity | split; [reflexivity|split; reflexivity]]]|]; cbn.

Definition one_call : list ZteRPCRequest := [mkRequest "2.0" 7 "call" []].
Definition refusal : ZteRPCResponse := mkResponse "2.0" 7 (ResultText 1 "invalid params") 0.

Lemma one_call_run : exists s, batch_reaches one_call s /\ replies s.1 = [(200, Some [refusal])].
Proof.
  eexists. split.
  - unfold batch_reaches. turn 0%nat (MakeOut 1) tt. turn 0%nat WgAdd tt. turn 0%nat (Go (mkRequest "2.0" 7 "call" [])) tt.
    turn 1%nat Acquire tt. turn 1%nat (Send refusal) tt. turn 1%nat Release tt. turn 1%nat WgDone tt.
    turn 0%nat WgWait tt. turn 0%nat Close tt. turn 0%nat Recv (Some refusal). turn 0%nat Recv (@None ZteRPCResponse).
    turn 0%nat (Reply 200 (Some [refusal])) tt. apply rtc_refl.
  - reflexivity.
Defined.

Lemma batch_answers_witness : exists s : world * list (prog unit), replies s.1 = [(200, Some [refusal])] /\ panicked s.1 = false /\ answers one_call [refusal] (asked s.1).
Proof.
  destruct one_call_run as (s & Hs & Hr). exists s. split; [exact Hr|].
  destruct (batch_answers one_call s Hs) as (Hp & _ & [H|(l & Hl & Ha)]); [by rewrite Hr in H|]. rewrite Hr in Hl. injection Hl as <-.
  by split.
Defined.

Lemma batch_completes_witness : exists s', step does forks (fun _ => False) (start, [ZteUbusBatchHandler (Some one_call)]) s'.
Proof. exact (proj2 (batch_completes one_call (start, [ZteUbusBatchHandler (Some one_call)]) (rtc_refl _ _)) eq_refl). Defined.
