(* ===== verification/Update.v ===== *)
(** The self-update of the web service: [src/gossh/main.go], lines 33 to 949.

    Handlers and the download task are programs of [Threads]: trees of calls of
    the shared status, the cancel function, HTTP and the file system, which
    interleave freely.  Theorems: the status is well formed under every
    interleaving; a task that nobody else disturbs starts the update script only
    with the complete body of a successful response; the lines it tries; the
    place of the temporary file. *)

From S2P Require Import Prelude GoInt GoStrings Gin Shell Threads.
From stdpp Require Import gmap strings.
Open Scope string_scope.
Open Scope Z_scope.

(** * Lines and versions *)

Definition GithubRepo := "Jack-bin183/WebSSH-u60pro".
Definition updateVersionFileURL := "https://raw.githubusercontent.com/" +++ GithubRepo +++ "/version/version.txt".
Definition updateChangelogFileURL := "https://raw.githubusercontent.com/" +++ GithubRepo +++ "/version/changelog.txt".
Definition updateReleaseURL := "https://github.com/" +++ GithubRepo +++ "/releases/latest".
Definition updateDownloadBaseURL := "https://github.com/" +++ GithubRepo +++ "/releases/latest/download/webssh_".

Definition PROXIES : list string :=
  ["https://v6.gh-proxy.org/"; "https://ghfast.top/"; "https://gh-proxy.com/"; "https://ghproxy.net/"; "https://gh.llkk.cc/";
   "https://hub.gitmirror.com/"; "https://gh-proxy.org/"].

(** [addURL]: the URLs, in the order they were added. *)
Definition addURL (urls : list string) (rawURL : string) : list string :=
  if bool_decide (rawURL ∈ urls) then urls else (urls ++ [rawURL])%list.

Definition add_proxy (originalURL trimmedURL : string) (urls : list string) (proxy : string) : list string :=
  let proxy := TrimSpace proxy in
  if bool_decide (proxy = "") then urls
  else
    let proxy := if HasSuffix proxy "/" then proxy else proxy +++ "/" in
    addURL (addURL urls (proxy +++ originalURL)) (proxy +++ trimmedURL).

Definition buildUpdateTryURLs (originalURL : string) (proxies : list string) : list string :=
  let trimmedURL := TrimPrefix (TrimPrefix originalURL "https://") "http://" in
  addURL (fold_left (add_proxy originalURL trimmedURL) proxies []) originalURL.

(** The loop over runes refuses the first that is not one of these; a byte that
    belongs to no ASCII character decodes to a rune that is not. *)
Definition safe_char (c : ascii) : bool :=
  is_lower c || is_upper c || is_digit c || existsb (fun v => ord c =? v) [46; 95; 45].
Definition isSafeUpdateVersion (v : string) : bool := (strlen v <=? 128)%nat && forallb safe_char (chars v).

Record GithubAsset := mkAsset { Name : string; Size : Z; BrowserDownloadURL : string }.
Definition updateAssetForVersion (latestVersion : string) : GithubAsset :=
  mkAsset ("webssh_" +++ latestVersion) 0 (updateDownloadBaseURL +++ latestVersion).

(** * Errors, responses, the status *)

(** Whether [errors.Is(err, context.Canceled)], and the text. *)
Record error := mkError { is_canceled : bool; Error : string }.
Definition Errorf (text : string) : error := mkError false text.
Definition Canceled : error := mkError true "context canceled".

(** A body as its reader delivers it: the reads that succeed, and the last one,
    with [None] for [io.EOF]. *)
Record body := mkBody { reads : list string; last_read : string; last_error : option error }.
Inductive response :=
| RequestError (err : error)      (** [http.NewRequest] *)
| DoError (err : error)
| Response (StatusCode : Z) (Status : string) (ContentLength : Z) (Body : body).

Definition concat_strings (l : list string) : string := fold_right String.append "" l.
Definition body_bytes (b : body) : string := concat_strings (reads b) +++ last_read b.

(** [io.ReadAll(io.LimitReader(body, n))]. *)
Definition ReadAll_limited (n : nat) (b : body) : error + string :=
  let all := of_chars (take n (chars (body_bytes b))) in
  match last_error b with
  | None => inr all
  | Some e =>
    if (n <=? strlen (concat_strings (reads b)))%nat || (n <? strlen (body_bytes b))%nat then inr all else inl e
  end.

Record UpdateDownloadStatus := mkStatus {
  State : string; Msg : string; Mode : string; Domain : string; URL : string; AssetName : string;
  Downloaded : Z; Total : Z; Percent : Z;
  CurrentVersion : string; LatestVersion : string; ReleaseURL : string; StartedAt : string; UpdatedAt : string }.

Definition with_State v s := mkStatus v (Msg s) (Mode s) (Domain s) (URL s) (AssetName s) (Downloaded s) (Total s) (Percent s) (CurrentVersion s) (LatestVersion s) (ReleaseURL s) (StartedAt s) (UpdatedAt s).
Definition with_Msg v s := mkStatus (State s) v (Mode s) (Domain s) (URL s) (AssetName s) (Downloaded s) (Total s) (Percent s) (CurrentVersion s) (LatestVersion s) (ReleaseURL s) (StartedAt s) (UpdatedAt s).
Definition with_line mode domain url s := mkStatus (State s) (Msg s) mode domain url (AssetName s) (Downloaded s) (Total s) (Percent s) (CurrentVersion s) (LatestVersion s) (ReleaseURL s) (StartedAt s) (UpdatedAt s).
Definition with_Downloaded v s := mkStatus (State s) (Msg s) (Mode s) (Domain s) (URL s) (AssetName s) v (Total s) (Percent s) (CurrentVersion s) (LatestVersion s) (ReleaseURL s) (StartedAt s) (UpdatedAt s).
Definition with_Total v s := mkStatus (State s) (Msg s) (Mode s) (Domain s) (URL s) (AssetName s) (Downloaded s) v (Percent s) (CurrentVersion s) (LatestVersion s) (ReleaseURL s) (StartedAt s) (UpdatedAt s).
Definition with_Percent v s := mkStatus (State s) (Msg s) (Mode s) (Domain s) (URL s) (AssetName s) (Downloaded s) (Total s) v (CurrentVersion s) (LatestVersion s) (ReleaseURL s) (StartedAt s) (UpdatedAt s).
Definition with_ReleaseURL v s := mkStatus (State s) (Msg s) (Mode s) (Domain s) (URL s) (AssetName s) (Downloaded s) (Total s) (Percent s) (CurrentVersion s) (LatestVersion s) v (StartedAt s) (UpdatedAt s).
Definition with_UpdatedAt v s := mkStatus (State s) (Msg s) (Mode s) (Domain s) (URL s) (AssetName s) (Downloaded s) (Total s) (Percent s) (CurrentVersion s) (LatestVersion s) (ReleaseURL s) (StartedAt s) v.

Definition idle_status : UpdateDownloadStatus := mkStatus "idle" "暂无更新任务" "" "" "" "" 0 0 0 "" "" "" "" "".

(** The critical section of [setUpdateStatus]. *)
Definition setUpdateStatus (fn : UpdateDownloadStatus -> UpdateDownloadStatus) (now : string) (s : UpdateDownloadStatus) : UpdateDownloadStatus :=
  let s := with_UpdatedAt now (fn s) in
  if 0 <? Total s then
    let percent := i64 (Z.quot (i64 (Downloaded s * 100)) (Total s)) in
    with_Percent (if 100 <? percent then 100 else percent) s
  else s.

(** * The environment *)

(** The values the temporary script is given. *)
Record update_script := mkScript {
  LOG_FILE : string; OLD_PID : Z; CURRENT_BIN : string; NEW_BIN : string; WORK_DIR : string; ARGS : string }.

Record UpdateVersionInfo := mkInfo {
  i_CurrentVersion : string; i_LatestVersion : string; HasUpdate : bool; i_ReleaseURL : string; ReleaseName : string;
  ReleaseBody : string; ProxyURLs : list string; i_AssetName : string; AssetSize : Z }.

Inductive call : Type :=
| GetStatus
| SetStatus (fn : string -> UpdateDownloadStatus -> UpdateDownloadStatus)   (** of the time *)
| NewContext | SetCancel (ctx : option nat) | GetCancel | Cancel (ctx : nat) | CtxErr (ctx : nat)
| Go (ctx : nat) (asset : GithubAsset) (latestVersion releaseURL : string) (proxies : list string)
| JSON (code : Z) (info : option UpdateVersionInfo)
| DetectMihomoHTTPProxy (url : string) | RankProxiesBySpeed (proxies : list string) (url : string)
| Get (proxy : option string) (url : string)
| Executable | EvalSymlinks (path : string) | Getwd
| OpenTrunc (path : string) | Write (file : nat) (data : string) | Stat (path : string)
| Remove (path : string) | Chmod (path : string) | WriteScript (script : update_script) | Start (path : string).

Definition answer (c : call) : Type :=
  match c with
  | GetStatus => UpdateDownloadStatus
  | NewContext => nat
  | GetCancel => option nat
  | CtxErr _ => option error
  | DetectMihomoHTTPProxy _ => option string
  | RankProxiesBySpeed _ _ => list string
  | Get _ _ => response
  | Executable | EvalSymlinks _ | Getwd | WriteScript _ => error + string
  | OpenTrunc _ => error + nat
  | Write _ _ => nat * option error
  | Stat _ => option Z
  | Chmod _ | Start _ => option error
  | _ => unit
  end.

Abbreviation prog := (@Threads.prog call answer).
Abbreviation invoke := (@perform call answer).
Definition set_status (fn : UpdateDownloadStatus -> UpdateDownloadStatus) : prog unit := perform (SetStatus (fun _ => fn)).

Section Program.
(** [version], [os.TempDir()], [runtime.GOARCH], [os.Getpid()], [os.Args[1:]];
    scheme and host of [url.Parse]. *)
Context (version TempDir GOARCH : string) (pid : Z) (Args : list string).
Context (url_Parse : string -> option (string * string)).

(** ** Proxies *)

Definition normalizeUpdateProxy (rawProxy : string) : error + string :=
  let proxy := TrimSpace rawProxy in
  if bool_decide (proxy = "") then inr ""
  else
    let proxy := if negb (HasPrefix proxy "http://") && negb (HasPrefix proxy "https://") then "https://" +++ proxy else proxy in
    match url_Parse proxy with
    | None => inl (Errorf "代理 URL 格式不正确")
    | Some (scheme, host) =>
      if bool_decide (scheme = "") || bool_decide (host = "") then inl (Errorf "代理 URL 格式不正确")
      else if negb (bool_decide (scheme = "http")) && negb (bool_decide (scheme = "https")) then inl (Errorf "代理 URL 只支持 http 或 https")
      else inr (if HasSuffix proxy "/" then proxy else proxy +++ "/")
    end.

Definition updateProxiesFromRaw (rawProxy : string) : error + list string :=
  match normalizeUpdateProxy rawProxy with
  | inl e => inl e
  | inr proxyURL => inr (if bool_decide (proxyURL = "") then PROXIES else [proxyURL])
  end.

(** ** The latest version *)

Definition fetchLatestVersionWithClient (proxy : option string) (rawURL : string) : prog (error + string) :=
  r ← invoke (Get proxy rawURL);
  mret match r with
       | RequestError e | DoError e => inl e
       | Response code text _ b =>
         if negb (code =? 200) then inl (Errorf (rawURL +++ " 返回异常: " +++ text))
         else match ReadAll_limited 1024 b with
              | inl e => inl e
              | inr data =>
                let latestVersion := TrimSpace data in
                if bool_decide (latestVersion = "") then inl (Errorf "version.txt 内容为空")
                else if negb (isSafeUpdateVersion latestVersion) then inl (Errorf ("version.txt 版本号格式不正确: " +++ latestVersion))
                else inr latestVersion
              end
       end.

(** The loop over the lines, with the last error. *)
Fixpoint first_version (urls : list string) (lastErr : option error) : prog (error + string) :=
  match urls with
  | [] => mret (inl (default (Errorf "没有可用的更新线路") lastErr))
  | u :: urls =>
    r ← fetchLatestVersionWithClient None u;
    match r with inr v => mret (inr v) | inl e => first_version urls (Some e) end
  end.

(** The error is wrapped, and still matches [errors.Is]. *)
Definition getLatestVersionFromFile (proxies : list string) : prog (error + string) :=
  let wrap r := match r with inr v => inr v | inl e => inl (mkError (is_canceled e) ("已尝试 mihomo、代理和 raw.githubusercontent.com 兜底: " +++ Error e)) end in
  let lines lastErr := (r ← first_version (buildUpdateTryURLs updateVersionFileURL proxies) lastErr; mret (wrap r)) in
  p ← invoke (DetectMihomoHTTPProxy updateVersionFileURL);
  match p with
  | Some proxyURL =>
    r ← fetchLatestVersionWithClient (Some proxyURL) updateVersionFileURL;
    match r with inr v => mret (inr v) | inl e => lines (Some e) end
  | None => lines None
  end.

Definition fetchChangelogWithClient (proxy : option string) (rawURL : string) : prog string :=
  r ← invoke (Get proxy rawURL);
  mret match r with
       | RequestError _ | DoError _ => ""
       | Response code _ _ b =>
         if negb (code =? 200) then ""
         else match ReadAll_limited (64 * 1024) b with inl _ => "" | inr data => TrimSpace data end
       end.

Fixpoint first_changelog (urls : list string) : prog string :=
  match urls with
  | [] => mret ""
  | u :: urls => c ← fetchChangelogWithClient None u; if bool_decide (c = "") then first_changelog urls else mret c
  end.

Definition getLatestChangelogFromFile (proxies : list string) : prog string :=
  let lines := first_changelog (buildUpdateTryURLs updateChangelogFileURL proxies) in
  p ← invoke (DetectMihomoHTTPProxy updateChangelogFileURL);
  match p with
  | Some proxyURL =>
    c ← fetchChangelogWithClient (Some proxyURL) updateChangelogFileURL;
    if bool_decide (c = "") then lines else mret c
  | None => lines
  end.

(** ** The download *)

(** How a copy ends: the context is done, which returns at once, or [err]. *)
Inductive copied := Returned (err : error) | Copied (err : option error).

Definition ErrShortWrite : error := Errorf "short write".

(** One read that gave [data]; [k] goes on with the bytes written so far. *)
Definition copy_read (out : nat) (data : string) (downloaded : Z) (k : Z -> prog copied) : prog copied :=
  if bool_decide (data = "") then k downloaded
  else
    w ← invoke (Write out data);
    let '(written, writeErr) := w in
    let downloaded := i64 (downloaded + Z.of_nat written) in
    _ ← set_status (with_Downloaded downloaded);
    match writeErr with
    | Some e => mret (Copied (Some e))
    | None => if negb (written =? strlen data)%nat then mret (Copied (Some ErrShortWrite)) else k downloaded
    end.

Fixpoint copy_body (ctx out : nat) (l : list string) (last : string) (fin : option error) (downloaded : Z) : prog copied :=
  e ← invoke (CtxErr ctx);
  match e with
  | Some e => mret (Returned e)
  | None =>
    match l with
    | data :: l => copy_read out data downloaded (copy_body ctx out l last fin)
    | [] => copy_read out last downloaded (fun _ => mret (Copied fin))
    end
  end.

(** [total]: the length of the response, or the hint. *)
Definition content_total (totalHint ContentLength : Z) : Z := if 0 <? ContentLength then ContentLength else totalHint.
Definition start_copy (total : Z) (msg : string) (s : UpdateDownloadStatus) : UpdateDownloadStatus :=
  with_Msg msg (with_Percent 0 (with_Downloaded 0 (with_Total total s))).
Definition downloaded_ok (size : Z) (s : UpdateDownloadStatus) : UpdateDownloadStatus :=
  let s := with_Downloaded size (with_Msg "下载完成，正在准备替换程序" (with_State "installing" s)) in
  with_Percent 100 (if Total s <=? 0 then with_Total size s else s).
Definition empty_file : error := Errorf "下载文件为空".

Definition downloadFileWithClient (ctx : nat) (proxy : option string) (downloadURL savePath : string) (totalHint : Z) : prog (option error) :=
  r ← invoke (Get proxy downloadURL);
  match r with
  | RequestError e | DoError e => mret (Some e)
  | Response code _ len b =>
    if negb (code =? 200) then mret (Some (Errorf ("HTTP " +++ Itoa code)))
    else
      o ← invoke (OpenTrunc savePath);
      match o with
      | inl e => mret (Some e)
      | inr out =>
        _ ← set_status (start_copy (content_total totalHint len) "正在通过 mihomo 下载更新文件");
        c ← copy_body ctx out (reads b) (last_read b) (last_error b) 0;
        match c with
        | Returned e | Copied (Some e) => mret (Some e)
        | Copied None =>
          info ← invoke (Stat savePath);
          match info with
          | Some size =>
            if size <=? 0 then mret (Some empty_file)
            else _ ← set_status (downloaded_ok size); mret None
          | None => mret (Some empty_file)
          end
        end
      end
  end.

Definition updateAttemptStatus (rawURL originalURL : string) : prog unit :=
  let parsed := url_Parse rawURL in
  let originalHost := match url_Parse originalURL with Some (_, host) => host | None => "" end in
  let mode := match parsed with Some (_, host) => if bool_decide (host = originalHost) then "直连" else "代理" | None => "代理" end in
  set_status (fun s =>
    let s := with_Msg "正在下载更新文件" (with_State "downloading" s) in
    with_Percent 0 (with_Downloaded 0 (with_line mode (match parsed with Some (_, host) => host | None => Domain s end) rawURL s))).

(** The loop over the lines; [%v] of the last error does not wrap it. *)
Fixpoint try_lines (ctx : nat) (downloadURL savePath : string) (totalHint : Z) (urls : list string) (lastErr : option error) : prog (option error) :=
  match urls with
  | [] => mret (Some (Errorf ("下载失败，尝试代理和 GitHub 兜底都失败: " +++ match lastErr with Some e => Error e | None => "<nil>" end)))
  | u :: urls =>
    let continue lastErr := try_lines ctx downloadURL savePath totalHint urls (Some lastErr) in
    e ← invoke (CtxErr ctx);
    match e with
    | Some e => mret (Some e)
    | None =>
      _ ← updateAttemptStatus u downloadURL;
      r ← invoke (Get None u);
      match r with
      | RequestError e => continue e
      | DoError e =>
        d ← invoke (CtxErr ctx);
        match d with
        | Some d => mret (Some d)
        | None => _ ← set_status (with_Msg "当前线路 3 秒内未连上或连接失败，正在尝试下一线路"); continue e
        end
      | Response code _ len b =>
        if negb (code =? 200) then
          _ ← set_status (with_Msg ("当前线路返回 HTTP " +++ Itoa code +++ "，正在尝试下一线路"));
          continue (Errorf ("HTTP " +++ Itoa code))
        else
          o ← invoke (OpenTrunc savePath);
          match o with
          | inl e => mret (Some e)
          | inr out =>
            _ ← set_status (start_copy (content_total totalHint len) "正在下载更新文件");
            c ← copy_body ctx out (reads b) (last_read b) (last_error b) 0;
            match c with
            | Returned e => mret (Some e)
            | Copied (Some e) => _ ← set_status (with_Msg "当前线路下载中断，正在尝试下一线路"); continue e
            | Copied None =>
              info ← invoke (Stat savePath);
              match info with
              | Some size =>
                if size <=? 0 then continue empty_file
                else _ ← set_status (downloaded_ok size); mret None
              | None => continue empty_file
              end
            end
          end
      end
    end
  end.

Definition downloadFile (ctx : nat) (downloadURL savePath : string) (totalHint : Z) (proxies : list string) : prog (option error) :=
  let lines lastErr :=
    (rankedProxies ← invoke (RankProxiesBySpeed proxies downloadURL);
     try_lines ctx downloadURL savePath totalHint (buildUpdateTryURLs downloadURL rankedProxies) lastErr) in
  p ← invoke (DetectMihomoHTTPProxy downloadURL);
  match p with
  | None => lines None
  | Some proxyURL =>
    _ ← set_status (fun s =>
      let s := with_Msg "正在通过 mihomo 下载更新文件" (with_State "downloading" s) in
      with_Percent 0 (with_Downloaded 0 (with_line "mihomo" (TrimPrefix proxyURL "http://") downloadURL s)));
    r ← downloadFileWithClient ctx (Some proxyURL) downloadURL savePath totalHint;
    match r with
    | None => mret None
    | Some e =>
      d ← invoke (CtxErr ctx);
      match d with
      | Some _ =>
        d ← invoke (CtxErr ctx); mret d
      | None => _ ← set_status (with_Msg "mihomo 下载失败，正在尝试内置线路"); lines (Some e)
      end
    end
  end.

(** ** The task *)

Definition createTempUpdateScript (currentBin newBin logFile : string) : prog (error + string) :=
  wd ← (invoke Getwd : prog (error + string));
  let workDir := match wd with inr d => d | inl _ => Dir currentBin end in
  let quotedArgs := fold_left (fun q arg => q +++ " " +++ shellQuote_main arg) Args "" in
  (invoke (WriteScript (mkScript logFile pid currentBin newBin workDir quotedArgs)) : prog (error + string)).

Definition tmpNewBin (latestVersion : string) : string :=
  path_Join [TempDir; "webssh_" +++ GOARCH +++ "_" +++ latestVersion +++ ".new"].

Definition fail_with (text : string) : prog unit := set_status (fun s => with_Msg text (with_State "failed" s)).

Definition runUpdateTask (ctx : nat) (asset : GithubAsset) (latestVersion releaseURL : string) (proxies : list string) : prog unit :=
  _ ← (exe ← invoke Executable;
       match exe with
       | inl e => fail_with ("获取当前二进制路径失败: " +++ Error e)
       | inr exe =>
         bin ← invoke (EvalSymlinks exe);
         match bin with
         | inl e => fail_with ("解析当前二进制真实路径失败: " +++ Error e)
         | inr currentBin =>
           let tmp := tmpNewBin latestVersion in
           r ← downloadFile ctx (BrowserDownloadURL asset) tmp (Size asset) proxies;
           match r with
           | Some e =>
             _ ← set_status (fun s =>
                   if is_canceled e then with_Percent 0 (with_Msg "用户已取消下载" (with_State "canceled" s))
                   else with_Msg ("下载新版本失败: " +++ Error e) (with_State "failed" s));
             invoke (Remove tmp)
           | None =>
             c ← invoke (Chmod tmp);
             match c with
             | Some e => fail_with ("设置新二进制权限失败: " +++ Error e)
             | None =>
               p ← createTempUpdateScript currentBin tmp (path_Join [TempDir; "webssh_update.log"]);
               match p with
               | inl e => fail_with ("创建临时更新脚本失败: " +++ Error e)
               | inr scriptPath =>
                 st ← invoke (Start scriptPath);
                 match st with
                 | Some e => fail_with ("启动临时更新脚本失败: " +++ Error e)
                 | None => set_status (fun s =>
                     with_ReleaseURL releaseURL (with_Percent 100 (with_Msg "更新文件已准备完成，程序即将重启" (with_State "restarting" s))))
                 end
               end
             end
           end
         end
       end);
  invoke (SetCancel None).

(** ** The handlers *)

Definition reply (code : Z) : prog unit := invoke (JSON code None).

Definition UpdateStatusHandler : prog unit := _ ← invoke GetStatus; reply 0.

Definition UpdateVersionHandler (proxy_url : string) : prog unit :=
  match updateProxiesFromRaw proxy_url with
  | inl _ => reply 1
  | inr updateProxies =>
    v ← getLatestVersionFromFile updateProxies;
    match v with
    | inl _ => reply 1
    | inr latestVersion =>
      let currentVersion := TrimSpace version in
      let asset := updateAssetForVersion latestVersion in
      body ← getLatestChangelogFromFile updateProxies;
      invoke (JSON 0 (Some (mkInfo currentVersion latestVersion (negb (bool_decide (currentVersion = latestVersion))) updateReleaseURL
        ("WebSSH " +++ latestVersion) body PROXIES (Name asset) (Size asset))))
    end
  end.

Definition busy (state : string) : bool := bool_decide (state ∈ ["starting"; "downloading"; "installing"; "restarting"]).
Definition isUpdateBusy : prog bool := s ← invoke GetStatus; mret (busy (State s)).

(** [proxy_url]: [None] for a body that cannot be bound; the empty text for
    no body at all. *)
Definition UpdateRunHandler (proxy_url : option string) : prog unit :=
  b ← isUpdateBusy;
  if b : bool then _ ← invoke GetStatus; reply 1
  else
    match proxy_url with
    | None => reply 1
    | Some proxy_url =>
      match updateProxiesFromRaw proxy_url with
      | inl _ => reply 1
      | inr updateProxies =>
        v ← getLatestVersionFromFile updateProxies;
        match v with
        | inl _ => reply 1
        | inr latestVersion =>
          let currentVersion := TrimSpace version in
          if bool_decide (currentVersion = latestVersion) then reply 0
          else
            let asset := updateAssetForVersion latestVersion in
            _ ← invoke (SetStatus (fun now _ =>
                  mkStatus "starting" "正在准备更新任务" "" "" "" (Name asset) 0 (Size asset) 0 currentVersion latestVersion updateReleaseURL now ""));
            ctx ← invoke NewContext;
            _ ← invoke (SetCancel (Some ctx));
            _ ← invoke (Go ctx asset latestVersion updateReleaseURL updateProxies);
            _ ← invoke GetStatus;
            reply 0
        end
      end
    end.

Definition UpdateCancelHandler : prog unit :=
  s ← invoke GetStatus;
  if negb (bool_decide (State s = "starting")) && negb (bool_decide (State s = "downloading")) then _ ← invoke GetStatus; reply 1
  else
    cancel ← invoke GetCancel;
    match cancel with
    | None => _ ← invoke GetStatus; reply 1
    | Some ctx =>
      _ ← invoke (Cancel ctx);
      _ ← set_status (with_Msg "正在取消下载");
      _ ← invoke GetStatus;
      reply 0
    end.

(** A request of the four routes. *)
Definition request (p : prog unit) : Prop :=
  p = UpdateStatusHandler \/ (exists proxy, p = UpdateVersionHandler proxy) \/ (exists body, p = UpdateRunHandler body) \/
  p = UpdateCancelHandler.

Definition forks (c : call) : list (prog unit) :=
  match c with Go ctx asset latest release proxies => [runUpdateTask ctx asset latest release proxies] | _ => [] end.

End Program.

(** * The world *)

(** Files have names and contents; an open file has an offset.  [served]: the
    responses received; [launched]: the scripts started, with the content their
    new binary had. *)
Record world := mkWorld {
  status : UpdateDownloadStatus;
  updateCancel : option nat;
  contexts : list bool;              (** cancelled? *)
  names : gmap string nat;
  inodes : list string;
  handles : list (nat * nat);
  served : list (string * response);
  scripts : gmap string update_script;
  launched : list (update_script * option string);
  replies : list (Z * option UpdateVersionInfo) }.

Definition start : world := mkWorld idle_status None [] ∅ [] [] [] ∅ [] [].

Definition set_world_status s w := mkWorld s (updateCancel w) (contexts w) (names w) (inodes w) (handles w) (served w) (scripts w) (launched w) (replies w).
Definition set_world_cancel c w := mkWorld (status w) c (contexts w) (names w) (inodes w) (handles w) (served w) (scripts w) (launched w) (replies w).
Definition set_contexts c w := mkWorld (status w) (updateCancel w) c (names w) (inodes w) (handles w) (served w) (scripts w) (launched w) (replies w).
Definition set_files n i h w := mkWorld (status w) (updateCancel w) (contexts w) n i h (served w) (scripts w) (launched w) (replies w).
Definition set_served r w := mkWorld (status w) (updateCancel w) (contexts w) (names w) (inodes w) (handles w) r (scripts w) (launched w) (replies w).
Definition set_scripts s w := mkWorld (status w) (updateCancel w) (contexts w) (names w) (inodes w) (handles w) (served w) s (launched w) (replies w).
Definition set_launched l w := mkWorld (status w) (updateCancel w) (contexts w) (names w) (inodes w) (handles w) (served w) (scripts w) l (replies w).
Definition set_replies r w := mkWorld (status w) (updateCancel w) (contexts w) (names w) (inodes w) (handles w) (served w) (scripts w) (launched w) r.

Definition content (w : world) (path : string) : option string := i ← names w !! path; inodes w !! i.

(** Bytes written at an offset; a gap is filled with zeros. *)
Definition write_at (off : nat) (data s : string) : string :=
  of_chars (take off (chars s) ++ replicate (off - strlen s) (chr 0) ++ chars data ++ drop (off + strlen data) (chars s))%list.

Definition open_trunc (path : string) (w : world) : nat * world :=
  match names w !! path with
  | Some i => (length (handles w), set_files (names w) (<[i := ""]> (inodes w)) (handles w ++ [(i, 0%nat)])%list w)
  | None => (length (handles w), set_files (<[path := length (inodes w)]> (names w)) (inodes w ++ [""])%list
                                   (handles w ++ [(length (inodes w), 0%nat)])%list w)
  end.

Definition write_handle (h : nat) (data : string) (w : world) : world :=
  match handles w !! h with
  | Some (i, off) =>
    set_files (names w) (alter (write_at off data) i (inodes w)) (<[h := (i, (off + strlen data)%nat)]> (handles w)) w
  | None => w
  end.

(** No response and no file has 2^56 bytes. *)
Definition small (n : Z) : Prop := 0 <= n < 2 ^ 56.
Definition small_response (r : response) : Prop :=
  match r with Response _ _ len b => small (Z.of_nat (strlen (body_bytes b))) /\ len < 2 ^ 56 | _ => True end.

Definition does (c : call) (w : world) : answer c -> world -> Prop :=
  match c with
  | GetStatus => fun a w' => a = status w /\ w' = w
  | SetStatus fn => fun _ w' => exists now1 now2, w' = set_world_status (setUpdateStatus (fn now1) now2 (status w)) w
  | NewContext => fun a w' => a = length (contexts w) /\ w' = set_contexts (contexts w ++ [false])%list w
  | SetCancel c => fun _ w' => w' = set_world_cancel c w
  | GetCancel => fun a w' => a = updateCancel w /\ w' = w
  | Cancel ctx => fun _ w' => w' = set_contexts (<[ctx := true]> (contexts w)) w
  | CtxErr ctx => fun a w' => a = (if default false (contexts w !! ctx) then Some Canceled else None) /\ w' = w
  | Go _ _ _ _ _ => fun _ w' => w' = w
  | JSON code info => fun _ w' => w' = set_replies (replies w ++ [(code, info)])%list w
  | DetectMihomoHTTPProxy _ => fun _ w' => w' = w
  | RankProxiesBySpeed proxies _ => fun a w' => a ≡ₚ proxies /\ w' = w
  | Get _ url => fun a w' => small_response a /\ w' = set_served (served w ++ [(url, a)])%list w
  | Executable | EvalSymlinks _ | Getwd => fun _ w' => w' = w
  | OpenTrunc path => fun a w' =>
      match a with inl _ => w' = w | inr h => (h, w') = open_trunc path w end
  | Write h data => fun a w' =>
      (a.1 <= strlen data)%nat /\ (a.1 < strlen data -> is_Some a.2)%nat /\
      w' = write_handle h (of_chars (take a.1 (chars data))) w
  | Stat path => fun a w' =>
      w' = w /\ (forall n, a = Some n -> small n /\ exists s, content w path = Some s /\ n = Z.of_nat (strlen s))
  | Remove path => fun _ w' => w' = w \/ w' = set_files (delete path (names w)) (inodes w) (handles w) w
  | Chmod _ => fun _ w' => w' = w
  | WriteScript s => fun a w' => match a with inl _ => w' = w | inr p => w' = set_scripts (<[p := s]> (scripts w)) w end
  | Start p => fun a w' =>
      match a with
      | Some _ => w' = w
      | None => exists s, scripts w !! p = Some s /\ w' = set_launched (launched w ++ [(s, content w (NEW_BIN s))])%list w
      end
  end.

(** * The status under every interleaving *)

Definition states : list string := ["idle"; "starting"; "downloading"; "installing"; "restarting"; "failed"; "canceled"].

Record settable (s : UpdateDownloadStatus) : Prop := mkSettable {
  st_state : State s ∈ states; st_downloaded : small (Downloaded s); st_percent : 0 <= Percent s <= 100 }.

(** The percentage is the share of the total once that is known. *)
Record status_ok (s : UpdateDownloadStatus) : Prop := mkStatusOk {
  so_settable : settable s;
  so_share : 0 < Total s -> Percent s = Z.min 100 (Downloaded s * 100 / Total s) }.

Lemma setUpdateStatus_ok fn now s : settable (fn s) -> status_ok (setUpdateStatus fn now s).
Proof.
  intros [Hs Hd Hp]. unfold setUpdateStatus. set (t := with_UpdatedAt now (fn s)).
  assert (Ht : settable t) by by split.
  destruct (Z.ltb_spec 0 (Total t)) as [Hpos|Hneg]; [|split; [done|lia]].
  assert (Hw : i64 (Downloaded t * 100) = Downloaded t * 100).
  { apply swrap_id; [lia|]. change (Downloaded t) with (Downloaded (fn s)). unfold small in Hd. lia. }
  assert (Hq : 0 <= Downloaded t * 100 / Total t <= Downloaded t * 100).
  { change (small (Downloaded t)) in Hd. unfold small in Hd. split; [apply Z.div_pos; lia|]. apply Z.div_le_upper_bound; nia. }
  rewrite Hw, Z.quot_div_nonneg by (change (small (Downloaded t)) in Hd; unfold small in Hd; lia).
  rewrite swrap_id by (change (small (Downloaded t)) in Hd; unfold small in Hd; lia).
  assert (Hm : (if 100 <? Downloaded t * 100 / Total t then 100 else Downloaded t * 100 / Total t) =
               Z.min 100 (Downloaded t * 100 / Total t)) by (destruct (Z.ltb_spec 100 (Downloaded t * 100 / Total t)); lia).
  rewrite Hm. split; [|done]. split; [exact (st_state t Ht)|exact Hd|]. cbn [with_Percent Percent]. lia.
Qed.

Definition shown (w : world) : Prop := status_ok (status w).
Abbreviation Keeps p := (keeps does shown p).

Definition quiet (c : call) : bool := match c with SetStatus _ => false | _ => true end.

Lemma quiet_status c w a w' : quiet c = true -> does c w a w' -> status w' = status w.
Proof.
  destruct c; intros Hq Hd; cbn in Hd; try discriminate; try (by destruct_and?; subst).
  - destruct a; [by subst|]. unfold open_trunc in Hd. destruct (names w !! path); by injection Hd as _ ->.
  - destruct Hd as (_ & _ & ->). unfold write_handle. by destruct (handles w !! file) as [[i off]|].
  - by destruct Hd as [->| ->].
  - destruct a; by subst.
  - destruct a; [by subst|]. by destruct Hd as (s & _ & ->).
Qed.

Lemma keeps_quiet {B} c (f : answer c -> prog B) : quiet c = true ->
  (forall w a w', does c w a w' -> Keeps (f a)) -> Keeps (invoke c ≫= f).
Proof.
  intros Hq Hf. apply keeps_call. intros w a w' HI Hd. split; [|by eapply Hf].
  unfold shown. by rewrite (quiet_status c w a w').
Qed.
Lemma keeps_last c : quiet c = true -> Keeps (invoke c).
Proof. intros Hq. apply keeps_perform. intros w a w' HI Hd. unfold shown. by rewrite (quiet_status c w a w'). Qed.

Lemma keeps_set fn : (forall now s, status_ok s -> settable (fn now s)) -> Keeps (invoke (SetStatus fn)).
Proof. intros Hf. apply keeps_perform. intros w a w' HI (n1 & n2 & ->). by apply setUpdateStatus_ok, Hf. Qed.
Lemma keeps_set_status fn : (forall s, status_ok s -> settable (fn s)) -> Keeps (set_status fn).
Proof. intros Hf. by apply keeps_set. Qed.

(** A change of the status that is settable by computation. *)
Ltac settable :=
  intros; match goal with H : status_ok ?s |- _ => destruct H as [[? ? ?] _] end;
  repeat case_match;
  lazymatch goal with |- settable _ => split; cbn end;
  lazymatch goal with
  | |- _ ∈ states => first [assumption | apply (bool_decide_unpack _); vm_compute; exact Logic.I]
  | |- _ => first [assumption | unfold small in *; lia]
  end.

Lemma keeps_downloaded size (H : small size) : Keeps (set_status (downloaded_ok size)).
Proof. unfold downloaded_ok. apply keeps_set_status. settable. Qed.

Lemma keeps_stat {B} path (f : option Z -> prog B) : (forall size, small size -> Keeps (f (Some size))) -> Keeps (f None) ->
  Keeps (invoke (Stat path) ≫= f).
Proof.
  intros Hs Hn. apply keeps_quiet; [done|]. intros w a w' [_ Ha]. destruct a as [size|]; [|done].
  by apply Hs, (Ha size).
Qed.

(** Walks through a program whose changes of the status are settable. *)
Ltac keep_all :=
  repeat match goal with
  | |- keeps _ _ (mret _) => apply keeps_ret
  | |- keeps _ _ (set_status (downloaded_ok _)) => by apply keeps_downloaded
  | |- keeps _ _ (set_status (downloaded_ok _) ≫= _) => apply keeps_bind; [by apply keeps_downloaded|intros ?]
  | |- keeps _ _ (set_status _) => apply keeps_set_status; settable
  | |- keeps _ _ (invoke (Stat _) ≫= _) => apply keeps_stat; [intros ? ?|]
  | |- keeps _ _ (invoke (SetStatus _)) => apply keeps_set; settable
  | |- keeps _ _ (invoke _) => apply keeps_last; reflexivity
  | |- keeps _ _ (invoke (SetStatus _) ≫= _) => apply keeps_bind; [apply keeps_set; settable|intros ?]
  | |- keeps _ _ (invoke _ ≫= _) => apply keeps_quiet; [reflexivity|intros ? ? ? ?]
  | |- keeps _ _ (set_status _ ≫= _) => apply keeps_bind; [apply keeps_set_status; settable|intros ?]
  | |- keeps _ _ (match ?x with _ => _ end) => destruct x eqn:?
  end; auto with update.
Create HintDb update.

Lemma keeps_copy_read out data d k : 0 <= d -> d + Z.of_nat (strlen data) < 2 ^ 56 ->
  (forall d', d <= d' <= d + Z.of_nat (strlen data) -> Keeps (k d')) -> Keeps (copy_read out data d k).
Proof.
  intros Hd Hb Hk. unfold copy_read. case_bool_decide; [apply Hk; lia|].
  apply keeps_quiet; [done|]. intros w [written writeErr] w' (Hn & _ & _). cbn [fst] in Hn.
  rewrite swrap_id by lia.
  apply keeps_bind; [apply keeps_set_status; settable|]. intros _.
  destruct writeErr; [apply keeps_ret|]. destruct (negb _); [apply keeps_ret|]. apply Hk. lia.
Qed.

Lemma keeps_copy_body ctx out last fin l : forall d, 0 <= d ->
  d + Z.of_nat (strlen (concat_strings l +++ last)) < 2 ^ 56 -> Keeps (copy_body ctx out l last fin d).
Proof.
  assert (Hlen : forall s t, strlen (s +++ t) = (strlen s + strlen t)%nat).
  { intros s t. rewrite <- !length_chars, chars_append. apply length_app. }
  induction l as [|data l IH]; intros d Hd Hb; cbn [copy_body concat_strings fold_right] in *; rewrite !Hlen in Hb;
    (apply keeps_quiet; [done|]; intros w e w' _; destruct e; [apply keeps_ret|]);
    (apply keeps_copy_read; [done|cbn in Hb; lia|]; intros d' Hd').
  - apply keeps_ret.
  - apply IH; [lia|]. rewrite Hlen. unfold concat_strings. lia.
Qed.

Section Shown.
Context (version TempDir GOARCH : string) (pid : Z) (Args : list string).
Context (url_Parse : string -> option (string * string)).

Lemma keeps_version_client proxy url : Keeps (fetchLatestVersionWithClient proxy url).
Proof. unfold fetchLatestVersionWithClient. keep_all. Qed.
Lemma keeps_first_version urls : forall e, Keeps (first_version urls e).
Proof.
  induction urls as [|u urls IH]; intros e; cbn [first_version]; [apply keeps_ret|].
  apply keeps_bind; [apply keeps_version_client|]. intros r. keep_all.
Qed.
Lemma keeps_latest proxies : Keeps (getLatestVersionFromFile proxies).
Proof.
  unfold getLatestVersionFromFile. keep_all; repeat (apply keeps_bind; [|intros ?]);
    try apply keeps_ret; try apply keeps_first_version; try apply keeps_version_client.
  keep_all. apply keeps_bind; [apply keeps_first_version|intros; apply keeps_ret].
Qed.

Lemma keeps_changelog_client proxy url : Keeps (fetchChangelogWithClient proxy url).
Proof. unfold fetchChangelogWithClient. keep_all. Qed.
Lemma keeps_first_changelog urls : Keeps (first_changelog urls).
Proof.
  induction urls as [|u urls IH]; cbn [first_changelog]; [apply keeps_ret|].
  apply keeps_bind; [apply keeps_changelog_client|]. intros r. keep_all.
Qed.
Lemma keeps_changelog proxies : Keeps (getLatestChangelogFromFile proxies).
Proof.
  unfold getLatestChangelogFromFile. keep_all; try apply keeps_first_changelog.
  apply keeps_bind; [apply keeps_changelog_client|]. intros c. keep_all. apply keeps_first_changelog.
Qed.

(** The body a response has is small. *)
Lemma keeps_body ctx out text len code b w w' url :
  does (Get None url) w (Response code text len b) w' -> Keeps (copy_body ctx out (reads b) (last_read b) (last_error b) 0).
Proof.
  intros [[Hb _] _]. apply keeps_copy_body; [lia|]. unfold body_bytes, small in Hb. lia.
Qed.

Lemma keeps_client ctx proxy url path hint : Keeps (downloadFileWithClient ctx proxy url path hint).
Proof.
  unfold downloadFileWithClient. apply keeps_quiet; [done|]. intros w r w' Hr. destruct r as [e|e|code text len b]; [apply keeps_ret..|].
  keep_all. apply keeps_bind; [by eapply keeps_body|]. intros c. keep_all.
Qed.

Lemma keeps_attempt url original : Keeps (updateAttemptStatus url_Parse url original).
Proof. unfold updateAttemptStatus. apply keeps_set_status. settable. Qed.

Lemma keeps_lines ctx original path hint urls : forall e, Keeps (try_lines url_Parse ctx original path hint urls e).
Proof.
  induction urls as [|u urls IH]; intros e; cbn [try_lines]; [apply keeps_ret|].
  keep_all. apply keeps_bind; [apply keeps_attempt|]. intros _.
  apply keeps_quiet; [done|]. intros w1 r w2 Hr. destruct r as [e1|e1|code text len b]; [apply IH|keep_all|].
  keep_all. apply keeps_bind; [by eapply keeps_body|]. intros c. keep_all.
Qed.

Lemma keeps_download ctx url path hint proxies : Keeps (downloadFile url_Parse ctx url path hint proxies).
Proof.
  unfold downloadFile. keep_all; try apply keeps_lines.
  apply keeps_bind; [apply keeps_client|]. intros r. keep_all. apply keeps_lines.
Qed.

Lemma keeps_task ctx asset latest release proxies :
  Keeps (runUpdateTask TempDir GOARCH pid Args url_Parse ctx asset latest release proxies).
Proof.
  unfold runUpdateTask, fail_with, createTempUpdateScript. apply keeps_bind; [|intros; keep_all].
  keep_all. apply keeps_bind; [apply keeps_download|]. intros r. keep_all.
  apply keeps_bind; [keep_all|]. intros p. keep_all.
Qed.

Lemma keeps_request p : request version url_Parse p -> Keeps p.
Proof.
  unfold reply. intros [->|[[proxy ->]|[[proxy ->]| ->]]].
  - unfold UpdateStatusHandler, reply. keep_all.
  - unfold UpdateVersionHandler, reply. keep_all. apply keeps_bind; [apply keeps_latest|]. intros v. keep_all.
    apply keeps_bind; [apply keeps_changelog|]. intros c. keep_all.
  - unfold UpdateRunHandler, isUpdateBusy, reply. apply keeps_bind; [keep_all|]. intros b. keep_all.
    apply keeps_bind; [apply keeps_latest|]. intros v. keep_all.
  - unfold UpdateCancelHandler, reply. keep_all.
Qed.

(** whatever requests arrive and however handlers and download tasks
    interleave, the status of the update always has one of seven states, between
    0 and 2^56 bytes downloaded and a percentage between 0 and 100, which is the
    share of the total as soon as that is known. *)
Theorem update_status_ok (s : world * list (prog unit)) :
  reachable does (forks TempDir GOARCH pid Args url_Parse) (request version url_Parse) start s -> status_ok (status s.1).
Proof.
  intros Hs. apply (reachable_inv _ _ shown _ _ _ Hs).
  - split; [split; cbn; [apply (bool_decide_unpack _); vm_compute; exact Logic.I|unfold small; lia|lia]|cbn; lia].
  - apply keeps_request.
  - intros c p Hp. destruct c; cbn in Hp; try (by apply elem_of_nil in Hp). apply list_elem_of_singleton in Hp as ->.
    apply keeps_task.
Qed.

End Shown.

(** * A task nobody else disturbs *)

(** Files, scripts and launched scripts stay; responses may be added. *)
Record calm (w w' : world) : Prop := mkCalm {
  cm_names : names w' = names w; cm_inodes : inodes w' = inodes w; cm_handles : handles w' = handles w;
  cm_scripts : scripts w' = scripts w;
  cm_contexts : forall n, contexts w !! n = Some true -> contexts w' !! n = Some true; cm_launched : launched w' = launched w; cm_served : served w `prefix_of` served w' }.

(** What everybody else may do while the task runs. *)
Definition others (w w' : world) : Prop := calm w w' /\ State (status w') = State (status w).

#[export] Instance calm_preorder : PreOrder calm.
Proof. split; [by intros w; split|]. intros w1 w2 w3 [] []. split; try congruence; [auto|by etrans]. Qed.
#[export] Instance others_preorder : PreOrder others.
Proof. split; [by intros w; split|]. intros w1 w2 w3 [] []. split; [by etrans|congruence]. Qed.

Definition calm_call (c : call) : bool :=
  match c with OpenTrunc _ | Write _ _ | Remove _ | WriteScript _ | Start _ => false | _ => true end.

Lemma calm_does c w a w' : calm_call c = true -> does c w a w' -> calm w w'.
Proof.
  destruct c; intros Hq Hd; cbn in Hd; try discriminate;
    repeat match goal with H : exists _, _ |- _ => destruct H | H : _ /\ _ |- _ => destruct H end;
    subst; split; try done; try (by apply prefix_app_r).
  - intros n Hn. cbn. by apply lookup_app_l_Some.
  - intros n Hn. cbn. destruct (decide (ctx = n)) as [->|]; [|by rewrite list_lookup_insert_ne].
    by rewrite list_lookup_insert_eq by (by eapply lookup_lt_Some).
Qed.

(** Every name has a file. *)
Definition files_ok (w : world) : Prop := forall p i, names w !! p = Some i -> is_Some (inodes w !! i).

(** What the others keep, a program may rely on through calm calls. *)
Definition stable (P : world -> Prop) : Prop := forall w w', calm w w' -> P w -> P w'.

Lemma wpr_calm {B} (P : world -> Prop) c (f : answer c -> prog B) Q w : calm_call c = true -> stable P -> P w ->
  (forall w1 a w2, P w1 -> does c w1 a w2 -> P w2 -> wpr does others (f a) Q w2) -> wpr does others (invoke c ≫= f) Q w.
Proof.
  intros Hc HP Hw Hf. apply wpr_call. intros w1 a w2 [Hr _] Hd.
  assert (P w1) by by eapply HP. eapply Hf; [done|exact Hd|]. eapply HP; [by eapply calm_does|done].
Qed.

Lemma wpr_calm_last (P : world -> Prop) c (Q : answer c -> world -> Prop) w : calm_call c = true -> stable P -> P w ->
  (forall a w', P w' -> Q a w') -> wpr does others (invoke c) Q w.
Proof.
  intros Hc HP Hw HQ. apply wpr_perform. intros w1 a w2 w3 [H1 _] Hd [H3 _]. apply HQ.
  eapply HP; [exact H3|]. eapply HP; [by eapply calm_does|]. by eapply HP.
Qed.

Lemma wpr_done {A} (P : world -> Prop) (a : A) (Q : A -> world -> Prop) w : stable P -> P w ->
  (forall w', P w' -> Q a w') -> wpr does others (mret a) Q w.
Proof. intros HP Hw HQ. apply wpr_ret. intros w' [Hr _]. apply HQ. by eapply HP. Qed.

Lemma wpr_seq {A B} (p : prog A) (f : A -> prog B) (Q' : A -> world -> Prop) Q w :
  wpr does others p Q' w -> (forall a w', Q' a w' -> wpr does others (f a) Q w') -> wpr does others (p ≫= f) Q w.
Proof. intros Hp Hf. apply wpr_bind; [exact _|]. eapply wpr_mono; [|exact Hp]. exact Hf. Qed.

Section Copying.
Context (tmp : string) (L : list (update_script * option string)) (X : string * response).

(** The task writes to the file [i] of the temporary name, [s] so far. *)
Record writing (out i : nat) (s : string) (w : world) : Prop := mkWriting {
  wr_handle : handles w !! out = Some (i, strlen s); wr_inode : inodes w !! i = Some s; wr_name : names w !! tmp = Some i;
  wr_launched : launched w = L; wr_served : X ∈ served w; wr_ok : files_ok w }.

Definition quiet_so_far (w : world) : Prop := launched w = L /\ files_ok w.
Lemma writing_quiet out i s w : writing out i s w -> quiet_so_far w.
Proof. by intros []. Qed.

Lemma writing_stable out i s : stable (writing out i s).
Proof.
  intros w w' [Hn Hi Hh Hs _ Hl [v Hv]] []. split; try congruence.
  - rewrite Hv. apply elem_of_app. by left.
  - unfold files_ok. by rewrite Hn, Hi.
Qed.
Lemma quiet_stable : stable quiet_so_far.
Proof. intros w w' [Hn Hi _ _ _ Hl _] [H1 H2]. split; [congruence|]. unfold files_ok. by rewrite Hn, Hi. Qed.
Hint Resolve writing_stable quiet_stable : core.

Lemma write_at_end data s : write_at (strlen s) data s = s +++ data.
Proof.
  apply chars_inj. unfold write_at. rewrite chars_of_chars, chars_append, Nat.sub_diag. cbn [replicate app].
  rewrite take_ge, drop_ge by (rewrite length_chars; lia). by rewrite app_nil_r.
Qed.

Lemma strlen_append s t : strlen (s +++ t) = (strlen s + strlen t)%nat.
Proof. rewrite <- !length_chars, chars_append. apply length_app. Qed.

Lemma write_writing out i s data w : writing out i s w -> writing out i (s +++ data) (write_handle out data w).
Proof.
  intros [Hh Hi Hn Hl Hv Hok]. unfold write_handle. rewrite Hh. split; cbn; try done.
  - rewrite list_lookup_insert_eq by (by eapply lookup_lt_Some). by rewrite strlen_append.
  - rewrite list_lookup_alter_eq, Hi. cbn. by rewrite write_at_end.
  - intros p j Hj. cbn in *. apply lookup_lt_is_Some. rewrite length_alter. by apply lookup_lt_is_Some, (Hok p).
Qed.

Lemma all_chars n data : n = strlen data -> of_chars (take n (chars data)) = data.
Proof. intros ->. rewrite take_ge by (by rewrite length_chars). apply of_chars_chars. Qed.

(** The result of a copy: an error, or everything was written. *)
Definition copy_post (out i : nat) (s : string) (fin : option error) (c : copied) (w : world) : Prop :=
  quiet_so_far w /\ (c = Copied None -> fin = None /\ writing out i s w).

Lemma copy_post_failed out i s fin c w : writing out i s w -> c <> Copied None -> forall t, copy_post out i t fin c w.
Proof. intros Hw Hc t. split; [by eapply writing_quiet|]. by intros ?. Qed.

Lemma copy_post_stable out i s fin c : stable (copy_post out i s fin c).
Proof. intros w w' Hc [Hq Hw]. split; [by eapply quiet_stable|]. intros H. split; [by apply Hw|]. eapply writing_stable; [done|by apply Hw]. Qed.

Lemma wpr_copy_read out i s data d k fin t w : writing out i s w ->
  (forall d' w', writing out i (s +++ data) w' -> wpr does others (k d') (copy_post out i t fin) w') ->
  wpr does others (copy_read out data d k) (copy_post out i t fin) w.
Proof.
  intros Hw Hk. unfold copy_read. case_bool_decide as Hd.
  - apply Hk. subst. assert (s +++ "" = s) as -> by (apply chars_inj; by rewrite chars_append, app_nil_r). done.
  - apply (wpr_call does others (Write out data)). intros w1 [n writeErr] w2 [Hr _] (Hn & Herr & ->). cbn [fst snd] in *.
    assert (Hw1 : writing out i s w1) by by eapply writing_stable.
    pose proof (write_writing out i s (of_chars (take n (chars data))) w1 Hw1) as Hw2.
    eapply (wpr_calm _ (SetStatus _)); [done|apply (writing_stable out i)|exact Hw2|]. intros _ _ w3 _ _ Hw3.
    destruct writeErr as [e|]; [by eapply wpr_done; [apply (writing_stable out i)|exact Hw3|]; intros; eapply copy_post_failed|].
    destruct (Nat.eqb_spec n (strlen data)) as [->|Hne]; cbn [negb].
    + rewrite all_chars in Hw3 by done. by apply Hk.
    + eapply wpr_done; [apply (writing_stable out i)|exact Hw3|]. intros. by eapply copy_post_failed.
Qed.

Lemma wpr_copy_body ctx out i last fin l : forall s d w, writing out i s w ->
  wpr does others (copy_body ctx out l last fin d) (copy_post out i (s +++ concat_strings l +++ last) fin) w.
Proof.
  induction l as [|data l IH]; intros s d w Hw; cbn [copy_body concat_strings fold_right];
    (eapply (wpr_calm _ (CtxErr ctx)); [done|apply (writing_stable out i)|exact Hw|]; intros _ e w' _ _ Hw';
     destruct e as [e|]; [eapply wpr_done; [apply (writing_stable out i)|exact Hw'|]; intros; by eapply copy_post_failed|]);
    (eapply wpr_copy_read; [exact Hw'|]); intros d' w1 Hw1.
  - eapply wpr_done; [apply (writing_stable out i)|exact Hw1|]. intros w2 Hw2. split; [by eapply writing_quiet|]. intros [= ->].
    by split.
  - specialize (IH (s +++ data) d' w1 Hw1). by rewrite !append_assoc in IH |- *.
Qed.

(** The file is there, with the bytes of a response. *)
Lemma open_writing h w w' : quiet_so_far w -> X ∈ served w -> (h, w') = open_trunc tmp w ->
  exists i, writing h i "" w'.
Proof.
  intros [HL Hok] HX. unfold open_trunc. destruct (names w !! tmp) as [i|] eqn:Hi; intros [= -> ->].
  - exists i. destruct (Hok tmp i Hi) as [old Hold]. split; cbn; try done.
    + by rewrite lookup_app_r, Nat.sub_diag by lia.
    + rewrite list_lookup_insert_eq; [done|by eapply lookup_lt_Some].
    + intros p j Hj. apply lookup_lt_is_Some. cbn. rewrite length_insert. by apply lookup_lt_is_Some, (Hok p).
  - exists (length (inodes w)). split; cbn; try done.
    + by rewrite lookup_app_r, Nat.sub_diag by lia.
    + by rewrite lookup_app_r, Nat.sub_diag by lia.
    + by rewrite lookup_insert_eq.
    + intros p j Hj. cbn in *. apply lookup_lt_is_Some. rewrite length_app. cbn.
      apply lookup_insert_Some in Hj as [[_ <-]|[_ Hj]]; [lia|]. apply Hok, lookup_lt_is_Some in Hj. lia.
Qed.

End Copying.

Section Task.
Context (version TempDir GOARCH : string) (pid : Z) (Args : list string).
Context (url_Parse : string -> option (string * string)).
Context (tmp : string) (L : list (update_script * option string)).

(** A complete response of one of the lines is in the file. *)
Definition delivered (urls : list string) (w : world) : Prop :=
  exists u text len b, u ∈ urls /\ (u, Response 200 text len b) ∈ served w /\ last_error b = None /\ body_bytes b <> "" /\
    content w tmp = Some (body_bytes b).

Definition download_post (urls : list string) (r : option error) (w : world) : Prop :=
  quiet_so_far L w /\ (r = None -> delivered urls w).

Lemma delivered_stable urls : stable (delivered urls).
Proof.
  intros w w' [Hn Hi Hh Hs _ Hl [v Hv]] (u & text & len & b & Hu & Hb & He & Hne & Hc). exists u, text, len, b. split_and!; try done.
  - rewrite Hv. apply elem_of_app. by left.
  - unfold content in *. by rewrite Hn, Hi.
Qed.

Lemma download_failed urls e w : quiet_so_far L w -> wpr does others (mret (Some e)) (download_post urls) w.
Proof. intros Hw. eapply (wpr_done (quiet_so_far L)); [apply quiet_stable|done|]. intros w' Hw'. by split. Qed.

Lemma download_mono urls urls' r w : (forall u, u ∈ urls -> u ∈ urls') -> download_post urls r w -> download_post urls' r w.
Proof.
  intros Hsub [Hq Hd]. split; [done|]. intros Hr. destruct (Hd Hr) as (u & text & len & b & Hu & H). exists u, text, len, b.
  split; [by apply Hsub|done].
Qed.

(** From the response to the end of the copy, and from there to the check of the
    size: [k] is what the code does with the result of the copy. *)
Lemma wpr_fetch urls ctx u text len b fn (f : error + nat -> prog (option error)) (k : copied -> prog (option error)) w :
  u ∈ urls -> quiet_so_far L w -> (u, Response 200 text len b) ∈ served w ->
  (forall e, f (inl e) = mret (Some e)) ->
  (forall out, f (inr out) = (_ ← set_status fn; c ← copy_body ctx out (reads b) (last_read b) (last_error b) 0; k c)) ->
  (forall e w, quiet_so_far L w -> wpr does others (k (Returned e)) (download_post urls) w) ->
  (forall e w, quiet_so_far L w -> wpr does others (k (Copied (Some e))) (download_post urls) w) ->
  (forall w out i, writing tmp L (u, Response 200 text len b) out i (body_bytes b) w -> last_error b = None ->
     wpr does others (k (Copied None)) (download_post urls) w) ->
  wpr does others (invoke (OpenTrunc tmp) ≫= f) (download_post urls) w.
Proof.
  intros Hu Hq HX Hinl Hinr Hret Herr Hok. apply (wpr_call does others (OpenTrunc tmp)). intros w1 a w2 [Hr _] Hd.
  assert (Hq1 : quiet_so_far L w1) by by eapply quiet_stable.
  assert (HX1 : (u, Response 200 text len b) ∈ served w1).
  { destruct Hr as [_ _ _ _ _ _ [v ->]]. apply elem_of_app. by left. }
  destruct a as [e|out]; cbn in Hd.
  - subst. rewrite Hinl. by apply download_failed.
  - rewrite Hinr. destruct (open_writing tmp L _ out w1 w2 Hq1 HX1 Hd) as [i Hi].
    eapply (wpr_calm _ (SetStatus _)); [done|apply (writing_stable tmp L (u, Response 200 text len b) out i)|exact Hi|]. intros _ _ w3 _ _ Hw3.
    eapply wpr_seq; [apply (wpr_copy_body tmp L (u, Response 200 text len b) ctx out i), Hw3|]. intros c w4 [Hq4 Hc4].
    destruct c as [e|[e|]]; [by apply Hret|by apply Herr|]. destruct (Hc4 eq_refl) as [Hfin Hw4].
    apply (Hok w4 out i); [exact Hw4|done].
Qed.

(** The check of the size and the last change of the status. *)
Lemma wpr_check urls u text len b out i (k : prog (option error)) w :
  u ∈ urls -> writing tmp L (u, Response 200 text len b) out i (body_bytes b) w -> last_error b = None ->
  (forall w, quiet_so_far L w -> wpr does others k (download_post urls) w) ->
  wpr does others (info ← invoke (Stat tmp);
     match info with
     | Some size => if size <=? 0 then k else _ ← set_status (downloaded_ok size); mret None
     | None => k
     end) (download_post urls) w.
Proof.
  intros Hu Hw Hfin Hk.
  eapply (wpr_calm _ (Stat tmp)); [done|apply (writing_stable tmp L (u, Response 200 text len b) out i)|exact Hw|]. intros w1 a w2 Hw1 [-> Ha] _.
  destruct a as [size|]; [|by eapply Hk, writing_quiet].
  destruct (Z.leb_spec size 0); [by eapply Hk, writing_quiet|].
  destruct (Ha size eq_refl) as (_ & s & Hs & ->).
  eapply (wpr_calm _ (SetStatus _)); [done|apply (writing_stable tmp L (u, Response 200 text len b) out i)|exact Hw1|]. intros _ _ w3 _ _ Hw3.
  eapply wpr_done; [apply (writing_stable tmp L (u, Response 200 text len b) out i)|exact Hw3|]. intros w4 Hw4.
  split; [by eapply writing_quiet|]. intros _. destruct Hw4 as [Hh Hi Hn HL HX _]. destruct Hw1 as [_ Hi1 Hn1 _ _ _].
  assert (Hc : content w1 tmp = Some (body_bytes b)) by (unfold content; rewrite Hn1; exact Hi1).
  rewrite Hc in Hs. injection Hs as <-.
  exists u, text, len, b. split_and!; try done.
  - intros He. rewrite He in *. cbn in *. lia.
  - unfold content. rewrite Hn. exact Hi.
Qed.

Hint Resolve quiet_stable download_failed : core.

(** A calm call in the quiet part, then the rest. *)
Tactic Notation "quiet_call" constr(c) "as" ident(a) :=
  eapply (wpr_calm (quiet_so_far L) c); [reflexivity|apply quiet_stable|eassumption|]; intros ? a ? ? ? ?; cbn [answer] in a.

(** A request, of which the rest knows the response. *)
Lemma wpr_get {A} proxy u (f : response -> prog A) Q w : quiet_so_far L w ->
  (forall r w', quiet_so_far L w' -> (u, r) ∈ served w' -> wpr does others (f r) Q w') ->
  wpr does others (invoke (Get proxy u) ≫= f) Q w.
Proof.
  intros Hw Hf. apply (wpr_call does others (Get proxy u)). intros w1 r w2 [Hr _] Hd. apply Hf.
  - eapply quiet_stable; [by eapply (calm_does (Get proxy u))|]. by eapply quiet_stable.
  - destruct Hd as [_ ->]. apply elem_of_app. right. by apply list_elem_of_singleton.
Qed.

Lemma wpr_client urls ctx proxy u hint w : u ∈ urls -> quiet_so_far L w ->
  wpr does others (downloadFileWithClient ctx proxy u tmp hint) (download_post urls) w.
Proof.
  intros Hu Hw. unfold downloadFileWithClient. apply wpr_get; [done|]. intros r w1 Hw1 HX.
  destruct r as [e|e|code text len b]; [auto..|].
  destruct (Z.eqb_spec code 200) as [->|]; cbn [negb]; [|auto].
  eapply (wpr_fetch urls ctx u text len b); [exact Hu|exact Hw1|exact HX|reflexivity|intros out; reflexivity|intros; by apply download_failed|intros; by apply download_failed|].
  intros w2 out i Hi Hfin. eapply wpr_check; [exact Hu|exact Hi|exact Hfin|]. intros; by apply download_failed.
Qed.

Lemma wpr_lines urls0 ctx u0 hint urls : (forall u, u ∈ urls -> u ∈ urls0) -> forall e w, quiet_so_far L w ->
  wpr does others (try_lines url_Parse ctx u0 tmp hint urls e) (download_post urls0) w.
Proof.
  intros Hsub. induction urls as [|u urls IH]; intros e w Hw; cbn [try_lines]; [auto|].
  assert (Hu : u ∈ urls0) by (apply Hsub; left). assert (Hsub' : forall v, v ∈ urls -> v ∈ urls0) by (intros; apply Hsub; by right).
  specialize (IH Hsub'). quiet_call (CtxErr ctx) as a. destruct a as [e1|]; [auto|].
  quiet_call (SetStatus (fun _ s => with_Percent 0 (with_Downloaded 0 (with_line
    (match url_Parse u with Some (_, host) => if bool_decide (host = match url_Parse u0 with Some (_, host) => host | None => "" end) then "直连" else "代理" | None => "代理" end)
    (match url_Parse u with Some (_, host) => host | None => Domain (with_Msg "正在下载更新文件" (with_State "downloading" s)) end) u
    (with_Msg "正在下载更新文件" (with_State "downloading" s)))))) as d1.
  apply wpr_get; [done|]. intros r w5 Hw5 HX. destruct r as [e1|e1|code text len b]; [auto| |].
  - quiet_call (CtxErr ctx) as a. destruct a as [d|]; [auto|]. quiet_call (SetStatus (fun _ => with_Msg "当前线路 3 秒内未连上或连接失败，正在尝试下一线路")) as d0. auto.
  - destruct (Z.eqb_spec code 200) as [->|]; cbn [negb].
    + eapply (wpr_fetch urls0 ctx u text len b); [exact Hu|exact Hw5|exact HX|reflexivity|intros out; reflexivity|intros; by apply download_failed| |].
      * intros e1 w6 Hw6. quiet_call (SetStatus (fun _ => with_Msg "当前线路下载中断，正在尝试下一线路")) as d0. auto.
      * intros w6 out i Hi Hfin. eapply wpr_check; [exact Hu|exact Hi|exact Hfin|]. auto.
    + eapply (wpr_calm (quiet_so_far L) (SetStatus _)); [done|apply quiet_stable|done|]. auto.
Qed.

Lemma addURL_elem urls u v : v ∈ addURL urls u <-> v ∈ urls \/ v = u.
Proof. unfold addURL. case_bool_decide; [split; [by left|by intros [?| ->]]|by rewrite elem_of_app, list_elem_of_singleton]. Qed.

Lemma original_tried u proxies : u ∈ buildUpdateTryURLs u proxies.
Proof. unfold buildUpdateTryURLs. apply addURL_elem. by right. Qed.

(** The lines of a download: the order of the proxies is the environment's. *)
Definition lines_of (downloadURL : string) (proxies : list string) (u : string) : Prop :=
  exists ranked, ranked ≡ₚ proxies /\ u ∈ buildUpdateTryURLs downloadURL ranked.

Definition task_delivered (downloadURL : string) (proxies : list string) (w : world) : Prop :=
  exists u text len b, lines_of downloadURL proxies u /\ (u, Response 200 text len b) ∈ served w /\ last_error b = None /\
    body_bytes b <> "" /\ content w tmp = Some (body_bytes b).

Lemma wpr_download ctx u hint proxies w : quiet_so_far L w ->
  wpr does others (downloadFile url_Parse ctx u tmp hint proxies)
    (fun r w => quiet_so_far L w /\ (r = None -> task_delivered u proxies w)) w.
Proof.
  intros Hw.
  assert (Hlines : forall ranked r w, ranked ≡ₚ proxies -> download_post (buildUpdateTryURLs u ranked) r w ->
    quiet_so_far L w /\ (r = None -> task_delivered u proxies w)).
  { intros ranked r w' Hp [Hq Hd]. split; [done|]. intros Hr. destruct (Hd Hr) as (v & text & len & b & Hv & H).
    exists v, text, len, b. split; [by exists ranked|done]. }
  assert (Hall : forall e w, quiet_so_far L w ->
    wpr does others (ranked ← invoke (RankProxiesBySpeed proxies u); try_lines url_Parse ctx u tmp hint (buildUpdateTryURLs u ranked) e)
      (fun r w => quiet_so_far L w /\ (r = None -> task_delivered u proxies w)) w).
  { intros e w' Hw'. eapply (wpr_calm (quiet_so_far L) (RankProxiesBySpeed proxies u)); [done|apply quiet_stable|done|].
    intros w1 ranked w2 _ [Hp _] Hw2. eapply wpr_mono; [|apply (wpr_lines (buildUpdateTryURLs u ranked)); [auto|done]].
    intros r w3. by apply Hlines. }
  unfold downloadFile. quiet_call (DetectMihomoHTTPProxy u) as a. destruct a as [proxyURL|]; [|by apply Hall].
  eapply (wpr_calm (quiet_so_far L) (SetStatus _)); [done|apply quiet_stable|done|]. intros _ _ w3 _ _ Hw3.
  eapply wpr_seq; [by apply (wpr_client (buildUpdateTryURLs u proxies)); [apply original_tried|]|].
  intros r w4 Hd. destruct r as [e|].
  - destruct Hd as [Hq _]. quiet_call (CtxErr ctx) as a. destruct a as [d|].
    + lazymatch goal with H : does (CtxErr ctx) ?v (Some d) ?v' |- _ => rename H into Hdone, v into w1', v' into w2' end.
      assert (Hs : stable (fun w => quiet_so_far L w /\ contexts w !! ctx = Some true)).
      { intros v v' Hc [Hv1 Hv2]. split; [by eapply quiet_stable|by apply (cm_contexts _ _ Hc)]. }
      assert (Hcan : contexts w2' !! ctx = Some true).
      { cbn in Hdone. destruct Hdone as [Hdone ->]. by destruct (contexts w1' !! ctx) as [[]|]. }
      eapply (wpr_calm (fun w => quiet_so_far L w /\ contexts w !! ctx = Some true) (CtxErr ctx)); [done|exact Hs|by split|]. intros w7 d' w8 [_ Hcan7] [-> ->] [Hq8 _]. rewrite Hcan7.
      eapply (wpr_done (quiet_so_far L)); [apply quiet_stable|exact Hq8|]. by split.
    + eapply (wpr_calm (quiet_so_far L) (SetStatus _)); [done|apply quiet_stable|done|]. auto.
  - destruct Hd as [Hq Hd]. eapply (wpr_done (fun w => quiet_so_far L w /\ delivered (buildUpdateTryURLs u proxies) w)).
    + intros v v' Hc [Hv1 Hv2]. split; [by eapply quiet_stable|by eapply delivered_stable].
    + split; [done|by apply Hd].
    + intros w5 [H5 H6]. apply (Hlines proxies None w5); [done|]. by split.
Qed.

(** What the task leaves behind: no script, or one whose new binary is a complete
    response; and the state that tells which. *)
Definition task_post (downloadURL : string) (proxies : list string) (w : world) : Prop :=
  (launched w = L /\ State (status w) ∈ ["failed"; "canceled"]) \/
  (State (status w) = "restarting" /\ exists s u text len b,
     launched w = (L ++ [(s, Some (body_bytes b))])%list /\ NEW_BIN s = tmp /\ lines_of downloadURL proxies u /\
     (u, Response 200 text len b) ∈ served w /\ last_error b = None /\ body_bytes b <> "").

Lemma task_delivered_stable u proxies : stable (task_delivered u proxies).
Proof.
  intros w w' [Hn Hi Hh Hs _ Hl [v Hv]] (u1 & text & len & b & Hu & Hb & He & Hne & Hc). exists u1, text, len, b. split_and!; try done.
  - rewrite Hv. apply elem_of_app. by left.
  - unfold content in *. by rewrite Hn, Hi.
Qed.

(** A last change of the state, after which the others keep it. *)
Lemma wpr_final (P : world -> Prop) (Q : world -> Prop) fn v w : stable P -> P w ->
  (forall now s, State (fn now s) = v) -> (forall w', P w' -> State (status w') = v -> Q w') ->
  wpr does others (invoke (SetStatus fn)) (fun _ => Q) w.
Proof.
  intros HP Hw Hfn HQ. apply wpr_perform. intros w1 a w2 w3 [H1 _] Hd [H3 Hst]. apply HQ.
  - eapply HP; [exact H3|]. eapply HP; [by eapply (calm_does (SetStatus fn))|]. by eapply HP.
  - rewrite Hst. destruct Hd as (n1 & n2 & ->). cbn. unfold setUpdateStatus. destruct (0 <? _); cbn; apply Hfn.
Qed.

Definition failed_post (w : world) : Prop := launched w = L /\ State (status w) ∈ ["failed"; "canceled"].

Lemma wpr_fail text w : quiet_so_far L w -> wpr does others (fail_with text) (fun _ => failed_post) w.
Proof.
  intros Hw. eapply (wpr_final (quiet_so_far L) _ _ "failed"); [apply quiet_stable|done|done|].
  intros w' [HL _] Hst. split; [done|]. rewrite Hst. left.
Qed.

(** The last call of the task. *)
Lemma wpr_clear (Q : world -> Prop) w : (forall w w', others w w' -> Q w -> Q w') -> Q w ->
  wpr does others (invoke (SetCancel None)) (fun _ => Q) w.
Proof.
  intros HQ Hw. apply wpr_perform. intros w1 a w2 w3 H1 Hd H3. eapply HQ; [exact H3|]. cbn in Hd. subst.
  eapply HQ; [|eapply HQ; [exact H1|done]]. by split.
Qed.

Lemma task_post_others u proxies w w' : others w w' -> task_post u proxies w -> task_post u proxies w'.
Proof.
  intros [[Hn Hi Hh Hs _ Hl [v Hv]] Hst] [[HL H]|[H (s & u1 & text & len & b & HL & Hb & Hu & HX & He & Hne)]].
  - left. split; [congruence|]. by rewrite Hst.
  - right. split; [congruence|]. exists s, u1, text, len, b. split_and!; try done; [congruence|].
    rewrite Hv. apply elem_of_app. by left.
Qed.

Lemma wpr_refused u proxies (p : prog unit) w : wpr does others p (fun _ => failed_post) w ->
  wpr does others p (fun _ => task_post u proxies) w.
Proof. apply wpr_mono. intros _ w'. by left. Qed.

(** A failed download: the state tells why, the file is removed. *)
Lemma wpr_download_failed e w : quiet_so_far L w ->
  wpr does others (_ ← set_status (fun s => if is_canceled e then with_Percent 0 (with_Msg "用户已取消下载" (with_State "canceled" s))
                                            else with_Msg ("下载新版本失败: " +++ Error e) (with_State "failed" s));
                   invoke (Remove tmp)) (fun _ => failed_post) w.
Proof.
  intros Hw. apply (wpr_seq _ _ (fun _ => failed_post)).
  - eapply (wpr_final (quiet_so_far L) _ _ (if is_canceled e then "canceled" else "failed")); [apply quiet_stable|done| |].
    + intros _ s. by destruct (is_canceled e).
    + intros w' [HL _] Hst. split; [done|]. rewrite Hst. destruct (is_canceled e); [right; left|left].
  - intros _ w' [HL Hst]. apply wpr_perform. intros w1 a w2 w3 [H1 Hs1] Hd [H3 Hs3].
    assert (launched w2 = launched w1 /\ status w2 = status w1) as [HL2 Hs2] by by destruct Hd as [->| ->].
    split; [by rewrite (cm_launched _ _ H3), HL2, (cm_launched _ _ H1)|by rewrite Hs3, Hs2, Hs1].
Qed.

(** The script is written and started. *)
Lemma wpr_launch currentBin log u proxies releaseURL w : quiet_so_far L w /\ task_delivered u proxies w ->
  wpr does others (p ← createTempUpdateScript pid Args currentBin tmp log;
    match p with
    | inl e => fail_with ("创建临时更新脚本失败: " +++ Error e)
    | inr scriptPath =>
      st ← invoke (Start scriptPath);
      match st with
      | Some e => fail_with ("启动临时更新脚本失败: " +++ Error e)
      | None => set_status (fun s =>
          with_ReleaseURL releaseURL (with_Percent 100 (with_Msg "更新文件已准备完成，程序即将重启" (with_State "restarting" s))))
      end
    end) (fun _ => task_post u proxies) w.
Proof.
  set (P := fun w => quiet_so_far L w /\ task_delivered u proxies w).
  assert (HP : stable P).
  { intros v v' Hc [H1 H2]. split; [by eapply quiet_stable|by eapply task_delivered_stable]. }
  intros Hw. unfold createTempUpdateScript.
  apply (wpr_seq _ _ (fun r w => P w /\ match r with inr p => exists s, scripts w !! p = Some s /\ NEW_BIN s = tmp | inl _ => True end)).
  - eapply (wpr_calm P Getwd); [done|exact HP|exact Hw|]. intros w1 wd w2 _ _ Hw2. refine (wpr_perform does others (WriteScript _) _ _ _).
    intros w3 a w4 w5 [H3 _] Hd [H5 _]. pose proof (HP _ _ H3 Hw2) as HP3. cbn in Hd. destruct a as [e|p].
    + subst. split; [by eapply HP|done].
    + split; [eapply HP; [exact H5|subst; exact HP3]|]. rewrite (cm_scripts _ _ H5). subst. cbn. eexists.
      by rewrite lookup_insert_eq.
  - intros r w1 [HP1 Hs]. destruct r as [e|p]; [apply wpr_refused, wpr_fail, HP1|]. destruct Hs as (s & Hs & Hbin).
    apply (wpr_call does others (Start p)). intros w2 st w3 [H2 _] Hd. pose proof (HP _ _ H2 HP1) as [[HL Hok] Hdel].
    cbn in Hd. destruct st as [e|]; [subst; apply wpr_refused, wpr_fail; by split|].
    destruct Hd as (s' & Hs' & ->). rewrite (cm_scripts _ _ H2), Hs in Hs'. injection Hs' as <-.
    destruct Hdel as (v & text & len & b & Hv & HX & He & Hne & Hc).
    set (P' := fun w => launched w = (L ++ [(s, Some (body_bytes b))])%list /\ (v, Response 200 text len b) ∈ served w).
    eapply (wpr_final P' _ _ "restarting").
    + intros x x' [_ _ _ _ _ Hl [z Hz]] [H1 H4]. split; [congruence|]. rewrite Hz. apply elem_of_app. by left.
    + split; cbn; [by rewrite HL, Hbin, Hc|done].
    + done.
    + intros w' [H1 H4] Hst. right. split; [done|]. exists s, v, text, len, b. done.
Qed.
End Task.

Section Installing.
Context (version TempDir GOARCH : string) (pid : Z) (Args : list string).
Context (url_Parse : string -> option (string * string)).

Lemma wpr_task ctx asset latest release proxies w : files_ok w ->
  let tmp := tmpNewBin TempDir GOARCH latest in
  wpr does others (runUpdateTask TempDir GOARCH pid Args url_Parse ctx asset latest release proxies)
    (fun _ => task_post tmp (launched w) (BrowserDownloadURL asset) proxies) w.
Proof.
  intros Hok tmp. set (L := launched w). assert (Hw : quiet_so_far L w) by by split.
  unfold runUpdateTask. fold tmp. apply (wpr_seq _ _ (fun _ => task_post tmp L (BrowserDownloadURL asset) proxies)).
  - eapply (wpr_calm (quiet_so_far L) Executable); [done|apply quiet_stable|done|]. intros _ exe w1 _ _ Hw1.
    destruct exe as [e|exe]; [by apply wpr_refused, wpr_fail|].
    eapply (wpr_calm (quiet_so_far L) (EvalSymlinks exe)); [done|apply quiet_stable|done|]. intros _ bin w2 _ _ Hw2.
    destruct bin as [e|bin]; [by apply wpr_refused, wpr_fail|].
    eapply wpr_seq; [by apply (wpr_download url_Parse tmp L)|]. intros r w3 [Hw3 Hd].
    destruct r as [e|]; [by apply wpr_refused, wpr_download_failed|].
    assert (HP : stable (fun w => quiet_so_far L w /\ task_delivered tmp (BrowserDownloadURL asset) proxies w)).
    { intros v v' Hc [H1 H2]. split; [by eapply quiet_stable|by eapply task_delivered_stable]. }
    eapply (wpr_calm _ (Chmod tmp)); [done|exact HP|by split; [|apply Hd]|]. intros _ c w4 _ _ Hw4.
    cbv beta in Hw4. destruct c as [e|]; [apply wpr_refused, wpr_fail, Hw4|]. exact (wpr_launch pid Args tmp L bin _ _ _ _ _ Hw4).
  - intros _ w1 Hw1. apply wpr_clear; [apply task_post_others|done].
Qed.

(** ** The handlers while a task is busy *)

Lemma others_call {B} w0 c (f : answer c -> prog B) : calm_call c && quiet c = true ->
  (forall w a w', others w0 w -> does c w a w' -> keeps does (others w0) (f a)) -> keeps does (others w0) (invoke c ≫= f).
Proof.
  intros [Hc Hq]%andb_true_iff Hf. apply keeps_call. intros w a w' Hw Hd. split; [|by eapply Hf].
  etrans; [exact Hw|]. split; [by eapply calm_does|]. by rewrite (quiet_status c w a w').
Qed.
Lemma others_last w0 c : calm_call c && quiet c = true -> keeps does (others w0) (invoke c).
Proof.
  intros [Hc Hq]%andb_true_iff. apply keeps_perform. intros w a w' Hw Hd. etrans; [exact Hw|].
  split; [by eapply calm_does|]. by rewrite (quiet_status c w a w').
Qed.
Lemma others_msg w0 text : keeps does (others w0) (set_status (with_Msg text)).
Proof.
  apply keeps_perform. intros w a w' Hw Hd. etrans; [exact Hw|]. split; [by eapply (calm_does (SetStatus _))|].
  destruct Hd as (n1 & n2 & ->). cbn. unfold setUpdateStatus. by destruct (0 <? _).
Qed.

Ltac others_all :=
  repeat match goal with
  | |- keeps _ _ (mret _) => apply keeps_ret
  | |- keeps _ _ (set_status (with_Msg _)) => apply others_msg
  | |- keeps _ _ (set_status (with_Msg _) ≫= _) => apply keeps_bind; [apply others_msg|intros ?]
  | |- keeps _ _ (invoke _) => apply others_last; reflexivity
  | |- keeps _ _ (invoke _ ≫= _) => apply others_call; [reflexivity|intros ? ? ? ? ?]
  | |- keeps _ _ (match ?x with _ => _ end) => destruct x eqn:?
  end; auto.

Lemma others_version_client w0 proxy url : keeps does (others w0) (fetchLatestVersionWithClient proxy url).
Proof. unfold fetchLatestVersionWithClient. others_all. Qed.
Lemma others_first_version w0 urls : forall e, keeps does (others w0) (first_version urls e).
Proof.
  induction urls as [|u urls IH]; intros e; cbn [first_version]; [apply keeps_ret|].
  apply keeps_bind; [apply others_version_client|]. intros r. others_all.
Qed.
Lemma others_latest w0 proxies : keeps does (others w0) (getLatestVersionFromFile proxies).
Proof.
  unfold getLatestVersionFromFile. others_all; apply keeps_bind;
    try apply others_first_version; try apply others_version_client; intros r; others_all.
  apply keeps_bind; [apply others_first_version|intros; apply keeps_ret].
Qed.
Lemma others_changelog_client w0 proxy url : keeps does (others w0) (fetchChangelogWithClient proxy url).
Proof. unfold fetchChangelogWithClient. others_all. Qed.
Lemma others_first_changelog w0 urls : keeps does (others w0) (first_changelog urls).
Proof.
  induction urls as [|u urls IH]; cbn [first_changelog]; [apply keeps_ret|].
  apply keeps_bind; [apply others_changelog_client|]. intros r. others_all.
Qed.
Lemma others_changelog w0 proxies : keeps does (others w0) (getLatestChangelogFromFile proxies).
Proof.
  unfold getLatestChangelogFromFile. others_all; try apply others_first_changelog.
  apply keeps_bind; [apply others_changelog_client|]. intros c. others_all. apply others_first_changelog.
Qed.

(** A handler that starts while the state is busy leaves the task alone. *)
Lemma handler_calm p w0 : busy (State (status w0)) = true -> request version url_Parse p -> keeps does (others w0) p.
Proof.
  intros Hb [->|[[proxy ->]|[[proxy ->]| ->]]].
  - unfold UpdateStatusHandler, reply. others_all.
  - unfold UpdateVersionHandler, reply. others_all. apply keeps_bind; [apply others_latest|]. intros v. others_all.
    apply keeps_bind; [apply others_changelog|]. intros c. others_all.
  - unfold UpdateRunHandler, isUpdateBusy, reply. apply keeps_call. intros w a w' Hw [-> ->]. split; [done|].
    assert (Hbw : busy (State (status w)) = true) by by rewrite (proj2 Hw).
    cbn [mbind prog_bind mret prog_ret]. rewrite Hbw. others_all.
  - unfold UpdateCancelHandler, reply. others_all.
Qed.

(** C14: as long as nobody else touches its state, its file and its scripts, a task
    starts the update script only after it has written the complete body of a
    response with status 200, to one of its lines and not empty, to the file the
    script installs; it starts one script at most, and when it is done the state
    is restarting exactly if it did, and failed or canceled otherwise.  A handler
    that begins while the state is busy leaves the task alone in this sense; two
    that have both found the state idle do not ([two_tasks] below): they start two
    tasks on the same file, of which nothing is claimed here. *)
Theorem update_installs_complete (ctx : nat) (asset : GithubAsset) (latest release : string) (proxies : list string) (w : world) :
  files_ok w ->
  wpr does others (runUpdateTask TempDir GOARCH pid Args url_Parse ctx asset latest release proxies)
    (fun _ => task_post (tmpNewBin TempDir GOARCH latest) (launched w) (BrowserDownloadURL asset) proxies) w /\
  (forall p w0, busy (State (status w0)) = true -> request version url_Parse p -> keeps does (others w0) p).
Proof. intros Hok. split; [by apply wpr_task|]. intros p w0. apply handler_calm. Qed.

End Installing.

Lemma update_installs_complete_witness :
  files_ok start /\
  wpr does others (runUpdateTask "/tmp" "arm64" 1 [] (fun _ => None) 0 (updateAssetForVersion "v1.2") "v1.2" updateReleaseURL PROXIES)
    (fun _ => task_post "/tmp/webssh_arm64_v1.2.new" []
       "https://github.com/Jack-bin183/WebSSH-u60pro/releases/latest/download/webssh_v1.2" PROXIES) start.
Proof.
  assert (H : files_ok start) by (intros p i Hp; change (names start) with (∅ : gmap string nat) in Hp; by rewrite lookup_empty in Hp).
  split; [exact H|].
  exact (proj1 (update_installs_complete "dev" "/tmp" "arm64" 1 [] (fun _ => None) 0 (updateAssetForVersion "v1.2") "v1.2" updateReleaseURL PROXIES start H)).
Defined.

(** * Two tasks at once *)

(** The check for a running task and the change of the state are two critical
    sections with a request in between: two handlers start two tasks, which write
    the same file. *)
Definition a_request : prog unit := UpdateRunHandler "v1" (fun _ => Some ("https", "p")) (Some "p").
Definition a_task (ctx : nat) : prog unit :=
  runUpdateTask "/tmp" "arm64" 1 [] (fun _ => Some ("https", "p")) ctx (updateAssetForVersion "v2") "v2" updateReleaseURL ["https://p/"].
Definition v2_response : response := Response 200 "200 OK" 2 (mkBody [] "v2" None).

(** Thread [i] performs the call [c], with answer [a]. *)
Ltac thread_call i c a tac :=
  eapply rtc_l; [eapply (step_call does _ _ _ _ i c _ a); [reflexivity|tac]|]; cbn [app list_insert insert].
(** A thread that has passed the check starts its task with context [n]. *)
Ltac starts_task i n :=
  thread_call i (DetectMihomoHTTPProxy updateVersionFileURL) (@None string) ltac:(reflexivity);
  eapply rtc_l; [eapply (step_call does _ _ _ _ i (Get _ _) _ v2_response);
    [reflexivity|split; [split; [split|]; vm_compute; congruence|reflexivity]]|]; cbn [app list_insert insert];
  eapply rtc_l; [eapply (step_call does _ _ _ _ i (SetStatus _) _ tt); [reflexivity|exists "", ""; reflexivity]|];
  cbn [app list_insert insert];
  thread_call i NewContext n ltac:(split; reflexivity);
  thread_call i (SetCancel (Some n)) tt ltac:(reflexivity);
  eapply rtc_l; [eapply (step_call does _ _ _ _ i (Go _ _ _ _ _) _ tt); [reflexivity|reflexivity]|]; cbn [app list_insert insert].

Lemma two_tasks : exists s,
  reachable does (forks "/tmp" "arm64" 1 [] (fun _ => Some ("https", "p"))) (request "v1" (fun _ => Some ("https", "p"))) start s /\
  s.2 !! 2%nat = Some (a_task 0) /\ s.2 !! 3%nat = Some (a_task 1).
Proof.
  eexists. split.
  - unfold reachable.
    do 2 (eapply rtc_l; [apply (step_request _ _ _ _ _ a_request); right; right; left; by eexists|cbn [app]]).
    thread_call 0%nat GetStatus idle_status ltac:(split; reflexivity).
    thread_call 1%nat GetStatus idle_status ltac:(split; reflexivity).
    starts_task 0%nat 0%nat.
    starts_task 1%nat 1%nat.
    apply rtc_refl.
  - split; reflexivity.
Qed.

Lemma update_status_ok_witness : exists s,
  reachable does (forks "/tmp" "arm64" 1 [] (fun _ => Some ("https", "p"))) (request "v1" (fun _ => Some ("https", "p"))) start s /\
  s.2 !! 3%nat = Some (a_task 1) /\ status_ok (status s.1).
Proof.
  destruct two_tasks as (s & Hs & _ & Ht). exists s. split; [exact Hs|]. split; [exact Ht|].
  exact (update_status_ok "v1" "/tmp" "arm64" 1 [] (fun _ => Some ("https", "p")) s Hs).
Defined.

(** * Where the new binary goes *)

Lemma safe_no_slash v : isSafeUpdateVersion v = true -> slash ∉ chars v.
Proof.
  unfold isSafeUpdateVersion. intros [_ Hv]%andb_true_iff Hs. eapply forallb_forall in Hv; [|by apply list_elem_of_In].
  by vm_compute in Hv.
Qed.

Lemma join_slashed segs name : chars (path_of segs +++ "/" +++ name) = slashed (segs ++ [name])%list.
Proof.
  unfold path_of, slashed. rewrite !chars_append, chars_of_chars, fmap_app, join_app. cbn [fmap list_fmap mjoin list_join].
  by rewrite app_nil_r.
Qed.

Lemma path_Join_name segs name : segs <> [] -> Forall segment segs -> segment name ->
  path_Join [path_of segs; name] = path_of (segs ++ [name])%list.
Proof.
  intros Hne Hs Hn. assert (Hall : Forall segment (segs ++ [name])%list) by (apply Forall_app; auto).
  assert (Hne' : (segs ++ [name] <> [])%list) by by destruct segs.
  rewrite path_Join_two; [|by apply path_not_empty|by destruct Hn].
  rewrite (Clean_pieces _ (tail (slashed (segs ++ [name])%list)) (chars <$> (segs ++ [name])%list)).
  - rewrite of_chars_segments, filter_segments; done.
  - rewrite join_slashed. by destruct segs.
  - by apply split_tail.
  - rewrite of_chars_segments. by apply segments_pieces.
  - by rewrite of_chars_segments, filter_segments.
Qed.

(** The versions the handlers work with. *)
Definition good_version (r : error + string) : Prop :=
  match r with inr v => isSafeUpdateVersion v = true /\ v <> "" | inl _ => True end.

Section Versions.
Context (R : world -> world -> Prop) `{!PreOrder R}.

Lemma version_client_good proxy url w : wpr does R (fetchLatestVersionWithClient proxy url) (fun r _ => good_version r) w.
Proof.
  unfold fetchLatestVersionWithClient. apply (wpr_call does R (Get proxy url)). intros w1 r w2 _ _. apply wpr_ret. intros w' _.
  destruct r as [e|e|code text len b]; [done..|]. destruct (negb _); [done|]. destruct (ReadAll_limited _ b) as [e|data]; [done|].
  cbv zeta. case_bool_decide; [done|]. by destruct (isSafeUpdateVersion (TrimSpace data)) eqn:Hv.
Qed.
Lemma first_version_good urls : forall e w, wpr does R (first_version urls e) (fun r _ => good_version r) w.
Proof.
  induction urls as [|u urls IH]; intros e w; cbn [first_version]; [by apply wpr_ret|].
  apply wpr_bind; [exact _|]. eapply wpr_mono; [|apply version_client_good]. intros [e1|v] w1 Hv; [apply IH|by apply wpr_ret].
Qed.
Lemma latest_good proxies w : wpr does R (getLatestVersionFromFile proxies) (fun r _ => good_version r) w.
Proof.
  unfold getLatestVersionFromFile. apply (wpr_call does R (DetectMihomoHTTPProxy _)). intros w1 p w2 _ _.
  assert (Hl : forall wrap e w, (forall r, good_version r -> good_version (wrap r)) ->
    wpr does R (r ← first_version (buildUpdateTryURLs updateVersionFileURL proxies) e; mret (wrap r)) (fun r _ => good_version r) w).
  { intros wrap e w' Hwrap. apply wpr_bind; [exact _|]. eapply wpr_mono; [|apply first_version_good].
    intros r w3 Hr. apply wpr_ret. auto. }
  destruct p as [proxyURL|].
  - apply wpr_bind; [exact _|]. eapply wpr_mono; [|apply version_client_good]. intros [e|v] w3 Hv; [|by apply wpr_ret].
    apply Hl. by intros [e1|v] ?.
  - apply Hl. by intros [e1|v] ?.
Qed.
End Versions.

(** whatever a server answers, a version that a handler goes on with consists of
    letters, digits, dots, underscores and dashes, and the file the task then
    writes lies directly in the directory for temporary files, under its own
    prefix. *)
Theorem update_target_safe (proxies : list string) (w : world) (dirs : list string) (arch : string) :
  dirs <> [] -> Forall segment dirs -> slash ∉ chars arch ->
  wpr does (fun _ _ => True) (getLatestVersionFromFile proxies)
    (fun r _ => match r with
                | inr v => isSafeUpdateVersion v = true /\
                    tmpNewBin (path_of dirs) arch v = path_of (dirs ++ ["webssh_" +++ arch +++ "_" +++ v +++ ".new"])%list
                | inl _ => True
                end) w.
Proof.
  intros Hne Hs Ha. eapply wpr_mono; [|apply latest_good; split; done]. intros [e|v] _ Hv; [done|]. destruct Hv as [Hv _].
  split; [done|]. apply path_Join_name; [done|done|]. split_and!; [done..|]. pose proof (safe_no_slash v Hv).
  rewrite !chars_append, !elem_of_app. intros [Hx|[Hx|[Hx|[Hx|Hx]]]]; try done;
    apply (bool_decide_eq_true_2 _) in Hx; by vm_compute in Hx.
Qed.

Lemma update_target_safe_witness :
  wpr does (fun _ _ => True) (getLatestVersionFromFile PROXIES)
    (fun r _ => match r with
                | inr v => isSafeUpdateVersion v = true /\
                    tmpNewBin "/var/tmp" "arm64" v = path_of ["var"; "tmp"; "webssh_" +++ "arm64" +++ "_" +++ v +++ ".new"]
                | inl _ => True
                end) start.
Proof.
  apply (update_target_safe PROXIES start ["var"; "tmp"] "arm64"); [done| |].
  - apply (bool_decide_unpack _). vm_compute. exact Logic.I.
  - apply (bool_decide_unpack _). vm_compute. exact Logic.I.
Defined.
