(* ===== verification/Proxies.v ===== *)
(** The proxies the service downloads through:
    [src/gossh/app/service/mihomo.go], lines 40 to 488, and
    [mihomo_connectivity.go].

    A local proxy is looked up in the configuration of the proxy core and tried;
    the public lines are ranked by measured speed; both answers are cached.
    Theorems: a detected proxy is a port of this machine that has answered a probe; a ranking loses no line,
    adds none and puts the measured ones first.  The update of the service relies
    on the second (module [Update], call [RankProxiesBySpeed]). *)

From S2P Require Import Prelude GoInt GoFloat GoStrings GoSort Threads Update.
From stdpp Require Import gmap strings.
Open Scope string_scope.
Open Scope Z_scope.

Definition second : Z := 10 ^ 9.
Definition mihomoProxyCacheTTL : Z := 60 * second.
Definition mihomoProxyMissCacheTTL : Z := 15 * second.
Definition proxyRankCacheTTL : Z := 60 * second.
Definition proxyProbeMaxBytes : nat := Z.to_nat (100 * 1024).

Definition mihomoProxies : list string :=
  ["https://v6.gh-proxy.org/"; "https://ghfast.top/"; "https://gh-proxy.com/"; "https://ghproxy.net/"; "https://gh.llkk.cc/";
   "https://hub.gitmirror.com/"; "https://gh-proxy.org/"].

(** * Ports of the configuration *)

(** The loop; [head] is the text before, in reverse. *)
Fixpoint strip_loop (head l : list ascii) (inSingle inDouble : bool) : list ascii :=
  match l with
  | [] => rev head
  | r :: l =>
    if ord r =? 39 then strip_loop (r :: head) l (if inDouble then inSingle else negb inSingle) inDouble
    else if ord r =? 34 then strip_loop (r :: head) l inSingle (if inSingle then inDouble else negb inDouble)
    else if (ord r =? 35) && negb inSingle && negb inDouble then rev head
    else strip_loop (r :: head) l inSingle inDouble
  end.
Definition stripMihomoInlineComment (s : string) : string := TrimSpace (of_chars (strip_loop [] (chars s) false false)).

Definition is_quote (c : ascii) : bool := (ord c =? 34) || (ord c =? 39).
Definition line_port (trim key : string) : list (Z * string) :=
  let prefix := key +++ ":" in
  if HasPrefix trim prefix then
    match Atoi (TrimFunc is_quote (TrimSpace (TrimPrefix trim prefix))) with Some port => [(port, key)] | None => [] end
  else [].
Definition line_ports (line : string) : list (Z * string) :=
  let trim := stripMihomoInlineComment (TrimSpace line) in
  if bool_decide (trim = "") then [] else (line_port trim "mixed-port" ++ line_port trim "port")%list.
(** Of the text of the file, [None] if it cannot be read. *)
Definition parseMihomoHTTPProxyPorts (data : option string) : list (Z * string) :=
  match data with Some data => flat_map line_ports (Split1 data (chr 10)) | None => [] end.

Record mihomoHTTPProxyCandidate := mkCandidate { URL : string; Source : string }.
Definition port_url (port : Z) : string := "http://127.0.0.1:" +++ Itoa port.

(** The closure [add], on the ports seen and the candidates. *)
Definition add_port (acc : list Z * list mihomoHTTPProxyCandidate) (p : Z * string) : list Z * list mihomoHTTPProxyCandidate :=
  let '(seen, candidates) := acc in
  let '(port, source) := p in
  if (port <=? 0) || (65535 <? port) then acc
  else if bool_decide (port ∈ seen) then acc
  else (port :: seen, (candidates ++ [mkCandidate (port_url port) source])%list).
Definition mihomoHTTPProxyCandidates (config : option string) : list mihomoHTTPProxyCandidate :=
  (fold_left add_port (parseMihomoHTTPProxyPorts config ++ [(7890, "default"); (7891, "default")])%list ([], [])).2.

(** * Ranking *)

(** Of a probe: the line, its speed in bytes per second, whether it counts. *)
Record result := mkResult { proxy : string; bps : float64; ok : bool }.

(** The order of [sort.SliceStable], which insertion sort is an instance of. *)
Definition faster (x y : result) : bool := fltb (bps y) (bps x).
Fixpoint indexOf (proxies : list string) (s : string) : nat :=
  match proxies with [] => O | p :: l => if bool_decide (p = s) then O else S (indexOf l s) end.
Definition earlier (proxies : list string) (x y : result) : bool := (indexOf proxies (proxy x) <? indexOf proxies (proxy y))%nat.

Definition rank (proxies : list string) (out : list result) : list string :=
  let good := filter (fun r => ok r = true) out in
  let bad := filter (fun r => ok r = false) out in
  (map proxy (insertion_sort faster good) ++ map proxy (insertion_sort (earlier proxies) bad))%list.

Definition cacheKey (proxies : list string) (probeURL : string) : string := GoStrings.Join proxies "|" +++ "::" +++ probeURL.

(** [Duration.Seconds]. *)
Definition Seconds (d : Z) : float64 := fadd (f_of_Z (Z.quot d second)) (fdiv (f_of_Z (Z.rem d second)) (f_of_Z second)).

(** * Programs *)

Record proxyCache := mkCache { c_url : string; c_found : bool; c_expiresAt : Z }.

Inductive call : Type :=
| Now | ReadConfig
| Get (proxy : option string) (url : string)
| ProxyCacheGet | ProxyCacheSet (c : proxyCache)
| RankCacheGet (key : string) | RankCacheSet (key : string) (ranked : list string) (expiresAt : Z)
| Arrival (l : list result).     (** the order in which goroutines put results into a channel *)

Definition answer (c : call) : Type :=
  match c with
  | Now => Z
  | ReadConfig => option string
  | Get _ _ => response
  | ProxyCacheGet => proxyCache
  | RankCacheGet _ => option (list string * Z)
  | Arrival _ => list result
  | _ => unit
  end.

Abbreviation prog := (@Threads.prog call answer).
Abbreviation invoke := (@perform call answer).

Definition probeMihomoHTTPProxy (proxyURL probeURL : string) : prog bool :=
  r ← invoke (Get (Some proxyURL) probeURL);
  mret match r with
       | Response code _ _ b =>
         if negb (code =? 200) && negb (code =? 206) then false
         else match ReadAll_limited 1024 b with inr data => negb (bool_decide (data = "")) | inl _ => false end
       | _ => false
       end.

Fixpoint first_candidate (candidates : list mihomoHTTPProxyCandidate) (probeURL : string) : prog (option string) :=
  match candidates with
  | [] => mret None
  | candidate :: candidates =>
    ok ← probeMihomoHTTPProxy (URL candidate) probeURL;
    if ok : bool then mret (Some (URL candidate)) else first_candidate candidates probeURL
  end.

(** The text and the flag it returns. *)
Definition DetectMihomoHTTPProxy (probeURL : string) : prog (string * bool) :=
  let probeURL := TrimSpace probeURL in
  if bool_decide (probeURL = "") then mret ("", false)
  else
    now ← invoke Now;
    cache ← invoke ProxyCacheGet;
    if now <? c_expiresAt cache then mret (c_url cache, c_found cache)
    else
      config ← invoke ReadConfig;
      found ← first_candidate (mihomoHTTPProxyCandidates config) probeURL;
      now ← invoke Now;
      match found with
      | Some url => _ ← invoke (ProxyCacheSet (mkCache url true (now + mihomoProxyCacheTTL))); mret (url, true)
      | None => _ ← invoke (ProxyCacheSet (mkCache "" false (now + mihomoProxyMissCacheTTL))); mret ("", false)
      end.

(** The speed, [None] for an error; a copy that breaks off counts what it read. *)
Definition probeProxySpeed (proxy originalURL : string) : prog (option float64) :=
  let proxy := TrimSpace proxy in
  if bool_decide (proxy = "") then mret None
  else
    let proxy := if HasSuffix proxy "/" then proxy else proxy +++ "/" in
    start ← invoke Now;
    r ← invoke (Get None (proxy +++ originalURL));
    match r with
    | Response code _ _ b =>
      if negb (code =? 200) && negb (code =? 206) then mret None
      else
        let n := Nat.min proxyProbeMaxBytes (strlen (body_bytes b)) in
        now ← invoke Now;
        let elapsed := Seconds (now - start) in
        mret (if (n =? 0)%nat || fleb elapsed (f_of_Z 0) then None else Some (fdiv (f_of_Z (Z.of_nat n)) elapsed))
    | _ => mret None
    end.

(** The goroutines share nothing but the channel: they run one after another here. *)
Fixpoint probe_all (proxies : list string) (probeURL : string) : prog (list result) :=
  match proxies with
  | [] => mret []
  | p :: proxies =>
    s ← probeProxySpeed p probeURL;
    let r := match s with Some bps => mkResult p bps (fltb (f_of_Z 0) bps) | None => mkResult p (f_of_Z 0) false end in
    l ← probe_all proxies probeURL;
    mret (r :: l)
  end.

(** Measuring and remembering. *)
Definition rank_now (proxies : list string) (probeURL key : string) : prog (list string) :=
  l ← probe_all proxies probeURL;
  out ← invoke (Arrival l);
  let ranked := rank proxies out in
  now ← invoke Now;
  _ ← invoke (RankCacheSet key ranked (now + proxyRankCacheTTL));
  mret ranked.

Definition RankProxiesBySpeed (proxies : list string) (probeURL : string) : prog (list string) :=
  if (length proxies <=? 1)%nat then mret proxies
  else
    let key := cacheKey proxies probeURL in
    e ← invoke (RankCacheGet key);
    match e with
    | Some (ranked, expiresAt) =>
      now ← invoke Now; if now <? expiresAt then mret ranked else rank_now proxies probeURL key
    | None => rank_now proxies probeURL key
    end.

(** [MihomoConnectivityHandler]: whether some local proxy reaches the target
    before the time is over; the answers arrive in any order. *)
Inductive probe_event := Answered (status : option Z) | TimeOver.
Fixpoint checkMihomoConnectivity (candidates : nat) (events : list probe_event) : bool :=
  match candidates, events with
  | S n, Answered status :: events => if bool_decide (status = Some 204) then true else checkMihomoConnectivity n events
  | _, _ => false
  end.

(** * The world *)

(** [gets] are the requests made so far with their answers. *)
Record world := mkWorld { clock : Z; cache : proxyCache; ranks : gmap string (list string * Z); gets : list (option string * string * response) }.
Definition start : world := mkWorld 0 (mkCache "" false 0) ∅ [].

Definition does (c : call) (w : world) : answer c -> world -> Prop :=
  match c with
  | Now => fun a w' => clock w <= a /\ w' = mkWorld a (cache w) (ranks w) (gets w)
  | ReadConfig => fun _ w' => w' = w
  | Get p url => fun a w' => w' = mkWorld (clock w) (cache w) (ranks w) (gets w ++ [(p, url, a)])
  | ProxyCacheGet => fun a w' => a = cache w /\ w' = w
  | ProxyCacheSet c => fun _ w' => w' = mkWorld (clock w) c (ranks w) (gets w)
  | RankCacheGet key => fun a w' => a = ranks w !! key /\ w' = w
  | RankCacheSet key ranked t => fun _ w' => w' = mkWorld (clock w) (cache w) (<[key := (ranked, t)]> (ranks w)) (gets w)
  | Arrival l => fun a w' => a ≡ₚ l /\ w' = w
  end.

(** * Facts *)

(** ** Ports *)

Definition valid_port (p : Z) : Prop := 1 <= p <= 65535.

Lemma add_port_spec l : forall seen candidates ports, (forall p, p ∈ seen <-> p ∈ ports) -> NoDup ports ->
  URL <$> candidates = port_url <$> ports -> Forall valid_port ports ->
  exists ports', URL <$> (fold_left add_port l (seen, candidates)).2 = port_url <$> (ports ++ ports')%list /\
    NoDup (ports ++ ports')%list /\ Forall valid_port (ports ++ ports')%list /\
    forall p, p ∈ (ports ++ ports')%list <-> p ∈ ports \/ valid_port p /\ p ∈ l.*1.
Proof.
  induction l as [|[p source] l IH]; intros seen candidates ports Hseen Hnd Hurl Hval.
  - exists []. rewrite app_nil_r. split_and!; try done. intros p. split; [by left|]. by intros [?|[_ ?%elem_of_nil]].
  - cbn [fold_left add_port]. destruct ((p <=? 0) || (65535 <? p)) eqn:Hp.
    { assert (~ valid_port p) by (apply orb_true_iff in Hp as [?%Z.leb_le|?%Z.ltb_lt]; unfold valid_port; lia).
      destruct (IH seen candidates ports Hseen Hnd Hurl Hval) as (ports' & H1 & H2 & H3 & H4). exists ports'. split_and!; try done.
      intros q. rewrite H4. cbn [fmap list_fmap fst]. rewrite elem_of_cons. split; [tauto|]. intros [?|[? [->|?]]]; tauto. }
    assert (Hv : valid_port p) by (apply orb_false_iff in Hp as [?%Z.leb_gt ?%Z.ltb_ge]; unfold valid_port; lia).
    case_bool_decide as Hin.
    { destruct (IH seen candidates ports Hseen Hnd Hurl Hval) as (ports' & H1 & H2 & H3 & H4). exists ports'. split_and!; try done.
      intros q. rewrite H4. cbn [fmap list_fmap fst]. rewrite elem_of_cons. split; [tauto|].
      intros [?|[? [->|?]]]; [tauto|left; by apply Hseen|tauto]. }
    destruct (IH (p :: seen) (candidates ++ [mkCandidate (port_url p) source])%list (ports ++ [p])%list) as (ports' & H1 & H2 & H3 & H4).
    + intros q. rewrite elem_of_cons, elem_of_app, list_elem_of_singleton, Hseen. tauto.
    + apply NoDup_app. split_and!; [done| |apply NoDup_singleton]. intros q Hq ->%list_elem_of_singleton. by apply Hin, Hseen.
    + by rewrite !fmap_app, Hurl.
    + apply Forall_app. split; [done|]. by apply Forall_singleton.
    + rewrite <- app_assoc in *. exists (p :: ports'). split_and!; try done. intros q. rewrite H4. cbn [fmap list_fmap fst].
      rewrite elem_of_app, list_elem_of_singleton, elem_of_cons. split; [|tauto]. intros [[?| ->]|[? ?]]; tauto.
Qed.

Lemma candidates_spec config : exists ports, URL <$> mihomoHTTPProxyCandidates config = port_url <$> ports /\ NoDup ports /\
  forall p, p ∈ ports <-> valid_port p /\ p ∈ 7890 :: 7891 :: (parseMihomoHTTPProxyPorts config).*1.
Proof.
  destruct (add_port_spec (parseMihomoHTTPProxyPorts config ++ [(7890, "default"); (7891, "default")])%list [] [] [])
    as (ports & H1 & H2 & _ & H4); [done|constructor|done|constructor|].
  exists ports. split_and!; [done|done|]. intros p. rewrite (H4 p), fmap_app, elem_of_app, !elem_of_cons. cbn [fmap list_fmap fst].
  rewrite !elem_of_cons, elem_of_nil. tauto.
Qed.

(** ** Rankings *)

Lemma insert_sorted_Sorted {A} (less : A -> A -> bool) x l : (forall a b, less a b = true -> less b a = false) ->
  Sorted (fun a b => less b a = false) l -> Sorted (fun a b => less b a = false) (insert_sorted less x l).
Proof.
  intros Hasym. induction l as [|y l IH]; intros Hs; cbn [insert_sorted]; [repeat constructor|].
  destruct (less y x) eqn:E; [|by constructor; [|constructor]]. inversion_clear Hs as [|? ? Hl Hy]. constructor; [by apply IH|].
  destruct l as [|z l]; cbn [insert_sorted]; [constructor; by apply Hasym|]. destruct (less z x) eqn:Ez; constructor.
  - by inversion_clear Hy.
  - by apply Hasym.
Qed.
Lemma insertion_sort_Sorted {A} (less : A -> A -> bool) l : (forall a b, less a b = true -> less b a = false) ->
  Sorted (fun a b => less b a = false) (insertion_sort less l).
Proof. intros Ha. induction l as [|x l IH]; [constructor|]. by apply insert_sorted_Sorted. Qed.

Lemma Sorted_weaken {A} (R S : A -> A -> Prop) l : (forall a b, R a b -> S a b) -> Sorted R l -> Sorted S l.
Proof. intros HRS. induction 1 as [|x l _ IH Hx]; constructor; [done|]. destruct Hx; constructor. by apply HRS. Qed.

Lemma fltb_asym x y : fltb x y = true -> fltb y x = false.
Proof.
  unfold fltb, SFltb. destruct x as [s|s| |s m e], y as [s'|s'| |s' m' e']; cbn; try done;
    repeat match goal with |- context [if ?b then _ else _] => destruct b end; try done.
  all: rewrite ?(Z.compare_antisym e e'), ?(Pos.compare_antisym m m'); change (Pos.compare_cont Eq m m') with (m ?= m')%positive;
    change (Pos.compare_cont Eq m' m) with (m' ?= m)%positive; rewrite ?(Pos.compare_antisym m m');
    destruct (e ?= e'), (m ?= m')%positive; cbn; done.
Qed.

Lemma filter_split out : (filter (fun r => ok r = true) out ++ filter (fun r => ok r = false) out)%list ≡ₚ out.
Proof.
  induction out as [|r out IH]; [done|]. rewrite !filter_cons. destruct (ok r) eqn:E.
  - rewrite decide_True, decide_False by congruence. cbn [app]. by rewrite IH.
  - rewrite decide_False, decide_True by congruence. rewrite <- Permutation_middle. by rewrite IH.
Qed.

(** The parts of a ranking. *)
Definition ranked_parts (proxies : list string) (out good bad : list result) : Prop :=
  rank proxies out = proxy <$> (good ++ bad)%list /\ (good ++ bad)%list ≡ₚ out /\
  Forall (fun r => ok r = true) good /\ Forall (fun r => ok r = false) bad /\
  Sorted (fun x y => fltb (bps x) (bps y) = false) good /\
  Sorted (fun x y => (indexOf proxies (proxy x) <= indexOf proxies (proxy y))%nat) bad.

Lemma rank_parts proxies out : exists good bad, ranked_parts proxies out good bad.
Proof.
  exists (insertion_sort faster (filter (fun r => ok r = true) out)), (insertion_sort (earlier proxies) (filter (fun r => ok r = false) out)).
  split_and!.
  - unfold rank. by rewrite fmap_app.
  - rewrite !insertion_sort_perm. apply filter_split.
  - rewrite insertion_sort_perm. apply Forall_forall. by intros r [? _]%list_elem_of_filter.
  - rewrite insertion_sort_perm. apply Forall_forall. by intros r [? _]%list_elem_of_filter.
  - apply insertion_sort_Sorted. intros a b. apply fltb_asym.
  - eapply Sorted_weaken; [|apply (insertion_sort_Sorted (earlier proxies))].
    + intros a b Hab. cbv beta in Hab. unfold earlier in Hab. by apply Nat.ltb_ge.
    + intros a b Hab. unfold earlier in *. apply Nat.ltb_lt in Hab. apply Nat.ltb_ge. lia.
Qed.

Lemma rank_perm proxies out : proxy <$> out ≡ₚ proxies -> rank proxies out ≡ₚ proxies.
Proof.
  intros Hp. destruct (rank_parts proxies out) as (good & bad & -> & Hout & _). by rewrite Hout.
Qed.

(** ** Programs among others *)

(** A successful answer of a probe: status 200 or 206 and a body that begins with something. *)
Definition good_answer (r : response) : Prop :=
  exists code text len b data, r = Response code text len b /\ (code = 200 \/ code = 206) /\ ReadAll_limited 1024 b = inr data /\ data <> "".
Definition local (url : string) : Prop := exists p, valid_port p /\ url = port_url p.
(** The proxy has answered a probe, for this address or another. *)
Definition answered (w : world) (url : string) : Prop := exists probe r, (Some url, probe, r) ∈ gets w /\ good_answer r.

(** The caches hold what these programs put into them, and for no longer than they say. *)
Record caches_ok (w : world) : Prop := mkOk {
  ok_proxy : c_found (cache w) = true -> local (c_url (cache w)) /\ answered w (c_url (cache w));
  ok_expiry : c_expiresAt (cache w) <= clock w + if c_found (cache w) then mihomoProxyCacheTTL else mihomoProxyMissCacheTTL;
  ok_ranks : forall key ranked t, ranks w !! key = Some (ranked, t) -> ranked ≡ₚ mihomoProxies }.

(** What the other goroutines keep. *)
Definition rely (w w' : world) : Prop := (caches_ok w -> caches_ok w') /\ clock w <= clock w' /\ gets w ⊆ gets w'.
#[export] Instance rely_preorder : PreOrder rely.
Proof.
  split; [intros w; split_and!; [by intros H|lia|done]|]. intros w1 w2 w3 (H1 & L1 & G1) (H2 & L2 & G2).
  split_and!; [auto|lia|by etransitivity].
Qed.

Lemma answered_mono w w' url : gets w ⊆ gets w' -> answered w url -> answered w' url.
Proof. intros Hs (u & r & Hin & Hg). exists u, r. split; [by apply Hs|done]. Qed.

Lemma ok_got w p url a : caches_ok w -> caches_ok (mkWorld (clock w) (cache w) (ranks w) (gets w ++ [(p, url, a)])).
Proof.
  intros [H1 H2 H3]. split; [|done|done]. intros Hf. destruct (H1 Hf) as [Hl Ha]. split; [done|].
  eapply answered_mono; [|exact Ha]. intros x Hx. by apply elem_of_app; left.
Qed.
Lemma ok_later w t : clock w <= t -> caches_ok w -> caches_ok (mkWorld t (cache w) (ranks w) (gets w)).
Proof. intros Ht [H1 H2 H3]. split; [done| |done]. cbn. lia. Qed.

Lemma among_call {B} c (f : answer c -> prog B) Q w : caches_ok w ->
  (forall w1 a w2, caches_ok w1 -> does c w1 a w2 -> wpr does rely (f a) Q w2) -> wpr does rely (invoke c ≫= f) Q w.
Proof. intros Hw Hf. apply wpr_call. intros w1 a w2 (Hr & _) Hd. apply (Hf w1 a w2); [by apply Hr|done]. Qed.

Lemma among_ret {A} (a : A) (Q : A -> Prop) w : caches_ok w -> Q a ->
  wpr does rely (mret a) (fun a w' => caches_ok w' /\ Q a) w.
Proof. intros Hw HQ. apply wpr_ret. intros w' (Hr & _). split; [by apply Hr|done]. Qed.

Lemma among_seq {A B} (p : prog A) (f : A -> prog B) (Q' : A -> Prop) Q w :
  wpr does rely p (fun a w' => caches_ok w' /\ Q' a) w ->
  (forall a w', caches_ok w' -> Q' a -> wpr does rely (f a) Q w') -> wpr does rely (p ≫= f) Q w.
Proof. intros Hp Hf. apply wpr_bind; [exact _|]. eapply wpr_mono; [|exact Hp]. intros a w' [H1 H2]. by apply Hf. Qed.

(** The same with a fact that the others keep. *)
Definition stable (P : world -> Prop) : Prop := forall w w', rely w w' -> P w -> P w'.
Lemma stable_call (P : world -> Prop) {B} c (f : answer c -> prog B) Q w : stable P -> P w ->
  (forall w1 a w2, P w1 -> does c w1 a w2 -> wpr does rely (f a) Q w2) -> wpr does rely (invoke c ≫= f) Q w.
Proof. intros HP Hw Hf. apply wpr_call. intros w1 a w2 Hr Hd. apply (Hf w1 a w2); [by eapply HP|done]. Qed.
Lemma stable_ret (P : world -> Prop) {A} (a : A) w (Q : A -> world -> Prop) : stable P -> P w -> (forall w', P w' -> Q a w') ->
  wpr does rely (mret a) Q w.
Proof. intros HP Hw HQ. apply wpr_ret. intros w' Hr. apply HQ. by eapply HP. Qed.

(** The proxy has answered, and it is at least [t]. *)
Definition answered_by (url : option string) (t : Z) (w : world) : Prop :=
  caches_ok w /\ t <= clock w /\ match url with Some url => answered w url | None => True end.
Lemma answered_stable url t : stable (answered_by url t).
Proof.
  intros w w' (Hr & Hc & Hg) (H1 & H2 & H3). split_and!; [auto|lia|]. destruct url; [by eapply answered_mono|done].
Qed.

Lemma among_first candidates probeURL w : caches_ok w ->
  wpr does rely (first_candidate candidates probeURL)
    (fun r w' => caches_ok w' /\ forall url, r = Some url -> url ∈ URL <$> candidates /\ answered w' url) w.
Proof.
  revert w. induction candidates as [|c l IH]; intros w Hw; cbn [first_candidate].
  { apply wpr_ret. intros w' (Hr & _). split; [by apply Hr|done]. }
  unfold probeMihomoHTTPProxy. apply (among_call (Get (Some (URL c)) probeURL)); [done|]. intros w1 a w2 Hw1 Hd. cbn in Hd. subst w2.
  pose proof (ok_got w1 (Some (URL c)) probeURL a Hw1) as Hw2.
  cbn [mret prog_ret mbind prog_bind]. destruct (match a with Response code _ _ b => _ | _ => false end) eqn:Hok.
  - apply (stable_ret (answered_by (Some (URL c)) (clock w1))); [apply answered_stable|split_and!; [exact Hw2|done|]|].
    + exists probeURL, a. split; [cbn; set_solver|]. destruct a as [e|e|code text len b]; [done..|].
      destruct (negb (code =? 200) && negb (code =? 206)) eqn:Hc; [done|]. destruct (ReadAll_limited 1024 b) as [e|data] eqn:Hd; [done|].
      exists code, text, len, b, data. apply negb_true_iff, bool_decide_eq_false in Hok. split; [done|]. split; [|done].
      apply andb_false_iff in Hc as [Hc|Hc]; apply negb_false_iff, Z.eqb_eq in Hc; auto.
    + intros w' (Hw' & _ & Ha). split; [done|]. intros url [= <-]. split; [left|done].
  - eapply wpr_mono; [|by apply IH]. intros r w3 [H1 H2]. split; [done|]. intros url Hr.
    destruct (H2 url Hr). split; [by right|done].
Qed.

Lemma candidate_local config url : url ∈ URL <$> mihomoHTTPProxyCandidates config -> local url.
Proof.
  destruct (candidates_spec config) as (ports & -> & _ & Hp). intros (p & -> & Hin)%list_elem_of_fmap.
  exists p. split; [|done]. by apply Hp.
Qed.

(** What a detection reports. *)
Definition detected (r : string * bool) (w : world) : Prop := caches_ok w /\ (r.2 = true -> local r.1 /\ answered w r.1).

Lemma among_detect url w : caches_ok w -> wpr does rely (DetectMihomoHTTPProxy url) detected w.
Proof.
  assert (Hnone : forall w, caches_ok w -> wpr does rely (mret ("", false)) detected w).
  { intros w0 Hw0. apply wpr_ret. intros w' (Hr & _). split; [by apply Hr|done]. }
  intros Hw. unfold DetectMihomoHTTPProxy. case_bool_decide; [by apply Hnone|].
  apply (among_call Now); [done|]. intros w1 now w2 Hw1 [Ht ->].
  apply (among_call ProxyCacheGet); [by apply ok_later|]. intros w3 c w4 Hw3 [-> ->]. destruct (now <? _).
  { destruct (c_found (cache w3)) eqn:Hf.
    - destruct (ok_proxy _ Hw3 Hf) as [Hl Ha].
      apply (stable_ret (answered_by (Some (c_url (cache w3))) (clock w3))); [apply answered_stable|done|]. by intros w' (? & _ & ?).
    - apply wpr_ret. intros w' (Hr & _). split; [by apply Hr|done]. }
  apply (among_call ReadConfig); [done|]. intros w5 config w6 Hw5 ->. apply wpr_bind; [exact _|].
  eapply wpr_mono; [|by apply among_first]. intros found w7 [Hw7 Hf]. destruct found as [u|].
  - destruct (Hf u eq_refl) as [Hc%candidate_local Ha].
    apply (stable_call (answered_by (Some u) (clock w7)) Now); [apply answered_stable|done|]. intros w8 t w9 (Hw8 & _ & Ha8) [Ht8 ->].
    apply (stable_call (answered_by (Some u) t) (ProxyCacheSet _)); [apply answered_stable|split_and!; [by apply ok_later|done|done]|].
    intros w10 a w11 ([H1 H2 H3] & Ht10 & Ha10) ->. apply (stable_ret (answered_by (Some u) t)); [apply answered_stable| |by intros w' (? & _ & ?)].
    split_and!; [|done|done]. split; [done|cbn; lia|done].
  - apply (stable_call (answered_by None (clock w7)) Now); [apply answered_stable|done|]. intros w8 t w9 (Hw8 & _ & _) [Ht8 ->].
    apply (stable_call (answered_by None t) (ProxyCacheSet _)); [apply answered_stable|split_and!; [by apply ok_later|done|done]|].
    intros w10 a w11 ([H1 H2 H3] & Ht10 & _) ->. apply Hnone. split; [done|cbn; lia|done].
Qed.

Lemma among_probe p url w : caches_ok w -> wpr does rely (probeProxySpeed p url) (fun _ w' => caches_ok w' /\ True) w.
Proof.
  intros Hw. unfold probeProxySpeed. case_bool_decide; [by apply among_ret|].
  apply (among_call Now); [done|]. intros w1 t w2 Hw1 [Ht ->].
  apply (among_call (Get None _)); [by apply ok_later|]. intros w3 r w4 Hw3 Hd. pose proof (fun u => ok_got w3 None u r Hw3) as Hg. cbn in Hd. subst w4.
  destruct r as [e|e|code text len b]; [by apply among_ret|by apply among_ret|].
  destruct (_ && _); [by apply among_ret|]. apply (among_call Now); [apply Hg|]. intros w5 t' w6 Hw5 [Ht' ->].
  apply among_ret; [by apply ok_later|done].
Qed.
Lemma among_probes ps url w : caches_ok w -> wpr does rely (probe_all ps url) (fun l w' => caches_ok w' /\ proxy <$> l = ps) w.
Proof.
  revert w. induction ps as [|p ps IH]; intros w Hw; cbn [probe_all]; [by apply among_ret|].
  eapply among_seq; [by apply among_probe|]. intros s w1 Hw1 _. eapply among_seq; [by apply IH|]. intros l w2 Hw2 Hl.
  apply among_ret; [done|]. rewrite fmap_cons, Hl. by destruct s.
Qed.

Lemma among_rank_now url key w : caches_ok w ->
  wpr does rely (rank_now mihomoProxies url key) (fun r w' => caches_ok w' /\ r ≡ₚ mihomoProxies) w.
Proof.
  intros Hw. unfold rank_now. eapply among_seq; [by apply among_probes|]. intros l w1 Hw1 Hl.
  apply (among_call (Arrival l)); [done|]. intros w2 out w3 Hw2 [Hout ->].
  assert (Hp : rank mihomoProxies out ≡ₚ mihomoProxies) by (apply rank_perm; by rewrite Hout, Hl).
  apply (among_call Now); [done|]. intros w4 t w5 Hw4 [Ht ->]. apply (among_call (RankCacheSet _ _ _)); [by apply ok_later|].
  intros w6 a w7 Hw6 ->. apply among_ret; [|done]. split; cbn; [apply (ok_proxy _ Hw6)|apply (ok_expiry _ Hw6)|].
  intros k r t' [[_ [= <- _]]|[_ H]]%lookup_insert_Some; [done|by eapply ok_ranks].
Qed.

Lemma among_rank ps url w : (length ps <= 1)%nat \/ ps = mihomoProxies -> caches_ok w ->
  wpr does rely (RankProxiesBySpeed ps url) (fun r w' => caches_ok w' /\ r ≡ₚ ps) w.
Proof.
  intros Hps Hw. unfold RankProxiesBySpeed. destruct (Nat.leb_spec (length ps) 1) as [|Hlen]; [by apply among_ret|].
  destruct Hps as [?| ->]; [lia|]. apply (among_call (RankCacheGet _)); [done|]. intros w1 e w2 Hw1 [-> ->].
  destruct (ranks w1 !! _) as [[ranked t]|] eqn:He; [|by apply among_rank_now]. pose proof (ok_ranks _ Hw1 _ _ _ He) as Hr.
  apply (among_call Now); [done|]. intros w3 now w4 Hw3 [Hn ->]. destruct (now <? t).
  - by apply among_ret; [apply ok_later|].
  - apply among_rank_now. by apply ok_later.
Qed.

(** * Properties *)

(** C20: whatever the configuration holds and whoever answers a probe, and however
    requests interleave, a detected proxy is a valid port of this machine that has
    answered a probe with status 200 or 206 and a body that is not empty: in this
    call or, when the answer is remembered, in an earlier one, perhaps for another
    address; no answer is remembered for more than a minute.  The candidates are
    the valid ports of the configuration and the two default ports, each once. *)
Theorem detected_local (url : string) (w : world) : caches_ok w ->
  wpr does rely (DetectMihomoHTTPProxy url) (fun r w' => caches_ok w' /\ (r.2 = true -> local r.1 /\ answered w' r.1)) w /\
  forall config, exists ports, URL <$> mihomoHTTPProxyCandidates config = port_url <$> ports /\ NoDup ports /\
    forall p, p ∈ ports <-> valid_port p /\ p ∈ 7890 :: 7891 :: (parseMihomoHTTPProxyPorts config).*1.
Proof. intros Hw. split; [by apply among_detect|apply candidates_spec]. Qed.

Lemma start_ok : caches_ok start.
Proof. split; [done|done|]. intros key ranked t H. change (ranks start) with (∅ : gmap string (list string * Z)) in H. by rewrite lookup_empty in H. Qed.

Lemma detected_local_witness :
  caches_ok start /\ wpr does rely (DetectMihomoHTTPProxy "https://a/b") (fun r w' => caches_ok w' /\ (r.2 = true -> local r.1 /\ answered w' r.1)) start.
Proof. split; [exact start_ok|]. exact (proj1 (detected_local "https://a/b" start start_ok)). Defined.

(** a ranking, measured or remembered, is a reordering of the lines it was asked
    for: a failing probe loses no line.  A measured ranking begins with the lines
    that delivered something, none directly before a faster one, and ends with the
    others in their old order. *)
Theorem ranking_keeps_lines (proxies : list string) (url : string) (w : world) :
  (length proxies <= 1)%nat \/ proxies = mihomoProxies -> caches_ok w ->
  wpr does rely (RankProxiesBySpeed proxies url) (fun r w' => caches_ok w' /\ r ≡ₚ proxies) w /\
  forall out, proxy <$> out ≡ₚ proxies -> rank proxies out ≡ₚ proxies /\ exists good bad, ranked_parts proxies out good bad.
Proof.
  intros Hp Hw. split; [by apply among_rank|]. intros out Ho. split; [by apply rank_perm|apply rank_parts].
Qed.

Lemma ranking_keeps_lines_witness :
  caches_ok start /\ wpr does rely (RankProxiesBySpeed mihomoProxies "u") (fun r w' => caches_ok w' /\ r ≡ₚ mihomoProxies) start.
Proof. split; [exact start_ok|]. exact (proj1 (ranking_keeps_lines mihomoProxies "u" start ltac:(by right) start_ok)). Defined.

(** Examples from the tests and a configuration file. *)
Example ports_of_config :
  map URL (mihomoHTTPProxyCandidates (Some ("mixed-port: 7893 # local" +++ String (chr 10) "port: '70000'"))) =
  ["http://127.0.0.1:7893"; "http://127.0.0.1:7890"; "http://127.0.0.1:7891"].
Proof. vm_compute. reflexivity. Qed.
