(* ===== verification/Mihomo.v ===== *)
(** The proxy core manager: [src/gossh/app/service/mihomo.go], lines 28 to 1543.

    Handlers and two background tasks, the update of the data files and the
    installation of the core, over a file system, HTTP and the control script.
    A download goes to a temporary name and is renamed when it is complete.
    Theorems: whatever servers and proxies do, a file is either as it was or the
    complete body of a successful response; the state of a task tells which; the
    binary that was installed is never lost before a complete new one is there.
    Not modelled: the streaming of script output. *)

From S2P Require Import Prelude GoInt GoStrings Gin Json Threads Update Proxies.
From stdpp Require Import gmap strings.
Open Scope string_scope.
Open Scope Z_scope.

(** * Names *)

Definition mihomoGithubRepo := "Jack-bin183/WebSSH-u60pro".
Definition mihomoDataTag := "latest-data".
Definition mihomoDataBaseURL := "https://github.com/" +++ mihomoGithubRepo +++ "/releases/download/" +++ mihomoDataTag +++ "/".
Definition mihomoVersionFileURL := mihomoDataBaseURL +++ "data_version.txt".
Definition mihomoInstallVersionURL := mihomoDataBaseURL +++ "mihomo_version.txt".
Definition mihomoInstallBinaryURL := mihomoDataBaseURL +++ "mihomo-linux-arm64".
Definition mihomoInstallMmShURL := mihomoDataBaseURL +++ "mm.sh".
Definition getMihomoDir := "/data/kano_plugins/mihomo".
Definition mihomoDataFiles : list (string * string) :=
  [("chnroute.txt", "中国 IPv4 段"); ("chnroute6.txt", "中国 IPv6 段"); ("GeoSite.dat", "地理站点数据"); ("geoip.metadb", "地理 IP 数据")].

(** [filepath.Join(dir, name)]. *)
Definition file (name : string) : string := path_Join [getMihomoDir; name].

(** Both spell out the same loop. *)
Definition buildMihomoTryURLs : string -> list string -> list string := buildUpdateTryURLs.

(** * Statuses *)

Record MihomoDataUpdateStatus := mkUpdate {
  u_State : string; u_Msg : string; u_FileName : string; u_FileIndex : Z; u_FileTotal : Z;
  u_Downloaded : Z; u_Total : Z; u_Percent : Z; u_StartedAt : string; u_UpdatedAt : string }.
Record MihomoInstallStatus := mkInstall {
  s_State : string; s_Msg : string; s_Downloaded : Z; s_Total : Z; s_Percent : Z; s_StartedAt : string; s_UpdatedAt : string }.

(** The share in percent, [old] while the total is unknown. *)
Definition percent (downloaded total old : Z) : Z :=
  if 0 <? total then let p := i64 (Z.quot (i64 (downloaded * 100)) total) in if 100 <? p then 100 else p else old.

(** The critical sections of the two setters. *)
Definition setMihomoUpdateStatus (fn : MihomoDataUpdateStatus -> MihomoDataUpdateStatus) (now : string) (s : MihomoDataUpdateStatus) : MihomoDataUpdateStatus :=
  match fn s with
  | mkUpdate st msg name i n d t p started _ => mkUpdate st msg name i n d t (percent d t p) started now
  end.
Definition setMihomoInstallStatus (fn : MihomoInstallStatus -> MihomoInstallStatus) (now : string) (s : MihomoInstallStatus) : MihomoInstallStatus :=
  match fn s with mkInstall st msg d t p started _ => mkInstall st msg d t (percent d t p) started now end.

Definition u_with_State v s := mkUpdate v (u_Msg s) (u_FileName s) (u_FileIndex s) (u_FileTotal s) (u_Downloaded s) (u_Total s) (u_Percent s) (u_StartedAt s) (u_UpdatedAt s).
Definition u_with_Msg v s := mkUpdate (u_State s) v (u_FileName s) (u_FileIndex s) (u_FileTotal s) (u_Downloaded s) (u_Total s) (u_Percent s) (u_StartedAt s) (u_UpdatedAt s).
Definition u_with_progress d t s := mkUpdate (u_State s) (u_Msg s) (u_FileName s) (u_FileIndex s) (u_FileTotal s) d t (u_Percent s) (u_StartedAt s) (u_UpdatedAt s).
Definition u_with_Percent v s := mkUpdate (u_State s) (u_Msg s) (u_FileName s) (u_FileIndex s) (u_FileTotal s) (u_Downloaded s) (u_Total s) v (u_StartedAt s) (u_UpdatedAt s).
Definition u_with_file name i n s := mkUpdate (u_State s) (u_Msg s) name i n (u_Downloaded s) (u_Total s) (u_Percent s) (u_StartedAt s) (u_UpdatedAt s).
Definition s_with_State v s := mkInstall v (s_Msg s) (s_Downloaded s) (s_Total s) (s_Percent s) (s_StartedAt s) (s_UpdatedAt s).
Definition s_with_Msg v s := mkInstall (s_State s) v (s_Downloaded s) (s_Total s) (s_Percent s) (s_StartedAt s) (s_UpdatedAt s).
Definition s_with_progress d t s := mkInstall (s_State s) (s_Msg s) d t (s_Percent s) (s_StartedAt s) (s_UpdatedAt s).
Definition s_with_Percent v s := mkInstall (s_State s) (s_Msg s) (s_Downloaded s) (s_Total s) v (s_StartedAt s) (s_UpdatedAt s).

Definition idle_update := mkUpdate "idle" "暂无更新任务" "" 0 0 0 0 0 "" "".
Definition idle_install := mkInstall "idle" "暂无安装任务" 0 0 0 "" "".

(** * The environment *)

Inductive task := TUpdate | TInstall.

(** [os.Stat], [os.ReadFile] and [os.Remove]. *)
Inductive stat := StatMissing | StatError | StatSize (n : Z).
Inductive read := ReadMissing | ReadError | ReadData (data : string).
Inductive removed := RemoveMissing | RemoveError (e : error) | Removed.

Record mihomo_file := mkFile { f_Name : string; f_Desc : string; f_Exists : bool; f_Size : Z; f_ModTime : string }.
Record mihomo_status := mkMihomo {
  running : bool; m_pid : Z; start_time : string; dir_exists : bool; binary_exists : bool; binary_version : string;
  local_version : string; api_reachable : bool; api_version : string; external_controller : string;
  m_files : list mihomo_file; autostart_enabled : bool }.

Inductive data :=
| NoData | Missing (l : list string) | Output (out : string) | Dir (dir : string)
| DataVersion (remote_version local_version : string) (has_update : bool)
| BinaryVersion (installed : bool) (local_version remote_version local_tag remote_tag : string) (has_update : bool)
| UpdateData (s : MihomoDataUpdateStatus) | InstallData (s : MihomoInstallStatus)
| Config (content : string) (exists_ : bool) | Enabled (b : bool) | StatusData (s : mihomo_status).

Inductive call : Type :=
| GetUpdate | SetUpdate (fn : string -> MihomoDataUpdateStatus -> MihomoDataUpdateStatus)   (** of the time *)
| GetInstall | SetInstall (fn : string -> MihomoInstallStatus -> MihomoInstallStatus)
| NewContext | SetCancel (t : task) (ctx : option nat) | GetCancel (t : task) | Cancel (ctx : nat) | CtxErr (ctx : nat)
| Go (t : task) (ctx : nat)
| Detect (url : string) | Rank (proxies : list string) (url : string)   (** module [Proxies] *)
| Get (proxy : option string) (url : string)
| MkdirAll | RemoveAll | StatDir
| Stat (path : string) | ModTime (path : string) | ReadFile (path : string) | WriteFile (path data : string)
| OpenTrunc (path : string) | Write (path data : string) | Rename (from to : string) | Remove (path : string) | Chmod (path : string)
| ProcExists (pid : Z) | Exec (cmd : list string) | CheckAPI (url secret : string)
| JSON (code : Z) (d : data).

Definition answer (c : call) : Type :=
  match c with
  | GetUpdate => MihomoDataUpdateStatus
  | GetInstall => MihomoInstallStatus
  | NewContext => nat
  | GetCancel _ => option nat
  | CtxErr _ => option error
  | Detect _ => string * bool
  | Rank _ _ => list string
  | Get _ _ => response
  | MkdirAll | RemoveAll | WriteFile _ _ | OpenTrunc _ | Rename _ _ => option error
  | StatDir | ProcExists _ => bool
  | Stat _ => stat
  | ModTime _ => option string
  | ReadFile _ => read
  | Write _ _ => nat * option error
  | Remove _ => removed
  | Exec _ => string * option error
  | CheckAPI _ _ => option string
  | _ => unit
  end.

Abbreviation prog := (@Threads.prog call answer).
Abbreviation invoke := (@perform call answer).
Definition detect (url : string) : prog (string * bool) := invoke (Detect url).
Definition write (path data : string) : prog (nat * option error) := invoke (Write path data).
Definition ctx_err (ctx : nat) : prog (option error) := invoke (CtxErr ctx).
Definition set_update (fn : MihomoDataUpdateStatus -> MihomoDataUpdateStatus) : prog unit := invoke (SetUpdate (fun _ => fn)).
Definition set_install (fn : MihomoInstallStatus -> MihomoInstallStatus) : prog unit := invoke (SetInstall (fun _ => fn)).

(** * Text of a server *)

Definition fetch_response (u : string) (r : response) : error + string :=
  match r with
  | RequestError e | DoError e => inl e
  | Response code _ _ b =>
    if negb (code =? 200) then inl (Errorf ("HTTP " +++ Itoa code +++ " from " +++ u))
    else match ReadAll_limited 1024 b with inl e => inl e | inr text => inr (TrimSpace text) end
  end.

(** The lines; [%w] of no error at all is never reached, there is always a line. *)
Fixpoint fetch_lines (urls : list string) (lastErr : option error) : prog (error + string) :=
  match urls with
  | [] => mret (inl match lastErr with
                    | Some e => mkError (is_canceled e) ("所有线路均失败: " +++ Error e)
                    | None => Errorf "所有线路均失败: %!w(<nil>)"
                    end)
  | u :: urls =>
    r ← invoke (Get None u);
    match fetch_response u r with inr text => mret (inr text) | inl e => fetch_lines urls (Some e) end
  end.

Definition mihomoFetchText (rawURL : string) : prog (error + string) :=
  p ← detect rawURL;
  let '(proxyURL, found) := p in
  let lines := fetch_lines (buildMihomoTryURLs rawURL mihomoProxies) in
  if (found : bool) then
    r ← invoke (Get (Some proxyURL) rawURL);
    match fetch_response "mihomo proxy" r with inr text => mret (inr text) | inl e => lines (Some e) end
  else lines None.

(** * Downloads *)

(** Whom [onProgress] tells. *)
Definition onProgress (t : option task) (downloaded total : Z) : prog unit :=
  match t with
  | None => mret tt
  | Some TUpdate => set_update (u_with_progress downloaded total)
  | Some TInstall => set_install (s_with_progress downloaded total)
  end.

(** One read that gave [data]; [k] goes on with the bytes written so far. *)
Definition save_read (t : option task) (total : Z) (tmpPath data : string) (downloaded : Z) (k : Z -> prog copied) : prog copied :=
  if bool_decide (data = "") then k downloaded
  else
    w ← write tmpPath data;
    let '(written, werr) := w in
    let downloaded := i64 (downloaded + Z.of_nat written) in
    _ ← onProgress t downloaded total;
    match werr with
    | Some e => mret (Copied (Some e))
    | None => if negb (written =? strlen data)%nat then mret (Copied (Some ErrShortWrite)) else k downloaded
    end.

Fixpoint save_body (ctx : nat) (t : option task) (total : Z) (tmpPath : string) (l : list string) (last : string)
    (fin : option error) (downloaded : Z) : prog copied :=
  e ← ctx_err ctx;
  match e with
  | Some e => mret (Returned e)
  | None =>
    match l with
    | data :: l => save_read t total tmpPath data downloaded (save_body ctx t total tmpPath l last fin)
    | [] => save_read t total tmpPath last downloaded (fun _ => mret (Copied fin))
    end
  end.

(** How a response was stored: renamed; an error that ends the download; an error
    of this line only. *)
Inductive stored := Stored | Fatal (e : error) | Broken (e : error).

Definition store (ctx : nat) (t : option task) (destPath : string) (len : Z) (b : body) : prog stored :=
  let tmpPath := destPath +++ ".tmp" in
  o ← (invoke (OpenTrunc tmpPath) : prog (option error));
  match o with
  | Some e => mret (Fatal e)
  | None =>
    c ← save_body ctx t len tmpPath (reads b) (last_read b) (last_error b) 0;
    match c with
    | Returned e => _ ← invoke (Remove tmpPath); mret (Fatal e)
    | Copied (Some e) => _ ← invoke (Remove tmpPath); mret (Broken e)
    | Copied None =>
      info ← invoke (Stat tmpPath);
      match info with
      | StatSize n =>
        if n =? 0 then _ ← invoke (Remove tmpPath); mret (Broken empty_file)
        else
          r ← (invoke (Rename tmpPath destPath) : prog (option error));
          match r with
          | Some e => _ ← invoke (Remove tmpPath); mret (Fatal e)
          | None => mret Stored
          end
      | _ => _ ← invoke (Remove tmpPath); mret (Broken empty_file)
      end
    end
  end.

Definition mihomoDownloadFileWithClient (ctx : nat) (proxy : option string) (rawURL destPath : string) (t : option task) : prog (option error) :=
  r ← invoke (Get proxy rawURL);
  match r with
  | RequestError e | DoError e => mret (Some e)
  | Response code _ len b =>
    if negb (code =? 200) then mret (Some (Errorf ("HTTP " +++ Itoa code +++ " from " +++ rawURL)))
    else
      s ← store ctx t destPath len b;
      mret match s with Stored => None | Fatal e | Broken e => Some e end
  end.

Fixpoint download_lines (ctx : nat) (destPath : string) (t : option task) (urls : list string) (lastErr : option error) : prog (option error) :=
  match urls with
  | [] => mret (Some match lastErr with
                     | Some e => mkError (is_canceled e) ("所有线路均失败: " +++ Error e)
                     | None => Errorf "所有线路均失败: %!w(<nil>)"
                     end)
  | u :: urls =>
    let continue e := download_lines ctx destPath t urls (Some e) in
    e ← ctx_err ctx;
    match e with
    | Some e => mret (Some e)
    | None =>
      r ← invoke (Get None u);
      match r with
      | RequestError e => continue e
      | DoError e =>
        d ← ctx_err ctx;
        match d with Some d => mret (Some d) | None => continue e end
      | Response code _ len b =>
        if negb (code =? 200) then continue (Errorf ("HTTP " +++ Itoa code +++ " from " +++ u))
        else
          s ← store ctx t destPath len b;
          match s with
          | Stored => mret None
          | Fatal e => mret (Some e)
          | Broken e => continue e
          end
      end
    end
  end.

Definition mihomoDownloadFile (ctx : nat) (rawURL destPath : string) (t : option task) : prog (option error) :=
  let lines lastErr :=
    (rankedProxies ← invoke (Rank mihomoProxies rawURL);
     download_lines ctx destPath t (buildMihomoTryURLs rawURL rankedProxies) lastErr) in
  p ← detect rawURL;
  let '(proxyURL, found) := p in
  if (found : bool) then
    r ← mihomoDownloadFileWithClient ctx (Some proxyURL) rawURL destPath t;
    match r with
    | None => mret None
    | Some e =>
      d ← ctx_err ctx;
      match d with Some d => mret (Some d) | None => lines (Some e) end
    end
  else lines None.

(** * Helpers *)

Definition getMihomoLocalVersion : prog string :=
  r ← invoke (ReadFile (file "data_version.txt"));
  mret match r with ReadData data => TrimSpace data | _ => "" end.

(** The process number, [None] when it does not run. *)
Definition isMihomoRunning : prog (option Z) :=
  r ← invoke (ReadFile (file "mihomo.pid"));
  match r with
  | ReadData data =>
    match Atoi (TrimSpace data) with
    | Some pid => alive ← invoke (ProcExists pid); mret (if alive : bool then Some pid else None)
    | None => mret None
    end
  | _ => mret None
  end.

Definition first_line (out : string) : string := TrimSpace (hd "" (Split1 (TrimSpace out) (chr 10))).
Definition getMihomoInstalledVersion : prog string :=
  s ← invoke (Stat (file "mihomo"));
  match s with
  | StatSize _ =>
    r ← invoke (Exec [file "mihomo"; "-v"]);
    mret (let '(out, err) := (r : string * option error) in match err with Some _ => "" | None => first_line out end)
  | _ => mret ""
  end.

(** One line; the last one that has a key wins. *)
Definition config_line (acc : string * string) (line : string) : string * string :=
  let '(extCtrl, secret) := acc in
  let trim := TrimSpace line in
  let value key := TrimFunc is_quote (TrimSpace (TrimPrefix trim key)) in
  (if HasPrefix trim "external-controller:" then value "external-controller:" else extCtrl,
   if HasPrefix trim "secret:" then value "secret:" else secret).
Definition parseMihomoConfig (r : read) : string * string :=
  match r with
  | ReadData data =>
    let '(extCtrl, secret) := fold_left config_line (Split1 data (chr 10)) ("", "") in
    (if HasPrefix extCtrl ":" then "192.168.0.1" +++ extCtrl +++ "/ui" else extCtrl, secret)
  | _ => ("", "")
  end.

(** The version that the controller answers with, [None] if it is not reachable. *)
Definition checkMihomoAPI (config : read) : prog (option string) :=
  let '(extCtrl, secret) := parseMihomoConfig config in
  if bool_decide (extCtrl = "") then mret None
  else invoke (CheckAPI (if Contains extCtrl "://" then extCtrl else "http://" +++ extCtrl) secret).

Fixpoint missing_files (files : list (string * string)) (missing : list string) : prog (list string) :=
  match files with
  | [] => mret missing
  | (name, text) :: files =>
    s ← invoke (Stat (file name));
    missing_files files (match s with StatSize _ => missing | _ => missing ++ [text] end)%list
  end.
Definition preflight_files : list (string * string) :=
  [("mihomo", "mihomo 内核 (mihomo 二进制)"); ("config.yaml", "配置文件 (config.yaml)")] ++
  map (fun f => (f.1, f.2 +++ " (" +++ f.1 +++ ")")) mihomoDataFiles.
Definition mihomoPreflightCheck : prog (list string) := missing_files preflight_files [].

Definition runMihomoMmSh (action : string) : prog (string * option error) :=
  s ← invoke (Stat (file "mm.sh"));
  match s with
  | StatSize _ => invoke (Exec ["/bin/sh"; file "mm.sh"; action])
  | _ => mret ("", Some (Errorf ("mm.sh 不存在: " +++ file "mm.sh")))
  end.

Definition isValidMihomoControlAction (action : string) : bool := bool_decide (action ∈ ["start"; "stop"; "restart"; "reload-ipset"]).

(** The pattern of [mihomoVersionRe]: a number with up to two dots and a suffix,
    or a name, a dash and hexadecimal digits; the leftmost match. *)
Definition number_at (l : list ascii) : option (list ascii * list ascii) :=
  match span is_digit l with ([], _) => None | r => Some r end.
Definition version_at (l : list ascii) : option (list ascii) :=
  match l with
  | v :: l1 =>
    if negb (ord v =? 118) then None
    else match number_at l1 with
         | Some (d1, p1 :: l2) =>
           if negb (ord p1 =? 46) then None
           else match number_at l2 with
                | Some (d2, p2 :: l3) =>
                  if negb (ord p2 =? 46) then None
                  else match number_at l3 with
                       | Some (d3, l4) =>
                         let suffix := match l4 with
                           | p3 :: l5 =>
                             if ord p3 =? 45 then
                               match span (fun c => is_letter c || is_digit c || (ord c =? 46)) l5 with
                               | ([], _) => []
                               | (s, _) => p3 :: s
                               end
                             else []
                           | [] => []
                           end in
                         Some (v :: d1 ++ p1 :: d2 ++ p2 :: d3 ++ suffix)%list
                       | None => None
                       end
                | _ => None
                end
         | _ => None
         end
  | [] => None
  end.
Definition named_at (name : string) (l : list ascii) : option (list ascii) :=
  if is_prefix (chars name) l then
    match span is_hex (drop (strlen name) l) with ([], _) => None | (h, _) => Some (chars name ++ h)%list end
  else None.
Definition tag_at (l : list ascii) : option (list ascii) :=
  match version_at l with
  | Some m => Some m
  | None => match named_at "alpha-" l with Some m => Some m | None => named_at "beta-" l end
  end.
Fixpoint find_tag (l : list ascii) : list ascii :=
  match tag_at l with
  | Some m => m
  | None => match l with [] => [] | _ :: l => find_tag l end
  end.
Definition extractMihomoVersionTag (s : string) : string := TrimSpace (of_chars (find_tag (chars s))).

Example tags : map extractMihomoVersionTag ["Mihomo Meta v1.19.1-rc.2 linux"; "alpha-smart-2f"; "x alpha-2fz beta-1"; "v1.2"] =
  ["v1.19.1-rc.2"; ""; "alpha-2f"; ""].
Proof. vm_compute. reflexivity. Qed.

(** * Tasks *)

Definition fail_update (text : string) : prog unit := set_update (fun s => u_with_Msg text (u_with_State "failed" s)).
Definition cancel_update : prog unit := set_update (fun s => u_with_Percent 0 (u_with_Msg "已取消" (u_with_State "canceled" s))).
Definition fail_install (text : string) : prog unit := set_install (fun s => s_with_Msg text (s_with_State "failed" s)).
Definition cancel_install : prog unit := set_install (fun s => s_with_Percent 0 (s_with_Msg "已取消" (s_with_State "canceled" s))).

(** The loop over the data files, whether it came to its end. *)
Fixpoint update_files (ctx : nat) (total i : Z) (files : list string) : prog bool :=
  match files with
  | [] => mret true
  | name :: files =>
    e ← ctx_err ctx;
    match e with
    | Some _ => _ ← cancel_update; mret false
    | None =>
      let text := "[" +++ Itoa (i + 1) +++ "/" +++ Itoa total +++ "] 正在下载 " +++ name in
      _ ← set_update (fun s => u_with_Msg text (u_with_Percent 0 (u_with_progress 0 0 (u_with_file name (i + 1) total s))));
      r ← mihomoDownloadFile ctx (mihomoDataBaseURL +++ name) (file name) (Some TUpdate);
      match r with
      | Some e =>
        _ ← (if is_canceled e then cancel_update else fail_update ("下载 " +++ name +++ " 失败: " +++ Error e));
        mret false
      | None => update_files ctx total (i + 1) files
      end
    end
  end.

(** After the files: the version, the rules of a core that runs, the state. *)
Definition finish_update : prog unit :=
  v ← mihomoFetchText mihomoVersionFileURL;
  _ ← match v with
      | inr remoteVersion =>
        if bool_decide (remoteVersion = "") then mret tt
        else _ ← invoke (WriteFile (file "data_version.txt") remoteVersion); mret tt
      | inl _ => mret tt
      end;
  r ← isMihomoRunning;
  _ ← match r with
      | Some _ => _ ← set_update (u_with_Msg "下载完成，正在重载 ipset..."); _ ← runMihomoMmSh "reload-ipset"; mret tt
      | None => mret tt
      end;
  set_update (fun s => u_with_file "" (u_FileIndex s) (u_FileTotal s) (u_with_Percent 100 (u_with_Msg "所有数据文件更新完成" (u_with_State "done" s)))).

Definition runMihomoDataUpdate (ctx : nat) : prog unit :=
  m ← (invoke MkdirAll : prog (option error));
  _ ← match m with
      | Some e => fail_update ("创建目录失败: " +++ Error e)
      | None =>
        done ← update_files ctx (Z.of_nat (length mihomoDataFiles)) 0 (map fst mihomoDataFiles);
        if done : bool then finish_update else mret tt
      end;
  invoke (SetCancel TUpdate None).

(** The script, if there is none. *)
Definition install_script (ctx : nat) : prog unit :=
  s ← invoke (Stat (file "mm.sh"));
  match s with
  | StatMissing =>
    _ ← set_install (s_with_Msg "正在下载 mm.sh...");
    r ← mihomoDownloadFile ctx mihomoInstallMmShURL (file "mm.sh") None;
    match r with Some _ => mret tt | None => invoke (Chmod (file "mm.sh")) end
  | _ => mret tt
  end.

(** The replacement of the binary by the one at [tmpBin]. *)
Definition install_binary (tmpBin : string) : prog unit :=
  _ ← set_install (fun s => s_with_Percent 100 (s_with_Msg "正在安装..." (s_with_State "installing" s)));
  r ← isMihomoRunning;
  _ ← match r with Some _ => _ ← runMihomoMmSh "stop"; mret tt | None => mret tt end;
  b ← invoke (Stat (file "mihomo"));
  _ ← match b with StatSize _ => _ ← invoke (Rename (file "mihomo") (file "mihomo" +++ ".bak")); mret tt | _ => mret tt end;
  m ← (invoke (Rename tmpBin (file "mihomo")) : prog (option error));
  match m with
  | Some e => _ ← invoke (Remove tmpBin); fail_install ("安装失败: " +++ Error e)
  | None =>
    _ ← invoke (Chmod (file "mihomo"));
    _ ← match r with Some _ => _ ← runMihomoMmSh "start"; mret tt | None => mret tt end;
    set_install (fun s => s_with_Percent 100 (s_with_Msg "安装完成" (s_with_State "done" s)))
  end.

Definition tmpBin : string := file "mihomo.download.tmp".

Definition runMihomoInstall (ctx : nat) : prog unit :=
  m ← (invoke MkdirAll : prog (option error));
  _ ← match m with
      | Some e => fail_install ("创建目录失败: " +++ Error e)
      | None =>
        _ ← install_script ctx;
        e ← ctx_err ctx;
        match e with
        | Some _ => cancel_install
        | None =>
          _ ← set_install (s_with_Msg "正在下载 mihomo 二进制...");
          r ← mihomoDownloadFile ctx mihomoInstallBinaryURL tmpBin (Some TInstall);
          match r with
          | Some e =>
            _ ← invoke (Remove tmpBin);
            if is_canceled e then cancel_install else fail_install ("下载失败: " +++ Error e)
          | None => install_binary tmpBin
          end
        end
      end;
  invoke (SetCancel TInstall None).

(** * Handlers; a body that cannot be bound is [None] *)

Definition reply (code : Z) : prog unit := invoke (JSON code NoData).
Definition reply_update (code : Z) : prog unit := s ← (invoke GetUpdate : prog MihomoDataUpdateStatus); invoke (JSON code (UpdateData s)).
Definition reply_install (code : Z) : prog unit := s ← (invoke GetInstall : prog MihomoInstallStatus); invoke (JSON code (InstallData s)).

Definition isMihomoUpdateBusy : prog bool := s ← (invoke GetUpdate : prog MihomoDataUpdateStatus); mret (bool_decide (u_State s = "downloading")).
(** The status is read a second time unless the first reading says downloading. *)
Definition isMihomoInstallBusy : prog bool :=
  s ← (invoke GetInstall : prog MihomoInstallStatus);
  if bool_decide (s_State s = "downloading") then mret true
  else s ← (invoke GetInstall : prog MihomoInstallStatus); mret (bool_decide (s_State s = "installing")).

Definition MihomoControlHandler (req : option string) : prog unit :=
  match req with
  | None => reply 1
  | Some action =>
    if negb (isValidMihomoControlAction action) then reply 1
    else
      missing ← (if bool_decide (action ∈ ["start"; "restart"]) then mihomoPreflightCheck else mret []);
      if negb (bool_decide (missing = [])) then invoke (JSON 2 (Missing missing))
      else
        r ← runMihomoMmSh action;
        let '(out, err) := r in
        invoke (JSON (match err with Some _ => 1 | None => 0 end) (Output out))
  end.

Definition MihomoGetDirHandler : prog unit := invoke (JSON 0 (Dir getMihomoDir)).

Definition MihomoDataVersionHandler : prog unit :=
  r ← mihomoFetchText mihomoVersionFileURL;
  match r with
  | inl _ => reply 1
  | inr remoteVersion =>
    localVersion ← getMihomoLocalVersion;
    invoke (JSON 0 (DataVersion remoteVersion localVersion
      (negb (bool_decide (remoteVersion = "")) && negb (bool_decide (remoteVersion = localVersion)))))
  end.

Definition MihomoDataUpdateStatusHandler : prog unit := reply_update 0.

Definition MihomoDataUpdateCancelHandler : prog unit :=
  s ← (invoke GetUpdate : prog MihomoDataUpdateStatus);
  if negb (bool_decide (u_State s = "downloading")) then reply_update 1
  else
    cancel ← (invoke (GetCancel TUpdate) : prog (option nat));
    match cancel with
    | None => reply_update 1
    | Some ctx => _ ← invoke (Cancel ctx); reply_update 0
    end.

Definition MihomoDataUpdateHandler : prog unit :=
  b ← isMihomoUpdateBusy;
  if b : bool then reply_update 1
  else
    _ ← invoke (SetUpdate (fun now _ => mkUpdate "downloading" "正在准备下载..." "" 0 (Z.of_nat (length mihomoDataFiles)) 0 0 0 now ""));
    ctx ← (invoke NewContext : prog nat);
    _ ← invoke (SetCancel TUpdate (Some ctx));
    _ ← invoke (Go TUpdate ctx);
    reply_update 0.

Definition MihomoCheckBinaryVersionHandler : prog unit :=
  r ← mihomoFetchText mihomoInstallVersionURL;
  match r with
  | inl _ => reply 1
  | inr remoteVersion =>
    localVersion ← getMihomoInstalledVersion;
    let remoteTag := extractMihomoVersionTag remoteVersion in
    let localTag := extractMihomoVersionTag localVersion in
    let installed := negb (bool_decide (TrimSpace localVersion = "")) in
    invoke (JSON 0 (BinaryVersion installed localVersion remoteVersion localTag remoteTag
      (negb installed || (negb (bool_decide (remoteTag = "")) && negb (bool_decide (localTag = "")) && negb (bool_decide (remoteTag = localTag))))))
  end.

Definition MihomoInstallStatusHandler : prog unit := reply_install 0.

Definition MihomoInstallCancelHandler : prog unit :=
  b ← isMihomoInstallBusy;
  if negb (b : bool) then reply_install 1
  else
    cancel ← (invoke (GetCancel TInstall) : prog (option nat));
    match cancel with
    | None => reply 1
    | Some ctx => _ ← invoke (Cancel ctx); reply_install 0
    end.

Definition MihomoInstallHandler : prog unit :=
  b ← isMihomoInstallBusy;
  if b : bool then reply_install 1
  else
    _ ← invoke (SetInstall (fun now _ => mkInstall "downloading" "正在准备..." 0 0 0 now ""));
    ctx ← (invoke NewContext : prog nat);
    _ ← invoke (SetCancel TInstall (Some ctx));
    _ ← invoke (Go TInstall ctx);
    reply_install 0.

(** A body that cannot be bound is one without a mode. *)
Definition MihomoUninstallHandler (mode : string) : prog unit :=
  let mode := if bool_decide (mode = "") then "soft" else mode in
  r ← isMihomoRunning;
  _ ← match r with Some _ => _ ← runMihomoMmSh "stop"; mret tt | None => mret tt end;
  if bool_decide (mode = "full") then
    e ← (invoke RemoveAll : prog (option error));
    reply (match e with Some _ => 1 | None => 0 end)
  else
    _ ← invoke (Remove (file "mihomo" +++ ".bak"));
    e ← invoke (Remove (file "mihomo"));
    reply (match e with RemoveError _ => 1 | _ => 0 end).

Definition MihomoGetConfigHandler : prog unit :=
  r ← invoke (ReadFile (file "config.yaml"));
  match r with
  | ReadData content => invoke (JSON 0 (Config content true))
  | ReadMissing => invoke (JSON 0 (Config "" false))
  | ReadError => reply 1
  end.

Definition MihomoSaveConfigHandler (req : option string) : prog unit :=
  match req with
  | None => reply 1
  | Some content =>
    m ← (invoke MkdirAll : prog (option error));
    match m with
    | Some _ => reply 1
    | None =>
      old ← invoke (ReadFile (file "config.yaml"));
      _ ← match old with
          | ReadData existing => _ ← invoke (WriteFile (file "config.yaml" +++ ".bak") existing); mret tt
          | _ => mret tt
          end;
      e ← (invoke (WriteFile (file "config.yaml") content) : prog (option error));
      reply (match e with Some _ => 1 | None => 0 end)
    end
  end.

Definition MihomoCheckConfigHandler : prog unit :=
  b ← invoke (Stat (file "mihomo"));
  match b with
  | StatSize _ =>
    c ← invoke (Stat (file "config.yaml"));
    match c with
    | StatSize _ =>
      r ← (invoke (Exec [file "mihomo"; "-t"; "-d"; getMihomoDir; "-f"; file "config.yaml"]) : prog (string * option error));
      let '(out, err) := r in
      invoke (JSON (match err with Some _ => 2 | None => 0 end) (Output (TrimSpace out)))
    | _ => reply 1
    end
  | _ => reply 1
  end.

Definition marker : string := file ".autostart".
Definition getMihomoAutostartEnabled : prog bool :=
  s ← invoke (Stat marker); mret (match s with StatSize _ => true | _ => false end).
Definition MihomoGetAutostartHandler : prog unit := b ← getMihomoAutostartEnabled; invoke (JSON 0 (Enabled b)).
Definition MihomoSetAutostartHandler (req : option bool) : prog unit :=
  match req with
  | None => reply 1
  | Some true =>
    m ← (invoke MkdirAll : prog (option error));
    match m with
    | Some _ => reply 1
    | None =>
      e ← (invoke (WriteFile marker "") : prog (option error));
      match e with Some _ => reply 1 | None => invoke (JSON 0 (Enabled true)) end
    end
  | Some false =>
    e ← invoke (Remove marker);
    match e with RemoveError _ => reply 1 | _ => invoke (JSON 0 (Enabled false)) end
  end.
(** The goroutine of the start, if the marker is there. *)
Definition InitMihomoAutostart : prog unit :=
  b ← getMihomoAutostartEnabled;
  if negb (b : bool) then mret tt
  else
    s ← invoke (Stat (file "mm.sh"));
    match s with StatSize _ => _ ← invoke (Exec [file "mm.sh"; "start"]); mret tt | _ => mret tt end.

Fixpoint status_files (files : list (string * string)) : prog (list mihomo_file) :=
  match files with
  | [] => mret []
  | (name, desc) :: files =>
    s ← invoke (Stat (file name));
    m ← (invoke (ModTime (file name)) : prog (option string));
    l ← status_files files;
    mret (match s with
          | StatSize n => mkFile name desc true n (default "" m)
          | _ => mkFile name desc false 0 ""
          end :: l)
  end.

Definition MihomoStatusHandler : prog unit :=
  dirExists ← (invoke StatDir : prog bool);
  r ← isMihomoRunning;
  localVersion ← getMihomoLocalVersion;
  b ← invoke (Stat (file "mihomo"));
  let binaryExists := match b with StatSize _ => true | _ => false end in
  binaryVersion ← (if binaryExists then getMihomoInstalledVersion else mret "");
  startTime ← match r with
              | Some _ => t ← (invoke (ModTime (file "mihomo.pid")) : prog (option string)); mret (default "" t)
              | None => mret ""
              end;
  config ← invoke (ReadFile (file "config.yaml"));
  api ← match r with
        | Some _ => config ← invoke (ReadFile (file "config.yaml")); checkMihomoAPI config
        | None => mret None
        end;
  files ← status_files mihomoDataFiles;
  autostart ← getMihomoAutostartEnabled;
  invoke (JSON 0 (StatusData (mkMihomo (bool_decide (is_Some r)) (default 0 r) startTime dirExists binaryExists binaryVersion
    localVersion (bool_decide (is_Some api)) (default "" api) (parseMihomoConfig config).1 files autostart))).

(** * The world *)

Record world := mkWorld {
  files : gmap string string;
  served : list (string * response);
  contexts : list bool;                    (** cancelled? *)
  update : MihomoDataUpdateStatus; install : MihomoInstallStatus;
  cancels : gmap bool nat;                 (** of the update, [true], and of the installation *)
  ran : list (list string);
  replies : list (Z * data) }.
Definition start : world := mkWorld ∅ [] [] idle_update idle_install ∅ [] [].

Definition set_files f w := mkWorld f (served w) (contexts w) (update w) (install w) (cancels w) (ran w) (replies w).
Definition set_served r w := mkWorld (files w) r (contexts w) (update w) (install w) (cancels w) (ran w) (replies w).
Definition set_contexts c w := mkWorld (files w) (served w) c (update w) (install w) (cancels w) (ran w) (replies w).
Definition set_world_update s w := mkWorld (files w) (served w) (contexts w) s (install w) (cancels w) (ran w) (replies w).
Definition set_world_install s w := mkWorld (files w) (served w) (contexts w) (update w) s (cancels w) (ran w) (replies w).
Definition set_cancels c w := mkWorld (files w) (served w) (contexts w) (update w) (install w) c (ran w) (replies w).
Definition set_ran r w := mkWorld (files w) (served w) (contexts w) (update w) (install w) (cancels w) r (replies w).
Definition set_replies r w := mkWorld (files w) (served w) (contexts w) (update w) (install w) (cancels w) (ran w) r.

Definition is_update (t : task) : bool := match t with TUpdate => true | TInstall => false end.

(** The files of the two tasks.  The control script and the core write others
    only: the process number, the log, the configuration of the router. *)
Definition task_names : list string := map fst mihomoDataFiles ++ ["mm.sh"; "mihomo"; "mihomo.bak"; "mihomo.download.tmp"].
Definition task_files : list string := map file task_names ++ map (fun n => file n +++ ".tmp") task_names.

Definition does (c : call) (w : world) : answer c -> world -> Prop :=
  match c with
  | GetUpdate => fun a w' => a = update w /\ w' = w
  | SetUpdate fn => fun _ w' => exists now1 now2, w' = set_world_update (setMihomoUpdateStatus (fn now1) now2 (update w)) w
  | GetInstall => fun a w' => a = install w /\ w' = w
  | SetInstall fn => fun _ w' => exists now1 now2, w' = set_world_install (setMihomoInstallStatus (fn now1) now2 (install w)) w
  | NewContext => fun a w' => a = length (contexts w) /\ w' = set_contexts (contexts w ++ [false]) w
  | SetCancel t c => fun _ w' => w' = set_cancels (partial_alter (fun _ => c) (is_update t) (cancels w)) w
  | GetCancel t => fun a w' => a = cancels w !! is_update t /\ w' = w
  | Cancel ctx => fun _ w' => w' = set_contexts (<[ctx := true]> (contexts w)) w
  | CtxErr ctx => fun a w' => a = (if default false (contexts w !! ctx) then Some Canceled else None) /\ w' = w
  | Go _ _ => fun _ w' => w' = w
  | Detect _ => fun a w' => w' = w /\ (a.2 = true -> local a.1)
  | Rank proxies _ => fun a w' => w' = w /\ a ≡ₚ proxies
  | Get _ url => fun a w' => w' = set_served (served w ++ [(url, a)]) w
  | MkdirAll | StatDir | ModTime _ | Chmod _ | ProcExists _ | CheckAPI _ _ => fun _ w' => w' = w
  | RemoveAll => fun a w' => match a with None => w' = set_files ∅ w | Some _ => exists f, w' = set_files f w /\ f ⊆ files w end
  | Stat p => fun a w' => w' = w /\ match a with
      | StatMissing => files w !! p = None
      | StatError => True
      | StatSize n => exists s, files w !! p = Some s /\ n = Z.of_nat (strlen s)
      end
  | ReadFile p => fun a w' => w' = w /\ match a with
      | ReadMissing => files w !! p = None
      | ReadError => True
      | ReadData s => files w !! p = Some s
      end
  | WriteFile p s => fun a w' => match a with
      | None => w' = set_files (<[p := s]> (files w)) w
      | Some _ => exists s', w' = w \/ w' = set_files (<[p := s']> (files w)) w
      end
  | OpenTrunc p => fun a w' => w' = match a with None => set_files (<[p := ""]> (files w)) w | Some _ => w end
  | Write p s => fun a w' =>
      (a.1 <= strlen s)%nat /\ (a.1 < strlen s -> is_Some a.2)%nat /\
      w' = set_files (<[p := default "" (files w !! p) +++ of_chars (take a.1 (chars s))]> (files w)) w
  | Rename a b => fun r w' => match r with
      | None => exists s, files w !! a = Some s /\ w' = set_files (<[b := s]> (delete a (files w))) w
      | Some _ => w' = w
      end
  | Remove p => fun r w' => match r with
      | Removed => w' = set_files (delete p (files w)) w
      | RemoveMissing => w' = w /\ files w !! p = None
      | RemoveError _ => w' = w
      end
  | Exec cmd => fun _ w' => exists f, w' = set_ran (ran w ++ [cmd]) (set_files f w) /\ forall p, p ∈ task_files -> f !! p = files w !! p
  | JSON code d => fun _ w' => w' = set_replies (replies w ++ [(code, d)]) w
  end.

Definition forks (c : call) : list (prog unit) :=
  match c with
  | Go TUpdate ctx => [runMihomoDataUpdate ctx]
  | Go TInstall ctx => [runMihomoInstall ctx]
  | _ => []
  end.

(** * Programs that only ask *)

(** Calls that change no file of the tasks and no status. *)
Definition asking (c : call) : bool :=
  match c with
  | SetUpdate _ | SetInstall _ | OpenTrunc _ | Write _ _ | Rename _ _ | Remove _ | WriteFile _ _ | RemoveAll => false
  | _ => true
  end.
Abbreviation asks p := (all_calls (fun c => asking c = true) p).

Lemma asks_fetch_lines urls : forall e, asks (fetch_lines urls e).
Proof.
  induction urls as [|u urls IH]; intros e; cbn [fetch_lines]; [done|]. split; [done|]. intros r.
  cbn [mbind prog_bind perform]. destruct (fetch_response u r); [apply IH|done].
Qed.
Lemma asks_fetch url : asks (mihomoFetchText url).
Proof.
  unfold mihomoFetchText. split; [done|]. intros [proxyURL []]; cbn [mbind prog_bind]; [|apply asks_fetch_lines].
  split; [done|]. intros r. cbn [mbind prog_bind]. destruct (fetch_response _ r); [apply asks_fetch_lines|done].
Qed.
Lemma asks_running : asks isMihomoRunning.
Proof.
  split; [done|]. intros [| |data]; [done..|]. cbn [mbind prog_bind perform]. destruct (Atoi _); [|done]. split; [done|]. by intros [].
Qed.
Lemma asks_script action : asks (runMihomoMmSh action).
Proof. split; [done|]. by intros [| |n]. Qed.

(** * A task and the others *)

Lemma tmp_ne s : s +++ ".tmp" <> s.
Proof. intros H. apply (f_equal strlen) in H. rewrite strlen_append in H. cbn in H. lia. Qed.

Section Task.
(** The files of the task, its state. *)
Context (owned : list string) (st : world -> string).
Context (Hscripts : forall p, p ∈ owned -> p ∈ task_files).

(** The files of the task stay; responses may be added. *)
Definition calm (w w' : world) : Prop :=
  (forall p, p ∈ owned -> files w' !! p = files w !! p) /\ served w `prefix_of` served w'.
(** What the others do while the task runs. *)
Definition others (w w' : world) : Prop := calm w w' /\ st w' = st w.

#[local] Instance calm_order : PreOrder calm.
Proof. split; [by split|]. intros w1 w2 w3 [F1 S1] [F2 S2]. split; [|by etrans]. intros p Hp. by rewrite F2, F1. Qed.
#[local] Instance others_order : PreOrder others.
Proof. split; [by split|]. intros w1 w2 w3 [C1 S1] [C2 S2]. split; [by etrans|congruence]. Qed.

Definition touches (c : call) : list string :=
  match c with
  | OpenTrunc p | Write p _ | Remove p | WriteFile p _ => [p]
  | Rename a b => [a; b]
  | _ => []
  end.
Definition calm_call (c : call) : Prop := (forall p, p ∈ touches c -> p ∉ owned) /\ c <> RemoveAll.

Lemma calm_insert p v w : p ∉ owned -> calm w (set_files (<[p := v]> (files w)) w).
Proof. intros Hp. split; [|done]. intros q Hq. cbn. apply lookup_insert_ne. by intros ->. Qed.
Lemma calm_delete p w : p ∉ owned -> calm w (set_files (delete p (files w)) w).
Proof. intros Hp. split; [|done]. intros q Hq. cbn. apply lookup_delete_ne. by intros ->. Qed.

Lemma calm_effect c w a w' : calm_call c -> does c w a w' -> calm w w'.
Proof.
  intros [Hc Hr] Hd. destruct c; cbn in Hd, Hc; try congruence;
    try (assert (Hp : path ∉ owned) by (apply Hc; left));
    repeat match goal with H : exists _, _ |- _ => destruct H | H : _ /\ _ |- _ => destruct H end; subst;
    try reflexivity; try (split; cbn; [intros; done|first [done | by apply prefix_app_r]]).
  - destruct a as [e|]; [|by subst; apply calm_insert]. destruct Hd as [s' [->| ->]]; [done|by apply calm_insert].
  - subst. destruct a as [e|]; [done|by apply calm_insert].
  - by apply calm_insert.
  - destruct a as [e|]; [by subst|]. destruct Hd as (s & _ & ->).
    assert (from ∉ owned /\ to ∉ owned) as [Ha Hb] by (split; apply Hc; [left|right; left]).
    split; [|done]. intros q Hq. cbn. rewrite lookup_insert_ne, lookup_delete_ne; [done| |]; by intros ->.
  - destruct a as [|e|]; [destruct Hd as [-> _]; reflexivity|subst; reflexivity|subst; by apply calm_delete].
  - split; [|done]. intros p Hp. cbn. auto.
Qed.

(** ** Steps that leave the files alone *)

Definition stable (P : world -> Prop) : Prop := forall w w', calm w w' -> P w -> P w'.
Abbreviation among p Q w := (wpr does others p Q w).

Lemma among_calm {B} (P : world -> Prop) c (f : answer c -> prog B) Q w : calm_call c -> stable P -> P w ->
  (forall w1 a w2, P w1 -> does c w1 a w2 -> P w2 -> among (f a) Q w2) -> among (invoke c ≫= f) Q w.
Proof.
  intros Hc HP Hw Hf. apply wpr_call. intros w1 a w2 [Hr _] Hd. assert (P w1) by by eapply HP.
  apply (Hf w1 a w2); [done|done|]. eapply HP; [by eapply calm_effect|done].
Qed.
Lemma among_do {B} (P : world -> Prop) c (f : answer c -> prog B) Q w : stable P -> P w ->
  (forall w1 a w2, P w1 -> does c w1 a w2 -> among (f a) Q w2) -> among (invoke c ≫= f) Q w.
Proof. intros HP Hw Hf. apply wpr_call. intros w1 a w2 [Hr _] Hd. apply (Hf w1 a w2); [by eapply HP|done]. Qed.
Lemma among_done {A} (P : world -> Prop) (a : A) (Q : A -> world -> Prop) w : stable P -> P w ->
  (forall w', P w' -> Q a w') -> among (mret a) Q w.
Proof. intros HP Hw HQ. apply wpr_ret. intros w' [Hr _]. apply HQ. by eapply HP. Qed.
Lemma among_then {A B} (p : prog A) (f : A -> prog B) (Q' : A -> world -> Prop) Q w :
  among p Q' w -> (forall a w', Q' a w' -> among (f a) Q w') -> among (p ≫= f) Q w.
Proof. intros Hp Hf. apply wpr_bind; [exact _|]. eapply wpr_mono; [|exact Hp]. exact Hf. Qed.

(** Programs all of whose calls leave the files alone. *)
Lemma among_quiet {A} (P : world -> Prop) (p : prog A) w : stable P -> P w -> all_calls calm_call p -> among p (fun _ => P) w.
Proof.
  intros HP. revert w. induction p as [a|c k IH]; intros w Hw Hc; cbn.
  - intros w' [Hr _]. by eapply HP.
  - intros w1 a w2 [Hr _] Hd. destruct Hc as [Hc Hk]. apply IH; [|done]. eapply HP; [by eapply calm_effect|]. by eapply HP.
Qed.
Lemma among_quiet_then {A B} (P : world -> Prop) (p : prog A) (f : A -> prog B) Q w : stable P -> P w -> all_calls calm_call p ->
  (forall a w', P w' -> among (f a) Q w') -> among (p ≫= f) Q w.
Proof. intros HP Hw Hp Hf. eapply among_then; [by apply (among_quiet P)|]. exact Hf. Qed.

Lemma calm_nothing c : touches c = [] -> c <> RemoveAll -> calm_call c.
Proof. intros Ht Hr. split; [|done]. rewrite Ht. by intros p ?%elem_of_nil. Qed.
Hint Extern 1 (calm_call _) => apply calm_nothing; [reflexivity|discriminate] : core.

(** ** A download *)

Section Download.
Context (dest : string) (F : string -> option string).
Hypothesis (Hdest : dest ∈ owned) (Htmp : dest +++ ".tmp" ∈ owned).
Abbreviation tmp := (dest +++ ".tmp").

(** The files as before, except the temporary one. *)
Definition before (w : world) : Prop := forall p, p ∈ owned -> p <> tmp -> files w !! p = F p.
(** The destination holds [s]. *)
Definition after (s : string) (w : world) : Prop :=
  files w !! dest = Some s /\ forall p, p ∈ owned -> p <> tmp -> p <> dest -> files w !! p = F p.

Lemma before_stable : stable before.
Proof. intros w w' [Hf _] Hb p Hp Hn. rewrite Hf by done. by apply Hb. Qed.
Lemma after_stable s : stable (after s).
Proof. intros w w' [Hf _] [H1 H2]. split; [by rewrite Hf|]. intros p Hp Hn Hd. rewrite Hf by done. by apply H2. Qed.

Lemma before_tmp f w : before w -> (forall p, p <> tmp -> f !! p = files w !! p) -> before (set_files f w).
Proof. intros Hb Hf p Hp Hn. cbn. rewrite Hf by done. by apply Hb. Qed.

Lemma remove_tmp {A} (a : A) (Q : A -> world -> Prop) w : before w -> (forall w', before w' -> Q a w') ->
  among (_ ← invoke (Remove tmp); mret a) Q w.
Proof.
  intros Hw HQ. apply (among_do before); [apply before_stable|done|]. intros w1 r w2 Hw1 Hd.
  apply (among_done before); [apply before_stable| |done]. cbn in Hd. destruct r as [|e|]; [by destruct Hd as [-> _]|by subst|subst].
  apply before_tmp; [done|]. intros p Hp. by apply lookup_delete_ne.
Qed.

Section Storing.
Context (X : string * response).
(** The copy writes [s] to the temporary file. *)
Record writing (s : string) (w : world) : Prop := mkWriting {
  wr_before : before w; wr_tmp : files w !! tmp = Some s; wr_served : X ∈ served w }.
Lemma writing_calm s : stable (writing s).
Proof.
  intros w w' Hc [H1 H2 H3]. split; [by eapply before_stable| |].
  - destruct Hc as [Hf _]. by rewrite Hf.
  - destruct Hc as [_ [l Hl]]. rewrite Hl. apply elem_of_app. by left.
Qed.
Hint Resolve before_stable writing_calm after_stable : core.

Lemma progress_calm t d total : all_calls calm_call (onProgress t d total).
Proof. destruct t as [[]|]; [split; [by auto|done]|split; [by auto|done]|done]. Qed.

Definition save_post (s : string) (fin : option error) (c : copied) (w : world) : Prop :=
  before w /\ (c = Copied None -> fin = None /\ writing s w).

Lemma save_failed s c fin w : before w -> c <> Copied None -> among (mret c) (save_post s fin) w.
Proof. intros Hw Hc. by apply (among_done before); [apply before_stable| |split]. Qed.

Lemma among_read t total s data d k fin all w : writing s w ->
  (forall d' w', writing (s +++ data) w' -> among (k d') (save_post all fin) w') ->
  among (save_read t total tmp data d k) (save_post all fin) w.
Proof.
  intros Hw Hk. unfold save_read. case_bool_decide as Hd.
  - apply Hk. subst. assert (s +++ "" = s) as -> by (apply chars_inj; by rewrite chars_append, app_nil_r). done.
  - apply (wpr_call does others (Write tmp data)). intros w1 [n werr] w2 [Hr _] (Hn & Herr & ->). cbn [fst snd] in *.
    destruct (writing_calm s _ _ Hr Hw) as [Hb Ht HX]. rewrite Ht. cbn [default].
    set (w2 := set_files _ w1).
    assert (Hw2 : writing (s +++ of_chars (take n (chars data))) w2).
    { split; [|by cbn; rewrite lookup_insert_eq|done]. apply before_tmp; [done|]. intros p Hp. by apply lookup_insert_ne. }
    eapply (among_quiet_then (writing _)); [apply writing_calm|exact Hw2|apply progress_calm|]. intros _ w3 Hw3.
    destruct werr as [e|]; [by apply save_failed; [apply (wr_before _ _ Hw3)|]|].
    destruct (Nat.eqb_spec n (strlen data)) as [->|Hne]; cbn [negb].
    + rewrite all_chars in Hw3 by done. by apply Hk.
    + by apply save_failed; [apply (wr_before _ _ Hw3)|].
Qed.

Lemma among_body ctx t total last fin l : forall s d w, writing s w ->
  among (save_body ctx t total tmp l last fin d) (save_post (s +++ concat_strings l +++ last) fin) w.
Proof.
  induction l as [|data l IH]; intros s d w Hw; cbn [save_body concat_strings fold_right]; unfold ctx_err;
    (eapply (among_calm (writing s) (CtxErr ctx)); [by auto|apply writing_calm|exact Hw|]; intros _ e w' _ _ Hw';
     destruct e as [e|]; [by apply save_failed; [apply (wr_before _ _ Hw')|]|]);
    (eapply among_read; [exact Hw'|]); intros d' w1 Hw1.
  - apply (among_done (writing (s +++ last))); [apply writing_calm|exact Hw1|]. intros w2 Hw2. split; [apply (wr_before _ _ Hw2)|].
    intros [= ->]. by split.
  - specialize (IH (s +++ data) d' w1 Hw1). by rewrite !append_assoc in IH |- *.
Qed.

(** What storing a response leaves behind. *)
Definition store_post (b : body) (r : stored) (w : world) : Prop :=
  match r with
  | Stored => last_error b = None /\ body_bytes b <> "" /\ after (body_bytes b) w /\ X ∈ served w
  | _ => before w
  end.

Lemma among_store ctx t len b w : before w -> X ∈ served w -> among (store ctx t dest len b) (store_post b) w.
Proof.
  intros Hw HX. unfold store. apply (wpr_call does others (OpenTrunc tmp)). intros w1 o w2 [Hr _] Hd. cbn in Hd.
  pose proof (before_stable _ _ Hr Hw) as Hb1.
  assert (HX1 : X ∈ served w1) by (destruct Hr as [_ [l Hl]]; rewrite Hl; apply elem_of_app; by left).
  destruct o as [e|]; [by subst; apply (among_done before); [apply before_stable| |]|].
  assert (Hw2 : writing "" w2).
  { subst w2. split; [|by cbn; rewrite lookup_insert_eq|done]. apply before_tmp; [done|]. intros p Hp. by apply lookup_insert_ne. }
  eapply among_then; [by apply among_body|]. change ("" +++ ?x) with x. intros c w3 [Hb3 Hc].
  destruct c as [e|[e|]]; [by apply remove_tmp|by apply remove_tmp|]. destruct (Hc eq_refl) as [Hfin Hw3]. clear Hc.
  eapply (among_calm (writing _) (Stat tmp)); [by auto|apply writing_calm|exact Hw3|]. intros w4 info w5 _ Hd5 Hw5. cbn in Hd5.
  destruct info as [| |n]; try by apply remove_tmp; [apply (wr_before _ _ Hw5)|]. destruct Hd5 as [-> (s & Hs & ->)].
  rewrite (wr_tmp _ _ Hw5) in Hs. injection Hs as <-. fold (body_bytes b) in Hw5 |- *.
  destruct (Z.eqb_spec (Z.of_nat (strlen (body_bytes b))) 0) as [H0|H0]; [by apply remove_tmp; [apply (wr_before _ _ Hw5)|]|].
  assert (Hne : body_bytes b <> "") by (intros He; by rewrite He in H0).
  apply (among_do (writing (body_bytes b)) (Rename tmp dest)); [apply writing_calm|done|]. intros w6 r w7 Hw6 Hd7. cbn in Hd7.
  destruct r as [e|]; [by subst; apply remove_tmp; [apply (wr_before _ _ Hw6)|]|].
  destruct Hd7 as (s & Hs & ->). rewrite (wr_tmp _ _ Hw6) in Hs. injection Hs as <-.
  apply (among_done (fun w => after (body_bytes b) w /\ X ∈ served w)).
  - intros v v' Hc [H1 H2]. split; [by eapply after_stable|]. destruct Hc as [_ [l Hl]]. rewrite Hl. apply elem_of_app. by left.
  - split; [|apply (wr_served _ _ Hw6)]. split; cbn; [by rewrite lookup_insert_eq|]. intros p Hp Hn Hd'.
    rewrite lookup_insert_ne, lookup_delete_ne by congruence. by apply (wr_before _ _ Hw6).
  - intros w8 [H1 H2]. by split_and!.
Qed.
End Storing.

(** A complete body of a line of [url] that answered with success. *)
Definition complete (url s : string) (w : world) : Prop :=
  exists u text len b, lines_of url mihomoProxies u /\ (u, Response 200 text len b) ∈ served w /\ last_error b = None /\
    body_bytes b <> "" /\ s = body_bytes b.
Lemma complete_grows url s w w' : served w `prefix_of` served w' -> complete url s w -> complete url s w'.
Proof.
  intros [l Hl] (u & text & len & b & Hu & HX & H). exists u, text, len, b. split_and!; try apply H; [done|].
  rewrite Hl. apply elem_of_app. by left.
Qed.
Lemma complete_stable url s : stable (complete url s).
Proof. intros w w' [_ Hs]. by apply complete_grows. Qed.

(** What a download leaves behind: the files as before, or the destination
    replaced by a complete body. *)
Definition download_post (url : string) (r : option error) (w : world) : Prop :=
  match r with Some _ => before w | None => exists s, complete url s w /\ after s w end.
Lemma done_stable url : stable (fun w => exists s, complete url s w /\ after s w).
Proof. intros w w' Hc (s & H1 & H2). exists s. split; [by eapply complete_stable|by eapply after_stable]. Qed.

Lemma line_failed url e w : before w -> among (mret (Some e)) (download_post url) w.
Proof. intros Hw. by apply (among_done before); [apply before_stable| |]. Qed.
Lemma download_done url u text len b w : lines_of url mihomoProxies u ->
  store_post (u, Response 200 text len b) b Stored w -> among (mret None) (download_post url) w.
Proof.
  intros Hu (Hfin & Hne & Ha & HX). apply (among_done (fun w => exists s, complete url s w /\ after s w)); [apply done_stable| |done].
  exists (body_bytes b). split; [|done]. by exists u, text, len, b.
Qed.

Lemma original_line url : lines_of url mihomoProxies url.
Proof. exists mihomoProxies. split; [done|]. apply original_tried. Qed.

(** A response that has just arrived. *)
Lemma among_get {B} proxy u (f : response -> prog B) Q w : before w ->
  (forall r w', before w' -> (u, r) ∈ served w' -> among (f r) Q w') -> among (invoke (Get proxy u) ≫= f) Q w.
Proof.
  intros Hw Hf. apply (among_calm before (Get proxy u)); [by auto|apply before_stable|done|]. intros w1 r w2 _ -> Hw2. apply Hf; [done|].
  cbn. apply elem_of_app. right. left.
Qed.

Lemma among_client ctx proxy url t w : before w ->
  among (mihomoDownloadFileWithClient ctx proxy url dest t) (download_post url) w.
Proof.
  intros Hw. unfold mihomoDownloadFileWithClient. apply among_get; [done|]. intros r w1 Hw1 HX.
  destruct r as [e|e|code text len b]; try by apply line_failed. destruct (Z.eqb_spec code 200) as [->|]; cbn [negb]; [|by apply line_failed].
  eapply among_then; [by apply (among_store (url, Response 200 text len b))|]. intros s w2 Hs.
  destruct s as [|e|e]; [|by apply line_failed..]. eapply download_done; [apply original_line|exact Hs].
Qed.

Lemma among_lines ctx url t urls : (forall u, u ∈ urls -> lines_of url mihomoProxies u) -> forall e w, before w ->
  among (download_lines ctx dest t urls e) (download_post url) w.
Proof.
  induction urls as [|u urls IH]; intros Hu e w Hw; cbn [download_lines]; [by apply line_failed|].
  assert (Hgo : forall e w, before w -> among (download_lines ctx dest t urls (Some e)) (download_post url) w).
  { intros e' w' Hw'. apply IH; [|done]. intros v Hv. apply Hu. by right. }
  unfold ctx_err. apply (among_calm before (CtxErr ctx)); [by auto|apply before_stable|done|]. intros _ d w1 _ _ Hw1.
  destruct d as [d|]; [by apply line_failed|]. apply among_get; [done|]. intros r w2 Hw2 HX.
  destruct r as [e'|e'|code text len b]; [by apply Hgo| |].
  - apply (among_calm before (CtxErr ctx)); [by auto|apply before_stable|done|]. intros _ d w3 _ _ Hw3.
    destruct d as [d|]; [by apply line_failed|by apply Hgo].
  - destruct (Z.eqb_spec code 200) as [->|]; cbn [negb]; [|by apply Hgo].
    eapply among_then; [by apply (among_store (u, Response 200 text len b))|]. intros s w3 Hs.
    destruct s as [|e'|e']; [|by apply line_failed|by apply Hgo]. eapply download_done; [|exact Hs]. apply Hu. left.
Qed.

Lemma among_download ctx url t w : before w -> among (mihomoDownloadFile ctx url dest t) (download_post url) w.
Proof.
  intros Hw. unfold mihomoDownloadFile, detect.
  assert (Hl : forall e w, before w -> among (ranked ← invoke (Rank mihomoProxies url);
    download_lines ctx dest t (buildMihomoTryURLs url ranked) e) (download_post url) w).
  { intros e w1 Hw1. apply (among_calm before (Rank mihomoProxies url)); [by auto|apply before_stable|done|].
    intros _ ranked w2 _ [_ Hr] Hw2. apply among_lines; [|done]. intros u Hu. by exists ranked. }
  apply (among_calm before (Detect url)); [by auto|apply before_stable|done|]. intros _ [proxyURL []] w1 _ _ Hw1; [|by apply Hl].
  eapply among_then; [by apply among_client|]. intros r w2 Hr. destruct r as [e|].
  - unfold ctx_err. apply (among_calm before (CtxErr ctx)); [by auto|apply before_stable|done|]. intros _ d w3 _ _ Hw3.
    destruct d as [d|]; [by apply line_failed|by apply Hl].
  - apply (among_done (fun w => exists s, complete url s w /\ after s w)); [apply done_stable|done|done].
Qed.
End Download.

(** ** The state at the end *)

(** A call that decides the state, and one that leaves it. *)
Lemma among_final (P : world -> Prop) c v w : calm_call c -> (forall w a w', does c w a w' -> st w' = v) -> stable P -> P w ->
  among (invoke c) (fun _ w' => P w' /\ st w' = v) w.
Proof.
  intros Hc Hv HP Hw. apply wpr_perform. intros w1 a w2 w3 [H1 _] Hd [H3 Hst]. split; [|by rewrite Hst; eapply Hv].
  eapply HP; [exact H3|]. eapply HP; [by eapply calm_effect|]. by eapply HP.
Qed.
Lemma among_end c (Q : world -> Prop) w : calm_call c -> (forall w a w', does c w a w' -> st w' = st w) ->
  (forall w w', others w w' -> Q w -> Q w') -> Q w -> among (invoke c) (fun _ => Q) w.
Proof.
  intros Hc Hv HQ Hw. apply wpr_perform. intros w1 a w2 w3 H1 Hd H3. apply (HQ w2 w3 H3). apply (HQ w1 w2); [|exact (HQ w w1 H1 Hw)].
  split; [by eapply calm_effect|by eapply Hv].
Qed.
Lemma among_kept {A} (a : A) (Q : A -> world -> Prop) w : (forall w w', others w w' -> Q a w -> Q a w') -> Q a w -> among (mret a) Q w.
Proof. intros HQ Hw. apply wpr_ret. intros w' Hr. exact (HQ w w' Hr Hw). Qed.

(** Responses are never forgotten. *)
Lemma does_served c w a w' : does c w a w' -> served w `prefix_of` served w'.
Proof.
  intros Hd. destruct c; cbn in Hd;
    repeat match goal with H : exists _, _ |- _ => destruct H | H : _ /\ _ |- _ => destruct H end; subst;
    try done; try (by apply prefix_app_r).
  - destruct a; [|by subst]. by destruct Hd as (f & -> & _).
  - destruct a; [|by subst]. by destruct Hd as [s [->| ->]].
  - by destruct a.
  - destruct a; [by subst|]. by destruct Hd as (s & _ & ->).
  - destruct a; [by destruct Hd as [-> _]|by subst|by subst].
Qed.
Lemma among_served {A} (p : prog A) w0 w : served w0 `prefix_of` served w -> among p (fun _ w' => served w0 `prefix_of` served w') w.
Proof.
  revert w. induction p as [a|c k IH]; intros w Hw; cbn.
  - intros w' [[_ Hr] _]. by etrans.
  - intros w1 a w2 [[_ Hr] _] Hd. apply IH. etrans; [exact Hw|]. etrans; [exact Hr|]. by eapply does_served.
Qed.

Lemma asking_calm c : asking c = true -> calm_call c.
Proof. intros Hc. by destruct c; try discriminate; apply calm_nothing. Qed.
Lemma asks_quiet {A} (p : prog A) : asks p -> all_calls calm_call p.
Proof. apply all_calls_mono. apply asking_calm. Qed.
End Task.

(** * The update of the data files *)

Definition data_names : list string := map fst mihomoDataFiles.
Definition update_owned : list string := map file data_names ++ map (fun n => file n +++ ".tmp") data_names.
Definition update_state (w : world) : string := u_State (update w).

(** The names of the files and of their temporary versions differ. *)
Definition names_apart (names owned : list string) : bool :=
  forallb (fun n => bool_decide (file n ∈ owned) && bool_decide (file n +++ ".tmp" ∈ owned) &&
    forallb (fun m => negb (bool_decide (file m = file n +++ ".tmp")) && (bool_decide (m = n) || negb (bool_decide (file m = file n)))) names) names.
Lemma names_apart_spec names owned n : names_apart names owned = true -> n ∈ names ->
  file n ∈ owned /\ file n +++ ".tmp" ∈ owned /\ forall m, m ∈ names -> file m <> file n +++ ".tmp" /\ (m <> n -> file m <> file n).
Proof.
  intros H Hn. unfold names_apart in H. rewrite forallb_forall in H. specialize (H n (proj1 (list_elem_of_In _ _) Hn)).
  apply andb_true_iff in H as [[H1%bool_decide_eq_true H2%bool_decide_eq_true]%andb_true_iff H3]. split_and!; [done|done|].
  intros m Hm. rewrite forallb_forall in H3. specialize (H3 m (proj1 (list_elem_of_In _ _) Hm)).
  apply andb_true_iff in H3 as [H3%negb_true_iff H4]. apply bool_decide_eq_false in H3. split; [done|]. intros Hne.
  apply orb_true_iff in H4 as [H4%bool_decide_eq_true|H4%negb_true_iff]; [done|]. by apply bool_decide_eq_false in H4.
Qed.
Lemma update_apart : names_apart data_names update_owned = true.
Proof. vm_compute. reflexivity. Qed.
Lemma update_scripts p : p ∈ update_owned -> p ∈ task_files.
Proof.
  intros Hp. assert (H : forallb (fun p => bool_decide (p ∈ task_files)) update_owned = true) by (vm_compute; reflexivity).
  rewrite forallb_forall in H. by eapply bool_decide_eq_true, H, list_elem_of_In.
Qed.

Section Updating.
Context (F0 : string -> option string).

(** The file of a name, complete or as it was. *)
Definition good (n : string) (w : world) : Prop := exists s, complete (mihomoDataBaseURL +++ n) s w /\ files w !! file n = Some s.
Definition old (n : string) (w : world) : Prop := files w !! file n = F0 (file n).
Definition updating (done rest : list string) (w : world) : Prop :=
  (forall n, n ∈ done -> good n w) /\ (forall n, n ∈ rest -> old n w).

Abbreviation u_calm := (calm update_owned).
Abbreviation u_others := (others update_owned update_state).

Lemma file_owned n : n ∈ data_names -> file n ∈ update_owned.
Proof. intros Hn. by apply (names_apart_spec data_names update_owned n update_apart). Qed.

Lemma good_stable n w w' : n ∈ data_names -> u_calm w w' -> good n w -> good n w'.
Proof.
  intros Hn Hc (s & H1 & H2). exists s. split; [by eapply complete_stable|]. destruct Hc as [Hf _]. by rewrite Hf by by apply file_owned.
Qed.
Lemma old_stable n w w' : n ∈ data_names -> u_calm w w' -> old n w -> old n w'.
Proof. intros Hn [Hf _] H. unfold old. by rewrite Hf by by apply file_owned. Qed.
Lemma updating_stable d r : (forall n, n ∈ (d ++ r)%list -> n ∈ data_names) -> stable update_owned (updating d r).
Proof.
  intros Hn w w' Hc [H1 H2]. split; intros n Hin.
  - eapply good_stable; [apply Hn, elem_of_app; by left|done|by apply H1].
  - eapply old_stable; [apply Hn, elem_of_app; by right|done|by apply H2].
Qed.

(** When the loop returns. *)
Definition loop_post (r : bool) (w : world) : Prop :=
  if r then forall n, n ∈ data_names -> good n w
  else update_state w ∈ ["failed"; "canceled"] /\ forall n, n ∈ data_names -> good n w \/ old n w.
Lemma loop_post_others r w w' : u_others w w' -> loop_post r w -> loop_post r w'.
Proof.
  intros [Hc Hs]. destruct r; cbn.
  - intros H n Hn. eapply good_stable; [done|done|by apply H].
  - intros [H1 H2]. split; [by rewrite Hs|]. intros n Hn. destruct (H2 n Hn); [left; by eapply good_stable|right; by eapply old_stable].
Qed.

Lemma set_update_state fn v w a w' : (forall s, u_State (fn s) = v) -> does (SetUpdate (fun _ => fn)) w a w' -> update_state w' = v.
Proof.
  intros Hv (n1 & n2 & ->). unfold update_state. cbn. unfold setMihomoUpdateStatus. specialize (Hv (update w)).
  by destruct (fn (update w)).
Qed.

(** The loop gives up. *)
Lemma loop_fails fn v d r w : (forall s, u_State (fn s) = v) -> v ∈ ["failed"; "canceled"] ->
  (d ++ r)%list = data_names -> updating d r w ->
  wpr does u_others (_ ← set_update fn; mret false) loop_post w.
Proof.
  intros Hv Hin Hdr Hw. assert (Hn : forall n, n ∈ (d ++ r)%list -> n ∈ data_names) by (intros n; by rewrite Hdr).
  eapply among_then.
  - eapply (among_final update_owned update_state update_scripts (updating d r) (SetUpdate (fun _ => fn)) v); [by apply calm_nothing| |by apply updating_stable|done].
    intros. by eapply set_update_state.
  - intros _ w' [[H1 H2] Hst]. apply (among_kept update_owned update_state); [intros; by eapply loop_post_others|]. split; [by rewrite Hst|].
    intros n. rewrite <- Hdr, elem_of_app. intros [?|?]; [left; auto|right; auto].
Qed.

Lemma calm_n c : touches c = [] -> c <> RemoveAll -> calm_call update_owned c.
Proof. apply calm_nothing. Qed.

Lemma among_update_files ctx total rest : forall d i w, (d ++ rest)%list = data_names -> NoDup data_names -> updating d rest w ->
  wpr does u_others (update_files ctx total i rest) loop_post w.
Proof.
  induction rest as [|n rest IH]; intros d i w Hdr Hnd Hw; cbn [update_files].
  { rewrite app_nil_r in Hdr. subst d. apply (among_kept update_owned update_state); [intros; by eapply loop_post_others|]. exact (proj1 Hw). }
  assert (Hin : forall m, m ∈ (d ++ n :: rest)%list -> m ∈ data_names) by (intros m; by rewrite Hdr).
  assert (Hn : n ∈ data_names) by (apply Hin, elem_of_app; right; left).
  pose proof (updating_stable d (n :: rest) Hin) as Hstable.
  unfold ctx_err. apply (among_calm update_owned update_state update_scripts (updating d (n :: rest)) (CtxErr ctx)); [by apply calm_n|done|done|].
  intros _ e w1 _ _ Hw1. destruct e as [e|]; [apply (loop_fails _ "canceled" d (n :: rest)); [done|right; left|exact Hdr|exact Hw1]|].
  apply (among_calm update_owned update_state update_scripts (updating d (n :: rest)) (SetUpdate _)); [by apply calm_n|done|done|].
  intros _ a w2 _ _ Hw2.
  destruct (names_apart_spec data_names update_owned n update_apart Hn) as (Ho & Ht & Hapart).
  eapply among_then.
  { apply (wpr_and does u_others); [|apply (among_served update_owned update_state _ w2); done].
    apply (among_download update_owned update_state update_scripts (file n) (fun p => files w2 !! p) Ho Ht). by intros p. }
  intros r w3 [Hr Hserved]. destruct Hw2 as [Hgood Hold].
  assert (Hkeep : forall m, m ∈ data_names -> m <> n -> files w3 !! file m = files w2 !! file m).
  { intros m Hm Hne. destruct (Hapart m Hm) as [H1 H2]. pose proof (file_owned m Hm).
    destruct r as [e|]; [by apply Hr|]. destruct Hr as (s & _ & _ & Hr). apply Hr; auto. }
  assert (Hgood3 : forall m, m ∈ d -> m <> n -> good m w3).
  { intros m Hm Hne. destruct (Hgood m Hm) as (s & Hs & Hf). exists s. split; [by eapply complete_grows|].
    rewrite Hkeep; [done| |done]. apply Hin, elem_of_app. by left. }
  pose proof Hnd as Hnd'. rewrite <- Hdr in Hnd'. apply NoDup_app in Hnd' as (_ & Hd & Hrest). apply NoDup_cons in Hrest as [Hnr _].
  assert (Hdn : forall m, m ∈ d -> m <> n) by (intros m Hm ->; eapply Hd; [exact Hm|left]).
  assert (Hrn : forall m, m ∈ rest -> m <> n) by (intros m Hm ->; done).
  assert (Hold3 : forall m, m ∈ rest -> old m w3).
  { intros m Hm. unfold old. rewrite Hkeep; [|apply Hin, elem_of_app; right; by right|by apply Hrn]. apply Hold. by right. }
  destruct r as [e|].
  - assert (Hw3 : updating d (n :: rest) w3).
    { split; [intros m Hm; apply Hgood3; auto|]. intros m [->|Hm]%elem_of_cons; [|by apply Hold3]. unfold old.
      rewrite Hr; [apply Hold; left|done|by apply Hapart]. }
    destruct (is_canceled e); [apply (loop_fails _ "canceled" d (n :: rest))|apply (loop_fails _ "failed" d (n :: rest))]; try done; [right|]; left.
  - destruct Hr as (s & Hs & Hf & _). apply (IH (d ++ [n])%list); [by rewrite <- app_assoc|done|].
    split; [|done]. intros m [Hm|Hm%list_elem_of_singleton]%elem_of_app; [apply Hgood3; auto|]. subst m. by exists s.
Qed.

(** ** The end of the task *)

Definition all_good (w : world) : Prop := forall n, n ∈ data_names -> good n w.
Lemma all_good_stable : stable update_owned all_good.
Proof. intros w w' Hc H n Hn. eapply good_stable; [done|done|by apply H]. Qed.

(** The state says which: done with all files complete, or each file complete or
    as it was. *)
Definition update_post (w : world) : Prop :=
  (update_state w = "done" /\ all_good w) \/
  (update_state w ∈ ["failed"; "canceled"] /\ forall n, n ∈ data_names -> good n w \/ old n w).
Lemma update_post_others w w' : u_others w w' -> update_post w -> update_post w'.
Proof.
  intros Ho [[H1 H2]|H].
  - left. destruct Ho as [Hc Hs]. split; [by rewrite Hs|by eapply all_good_stable].
  - right. by apply (loop_post_others false w w' Ho).
Qed.

Lemma among_finish w : all_good w -> wpr does u_others finish_update (fun _ => update_post) w.
Proof.
  intros Hw. unfold finish_update. pose proof all_good_stable as Hs.
  assert (Hwrite : forall v, all_calls (calm_call update_owned) (invoke (WriteFile (file "data_version.txt") v))).
  { intros v. split; [|done]. split; [|done]. intros p ->%list_elem_of_singleton. apply (bool_decide_unpack _). vm_compute. exact Logic.I. }
  eapply (among_quiet_then update_owned update_state update_scripts all_good); [exact Hs|exact Hw|apply asks_quiet, asks_fetch|]. intros v w1 Hw1.
  eapply (among_quiet_then update_owned update_state update_scripts all_good); [exact Hs|exact Hw1| |].
  { destruct v as [e|v]; [done|]. destruct (bool_decide _); [done|]. apply all_calls_bind; [apply Hwrite|done]. }
  intros _ w2 Hw2. eapply (among_quiet_then update_owned update_state update_scripts all_good); [exact Hs|exact Hw2|apply asks_quiet, asks_running|]. intros r w3 Hw3.
  eapply (among_quiet_then update_owned update_state update_scripts all_good); [exact Hs|exact Hw3| |].
  { destruct r as [pid|]; [|done]. split; [by apply calm_n|]. intros ?. apply all_calls_bind; [apply asks_quiet, asks_script|done]. }
  intros _ w4 Hw4. eapply wpr_mono.
  2:{ eapply (among_final update_owned update_state update_scripts all_good (SetUpdate _) "done"); [by apply calm_n| |exact Hs|exact Hw4].
      intros w5 a w6 Hd. refine (set_update_state _ _ _ _ _ _ Hd). done. }
  intros _ w5 [H1 H2]. by left.
Qed.

Lemma among_update ctx w : (forall p, p ∈ update_owned -> files w !! p = F0 p) ->
  wpr does u_others (runMihomoDataUpdate ctx) (fun _ => update_post) w.
Proof.
  intros H0. assert (Hw : updating [] data_names w).
  { split; [by intros n ?%elem_of_nil|]. intros n Hn. by apply H0, file_owned. }
  pose proof (updating_stable [] data_names (fun n Hn => Hn)) as Hs.
  unfold runMihomoDataUpdate. apply (among_calm update_owned update_state update_scripts (updating [] data_names) MkdirAll); [by apply calm_n|done|done|].
  intros _ m w1 _ _ Hw1. apply (among_then update_owned update_state _ _ (fun _ => update_post)).
  - destruct m as [e|].
    + eapply wpr_mono.
      2:{ eapply (among_final update_owned update_state update_scripts (updating [] data_names) (SetUpdate _) "failed"); [by apply calm_n| |exact Hs|exact Hw1].
          intros w5 a w6 Hd. refine (set_update_state _ _ _ _ _ _ Hd). done. }
      intros _ w2 [[_ H1] H2]. right. split; [rewrite H2; left|]. intros n Hn. right. auto.
    + eapply among_then; [apply (among_update_files ctx _ data_names [] 0 w1); [done| |done]|].
      { apply (bool_decide_unpack _). vm_compute. exact Logic.I. }
      intros [] w2 Hr; [by apply among_finish|].
      apply (among_kept update_owned update_state tt (fun _ => update_post)); [apply update_post_others|by right].
  - intros _ w2 Hw2. apply (among_end update_owned update_state update_scripts); [by apply calm_n| |apply update_post_others|done]. by intros w3 a w4 ->.
Qed.
End Updating.

(** * The installation *)

Definition install_names : list string := ["mm.sh"; "mihomo"; "mihomo.bak"; "mihomo.download.tmp"].
Definition install_owned : list string := map file install_names ++ map (fun n => file n +++ ".tmp") install_names.
Definition install_state (w : world) : string := s_State (install w).
Lemma install_apart : names_apart install_names install_owned = true.
Proof. vm_compute. reflexivity. Qed.
Lemma install_scripts p : p ∈ install_owned -> p ∈ task_files.
Proof.
  intros Hp. assert (H : forallb (fun p => bool_decide (p ∈ task_files)) install_owned = true) by (vm_compute; reflexivity).
  rewrite forallb_forall in H. by eapply bool_decide_eq_true, H, list_elem_of_In.
Qed.
Lemma bak_name : file "mihomo" +++ ".bak" = file "mihomo.bak".
Proof. vm_compute. reflexivity. Qed.

Section Installing.
Context (F0 : string -> option string).
Abbreviation i_calm := (calm install_owned).
Abbreviation i_others := (others install_owned install_state).
Abbreviation mm := (file "mm.sh").
Abbreviation bin := (file "mihomo").
Abbreviation bak := (file "mihomo.bak").

Lemma in_names n : n ∈ install_names -> file n ∈ install_owned.
Proof. intros Hn. by apply (names_apart_spec install_names install_owned n install_apart). Qed.

(** A script that was there stays; otherwise there is none or a complete one. *)
Definition script_ok (w : world) : Prop :=
  files w !! mm = F0 mm \/ (F0 mm = None /\ exists s, complete mihomoInstallMmShURL s w /\ files w !! mm = Some s).
(** The binary and its backup as they were; or the binary moved to the backup. *)
Definition in_place (w : world) : Prop := files w !! bin = F0 bin /\ files w !! bak = F0 bak.
Definition moved (w : world) : Prop := exists b, F0 bin = Some b /\ files w !! bin = None /\ files w !! bak = Some b.
(** A complete new binary under the temporary name. *)
Definition fetched (s : string) (w : world) : Prop := complete mihomoInstallBinaryURL s w /\ files w !! tmpBin = Some s.

Lemma calm_file n w w' : i_calm w w' -> n ∈ install_names -> files w' !! file n = files w !! file n.
Proof. intros [Hf _] Hn. apply Hf, in_names, Hn. Qed.
Ltac named := apply (bool_decide_unpack _); vm_compute; exact Logic.I.

Lemma script_stable : stable install_owned script_ok.
Proof.
  intros w w' Hc H. pose proof (calm_file "mm.sh" w w' Hc ltac:(named)) as He. unfold script_ok. rewrite He.
  destruct H as [H|(H & s & Hs & Hf)]; [by left|right]. split; [done|]. exists s. split; [by eapply complete_stable|done].
Qed.
Lemma place_stable : stable install_owned in_place.
Proof.
  intros w w' Hc H. unfold in_place. by rewrite (calm_file "mihomo" w w' Hc ltac:(named)), (calm_file "mihomo.bak" w w' Hc ltac:(named)).
Qed.
Lemma moved_stable : stable install_owned moved.
Proof.
  intros w w' Hc (b & H). exists b. by rewrite (calm_file "mihomo" w w' Hc ltac:(named)), (calm_file "mihomo.bak" w w' Hc ltac:(named)).
Qed.
Lemma fetched_stable s : stable install_owned (fetched s).
Proof.
  intros w w' Hc [H1 H2]. split; [by eapply complete_stable|]. unfold tmpBin. by rewrite (calm_file "mihomo.download.tmp" w w' Hc ltac:(named)).
Qed.
Lemma both_stable (P Q : world -> Prop) : stable install_owned P -> stable install_owned Q -> stable install_owned (fun w => P w /\ Q w).
Proof. intros HP HQ w w' Hc [H1 H2]. split; [by eapply HP|by eapply HQ]. Qed.

(** Changes of one file. *)
Lemma other_file (f : gmap string string) w n m : (forall p, p <> file m -> f !! p = files w !! p) -> n ∈ install_names -> m ∈ install_names -> n <> m ->
  f !! file n = files w !! file n.
Proof.
  intros Hf Hn Hm Hne. apply Hf. destruct (names_apart_spec install_names install_owned m install_apart Hm) as (_ & _ & H).
  by apply H.
Qed.

(** ** What the task leaves behind *)

Definition install_post (w : world) : Prop :=
  script_ok w /\
  ((install_state w = "done" /\ exists s, complete mihomoInstallBinaryURL s w /\ files w !! bin = Some s /\
      forall b, F0 bin = Some b -> files w !! bak = Some b \/ files w !! bak = F0 bak) \/
   (install_state w ∈ ["failed"; "canceled"] /\ (in_place w \/ moved w))).

Lemma install_post_others w w' : i_others w w' -> install_post w -> install_post w'.
Proof.
  intros [Hc Hs] [H1 H2]. split; [by eapply script_stable|]. destruct H2 as [(Hd & s & H3 & H4 & H5)|[Hst H]].
  - left. split; [by rewrite Hs|]. exists s. rewrite (calm_file "mihomo" w w' Hc ltac:(named)), (calm_file "mihomo.bak" w w' Hc ltac:(named)).
    split_and!; [by eapply complete_stable|done|done].
  - right. split; [by rewrite Hs|]. destruct H; [left; by eapply place_stable|right; by eapply moved_stable].
Qed.

Lemma set_install_state fn v w a w' : (forall s, s_State (fn s) = v) -> does (SetInstall (fun _ => fn)) w a w' -> install_state w' = v.
Proof.
  intros Hv (n1 & n2 & ->). unfold install_state. cbn. unfold setMihomoInstallStatus. specialize (Hv (install w)).
  by destruct (fn (install w)).
Qed.

Lemma calm_i c : touches c = [] -> c <> RemoveAll -> calm_call install_owned c.
Proof. apply calm_nothing. Qed.

(** The task gives up with the binary somewhere. *)
Lemma install_fails fn v w : (forall s, s_State (fn s) = v) -> v ∈ ["failed"; "canceled"] ->
  script_ok w /\ (in_place w \/ moved w) -> wpr does i_others (set_install fn) (fun _ => install_post) w.
Proof.
  intros Hv Hin Hw. eapply wpr_mono.
  2:{ eapply (among_final install_owned install_state install_scripts (fun w => script_ok w /\ (in_place w \/ moved w)) (SetInstall (fun _ => fn)) v);
        [by apply calm_i| | |exact Hw].
      - intros w1 a w2 Hd. exact (set_install_state fn v w1 a w2 Hv Hd).
      - apply both_stable; [apply script_stable|]. intros w1 w2 Hc [H|H]; [left; by eapply place_stable|right; by eapply moved_stable]. }
  intros _ w' [[H1 H2] H3]. split; [done|right]. split; [by rewrite H3|done].
Qed.

(** ** Its steps *)

Lemma download_script ctx w : script_ok w /\ in_place w ->
  wpr does i_others (install_script ctx) (fun _ w' => script_ok w' /\ in_place w') w.
Proof.
  intros Hw. pose proof (both_stable _ _ script_stable place_stable) as Hs. unfold install_script.
  assert (Hquit : forall w, script_ok w /\ in_place w -> wpr does i_others (mret tt) (fun _ w' => script_ok w' /\ in_place w') w).
  { intros w1 Hw1. by apply (among_done install_owned install_state (fun w => script_ok w /\ in_place w)). }
  apply (among_calm install_owned install_state install_scripts (fun w => script_ok w /\ in_place w) (Stat mm)); [by apply calm_i|done|done|].
  intros w0 s w1 _ Hd Hw1. cbn in Hd. destruct s as [| |n]; [|by apply Hquit..]. destruct Hd as [<- Hnone].
  set (P := fun w => (F0 mm = None /\ files w !! mm = None) /\ in_place w).
  assert (HP : stable install_owned P).
  { apply both_stable; [|apply place_stable]. intros v v' Hc [H1 H2]. by rewrite (calm_file "mm.sh" v v' Hc ltac:(named)). }
  assert (HPw : P w1).
  { destruct Hw1 as [[H|(H & s & _ & Hf)] Hp]; [|by rewrite Hnone in Hf]. by split; [split; [by rewrite <- H|]|]. }
  apply (among_calm install_owned install_state install_scripts P (SetInstall _)); [by apply calm_i|done|done|]. intros _ _ w2 _ _ Hw2.
  destruct (names_apart_spec install_names install_owned "mm.sh" install_apart ltac:(named)) as (Ho & Ht & Hapart).
  eapply among_then.
  { apply (among_download install_owned install_state install_scripts mm (fun p => files w2 !! p) Ho Ht). by intros p. }
  assert (Hplace : forall w', (forall n, n ∈ ["mihomo"; "mihomo.bak"] -> files w' !! file n = files w2 !! file n) -> in_place w').
  { intros w' H. unfold in_place. rewrite (H "mihomo" ltac:(named)), (H "mihomo.bak" ltac:(named)). apply Hw2. }
  intros r w3 Hr. destruct r as [e|].
  - apply Hquit. split.
    + left. rewrite Hr; [|done|by apply Hapart; named]. destruct Hw2 as [[H1 H2] _]. by rewrite H1, H2.
    + apply Hplace. intros n Hn. assert (Hin : n ∈ install_names) by (revert n Hn; apply Forall_forall; named).
      apply Hr; [by apply in_names|by apply Hapart].
  - destruct Hr as (s & Hc & Hf & Hr).
    assert (Hw3 : script_ok w3 /\ in_place w3).
    { split; [right; split; [apply Hw2|by exists s]|]. apply Hplace. intros n Hn.
      assert (Hin : n ∈ install_names /\ n <> "mm.sh") by (revert n Hn; apply Forall_forall; named).
      destruct Hin as [Hin Hne]. apply Hr; [by apply in_names|by apply Hapart|by apply Hapart]. }
    eapply wpr_mono; [|apply (among_quiet install_owned install_state install_scripts (fun w => script_ok w /\ in_place w)); [done|exact Hw3|]].
    + done.
    + split; [by apply calm_i|done].
Qed.

(** The new binary fetched, the old one somewhere; and the new one in its place. *)
Definition ready (s : string) (w : world) : Prop := script_ok w /\ (in_place w \/ moved w) /\ fetched s w.
Definition replaced (s : string) (w : world) : Prop :=
  script_ok w /\ complete mihomoInstallBinaryURL s w /\ files w !! bin = Some s /\
  forall b, F0 bin = Some b -> files w !! bak = Some b \/ files w !! bak = F0 bak.
Lemma ready_stable s : stable install_owned (ready s).
Proof.
  intros w w' Hc (H1 & H2 & H3). split; [by eapply script_stable|]. split; [|by eapply fetched_stable].
  destruct H2; [left; by eapply place_stable|right; by eapply moved_stable].
Qed.
Lemma replaced_stable s : stable install_owned (replaced s).
Proof.
  intros w w' Hc (H1 & H2 & H3). unfold replaced. rewrite (calm_file "mihomo" w w' Hc ltac:(named)), (calm_file "mihomo.bak" w w' Hc ltac:(named)).
  split_and!; [by eapply script_stable|by eapply complete_stable|apply H3|apply H3].
Qed.

(** A change of files that leaves the script leaves it well. *)
Lemma script_keeps f w : f !! mm = files w !! mm -> script_ok w -> script_ok (set_files f w).
Proof. intros Hf [H|(H & s & H1 & H2)]; [left; cbn; by rewrite Hf|right]. split; [done|]. exists s. cbn. by rewrite Hf. Qed.

Lemma backup_step s w r w' : ready s w -> in_place w -> does (Rename bin bak) w r w' -> ready s w'.
Proof.
  intros (H1 & _ & H3 & H4) [H5 H6] Hd. cbn in Hd. destruct r as [e|]; [subst; split_and!; [done|by left|by split]|].
  destruct Hd as (b & Hb & ->).
  assert (Hf : forall n, n ∈ ["mm.sh"; "mihomo.download.tmp"] -> <[bak := b]> (delete bin (files w)) !! file n = files w !! file n).
  { intros n Hn. assert (Hne : file n <> bak /\ file n <> bin) by (revert n Hn; apply Forall_forall; named).
    by rewrite lookup_insert_ne, lookup_delete_ne by (symmetry; apply Hne). }
  split_and!.
  - apply script_keeps; [by apply (Hf "mm.sh"); named|done].
  - right. exists b. cbn. rewrite lookup_insert_eq, lookup_insert_ne, lookup_delete_eq by named. split_and!; [congruence|done|done].
  - split; [done|]. cbn. unfold tmpBin. rewrite (Hf "mihomo.download.tmp") by named. done.
Qed.

Lemma replace_step s w w' : ready s w -> does (Rename tmpBin bin) w None w' -> replaced s w'.
Proof.
  intros (H1 & H2 & H3 & H4) (s' & Hs & ->). rewrite H4 in Hs. injection Hs as <-.
  assert (Hf : forall n, n ∈ ["mm.sh"; "mihomo.bak"] -> <[bin := s]> (delete tmpBin (files w)) !! file n = files w !! file n).
  { intros n Hn. assert (Hne : file n <> bin /\ file n <> tmpBin) by (revert n Hn; apply Forall_forall; named).
    by rewrite lookup_insert_ne, lookup_delete_ne by (symmetry; apply Hne). }
  split_and!; [apply script_keeps; [by apply (Hf "mm.sh"); named|done]|done|cbn; by rewrite lookup_insert_eq|].
  intros b Hb. cbn. rewrite (Hf "mihomo.bak") by named. destruct H2 as [[_ H2]|(b' & H5 & _ & H6)]; [by right|left]. congruence.
Qed.

Lemma remove_step w r w' : script_ok w /\ (in_place w \/ moved w) -> does (Remove tmpBin) w r w' -> script_ok w' /\ (in_place w' \/ moved w').
Proof.
  intros Hw Hd. cbn in Hd. destruct r as [|e|]; [by destruct Hd as [-> _]|by subst|subst].
  assert (Hf : forall n, n ∈ ["mm.sh"; "mihomo"; "mihomo.bak"] -> delete tmpBin (files w) !! file n = files w !! file n).
  { intros n Hn. apply lookup_delete_ne. revert n Hn. apply Forall_forall. named. }
  destruct Hw as [H1 H2]. split; [by apply script_keeps; [apply (Hf "mm.sh"); named|]|].
  unfold in_place, moved in *. cbn. rewrite (Hf "mihomo"), (Hf "mihomo.bak") by named. done.
Qed.

Lemma safe_stable : stable install_owned (fun w => script_ok w /\ (in_place w \/ moved w)).
Proof.
  apply both_stable; [apply script_stable|]. intros v v' Hc [H|H]; [left; by eapply place_stable|right; by eapply moved_stable].
Qed.

Lemma asks_if {A} (r : option A) action : all_calls (calm_call install_owned) (match r with Some _ => _ ← runMihomoMmSh action; mret tt | None => mret tt end).
Proof. destruct r; [|done]. apply all_calls_bind; [apply asks_quiet, asks_script|done]. Qed.

Lemma among_binary s w : script_ok w -> in_place w -> fetched s w ->
  wpr does i_others (install_binary tmpBin) (fun _ => install_post) w.
Proof.
  intros H1 H2 H3. unfold install_binary. set (P := fun w => (script_ok w /\ in_place w) /\ fetched s w).
  assert (HP : stable install_owned P) by (apply both_stable; [apply both_stable; [apply script_stable|apply place_stable]|apply fetched_stable]).
  assert (Hw : P w) by done. clear H1 H2 H3.
  apply (among_calm install_owned install_state install_scripts P (SetInstall _)); [by apply calm_i|done|done|]. intros _ _ w1 _ _ Hw1.
  eapply (among_quiet_then install_owned install_state install_scripts P); [exact HP|exact Hw1|apply asks_quiet, asks_running|]. intros r w2 Hw2.
  eapply (among_quiet_then install_owned install_state install_scripts P); [exact HP|exact Hw2|apply asks_if|]. intros _ w3 Hw3.
  apply (among_calm install_owned install_state install_scripts P (Stat bin)); [by apply calm_i|done|done|]. intros _ b w4 _ _ Hw4.
  apply (among_then install_owned install_state _ _ (fun _ => ready s)).
  { assert (Hr : forall w, P w -> ready s w) by (intros v [[H1 H2] H3]; split_and!; [done|by left|done]).
    destruct b as [| |n]; try by apply (among_done install_owned install_state P).
    apply (among_do install_owned install_state P); [done|done|]. intros w5 q w6 Hw5 Hd. rewrite bak_name in Hd.
    apply (among_done install_owned install_state (ready s)); [apply ready_stable| |done]. eapply backup_step; [by apply Hr|apply Hw5|exact Hd]. }
  intros _ w5 Hw5. apply (among_do install_owned install_state (ready s) (Rename tmpBin bin)); [apply ready_stable|done|].
  intros w6 m w7 Hw6 Hd. destruct m as [e|].
  - cbn in Hd. subst w7. apply (among_do install_owned install_state (fun w => script_ok w /\ (in_place w \/ moved w)) (Remove tmpBin));
      [apply safe_stable|split; apply Hw6|]. intros w8 q w9 Hw8 Hd9. apply (install_fails _ "failed"); [done|left|].
    by eapply remove_step.
  - pose proof (replace_step s w6 w7 Hw6 Hd) as Hw7.
    apply (among_calm install_owned install_state install_scripts (replaced s) (Chmod bin)); [by apply calm_i|apply replaced_stable|done|]. intros _ _ w8 _ _ Hw8.
    eapply (among_quiet_then install_owned install_state install_scripts (replaced s)); [apply replaced_stable|exact Hw8|apply asks_if|]. intros _ w9 Hw9.
    eapply wpr_mono.
    2:{ eapply (among_final install_owned install_state install_scripts (replaced s) (SetInstall _) "done"); [by apply calm_i| |apply replaced_stable|exact Hw9].
        intros w10 a w11 Hd11. refine (set_install_state _ _ _ _ _ _ Hd11). done. }
    intros _ w10 [(H1 & H2 & H3 & H4) Hst]. split; [done|left]. split; [done|]. by exists s.
Qed.

Lemma among_install ctx w : (forall p, p ∈ install_owned -> files w !! p = F0 p) ->
  wpr does i_others (runMihomoInstall ctx) (fun _ => install_post) w.
Proof.
  intros H0. set (P := fun w => script_ok w /\ in_place w).
  assert (HP : stable install_owned P) by (apply both_stable; [apply script_stable|apply place_stable]).
  assert (Hw : P w) by (split; [left|split]; apply H0, in_names; named).
  assert (Hfail : forall fn v w, (forall s, s_State (fn s) = v) -> v ∈ ["failed"; "canceled"] -> P w ->
    wpr does i_others (set_install fn) (fun _ => install_post) w).
  { intros fn v w' Hv Hin [H1 H2]. apply (install_fails fn v); [done|done|]. split; [done|by left]. }
  unfold runMihomoInstall. apply (among_calm install_owned install_state install_scripts P MkdirAll); [by apply calm_i|done|done|].
  intros _ m w1 _ _ Hw1. apply (among_then install_owned install_state _ _ (fun _ => install_post)).
  2:{ intros _ w2 Hw2. apply (among_end install_owned install_state install_scripts); [by apply calm_i| |apply install_post_others|done]. by intros w3 a w4 ->. }
  destruct m as [e|]; [by apply (Hfail _ "failed"); [|left|]|].
  eapply among_then; [by apply download_script|]. intros ? w2 Hw2. unfold ctx_err.
  apply (among_calm install_owned install_state install_scripts P (CtxErr ctx)); [by apply calm_i|done|done|]. intros _ e w3 _ _ Hw3.
  destruct e as [e|]; [by apply (Hfail _ "canceled"); [|right; left|]|].
  apply (among_calm install_owned install_state install_scripts P (SetInstall _)); [by apply calm_i|done|done|]. intros _ _ w4 _ _ Hw4.
  destruct (names_apart_spec install_names install_owned "mihomo.download.tmp" install_apart ltac:(named)) as (Ho & Ht & Hapart).
  eapply among_then.
  { apply (wpr_and does i_others); [|apply (among_served install_owned install_state _ w4); done].
    apply (among_download install_owned install_state install_scripts tmpBin (fun p => files w4 !! p) Ho Ht). by intros p. }
  intros r w5 [Hr Hserved].
  assert (Hkeep : forall n, n ∈ ["mm.sh"; "mihomo"; "mihomo.bak"] -> files w5 !! file n = files w4 !! file n).
  { intros n Hn. assert (Hin : n ∈ install_names /\ n <> "mihomo.download.tmp") by (revert n Hn; apply Forall_forall; named).
    destruct Hin as [Hin Hne]. destruct (Hapart n Hin) as [H1 H2]. pose proof (in_names n Hin).
    destruct r as [e|]; [by apply Hr|]. destruct Hr as (s & _ & _ & Hr). apply Hr; auto. }
  assert (Hw5 : P w5).
  { destruct Hw4 as [Hs [Hb Hk]]. split.
    - unfold script_ok. rewrite (Hkeep "mm.sh") by named. destruct Hs as [Hs|(Hn & s & Hs & Hf)]; [by left|right]. split; [done|].
      exists s. split; [by eapply complete_grows|done].
    - unfold in_place. by rewrite (Hkeep "mihomo"), (Hkeep "mihomo.bak") by named. }
  destruct r as [e|].
  - apply (among_do install_owned install_state P); [done|done|]. intros w6 q w7 [H1 H2] Hd.
    destruct (remove_step w6 q w7 (conj H1 (or_introl H2)) Hd) as [H3 H4].
    destruct (is_canceled e); [apply (install_fails _ "canceled")|apply (install_fails _ "failed")]; try done; [right|]; left.
  - destruct Hr as (s & Hs & Hf & _). destruct Hw5. by apply (among_binary s).
Qed.
End Installing.

(** * Requests while a task is busy *)

(** The routes of the two tasks. *)
Definition task_request (p : prog unit) : Prop :=
  p = MihomoDataVersionHandler \/ p = MihomoDataUpdateStatusHandler \/ p = MihomoDataUpdateCancelHandler \/ p = MihomoDataUpdateHandler \/
  p = MihomoCheckBinaryVersionHandler \/ p = MihomoInstallStatusHandler \/ p = MihomoInstallCancelHandler \/ p = MihomoInstallHandler.
Definition install_busy (v : string) : bool := bool_decide (v = "downloading") || bool_decide (v = "installing").

Section Busy.
Context (owned : list string) (st : world -> string) (Hscripts : forall p, p ∈ owned -> p ∈ task_files).
(** The calls that leave the state. *)
Context (spares : call -> bool) (Hcalm : forall c, spares c = true -> calm_call owned c)
  (Hst : forall c w a w', spares c = true -> does c w a w' -> st w' = st w).

Lemma spared_call {B} w0 c (f : answer c -> prog B) : spares c = true ->
  (forall w a w', others owned st w0 w -> does c w a w' -> keeps does (others owned st w0) (f a)) ->
  keeps does (others owned st w0) (invoke c ≫= f).
Proof.
  intros Hc Hf. apply keeps_call. intros w a w' [Hw Hs] Hd. split; [|by apply (Hf w a w')]. split.
  - destruct Hw as [F1 S1], (calm_effect owned Hscripts c w a w' (Hcalm c Hc) Hd) as [F2 S2].
    split; [intros p Hp; by rewrite F2, F1|by etrans].
  - rewrite (Hst c w a w' Hc Hd). done.
Qed.
Lemma spared {A} w0 (p : prog A) : all_calls (fun c => spares c = true) p -> keeps does (others owned st w0) p.
Proof.
  induction p as [a|c k IH]; [done|]. intros [Hc Hk]. apply (spared_call w0 c k Hc). intros w a w' _ _. by apply IH.
Qed.
End Busy.

Definition spares_update (c : call) : bool := asking c || match c with SetInstall _ => true | _ => false end.
Definition spares_install (c : call) : bool := asking c || match c with SetUpdate _ => true | _ => false end.

Lemma spares_calm owned c : spares_update c = true \/ spares_install c = true -> calm_call owned c.
Proof. intros Hc. apply calm_nothing; destruct c, Hc; done. Qed.
Lemma spares_update_state c w a w' : spares_update c = true -> does c w a w' -> update_state w' = update_state w.
Proof.
  intros Hc Hd. destruct c; try discriminate; cbn in Hd;
    repeat match goal with H : exists _, _ |- _ => destruct H | H : _ /\ _ |- _ => destruct H end; subst; try done.
Qed.
Lemma spares_install_state c w a w' : spares_install c = true -> does c w a w' -> install_state w' = install_state w.
Proof.
  intros Hc Hd. destruct c; try discriminate; cbn in Hd;
    repeat match goal with H : exists _, _ |- _ => destruct H | H : _ /\ _ |- _ => destruct H end; subst; try done.
Qed.

(** The handlers that never write the status of the other task. *)
Lemma asks_version : asks MihomoDataVersionHandler.
Proof. apply all_calls_bind; [apply asks_fetch|]. intros [e|v]; [done|]. split; [done|]. by intros [| |]. Qed.
Lemma asks_binary_version : asks MihomoCheckBinaryVersionHandler.
Proof. apply all_calls_bind; [apply asks_fetch|]. intros [e|v]; [done|]. split; [done|]. intros [| |n]; [done..|]. split; [done|]. intros [out [e|]]; done. Qed.
Lemma asks_update_cancel : asks MihomoDataUpdateCancelHandler.
Proof. split; [done|]. intros s. cbn [mbind prog_bind perform]. destruct (negb _); [done|]. split; [done|]. by intros [ctx|]. Qed.
Lemma asks_install_cancel : asks MihomoInstallCancelHandler.
Proof.
  apply all_calls_bind.
  - split; [done|]. intros s. cbn [mbind prog_bind perform]. by destruct (bool_decide _).
  - intros b. destruct (negb b); [done|]. split; [done|]. by intros [ctx|].
Qed.

Lemma spared_install_handler : all_calls (fun c => spares_update c = true) MihomoInstallHandler.
Proof.
  apply all_calls_bind.
  - split; [done|]. intros s. cbn [mbind prog_bind perform]. by destruct (bool_decide _).
  - intros b. by destruct b.
Qed.
Lemma spared_update_handler : all_calls (fun c => spares_install c = true) MihomoDataUpdateHandler.
Proof. apply all_calls_bind; [done|]. intros b. by destruct b. Qed.

Lemma update_request_calm p w0 : update_state w0 = "downloading" -> task_request p ->
  keeps does (others update_owned update_state w0) p.
Proof.
  intros Hb Hp. pose proof (fun B (q : prog B) => spared update_owned update_state update_scripts spares_update
    (fun c Hc => spares_calm update_owned c (or_introl Hc)) spares_update_state w0 q) as S.
  assert (Hasks : forall A (q : prog A), asks q -> keeps does (others update_owned update_state w0) q).
  { intros A q Hq. apply S. eapply all_calls_mono; [|exact Hq]. intros c Hc. cbv beta in Hc. unfold spares_update. by rewrite Hc. }
  destruct Hp as [->|[->|[->|[->|[->|[->|[->| ->]]]]]]];
    first [by apply Hasks, asks_version | by apply Hasks, asks_update_cancel | by apply Hasks, asks_binary_version
          | by apply Hasks, asks_install_cancel | by apply S, spared_install_handler | by apply Hasks | idtac].
  unfold MihomoDataUpdateHandler, isMihomoUpdateBusy. cbn [mbind prog_bind perform].
  apply (spared_call update_owned update_state update_scripts spares_update (fun c Hc => spares_calm update_owned c (or_introl Hc))
    spares_update_state w0 GetUpdate); [done|].
  intros w a w' [_ Hs] [-> ->]. rewrite Hb in Hs. unfold update_state in Hs. cbn [mret prog_ret mbind prog_bind].
  rewrite bool_decide_eq_true_2 by done. by apply Hasks.
Qed.

Lemma install_request_calm p w0 : install_busy (install_state w0) = true -> task_request p ->
  keeps does (others install_owned install_state w0) p.
Proof.
  intros Hb Hp. pose proof (fun B (q : prog B) => spared install_owned install_state install_scripts spares_install
    (fun c Hc => spares_calm install_owned c (or_intror Hc)) spares_install_state w0 q) as S.
  assert (Hasks : forall A (q : prog A), asks q -> keeps does (others install_owned install_state w0) q).
  { intros A q Hq. apply S. eapply all_calls_mono; [|exact Hq]. intros c Hc. cbv beta in Hc. unfold spares_install. by rewrite Hc. }
  destruct Hp as [->|[->|[->|[->|[->|[->|[->| ->]]]]]]];
    first [by apply Hasks, asks_version | by apply Hasks, asks_update_cancel | by apply Hasks, asks_binary_version
          | by apply Hasks, asks_install_cancel | by apply S, spared_update_handler | by apply Hasks | idtac].
  unfold MihomoInstallHandler, isMihomoInstallBusy. cbn [mbind prog_bind perform].
  pose proof (fun B c (f : answer c -> prog B) => spared_call install_owned install_state install_scripts spares_install
    (fun c Hc => spares_calm install_owned c (or_intror Hc)) spares_install_state w0 c f) as Hcall.
  apply (Hcall _ GetInstall); [done|]. intros w a w' [_ Hs] [-> ->]. unfold install_state in Hs.
  case_bool_decide as Hd; cbn [mret prog_ret mbind prog_bind]; [by apply Hasks|].
  apply (Hcall _ GetInstall); [done|]. intros w2 a2 w2' [_ Hs2] [-> ->]. unfold install_state in Hs2.
  assert (Hi : s_State (install w2) = "installing").
  { unfold install_busy, install_state in Hb. rewrite Hs2. apply orb_true_iff in Hb as [Hb%bool_decide_eq_true|Hb%bool_decide_eq_true]; congruence. }
  cbn [mret prog_ret mbind prog_bind]. rewrite bool_decide_eq_true_2 by done. by apply Hasks.
Qed.

(** * Properties *)

(** C18: as long as nobody else touches its state and its files, whatever the servers
    and the file operations do, an update ends with the state done and each of the
    four data files the complete body of a successful response of one of its lines,
    or with the state failed or canceled and each file such a body or exactly what
    it was: none is left half written.  The handlers of the two tasks leave an
    update that runs alone in this sense when they begin after it; two requests
    that have both found no task running start two updates of the same files, and
    uninstalling removes them in the middle: of these nothing is claimed. *)
Theorem data_update_atomic (ctx : nat) (w : world) :
  wpr does (others update_owned update_state) (runMihomoDataUpdate ctx) (fun _ => update_post (fun p => files w !! p)) w /\
  (forall p w0, update_state w0 = "downloading" -> task_request p -> keeps does (others update_owned update_state w0) p).
Proof. split; [by apply among_update|]. intros p w0. apply update_request_calm. Qed.

