(* ===== verification/NetSettings.v ===== *)
(** The network and WiFi settings of the web service:
    [src/gossh/app/service/network_settings.go] and the table
    [src/gossh/app/model/user_setting.go].

    Every handler checks its request and makes calls of the router's ubus services
    or of the settings table.  Theorems: the band mask has exactly the bits of the
    bands asked for; no handler makes a ubus call with values outside of what the
    checks allow, and a refused request makes none; saved settings are read back
    as they were saved. *)

From S2P Require Import Prelude GoInt GoStrings Json Threads.
From stdpp Require Import gmap strings.
Open Scope string_scope.
Open Scope Z_scope.

(** * Checks *)

Definition validNetSelect : list string := ["WL_AND_5G"; "Only_5G"; "LTE_AND_5G"; "WCDMA_AND_LTE"; "Only_LTE"; "Only_WCDMA"].
Definition allowed4GBands : list Z :=
  [1; 2; 3; 4; 5; 7; 8; 18; 19; 20; 26; 28; 29; 32; 34; 38; 39; 40; 41; 42; 43; 48; 66; 71].
Definition allowed5GBands : list Z :=
  [1; 2; 3; 5; 7; 8; 18; 20; 26; 28; 29; 38; 40; 41; 48; 66; 71; 75; 77; 78; 79].

(** The loop of [lteBandMask]; [None] is the error. *)
Fixpoint mask_loop (bands seen : list Z) (mask : Z) : option Z :=
  match bands with
  | [] => Some mask
  | band :: bands =>
    if negb (bool_decide (band ∈ allowed4GBands)) then None
    else if bool_decide (band ∈ seen) then mask_loop bands seen mask
    else mask_loop bands (band :: seen) (Z.lor mask (Z.shiftl 1 (band - 1)))
  end.
Definition lteBandMask (bands : list Z) : option string := Itoa <$> mask_loop bands [] 0.

Fixpoint nr_loop (bands seen : list Z) (parts : list string) : option (list string) :=
  match bands with
  | [] => Some parts
  | band :: bands =>
    if negb (bool_decide (band ∈ allowed5GBands)) then None
    else if bool_decide (band ∈ seen) then nr_loop bands seen parts
    else nr_loop bands (band :: seen) (parts ++ [Itoa band])%list
  end.
Definition nrBandString (bands : list Z) : option string := (fun parts => GoStrings.Join parts ",") <$> nr_loop bands [] [].

(** The pattern [^[A-Za-z]{2}$]. *)
Definition is_country (s : string) : bool :=
  match chars s with [a; b] => is_letter a && is_letter b | _ => false end.
Definition is_power (s : string) : bool :=
  match Atoi s with Some n => bool_decide (n ∈ [40; 80; 100]) | None => false end.

Definition isNumericOrZero (v : string) : bool :=
  let v := TrimSpace v in
  if bool_decide (v = "") then false else bool_decide (is_Some (Atoi v)).

(** One round of [sanitizeWifiAttrs]; the loop visits the map in some order. *)
Definition sanitize_attr (key value : string) (out : gmap string string) : option (gmap string string) :=
  let value := TrimSpace value in
  if bool_decide (value = "") then Some out
  else if bool_decide (key = "txpowerpercent") then (if is_power value then Some (<[key := value]> out) else None)
  else if bool_decide (key = "country") then (if is_country value then Some (<[key := ToUpper value]> out) else None)
  else None.
Fixpoint sanitize_loop (l : list (string * string)) (out : gmap string string) : option (gmap string string) :=
  match l with
  | [] => Some out
  | (key, value) :: l => out ← sanitize_attr key value out; sanitize_loop l out
  end.
Definition sanitizeWifiAttrs (attrs : gmap string string) : option (gmap string string) := sanitize_loop (map_to_list attrs) ∅.

(** * The settings *)

Record PersistedDeviceSettings := mkSettings {
  Wifi24Enabled : option bool; Wifi5Enabled : option bool;
  WifiTxPower : string; Wifi24TxPower : string; Wifi5TxPower : string;
  WifiCountry : string; Wifi24Country : string; Wifi5Country : string; WifiPerformance : string }.
Definition no_settings : PersistedDeviceSettings := mkSettings None None "" "" "" "" "" "" "".

(** Whether the loops and the last check pass. *)
Definition validatePersistedSettings (s : PersistedDeviceSettings) : bool :=
  forallb (fun v => bool_decide (v = "") || is_power v) [WifiTxPower s; Wifi24TxPower s; Wifi5TxPower s] &&
  forallb (fun v => bool_decide (v = "") || is_country v) [WifiCountry s; Wifi24Country s; Wifi5Country s] &&
  bool_decide (WifiPerformance s ∈ [""; "high"; "power_save"]).

(** ** The text in the table *)

(** The members [json.Marshal] writes; the texts of valid settings need no
    escapes, a nil pointer is left out. *)
Definition fields (s : PersistedDeviceSettings) : list (string * flat) :=
  (match Wifi24Enabled s with Some b => [("wifi24_enabled", FBool b)] | None => [] end ++
   match Wifi5Enabled s with Some b => [("wifi5_enabled", FBool b)] | None => [] end ++
   [("wifi_txpower", FText (WifiTxPower s)); ("wifi24_txpower", FText (Wifi24TxPower s)); ("wifi5_txpower", FText (Wifi5TxPower s));
    ("wifi_country", FText (WifiCountry s)); ("wifi24_country", FText (Wifi24Country s)); ("wifi5_country", FText (Wifi5Country s));
    ("wifi_performance", FText (WifiPerformance s))])%list.
Definition Marshal (s : PersistedDeviceSettings) : string := of_chars (flat_object (fields s)).

(** [json.Unmarshal] of one member: names match without regard to case, [null]
    leaves a text and resets a pointer, a value of another type is an error. *)
Definition set_text (v : json) (old : string) : option string :=
  match v with VString _ s => Some s | VNull => Some old | _ => None end.
Definition set_pointer (v : json) : option (option bool) :=
  match v with VBool b => Some (Some b) | VNull => Some None | _ => None end.
Definition set_field (s : PersistedDeviceSettings) (m : string * json) : option PersistedDeviceSettings :=
  let '(key, v) := m in
  match s with mkSettings a b c d e f g h i =>
  let named := EqualFold key in
  if named "wifi24_enabled" then (fun a => mkSettings a b c d e f g h i) <$> set_pointer v
  else if named "wifi5_enabled" then (fun b => mkSettings a b c d e f g h i) <$> set_pointer v
  else if named "wifi_txpower" then (fun c => mkSettings a b c d e f g h i) <$> set_text v c
  else if named "wifi24_txpower" then (fun d => mkSettings a b c d e f g h i) <$> set_text v d
  else if named "wifi5_txpower" then (fun e => mkSettings a b c d e f g h i) <$> set_text v e
  else if named "wifi_country" then (fun f => mkSettings a b c d e f g h i) <$> set_text v f
  else if named "wifi24_country" then (fun g => mkSettings a b c d e f g h i) <$> set_text v g
  else if named "wifi5_country" then (fun h => mkSettings a b c d e f g h i) <$> set_text v h
  else if named "wifi_performance" then (fun i => mkSettings a b c d e f g h i) <$> set_text v i
  else Some s
  end.
Fixpoint set_fields (s : PersistedDeviceSettings) (l : list (string * json)) : option PersistedDeviceSettings :=
  match l with
  | [] => Some s
  | m :: l => s ← set_field s m; set_fields s l
  end.
(** [None] is the error. *)
Definition Unmarshal (text : string) : option PersistedDeviceSettings :=
  match parse_json (chars text) with
  | Some (VObject l) => set_fields no_settings l
  | Some VNull => Some no_settings
  | _ => None
  end.

(** ** The table *)

Record UserSetting := mkRow { ID : Z; Uid : Z; Name : string; Value : string; UpdatedAt : Z }.

(** Whether the statement works, and the rows; [First] is by primary key. *)
Definition FindByUid (rows : list UserSetting) (uid : Z) : option UserSetting := List.find (fun r => Uid r =? uid) rows.

(** [Updates] leaves columns whose new value is the zero value. *)
Definition update_value (value : string) (now : Z) (r : UserSetting) : UserSetting :=
  mkRow (ID r) (Uid r) (Name r) (if bool_decide (value = "") then Value r else value) now.
Definition next_id (rows : list UserSetting) : Z := fold_right Z.max 0 (ID <$> rows) + 1.
Definition SaveForUid (works : bool) (uid : Z) (value : string) (now : Z) (rows : list UserSetting) : bool * list UserSetting :=
  match FindByUid rows uid with
  | Some _ =>
    if works then (true, (fun r => if Uid r =? uid then update_value value now r else r) <$> rows) else (false, rows)
  | None => if works then (true, (rows ++ [mkRow (next_id rows) uid "network_wifi" value now])%list) else (false, rows)
  end.

(** * The environment *)

(** Parameters of a ubus call: texts and, for the radios, maps of texts. *)
Inductive param := PText (s : string) | PMap (m : gmap string string).

Section Handlers.
(** What ubus returns. *)
Context {Data : Type}.

Inductive call : Type :=
| GetDataFromUbus (service method : string) (params : list (string * param))
| Find (uid : Z) | Save (uid : Z) (value : string)
| JSON (code : Z) (settings : option PersistedDeviceSettings) (data : list Data).

Definition answer (c : call) : Type :=
  match c with
  | GetDataFromUbus _ _ _ => option Data      (** [None] is the error *)
  | Find _ => option UserSetting
  | Save _ _ => bool
  | JSON _ _ _ => unit
  end.

Abbreviation prog := (@Threads.prog call answer).
Abbreviation invoke := (@perform call answer).
Definition reply (code : Z) : prog unit := invoke (JSON code None []).

Definition writeUbusResult (data : option Data) : prog unit :=
  match data with None => reply 1 | Some data => invoke (JSON 0 None [data]) end.
Definition ubus (service method : string) (params : list (string * param)) : prog unit :=
  data ← invoke (GetDataFromUbus service method params); writeUbusResult data.

(** * The handlers; a request that cannot be bound is [None] *)

Definition DeviceSettingsGetHandler (uid : Z) : prog unit :=
  setting ← invoke (Find uid);
  match setting with
  | None => invoke (JSON 0 (Some no_settings) [])
  | Some setting =>
    if bool_decide (TrimSpace (Value setting) = "") then invoke (JSON 0 (Some no_settings) [])
    else match Unmarshal (Value setting) with
         | None => reply 1
         | Some data => invoke (JSON 0 (Some data) [])
         end
  end.

Definition DeviceSettingsSaveHandler (uid : Z) (req : option PersistedDeviceSettings) : prog unit :=
  match req with
  | None => reply 1
  | Some req =>
    if negb (validatePersistedSettings req) then reply 2
    else
      ok ← invoke (Save uid (Marshal req));
      if ok : bool then invoke (JSON 0 (Some req) []) else reply 4
  end.

(** [binding:"required"] refuses the empty text. *)
Definition NetworkModeSetHandler (req : option string) : prog unit :=
  match req with
  | Some net_select =>
    if bool_decide (net_select ∈ validNetSelect)
    then ubus "zte_nwinfo_api" "nwinfo_set_netselect" [("net_select", PText net_select)] else reply 1
  | None => reply 1
  end.

Definition NetworkLTEBandLockHandler (req : option (list Z)) : prog unit :=
  match req with
  | None => reply 1
  | Some bands =>
    match lteBandMask bands with
    | None => reply 2
    | Some mask =>
      ubus "zte_nwinfo_api" "nwinfo_set_gwl_bandlock"
        [("is_gw_band", PText "0"); ("gw_band_mask", PText "0"); ("is_lte_band", PText "1"); ("lte_band_mask", PText mask)]
    end
  end.

Definition NetworkNRBandLockHandler (req : option (list Z)) : prog unit :=
  match req with
  | None => reply 1
  | Some bands =>
    match nrBandString bands with
    | None => reply 2
    | Some bands => ubus "zte_nwinfo_api" "nwinfo_set_nrbandlock" [("nr5g_type", PText "SA"); ("nr5g_band", PText bands)]
    end
  end.

Definition NetworkLTECellLockHandler (req : option (string * string)) : prog unit :=
  match req with
  | Some (PCI, EARFCN) =>
    if negb (isNumericOrZero PCI) || negb (isNumericOrZero EARFCN) then reply 1
    else ubus "zte_nwinfo_api" "nwinfo_lock_lte_cell" [("lock_lte_pci", PText PCI); ("lock_lte_earfcn", PText EARFCN)]
  | None => reply 1
  end.

Definition NetworkNRCellLockHandler (req : option (string * string * string)) : prog unit :=
  match req with
  | Some (PCI, EARFCN, Band) =>
    if negb (isNumericOrZero PCI) || negb (isNumericOrZero EARFCN) || negb (isNumericOrZero Band) then reply 1
    else ubus "zte_nwinfo_api" "nwinfo_lock_nr_cell"
           [("lock_nr_pci", PText PCI); ("lock_nr_earfcn", PText EARFCN); ("lock_nr_cell_band", PText Band)]
  | None => reply 1
  end.

Definition WifiUciGetHandler : prog unit :=
  r0 ← invoke (GetDataFromUbus "uci" "get" [("config", PText "wireless"); ("section", PText "wifi0")]);
  r1 ← invoke (GetDataFromUbus "uci" "get" [("config", PText "wireless"); ("section", PText "wifi1")]);
  match r0, r1 with
  | Some r0, Some r1 => invoke (JSON 0 None [r0; r1])
  | _, _ => reply 1
  end.

(** The parameters of one radio; [None] is the error. *)
Definition radio (name : string) (attrs : gmap string string) (params : list (string * param)) : option (list (string * param)) :=
  if bool_decide (attrs = ∅) then Some params
  else v ← sanitizeWifiAttrs attrs; Some (params ++ [(name, PMap v)])%list.

Definition WifiSettingsSetHandler (req : option (gmap string string * gmap string string)) : prog unit :=
  match req with
  | None => reply 1
  | Some (Wifi0, Wifi1) =>
    match params ← radio "wifi0" Wifi0 []; radio "wifi1" Wifi1 params with
    | None => reply 2
    | Some [] => reply 1
    | Some params => ubus "zwrt_wlan" "set" params
    end
  end.
End Handlers.

Arguments call : clear implicits.
Abbreviation handler Data := (@Threads.prog (call Data) answer unit).

(** A parameter of a cell: a decimal numeral of 64 bits, be it negative, between blanks. *)
Definition cell_number (v : string) : Prop := exists pre body post n, chars v = (pre ++ body ++ post)%list /\
  Forall (fun c => is_space c = true) pre /\ Forall (fun c => is_space c = true) post /\ numeral body n.
(** An attribute of a radio; the numeral may carry a sign and leading zeros. *)
Definition attr_ok (key value : string) : Prop :=
  (key = "txpowerpercent" /\ exists n, numeral (chars value) n /\ n ∈ [40; 80; 100]) \/
  (key = "country" /\ exists a b, chars value = [a; b] /\ is_upper a = true /\ is_upper b = true).

(** The ubus calls that make sense: the interface of the router's services as far
    as these handlers use it. *)
Inductive valid_ubus : string -> string -> list (string * param) -> Prop :=
| vu_mode v : v ∈ validNetSelect -> valid_ubus "zte_nwinfo_api" "nwinfo_set_netselect" [("net_select", PText v)]
| vu_lte mask : 0 <= mask < 2 ^ 71 -> (forall b, 1 <= b -> Z.testbit mask (b - 1) = true -> b ∈ allowed4GBands) ->
    valid_ubus "zte_nwinfo_api" "nwinfo_set_gwl_bandlock"
      [("is_gw_band", PText "0"); ("gw_band_mask", PText "0"); ("is_lte_band", PText "1"); ("lte_band_mask", PText (Itoa mask))]
| vu_nr bands : NoDup bands -> Forall (fun b => b ∈ allowed5GBands) bands ->
    valid_ubus "zte_nwinfo_api" "nwinfo_set_nrbandlock" [("nr5g_type", PText "SA"); ("nr5g_band", PText (GoStrings.Join (Itoa <$> bands) ","))]
| vu_lte_cell pci earfcn : cell_number pci -> cell_number earfcn ->
    valid_ubus "zte_nwinfo_api" "nwinfo_lock_lte_cell" [("lock_lte_pci", PText pci); ("lock_lte_earfcn", PText earfcn)]
| vu_nr_cell pci earfcn band : cell_number pci -> cell_number earfcn -> cell_number band ->
    valid_ubus "zte_nwinfo_api" "nwinfo_lock_nr_cell"
      [("lock_nr_pci", PText pci); ("lock_nr_earfcn", PText earfcn); ("lock_nr_cell_band", PText band)]
| vu_get section : section ∈ ["wifi0"; "wifi1"] -> valid_ubus "uci" "get" [("config", PText "wireless"); ("section", PText section)]
| vu_wlan params : params <> [] -> NoDup params.*1 ->
    Forall (fun p => p.1 ∈ ["wifi0"; "wifi1"] /\ exists m, p.2 = PMap m /\ map_Forall attr_ok m) params ->
    valid_ubus "zwrt_wlan" "set" params.

(** A request of one of the nine routes. *)
Inductive handles {Data} : handler Data -> Prop :=
| h_get uid : handles (DeviceSettingsGetHandler uid)
| h_save uid req : handles (DeviceSettingsSaveHandler uid req)
| h_mode req : handles (NetworkModeSetHandler req)
| h_lte req : handles (NetworkLTEBandLockHandler req)
| h_nr req : handles (NetworkNRBandLockHandler req)
| h_lte_cell req : handles (NetworkLTECellLockHandler req)
| h_nr_cell req : handles (NetworkNRCellLockHandler req)
| h_uci : handles WifiUciGetHandler
| h_wifi req : handles (WifiSettingsSetHandler req).

(** * Facts about the checks *)

Lemma allowed4G_range b : b ∈ allowed4GBands -> 1 <= b <= 71.
Proof.
  intros Hb. assert (H : Forall (fun b => 1 <= b <= 71) allowed4GBands) by (repeat constructor; lia).
  by eapply Forall_forall in H.
Qed.

Lemma or_bit mask band b : 1 <= band -> 1 <= b ->
  Z.testbit (Z.lor mask (Z.shiftl 1 (band - 1))) (b - 1) = Z.testbit mask (b - 1) || bool_decide (b = band).
Proof.
  intros Hband Hb. rewrite Z.lor_spec, Z.shiftl_spec by lia. f_equal. case_bool_decide as He; [subst; by rewrite Z.sub_diag|].
  destruct (decide (b - 1 - (band - 1) < 0)); [by apply Z.testbit_neg_r|]. apply Z.bits_above_log2; [lia|]. cbn. lia.
Qed.

Lemma mask_loop_spec bands : forall seen mask, 0 <= mask < 2 ^ 71 ->
  (forall b, b ∈ seen -> 1 <= b /\ Z.testbit mask (b - 1) = true) ->
  match mask_loop bands seen mask with
  | Some r => 0 <= r < 2 ^ 71 /\ Forall (fun b => b ∈ allowed4GBands) bands /\
      forall b, 1 <= b -> Z.testbit r (b - 1) = Z.testbit mask (b - 1) || bool_decide (b ∈ bands)
  | None => exists b, b ∈ bands /\ b ∉ allowed4GBands
  end.
Proof.
  induction bands as [|band bands IH]; intros seen mask Hm Hs; cbn [mask_loop].
  - split_and!; [apply Hm|apply Hm|constructor|]. intros b _. rewrite bool_decide_eq_false_2 by apply not_elem_of_nil.
    by rewrite orb_false_r.
  - case_bool_decide as Ha; cbn [negb]; [|exists band; split; [left|done]]. pose proof (allowed4G_range band Ha) as Hband.
    assert (Hcons : forall b, bool_decide (b ∈ band :: bands) = bool_decide (b = band) || bool_decide (b ∈ bands)).
    { intros b. rewrite <- bool_decide_or. apply bool_decide_ext, elem_of_cons. }
    assert (Hgo : forall seen mask', 0 <= mask' < 2 ^ 71 -> (forall b, b ∈ seen -> 1 <= b /\ Z.testbit mask' (b - 1) = true) ->
      (forall b, 1 <= b -> Z.testbit mask' (b - 1) = Z.testbit mask (b - 1) || bool_decide (b = band)) ->
      match mask_loop bands seen mask' with
      | Some r => 0 <= r < 2 ^ 71 /\ Forall (fun b => b ∈ allowed4GBands) (band :: bands) /\
          forall b, 1 <= b -> Z.testbit r (b - 1) = Z.testbit mask (b - 1) || bool_decide (b ∈ band :: bands)
      | None => exists b, b ∈ band :: bands /\ b ∉ allowed4GBands
      end).
    { intros seen' mask' Hm' Hs' Hbits. specialize (IH seen' mask' Hm' Hs'). destruct (mask_loop bands seen' mask') as [r|].
      - destruct IH as (Hr & Hall & Hb). split_and!; [apply Hr|apply Hr|by apply List.Forall_cons|].
        intros b H1. by rewrite Hb, Hbits, Hcons, orb_assoc.
      - destruct IH as (b & Hb & Hb'). exists b. split; [by right|done]. }
    case_bool_decide as Hseen; apply Hgo; try done.
    + intros b H1. case_bool_decide as He; [|by rewrite orb_false_r]. subst. by rewrite (proj2 (Hs band Hseen)).
    + apply (lor_range 71); [lia|done|]. unfold in_range. rewrite Z.shiftl_1_l. split; [lia|]. apply Z.pow_lt_mono_r; lia.
    + intros b [->|Hb]%elem_of_cons; (split; [first [lia | by apply Hs]|]).
      * rewrite or_bit, bool_decide_eq_true_2 by (done || lia). by rewrite orb_true_r.
      * destruct (Hs b Hb). rewrite or_bit by lia. by rewrite H0.
    + intros b Hb. apply or_bit; lia.
Qed.

Lemma nr_loop_spec bands : forall seen (l : list Z), NoDup l -> (forall b, b ∈ seen <-> b ∈ l) -> Forall (fun b => b ∈ allowed5GBands) l ->
  match nr_loop bands seen (Itoa <$> l) with
  | Some parts => exists l', parts = Itoa <$> (l ++ l')%list /\ NoDup (l ++ l')%list /\ l' `sublist_of` bands /\
      Forall (fun b => b ∈ allowed5GBands) (l ++ l')%list /\ forall b, b ∈ (l ++ l')%list <-> b ∈ l \/ b ∈ bands
  | None => exists b, b ∈ bands /\ b ∉ allowed5GBands
  end.
Proof.
  induction bands as [|band bands IH]; intros seen l Hnd Hseen Hall; cbn [nr_loop].
  - exists []. rewrite app_nil_r. split_and!; [done|done|done|done|]. intros b. split; [by left|by intros [?|?%elem_of_nil]].
  - case_bool_decide as Ha; cbn [negb]; [|exists band; split; [left|done]]. case_bool_decide as Hb.
    + specialize (IH seen l Hnd Hseen Hall). destruct (nr_loop bands seen _) as [parts|].
      * destruct IH as (l' & Hp & Hn & Hs & Hf & He). exists l'. split_and!; [done|done|by apply sublist_cons|done|].
        intros b. rewrite He, elem_of_cons. split; [tauto|]. intros [?|[->|?]]; [tauto|left; by apply Hseen|tauto].
      * destruct IH as (b & Hb1 & Hb2). exists b. split; [by right|done].
    + specialize (IH (band :: seen) (l ++ [band])%list). rewrite fmap_app in IH. cbn [fmap list_fmap] in IH.
      destruct (nr_loop bands (band :: seen) _) as [parts|].
      * destruct IH as (l' & Hp & Hn & Hs & Hf & He).
        { apply NoDup_app. split_and!; [done| |apply NoDup_singleton]. intros x Hx ->%list_elem_of_singleton. apply Hb, Hseen, Hx. }
        { intros b. rewrite elem_of_cons, elem_of_app, list_elem_of_singleton, Hseen. tauto. }
        { apply Forall_app. split; [done|]. by apply Forall_singleton. }
        exists (band :: l'). rewrite <- app_assoc in *. cbn [app] in *. split_and!; [done|done|by apply sublist_skip|done|].
        intros b. rewrite He, elem_of_app, !elem_of_cons, elem_of_nil. tauto.
      * destruct IH as (b & Hb1 & Hb2).
        { apply NoDup_app. split_and!; [done| |apply NoDup_singleton]. intros x Hx ->%list_elem_of_singleton. apply Hb, Hseen, Hx. }
        { intros b. rewrite elem_of_cons, elem_of_app, list_elem_of_singleton, Hseen. tauto. }
        { apply Forall_app. split; [done|]. by apply Forall_singleton. }
        exists b. split; [by right|done].
Qed.

Lemma lteBandMask_spec bands :
  match lteBandMask bands with
  | Some s => exists mask, s = Itoa mask /\ 0 <= mask < 2 ^ 71 /\ Forall (fun b => b ∈ allowed4GBands) bands /\
      forall b, 1 <= b -> Z.testbit mask (b - 1) = bool_decide (b ∈ bands)
  | None => exists b, b ∈ bands /\ b ∉ allowed4GBands
  end.
Proof.
  unfold lteBandMask. pose proof (mask_loop_spec bands [] 0 ltac:(lia) ltac:(by intros b ?%elem_of_nil)) as H.
  destruct (mask_loop bands [] 0) as [mask|]; cbn; [|done]. destruct H as (Hr & Hall & Hb). exists mask. split_and!; try done; try lia.
  intros b H1. rewrite Hb by done. by rewrite Z.bits_0.
Qed.

Lemma nrBandString_spec bands :
  match nrBandString bands with
  | Some s => exists l, s = GoStrings.Join (Itoa <$> l) "," /\ NoDup l /\ l `sublist_of` bands /\
      Forall (fun b => b ∈ allowed5GBands) l /\ forall b, b ∈ l <-> b ∈ bands
  | None => exists b, b ∈ bands /\ b ∉ allowed5GBands
  end.
Proof.
  unfold nrBandString. pose proof (nr_loop_spec bands [] [] NoDup_nil_2 ltac:(done) ltac:(constructor)) as H. cbn [fmap list_fmap] in H.
  destruct (nr_loop bands [] []) as [parts|]; cbn; [|done]. destruct H as (l & -> & Hn & Hs & Hf & He). exists l. split_and!; try done.
  intros b. rewrite (He b). split; [by intros [?%elem_of_nil|?]|by right].
Qed.

(** ** Attributes *)

Lemma is_power_inv s : is_power s = true -> exists n, Atoi s = Some n /\ n ∈ [40; 80; 100].
Proof. unfold is_power. destruct (Atoi s) as [n|]; [|done]. intros H%bool_decide_eq_true. by exists n. Qed.

Lemma letter_upper a : is_letter a = true -> is_upper (to_upper a) = true.
Proof. destruct a as [[] [] [] [] [] [] [] []]; vm_compute; done. Qed.

Lemma country_upper s : is_country s = true ->
  exists a b, chars (ToUpper s) = [a; b] /\ is_upper a = true /\ is_upper b = true.
Proof.
  unfold is_country, ToUpper. rewrite chars_of_chars. destruct (chars s) as [|a [|b [|]]]; try done.
  intros [Ha Hb]%andb_true_iff. exists (to_upper a), (to_upper b). by split_and!; [|apply letter_upper|apply letter_upper].
Qed.

Lemma sanitize_attr_ok key value out out' : sanitize_attr key value out = Some out' -> map_Forall attr_ok out -> map_Forall attr_ok out'.
Proof.
  unfold sanitize_attr. intros H Hout. case_bool_decide; [by simplify_eq|].
  case_bool_decide as Hk; [destruct (is_power _) eqn:Hp; [|done]|
    case_bool_decide as Hk'; [destruct (is_country _) eqn:Hc; [|done]|done]]; simplify_eq; apply map_Forall_insert_2; try done.
  - left. split; [done|]. apply is_power_inv in Hp as (n & Hn%Atoi_numeral & ?). by exists n.
  - right. split; [done|]. by apply country_upper.
Qed.

Lemma sanitize_ok attrs m : sanitizeWifiAttrs attrs = Some m -> map_Forall attr_ok m.
Proof.
  unfold sanitizeWifiAttrs. assert (H0 : map_Forall attr_ok (∅ : gmap string string)) by apply map_Forall_empty. revert H0.
  generalize (∅ : gmap string string). induction (map_to_list attrs) as [|[key value] l IH]; intros out Hout H; [by simplify_eq/=|].
  cbn [sanitize_loop] in H. apply bind_Some in H as (out' & Ha & H). eapply IH; [|exact H]. by eapply sanitize_attr_ok.
Qed.

Lemma radio_ok name attrs params params' : radio name attrs params = Some params' ->
  params' = params \/ exists m, params' = (params ++ [(name, PMap m)])%list /\ map_Forall attr_ok m.
Proof.
  unfold radio. case_bool_decide; [intros [= ->]; by left|]. intros (m & Hm & [= <-])%bind_Some. right. exists m.
  split; [done|]. by eapply sanitize_ok.
Qed.

Lemma isNumericOrZero_inv v : isNumericOrZero v = true -> cell_number v.
Proof.
  unfold isNumericOrZero. case_bool_decide; [done|]. intros [n Hn%Atoi_numeral]%bool_decide_eq_true.
  unfold TrimSpace in Hn. rewrite chars_of_chars in Hn. destruct (trim_by_split is_space (chars v)) as (pre & post & Hv & Hp & Hq).
  by exists pre, (trim_by is_space (chars v)), post, n.
Qed.

(** ** Texts that pass the checks need no escapes *)

Definition safe_byte (c : ascii) : bool := (32 <=? ord c) && (ord c <? 128) && negb (ord c =? 34) && negb (ord c =? 92).
Lemma plain_ascii_safe s : forallb safe_byte (chars s) = true -> plain_ascii s.
Proof.
  intros H. apply Forall_forall. intros c Hc. eapply forallb_forall in H; [|by apply list_elem_of_In].
  unfold safe_byte in H. bool_to_prop. lia.
Qed.

Lemma digits_safe l ds : mapM (digit_of 10) l = Some ds -> forallb safe_byte l = true.
Proof.
  intros H. apply mapM_Some in H. induction H as [|c d l ds Hd _ IH]; [done|]. cbn [forallb]. rewrite IH, andb_true_r.
  revert Hd. destruct c as [[] [] [] [] [] [] [] []]; vm_compute; done.
Qed.

Lemma parse_digits_safe l v : parse_digits 10 l = Some v -> forallb safe_byte l = true.
Proof. unfold parse_digits. destruct l as [|c l]; [done|]. intros (ds & Hds & _)%bind_Some. by eapply digits_safe. Qed.

Lemma power_safe s : is_power s = true -> forallb safe_byte (chars s) = true.
Proof.
  intros (n & Hn & _)%is_power_inv. unfold Atoi, ParseInt in Hn. destruct (chars s) as [|c l] eqn:Hc; [done|].
  assert (Hsign : forall o, ord c = o -> (o = 45 \/ o = 43) -> safe_byte c = true).
  { intros o <- Ho. unfold safe_byte. destruct Ho as [-> | ->]; reflexivity. }
  destruct (Z.eqb_spec (ord c) 45) as [H45|_].
  - apply bind_Some in Hn as (v & Hv & _). cbn [forallb]. rewrite (Hsign 45) by auto. by eapply parse_digits_safe.
  - destruct (Z.eqb_spec (ord c) 43) as [H43|_]; apply bind_Some in Hn as (v & Hv & _); [|by eapply parse_digits_safe].
    cbn [forallb]. rewrite (Hsign 43) by auto. by eapply parse_digits_safe.
Qed.

Lemma country_safe s : is_country s = true -> forallb safe_byte (chars s) = true.
Proof.
  unfold is_country. destruct (chars s) as [|a [|b [|]]]; try done. intros [Ha Hb]%andb_true_iff. cbn [forallb].
  assert (H : forall c, is_letter c = true -> safe_byte c = true) by (intros [[] [] [] [] [] [] [] []]; vm_compute; done).
  by rewrite !H.
Qed.

Lemma valid_plain s : validatePersistedSettings s = true -> Forall (fun m => plain_ascii (fst m) /\ plain_flat (snd m)) (fields s).
Proof.
  unfold validatePersistedSettings. cbn [forallb]. rewrite !andb_true_iff, !orb_true_iff, !bool_decide_eq_true.
  intros [[(H1 & H2 & H3 & _) (H4 & H5 & H6 & _)] H7].
  assert (Hp : forall v, v = "" \/ is_power v = true -> plain_ascii v).
  { intros v [->|Hv]; [constructor|]. by apply plain_ascii_safe, power_safe. }
  assert (Hc : forall v, v = "" \/ is_country v = true -> plain_ascii v).
  { intros v [->|Hv]; [constructor|]. by apply plain_ascii_safe, country_safe. }
  assert (H7' : plain_ascii (WifiPerformance s)).
  { apply plain_ascii_safe. rewrite !elem_of_cons, elem_of_nil in H7. by destruct H7 as [->|[->|[->|[]]]]. }
  unfold fields. rewrite !Forall_app. split_and!;
    [destruct (Wifi24Enabled s); [apply Forall_singleton; split; [by apply plain_ascii_safe|done]|constructor]|
     destruct (Wifi5Enabled s); [apply Forall_singleton; split; [by apply plain_ascii_safe|done]|constructor]|].
  repeat (apply List.Forall_cons; [split; [by apply plain_ascii_safe|cbn; auto]|]). constructor.
Qed.

Lemma Marshal_roundtrip s : validatePersistedSettings s = true -> Unmarshal (Marshal s) = Some s.
Proof.
  intros Hv. unfold Unmarshal, Marshal. rewrite chars_of_chars, flat_parsed; [|by destruct s as [[] [] ? ? ? ? ? ? ?]|by apply valid_plain].
  by destruct s as [[] [] ? ? ? ? ? ? ?].
Qed.

Lemma trim_by_kept {A} (f : A -> bool) x l : f x = false -> x ∈ l -> x ∈ trim_by f l.
Proof.
  intros Hx Hl. assert (Hd : forall l, x ∈ l -> x ∈ drop_while f l).
  { clear Hl. intros l'. induction l' as [|y l' IH]; [done|]. cbn [drop_while]. intros [<-|Hy]%elem_of_cons; [rewrite Hx; by left|].
    destruct (f y); [by apply IH|by right]. }
  assert (Hr : forall l, x ∈ l -> x ∈ rev l) by (intros l'; rewrite !list_elem_of_In; apply in_rev).
  unfold trim_by. by apply Hr, Hd, Hr, Hd.
Qed.

Lemma Marshal_not_blank s : TrimSpace (Marshal s) <> "".
Proof.
  intros H. apply (f_equal chars) in H. unfold TrimSpace, Marshal in H. rewrite !chars_of_chars in H.
  assert (Hin : chr 123 ∈ trim_by is_space (flat_object (fields s))) by (apply trim_by_kept; [done|left]).
  rewrite H in Hin. by apply elem_of_nil in Hin.
Qed.

(** ** The table *)

(** At most one row per user ([uniqueIndex]). *)
Definition rows_ok (rows : list UserSetting) : Prop := NoDup (Uid <$> rows).

Lemma FindByUid_Some rows uid r : FindByUid rows uid = Some r -> r ∈ rows /\ Uid r = uid.
Proof. intros H. apply List.find_some in H as [H1 H2%Z.eqb_eq]. split; [by apply list_elem_of_In|done]. Qed.
Lemma FindByUid_None rows uid : FindByUid rows uid = None -> uid ∉ Uid <$> rows.
Proof.
  intros H (r & -> & Hr)%list_elem_of_fmap. apply list_elem_of_In in Hr. pose proof (List.find_none _ _ H _ Hr) as He.
  cbn in He. by rewrite Z.eqb_refl in He.
Qed.

Lemma SaveForUid_spec uid value now rows : rows_ok rows -> value <> "" ->
  let '(ok, rows') := SaveForUid true uid value now rows in
  ok = true /\ rows_ok rows' /\ Value <$> FindByUid rows' uid = Some value /\
  (forall other, other <> uid -> FindByUid rows' other = FindByUid rows other).
Proof.
  intros Hok Hv. unfold SaveForUid. destruct (FindByUid rows uid) as [r|] eqn:Hf.
  - assert (Huid : (Uid <$> ((fun r => if Uid r =? uid then update_value value now r else r) <$> rows)) = Uid <$> rows).
    { rewrite <- list_fmap_compose. apply list_fmap_ext. intros _ x _. unfold compose. by destruct (Uid x =? uid). }
    assert (Hfind : forall other rows, FindByUid ((fun r => if Uid r =? uid then update_value value now r else r) <$> rows) other =
      (if decide (other = uid) then update_value value now else id) <$> FindByUid rows other).
    { clear. intros other rows. induction rows as [|x rows IH]; [done|]. unfold FindByUid in *. cbn [fmap list_fmap List.find].
      destruct (Z.eqb_spec (Uid x) uid) as [Hx|Hx]; cbn [update_value Uid];
        destruct (Z.eqb_spec (Uid x) other) as [Ho|Ho]; try exact IH; cbn; destruct (decide (other = uid)); first [reflexivity | congruence]. }
    split_and!; [done|unfold rows_ok; by rewrite Huid| |].
    + rewrite Hfind, Hf, decide_True by done. cbn. by rewrite bool_decide_eq_false_2.
    + intros other Hne. rewrite Hfind, decide_False by done. by destruct (FindByUid rows other).
  - assert (Hfind : forall other l r, FindByUid (l ++ [r]) other =
      match FindByUid l other with Some x => Some x | None => if Uid r =? other then Some r else None end).
    { clear. intros other l r. induction l as [|x l IH]; unfold FindByUid in *; cbn [app List.find]; [done|]. by destruct (Uid x =? other). }
    split_and!; [done| | |].
    + unfold rows_ok. rewrite fmap_app. apply NoDup_app. split_and!; [done| |apply NoDup_singleton].
      intros x Hx ->%list_elem_of_singleton. by apply (FindByUid_None rows uid).
    + rewrite Hfind, Hf. cbn. by rewrite Z.eqb_refl.
    + intros other Hne. rewrite Hfind. cbn. rewrite (proj2 (Z.eqb_neq uid other)) by done. by destruct (FindByUid rows other).
Qed.

(** A handler against the table: whether statements work, and the clock. *)
Fixpoint run {Data} (works : bool) (now : Z) (p : handler Data) (rows : list UserSetting) :
    list UserSetting * list (Z * option PersistedDeviceSettings) :=
  match p with
  | Ret _ => (rows, [])
  | Op c k =>
    match c return (answer c -> handler Data) -> _ with
    | GetDataFromUbus _ _ _ => fun k => run works now (k None) rows
    | Find uid => fun k => run works now (k (if works then FindByUid rows uid else None)) rows
    | Save uid value => fun k =>
        let '(ok, rows) := SaveForUid works uid value now rows in run works now (k ok) rows
    | JSON code s _ => fun k => let '(rows, out) := run works now (k tt) rows in (rows, (code, s) :: out)
    end k
  end.

(** * Properties *)

(** the bands of a lock request.  A request with a band that is not supported
    is refused; otherwise bit b - 1 of the LTE mask is set exactly for the bands b
    asked for, and the NR text lists the bands asked for in their order, each
    once. *)
Theorem band_requests_exact (bands : list Z) :
  match lteBandMask bands with
  | Some s => exists mask, s = Itoa mask /\ 0 <= mask < 2 ^ 71 /\ Forall (fun b => b ∈ allowed4GBands) bands /\
      forall b, 1 <= b -> Z.testbit mask (b - 1) = bool_decide (b ∈ bands)
  | None => exists b, b ∈ bands /\ b ∉ allowed4GBands
  end /\
  match nrBandString bands with
  | Some s => exists l, s = GoStrings.Join (Itoa <$> l) "," /\ NoDup l /\ l `sublist_of` bands /\
      Forall (fun b => b ∈ allowed5GBands) l /\ forall b, b ∈ l <-> b ∈ bands
  | None => exists b, b ∈ bands /\ b ∉ allowed5GBands
  end.
Proof. split; [apply lteBandMask_spec|apply nrBandString_spec]. Qed.

(** C15: whatever a request holds and whatever ubus answers, every ubus call a
    settings handler comes to is one of the known methods with parameters of the
    right form: a known network mode, a mask or a list of supported bands, decimal
    numerals for a cell, transmission powers of 40, 80 or 100 and two upper-case
    letters for a country, for the two radios only.  The form is all: a numeral of
    a cell may be negative or out of range and comes with the blanks around it. *)
Theorem device_requests_valid {Data} (p : handler Data) : handles p ->
  all_calls (fun c => match c with GetDataFromUbus service method params => valid_ubus service method params | _ => True end) p.
Proof.
  assert (Hub : forall service method params, valid_ubus service method params ->
    all_calls (fun c => match c with GetDataFromUbus service method params => valid_ubus service method params | _ => True end)
      (@ubus Data service method params)).
  { intros service method params Hv. split; [exact Hv|]. intros [data|]; repeat split. }
  destruct 1; unfold DeviceSettingsGetHandler, DeviceSettingsSaveHandler, NetworkModeSetHandler, NetworkLTEBandLockHandler,
    NetworkNRBandLockHandler, NetworkLTECellLockHandler, NetworkNRCellLockHandler, WifiUciGetHandler, WifiSettingsSetHandler, reply.
  - apply all_calls_call; [done|]. intros [s|]; [|done]. case_bool_decide; [done|]. by destruct (Unmarshal (Value s)).
  - destruct req as [req|]; [|done]. destruct (validatePersistedSettings req); [|done].
    apply all_calls_call; [done|]. by intros [].
  - destruct req as [v|]; [|done]. case_bool_decide; [|done]. by apply Hub, vu_mode.
  - destruct req as [bands|]; [|done]. pose proof (lteBandMask_spec bands) as H. destruct (lteBandMask bands) as [mask|]; [|done].
    destruct H as (m & -> & Hm & Hall & Hb). apply Hub, vu_lte; [done|]. intros b H1. rewrite Hb by done.
    intros H2%bool_decide_eq_true. by eapply Forall_forall in Hall.
  - destruct req as [bands|]; [|done]. pose proof (nrBandString_spec bands) as H. destruct (nrBandString bands) as [s|]; [|done].
    destruct H as (l & -> & Hn & _ & Hall & _). by apply Hub, vu_nr.
  - destruct req as [[pci earfcn]|]; [|done].
    destruct (isNumericOrZero pci) eqn:H1; [|done]. destruct (isNumericOrZero earfcn) eqn:H2; [|done].
    apply Hub, vu_lte_cell; by apply isNumericOrZero_inv.
  - destruct req as [[[pci earfcn] band]|]; [|done]. destruct (isNumericOrZero pci) eqn:H1; [|done].
    destruct (isNumericOrZero earfcn) eqn:H2; [|done]. destruct (isNumericOrZero band) eqn:H3; [|done].
    apply Hub, vu_nr_cell; by apply isNumericOrZero_inv.
  - apply all_calls_call; [apply vu_get; left|]. intros r0. apply all_calls_call; [apply vu_get; right; left|].
    intros r1. by destruct r0, r1.
  - destruct req as [[w0 w1]|]; [|done]. destruct (_ ≫= _) as [[|x params]|] eqn:Hp; [done| |done].
    apply Hub. apply bind_Some in Hp as (p0 & H0 & H1). apply radio_ok in H0 as [->|(m0 & -> & Hm0)];
      apply radio_ok in H1 as [He|(m1 & He & Hm1)]; try done; rewrite He; cbn [app];
      (apply vu_wlan; [done|apply (bool_decide_unpack _); vm_compute; exact Logic.I|]);
      repeat (apply List.Forall_cons; [split; [rewrite !elem_of_cons; auto|by eexists]|]); constructor.
Qed.

(** Blanks and signs are passed on. *)
Example negative_cell :
  match NetworkLTECellLockHandler (Data := unit) (Some (" -5 ", "+007")) with
  | Op (GetDataFromUbus _ _ params) _ => params
  | _ => []
  end = [("lock_lte_pci", PText " -5 "); ("lock_lte_earfcn", PText "+007")].
Proof. vm_compute. reflexivity. Qed.

Lemma device_requests_valid_witness :
  handles (Data := unit) (NetworkLTEBandLockHandler (Some [1; 71])) /\
  all_calls (fun c => match c with GetDataFromUbus service method params => valid_ubus service method params | _ => True end)
    (NetworkLTEBandLockHandler (Data := unit) (Some [1; 71])).
Proof.
  assert (H : handles (Data := unit) (NetworkLTEBandLockHandler (Some [1; 71]))) by constructor.
  split; [exact H|exact (device_requests_valid _ H)].
Defined.

(** settings that pass the check are read back by their user exactly as they
    were saved, whatever the table held for anybody; the table keeps one row per
    user, and nobody else's settings change. *)
Theorem settings_roundtrip {Data} (rows : list UserSetting) (uid now later : Z) (s : PersistedDeviceSettings) :
  rows_ok rows -> validatePersistedSettings s = true ->
  let '(rows', out) := run (Data := Data) true now (DeviceSettingsSaveHandler uid (Some s)) rows in
  out = [(0, Some s)] /\ rows_ok rows' /\
  run (Data := Data) true later (DeviceSettingsGetHandler uid) rows' = (rows', [(0, Some s)]) /\
  forall other, other <> uid -> FindByUid rows' other = FindByUid rows other.
Proof.
  intros Hok Hv. unfold DeviceSettingsSaveHandler. rewrite Hv. cbn [negb].
  cbn [run mbind prog_bind perform]. pose proof (SaveForUid_spec uid (Marshal s) now rows Hok) as Hs.
  destruct (SaveForUid true uid (Marshal s) now rows) as [ok rows'].
  destruct Hs as (-> & Hok' & Hval & Hother); [intros He; by apply (Marshal_not_blank s); rewrite He|].
  cbn [run perform]. split_and!; try done. unfold DeviceSettingsGetHandler. cbn [run mbind prog_bind perform].
  destruct (FindByUid rows' uid) as [r|]; [|done]. change (Some (Value r) = Some (Marshal s)) in Hval. injection Hval as ->.
  rewrite bool_decide_eq_false_2 by apply Marshal_not_blank. rewrite Marshal_roundtrip by done. reflexivity.
Qed.

Lemma settings_roundtrip_witness :
  let s := mkSettings (Some true) None "40" "" "100" "DE" "" "us" "high" in
  validatePersistedSettings s = true /\
  run (Data := unit) true 2 (DeviceSettingsGetHandler 7) (run (Data := unit) true 1 (DeviceSettingsSaveHandler 7 (Some s)) []).1 =
    ((run (Data := unit) true 1 (DeviceSettingsSaveHandler 7 (Some s)) []).1, [(0, Some s)]).
Proof.
  intros s. assert (H : validatePersistedSettings s = true) by (vm_compute; reflexivity). split; [exact H|].
  pose proof (settings_roundtrip (Data := unit) [] 7 1 2 s NoDup_nil_2 H) as Hr.
  destruct (run true 1 (DeviceSettingsSaveHandler 7 (Some s)) []) as [rows' out]. exact (proj1 (proj2 (proj2 Hr))).
Defined.
