(* ===== verification/Wifi.v ===== *)
(** The runtime state of the WiFi interfaces:
    [src/gossh/app/service/zwrt_wifi.go] and [wifi_autostart.go].

    Link state and power-save mode are set by commands and lost at a reboot; two
    goroutines replay the saved settings once and correct the link state every
    twelve seconds.  Theorems, beside anything that goes on on the router: the
    exact commands of a correction, the last orders of a replay, and that its wait for
    the interfaces ends. *)

From S2P Require Import Prelude GoInt GoStrings Threads NetSettings.
From stdpp Require Import gmap strings.
Open Scope string_scope.
Open Scope Z_scope.

(** * Programs *)

Definition second : Z := 10 ^ 9.

Inductive call : Type :=
| IwGet (iface : string) | IwSet (iface mode : string)
| IpLink (iface : string) | Ifconfig (iface state : string)
| LoadSettings | Now | Sleep (d : Z)   (** nanoseconds *)
| JSON (code : Z) (result : gmap string string).

(** Outputs of commands, [None] for an exit code other than zero. *)
Definition answer (c : call) : Type :=
  match c with
  | IwGet _ | IpLink _ => option string
  | IwSet _ _ | Ifconfig _ _ => bool
  | LoadSettings => option (list UserSetting)   (** [None]: the statement fails *)
  | Now => Z
  | Sleep _ | JSON _ _ => unit
  end.

Abbreviation prog := (@Threads.prog call answer).
Abbreviation invoke := (@perform call answer).

(** An error; its text goes to the log only. *)
Inductive error := CommandFailed | StatusUnknown | NotReady | LoadFailed | InvalidMode.

(** ** Commands *)

(** The last word of the output; without one the index is out of range. *)
Inductive power := PowerError | PowerPanic | Power (mode : string).
Definition getPowerSave (iface : string) : prog power :=
  out ← invoke (IwGet iface);
  mret match out with
       | None => PowerError
       | Some out => match last (Fields out) with Some mode => Power mode | None => PowerPanic end
       end.

Definition link_status (output : string) : string :=
  if Contains output "state UP" then "up" else if Contains output "state DOWN" then "down" else "unknown".
Definition getLinkStatus (iface : string) : prog (option string) :=
  out ← (invoke (IpLink iface) : prog (option string)); mret (option_map link_status out).

Definition setPowerSave (iface mode : string) : prog (option error) :=
  if negb (bool_decide (mode = "on")) && negb (bool_decide (mode = "off")) then mret (Some InvalidMode)
  else ok ← invoke (IwSet iface mode); mret (if ok : bool then None else Some CommandFailed).

Definition setWifiState (iface : string) (up : bool) : prog (option error) :=
  ok ← invoke (Ifconfig iface (if up then "up" else "down")); mret (if ok : bool then None else Some CommandFailed).

(** ** Handlers; [None] is a panic, which the framework answers with 500 *)

Fixpoint BatchGetPowerSave (ifaces : list string) (result : gmap string string) : prog (option (gmap string string)) :=
  match ifaces with
  | [] => mret (Some result)
  | iface :: ifaces =>
    psm ← getPowerSave iface;
    match psm with
    | PowerPanic => mret None
    | _ =>
      let psm := match psm with Power mode => mode | _ => "unknown" end in
      status ← getLinkStatus iface;
      BatchGetPowerSave ifaces (<[iface +++ "_status" := default "unknown" status]> (<[iface +++ "_psm" := psm]> result))
    end
  end.

Fixpoint batch (set : string -> prog (option error)) (ifaces : list string) (result : gmap string string) : prog (gmap string string) :=
  match ifaces with
  | [] => mret result
  | iface :: ifaces =>
    e ← set iface; batch set ifaces (<[iface := match e with Some _ => "fail" | None => "ok" end]> result)
  end.
Definition BatchSetPowerSave (ifaces : list string) (mode : string) : prog (gmap string string) := batch (fun i => setPowerSave i mode) ifaces ∅.
Definition BatchSetWifiState (ifaces : list string) (up : bool) : prog (gmap string string) := batch (fun i => setWifiState i up) ifaces ∅.

Definition WifiPsmGetHandler (req : option (list string)) : prog unit :=
  match req with
  | None => invoke (JSON 1 ∅)
  | Some ifaces =>
    data ← BatchGetPowerSave ifaces ∅;
    match data with Some data => invoke (JSON 0 data) | None => invoke (JSON 500 ∅) end
  end.
Definition WifiPsmSetHandler (req : option (list string * string)) : prog unit :=
  match req with
  | None => invoke (JSON 1 ∅)
  | Some (ifaces, mode) => result ← BatchSetPowerSave ifaces mode; invoke (JSON 0 result)
  end.
Definition WifiStateSetHandler (req : option (list string * bool)) : prog unit :=
  match req with
  | None => invoke (JSON 1 ∅)
  | Some (ifaces, up) => result ← BatchSetWifiState ifaces up; invoke (JSON 0 result)
  end.

(** ** The saved settings *)

(** The row that was written last, of those the smallest key. *)
Definition newer (a b : UserSetting) : bool :=
  (UpdatedAt b <? UpdatedAt a) || ((UpdatedAt a =? UpdatedAt b) && (ID a <? ID b)).
Definition FindLatestNonEmpty (rows : list UserSetting) : option UserSetting :=
  fold_left (fun best r => match best with Some b => if newer r b then Some r else best | None => Some r end)
    (filter (fun r => Value r <> "") rows) None.

(** The settings, no settings, or an error; [ready]: the service is initialised
    ([config.DefaultConfig.IsInit]) and has a database. *)
Definition loadLatestPersistedDeviceSettings (ready : bool) : prog (error + option PersistedDeviceSettings) :=
  if negb ready then mret (inr None) else
  rows ← invoke LoadSettings;
  mret match rows with
       | None => inl LoadFailed
       | Some rows =>
         match FindLatestNonEmpty rows with
         | None => inr None
         | Some setting => match Unmarshal (Value setting) with Some s => inr (Some s) | None => inl LoadFailed end
         end
       end.

Definition hasWifiRuntimeSettings (s : PersistedDeviceSettings) : bool :=
  bool_decide (is_Some (Wifi24Enabled s)) || bool_decide (is_Some (Wifi5Enabled s)) || negb (bool_decide (TrimSpace (WifiPerformance s) = "")).
Definition hasPersistedWifiState (s : PersistedDeviceSettings) : bool :=
  bool_decide (is_Some (Wifi24Enabled s)) || bool_decide (is_Some (Wifi5Enabled s)).
Definition wifiPowerSaveMode (performance : string) : string :=
  let p := TrimSpace performance in
  if bool_decide (p = "high") then "off" else if bool_decide (p = "power_save") then "on" else "".

(** ** The replay after the start *)

(** Whether every interface answers. *)
Fixpoint all_ready (ifaces : list string) : prog bool :=
  match ifaces with
  | [] => mret true
  | iface :: ifaces => status ← getLinkStatus iface; if bool_decide (is_Some status) then all_ready ifaces else mret false
  end.

(** [None]: out of fuel. *)
Fixpoint wait_loop (fuel : nat) (ifaces : list string) (deadline : Z) : prog (option (option error)) :=
  match fuel with
  | O => mret None
  | S fuel =>
    ready ← all_ready ifaces;
    if ready : bool then mret (Some None)
    else
      now ← invoke Now;
      if deadline <? now then mret (Some (Some NotReady))
      else _ ← invoke (Sleep (5 * second)); wait_loop fuel ifaces deadline
  end.
Definition wait_fuel : nat := 26.
Definition waitWifiInterfaces (ifaces : list string) (timeout : Z) : prog (option (option error)) :=
  now ← invoke Now; wait_loop wait_fuel ifaces (now + timeout).

(** [if err := m; err != nil { return err }]. *)
Definition check (m k : prog (option error)) : prog (option error) :=
  e ← m; match e with Some e => mret (Some e) | None => k end.

Fixpoint set_modes (ifaces : list string) (mode : string) : prog unit :=
  match ifaces with
  | [] => mret tt
  | iface :: ifaces => _ ← setPowerSave iface mode; set_modes ifaces mode
  end.

Definition applyPersistedWifiRuntimeSettings (s : PersistedDeviceSettings) : prog (option error) :=
  check (match Wifi24Enabled s with Some true => setWifiState "wlan0" true | _ => mret None end)
    (check (match Wifi5Enabled s with Some true => setWifiState "wlan2" true | _ => mret None end)
      (_ ← (let mode := wifiPowerSaveMode (WifiPerformance s) in
            if bool_decide (mode = "") then mret tt else set_modes ["wlan0"; "wlan1"; "wlan2"; "wlan3"] mode);
       check (match Wifi24Enabled s with Some up => setWifiState "wlan0" up | None => mret None end)
         (match Wifi5Enabled s with Some up => setWifiState "wlan2" up | None => mret None end))).

(** The goroutine; the result is what it logs, [None] for an early return.
    Before [isInit] it is not started. *)
Definition InitWifiSettingsAutostart (isInit ready : bool) : prog (option (option error)) :=
  if negb isInit then mret None else
  _ ← invoke (Sleep (8 * second));
  l ← loadLatestPersistedDeviceSettings ready;
  match l with
  | inl e => mret (Some (Some e))
  | inr None => mret None
  | inr (Some settings) =>
    if negb (hasWifiRuntimeSettings settings) then mret None
    else
      w ← waitWifiInterfaces ["wlan0"; "wlan2"] (2 * 60 * second);
      match w with
      | Some None => e ← applyPersistedWifiRuntimeSettings settings; mret (Some e)
      | Some (Some e) => mret (Some (Some e))
      | None => mret None
      end
  end.

(** ** The correction, every twelve seconds *)

Definition reconcileWifiIfaceState (iface : string) (expectedUp : bool) : prog (option error) :=
  status ← getLinkStatus iface;
  match status with
  | None => mret (Some CommandFailed)
  | Some status =>
    let currentUp := bool_decide (status = "up") in
    if negb (bool_decide (status = "up")) && negb (bool_decide (status = "down")) then mret (Some StatusUnknown)
    else if Bool.eqb currentUp expectedUp then mret None
    else setWifiState iface expectedUp
  end.

Definition reconcilePersistedWifiState (s : PersistedDeviceSettings) : prog (option error) :=
  check (match Wifi24Enabled s with Some up => reconcileWifiIfaceState "wlan0" up | None => mret None end)
    (match Wifi5Enabled s with Some up => reconcileWifiIfaceState "wlan2" up | None => mret None end).

(** One tick; the result is the error it logs. *)
Definition pollPersistedWifiState (ready : bool) : prog (option error) :=
  l ← loadLatestPersistedDeviceSettings ready;
  match l with
  | inl e => mret (Some e)
  | inr None => mret None
  | inr (Some settings) =>
    if negb (hasPersistedWifiState settings) then mret None else reconcilePersistedWifiState settings
  end.

(** * The router *)

(** The operational state of an interface, as [ip link show] prints it. *)
Inductive link := Up | Down | OtherState.
#[export] Instance link_eq_dec : EqDecision link := ltac:(solve_decision).

(** What the commands of the service did. *)
Inductive event :=
| Loaded (rs : option (list UserSetting))
| Showed (iface : string) (l : option link)           (** [None]: the command failed *)
| Ordered (iface state : string) (ok : bool)
| Moded (iface mode : string) (ok : bool).

(** Interfaces with the administrative flag [ifconfig] sets and the operational
    state [ip] shows, power-save modes, the clock, the settings, and the log of
    the running program. *)
Record world := mkWorld {
  admin : gmap string bool; oper : gmap string link; modes : gmap string string; clock : Z;
  rows : list UserSetting; log : list event }.
Definition note (e : event) (w : world) : world := mkWorld (admin w) (oper w) (modes w) (clock w) (rows w) (log w ++ [e])%list.

(** What [ip link show] prints of a state. *)
Definition shows (output : string) (l : link) : Prop :=
  match l with
  | Up => Contains output "state UP" = true
  | Down => Contains output "state UP" = false /\ Contains output "state DOWN" = true
  | OtherState => Contains output "state UP" = false /\ Contains output "state DOWN" = false
  end.

(** A command may fail, and then it changes nothing.  [ifconfig] sets the
    administrative flag; what the operational state becomes is the driver's affair
    (an interface that is up but has no carrier still shows [state DOWN]).  A sleep
    lasts at least as long as asked for. *)
Definition does (c : call) (w : world) : answer c -> world -> Prop :=
  match c with
  | IwGet _ => fun a w' => w' = w
  | IwSet iface mode => fun a w' => w' = note (Moded iface mode a)
      (if a : bool then mkWorld (admin w) (oper w) (<[iface := mode]> (modes w)) (clock w) (rows w) (log w) else w)
  | IpLink iface => fun a w' => match a with
      | Some out => exists l, oper w !! iface = Some l /\ shows out l /\ w' = note (Showed iface (Some l)) w
      | None => w' = note (Showed iface None) w
      end
  | Ifconfig iface state => fun a w' =>
      if a : bool then is_Some (admin w !! iface) /\ exists l, w' = note (Ordered iface state true)
        (mkWorld (<[iface := bool_decide (state = "up")]> (admin w)) (<[iface := l]> (oper w)) (modes w) (clock w) (rows w) (log w))
      else w' = note (Ordered iface state false) w
  | LoadSettings => fun a w' => w' = note (Loaded a) w /\ match a with Some r => r = rows w | None => True end
  | Now => fun a w' => exists t, clock w <= t /\ a = t /\ w' = mkWorld (admin w) (oper w) (modes w) t (rows w) (log w)
  | Sleep d => fun _ w' => exists t, clock w + d <= t /\ w' = mkWorld (admin w) (oper w) (modes w) t (rows w) (log w)
  | JSON _ _ => fun _ w' => w' = w
  end.

(** The others: drivers, handlers, the other goroutine, whoever saves settings.
    They may change everything at any time; the log is the program's own. *)
Definition others (w w' : world) : Prop := log w' = log w /\ clock w <= clock w'.
#[export] Instance others_order : PreOrder others.
Proof. split; [by split|]. intros w1 w2 w3 [L1 C1] [L2 C2]. split; [congruence|lia]. Qed.

(** * What a program logs, whatever the others do *)

Definition traced {A} (p : prog A) (S : A -> list event -> Prop) : Prop :=
  forall w, wpr does others p (fun a w' => exists ev, log w' = (log w ++ ev)%list /\ S a ev) w.

Lemma traced_ret {A} (a : A) (S : A -> list event -> Prop) : S a [] -> traced (mret a) S.
Proof. intros H w. apply wpr_ret. intros w' [Hl _]. exists []. by rewrite app_nil_r. Qed.
Lemma traced_bind {A B} (p : prog A) (f : A -> prog B) S1 (S : B -> list event -> Prop) :
  traced p S1 -> (forall a ev1, S1 a ev1 -> traced (f a) (fun b ev2 => S b (ev1 ++ ev2)%list)) -> traced (p ≫= f) S.
Proof.
  intros Hp Hf w. apply wpr_bind; [exact _|]. eapply wpr_mono; [|apply Hp]. intros a w1 (ev1 & L1 & H1).
  eapply wpr_mono; [|by apply (Hf a ev1)]. intros b w2 (ev2 & L2 & H2). exists (ev1 ++ ev2)%list.
  split; [|done]. by rewrite L2, L1, app_assoc.
Qed.
Lemma traced_perform c (S : answer c -> list event -> Prop) :
  (forall w a w', does c w a w' -> exists ev, log w' = (log w ++ ev)%list /\ S a ev) -> traced (invoke c) S.
Proof.
  intros H w. apply wpr_perform. intros w1 a w2 w3 [L1 _] Hd [L3 _]. destruct (H _ _ _ Hd) as (ev & Hl & Hs).
  exists ev. split; [congruence|done].
Qed.
Lemma traced_mono {A} (p : prog A) (S S' : A -> list event -> Prop) :
  (forall a ev, S a ev -> S' a ev) -> traced p S -> traced p S'.
Proof. intros HS Hp w. eapply wpr_mono; [|apply Hp]. intros a w' (ev & L & H). exists ev. auto. Qed.

Lemma traced_check m k S1 (S : option error -> list event -> Prop) :
  traced m S1 -> (forall e ev, S1 (Some e) ev -> S (Some e) ev) ->
  (forall ev, S1 None ev -> traced k (fun e ev2 => S e (ev ++ ev2)%list)) -> traced (check m k) S.
Proof.
  intros Hm He Hk. eapply traced_bind; [exact Hm|]. intros [e|] ev H; [|by apply Hk].
  apply traced_ret. rewrite app_nil_r. by apply He.
Qed.

(** ** The calls *)

Definition word (up : bool) : string := if up then "up" else "down".
Definition state_of (up : bool) : link := if up then Up else Down.
Definition failed_unless (ok : bool) : option error := if ok then None else Some CommandFailed.

Lemma link_status_shows out l : shows out l ->
  link_status out = match l with Up => "up" | Down => "down" | OtherState => "unknown" end.
Proof. unfold link_status. destruct l; cbn; [by intros ->|by intros [-> ->]..]. Qed.

Lemma traced_status iface : traced (getLinkStatus iface) (fun st ev => exists l, ev = [Showed iface l] /\
  st = (l ← l; Some match l with Up => "up" | Down => "down" | OtherState => "unknown" end)).
Proof.
  unfold getLinkStatus. eapply traced_bind.
  - apply (traced_perform (IpLink iface) (fun a ev => exists l, ev = [Showed iface l] /\
      link_status <$> a = (l ← l; Some match l with Up => "up" | Down => "down" | OtherState => "unknown" end))).
    intros w [out|] w' Hd; cbn in Hd.
    + destruct Hd as (l & _ & Hs & ->). exists [Showed iface (Some l)]. split; [done|]. exists (Some l).
      cbn. by rewrite (link_status_shows _ _ Hs).
    + subst. exists [Showed iface None]. split; [done|]. by exists None.
  - intros a ev (l & -> & H). apply traced_ret. by exists l.
Qed.

Lemma traced_set iface up :
  traced (setWifiState iface up) (fun e ev => exists ok, e = failed_unless ok /\ ev = [Ordered iface (word up) ok]).
Proof.
  unfold setWifiState. eapply traced_bind.
  - apply (traced_perform (Ifconfig iface (word up)) (fun ok ev => ev = [Ordered iface (word up) ok])).
    intros w [] w' Hd; cbn in Hd; [destruct Hd as (_ & l & ->)|subst]; by eexists.
  - intros ok ev ->. apply traced_ret. by exists ok.
Qed.

(** ** The settings that were saved last *)

Definition saved_last (rs : list UserSetting) (r : UserSetting) : Prop :=
  r ∈ rs /\ Value r <> "" /\
  forall r', r' ∈ rs -> Value r' <> "" ->
    UpdatedAt r' < UpdatedAt r \/ (UpdatedAt r' = UpdatedAt r /\ ID r <= ID r').

Definition latest (best : option UserSetting) (r : UserSetting) : option UserSetting :=
  match best with Some b => if newer r b then Some r else best | None => Some r end.
Definition at_least (r r' : UserSetting) : Prop :=
  UpdatedAt r' < UpdatedAt r \/ (UpdatedAt r' = UpdatedAt r /\ ID r <= ID r').

Lemma newer_spec a b : newer a b = true -> at_least a b.
Proof. unfold newer, at_least. rewrite orb_true_iff, andb_true_iff, Z.ltb_lt, Z.eqb_eq, Z.ltb_lt. lia. Qed.
Lemma not_newer_spec a b : newer a b = false -> at_least b a.
Proof. unfold newer, at_least. rewrite orb_false_iff, andb_false_iff, Z.ltb_ge, Z.eqb_neq, Z.ltb_ge. lia. Qed.

Lemma fold_latest rs : forall b, exists r, fold_left latest rs (Some b) = Some r /\ (r = b \/ r ∈ rs) /\ at_least r b /\
  forall r', r' ∈ rs -> at_least r r'.
Proof.
  induction rs as [|a rs IH]; intros b.
  { exists b. split_and!; [done|by left|by right|]. by intros r' ?%elem_of_nil. }
  assert (Htrans : forall x y z, at_least x y -> at_least y z -> at_least x z) by (unfold at_least; lia).
  cbn [fold_left latest]. destruct (newer a b) eqn:Hn.
  - destruct (IH a) as (r & -> & Hr & Ha & Hall). apply newer_spec in Hn. exists r. split_and!; [done| |eauto|].
    + right. rewrite elem_of_cons. tauto.
    + intros r' [->|H]%elem_of_cons; auto.
  - destruct (IH b) as (r & -> & Hr & Hb & Hall). apply not_newer_spec in Hn. exists r. split_and!; [done| |done|].
    + rewrite elem_of_cons. tauto.
    + intros r' [->|H]%elem_of_cons; eauto.
Qed.

Lemma latest_saved rs : match FindLatestNonEmpty rs with
  | Some r => saved_last rs r
  | None => forall r, r ∈ rs -> Value r = ""
  end.
Proof.
  unfold FindLatestNonEmpty. change (fun best r => _) with latest.
  destruct (filter _ rs) as [|b bs] eqn:Hf.
  { intros r Hr. destruct (decide (Value r = "")) as [|Hn]; [done|].
    assert (H : r ∈ filter (fun r => Value r <> "") rs) by by apply list_elem_of_filter.
    rewrite Hf in H. by apply elem_of_nil in H. }
  assert (Hin : forall r, r ∈ b :: bs <-> Value r <> "" /\ r ∈ rs) by (intros r; by rewrite <- Hf, list_elem_of_filter).
  cbn [fold_left latest]. destruct (fold_latest bs b) as (r & -> & Hr & Hb & Hall).
  assert (Hr' : r ∈ b :: bs) by (rewrite elem_of_cons; tauto). apply Hin in Hr' as [Hv Hr']. split_and!; [done|done|].
  intros r' H1 H2. assert (H : r' ∈ b :: bs) by by apply Hin. apply elem_of_cons in H as [->|H]; [exact Hb|by apply Hall].
Qed.

(** What a load of the settings reads. *)
Definition load_outcome (ready : bool) (l : error + option PersistedDeviceSettings) (ev : list event) : Prop :=
  if ready then exists o, ev = [Loaded o] /\
    match o with
    | None => l = inl LoadFailed
    | Some rs =>
        ((forall r, r ∈ rs -> Value r = "") /\ l = inr None) \/
        exists r, saved_last rs r /\ l = match Unmarshal (Value r) with Some s => inr (Some s) | None => inl LoadFailed end
    end
  else ev = [] /\ l = inr None.

Lemma traced_load ready : traced (loadLatestPersistedDeviceSettings ready) (load_outcome ready).
Proof.
  unfold loadLatestPersistedDeviceSettings. destruct ready; cbn [negb]; [|by apply traced_ret].
  eapply traced_bind; [apply (traced_perform LoadSettings (fun a ev => ev = [Loaded a]))|].
  { intros w a w' [-> _]. by eexists. }
  intros a ev ->. apply traced_ret. exists a. split; [done|]. destruct a as [rs|]; [|done].
  pose proof (latest_saved rs) as H. destruct (FindLatestNonEmpty rs) as [r|]; [|by left]. right. exists r.
  split; [done|]. by destruct (Unmarshal (Value r)).
Qed.

(** ** One radio *)

Inductive corrected (iface : string) : option bool -> option error -> list event -> Prop :=
| C_unset : corrected iface None None []
| C_silent up : corrected iface (Some up) (Some CommandFailed) [Showed iface None]
| C_unknown up : corrected iface (Some up) (Some StatusUnknown) [Showed iface (Some OtherState)]
| C_right up : corrected iface (Some up) None [Showed iface (Some (state_of up))]
| C_ordered up ok : corrected iface (Some up) (failed_unless ok)
    [Showed iface (Some (state_of (negb up))); Ordered iface (word up) ok].

Lemma traced_reconcile iface o :
  traced (match o with Some up => reconcileWifiIfaceState iface up | None => mret None end) (corrected iface o).
Proof.
  destruct o as [up|]; [|apply traced_ret; constructor]. unfold reconcileWifiIfaceState.
  eapply traced_bind; [apply traced_status|]. intros st ev (l & -> & ->).
  destruct l as [l|]; [|apply traced_ret; constructor]. cbn [mbind option_bind].
  assert (Hset : l = state_of (negb up) ->
    traced (setWifiState iface up) (fun e ev => corrected iface (Some up) e ([Showed iface (Some l)] ++ ev)%list)).
  { intros ->. eapply traced_mono; [|apply traced_set]. intros e ev (ok & -> & ->). constructor. }
  destruct l, up; cbn -[setWifiState]; (by apply Hset) || (apply traced_ret; constructor).
Qed.

(** Both radios, up to the first error. *)
Definition tick (s : PersistedDeviceSettings) (e : option error) (ev : list event) : Prop :=
  exists e1 ev1, corrected "wlan0" (Wifi24Enabled s) e1 ev1 /\
  match e1 with
  | Some _ => e = e1 /\ ev = ev1
  | None => exists ev2, corrected "wlan2" (Wifi5Enabled s) e ev2 /\ ev = (ev1 ++ ev2)%list
  end.

Lemma traced_reconcile_all s : traced (reconcilePersistedWifiState s) (tick s).
Proof.
  eapply traced_check; [apply traced_reconcile| |].
  - intros e ev H. by exists (Some e), ev.
  - intros ev H. eapply traced_mono; [|apply traced_reconcile]. intros e ev2 H2. exists None, ev. split; [done|]. by exists ev2.
Qed.

(** ** The replay *)

(** The last order given to an interface, and whether it succeeded. *)
Fixpoint last_order (iface : string) (ev : list event) : option (string * bool) :=
  match ev with
  | [] => None
  | e :: ev =>
    match last_order iface ev, e with
    | Some x, _ => Some x
    | None, Ordered i st ok => if decide (i = iface) then Some (st, ok) else None
    | None, _ => None
    end
  end.
Lemma last_order_app iface ev1 ev2 : last_order iface (ev1 ++ ev2) =
  match last_order iface ev2 with Some x => Some x | None => last_order iface ev1 end.
Proof. induction ev1 as [|e ev1 IH]; cbn; [by destruct (last_order iface ev2)|]. rewrite IH. by destruct (last_order iface ev2). Qed.

Definition radio_as (o : option bool) (iface : string) (ev : list event) : Prop :=
  forall up, o = Some up -> last_order iface ev = Some (word up, true).

Lemma traced_step iface o :
  traced (match o with Some up => setWifiState iface up | None => mret None end)
    (fun e ev => (e = None -> radio_as o iface ev) /\ forall i, i <> iface -> last_order i ev = None).
Proof.
  destruct o as [up|]; [|by apply traced_ret]. eapply traced_mono; [|apply traced_set]. intros e ev (ok & -> & ->). split.
  - intros He up' [= <-]. cbn. rewrite decide_True by done. by destruct ok.
  - intros i Hi. cbn. by rewrite decide_False.
Qed.
Lemma traced_any {A} (p : prog A) : traced p (fun _ _ => True).
Proof.
  induction p as [a|c k IH]; [by apply traced_ret|].
  change (Op c k) with (invoke c ≫= k). eapply (traced_bind _ _ (fun _ _ => True)); [|by intros].
  apply traced_perform. intros w a w' Hd. destruct c; cbn in Hd.
  - subst. exists []. by rewrite app_nil_r.
  - subst. eexists. split; [|done]. by destruct a.
  - destruct a; [destruct Hd as (l & _ & _ & ->)|subst]; by eexists.
  - destruct a; [destruct Hd as (_ & l & ->)|subst]; by eexists.
  - destruct Hd as [-> _]. by eexists.
  - destruct Hd as (t & _ & _ & ->). exists []. by rewrite app_nil_r.
  - destruct Hd as (t & _ & ->). exists []. by rewrite app_nil_r.
  - subst. exists []. by rewrite app_nil_r.
Qed.

Lemma traced_apply s : traced (applyPersistedWifiRuntimeSettings s)
  (fun e ev => e = None -> radio_as (Wifi24Enabled s) "wlan0" ev /\ radio_as (Wifi5Enabled s) "wlan2" ev).
Proof.
  unfold applyPersistedWifiRuntimeSettings.
  eapply (traced_check _ _ (fun _ _ => True)); [apply traced_any|done|]. intros ev1 _.
  eapply (traced_check _ _ (fun _ _ => True)); [apply traced_any|done|]. intros ev2 _.
  eapply (traced_bind _ _ (fun _ _ => True)); [apply traced_any|]. intros _ ev3 _.
  eapply traced_check; [apply traced_step|done|]. intros ev4 [H4 _].
  eapply traced_mono; [|apply traced_step]. intros e ev5 [H5 N5] He. split; intros up Hup; rewrite !last_order_app.
  - rewrite N5 by done. by rewrite (H4 eq_refl up Hup).
  - by rewrite (H5 He up Hup).
Qed.

(** ** The wait *)

Lemma ready_clock ifaces w : wpr does others (all_ready ifaces) (fun _ w' => clock w <= clock w') w.
Proof.
  revert w. induction ifaces as [|iface ifaces IH]; intros w; cbn [all_ready]; [apply wpr_ret; by intros w' [_ H]|].
  apply (wpr_call _ _ (IpLink iface)). intros w1 a w2 [_ C1] Hd. cbn [mret prog_ret mbind prog_bind].
  assert (C2 : clock w2 = clock w1) by (destruct a; [by destruct Hd as (l & _ & _ & ->)|by cbn in Hd; subst]).
  case_bool_decide; [|apply wpr_ret; intros w3 [_ C3]; lia]. eapply wpr_mono; [|apply IH]. cbn. intros _ w3 C3. lia.
Qed.

(** Each round that does not end the wait takes five seconds. *)
Lemma wait_ends ifaces deadline fuel : forall w, (0 < fuel)%nat -> deadline < clock w + (Z.of_nat fuel - 1) * (5 * second) ->
  wpr does others (wait_loop fuel ifaces deadline) (fun r _ => r <> None) w.
Proof.
  induction fuel as [|fuel IH]; intros w Hf Hd; [lia|]. cbn [wait_loop].
  apply wpr_bind; [exact _|]. eapply wpr_mono; [|apply ready_clock]. intros ready w1 C1. destruct ready; [by apply wpr_ret|].
  apply (wpr_call _ _ Now). intros w2 t w3 [_ C2] (t1 & Ht & -> & ->). destruct (Z.ltb_spec deadline t1); [by apply wpr_ret|].
  apply (wpr_call _ _ (Sleep (5 * second))). intros w4 [] w5 [_ C4] (t2 & Ht2 & ->). cbn [clock] in *.
  destruct fuel as [|fuel]; [cbn in Hd; lia|]. apply IH; [lia|]. cbn [clock]. lia.
Qed.

(** * Properties *)

(** C31: one tick of the correction, whatever drivers, handlers and the other
    goroutine do meanwhile.  It reads the settings once; of the rows that hold any
    it takes the one with the largest time of change (of equals the smallest key);
    no settings end it without an error, a failed or unreadable load with one.  Then
    for the 2.4 GHz and, without an error there, the 5 GHz radio: if the settings do
    not mention it, nothing; if [ip] fails or shows a state that is neither up nor
    down, an error; if it shows the saved state, no command; if it shows the
    opposite, exactly one [ifconfig] with the saved state, whose failure is the
    error.  Nothing else is run. *)
Theorem poll_corrects (ready : bool) :
  traced (pollPersistedWifiState ready) (fun e ev => exists l ev1 ev2,
    load_outcome ready l ev1 /\ ev = (ev1 ++ ev2)%list /\
    match l with
    | inl err => e = Some err /\ ev2 = []
    | inr None => e = None /\ ev2 = []
    | inr (Some s) => tick s e ev2
    end).
Proof.
  eapply traced_bind; [apply traced_load|]. intros l ev Hl.
  destruct l as [err|[s|]]; [by apply traced_ret; exists (inl err), ev, []| |by apply traced_ret; exists (inr None), ev, []].
  destruct (hasPersistedWifiState s) eqn:Hh; cbn [negb].
  - eapply traced_mono; [|apply traced_reconcile_all]. intros e ev2 H. by exists (inr (Some s)), ev, ev2.
  - apply traced_ret. exists (inr (Some s)), ev, []. split_and!; [done|done|].
    unfold hasPersistedWifiState in Hh. apply orb_false_iff in Hh as [H1%bool_decide_eq_false H2%bool_decide_eq_false].
    apply eq_None_not_Some in H1, H2. unfold tick. rewrite H1, H2. exists None, []. split; [constructor|].
    exists []. split; [constructor|done].
Qed.

(** the replay after the start: its wait for the interfaces ends within the
    rounds the model gives it, however the commands answer, and in a replay that
    reports no error the last order to each saved radio was its saved state. *)
Theorem replay_converges (isInit ready : bool) (w : world) :
  wpr does others (waitWifiInterfaces ["wlan0"; "wlan2"] (2 * 60 * second)) (fun r _ => r <> None) w /\
  traced (InitWifiSettingsAutostart isInit ready) (fun r ev => r = Some None -> exists s l ev1 ev2,
    load_outcome ready l ev1 /\ l = inr (Some s) /\ ev = (ev1 ++ ev2)%list /\
    radio_as (Wifi24Enabled s) "wlan0" ev2 /\ radio_as (Wifi5Enabled s) "wlan2" ev2).
Proof.
  split.
  - unfold waitWifiInterfaces. apply (wpr_call _ _ Now). intros w1 t w2 _ (t1 & Ht & -> & ->).
    apply wait_ends; [unfold wait_fuel; lia|cbn [clock]; unfold wait_fuel, second; lia].
  - unfold InitWifiSettingsAutostart. destruct isInit; cbn [negb]; [|by apply traced_ret].
    eapply traced_bind; [apply (traced_perform (Sleep _) (fun _ ev => ev = []))|].
    { intros w1 [] w2 (t & _ & ->). exists []. by rewrite app_nil_r. }
    intros [] ev ->. eapply traced_bind; [apply traced_load|]. intros l ev1 Hl.
    destruct l as [err|[s|]]; [by apply traced_ret| |by apply traced_ret]. destruct (negb _); [by apply traced_ret|].
    eapply traced_bind; [apply traced_any|]. intros x ev2 _. destruct x as [[e|]|]; [by apply traced_ret| |by apply traced_ret].
    eapply traced_bind; [apply traced_apply|]. intros e ev3 H3. apply traced_ret. intros [= ->].
    exists s, (inr (Some s)), ev1, (ev2 ++ ev3)%list. rewrite app_nil_r. split_and!; [done|done|done| |];
      intros up Hup; rewrite last_order_app; destruct (H3 eq_refl) as [Ha Hb]; [by rewrite (Ha up Hup)|by rewrite (Hb up Hup)].
Qed.
