(* ===== verification/HomeCards.v ===== *)
(** The cards of the replaced screen ([system_tools.go]): the text that
    [buildDevuiHomeCards] writes every second from an answer of the router service,
    the speed beside it, and the small functions they use.  The screen reads the
    text by line numbers, so its layout is what is proved. *)

From S2P Require Import Prelude.
From S2P Require Import GoInt.
From S2P Require Import GoFloat.
From S2P Require Import GoSort.
From S2P Require Import GoStrings.
From S2P Require Import GoStrconv.
Open Scope string_scope.
Open Scope Z_scope.

Definition newline : ascii := chr 10.
Definition quote : ascii := chr 34.

(** * Reading the answer *)

Definition is_blank (c : ascii) : bool := (ord c =? 32) || (ord c =? 9).

(** The part of a list before the first element of a set, all of it if there is none. *)
Definition before (f : ascii -> bool) (l : list ascii) : list ascii :=
  (fix go l := match l with c :: l' => if f c then [] else c :: go l' | [] => [] end) l.
Definition is_quote (c : ascii) : bool := ord c =? 34.
Definition ends_value (c : ascii) : bool := (ord c =? 44) || (ord c =? 125).

(** What follows the pattern on a line. *)
Definition json_value (rest : list ascii) : string :=
  match drop_while is_blank rest with
  | c :: value => if is_quote c then of_chars (if existsb is_quote value then before is_quote value else [])
                  else of_chars (before ends_value (c :: value))
  | [] => ""
  end.

Definition json_pattern (key : string) : string := String quote key +++ String quote ":".

Fixpoint json_lines (pattern : string) (lines : list string) : string :=
  match lines with
  | [] => ""
  | line :: lines =>
    match Index line pattern with
    | Some pos => json_value (drop (pos + strlen pattern) (chars line))
    | None => json_lines pattern lines
    end
  end.
Definition devuiJSONGet (jsonText key : string) : string := json_lines (json_pattern key) (Split1 jsonText newline).

(** * Texts *)

Definition fallbackDash (value : string) : string := if bool_decide (value = "") then "--" else value.

(** The pattern of [devuiDotZeroRe]: a dot and zeros up to the end. *)
Fixpoint strip_dot_zero (l : list ascii) : list ascii :=
  match l with
  | [] => []
  | c :: l' =>
    if (ord c =? 46) && negb (bool_decide (l' = [])) && forallb (fun d => ord d =? 48) l' then []
    else c :: strip_dot_zero l'
  end.
Definition devuiStripDotZero (value : string) : string := of_chars (strip_dot_zero (chars value)).

(** The pattern of [devuiFmtNumRe]: a sign, digits, a dot, zeros. *)
Definition fmt_num_matches (value : string) : bool :=
  let l := chars value in
  let l := match l with c :: l' => if ord c =? 45 then l' else l | [] => [] end in
  match take_digits l with
  | (_ :: _, d :: (_ :: _ as zeros)) => (ord d =? 46) && forallb (fun d => ord d =? 48) zeros
  | _ => false
  end.
Definition fmtNum (value : string) : string :=
  if bool_decide (value = "") || bool_decide (value = "--") then "--"
  else if fmt_num_matches value then of_chars (before (fun c => ord c =? 46) (chars value))
  else value.

Definition signalFloat (value : string) : option float64 :=
  let value := TrimSpace value in
  if bool_decide (value = "") || bool_decide (value = "--") then None else ParseFloat value.
Definition devuiToFloat (value : string) : float64 := default (f_of_Z 0) (ParseFloat (TrimSpace value)).

Definition invalidZeroSignal (value kind : string) : bool :=
  match signalFloat value with
  | Some v => feqb v (f_of_Z 0) && bool_decide (kind ∈ ["rsrp"; "rsrq"; "rssi"])
  | None => false
  end.

(** The bounds of the grades of a kind, from the best. *)
Definition grade_bounds (kind : string) : option (Z * Z * Z) :=
  if bool_decide (kind = "rsrp") then Some (-80, -90, -105)
  else if bool_decide (kind = "rsrq") then Some (-10, -15, -20)
  else if bool_decide (kind = "sinr") then Some (20, 10, 0)
  else if bool_decide (kind = "rssi") then Some (-65, -75, -85)
  else None.
Definition at_least (bound : Z) (v : float64) : bool := fleb (f_of_Z bound) v.
Definition gradeSignal (value kind : string) : string :=
  if bool_decide (value = "") || bool_decide (value = "--") then "--"
  else if invalidZeroSignal value kind then "较差"
  else
    let v := devuiToFloat value in
    match grade_bounds kind with
    | Some (best, good, fair) =>
      if at_least best v then "优秀" else if at_least good v then "良好" else if at_least fair v then "一般" else "较差"
    | None => "较差"
    end.

Definition bar_range (kind : string) : Z * Z :=
  if bool_decide (kind = "rsrq") then (-20, -8)
  else if bool_decide (kind = "sinr") then (-5, 25)
  else if bool_decide (kind = "rssi") then (-90, -50)
  else (-115, -65).

Definition compactBand (value : string) : string :=
  let value := TrimSpace value in
  if bool_decide (value = "") then "--"
  else
    let u := ToUpper (ReplaceByte value (chr 95) " ") in
    let all_digits s := negb (bool_decide (s = "")) && forallb is_digit (chars s) in
    match Fields u with
    | [a; b; n] => if bool_decide (a = "LTE") && bool_decide (b = "BAND") && all_digits n then "B" +++ n else u
    | [a; n] => if bool_decide (a = "BAND") && all_digits n then "B" +++ n else u
    | _ => u
    end.

Definition comma : ascii := chr 44.
Definition semicolon : ascii := chr 59.
(** The field [i], which the callers know to be there. *)
Definition field (i : nat) (fields : list string) : string := nth i fields "".
Definition carriers (ca : string) : list (list string) := map (fun item => Split1 item comma) (Split1 ca semicolon).

Definition lteBWFromCA (ca : string) : string :=
  match List.find (fun fields => (5 <=? length fields)%nat && negb (bool_decide (field 4 fields = ""))) (carriers ca) with
  | Some fields => field 4 fields
  | None => ""
  end.

(** * The cards *)

(** [int(f)] of a NaN or a number out of range is left open by the language: it is
    the parameter [undef]. *)
Section Cards.
Context (undef : float64 -> Z).

Definition int_of (f : float64) : Z :=
  match f with
  | S754_zero _ => 0
  | S754_finite _ _ _ => let n := f_trunc f in if (- 2 ^ 63 <=? n) && (n <? 2 ^ 63) then n else undef f
  | _ => undef f
  end.

Definition signalBarWidth (value kind : string) : Z :=
  if bool_decide (value = "") || bool_decide (value = "--") then 0
  else if invalidZeroSignal value kind then 0
  else
    let v := devuiToFloat value in
    let '(lo, hi) := bar_range kind in
    let pct := fdiv (fsub v (f_of_Z lo)) (fsub (f_of_Z hi) (f_of_Z lo)) in
    let pct := if fltb pct (f_of_Z 0) then f_of_Z 0 else pct in
    let pct := if fltb (f_of_Z 1) pct then f_of_Z 1 else pct in
    let w := int_of (fadd (fmul pct (f_of_Z 132)) (f_lit 5 10)) in
    if w <? 2 then 2 else if 132 <? w then 132 else w.

Inductive net_mode := Lte | Nsa | Sa | Nr.
Definition net_mode_of (modeU : string) : net_mode :=
  if Contains modeU "LTE" then Lte else if Contains modeU "ENDC" then Nsa else if Contains modeU "SA" then Sa else Nr.

(** The six lines of one carrier. *)
Definition column (pci band freq bw rsrp sinr : string) : list string := [pci; band; freq; bw; rsrp; sinr].
Definition bw_text (bw : string) : string := if bool_decide (bw = "--") then "--" else bw +++ "M".

(** The loops over the further carriers; [n] is how many may still be written. *)
Fixpoint lte_columns (pci freq : string) (n : nat) (skipped : bool) (l : list (list string)) : list string :=
  match n, l with
  | S n', fields :: l =>
    if (length fields <? 5)%nat then lte_columns pci freq n skipped l
    else if negb skipped && bool_decide (field 0 fields = pci) && bool_decide (field 3 fields = freq)
    then lte_columns pci freq n true l
    else (column (field 0 fields) ("B" +++ field 1 fields) (field 3 fields) (field 4 fields +++ "M") "-" "-" ++
          lte_columns pci freq n' skipped l)%list
  | _, _ => []
  end.
Fixpoint nr_columns (n : nat) (l : list (list string)) : list string :=
  match n, l with
  | S n', fields :: l =>
    if (length fields <? 11)%nat then nr_columns n l
    else (column (field 1 fields) ("N" +++ field 3 fields) (field 4 fields) (field 5 fields +++ "M")
            (devuiStripDotZero (field 7 fields)) (devuiStripDotZero (field 9 fields)) ++ nr_columns n' l)%list
  | _, _ => []
  end.

(** A builder, and [writeLine]. *)
Definition lines_text (lines : list string) : list ascii := flat_map (fun s => chars s ++ [newline])%list lines.
Definition count_newlines (l : list ascii) : nat := length (List.filter (fun c => ord c =? 10) l).

(** The values of the main carrier. *)
Record carrier := mkCarrier {
  pci : string; band : string; freq : string; bw : string; rsrp : string; rsrq : string; sinr : string; rssi : string }.

Definition main_carrier (get : string -> string) (mode : net_mode) : carrier :=
  let value key := fmtNum (fallbackDash (get key)) in
  match mode with
  | Lte => mkCarrier (fallbackDash (get "lte_pci")) (fallbackDash (compactBand (get "wan_active_band")))
      (fallbackDash (get "wan_active_channel")) (fallbackDash (lteBWFromCA (get "lteca")))
      (value "lte_rsrp") (value "lte_rsrq") (value "lte_snr") (value "lte_rssi")
  | _ =>
    let band := get "nr5g_action_band" in
    let band := if bool_decide (band = "") then get "wan_active_band" else band in
    mkCarrier (fallbackDash (get "nr5g_pci")) (fallbackDash (compactBand band)) (fallbackDash (get "nr5g_action_channel"))
      (fallbackDash (get "nr5g_bandwidth")) (value "nr5g_rsrp") (value "nr5g_rsrq") (value "nr5g_snr") (value "nr5g_rssi")
  end.

Definition grade_of (noService : bool) (value kind : string) : string := if noService then "较差" else gradeSignal value kind.
Definition width_of (noService : bool) (value kind : string) : Z := if noService then 0 else signalBarWidth value kind.

(** The grades and the headings of the columns. *)
Definition head_lines (noService : bool) (mode : net_mode) (m : carrier) : list string :=
  ["RSRP"; grade_of noService (rsrp m) "rsrp"; rsrp m +++ " dBm";
   "RSRQ"; grade_of noService (rsrq m) "rsrq"; rsrq m +++ " dB";
   "SINR"; grade_of noService (sinr m) "sinr"; sinr m +++ " dB";
   "RSSI"; grade_of noService (rssi m) "rssi"; rssi m +++ " dBm";
   "PCI"; "频段"; match mode with Lte => "信道" | _ => "频点" end; "带宽"; "RSRP"; "SINR"].

Definition main_column (m : carrier) : list string :=
  column (pci m) (band m) (freq m) (bw_text (bw m)) (rsrp m) (sinr m).

Definition carrier_lines (get : string -> string) (mode : net_mode) (m : carrier) : list string :=
  match mode with
  | Nsa =>
    let value key := fallbackDash (fmtNum (get key)) in
    let nrBand := get "nr5g_action_band" in
    let nrBand := if bool_decide (nrBand = "") then get "wan_active_band" else nrBand in
    (column (fallbackDash (get "lte_pci")) (fallbackDash (compactBand (get "wan_active_band"))) (fallbackDash (get "wan_active_channel"))
       (bw_text (fallbackDash (lteBWFromCA (get "lteca")))) (value "lte_rsrp") (value "lte_snr") ++
     column (fallbackDash (get "nr5g_pci")) (fallbackDash (compactBand nrBand)) (fallbackDash (get "nr5g_action_channel"))
       (bw_text (fallbackDash (get "nr5g_bandwidth"))) (value "nr5g_rsrp") (value "nr5g_snr"))%list
  | Lte => (main_column m ++ lte_columns (pci m) (freq m) 2 false (carriers (get "lteca")))%list
  | _ => (main_column m ++ nr_columns 2 (carriers (get "nrca")))%list
  end.

(** [None] when nothing is written: the call failed or answered nothing. *)
Definition buildDevuiHomeCards (out : option string) : option (list ascii) :=
  match out with
  | None => None
  | Some jsonText =>
    if bool_decide (jsonText = "") then None
    else
      let get := devuiJSONGet jsonText in
      let modeU := ToUpper (get "network_type") in
      let noService := Contains modeU "NO_SERVICE" in
      let mode := net_mode_of modeU in
      let m := main_carrier get mode in
      let b := (lines_text (head_lines noService mode m) ++ lines_text (carrier_lines get mode m))%list in
      let b := (b ++ lines_text (repeat "-" (36 - count_newlines b)))%list in
      let width value kind := Itoa (width_of noService value kind) in
      Some (b ++ lines_text [width (rsrp m) "rsrp"; width (rsrq m) "rsrq"; width (sinr m) "sinr"; width (rssi m) "rssi"])%list
  end.
End Cards.

(** * The speed *)

Definition digits_only (line : string) : string := of_chars (List.filter is_digit (chars line)).
Fixpoint speed_lines (lines : list string) (tx rx : string) : string * string :=
  match lines with
  | [] => (tx, rx)
  | line :: lines =>
    speed_lines lines (if Contains line (String quote "real_tx_speed" +++ String quote "") then digits_only line else tx)
      (if Contains line (String quote "real_rx_speed" +++ String quote "") then digits_only line else rx)
  end.
(** The text written, if one is. *)
Definition updateDevuiSpeed (out : option string) : option string :=
  match out with
  | None => None
  | Some out =>
    let '(tx, rx) := speed_lines (Split1 out newline) "" "" in
    if bool_decide (tx = "") || bool_decide (rx = "") then None else Some (tx +++ " " +++ rx +++ String newline "")
  end.

(** * Lines *)

(** A text without line breaks. *)
Definition flat_chars (l : list ascii) : bool := forallb (fun c => negb (ord c =? 10)) l.
Definition flat (s : string) : bool := flat_chars (chars s).

Lemma flat_app_chars l m : flat_chars (l ++ m)%list = flat_chars l && flat_chars m.
Proof. apply forallb_app. Qed.
Lemma flat_append s t : flat s = true -> flat t = true -> flat (s +++ t) = true.
Proof. unfold flat. rewrite chars_append, flat_app_chars. by intros -> ->. Qed.
Lemma flat_of_chars l : flat_chars l = true -> flat (of_chars l) = true.
Proof. unfold flat. by rewrite chars_of_chars. Qed.
(** What is made of the characters of a flat text is flat. *)
Lemma flat_incl l m : flat_chars l = true -> (forall c, In c m -> In c l) -> flat_chars m = true.
Proof. unfold flat_chars. rewrite !forallb_forall. intros Hl Hm c Hc. by apply Hl, Hm. Qed.

Lemma drop_while_incl (f : ascii -> bool) l c : In c (drop_while f l) -> In c l.
Proof. induction l as [|d l IH]; [done|]. cbn. destruct (f d); [by right; apply IH|done]. Qed.
Lemma before_incl f l c : In c (before f l) -> In c l.
Proof. induction l as [|d l IH]; [done|]. cbn. destruct (f d); [done|]. intros [->|H]; [by left|by right; apply IH]. Qed.
Lemma drop_incl (l : list ascii) n c : In c (drop n l) -> In c l.
Proof. rewrite <- !list_elem_of_In. intros H. rewrite <- (take_drop n l). set_solver. Qed.
Lemma strip_dot_zero_incl l c : In c (strip_dot_zero l) -> In c l.
Proof. induction l as [|d l IH]; [done|]. cbn. destruct (_ && _); [done|]. intros [->|H]; [by left|by right; apply IH]. Qed.
Lemma trim_by_incl (f : ascii -> bool) l c : In c (trim_by f l) -> In c l.
Proof. unfold trim_by. intros H%in_rev%drop_while_incl. by apply in_rev, drop_while_incl in H. Qed.

Lemma Split1_flat s sep item : flat s = true -> item ∈ Split1 s sep -> flat item = true.
Proof.
  intros Hs (l & -> & Hl)%list_elem_of_fmap. apply flat_of_chars.
  assert (Forall (fun c => negb (ord c =? 10) = true) (chars s)) as Hf.
  { apply List.Forall_forall. by apply forallb_forall. }
  apply (split_on_Forall _ sep) in Hf. rewrite List.Forall_forall in Hf.
  apply forallb_forall, List.Forall_forall, Hf. by apply list_elem_of_In.
Qed.
Lemma Split1_lines s line : line ∈ Split1 s newline -> flat line = true.
Proof.
  intros (l & -> & Hl)%list_elem_of_fmap. apply flat_of_chars, forallb_forall. intros c Hc.
  pose proof (split_on_no_sep newline (chars s)) as Hn. rewrite List.Forall_forall in Hn.
  rewrite negb_true_iff, Z.eqb_neq. intros He. apply (Hn l); [by apply list_elem_of_In|].
  replace newline with c by (apply ord_inj; rewrite He; reflexivity). by apply list_elem_of_In.
Qed.

Lemma devuiJSONGet_flat text key : flat (devuiJSONGet text key) = true.
Proof.
  unfold devuiJSONGet. pose proof (Split1_lines text) as H. induction (Split1 text newline) as [|line l IH]; [done|].
  cbn. case_match; [|apply IH; intros x Hx; apply H; by right].
  assert (Hl : flat_chars (drop (n + strlen (json_pattern key)) (chars line)) = true).
  { eapply flat_incl; [apply (H line); by left|]. intros c. apply drop_incl. }
  unfold json_value. destruct (drop_while _ _) as [|c value] eqn:Hd; [done|].
  assert (Hv : flat_chars (c :: value) = true) by (eapply flat_incl; [exact Hl|]; rewrite <- Hd; intros x; apply drop_while_incl).
  case_match; apply flat_of_chars; [case_match; [|done]|].
  - cbn in Hv. apply andb_true_iff in Hv as [_ Hv]. eapply flat_incl; [exact Hv|]. intros x. apply before_incl.
  - eapply flat_incl; [exact Hv|]. intros x. apply before_incl.
Qed.

Lemma fallbackDash_flat s : flat s = true -> flat (fallbackDash s) = true.
Proof. unfold fallbackDash. by case_bool_decide. Qed.
Lemma fmtNum_flat s : flat s = true -> flat (fmtNum s) = true.
Proof.
  intros Hs. unfold fmtNum. case_match; [done|]. case_match; [|done]. apply flat_of_chars.
  eapply flat_incl; [exact Hs|]. intros c. apply before_incl.
Qed.
Lemma StripDotZero_flat s : flat s = true -> flat (devuiStripDotZero s) = true.
Proof. intros Hs. apply flat_of_chars. eapply flat_incl; [exact Hs|]. intros c. apply strip_dot_zero_incl. Qed.
Lemma TrimSpace_flat s : flat s = true -> flat (TrimSpace s) = true.
Proof. intros Hs. apply flat_of_chars. eapply flat_incl; [exact Hs|]. intros c. apply trim_by_incl. Qed.
Lemma to_upper_flat c : negb (ord (to_upper c) =? 10) = negb (ord c =? 10).
Proof. by destruct c as [[] [] [] [] [] [] [] []]. Qed.
Lemma ToUpper_flat s : flat s = true -> flat (ToUpper s) = true.
Proof.
  intros Hs. apply flat_of_chars, forallb_forall. intros c (d & <- & Hd)%in_map_iff.
  rewrite to_upper_flat. by apply (proj1 (forallb_forall _ _) Hs).
Qed.
Lemma ReplaceByte_flat s c t : flat s = true -> flat t = true -> flat (ReplaceByte s c t) = true.
Proof.
  intros Hs Ht. apply flat_of_chars, forallb_forall. intros x (d & Hd & Hx)%in_flat_map.
  case_bool_decide; [by apply (proj1 (forallb_forall _ _) Ht)|]. destruct Hx as [<-|[]]. by apply (proj1 (forallb_forall _ _) Hs).
Qed.

Lemma fields_loop_incl l : forall cur w c, In w (fields_loop cur l) -> In c w -> In c cur \/ In c l.
Proof.
  induction l as [|d l IH]; intros cur w c; cbn.
  - destruct cur; [done|]. intros [<-|[]] Hc. apply in_rev in Hc. by left.
  - destruct (is_space d).
    + destruct cur as [|e cur].
      * intros Hw Hc. destruct (IH [] w c Hw Hc) as [[]|Hx]. by right; right.
      * intros [<-|Hw] Hc; [apply in_rev in Hc; by left|]. destruct (IH [] w c Hw Hc) as [[]|Hx]. by right; right.
    + intros Hw Hc. destruct (IH (d :: cur) w c Hw Hc) as [[Hx|Hx]|Hx]; [by right; left|by left|by right; right].
Qed.
Lemma Fields_flat s w : flat s = true -> w ∈ Fields s -> flat w = true.
Proof.
  intros Hs (l & -> & Hl)%list_elem_of_fmap. apply flat_of_chars. eapply flat_incl; [exact Hs|]. intros c Hc.
  apply list_elem_of_In in Hl. destruct (fields_loop_incl _ _ _ c Hl Hc) as [[]|Hx]. exact Hx.
Qed.
Lemma compactBand_flat s : flat s = true -> flat (compactBand s) = true.
Proof.
  intros Hs. unfold compactBand. case_bool_decide; [done|].
  assert (Hu : flat (ToUpper (ReplaceByte (TrimSpace s) (chr 95) " ")) = true).
  { apply ToUpper_flat, ReplaceByte_flat; [by apply TrimSpace_flat|done]. }
  pose proof (fun w => Fields_flat _ w Hu) as Hf.
  destruct (Fields _) as [|a [|b [|n [|]]]]; try done; case_match; try done; apply flat_append; try done; apply Hf; set_solver.
Qed.

Definition flat_fields (fields : list string) : Prop := forall s, s ∈ fields -> flat s = true.
Lemma field_flat i fields : flat_fields fields -> flat (field i fields) = true.
Proof.
  intros Hf. unfold field. destruct (nth_in_or_default i fields "") as [H| ->]; [|done].
  apply Hf. by apply list_elem_of_In.
Qed.
Lemma carriers_flat ca fields : flat ca = true -> fields ∈ carriers ca -> flat_fields fields.
Proof.
  intros Hca (item & -> & Hi)%list_elem_of_fmap s Hs. eapply Split1_flat; [|exact Hs]. by eapply Split1_flat.
Qed.
Lemma lteBWFromCA_flat ca : flat ca = true -> flat (lteBWFromCA ca) = true.
Proof.
  intros Hca. unfold lteBWFromCA. destruct (List.find _ _) as [fields|] eqn:He; [|done].
  apply find_some in He as [He _]. by eapply field_flat, carriers_flat, list_elem_of_In.
Qed.
Lemma bw_text_flat s : flat s = true -> flat (bw_text s) = true.
Proof. intros Hs. unfold bw_text. case_bool_decide; [done|]. by apply flat_append. Qed.
Lemma Itoa_flat n : 0 <= n -> flat (Itoa n) = true.
Proof.
  intros Hn. destruct (Itoa_word n Hn) as [_ Hw]. apply forallb_forall. intros c Hc.
  rewrite List.Forall_forall in Hw. specialize (Hw c Hc). unfold is_space in Hw. bool_to_prop. lia.
Qed.

Create HintDb flat.
#[export] Hint Resolve devuiJSONGet_flat fallbackDash_flat fmtNum_flat StripDotZero_flat compactBand_flat lteBWFromCA_flat
  bw_text_flat flat_append field_flat : flat.

Definition flat_lines (lines : list string) : Prop := Forall (fun s => flat s = true) lines.

Lemma lines_text_app l m : lines_text (l ++ m) = (lines_text l ++ lines_text m)%list.
Proof. apply flat_map_app. Qed.
Lemma flat_count l : flat_chars l = true -> count_newlines l = 0%nat.
Proof.
  induction l as [|c l IH]; [done|]. cbn. intros [Hc Hl]%andb_true_iff. unfold count_newlines. cbn.
  destruct (ord c =? 10); [done|]. by apply IH.
Qed.
Lemma count_newlines_app l m : count_newlines (l ++ m)%list = (count_newlines l + count_newlines m)%nat.
Proof. unfold count_newlines. by rewrite List.filter_app, length_app. Qed.
Lemma count_lines lines : flat_lines lines -> count_newlines (lines_text lines) = length lines.
Proof.
  induction 1 as [|s lines Hs _ IH]; [done|]. change (lines_text (s :: lines)) with ((chars s ++ [newline]) ++ lines_text lines)%list.
  by rewrite !count_newlines_app, IH, flat_count.
Qed.
Lemma split_lines lines : flat_lines lines -> Split1 (of_chars (lines_text lines)) newline = (lines ++ [""])%list.
Proof.
  unfold Split1. rewrite chars_of_chars. induction 1 as [|s lines Hs _ IH]; [done|].
  change (lines_text (s :: lines)) with ((chars s ++ [newline]) ++ lines_text lines)%list. rewrite <- app_assoc. cbn [app].
  rewrite split_on_app_sep; [cbn [fmap list_fmap]; rewrite IH, of_chars_chars; done|].
  intros Hin%list_elem_of_In. by apply (proj1 (forallb_forall _ _) Hs) in Hin.
Qed.

(** Every text of a carrier is flat. *)
Definition flat_carrier (m : carrier) : Prop :=
  Forall (fun f : carrier -> string => flat (f m) = true) [pci; band; freq; bw; rsrp; rsrq; sinr; rssi].

Lemma main_carrier_flat text mode : flat_carrier (main_carrier (devuiJSONGet text) mode).
Proof.
  assert (Hband : flat (if bool_decide (devuiJSONGet text "nr5g_action_band" = "") then devuiJSONGet text "wan_active_band"
    else devuiJSONGet text "nr5g_action_band") = true) by (case_match; auto with flat).
  destruct mode; unfold flat_carrier; repeat apply List.Forall_cons; try apply List.Forall_nil;
    cbn [main_carrier pci band freq bw rsrp rsrq sinr rssi]; cbv zeta; auto 6 with flat.
Qed.

Lemma lte_columns_flat pci freq l : (forall fields, fields ∈ l -> flat_fields fields) -> forall n skipped,
  flat_lines (lte_columns pci freq n skipped l) /\ (length (lte_columns pci freq n skipped l) <= 6 * n)%nat.
Proof.
  induction l as [|fields l IH]; intros Hl n skipped; [destruct n; split; [constructor|cbn; lia|constructor|cbn; lia]|].
  assert (Hf : forall i, flat (field i fields) = true) by (intros i; apply field_flat, Hl; by left).
  assert (Hl' : forall f, f ∈ l -> flat_fields f) by (intros f H; apply Hl; by right).
  destruct n as [|n]; [split; [constructor|done]|]. cbn [lte_columns]. destruct (length fields <? 5)%nat; [by apply IH|].
  destruct (_ && _); [by apply IH|]. destruct (IH Hl' n skipped) as [H1 H2].
  split; [|cbn; lia]. repeat (apply List.Forall_cons; [auto with flat; fail|]). exact H1.
Qed.
Lemma nr_columns_flat l : (forall fields, fields ∈ l -> flat_fields fields) -> forall n,
  flat_lines (nr_columns n l) /\ (length (nr_columns n l) <= 6 * n)%nat.
Proof.
  induction l as [|fields l IH]; intros Hl n; [destruct n; split; [constructor|cbn; lia|constructor|cbn; lia]|].
  assert (Hf : forall i, flat (field i fields) = true) by (intros i; apply field_flat, Hl; by left).
  assert (Hl' : forall f, f ∈ l -> flat_fields f) by (intros f H; apply Hl; by right).
  destruct n as [|n]; [split; [constructor|done]|]. cbn [nr_columns]. destruct (length fields <? 11)%nat; [by apply IH|].
  destruct (IH Hl' n) as [H1 H2]. split; [|cbn; lia]. repeat (apply List.Forall_cons; [auto with flat; fail|]). exact H1.
Qed.

Lemma carrier_lines_flat text mode m : flat_carrier m ->
  flat_lines (carrier_lines (devuiJSONGet text) mode m) /\ (length (carrier_lines (devuiJSONGet text) mode m) <= 18)%nat.
Proof.
  intros Hm. unfold flat_carrier in Hm. rewrite !List.Forall_cons_iff in Hm. destruct Hm as (H1 & H2 & H3 & H4 & H5 & H6 & H7 & H8 & _).
  assert (Hmain : flat_lines (main_column m)) by (repeat constructor; auto with flat).
  assert (Hother : flat_lines (main_column m ++ nr_columns 2 (carriers (devuiJSONGet text "nrca")))%list /\
    (length (main_column m ++ nr_columns 2 (carriers (devuiJSONGet text "nrca"))) <= 18)%nat).
  { destruct (nr_columns_flat (carriers (devuiJSONGet text "nrca"))) with (n := 2%nat) as [Hf Hn].
    - intros fields. apply carriers_flat. auto with flat.
    - split; [by apply Forall_app_2|]. rewrite length_app. cbn [length main_column column]. lia. }
  destruct mode; [| |exact Hother|exact Hother]; cbn [carrier_lines].
  - destruct (lte_columns_flat (pci m) (freq m) (carriers (devuiJSONGet text "lteca"))) with (n := 2%nat) (skipped := false) as [Hf Hn].
    + intros fields. apply carriers_flat. auto with flat.
    + split; [by apply Forall_app_2|]. rewrite length_app. cbn [length main_column column]. lia.
  - split; [|cbn; lia].
    assert (Hband : flat (if bool_decide (devuiJSONGet text "nr5g_action_band" = "") then devuiJSONGet text "wan_active_band"
      else devuiJSONGet text "nr5g_action_band") = true) by (case_match; auto with flat).
    repeat (apply List.Forall_cons; [auto 6 with flat; fail|]). constructor.
Qed.

Definition grades : list string := ["优秀"; "良好"; "一般"; "较差"; "--"].
Lemma grade_of_word noService value kind : grade_of noService value kind ∈ grades.
Proof.
  unfold grade_of, gradeSignal. repeat case_match; unfold grades; set_solver.
Qed.
Lemma grade_flat g : g ∈ grades -> flat g = true.
Proof. unfold grades. rewrite !elem_of_cons, elem_of_nil. by intros [->|[->|[->|[->|[->|[]]]]]]. Qed.

Lemma width_range undef noService value kind : 0 <= width_of undef noService value kind <= 132.
Proof.
  unfold width_of, signalBarWidth. destruct noService; [lia|]. case_match; [lia|]. case_match; [lia|]. cbv zeta.
  destruct (bar_range kind). repeat case_match; bool_to_prop; lia.
Qed.

(** * The carriers that are shown *)

Definition wide (n : nat) (fields : list string) : bool := (n <=? length fields)%nat.
Definition lte_column (fields : list string) : list string :=
  column (field 0 fields) ("B" +++ field 1 fields) (field 3 fields) (field 4 fields +++ "M") "-" "-".
Definition nr_column (fields : list string) : list string :=
  column (field 1 fields) ("N" +++ field 3 fields) (field 4 fields) (field 5 fields +++ "M")
    (devuiStripDotZero (field 7 fields)) (devuiStripDotZero (field 9 fields)).
Definition serving (pci freq : string) (fields : list string) : bool :=
  bool_decide (field 0 fields = pci) && bool_decide (field 3 fields = freq).
(** Without the first element of a kind. *)
Fixpoint without_first (f : list string -> bool) (l : list (list string)) : list (list string) :=
  match l with [] => [] | x :: l => if f x then l else x :: without_first f l end.

(** All complete carriers of the list but the serving one, two at most. *)
Definition further_carriers (text : string) (mode : net_mode) (m : carrier) : list string :=
  match mode with
  | Lte => flat_map lte_column (take 2 (without_first (serving (pci m) (freq m)) (List.filter (wide 5) (carriers (devuiJSONGet text "lteca")))))
  | Nsa => []
  | _ => flat_map nr_column (take 2 (List.filter (wide 11) (carriers (devuiJSONGet text "nrca"))))
  end.

Lemma ltb_wide n fields : (length fields <? n)%nat = negb (wide n fields).
Proof. unfold wide. destruct (Nat.leb_spec n (length fields)), (Nat.ltb_spec (length fields) n); done || lia. Qed.
Lemma lte_columns_skipped pci freq l : forall n, lte_columns pci freq n true l = flat_map lte_column (take n (List.filter (wide 5) l)).
Proof.
  induction l as [|fields l IH]; intros [|n]; try done. cbn [lte_columns List.filter]. rewrite ltb_wide.
  destruct (wide 5 fields); [|by rewrite IH]. cbn [negb andb]. by rewrite IH.
Qed.
Lemma lte_columns_spec pci freq l : forall n, (0 < n)%nat ->
  lte_columns pci freq n false l = flat_map lte_column (take n (without_first (serving pci freq) (List.filter (wide 5) l))).
Proof.
  induction l as [|fields l IH]; intros [|n] Hn; try done; cbn [lte_columns List.filter]. rewrite ltb_wide.
  destruct (wide 5 fields); [|by rewrite IH]. cbn [negb andb without_first]. unfold serving at 1.
  destruct (_ && _); [by apply lte_columns_skipped|]. cbn [take flat_map]. unfold lte_column at 1. f_equal.
  destruct n; [|apply IH; lia]. by destruct l.
Qed.
Lemma nr_columns_spec l : forall n, nr_columns n l = flat_map nr_column (take n (List.filter (wide 11) l)).
Proof.
  induction l as [|fields l IH]; intros [|n]; try done. cbn [nr_columns List.filter]. rewrite ltb_wide.
  destruct (wide 11 fields); [|by rewrite IH]. cbn [negb take flat_map]. by rewrite IH.
Qed.
Lemma carrier_lines_further text mode m : mode <> Nsa ->
  carrier_lines (devuiJSONGet text) mode m = (main_column m ++ further_carriers text mode m)%list.
Proof.
  intros Hm. destruct mode; try done; cbn [carrier_lines further_carriers]; f_equal; first [by apply lte_columns_spec; lia | apply nr_columns_spec].
Qed.

(** * Properties *)

Definition headings : list (nat * string) :=
  [(0, "RSRP"); (3, "RSRQ"); (6, "SINR"); (9, "RSSI"); (12, "PCI"); (13, "频段"); (15, "带宽"); (16, "RSRP"); (17, "SINR")]%nat.

Lemma head_lines_flat noService mode m : flat_carrier m -> flat_lines (head_lines noService mode m).
Proof.
  intros Hm. unfold flat_carrier in Hm. rewrite !List.Forall_cons_iff in Hm. destruct Hm as (_ & _ & _ & _ & H5 & H6 & H7 & H8 & _).
  assert (Hg : forall value kind, flat (grade_of noService value kind) = true) by (intros; apply grade_flat, grade_of_word).
  repeat (apply List.Forall_cons; [first [apply Hg | by apply flat_append | by destruct mode | reflexivity]|]). constructor.
Qed.

(** C26: whatever the router service answers, the cards that are written are exactly
    forty lines: the headings where the screen looks for them, one of five words for
    each grade, then the main carrier and at most two further ones of the list
    without the serving cell, padded with dashes to eighteen lines, and the widths
    of four bars between 0 and 132. *)
Theorem home_cards_layout (undef : float64 -> Z) (json : string) (text : list ascii) :
  buildDevuiHomeCards undef (Some json) = Some text ->
  let mode := net_mode_of (ToUpper (devuiJSONGet json "network_type")) in
  let m := main_carrier (devuiJSONGet json) mode in
  exists lines columns, Split1 (of_chars text) newline = (lines ++ [""])%list /\ length lines = 40%nat /\
    (forall i s, (i, s) ∈ headings -> lines !! i = Some s) /\
    (forall i, i ∈ [1; 4; 7; 10]%nat -> exists g, g ∈ grades /\ lines !! i = Some g) /\
    take 18 (drop 18 lines) = (columns ++ repeat "-" (18 - length columns))%list /\ (length columns <= 18)%nat /\
    (mode <> Nsa -> columns = (main_column m ++ further_carriers json mode m)%list) /\
    (forall i, (36 <= i < 40)%nat -> exists w, 0 <= w <= 132 /\ lines !! i = Some (Itoa w)).
Proof.
  intros Ht mode m. cbn [buildDevuiHomeCards] in Ht. case_bool_decide; [done|]. cbv zeta in Ht. fold mode in Ht. fold m in Ht.
  pose proof (main_carrier_flat json mode : flat_carrier m) as Hm. clearbody m.
  destruct (carrier_lines_flat json mode m Hm) as [Hc Hn]. pose proof (carrier_lines_further json mode m) as Hs.
  set (cols := carrier_lines _ mode m) in *. clearbody cols.
  set (no := Contains _ "NO_SERVICE") in *. clearbody no. pose proof (head_lines_flat no mode m Hm) as Hh.
  set (ws := [Itoa (width_of undef no (rsrp m) "rsrp"); Itoa (width_of undef no (rsrq m) "rsrq");
    Itoa (width_of undef no (sinr m) "sinr"); Itoa (width_of undef no (rssi m) "rssi")]) in *.
  assert (Hws : flat_lines ws) by (repeat (apply List.Forall_cons; [apply Itoa_flat; apply width_range|]); constructor).
  rewrite <- lines_text_app, count_lines, length_app in Ht by (by apply Forall_app_2). cbn [length head_lines] in Ht.
  rewrite <- !lines_text_app in Ht. replace (36 - (18 + length cols))%nat with (18 - length cols)%nat in Ht by lia.
  set (pad := repeat "-" (18 - length cols)) in *.
  assert (Hp : length (cols ++ pad) = 18%nat) by (rewrite length_app; unfold pad; rewrite List.repeat_length; lia).
  rewrite <- !app_assoc, (app_assoc cols) in Ht. apply (inj Some) in Ht. subst text.
  exists (head_lines no mode m ++ (cols ++ pad) ++ ws)%list, cols. split.
  { apply split_lines. repeat apply Forall_app_2; try done. apply List.Forall_forall. by intros x ->%repeat_spec. }
  split; [by rewrite length_app, (length_app (cols ++ pad)), Hp|]. split; [|split; [|split; [|split; [done|split; [done|]]]]].
  - intros i s. unfold headings. rewrite !elem_of_cons, elem_of_nil. intros Hi.
    repeat destruct Hi as [[= -> ->]|Hi]; done.
  - intros i. rewrite !elem_of_cons, elem_of_nil. intros [->|[->|[->|[->|[]]]]]; eexists; (split; [|reflexivity]); apply grade_of_word.
  - change (drop 18 _) with ((cols ++ pad) ++ ws)%list. by rewrite take_app_length' by done.
  - intros i Hi. rewrite app_assoc, lookup_app_r by (rewrite length_app, Hp; cbn; lia). rewrite length_app, Hp. cbn [length head_lines].
    pose proof (fun value kind => width_range undef no value kind) as Hw.
    assert (i = 36 \/ i = 37 \/ i = 38 \/ i = 39)%nat as Hi' by lia.
    destruct Hi' as [->|[->|[->| ->]]]; eexists; (split; [apply Hw|reflexivity]).
Qed.

Definition sample : string :=
  String quote "network_type" +++ String quote ":" +++ String quote "LTE" +++ String quote "," +++ String newline "" +++
  String quote "lteca" +++ String quote ":" +++ String quote "1,3,0,1650,20;7,1,0,300,10" +++ String quote "".

Lemma home_cards_layout_witness :
  exists text, buildDevuiHomeCards (fun _ => 0) (Some sample) = Some text /\
  exists (lines columns : list string), Split1 (of_chars text) newline = (lines ++ [""])%list /\ length lines = 40%nat /\ length columns = 18%nat.
Proof.
  destruct (buildDevuiHomeCards (fun _ => 0) (Some sample)) as [text|] eqn:Ht; [|vm_compute in Ht; discriminate].
  exists text. split; [done|]. destruct (home_cards_layout (fun _ => 0) sample text Ht) as (lines & columns & H1 & H2 & _ & _ & _ & _ & H3 & _).
  exists lines, columns. split; [exact H1|]. split; [exact H2|]. rewrite H3 by (vm_compute; discriminate). vm_compute. reflexivity.
Defined.
