(* ===== verification/Wallpaper.v ===== *)
(** The wallpaper of the replaced screen ([system_tools.go]): the conversion of an
    uploaded image, the patch of the screen program, and the preview that reads it
    back.  An image is its size and the colours [At(x, y).RGBA()] answers, counted
    from its corner; decoding JPEG and PNG files is the library's. *)

From S2P Require Import Prelude.
From S2P Require Import GoInt.
From S2P Require Import GoFloat.
From S2P Require Import Threads.
Open Scope Z_scope.

Definition devuiWallpaperWidth : nat := 320.
Definition devuiWallpaperHeight : nat := 456.
Definition devuiWallpaperColorFmt : Z := 5.
Definition devuiWallpaperDescOff : nat := Z.to_nat 0xA51500.
Definition devuiWallpaperDataVA : Z := 0xC1484A.
Definition devuiWallpaperDataOff : nat := Z.to_nat 0x81484A.
Definition devuiWallpaperDataCap : nat := Z.to_nat 0x6AE00.

(** * Bytes *)

Definition byte_at (i : nat) (d : list Z) : Z := nth i d 0.
Definition u32_at (i : nat) (d : list Z) : Z := le32 (byte_at i d) (byte_at (i + 1) d) (byte_at (i + 2) d) (byte_at (i + 3) d).
Definition u64_at (i : nat) (d : list Z) : Z := Z.lor (u32_at i d) (Z.shiftl (u32_at (i + 4) d) 32).
Definition put_u64 (x : Z) : list Z := put_u32 (wrap 32 x) ++ put_u32 (wrap 32 (Z.shiftr x 32)).

Definition field (header k m : Z) : Z := Z.land (Z.shiftr header k) m.

(** * The descriptor *)

Definition descriptor (bin : list Z) : list Z := take 16 (drop devuiWallpaperDescOff bin).

Inductive wallpaper_error := TooSmall | Mismatch | NoRoom | FileError.

Definition verifyDevuiWallpaperDescriptor (bin : list Z) : option wallpaper_error :=
  if (length bin <? devuiWallpaperDescOff + 16)%nat then Some TooSmall
  else
    let d := descriptor bin in
    let header := u32_at 0 d in
    if negb (Z.land header 0x1F =? devuiWallpaperColorFmt) || negb (field header 10 0x7FF =? Z.of_nat devuiWallpaperWidth) ||
       negb (field header 21 0x7FF =? Z.of_nat devuiWallpaperHeight) || negb (u32_at 4 d =? Z.of_nat devuiWallpaperDataCap) ||
       negb (u64_at 8 d =? devuiWallpaperDataVA)
    then Some Mismatch else None.

Definition desc_mask : Z := Z.lor (Z.lor 0x1F (Z.shiftl 0x7FF 10)) (Z.shiftl 0x7FF 21).
Definition desc_header (oldHeader : Z) : Z :=
  Z.lor (Z.lor (Z.lor (Z.ldiff oldHeader desc_mask) devuiWallpaperColorFmt) (Z.shiftl (Z.of_nat devuiWallpaperWidth) 10))
    (Z.shiftl (Z.of_nat devuiWallpaperHeight) 21).
Definition updateDevuiWallpaperDescriptor (bin : list Z) : list Z :=
  take devuiWallpaperDescOff bin ++
  put_u32 (desc_header (u32_at 0 (descriptor bin))) ++ put_u32 (Z.of_nat devuiWallpaperDataCap) ++ put_u64 devuiWallpaperDataVA ++
  drop (devuiWallpaperDescOff + 16) bin.

(** * Images *)

Definition colour : Type := Z * Z * Z * Z.
Record image := mkImage { Dx : Z; Dy : Z; At : Z -> Z -> colour }.

(** [uint32(f)] of what does not fit is left open by the language. *)
Section Convert.
Context (undef : float64 -> Z).
Definition u32_of (f : float64) : Z :=
  match f with
  | S754_zero _ => 0
  | S754_finite _ _ _ => let n := f_trunc f in if (0 <=? n) && (n <? 2 ^ 32) then n else undef f
  | _ => undef f
  end.

Definition bilinearUint32 (v00 v10 v01 v11 : Z) (tx ty : float64) : Z :=
  let one := f_of_Z 1 in
  let top := fadd (fmul (f_of_Z v00) (fsub one tx)) (fmul (f_of_Z v10) tx) in
  let bottom := fadd (fmul (f_of_Z v01) (fsub one tx)) (fmul (f_of_Z v11) tx) in
  u32_of (fadd (fadd (fmul top (fsub one ty)) (fmul bottom ty)) (f_lit 5 10)).

Definition sampleDevuiBilinear (img : image) (dstX dstY : Z) : colour :=
  let srcW := Dx img in
  let srcH := Dy img in
  if (srcW =? 1) && (srcH =? 1) then At img 0 0
  else
    let sx := fdiv (fmul (f_of_Z dstX) (f_of_Z (srcW - 1))) (f_of_Z (Z.of_nat devuiWallpaperWidth - 1)) in
    let sy := fdiv (fmul (f_of_Z dstY) (f_of_Z (srcH - 1))) (f_of_Z (Z.of_nat devuiWallpaperHeight - 1)) in
    let x0 := f_floor sx in
    let y0 := f_floor sy in
    let x1 := Z.min (x0 + 1) (srcW - 1) in
    let y1 := Z.min (y0 + 1) (srcH - 1) in
    let tx := fsub sx (f_of_Z x0) in
    let ty := fsub sy (f_of_Z y0) in
    let '(r00, g00, b00, a00) := At img x0 y0 in
    let '(r10, g10, b10, a10) := At img x1 y0 in
    let '(r01, g01, b01, a01) := At img x0 y1 in
    let '(r11, g11, b11, a11) := At img x1 y1 in
    (bilinearUint32 r00 r10 r01 r11 tx ty, bilinearUint32 g00 g10 g01 g11 tx ty,
     bilinearUint32 b00 b10 b01 b11 tx ty, bilinearUint32 a00 a10 a01 a11 tx ty).

(** The three bytes of a pixel. *)
Definition pixel_bytes (c : colour) : list Z :=
  let '(r16, g16, b16, a16) := c in
  let r := u8 (Z.shiftr r16 8) in
  let g := u8 (Z.shiftr g16 8) in
  let bl := u8 (Z.shiftr b16 8) in
  let rgb565 := Z.lor (Z.lor (Z.shiftl (Z.shiftr r 3) 11) (Z.shiftl (Z.shiftr g 2) 5)) (Z.shiftr bl 3) in
  [u8 rgb565; u8 (Z.shiftr rgb565 8); u8 (Z.shiftr a16 8)].

(** The pixels of a picture row by row. *)
Definition coords (w h : nat) : list (Z * Z) :=
  flat_map (fun y => map (fun x => (Z.of_nat x, Z.of_nat y)) (seq 0 w)) (seq 0 h).

Definition convertDevuiWallpaper (img : image) : list Z :=
  let colour_of (p : Z * Z) := if (Dx img =? Z.of_nat devuiWallpaperWidth) && (Dy img =? Z.of_nat devuiWallpaperHeight)
                               then At img p.1 p.2 else sampleDevuiBilinear img p.1 p.2 in
  flat_map (fun p => pixel_bytes (colour_of p)) (coords devuiWallpaperWidth devuiWallpaperHeight).

(** The patched program: [copy] writes as much of the payload as the area holds. *)
Definition patched_file (img : image) (src : list Z) : list Z :=
  let patched := updateDevuiWallpaperDescriptor src in
  let payload := take devuiWallpaperDataCap (convertDevuiWallpaper img) in
  take devuiWallpaperDataOff patched ++ payload ++ drop (devuiWallpaperDataOff + length payload) patched.

(** * The preview *)

Definition preview_pixel (b0 b1 alpha : Z) : colour :=
  let rgb565 := Z.lor b0 (Z.shiftl b1 8) in
  let r5 := field rgb565 11 0x1F in
  let g6 := field rgb565 5 0x3F in
  let b5 := Z.land rgb565 0x1F in
  (Z.lor (u8 (Z.shiftl r5 3)) (Z.shiftr r5 2), Z.lor (u8 (Z.shiftl g6 2)) (Z.shiftr g6 4), Z.lor (u8 (Z.shiftl b5 3)) (Z.shiftr b5 2), alpha).
Fixpoint preview_loop (n : nat) (data : list Z) : list colour :=
  match n, data with
  | S n, b0 :: b1 :: alpha :: data => preview_pixel b0 b1 alpha :: preview_loop n data
  | _, _ => []
  end.

(** The pixels of the preview row by row, as bytes of [image.NRGBA]. *)
Definition loadDevuiWallpaperPreview (src : option (list Z)) : wallpaper_error + list colour :=
  match src with
  | None => inl FileError
  | Some src =>
    match verifyDevuiWallpaperDescriptor src with
    | Some e => inl e
    | None =>
      if (length src <? devuiWallpaperDataOff + devuiWallpaperDataCap)%nat then inl NoRoom
      else inr (preview_loop (devuiWallpaperWidth * devuiWallpaperHeight) (take devuiWallpaperDataCap (drop devuiWallpaperDataOff src)))
    end
  end.

(** [color.NRGBA.RGBA] of the library: premultiplied. *)
Definition nrgba (c : colour) : colour :=
  let '(r, g, b, a) := c in
  let channel v := Z.lor v (Z.shiftl v 8) * a / 0xff in
  (channel r, channel g, channel b, Z.lor a (Z.shiftl a 8)).
(** The preview as an image that is uploaded. *)
Definition preview_image (pix : list colour) : image :=
  mkImage (Z.of_nat devuiWallpaperWidth) (Z.of_nat devuiWallpaperHeight)
    (fun x y => match pix !! Z.to_nat (y * Z.of_nat devuiWallpaperWidth + x) with Some c => nrgba c | None => (0, 0, 0, 0) end).

(** * The patch *)

(** The calls; the backup is the file beside the program. *)
Inductive call := ReadBin | StatBak | CreateBak | CopyBak (data : list Z) | SyncBak | WriteBin (data : list Z).
(** What [os.Stat] says: there is a file, [os.IsNotExist], or another error. *)
Inductive stat := Present | Absent | Unknown.
Definition answer (c : call) : Type :=
  match c with
  | ReadBin => option (list Z)
  | StatBak => stat
  | _ => bool                       (** without an error *)
  end.
Abbreviation prog := (@Threads.prog call answer).
Abbreviation invoke := (@perform call answer).

Definition copyLocalFile : prog bool :=
  src ← (invoke ReadBin : prog (option (list Z)));
  match src with
  | None => mret false
  | Some data =>
    o ← (invoke CreateBak : prog bool);
    if negb o then mret false
    else
      c ← (invoke (CopyBak data) : prog bool);
      if negb c then mret false else invoke SyncBak
  end.

Definition patchDevuiWallpaper (img : image) : prog (option wallpaper_error) :=
  src ← (invoke ReadBin : prog (option (list Z)));
  match src with
  | None => mret (Some FileError)
  | Some src =>
    match verifyDevuiWallpaperDescriptor src with
    | Some e => mret (Some e)
    | None =>
      if (length src <? devuiWallpaperDataOff + devuiWallpaperDataCap)%nat then mret (Some NoRoom)
      else
        b ← (invoke StatBak : prog stat);
        k ← (match b with Absent => copyLocalFile | Present | Unknown => mret true end);
        if negb k then mret (Some FileError)
        else
          o ← (invoke (WriteBin (patched_file img src)) : prog bool);
          mret (if negb o then Some FileError else None)
    end
  end.
End Convert.

(** * Bit fields *)

Lemma land_shiftl h m k : 0 <= k -> Z.land h (Z.shiftl m k) = Z.shiftl (field h k m) k.
Proof.
  intros Hk. apply Z.bits_inj'. intros i Hi. unfold field. rewrite Z.land_spec, !Z.shiftl_spec by done.
  destruct (Z.lt_ge_cases i k).
  - rewrite !(Z.testbit_neg_r _ (i - k)) by lia. apply andb_false_r.
  - rewrite Z.land_spec, Z.shiftr_spec by lia. by replace (i - k + k) with i by lia.
Qed.

(** The fields that are written are the ones that were checked. *)
Lemma desc_header_same h : Z.land h 0x1F = devuiWallpaperColorFmt -> field h 10 0x7FF = Z.of_nat devuiWallpaperWidth ->
  field h 21 0x7FF = Z.of_nat devuiWallpaperHeight -> desc_header h = h.
Proof.
  intros H1 H2 H3. unfold desc_header. rewrite <- !Z.lor_assoc.
  replace (Z.lor devuiWallpaperColorFmt _) with (Z.land h desc_mask); [rewrite Z.lor_comm, Z.lor_comm; apply Z.lor_ldiff_and|].
  unfold desc_mask. rewrite !Z.land_lor_distr_r, !land_shiftl by lia. by rewrite H1, H2, H3, Z.lor_assoc.
Qed.

Lemma put_u64_at d : length d = 16%nat -> bytes_ok d -> put_u64 (u64_at 8 d) = drop 8 d.
Proof.
  intros Hl Hb. do 16 (destruct d as [|? d]; [done|]). destruct d; [|done]. unfold bytes_ok in Hb.
  rewrite !Forall_cons_iff in Hb. unfold u64_at, u32_at, byte_at, put_u64. cbn [nth Nat.add drop].
  set (lo := le32 z7 z8 z9 z10). set (hi := le32 z11 z12 z13 z14).
  assert (in_range 32 lo) by (apply le32_range; tauto). assert (in_range 32 hi) by (apply le32_range; tauto).
  assert (wrap 32 (Z.lor lo (Z.shiftl hi 32)) = lo /\ wrap 32 (Z.shiftr (Z.lor lo (Z.shiftl hi 32)) 32) = hi) as [-> ->].
  { rewrite lor_shiftl_add, Z.shiftr_div_pow2 by (done || lia). unfold wrap, in_range in *.
    rewrite Z.mod_add, Z.div_add, Z.mod_small, Z.div_small, Z.add_0_l by lia. split; [done|]. apply Z.mod_small. lia. }
  unfold lo, hi. rewrite !put_u32_le32 by tauto. done.
Qed.

(** * The areas of the program *)

Lemma areas_apart : (devuiWallpaperDataOff + devuiWallpaperDataCap <= devuiWallpaperDescOff)%nat.
Proof. unfold devuiWallpaperDataOff, devuiWallpaperDataCap, devuiWallpaperDescOff. lia. Qed.
Lemma cap_pixels : devuiWallpaperDataCap = (3 * (devuiWallpaperWidth * devuiWallpaperHeight))%nat.
Proof. unfold devuiWallpaperDataCap, devuiWallpaperWidth, devuiWallpaperHeight. lia. Qed.

#[local] Opaque devuiWallpaperDescOff devuiWallpaperDataOff devuiWallpaperDataCap.

Record accepted (src : list Z) : Prop := mkAccepted {
  ac_length : (devuiWallpaperDescOff + 16 <= length src)%nat;
  ac_format : Z.land (u32_at 0 (descriptor src)) 0x1F = devuiWallpaperColorFmt;
  ac_width : field (u32_at 0 (descriptor src)) 10 0x7FF = Z.of_nat devuiWallpaperWidth;
  ac_height : field (u32_at 0 (descriptor src)) 21 0x7FF = Z.of_nat devuiWallpaperHeight;
  ac_size : u32_at 4 (descriptor src) = Z.of_nat devuiWallpaperDataCap;
  ac_pointer : u64_at 8 (descriptor src) = devuiWallpaperDataVA }.

Lemma verify_accepted src : verifyDevuiWallpaperDescriptor src = None <-> accepted src.
Proof.
  unfold verifyDevuiWallpaperDescriptor. split.
  - destruct (Nat.ltb_spec (length src) (devuiWallpaperDescOff + 16)) as [|Hl]; [done|]. cbv zeta.
    destruct (_ || _) eqn:He; [done|]. intros _. rewrite !orb_false_iff, !negb_false_iff, !Z.eqb_eq in He.
    destruct He as [[[[H1 H2] H3] H4] H5]. by split.
  - intros [Hl H1 H2 H3 H4 H5]. rewrite (proj2 (Nat.ltb_ge _ _)) by done. cbv zeta. by rewrite H1, H2, H3, H4, H5, !Z.eqb_refl.
Qed.

Lemma descriptor_length src : (devuiWallpaperDescOff + 16 <= length src)%nat -> length (descriptor src) = 16%nat.
Proof. intros Hl. unfold descriptor. rewrite length_take, length_drop. lia. Qed.

Lemma put_words d : length d = 16%nat -> bytes_ok d -> put_u32 (u32_at 0 d) ++ put_u32 (u32_at 4 d) ++ put_u64 (u64_at 8 d) = d.
Proof.
  intros Hl Hb. rewrite put_u64_at by done. do 16 (destruct d as [|? d]; [done|]). destruct d; [|done]. unfold bytes_ok in Hb.
  rewrite !Forall_cons_iff in Hb. unfold u32_at, byte_at. cbn [nth Nat.add drop]. by rewrite !put_u32_le32 by tauto.
Qed.

(** Writing the descriptor that was checked changes nothing. *)
Lemma update_same src : bytes_ok src -> accepted src -> updateDevuiWallpaperDescriptor src = src.
Proof.
  intros Hb [Hl H1 H2 H3 H4 H5]. unfold updateDevuiWallpaperDescriptor.
  rewrite (desc_header_same _ H1 H2 H3), <- H4, <- H5.
  assert (Hw := put_words (descriptor src) (descriptor_length src Hl) (bytes_ok_take _ _ (bytes_ok_drop _ _ Hb))).
  apply (f_equal (fun d => take devuiWallpaperDescOff src ++ d ++ drop (devuiWallpaperDescOff + 16) src)) in Hw.
  rewrite <- !app_assoc in Hw. rewrite Hw, <- drop_drop. unfold descriptor. by rewrite take_drop, take_drop.
Qed.

Lemma coords_snoc w h : coords w (S h) = coords w h ++ map (fun x => (Z.of_nat x, Z.of_nat h)) (seq 0 w).
Proof. unfold coords. rewrite seq_S, flat_map_app. cbn [flat_map]. by rewrite app_nil_r. Qed.
Lemma coords_length w h : length (coords w h) = (w * h)%nat.
Proof. induction h as [|h IH]; [by rewrite Nat.mul_0_r|]. rewrite coords_snoc, length_app, length_map, length_seq, IH. lia. Qed.
Lemma coords_lookup w h x y : (x < w)%nat -> (y < h)%nat -> coords w h !! (y * w + x)%nat = Some (Z.of_nat x, Z.of_nat y).
Proof.
  intros Hx. induction h as [|h IH]; intros Hy; [lia|]. rewrite coords_snoc.
  destruct (Nat.eq_dec y h) as [->|Hn].
  - rewrite lookup_app_r, coords_length by (rewrite coords_length; nia). replace (h * w + x - w * h)%nat with x by nia.
    change (map ?f ?l) with (f <$> l). rewrite list_lookup_fmap, lookup_seq_lt by done. done.
  - rewrite lookup_app_l by (rewrite coords_length; nia). apply IH. lia.
Qed.

(** * Pixels *)

(** Five and six bits spread over a byte. *)
Definition spread5 (v : Z) : Z := Z.lor (u8 (Z.shiftl v 3)) (Z.shiftr v 2).
Definition spread6 (v : Z) : Z := Z.lor (u8 (Z.shiftl v 2)) (Z.shiftr v 4).
Definition high (v : Z) : Z := u8 (Z.shiftr v 8).
(** What the preview shows of a colour. *)
Definition shown (c : colour) : colour :=
  let '(r, g, b, a) := c in (spread5 (Z.shiftr (high r) 3), spread6 (Z.shiftr (high g) 2), spread5 (Z.shiftr (high b) 3), high a).

Lemma rgb565_fields r g b : in_range 5 r -> in_range 6 g -> in_range 5 b ->
  let rgb := Z.lor (Z.lor (Z.shiftl r 11) (Z.shiftl g 5)) b in
  in_range 16 rgb /\ field rgb 11 0x1F = r /\ field rgb 5 0x3F = g /\ Z.land rgb 0x1F = b.
Proof.
  intros Hr Hg Hb rgb. unfold in_range in *.
  assert (Hrgb : rgb = r * 2048 + g * 32 + b).
  { unfold rgb. rewrite Z.lor_comm, (Z.lor_comm (Z.shiftl r 11)), Z.lor_assoc.
    rewrite (lor_shiftl_add b g 5), (lor_shiftl_add _ r 11) by (unfold in_range; lia). lia. }
  rewrite Hrgb. unfold field. change 0x1F with (Z.ones 5). change 0x3F with (Z.ones 6).
  rewrite !Z.land_ones, !Z.shiftr_div_pow2 by lia. split; [lia|]. Z.to_euclidean_division_equations. lia.
Qed.

Lemma shiftr_high v k w : 0 <= k -> 0 <= w -> k + w = 8 -> in_range w (Z.shiftr (high v) k).
Proof.
  intros Hk Hw Hs. pose proof (u8_byte (Z.shiftr v 8)) as H. fold (high v) in H. unfold in_range in *. rewrite Z.shiftr_div_pow2 by done.
  replace 8 with (k + w) in H by done. rewrite Z.pow_add_r in H by lia. split; [apply Z.div_pos; lia|]. apply Z.div_lt_upper_bound; lia.
Qed.

Lemma pixel_shown c : exists b0 b1 b2, pixel_bytes c = [b0; b1; b2] /\ preview_pixel b0 b1 b2 = shown c.
Proof.
  destruct c as [[[r g] b] a]. do 3 eexists. split; [reflexivity|]. unfold preview_pixel, shown. fold (high r) (high g) (high b) (high a).
  set (rgb := Z.lor _ (Z.shiftr (high b) 3)).
  destruct (rgb565_fields (Z.shiftr (high r) 3) (Z.shiftr (high g) 2) (Z.shiftr (high b) 3)) as (Hw & H1 & H2 & H3);
    try (by apply shiftr_high). fold rgb in Hw, H1, H2, H3.
  change (Z.lor (u8 rgb) (Z.shiftl (u8 (Z.shiftr rgb 8)) 8)) with (le16 (u8 rgb) (u8 (Z.shiftr rgb 8))).
  rewrite (le16_put rgb Hw), H1, H2, H3. done.
Qed.

Lemma preview_pixels l : preview_loop (length l) (flat_map pixel_bytes l) = map shown l.
Proof.
  induction l as [|c l IH]; [done|]. cbn [length flat_map map]. destruct (pixel_shown c) as (b0 & b1 & b2 & -> & Hc).
  cbn [app preview_loop]. by rewrite Hc, IH.
Qed.
Lemma flat_map_map {A B C} (f : A -> B) (g : B -> list C) l : flat_map (fun x => g (f x)) l = flat_map g (map f l).
Proof. induction l as [|x l IH]; [done|]. cbn. by rewrite IH. Qed.
Lemma pixels_length l : length (flat_map pixel_bytes l) = (3 * length l)%nat.
Proof.
  induction l as [|c l IH]; [done|]. cbn [flat_map length]. rewrite length_app, IH. destruct (pixel_shown c) as (b0 & b1 & b2 & -> & _).
  cbn [length]. lia.
Qed.

(** A byte is shown within seven of its value, six bits within three. *)
Definition near (d v w : Z) : bool := Z.abs (v - w) <=? d.
Lemma spread_near v : is_byte v -> near 7 (spread5 (Z.shiftr v 3)) v && near 3 (spread6 (Z.shiftr v 2)) v = true.
Proof. apply (bytes_all (fun v => near 7 (spread5 (Z.shiftr v 3)) v && near 3 (spread6 (Z.shiftr v 2)) v)). reflexivity. Qed.

(** What is shown of an opaque colour is stored again as it is. *)
Definition stored_again (v : Z) : bool :=
  (Z.shiftr (high (Z.lor v (Z.shiftl v 8) * 255 / 255)) 3 =? Z.shiftr v 3) &&
  (Z.shiftr (high (Z.lor v (Z.shiftl v 8) * 255 / 255)) 2 =? Z.shiftr v 2).
Lemma spread_again v : is_byte v ->
  stored_again (spread5 (Z.shiftr v 3)) && (Z.shiftr (spread5 (Z.shiftr v 3)) 3 =? Z.shiftr v 3) &&
  stored_again (spread6 (Z.shiftr v 2)) && (Z.shiftr (spread6 (Z.shiftr v 2)) 2 =? Z.shiftr v 2) = true.
Proof.
  apply (bytes_all (fun v => stored_again (spread5 (Z.shiftr v 3)) && (Z.shiftr (spread5 (Z.shiftr v 3)) 3 =? Z.shiftr v 3) &&
    stored_again (spread6 (Z.shiftr v 2)) && (Z.shiftr (spread6 (Z.shiftr v 2)) 2 =? Z.shiftr v 2))). vm_compute. reflexivity.
Qed.

Definition opaque (c : colour) : Prop := high c.2 = 255.
Lemma pixel_again c : opaque c -> pixel_bytes (nrgba (shown c)) = pixel_bytes c.
Proof.
  destruct c as [[[r g] b] a]. unfold opaque. cbn [snd]. intros Ha. unfold shown, nrgba. rewrite Ha. unfold pixel_bytes.
  fold (high r) (high g) (high b) (high a). rewrite Ha.
  pose proof (spread_again (high r) (u8_byte _)) as Hr. pose proof (spread_again (high g) (u8_byte _)) as Hg.
  pose proof (spread_again (high b) (u8_byte _)) as Hb. unfold stored_again in Hr, Hg, Hb. unfold high in * |-.
  rewrite !andb_true_iff, !Z.eqb_eq in Hr, Hg, Hb. unfold high in *.
  destruct Hr as [[[[R1 R2] R3] [R4 R5]] R6], Hg as [[[[G1 G2] G3] [G4 G5]] G6], Hb as [[[[B1 B2] B3] [B4 B5]] B6].
  change 0xff with 255. by rewrite R1, R3, G5, G6, B1, B3.
Qed.

(** * The patched program *)

Section Patched.
Context (undef : float64 -> Z).

Definition colour_of (img : image) (p : Z * Z) : colour :=
  if (Dx img =? Z.of_nat devuiWallpaperWidth) && (Dy img =? Z.of_nat devuiWallpaperHeight)
  then At img p.1 p.2 else sampleDevuiBilinear undef img p.1 p.2.
Definition colours (img : image) : list colour := map (colour_of img) (coords devuiWallpaperWidth devuiWallpaperHeight).

Lemma convert_colours img : convertDevuiWallpaper undef img = flat_map pixel_bytes (colours img).
Proof. apply (flat_map_map (colour_of img) pixel_bytes). Qed.
Lemma colours_length img : length (colours img) = (devuiWallpaperWidth * devuiWallpaperHeight)%nat.
Proof. unfold colours. by rewrite length_map, coords_length. Qed.
Lemma convert_length img : length (convertDevuiWallpaper undef img) = devuiWallpaperDataCap.
Proof. by rewrite convert_colours, pixels_length, colours_length, cap_pixels. Qed.

(** The program with another area of wallpaper data. *)
Definition with_area (data src : list Z) : list Z :=
  take devuiWallpaperDataOff src ++ data ++ drop (devuiWallpaperDataOff + devuiWallpaperDataCap) src.

Lemma patched_area img src : bytes_ok src -> accepted src -> patched_file undef img src = with_area (convertDevuiWallpaper undef img) src.
Proof.
  intros Hb Ha. unfold patched_file. rewrite (update_same src Hb Ha).
  by rewrite (take_ge (convertDevuiWallpaper undef img)), convert_length by (rewrite convert_length; lia).
Qed.

Section Area.
Context (data src : list Z) (Hdata : length data = devuiWallpaperDataCap) (Hlen : (devuiWallpaperDescOff + 16 <= length src)%nat).

Lemma area_prefix : length (take devuiWallpaperDataOff src) = devuiWallpaperDataOff.
Proof. pose proof areas_apart. rewrite length_take. lia. Qed.
Lemma area_drop n : (devuiWallpaperDataOff + devuiWallpaperDataCap <= n)%nat -> drop n (with_area data src) = drop n src.
Proof.
  intros Hn. unfold with_area. rewrite drop_app_ge, area_prefix by (rewrite area_prefix; lia).
  rewrite drop_app_ge, Hdata by lia. rewrite drop_drop. f_equal. lia.
Qed.
Lemma area_length : length (with_area data src) = length src.
Proof. pose proof areas_apart. unfold with_area. rewrite !length_app, area_prefix, length_drop. lia. Qed.
Lemma area_data : take devuiWallpaperDataCap (drop devuiWallpaperDataOff (with_area data src)) = data.
Proof. unfold with_area. rewrite drop_app_length' by (symmetry; apply area_prefix). by apply take_app_length'. Qed.
Lemma area_accepted : accepted src -> accepted (with_area data src).
Proof.
  intros [H0 H1 H2 H3 H4 H5].
  assert (Hd : descriptor (with_area data src) = descriptor src) by (unfold descriptor; by rewrite area_drop by apply areas_apart).
  split; rewrite ?Hd, ?area_length; done.
Qed.
Lemma area_again data' : with_area data' (with_area data src) = with_area data' src.
Proof.
  unfold with_area at 1. rewrite area_drop by lia. unfold with_area. f_equal. apply take_app_length'. symmetry. apply area_prefix.
Qed.
End Area.

Lemma pixel_bytes_ok c : bytes_ok (pixel_bytes c).
Proof. destruct c as [[[r g] b] a]. repeat constructor; apply u8_byte. Qed.
Lemma convert_bytes img : bytes_ok (convertDevuiWallpaper undef img).
Proof.
  rewrite convert_colours. induction (colours img) as [|c l IH]; [constructor|].
  apply bytes_ok_app. split; [apply pixel_bytes_ok|done].
Qed.
Lemma area_bytes data src : bytes_ok data -> bytes_ok src -> bytes_ok (with_area data src).
Proof. intros Hd Hs. unfold with_area. rewrite !bytes_ok_app. repeat split; [by apply bytes_ok_take|done|by apply bytes_ok_drop]. Qed.

(** ** The preview of a patched program *)

Lemma load_area img src : accepted src ->
  loadDevuiWallpaperPreview (Some (with_area (convertDevuiWallpaper undef img) src)) = inr (map shown (colours img)).
Proof.
  intros Ha. pose proof (ac_length _ Ha) as Hl. pose proof areas_apart. cbn [loadDevuiWallpaperPreview].
  rewrite (proj2 (verify_accepted _)) by (apply area_accepted; [apply convert_length|done|done]).
  rewrite (area_length _ src (convert_length img) Hl), (proj2 (Nat.ltb_ge _ _)) by lia.
  rewrite (area_data _ src (convert_length img) Hl). f_equal.
  rewrite convert_colours, <- (colours_length img). apply preview_pixels.
Qed.

Lemma lookup_colours img x y : (x < devuiWallpaperWidth)%nat -> (y < devuiWallpaperHeight)%nat ->
  colours img !! (y * devuiWallpaperWidth + x)%nat = Some (colour_of img (Z.of_nat x, Z.of_nat y)).
Proof.
  intros Hx Hy. unfold colours. change (map ?f ?l) with (f <$> l). rewrite list_lookup_fmap, coords_lookup by done. done.
Qed.

(** The preview as an upload has the colours it shows. *)
Lemma preview_colours pix : length pix = (devuiWallpaperWidth * devuiWallpaperHeight)%nat ->
  colours (preview_image pix) = map nrgba pix.
Proof.
  intros Hp. assert (Hw : (0 < devuiWallpaperWidth)%nat) by (unfold devuiWallpaperWidth; lia).
  apply list_eq. intros i. destruct (Nat.lt_ge_cases i (devuiWallpaperWidth * devuiWallpaperHeight)) as [Hi|Hi].
  2:{ rewrite !lookup_ge_None_2; [done|rewrite length_map; lia|rewrite colours_length; lia]. }
  set (x := (i mod devuiWallpaperWidth)%nat). set (y := (i / devuiWallpaperWidth)%nat).
  assert (Hx : (x < devuiWallpaperWidth)%nat) by (apply Nat.mod_upper_bound; lia).
  assert (Hy : (y < devuiWallpaperHeight)%nat) by (apply Nat.Div0.div_lt_upper_bound; lia).
  assert (Hxy : i = (y * devuiWallpaperWidth + x)%nat) by (unfold x, y; rewrite Nat.mul_comm; apply Nat.div_mod; lia).
  rewrite Hxy, lookup_colours by done. change (map ?f ?l) with (f <$> l). rewrite list_lookup_fmap.
  unfold colour_of. cbn [preview_image Dx Dy At fst snd]. rewrite !Z.eqb_refl. cbn [andb].
  replace (Z.to_nat (Z.of_nat y * Z.of_nat devuiWallpaperWidth + Z.of_nat x)) with (y * devuiWallpaperWidth + x)%nat by lia.
  destruct (pix !! (y * devuiWallpaperWidth + x)%nat) eqn:He; [done|]. apply lookup_ge_None_1 in He. lia.
Qed.

(** Uploading an opaque preview stores the same data. *)
Lemma convert_preview img : Forall opaque (colours img) ->
  convertDevuiWallpaper undef (preview_image (map shown (colours img))) = convertDevuiWallpaper undef img.
Proof.
  intros Ho. rewrite !convert_colours, preview_colours by (rewrite length_map; apply colours_length).
  induction Ho as [|c l Hc _ IH]; [done|]. cbn [map flat_map]. by rewrite pixel_again, IH.
Qed.
End Patched.

(** * The files *)

Abbreviation prog := (@Threads.prog call answer).
Abbreviation invoke := (@perform call answer).

Record world := mkWorld {
  bin : option (list Z); bak : option (list Z);
  unsure : bool }. (** asking for the backup failed with another error than that there is none *)

(** A write that fails may have stored a part; the backup is created only where
    there is none. *)
Definition does (c : call) (w : world) : answer c -> world -> Prop :=
  match c with
  | ReadBin => fun a w' => w' = w /\ (a = None \/ a = bin w)
  | StatBak => fun b w' => match b with
      | Present => is_Some (bak w) /\ w' = w
      | Absent => bak w = None /\ w' = w
      | Unknown => w' = mkWorld (bin w) (bak w) true
      end
  | CreateBak => fun ok w' => if (ok : bool) then bak w = None /\ w' = mkWorld (bin w) (Some []) (unsure w) else w' = w
  | CopyBak data => fun ok w' => exists n, w' = mkWorld (bin w) (Some (take n data)) (unsure w) /\ ((ok : bool) = true -> take n data = data)
  | SyncBak => fun _ w' => w' = w
  | WriteBin data => fun ok w' => if (ok : bool) then w' = mkWorld (Some data) (bak w) (unsure w)
                                  else w' = w \/ exists n, w' = mkWorld (Some (take n data)) (bak w) (unsure w)
  end.

(** The backup before the program [src] is written: the file that was there already,
    whatever it holds, or else a copy of the program; untouched when nobody could
    say whether there is one. *)
Definition backed_up (src : list Z) (w w' : world) : Prop :=
  bak w' = Some (default src (bak w)) \/ (unsure w' = true /\ bak w' = bak w).

(** What a patch of the program [src] by an image may leave. *)
Definition patched_to (undef : float64 -> Z) (img : image) (w : world) (r : option wallpaper_error) (w' : world) : Prop :=
  match r with
  | None => exists src, bin w = Some src /\ accepted src /\ backed_up src w w' /\
      bin w' = Some (with_area (convertDevuiWallpaper undef img) src)
  | Some _ =>
      (bak w' = bak w \/ exists src n, bin w = Some src /\ bak w = None /\ bak w' = Some (take n src)) /\
      (bin w' = bin w \/ exists src n, bin w = Some src /\ backed_up src w w' /\
         bin w' = Some (take n (with_area (convertDevuiWallpaper undef img) src)))
  end.

Abbreviation alone p Q w := (wpr does eq p Q w).

Lemma solo_call {B} c (f : answer c -> prog B) Q w : (forall a w', does c w a w' -> alone (f a) Q w') -> alone (invoke c ≫= f) Q w.
Proof. intros H. apply wpr_call. intros w1 a w2 <-. apply H. Qed.
Lemma solo_ret {A} (a : A) (Q : A -> world -> Prop) w : Q a w -> alone (mret a) Q w.
Proof. intros H. apply wpr_ret. by intros w' <-. Qed.

(** The backup: complete, or a part of the program, or none. *)
Lemma alone_copy w src : bin w = Some src -> bak w = None ->
  alone copyLocalFile (fun ok w' => bin w' = Some src /\
    if ok : bool then bak w' = Some src else bak w' = None \/ exists n, bak w' = Some (take n src)) w.
Proof.
  intros Hb Hk. unfold copyLocalFile. apply solo_call. intros a w' [-> [->| ->]]; [apply solo_ret; auto|]. rewrite Hb.
  apply solo_call. intros [] w1 Hd; cbn in Hd; [destruct Hd as [_ ->]|subst w1]; cbn [negb]; [|apply solo_ret; auto].
  apply solo_call. intros [] w2 (n & -> & Hn); cbn [negb bin bak]; [|apply solo_ret; cbn; eauto].
  intros w3 ok w4 <- Hd w5 <-. cbn in Hd. subst w4. cbn [bin bak]. rewrite (Hn eq_refl). split; [done|].
  destruct ok; [done|]. right. exists (length src). by rewrite take_ge.
Qed.

(** Such a backup is the one there was, or the program. *)
Lemma backed_kept src w w' : bin w = Some src -> backed_up src w w' ->
  bak w' = bak w \/ exists src n, bin w = Some src /\ bak w = None /\ bak w' = Some (take n src).
Proof.
  intros Hb [Hk|[_ Hk]]; [|by left]. destruct (bak w) eqn:He; [by left|]. right. exists src, (length src).
  by rewrite take_ge.
Qed.

(** C23: a patch, run alone, that succeeds on a program of bytes changes its
    wallpaper area and nothing else, the descriptor included.  Before the program is
    written there is a backup: the file of that name if there is one, which is never
    touched and may be one that broke off earlier, and else a complete copy of the
    program; only when asking for it fails otherwise is no copy made.  A patch that
    fails leaves the program alone, unless writing it broke off, again with that
    backup; a backup it made itself and broke off is a beginning of the program. *)
Theorem wallpaper_patch_exact (undef : float64 -> Z) (img : image) (w : world) :
  (forall src, bin w = Some src -> bytes_ok src) ->
  alone (patchDevuiWallpaper undef img) (patched_to undef img w) w.
Proof.
  intros Hok. assert (Hsame : forall e, patched_to undef img w (Some e) w) by (intros e; split; left; reflexivity).
  unfold patchDevuiWallpaper. apply solo_call. intros a w' [-> [->| ->]]; [apply solo_ret, Hsame|].
  destruct (bin w) as [src|] eqn:Hb; [|apply solo_ret, Hsame].
  destruct (verifyDevuiWallpaperDescriptor src) eqn:Hv; [apply solo_ret, Hsame|]. apply verify_accepted in Hv.
  destruct (length src <? _)%nat; [apply solo_ret, Hsame|]. rewrite (patched_area undef img src) by (by try apply Hok).
  assert (Hwrite : forall w1, bin w1 = Some src -> backed_up src w w1 ->
    alone (o ← (invoke (WriteBin (with_area (convertDevuiWallpaper undef img) src)) : prog bool);
           mret (if negb o then Some FileError else None)) (patched_to undef img w) w1).
  { intros w1 Hb1 Hk1. apply solo_call. intros [] w2 Hd; cbn [does] in Hd; [subst w2|]; apply solo_ret; cbn [negb patched_to bin bak].
    { exists src. by rewrite Hb. }
    assert (H2 : bak w2 = bak w1 /\ unsure w2 = unsure w1) by (by destruct Hd as [->|[n ->]]).
    assert (Hk2 : backed_up src w w2) by (unfold backed_up; by rewrite !(proj1 H2), (proj2 H2)).
    split; [by eapply backed_kept|]. destruct Hd as [->|[n ->]]; [left; congruence|]. right. by exists src, n. }
  apply solo_call. intros b w' Hs. destruct b; cbn [does] in Hs.
  - destruct Hs as [[k Hk] ->]. apply Hwrite; [done|]. left. by rewrite Hk.
  - destruct Hs as [Hk ->]. apply wpr_bind; [exact _|].
    eapply wpr_mono; [|by apply (alone_copy w src)]. intros ok w1 [Hb1 Hk1]. cbv beta.
    destruct ok; cbn [negb]; [apply Hwrite; [done|]; left; by rewrite Hk|]. apply solo_ret. cbn [patched_to]. split; [|left; congruence].
    destruct Hk1 as [->|[n ->]]; [by left; rewrite Hk|]. right. exists src, n. by rewrite Hb, Hk.
  - subst w'. apply Hwrite; [done|]. by right.
Qed.

(** The colour [c] is shown as [s]: every channel within the precision stored. *)
Definition shown_near (c s : colour) : Prop :=
  let '(r, g, b, a) := c in
  let '(r', g', b', a') := s in
  Z.abs (r' - high r) <= 7 /\ Z.abs (g' - high g) <= 3 /\ Z.abs (b' - high b) <= 7 /\ a' = high a.

Lemma shown_is_near c : shown_near c (shown c).
Proof.
  destruct c as [[[r g] b] a]. unfold shown, shown_near. pose proof (spread_near (high r) (u8_byte _)) as Hr.
  pose proof (spread_near (high g) (u8_byte _)) as Hg. pose proof (spread_near (high b) (u8_byte _)) as Hb.
  unfold near in *. bool_to_prop. rewrite ?Z.leb_le in *. tauto.
Qed.

(** C28: the preview of a patched program shows every pixel of an upload of the right
    size, each channel within the precision that is stored; and if the picture is
    opaque, uploading its preview again leaves the program as it is. *)
Theorem preview_roundtrip (undef : float64 -> Z) (img : image) (src : list Z) :
  bytes_ok src -> verifyDevuiWallpaperDescriptor src = None ->
  Dx img = Z.of_nat devuiWallpaperWidth -> Dy img = Z.of_nat devuiWallpaperHeight ->
  exists pix, loadDevuiWallpaperPreview (Some (patched_file undef img src)) = inr pix /\
    (forall x y, (x < devuiWallpaperWidth)%nat -> (y < devuiWallpaperHeight)%nat ->
       exists s, pix !! (y * devuiWallpaperWidth + x)%nat = Some s /\ shown_near (At img (Z.of_nat x) (Z.of_nat y)) s) /\
    (Forall opaque (colours undef img) ->
       patched_file undef (preview_image pix) (patched_file undef img src) = patched_file undef img src).
Proof.
  intros Hb Hv%verify_accepted Hx Hy. pose proof (ac_length _ Hv) as Hl. pose proof (convert_length undef img) as Hc.
  assert (Hcolour : forall p, colour_of undef img p = At img p.1 p.2) by (intros p; unfold colour_of; by rewrite Hx, Hy, !Z.eqb_refl).
  exists (map shown (colours undef img)). rewrite (patched_area undef img src Hb Hv). split; [by apply load_area|]. split.
  - intros x y Hx' Hy'. exists (shown (At img (Z.of_nat x) (Z.of_nat y))). split; [|apply shown_is_near].
    change (map ?f ?l) with (f <$> l). by rewrite list_lookup_fmap, lookup_colours, Hcolour by done.
  - intros Ho. rewrite patched_area by (apply area_accepted || apply area_bytes; try apply convert_bytes; assumption).
    rewrite convert_preview by done. by apply area_again.
Qed.

Definition sample_src : list Z :=
  replicate devuiWallpaperDescOff 0 ++ [0x05; 0x00; 0x05; 0x39; 0x00; 0xAE; 0x06; 0x00; 0x4A; 0x48; 0xC1; 0; 0; 0; 0; 0].
Definition white : image := mkImage 320 456 (fun _ _ => (65535, 65535, 65535, 65535)).

Lemma sample_bytes : bytes_ok sample_src.
Proof.
  apply bytes_ok_app. split; [apply Forall_replicate; split; done|].
  bytes_list; unfold in_range; lia.
Qed.
Lemma sample_accepted : verifyDevuiWallpaperDescriptor sample_src = None.
Proof.
  apply verify_accepted.
  assert (Hd : descriptor sample_src = [0x05; 0x00; 0x05; 0x39; 0x00; 0xAE; 0x06; 0x00; 0x4A; 0x48; 0xC1; 0; 0; 0; 0; 0]).
  { unfold descriptor, sample_src. by rewrite drop_app_length' by (by rewrite length_replicate). }
  split; rewrite ?Hd; [|vm_compute; reflexivity..].
  unfold sample_src. rewrite length_app, length_replicate. cbn [length]. lia.
Qed.
Lemma white_opaque undef : Forall opaque (colours undef white).
Proof.
  apply List.Forall_forall. intros c (p & <- & _)%in_map_iff. unfold colour_of. by destruct (_ && _) eqn:He; [|vm_compute in He].
Qed.

Lemma wallpaper_patch_exact_witness :
  bytes_ok sample_src /\ alone (patchDevuiWallpaper (fun _ => 0) white) (patched_to (fun _ => 0) white (mkWorld (Some sample_src) None false))
    (mkWorld (Some sample_src) None false).
Proof.
  split; [exact sample_bytes|]. apply (wallpaper_patch_exact (fun _ => 0) white (mkWorld (Some sample_src) None false)).
  intros src [= <-]. exact sample_bytes.
Defined.

Lemma preview_roundtrip_witness :
  exists pix, loadDevuiWallpaperPreview (Some (patched_file (fun _ => 0) white sample_src)) = inr pix /\
    patched_file (fun _ => 0) (preview_image pix) (patched_file (fun _ => 0) white sample_src) = patched_file (fun _ => 0) white sample_src.
Proof.
  destruct (preview_roundtrip (fun _ => 0) white sample_src sample_bytes sample_accepted eq_refl eq_refl) as (pix & H1 & _ & H2).
  exists pix. split; [exact H1|]. apply H2, white_opaque.
Defined.

(** A translucent picture loses brightness each time its preview is uploaded: the
    stored channels are premultiplied, the preview takes them as they are. *)
Example translucent_darkens : (nrgba (255, 255, 255, 128), (shown (nrgba (255, 255, 255, 128))), shown (nrgba (shown (nrgba (255, 255, 255, 128))))) =
  ((32896, 32896, 32896, 32896), (132, 130, 132, 128), (66, 65, 66, 128)).
Proof. vm_compute. reflexivity. Qed.
