(* ===== verification/Devui.v ===== *)
(** The replacement of the screen program ([system_tools.go]): a patched binary is
    downloaded, mounted over the one of the firmware and its service restarted,
    while a goroutine writes the files it shows every second.  The texts it writes
    are in [HomeCards], the wallpaper in [Wallpaper], the download in [Mihomo]. *)

From S2P Require Import Prelude.
From S2P Require Import GoInt.
From S2P Require Import GoFloat.
From S2P Require Import GoStrings.
From S2P Require Import Threads.
From S2P Require Import HomeCards.
From S2P Require Import Wallpaper.
From stdpp Require Import gmap strings.
Open Scope string_scope.
Open Scope Z_scope.

Definition devuiDir : string := "/data/kano_plugins/devui".
Definition devuiBinaryPath : string := path_Join [devuiDir; "zte_topsw_devui.patched"].
Definition devuiAutostartPath : string := path_Join [devuiDir; ".autostart"].
Definition devuiHomeCardsPath : string := "/tmp/zte_home_cards".
Definition devuiSpeedPath : string := "/tmp/zte_speed".
Definition tmpPath : string := devuiBinaryPath +++ ".download".

Record devuiRuntimeStatus := mkStatus {
  Running : bool; AutostartEnabled : bool; BinaryExists : bool; Mounted : bool; DataReady : bool; DataError : string; LastError : string }.
Record devuiDownloadStatus := mkDownload {
  d_State : string; d_Msg : string; d_Downloaded : Z; d_Total : Z; d_Percent : Z; d_UpdatedAt : string }.

(** The fields of the status under the mutex, and the stop channel. *)
Record manager := mkManager { m_stop : option nat; m_running : bool; m_error : string }.

Definition devui_percent (s : devuiDownloadStatus) : Z :=
  if 0 <? d_Total s then
    let percent := i64 (Z.quot (i64 (d_Downloaded s * 100)) (d_Total s)) in
    if 100 <? percent then 100 else percent
  else d_Percent s.
Definition setDevuiDownloadStatus (fn : devuiDownloadStatus -> devuiDownloadStatus) (now : string) (s : devuiDownloadStatus) : devuiDownloadStatus :=
  let s := fn s in mkDownload (d_State s) (d_Msg s) (d_Downloaded s) (d_Total s) (devui_percent s) now.

Inductive data := NoData | StatusData (s : devuiRuntimeStatus) | DownloadData (s : devuiDownloadStatus) | Preview (pix : list colour).

(** Errors are their texts. *)
Inductive call : Type :=
| Claim                       (** the critical section of the start: the new channel, if there was none *)
| Disown                      (** the critical section of the stop *)
| Go (stop : nat)             (** a worker *)
| Select (stop : nat)         (** whether the worker is told to stop, or its ticker ticks *)
| GetManager | SetError (msg : string)
| TimeText | GetDownload | PutDownload (s : devuiDownloadStatus) | SetDownload (fn : string -> devuiDownloadStatus -> devuiDownloadStatus) | GoDownload
| LockDownload | UnlockDownload
| Download (progress : bool)  (** [mihomoDownloadFile] to the temporary file *)
| Exists (path : string) | Size (path : string)
| Remove (path : string) | MkdirAll | Chmod | WriteFile (path text : string) | RenameTmp
| MountList                   (** whether the target is listed *)
| MountBind | Umount
| ServiceRestart | ServiceStop | ServiceStart
| Now | Sleep (d : Z)
| UbusSpeed | UbusCards
| Patch (img : image) | ReadBinary
| JSON (code : Z) (d : data).

Definition answer (c : call) : Type :=
  match c with
  | Claim => option nat
  | Select _ => bool
  | GetManager => manager
  | TimeText => string
  | GetDownload => devuiDownloadStatus
  | Download _ | MkdirAll | Chmod | WriteFile _ _ | RenameTmp | MountBind | Umount | ServiceRestart | ServiceStop | ServiceStart => option string
  | Exists _ => bool
  | Size _ => option Z
  | Remove _ => option string
  | MountList => option bool
  | Now => Z
  | UbusSpeed | UbusCards => option string
  | Patch _ => option string
  | ReadBinary => option (list Z)
  | _ => unit
  end.

Abbreviation prog := (@Threads.prog call answer).
Abbreviation invoke := (@perform call answer).

Section Programs.
Context (undef : float64 -> Z).

(** * The worker *)

Definition write (path text : string) : prog unit := _ ← invoke (WriteFile path text); mret tt.
Definition devuiWriteScreenFiles : prog unit :=
  out ← (invoke UbusSpeed : prog (option string));
  _ ← (match updateDevuiSpeed out with Some text => write devuiSpeedPath text | None => mret tt end : prog unit);
  out ← (invoke UbusCards : prog (option string));
  match buildDevuiHomeCards undef out with
  | Some text => write devuiHomeCardsPath (of_chars text)
  | None => mret tt
  end.

(** One round: the files, then the choice between stopping and a tick, which starts
    the next round. *)
Definition runDevuiHomeCardsWorker (stop : nat) : prog unit :=
  _ ← devuiWriteScreenFiles;
  told ← (invoke (Select stop) : prog bool);
  if told : bool then mret tt else invoke (Go stop).

(** * The binary *)

Definition failure : Type := option string.
Definition with_text (text : string) (e : failure) : failure := option_map (fun e => text +++ e) e.

Definition present (n : option Z) : bool := match n with Some n => 0 <? n | None => false end.
Definition chmodBinary (text : string) : prog failure := e ← (invoke Chmod : prog failure); mret (with_text text e).

Definition download_locked (force progress : bool) : prog failure :=
  n ← (if force then mret None else (invoke (Size devuiBinaryPath) : prog (option Z)));
  if present n then chmodBinary ""
  else
    e ← (invoke MkdirAll : prog failure);
    match e with
    | Some e => mret (Some ("创建屏幕更新目录失败: " +++ e))
    | None =>
      e ← (invoke (Download progress) : prog failure);
      match e with
      | Some e => _ ← invoke (Remove tmpPath); mret (Some ("下载 devui 文件失败: " +++ e))
      | None =>
        e ← (invoke RenameTmp : prog failure);
        match e with Some e => mret (Some ("安装 devui 文件失败: " +++ e)) | None => chmodBinary "设置 devui 文件权限失败: " end
      end
    end.
Definition downloadDevuiBinaryFile (force progress : bool) : prog failure :=
  _ ← invoke LockDownload; r ← download_locked force progress; _ ← invoke UnlockDownload; mret r.

Definition ensureDevuiBinary : prog failure :=
  n ← (invoke (Size devuiBinaryPath) : prog (option Z));
  if present n then chmodBinary "设置 devui 文件权限失败: " else downloadDevuiBinaryFile false false.

Definition runDevuiDownloadTask : prog unit :=
  r ← downloadDevuiBinaryFile true true;
  match r with
  | Some e => invoke (SetDownload (fun _ s => mkDownload "failed" ("下载失败: " +++ e) (d_Downloaded s) (d_Total s) (d_Percent s) (d_UpdatedAt s)))
  | None => invoke (SetDownload (fun _ s => mkDownload "done" "devui 补丁文件已下载" (d_Downloaded s) (d_Total s) 100 (d_UpdatedAt s)))
  end.

(** * Start and stop *)

Definition isDevuiMounted : prog bool := l ← (invoke MountList : prog (option bool)); mret (default false l).

Definition stop_tail (startOriginal : bool) : prog failure :=
  r ← (if startOriginal then (invoke ServiceStart : prog failure) else mret None);
  match r with
  | Some e => _ ← invoke (SetError e); mret (Some e)
  | None => _ ← invoke (SetError ""); mret None
  end.
Definition stopDevuiScreenUpdate (startOriginal : bool) : prog failure :=
  _ ← invoke Disown;
  _ ← invoke (Remove devuiSpeedPath);
  _ ← invoke (Remove devuiHomeCardsPath);
  m ← isDevuiMounted;
  if m : bool then
    e ← (invoke ServiceStop : prog failure);
    match e with
    | Some e => _ ← invoke (SetError e); mret (Some e)
    | None =>
      e ← (invoke Umount : prog failure);
      match e with
      | Some e => _ ← invoke (SetError ("取消挂载失败: " +++ e)); mret (Some ("取消挂载失败: " +++ e))
      | None => stop_tail startOriginal
      end
    end
  else stop_tail startOriginal.

(** The wait for the two files; [None] is that fuel ran out. *)
Definition interval : Z := 200 * 10 ^ 6.
Definition timeout : Z := 5 * 10 ^ 9.
Fixpoint wait_loop (fuel : nat) (deadline : Z) : prog (option failure) :=
  match fuel with
  | O => mret None
  | S fuel =>
    a ← (invoke (Exists devuiSpeedPath) : prog bool);
    b ← (if a : bool then (invoke (Exists devuiHomeCardsPath) : prog bool) else mret false);
    if b : bool then mret (Some None)
    else
      now ← (invoke Now : prog Z);
      if deadline <? now then mret (Some (Some "等待 /tmp/zte_speed 和 /tmp/zte_home_cards 生成超时"))
      else _ ← invoke (Sleep interval); wait_loop fuel deadline
  end.
Definition wait_fuel : nat := 27.
Definition waitDevuiFilesReady : prog (option failure) := now ← (invoke Now : prog Z); wait_loop wait_fuel (now + timeout).

Definition bindMountDevuiBinary : prog failure :=
  m ← isDevuiMounted;
  if m : bool then mret None else e ← (invoke MountBind : prog failure); mret (with_text "挂载 devui 补丁失败: " e).
Definition restartDevuiService : prog failure :=
  e ← (invoke ServiceRestart : prog failure); mret (with_text "重启 zte_topsw_devui 失败: " e).

Definition give_up_start (e : string) : prog failure :=
  _ ← stopDevuiScreenUpdate false; _ ← invoke (SetError e); mret (Some e).

Definition startDevuiScreenUpdate : prog (option failure) :=
  e ← ensureDevuiBinary;
  match e with
  | Some e => _ ← invoke (SetError e); mret (Some (Some e))
  | None =>
    c ← (invoke Claim : prog (option nat));
    _ ← (match c with Some stop => invoke (Go stop) | None => mret tt end : prog unit);
    w ← waitDevuiFilesReady;
    match w with
    | None => mret None
    | Some (Some e) => r ← give_up_start e; mret (Some r)
    | Some None =>
      e ← bindMountDevuiBinary;
      match e with
      | Some e => r ← give_up_start e; mret (Some r)
      | None =>
        e ← restartDevuiService;
        match e with
        | Some e => r ← give_up_start e; mret (Some r)
        | None => _ ← invoke (SetError ""); mret (Some None)
        end
      end
    end
  end.

(** * Status *)

Definition getDevuiAutostartEnabled : prog bool := invoke (Exists devuiAutostartPath).
Definition setDevuiAutostartEnabled (enabled : bool) : prog failure :=
  e ← (invoke MkdirAll : prog failure);
  match e with
  | Some e => mret (Some ("创建屏幕更新目录失败: " +++ e))
  | None =>
    if enabled then invoke (WriteFile devuiAutostartPath "")
    else e ← (invoke (Remove devuiAutostartPath) : prog failure); mret (with_text "删除屏幕更新自启标志失败: " e)
  end.

Definition devuiDataInterfaceStatus : prog (bool * string) :=
  a ← (invoke (Exists devuiSpeedPath) : prog bool);
  b ← (invoke (Exists devuiHomeCardsPath) : prog bool);
  let missing := ((if a : bool then [] else [devuiSpeedPath +++ " 异常"]) ++ (if b : bool then [] else [devuiHomeCardsPath +++ " 异常"]))%list in
  mret (bool_decide (missing = []), GoStrings.Join missing "；").

Definition getDevuiStatus : prog devuiRuntimeStatus :=
  m ← (invoke GetManager : prog manager);
  autostart ← getDevuiAutostartEnabled;
  bin ← (invoke (Exists devuiBinaryPath) : prog bool);
  mounted ← isDevuiMounted;
  d ← devuiDataInterfaceStatus;
  mret (mkStatus mounted autostart bin mounted d.1 d.2 (m_error m)).

Definition getDevuiDownloadStatus : prog devuiDownloadStatus :=
  s ← (invoke GetDownload : prog devuiDownloadStatus);
  if bool_decide (d_State s = "done") then
    bin ← (invoke (Exists devuiBinaryPath) : prog bool);
    if bin : bool then mret s
    else
      now ← (invoke TimeText : prog string);
      let s := mkDownload "idle" "补丁文件未下载" 0 0 0 now in
      _ ← invoke (PutDownload s); mret s
  else mret s.

(** * Handlers; a body that cannot be bound is [None] *)

Definition reply_status (code : Z) : prog unit := s ← getDevuiStatus; invoke (JSON code (StatusData s)).
Definition reply_download (code : Z) : prog unit := s ← getDevuiDownloadStatus; invoke (JSON code (DownloadData s)).

Definition SystemDevuiStatusHandler : prog unit := reply_status 0.
Definition SystemDevuiDownloadHandler : prog unit :=
  s ← getDevuiDownloadStatus;
  if bool_decide (d_State s = "downloading") then reply_download 0
  else
    _ ← invoke (SetDownload (fun now _ => mkDownload "downloading" "正在准备下载..." 0 0 0 now));
    _ ← invoke GoDownload;
    reply_download 0.
Definition SystemDevuiDownloadStatusHandler : prog unit := reply_download 0.

Definition SystemDevuiControlHandler (req : option bool) : prog unit :=
  match req with
  | None => invoke (JSON 1 NoData)
  | Some true =>
    e ← startDevuiScreenUpdate;
    match e with Some (Some _) => reply_status 2 | Some None => reply_status 0 | None => mret tt end
  | Some false =>
    e ← stopDevuiScreenUpdate true;
    match e with Some _ => reply_status 2 | None => reply_status 0 end
  end.

Definition SystemDevuiAutostartHandler (req : option bool) : prog unit :=
  match req with
  | None => invoke (JSON 1 NoData)
  | Some enabled =>
    e ← (if enabled then ensureDevuiBinary else mret None);
    match e with
    | Some _ => reply_status 2
    | None => e ← setDevuiAutostartEnabled enabled; match e with Some _ => reply_status 3 | None => reply_status 0 end
    end
  end.

(** What is uploaded: the size the form names, and the image unless it cannot be
    read or decoded. *)
Inductive upload := NoFile | Upload (size : Z) (opens : bool) (img : option image).

Definition SystemDevuiWallpaperHandler (u : upload) : prog unit :=
  match u with
  | NoFile => invoke (JSON 1 NoData)
  | Upload size opens img =>
    if 12 * 1024 * 1024 <? size then invoke (JSON 2 NoData)
    else if negb opens then invoke (JSON 3 NoData)
    else
      match img with
      | None => invoke (JSON 4 NoData)
      | Some img =>
        e ← ensureDevuiBinary;
        match e with
        | Some _ => reply_status 5
        | None =>
          status ← getDevuiStatus;
          e ← (if Running status || Mounted status then stopDevuiScreenUpdate true else mret None);
          match e with
          | Some _ => reply_status 6
          | None =>
            e ← (invoke (Patch img) : prog failure);
            match e with Some _ => reply_status 7 | None => reply_status 0 end
          end
        end
      end
  end.

Definition SystemDevuiWallpaperPreviewHandler : prog unit :=
  src ← (invoke ReadBinary : prog (option (list Z)));
  match loadDevuiWallpaperPreview src with
  | inl _ => invoke (JSON 404 NoData)
  | inr pix => invoke (JSON 200 (Preview pix))
  end.

Definition InitDevuiAutostart : prog unit :=
  b ← getDevuiAutostartEnabled;
  if negb (b : bool) then mret tt
  else
    _ ← invoke (Sleep (5 * 10 ^ 9));
    e ← startDevuiScreenUpdate;
    match e with Some (Some e) => invoke (SetError e) | _ => mret tt end.
End Programs.

(** * The device *)

Inductive service := Stopped | Original | Patched.

Record world := mkWorld {
  bin : option (list Z); tmp : option (list Z); bak : option (list Z);
  files : gset string;                   (** the other files there are *)
  mounts : nat;                          (** how often the target is mounted over *)
  svc : service;                         (** what the service runs *)
  clock : Z;
  mgr : manager; closed : list bool; panicked : bool;
  dl : devuiDownloadStatus; locked : bool;
  blind : bool;                          (** the mounts could not be listed once *)
  patches : list nat;                    (** the mounts at each patch of the wallpaper *)
  replies : list (Z * data) }.

(** Everything but the clock and the files. *)
Definition steady (w : world) :=
  (bin w, tmp w, bak w, mounts w, svc w, mgr w, closed w, panicked w, dl w, locked w, blind w, patches w, replies w).

Definition set_disk b t k w := mkWorld b t k (files w) (mounts w) (svc w) (clock w) (mgr w) (closed w) (panicked w) (dl w) (locked w) (blind w) (patches w) (replies w).
Definition set_files f w := mkWorld (bin w) (tmp w) (bak w) f (mounts w) (svc w) (clock w) (mgr w) (closed w) (panicked w) (dl w) (locked w) (blind w) (patches w) (replies w).
Definition set_screen m s w := mkWorld (bin w) (tmp w) (bak w) (files w) m s (clock w) (mgr w) (closed w) (panicked w) (dl w) (locked w) (blind w) (patches w) (replies w).
Definition set_clock t w := mkWorld (bin w) (tmp w) (bak w) (files w) (mounts w) (svc w) t (mgr w) (closed w) (panicked w) (dl w) (locked w) (blind w) (patches w) (replies w).
Definition set_mgr m c p w := mkWorld (bin w) (tmp w) (bak w) (files w) (mounts w) (svc w) (clock w) m c p (dl w) (locked w) (blind w) (patches w) (replies w).
Definition set_dl d l w := mkWorld (bin w) (tmp w) (bak w) (files w) (mounts w) (svc w) (clock w) (mgr w) (closed w) (panicked w) d l (blind w) (patches w) (replies w).
Definition set_blind w := mkWorld (bin w) (tmp w) (bak w) (files w) (mounts w) (svc w) (clock w) (mgr w) (closed w) (panicked w) (dl w) (locked w) true (patches w) (replies w).
Definition add_patch w := mkWorld (bin w) (tmp w) (bak w) (files w) (mounts w) (svc w) (clock w) (mgr w) (closed w) (panicked w) (dl w) (locked w) (blind w) (patches w ++ [mounts w])%list (replies w).
Definition add_reply r w := mkWorld (bin w) (tmp w) (bak w) (files w) (mounts w) (svc w) (clock w) (mgr w) (closed w) (panicked w) (dl w) (locked w) (blind w) (patches w) (replies w ++ [r])%list.

Definition with_error (msg : string) (m : manager) : manager := mkManager (m_stop m) (m_running m) msg.
(** What a service that starts runs. *)
Definition current (m : nat) : service := if (0 <? m)%nat then Patched else Original.

(** Closing a channel twice is a panic. *)
Definition disown (w : world) : world :=
  let m := mkManager None false (m_error (mgr w)) in
  match m_stop (mgr w) with
  | None => set_mgr m (closed w) (panicked w) w
  | Some n => match closed w !! n with
              | Some false => set_mgr m (<[n := true]> (closed w)) (panicked w) w
              | _ => set_mgr m (closed w) true w
              end
  end.

Definition kept (r : failure) (w w' : world) : Prop := match r with Some _ => exists s, w' = set_screen (mounts w) s w | None => True end.

Section Device.
Context (undef : float64 -> Z).

Definition does (c : call) (w : world) : answer c -> world -> Prop :=
  match c with
  | Claim => fun a w' => match m_stop (mgr w) with
      | Some _ => a = None /\ w' = w
      | None => a = Some (length (closed w)) /\ w' = set_mgr (mkManager (Some (length (closed w))) true "") (closed w ++ [false])%list (panicked w) w
      end
  | Disown => fun _ w' => w' = disown w
  | Go _ | GoDownload | MkdirAll | Chmod | TimeText => fun _ w' => w' = w
  | Select n => fun told w' => w' = w /\ (told = true -> closed w !! n = Some true)
  | GetManager => fun a w' => a = mgr w /\ w' = w
  | SetError msg => fun _ w' => w' = set_mgr (with_error msg (mgr w)) (closed w) (panicked w) w
  | GetDownload => fun a w' => a = dl w /\ w' = w
  | PutDownload s => fun _ w' => w' = set_dl s (locked w) w
  | SetDownload fn => fun _ w' => exists now1 now2, w' = set_dl (setDevuiDownloadStatus (fn now1) now2 (dl w)) (locked w) w
  | LockDownload => fun _ w' => locked w = false /\ w' = set_dl (dl w) true w
  | UnlockDownload => fun _ w' => w' = set_dl (dl w) false w
  | Download progress => fun e w' => exists d, (progress = false -> d = dl w) /\
      match e with
      | None => exists s, s <> [] /\ w' = set_dl d (locked w) (set_disk (bin w) (Some s) (bak w) w)
      | Some _ => w' = set_dl d (locked w) w
      end
  | Exists p => fun a w' => w' = w /\ (if bool_decide (p = devuiBinaryPath) then a = bool_decide (is_Some (bin w)) else a = bool_decide (p ∈ files w))
  | Size _ => fun a w' => w' = w /\ match a with Some n => exists s, bin w = Some s /\ n = Z.of_nat (length s) | None => True end
  | Remove p => fun e w' => match e with
      | Some _ => w' = w
      | None => w' = if bool_decide (p = tmpPath) then set_disk (bin w) None (bak w) w else set_files (files w ∖ {[p]}) w
      end
  | WriteFile p _ => fun e w' => w' = set_files (files w ∪ {[p]}) w \/ (e <> None /\ w' = w)
  | RenameTmp => fun e w' => match e with
      | None => exists s, tmp w = Some s /\ w' = set_disk (Some s) None (bak w) w
      | Some _ => w' = w
      end
  | MountList => fun a w' => match a with Some b => b = (0 <? mounts w)%nat /\ w' = w | None => w' = set_blind w end
  | MountBind => fun e w' => match e with None => is_Some (bin w) /\ w' = set_screen (S (mounts w)) (svc w) w | Some _ => w' = w end
  | Umount => fun e w' => match e with None => (0 < mounts w)%nat /\ w' = set_screen (mounts w - 1) (svc w) w | Some _ => w' = w end
  | ServiceRestart => fun e w' => kept e w w' /\ (e = None -> w' = set_screen (mounts w) (current (mounts w)) w)
  | ServiceStop => fun e w' => kept e w w' /\ (e = None -> w' = set_screen (mounts w) Stopped w)
  | ServiceStart => fun e w' => kept e w w' /\
      (e = None -> w' = set_screen (mounts w) (match svc w with Stopped => current (mounts w) | s => s end) w)
  | Now => fun a w' => exists t, clock w <= t /\ a = t /\ w' = set_clock t w
  | Sleep d => fun _ w' => exists t, clock w + d <= t /\ w' = set_clock t w
  | UbusSpeed | UbusCards => fun _ w' => w' = w
  | Patch img => fun e w' => exists r p, (r = None <-> e = None) /\
      patched_to undef img (Wallpaper.mkWorld (bin w) (bak w) false) r p /\ w' = add_patch (set_disk (Wallpaper.bin p) (tmp w) (Wallpaper.bak p) w)
  | ReadBinary => fun a w' => w' = w /\ (a = None \/ a = bin w)
  | JSON code d => fun _ w' => w' = add_reply (code, d) w
  end.

Definition forks (c : call) : list (prog unit) :=
  match c with
  | Go n => [runDevuiHomeCardsWorker undef n]
  | GoDownload => [runDevuiDownloadTask]
  | _ => []
  end.

(** * The worker beside a request *)

Definition screen_files : list string := [devuiSpeedPath; devuiHomeCardsPath].
Definition beside (w w' : world) : Prop :=
  steady w' = steady w /\ clock w <= clock w' /\ forall p, p ∉ screen_files -> p ∈ files w' <-> p ∈ files w.

#[local] Instance beside_order : PreOrder beside.
Proof.
  split; [by split; [|split; [lia|]]|]. intros w1 w2 w3 (S1 & C1 & F1) (S2 & C2 & F2).
  split; [congruence|]. split; [lia|]. intros p Hp. by rewrite F2, F1.
Qed.

(** The calls of the worker. *)
Definition worker_call (c : call) : Prop :=
  match c with UbusSpeed | UbusCards | Select _ | Go _ => True | WriteFile p _ => p ∈ screen_files | _ => False end.

Lemma worker_calls n : all_calls worker_call (runDevuiHomeCardsWorker undef n).
Proof.
  assert (Hw : forall p text, p ∈ screen_files -> all_calls worker_call (write p text)) by (intros p text Hp; split; [exact Hp|done]).
  unfold runDevuiHomeCardsWorker. apply all_calls_bind.
  - unfold devuiWriteScreenFiles. split; [done|]. intros out. cbn [mbind prog_bind perform]. apply all_calls_bind.
    + destruct (updateDevuiSpeed out); [apply Hw; by left|done].
    + intros _. split; [done|]. intros out'. cbn [mbind prog_bind perform]. destruct (buildDevuiHomeCards undef out'); [apply Hw; right; left|done].
  - intros _. split; [done|]. by intros [].
Qed.
Lemma worker_beside c w a w' : worker_call c -> does c w a w' -> beside w w'.
Proof.
  intros Hc Hd. destruct c; try done; cbn in Hc, Hd; subst; try reflexivity.
  - destruct Hd as [-> _]. reflexivity.
  - destruct Hd as [->|[_ ->]]; [|reflexivity]. split; [done|]. split; [done|]. intros p Hp. cbn. set_solver.
Qed.
End Device.

(** * Views: what the theorems speak of *)

Record view := mkView {
  v_bin : option (list Z); v_tmp : option (list Z); v_mounts : nat; v_svc : service; v_stop : option nat; v_error : string; v_blind : bool; v_patches : list nat;
  v_replies : list Z (** the codes of the replies *) }.
Definition view_of (w : world) : view := mkView (bin w) (tmp w) (mounts w) (svc w) (m_stop (mgr w)) (m_error (mgr w)) (blind w) (patches w) (map fst (replies w)).
Definition v_set_screen m s v := mkView (v_bin v) (v_tmp v) m s (v_stop v) (v_error v) (v_blind v) (v_patches v) (v_replies v).
Definition v_set_mgr st e v := mkView (v_bin v) (v_tmp v) (v_mounts v) (v_svc v) st e (v_blind v) (v_patches v) (v_replies v).
Definition v_set_disk b t v := mkView b t (v_mounts v) (v_svc v) (v_stop v) (v_error v) (v_blind v) (v_patches v) (v_replies v).
Definition v_set_blind v := mkView (v_bin v) (v_tmp v) (v_mounts v) (v_svc v) (v_stop v) (v_error v) true (v_patches v) (v_replies v).
Definition v_add_patch b v := mkView b (v_tmp v) (v_mounts v) (v_svc v) (v_stop v) (v_error v) (v_blind v) (v_patches v ++ [v_mounts v])%list (v_replies v).
Definition v_add_reply code v := mkView (v_bin v) (v_tmp v) (v_mounts v) (v_svc v) (v_stop v) (v_error v) (v_blind v) (v_patches v) (v_replies v ++ [code])%list.

(** What a call of the service does to the view. *)
Definition serviced (e : failure) (s : service) (v v' : view) : Prop :=
  match e with None => v' = v_set_screen (v_mounts v) s v | Some _ => exists s', v' = v_set_screen (v_mounts v) s' v end.

Definition view_step (c : call) (v : view) : answer c -> view -> Prop :=
  match c with
  | Claim => fun a v' => match v_stop v with Some _ => a = None /\ v' = v | None => exists n, a = Some n /\ v' = v_set_mgr (Some n) "" v end
  | Disown => fun _ v' => v' = v_set_mgr None (v_error v) v
  | GetManager => fun a v' => v' = v
  | SetError msg => fun _ v' => v' = v_set_mgr (v_stop v) msg v
  | Exists p => fun a v' => v' = v
  | Size _ => fun a v' => v' = v /\ match a with Some n => exists s, v_bin v = Some s /\ n = Z.of_nat (length s) | None => True end
  | Download _ => fun e v' => match e with None => exists s, s <> [] /\ v' = v_set_disk (v_bin v) (Some s) v | Some _ => v' = v end
  | Remove p => fun e v' => v' = v \/ (p = tmpPath /\ v' = v_set_disk (v_bin v) None v)
  | RenameTmp => fun e v' => match e with None => exists s, v_tmp v = Some s /\ v' = v_set_disk (Some s) None v | Some _ => v' = v end
  | MountList => fun a v' => match a with Some b => b = (0 <? v_mounts v)%nat /\ v' = v | None => v' = v_set_blind v end
  | MountBind => fun e v' => match e with None => v' = v_set_screen (S (v_mounts v)) (v_svc v) v | Some _ => v' = v end
  | Umount => fun e v' => match e with None => (0 < v_mounts v)%nat /\ v' = v_set_screen (v_mounts v - 1) (v_svc v) v | Some _ => v' = v end
  | ServiceRestart => fun e v' => serviced e (current (v_mounts v)) v v'
  | ServiceStop => fun e v' => serviced e Stopped v v'
  | ServiceStart => fun e v' => serviced e (match v_svc v with Stopped => current (v_mounts v) | s => s end) v v'
  | Patch _ => fun _ v' => exists b, v' = v_add_patch b v
  | JSON code _ => fun _ v' => v' = v_add_reply code v
  | _ => fun _ v' => v' = v
  end.

Section Views.
Context (undef : float64 -> Z).
#[local] Existing Instance beside_order.

Lemma beside_view w w' : beside w w' -> view_of w' = view_of w.
Proof. intros (S & _ & _). unfold steady in S. injection S as. unfold view_of. congruence. Qed.

Lemma does_view c w a w' : does undef c w a w' -> view_step c (view_of w) a (view_of w').
Proof.
  intros Hd. destruct c; cbn in Hd |- *; try (by subst); try (by destruct Hd as [-> ?]); try (by destruct Hd as [? ->]).
  - destruct (m_stop (mgr w)); destruct Hd as [-> ->]; [by split|]. by eexists.
  - subst. unfold disown. destruct (m_stop (mgr w)); [destruct (closed w !! n) as [[]|]|]; done.
  - by destruct Hd as (n1 & n2 & ->).
  - destruct Hd as (d & _ & Hd). destruct a; [by subst|]. destruct Hd as (x & Hx & ->). by exists x.
  - destruct a; subst; [by left|]. case_bool_decide; [by right|by left].
  - by destruct Hd as [->|[_ ->]].
  - destruct a; [by subst|]. destruct Hd as (x & Hx & ->). by exists x.
  - destruct a; [by destruct Hd as [-> ->]|by subst].
  - destruct a; [by subst|by destruct Hd as [_ ->]].
  - destruct a; [by subst|by destruct Hd as [? ->]].
  - destruct Hd as [Hk Hn]. destruct a; [by destruct Hk as [x ->]; exists x|by rewrite Hn].
  - destruct Hd as [Hk Hn]. destruct a; [by destruct Hk as [x ->]; exists x|by rewrite Hn].
  - destruct Hd as [Hk Hn]. destruct a; [by destruct Hk as [x ->]; exists x|by rewrite Hn].
  - by destruct Hd as (t & _ & _ & ->).
  - by destruct Hd as (t & _ & ->).
  - destruct Hd as (r & p & _ & _ & ->). by eexists.
  - subst. unfold view_of, v_add_reply. cbn. by rewrite map_app.
Qed.

(** Programs on views. *)
Definition vwp {A} (p : prog A) (Q : A -> view -> Prop) (v : view) : Prop :=
  forall w, view_of w = v -> wpr (does undef) beside p (fun a w' => Q a (view_of w')) w.

Lemma vwp_ret {A} (a : A) Q v : Q a v -> vwp (mret a) Q v.
Proof. intros H w <-. apply wpr_ret. intros w' Hb. by rewrite (beside_view w w' Hb). Qed.
Lemma vwp_call {B} c (f : answer c -> prog B) Q v : (forall a v', view_step c v a v' -> vwp (f a) Q v') -> vwp (invoke c ≫= f) Q v.
Proof.
  intros H w <-. apply wpr_call. intros w1 a w2 Hb Hd. apply does_view in Hd. rewrite (beside_view w w1 Hb) in Hd. by apply (H a (view_of w2)).
Qed.
Lemma vwp_perform c Q v : (forall a v', view_step c v a v' -> Q a v') -> vwp (invoke c) Q v.
Proof. intros H. apply (vwp_call c mret). intros a v' Hv. by apply vwp_ret, H. Qed.
Lemma vwp_then {A B} (p : prog A) (f : A -> prog B) (Q' : A -> view -> Prop) Q v :
  vwp p Q' v -> (forall a v', Q' a v' -> vwp (f a) Q v') -> vwp (p ≫= f) Q v.
Proof.
  intros Hp Hf w Hw. apply wpr_bind; [exact _|]. eapply wpr_mono; [|by apply Hp]. intros a w' H. by apply (Hf a (view_of w')).
Qed.
Lemma vwp_mono {A} (p : prog A) (Q Q' : A -> view -> Prop) v : (forall a v, Q a v -> Q' a v) -> vwp p Q v -> vwp p Q' v.
Proof. intros H Hp w Hw. eapply wpr_mono; [|by apply Hp]. cbn. auto. Qed.

(** Calls that leave the view alone. *)
Definition blind_call (c : call) : Prop := forall v a v', view_step c v a v' -> v' = v.
Lemma vwp_same {A} (p : prog A) v : all_calls blind_call p -> vwp p (fun _ v' => v' = v) v.
Proof.
  induction p as [a|c k IH]; [intros _; by apply vwp_ret|]. intros [Hc Hk]. change (Op c k) with (invoke c ≫= k).
  apply vwp_call. intros a v' Hv. rewrite (Hc v a v' Hv). by apply IH.
Qed.

(** ** Stop *)

Definition stop_post (startOriginal : bool) (v : view) (r : failure) (v' : view) : Prop :=
  v_stop v' = None /\ v_patches v' = v_patches v /\ v_replies v' = v_replies v /\ v_bin v' = v_bin v /\
  match r with
  | None => v_error v' = "" /\ (v_blind v' = false -> v_mounts v' = (v_mounts v - 1)%nat /\
      (startOriginal = true -> (0 < v_mounts v)%nat \/ v_svc v = Stopped -> v_svc v' = current (v_mounts v')))
  | Some e => v_error v' = e
  end.

(** The end of a stop: nothing but the service changes. *)
Lemma stop_tail_spec b v : vwp (stop_tail b) (fun r v' => v_stop v' = v_stop v /\ v_patches v' = v_patches v /\ v_replies v' = v_replies v /\ v_bin v' = v_bin v /\
  v_blind v' = v_blind v /\ v_mounts v' = v_mounts v /\
  match r with
  | None => v_error v' = "" /\ (b = true -> v_svc v' = match v_svc v with Stopped => current (v_mounts v) | s => s end)
  | Some e => v_error v' = e
  end) v.
Proof.
  unfold stop_tail. destruct b.
  - apply vwp_call. intros [e|] v1 Hv; cbn in Hv; [destruct Hv as [x ->]|subst v1]; apply vwp_call; intros [] v2 ->; by apply vwp_ret.
  - cbn [mbind prog_bind mret prog_ret]. apply vwp_call. intros [] v2 ->. by apply vwp_ret.
Qed.

Lemma stop_spec b v : vwp (stopDevuiScreenUpdate b) (stop_post b v) v.
Proof.
  unfold stopDevuiScreenUpdate. apply vwp_call. intros [] v1 ->.
  assert (Hr : forall p (v v' : view) e, p <> tmpPath -> view_step (Remove p) v e v' -> v' = v) by (by intros p ? ? ? Hp [->|[? _]]).
  apply vwp_call. intros e1 v1 ->%Hr; [|done]. apply vwp_call. intros e2 v1 ->%Hr; [|done].
  unfold isDevuiMounted. apply (vwp_call MountList (fun l => _)). intros l v1 Hl. cbn [mbind prog_bind mret prog_ret].
  set (v0 := v_set_mgr None (v_error v) v) in *.
  assert (H1 : v_stop v1 = None /\ v_patches v1 = v_patches v /\ v_replies v1 = v_replies v /\ v_bin v1 = v_bin v /\ v_mounts v1 = v_mounts v /\ v_svc v1 = v_svc v /\
    (v_blind v1 = false -> l = Some (0 <? v_mounts v)%nat)).
  { destruct l; cbn in Hl; [destruct Hl as [-> ->]|subst v1]; by split_and!. }
  destruct H1 as (S1 & P1 & R1 & B1 & M1 & V1 & L1). destruct (default false l) eqn:Hm.
  - apply vwp_call. intros [e|] v2 Hv2; cbn in Hv2; [destruct Hv2 as [x ->]|subst v2].
    { apply vwp_call. intros [] v3 ->. apply vwp_ret. by split_and!. }
    apply vwp_call. intros [e|] v2 Hv2; cbn in Hv2; [subst v2|destruct Hv2 as [Hpos ->]].
    { apply vwp_call. intros [] v3 ->. apply vwp_ret. by split_and!. }
    eapply vwp_mono; [|apply stop_tail_spec]. intros r v3 (S3 & P3 & R3 & B3 & X3 & M3 & Hr3). cbn in *.
    split_and!; [congruence..|]. destruct r as [e|]; [done|]. destruct Hr3 as [He Hs]. split; [done|]. intros Hx.
    split; [congruence|]. intros Hb _. rewrite (Hs Hb). congruence.
  - eapply vwp_mono; [|apply stop_tail_spec]. intros r v3 (S3 & P3 & R3 & B3 & X3 & M3 & Hr3).
    split_and!; [congruence..|]. destruct r as [e|]; [done|]. destruct Hr3 as [He Hs]. split; [done|]. intros Hx.
    rewrite X3 in Hx. rewrite (L1 Hx) in Hm. change ((0 <? v_mounts v)%nat = false) in Hm. apply Nat.ltb_ge in Hm. split; [lia|].
    intros Hb [?|Hst]; [lia|]. rewrite (Hs Hb), V1, Hst. congruence.
Qed.

(** ** The binary *)

Definition has_binary (v : view) : Prop := exists s, v_bin v = Some s /\ s <> [].
(** Nothing but the files changes. *)
Definition same_screen (v v' : view) : Prop :=
  v_mounts v' = v_mounts v /\ v_svc v' = v_svc v /\ v_stop v' = v_stop v /\ v_error v' = v_error v /\ v_blind v' = v_blind v /\
  v_patches v' = v_patches v /\ v_replies v' = v_replies v.
Definition ensured (v : view) (r : failure) (v' : view) : Prop := same_screen v v' /\ (r = None -> has_binary v').

Lemma chmod_spec text v v' : same_screen v v' -> has_binary v' -> vwp (chmodBinary text) (ensured v) v'.
Proof. intros Hs Hb. apply vwp_call. intros e v1 ->. apply vwp_ret. by split. Qed.

Lemma present_binary n (v v' : view) : view_step (Size devuiBinaryPath) v n v' -> present n = true -> v' = v /\ has_binary v.
Proof.
  intros [-> Hn] Hp. split; [done|]. destruct n as [n|]; [|done]. destruct Hn as (s & Hs & ->). exists s. split; [done|].
  intros ->. done.
Qed.

Lemma locked_spec force progress v : vwp (download_locked force progress) (ensured v) v.
Proof.
  unfold download_locked. eapply (vwp_then _ _ (fun n v' => v' = v /\ (present n = true -> has_binary v))).
  { destruct force; [by apply vwp_ret|]. apply vwp_perform. intros n v' Hv. split; [by destruct Hv|]. intros Hp. by eapply present_binary. }
  intros n v1 [-> Hn]. destruct (present n); [apply chmod_spec; [done|by apply Hn]|].
  apply vwp_call. intros [e|] v1 ->; [by apply vwp_ret|].
  apply vwp_call. intros [e|] v1 Hv; cbn in Hv.
  { subst v1. apply vwp_call. intros x v2 [->|[_ ->]]; by apply vwp_ret. }
  destruct Hv as (s & Hs & ->). apply vwp_call. intros [e|] v2 Hv; cbn in Hv; [subst v2; by apply vwp_ret|].
  destruct Hv as (s' & [= <-] & ->). apply chmod_spec; [done|]. by exists s.
Qed.

Lemma ensure_spec v : vwp ensureDevuiBinary (ensured v) v.
Proof.
  unfold ensureDevuiBinary. apply vwp_call. intros n v1 Hv. destruct (present n) eqn:Hp.
  - destruct (present_binary n v v1 Hv Hp) as [-> Hb]. by apply chmod_spec.
  - destruct Hv as [-> _]. unfold downloadDevuiBinaryFile. apply vwp_call. intros [] v1 ->.
    eapply vwp_then; [apply locked_spec|]. intros r v2 H. apply vwp_call. intros [] v3 ->. by apply vwp_ret.
Qed.

(** ** The wait ends *)

Lemma wait_loop_spec deadline v fuel : forall w, view_of w = v -> (0 < fuel)%nat -> deadline < clock w + (Z.of_nat fuel - 1) * interval ->
  wpr (does undef) beside (wait_loop fuel deadline) (fun r w' => r <> None /\ view_of w' = v) w.
Proof.
  induction fuel as [|fuel IH]; intros w Hw Hf Hd; [lia|]. cbn [wait_loop].
  assert (Hex : forall p w w' b, does undef (Exists p) w b w' -> w' = w) by (by intros p ? ? ? [-> _]).
  assert (Hend : forall (x : option failure) w', x <> None -> view_of w' = v ->
    wpr (does undef) beside (mret x) (fun r w' => r <> None /\ view_of w' = v) w').
  { intros x w' Hx Hv. apply wpr_ret. intros w2 Hb. by rewrite (beside_view w' w2 Hb). }
  apply wpr_call. intros w1 a w2 Hb1 Hd1. apply Hex in Hd1 as ->. pose proof (beside_view w w1 Hb1) as V1.
  assert (C1 : clock w <= clock w1) by apply Hb1.
  apply wpr_bind; [exact _|]. eapply (wpr_mono _ _ _ (fun (_ : bool) w' => view_of w' = v /\ clock w <= clock w')).
  2:{ destruct a; [apply wpr_perform|apply wpr_ret].
      - intros w3 b w4 w5 Hb3 Hd3 Hb5. apply Hex in Hd3 as ->. rewrite (beside_view w3 w5 Hb5), (beside_view w1 w3 Hb3), V1.
        split; [done|]. assert (clock w1 <= clock w3) by apply Hb3. assert (clock w3 <= clock w5) by apply Hb5. lia.
      - intros w3 Hb3. rewrite (beside_view w1 w3 Hb3), V1. split; [done|]. assert (clock w1 <= clock w3) by apply Hb3. lia. }
  cbv beta. intros b w3 [V3 C3]. destruct b; [by apply Hend|].
  apply wpr_call. intros w4 now w5 Hb4 (t & Ht & -> & ->). assert (C4 : clock w3 <= clock w4) by apply Hb4.
  pose proof (beside_view w3 w4 Hb4) as V4. destruct (Z.ltb_spec deadline t) as [|Hn]; [apply Hend; [done|]; change (view_of w4 = v); congruence|].
  apply wpr_call. intros w6 [] w7 Hb6 (t' & Ht' & ->). assert (C6 : t <= clock w6) by apply Hb6.
  pose proof (beside_view _ w6 Hb6) as V6. destruct fuel as [|fuel]; [lia|].
  apply IH; [change (view_of w6 = v); rewrite V6; change (view_of w4 = v); congruence|lia|]. cbn [clock set_clock]. unfold interval in *. lia.
Qed.

Lemma wait_spec v : vwp waitDevuiFilesReady (fun r v' => r <> None /\ v' = v) v.
Proof.
  intros w Hw. unfold waitDevuiFilesReady. apply wpr_call. intros w1 now w2 Hb (t & Ht & -> & ->).
  apply wait_loop_spec; [rewrite <- Hw; apply (beside_view w w1 Hb)|unfold wait_fuel; lia|].
  cbn [clock set_clock]. unfold wait_fuel, timeout, interval. lia.
Qed.

(** ** Start *)

Definition start_post (v : view) (r : option failure) (v' : view) : Prop :=
  v_patches v' = v_patches v /\ exists f, r = Some f /\
  match f with
  | None => has_binary v' /\ is_Some (v_stop v') /\ v_error v' = "" /\
      (v_blind v' = false -> (0 < v_mounts v' <= Nat.max 1 (v_mounts v))%nat /\ v_svc v' = Patched)
  | Some e => v_error v' = e /\ (v_stop v' = None \/ (v_mounts v' = v_mounts v /\ v_svc v' = v_svc v /\ v_stop v' = v_stop v))
  end.

Lemma give_up_spec (v0 : view) e v : v_patches v = v_patches v0 -> vwp (r ← give_up_start e; mret (Some r)) (start_post v0) v.
Proof.
  intros Hp. eapply (vwp_then _ _ (fun r v' => r = Some e /\ v_patches v' = v_patches v0 /\ v_stop v' = None /\ v_error v' = e)).
  - unfold give_up_start. eapply vwp_then; [apply stop_spec|]. intros r v1 (S1 & P1 & _ & _ & _). apply vwp_call. intros [] v2 ->.
    apply vwp_ret. split_and!; [done|cbn; congruence|done|done].
  - intros r v1 (-> & H1 & H2 & H3). apply vwp_ret. split; [done|]. exists (Some e). split; [done|]. split; [done|by left].
Qed.

Lemma start_spec v : vwp startDevuiScreenUpdate (start_post v) v.
Proof.
  unfold startDevuiScreenUpdate. eapply vwp_then; [apply ensure_spec|]. intros [e|] v1 [(M1 & V1 & S1 & E1 & X1 & P1 & _) Hb].
  { apply vwp_call. intros [] v2 ->. apply vwp_ret. split; [done|]. exists (Some e). split; [done|]. split; [done|by right]. }
  specialize (Hb eq_refl). apply vwp_call. intros c v2 Hv2.
  assert (H2 : is_Some (v_stop v2) /\ v_bin v2 = v_bin v1 /\ v_mounts v2 = v_mounts v /\ v_patches v2 = v_patches v).
  { cbn in Hv2. destruct (v_stop v1) eqn:Hs; [destruct Hv2 as [_ ->]|destruct Hv2 as (n & _ & ->)]; split_and!; try done; rewrite ?Hs; eauto. }
  clear Hv2. destruct H2 as (S2 & B2 & M2 & P2).
  eapply (vwp_then _ _ (fun _ v' => v' = v2)).
  { destruct c; [apply vwp_perform; by intros [] v' ->|by apply vwp_ret]. }
  intros [] v3 ->. eapply vwp_then; [apply wait_spec|]. intros r v3 [Hr ->]. destruct r as [[e|]|]; [by apply give_up_spec| |done].
  eapply (vwp_then _ _ (fun e v' => v_stop v' = v_stop v2 /\ v_bin v' = v_bin v1 /\ v_patches v' = v_patches v /\
    (e = None -> v_blind v' = false -> (0 < v_mounts v' <= Nat.max 1 (v_mounts v))%nat))).
  { unfold bindMountDevuiBinary, isDevuiMounted. apply (vwp_call MountList (fun l => _)). intros l v3 Hl.
    cbn [mbind prog_bind mret prog_ret].
    assert (H3 : v_stop v3 = v_stop v2 /\ v_bin v3 = v_bin v2 /\ v_patches v3 = v_patches v2 /\ v_mounts v3 = v_mounts v2 /\
      (v_blind v3 = false -> l = Some (0 <? v_mounts v2)%nat)).
    { destruct l; cbn in Hl; [destruct Hl as [-> ->]|subst v3]; by split_and!. }
    clear Hl. destruct H3 as (S3 & B3 & P3 & M3 & L3). destruct (default false l) eqn:Hm.
    - apply vwp_ret. split_and!; [congruence..|]. intros _ Hx. rewrite (L3 Hx) in Hm. change ((0 <? v_mounts v2)%nat = true) in Hm.
      apply Nat.ltb_lt in Hm. lia.
    - apply vwp_call. intros [e|] v4 Hv4; cbn in Hv4; subst v4; apply vwp_ret; split_and!; cbn; try congruence.
      intros _ Hx. rewrite (L3 Hx) in Hm. change ((0 <? v_mounts v2)%nat = false) in Hm. apply Nat.ltb_ge in Hm. lia. }
  intros [e|] v3 (S3 & B3 & P3 & M3); [by apply give_up_spec|]. specialize (M3 eq_refl).
  unfold restartDevuiService. apply (vwp_call ServiceRestart (fun l => _)). intros [e|] v4 Hv4; cbn in Hv4; cbn [mbind prog_bind mret prog_ret with_text option_map].
  { destruct Hv4 as [x ->]. by apply give_up_spec. }
  subst v4. apply vwp_call. intros [] v4 ->. apply vwp_ret. split; [done|]. exists None. split; [done|]. cbn. split_and!.
  - destruct Hb as (s & Hs & Hn). exists s. cbn. by rewrite B3.
  - by rewrite S3.
  - done.
  - intros Hx. specialize (M3 Hx). split; [done|]. unfold current. by rewrite (proj2 (Nat.ltb_lt _ _)) by lia.
Qed.

(** ** The wallpaper *)

Lemma status_spec v : vwp getDevuiStatus (fun s v' => v_mounts v' = v_mounts v /\ v_patches v' = v_patches v /\ v_replies v' = v_replies v /\
  Running s = Mounted s /\ (v_blind v' = false -> Mounted s = (0 <? v_mounts v)%nat) /\ (v_blind v' = false -> v_blind v = false)) v.
Proof.
  unfold getDevuiStatus. apply vwp_call. intros m v1 ->. apply (vwp_call (Exists _) (fun b => _)). intros a v1 ->.
  apply vwp_call. intros b v1 ->. unfold isDevuiMounted. apply (vwp_call MountList (fun l => _)). intros l v1 Hl.
  cbn [mbind prog_bind mret prog_ret].
  assert (H1 : v_mounts v1 = v_mounts v /\ v_patches v1 = v_patches v /\ v_replies v1 = v_replies v /\
    (v_blind v1 = false -> l = Some (0 <? v_mounts v)%nat) /\ (v_blind v1 = false -> v_blind v = false)).
  { destruct l; cbn in Hl; [destruct Hl as [-> ->]|subst v1]; by split_and!. }
  destruct H1 as (M1 & P1 & R1 & L1 & X1). apply (vwp_call (Exists _) (fun b => _)). intros c v2 ->.
  apply (vwp_call (Exists _) (fun b => _)). intros d v2 ->. apply vwp_ret. cbn. split_and!; try done. intros Hx. by rewrite (L1 Hx).
Qed.

(** What a request for a new wallpaper has done with its reply: patched once for
    the codes 0 and 7, not at all for the others. *)
Definition patched_once (v v' : view) : Prop :=
  exists m, v_patches v' = (v_patches v ++ [m])%list /\ (v_blind v' = false -> (v_mounts v <= 1)%nat -> m = 0%nat).
Definition code_tells (v : view) (code : Z) (v' : view) : Prop :=
  if bool_decide (code = 0 \/ code = 7) then patched_once v v' else v_patches v' = v_patches v.
Definition patches_at (v v' : view) : Prop :=
  exists code, v_replies v' = (v_replies v ++ [code])%list /\ code_tells v code v'.

Lemma code_tells_blind v code v' v2 :
  code_tells v code v' -> v_patches v2 = v_patches v' -> (v_blind v2 = false -> v_blind v' = false) -> code_tells v code v2.
Proof.
  unfold code_tells. case_bool_decide; [|congruence]. intros (m & Hm & H0) Hp Hb. exists m. split; [congruence|]. auto.
Qed.
Lemma reply_patches v0 code v : v_replies v = v_replies v0 -> code_tells v0 code v ->
  vwp (reply_status code) (fun _ => patches_at v0) v.
Proof.
  intros Hr Hp. unfold reply_status. eapply vwp_then; [apply status_spec|]. intros s v1 (_ & P1 & R1 & _ & _ & B1).
  apply vwp_perform. intros [] v2 ->. exists code. cbn. split; [congruence|]. by eapply code_tells_blind.
Qed.

Lemma wallpaper_spec u v : vwp (SystemDevuiWallpaperHandler u) (fun _ => patches_at v) v.
Proof.
  assert (Hr : forall code d, bool_decide (code = 0 \/ code = 7) = false -> vwp (invoke (JSON code d)) (fun _ => patches_at v) v).
  { intros code d Hc. apply vwp_perform. intros [] v1 ->. exists code. split; [done|]. unfold code_tells. by rewrite Hc. }
  destruct u as [|size opens img]; [by apply Hr|]. cbn [SystemDevuiWallpaperHandler]. destruct (_ <? size); [by apply Hr|].
  destruct opens; [|by apply Hr]. destruct img as [img|]; [|by apply Hr]. cbn [negb]. clear Hr.
  eapply vwp_then; [apply ensure_spec|]. intros [e|] v1 [(M1 & V1 & S1 & E1 & X1 & P1 & R1) _]; [by apply reply_patches|].
  eapply vwp_then; [apply status_spec|]. intros s v2 (M2 & P2 & R2 & Hs & L2 & _). rewrite Hs, orb_diag.
  eapply (vwp_then _ _ (fun e v' => v_patches v' = v_patches v /\ v_replies v' = v_replies v /\
    (e = None -> v_blind v' = false -> (v_mounts v <= 1)%nat -> v_mounts v' = 0%nat))).
  { destruct (Mounted s) eqn:Hm.
    - eapply vwp_mono; [|apply stop_spec]. intros r v3 (_ & P3 & R3 & _ & H3). split_and!; [congruence..|]. intros -> Hx Hle.
      destruct H3 as [_ H3]. destruct (H3 Hx) as [-> _]. lia.
    - apply vwp_ret. split_and!; [congruence..|]. intros _ Hx Hle. specialize (L2 Hx). symmetry in L2. apply Nat.ltb_ge in L2. lia. }
  intros [e|] v3 (P3 & R3 & M3); [by apply reply_patches|]. specialize (M3 eq_refl).
  apply vwp_call. intros e v4 [b ->].
  assert (Hp : patched_once v (v_add_patch b v3)) by (exists (v_mounts v3); cbn; split; [by rewrite P3|done]).
  destruct e; by apply reply_patches.
Qed.
End Views.

(** * Properties *)

(** Every request of the service. *)
Inductive request : prog unit -> Prop :=
| R_status : request SystemDevuiStatusHandler
| R_download : request SystemDevuiDownloadHandler
| R_download_status : request SystemDevuiDownloadStatusHandler
| R_control req : request (SystemDevuiControlHandler req)
| R_autostart req : request (SystemDevuiAutostartHandler req)
| R_wallpaper u : request (SystemDevuiWallpaperHandler u)
| R_preview : request SystemDevuiWallpaperPreviewHandler
| R_init : request InitDevuiAutostart.

(** The open channel is the one of the manager, and nothing was closed twice. *)
Definition channels_ok (w : world) : Prop :=
  panicked w = false /\ forall n, closed w !! n = Some false <-> m_stop (mgr w) = Some n.

Section Properties.
Context (undef : float64 -> Z).

Lemma channels_kept c w a w' : channels_ok w -> does undef c w a w' -> channels_ok w'.
Proof.
  intros [Hp Hn] Hd.
  assert (Hsame : forall v, panicked v = panicked w -> closed v = closed w -> m_stop (mgr v) = m_stop (mgr w) -> channels_ok v).
  { intros v H1 H2 H3. unfold channels_ok. by rewrite H1, H2, H3. }
  destruct c; cbn in Hd; try (by subst; apply Hsame); try (by destruct Hd as [-> _]; apply Hsame); try (by destruct Hd as [_ ->]; apply Hsame).
  - destruct (m_stop (mgr w)) as [n|] eqn:Hs; destruct Hd as [_ ->]; [by apply Hsame|]. split; [done|]. intros n. cbn.
    destruct (decide (n = length (closed w))) as [->|Hne].
    + rewrite lookup_app_r, Nat.sub_diag by lia. done.
    + rewrite lookup_app_Some, Hn. split; [intros [H|[Hl H]]; [done|]|intros [= H]; lia].
      apply list_lookup_singleton_Some in H as [H _]. lia.
  - subst. unfold disown. destruct (m_stop (mgr w)) as [n|] eqn:Hs.
    + assert (Ho : closed w !! n = Some false) by by apply Hn. rewrite Ho. split; [done|]. intros m. cbn.
      destruct (decide (m = n)) as [->|Hne]; [by rewrite list_lookup_insert_eq by (by eapply lookup_lt_Some)|].
      rewrite list_lookup_insert_ne, Hn by done. split; [intros [= H]; by subst|done].
    + split; [done|]. intros m. cbn. by rewrite Hn.
  - destruct Hd as (n1 & n2 & ->). by apply Hsame.
  - destruct Hd as (d & _ & Hd). destruct a; [by subst; apply Hsame|]. destruct Hd as (x & _ & ->). by apply Hsame.
  - destruct a; subst; [by apply Hsame|]. case_bool_decide; by apply Hsame.
  - destruct Hd as [->|[_ ->]]; by apply Hsame.
  - destruct a; [by subst; apply Hsame|]. destruct Hd as (x & _ & ->). by apply Hsame.
  - destruct a; [destruct Hd as [_ ->]|subst]; by apply Hsame.
  - destruct a; [subst|destruct Hd as [_ ->]]; by apply Hsame.
  - destruct a; [subst|destruct Hd as [_ ->]]; by apply Hsame.
  - destruct Hd as [Hk Hx]. destruct a; [destruct Hk as [x ->]|rewrite Hx by done]; by apply Hsame.
  - destruct Hd as [Hk Hx]. destruct a; [destruct Hk as [x ->]|rewrite Hx by done]; by apply Hsame.
  - destruct Hd as [Hk Hx]. destruct a; [destruct Hk as [x ->]|rewrite Hx by done]; by apply Hsame.
  - destruct Hd as (t & _ & _ & ->). by apply Hsame.
  - destruct Hd as (t & _ & ->). by apply Hsame.
  - destruct Hd as (r & p & _ & _ & ->). by apply Hsame.
Qed.
Lemma channels_keeps {A} (p : prog A) : keeps (does undef) channels_ok p.
Proof. induction p as [a|c k IH]; [done|]. intros w a w' Hw Hd. split; [by eapply channels_kept|apply IH]. Qed.



(** under every interleaving of requests, downloads and workers no stop channel
    is closed twice, and at most one is open: the one the next stop will close. *)
Theorem one_worker_channel (w0 : world) (s : world * list (prog unit)) :
  channels_ok w0 -> reachable (does undef) (forks undef) request w0 s -> channels_ok s.1.
Proof.
  intros H0 Hs. eapply reachable_inv; [exact Hs|exact H0| |]; intros; apply channels_keeps.
Qed.
End Properties.

Definition idle : world := mkWorld None None None ∅ 0 Original 0 (mkManager None false "") [] false (mkDownload "idle" "" 0 0 0 "") false false [] [].

Lemma one_worker_channel_witness : exists s, reachable (does (fun _ => 0)) (forks (fun _ => 0)) request idle s /\ s.2 <> [] /\ channels_ok s.1.
Proof.
  assert (Hs : reachable (does (fun _ => 0)) (forks (fun _ => 0)) request idle (idle, [SystemDevuiControlHandler (Some false)])).
  { apply rtc_once. apply (step_request _ _ _ idle [] (SystemDevuiControlHandler (Some false))). apply R_control. }
  exists (idle, [SystemDevuiControlHandler (Some false)]). split; [exact Hs|]. split; [discriminate|].
  apply (one_worker_channel (fun _ => 0) idle _); [|exact Hs]. split; [reflexivity|]. intros n. by destruct n.
Defined.
