(* ===== verification/SpeedTest.v ===== *)
(** The speed test ([speedtest.go]): the service fetches an address the browser
    names and passes the traffic on, unless the address leads to the router or its
    network.  The guard is repeated for every redirection; at most eight tests run
    at once. *)

From S2P Require Import Prelude.
From S2P Require Import GoInt.
From S2P Require Import GoStrings.
From S2P Require Import NetIP.
From S2P Require Import Threads.
Open Scope string_scope.
Open Scope Z_scope.

Definition defaultTrafficSpeedTestURL : string :=
  "https://autopatchcn.yuanshen.com/client_app/download/pc_zip/20211117173857_8JkfDHNPmqKi67qR/YuanShen_2.3.0.zip".
Definition speedTestMaxConcurrent : nat := 8.

(** * Addresses, [net.IP] *)

Definition octet (i : nat) (ip : list Z) : Z := nth i ip 0.
Definition sixteen (ip : list Z) : bool := (length ip =? 16)%nat.
Definition zeros (n : nat) : list Z := repeat 0 n.

Definition IsUnspecified (ip : list Z) : bool :=
  match To4 ip with Some ip4 => bool_decide (ip4 = zeros 4) | None => bool_decide (ip = zeros 16) end.
Definition IsLoopback (ip : list Z) : bool :=
  match To4 ip with Some ip4 => octet 0 ip4 =? 127 | None => bool_decide (ip = zeros 15 ++ [1])%list end.
Definition IsPrivate (ip : list Z) : bool :=
  match To4 ip with
  | Some ip4 => (octet 0 ip4 =? 10) || ((octet 0 ip4 =? 172) && (Z.land (octet 1 ip4) 0xf0 =? 16)) ||
                ((octet 0 ip4 =? 192) && (octet 1 ip4 =? 168))
  | None => sixteen ip && (Z.land (octet 0 ip) 0xfe =? 0xfc)
  end.
Definition IsMulticast (ip : list Z) : bool :=
  match To4 ip with
  | Some ip4 => Z.land (octet 0 ip4) 0xf0 =? 0xe0
  | None => sixteen ip && (octet 0 ip =? 0xff)
  end.
Definition IsLinkLocalMulticast (ip : list Z) : bool :=
  match To4 ip with
  | Some ip4 => (octet 0 ip4 =? 224) && (octet 1 ip4 =? 0) && (octet 2 ip4 =? 0)
  | None => sixteen ip && (octet 0 ip =? 0xff) && (Z.land (octet 1 ip) 0x0f =? 0x02)
  end.
Definition IsLinkLocalUnicast (ip : list Z) : bool :=
  match To4 ip with
  | Some ip4 => (octet 0 ip4 =? 169) && (octet 1 ip4 =? 254)
  | None => sixteen ip && (octet 0 ip =? 0xfe) && (Z.land (octet 1 ip) 0xc0 =? 0x80)
  end.

(** A nil address is an empty one. *)
Definition isBlockedSpeedTestIP (ip : list Z) : bool :=
  if bool_decide (ip = []) then true
  else IsUnspecified ip || IsLoopback ip || IsLinkLocalUnicast ip || IsLinkLocalMulticast ip || IsPrivate ip || IsMulticast ip.

(** * Programs *)

Record url := mkURL { Scheme : string; Host : string; Hostname : string }.
Inductive speed_error := Illegal | Protocol | NoHost | NoAddress | Blocked | TooManyRedirects | RequestFailed.

(** What the server of one hop answers. *)
Inductive hop := HopError | HopRedirect (target : string) | HopResponse (status length : Z) (content_type body : string).

Inductive answer_line := Refused (code : Z) (e : option speed_error) | Stream (content_type : string) (length : option Z) (body : string).

Inductive call :=
| Query | LookupIP (host : string)
| Acquire | Release          (** the limiter; [Acquire] does not wait *)
| Fetch (url : string)       (** the transport of the client *)
| Gone                       (** whether the browser has gone *)
| Reply (r : answer_line).
Definition answer (c : call) : Type :=
  match c with
  | Query => string
  | LookupIP _ => option (list (list Z))
  | Acquire | Gone => bool
  | Fetch _ => hop
  | _ => unit
  end.
Abbreviation prog := (@Threads.prog call answer).
Abbreviation invoke := (@perform call answer).

Section Handler.
(** [url.Parse]; a request can be made of every address it accepts or not. *)
Context (parse : string -> option url) (requestable : string -> bool).

Definition validateSpeedTestURL (raw : string) : prog (option speed_error) :=
  match parse raw with
  | None => mret (Some Illegal)
  | Some u =>
    if bool_decide (Scheme u = "") || bool_decide (Host u = "") then mret (Some Illegal)
    else if negb (bool_decide (Scheme u = "http")) && negb (bool_decide (Scheme u = "https")) then mret (Some Protocol)
    else if bool_decide (Hostname u = "") then mret (Some NoHost)
    else
      ips ← (invoke (LookupIP (Hostname u)) : prog (option (list (list Z))));
      mret match ips with
           | None | Some [] => Some NoAddress
           | Some ips => if existsb isBlockedSpeedTestIP ips then Some Blocked else None
           end
  end.

(** [CheckRedirect]: [via] requests have been made. *)
Definition check_redirect (target : string) (via : nat) : prog (option speed_error) :=
  if (5 <=? via)%nat then mret (Some TooManyRedirects) else validateSpeedTestURL target.

(** The client follows redirections; [fuel] is what is left of five. *)
Fixpoint client_do (fuel via : nat) (target : string) : prog (speed_error + hop) :=
  r ← (invoke (Fetch target) : prog hop);
  match r with
  | HopError => mret (inl RequestFailed)
  | HopResponse _ _ _ _ => mret (inr r)
  | HopRedirect next =>
    e ← check_redirect next (S via);
    match e, fuel with
    | Some e, _ => mret (inl e)
    | None, O => mret (inl RequestFailed)
    | None, S fuel => client_do fuel (S via) next
    end
  end.
Definition Do (target : string) : prog (speed_error + hop) := client_do 5 0 target.

Definition test (target : string) : prog unit :=
  if negb (requestable target) then invoke (Reply (Refused 400 (Some Illegal)))
  else
    r ← Do target;
    match r with
    | inr (HopResponse status length content_type body) =>
      if (status <? 200) || (300 <=? status) then invoke (Reply (Refused 502 None))
      else invoke (Reply (Stream (if bool_decide (content_type = "") then "application/octet-stream" else content_type)
                            (if 0 <? length then Some length else None) body))
    | inr _ => mret tt
    | inl e => g ← (invoke Gone : prog bool); if g : bool then mret tt else invoke (Reply (Refused 502 (Some e)))
    end.

Definition SpeedTestHandler : prog unit :=
  q ← (invoke Query : prog string);
  let target := if bool_decide (TrimSpace q = "") then defaultTrafficSpeedTestURL else TrimSpace q in
  e ← validateSpeedTestURL target;
  match e with
  | Some e => invoke (Reply (Refused 400 (Some e)))
  | None =>
    a ← (invoke Acquire : prog bool);
    if negb (a : bool) then invoke (Reply (Refused 429 None))
    else _ ← test target; invoke Release
  end.

(** * The limiter *)

Record world := mkWorld { tokens : nat; log : list call }.
Definition does (c : call) (w : world) : answer c -> world -> Prop :=
  match c with
  | Acquire => fun a w' => if (a : bool) then (tokens w < speedTestMaxConcurrent)%nat /\ w' = mkWorld (S (tokens w)) (log w)
                           else (speedTestMaxConcurrent <= tokens w)%nat /\ w' = w
  | Release => fun _ w' => (0 < tokens w)%nat /\ w' = mkWorld (tokens w - 1) (log w)
  | c => fun _ w' => w' = mkWorld (tokens w) (log w ++ [c])%list
  end.

(** A thread that holds [n] places: it fetches only with one, and gives it back. *)
Fixpoint owes {A} (n : nat) (p : prog A) : Prop :=
  match p with
  | Ret _ => n = 0%nat
  | Op c k =>
    match c as c return (answer c -> prog A) -> Prop with
    | Acquire => fun k => n = 0%nat /\ forall a : bool, owes (if a then 1 else 0)%nat (k a)
    | Release => fun k => n = 1%nat /\ forall a, owes 0 (k a)
    | Fetch _ => fun k => n = 1%nat /\ forall a, owes n (k a)
    | _ => fun k => forall a, owes n (k a)
    end k
  end.

(** The addresses of a host that were just answered, all of them open. *)
Definition open_addresses (a : option (list (list Z))) : bool :=
  match a with Some ((_ :: _) as ips) => negb (existsb isBlockedSpeedTestIP ips) | _ => false end.

(** A program that fetches an address only right after its host was looked up and
    found open, at most [n] times. *)
Fixpoint guarded {A} (n : nat) (host : option string) (p : prog A) : Prop :=
  match p with
  | Ret _ => True
  | Op c k =>
    match c as c return (answer c -> prog A) -> Prop with
    | LookupIP h => fun k => forall a, guarded n (if open_addresses a then Some h else None) (k a)
    | Fetch target => fun k =>
        (exists u, parse target = Some u /\ Scheme u ∈ ["http"; "https"] /\ Hostname u <> "" /\ host = Some (Hostname u)) /\
        (0 < n)%nat /\ forall a, guarded (n - 1) None (k a)
    | _ => fun k => forall a, guarded n host (k a)
    end k
  end.
End Handler.

(** * The guard *)

Section Guard.
Context (parse : string -> option url) (requestable : string -> bool).

Definition web (u : url) : Prop := Scheme u ∈ ["http"; "https"] /\ Hostname u <> "".

Definition no_fetch (c : call) : Prop := match c with Fetch _ => False | _ => True end.
Lemma guarded_no_fetch {A} (p : prog A) n h : all_calls no_fetch p -> guarded parse n h p.
Proof.
  revert n h. induction p as [a|c k IH]; intros n h; [done|]. intros [Hc Hk]. destruct c; try done; intros a; by apply IH.
Qed.

Lemma guarded_assoc {A B C} (p : prog A) (g : A -> prog B) (f : B -> prog C) n h :
  guarded parse n h (p ≫= (fun a => g a ≫= f)) -> guarded parse n h ((p ≫= g) ≫= f).
Proof.
  revert n h. induction p as [a|c k IH]; intros n h; [done|]. cbn [mbind prog_bind].
  destruct c; try (intros H a; by apply IH, H). intros (Hu & Hn & H). split; [done|]. split; [done|]. intros a. by apply IH, H.
Qed.

Lemma validate_guarded {B} raw n h (f : option speed_error -> prog B) :
  (forall e a, guarded parse n a (f (Some e))) ->
  (forall u, parse raw = Some u -> web u -> guarded parse n (Some (Hostname u)) (f None)) ->
  guarded parse n h (validateSpeedTestURL parse raw ≫= f).
Proof.
  intros He Hu. unfold validateSpeedTestURL. destruct (parse raw) as [u|] eqn:Hp; [|apply He].
  destruct (bool_decide (Scheme u = "") || bool_decide (Host u = "")); [apply He|].
  destruct (negb (bool_decide (Scheme u = "http")) && negb (bool_decide (Scheme u = "https"))) eqn:Hs; [apply He|].
  destruct (bool_decide (Hostname u = "")) eqn:Hh; [apply He|]. apply bool_decide_eq_false in Hh. intros a. cbn [mbind prog_bind mret prog_ret]. destruct a as [[|ip ips]|]; [apply He| |apply He].
  unfold open_addresses. destruct (existsb isBlockedSpeedTestIP (ip :: ips)) eqn:Hb; [apply He|]. apply Hu; [done|].
  split; [|done]. apply andb_false_iff in Hs as [Hs|Hs]; apply negb_false_iff, bool_decide_eq_true in Hs; rewrite Hs;
    [left|right; left].
Qed.

Lemma do_guarded {B} (f : speed_error + hop -> prog B) : (forall r n h, guarded parse n h (f r)) ->
  forall fuel via n target u, (via + n = 5)%nat -> (0 < n)%nat -> parse target = Some u -> web u ->
  guarded parse n (Some (Hostname u)) (client_do parse fuel via target ≫= f).
Proof.
  intros Hf. induction fuel as [|fuel IH]; intros via n target u Hn Hpos Hp [Hs Hh]; cbn [client_do];
    (split; [by exists u|]); (split; [done|]); intros r; cbn [mbind prog_bind]; destruct r as [|next|]; try apply Hf;
    apply guarded_assoc; unfold check_redirect; (destruct (Nat.leb_spec 5 (S via)) as [Hv|Hv]; [apply Hf|]);
    (apply validate_guarded; [intros e a; apply Hf|]); intros u' Hu' Hw; [apply Hf|].
  apply IH; [lia|lia|done|done].
Qed.

Lemma test_guarded target u : parse target = Some u -> web u -> guarded parse 5 (Some (Hostname u)) (_ ← test parse requestable target; invoke Release).
Proof.
  intros Hp Hw. unfold test. destruct (requestable target); [|by intros []]. cbn [negb]. apply guarded_assoc.
  apply do_guarded; [|lia|lia|done|done]. intros r n h. apply guarded_no_fetch.
  destruct r as [e|[|next|status length ct body]]; [split; [done|]; intros []; done|done|done|]. by destruct (_ || _).
Qed.

Lemma handler_guarded : guarded parse 5 None (SpeedTestHandler parse requestable).
Proof.
  intros q. cbn [mbind prog_bind]. apply validate_guarded; [intros e a; by intros []|]. intros u Hu Hw.
  intros a. cbn [mbind prog_bind]. destruct a; cbn [negb]; [by apply (test_guarded _ u)|by intros []].
Qed.
End Guard.

(** The addresses that are refused, by their first bytes. *)
Definition private_v4 (a b c d : Z) : bool :=
  ((a =? 0) && (b =? 0) && (c =? 0) && (d =? 0)) || (a =? 10) || (a =? 127) || ((a =? 169) && (b =? 254)) ||
  ((a =? 172) && (16 <=? b) && (b <=? 31)) || ((a =? 192) && (b =? 168)) || ((224 <=? a) && (a <=? 239)).

Lemma To4_mapped ip4 : length ip4 = 4%nat -> To4 (v4InV6Prefix ++ ip4) = Some ip4.
Proof. intros Hl. unfold To4. do 4 (destruct ip4 as [|? ip4]; [done|]). by destruct ip4. Qed.

(** The networks that are named by four bits of a byte. *)
Lemma high_nibble v : is_byte v ->
  (Z.land v 0xf0 =? 16) = (16 <=? v) && (v <=? 31) /\ (Z.land v 0xf0 =? 0xe0) = (224 <=? v) && (v <=? 239).
Proof.
  intros Hv. apply (bytes_all (fun v => Bool.eqb (Z.land v 0xf0 =? 16) ((16 <=? v) && (v <=? 31)) &&
    Bool.eqb (Z.land v 0xf0 =? 0xe0) ((224 <=? v) && (v <=? 239)))) in Hv; [|reflexivity].
  by apply andb_true_iff in Hv as [?%eqb_prop ?%eqb_prop].
Qed.

Lemma blocked_v4 a b c d : is_byte a -> is_byte b ->
  isBlockedSpeedTestIP [a; b; c; d] = private_v4 a b c d /\ isBlockedSpeedTestIP (v4InV6Prefix ++ [a; b; c; d]) = private_v4 a b c d.
Proof.
  intros Ha Hb.
  assert (H : forall ip, ip <> [] -> To4 ip = Some [a; b; c; d] -> isBlockedSpeedTestIP ip = private_v4 a b c d).
  { intros ip Hn Hip. unfold isBlockedSpeedTestIP, IsUnspecified, IsLoopback, IsLinkLocalUnicast, IsLinkLocalMulticast, IsPrivate, IsMulticast.
    rewrite bool_decide_eq_false_2, Hip by done. unfold octet. cbn [nth].
    rewrite (proj1 (high_nibble b Hb)), (proj2 (high_nibble a Ha)).
    assert (bool_decide ([a; b; c; d] = zeros 4) = (a =? 0) && (b =? 0) && (c =? 0) && (d =? 0)) as ->.
    { case_bool_decide as He; [by injection He as -> -> -> ->|]. symmetry. apply not_true_iff_false. rewrite !andb_true_iff, !Z.eqb_eq.
      intros [[[-> ->] ->] ->]. done. }
    unfold private_v4, in_range in *. apply eq_true_iff_eq. rewrite !orb_true_iff, !andb_true_iff, !Z.eqb_eq, !Z.leb_le. lia. }
  split; apply H; try done; by apply To4_mapped.
Qed.

(** The same of an address of sixteen bytes that is no mapped one: none at all, the
    loopback, [fe80::/10], [fc00::/7] and [ff00::/8]. *)
Definition private_v6 (ip : list Z) : bool :=
  bool_decide (ip = repeat 0 16) || bool_decide (ip = (repeat 0 15 ++ [1])%list) ||
  ((nth 0 ip 0 =? 254) && (128 <=? nth 1 ip 0) && (nth 1 ip 0 <=? 191)) ||
  ((nth 0 ip 0 =? 252) || (nth 0 ip 0 =? 253)) || (nth 0 ip 0 =? 255).

(** The networks that are named by the high bits of a byte. *)
Lemma high_bits v : is_byte v ->
  (Z.land v 0xc0 =? 0x80) = (128 <=? v) && (v <=? 191) /\ (Z.land v 0xfe =? 0xfc) = (v =? 252) || (v =? 253).
Proof.
  intros Hv. apply (bytes_all (fun v => Bool.eqb (Z.land v 0xc0 =? 0x80) ((128 <=? v) && (v <=? 191)) &&
    Bool.eqb (Z.land v 0xfe =? 0xfc) ((v =? 252) || (v =? 253)))) in Hv; [|reflexivity].
  by apply andb_true_iff in Hv as [?%eqb_prop ?%eqb_prop].
Qed.

Lemma blocked_v6 ip : length ip = 16%nat -> Forall is_byte ip -> take 12 ip <> v4InV6Prefix -> isBlockedSpeedTestIP ip = private_v6 ip.
Proof.
  intros Hl Hb Hp. assert (H4 : To4 ip = None) by (unfold To4; by rewrite Hl, bool_decide_eq_false_2).
  assert (Hn : forall i, is_byte (nth i ip 0)).
  { intros i. destruct (le_lt_dec (length ip) i) as [Hi|Hi]; [by rewrite nth_overflow|]. rewrite List.Forall_forall in Hb. by apply Hb, nth_In. }
  unfold isBlockedSpeedTestIP, IsUnspecified, IsLoopback, IsLinkLocalUnicast, IsLinkLocalMulticast, IsPrivate, IsMulticast.
  rewrite bool_decide_eq_false_2, H4, ?Hl by (intros ->; done). unfold octet, private_v6.
  assert (sixteen ip = true) as -> by (unfold sixteen; by rewrite Hl). cbn [andb].
  rewrite (proj1 (high_bits _ (Hn 1%nat))), (proj2 (high_bits _ (Hn 0%nat))), andb_assoc.
  change (zeros 16) with (repeat 0 16). change (zeros 15) with (repeat 0 15).
  destruct (nth 0 ip 0 =? 255); rewrite ?orb_true_r; [done|]. by rewrite !orb_false_r.
Qed.

(** * The limiter *)

Section Limiter.
Context (parse : string -> option url) (requestable : string -> bool).

Definition unlimited (c : call) : Prop := match c with Acquire | Release => False | _ => True end.
Lemma owes_holder {A B} (p : prog A) (f : A -> prog B) : all_calls unlimited p -> (forall a, owes 1 (f a)) -> owes 1 (p ≫= f).
Proof.
  intros Hp Hf. induction p as [a|c k IH]; [apply Hf|]. destruct Hp as [Hc Hk]. cbn [mbind prog_bind].
  destruct c; try done; cbn [owes]; try (intros a; by apply IH). split; [done|]. intros a. by apply IH.
Qed.
Lemma owes_nothing {A B} (p : prog A) (f : A -> prog B) :
  all_calls (fun c => unlimited c /\ no_fetch c) p -> (forall a, owes 0 (f a)) -> owes 0 (p ≫= f).
Proof.
  intros Hp Hf. induction p as [a|c k IH]; [apply Hf|]. destruct Hp as [[Hc Hn] Hk]. cbn [mbind prog_bind].
  destruct c; try done; cbn [owes]; intros a; by apply IH.
Qed.

Lemma validate_calls raw (P : call -> Prop) : (forall h, P (LookupIP h)) -> all_calls P (validateSpeedTestURL parse raw).
Proof.
  intros HP. unfold validateSpeedTestURL. destruct (parse raw) as [u|]; [|done].
  destruct (bool_decide (Scheme u = "") || _); [done|]. destruct (_ && _); [done|]. destruct (bool_decide (Hostname u = "")); [done|].
  by split.
Qed.
Lemma do_unlimited fuel : forall via target, all_calls unlimited (client_do parse fuel via target).
Proof.
  induction fuel as [|fuel IH]; intros via target; cbn [client_do]; (split; [done|]); intros r; cbn [mbind prog_bind];
    destruct r as [|next|]; try done; unfold check_redirect; (apply all_calls_bind;
    [destruct (5 <=? S via)%nat; [done|by apply validate_calls]|]); intros [e|]; done.
Qed.
Lemma test_unlimited target : all_calls unlimited (test parse requestable target).
Proof.
  unfold test. destruct (negb _); [by split|]. apply all_calls_bind; [apply do_unlimited|].
  intros [e|[|next|status length ct body]]; [split; [done|]; intros []; done|done|done|]. by destruct (_ || _).
Qed.
Lemma handler_owes : owes 0 (SpeedTestHandler parse requestable).
Proof.
  intros q. cbn [mbind prog_bind]. apply owes_nothing; [by apply validate_calls|]. intros [e|]; [by intros []|].
  split; [done|]. intros a. cbn [mbind prog_bind]. destruct a; cbn [negb]; [|by intros []].
  apply owes_holder; [apply test_unlimited|]. intros []. by split.
Qed.
End Limiter.

Lemma sum_list_insert (l : list nat) i n m : l !! i = Some n -> (sum_list (<[i:=m]> l) + n = sum_list l + m)%nat.
Proof.
  revert i. induction l as [|x l IH]; intros [|i] Hi; [done|done| |].
  - injection Hi as ->. cbn. lia.
  - specialize (IH i Hi). change (<[S i:=m]> (x :: l)) with (x :: <[i:=m]> l); simpl in *; lia.
Qed.

(** Every thread gives back what it holds, and the limiter has counted it. *)
Definition accounted (s : world * list (prog unit)) : Prop :=
  exists held, Forall2 owes held s.2 /\ tokens s.1 = sum_list held /\ (tokens s.1 <= speedTestMaxConcurrent)%nat.

Section Reach.
Context (parse : string -> option url) (requestable : string -> bool).
Definition test_request (p : prog unit) : Prop := p = SpeedTestHandler parse requestable.
Abbreviation next := (step does (fun _ => []) test_request).

Lemma accounted_step s s' : next s s' -> accounted s -> accounted s'.
Proof.
  intros Hs (held & Hh & Ht & Hle). destruct Hs as [w ts i c k a w' Hi Hd|w ts p ->]; cbn [fst snd] in *.
  - rewrite app_nil_r. destruct (Forall2_lookup_r _ _ _ _ _ Hh Hi) as (n & Hn & Ho).
    assert (Hput : forall m, owes m (k a) -> tokens w' = (sum_list (<[i:=m]> held))%nat -> (tokens w' <= speedTestMaxConcurrent)%nat ->
      accounted (w', <[i:=k a]> ts)).
    { intros m Hm Hw Hl. exists (<[i:=m]> held). split; [by apply Forall2_insert|done]. }
    assert (Hsame : tokens w' = tokens w -> owes n (k a) -> accounted (w', <[i:=k a]> ts)).
    { intros He Hk. apply (Hput n Hk); [|by rewrite He]. rewrite He, list_insert_id by done. done. }
    destruct c; cbn in Ho, Hd; try (subst w'; apply Hsame; [done|apply Ho]).
    + destruct Ho as [-> Ho]. specialize (Ho a). pose proof (sum_list_insert held i 0 1 Hn).
      destruct a; [destruct Hd as [Hlt ->]|destruct Hd as [_ ->]]; [|by apply Hsame]. apply (Hput 1%nat Ho); cbn in *; lia.
    + destruct Ho as [-> Ho]. specialize (Ho a). pose proof (sum_list_insert held i 1 0 Hn). destruct Hd as [Hp ->].
      apply (Hput 0%nat Ho); cbn in *; lia.
  - exists (held ++ [0%nat])%list. split; [|split; [|done]].
    + apply Forall2_app; [done|]. constructor; [apply handler_owes|constructor].
    + rewrite (sum_list_with_app id). cbn. lia.
Qed.
Lemma accounted_reachable s : reachable does (fun _ => []) test_request (mkWorld 0 []) s -> accounted s.
Proof.
  unfold reachable. remember (mkWorld 0 [], []) as s0 eqn:E. intros Hs. assert (H0 : accounted s0).
  { subst. exists []. split; [constructor|]. split; [done|]. cbn. lia. }
  clear E. induction Hs as [s|s1 s2 s3 Hstep _ IH]; [done|]. apply IH. by eapply accounted_step.
Qed.
End Reach.

(** * Properties *)

(** C24: whatever the browser sends and the servers answer, an address is fetched
    only right after its host was looked up and all its addresses found open, at
    most five for one request.  Refused are: the address that is none, and exactly
    these others: of the IPv4 addresses, also mapped into IPv6, the router's own,
    the private, link-local and multicast networks; of the other IPv6 addresses
    the unspecified one, the loopback, the link-local, unique local and multicast
    networks. *)
Theorem speedtest_guarded (parse : string -> option url) (requestable : string -> bool) :
  guarded parse 5 None (SpeedTestHandler parse requestable) /\
  isBlockedSpeedTestIP [] = true /\
  (forall a b c d, is_byte a -> is_byte b ->
     isBlockedSpeedTestIP [a; b; c; d] = private_v4 a b c d /\ isBlockedSpeedTestIP (v4InV6Prefix ++ [a; b; c; d])%list = private_v4 a b c d) /\
  (forall ip, length ip = 16%nat -> Forall is_byte ip -> take 12 ip <> v4InV6Prefix -> isBlockedSpeedTestIP ip = private_v6 ip).
Proof. split; [apply handler_guarded|]. split; [done|]. split; [intros a b c d; apply blocked_v4|intros ip; apply blocked_v6]. Qed.

Lemma speedtest_guarded_witness :
  isBlockedSpeedTestIP [192; 168; 0; 1] = true /\ isBlockedSpeedTestIP ([254; 128] ++ repeat 0 13 ++ [1])%list = true.
Proof.
  destruct (speedtest_guarded (fun _ => None) (fun _ => true)) as (_ & _ & H4 & H6). split.
  - rewrite (proj1 (H4 192 168 0 1 ltac:(unfold is_byte; lia) ltac:(unfold is_byte; lia))). reflexivity.
  - rewrite H6; [reflexivity|reflexivity| |discriminate]. repeat constructor; unfold is_byte; lia.
Defined.

(** The ends of the networks. *)
Example ipv6_blocked : (fun s => isBlockedSpeedTestIP <$> ParseIP s) <$>
  ["::"; "::1"; "::2"; "fe80::1"; "febf::1"; "fec0::1"; "fc00::1"; "fdff::1"; "fe00::1"; "ff02::1"; "2001:db8::1"; "::ffff:10.0.0.1"; "::ffff:8.8.8.8"] =
  Some <$> [true; true; false; true; true; false; true; true; false; true; false; true; false].
Proof. vm_compute. reflexivity. Qed.

(** C25: under every interleaving of requests at most eight tests hold a place of the
    limiter, every request that got one gives it back, and only those fetch. *)
Theorem speedtest_limited (parse : string -> option url) (requestable : string -> bool) (s : world * list (prog unit)) :
  reachable does (fun _ => []) (test_request parse requestable) (mkWorld 0 []) s -> accounted s.
Proof. apply accounted_reachable. Qed.

Lemma speedtest_limited_witness : exists s : world * list (prog unit),
  reachable does (fun _ => []) (test_request (fun _ => None) (fun _ => true)) (mkWorld 0 []) s /\ s.2 <> [] /\ accounted s.
Proof.
  assert (Hs : reachable does (fun _ => []) (test_request (fun _ => None) (fun _ => true)) (mkWorld 0 [])
    (mkWorld 0 [], [SpeedTestHandler (fun _ => None) (fun _ => true)])) by (apply rtc_once; by apply (step_request _ _ _ (mkWorld 0 []) [])).
  eexists. split; [exact Hs|]. split; [discriminate|]. by apply (speedtest_limited (fun _ => None) (fun _ => true)).
Defined.
