(* ===== verification/DevInfo.v ===== *)
(** The status line of the screen ([devinfo.go], the quality class of
    [zwrt_net_ambr.go]): every second four values are read from several sources,
    each with a fallback, and written as one text. *)

From S2P Require Import Prelude.
From S2P Require Import GoInt.
From S2P Require Import GoFloat.
From S2P Require Import GoStrings.
From S2P Require Import GoStrconv.
From S2P Require Import Json.
From stdpp Require Import gmap strings.
Open Scope string_scope.
Open Scope Z_scope.

Record cpuTimes := mkCPU { total : Z; idle : Z }.
Record devInfoValues := mkValues { temperature : Z; cpuUsage : Z; ramUsage : Z; qci : Z }.

(** * Texts of the kernel *)

(** [/proc/stat]: the first line; at most eight counters. *)
Fixpoint parse_counters (fields : list string) : option (list Z) :=
  match fields with
  | [] => Some []
  | f :: fields => v ← ParseUint f 10 64; l ← parse_counters fields; Some (v :: l)
  end.
Definition sum64 (l : list Z) : Z := fold_left (fun acc v => u64 (acc + v)) l 0.
Definition parseCPUTimes (data : string) : option cpuTimes :=
  let fields := Fields (hd "" (Split1 data (chr 10))) in
  if (length fields <? 5)%nat || negb (bool_decide (hd "" fields = "cpu")) then None
  else
    counters ← parse_counters (tail (take 9 fields));
    let idle := nth 3 counters 0 in
    Some (mkCPU (sum64 counters) (if (4 <? length counters)%nat then u64 (idle + nth 4 counters 0) else idle)).

(** [/proc/meminfo]: the values by their names. *)
Definition meminfo_line (values : gmap string Z) (line : string) : gmap string Z :=
  match Fields line with
  | name :: number :: _ =>
    match ParseUint number 10 64 with Some v => <[TrimSuffix name ":" := v]> values | None => values end
  | _ => values
  end.
Definition meminfo (lines : list string) : gmap string Z := fold_left meminfo_line lines ∅.

(** [\s] of a pattern. *)
Definition re_space (c : ascii) : bool := (ord c =? 9) || (ord c =? 10) || (ord c =? 12) || (ord c =? 13) || (ord c =? 32).
(** What [qciValuePattern] matches at the front: the digits and the rest. *)
Definition qci_at (l : list ascii) : option (list ascii * list ascii) :=
  let name := ToLower (of_chars (take 3 l)) in
  if bool_decide (name = "qci") || bool_decide (name = "5qi") then
    let l := drop_while re_space (drop 3 l) in
    let l := match l with c :: l' => if (ord c =? 58) || (ord c =? 61) then l' else l | [] => [] end in
    match span is_digit (drop_while re_space l) with ([], _) => None | r => Some r end
  else None.
(** The first [n] matches. *)
Fixpoint qci_matches (fuel n : nat) (l : list ascii) : list string :=
  match fuel, n, l with
  | S fuel, S n', _ :: l' =>
    match qci_at l with
    | Some (digits, rest) => of_chars digits :: qci_matches fuel n' rest
    | None => qci_matches fuel n l'
    end
  | _, _, _ => []
  end.
(** [Atoi] with its error dropped: a number that does not fit is the greatest one. *)
Definition atoi_saturated (s : string) : Z := match Atoi s with Some v => v | None => 2 ^ 63 - 1 end.
Definition parseQci (line : string) : Z * Z :=
  match qci_matches (strlen line) 2 (chars line) with
  | [] => (0, 0)
  | [a] => (atoi_saturated a, 0)
  | a :: b :: _ => (atoi_saturated a, atoi_saturated b)
  end.
Definition readLatestQCI (line : option string) : option Z :=
  match line with
  | None => None
  | Some line =>
    let '(qci1, qci2) := parseQci line in
    if 0 <? qci2 then Some qci2 else if 0 <? qci1 then Some qci1 else None
  end.

(** * Usage *)

(** A member of an object, the last of its name. *)
Definition member (key : string) (v : json) : option json :=
  match v with VObject l => snd <$> List.find (fun p => bool_decide (p.1 = key)) (rev l) | _ => None end.
(** [None] is also a member [null], which the map holds as nil. *)
Definition numericValue (v : option json) : option float64 :=
  match v with
  | Some (VNumber item) => ParseFloat item
  | Some (VString _ s) => ParseFloat (TrimSpace s)
  | _ => None
  end.

(** [math.Round] on floats. *)
Definition Round (f : float64) : float64 := match f with S754_finite _ _ _ => f_of_Z (f_round f) | _ => f end.

Section Usage.
(** [int(f)] of what does not fit is left open by the language. *)
Context (undef : float64 -> Z).
Definition int_of (f : float64) : Z :=
  match f with
  | S754_zero _ => 0
  | S754_finite _ _ _ => let n := f_trunc f in if (- 2 ^ 63 <=? n) && (n <? 2 ^ 63) then n else undef f
  | _ => undef f
  end.

Definition clampUsage (value : float64) : Z :=
  if fltb value (f_of_Z 0) then 0 else if fltb (f_of_Z 100) value then 100 else int_of value.

Definition calculateCPUUsage (previous current : cpuTimes) : option Z :=
  if (total current <=? total previous) || (idle current <? idle previous) then None
  else
    let totalDelta := u64 (total current - total previous) in
    let idleDelta := u64 (idle current - idle previous) in
    if totalDelta <? idleDelta then None
    else Some (clampUsage (Round (fdiv (fmul (f_of_Z (u64 (totalDelta - idleDelta))) (f_of_Z 100)) (f_of_Z totalDelta)))).

Definition memory_usage (values : gmap string Z) : option Z :=
  let get k := default 0 (values !! k) in
  let total := get "MemTotal" in
  if total =? 0 then None
  else
    let available := match values !! "MemAvailable" with
                     | Some a => a
                     | None => u64 (u64 (get "MemFree" + get "Buffers") + get "Cached")
                     end in
    let available := if total <? available then total else available in
    Some (clampUsage (Round (fdiv (fmul (f_of_Z (u64 (total - available))) (f_of_Z 100)) (f_of_Z total)))).
(** The lines of the file, unless reading it failed. *)
Definition readRAMUsage (lines : option (list string)) : option Z :=
  match lines with Some lines => memory_usage (meminfo lines) | None => None end.

Definition parseFrontendDeviceUsage (data : json) : option (Z * Z) :=
  match member "cpuinfo" data with
  | Some (VArray (VObject cpu :: _)) =>
    idle ← numericValue (member "idle" (VObject cpu));
    match member "meminfo" data with
    | Some (VObject mem) =>
      totalRAM ← numericValue (member "total" (VObject mem));
      if fleb totalRAM (f_of_Z 0) then None
      else
        let available := match member "avaliable" (VObject mem) with
                         | None | Some VNull => member "available" (VObject mem)
                         | v => v
                         end in
        availableRAM ← numericValue available;
        Some (clampUsage (Round (fsub (f_of_Z 100) idle)),
              clampUsage (Round (fdiv (fmul (fsub totalRAM availableRAM) (f_of_Z 100)) totalRAM)))
    | _ => None
    end
  | _ => None
  end.

(** * Temperature *)

Definition readCPUTemperatureFromUbus (data : json) : option Z :=
  match member "cpuss_temp" data with
  | Some (VNumber item) => f ← ParseFloat item; Some (int_of (Round f))
  | Some (VString _ s) => f ← ParseFloat (TrimSpace s); Some (int_of (Round f))
  | _ => None
  end.

(** The zones: the texts of [type] and [temp], unless reading one failed. *)
Definition zone : Type := option string * option string.
Definition zone_temperature (z : zone) : option Z :=
  match z with
  | (Some kind, Some temp) =>
    if HasPrefix (ToLower (TrimSpace kind)) "cpuss" then
      t ← ParseInt (TrimSpace temp) 10 64;
      if (t <? 0) || (200000 <? t) then None else Some t
    else None
  | _ => None
  end.
Definition hotter (acc : option Z) (z : zone) : option Z :=
  match zone_temperature z, acc with
  | Some t, Some best => Some (if best <? t then t else best)
  | Some t, None => Some t
  | None, _ => acc
  end.
Definition readCPUSysfsTemperature (zones : list zone) : option Z :=
  match fold_left hotter zones None with
  | Some milli => Some (int_of (Round (fdiv (f_of_Z milli) (f_of_Z 1000))))
  | None => None
  end.

(** * One round of the writer *)

(** What the sources answer. *)
Record inputs := mkInputs {
  in_stat : option string; in_device : option json; in_meminfo : option (list string);
  in_thermal : option json; in_zones : list zone; in_qci : option string }.

Definition readCPUTemperature (i : inputs) : option Z :=
  match in_thermal i ≫= readCPUTemperatureFromUbus with Some t => Some t | None => readCPUSysfsTemperature (in_zones i) end.

Definition formatDevInfo (v : devInfoValues) : string :=
  Itoa (temperature v) +++ "°" +++ String (chr 10) ("CPU " +++ Itoa (cpuUsage v) +++ "%") +++
  String (chr 10) ("RAM " +++ Itoa (ramUsage v) +++ "%") +++ String (chr 10) ("QCI " +++ Itoa (qci v) +++ String (chr 10) "").

(** One tick: the processor times kept, the values, and the text written. *)
Definition tick (previousCPU : cpuTimes) (values : devInfoValues) (i : inputs) : cpuTimes * devInfoValues * string :=
  let currentCPU := in_stat i ≫= parseCPUTimes in
  let fallback := match currentCPU with
                  | Some c => default (cpuUsage values) (calculateCPUUsage previousCPU c)
                  | None => cpuUsage values
                  end in
  let previousCPU := default previousCPU currentCPU in
  let '(cpu, ram) := match in_device i ≫= parseFrontendDeviceUsage with
                     | Some usage => usage
                     | None => (fallback, default (ramUsage values) (readRAMUsage (in_meminfo i)))
                     end in
  let temperature := default (temperature values) (readCPUTemperature i) in
  let qci := match readLatestQCI (in_qci i) with Some q => if 0 <? q then q else qci values | None => qci values end in
  let values := mkValues temperature cpu ram qci in
  (previousCPU, values, formatDevInfo values).

(** The writer from its start, over what its ticks read. *)
Fixpoint runDevInfoWriter (previousCPU : cpuTimes) (values : devInfoValues) (l : list inputs) : list (devInfoValues * string) :=
  match l with
  | [] => []
  | i :: l => let '(p, v, text) := tick previousCPU values i in (v, text) :: runDevInfoWriter p v l
  end.
End Usage.

(** * What is shown *)

Section Shown.
Context (undef : float64 -> Z).

(** Whatever is rounded and clamped lies in 0..100, but for a NaN, which passes both
    comparisons: the language leaves open what its conversion gives. *)
Definition percentage (v : Z) : Prop := 0 <= v <= 100.
Definition usage (v : Z) : Prop := percentage v \/ v = undef S754_nan.
Ltac in_range := (try left); vm_compute; split; discriminate.

Lemma clamp_beyond k : 2 ^ 53 <= k -> usage (clampUsage undef (f_of_Z k)).
Proof.
  intros Hk. pose proof (f_of_Z_beyond k Hk) as H. unfold clampUsage, fltb.
  destruct (f_of_Z k) as [s|[]| |[] m e]; cbn in H; [destruct s; in_range|in_range|in_range|by right|by destruct H|].
  replace (SFltb (S754_finite false m e) (f_of_Z 0)) with false by reflexivity. rewrite f_of_Z_exact by lia.
  unfold float_of, SFltb. cbn [SFcompare]. change (Z.log2 100 - 52) with (-46).
  destruct (Z.compare_spec (-46) e); [lia|left; done|lia].
Qed.
Lemma clamp_below k : k < 0 -> usage (clampUsage undef (f_of_Z k)).
Proof.
  intros Hk. pose proof (f_of_Z_negative k Hk) as H. unfold clampUsage.
  destruct (f_of_Z k) as [s|[]| |[] m e]; cbn in H; try (by destruct H); try destruct s; first [by right|in_range].
Qed.
Lemma float_of_above_100 k : 0 < k < 2 ^ 53 -> fltb (f_of_Z 100) (float_of k) = (100 <? k).
Proof. intros Hk. rewrite f_of_Z_exact by lia. apply float_of_ltb; lia. Qed.
Lemma clamp_between k : 0 <= k < 2 ^ 53 -> percentage (clampUsage undef (f_of_Z k)).
Proof.
  intros Hk. destruct (decide (k = 0)) as [->|]; [in_range|]. rewrite (f_of_Z_exact k) by lia.
  unfold clampUsage. rewrite float_of_above_100 by lia. replace (fltb (float_of k) (f_of_Z 0)) with false by reflexivity.
  destruct (Z.ltb_spec 100 k); [unfold percentage; lia|].
  replace (int_of undef (float_of k)) with k; [unfold percentage; lia|].
  pose proof (f_trunc_exact k ltac:(lia)) as Ht. unfold float_of, int_of in *. rewrite Ht.
  by rewrite (proj2 (Z.leb_le _ _)), (proj2 (Z.ltb_lt _ _)) by lia.
Qed.
Lemma clamp_round f : usage (clampUsage undef (Round f)).
Proof.
  destruct f as [s|[]| |s m e]; unfold Round; [destruct s; in_range|in_range..|by right|].
  set (k := f_round _). destruct (Z.lt_ge_cases k 0); [by apply clamp_below|].
  destruct (Z.lt_ge_cases k (2 ^ 53)); [left; by apply clamp_between|by apply clamp_beyond].
Qed.

Lemma cpu_range p c v : calculateCPUUsage undef p c = Some v -> usage v.
Proof. unfold calculateCPUUsage. destruct (_ || _); [done|]. destruct (_ <? _); [done|]. intros [= <-]. by apply clamp_round. Qed.
Lemma ram_range l v : readRAMUsage undef l = Some v -> usage v.
Proof.
  destruct l; [|done]. unfold readRAMUsage, memory_usage. destruct (_ =? 0); [done|]. intros [= <-]. by apply clamp_round.
Qed.
Lemma device_range d c r : parseFrontendDeviceUsage undef d = Some (c, r) -> usage c /\ usage r.
Proof.
  unfold parseFrontendDeviceUsage. destruct (member "cpuinfo" d) as [cpuinfo|]; [|done].
  destruct cpuinfo as [| | | |[|cpu ?]|]; try done. destruct cpu; try done.
  intros (idle & _ & H')%bind_Some. destruct (member "meminfo" d) as [mem|]; [|done]. destruct mem; try done.
  apply bind_Some in H' as (total & _ & H'). destruct (fleb _ _); [done|].
  apply bind_Some in H' as (available & _ & [= <- <-]). split; by apply clamp_round.
Qed.

(** What a source answered last, [d] before it has answered. *)
Definition latest {A} (f : inputs -> option A) (d : A) (l : list inputs) : A := fold_left (fun a i => default a (f i)) l d.
Definition times (i : inputs) : option cpuTimes := in_stat i ≫= parseCPUTimes.
Definition class (i : inputs) : option Z := readLatestQCI (in_qci i) ≫= fun q => if 0 <? q then Some q else None.
Definition from_device (i : inputs) : option (Z * Z) := in_device i ≫= parseFrontendDeviceUsage undef.

(** What one line of the file says, after the ticks [h] and the tick [i]; [before]
    are the values of the line before. *)
Definition told (p : cpuTimes) (start before : devInfoValues) (h : list inputs) (i : inputs) (v : devInfoValues) (text : string) : Prop :=
  text = formatDevInfo v /\ usage (cpuUsage v) /\ usage (ramUsage v) /\
  temperature v = latest (readCPUTemperature undef) (temperature start) (h ++ [i]) /\
  qci v = latest class (qci start) (h ++ [i]) /\
  match from_device i with
  | Some (c, r) => cpuUsage v = c /\ ramUsage v = r
  | None =>
    cpuUsage v = default (cpuUsage before) (c ← times i; calculateCPUUsage undef (latest times p h) c) /\
    ramUsage v = default (ramUsage before) (readRAMUsage undef (in_meminfo i))
  end.

(** The values of the line before the n-th. *)
Definition line_before (start : devInfoValues) (lines : list (devInfoValues * string)) (n : nat) : devInfoValues :=
  match n with O => start | S m => default start (fst <$> lines !! m) end.

Lemma tick_told p v i p' v' text : usage (cpuUsage v) -> usage (ramUsage v) ->
  tick undef p v i = (p', v', text) -> p' = default p (times i) /\ told p v v [] i v' text.
Proof.
  intros Hc Hr. unfold tick, told. change (in_stat i ≫= parseCPUTimes) with (times i).
  change (in_device i ≫= parseFrontendDeviceUsage undef) with (from_device i).
  assert (Hcpu : match times i with Some c => default (cpuUsage v) (calculateCPUUsage undef p c) | None => cpuUsage v end =
    default (cpuUsage v) (c ← times i; calculateCPUUsage undef p c)) by by destruct (times i).
  rewrite Hcpu. clear Hcpu. set (cpu := default (cpuUsage v) _). set (ram := default (ramUsage v) _).
  assert (Hfall : usage cpu).
  { subst cpu. destruct (times i) as [c|]; [|done]. cbn. destruct (calculateCPUUsage undef p c) eqn:E; [by eapply cpu_range|done]. }
  assert (Hram : usage ram) by (subst ram; destruct (readRAMUsage undef _) eqn:E; [by eapply ram_range|done]).
  assert (Hq : (match readLatestQCI (in_qci i) with Some q => if 0 <? q then q else qci v | None => qci v end) = default (qci v) (class i)).
  { unfold class. destruct (readLatestQCI _) as [q|]; [cbn; by destruct (0 <? q)|done]. }
  destruct (from_device i) as [[c r]|] eqn:Hd; intros [= <- <- <-]; cbn [cpuUsage ramUsage temperature qci latest fold_left app]; rewrite ?Hq.
  - unfold from_device in Hd. apply bind_Some in Hd as (d & _ & Hd). by destruct (device_range d c r Hd).
  - done.
Qed.

Lemma run_told p v l : usage (cpuUsage v) -> usage (ramUsage v) ->
  forall n v' text, runDevInfoWriter undef p v l !! n = Some (v', text) ->
  exists i, l !! n = Some i /\ told p v (line_before v (runDevInfoWriter undef p v l) n) (take n l) i v' text.
Proof.
  revert p v. induction l as [|i l IH]; intros p v Hc Hr n v' text; [done|]. cbn [runDevInfoWriter].
  destruct (tick undef p v i) as [[p1 v1] text1] eqn:Ht. destruct (tick_told p v i p1 v1 text1 Hc Hr Ht) as [-> Hi].
  destruct n as [|n]; cbn [lookup list_lookup]; [intros [= <- <-]; by exists i|]. intros Hn.
  destruct Hi as (_ & Hc1 & Hr1 & Ht1 & Hq1 & _). destruct (IH _ v1 Hc1 Hr1 n v' text Hn) as (j & Hj & Hk).
  exists j. split; [done|]. unfold told in *. cbn [latest fold_left app take] in *.
  destruct Hk as (H1 & H2 & H3 & H4 & H5 & H6). split_and!; try done.
  - by rewrite H4, Ht1.
  - by rewrite H5, Hq1.
  - destruct (from_device j) as [[c r]|]; [done|].
    assert (Hb : line_before v ((v1, text1) :: runDevInfoWriter undef (default p (times i)) v1 l) (S n) =
      line_before v1 (runDevInfoWriter undef (default p (times i)) v1 l) n).
    { destruct n as [|m]; [done|]. cbn [line_before lookup list_lookup]. apply lookup_lt_Some in Hn.
      destruct (runDevInfoWriter _ _ _ _ !! m) eqn:E; [done|]. apply lookup_ge_None in E. lia. }
    rewrite Hb. exact H6.
Qed.
End Shown.

(** C27: Every text the writer produces, whatever its sources answer and however often
    they fail, is the format of four values: the temperature and the class are
    those last answered (zero before); the usages are the device service's when it
    answers, otherwise the memory's own and the usage between the last two
    readable times of the processor, and where those fail too they stay what they
    were.  A usage lies in 0..100, unless it is what the language leaves open, the
    integer made of a NaN. *)
Theorem devinfo_writer undef p l n v text :
  let lines := runDevInfoWriter undef p (mkValues 0 0 0 0) l in
  lines !! n = Some (v, text) ->
  exists i, l !! n = Some i /\ told undef p (mkValues 0 0 0 0) (line_before (mkValues 0 0 0 0) lines n) (take n l) i v text.
Proof. apply run_told; left; split; discriminate. Qed.

Definition quiet : inputs := mkInputs None None None None [] None.
Definition busy_stat : inputs := mkInputs (Some "cpu  130 0 60 910 0 0 0 0 0 0") None None None [(Some "cpuss-0", Some "51600")] (Some "5QI = 9").
Lemma devinfo_writer_witness :
  runDevInfoWriter (fun _ => 0) (mkCPU 1000 850) (mkValues 0 0 0 0) [busy_stat; quiet] !! 1%nat = Some (mkValues 52 40 0 9, formatDevInfo (mkValues 52 40 0 9)) /\
  exists i, [busy_stat; quiet] !! 1%nat = Some i /\
    told (fun _ => 0) (mkCPU 1000 850) (mkValues 0 0 0 0) (mkValues 52 40 0 9) [busy_stat] i (mkValues 52 40 0 9) (formatDevInfo (mkValues 52 40 0 9)).
Proof.
  assert (H : runDevInfoWriter (fun _ => 0) (mkCPU 1000 850) (mkValues 0 0 0 0) [busy_stat; quiet] !! 1%nat =
    Some (mkValues 52 40 0 9, formatDevInfo (mkValues 52 40 0 9))) by (vm_compute; reflexivity).
  split; [exact H|]. apply (devinfo_writer (fun _ => 0) (mkCPU 1000 850) [busy_stat; quiet] 1 _ _ H).
Defined.

(** The tests of the repository. *)
Example test_cpu : (p ← parseCPUTimes "cpu  100 0 50 850 0 0 0 0 0 0"; c ← parseCPUTimes "cpu  130 0 60 910 0 0 0 0 0 0";
  calculateCPUUsage (fun _ => 0) p c) = Some 40.
Proof. vm_compute. reflexivity. Qed.
Example test_ram : readRAMUsage (fun _ => 0) (Some ["MemTotal:       1000 kB"; "MemFree:         100 kB"; "MemAvailable:    390 kB"]) = Some 61.
Proof. vm_compute. reflexivity. Qed.
Example test_qci : parseQci "5QI = 9, qci:7" = (9, 7). Proof. vm_compute. reflexivity. Qed.
