(* ===== verification/Sessions.v ===== *)
(** The terminal sessions of the web service: [src/gossh/app/service/ssh_conn.go],
    [ssh_status.go] and the table of clients in [service_init.go].

    A session is an SSH client with its SFTP client and shell session, made by
    one request, attached to a WebSocket by another, and closed by whichever of
    several parties comes first.  The world holds the table [OnlineClients], the
    connections it points to, the handles that were closed, and the terminals
    that are running.  Theorems: no handle is lost as long as no session id is
    used again and no dialled client fails to open a session; the clean-up
    removes exactly the inactive sessions; a terminal relays input up to the
    first message that exceeds the buffer, which ends the process. *)

From S2P Require Import Prelude GoInt GoStrings Effects.
From stdpp Require Import gmap strings.
Open Scope Z_scope.

(** * State *)

(** Handles are numbered as they are opened; [None] is a nil pointer. *)
Record SshConn := mkConn {
  SessionId : string;
  LastActiveTime : Z;             (** nanoseconds *)
  sshClient : option nat;
  sftpClient : option nat;
  sshSession : option nat;
  ws : option nat }.

(** A call of [RunTerminal] that waits: its session, connection and WebSocket. *)
Record terminal := mkTerminal { t_sid : string; t_conn : nat; t_ws : nat }.
#[export] Instance terminal_eq_dec : EqDecision terminal := ltac:(solve_decision).

Record world := mkWorld {
  conns : list SshConn;           (** pointers are indices *)
  OnlineClients : gmap string nat;
  terms : list terminal;
  next : nat;                     (** handles opened so far *)
  closed : list nat;
  replies : list Z }.

Abbreviation M := (ST world).

Definition set_conns (f : list SshConn -> list SshConn) : M unit :=
  st_modify (fun w => mkWorld (f (conns w)) (OnlineClients w) (terms w) (next w) (closed w) (replies w)).
Definition set_online (f : gmap string nat -> gmap string nat) : M unit :=
  st_modify (fun w => mkWorld (conns w) (f (OnlineClients w)) (terms w) (next w) (closed w) (replies w)).
Definition set_terms (f : list terminal -> list terminal) : M unit :=
  st_modify (fun w => mkWorld (conns w) (OnlineClients w) (f (terms w)) (next w) (closed w) (replies w)).
Definition reply (code : Z) : M unit :=
  st_modify (fun w => mkWorld (conns w) (OnlineClients w) (terms w) (next w) (closed w) (replies w ++ [code])).
Definition open_handle : M nat :=
  w ← st_get;
  _ ← st_modify (fun w => mkWorld (conns w) (OnlineClients w) (terms w) (S (next w)) (closed w) (replies w));
  mret (next w).
Definition close_handle (h : nat) : M unit :=
  st_modify (fun w => mkWorld (conns w) (OnlineClients w) (terms w) (next w) (closed w ++ [h]) (replies w)).

(** * The table *)

(** A deferred call: whether it panicked.  A method of a nil pointer does. *)
Definition Close (h : option nat) : M bool :=
  match h with Some h => _ ← close_handle h; mret false | None => mret true end.

(** Deferred calls run one after another, also when one of them panics. *)
Fixpoint run_deferred (l : list (M bool)) : M bool :=
  match l with
  | [] => mret false
  | d :: l => p ← d; q ← run_deferred l; mret (p || q)
  end.

(** The calls in the order they run, the last deferred one first; the panic is
    recovered. *)
Definition DeleteOnlineClient (sessionId : string) : M unit :=
  w ← st_get;
  match p ← OnlineClients w !! sessionId; conns w !! p with
  | None => mret tt
  | Some conn =>
    _ ← run_deferred [Close (ws conn); Close (sshSession conn); Close (sftpClient conn); Close (sshClient conn);
                      (_ ← set_online (delete sessionId); mret false)];
    mret tt
  end.

(** [Range] visits the entries; the connection is read when its turn comes. *)
Fixpoint clean_entries (now : Z) (l : list (string * nat)) : M unit :=
  match l with
  | [] => mret tt
  | (sessionId, p) :: l =>
    w ← st_get;
    _ ← match conns w !! p with
        | Some conn => if LastActiveTime conn + 60 * 10 ^ 9 <? now then DeleteOnlineClient sessionId else mret tt
        | None => mret tt
        end;
    clean_entries now l
  end.
Definition cleanNoActiveSession (now : Z) : M unit :=
  w ← st_get; clean_entries now (map_to_list (OnlineClients w)).

(** * The handlers *)

(** What [connect] comes to: no client; a client, and whether SFTP, but no shell
    session; all of it; a panic before the client is kept, recovered and reported as success. *)
Inductive dial := DialFailed | NoSession (sftp : bool) | Dialled (sftp : bool) | Recovered.

Definition open_sftp (sftp : bool) : M (option nat) :=
  if sftp then h ← open_handle; mret (Some h) else mret None.

(** The connection, or [None] for the error. *)
Definition connect (d : dial) (conn : SshConn) : M (option SshConn) :=
  match d with
  | DialFailed => mret None
  | NoSession sftp => _ ← open_handle; _ ← open_sftp sftp; mret None
  | Dialled sftp =>
    c ← open_handle; f ← open_sftp sftp; s ← open_handle;
    mret (Some (mkConn (SessionId conn) (LastActiveTime conn) (Some c) f (Some s) None))
  | Recovered => mret (Some conn)
  end.

Definition CreateSessionId (bound : bool) (query random : string) (now : Z) (d : dial) : M unit :=
  if negb bound then reply 1 else
  let sessionId := if bool_decide (query = ""%string) then random else query in
  r ← connect d (mkConn sessionId now None None None None);
  match r with
  | None => reply 1
  | Some conn =>
    w ← st_get;
    _ ← set_conns (fun l => l ++ [conn]);
    _ ← set_online <[sessionId := length (conns w)]>;
    reply 0
  end.

Definition good_width (w : option Z) : bool := match w with Some w => (40 <=? w) && (w <=? 8192) | None => false end.
Definition good_height (h : option Z) : bool := match h with Some h => (2 <=? h) && (h <=? 4096) | None => false end.

(** [NewSshConn] up to the call of [RunTerminal] that waits; the texts it writes
    to the WebSocket are left out. *)
Definition NewSshConn (upgraded : bool) (sessionId : string) (w h : option Z) : M unit :=
  if negb upgraded then mret tt else
  s ← open_handle;
  st ← st_get;
  let leave := (_ ← DeleteOnlineClient sessionId; _ ← DeleteOnlineClient sessionId; close_handle s) : M unit in
  if negb (good_width w) then leave
  else if negb (good_height h) then leave
  else match OnlineClients st !! sessionId with
       | None => leave
       | Some p =>
         _ ← set_conns (alter (fun c => mkConn (SessionId c) (LastActiveTime c) (sshClient c) (sftpClient c) (sshSession c) (Some s)) p);
         set_terms (fun l => l ++ [mkTerminal sessionId p s])
       end.

(** The rest of it, when [RunTerminal] has returned. *)
Definition NewSshConn_end (i : nat) (failed : bool) : M unit :=
  st ← st_get;
  match terms st !! i with
  | None => mret tt
  | Some t =>
    _ ← set_terms (fun l => delete i l);
    _ ← match conns st !! t_conn t with Some c => DeleteOnlineClient (SessionId c) | None => mret tt end;
    _ ← (if failed then DeleteOnlineClient (t_sid t) else mret tt);
    _ ← DeleteOnlineClient (t_sid t);
    close_handle (t_ws t)
  end.

(** [changed] is the outcome of [WindowChange] on a session. *)
Definition ResizeWindow (sessionId : string) (w h : option Z) (changed : bool) : M unit :=
  if negb (good_width w) then reply 1
  else if negb (good_height h) then reply 1
  else
    st ← st_get;
    match p ← OnlineClients st !! sessionId; conns st !! p with
    | None => reply 1
    | Some conn =>
      match sshSession conn with
      | None => mret tt
      | Some _ => _ ← (if changed then mret tt else DeleteOnlineClient sessionId); reply 0
      end
    end.

Definition Disconnect (sessionId : string) : M unit :=
  if bool_decide (sessionId = ""%string) then reply 1 else _ ← DeleteOnlineClient sessionId; reply 0.

(** [opened] and [ran] are the outcomes of the session a command is run in. *)
Definition ExecCommand (bound : bool) (sessionId : string) (opened ran : bool) : M unit :=
  if negb bound then reply 2 else
  st ← st_get;
  match p ← OnlineClients st !! sessionId; conns st !! p with
  | None => reply 3
  | Some conn =>
    match sshClient conn with
    | None => reply 500
    | Some _ =>
      if negb opened then reply 5 else
      s ← open_handle; _ ← close_handle s; if ran : bool then reply 0 else reply 6
    end
  end.

Fixpoint refresh (ids : list string) (now : Z) : M unit :=
  match ids with
  | [] => mret tt
  | key :: ids =>
    w ← st_get;
    _ ← match OnlineClients w !! key with
        | Some p => set_conns (alter (fun c => mkConn (SessionId c) now (sshClient c) (sftpClient c) (sshSession c) (ws c)) p)
        | None => mret tt
        end;
    refresh ids now
  end.
Definition RefreshConnTime (ids : list string) (now : Z) : M unit := _ ← refresh ids now; reply 0.

(** * The life of the table *)

Inductive label :=
| LCreate (bound : bool) (query random : string) (now : Z) (d : dial)
| LBegin (upgraded : bool) (sid : string) (w h : option Z)
| LEnd (i : nat) (failed : bool)
| LResize (sid : string) (w h : option Z) (changed : bool)
| LDisconnect (sid : string)
| LExec (bound : bool) (sid : string) (opened ran : bool)
| LRefresh (ids : list string) (now : Z)
| LClean (now : Z).

Definition exec (l : label) : M unit :=
  match l with
  | LCreate bound query random now d => CreateSessionId bound query random now d
  | LBegin upgraded sid w h => NewSshConn upgraded sid w h
  | LEnd i failed => NewSshConn_end i failed
  | LResize sid w h changed => ResizeWindow sid w h changed
  | LDisconnect sid => Disconnect sid
  | LExec bound sid opened ran => ExecCommand bound sid opened ran
  | LRefresh ids now => RefreshConnTime ids now
  | LClean now => cleanNoActiveSession now
  end.

Definition start : world := mkWorld [] ∅ [] 0 [] [].

(** A creation that loses nothing: it does not use the id of a session in the
    table, and a client that was dialled opens its session. *)
Definition careful (w : world) (l : label) : Prop :=
  match l with
  | LCreate bound query random _ d =>
    match d with
    | NoSession _ => bound = false
    | DialFailed => True
    | _ => OnlineClients w !! (if bool_decide (query = ""%string) then random else query) = None
    end
  | _ => True
  end.

Inductive reachable : world -> Prop :=
| reach_start : reachable start
| reach_step w l : reachable w -> careful w l -> reachable (exec l w).2.

(** ** Where a handle is *)

Definition client_handles (c : SshConn) : list nat :=
  option_list (sshClient c) ++ option_list (sftpClient c) ++ option_list (sshSession c).

(** Closed, part of a connection in the table, or the WebSocket of a terminal. *)
Definition accounted (w : world) (h : nat) : Prop :=
  h ∈ closed w \/
  (exists sid p c, OnlineClients w !! sid = Some p /\ conns w !! p = Some c /\ h ∈ client_handles c) \/
  (exists t, t ∈ terms w /\ t_ws t = h).

(** No handle is lost, none is invented. *)
Record table_ok (w : world) : Prop := mkTableOk {
  ok_points : forall sid p, OnlineClients w !! sid = Some p -> is_Some (conns w !! p);
  ok_handles : forall h, (h < next w)%nat -> accounted w h }.

(** What an operation may do beside: nothing that is accounted for gets lost, and
    new handles are accounted for. *)
Record keeps (w w' : world) : Prop := mkKeeps {
  kp_points : (forall sid p, OnlineClients w !! sid = Some p -> is_Some (conns w !! p)) ->
              forall sid p, OnlineClients w' !! sid = Some p -> is_Some (conns w' !! p);
  kp_next : (next w <= next w')%nat;
  kp_old : forall h, accounted w h -> accounted w' h;
  kp_new : forall h, (next w <= h < next w')%nat -> accounted w' h }.

#[export] Instance keeps_preorder : PreOrder keeps.
Proof.
  split.
  - intros w. split; auto. intros h. lia.
  - intros w1 w2 w3 [P1 N1 O1 W1] [P2 N2 O2 W2]. split; [intros H; exact (P2 (P1 H))|lia|auto|].
    intros h Hh. destruct (decide (h < next w2)%nat); [apply O2, W1|apply W2]; lia.
Qed.

Lemma keeps_ok w w' : keeps w w' -> table_ok w -> table_ok w'.
Proof.
  intros [P N O W] [Hp Hh]. split; [exact (P Hp)|]. intros h Hlt.
  destruct (decide (h < next w)%nat); [by apply O, Hh|apply W; lia].
Qed.

Definition sound {A} (m : M A) : Prop := forall w, keeps w (m w).2.

Lemma sound_ret {A} (a : A) : sound (mret a).
Proof. intros w. reflexivity. Qed.
Lemma sound_get {A} (f : world -> M A) : (forall w, sound (f w)) -> sound (w ← st_get; f w).
Proof. intros H w. apply (H w w). Qed.
Lemma sound_bind {A B} (m : M A) (f : A -> M B) : sound m -> (forall a, sound (f a)) -> sound (m ≫= f).
Proof.
  intros Hm Hf w. specialize (Hm w). change ((m ≫= f) w) with (let '(a, w') := m w in f a w').
  destruct (m w) as [a w']. etrans; [exact Hm|apply Hf].
Qed.

Lemma then_run {A B} (m : M A) (n : M B) w : ((_ ← m; n) w).2 = (n (m w).2).2.
Proof. cbv [mbind st_bind]. by destruct (m w). Qed.

(** A change that keeps the table, the terminals and the handles. *)
Lemma sound_modify f :
  (forall w, OnlineClients (f w) = OnlineClients w /\ conns (f w) = conns w /\ terms (f w) = terms w /\
             next (f w) = next w /\ closed w `prefix_of` closed (f w)) -> sound (st_modify f).
Proof.
  intros H w. destruct (H w) as (Ho & Hc & Ht & Hn & [l Hl]). cbn [st_modify snd]. split.
  - by rewrite Ho, Hc.
  - lia.
  - intros h. unfold accounted. rewrite Ho, Hc, Ht, Hl. intros [?|?]; [left; by apply elem_of_app; left|by right].
  - intros h. rewrite Hn. lia.
Qed.

Lemma sound_reply c : sound (reply c).
Proof. by apply sound_modify. Qed.
Lemma sound_close h : sound (close_handle h).
Proof. apply sound_modify. intros w. split_and!; try done. by apply prefix_app_r. Qed.
Create HintDb sessions.
#[export] Hint Resolve sound_reply sound_close sound_ret : sessions.

(** ** Removing a session *)

(** The world after the removal of the session of [conn]. *)
Definition removed (sid : string) (c : SshConn) (w : world) : world :=
  mkWorld (conns w) (delete sid (OnlineClients w)) (terms w) (next w)
    (closed w ++ option_list (ws c) ++ option_list (sshSession c) ++ option_list (sftpClient c) ++ option_list (sshClient c))
    (replies w).

Lemma Delete_run sid w :
  (DeleteOnlineClient sid w).2 =
  match p ← OnlineClients w !! sid; conns w !! p with Some c => removed sid c w | None => w end.
Proof.
  unfold DeleteOnlineClient. cbv [mbind st_bind st_get]. cbn [fst snd].
  destruct (option_bind _ _) as [c|]; [|done]. unfold removed. destruct c as [sid' la c f s k].
  destruct k, s, f, c; cbv [run_deferred Close close_handle set_online mbind st_bind mret st_ret st_modify option_list]; cbn;
    rewrite <- ?app_assoc, ?app_nil_r; done.
Qed.

Lemma sound_Delete sid : sound (DeleteOnlineClient sid).
Proof.
  intros w. rewrite Delete_run. destruct (_ ≫= _) as [c|] eqn:Hc; [|reflexivity].
  apply bind_Some in Hc as (p & Hs & Hc). split; simpl.
  - intros Hp sid' p' [_ H]%lookup_delete_Some. eauto.
  - lia.
  - intros h [Hh|[(sid' & p' & c' & Hs' & Hc' & Hh)|Hh]].
    + left. simpl. apply elem_of_app. by left.
    + destruct (decide (sid' = sid)) as [->|Hne].
      * left. simpl. simplify_eq. unfold client_handles in Hh. rewrite !elem_of_app in Hh. rewrite !elem_of_app. tauto.
      * right; left. exists sid', p', c'. simpl. by rewrite lookup_delete_ne.
    + by right; right.
  - intros h. lia.
Qed.
#[export] Hint Resolve sound_Delete : sessions.

Lemma sound_clean now : sound (cleanNoActiveSession now).
Proof.
  unfold cleanNoActiveSession. apply sound_get. intros w. generalize (map_to_list (OnlineClients w)). intros l.
  induction l as [|[sid p] l IH]; cbn [clean_entries]; [auto with sessions|]. apply sound_get. intros w'.
  apply sound_bind; [|auto]. destruct (conns w' !! p); [destruct (_ <? _); auto with sessions|auto with sessions].
Qed.

(** Changes of a connection that leave its client handles. *)
Lemma sound_alter (f : SshConn -> SshConn) p : (forall c, client_handles (f c) = client_handles c) ->
  sound (set_conns (alter f p)).
Proof.
  intros Hf w. cbn [set_conns st_modify snd].
  assert (Hl : forall q, alter f p (conns w) !! q = (if decide (q = p) then f <$> conns w !! q else conns w !! q)).
  { intros q. rewrite list_lookup_alter. repeat case_decide; congruence. }
  split; simpl.
  - intros Hp sid q Hq. rewrite Hl. specialize (Hp sid q Hq). destruct (decide _); [by apply fmap_is_Some|done].
  - lia.
  - intros h [Hh|[(sid & q & c & Hs & Hc & Hh)|Hh]]; [by left| |by right; right]. right; left.
    exists sid, q, (if decide (q = p) then f c else c). simpl. rewrite Hl. split; [done|].
    destruct (decide (q = p)); [rewrite Hc, Hf; by split|by split].
  - intros h. lia.
Qed.

Lemma sound_refresh ids now : sound (refresh ids now).
Proof.
  induction ids as [|id ids IH]; cbn [refresh]; [auto with sessions|]. apply sound_get. intros w.
  apply sound_bind; [|auto]. destruct (_ !! _); [by apply sound_alter|auto with sessions].
Qed.

(** ** The handlers *)

Lemma sound_open_close : sound (s ← open_handle; close_handle s).
Proof.
  intros w. cbn. split; simpl.
  - done.
  - lia.
  - intros h [Hh|Hh]; [left; simpl; apply elem_of_app; by left|by right].
  - intros h Hh. left. simpl. apply elem_of_app. right. apply list_elem_of_singleton. lia.
Qed.

(** A connection that was made and is put into the table. *)
Lemma create_keeps w d sid now : OnlineClients w !! sid = None ->
  (match d with Dialled _ | Recovered => True | _ => False end) ->
  match connect d (mkConn sid now None None None None) w with
  | (Some conn, w1) => keeps w (mkWorld (conns w1 ++ [conn]) (<[sid := length (conns w1)]> (OnlineClients w1)) (terms w1) (next w1)
                                  (closed w1) (replies w1))
  | (None, _) => False
  end.
Proof.
  intros Hnew Hd.
  assert (Hkeep : forall conn n, (next w <= n)%nat -> (forall h, (next w <= h < n)%nat -> h ∈ client_handles conn) ->
    keeps w (mkWorld (conns w ++ [conn]) (<[sid := length (conns w)]> (OnlineClients w)) (terms w) n (closed w) (replies w))).
  { intros conn n Hn Hconn. split; simpl.
    - intros Hp sid' p. destruct (decide (sid' = sid)) as [->|Hne].
      + rewrite lookup_insert_eq. intros [= <-]. rewrite lookup_app_r, Nat.sub_diag by lia. by eexists.
      + rewrite lookup_insert_ne by done. intros [c Hc]%Hp. exists c. by apply lookup_app_l_Some.
    - done.
    - intros h [Hh|[(sid' & p & c & Hs & Hc & Hh)|Hh]]; [by left| |by right; right]. right; left.
      exists sid', p, c. simpl. rewrite lookup_insert_ne by (intros ->; congruence). split; [done|]. split; [|done].
      by apply lookup_app_l_Some.
    - intros h Hh. right; left. exists sid, (length (conns w)), conn. simpl. rewrite lookup_insert_eq. split; [done|].
      split; [by rewrite lookup_app_r, Nat.sub_diag by lia|by apply Hconn]. }
  destruct d as [|sftp|sftp|]; [by destruct Hd|by destruct Hd|destruct sftp|];
    cbv [connect open_sftp open_handle mbind st_bind mret st_ret st_get st_modify]; cbn.
  - apply Hkeep; [lia|]. intros h Hh. assert (h = next w \/ h = S (next w) \/ h = S (S (next w))) by lia.
    unfold client_handles. simpl. rewrite !elem_of_cons. tauto.
  - apply Hkeep; [lia|]. intros h Hh. assert (h = next w \/ h = S (next w)) by lia.
    unfold client_handles. simpl. rewrite !elem_of_cons. tauto.
  - apply Hkeep; [lia|]. intros h. lia.
Qed.

Lemma keeps_create w bound query random now d :
  careful w (LCreate bound query random now d) -> keeps w (CreateSessionId bound query random now d w).2.
Proof.
  intros Hc. unfold CreateSessionId. destruct bound; [|apply sound_reply]. cbn [negb].
  set (sid := if bool_decide _ then _ else _) in *. simpl in Hc.
  destruct d as [|sftp|sftp|]; [apply sound_reply|done| |];
    [pose proof (create_keeps w (Dialled sftp) sid now Hc I) as Hk|pose proof (create_keeps w Recovered sid now Hc I) as Hk];
    change ((connect ?a ?b ≫= ?f) w) with (let '(r, w1) := connect a b w in f r w1);
    (destruct (connect _ _ w) as [[conn|] w1]; [|done]; etrans; [exact Hk|apply sound_reply]).
Qed.

(** An operation that ends by closing a handle may lose sight of it before. *)
Lemma keeps_scope {A} (m : M A) w w0 k : sound m ->
  ((forall sid p, OnlineClients w !! sid = Some p -> is_Some (conns w !! p)) ->
    forall sid p, OnlineClients w0 !! sid = Some p -> is_Some (conns w0 !! p)) ->
  (next w <= next w0)%nat ->
  (forall h, accounted w h -> accounted w0 h \/ h = k) ->
  (forall h, (next w <= h < next w0)%nat -> accounted w0 h \/ h = k) ->
  keeps w (close_handle k (m w0).2).2.
Proof.
  intros Hm Hp Hn Ho Hw. destruct (Hm w0) as [P N O W]. set (v := (m w0).2) in *.
  destruct (sound_close k v) as [P' N' O' W']. set (v' := (close_handle k v).2) in *.
  assert (Hv : next v' = next v) by done.
  assert (Hk : forall h, accounted w0 h \/ h = k -> accounted v' h).
  { intros h [Hh| ->]; [by apply O', O|]. left. simpl. apply elem_of_app. right. by apply list_elem_of_singleton. }
  split.
  - intros H. exact (P' (P (Hp H))).
  - lia.
  - intros h Hh. by apply Hk, Ho.
  - intros h Hh. rewrite Hv in Hh. destruct (decide (h < next w0)%nat); [apply Hk, Hw; lia|apply O', W; lia].
Qed.

Lemma keeps_terminal w t f p : t_ws t = next w -> (forall c, client_handles (f c) = client_handles c) ->
  keeps w (mkWorld (alter f p (conns w)) (OnlineClients w) (terms w ++ [t]) (S (next w)) (closed w) (replies w)).
Proof.
  intros Ht Hf. etrans; [exact (sound_alter f p Hf w)|]. split; simpl.
  - done.
  - lia.
  - intros h [Hh|[Hh|(t' & Hin & Hh)]]; [by left|by right; left|]. right; right. exists t'. simpl.
    by rewrite elem_of_app; split; [left|].
  - intros h Hh. right; right. exists t. simpl. rewrite elem_of_app, list_elem_of_singleton. split; [by right|lia].
Qed.

Lemma sound_begin upgraded sid cols rows : sound (NewSshConn upgraded sid cols rows).
Proof.
  intros w. unfold NewSshConn. destruct upgraded; [|reflexivity]. cbn [negb].
  set (w0 := mkWorld (conns w) (OnlineClients w) (terms w) (S (next w)) (closed w) (replies w)).
  assert (Hleave : keeps w (close_handle (next w) ((_ ← DeleteOnlineClient sid; DeleteOnlineClient sid) w0).2).2).
  { apply keeps_scope.
    - apply sound_bind; auto with sessions.
    - done.
    - simpl. lia.
    - auto.
    - simpl. intros h Hh. right. lia. }
  change ((open_handle ≫= ?f) w) with (f (next w) w0). cbv beta.
  change ((st_get ≫= ?f) w0) with (f w0 w0). cbv beta zeta.
  rewrite then_run in Hleave.
  destruct (good_width cols); cbn [negb]; [|by rewrite !then_run].
  destruct (good_height rows); cbn [negb]; [|by rewrite !then_run].
  destruct (OnlineClients w0 !! sid) as [p|]; [|by rewrite !then_run].
  by apply (keeps_terminal w (mkTerminal sid p (next w))
             (fun c => mkConn (SessionId c) (LastActiveTime c) (sshClient c) (sftpClient c) (sshSession c) (Some (next w)))).
Qed.

Lemma sound_end i failed : sound (NewSshConn_end i failed).
Proof.
  intros w. unfold NewSshConn_end. change ((st_get ≫= ?f) w) with (f w w). cbv beta.
  destruct (terms w !! i) as [t|] eqn:Ht; [|reflexivity].
  set (w0 := mkWorld (conns w) (OnlineClients w) (delete i (terms w)) (next w) (closed w) (replies w)).
  set (m := (_ ← match conns w !! t_conn t with Some c => DeleteOnlineClient (SessionId c) | None => mret tt end;
             _ ← (if failed then DeleteOnlineClient (t_sid t) else mret tt); DeleteOnlineClient (t_sid t)) : M unit).
  rewrite !then_run. change (set_terms _ w).2 with w0.
  assert (Hm : (m w0).2 = (DeleteOnlineClient (t_sid t) ((if failed then DeleteOnlineClient (t_sid t) else mret tt)
    (match conns w !! t_conn t with Some c => DeleteOnlineClient (SessionId c) | None => mret tt end w0).2).2).2)
    by (subst m; by rewrite !then_run).
  rewrite <- Hm. clear Hm.
  apply keeps_scope; simpl; auto; [| |intros h Hh; lia].
  - subst m. apply sound_bind; [destruct (conns w !! _); auto with sessions|]. intros _.
    apply sound_bind; [destruct failed; auto with sessions|auto with sessions].
  - intros h [Hh|[Hh|(t' & Hin & Hh)]]; [by left; left|by left; right; left|].
    apply list_elem_of_lookup in Hin as [j Hj]. destruct (decide (j = i)) as [->|Hne]; [right; congruence|].
    left; right; right. exists t'. split; [|done]. simpl. apply list_elem_of_lookup.
    destruct (decide (j < i)%nat).
    + exists j. by rewrite list_lookup_delete_lt by lia.
    + exists (pred j). rewrite list_lookup_delete_ge by lia. replace (S (pred j)) with j by lia. done.
Qed.

Lemma sound_resize sid cols rows changed : sound (ResizeWindow sid cols rows changed).
Proof.
  unfold ResizeWindow. destruct (negb (good_width cols)), (negb (good_height rows)); auto with sessions.
  apply sound_get. intros w.
  destruct (_ ≫= _) as [c|]; [|auto with sessions]. destruct (sshSession c); [|auto with sessions].
  apply sound_bind; [destruct changed|]; auto with sessions.
Qed.

Lemma sound_exec_command bound sid opened ran : sound (ExecCommand bound sid opened ran).
Proof.
  unfold ExecCommand. destruct bound; cbn [negb]; [|auto with sessions]. apply sound_get. intros w.
  destruct (_ ≫= _) as [c|]; [|auto with sessions]. destruct (sshClient c); [|auto with sessions].
  destruct opened; cbn [negb]; [|auto with sessions].
  intros v. etrans; [apply (sound_open_close v)|]. destruct ran; apply sound_reply.
Qed.

Lemma keeps_exec w l : careful w l -> keeps w (exec l w).2.
Proof.
  destruct l as [bound query random now d|upgraded sid cols rows|i failed|sid cols rows changed|sid|bound sid opened ran|ids now|now];
    intros Hc; cbn [exec].
  - by apply keeps_create.
  - apply sound_begin.
  - apply sound_end.
  - apply sound_resize.
  - unfold Disconnect. case_bool_decide; [apply sound_reply|apply (sound_bind _ _ (sound_Delete sid)); auto with sessions].
  - apply sound_exec_command.
  - apply (sound_bind _ _ (sound_refresh ids now)); auto with sessions.
  - apply sound_clean.
Qed.

(** * The clean-up *)

Definition expired (now : Z) (w : world) (p : nat) : bool :=
  match conns w !! p with Some c => LastActiveTime c + 60 * 10 ^ 9 <? now | None => false end.

Lemma clean_step now sid p w : OnlineClients w !! sid = Some p ->
  (match conns w !! p with
   | Some conn => if LastActiveTime conn + 60 * 10 ^ 9 <? now then DeleteOnlineClient sid else mret tt
   | None => mret tt
   end w).2 = match conns w !! p with Some c => if expired now w p then removed sid c w else w | None => w end.
Proof.
  intros Hs. unfold expired. destruct (conns w !! p) as [c|] eqn:Hc; [|done]. destruct (_ <? _); [|done].
  rewrite Delete_run, Hs. cbn. by rewrite Hc.
Qed.

(** The entries of the list that have expired are gone, and their handles closed. *)
Lemma clean_entries_run now l : forall w, NoDup l.*1 -> (forall sid p, (sid, p) ∈ l -> OnlineClients w !! sid = Some p) ->
  let w' := (clean_entries now l w).2 in
  conns w' = conns w /\ closed w ⊆ closed w' /\
  (forall sid p, OnlineClients w' !! sid = Some p <->
     OnlineClients w !! sid = Some p /\ ~ ((sid, p) ∈ l /\ expired now w p = true)) /\
  (forall sid p c, (sid, p) ∈ l -> conns w !! p = Some c -> expired now w p = true ->
     client_handles c ++ option_list (ws c) ⊆ closed w').
Proof.
  induction l as [|[sid p] l IH]; intros w Hnd Hin; cbn [clean_entries].
  - cbn. split_and!; [done|done|set_solver|set_solver].
  - change ((st_get ≫= ?f) w) with (f w w). cbv beta. rewrite then_run.
    rewrite (clean_step now sid p w) by (apply Hin; set_solver).
    apply NoDup_cons in Hnd as [Hsid Hnd].
    set (w1 := match conns w !! p with Some c => if expired now w p then removed sid c w else w | None => w end).
    assert (Hc1 : conns w1 = conns w) by (subst w1; destruct (conns w !! p); [destruct (expired now w p)|]; done).
    assert (Ho1 : forall k q, OnlineClients w1 !! k = Some q <-> OnlineClients w !! k = Some q /\ ~ (k = sid /\ expired now w p = true)).
    { intros k q. subst w1. unfold expired. destruct (conns w !! p) as [c|]; [|naive_solver].
      destruct (_ <? _); [simpl; rewrite lookup_delete_Some; naive_solver|naive_solver]. }
    assert (He : forall q, expired now w1 q = expired now w q) by (intros q; unfold expired; by rewrite Hc1).
    destruct (IH w1 Hnd) as (Hc2 & Hcl & Ho & Hh).
    { intros k q Hk. apply Ho1. split; [apply Hin; set_solver|]. intros [-> _]. apply Hsid, list_elem_of_fmap.
      by exists (sid, q). }
    assert (Hcl1 : closed w ⊆ closed w1).
    { subst w1. destruct (conns w !! p); [destruct (expired now w p)|]; simpl; set_solver. }
    split_and!; [congruence|set_solver| |].
    + intros k q. rewrite Ho, Ho1, He, elem_of_cons. specialize (Hin sid p ltac:(set_solver)). split.
      * intros [[Hk Hne] Hnl]. split; [done|]. intros [[[= -> ->]|Hl] Hx]; auto.
      * intros [Hk Hn]. split; [split; [done|]|intros [Hl Hx]; apply Hn; auto]. intros [-> Hx]. apply Hn.
        split; [left|]; congruence.
    + intros k q c Hk Hc Hx. apply elem_of_cons in Hk as [[= -> ->]|Hk].
      * assert (Hr : client_handles c ++ option_list (ws c) ⊆ closed w1).
        { subst w1. rewrite Hc, Hx. unfold client_handles. simpl. set_solver. }
        set_solver.
      * apply (Hh k q c Hk); [by rewrite Hc1|by rewrite He].
Qed.

(** * What a terminal is fed *)

Section Relay.
Context {A : Type}.

(** [WebSocketReadWriter.Read] with the buffer [p]: the buffer, and the number of
    bytes it reports. *)
Definition ReadMessage (p message : list A) : list A * nat :=
  (take (length p) message ++ drop (length message) p, length message).

(** [io.Copy] from the messages to the shell's input: what is written, and whether
    slicing the buffer panicked. *)
Fixpoint relay (buf : list A) (messages : list (list A)) : list A * bool :=
  match messages with
  | [] => ([], false)
  | message :: messages =>
    let '(buf, n) := ReadMessage buf message in
    if (length buf <? n)%nat then ([], true)
    else let '(written, panicked) := relay buf messages in (take n buf ++ written, panicked)
  end.

(** The messages before the first that fails the test. *)
Fixpoint take_while (f : list A -> bool) (messages : list (list A)) : list (list A) :=
  match messages with
  | [] => []
  | message :: messages => if f message then message :: take_while f messages else []
  end.

Lemma ReadMessage_length p message : length (ReadMessage p message).1 = length p.
Proof. cbn. rewrite length_app, length_take, length_drop. lia. Qed.

Lemma relay_cons buf message messages : (length message <= length buf)%nat ->
  exists buf', length buf' = length buf /\
    relay buf (message :: messages) = (message ++ (relay buf' messages).1, (relay buf' messages).2).
Proof.
  intros Hl. exists (ReadMessage buf message).1. split; [apply ReadMessage_length|]. cbn [relay].
  pose proof (ReadMessage_length buf message) as Hn. destruct (ReadMessage buf message) as [buf' n] eqn:Hr. cbn [fst] in *.
  injection Hr as <- <-. rewrite Hn. rewrite (proj2 (Nat.ltb_ge _ _)) by lia.
  destruct (relay _ messages) as [written panicked]. cbn [fst snd]. f_equal. f_equal.
  rewrite (take_ge message) by lia. by rewrite take_app_length.
Qed.

Lemma relay_long buf message messages : (length buf < length message)%nat -> relay buf (message :: messages) = ([], true).
Proof.
  intros Hl. cbn [relay]. pose proof (ReadMessage_length buf message) as Hn.
  destruct (ReadMessage buf message) as [buf' n] eqn:Hr. cbn [fst] in *. injection Hr as <- <-. rewrite Hn.
  by rewrite (proj2 (Nat.ltb_lt _ _)) by lia.
Qed.

End Relay.

(** * Properties *)

(** C16: whatever requests, disconnections and clean-ups follow one another in any
    order, as long as no creation reuses the id of a session in the table and
    every dialled client opens its shell session: each entry of the table points
    to a connection, and every client, SFTP client, session and WebSocket that
    was ever opened is closed, belongs to a connection in the table, or is the
    WebSocket of a terminal that runs; nothing leaks. *)
Theorem sessions_accounted (w : world) : reachable w -> table_ok w.
Proof.
  induction 1 as [|w l _ IH Hc]; [|exact (keeps_ok _ _ (keeps_exec w l Hc) IH)].
  split; [intros sid p H; change (OnlineClients start) with (∅ : gmap string nat) in H; by rewrite lookup_empty in H|simpl; intros; lia].
Qed.

Lemma sessions_accounted_witness :
  reachable (exec (LBegin true "a" (Some 80) (Some 24)) (exec (LCreate true "a" "" 0 (Dialled true)) start).2).2 /\
  table_ok (exec (LBegin true "a" (Some 80) (Some 24)) (exec (LCreate true "a" "" 0 (Dialled true)) start).2).2.
Proof.
  assert (H : reachable (exec (LBegin true "a" (Some 80) (Some 24)) (exec (LCreate true "a" "" 0 (Dialled true)) start).2).2).
  { apply reach_step; [apply reach_step; [apply reach_start|vm_compute; reflexivity]|exact I]. }
  split; [exact H|exact (sessions_accounted _ H)].
Defined.

(** the clean-up removes a session exactly when it was last active more than a
    minute ago, changes no other entry, and closes every client, session and
    WebSocket of those it removes. *)
Theorem clean_exact (w : world) (now : Z) :
  let w' := (cleanNoActiveSession now w).2 in
  (forall sid p, OnlineClients w' !! sid = Some p <-> OnlineClients w !! sid = Some p /\ expired now w p = false) /\
  (forall sid p c, OnlineClients w !! sid = Some p -> conns w !! p = Some c -> expired now w p = true ->
     forall h, h ∈ client_handles c ++ option_list (ws c) -> h ∈ closed w').
Proof.
  intros w'. destruct (clean_entries_run now (map_to_list (OnlineClients w)) w) as (_ & _ & Ho & Hh).
  - apply NoDup_fst_map_to_list.
  - intros sid p. by rewrite elem_of_map_to_list.
  - change (clean_entries now _ w).2 with w' in *. split.
    + intros sid p. rewrite Ho, elem_of_map_to_list. destruct (expired now w p); naive_solver.
    + intros sid p c Hs Hc He h Hin. eapply Hh; [by apply elem_of_map_to_list|done..].
Qed.

(** with the buffer of 32 KiB that [io.Copy] makes, a terminal passes the
    messages of its WebSocket on to the shell byte for byte, up to the first
    message longer than the buffer: that one panics, in a goroutine of the SSH
    package that recovers from nothing, so the whole service dies. *)
Theorem relay_limit {A} (zero : A) (messages : list (list A)) :
  let short message := (length message <=? 32 * 1024)%nat in
  relay (repeat zero (32 * 1024)) messages = (concat (take_while short messages), negb (forallb short messages)).
Proof.
  assert (Hl : length (repeat zero (32 * 1024)) = (32 * 1024)%nat) by apply repeat_length.
  cbv zeta. revert Hl. generalize (repeat zero (32 * 1024)) as buf. generalize (32 * 1024)%nat as n.
  induction messages as [|m ms IH]; intros n buf Hl; [done|]. cbn [take_while forallb concat].
  destruct (Nat.leb_spec (length m) n).
  - destruct (relay_cons buf m ms) as (buf' & Hb & ->); [lia|]. rewrite (IH n buf') by lia. done.
  - by rewrite relay_long by lia.
Qed.

(** Without the conditions handles do leak: a creation with the id of a session
    in the table drops that session's client; a client that opens no shell session
    is dropped as well. *)
Lemma reused_id_leaks :
  ~ accounted (exec (LCreate true "a" "" 1 (Dialled true)) (exec (LCreate true "a" "" 0 (Dialled true)) start).2).2 0 /\
  ~ accounted (exec (LCreate true "a" "" 0 (NoSession true)) start).2 0.
Proof.
  split; intros [H|[(sid & p & c & Hs & Hc & Hh)|(t & Ht & _)]]; try (by apply elem_of_nil in H); try (by apply elem_of_nil in Ht).
  - change (({["a"%string := 1%nat]} : gmap string nat) !! sid = Some p) in Hs.
    apply lookup_singleton_Some in Hs as [<- <-]. injection Hc as <-. by apply (bool_decide_eq_true_2 _) in Hh.
  - change ((∅ : gmap string nat) !! sid = Some p) in Hs. by rewrite lookup_empty in Hs.
Qed.
