(* ===== verification/NeighborQmdl.v ===== *)
(** The neighbour-cell parser of the web service,
    [src/gossh/app/service/neighbor_qmdl.go]: the same logs as the trace
    reducer reads, but without the CRC check, with serving cells, and with a
    different aggregation. *)

From S2P Require Import Prelude.
From S2P Require Import GoInt.
From S2P Require Import GoFloat.
From S2P Require Import GoSort.
From S2P Require Import GoStrings.
From S2P Require Import Hdlc.
From S2P Require Import ReducerQmdl.
Open Scope Z_scope.

Definition neighborMaxDiagWords : Z := 236.

Record qmdlCandidate := mkQC { qc_seq : Z; qc_file : Z; qc_pci : Z; qc_arfcn : Z; qc_band : Z }.

Record qmdlReport := mkQR {
  qr_seq : Z; qr_file : Z; qr_rat : Z; qr_pci : Z; qr_arfcn : Z; qr_band : Z;
  qr_rsrp : float64; qr_direct : bool; qr_requiresARFCN : bool }.

Definition noQR : qmdlReport := mkQR 0 0 0 0 0 0 f_zero false false.

(** [qmdlAggregateKey]: rat, pci, arfcn. *)
Abbreviation qmdlAggregateKey := (Z * Z * Z)%type.

Record qmdlAggregate := mkQA {
  qa_key : qmdlAggregateKey; qa_band : Z; qa_bandClash : bool; qa_samples : nat;
  qa_directHits : nat; qa_firstSeq : Z; qa_lastSeq : Z; qa_hasSeq : bool;
  qa_rsrp : list float64 }.

(** Of [neighbor_cell.go]: optional fields are pointers there. *)
Record nativeServingCell := mkNativeServing {
  ns_Seq : Z; ns_ARFCN : option Z; ns_GCI : Z; ns_PCI : Z;
  ns_RSRPDBM : option float64; ns_RSRQDB : option float64; ns_SINRDB : option float64 }.

Record nativeNeighborCell := mkNativeNeighbor {
  nn_RAT : string; nn_PCI : Z; nn_ARFCN : option Z; nn_Band : option Z; nn_Samples : nat;
  nn_DirectHits : nat; nn_FirstSeq : Z; nn_LastSeq : Z; nn_RSRPMedian : option float64;
  nn_PlausibleSamples : nat }.

Record nativeNeighborResult := mkNativeResult {
  nr_Engine : string; nr_Version : string; nr_Frames : nat; nr_Malformed : nat;
  nr_Serving : list nativeServingCell; nr_Neighbors : list nativeNeighborCell }.

Record qmdlParser := mkQP {
  qp_frames : nat; qp_malformed : nat; qp_candidates : list qmdlCandidate;
  qp_reports : list qmdlReport; qp_serving : list nativeServingCell;
  qp_current : option Z  (* [currentARFCN], present when [hasCurrentARFCN] *) }.

Definition newQP : qmdlParser := mkQP 0 0 [] [] [] None.

(** * Signal values *)

Definition roundQMDL (value : float64) : float64 :=
  fdiv (f_of_Z (f_floor (fadd (fmul value (f_of_Z 100)) (f_lit 1 2)))) (f_of_Z 100).

Definition validQ7Signal (raw : Z) : bool :=
  let value := fdiv (f_of_Z raw) (f_of_Z 128) in
  fleb (f_of_Z (-160)) value && fleb value (f_of_Z (-20)).

Definition decodeLTERSRP (raw : Z) : float64 * bool :=
  if (-140 <=? raw) && (raw <=? -30) then (f_of_Z raw, true)
  else if (-1400 <=? raw) && (raw <=? -300) then (roundQMDL (fdiv (f_of_Z raw) (f_of_Z 10)), true)
  else (f_zero, false).

Definition decodeLTEFractionalRSRP (integer fraction : Z) : float64 * bool :=
  if (integer <? -140) || (-30 <? integer) || (9999 <? fraction) then (f_zero, false)
  else (roundQMDL (fsub (f_of_Z integer) (fdiv (f_of_Z fraction) (f_of_Z 10000))), true).

Definition unsignedDistance (left right : Z) : Z :=
  if right <=? left then left - right else right - left.

(** * Message layouts *)

Definition qmdlNRReportSpec (logID : Z) : option (bool * nat) :=
  if bool_decide (logID ∈ [0xda01a364; 0xda016098; 0xf9486c3c]) then Some (false, 12%nat)
  else if logID =? 0xda0539fc then Some (true, 12%nat)
  else if logID =? 0xda054a0c then Some (true, 11%nat)
  else if logID =? 0xda01af24 then Some (true, 11%nat)
  else if logID =? 0xda019f14 then Some (false, 12%nat)
  else if logID =? 0xda06ba1c then Some (true, 11%nat)
  else if logID =? 0xda06aa0c then Some (false, 12%nat)
  else None.

(** The first switch of [decodeQMDLCandidate]: minimum, then band, arfcn, pci. *)
Definition qmdl_candidate_fields (logID : Z) (words : list Z)
    : option (go Empty_set (nat * (Z * Z * Z))) :=
  let pick (minimum : nat) (band arfcn pci : option nat) :=
    let word (o : option nat) : go Empty_set Z :=
      match o with Some i => index words i | None => Ok 0 end in
    if bool_decide (minimum <= length words)%nat
    then b ← word band; a ← word arfcn; p ← word pci; mret (minimum, (b, a, p))
    else mret (minimum, (0, 0, 0)) in
  if bool_decide (logID ∈ [0xd8fc0f04; 0xd8facf74; 0xd8f773e8; 0xd8fc5cc0; 0xd8fb8ad0;
                           0xd8f82d98; 0xd8f84514])
  then Some (pick 4 (Some 0) (Some 1) (Some 2))%nat
  else if logID =? 0xda014184 then Some (pick 6 None (Some 4) (Some 2))%nat
  else if bool_decide (logID ∈ [0xd9fca428; 0xf93fc16a])
  then Some (pick 7 None (Some 4) (Some 2))%nat
  else if bool_decide (logID ∈ [0xd9fc7a44; 0xf93fc624])
  then Some (pick 6 None (Some 3) (Some 1))%nat
  else if bool_decide (logID ∈ [0xf9ad1341; 0xbcbafaec])
  then Some (pick (if (logID =? 0xf9ad1341)%Z then 5 else 3) None (Some 0) (Some 1))%nat
  else if bool_decide (logID ∈ [0xd8f72994; 0xd9877e9c])
  then Some (pick 5 None (Some 1) (Some 0))%nat
  else if logID =? 0xd8f7e394 then Some (pick 4 None (Some 1) (Some 0))%nat
  else None.

Definition decodeQMDLCandidate (logID : Z) (words : list Z) : go Empty_set (option qmdlCandidate) :=
  match qmdl_candidate_fields logID words with
  | None => mret None
  | Some fields =>
    f ← fields;
    let '(minimum, (band, arfcn, pci)) := f in
    if bool_decide (length words < minimum)%nat || (1007 <? pci) || (arfcn =? 0) ||
       (3279165 <? arfcn) || (1024 <? band)
    then mret None else mret (Some (mkQC 0 0 pci arfcn band))
  end.

(** An LTE layout of the production parser: no RSRQ position. *)
Record qmdlLayout := mkQL {
  ql_min : nat; ql_arfcn : nat; ql_pci : nat; ql_rsrp : option nat; ql_fraction : option nat;
  ql_requireValid : bool }.

Definition qmdlLayoutOf (logID : Z) : option qmdlLayout :=
  if logID =? 0xd936846c then Some (mkQL 2 0 1 None None false)
  else if logID =? 0xd8fe54a0 then Some (mkQL 4 0 1 (Some 2) None false)%nat
  else if logID =? 0xd8fea29c then Some (mkQL 6 1 2 (Some 3) None false)%nat
  else if bool_decide (logID ∈ [0xd8f02d94; 0xd8fea210])
  then Some (mkQL 6 2 3 (Some 4) None true)%nat
  else if logID =? 0xd939607c then Some (mkQL 2 0 1 None None false)
  else if bool_decide (logID ∈ [0xd93960a0; 0xd8fea258])
  then Some (mkQL 5 0 1 (Some 2) None false)%nat
  else if logID =? 0xd94f5690 then Some (mkQL 6 0 1 (Some 2) (Some 3) false)%nat
  else None.

Definition decodeQMDLLTEReport (logID : Z) (words : list Z) : go Empty_set (option qmdlReport) :=
  match qmdlLayoutOf logID with
  | None => mret None
  | Some l =>
    if bool_decide (length words < ql_min l)%nat then mret None else
    arfcn ← index words (ql_arfcn l);
    pci ← index words (ql_pci l);
    flag ← (if ql_requireValid l then index words 1 else Ok 1);
    if ql_requireValid l && (flag =? 0) then mret None else
    if (arfcn =? 0) || (262143 <? arfcn) || (503 <? pci) then mret None else
    signal ← match ql_rsrp l with
             | None => mret (f_zero, false)
             | Some i =>
               raw ← index words i;
               match ql_fraction l with
               | Some j => fraction ← index words j;
                           mret (decodeLTEFractionalRSRP (i32 raw) fraction)
               | None => mret (decodeLTERSRP (i32 raw))
               end
             end;
    mret (Some (mkQR 0 0 1 pci arfcn 0 signal.1 signal.2 false))
  end.

(** * Frames *)

Definition qp_add_report (r : qmdlReport) (p : qmdlParser) : qmdlParser :=
  mkQP (qp_frames p) (qp_malformed p) (qp_candidates p) (qp_reports p ++ [r]) (qp_serving p)
    (qp_current p).
Definition qp_add_candidate (c : qmdlCandidate) (p : qmdlParser) : qmdlParser :=
  mkQP (qp_frames p) (qp_malformed p) (qp_candidates p ++ [c]) (qp_reports p) (qp_serving p)
    (qp_current p).
Definition qp_set_current (a : Z) (p : qmdlParser) : qmdlParser :=
  mkQP (qp_frames p) (qp_malformed p) (qp_candidates p) (qp_reports p) (qp_serving p) (Some a).

Definition addNRReport (p : qmdlParser) (seq fileIndex : Z) (words : list Z) (requiresARFCN : bool)
    : go Empty_set qmdlParser :=
  w3 ← index words 3;
  if 1007 <? w3 then mret p else
  w5 ← index words 5;
  if 1007 <? w5 then mret p else
  w4 ← index words 4; w6 ← index words 6;
  let rsrpRaw := i32 w4 in
  if negb (validQ7Signal rsrpRaw) || negb (validQ7Signal (i32 w6)) then mret p else
  mret (qp_add_report (mkQR seq fileIndex 0 w3 0 0
                         (roundQMDL (fdiv (f_of_Z rsrpRaw) (f_of_Z 128))) true requiresARFCN) p).

Definition addServing (p : qmdlParser) (seq : Z) (words : list Z) : go Empty_set qmdlParser :=
  w0 ← index words 0; w1 ← index words 1; w2 ← index words 2; w3 ← index words 3;
  w4 ← index words 4;
  let tenth w := Some (fdiv (f_of_Z (i32 w)) (f_of_Z 10)) in
  mret (mkQP (qp_frames p) (qp_malformed p) (qp_candidates p) (qp_reports p)
          (qp_serving p ++ [mkNativeServing seq (qp_current p) (i32 w0) w1
                              (tenth w2) (tenth w3) (tenth w4)])
          (qp_current p)).

(** The switch of [parseFrame] on serving-cell messages. *)
Definition parse_serving (p : qmdlParser) (logID : Z) (words : list Z) (seq : Z)
    : go Empty_set qmdlParser :=
  if logID =? 0xdcdda754 then
    if bool_decide (5 <= length words)%nat then w4 ← index words 4; mret (qp_set_current w4 p)
    else mret p
  else if logID =? 0xd9b9c660 then
    if bool_decide (2 <= length words)%nat
    then w0 ← index words 0; if 100000 <? w0 then mret (qp_set_current w0 p) else mret p
    else mret p
  else if logID =? 0xdcdda85c then
    if bool_decide (5 <= length words)%nat then addServing p seq words else mret p
  else mret p.

Definition parseFrame (p : qmdlParser) (payload : list Z) (seq fileIndex : Z)
    : go Empty_set qmdlParser :=
  if bool_decide (length payload <= 15)%nat then mret p else
  b0 ← index payload 0;
  if negb (b0 =? 0x9d) then mret p else
  b4 ← index payload 4;
  let wordCount := b4 - 0x13 in
  if (wordCount <? 0) || (neighborMaxDiagWords <? wordCount) ||
     (Z.of_nat (length payload) <? (wordCount + 4) * 4)
  then mret p else
  logID ← (b ← slice payload 12 16; Uint32 b);
  words ← go_map (fun i => b ← slice_from payload (16 + i * 4); Uint32 b)
            (List.seq 0 (Z.to_nat wordCount));
  candidate ← decodeQMDLCandidate logID words;
  let p := match candidate with
           | Some c => qp_add_candidate (mkQC seq fileIndex (qc_pci c) (qc_arfcn c) (qc_band c)) p
           | None => p
           end in
  p ← parse_serving p logID words seq;
  match qmdlNRReportSpec logID with
  | Some (strict, minimum) =>
    if bool_decide (minimum <= length words)%nat then addNRReport p seq fileIndex words strict
    else mret p
  | None =>
    report ← decodeQMDLLTEReport logID words;
    match report with
    | Some r => mret (qp_add_report (mkQR seq fileIndex (qr_rat r) (qr_pci r) (qr_arfcn r)
                        (qr_band r) (qr_rsrp r) (qr_direct r) (qr_requiresARFCN r)) p)
    | None => mret p
    end
  end.

(** * The stream *)

Record streamState := mkStream {
  st_parser : qmdlParser; st_frame : list Z; st_escaped : bool; st_seq : Z }.

Definition qp_malform (p : qmdlParser) : qmdlParser :=
  mkQP (qp_frames p) (qp_malformed p + 1) (qp_candidates p) (qp_reports p) (qp_serving p)
    (qp_current p).
Definition qp_frame (p : qmdlParser) : qmdlParser :=
  mkQP (qp_frames p + 1) (qp_malformed p) (qp_candidates p) (qp_reports p) (qp_serving p)
    (qp_current p).

Definition finishFrame (fileIndex : Z) (st : streamState) : go Empty_set streamState :=
  match st_frame st with
  | [] => mret (mkStream (st_parser st) [] false (st_seq st))
  | frame =>
    if st_escaped st || bool_decide (length frame <= 2)%nat
    then mret (mkStream (qp_malform (st_parser st)) [] false (st_seq st))
    else
      payload ← trim_end 2 frame;
      p ← parseFrame (st_parser st) payload (st_seq st) fileIndex;
      mret (mkStream (qp_frame p) [] false (u32 (st_seq st + 1)))
  end.

Definition stream_byte (fileIndex : Z) (st : streamState) (value : Z) : go Empty_set streamState :=
  if value =? 0x7e then finishFrame fileIndex st
  else if st_escaped st then
    mret (mkStream (st_parser st) (st_frame st ++ [Z.lxor value 0x20]) false (st_seq st))
  else if value =? 0x7d then mret (mkStream (st_parser st) (st_frame st) true (st_seq st))
  else mret (mkStream (st_parser st) (st_frame st ++ [value]) false (st_seq st)).

Inductive nbError := NbNotExist | NbCancelled | NbNothingOpened.

Section NbStream.
(** [ctx.Err() != nil] when file [file] has been read up to byte [n]. *)
Variable cancelled : nat -> nat -> bool.

Fixpoint stream_loop (file : nat) (bytesRead : nat) (st : streamState) (source : list Z)
    : go nbError streamState :=
  if (Z.of_nat bytesRead `mod` 4096 =? 0) && cancelled file bytesRead then Err NbCancelled else
  match source with
  | [] => match finishFrame (u32 (Z.of_nat file)) st with Ok st => Ok st | _ => Panic end
  | value :: rest =>
    match stream_byte (u32 (Z.of_nat file)) st value with
    | Ok st => stream_loop file (S bytesRead) st rest
    | _ => Panic
    end
  end.

Definition parseReader (p : qmdlParser) (source : list Z) (file : nat) : go nbError qmdlParser :=
  let p := mkQP (qp_frames p) (qp_malformed p) (qp_candidates p) (qp_reports p) (qp_serving p) None in
  st ← stream_loop file 0 (mkStream p [] false 0) source;
  mret (st_parser st).

(** The loop of [parseNeighborQMDLFiles]: index, files opened, parser.  A file
    that has been rotated away ([None]) is skipped. *)
Definition nb_file (acc : nat * nat * qmdlParser) (file : option (list Z))
    : go nbError (nat * nat * qmdlParser) :=
  let '(idx, opened, p) := acc in
  if cancelled idx 0 then Err NbCancelled else
  match file with
  | None => mret (S idx, opened, p)
  | Some content => p ← parseReader p content idx; mret (S idx, S opened, p)
  end.
End NbStream.

(** * The result *)

Definition addSeq (seq : Z) (a : qmdlAggregate) : qmdlAggregate :=
  let set_ f l := mkQA (qa_key a) (qa_band a) (qa_bandClash a) (qa_samples a) (qa_directHits a)
                    f l true (qa_rsrp a) in
  if negb (qa_hasSeq a) then set_ seq seq
  else set_ (if seq <? qa_firstSeq a then seq else qa_firstSeq a)
            (if qa_lastSeq a <? seq then seq else qa_lastSeq a).

(** [getAggregate] and the update through the pointer it returns. *)
Definition aggregates : Type := list qmdlAggregate * gmap qmdlAggregateKey nat.

Definition newAggregate (key : qmdlAggregateKey) : qmdlAggregate :=
  mkQA key 0 false 0 0 0 0 false [].

Definition with_aggregate (key : qmdlAggregateKey) (f : qmdlAggregate -> qmdlAggregate)
    (a : aggregates) : aggregates :=
  let '(l, positions) := a in
  match positions !! key with
  | Some position => (alter f position l, positions)
  | None => (l ++ [f (newAggregate key)], <[key := length l]> positions)
  end.

Definition count_report (report : qmdlReport) (a : qmdlAggregate) : qmdlAggregate :=
  let a := addSeq (qr_seq report)
             (mkQA (qa_key a) (qa_band a) (qa_bandClash a) (qa_samples a + 1) (qa_directHits a)
                (qa_firstSeq a) (qa_lastSeq a) (qa_hasSeq a) (qa_rsrp a)) in
  if qr_direct report
  then mkQA (qa_key a) (qa_band a) (qa_bandClash a) (qa_samples a) (qa_directHits a)
         (qa_firstSeq a) (qa_lastSeq a) (qa_hasSeq a) (qa_rsrp a ++ [qr_rsrp report])
  else a.

Definition add_qmdl_report (a : aggregates) (report : qmdlReport) : aggregates :=
  if (qr_rat report =? 0) && qr_requiresARFCN report && (qr_arfcn report =? 0) then a
  else with_aggregate (qr_rat report, qr_pci report, qr_arfcn report) (count_report report) a.

Definition count_candidate (c : qmdlCandidate) (a : qmdlAggregate) : qmdlAggregate :=
  let a := addSeq (qc_seq c)
             (mkQA (qa_key a) (qa_band a) (qa_bandClash a) (qa_samples a) (qa_directHits a + 1)
                (qa_firstSeq a) (qa_lastSeq a) (qa_hasSeq a) (qa_rsrp a)) in
  let set_ band clash := mkQA (qa_key a) band clash (qa_samples a) (qa_directHits a)
                           (qa_firstSeq a) (qa_lastSeq a) (qa_hasSeq a) (qa_rsrp a) in
  if qc_band c =? 0 then a
  else if qa_band a =? 0 then set_ (qc_band c) (qa_bandClash a)
  else if negb (qa_band a =? qc_band c) then set_ (qa_band a) true
  else a.

Definition add_qmdl_candidate (a : aggregates) (c : qmdlCandidate) : aggregates :=
  with_aggregate (0, qc_pci c, qc_arfcn c) (count_candidate c) a.

Definition qmdlRATName (rat : Z) : string := if rat =? 0 then "NR"%string else "LTE"%string.

Definition plausible (value : float64) : bool :=
  feqb value value && fleb (f_of_Z (-140)) value && fleb value (f_of_Z (-30)).

(** The scan of [correlateNRReports]. *)
Definition qmdl_scan (r : qmdlReport) (best : option (qmdlCandidate * Z)) (c : qmdlCandidate)
    : option (qmdlCandidate * Z) :=
  if negb (qc_file c =? qr_file r) || negb (qc_pci c =? qr_pci r) then best else
  let distance := unsignedDistance (qc_seq c) (qr_seq r) in
  match best with
  | None => Some (c, distance)
  | Some (_, bestDistance) => if distance <? bestDistance then Some (c, distance) else best
  end.

Definition qmdl_correlate (cs : list qmdlCandidate) (r : qmdlReport) : qmdlReport :=
  if negb (qr_rat r =? 0) then r else
  match fst <$> fold_left (qmdl_scan r) cs None with
  | Some c => mkQR (qr_seq r) (qr_file r) (qr_rat r) (qr_pci r) (qc_arfcn c) (qc_band c)
                (qr_rsrp r) (qr_direct r) (qr_requiresARFCN r)
  | None => r
  end.

Section NbResult.
Context `{SortSlice}.

Definition qmdl_median (valid : list float64) : option float64 :=
  match valid with
  | [] => None
  | _ =>
    let sorted := sortSlice fltb valid in
    let middle := (length sorted / 2)%nat in
    let at_ i := default f_zero (sorted !! i) in
    Some (if (length sorted `mod` 2 =? 0)%nat
          then roundQMDL (fdiv (fadd (at_ (middle - 1)%nat) (at_ middle)) (f_of_Z 2))
          else at_ middle)
  end.

Definition neighbor_of (a : qmdlAggregate) : nativeNeighborCell :=
  let '(rat, pci, arfcn) := qa_key a in
  let validRSRP := List.filter plausible (qa_rsrp a) in
  mkNativeNeighbor (qmdlRATName rat) pci
    (if negb (arfcn =? 0) then Some arfcn else None)
    (if negb (qa_band a =? 0) && negb (qa_bandClash a) then Some (qa_band a) else None)
    (if (qa_samples a =? 0)%nat then qa_directHits a else qa_samples a)
    (qa_directHits a) (qa_firstSeq a) (qa_lastSeq a)
    (qmdl_median validRSRP) (length validRSRP).

Definition collect (p : qmdlParser) : aggregates :=
  let reports := qmdl_correlate (qp_candidates p) <$> qp_reports p in
  fold_left add_qmdl_candidate (qp_candidates p)
    (fold_left add_qmdl_report reports ([], ∅)).

Definition result (p : qmdlParser) : nativeNeighborResult :=
  mkNativeResult "go-native" "1.2.1" (qp_frames p) (qp_malformed p) (qp_serving p)
    (neighbor_of <$> (collect p).1).

Definition parseNeighborQMDLFiles (cancelled : nat -> nat -> bool)
    (paths : list (option (list Z))) : go nbError nativeNeighborResult :=
  match paths with
  | [] => Err NbNotExist
  | _ =>
    acc ← go_fold (nb_file cancelled) (0%nat, 0%nat, newQP) paths;
    if (acc.1.2 =? 0)%nat then Err NbNothingOpened else mret (result acc.2)
  end.
End NbResult.

(** * What the parser promises *)

(** The parts of an aggregate that belong together. *)
Record aggregate_ok (a : qmdlAggregate) : Prop := mkAggregateOk {
  ao_seq : qa_hasSeq a = true /\ qa_firstSeq a <= qa_lastSeq a;
  ao_hits : (1 <= qa_samples a + qa_directHits a)%nat;
  ao_rat : (qa_key a).1.1 = 0 \/ (qa_key a).1.1 = 1 /\ qa_directHits a = 0%nat;
  ao_rsrp : (length (qa_rsrp a) <= qa_samples a)%nat }.

(** Positions and list of aggregates describe the same finite map. *)
Record aggregates_ok (a : aggregates) : Prop := mkAggregatesOk {
  as_keys : forall k i, a.2 !! k = Some i <-> qa_key <$> (a.1 !! i) = Some k;
  as_all : Forall aggregate_ok a.1 }.

(** A reducer candidate as the production parser's record. *)
Definition production_candidate (c : qshCandidate) : qmdlCandidate :=
  mkQC (c_seq c) (c_file c) (c_pci c) (c_arfcn c) (c_band c).

Definition production_decode (m : go Empty_set (option qshCandidate))
    : go Empty_set (option qmdlCandidate) :=
  match m with Ok o => Ok (production_candidate <$> o) | Err e => Err e | Panic => Panic end.

(** A file that has not been rotated away. *)
Definition opens (f : option (list Z)) : bool := match f with Some _ => true | None => false end.

Definition rat_ok (r : qmdlReport) : Prop := qr_rat r = 0 \/ qr_rat r = 1.

Definition neighbor_key (c : nativeNeighborCell) : string * Z * option Z :=
  (nn_RAT c, nn_PCI c, nn_ARFCN c).

Record neighbor_ok (c : nativeNeighborCell) : Prop := mkNeighborOk {
  no_samples : (1 <= nn_Samples c)%nat;
  no_plausible : (nn_PlausibleSamples c <= nn_Samples c)%nat;
  no_seq : nn_FirstSeq c <= nn_LastSeq c;
  no_median : nn_RSRPMedian c = None <-> nn_PlausibleSamples c = 0%nat;
  no_arfcn : nn_ARFCN c <> Some 0 /\ nn_Band c <> Some 0;
  no_rat : nn_RAT c = "NR"%string \/ nn_RAT c = "LTE"%string;
  no_hits : nn_RAT c = "LTE"%string -> nn_DirectHits c = 0%nat }.

(** * The aggregates are keyed *)

Lemma addSeq_fields seq a :
  qa_key (addSeq seq a) = qa_key a /\ qa_samples (addSeq seq a) = qa_samples a /\
  qa_directHits (addSeq seq a) = qa_directHits a /\ qa_rsrp (addSeq seq a) = qa_rsrp a /\
  qa_hasSeq (addSeq seq a) = true.
Proof. unfold addSeq. by destruct (negb _). Qed.

Lemma addSeq_order seq a :
  (qa_hasSeq a = true -> qa_firstSeq a <= qa_lastSeq a) ->
  qa_firstSeq (addSeq seq a) <= seq <= qa_lastSeq (addSeq seq a).
Proof.
  intros H. unfold addSeq. destruct (qa_hasSeq a); simpl; [|lia]. specialize (H eq_refl).
  destruct (seq <? _) eqn:H1, (_ <? seq) eqn:H2; bool_to_prop; lia.
Qed.

Lemma with_aggregate_ok key f a :
  aggregates_ok a ->
  (forall x, qa_key (f x) = qa_key x) ->
  (forall x, qa_key x = key -> x = newAggregate key \/ aggregate_ok x -> aggregate_ok (f x)) ->
  aggregates_ok (with_aggregate key f a).
Proof.
  intros [Hk Ha] Hkey Hf. destruct a as [l pos]. simpl in *. unfold with_aggregate.
  destruct (pos !! key) as [i|] eqn:Hi.
  - pose proof (proj1 (Hk key i) Hi) as Hl. destruct (l !! i) as [x|] eqn:Hx; [|done].
    injection Hl as Hxk. constructor; simpl.
    + intros k j. rewrite Hk. destruct (decide (i = j)) as [<-|Hne].
      * rewrite list_lookup_alter_eq, Hx. simpl. by rewrite Hkey, Hxk.
      * by rewrite list_lookup_alter_ne.
    + apply Forall_alter; [done|]. intros y Hy Hyok. rewrite Hx in Hy. injection Hy as <-.
      apply Hf; [done|by right].
  - constructor; simpl.
    + intros k j. destruct (decide (k = key)) as [->|Hne].
      * rewrite lookup_insert_eq. split.
        -- intros [= <-]. rewrite lookup_app_r, Nat.sub_diag by lia. simpl. by rewrite Hkey.
        -- intros Hj. destruct (decide (j < length l)%nat) as [Hlt|Hge].
           ++ rewrite lookup_app_l in Hj by done. apply Hk in Hj. congruence.
           ++ f_equal. destruct (decide (j = length l)) as [->|Hne]; [done|].
              rewrite lookup_ge_None_2 in Hj; [done|]. rewrite length_app. simpl. lia.
      * rewrite lookup_insert_ne by done. rewrite Hk. destruct (decide (j < length l)%nat) as [Hlt|Hge].
        -- by rewrite lookup_app_l.
        -- rewrite (lookup_ge_None_2 l) by lia. split; [done|]. intros Hj.
           destruct (decide (j = length l)) as [->|Hne2].
           ++ rewrite lookup_app_r, Nat.sub_diag in Hj by lia. simpl in Hj. rewrite Hkey in Hj. simpl in Hj. congruence.
           ++ rewrite lookup_ge_None_2 in Hj; [done|]. rewrite length_app. simpl. lia.
    + apply Forall_app_2; [done|]. apply Forall_singleton. apply Hf; [done|by left].
Qed.

Lemma count_report_ok key r x :
  key.1.1 = 0 \/ key.1.1 = 1 ->
  qa_key x = key -> x = newAggregate key \/ aggregate_ok x -> aggregate_ok (count_report r x).
Proof.
  intros Hrat Hk Hx. unfold count_report.
  set (y := mkQA (qa_key x) (qa_band x) (qa_bandClash x) (qa_samples x + 1) (qa_directHits x)
              (qa_firstSeq x) (qa_lastSeq x) (qa_hasSeq x) (qa_rsrp x)).
  destruct (addSeq_fields (qr_seq r) y) as (E1 & E2 & E3 & E4 & E5).
  pose proof (addSeq_order (qr_seq r) y) as Hord.
  assert (Hfl : qa_hasSeq y = true -> qa_firstSeq y <= qa_lastSeq y)
    by (subst y; destruct Hx as [->|[[_ ?] _ _ _]]; simpl; intros; [lia|done]).
  assert (Hrsrp : (length (qa_rsrp x) <= qa_samples x)%nat)
    by (destruct Hx as [->|[_ _ _ ?]]; [simpl; lia|done]).
  assert (Hdirect : (qa_key x).1.1 = 0 \/ (qa_key x).1.1 = 1 /\ qa_directHits x = 0%nat).
  { destruct Hx as [->|[_ _ ? _]]; [|done]. simpl. destruct Hrat; [by left|by right]. }
  specialize (Hord Hfl).
  destruct (qr_direct r); constructor; simpl; rewrite ?E1, ?E2, ?E3, ?E4, ?E5;
    subst y; simpl; rewrite ?length_app; simpl; try done; try lia; split; done || lia.
Qed.

Lemma count_candidate_ok key c x :
  key.1.1 = 0 ->
  qa_key x = key -> x = newAggregate key \/ aggregate_ok x -> aggregate_ok (count_candidate c x).
Proof.
  intros Hrat Hk Hx. unfold count_candidate.
  set (y := mkQA (qa_key x) (qa_band x) (qa_bandClash x) (qa_samples x) (qa_directHits x + 1)
              (qa_firstSeq x) (qa_lastSeq x) (qa_hasSeq x) (qa_rsrp x)).
  destruct (addSeq_fields (qc_seq c) y) as (E1 & E2 & E3 & E4 & E5).
  pose proof (addSeq_order (qc_seq c) y) as Hord.
  assert (Hfl : qa_hasSeq y = true -> qa_firstSeq y <= qa_lastSeq y)
    by (subst y; destruct Hx as [->|[[_ ?] _ _ _]]; simpl; intros; [lia|done]).
  assert (Hrsrp : (length (qa_rsrp x) <= qa_samples x)%nat)
    by (destruct Hx as [->|[_ _ _ ?]]; [simpl; lia|done]).
  specialize (Hord Hfl).
  assert (Hrat' : (qa_key x).1.1 = 0) by by rewrite Hk.
  repeat case_match; constructor; simpl; rewrite ?E1, ?E2, ?E3, ?E4, ?E5; subst y; simpl;
    auto; try lia; split; done || lia.
Qed.

Lemma count_report_key r x : qa_key (count_report r x) = qa_key x.
Proof. unfold count_report. case_match; simpl; by destruct (addSeq_fields (qr_seq r)
  (mkQA (qa_key x) (qa_band x) (qa_bandClash x) (qa_samples x + 1) (qa_directHits x)
     (qa_firstSeq x) (qa_lastSeq x) (qa_hasSeq x) (qa_rsrp x))) as (-> & _). Qed.

Lemma count_candidate_key c x : qa_key (count_candidate c x) = qa_key x.
Proof. unfold count_candidate. repeat case_match; simpl; by destruct (addSeq_fields (qc_seq c)
  (mkQA (qa_key x) (qa_band x) (qa_bandClash x) (qa_samples x) (qa_directHits x + 1)
     (qa_firstSeq x) (qa_lastSeq x) (qa_hasSeq x) (qa_rsrp x))) as (-> & _). Qed.

Lemma collect_ok p : Forall rat_ok (qp_reports p) -> aggregates_ok (collect p).
Proof.
  intros Hr. unfold collect.
  assert (Hr' : Forall rat_ok (qmdl_correlate (qp_candidates p) <$> qp_reports p)).
  { apply Forall_fmap. eapply Forall_impl; [exact Hr|]. intros r Hrr. unfold compose, qmdl_correlate.
    destruct (negb _) eqn:E; [done|]. case_match; [|done]. by left; apply negb_false_iff, Z.eqb_eq in E. }
  set (rs := qmdl_correlate _ <$> _) in *. clearbody rs.
  assert (H1 : aggregates_ok (fold_left add_qmdl_report rs ([], ∅))).
  { assert (H0 : aggregates_ok ([], ∅)).
    { constructor; simpl; [|constructor]. intros k i. rewrite lookup_empty. by destruct i. }
    revert H0. generalize (@nil qmdlAggregate, ∅ : gmap qmdlAggregateKey nat).
    induction Hr' as [|r rs Hrr _ IH]; intros a Ha; simpl; [done|]. apply IH.
    unfold add_qmdl_report. destruct (_ && _ && _); [done|].
    apply with_aggregate_ok; [done|apply count_report_key|]. intros x. apply count_report_ok. exact Hrr. }
  revert H1. generalize (fold_left add_qmdl_report rs ([], ∅)).
  induction (qp_candidates p) as [|c cs IH]; intros a Ha; simpl; [done|]. apply IH.
  unfold add_qmdl_candidate. apply with_aggregate_ok; [done|apply count_candidate_key|].
  intros x. by apply count_candidate_ok.
Qed.

Lemma aggregates_keys a : aggregates_ok a -> NoDup (qa_key <$> a.1).
Proof.
  intros [Hk _]. apply NoDup_alt. intros i j k Hi Hj.
  rewrite list_lookup_fmap in Hi, Hj. apply Hk in Hi, Hj. congruence.
Qed.

(** * The reported neighbours *)

Lemma filter_le {A} (f : A -> bool) l : (length (List.filter f l) <= length l)%nat.
Proof. induction l as [|x l IH]; simpl; [done|]. destruct (f x); simpl; lia. Qed.

Section ResultFacts.
Context `{SortSlice}.

Lemma neighbor_of_ok a : aggregate_ok a -> neighbor_ok (neighbor_of a).
Proof.
  intros [Hs Hh Hr Hl]. unfold neighbor_of. destruct (qa_key a) as [[rat pci] arfcn] eqn:Hk.
  pose proof (filter_le plausible (qa_rsrp a)) as Hle. simpl in Hr.
  constructor; simpl; try apply Hs.
  - destruct (qa_samples a =? 0)%nat eqn:E; bool_to_prop; lia.
  - destruct (qa_samples a =? 0)%nat eqn:E; bool_to_prop; lia.
  - unfold qmdl_median. by destruct (List.filter plausible (qa_rsrp a)).
  - split; [destruct (arfcn =? 0) eqn:E|destruct (qa_band a =? 0) eqn:E, (qa_bandClash a)];
      simpl; bool_to_prop; congruence.
  - unfold qmdlRATName. destruct (rat =? 0); auto.
  - unfold qmdlRATName. destruct (rat =? 0) eqn:E; [done|]. bool_to_prop. intros _.
    by destruct Hr as [?|[_ ?]].
Qed.

Lemma neighbor_key_inj a b :
  aggregate_ok a -> aggregate_ok b ->
  neighbor_key (neighbor_of a) = neighbor_key (neighbor_of b) -> qa_key a = qa_key b.
Proof.
  intros [_ _ Ha _] [_ _ Hb _]. unfold neighbor_of, neighbor_key.
  destruct (qa_key a) as [[r1 p1] a1], (qa_key b) as [[r2 p2] a2]. simpl in *.
  intros [= Hr -> Harf]. f_equal; [f_equal|].
  - unfold qmdlRATName in Hr. destruct (r1 =? 0) eqn:E1, (r2 =? 0) eqn:E2; bool_to_prop;
      try done; lia.
  - destruct (a1 =? 0) eqn:E1, (a2 =? 0) eqn:E2; bool_to_prop; simpl in Harf; congruence.
Qed.

Lemma result_ok p :
  Forall rat_ok (qp_reports p) ->
  Forall neighbor_ok (nr_Neighbors (result p)) /\
  NoDup (neighbor_key <$> nr_Neighbors (result p)).
Proof.
  intros Hr. pose proof (collect_ok p Hr) as Hc. pose proof (aggregates_keys _ Hc) as Hnd.
  pose proof (as_all _ Hc) as Hall. unfold result. simpl. split.
  - apply Forall_fmap. eapply Forall_impl; [exact Hall|]. intros a Ha. by apply neighbor_of_ok.
  - revert Hnd Hall. generalize (collect p).1. intros l. induction l as [|a l IH]; intros Hnd Hall.
    { constructor. }
    simpl in *. apply NoDup_cons in Hnd as [Ha Hnd]. apply Forall_cons in Hall as [Hao Hall].
    constructor; [|by apply IH]. intros Hin. apply Ha.
    rewrite <- list_fmap_compose in Hin. apply list_elem_of_fmap in Hin as (b & Heq & Hb).
    apply (proj1 (Forall_forall _ _) Hall) in Hb as Hbo.
    rewrite (neighbor_key_inj a b Hao Hbo Heq). by apply list_elem_of_fmap_2.
Qed.

End ResultFacts.

(** * No index out of range *)

Lemma qmdlLayout_cases logID l : qmdlLayoutOf logID = Some l ->
  (ql_arfcn l < ql_min l)%nat /\ (ql_pci l < ql_min l)%nat /\
  (ql_requireValid l = true -> (1 < ql_min l)%nat) /\
  (forall i, ql_rsrp l = Some i -> (i < ql_min l)%nat) /\
  (forall i, ql_fraction l = Some i -> (i < ql_min l)%nat).
Proof.
  unfold qmdlLayoutOf.
  repeat match goal with
  | |- context [if bool_decide (logID ∈ _) then _ else _] => case_bool_decide
  | |- context [if logID =? ?h then Some _ else _] => destruct (logID =? h)
  end; intros [= <-]; simpl; split_and!; intros; simplify_eq; lia.
Qed.

Lemma decodeQMDLLTEReport_total logID words : total (decodeQMDLLTEReport logID words).
Proof.
  unfold decodeQMDLLTEReport. destruct (qmdlLayoutOf logID) as [l|] eqn:Hl; [|by eexists].
  destruct (qmdlLayout_cases logID l Hl) as (Ha & Hp & Hv & Hr & Hf).
  case_bool_decide as Hlen; [by eexists|].
  total_walk; bool_to_prop; try lia; eauto with lia.
  all: try (specialize (Hv eq_refl)).
  all: repeat match goal with
       | Hx : forall i, Some ?n = Some i -> _ |- _ => specialize (Hx n eq_refl)
       end; lia.
Qed.

Lemma decodeQMDLCandidate_total logID words : total (decodeQMDLCandidate logID words).
Proof.
  unfold decodeQMDLCandidate, qmdl_candidate_fields.
  repeat match goal with
  | |- context [if bool_decide (logID ∈ _) then _ else _] => case_bool_decide
  | |- context [if logID =? ?h then Some _ else _] => destruct (logID =? h)
  end; total_walk; bool_to_prop; try lia; try (by eexists).
  all: case_match; lia.
Qed.

Lemma qmdlNRReportSpec_min logID strict minimum :
  qmdlNRReportSpec logID = Some (strict, minimum) -> (11 <= minimum)%nat.
Proof. unfold qmdlNRReportSpec. repeat case_match; intros [= <- <-]; lia. Qed.

Lemma nb_addNRReport_total p seq fi words strict :
  (7 <= length words)%nat -> total (addNRReport p seq fi words strict).
Proof. intros. unfold addNRReport. total_walk; lia. Qed.

Lemma parse_serving_total p logID words seq : total (parse_serving p logID words seq).
Proof. unfold parse_serving, addServing. total_walk; bool_to_prop; lia. Qed.

Lemma parseFrame_total p payload seq fi : total (parseFrame p payload seq fi).
Proof.
  unfold parseFrame. case_bool_decide as Hlen; [by eexists|].
  apply total_bind; [apply total_index; lia|]. intros b0 _. destruct (negb _); [by eexists|].
  apply total_bind; [apply total_index; lia|]. intros b4 _.
  destruct ((_ <? 0) || _ || _) eqn:Hw; [by eexists|].
  apply orb_false_iff in Hw as [Hw Hw3]. apply orb_false_iff in Hw as [Hw1 Hw2]. bool_to_prop.
  apply total_bind; [apply total_slice32; lia|]. intros logID _.
  apply total_bind; [apply read_words_total; lia|]. intros words _.
  apply total_bind; [apply decodeQMDLCandidate_total|]. intros c _.
  apply total_bind; [apply parse_serving_total|]. intros q _.
  destruct (qmdlNRReportSpec logID) as [[strict minimum]|] eqn:Hs.
  - case_bool_decide; [|by eexists]. apply qmdlNRReportSpec_min in Hs.
    apply nb_addNRReport_total. lia.
  - apply total_bind; [apply decodeQMDLLTEReport_total|]. intros [r|] _; by eexists.
Qed.

Lemma finishFrame_total fi st : total (finishFrame fi st).
Proof.
  unfold finishFrame. destruct (st_frame st) as [|b l] eqn:Hf; [by eexists|].
  destruct (_ || _) eqn:He; [by eexists|]. apply orb_false_iff in He as [_ He]. bool_to_prop.
  rewrite trim_end_ok by lia. cbn [mbind go_bind].
  apply total_bind; [apply parseFrame_total|]. intros. by eexists.
Qed.

Lemma stream_byte_total fi st v : total (stream_byte fi st v).
Proof. unfold stream_byte. total_walk. apply finishFrame_total. Qed.

(** * The frames keep the technology of a report *)

Lemma lte_report_rat logID words r :
  decodeQMDLLTEReport logID words = Ok (Some r) -> qr_rat r = 1.
Proof.
  unfold decodeQMDLLTEReport. intros H.
  repeat match type of H with
  | match qmdlLayoutOf ?l with _ => _ end = _ => destruct (qmdlLayoutOf l); [|done]
  | (if ?c then _ else _) = _ => destruct c; [done|]
  | (?m ≫= _) = _ => destruct m eqn:?; try done; cbn [mbind go_bind] in H
  end. by injection H as <-.
Qed.

Lemma parse_serving_reports p logID words seq p' :
  parse_serving p logID words seq = Ok p' -> qp_reports p' = qp_reports p.
Proof.
  unfold parse_serving, addServing. intros H.
  repeat first
    [ match type of H with
      | (if ?c then _ else _) = _ => destruct c
      | (?m ≫= _) = _ => destruct m eqn:?; try done; cbn [mbind go_bind] in H
      end ]; by injection H as <-.
Qed.

Lemma parseFrame_rat p payload seq fi p' :
  Forall rat_ok (qp_reports p) -> parseFrame p payload seq fi = Ok p' ->
  Forall rat_ok (qp_reports p').
Proof.
  intros Hp H. unfold parseFrame in H.
  repeat match type of H with
  | (if bool_decide (length payload <= 15)%nat then _ else _) = _ => case_bool_decide; [by injection H as <-|]
  | (if ?c then mret p else _) = _ => destruct c; [by injection H as <-|]
  | (parse_serving _ _ _ _ ≫= _) = _ => fail 1
  | (?m ≫= _) = _ => destruct m eqn:?; try done; cbn [mbind go_bind] in H
  end.
  destruct (parse_serving _ _ _ _) as [q| |] eqn:Hq; try done. cbn [mbind go_bind] in H.
  apply parse_serving_reports in Hq.
  assert (Hqr : Forall rat_ok (qp_reports q)) by (rewrite Hq; match goal with |- context [match ?o with Some _ => _ | None => _ end] => destruct o end; exact Hp).
  destruct (qmdlNRReportSpec _) as [[strict minimum]|].
  - case_bool_decide; [|by injection H as <-]. unfold addNRReport in H.
    repeat match type of H with
    | (if ?c then _ else _) = _ => destruct c; [by injection H as <-|]
    | (?m ≫= _) = _ => destruct m eqn:?; try done; cbn [mbind go_bind] in H
    end.
    injection H as <-. apply Forall_app_2; [done|]. apply Forall_singleton. by left.
  - destruct (decodeQMDLLTEReport _ _) as [o| |] eqn:Hr; try done. cbn [mbind go_bind] in H.
    destruct o as [r|]; injection H as <-; [|done].
    apply Forall_app_2; [done|]. apply Forall_singleton. right. by apply lte_report_rat in Hr.
Qed.

Lemma finishFrame_rat fi st st' :
  Forall rat_ok (qp_reports (st_parser st)) -> finishFrame fi st = Ok st' ->
  Forall rat_ok (qp_reports (st_parser st')).
Proof.
  intros Hr H. unfold finishFrame in H. destruct (st_frame st); [by injection H as <-|].
  destruct (_ || _); [by injection H as <-|].
  destruct (trim_end 2 _) as [payload| |]; try done. cbn [mbind go_bind] in H.
  destruct (parseFrame _ _ _ _) as [p| |] eqn:Hp; try done. injection H as <-. simpl.
  by eapply parseFrame_rat.
Qed.

Lemma stream_byte_rat fi st v st' :
  Forall rat_ok (qp_reports (st_parser st)) -> stream_byte fi st v = Ok st' ->
  Forall rat_ok (qp_reports (st_parser st')).
Proof.
  intros Hr H. unfold stream_byte in H.
  destruct (v =? 0x7e); [by eapply finishFrame_rat|].
  destruct (st_escaped st); [by injection H as <-|]. destruct (v =? 0x7d); by injection H as <-.
Qed.

(** The stream of a file: it fails only by cancellation. *)
Lemma stream_loop_spec cancelled file n st source :
  Forall rat_ok (qp_reports (st_parser st)) ->
  match stream_loop cancelled file n st source with
  | Ok st' => Forall rat_ok (qp_reports (st_parser st'))
  | Err e => e = NbCancelled /\ exists m, cancelled file m = true
  | Panic => False
  end.
Proof.
  revert n st. induction source as [|v source IH]; intros n st Hr; simpl;
    (destruct (_ && _) eqn:Hc; [split; [done|]; bool_to_prop; by exists n|]).
  - destruct (finishFrame_total (u32 (Z.of_nat file)) st) as [st' Hst]. rewrite Hst.
    by eapply finishFrame_rat.
  - destruct (stream_byte_total (u32 (Z.of_nat file)) st v) as [st' Hst]. rewrite Hst.
    apply IH. by eapply stream_byte_rat.
Qed.

Lemma nb_files_spec cancelled acc files :
  Forall rat_ok (qp_reports acc.2) ->
  match go_fold (nb_file cancelled) acc files with
  | Ok acc' => Forall rat_ok (qp_reports acc'.2) /\
      acc'.1.2 = (acc.1.2 + length (List.filter opens files))%nat
  | Err e => e = NbCancelled /\ exists f m, cancelled f m = true
  | Panic => False
  end.
Proof.
  revert acc. induction files as [|f files IH]; intros [[i o] p] Hr; simpl in *.
  { split; [done|lia]. }
  destruct (cancelled i 0%nat) eqn:Hc; [split; [done|]; by eauto|].
  destruct f as [content|].
  - unfold parseReader. match goal with |- context [stream_loop ?a ?b ?c ?d ?e] =>
      pose proof (stream_loop_spec a b c d e) as Hs; destruct (stream_loop a b c d e) as [st| |] end;
      simpl in *; specialize (Hs Hr).
    + specialize (IH (S i, S o, st_parser st) Hs). simpl in IH.
      destruct (go_fold _ _ _) as [acc'| |]; try done. destruct IH as [? ->]. split; [done|].
      simpl. lia.
    + destruct Hs as (-> & m & ?). eauto.
    + done.
  - exact (IH (S i, o, p) Hr).
Qed.

(** The signal half of the two LTE decoders. *)
Lemma lte_tail_agrees logID l words arfcn pci :
  lteLayoutOf logID = Some l ->
  (forall i, l_rsrp l = Some i -> (i < l_min l)%nat) ->
  (forall i, l_fraction l = Some i -> (i < l_min l)%nat) ->
  (forall i, l_rsrq l = Some i -> (i < l_min l)%nat) ->
  (l_min l <= length words)%nat ->
  exists rsrp direct rest,
    (match l_rsrp l with
     | None => mret (f_zero, false)
     | Some i =>
       raw ← index words i;
       match l_fraction l with
       | Some j => fraction ← index words j; mret (decodeLTEFractionalRSRP (i32 raw) fraction)
       | None => mret (decodeLTERSRP (i32 raw))
       end
     end) = @Ok Empty_set _ (rsrp, direct) /\
    (let report rsrp direct := mkReport 0 0 1 pci arfcn 0 rsrp direct false in
     match l_rsrp l with
     | None => mret (report f_zero false, true, true)
     | Some i =>
       raw ← index words i;
       signal ← match l_fraction l with
                | Some j => fraction ← index words j;
                            mret (ReducerQmdl.decodeLTEFractionalRSRP (i32 raw) fraction)
                | None => mret (ReducerQmdl.decodeLTERSRP (i32 raw))
                end;
       rsrqOK ← match l_rsrq l with
                | Some j => rsrq ← index words j; mret (validLTERSRQRaw (i32 rsrq))
                | None => mret true
                end;
       let r := report signal.1 signal.2 in
       if negb rsrqOK then mret (r, true, false) else mret (r, true, signal.2)
     end) = @Ok Empty_set _ (mkReport 0 0 1 pci arfcn 0 rsrp direct false, true, rest) /\
    (rest = true <-> l_rsrp l = None \/ direct = true /\
       forall j w, l_rsrq l = Some j -> words !! j = Some w -> validLTERSRQRaw (i32 w) = true).
Proof.
  intros Hl Hr Hf Hq Hlen. destruct (l_rsrp l) as [i|]; [|].
  2: { exists f_zero, false, true. split_and!; [done..|]. split; [by left|done]. }
  specialize (Hr i eq_refl).
  destruct (@index_in_range Empty_set Z words i ltac:(lia)) as (raw & _ & ->). cbn [mbind go_bind].
  assert (Hsig : exists rsrp direct,
    match l_fraction l with
    | Some j => fraction ← index words j; mret (decodeLTEFractionalRSRP (i32 raw) fraction)
    | None => mret (decodeLTERSRP (i32 raw))
    end = @Ok Empty_set _ (rsrp, direct)).
  { destruct (l_fraction l) as [j|].
    - specialize (Hf j eq_refl).
      destruct (@index_in_range Empty_set Z words j ltac:(lia)) as (fr & _ & ->). cbn [mbind go_bind].
      destruct (decodeLTEFractionalRSRP (i32 raw) fr) as [v d] eqn:Hv. by exists v, d.
    - destruct (decodeLTERSRP (i32 raw)) as [v d] eqn:Hv. by exists v, d. }
  destruct Hsig as (rsrp & direct & Hsig). exists rsrp, direct.
  change (match l_fraction l with
    | Some j => fraction ← index words j; mret (ReducerQmdl.decodeLTEFractionalRSRP (i32 raw) fraction)
    | None => mret (ReducerQmdl.decodeLTERSRP (i32 raw)) end)
    with (match l_fraction l with
    | Some j => fraction ← index words j; mret (decodeLTEFractionalRSRP (i32 raw) fraction)
    | None => @mret (go Empty_set) _ _ (decodeLTERSRP (i32 raw)) end).
  rewrite Hsig. cbn [mbind go_bind].
  destruct (l_rsrq l) as [j|].
  - specialize (Hq j eq_refl).
    destruct (@index_in_range Empty_set Z words j ltac:(lia)) as (w & Hw & ->). cbn [mbind go_bind].
    destruct (validLTERSRQRaw (i32 w)) eqn:Hvalid.
    + exists direct. split_and!; [done..|]. split.
      * intros ->. right. split; [done|]. intros j' w' [= <-] Hw'. congruence.
      * intros [?|[-> _]]; done.
    + exists false. split_and!; [done..|]. split; [done|].
      intros [?|[_ Hall]]; [done|]. specialize (Hall j w eq_refl Hw). congruence.
  - exists direct. split_and!; [done..|]. split; [intros ->; by right|]. by intros [?|[-> _]].
Qed.

(** * Agreement with the reducer *)

Lemma spec_agrees logID : qmdlNRReportSpec logID = nrReportSpec logID.
Proof. done. Qed.

Lemma candidate_agrees logID words :
  decodeQMDLCandidate logID words =
  production_decode (decodeQSHCandidate logID words).
Proof.
  unfold decodeQMDLCandidate, decodeQSHCandidate.
  change (qmdl_candidate_fields logID words) with (candidate_fields logID words).
  destruct (candidate_fields logID words) as [fields|]; [|done].
  destruct fields as [[minimum [[band arfcn] pci]]| |]; [|done..]. cbn [mbind go_bind].
  by destruct (_ || _ || _ || _ || _).
Qed.

Lemma layout_agrees logID :
  qmdlLayoutOf logID =
  (fun l => mkQL (l_min l) (l_arfcn l) (l_pci l) (l_rsrp l) (l_fraction l) (l_requireValid l)) <$>
    lteLayoutOf logID.
Proof.
  unfold qmdlLayoutOf, lteLayoutOf.
  repeat match goal with
  | |- context [if bool_decide (logID ∈ ?l) then _ else _] => destruct (bool_decide (logID ∈ l)); [done|]
  | |- context [if logID =? ?h then Some _ else _] => destruct (logID =? h); [done|]
  end. done.
Qed.

(** * Properties *)

Lemma parseNeighborQMDLFiles_no_panic `{SortSlice} cancelled files :
  parseNeighborQMDLFiles cancelled files <> Panic.
Proof.
  unfold parseNeighborQMDLFiles. destruct files as [|f files]; [done|].
  pose proof (nb_files_spec cancelled (0%nat, 0%nat, newQP) (f :: files) ltac:(constructor)) as Hs.
  destruct (go_fold _ _ _) as [acc|e|]; cbn [mbind go_bind]; [|done|done]. by destruct (_ =? 0)%nat.
Qed.

(** parsing the ring of QMDL files never panics, on any file contents.  It
    fails only when there are no files, when the request is cancelled, or when
    every file has been rotated away before it could be opened.  Otherwise the
    neighbours it reports are distinct by technology, PCI and channel, and each
    has at least one sample, no more plausible than counted samples, an ordered
    sequence range, a median exactly when some value is plausible, and never a
    zero channel or band; direct hits belong to NR cells only. *)
Theorem parseNeighborQMDLFiles_sound `{SortSlice} (cancelled : nat -> nat -> bool)
    (files : list (option (list Z))) :
  match parseNeighborQMDLFiles cancelled files with
  | Ok r => (exists f, f ∈ files /\ f <> None) /\
            Forall neighbor_ok (nr_Neighbors r) /\ NoDup (neighbor_key <$> nr_Neighbors r)
  | Err NbNotExist => files = []
  | Err NbCancelled => exists f n, cancelled f n = true
  | Err NbNothingOpened => files <> [] /\ Forall (fun f => f = None) files
  | Panic => False
  end.
Proof.
  unfold parseNeighborQMDLFiles. destruct files as [|f0 files]; [done|].
  set (fs := f0 :: files) in *. assert (Hne : fs <> []) by done. pose proof (nb_files_spec cancelled (0%nat, 0%nat, newQP) fs) as Hs.
  destruct (go_fold _ _ fs) as [acc|e|]; simpl in *; specialize (Hs ltac:(constructor)).
  - destruct Hs as [Hr Ho]. change (acc.1.2 = length (List.filter opens fs)) in Ho.
    clearbody fs. destruct (acc.1.2 =? 0)%nat eqn:E; bool_to_prop.
    + split; [exact Hne|]. apply Forall_forall. intros [c|] Hf; [|done]. exfalso.
      assert (Hin : In (Some c) (List.filter opens fs)) by (apply filter_In; split; [by apply list_elem_of_In|done]).
      destruct (List.filter opens fs); simpl in *; [done|lia].
    + split; [|by apply result_ok]. destruct (List.filter opens fs) as [|f l] eqn:Hl; [simpl in Ho; lia|].
      assert (Hin : In f (List.filter opens fs)) by (rewrite Hl; by left).
      apply filter_In in Hin as [Hin Hop]. exists f. split; [by apply list_elem_of_In|].
      by destruct f.
  - destruct Hs as [-> Hs]. done.
  - done.
Qed.

(** the reducer decodes as the production parser does, up to the RSRQ
    check it adds: NR report layouts and candidate messages are the same
    functions, and an LTE message is decoded to the same technology, PCI,
    channel and RSRP; the reducer accepts it exactly when the production
    parser does, the signal is measured or the layout has none, and the RSRQ
    word, where the layout names one, is plausible. *)
Theorem decoders_agree (logID : Z) (words : list Z) :
  qmdlNRReportSpec logID = nrReportSpec logID /\
  decodeQMDLCandidate logID words =
    production_decode (decodeQSHCandidate logID words) /\
  (forall r, decodeQSHLTEReport logID words = Ok (r, true, true) ->
     decodeQMDLLTEReport logID words =
       Ok (Some (mkQR 0 0 1 (r_pci r) (r_arfcn r) 0 (r_rsrp r) (r_direct r) false))) /\
  (forall q, decodeQMDLLTEReport logID words = Ok (Some q) ->
     exists r valid, decodeQSHLTEReport logID words = Ok (r, true, valid) /\
       r_pci r = qr_pci q /\ r_arfcn r = qr_arfcn q /\ r_rsrp r = qr_rsrp q /\
       r_direct r = qr_direct q /\
       (valid = true <-> exists l, lteLayoutOf logID = Some l /\
          (l_rsrp l = None \/ qr_direct q = true /\
           forall j w, l_rsrq l = Some j -> words !! j = Some w -> validLTERSRQRaw (i32 w) = true))).
Proof.
  split; [apply spec_agrees|]. split; [apply candidate_agrees|].
  unfold decodeQSHLTEReport, decodeQMDLLTEReport. rewrite layout_agrees.
  destruct (lteLayoutOf logID) as [l|] eqn:Hl; [|split; intros ?; done]. cbn [fmap option_fmap option_map].
  destruct (lteLayout_cases logID l Hl) as (Ha & Hp & Hv & Hr & Hf & Hq). cbn [ql_min ql_arfcn ql_pci ql_rsrp ql_fraction ql_requireValid].
  case_bool_decide as Hlen; [split; intros ?; done|].
  destruct (index words (l_arfcn l)) as [arfcn| |]; [|split; intros ?; done..]. cbn [mbind go_bind].
  destruct (index words (l_pci l)) as [pci| |]; [|split; intros ?; done..]. cbn [mbind go_bind].
  destruct (if l_requireValid l then _ else _) as [flag| |]; [|split; intros ?; done..]. cbn [mbind go_bind].
  destruct (l_requireValid l && _); [split; intros ?; done|].
  destruct (_ || _ || _); [split; intros ?; done|].
  destruct (lte_tail_agrees logID l words arfcn pci Hl Hr Hf Hq ltac:(lia))
    as (rsrp & direct & valid & H1 & H2 & H3).
  cbn zeta in H2. rewrite H1, H2. cbn [mbind go_bind fst snd]. split.
  - intros r [= <- ->]. done.
  - intros q [= <-]. eexists _, _. split; [done|]. split_and!; try done. rewrite H3. split.
    + intros Hor. by exists l.
    + intros (l' & Hl' & Hor). by simplify_eq.
Qed.
