(* ===== verification/NeighborCell.v ===== *)
(** The neighbour-cell result of the web service,
    [src/gossh/app/service/neighbor_cell.go]: cells read from the ubus snapshot
    and their combination with the cells of the QMDL parser. *)

From S2P Require Import Prelude.
From S2P Require Import GoInt.
From S2P Require Import GoFloat.
From S2P Require Import GoStrings.
From S2P Require Import GoStrconv.
From S2P Require Import NeighborQmdl.
Open Scope Z_scope.

(** A decoded JSON value of the snapshot: [UOther] carries the text
    [fmt.Sprint] gives for an array or an object. *)
Inductive uval := UString (s : string) | UJsonNumber (s : string) | UFloat (f : float64)
                | UBool (b : bool) | UNull | UOther (printed : string).

Definition neighborUbusSnapshot : Type := gmap string uval.

Record NeighborCell := mkCell {
  RAT : string; PCI : Z; ARFCN : option Z; Band : option Z; Samples : nat; DirectHits : nat;
  FirstSeq : Z; LastSeq : Z; RSRPMedian : option float64; PlausibleSamples : nat;
  RSRQ : option float64; SINR : option float64; Bandwidth : string }.

Record NeighborCellResult := mkCellResult {
  Engine : string; Version : string; Source : string; rFrames : nat; rMalformed : nat;
  Serving : list NeighborCell; Neighbors : list NeighborCell;
  NetworkType : string; NetworkProvider : string; Warning : string }.

Definition text (snapshot : neighborUbusSnapshot) (key : string) : string :=
  match snapshot !! key with
  | None | Some UNull => ""%string
  | Some (UString s) => TrimSpace s
  | Some (UJsonNumber s) => s
  | Some (UFloat f) => FormatFloat f
  | Some (UBool b) => if b then "true"%string else "false"%string
  | Some (UOther printed) => TrimSpace printed
  end.

Definition isEmptyNeighborValue (value : string) : bool :=
  bool_decide (ToUpper (TrimSpace value) ∈ [""; "-"; "--"; "N/A"; "NA"; "NULL"; "UNKNOWN"]%string).

(** [(value, ok)] as an option: every caller uses the value only when [ok]. *)
Definition optionalInt (value : string) : option Z :=
  let value := TrimSpace value in
  if isEmptyNeighborValue value then None else Atoi value.

Definition optionalFloatPtr (value : string) : option float64 :=
  let value := TrimSpace value in
  if isEmptyNeighborValue value then None else
  ParseFloat (match Fields value with f :: _ => f | [] => value end).

(** [strings.NewReplacer("_", " ", "-", " ")]. *)
Definition space_separators (c : ascii) : ascii :=
  if (ord c =? 95) || (ord c =? 45) then chr 32 else c.

Definition parseNeighborBand (value : string) : option Z :=
  let value := ToUpper (TrimSpace value) in
  let value := of_chars (space_separators <$> chars value) in
  let value := Join (Fields value) " " in
  let value := fold_left TrimPrefix
                 ["LTE BAND "; "NR BAND "; "BAND "; "LTE "; "NR "]%string value in
  let value := TrimSpace value in
  match chars value with
  | c :: ((_ :: _) as tl) =>
    if (ord c =? 66) || (ord c =? 78) then optionalInt (TrimSpace (of_chars tl))
    else optionalInt value
  | _ => optionalInt value
  end.

Definition sameOptionalInt (left right : option Z) : bool :=
  match left, right with
  | None, None => true
  | Some l, Some r => l =? r
  | _, _ => false
  end.

Definition semicolon : ascii := chr 59.
Definition comma : ascii := chr 44.

Definition splitNeighborFields (value : string) : list string := TrimSpace <$> Split1 value comma.

Fixpoint lteBandwidth_loop (items : list string) : string :=
  match items with
  | [] => ""%string
  | item :: items =>
    match splitNeighborFields item !! 4%nat with
    | Some f => if bool_decide (f = ""%string) then lteBandwidth_loop items else f
    | None => lteBandwidth_loop items
    end
  end.

Definition lteBandwidthFromCA (value : string) : string := lteBandwidth_loop (Split1 value semicolon).

Definition currentLTECell (snapshot : neighborUbusSnapshot) : option NeighborCell :=
  pci ← optionalInt (text snapshot "lte_pci");
  if (pci <? 0) || (503 <? pci) then None else
  Some (mkCell "LTE" pci (optionalInt (text snapshot "wan_active_channel"))
    (parseNeighborBand (text snapshot "wan_active_band")) 1 0 0 0
    (optionalFloatPtr (text snapshot "lte_rsrp")) 0
    (optionalFloatPtr (text snapshot "lte_rsrq")) (optionalFloatPtr (text snapshot "lte_snr"))
    (lteBandwidthFromCA (text snapshot "lteca"))).

Definition currentNRCell (snapshot : neighborUbusSnapshot) : option NeighborCell :=
  pci ← optionalInt (text snapshot "nr5g_pci");
  if (pci <? 0) || (1007 <? pci) then None else
  let bandText := text snapshot "nr5g_action_band" in
  let bandText := if bool_decide (bandText = ""%string) then text snapshot "wan_active_band"
                  else bandText in
  Some (mkCell "NR" pci (optionalInt (text snapshot "nr5g_action_channel"))
    (parseNeighborBand bandText) 1 0 0 0
    (optionalFloatPtr (text snapshot "nr5g_rsrp")) 0
    (optionalFloatPtr (text snapshot "nr5g_rsrq")) (optionalFloatPtr (text snapshot "nr5g_snr"))
    (text snapshot "nr5g_bandwidth")).

(** One item of the carrier-aggregation lists; [None] is [continue]. *)
Definition lteca_item (serving : NeighborCell) (item : string) : option NeighborCell :=
  match splitNeighborFields item with
  | f0 :: f1 :: _ :: f3 :: f4 :: _ =>
    pci ← optionalInt f0;
    if (pci <? 0) || (503 <? pci) then None else
    if (pci =? PCI serving) && sameOptionalInt (optionalInt f3) (ARFCN serving) then None else
    Some (mkCell "LTE" pci (optionalInt f3) (parseNeighborBand f1) 1 0 0 0 None 0 None None f4)
  | _ => None
  end.

Definition parseLTECA (value : string) (serving : NeighborCell) : list NeighborCell :=
  omap (lteca_item serving) (Split1 value semicolon).

Definition nrca_item (item : string) : option NeighborCell :=
  match splitNeighborFields item with
  | _ :: f1 :: _ :: f3 :: f4 :: f5 :: _ :: f7 :: _ :: f9 :: _ :: _ =>
    pci ← optionalInt f1;
    if (pci <? 0) || (1007 <? pci) then None else
    Some (mkCell "NR" pci (optionalInt f4) (parseNeighborBand f3) 1 0 0 0 (optionalFloatPtr f7) 0
            None (optionalFloatPtr f9) f5)
  | _ => None
  end.

Definition parseNRCA (value : string) : list NeighborCell := omap nrca_item (Split1 value semicolon).

(** The technologies [neighborResultFromUbus] reads: [(isLTE, isNR)]. *)
Definition active_rats (snapshot : neighborUbusSnapshot) : bool * bool :=
  let mode := ToUpper (text snapshot "network_type") in
  let isNSA := Contains mode "NSA" || Contains mode "ENDC" in
  let isNR := isNSA || Contains mode "5G" || Contains mode "NR" || Contains mode "SA" in
  let isLTE := isNSA || Contains mode "LTE" || Contains mode "4G" in
  if negb isLTE && negb isNR
  then (negb (bool_decide (text snapshot "lte_pci" = ""%string)),
        negb (bool_decide (text snapshot "nr5g_pci" = ""%string)))
  else (isLTE, isNR).

Definition neighborResultFromUbus (snapshot : neighborUbusSnapshot) : NeighborCellResult :=
  let '(isLTE, isNR) := active_rats snapshot in
  let '(serving, neighbors) :=
    match (if isLTE then currentLTECell snapshot else None) with
    | Some cell => ([cell], parseLTECA (text snapshot "lteca") cell)
    | None => ([], [])
    end in
  let serving := match (if isNR then currentNRCell snapshot else None) with
                 | Some cell => serving ++ [cell]
                 | None => serving
                 end in
  let neighbors := if isNR then neighbors ++ parseNRCA (text snapshot "nrca") else neighbors in
  mkCellResult "ubus" "native" "ubus" 0 0 serving neighbors (text snapshot "network_type")
    (text snapshot "network_provider") "".

Definition isCurrentServingCell (candidate : NeighborCell) (serving : list NeighborCell) : bool :=
  existsb (fun cell => EqualFold (RAT cell) (RAT candidate) && (PCI cell =? PCI candidate) &&
             sameOptionalInt (ARFCN cell) (ARFCN candidate)) serving.

Definition matchServingCell (pci : Z) (arfcn : option Z) (cells : list NeighborCell)
    : option NeighborCell :=
  List.find (fun cell => (PCI cell =? pci) &&
    match arfcn, ARFCN cell with Some a, Some b => a =? b | _, _ => true end) cells.

(** The cells [appendUniqueNeighborCell] takes to be the same. *)
Definition same_cell (a b : NeighborCell) : bool :=
  bool_decide (RAT a = RAT b) && (PCI a =? PCI b) && sameOptionalInt (ARFCN a) (ARFCN b).

Definition appendUniqueNeighborCell (cells : list NeighborCell) (candidate : NeighborCell)
    : list NeighborCell :=
  if existsb (fun cell => same_cell cell candidate) cells then cells else cells ++ [candidate].

Definition inferNativeRAT (pci : Z) (arfcn : option Z) (networkType : string) : string :=
  if 503 <? pci then "NR"%string else
  if match arfcn with Some a => 262143 <? a | None => false end then "NR"%string else
  let mode := ToUpper networkType in
  if Contains mode "NSA" || Contains mode "ENDC" || Contains mode "5G" || Contains mode "NR" ||
     Contains mode "SA" then "NR"%string else "LTE"%string.

Definition bandForRAT (rat : string) (cells : list NeighborCell) : option Z :=
  cell ← List.find (fun cell => bool_decide (RAT cell = rat) && bool_decide (is_Some (Band cell))) cells;
  Band cell.

(** A serving cell of the parser, completed from the snapshot. *)
Definition adapt_serving (ubus : NeighborCellResult) (raw : nativeServingCell) : NeighborCell :=
  let cell := match matchServingCell (ns_PCI raw) (ns_ARFCN raw) (Serving ubus) with
              | Some cell => cell
              | None =>
                let rat := inferNativeRAT (ns_PCI raw) (ns_ARFCN raw) (NetworkType ubus) in
                mkCell rat (ns_PCI raw) (ns_ARFCN raw) (bandForRAT rat (Serving ubus)) 0 0 0 0
                  None 0 None None ""
              end in
  mkCell (RAT cell) (PCI cell) (ARFCN cell) (Band cell) 1 (DirectHits cell) (FirstSeq cell)
    (LastSeq cell) (ns_RSRPDBM raw) (PlausibleSamples cell) (ns_RSRQDB raw) (ns_SINRDB raw)
    (Bandwidth cell).

Definition adapt_neighbor (ubus : NeighborCellResult) (raw : nativeNeighborCell) : NeighborCell :=
  let rat := ToUpper (TrimSpace (nn_RAT raw)) in
  let rat := if bool_decide (rat = ""%string)
             then inferNativeRAT (nn_PCI raw) (nn_ARFCN raw) (NetworkType ubus) else rat in
  mkCell rat (nn_PCI raw) (nn_ARFCN raw) (nn_Band raw) (nn_Samples raw) (nn_DirectHits raw)
    (nn_FirstSeq raw) (nn_LastSeq raw) (nn_RSRPMedian raw) (nn_PlausibleSamples raw) None None "".

Definition add_native_neighbor (ubus : NeighborCellResult) (serving neighbors : list NeighborCell)
    (raw : nativeNeighborCell) : list NeighborCell :=
  let cell := adapt_neighbor ubus raw in
  if isCurrentServingCell cell serving then neighbors else appendUniqueNeighborCell neighbors cell.

Definition adaptNativeNeighborResult (native : nativeNeighborResult)
    (snapshot : neighborUbusSnapshot) : NeighborCellResult :=
  let ubus := neighborResultFromUbus snapshot in
  let serving := fold_left (fun cells raw => appendUniqueNeighborCell cells (adapt_serving ubus raw))
                   (nr_Serving native) [] in
  let serving := fold_left appendUniqueNeighborCell (Serving ubus) serving in
  let neighbors := fold_left (add_native_neighbor ubus serving) (nr_Neighbors native) [] in
  mkCellResult (nr_Engine native) (nr_Version native) "parser" (nr_Frames native)
    (nr_Malformed native) serving neighbors (NetworkType ubus) (NetworkProvider ubus) "".

(** The identity of a cell, and the range of its PCI. *)
Definition cell_key (c : NeighborCell) : string * Z * option Z := (RAT c, PCI c, ARFCN c).

Definition cell_in_range (c : NeighborCell) : Prop :=
  (RAT c = "LTE"%string /\ 0 <= PCI c <= 503) \/ (RAT c = "NR"%string /\ 0 <= PCI c <= 1007).

(** A snapshot with an LTE anchor, two secondary LTE cells (one of them the
    anchor itself) and an NR cell. *)
Definition sample_snapshot : neighborUbusSnapshot :=
  list_to_map
    [("network_type", UString "ENDC"); ("lte_pci", UString "101"); ("wan_active_channel", UString "1300");
     ("wan_active_band", UString "LTE BAND 3"); ("lte_rsrp", UString "-95");
     ("lteca", UString "101,3,1,1300,20.0;7,B1,1,100,15.0"); ("nr5g_pci", UFloat (f_of_Z 500));
     ("nr5g_action_channel", UString "504990"); ("nr5g_action_band", UString "n41")]%string.

(** * Lemmas *)

Lemma sameOptionalInt_spec l r : sameOptionalInt l r = true <-> l = r.
Proof.
  destruct l, r; simpl; try done. rewrite Z.eqb_eq. split; congruence.
Qed.

Lemma same_cell_spec a b : same_cell a b = true <-> cell_key a = cell_key b.
Proof.
  unfold same_cell, cell_key. rewrite !andb_true_iff, bool_decide_eq_true, Z.eqb_eq, sameOptionalInt_spec.
  split; [intros [[-> ->] ->]; done|]. by intros [= -> -> ->].
Qed.

Lemma append_unique_elem cells c x :
  x ∈ appendUniqueNeighborCell cells c <->
  x ∈ cells \/ x = c /\ cell_key c ∉ (cell_key <$> cells).
Proof.
  unfold appendUniqueNeighborCell. destruct (existsb _ cells) eqn:E.
  - split; [by left|]. intros [?|[-> Hc]]; [done|]. exfalso. apply Hc.
    apply existsb_exists in E as (y & Hy & Hs). apply same_cell_spec in Hs as <-.
    by apply list_elem_of_fmap_2, list_elem_of_In.
  - rewrite elem_of_app, list_elem_of_singleton. split; [|intros [?|[? _]]; auto].
    intros [? | ->]; [by left|]. right. split; [done|].
    intros (y & Hk & Hy)%list_elem_of_fmap.
    assert (Ht : existsb (fun cell => same_cell cell c) cells = true).
    { apply existsb_exists. exists y. split; [by apply list_elem_of_In|]. by apply same_cell_spec. }
    congruence.
Qed.

Lemma append_unique_keys cells c :
  NoDup (cell_key <$> cells) -> NoDup (cell_key <$> appendUniqueNeighborCell cells c).
Proof.
  intros Hnd. unfold appendUniqueNeighborCell. destruct (existsb _ cells) eqn:E; [done|].
  rewrite fmap_app. apply NoDup_app. split_and!; [done| |apply NoDup_singleton].
  intros k Hk Hin. apply list_elem_of_singleton in Hin as ->.
  apply list_elem_of_fmap in Hk as (y & Hk & Hy).
  assert (Ht : existsb (fun cell => same_cell cell c) cells = true).
  { apply existsb_exists. exists y. split; [by apply list_elem_of_In|]. by apply same_cell_spec. }
  congruence.
Qed.

Lemma append_unique_has cells c : cell_key c ∈ (cell_key <$> appendUniqueNeighborCell cells c).
Proof.
  destruct (decide (cell_key c ∈ (cell_key <$> cells))) as [Hin|Hno].
  - apply list_elem_of_fmap in Hin as (y & -> & Hy). apply list_elem_of_fmap_2, append_unique_elem. by left.
  - apply list_elem_of_fmap_2, append_unique_elem. by right.
Qed.

Lemma append_unique_keeps cells c k :
  k ∈ (cell_key <$> cells) -> k ∈ (cell_key <$> appendUniqueNeighborCell cells c).
Proof.
  intros (y & -> & Hy)%list_elem_of_fmap. apply list_elem_of_fmap_2, append_unique_elem. by left.
Qed.

(** Folding [appendUniqueNeighborCell] over cells made from [l]. *)
Section FoldUnique.
Context {A : Type} (f : A -> NeighborCell).
Let step cells raw := appendUniqueNeighborCell cells (f raw).

Lemma fold_unique_keys l cells :
  NoDup (cell_key <$> cells) -> NoDup (cell_key <$> fold_left step l cells).
Proof. revert cells. induction l as [|x l IH]; intros cells H; simpl; [done|]. by apply IH, append_unique_keys. Qed.

Lemma fold_unique_keeps l cells k :
  k ∈ (cell_key <$> cells) -> k ∈ (cell_key <$> fold_left step l cells).
Proof. revert cells. induction l as [|x l IH]; intros cells H; simpl; [done|]. by apply IH, append_unique_keeps. Qed.

Lemma fold_unique_has l cells x : x ∈ l -> cell_key (f x) ∈ (cell_key <$> fold_left step l cells).
Proof.
  revert cells. induction l as [|y l IH]; intros cells Hx; [by apply elem_of_nil in Hx|].
  simpl. apply elem_of_cons in Hx as [->|Hx]; [|by apply IH].
  apply fold_unique_keeps, append_unique_has.
Qed.
End FoldUnique.

Lemma optional_cell_LTE snapshot c : currentLTECell snapshot = Some c ->
  RAT c = "LTE"%string /\ 0 <= PCI c <= 503.
Proof.
  unfold currentLTECell. intros H. apply bind_Some in H as (pci & _ & H).
  destruct (_ || _) eqn:E; [done|]. injection H as <-. apply orb_false_iff in E as [? ?].
  bool_to_prop. simpl. done.
Qed.

Lemma optional_cell_NR snapshot c : currentNRCell snapshot = Some c ->
  RAT c = "NR"%string /\ 0 <= PCI c <= 1007.
Proof.
  unfold currentNRCell. intros H. apply bind_Some in H as (pci & _ & H).
  destruct (_ || _) eqn:E; [done|]. injection H as <-. apply orb_false_iff in E as [? ?].
  bool_to_prop. simpl. done.
Qed.

Lemma lteca_item_spec serving item c : lteca_item serving item = Some c ->
  RAT c = "LTE"%string /\ 0 <= PCI c <= 503 /\ (PCI c, ARFCN c) <> (PCI serving, ARFCN serving).
Proof.
  unfold lteca_item. intros H. repeat (case_match; try done).
  apply bind_Some in H as (pci & _ & H). destruct ((pci <? 0) || _) eqn:E; [done|].
  destruct ((pci =? PCI serving) && _) eqn:Es; [done|]. injection H as <-.
  apply orb_false_iff in E as [? ?]. bool_to_prop. simpl. split_and!; try done.
  intros [= -> Ha]. rewrite Z.eqb_refl, (proj2 (sameOptionalInt_spec _ _) Ha) in Es. done.
Qed.

Lemma nrca_item_spec item c : nrca_item item = Some c -> RAT c = "NR"%string /\ 0 <= PCI c <= 1007.
Proof.
  unfold nrca_item. intros H. repeat (case_match; try done).
  apply bind_Some in H as (pci & _ & H). destruct ((pci <? 0) || _) eqn:E; [done|]. injection H as <-.
  apply orb_false_iff in E as [? ?]. bool_to_prop. simpl. done.
Qed.

Lemma elem_option_list {A} (o : option A) x : x ∈ option_list o -> o = Some x.
Proof. destruct o; simpl; [by intros ->%list_elem_of_singleton|by intros ?%elem_of_nil]. Qed.

Lemma parseLTECA_spec value serving c : c ∈ parseLTECA value serving ->
  RAT c = "LTE"%string /\ 0 <= PCI c <= 503 /\ (PCI c, ARFCN c) <> (PCI serving, ARFCN serving).
Proof. unfold parseLTECA. intros (item & _ & H)%list_elem_of_omap. by eapply lteca_item_spec. Qed.

Lemma parseNRCA_spec value c : c ∈ parseNRCA value -> RAT c = "NR"%string /\ 0 <= PCI c <= 1007.
Proof. unfold parseNRCA. intros (item & _ & H)%list_elem_of_omap. by eapply nrca_item_spec. Qed.

(** The neighbours kept by the parser pipeline. *)
Lemma add_native_neighbors ubus serving l cells :
  NoDup (cell_key <$> cells) ->
  Forall (fun c => isCurrentServingCell c serving = false) cells ->
  let out := fold_left (add_native_neighbor ubus serving) l cells in
  NoDup (cell_key <$> out) /\ Forall (fun c => isCurrentServingCell c serving = false) out /\
  (forall k, k ∈ (cell_key <$> cells) -> k ∈ (cell_key <$> out)) /\
  (forall c, c ∈ out -> c ∈ cells \/ exists raw, raw ∈ l /\ c = adapt_neighbor ubus raw) /\
  (forall raw, raw ∈ l -> isCurrentServingCell (adapt_neighbor ubus raw) serving = true \/
     cell_key (adapt_neighbor ubus raw) ∈ (cell_key <$> out)).
Proof.
  revert cells. induction l as [|raw l IH]; intros cells Hnd Hall; simpl.
  { split_and!; auto. intros raw Hr. by apply elem_of_nil in Hr. }
  set (next := add_native_neighbor ubus serving cells raw).
  assert (Hnext : NoDup (cell_key <$> next) /\
    Forall (fun c => isCurrentServingCell c serving = false) next /\
    (forall k, k ∈ (cell_key <$> cells) -> k ∈ (cell_key <$> next)) /\
    (forall c, c ∈ next -> c ∈ cells \/ c = adapt_neighbor ubus raw) /\
    (isCurrentServingCell (adapt_neighbor ubus raw) serving = true \/
     cell_key (adapt_neighbor ubus raw) ∈ (cell_key <$> next))).
  { unfold next, add_native_neighbor. destruct (isCurrentServingCell _ serving) eqn:Hs.
    - split_and!; auto.
    - split_and!; [by apply append_unique_keys| |apply append_unique_keeps| |
                   right; apply append_unique_has].
      + apply Forall_forall. intros c Hc. apply append_unique_elem in Hc as [Hc|[-> _]]; [|done].
        by apply (proj1 (Forall_forall _ _) Hall).
      + intros c Hc. apply append_unique_elem in Hc as [Hc|[-> _]]; auto. }
  destruct Hnext as (N1 & N2 & N3 & N4 & N5). destruct (IH next N1 N2) as (I1 & I2 & I3 & I4 & I5).
  split_and!; auto.
  - intros c Hc. apply I4 in Hc as [Hc|(r & Hr & ->)].
    + apply N4 in Hc as [? | ->]; [by left|]. right. exists raw. split; [left|done].
    + right. exists r. split; [by right|done].
  - intros r Hr. apply elem_of_cons in Hr as [->|Hr]; [|by apply I5].
    destruct N5 as [?|Hk]; [by left|]. right. by apply I3.
Qed.

(** * Properties *)

(** the result read from the snapshot alone lists at most the LTE and the
    NR serving cell; every cell has a PCI in the range of its technology; and
    no LTE carrier-aggregation cell with the PCI and channel of the LTE serving
    cell is listed as its neighbour. *)
Theorem neighborResultFromUbus_spec (snapshot : neighborUbusSnapshot) :
  let r := neighborResultFromUbus snapshot in
  Forall cell_in_range (Serving r) /\ Forall cell_in_range (Neighbors r) /\
  (length (Serving r) <= 2)%nat /\ NoDup (RAT <$> Serving r) /\
  (forall n s, n ∈ Neighbors r -> s ∈ Serving r -> RAT n = "LTE"%string -> RAT s = "LTE"%string ->
     cell_key n <> cell_key s).
Proof.
  intros r. unfold neighborResultFromUbus in r. destruct (active_rats snapshot) as [isLTE isNR].
  set (lte := if isLTE then currentLTECell snapshot else None) in r.
  set (nr := if isNR then currentNRCell snapshot else None) in r.
  assert (Hl : forall c, lte = Some c -> RAT c = "LTE"%string /\ 0 <= PCI c <= 503).
  { unfold lte. intros c Hc. destruct isLTE; [|done]. by eapply optional_cell_LTE. }
  assert (Hn : forall c, nr = Some c -> RAT c = "NR"%string /\ 0 <= PCI c <= 1007).
  { unfold nr. intros c Hc. destruct isNR; [|done]. by eapply optional_cell_NR. }
  clearbody lte nr.
  assert (Hnrca : forall c, c ∈ (if isNR then parseNRCA (text snapshot "nrca") else []) ->
    RAT c = "NR"%string /\ 0 <= PCI c <= 1007).
  { intros c Hc. destruct isNR; [by eapply parseNRCA_spec|by apply elem_of_nil in Hc]. }
  assert (Hneigh : Neighbors r =
    (match lte with Some cell => parseLTECA (text snapshot "lteca") cell | None => [] end) ++
    (if isNR then parseNRCA (text snapshot "nrca") else [])).
  { unfold r. destruct lte, isNR; simpl; by rewrite ?app_nil_r. }
  assert (Hserv : Serving r = option_list lte ++ option_list nr).
  { unfold r. destruct lte, nr; done. }
  assert (Hca : forall c, c ∈ (match lte with Some cell => parseLTECA (text snapshot "lteca") cell | None => [] end) ->
    RAT c = "LTE"%string /\ 0 <= PCI c <= 503 /\
    exists s, lte = Some s /\ (PCI c, ARFCN c) <> (PCI s, ARFCN s)).
  { intros c Hc. destruct lte as [s|]; [|by apply elem_of_nil in Hc].
    apply parseLTECA_spec in Hc as (? & ? & ?). eauto. }
  clearbody r. rewrite Hserv, Hneigh. split_and!.
  - apply Forall_forall. intros c Hc. apply elem_of_app in Hc as [Hc|Hc];
      apply elem_option_list in Hc; unfold cell_in_range; [left|right]; auto.
  - apply Forall_forall. intros c Hc. unfold cell_in_range.
    apply elem_of_app in Hc as [Hc|Hc]; [left; apply Hca in Hc as (? & ? & _); done|right; auto].
  - destruct lte, nr; simpl; lia.
  - destruct lte as [a|], nr as [b|]; simpl; try (by apply NoDup_singleton); [|constructor].
    apply NoDup_cons. split; [|by apply NoDup_singleton]. rewrite list_elem_of_singleton.
    destruct (Hl a eq_refl) as [-> _], (Hn b eq_refl) as [-> _]. discriminate.
  - intros n s Hnn Hs Hrn Hrs Hk. unfold cell_key in Hk. injection Hk as _ Hpci Harf.
    apply elem_of_app in Hnn as [Hnn|Hnn]; [|apply Hnrca in Hnn as [? _]; congruence].
    apply Hca in Hnn as (_ & _ & s' & Hs' & Hne).
    apply elem_of_app in Hs as [Hs|Hs]; apply elem_option_list in Hs;
      [|apply Hn in Hs as [? _]; congruence].
    rewrite Hs in Hs'. injection Hs' as ->. apply Hne. congruence.
Qed.

(** the combined result.  The serving list holds every serving cell of the
    parser and of the snapshot once, by technology, PCI and channel; the
    neighbour list holds no serving cell and no cell twice, each of its cells
    is one of the parser's, and a cell of the parser is left out only when it
    is a serving cell or a cell with its identity is already listed. *)
Theorem adaptNativeNeighborResult_spec (native : nativeNeighborResult)
    (snapshot : neighborUbusSnapshot) :
  let ubus := neighborResultFromUbus snapshot in
  let r := adaptNativeNeighborResult native snapshot in
  NoDup (cell_key <$> Serving r) /\ NoDup (cell_key <$> Neighbors r) /\
  Forall (fun c => isCurrentServingCell c (Serving r) = false) (Neighbors r) /\
  (forall c, c ∈ Serving ubus -> cell_key c ∈ (cell_key <$> Serving r)) /\
  (forall raw, raw ∈ nr_Serving native -> cell_key (adapt_serving ubus raw) ∈ (cell_key <$> Serving r)) /\
  (forall c, c ∈ Neighbors r -> exists raw, raw ∈ nr_Neighbors native /\ c = adapt_neighbor ubus raw) /\
  (forall raw, raw ∈ nr_Neighbors native ->
     isCurrentServingCell (adapt_neighbor ubus raw) (Serving r) = true \/
     cell_key (adapt_neighbor ubus raw) ∈ (cell_key <$> Neighbors r)).
Proof.
  intros ubus r. unfold adaptNativeNeighborResult in r. fold ubus in r.
  set (s1 := fold_left (fun cells raw => appendUniqueNeighborCell cells (adapt_serving ubus raw))
               (nr_Serving native) []) in r.
  set (s2 := fold_left appendUniqueNeighborCell (Serving ubus) s1) in r.
  assert (H1 : NoDup (cell_key <$> s1)) by (apply fold_unique_keys; constructor).
  pose proof (fold_unique_keys id (Serving ubus) s1 H1) as H2. unfold id in H2.
  destruct (add_native_neighbors ubus s2 (nr_Neighbors native) []) as (N1 & N2 & _ & N4 & N5);
    [constructor|constructor|].
  split_and!; [exact H2|exact N1|exact N2| | | |exact N5].
  - intros c Hc. exact (fold_unique_has id (Serving ubus) s1 c Hc).
  - intros raw Hraw. apply (fold_unique_keeps id (Serving ubus) s1).
    exact (fold_unique_has (adapt_serving ubus) (nr_Serving native) [] raw Hraw).
  - intros c Hc. apply N4 in Hc as [Hc|Hc]; [by apply elem_of_nil in Hc|done].
Qed.

Example sample_ubus_result :
  (cell_key <$> Serving (neighborResultFromUbus sample_snapshot),
   cell_key <$> Neighbors (neighborResultFromUbus sample_snapshot)) =
  ([("LTE", 101, Some 1300); ("NR", 500, Some 504990)], [("LTE", 7, Some 100)])%string.
Proof. vm_compute. reflexivity. Qed.
