(* ===== verification/ProbeQTrace.v ===== *)
(** The active trace configuration of the crossband probe,
    [src/tools/u60-nr-crossband-probe/qtrace.go]: the production configuration
    [src/gossh/app/service/embed/qtrace.cfg] with one more bit enabled. *)

From S2P Require Import Prelude.
From S2P Require Import GoInt.
From S2P Require Import Sha256.
From S2P Require Hdlc.
Open Scope Z_scope.

Definition diagSubsysCommand : Z := 0x4b.
Definition qshSubsystem : Z := 0x44.
Definition qshConfigCommand : Z := 0x9001.
Definition activeQSHID : Z := 96.
Definition activeQSHMaskBit : Z := 0x8000.
Definition expectedBaseSHA256 : string :=
  "15b669eff11b53cf0fa461fe91b3c9b086912dee7a80a166c47d7d1b8c646c58".

Record qtracePatchResult := mkPatch {
  SourceSHA256 : string; SourceBytes : nat; ActiveSHA256 : string; ActiveBytes : nat;
  OriginalMask : Z; ActiveMask : Z }.

Inductive patchError :=
| ErrUnexpectedSHA (sha : string)
| ErrTruncatedEscape
| ErrFrameShort (index : nat)
| ErrFrameCRC (index : nat) (got want : Z)
| ErrNoFrames
| ErrFrameCount (n : nat)
| ErrNotQSHConfig
| ErrTable (count : Z) (payload : nat)
| ErrEntryCount (found : nat)
| ErrAlreadyEnabled
| ErrRoundTrip.

(** The embedded production file, 196 bytes. *)
Definition qtrace_cfg : list Z :=
  [
   75; 68; 1; 144; 46; 0; 0; 0; 1; 0; 0; 0; 1; 0; 0; 0; 43; 0; 0; 0; 6; 0; 15; 0; 9; 0;
   125; 94; 0; 11; 0; 2; 0; 13; 0; 3; 0; 15; 0; 6; 0; 16; 0; 2; 0; 18; 0; 3; 0; 42; 0; 3;
   0; 45; 0; 3; 0; 47; 0; 7; 0; 52; 0; 15; 0; 53; 0; 31; 0; 54; 0; 7; 0; 61; 0; 3; 0; 64;
   0; 3; 0; 73; 0; 11; 0; 76; 0; 127; 8; 78; 0; 2; 0; 80; 0; 3; 0; 83; 0; 127; 0; 84; 0;
   31; 0; 85; 0; 15; 0; 86; 0; 3; 0; 87; 0; 7; 0; 88; 0; 1; 0; 89; 0; 15; 0; 94; 0; 1; 0;
   96; 0; 7; 0; 97; 0; 3; 0; 98; 0; 15; 0; 99; 0; 3; 0; 100; 0; 63; 0; 101; 0; 15; 0; 104;
   0; 3; 0; 105; 0; 15; 0; 107; 0; 3; 0; 108; 0; 3; 0; 109; 0; 3; 0; 110; 0; 3; 0; 111; 0;
   1; 0; 112; 0; 1; 0; 113; 0; 3; 0; 118; 0; 3; 0; 92; 191; 126].

Fixpoint unescape_loop (escaped : bool) (encoded decoded : list Z) : go patchError (list Z) :=
  match encoded with
  | [] => if escaped then Err ErrTruncatedEscape else Ok decoded
  | value :: rest =>
    if escaped then unescape_loop false rest (decoded ++ [Z.lxor value 0x20])
    else if value =? 0x7d then unescape_loop true rest decoded
    else unescape_loop false rest (decoded ++ [value])
  end.

Definition hdlcUnescape (encoded : list Z) : go patchError (list Z) := unescape_loop false encoded [].

Definition diagCRC16 (data : list Z) : Z :=
  let bit crc := if negb (Z.land crc 1 =? 0) then Z.lxor (Z.shiftr crc 1) 0x8408 else Z.shiftr crc 1 in
  Z.lxor (fold_left (fun crc value => Nat.iter 8 bit (Z.lxor crc value)) data 0xffff) 0xffff.

Definition decode_frame (frames : list (list Z)) (encoded : list Z) : go patchError (list (list Z)) :=
  match encoded with
  | [] => mret frames
  | _ =>
    decoded ← hdlcUnescape encoded;
    if bool_decide (length decoded < 3)%nat then Err (ErrFrameShort (length frames)) else
    got ← (b ← slice_from decoded (length decoded - 2); Uint16 b);
    payload ← trim_end 2 decoded;
    let want := diagCRC16 payload in
    if negb (got =? want) then Err (ErrFrameCRC (length frames) got want) else
    mret (frames ++ [decoded])
  end.

Definition decodeQTraceFrames (data : list Z) : go patchError (list (list Z)) :=
  frames ← go_fold decode_frame [] (split_on 0x7e data);
  match frames with [] => Err ErrNoFrames | _ => mret frames end.

Definition encodeQTraceFrames (frames : list (list Z)) : list Z :=
  flat_map (fun frame =>
    flat_map (fun value => if (value =? 0x7d) || (value =? 0x7e) then [0x7d; Z.lxor value 0x20]
                           else [value]) frame ++ [0x7e]) frames.

(** The loop over the ID/mask table: entries found, original and active mask,
    and the payload written so far. *)
Record patchState := mkPatchState { ps_found : nat; ps_original : Z; ps_active : Z; ps_payload : list Z }.

Definition put_at (l : list Z) (i : nat) (bytes : list Z) : list Z :=
  take i l ++ bytes ++ drop (i + length bytes) l.

Definition patch_entry (st : patchState) (index : nat) : go patchError patchState :=
  let offset := (20 + index * 4)%nat in
  id ← (b ← slice (ps_payload st) offset (offset + 2); Uint16 b);
  if negb (id =? activeQSHID) then mret st else
  original ← (b ← slice (ps_payload st) (offset + 2) (offset + 4); Uint16 b);
  let active := Z.lor original activeQSHMaskBit in
  mret (mkPatchState (ps_found st + 1) original active
          (put_at (ps_payload st) (offset + 2) (put_u16 active))).

(** [patchActiveQTrace] after the hash check: the new frame and the masks. *)
Definition patch_frame (frame : list Z) : go patchError (list Z * Z * Z) :=
  payload ← trim_end 2 frame;
  if bool_decide (length payload < 20)%nat then Err ErrNotQSHConfig else
  cmd ← index payload 0;
  subsystem ← index payload 1;
  command ← (b ← slice payload 2 4; Uint16 b);
  if negb (cmd =? diagSubsysCommand) || negb (subsystem =? qshSubsystem) ||
     negb (command =? qshConfigCommand)
  then Err ErrNotQSHConfig else
  count ← (b ← slice payload 16 20; Uint32 b);
  if (count <=? 0) || negb (Z.of_nat (length payload) =? 20 + count * 4)
  then Err (ErrTable count (length payload)) else
  st ← go_fold patch_entry (mkPatchState 0 0 0 payload) (seq 0 (Z.to_nat count));
  if negb (ps_found st =? 1)%nat then Err (ErrEntryCount (ps_found st)) else
  if negb (Z.land (ps_original st) activeQSHMaskBit =? 0) then Err ErrAlreadyEnabled else
  mret (ps_payload st ++ put_u16 (diagCRC16 (ps_payload st)), ps_original st, ps_active st).

Definition patch_data (data : list Z) : go patchError (list Z * Z * Z) :=
  frames ← decodeQTraceFrames data;
  match frames with
  | [frame] =>
    r ← patch_frame frame;
    let active := encodeQTraceFrames [r.1.1] in
    match decodeQTraceFrames active with
    | Ok [verified] => if bool_decide (verified = r.1.1) then mret (active, r.1.2, r.2)
                       else Err ErrRoundTrip
    | Panic => Panic
    | _ => Err ErrRoundTrip
    end
  | _ => Err (ErrFrameCount (length frames))
  end.

Definition patchActiveQTrace (data : list Z) : go patchError (list Z * qtracePatchResult) :=
  let sha := hex_EncodeToString (Sha256.Sum256 data) in
  if negb (bool_decide (sha = expectedBaseSHA256)) then Err (ErrUnexpectedSHA sha) else
  r ← patch_data data;
  let active := r.1.1 in
  mret (active, mkPatch sha (length data) (hex_EncodeToString (Sha256.Sum256 active))
                  (length active) r.1.2 r.2).

(** The identifier of table entry [j], and the payload with the mask of entry
    [i] replaced. *)
Definition id_is (payload : list Z) (j : nat) (id : Z) : Prop :=
  exists a b, payload !! (20 + j * 4)%nat = Some a /\ payload !! (20 + j * 4 + 1)%nat = Some b /\
              le16 a b = id.

Definition mask_is (payload : list Z) (j : nat) (mask : Z) : Prop :=
  exists a b, payload !! (20 + j * 4 + 2)%nat = Some a /\ payload !! (20 + j * 4 + 3)%nat = Some b /\
              le16 a b = mask.

Definition with_mask (payload : list Z) (i : nat) (mask : Z) : list Z :=
  put_at payload (20 + i * 4 + 2) (put_u16 mask).

(** What the loop knows after [k] entries of the original table. *)
Record patch_inv (payload0 : list Z) (k : nat) (st : patchState) : Prop := mkPatchInv {
  pi_len : length (ps_payload st) = length payload0;
  pi_ids : forall j id, id_is (ps_payload st) j id <-> id_is payload0 j id;
  pi_none : ps_found st = 0%nat ->
    ps_payload st = payload0 /\ forall j, (j < k)%nat -> ~ id_is payload0 j activeQSHID;
  pi_one : ps_found st = 1%nat -> exists i, (i < k)%nat /\ id_is payload0 i activeQSHID /\
    (forall j, (j < k)%nat -> id_is payload0 j activeQSHID -> j = i) /\
    mask_is payload0 i (ps_original st) /\
    ps_active st = Z.lor (ps_original st) activeQSHMaskBit /\
    ps_payload st = with_mask payload0 i (ps_active st) }.

(** A payload with its checksum. *)
Definition sealed (payload : list Z) : list Z := payload ++ put_u16 (diagCRC16 payload).

(** What a successful [patch_frame] does to a frame. *)
Record frame_patched (payload : list Z) (active : list Z) (original mask : Z) : Prop := mkPatched {
  fp_entry : exists i, (20 + i * 4 + 4 <= length payload)%nat /\ id_is payload i activeQSHID /\
    (forall j, (20 + j * 4 + 4 <= length payload)%nat -> id_is payload j activeQSHID -> j = i) /\
    mask_is payload i original /\ active = sealed (with_mask payload i mask);
  fp_clear : Z.land original activeQSHMaskBit = 0;
  fp_mask : mask = Z.lor original activeQSHMaskBit }.

(** * The copies agree with the reducer's *)

Lemma hdlcUnescape_agrees encoded :
  hdlcUnescape encoded = map_err (fun _ => ErrTruncatedEscape) (Hdlc.hdlcUnescape encoded).
Proof.
  unfold hdlcUnescape, Hdlc.hdlcUnescape. generalize false, (@nil Z).
  induction encoded as [|v rest IH]; intros e acc; simpl; [by destruct e|].
  destruct e; [apply IH|]. destruct (v =? 0x7d); apply IH.
Qed.

Lemma diagCRC16_agrees data : diagCRC16 data = Hdlc.diagCRC16 data.
Proof. reflexivity. Qed.

Lemma encode_agrees frames :
  encodeQTraceFrames frames = flat_map (fun f => Hdlc.hdlcEscape f ++ [0x7e]) frames.
Proof. reflexivity. Qed.

(** * The production configuration *)

Example qtrace_cfg_patched :
  match patchActiveQTrace qtrace_cfg with
  | Ok (active, r) => (length active, OriginalMask r, ActiveMask r)
  | _ => (0%nat, 0, 0)
  end = (196%nat, 7, 0x8007).
Proof. vm_compute. reflexivity. Qed.

(** * The patch loop *)

Lemma length_put_at l i bytes :
  (i + length bytes <= length l)%nat -> length (put_at l i bytes) = length l.
Proof. intros. unfold put_at. rewrite !length_app, length_take, length_drop. lia. Qed.

Lemma lookup_put_at_other l i a b j :
  (i + 2 <= length l)%nat -> j <> i -> j <> S i -> put_at l i [a; b] !! j = l !! j.
Proof.
  intros Hl H1 H2. unfold put_at. simpl.
  destruct (decide (j < i)%nat) as [Hlt|Hge].
  - rewrite lookup_app_l by (rewrite length_take; lia). by apply lookup_take_lt.
  - rewrite lookup_app_r by (rewrite length_take; lia). rewrite length_take, Nat.min_l by lia.
    replace (j - i)%nat with (S (S (j - i - 2))) by lia. simpl. rewrite lookup_drop. f_equal. lia.
Qed.

Lemma slice2 {E} (l : list Z) p :
  (p + 2 <= length l)%nat ->
  exists a b, l !! p = Some a /\ l !! (p + 1)%nat = Some b /\
    (b' ← @slice E Z l p (p + 2); Uint16 b') = Ok (le16 a b).
Proof.
  intros Hl. destruct (lookup_lt_is_Some_2 l p ltac:(lia)) as [a Ha].
  destruct (lookup_lt_is_Some_2 l (p + 1) ltac:(lia)) as [b Hb].
  exists a, b. split_and!; [done..|]. rewrite slice_ok by lia.
  replace (p + 2 - p)%nat with 2%nat by lia. rewrite (drop_S _ _ _ Ha).
  replace (S p) with (p + 1)%nat by lia. by rewrite (drop_S _ _ _ Hb).
Qed.

Lemma id_is_put payload i m j id :
  (20 + i * 4 + 4 <= length payload)%nat -> id_is (with_mask payload i m) j id <-> id_is payload j id.
Proof.
  intros Hl. unfold id_is, with_mask, put_u16. generalize (u8 m), (u8 (Z.shiftr m 8)). intros x y.
  pose proof (lookup_put_at_other payload (20 + i * 4 + 2) x y (20 + j * 4)) as H1.
  pose proof (lookup_put_at_other payload (20 + i * 4 + 2) x y (20 + j * 4 + 1)) as H2.
  rewrite H1, H2 by lia. tauto.
Qed.

Lemma id_is_fun payload j x y : id_is payload j x -> id_is payload j y -> x = y.
Proof. intros (a & b & Ha & Hb & <-) (a' & b' & Ha' & Hb' & <-). congruence. Qed.

Lemma patch_entry_inv payload0 k st :
  (20 + k * 4 + 4 <= length payload0)%nat -> patch_inv payload0 k st ->
  exists st', patch_entry st k = Ok st' /\ patch_inv payload0 (S k) st'.
Proof.
  intros Hlen [Hl Hids Hnone Hone]. unfold patch_entry.
  destruct (@slice2 patchError (ps_payload st) (20 + k * 4)) as (a & b & Ha & Hb & ->); [lia|].
  cbn [mbind go_bind].
  assert (Hid : id_is payload0 k (le16 a b)) by (apply Hids; by exists a, b).
  destruct (le16 a b =? activeQSHID) eqn:Heq; cbn [negb]; bool_to_prop.
  - destruct (@slice2 patchError (ps_payload st) (20 + k * 4 + 2)) as (c & d & Hc & Hd & Hs); [lia|].
    replace (20 + k * 4 + 4)%nat with (20 + k * 4 + 2 + 2)%nat by lia. rewrite Hs. cbn [mbind go_bind].
    eexists. split; [done|]. rewrite Heq in Hid. constructor; cbn [ps_payload ps_found ps_original ps_active].
    + rewrite length_put_at by (simpl; lia). done.
    + intros j id. fold (with_mask (ps_payload st) k (Z.lor (le16 c d) activeQSHMaskBit)).
      rewrite id_is_put by lia. apply Hids.
    + lia.
    + intros Hf. assert (Hz : ps_found st = 0%nat) by lia. destruct (Hnone Hz) as [Hp Hno].
      exists k. rewrite Hp in *. split_and!; [lia|done| | |done|done].
      * intros j Hj Hjid. destruct (decide (j = k)) as [|Hne]; [done|].
        exfalso. apply (Hno j); [lia|done].
      * exists c, d. split_and!; [done| |done].
        replace (20 + k * 4 + 3)%nat with (20 + k * 4 + 2 + 1)%nat by lia. done.
  - exists st. split; [done|]. constructor; [done|done| |].
    + intros Hz. destruct (Hnone Hz) as [Hp Hno]. split; [done|].
      intros j Hj Hjid. destruct (decide (j = k)) as [->|Hne].
      * apply Heq. by eapply id_is_fun.
      * apply (Hno j); [lia|done].
    + intros H1. destruct (Hone H1) as (i & Hi & Hiid & Huniq & Hrest). exists i.
      split_and!; [lia|done| |apply Hrest..].
      intros j Hj Hjid. destruct (decide (j = k)) as [->|Hne].
      * exfalso. apply Heq. by eapply id_is_fun.
      * apply Huniq; [lia|done].
Qed.

Lemma patch_loop_inv payload0 n :
  (20 + n * 4 <= length payload0)%nat ->
  exists st, go_fold patch_entry (mkPatchState 0 0 0 payload0) (seq 0 n) = Ok st /\
    patch_inv payload0 n st.
Proof.
  induction n as [|n IH]; intros Hl.
  - eexists. split; [done|]. constructor; simpl; [done|done| |lia].
    intros _. split; [done|]. intros j Hj. lia.
  - destruct IH as (st & Hst & Hinv); [lia|].
    destruct (patch_entry_inv payload0 n st) as (st' & Hst' & Hinv'); [lia|done|].
    exists st'. split; [|done]. rewrite seq_S, go_fold_app, Hst, Nat.add_0_l.
    cbn [mbind go_bind go_fold]. by rewrite Hst'.
Qed.

Lemma with_mask_bytes payload i m : bytes_ok payload -> bytes_ok (with_mask payload i m).
Proof.
  intros. unfold with_mask, put_at. apply bytes_ok_app. split; [auto with bytes|].
  apply bytes_ok_app. split; auto with bytes.
Qed.

Lemma length_with_mask payload i m :
  (20 + i * 4 + 4 <= length payload)%nat -> length (with_mask payload i m) = length payload.
Proof. intros. apply length_put_at. simpl. lia. Qed.

(** * Decoding *)

Lemma decode_frame_sealed frames encoded frames' :
  bytes_ok encoded -> decode_frame frames encoded = Ok frames' ->
  (encoded = [] /\ frames' = frames) \/
  exists payload, bytes_ok payload /\ (1 <= length payload)%nat /\ frames' = frames ++ [sealed payload].
Proof.
  intros Hb. unfold decode_frame. destruct encoded as [|v rest]; [intros [= <-]; by left|].
  intros H. right. rewrite hdlcUnescape_agrees in H.
  destruct (Hdlc.hdlcUnescape (v :: rest)) as [d| |] eqn:Hd; try done. cbn [map_err mbind go_bind] in H.
  apply Hdlc.unescape_bytes in Hd; [|done].
  case_bool_decide as Hl; [done|]. rewrite slice_from_ok in H by lia. cbn [mbind go_bind] in H.
  destruct (Uint16 (drop (length d - 2) d)) as [got| |] eqn:Hgot; try done.
  rewrite trim_end_ok in H by lia. cbn [mbind go_bind] in H.
  set (payload := take (length d - 2) d) in *.
  assert (Hlen : length payload = (length d - 2)%nat) by (unfold payload; rewrite length_take; lia).
  assert (Hp : bytes_ok payload) by (unfold payload; auto with bytes).
  assert (Ht : bytes_ok (drop (length d - 2) d)) by auto with bytes.
  destruct (got =? diagCRC16 payload) eqn:Hcrc; cbn [negb] in H; [|done]. bool_to_prop.
  injection H as <-. exists payload. split_and!; [done|lia|]. f_equal. f_equal.
  unfold sealed. rewrite <- Hcrc. rewrite <- (take_drop (length d - 2) d) at 1. fold payload. f_equal.
  pose proof (length_drop d (length d - 2)) as Hld.
  destruct (drop (length d - 2) d) as [|a [|b [|]]]; simpl in Hld; try lia.
  injection Hgot as <-. bytes_inv. by rewrite put_u16_le16.
Qed.

Lemma decode_sealed payload :
  bytes_ok payload -> (1 <= length payload)%nat ->
  decodeQTraceFrames (encodeQTraceFrames [sealed payload]) = Ok [sealed payload].
Proof.
  intros Hb Hl. rewrite encode_agrees. cbn [flat_map]. rewrite app_nil_r. unfold decodeQTraceFrames.
  rewrite split_on_app_sep by apply Hdlc.escape_no_flag.
  assert (Hd : decode_frame [] (Hdlc.hdlcEscape (sealed payload)) = Ok [sealed payload]).
  { unfold decode_frame. destruct (Hdlc.hdlcEscape (sealed payload)) eqn:He.
    - exfalso. eapply Hdlc.escape_nonempty; [|exact He]. unfold sealed. by destruct payload.
    - rewrite <- He, hdlcUnescape_agrees, Hdlc.unescape_escape. cbn [map_err mbind go_bind].
      assert (Hls : length (sealed payload) = (length payload + 2)%nat)
        by (unfold sealed; rewrite length_app; done).
      rewrite bool_decide_eq_false_2 by lia. rewrite slice_from_ok by lia.
      rewrite Hls. replace (length payload + 2 - 2)%nat with (length payload) by lia.
      assert (Hdr : drop (length payload) (sealed payload) = put_u16 (diagCRC16 payload))
        by apply drop_app_length.
      assert (Htr : @trim_end patchError _ 2 (sealed payload) = Ok payload) by by apply trim_end_app.
      rewrite Hdr, Htr. cbn [mbind go_bind Uint16 put_u16].
      rewrite le16_put by (rewrite diagCRC16_agrees; by apply Hdlc.diagCRC16_range).
      by rewrite Z.eqb_refl. }
  cbn [split_on go_fold]. by rewrite Hd.
Qed.

Lemma decode_frame_no_panic frames encoded : decode_frame frames encoded <> Panic.
Proof.
  unfold decode_frame. destruct encoded as [|v rest]; [done|]. rewrite hdlcUnescape_agrees.
  pose proof (Hdlc.unescape_not_panic (v :: rest)) as Hnp.
  destruct (Hdlc.hdlcUnescape (v :: rest)) as [d| |]; cbn [map_err mbind go_bind]; try done.
  case_bool_decide as Hl; [done|]. rewrite slice_from_ok by lia. cbn [mbind go_bind].
  pose proof (length_drop d (length d - 2)).
  destruct (drop (length d - 2) d) as [|a [|b m]]; simpl in *; try lia.
  rewrite trim_end_ok by lia. cbn [mbind go_bind]. by case_match.
Qed.

Lemma decode_frames_sealed data frames :
  bytes_ok data -> decodeQTraceFrames data = Ok frames ->
  Forall (fun f => exists payload, bytes_ok payload /\ (1 <= length payload)%nat /\ f = sealed payload) frames.
Proof.
  intros Hb. unfold decodeQTraceFrames.
  assert (Hseg : Forall bytes_ok (split_on 0x7e data)) by by apply split_on_Forall.
  revert Hseg. generalize (split_on 0x7e data). intros segs Hseg.
  set (Q := fun f => exists payload, bytes_ok payload /\ (1 <= length payload)%nat /\ f = sealed payload).
  enough (H : forall acc out, Forall Q acc -> go_fold decode_frame acc segs = Ok out -> Forall Q out).
  { destruct (go_fold decode_frame [] segs) as [out| |] eqn:E; cbn [mbind go_bind]; try done.
    intros Hout. assert (Forall Q out) by (eapply H; [constructor|exact E]).
    destruct out; [done|]. by injection Hout as <-. }
  induction Hseg as [|s segs Hs _ IH]; intros acc out Hacc Ho; simpl in Ho; [by injection Ho as <-|].
  destruct (decode_frame acc s) as [acc'| |] eqn:Hd; try done.
  apply decode_frame_sealed in Hd as [[_ ->]|(p & ? & ? & ->)]; [| |done].
  - by apply (IH acc).
  - apply (IH (acc ++ [sealed p])); [|done]. apply Forall_app. split; [done|].
    constructor; [|constructor]. exists p. done.
Qed.

Lemma decode_no_panic data : decodeQTraceFrames data <> Panic.
Proof.
  unfold decodeQTraceFrames.
  pose proof (go_fold_no_panic (fun _ => True) decode_frame (split_on 0x7e data) []
    (fun b x _ => decode_frame_no_panic b x) ltac:(by apply Forall_true; auto)).
  destruct (go_fold decode_frame [] (split_on 0x7e data)) as [[|]| |]; cbn [mbind go_bind]; done.
Qed.

(** * The patch *)

Lemma decode_not_roundtrip data : decodeQTraceFrames data <> Err ErrRoundTrip.
Proof.
  unfold decodeQTraceFrames. generalize (split_on 0x7e data), (@nil (list Z)).
  intros segs. induction segs as [|s segs IH]; intros acc; cbn [go_fold].
  - cbn [mbind go_bind]. by destruct acc.
  - destruct (decode_frame acc s) as [acc'|e|] eqn:Hd; cbn [mbind go_bind]; [apply IH| |done].
    intros [= ->]. unfold decode_frame in Hd. destruct s; [done|].
    rewrite hdlcUnescape_agrees in Hd.
    destruct (Hdlc.hdlcUnescape _); cbn [map_err mbind go_bind] in Hd; try done.
    revert Hd. unfold slice_from, slice, trim_end, Uint16. cbn [mbind go_bind].
    repeat (case_match; cbn [mbind go_bind]; try done).
Qed.

Lemma mask_bit x :
  Z.land x activeQSHMaskBit = 0 ->
  Z.testbit x 15 = false /\ Z.lor x activeQSHMaskBit = x + 0x8000.
Proof.
  intros H. split.
  - apply (f_equal (fun z => Z.testbit z 15)) in H. rewrite Z.land_spec, Z.bits_0 in H.
    change (Z.testbit activeQSHMaskBit 15) with true in H. by rewrite andb_true_r in H.
  - symmetry. rewrite Z.add_nocarry_lxor by done. apply Z.lxor_lor. done.
Qed.

Lemma patch_frame_sealed payload :
  bytes_ok payload ->
  patch_frame (sealed payload) <> Panic /\ patch_frame (sealed payload) <> Err ErrRoundTrip /\
  forall active original mask, patch_frame (sealed payload) = Ok (active, original, mask) ->
    frame_patched payload active original mask.
Proof.
  intros Hb. unfold patch_frame.
  assert (Htr : @trim_end patchError _ 2 (sealed payload) = Ok payload) by by apply trim_end_app.
  rewrite Htr. cbn [mbind go_bind].
  case_bool_decide as Hl; [by split_and!|].
  destruct (@index_in_range patchError _ payload 0 ltac:(lia)) as (c0 & _ & ->). cbn [mbind go_bind].
  destruct (@index_in_range patchError _ payload 1 ltac:(lia)) as (c1 & _ & ->). cbn [mbind go_bind].
  destruct (@slice2 patchError payload 2 ltac:(lia)) as (a & b & _ & _ & H2).
  change (2 + 2)%nat with 4%nat in H2. rewrite H2. cbn [mbind go_bind].
  case_match; [by split_and!|]. rewrite slice_ok by lia. cbn [mbind go_bind].
  assert (Hsl : length (take (20 - 16) (drop 16 payload)) = 4%nat)
    by (rewrite length_take, length_drop; lia).
  destruct (take (20 - 16) (drop 16 payload)) as [|x0 [|x1 [|x2 [|x3 [|]]]]]; try discriminate Hsl.
  cbn [Uint32]. generalize (le32 x0 x1 x2 x3). intros count. cbn [mbind go_bind].
  destruct ((count <=? 0) || negb (Z.of_nat (length payload) =? 20 + count * 4)) eqn:Hc; [by split_and!|]. bool_to_prop.
  destruct (patch_loop_inv payload (Z.to_nat count)) as (st & Hst & Hinv); [lia|].
  rewrite Hst. cbn [mbind go_bind]. destruct (ps_found st =? 1)%nat eqn:Hf; cbn [negb]; [|by split_and!].
  destruct (Z.land (ps_original st) activeQSHMaskBit =? 0) eqn:Hm; cbn [negb]; [|by split_and!]. bool_to_prop.
  split_and!; [done..|]. intros active original mask [= <- <- <-].
  destruct Hinv as [_ _ _ Hone]. destruct (Hone Hf) as (i & Hi & Hid & Huniq & Horig & Hact & Hpl).
  split; [|done|done]. exists i. split_and!; [lia|done| |done|by rewrite Hpl].
  intros j Hj Hjid. apply Huniq; [lia|done].
Qed.

(** Patching never panics and its self-check never fails.  It succeeds only on
    a file of one frame in which exactly one table entry carries the
    identifier 96; it then changes nothing but that entry's mask, in which it
    sets bit 15 and which had that bit clear, and the checksum, and what it
    writes decodes to exactly that frame. *)
Theorem patch_data_spec (data : list Z) :
  bytes_ok data ->
  patch_data data <> Panic /\ patch_data data <> Err ErrRoundTrip /\
  forall active original mask, patch_data data = Ok (active, original, mask) ->
  exists payload i,
    decodeQTraceFrames data = Ok [payload ++ put_u16 (diagCRC16 payload)] /\
    id_is payload i activeQSHID /\ mask_is payload i original /\
    (forall j, (20 + j * 4 + 4 <= length payload)%nat -> id_is payload j activeQSHID -> j = i) /\
    Z.testbit original 15 = false /\ mask = original + 0x8000 /\
    let payload' := with_mask payload i mask in
    decodeQTraceFrames active = Ok [payload' ++ put_u16 (diagCRC16 payload')].
Proof.
  intros Hb. pose proof (decode_no_panic data) as Hnp. unfold patch_data.
  destruct (decodeQTraceFrames data) as [frames| |] eqn:Hd; cbn [mbind go_bind]; [| |done].
  2:{ split_and!; try done. intros [= ->]. by apply decode_not_roundtrip in Hd. }
  apply decode_frames_sealed in Hd as Hseal; [|done].
  destruct frames as [|frame [|]]; [done| |done].
  apply Forall_cons in Hseal as [(payload & Hp & Hl & ->) _].
  destruct (patch_frame_sealed payload Hp) as (Hpp & Hre & Hspec).
  destruct (patch_frame (sealed payload)) as [[[f orig] mask]|e|] eqn:Hf; [|by split_and!|done].
  destruct (Hspec _ _ _ eq_refl) as [(i & Hi & Hid & Huniq & Horig & ->) Hclear Hmask].
  cbn [mbind go_bind fst snd].
  rewrite decode_sealed; [|by apply with_mask_bytes|by rewrite length_with_mask].
  rewrite bool_decide_eq_true_2 by done. split_and!; [done..|].
  intros active original m [= <- <- <-]. exists payload, i.
  destruct (mask_bit orig Hclear) as [Hbit Hadd].
  split_and!; try done; [congruence|].
  apply decode_sealed; [by apply with_mask_bytes|by rewrite length_with_mask].
Qed.

Lemma patch_data_spec_witness :
  bytes_ok qtrace_cfg /\
  exists active payload i,
    patch_data qtrace_cfg = Ok (active, 7, 0x8007) /\
    id_is payload i activeQSHID /\ mask_is payload i 7 /\
    decodeQTraceFrames active =
      Ok [with_mask payload i 0x8007 ++ put_u16 (diagCRC16 (with_mask payload i 0x8007))].
Proof.
  assert (Hb : bytes_ok qtrace_cfg) by (apply (bool_decide_unpack _); vm_compute; exact I).
  split; [exact Hb|].
  assert (H : exists active, patch_data qtrace_cfg = Ok (active, 7, 0x8007))
    by (eexists; vm_compute; reflexivity).
  destruct H as [active H]. destruct (patch_data_spec qtrace_cfg Hb) as (_ & _ & Hspec).
  destruct (Hspec active 7 0x8007 H) as (payload & i & _ & Hid & Hm & _ & _ & _ & Hdec).
  exists active, payload, i. repeat (split; [assumption|]). exact Hdec.
Defined.
