(* ===== verification/NeighborManager.v ===== *)
(** The collection manager of the web service,
    [src/gossh/app/service/neighbor_cell.go]: the [diag_mdlog] process behind
    the neighbour-cell page, the lock-protected state that tracks it, the
    monitor goroutine, the assets on disk and the request handlers.

    The world is the process table, the few files the manager uses, the
    directory of the capture ring, the clock and the manager's variables.
    Every function that runs under the mutex is one atomic operation on it; the
    sleeps inside an operation let the environment move and children be waited
    for; between its sleeps an operation takes no time. *)

From S2P Require Import Prelude.
From stdpp Require Import gmultiset.
From S2P Require Import Effects.
From S2P Require Import GoInt.
From S2P Require Import GoSort.
From S2P Require Import GoStrings.
From S2P Require Import Sha256.
From S2P Require NeighborQmdl.
From S2P Require NeighborCell.
From S2P Require ProbeQTrace.
Open Scope string_scope.
Open Scope Z_scope.

(** * Data *)

Definition neighborBaseDir : string := "/tmp/u60nbrqt_resident".
Definition neighborRingDir : string := neighborBaseDir ++ "/ring".
Definition neighborConfig : string := "qtrace.cfg".
Definition neighborConfigSHA256 : string := "15b669eff11b53cf0fa461fe91b3c9b086912dee7a80a166c47d7d1b8c646c58".

Definition second : Z := 1000000000.
Definition neighborIdleTimeout : Z := 30 * 60 * second.
Definition neighborStaleTimeout : Z := 90 * second.
(** The mode 0600. *)
Definition mode0600 : Z := 384.
Definition neighborRingFileCount : nat := 4.

(** An entry of the process table: whether [pidof diag_mdlog] finds it, its
    arguments, none for a zombie, and whether it was sent SIGKILL: it runs no
    more, but stays in the table until the system has taken it down. *)
Record process := mkProcess { p_diag : bool; p_args : list string; p_killed : bool }.

(** A directory entry of the ring: [Info] fails when the file has gone. *)
Record entry := mkEntry { en_name : string; en_dir : bool; en_info : option (bool * Z) }.

Inductive node := Regular (data : list Z) (mode : Z) | Special.

Inductive signal := SIGTERM | SIGKILL.

Record os := mkOS {
  o_procs : gmap Z process;
  o_pid_file : option string;            (** [diag.pid] *)
  o_state_file : option string;          (** [state] *)
  o_service_pid : option string;         (** [service.pid] of the shell service this one replaces *)
  o_config : option node;                (** [qtrace.cfg] *)
  o_ring : option (list entry);
  o_clock : Z;
  o_kills : list (Z * signal * option process) }.

(** [neighborManager]; the zero time is 0. *)
Record manager := mkManager {
  m_pid : Z; m_child : option Z; m_lastAccess : Z; m_startedAt : Z; m_lastProgress : Z; m_latestQMDLTime : Z }.

Inductive managerError :=
| ErrMkdir | ErrChmod | ErrMkdirRing | ErrRemoveParser | ErrReadAsset | ErrAssetHash | ErrRemoveInvalid
| ErrCreateTemp | ErrTempIO | ErrRename | ErrNotLegacy (pid : Z) | ErrForeign (pid : Z) | ErrLogFile | ErrStart.

(** [neighborTakeoverOnce] with its result; the reaper goroutines by the pids
    they were started with, before and after their [Wait] has returned.  A pid
    can be given again once [Wait] has returned, so that two goroutines may
    wait for the lock with the same one. *)
Record world := mkWorld {
  w_next : nat; w_os : os; w_manager : manager; w_takeover : option (option managerError); w_monitor : bool;
  w_waiting : gset Z; w_reaped : gmultiset Z }.

Abbreviation M := (ST world).

Definition pending (w : world) (pid : Z) : Prop := pid ∈ w_waiting w \/ pid ∈ w_reaped w.

(** The environment: the outcome of the n-th fallible operation, what happens
    during the n-th sleep, whose [Wait] returns meanwhile if the child has
    ended, the pid of a started process, given the children not yet waited for,
    and the output of [pidof diag_mdlog]. *)
Class Environment := mkEnvironment {
  env_ok : nat -> bool;
  env_move : nat -> os -> os;
  env_waited : nat -> gset Z;
  env_pid : nat -> os -> gset Z -> option Z;   (** [None]: no process can be made *)
  env_pidof : os -> option string }.

(** * Primitives *)

Definition with_os (f : os -> os) : M unit :=
  st_modify (fun w => mkWorld (w_next w) (f (w_os w)) (w_manager w) (w_takeover w) (w_monitor w)
                        (w_waiting w) (w_reaped w)).
Definition with_manager (f : manager -> manager) : M unit :=
  st_modify (fun w => mkWorld (w_next w) (w_os w) (f (w_manager w)) (w_takeover w) (w_monitor w)
                        (w_waiting w) (w_reaped w)).
Definition get_os : M os := fun w => (w_os w, w).
Definition get_manager : M manager := fun w => (w_manager w, w).

Definition set_procs (f : gmap Z process -> gmap Z process) (o : os) : os :=
  mkOS (f (o_procs o)) (o_pid_file o) (o_state_file o) (o_service_pid o) (o_config o) (o_ring o) (o_clock o)
    (o_kills o).
Definition set_pid_file (f : option string) (o : os) : os :=
  mkOS (o_procs o) f (o_state_file o) (o_service_pid o) (o_config o) (o_ring o) (o_clock o) (o_kills o).
Definition set_state_file (f : option string) (o : os) : os :=
  mkOS (o_procs o) (o_pid_file o) f (o_service_pid o) (o_config o) (o_ring o) (o_clock o) (o_kills o).
Definition set_service_pid (f : option string) (o : os) : os :=
  mkOS (o_procs o) (o_pid_file o) (o_state_file o) f (o_config o) (o_ring o) (o_clock o) (o_kills o).
Definition set_config (f : option node) (o : os) : os :=
  mkOS (o_procs o) (o_pid_file o) (o_state_file o) (o_service_pid o) f (o_ring o) (o_clock o) (o_kills o).
Definition set_ring (f : option (list entry)) (o : os) : os :=
  mkOS (o_procs o) (o_pid_file o) (o_state_file o) (o_service_pid o) (o_config o) f (o_clock o) (o_kills o).
Definition add_kill (k : Z * signal * option process) (o : os) : os :=
  mkOS (o_procs o) (o_pid_file o) (o_state_file o) (o_service_pid o) (o_config o) (o_ring o) (o_clock o)
    (o_kills o ++ [k])%list.

Definition set_process (pid : Z) (child : option Z) (m : manager) : manager :=
  mkManager pid child (m_lastAccess m) (m_startedAt m) (m_lastProgress m) (m_latestQMDLTime m).
Definition set_access (t : Z) (m : manager) : manager :=
  mkManager (m_pid m) (m_child m) t (m_startedAt m) (m_lastProgress m) (m_latestQMDLTime m).
Definition set_started (now latest : Z) (m : manager) : manager :=
  mkManager (m_pid m) (m_child m) (m_lastAccess m) now now latest.
Definition set_progress (now latest : Z) (m : manager) : manager :=
  mkManager (m_pid m) (m_child m) (m_lastAccess m) (m_startedAt m) now latest.

(** [processCmdline]: the arguments, each with its terminating NUL turned into
    a space. *)
Definition cmdline_of (args : list string) : string :=
  fold_right (fun a s => a ++ " " ++ s) "" args.
Definition processCmdline (o : os) (pid : Z) : string :=
  match o_procs o !! pid with Some p => cmdline_of (p_args p) | None => "" end.

Definition pidAlive (o : os) (pid : Z) : bool :=
  if pid <=? 0 then false else bool_decide (is_Some (o_procs o !! pid)).

Definition is_diag_cmdline (cmdline : string) : bool :=
  Contains cmdline "diag_mdlog" && Contains cmdline neighborRingDir.
Definition isNeighborDiag (o : os) (pid : Z) : bool := is_diag_cmdline (processCmdline o pid).

(** * The ring directory *)

Definition ring_name (e : entry) : bool := HasPrefix (en_name e) "diag_log_" && HasSuffix (en_name e) ".qmdl".

(** Older first, by name when equally old. *)
Definition older (a b : string * Z) : bool :=
  if snd a =? snd b then string_less (fst a) (fst b) else snd a <? snd b.

Definition ring_file (e : entry) : option (string * Z) :=
  if en_dir e || negb (ring_name e) then None else
  match en_info e with
  | Some (true, modTime) => Some (path_Join [neighborRingDir; en_name e], modTime)
  | _ => None
  end.

Definition findNeighborQMDLFiles `{SortSlice} (ring : option (list entry)) : list string :=
  match ring with
  | None => []
  | Some entries =>
    let files := sortSlice older (omap ring_file entries) in
    fst <$> drop (length files - neighborRingFileCount) files
  end.

Definition latestNeighborQMDLTime (ring : option (list entry)) : Z :=
  fold_left (fun latest e =>
    if negb (ring_name e) then latest else
    match en_info e with Some (_, modTime) => if latest <? modTime then modTime else latest | None => latest end)
    (default [] ring) 0.

(** The child is a zombie, or gone. *)
Definition ended (o : os) (pid : Z) : bool :=
  match o_procs o !! pid with Some p => bool_decide (p_args p = []) | None => true end.

(** [cmd.Wait] of [reapManagedDiag] for these children: it returns once the
    child has ended and frees its pid; the rest runs under the lock. *)
Definition reap_wait (pids : gset Z) : M unit := fun w =>
  (tt, mkWorld (w_next w) (set_procs (filter (fun kp => fst kp ∉ pids)) (w_os w)) (w_manager w) (w_takeover w)
         (w_monitor w) (w_waiting w ∖ pids) (list_to_set_disj (elements pids) ⊎ w_reaped w)).

Section Manager.
Context `{SortSlice} `{Environment}.

Definition attempt : M bool := fun w =>
  (env_ok (w_next w), mkWorld (S (w_next w)) (w_os w) (w_manager w) (w_takeover w) (w_monitor w)
                        (w_waiting w) (w_reaped w)).
Definition fallible (e : managerError) : M (option managerError) :=
  ok ← attempt; mret (if ok : bool then None else Some e).

(** [time.Sleep]: the environment moves, and reapers whose child has ended may
    return from [Wait], for which they need no lock. *)
Definition sleep : M unit := fun w =>
  let o := env_move (w_next w) (w_os w) in
  reap_wait (filter (fun pid => ended o pid = true) (w_waiting w ∩ env_waited (w_next w)))
    (mkWorld (S (w_next w)) o (w_manager w) (w_takeover w) (w_monitor w) (w_waiting w) (w_reaped w)).

Fixpoint clear_entries (entries : list entry) : M (list entry) :=
  match entries with
  | [] => mret []
  | e :: entries =>
    gone ← (if en_dir e || negb (ring_name e) then mret false else attempt);
    rest ← clear_entries entries;
    mret (if gone : bool then rest else e :: rest)
  end.

Definition clearNeighborQMDLFiles : M unit :=
  o ← get_os;
  match o_ring o with
  | None => mret tt
  | Some entries => rest ← clear_entries entries; with_os (set_ring (Some rest))
  end.

(** ** Text files *)

(** [writeNeighborTextFile]: temporary file, mode, contents, close, rename; the
    file is replaced as a whole or left alone. *)
Definition writeNeighborTextFile (set : option string -> os -> os) (value : string) : M bool :=
  created ← attempt;
  if negb created then mret false else
  mode ← attempt;
  if negb mode then mret false else
  written ← attempt;
  if negb written then mret false else
  closed ← attempt;
  if negb closed then mret false else
  renamed ← attempt;
  if negb renamed then mret false else
  _ ← with_os (set (Some value)); mret true.

Definition newline : string := String (Ascii.ascii_of_nat 10) "".
Definition writeNeighborPID (pid : Z) : M bool := writeNeighborTextFile set_pid_file (Itoa pid ++ newline).
Definition writeNeighborState (state : string) : M bool :=
  writeNeighborTextFile set_state_file (state ++ newline).

(** [os.Remove(diag.pid)], its error ignored. *)
Definition remove_pid_file : M unit :=
  ok ← attempt; if ok : bool then with_os (set_pid_file None) else mret tt.

(** ** The managed process *)

Definition refreshManagedPIDLocked : M unit :=
  m ← get_manager;
  o ← get_os;
  if (0 <? m_pid m) && pidAlive o (m_pid m) && isNeighborDiag o (m_pid m) then mret tt else
  _ ← with_manager (set_process 0 None);
  match o_pid_file o with
  | None => mret tt
  | Some data =>
    match Atoi (TrimSpace data) with
    | Some pid =>
      if pidAlive o pid && isNeighborDiag o pid
      then with_manager (fun m => set_process pid (m_child m) m)
      else remove_pid_file
    | None => remove_pid_file
    end
  end.

(** The loop over the output of [pidof]. *)
Definition discover_step (o : os) (acc : Z * Z) (value : string) : Z * Z :=
  let '(own, foreign) := acc in
  match Atoi value with
  | None => acc
  | Some pid =>
    if negb (pidAlive o pid) then acc else
    if isNeighborDiag o pid then (if own =? 0 then pid else own, foreign)
    else if foreign =? 0 then (own, pid) else acc
  end.

Definition discoverDiagProcesses (o : os) : Z * Z :=
  match env_pidof o with
  | None => (0, 0)
  | Some out => fold_left (discover_step o) (Fields out) (0, 0)
  end.

Definition diag_args : list string :=
  ["diag_mdlog"; "-f"; path_Join [neighborBaseDir; neighborConfig]; "-o"; neighborRingDir; "-s"; "4"; "-n";
   Itoa (Z.of_nat neighborRingFileCount); "-c"; "-d"].

(** [cmd.Start]: the new process and the goroutine that waits for it. *)
Definition start_diag : M (option Z) :=
  ok ← attempt;
  if negb ok then mret None else fun w =>
  match env_pid (w_next w) (w_os w) (w_waiting w) with
  | None => (None, w)
  | Some pid =>
    (Some pid, mkWorld (S (w_next w)) (set_procs <[pid := mkProcess true diag_args false]> (w_os w)) (w_manager w)
                 (w_takeover w) (w_monitor w) ({[pid]} ∪ w_waiting w) (w_reaped w))
  end.

Definition ensureManagedDiagLocked : M (option managerError) :=
  _ ← refreshManagedPIDLocked;
  m ← get_manager;
  if 0 <? m_pid m then mret None else
  o ← get_os;
  let '(ownPID, foreignPID) := discoverDiagProcesses o in
  if 0 <? ownPID then
    _ ← with_manager (fun m => set_started (o_clock o) (latestNeighborQMDLTime (o_ring o))
                                 (set_process ownPID (m_child m) m));
    _ ← writeNeighborState ("running: adopted diag_mdlog pid=" ++ Itoa ownPID);
    _ ← writeNeighborPID ownPID;
    mret None
  else if 0 <? foreignPID then
    _ ← writeNeighborState ("blocked: foreign diag_mdlog pid=" ++ Itoa foreignPID);
    mret (Some (ErrForeign foreignPID))
  else
    _ ← clearNeighborQMDLFiles;
    log ← attempt;
    if negb log then mret (Some ErrLogFile) else
    started ← start_diag;
    match started with
    | None => mret (Some ErrStart)
    | Some pid =>
      o ← get_os;
      _ ← with_manager (fun m => set_started (o_clock o) (latestNeighborQMDLTime (o_ring o))
                                   (set_process pid (Some pid) m));
      _ ← writeNeighborPID pid;
      _ ← writeNeighborState ("running: diag_mdlog pid=" ++ Itoa pid);
      mret None
    end.

(** [syscall.Kill] only delivers the signal: the process ends during a later
    sleep or between two operations, when the environment takes it out of the
    table or leaves a zombie; after SIGTERM it may also go on. *)
Definition kill (pid : Z) (s : signal) : M unit := fun w =>
  let o := add_kill (pid, s, o_procs (w_os w) !! pid) (w_os w) in
  let o := match s with
           | SIGTERM => o
           | SIGKILL => set_procs (alter (fun p => mkProcess (p_diag p) (p_args p) true) pid) o
           end in
  (tt, mkWorld (w_next w) o (w_manager w) (w_takeover w) (w_monitor w) (w_waiting w) (w_reaped w)).

(** [for i := 0; i < n && pidAlive(pid); i++ { time.Sleep(...) }] *)
Fixpoint wait_dead (n : nat) (pid : Z) : M unit :=
  match n with
  | O => mret tt
  | S n => o ← get_os; if pidAlive o pid then _ ← sleep; wait_dead n pid else mret tt
  end.

Definition stopManagedDiagLocked (state : string) : M bool :=
  _ ← refreshManagedPIDLocked;
  m ← get_manager;
  o ← get_os;
  let pid := m_pid m in
  if (pid <=? 0) || negb (isNeighborDiag o pid) then mret false else
  _ ← kill pid SIGTERM;
  _ ← wait_dead 10 pid;
  o ← get_os;
  _ ← (if pidAlive o pid && isNeighborDiag o pid then kill pid SIGKILL else mret tt);
  _ ← with_manager (fun m => if m_pid m =? pid then set_process 0 None m else m);
  _ ← remove_pid_file;
  _ ← writeNeighborState state;
  mret true.

Definition stopNeighborCollection (state : string) : M bool :=
  _ ← with_manager (set_access 0); stopManagedDiagLocked state.

(** [reapManagedDiag] from the lock on. *)
Definition reap_locked (pid : Z) (err : option string) : M unit :=
  _ ← st_modify (fun w => mkWorld (w_next w) (w_os w) (w_manager w) (w_takeover w) (w_monitor w)
                            (w_waiting w) (w_reaped w ∖ {[+ pid +]}));
  m ← get_manager;
  if negb (m_pid m =? pid) then mret tt else
  _ ← with_manager (set_process 0 None);
  _ ← remove_pid_file;
  _ ← writeNeighborState ("exited: diag_mdlog pid=" ++ Itoa pid ++
        match err with Some e => " error=" ++ e | None => "" end);
  mret tt.

(** The text an error is reported with in the state file. *)
Context (error_text : managerError -> string).

(** One tick of [monitorNeighborPipeline]. *)
Definition monitor_tick : M unit :=
  _ ← refreshManagedPIDLocked;
  o ← get_os;
  m ← get_manager;
  let now := o_clock o in
  if m_lastAccess m =? 0 then mret tt else
  if neighborIdleTimeout <=? now - m_lastAccess m then
    _ ← stopManagedDiagLocked "stopped: idle timeout"; with_manager (set_access 0)
  else if m_pid m =? 0 then _ ← ensureManagedDiagLocked; mret tt
  else
    let latest := latestNeighborQMDLTime (o_ring o) in
    _ ← (if m_latestQMDLTime m <? latest then with_manager (set_progress now latest) else mret tt);
    m ← get_manager;
    if neighborStaleTimeout <=? now - m_lastProgress m then
      _ ← stopManagedDiagLocked "restarting: QMDL stalled";
      e ← ensureManagedDiagLocked;
      match e with
      | Some err => _ ← writeNeighborState ("restart failed: " ++ error_text err); mret tt
      | None => mret tt
      end
    else mret tt.

(** ** Assets and the service this one replaces *)

Definition asset_valid (data : list Z) (hash : string) : bool :=
  bool_decide (hex_EncodeToString (Sha256.Sum256 data) = hash).

(** The temporary file, from its creation to the rename. *)
Definition install_asset (data : list Z) (mode : Z) : M (option managerError) :=
  and_then (fallible ErrCreateTemp) (and_then (fallible ErrTempIO) (and_then (fallible ErrTempIO)
    (and_then (fallible ErrTempIO) (and_then (fallible ErrTempIO) (and_then (fallible ErrRename)
      (_ ← with_os (set_config (Some (Regular data mode))); mret None)))))).

Definition writeAssetIfChanged (data : list Z) (mode : Z) (expectedHash : string) : M (option managerError) :=
  o ← get_os;
  lstat ← attempt;
  match o_config o with
  | Some (Regular current oldMode) =>
    if negb lstat then install_asset data mode else
    read ← attempt;
    if read && asset_valid current expectedHash then
      ok ← attempt;
      if ok : bool then _ ← with_os (set_config (Some (Regular current mode))); mret None
      else mret (Some ErrChmod)
    else install_asset data mode
  | Some Special =>
    if negb lstat then install_asset data mode else
    removed ← attempt;
    if negb removed then mret (Some ErrRemoveInvalid) else
    _ ← with_os (set_config None); install_asset data mode
  | None => install_asset data mode
  end.

(** [embedded] is the file compiled into the program. *)
Definition extractNeighborAssets (embedded : list Z) : M (option managerError) :=
  and_then (fallible ErrMkdir) (and_then (fallible ErrChmod) (and_then (fallible ErrMkdirRing)
    (and_then (fallible ErrRemoveParser) (and_then (fallible ErrReadAsset)
      (if negb (asset_valid embedded neighborConfigSHA256) then mret (Some ErrAssetHash)
       else writeAssetIfChanged embedded mode0600 neighborConfigSHA256))))).

Definition remove_service_pid : M unit :=
  ok ← attempt; if ok : bool then with_os (set_service_pid None) else mret tt.

Definition stopLegacyNeighborService : M (option managerError) :=
  o ← get_os;
  match o_service_pid o with
  | None => mret None
  | Some data =>
    match Atoi (TrimSpace data) with
    | None => _ ← remove_service_pid; mret None
    | Some pid =>
      if negb (pidAlive o pid) then _ ← remove_service_pid; mret None else
      let cmdline := processCmdline o pid in
      if negb (Contains cmdline neighborBaseDir) || negb (Contains cmdline "service.sh")
      then mret (Some (ErrNotLegacy pid)) else
      _ ← kill pid SIGTERM;
      _ ← wait_dead 20 pid;
      o ← get_os;
      _ ← (if pidAlive o pid && Contains (processCmdline o pid) neighborBaseDir then kill pid SIGKILL
           else mret tt);
      _ ← remove_service_pid;
      mret None
    end
  end.

(** [neighborTakeoverOnce.Do]. *)
Definition takeover_once : M (option managerError) :=
  fun w => match w_takeover w with
           | Some e => (e, w)
           | None =>
             let '(e, w) := stopLegacyNeighborService w in
             (e, mkWorld (w_next w) (w_os w) (w_manager w) (Some e) (w_monitor w) (w_waiting w) (w_reaped w))
           end.

(** [neighborMonitorOnce.Do]: the monitor goroutine runs from now on. *)
Definition monitor_once : M unit :=
  st_modify (fun w => mkWorld (w_next w) (w_os w) (w_manager w) (w_takeover w) true (w_waiting w) (w_reaped w)).

(** The part of [ensureNeighborPipeline] under the lock. *)
Definition ensure_locked : M (option managerError) :=
  o ← get_os; _ ← with_manager (set_access (o_clock o)); ensureManagedDiagLocked.

Definition ensureNeighborPipeline (embedded : list Z) : M (option managerError) :=
  and_then (extractNeighborAssets embedded) (and_then takeover_once (_ ← monitor_once; ensure_locked)).

(** ** Requests *)

(** [waitForFirstQMDL]: at most 4 s in ticks of 250 ms, less when the request
    is cancelled. *)
Fixpoint wait_first (ticks : nat) : M unit :=
  match ticks with
  | O => mret tt
  | S ticks =>
    done ← attempt;
    if done : bool then mret tt else
    _ ← sleep;
    o ← get_os;
    match findNeighborQMDLFiles (o_ring o) with [] => wait_first ticks | _ => mret tt end
  end.

Definition waitForFirstQMDL : M unit :=
  o ← get_os;
  match findNeighborQMDLFiles (o_ring o) with [] => wait_first 16 | _ => mret tt end.

(** [ErrPanic] stands for a run-time panic of the parser. *)
Inductive parseError := ErrNotExist | ErrTimeout | ErrParse (e : NeighborQmdl.nbError) | ErrPanic.

(** At the n-th attempt: the contents of a file ([None] when it has gone), when
    the context is done, and whether its deadline has passed. *)
Context (read : nat -> string -> option (list Z)) (cancelled : nat -> nat -> nat -> bool) (deadline : nat -> bool).

Definition parse_attempt (n : nat) : M (parseError + NeighborQmdl.nativeNeighborResult) :=
  o ← get_os;
  match findNeighborQMDLFiles (o_ring o) with
  | [] => mret (inl ErrNotExist)
  | files =>
    mret (match NeighborQmdl.parseNeighborQMDLFiles (cancelled n) (read n <$> files) with
          | Ok r => inr r
          | Err e => inl (if deadline n then ErrTimeout else ErrParse e)
          | Panic => inl ErrPanic
          end)
  end.

Definition parseNeighborQMDL : M (parseError + NeighborQmdl.nativeNeighborResult) :=
  r ← parse_attempt 0;
  match r with
  | inl ErrNotExist => mret (inl ErrNotExist)
  | inl _ => parse_attempt 1
  | inr r => mret (inr r)
  end.

Inductive pipelineError := PipelineStart (e : managerError) | PipelineParse (e : parseError).

(** The JSON answers of [NeighborCellHandler]. *)
Inductive response :=
| RNative (r : NeighborCell.NeighborCellResult)
| RUbus (r : NeighborCell.NeighborCellResult) (warning : option pipelineError)
| RFailed (pipeline : option pipelineError).

Definition fallback (ubus : option NeighborCell.neighborUbusSnapshot) (e : pipelineError) : response :=
  match ubus with
  | Some snapshot => RUbus (NeighborCell.neighborResultFromUbus snapshot) (Some e)
  | None => RFailed (Some e)
  end.

(** [ubus] is the outcome of [readNeighborUbus]. *)
Definition NeighborCellHandler (embedded : list Z) (ubus : option NeighborCell.neighborUbusSnapshot)
    : M response :=
  e ← ensureNeighborPipeline embedded;
  match e with
  | Some err => mret (fallback ubus (PipelineStart err))
  | None =>
    _ ← waitForFirstQMDL;
    r ← parseNeighborQMDL;
    _ ← stopNeighborCollection "stopped: request completed";
    mret (match r with
          | inr native => RNative (NeighborCell.adaptNativeNeighborResult native (default ∅ ubus))
          | inl err => fallback ubus (PipelineParse err)
          end)
  end.

Record NeighborServiceStatus := mkStatus {
  st_state : string; st_source : string; st_running : bool; st_pid : Z; st_idle : option Z }.

(** [NeighborServiceStatusHandler]; the idle time in seconds. *)
Definition NeighborServiceStatusHandler : M NeighborServiceStatus :=
  before ← get_os;
  _ ← refreshManagedPIDLocked;
  o ← get_os;
  m ← get_manager;
  let running := 0 <? m_pid m in
  mret (mkStatus (TrimSpace (default "" (o_state_file before))) (if running then "parser" else "ubus") running
          (m_pid m) (if m_lastAccess m =? 0 then None else Some ((o_clock o - m_lastAccess m) / second))).

End Manager.

(** * What the environment may do *)

Definition own (p : process) : bool := is_diag_cmdline (cmdline_of (p_args p)).
Definition own_at (o : os) (pid : Z) : Prop := exists p, o_procs o !! pid = Some p /\ own p = true.

(** A collector that was not told to die. *)
Definition live (p : process) : bool := own p && negb (p_killed p).
Definition live_at (o : os) (pid : Z) : Prop := exists p, o_procs o !! pid = Some p /\ live p = true.
(** One that was, and is still in the table. *)
Definition dying_at (o : os) (pid : Z) : Prop :=
  exists p, o_procs o !! pid = Some p /\ own p = true /\ p_killed p = true.

Definition max_pid : Z := 2 ^ 31.

(** The same process later on: who was killed stays killed. *)
Definition later (p p' : process) : Prop :=
  p_diag p' = p_diag p /\ p_args p' = p_args p /\ (p_killed p = true -> p_killed p' = true).

(** Nobody but the manager starts the collector or writes its pid file. *)
Record moves_ok (o o' : os) : Prop := mkMovesOk {
  mv_own : forall pid p', o_procs o' !! pid = Some p' -> own p' = true -> exists p, o_procs o !! pid = Some p /\ later p p';
  mv_range : forall pid, is_Some (o_procs o' !! pid) -> 0 < pid < max_pid;
  mv_pid_file : o_pid_file o' = o_pid_file o;
  mv_kills : o_kills o' = o_kills o;
  mv_clock : o_clock o <= o_clock o' }.

(** Documented behaviour of the system: a new process gets a pid that no entry
    of the table has and no child of the service that is not waited for (the
    pid of one that is may come again), and [pidof] prints the pids of the
    processes of that name. *)
Class EnvironmentLaws `{Environment} : Prop := mkEnvironmentLaws {
  law_move : forall n o, (forall pid, is_Some (o_procs o !! pid) -> 0 < pid < max_pid) -> moves_ok o (env_move n o);
  law_pid : forall n o s pid, env_pid n o s = Some pid -> 0 < pid < max_pid /\ o_procs o !! pid = None /\ pid ∉ s;
  law_pidof : forall o, (forall pid, is_Some (o_procs o !! pid) -> 0 < pid < max_pid) ->
    exists pids, Fields (default EmptyString (env_pidof o)) = Itoa <$> pids /\
    forall pid, pid ∈ pids <-> exists p, o_procs o !! pid = Some p /\ p_diag p = true }.

(** * The transition system *)

(** What can happen, one at a time: the operations of the handlers and of the
    goroutines, a move of the environment, a restart of the service. *)
Inductive action :=
| AEnsure (res : option managerError)
| AStop (stopped : bool)
| AMonitor
| AWait (pid : Z)
| AReap (pid : Z)
| AStatus
| AMove
| ARestart.

Definition restarted (w : world) : world :=
  mkWorld (w_next w) (w_os w) (mkManager 0 None 0 0 0 0) None false ∅ ∅.

Inductive step `{SortSlice} `{Environment} (text : managerError -> string) (embedded : list Z)
    : world -> action -> world -> Prop :=
| StepEnsure w res w' :
    ensureNeighborPipeline embedded w = (res, w') -> step text embedded w (AEnsure res) w'
| StepStop w state stopped w' :
    stopNeighborCollection state w = (stopped, w') -> step text embedded w (AStop stopped) w'
| StepMonitor w w' :
    w_monitor w = true -> monitor_tick text w = (tt, w') -> step text embedded w AMonitor w'
| StepWait w pid w' :
    pid ∈ w_waiting w -> ended (w_os w) pid = true -> reap_wait {[pid]} w = (tt, w') -> step text embedded w (AWait pid) w'
| StepReap w pid err w' :
    pid ∈ w_reaped w -> reap_locked pid err w = (tt, w') -> step text embedded w (AReap pid) w'
| StepStatus w status w' :
    NeighborServiceStatusHandler w = (status, w') -> step text embedded w AStatus w'
| StepMove w o' :
    moves_ok (w_os w) o' ->
    step text embedded w AMove
      (mkWorld (w_next w) o' (w_manager w) (w_takeover w) (w_monitor w) (w_waiting w) (w_reaped w))
| StepRestart w : step text embedded w ARestart (restarted w).

Inductive reachable `{SortSlice} `{Environment} (text : managerError -> string) (embedded : list Z) (w0 : world)
    : world -> Prop :=
| ReachInit : reachable text embedded w0 w0
| ReachStep w a w' : reachable text embedded w0 w -> step text embedded w a w' -> reachable text embedded w0 w'.

(** * The abstract collector *)

(** What a client may think of: the process that runs for the service, and
    whether and since when somebody wants it (0: nobody). *)
Record collector := mkCollector { c_run : option Z; c_access : Z }.

(** The process may end at any time. *)
Definition shrink (r r' : option Z) : Prop := r' = r \/ r' = None.

(** Only this process runs [diag_mdlog]. *)
Definition alone (o : os) (pid : Z) : Prop :=
  forall pid' p, o_procs o !! pid' = Some p -> p_diag p = true -> pid' = pid.

(** Making sure that the collector runs: a running one is kept, one that an
    earlier instance of the service left is adopted, otherwise one is started,
    and only when no [diag_mdlog] runs at all.  A collector that was killed and
    has not gone yet is taken for a running one. *)
Inductive ensured (o o' : os) : option Z -> option managerError -> option Z -> Prop :=
| EnsuredRunning pid : ensured o o' (Some pid) None (Some pid)
| EnsuredAdopted pid : own_at o pid -> live_at o' pid -> ensured o o' None None (Some pid)
| EnsuredStarted pid : alone o' pid -> live_at o' pid -> ensured o o' None None (Some pid)
| EnsuredDying pid : dying_at o' pid -> ensured o o' None None None
| EnsuredFailed e : ensured o o' None (Some e) None.

Inductive collector_step (o o' : os) : action -> collector -> collector -> Prop :=
| CEnsureEarly r r' a e : shrink r r' -> collector_step o o' (AEnsure (Some e)) (mkCollector r a) (mkCollector r' a)
| CEnsure r r1 a res r2 :
    shrink r r1 -> ensured o o' r1 res r2 ->
    collector_step o o' (AEnsure res) (mkCollector r a) (mkCollector r2 (o_clock o'))
(** A stop reports whether there was something to stop. *)
| CStop r a : collector_step o o' (AStop (bool_decide (is_Some r))) (mkCollector r a) (mkCollector None 0)
| CStopDying pid a : dying_at o pid -> collector_step o o' (AStop true) (mkCollector None a) (mkCollector None 0)
| CMonitorUnwanted r : collector_step o o' AMonitor (mkCollector r 0) (mkCollector r 0)
| CMonitorIdle r a :
    neighborIdleTimeout <= o_clock o - a -> collector_step o o' AMonitor (mkCollector r a) (mkCollector None 0)
| CMonitorStart a res r2 :
    o_clock o - a < neighborIdleTimeout -> ensured o o' None res r2 ->
    collector_step o o' AMonitor (mkCollector None a) (mkCollector r2 a)
| CMonitorKeep pid a :
    o_clock o - a < neighborIdleTimeout ->
    collector_step o o' AMonitor (mkCollector (Some pid) a) (mkCollector (Some pid) a)
| CMonitorDying pid a :
    o_clock o - a < neighborIdleTimeout -> dying_at o' pid ->
    collector_step o o' AMonitor (mkCollector None a) (mkCollector None a)
(** The collector makes no progress: it is stopped and another one started. *)
| CMonitorRestart r a res r2 :
    o_clock o - a < neighborIdleTimeout -> ensured o o' None res r2 ->
    collector_step o o' AMonitor (mkCollector r a) (mkCollector r2 a)
| CWait pid c : collector_step o o' (AWait pid) c c
| CReap pid c : collector_step o o' (AReap pid) c c
(** The running collector has got the pid of the child this reaper was started
    for: it is forgotten, and left alone until the next request adopts it. *)
| CReapReused pid a : collector_step o o' (AReap pid) (mkCollector (Some pid) a) (mkCollector None a)
| CStatus c : collector_step o o' AStatus c c
| CMove r r' a : shrink r r' -> collector_step o o' AMove (mkCollector r a) (mkCollector r' a)
| CRestart r r' a : shrink r r' -> collector_step o o' ARestart (mkCollector r a) (mkCollector r' 0).

(** * The abstraction *)

(** The service knows a process from its memory or from the pid file. *)
Definition known (w : world) (pid : Z) : Prop :=
  m_pid (w_manager w) = pid \/
  exists data, o_pid_file (w_os w) = Some data /\ Atoi (TrimSpace data) = Some pid.

Definition runs (w : world) (r : option Z) : Prop :=
  match r with
  | Some pid => live_at (w_os w) pid /\ known w pid
  | None => forall pid, live_at (w_os w) pid -> ~ known w pid
  end.

(** The process it knows of, be it dying. *)
Definition tracked (w : world) (t : option Z) : Prop :=
  match t with
  | Some pid => own_at (w_os w) pid /\ known w pid
  | None => forall pid, own_at (w_os w) pid -> ~ known w pid
  end.

(** What of it counts as running. *)
Definition view (o : os) (t : option Z) : option Z :=
  pid ← t; p ← o_procs o !! pid; if live p then Some pid else None.

(** A signal went to a process of the service: the collector or the shell
    service it replaces. *)
Definition kill_ok (k : Z * signal * option process) : Prop :=
  exists p, snd k = Some p /\ Contains (cmdline_of (p_args p)) neighborBaseDir = true.

Record good (w : world) : Prop := mkGood {
  g_one : forall pid pid', own_at (w_os w) pid -> own_at (w_os w) pid' -> pid = pid';
  g_diag : forall pid p, o_procs (w_os w) !! pid = Some p -> own p = true -> p_diag p = true;
  g_range : forall pid, is_Some (o_procs (w_os w) !! pid) -> 0 < pid < max_pid;
  g_memory : forall pid, own_at (w_os w) pid -> m_pid (w_manager w) = pid \/ m_pid (w_manager w) = 0;
  g_pending : forall pid, pending w pid -> 0 < pid;
  g_child : forall pid, m_child (w_manager w) = Some pid -> m_pid (w_manager w) = pid;
  g_kills : Forall kill_ok (o_kills (w_os w)) }.

(** A device on which nothing of the service runs. *)
Definition fresh_world (o : os) : world := mkWorld 0 o (mkManager 0 None 0 0 0 0) None false ∅ ∅.

(** An environment in which nothing fails and nothing happens by itself. *)
Definition sample_pids (o : os) : list Z := fst <$> filter (fun kp => p_diag (snd kp) = true) (map_to_list (o_procs o)).

#[export] Instance sample_environment : Environment := {|
  env_ok := fun _ => true;
  env_move := fun _ o => o;
  env_waited := fun _ => ∅;
  env_pid := fun _ o s => List.find (fun pid => bool_decide (o_procs o !! pid = None) && bool_decide (pid ∉ s)) (seqZ 1 1000);
  env_pidof := fun o => Some (Join (Itoa <$> sample_pids o) " ") |}.

Definition sample_os : os :=
  mkOS {[7 := mkProcess false ["/sbin/init"] false]} None None None None (Some []) 1000 [].
Definition sample_world : world := fresh_world sample_os.

(** * Lemmas *)

Lemma isNeighborDiag_own o pid : isNeighborDiag o pid = true <-> own_at o pid.
Proof.
  unfold isNeighborDiag, processCmdline, own_at. destruct (o_procs o !! pid) as [p|].
  - split; [intros H; by exists p|]. by intros (p' & [= <-] & H).
  - split; [intros H; vm_compute in H; discriminate|]. by intros (p & ? & _).
Qed.

Lemma not_diag_own o pid : isNeighborDiag o pid = false <-> ~ own_at o pid.
Proof. by rewrite <- isNeighborDiag_own, not_true_iff_false. Qed.

Lemma pidAlive_spec o pid : pidAlive o pid = true <-> 0 < pid /\ is_Some (o_procs o !! pid).
Proof.
  unfold pidAlive. destruct (Z.leb_spec pid 0); [split; [done|lia]|].
  rewrite bool_decide_eq_true. intuition lia.
Qed.

Lemma is_prefix_weaken {A} `{EqDecision A} (p q l : list A) : is_prefix (p ++ q) l = true -> is_prefix p l = true.
Proof.
  revert l. induction p as [|x p IH]; intros l Hl; [by destruct l|].
  destruct l as [|y l]; [done|]. simpl in *. apply andb_true_iff in Hl as [-> Hl]. simpl. by apply IH.
Qed.

Lemma index_of_weaken {A} `{EqDecision A} (p q l : list A) :
  is_Some (index_of (p ++ q) l) -> is_Some (index_of p l).
Proof.
  induction l as [|y l IH]; cbn [index_of].
  - destruct (is_prefix (p ++ q) []) eqn:Hp; [|by intros [? ?]]. intros _. by rewrite (is_prefix_weaken p q).
  - destruct (is_prefix (p ++ q) (y :: l)) eqn:Hp.
    + intros _. by rewrite (is_prefix_weaken p q).
    + rewrite !fmap_is_Some. intros Hs. destruct (is_prefix p (y :: l)); [done|]. rewrite fmap_is_Some. by apply IH.
Qed.

Lemma own_kill_ok pid s p : own p = true -> kill_ok (pid, s, Some p).
Proof.
  unfold own, is_diag_cmdline, kill_ok. intros [_ H]%andb_true_iff. exists p. split; [done|].
  unfold Contains, Index in *. apply bool_decide_eq_true in H. apply bool_decide_eq_true.
  eapply index_of_weaken. unfold neighborRingDir in H. rewrite chars_append in H. exact H.
Qed.

(** What an operation keeps when it only touches files other than [diag.pid]. *)
Record same_core (w w' : world) : Prop := mkSameCore {
  sc_manager : w_manager w' = w_manager w;
  sc_procs : o_procs (w_os w') = o_procs (w_os w);
  sc_pid_file : o_pid_file (w_os w') = o_pid_file (w_os w);
  sc_clock : o_clock (w_os w') = o_clock (w_os w);
  sc_kills : o_kills (w_os w') = o_kills (w_os w);
  sc_waiting : w_waiting w' = w_waiting w;
  sc_reaped : w_reaped w' = w_reaped w }.

#[export] Instance same_core_refl : Reflexive same_core.
Proof. by constructor. Qed.
#[export] Instance same_core_trans : Transitive same_core.
Proof. intros x y z [] []. constructor; congruence. Qed.

(** What it keeps when time passes: processes end, no collector appears. *)
Record evolves (w w' : world) : Prop := mkEvolves {
  ev_manager : w_manager w' = w_manager w;
  ev_own : forall pid p', o_procs (w_os w') !! pid = Some p' -> own p' = true ->
    exists p, o_procs (w_os w) !! pid = Some p /\ later p p';
  ev_range : forall pid, is_Some (o_procs (w_os w') !! pid) -> 0 < pid < max_pid;
  ev_pid_file : o_pid_file (w_os w') = o_pid_file (w_os w);
  ev_kills : Forall kill_ok (o_kills (w_os w'));
  ev_pending : forall pid, pending w' pid -> pending w pid }.

#[export] Instance later_refl : Reflexive later.
Proof. by intros p. Qed.
#[export] Instance later_trans : Transitive later.
Proof. intros x y z (H1 & H2 & H3) (H4 & H5 & H6). split_and!; [congruence..|auto]. Qed.

Lemma later_own p p' : later p p' -> own p' = own p.
Proof. unfold own. by intros (_ & -> & _). Qed.

Lemma later_live p p' : later p p' -> live p' = true -> live p = true.
Proof.
  unfold live. intros Hl. rewrite (later_own _ _ Hl), !andb_true_iff, !negb_true_iff. intros [-> Hk]. split; [done|].
  destruct Hl as (_ & _ & Hl). destruct (p_killed p); [|done]. by rewrite Hl in Hk.
Qed.

Lemma live_own p : live p = true -> own p = true.
Proof. unfold live. by intros [? _]%andb_true_iff. Qed.

Lemma live_at_own o pid : live_at o pid -> own_at o pid.
Proof. intros (p & Hp & Hl). exists p. split; [done|by apply live_own]. Qed.

Lemma own_cases o pid : own_at o pid -> live_at o pid \/ dying_at o pid.
Proof.
  intros (p & Hp & Ho). destruct (p_killed p) eqn:Hk; [right; by exists p|left].
  exists p. split; [done|]. unfold live. by rewrite Ho, Hk.
Qed.

Lemma view_live o pid : live_at o pid -> view o (Some pid) = Some pid.
Proof. intros (p & Hp & Hl). unfold view. cbn. rewrite Hp. cbn. by rewrite Hl. Qed.

Lemma view_dying o pid : dying_at o pid -> view o (Some pid) = None.
Proof. intros (p & Hp & _ & Hk). unfold view, live. cbn. rewrite Hp. cbn. by rewrite Hk, andb_false_r. Qed.

Lemma evolves_own w w' pid : evolves w w' -> own_at (w_os w') pid -> own_at (w_os w) pid.
Proof.
  intros He (p & Hp & Ho). destruct (ev_own _ _ He pid p Hp Ho) as (p0 & Hp0 & Hl).
  exists p0. split; [done|]. by rewrite <- (later_own _ _ Hl).
Qed.

Lemma evolves_live w w' pid : evolves w w' -> live_at (w_os w') pid -> live_at (w_os w) pid.
Proof.
  intros He (p & Hp & Hl). destruct (ev_own _ _ He pid p Hp (live_own _ Hl)) as (p0 & Hp0 & Hlt).
  exists p0. split; [done|]. by eapply later_live.
Qed.

Lemma evolves_refl w : good w -> evolves w w.
Proof. intros []. constructor; try done. intros pid p Hp _. by exists p. Qed.

#[export] Instance evolves_trans : Transitive evolves.
Proof.
  intros x y z [ma oa ra fa ka pa] [mb ob rb fb kb pb]. constructor; try congruence; auto.
  intros pid p Hp Ho. destruct (ob pid p Hp Ho) as (q & Hq & Hl). rewrite (later_own _ _ Hl) in Ho.
  destruct (oa pid q Hq Ho) as (q' & Hq' & Hl'). exists q'. split; [done|]. by etransitivity.
Qed.

Lemma same_core_evolves w w' : good w -> same_core w w' -> evolves w w'.
Proof.
  intros Hg []. destruct Hg. constructor; try congruence; rewrite ?sc_procs0, ?sc_kills0; auto.
  - intros pid p Hp _. by exists p.
  - intros pid. unfold pending. by rewrite sc_waiting0, sc_reaped0.
Qed.

Lemma good_evolves w w' : good w -> evolves w w' -> good w'.
Proof.
  intros [H1 Hd Hr Hm Hp Hc Hk] He. pose proof (fun pid => evolves_own _ _ pid He) as Ho.
  destruct He as [em eo er ef ek ep]. constructor; auto.
  - intros pid p Hpp Hpo. destruct (eo pid p Hpp Hpo) as (q & Hq & Hl). rewrite (later_own _ _ Hl) in Hpo.
    destruct Hl as (-> & _). by apply (Hd pid q).
  - intros pid Hpid. rewrite em. by apply Hm, Ho.
  - rewrite em. auto.
Qed.

Lemma known_evolves w w' pid : evolves w w' -> known w' pid <-> known w pid.
Proof. intros []. unfold known. by rewrite ev_manager0, ev_pid_file0. Qed.

Lemma own_at_dec o pid : {own_at o pid} + {~ own_at o pid}.
Proof.
  destruct (isNeighborDiag o pid) eqn:E; [left; by apply isNeighborDiag_own|right; by apply not_diag_own].
Defined.

Lemma tracked_evolves w w' t : good w -> evolves w w' -> tracked w t ->
  exists t', tracked w' t' /\ shrink (view (w_os w) t) (view (w_os w') t').
Proof.
  intros Hg He Ht. destruct t as [pid|].
  - destruct Ht as [Ho Hk]. destruct (own_at_dec (w_os w') pid) as [Ho'|Hn].
    + exists (Some pid). split; [split; [done|by apply (known_evolves w)]|].
      destruct (own_cases _ _ Ho') as [Hl|Hd]; [left|right; by apply view_dying].
      by rewrite !view_live by (done || by eapply evolves_live).
    + exists None. split; [|by right]. intros q Hq _. apply Hn.
      assert (q = pid) as ->; [|done]. eapply g_one; [done|by eapply evolves_own|done].
  - exists None. split; [|by left]. intros q Hq. rewrite known_evolves by done. apply Ht. by eapply evolves_own.
Qed.

(** Between a killed process and none there is no difference for a client. *)
Lemma tracked_runs w t : tracked w t -> good w -> runs w (view (w_os w) t).
Proof.
  intros Ht Hg. destruct t as [pid|].
  - destruct Ht as [Ho Hk]. destruct (own_cases _ _ Ho) as [Hl|Hd].
    + by rewrite view_live.
    + rewrite view_dying by done. intros q Hq. assert (q = pid) as ->.
      { eapply (g_one _ Hg); [by apply live_at_own|done]. }
      destruct Hq as (p & Hp & Hl), Hd as (p' & Hp' & _ & Hk'). rewrite Hp in Hp'. injection Hp' as <-.
      unfold live in Hl. by rewrite Hk', andb_false_r in Hl.
  - intros q Hq. by apply Ht, live_at_own.
Qed.

Lemma view_shrinks w w' t t' :
  good w -> good w' -> tracked w t -> tracked w' t' ->
  (forall q, live_at (w_os w') q -> live_at (w_os w) q) ->
  (forall q, live_at (w_os w') q -> known w' q -> known w q) ->
  shrink (view (w_os w) t) (view (w_os w') t').
Proof.
  intros Hg Hg' Ht%tracked_runs Ht'%tracked_runs Hl Hk; [|done..].
  destruct (view (w_os w') t') as [q'|]; [left|by right]. destruct Ht' as [Hl' Hk'].
  destruct (view (w_os w) t) as [q|].
  - f_equal. eapply (g_one _ Hg); apply live_at_own; [by apply Hl|apply Ht].
  - exfalso. apply (Ht q'); auto.
Qed.

Lemma runs_unique w r r' : good w -> runs w r -> runs w r' -> r = r'.
Proof.
  intros Hg. destruct r as [p|], r' as [q|]; [|..|done].
  - intros [Hp _] [Hq _]. f_equal. by eapply g_one; [|apply live_at_own..].
  - intros [Hp Hk] Hn. by destruct (Hn p).
  - intros Hn [Hp Hk]. by destruct (Hn q).
Qed.

Lemma tracked_same w w' r : same_core w w' -> tracked w r -> tracked w' r.
Proof.
  intros [] Hr. unfold tracked, own_at, known in *. destruct r; rewrite ?sc_procs0, ?sc_manager0, ?sc_pid_file0; exact Hr.
Qed.

Lemma tracked_unique w r r' : good w -> tracked w r -> tracked w r' -> r = r'.
Proof.
  intros Hg. destruct r as [p|], r' as [q|]; [|..|done].
  - intros [Hp _] [Hq _]. f_equal. by eapply g_one.
  - intros [Hp Hk] Hn. by destruct (Hn p).
  - intros Hn [Hp Hk]. by destruct (Hn q).
Qed.

(** ** Operations that touch only files *)

Definition quiet {A} (m : M A) : Prop :=
  forall w (Q : A -> world -> Prop), (forall a w', same_core w w' -> Q a w') -> wp m Q w.

Lemma quiet_ret {A} (a : A) : quiet (mret a).
Proof. intros w Q HQ. by apply HQ. Qed.

Lemma quiet_bind {A B} (m : M A) (f : A -> M B) : quiet m -> (forall a, quiet (f a)) -> quiet (m ≫= f).
Proof.
  intros Hm Hf w Q HQ. apply wp_bind, Hm. intros a w' Hw. apply Hf. intros b w2 Hw2. apply HQ. by etransitivity.
Qed.

Lemma quiet_if {A} (b : bool) (m1 m2 : M A) : quiet m1 -> quiet m2 -> quiet (if b then m1 else m2).
Proof. by destruct b. Qed.

Lemma quiet_then {E} (m k : M (option E)) : quiet m -> quiet k -> quiet (and_then m k).
Proof. intros Hm Hk. apply quiet_bind; [done|]. intros [e|]; [apply quiet_ret|done]. Qed.

Lemma quiet_get_os : quiet get_os.
Proof. intros w Q HQ. by apply HQ. Qed.

Section Quiet.
Context `{SortSlice} `{Environment}.

Lemma quiet_attempt : quiet attempt.
Proof. intros w Q HQ. by apply HQ. Qed.

Lemma quiet_failing e : quiet (fallible e).
Proof. apply quiet_bind; [apply quiet_attempt|]. intros ok. apply quiet_ret. Qed.

Lemma quiet_with_os f :
  (forall o, o_procs (f o) = o_procs o /\ o_pid_file (f o) = o_pid_file o /\ o_clock (f o) = o_clock o /\
             o_kills (f o) = o_kills o) -> quiet (with_os f).
Proof. intros Hf w Q HQ. apply HQ. destruct (Hf (w_os w)) as (? & ? & ? & ?). by constructor. Qed.

Lemma quiet_write set value :
  (forall v, quiet (with_os (set v))) -> quiet (writeNeighborTextFile set value).
Proof.
  intros Hs. unfold writeNeighborTextFile.
  do 5 (apply quiet_bind; [apply quiet_attempt|]; intros ?; apply quiet_if; [apply quiet_ret|]).
  apply quiet_bind; [apply Hs|]. intros ?. apply quiet_ret.
Qed.

Lemma quiet_state state : quiet (writeNeighborState state).
Proof. apply quiet_write. intros v. by apply quiet_with_os. Qed.

Lemma quiet_clear_entries entries : quiet (clear_entries entries).
Proof.
  induction entries as [|e entries IH]; [apply quiet_ret|]. cbn [clear_entries].
  apply quiet_bind; [apply quiet_if; [apply quiet_ret|apply quiet_attempt]|].
  intros gone. apply quiet_bind; [exact IH|]. intros ?. apply quiet_ret.
Qed.

Lemma quiet_clear : quiet clearNeighborQMDLFiles.
Proof.
  apply quiet_bind; [apply quiet_get_os|]. intros o. destruct (o_ring o); [|apply quiet_ret].
  apply quiet_bind; [apply quiet_clear_entries|]. intros rest. by apply quiet_with_os.
Qed.

Lemma quiet_install data mode : quiet (install_asset data mode).
Proof.
  unfold install_asset. repeat (apply quiet_then; [apply quiet_failing|]).
  apply quiet_bind; [by apply quiet_with_os|]. intros ?. apply quiet_ret.
Qed.

Lemma quiet_asset data mode hash : quiet (writeAssetIfChanged data mode hash).
Proof.
  apply quiet_bind; [apply quiet_get_os|]. intros o. apply quiet_bind; [apply quiet_attempt|]. intros lstat.
  destruct (o_config o) as [[current old|]|]; [| |apply quiet_install]; (apply quiet_if; [apply quiet_install|]).
  - apply quiet_bind; [apply quiet_attempt|]. intros read. apply quiet_if; [|apply quiet_install].
    apply quiet_bind; [apply quiet_attempt|]. intros ok. apply quiet_if; [|apply quiet_ret].
    apply quiet_bind; [by apply quiet_with_os|]. intros ?. apply quiet_ret.
  - apply quiet_bind; [apply quiet_attempt|]. intros removed. apply quiet_if; [apply quiet_ret|].
    apply quiet_bind; [by apply quiet_with_os|]. intros ?. apply quiet_install.
Qed.

Lemma quiet_extract embedded : quiet (extractNeighborAssets embedded).
Proof.
  unfold extractNeighborAssets. repeat (apply quiet_then; [apply quiet_failing|]).
  apply quiet_if; [apply quiet_ret|apply quiet_asset].
Qed.

Lemma quiet_service_pid : quiet remove_service_pid.
Proof.
  apply quiet_bind; [apply quiet_attempt|]. intros ok. apply quiet_if; [by apply quiet_with_os|apply quiet_ret].
Qed.

(** ** The pid file *)

(** Between two states with the same processes and the same memory the pid file
    may have gone. *)
Record keeps (w w' : world) : Prop := mkKeeps {
  kp_procs : o_procs (w_os w') = o_procs (w_os w);
  kp_clock : o_clock (w_os w') = o_clock (w_os w);
  kp_kills : o_kills (w_os w') = o_kills (w_os w);
  kp_waiting : w_waiting w' = w_waiting w;
  kp_reaped : w_reaped w' = w_reaped w;
  kp_access : m_lastAccess (w_manager w') = m_lastAccess (w_manager w) }.

End Quiet.

#[export] Instance keeps_refl : Reflexive keeps.
Proof. by constructor. Qed.
#[export] Instance keeps_trans : Transitive keeps.
Proof. intros x y z [] []. constructor; congruence. Qed.

Lemma same_core_keeps w w' : same_core w w' -> keeps w w'.
Proof. intros []. constructor; congruence. Qed.

Lemma keeps_own w w' pid : keeps w w' -> own_at (w_os w') pid <-> own_at (w_os w) pid.
Proof. intros []. unfold own_at. by rewrite kp_procs0. Qed.

Lemma keeps_live w w' pid : keeps w w' -> live_at (w_os w') pid <-> live_at (w_os w) pid.
Proof. intros []. unfold live_at. by rewrite kp_procs0. Qed.

Lemma keeps_dying w w' pid : keeps w w' -> dying_at (w_os w') pid <-> dying_at (w_os w) pid.
Proof. intros []. unfold dying_at. by rewrite kp_procs0. Qed.

Lemma keeps_view w w' t : keeps w w' -> view (w_os w') t = view (w_os w) t.
Proof. intros []. unfold view. by rewrite kp_procs0. Qed.

(** Goodness only depends on what is kept and on the manager's memory. *)
Lemma good_keeps w w' :
  good w -> keeps w w' ->
  (forall pid, own_at (w_os w) pid -> m_pid (w_manager w') = pid \/ m_pid (w_manager w') = 0) ->
  (forall pid, m_child (w_manager w') = Some pid -> m_pid (w_manager w') = pid) -> good w'.
Proof.
  intros [H1 Hd Hr Hm Hp Hc Hk] Hkeep Hm' Hc'. pose proof (fun pid => keeps_own _ _ pid Hkeep) as Ho.
  destruct Hkeep as [kp kc kk kw kr ka]. constructor; try done.
  - intros pid pid' A B. apply H1; by apply Ho.
  - by rewrite kp.
  - by rewrite kp.
  - intros pid A. by apply Hm', Ho.
  - intros pid. unfold pending. rewrite kw, kr. apply Hp.
  - by rewrite kk.
Qed.

Lemma tracked_exists w : good w -> exists r, tracked w r.
Proof.
  intros Hg. destruct (own_at_dec (w_os w) (m_pid (w_manager w))) as [Ho|Hn].
  { exists (Some (m_pid (w_manager w))). split; [done|by left]. }
  destruct (o_pid_file (w_os w)) as [data|] eqn:Hd.
  2:{ exists None. intros q Hq [Hk|(? & Hf & _)]; [by subst|congruence]. }
  destruct (Atoi (TrimSpace data)) as [pid|] eqn:Hp.
  - destruct (own_at_dec (w_os w) pid) as [Ho|Hn'].
    + exists (Some pid). split; [done|]. right. by exists data.
    + exists None. intros q Hq [Hk|(d & Hf & Ha)]; [by subst|]. rewrite Hd in Hf. injection Hf as <-.
      rewrite Hp in Ha. by injection Ha as <-.
  - exists None. intros q Hq [Hk|(d & Hf & Ha)]; [by subst|]. rewrite Hd in Hf. injection Hf as <-. congruence.
Qed.

Section Operations.
Context `{HSort : SortSlice} `{HEnv : Environment} `{HLaws : !EnvironmentLaws}.

Lemma wp_drop_pid_file w (Q : unit -> world -> Prop) :
  good w ->
  (forall w', good w' -> keeps w w' -> w_manager w' = w_manager w -> (forall q, known w' q -> known w q) -> Q tt w') ->
  wp remove_pid_file Q w.
Proof.
  intros Hg HQ. unfold remove_pid_file. apply wp_bind. unfold wp at 1, attempt. cbn [fst snd].
  set (w1 := mkWorld _ _ _ _ _ _ _). assert (Hg1 : good w1) by (by destruct Hg; constructor).
  destruct (env_ok (w_next w)); [|by apply wp_ret, HQ]. unfold wp. cbn [with_os st_modify fst snd].
  apply HQ; [by destruct Hg; constructor|by constructor|done|]. intros q [?|(? & ? & _)]; [by left|done].
Qed.

(** Removing the pid file loses nothing while the memory knows the process. *)
Lemma wp_remove_pid_file w r (Q : unit -> world -> Prop) :
  good w -> tracked w r -> (forall pid, r = Some pid -> m_pid (w_manager w) = pid) ->
  (forall w', good w' -> tracked w' r -> keeps w w' -> w_manager w' = w_manager w -> Q tt w') ->
  wp remove_pid_file Q w.
Proof.
  intros Hg Hr Hm HQ. unfold remove_pid_file. apply wp_bind. unfold wp at 1, attempt. cbn [fst snd].
  set (w1 := mkWorld _ _ _ _ _ _ _).
  assert (H1 : same_core w w1) by by constructor.
  destruct (env_ok (w_next w)).
  - unfold wp. cbn [with_os st_modify fst snd]. apply HQ; [| |by constructor|done].
    + eapply good_keeps; [exact Hg|by constructor|apply Hg..].
    + destruct r as [pid|]; cbn [tracked w_os set_pid_file] in *.
      * destruct Hr as [Ho _]. split; [exact Ho|]. left. by apply Hm.
      * intros pid Ho [Hk|(data & ? & _)]; [|done]. apply (Hr pid Ho). by left.
  - apply wp_ret, HQ; [by eapply good_evolves, same_core_evolves|by eapply tracked_same|by apply same_core_keeps|done].
Qed.

Lemma wp_refresh w r (Q : unit -> world -> Prop) :
  good w -> tracked w r ->
  (forall w', good w' -> tracked w' r -> keeps w w' -> m_pid (w_manager w') = default 0 r ->
     (r = None -> m_child (w_manager w') = None) -> Q tt w') ->
  wp refreshManagedPIDLocked Q w.
Proof.
  intros Hg Hr HQ. unfold refreshManagedPIDLocked. apply wp_bind. unfold get_manager, wp at 1. cbn [fst snd].
  apply wp_bind. unfold get_os, wp at 1. cbn [fst snd].
  destruct (_ && _ && _) eqn:Hcur.
  - apply andb_true_iff in Hcur as [[Hpos _]%andb_true_iff Hown]. apply isNeighborDiag_own in Hown.
    assert (r = Some (m_pid (w_manager w))) as ->.
    { eapply tracked_unique; [exact Hg|exact Hr|]. split; [done|by left]. }
    apply wp_ret, HQ; done.
  - assert (Hnot : ~ own_at (w_os w) (m_pid (w_manager w))).
    { intros Ho. pose proof Ho as (p & Hp & _). pose proof (g_range _ Hg _ (ex_intro _ p Hp)) as [Hpos _].
      apply isNeighborDiag_own in Ho. rewrite Ho, andb_true_r in Hcur.
      rewrite (proj2 (pidAlive_spec _ _)) in Hcur by (split; [done|by exists p]).
      apply andb_false_iff in Hcur as [Hcur|?]; [|done]. apply Z.ltb_ge in Hcur. lia. }
    apply wp_bind. unfold wp at 1, with_manager, st_modify. cbn [fst snd].
    set (w1 := mkWorld _ _ _ _ _ _ _).
    assert (Hg1 : good w1).
    { eapply good_keeps; [exact Hg|by constructor| |done]. intros pid Ho. by right. }
    assert (Hfile : forall pid, own_at (w_os w) pid -> known w pid ->
              exists data, o_pid_file (w_os w) = Some data /\ Atoi (TrimSpace data) = Some pid).
    { intros pid Ho [<-|?]; [by destruct Hnot|done]. }
    assert (Hnone : r = None -> tracked w1 None).
    { intros -> pid Ho [Hk|Hk]; [|by apply (Hr pid Ho); right].
      cbn in Hk. destruct Ho as (p & Hp & _). pose proof (g_range _ Hg pid (ex_intro _ p Hp)). lia. }
    destruct (o_pid_file (w_os w)) as [data|] eqn:Hdata.
    2:{ assert (r = None) as ->.
        { destruct r as [pid|]; [|done]. destruct Hr as [Ho Hk]. by destruct (Hfile pid Ho Hk) as (? & ? & _). }
        apply wp_ret, HQ; [done|by apply Hnone|by constructor|done|done]. }
    assert (Hother : (forall pid, Atoi (TrimSpace data) = Some pid -> ~ own_at (w_os w) pid) -> wp remove_pid_file Q w1).
    { intros Hno. assert (r = None) as ->.
      { destruct r as [pid|]; [|done]. destruct Hr as [Ho Hk]. destruct (Hfile pid Ho Hk) as (? & [= <-] & Hp).
        by destruct (Hno pid Hp). }
      eapply wp_remove_pid_file; [exact Hg1|by apply Hnone|done|]. intros w2 Hg2 Hr2 Hk2 Hm2.
      apply HQ; [done|done|etransitivity; [|exact Hk2]; by constructor|by rewrite Hm2|by rewrite Hm2]. }
    destruct (Atoi (TrimSpace data)) as [pid|] eqn:Hp; [|by apply Hother].
    destruct (pidAlive (w_os w) pid && isNeighborDiag (w_os w) pid) eqn:Halive.
    + apply andb_true_iff in Halive as [_ Ho]. apply isNeighborDiag_own in Ho.
      assert (r = Some pid) as ->.
      { eapply tracked_unique; [exact Hg|exact Hr|]. split; [done|]. right. by exists data. }
      unfold wp, with_manager, st_modify. cbn [fst snd]. apply HQ; [| |by constructor|done|done].
      * eapply good_keeps; [exact Hg|by constructor| |done]. intros q Hq. left. by apply (g_one _ Hg).
      * split; [done|by left].
    + apply Hother. intros q [= <-] Ho. pose proof Ho as (p & Hpp & _).
      pose proof (g_range _ Hg _ (ex_intro _ p Hpp)) as [Hpos _]. apply isNeighborDiag_own in Ho.
      rewrite Ho, (proj2 (pidAlive_spec _ _)) in Halive; [done|]. split; [done|by exists p].
Qed.

(** Writing the pid of the process in memory. *)
Lemma wp_write_pid w pid (Q : bool -> world -> Prop) :
  good w -> own_at (w_os w) pid -> m_pid (w_manager w) = pid ->
  (forall ok w', good w' -> tracked w' (Some pid) -> keeps w w' -> w_manager w' = w_manager w -> Q ok w') ->
  wp (writeNeighborPID pid) Q w.
Proof.
  intros Hg Ho Hm HQ. unfold writeNeighborPID, writeNeighborTextFile.
  assert (Hend : forall w', same_core w w' -> good w' /\ tracked w' (Some pid) /\ keeps w w' /\ w_manager w' = w_manager w).
  { intros w' Hc. split_and!; [by eapply good_evolves, same_core_evolves| |by apply same_core_keeps|apply Hc].
    eapply tracked_same; [exact Hc|]. split; [done|by left]. }
  revert w Hg Ho Hm HQ Hend. intros w Hg Ho Hm HQ Hend.
  assert (Hstep : forall w' (k : M bool), same_core w w' -> (forall w2, same_core w w2 -> wp k Q w2) ->
            wp (ok ← attempt; if negb ok then mret false else k) Q w').
  { intros w' k Hc Hk. apply wp_bind, quiet_attempt. intros ok w2 Hc2.
    assert (Hc' : same_core w w2) by by etransitivity.
    destruct ok; cbn [negb]; [by apply Hk|]. apply wp_ret. destruct (Hend w2 Hc') as (?&?&?&?). by apply HQ. }
  do 4 (apply Hstep; [reflexivity || assumption|]; intros ? ?).
  apply Hstep; [assumption|]. intros w6 Hc6. destruct (Hend w6 Hc6) as (Hg6 & [Ho6 _] & Hk6 & Hm6).
  apply wp_bind. unfold wp at 1, with_os, st_modify. cbn [fst snd]. apply wp_ret, HQ.
  - eapply good_keeps; [exact Hg6|by constructor|apply Hg6..].
  - split; [exact Ho6|]. left. cbn. by rewrite Hm6.
  - etransitivity; [exact Hk6|]. by constructor.
  - done.
Qed.

(** ** Time and signals *)

Lemma ended_not_own o pid : ended o pid = true -> ~ own_at o pid.
Proof.
  unfold ended. intros He (p & Hp & Ho). rewrite Hp in He. apply bool_decide_eq_true in He.
  unfold own in Ho. rewrite He in Ho. vm_compute in Ho. discriminate.
Qed.

Lemma reap_wait_evolves pids w :
  good w -> pids ⊆ w_waiting w -> (forall pid, pid ∈ pids -> ended (w_os w) pid = true) ->
  evolves w (reap_wait pids w).2.
Proof.
  intros Hg Hsub He.
  assert (Hpr : forall q p, o_procs (w_os (reap_wait pids w).2) !! q = Some p -> o_procs (w_os w) !! q = Some p).
  { intros q p Hq. by apply map_lookup_filter_Some in Hq as [? _]. }
  constructor; try done.
  - intros q p Hq _. exists p. split; [by apply Hpr|done].
  - intros q [p Hq]. apply (g_range _ Hg). exists p. by apply Hpr.
  - apply Hg.
  - intros q. unfold pending. cbn [reap_wait snd w_waiting w_reaped].
    rewrite gmultiset_elem_of_disj_union, elem_of_list_to_set_disj, elem_of_elements, elem_of_difference.
    intros [[? _]|[?|?]]; auto.
Qed.

Lemma reap_wait_own pids w q :
  (forall pid, pid ∈ pids -> ended (w_os w) pid = true) ->
  own_at (w_os w) q -> o_procs (w_os (reap_wait pids w).2) !! q = o_procs (w_os w) !! q.
Proof.
  intros He Ho. pose proof Ho as (p & Hp & _). rewrite Hp. cbn. apply map_lookup_filter_Some. split; [done|].
  intros Hin. by apply (ended_not_own (w_os w) q); [apply He|].
Qed.

Lemma wp_sleep w (Q : unit -> world -> Prop) :
  good w -> (forall w', evolves w w' -> good w' -> Q tt w') -> wp sleep Q w.
Proof.
  intros Hg HQ. unfold wp, sleep. cbv zeta.
  destruct (law_move (w_next w) (w_os w) (g_range _ Hg)) as [mo mr mp mk mc].
  set (w1 := mkWorld _ _ _ _ _ _ _). set (pids := filter _ _).
  assert (He : evolves w w1).
  { constructor; cbn [w1 w_os w_manager]; auto. rewrite mk. apply Hg. }
  assert (Hg1 : good w1) by by eapply good_evolves.
  assert (He1 : evolves w1 (reap_wait pids w1).2).
  { apply reap_wait_evolves; [done|..]; intros pid [? Hin]%elem_of_filter; [|done].
    by apply elem_of_intersection in Hin as [? _]. }
  apply HQ; [by etransitivity|by eapply good_evolves].
Qed.

Lemma wp_wait_dead n pid w (Q : unit -> world -> Prop) :
  good w -> (forall w', evolves w w' -> good w' -> Q tt w') -> wp (wait_dead n pid) Q w.
Proof.
  revert w. induction n as [|n IH]; intros w Hg HQ; cbn [wait_dead].
  - apply wp_ret, HQ; [by apply evolves_refl|done].
  - apply wp_bind. unfold get_os, wp at 1. cbn [fst snd]. destruct (pidAlive _ _).
    + apply wp_bind, wp_sleep; [done|]. intros w1 He1 Hg1. apply IH; [done|]. intros w2 He2 Hg2.
      apply HQ; [by etransitivity|done].
    + apply wp_ret, HQ; [by apply evolves_refl|done].
Qed.

Lemma wp_kill pid s w (Q : unit -> world -> Prop) :
  good w -> kill_ok (pid, s, o_procs (w_os w) !! pid) ->
  (forall w', evolves w w' -> good w' -> (s = SIGKILL -> ~ live_at (w_os w') pid) -> Q tt w') ->
  wp (kill pid s) Q w.
Proof.
  intros Hg Hk HQ. unfold wp, kill. cbn [fst snd]. set (w' := mkWorld _ _ _ _ _ _ _).
  assert (Hpr : forall q p, o_procs (w_os w') !! q = Some p ->
            exists p0, o_procs (w_os w) !! q = Some p0 /\ later p0 p /\ (q = pid -> s = SIGKILL -> p_killed p = true)).
  { intros q p. subst w'. destruct s; cbn [w_os set_procs add_kill o_procs]; [intros ?; by exists p|].
    destruct (decide (q = pid)) as [->|Hne].
    - rewrite lookup_alter_eq. destruct (o_procs (w_os w) !! pid) as [p0|]; [|done]. intros [= <-]. by exists p0.
    - rewrite lookup_alter_ne by done. intros ?. by exists p. }
  assert (He : evolves w w').
  { constructor; try done.
    - intros q p Hq _. destruct (Hpr q p Hq) as (p0 & ? & ? & _). by exists p0.
    - intros q [p Hq]. apply (g_range _ Hg). destruct (Hpr q p Hq) as (p0 & ? & _). by exists p0.
    - subst w'. by destruct s.
    - subst w'. destruct s; cbn [w_os set_procs add_kill o_kills];
        (apply Forall_app; split; [apply Hg|by constructor]). }
  apply HQ; [done|by eapply good_evolves|]. intros Hs (p & Hp & Hl).
  destruct (Hpr pid p Hp) as (_ & _ & _ & Hkd). unfold live in Hl. by rewrite Hkd, andb_false_r in Hl.
Qed.

(** Stopping: whatever the process does, none runs afterwards but one that was
    killed; the answer says whether there was one. *)
Lemma wp_stop w t state (Q : bool -> world -> Prop) :
  good w -> tracked w t ->
  (forall w', good w' -> runs w' None -> m_pid (w_manager w') = 0 ->
     (forall pid, own_at (w_os w') pid -> own_at (w_os w) pid) ->
     m_lastAccess (w_manager w') = m_lastAccess (w_manager w) ->
     Q (bool_decide (is_Some t)) w') ->
  wp (stopManagedDiagLocked state) Q w.
Proof.
  intros Hg Hr HQ. unfold stopManagedDiagLocked. apply wp_bind. eapply wp_refresh; [exact Hg|exact Hr|].
  intros w1 Hg1 Hr1 Hk1 Hm1 _. apply wp_bind. unfold get_manager, wp at 1. cbn [fst snd].
  apply wp_bind. unfold get_os, wp at 1. cbn [fst snd]. cbv zeta.
  destruct t as [pid|]; cbn [default from_option id] in Hm1; rewrite Hm1.
  2:{ cbn [orb Z.leb Z.compare]. apply wp_ret, HQ; [done|by apply (tracked_runs w1 None)|done| |apply Hk1].
      intros q Hq. by apply (keeps_own w w1). }
  destruct Hr1 as [Ho1 Hkn1]. pose proof Ho1 as (p & Hp & Hop).
  pose proof (g_range _ Hg1 _ (ex_intro _ p Hp)) as [Hpos _].
  destruct (Z.leb_spec pid 0); [lia|]. rewrite (proj2 (isNeighborDiag_own _ _) Ho1). cbn [orb negb].
  apply wp_bind, wp_kill; [done|by rewrite Hp; apply own_kill_ok|]. intros w2 He2 Hg2 _.
  apply wp_bind, wp_wait_dead; [done|]. intros w3 He3 Hg3. apply wp_bind. unfold get_os, wp at 1. cbn [fst snd].
  assert (Hsub : forall q, own_at (w_os w3) q -> q = pid).
  { intros q Hq. eapply (g_one _ Hg1); [|done]. by eapply evolves_own, evolves_own. }
  apply wp_bind.
  assert (Hdead : forall Q' : unit -> world -> Prop,
            (forall w4, evolves w3 w4 -> good w4 -> (forall q, ~ live_at (w_os w4) q) -> Q' tt w4) ->
            wp (if pidAlive (w_os w3) pid && isNeighborDiag (w_os w3) pid then kill pid SIGKILL else mret tt) Q' w3).
  { intros Q' HQ'. destruct (_ && _) eqn:Hc.
    - apply andb_true_iff in Hc as [_ Hc]. apply isNeighborDiag_own in Hc as (p3 & Hp3 & Hop3).
      apply wp_kill; [done|by rewrite Hp3; apply own_kill_ok|]. intros w4 He4 Hg4 Hn.
      apply HQ'; [done|done|]. intros q Hq.
      assert (q = pid) as -> by (apply Hsub; eapply evolves_own; [done|by apply live_at_own]).
      by apply Hn.
    - apply wp_ret, HQ'; [by apply evolves_refl|done|]. intros q Hq%live_at_own. pose proof (Hsub q Hq) as ->.
      pose proof Hq as (p3 & Hp3 & _). rewrite (proj2 (isNeighborDiag_own _ _) Hq), andb_true_r in Hc.
      rewrite (proj2 (pidAlive_spec _ _)) in Hc; [done|]. split; [lia|by exists p3]. }
  apply Hdead. intros w4 He4 Hg4 Hn4. apply wp_bind. unfold wp at 1, with_manager, st_modify. cbn [fst snd].
  assert (Hm4 : w_manager w4 = w_manager w1).
  { by rewrite (ev_manager _ _ He4), (ev_manager _ _ He3), (ev_manager _ _ He2). }
  rewrite Hm4, Hm1, Z.eqb_refl. set (w5 := mkWorld _ _ _ _ _ _ _).
  assert (Hk45 : keeps w4 w5) by (constructor; try done; cbn; by rewrite Hm4).
  assert (Hg5 : good w5) by (eapply good_keeps; [exact Hg4|exact Hk45|intros q Hq; by right|done]).
  apply wp_bind. eapply wp_drop_pid_file; [exact Hg5|]. intros w6 Hg6 Hk6 Hm6 _.
  apply wp_bind, quiet_state. intros ok w7 Hc7. apply wp_ret.
  assert (Hk47 : keeps w4 w7) by (etransitivity; [exact Hk45|etransitivity; [exact Hk6|by apply same_core_keeps]]).
  rewrite bool_decide_eq_true_2 in HQ by done. apply HQ.
  - by eapply good_evolves, same_core_evolves.
  - intros q Hq. exfalso. apply (Hn4 q). by apply (keeps_live w4 w7).
  - by rewrite (sc_manager _ _ Hc7), Hm6.
  - intros q Hq. apply (keeps_own w w1); [done|]. do 3 (eapply evolves_own; [eassumption|]).
    by apply (keeps_own w4 w7).
  - rewrite (sc_manager _ _ Hc7), Hm6. cbn. apply Hk1.
Qed.

(** ** Discovery and start *)

Lemma discover_fold o pids acc :
  Forall (fun pid => 0 < pid < max_pid /\ is_Some (o_procs o !! pid)) pids ->
  0 <= fst acc -> 0 <= snd acc ->
  let '(own', foreign') := fold_left (discover_step o) (Itoa <$> pids) acc in
  0 <= own' /\ 0 <= foreign' /\ (own' = fst acc \/ own_at o own') /\
  (own' = 0 -> forall pid, pid ∈ pids -> ~ own_at o pid) /\
  (foreign' = 0 -> forall pid, pid ∈ pids -> own_at o pid) /\
  (fst acc <> 0 -> own' <> 0) /\ (snd acc <> 0 -> foreign' <> 0).
Proof.
  intros Hall. revert acc. induction Hall as [|pid pids [Hpid Hs] _ IH]; intros [own0 foreign0] Ho Hf; cbn [fst snd] in *.
  - cbn. split_and!; auto; intros _ pid Hin; by apply elem_of_nil in Hin.
  - cbn [fmap list_fmap fold_left]. unfold discover_step at 2. rewrite Atoi_Itoa by (unfold max_pid in Hpid; lia).
    rewrite (proj2 (pidAlive_spec o pid)) by (split; [lia|done]). cbn [negb].
    destruct (isNeighborDiag o pid) eqn:Hd; [apply isNeighborDiag_own in Hd|apply not_diag_own in Hd].
    + specialize (IH (if own0 =? 0 then pid else own0, foreign0)). cbn [fst snd] in IH.
      destruct (fold_left _ _ _) as [o1 f1]. destruct IH as (? & ? & H3 & H4 & H5 & H6 & H7);
        [destruct (Z.eqb_spec own0 0); lia|lia|].
      assert (Hne : o1 <> 0) by (apply H6; destruct (Z.eqb_spec own0 0); lia).
      split_and!; try done.
      * destruct H3 as [->|?]; [|by right]. destruct (Z.eqb_spec own0 0); [by right|by left].
      * intros Hz q Hq. apply elem_of_cons in Hq as [->|Hq]; [done|by apply H5].
    + specialize (IH (if foreign0 =? 0 then (own0, pid) else (own0, foreign0))).
      destruct (Z.eqb_spec foreign0 0) as [Hz0|Hne]; cbn [fst snd] in IH;
        destruct (fold_left _ _ _) as [o1 f1]; (destruct IH as (? & ? & H3 & H4 & H5 & H6 & H7); [lia|lia|]);
        (split_and!; try done;
          [intros Hz q Hq; apply elem_of_cons in Hq as [->|Hq]; [done|by apply H4]
          |intros Hz; exfalso; apply H7; [lia|done]]).
Qed.

Lemma discover_spec w :
  good w ->
  let '(own', foreign') := discoverDiagProcesses (w_os w) in
  (0 < own' -> own_at (w_os w) own') /\
  (own' <= 0 -> forall pid, ~ own_at (w_os w) pid) /\
  (own' <= 0 -> foreign' <= 0 -> forall pid p, o_procs (w_os w) !! pid = Some p -> p_diag p = false).
Proof.
  intros Hg. destruct (law_pidof (w_os w) (g_range _ Hg)) as (pids & Hf & Hin).
  assert (Hd : discoverDiagProcesses (w_os w) = fold_left (discover_step (w_os w)) (Itoa <$> pids) (0, 0)).
  { unfold discoverDiagProcesses. rewrite <- Hf. by destruct (env_pidof (w_os w)). }
  rewrite Hd. pose proof (discover_fold (w_os w) pids (0, 0)) as Hfold.
  destruct (fold_left _ _ _) as [o1 f1]. destruct Hfold as (? & ? & H3 & H4 & H5 & _ & _); cbn [fst snd]; [|lia|lia|].
  { apply Forall_forall. intros pid Hp%list_elem_of_In. apply Hin in Hp as (p & Hp & _). split; [|by exists p].
    apply (g_range _ Hg). by exists p. }
  assert (Hnone : o1 <= 0 -> forall pid, ~ own_at (w_os w) pid).
  { intros Hz pid (p & Hp & Ho). apply (H4 ltac:(lia) pid); [|by exists p]. apply Hin. exists p.
    split; [done|]. by eapply (g_diag _ Hg). }
  split_and!; [|done|].
  - intros Hpos. destruct H3 as [->|?]; [cbn in Hpos; lia|done].
  - intros Hz Hfz pid p Hp. destruct (p_diag p) eqn:Hpd; [|done]. exfalso.
    apply (Hnone Hz pid). apply H5; [lia|]. apply Hin. by exists p.
Qed.

Lemma diag_args_live : live (mkProcess true diag_args false) = true.
Proof. vm_compute. reflexivity. Qed.

Lemma good_start w pid (m : manager) next :
  good w -> (forall q p, o_procs (w_os w) !! q = Some p -> p_diag p = false) ->
  0 < pid < max_pid -> o_procs (w_os w) !! pid = None ->
  m_pid m = pid -> m_child m = Some pid ->
  let w' := mkWorld next (set_procs <[pid := mkProcess true diag_args false]> (w_os w)) m (w_takeover w) (w_monitor w)
              ({[pid]} ∪ w_waiting w) (w_reaped w) in
  good w' /\ live_at (w_os w') pid /\ alone (w_os w') pid.
Proof.
  intros [H1 Hd Hr Hm Hp Hc Hk] Hno Hrange Hfree Hpid Hchild w'.
  assert (Hpr : forall q p, o_procs (w_os w') !! q = Some p -> q = pid \/ o_procs (w_os w) !! q = Some p).
  { intros q p. cbn [w' w_os set_procs o_procs]. destruct (decide (q = pid)) as [->|]; [by left|].
    rewrite lookup_insert_ne by done. by right. }
  assert (Hnone : forall q p, o_procs (w_os w) !! q = Some p -> own p = false).
  { intros q p Hq. destruct (own p) eqn:Ho; [|done]. pose proof (Hd q p Hq Ho) as A.
    rewrite (Hno q p Hq) in A. done. }
  assert (Hsole : forall q, own_at (w_os w') q -> q = pid).
  { intros q (p & Hq & Ho). destruct (Hpr q p Hq) as [->|Hq']; [done|]. by rewrite (Hnone q p Hq') in Ho. }
  assert (Hown : live_at (w_os w') pid).
  { exists (mkProcess true diag_args false). split; [|exact diag_args_live].
    cbn [w' w_os set_procs o_procs]. by rewrite lookup_insert_eq. }
  split_and!; [|done|].
  - constructor.
    + intros q q' A B. by rewrite (Hsole q A), (Hsole q' B).
    + intros q p Hq Ho. cbn [w' w_os set_procs o_procs] in Hq. destruct (decide (q = pid)) as [->|].
      * rewrite lookup_insert_eq in Hq. by injection Hq as <-.
      * rewrite lookup_insert_ne in Hq by done. by apply (Hd q p).
    + intros q [p Hq]. destruct (Hpr q p Hq) as [->|Hq']; [done|]. apply Hr. by exists p.
    + intros q A. left. by rewrite (Hsole q A).
    + intros q A. unfold pending in *. cbn [w' w_waiting w_reaped] in A.
      destruct A as [[->%elem_of_singleton|A]%elem_of_union|A]; [lia|..]; apply Hp; auto.
    + intros q A. cbn [w' w_manager] in *. congruence.
    + exact Hk.
  - intros q p Hq Hpd. destruct (Hpr q p Hq) as [->|Hq']; [done|]. by rewrite (Hno q p Hq') in Hpd.
Qed.

Lemma wp_ensure w r (Q : option managerError -> world -> Prop) :
  good w -> tracked w r ->
  (forall res r2 w', good w' -> tracked w' r2 ->
     ensured (w_os w) (w_os w') (view (w_os w) r) res (view (w_os w') r2) ->
     m_lastAccess (w_manager w') = m_lastAccess (w_manager w) -> o_clock (w_os w') = o_clock (w_os w) -> Q res w') ->
  wp ensureManagedDiagLocked Q w.
Proof.
  intros Hg Hr HQ. unfold ensureManagedDiagLocked. apply wp_bind. eapply wp_refresh; [exact Hg|exact Hr|].
  intros w1 Hg1 Hr1 Hk1 Hm1 Hc1. apply wp_bind. unfold get_manager, wp at 1. cbn [fst snd].
  destruct r as [pid|]; cbn [default from_option id] in Hm1; rewrite Hm1.
  { destruct Hr1 as [Ho1 Hkn1]. pose proof Ho1 as (p & Hp & _). pose proof (g_range _ Hg1 _ (ex_intro _ p Hp)).
    destruct (Z.ltb_spec 0 pid); [|lia]. apply wp_ret. eapply (HQ None (Some pid)); [done|done| |apply Hk1..].
    rewrite (keeps_view w w1) by done. destruct (own_cases (w_os w) pid) as [Hl|Hd].
    - by apply (keeps_own w w1).
    - rewrite view_live by done. constructor.
    - rewrite view_dying by done. apply (EnsuredDying _ _ pid). by apply (keeps_dying w w1). }
  change (0 <? 0) with false. cbv iota. apply wp_bind. unfold get_os, wp at 1. cbn [fst snd].
  pose proof (discover_spec w1 Hg1) as Hdisc. destruct (discoverDiagProcesses (w_os w1)) as [own' foreign'].
  destruct Hdisc as (Hd1 & Hd2 & Hd3).
  assert (Hend : forall res r2 w', good w' -> tracked w' r2 -> ensured (w_os w) (w_os w') None res (view (w_os w') r2) -> keeps w1 w' -> Q res w').
  { intros res r2 w' Hg' Hr' He Hk'. assert (keeps w w') by by etransitivity.
    eapply HQ; [done|done|exact He|by apply kp_access|by apply kp_clock]. }
  destruct (Z.ltb_spec 0 own') as [Hpos|Hneg].
  - specialize (Hd1 Hpos). apply wp_bind. unfold wp at 1, with_manager, st_modify. cbn [fst snd].
    set (w2 := mkWorld _ _ _ _ _ _ _).
    assert (Hg2 : good w2).
    { eapply good_keeps; [exact Hg1|by constructor| |].
      - intros q Hq. left. by apply (g_one _ Hg1).
      - intros q. cbn. rewrite (Hc1 eq_refl). done. }
    apply wp_bind, quiet_state. intros ok w3 Hs3. apply wp_bind.
    assert (Hk3 : keeps w1 w3) by (etransitivity; [|by apply same_core_keeps]; by constructor).
    eapply wp_write_pid.
    + by eapply good_evolves, same_core_evolves.
    + by apply (keeps_own w1 w3).
    + by rewrite (sc_manager _ _ Hs3).
    + intros ok' w4 Hg4 Hr4 Hk4 _. apply wp_ret. assert (Hk14 : keeps w1 w4) by by etransitivity.
      eapply Hend; [exact Hg4|exact Hr4| |done].
      destruct (own_cases (w_os w4) own') as [Hl|Hd]; [by apply (keeps_own w1 w4)|..].
      * rewrite view_live by done. apply EnsuredAdopted; [by apply (keeps_own w w1)|done].
      * rewrite view_dying by done. by apply (EnsuredDying _ _ own').
  - destruct (Z.ltb_spec 0 foreign') as [Hfpos|Hfneg].
    { apply wp_bind, quiet_state. intros ok w2 Hs2. apply wp_ret. eapply (Hend _ None).
      - by eapply good_evolves, same_core_evolves.
      - by eapply tracked_same.
      - constructor.
      - by apply same_core_keeps. }
    assert (Hfail : forall e w2, same_core w1 w2 -> Q (Some e) w2).
    { intros e w2 Hs2. eapply (Hend _ None); [by eapply good_evolves, same_core_evolves|by eapply tracked_same|
        constructor|by apply same_core_keeps]. }
    apply wp_bind, quiet_clear. intros [] w2 Hs2. apply wp_bind, quiet_attempt. intros log w3 Hs3.
    assert (Hs13 : same_core w1 w3) by by etransitivity.
    destruct log; cbn [negb]; [|by apply wp_ret, Hfail].
    unfold start_diag. apply wp_bind, wp_bind, quiet_attempt. intros ok w4 Hs4.
    assert (Hs14 : same_core w1 w4) by by etransitivity.
    destruct ok; cbn [negb]; [|by apply wp_ret, Hfail].
    unfold wp at 1. destruct (env_pid _ _ _) as [pid|] eqn:Hpid; cbn [fst snd]; [|by apply wp_ret, Hfail].
    apply law_pid in Hpid as (Hrange & Hfree & _). apply wp_bind. unfold get_os, wp at 1. cbn [fst snd].
    apply wp_bind. unfold wp at 1, with_manager, st_modify. cbn [fst snd w_next w_os w_manager w_takeover w_monitor w_waiting w_reaped].
    assert (Hg4 : good w4) by by eapply good_evolves, same_core_evolves.
    set (w5 := mkWorld _ _ _ _ _ _ _).
    destruct (good_start w4 pid (w_manager w5) (w_next w5) Hg4) as (Hg5 & Ho5 & Ha5); try done.
    { intros q p. rewrite (sc_procs _ _ Hs14). by apply Hd3; lia. }
    change (good w5) in Hg5. change (live_at (w_os w5) pid) in Ho5. change (alone (w_os w5) pid) in Ha5.
    apply wp_bind. eapply wp_write_pid; [exact Hg5|by apply live_at_own|done|]. intros ok' w6 Hg6 Hr6 Hk6 _.
    apply wp_bind, quiet_state. intros ok2 w7 Hs7. apply wp_ret.
    assert (Hk57 : keeps w5 w7) by (etransitivity; [exact Hk6|by apply same_core_keeps]).
    assert (Ha1 : m_lastAccess (w_manager w4) = m_lastAccess (w_manager w)) by (rewrite (sc_manager _ _ Hs14); apply Hk1).
    apply (HQ None (Some pid)).
    + by eapply good_evolves, same_core_evolves.
    + by eapply tracked_same.
    + assert (Hl7 : live_at (w_os w7) pid) by by apply (keeps_live w5 w7).
      rewrite view_live by done. apply EnsuredStarted; [|done]. intros q p. rewrite (kp_procs _ _ Hk57). apply Ha5.
    + rewrite (kp_access _ _ Hk57). exact Ha1.
    + rewrite (kp_clock _ _ Hk57). cbn. rewrite (sc_clock _ _ Hs14). apply Hk1.
Qed.

(** ** The operations *)

Lemma ensured_weaken o1 o2 o' r res r2 :
  (forall pid, own_at o2 pid -> own_at o1 pid) -> ensured o2 o' r res r2 -> ensured o1 o' r res r2.
Proof.
  intros Ho [pid|pid ? ?|pid ? ?|pid ?|e];
    [constructor|apply EnsuredAdopted; auto|by apply EnsuredStarted|by eapply EnsuredDying|constructor].
Qed.

Lemma ensured_same o w w' r res r2 : same_core w w' -> ensured o (w_os w) r res r2 -> ensured o (w_os w') r res r2.
Proof.
  intros Hs. pose proof (same_core_keeps _ _ Hs) as Hk.
  intros [pid|pid ? ?|pid Ha Ho|pid ?|e]; [constructor|apply EnsuredAdopted; [done|]| |eapply EnsuredDying|constructor].
  - by apply (keeps_live w w').
  - apply EnsuredStarted; [|by apply (keeps_live w w')]. intros q p. rewrite (sc_procs _ _ Hs). apply Ha.
  - by apply (keeps_dying w w').
Qed.

Lemma wp_legacy w (Q : option managerError -> world -> Prop) :
  good w -> (forall e w', evolves w w' -> good w' -> Q e w') -> wp stopLegacyNeighborService Q w.
Proof.
  intros Hg HQ. unfold stopLegacyNeighborService. apply wp_bind. unfold get_os, wp at 1. cbn [fst snd].
  assert (Hq : forall w1 w2, evolves w w1 -> good w1 -> same_core w1 w2 -> Q None w2).
  { intros w1 w2 He Hg1 Hs. apply HQ; [etransitivity; [exact He|by apply same_core_evolves]|].
    by eapply good_evolves, same_core_evolves. }
  assert (Hrm : forall w1, evolves w w1 -> good w1 -> wp (_ ← remove_service_pid; mret None) Q w1).
  { intros w1 He1 Hg1. apply wp_bind, quiet_service_pid. intros [] w2 Hs. by apply wp_ret, (Hq w1). }
  pose proof (evolves_refl w Hg) as He0.
  destruct (o_service_pid (w_os w)) as [data|]; [|by apply wp_ret, HQ].
  destruct (Atoi (TrimSpace data)) as [pid|]; [|by apply Hrm].
  destruct (negb (pidAlive (w_os w) pid)); [by apply Hrm|].
  destruct (negb (Contains _ _) || _) eqn:Hc; [by apply wp_ret, HQ|].
  apply orb_false_iff in Hc as [Hc _]. apply negb_false_iff in Hc.
  assert (Hkill : forall w1 s, Contains (processCmdline (w_os w1) pid) neighborBaseDir = true ->
            kill_ok (pid, s, o_procs (w_os w1) !! pid)).
  { intros w1 s Hcont. unfold processCmdline in Hcont. destruct (o_procs (w_os w1) !! pid) as [p|].
    - by exists p.
    - exfalso. vm_compute in Hcont. discriminate. }
  apply wp_bind, wp_kill; [done|by apply Hkill|]. intros w1 He1 Hg1 _.
  apply wp_bind, wp_wait_dead; [done|]. intros w2 He2 Hg2. apply wp_bind. unfold get_os, wp at 1. cbn [fst snd].
  assert (He02 : evolves w w2) by by etransitivity.
  apply wp_bind. destruct (_ && _) eqn:Ha; [|by apply wp_ret, Hrm].
  apply andb_true_iff in Ha as [_ Ha]. apply wp_kill; [done|by apply Hkill|]. intros w3 He3 Hg3 _.
  apply Hrm; [by etransitivity|done].
Qed.

Lemma wp_takeover w (Q : option managerError -> world -> Prop) :
  good w -> (forall e w', evolves w w' -> good w' -> Q e w') -> wp takeover_once Q w.
Proof.
  intros Hg HQ. unfold wp, takeover_once. destruct (w_takeover w) as [e|]; [by apply HQ, Hg; apply evolves_refl|].
  assert (Hl : wp stopLegacyNeighborService (fun e w' => evolves w w' /\ good w') w) by by apply wp_legacy.
  unfold wp in Hl. destruct (stopLegacyNeighborService w) as [e w1]. cbn [fst snd] in *. destruct Hl as [He1 Hg1].
  assert (Hs : same_core w1 (mkWorld (w_next w1) (w_os w1) (w_manager w1) (Some e) (w_monitor w1) (w_waiting w1)
                 (w_reaped w1))) by by constructor.
  apply HQ; [etransitivity; [exact He1|by apply same_core_evolves]|by eapply good_evolves, same_core_evolves].
Qed.

Lemma wp_pipeline embedded w r (Q : option managerError -> world -> Prop) :
  good w -> tracked w r ->
  (forall res w' r', good w' -> tracked w' r' ->
     collector_step (w_os w) (w_os w') (AEnsure res) (mkCollector (view (w_os w) r) (m_lastAccess (w_manager w)))
       (mkCollector (view (w_os w') r') (m_lastAccess (w_manager w'))) -> Q res w') ->
  wp (ensureNeighborPipeline embedded) Q w.
Proof.
  intros Hg Hr HQ. unfold ensureNeighborPipeline.
  assert (Hearly : forall e w', evolves w w' -> good w' -> Q (Some e) w').
  { intros e w' He Hg'. destruct (tracked_evolves w w' r Hg He Hr) as (r' & Hr' & Hsh).
    eapply HQ; [done|done|]. rewrite (ev_manager _ _ He). by constructor. }
  apply wp_bind, quiet_extract. intros e1 w1 Hs1. pose proof (same_core_evolves w w1 Hg Hs1) as He1.
  assert (Hg1 : good w1) by by eapply good_evolves.
  destruct e1; [by apply wp_ret, Hearly|].
  apply wp_bind, wp_takeover; [done|]. intros e2 w2 He2 Hg2. assert (He12 : evolves w w2) by by etransitivity.
  destruct e2; [by apply wp_ret, Hearly|]. apply wp_bind. unfold wp at 1, monitor_once, st_modify. cbn [fst snd].
  set (w3 := mkWorld _ _ _ _ _ _ _). assert (Hs3 : same_core w2 w3) by by constructor.
  assert (He3 : evolves w w3) by (etransitivity; [exact He12|by apply same_core_evolves]).
  assert (Hg3 : good w3) by by eapply good_evolves, same_core_evolves.
  destruct (tracked_evolves w w3 r Hg He3 Hr) as (r1 & Hr1 & Hsh).
  unfold ensure_locked. apply wp_bind. unfold get_os, wp at 1. cbn [fst snd].
  apply wp_bind. unfold wp at 1, with_manager, st_modify. cbn [fst snd]. set (w4 := mkWorld _ _ _ _ _ _ _).
  assert (Hg4 : good w4).
  { destruct Hg3. by constructor. }
  eapply wp_ensure; [exact Hg4|exact Hr1|]. intros res r2 w5 Hg5 Hr5 Hens Ha5 Hc5.
  eapply HQ; [done|exact Hr5|]. rewrite Ha5. cbn [w4 w_manager set_access m_lastAccess].
  change (o_clock (w_os w3)) with (o_clock (w_os w4)). rewrite <- Hc5. eapply CEnsure; [exact Hsh|]. change (w_os w3) with (w_os w4).
  eapply ensured_weaken; [|exact Hens]. intros pid Ho. by eapply evolves_own.
Qed.

Lemma wp_monitor text w r (Q : unit -> world -> Prop) :
  good w -> tracked w r ->
  (forall w' r', good w' -> tracked w' r' ->
     collector_step (w_os w) (w_os w') AMonitor (mkCollector (view (w_os w) r) (m_lastAccess (w_manager w)))
       (mkCollector (view (w_os w') r') (m_lastAccess (w_manager w'))) -> Q tt w') ->
  wp (monitor_tick text) Q w.
Proof.
  intros Hg Hr HQ. unfold monitor_tick. apply wp_bind. eapply wp_refresh; [exact Hg|exact Hr|].
  intros w1 Hg1 Hr1 Hk1 Hm1 _. apply wp_bind. unfold get_os, wp at 1. cbn [fst snd].
  apply wp_bind. unfold get_manager, wp at 1. cbn [fst snd]. cbv zeta.
  rewrite (kp_clock _ _ Hk1), (kp_access _ _ Hk1). set (t := m_lastAccess (w_manager w)) in *.
  assert (Ht1 : m_lastAccess (w_manager w1) = t) by apply Hk1.
  assert (Hown1 : forall pid, own_at (w_os w1) pid -> own_at (w_os w) pid) by (intros q Hq; by apply (keeps_own w w1)).
  destruct (Z.eqb_spec t 0) as [Ht|Ht].
  { apply wp_ret. eapply HQ; [done|exact Hr1|]. rewrite Ht1, Ht, (keeps_view w w1) by done. constructor. }
  destruct (Z.leb_spec neighborIdleTimeout (o_clock (w_os w) - t)) as [Hidle|Hidle].
  { apply wp_bind. eapply wp_stop; [exact Hg1|exact Hr1|]. intros w2 Hg2 Hr2 Hm2 _ Ha2.
    unfold wp, with_manager, st_modify. cbn [fst snd]. set (w3 := mkWorld _ _ _ _ _ _ _).
    assert (Hg3 : good w3) by (by destruct Hg2; constructor).
    destruct (tracked_exists w3 Hg3) as [t3 Ht3]. assert (Hv : view (w_os w3) t3 = None).
    { eapply (runs_unique w3); [done|by apply tracked_runs|exact Hr2]. }
    apply (HQ _ t3); [done|exact Ht3|]. rewrite Hv. by constructor. }
  destruct r as [pid|]; cbn [default from_option id] in Hm1.
  2:{ rewrite Hm1. change (0 =? 0) with true. cbv iota. apply wp_bind.
      eapply wp_ensure; [exact Hg1|exact Hr1|]. intros res r2 w2 Hg2 Hr2 Hens Ha2 Hc2. apply wp_ret.
      eapply HQ; [done|exact Hr2|]. rewrite Ha2, Ht1. eapply CMonitorStart; [done|].
      by eapply ensured_weaken. }
  assert (Hview1 : view (w_os w1) (Some pid) = view (w_os w) (Some pid)) by by apply keeps_view.
  assert (Hpos : 0 < pid).
  { destruct Hr1 as [(p & Hp & _) _]. apply (g_range _ Hg1). by exists p. }
  rewrite Hm1. destruct (Z.eqb_spec pid 0); [lia|]. apply wp_bind.
  assert (Hprog : forall Q' : unit -> world -> Prop,
    (forall w2, good w2 -> tracked w2 (Some pid) -> keeps w1 w2 -> Q' tt w2) ->
    wp (if m_latestQMDLTime (w_manager w1) <? latestNeighborQMDLTime (o_ring (w_os w1))
        then with_manager (set_progress (o_clock (w_os w)) (latestNeighborQMDLTime (o_ring (w_os w1)))) else mret tt)
      Q' w1).
  { intros Q' HQ'. destruct (_ <? _); [|by apply wp_ret, HQ'].
    unfold wp, with_manager, st_modify. cbn [fst snd].
    apply HQ'; [by destruct Hg1; constructor|exact Hr1|by constructor]. }
  apply Hprog. clear Hprog. intros w2 Hg2 Hr2 Hk2. apply wp_bind. unfold get_manager, wp at 1. cbn [fst snd].
  assert (Ht2 : m_lastAccess (w_manager w2) = t) by (rewrite (kp_access _ _ Hk2); exact Ht1).
  destruct (neighborStaleTimeout <=? _).
  2:{ apply wp_ret. eapply HQ; [done|exact Hr2|]. rewrite Ht2, (keeps_view w1 w2), Hview1 by done.
      destruct (own_cases (w_os w) pid) as [Hl|Hd]; [by apply Hown1, Hr1|..].
      - rewrite view_live by done. by constructor.
      - rewrite view_dying by done. apply (CMonitorDying _ _ pid); [done|].
        apply (keeps_dying w1 w2), (keeps_dying w w1); done. }
  apply wp_bind. eapply wp_stop; [exact Hg2|exact Hr2|]. intros w3 Hg3 Hr3 Hm3 Hown3 Ha3.
  destruct (tracked_exists w3 Hg3) as [t3 Ht3]. assert (Hv : view (w_os w3) t3 = None).
  { eapply (runs_unique w3); [done|by apply tracked_runs|exact Hr3]. }
  apply wp_bind. eapply wp_ensure; [exact Hg3|exact Ht3|]. rewrite Hv. intros res r4 w4 Hg4 Hr4 Hens Ha4 Hc4.
  assert (Hstep : forall w', same_core w4 w' -> Q tt w').
  { intros w' Hs. eapply (HQ _ r4); [by eapply good_evolves, same_core_evolves|by eapply tracked_same|].
    rewrite (sc_manager _ _ Hs), Ha4, Ha3, Ht2, (keeps_view w4 w') by by apply same_core_keeps.
    eapply (CMonitorRestart _ _ _ _ res); [done|].
    eapply (ensured_weaken _ (w_os w3)).
    - intros q Hq. apply Hown1. apply (keeps_own w1 w2); [done|]. by apply Hown3.
    - by eapply ensured_same. }
  destruct res as [err|]; [|by apply wp_ret, Hstep]. apply wp_bind, quiet_state. intros ok w5 Hs5.
  by apply wp_ret, Hstep.
Qed.

Lemma wp_reap pid err w r (Q : unit -> world -> Prop) :
  good w -> tracked w r -> pid ∈ w_reaped w ->
  (forall w' r', good w' -> tracked w' r' ->
     collector_step (w_os w) (w_os w') (AReap pid) (mkCollector (view (w_os w) r) (m_lastAccess (w_manager w)))
       (mkCollector (view (w_os w') r') (m_lastAccess (w_manager w'))) -> Q tt w') ->
  wp (reap_locked pid err) Q w.
Proof.
  intros Hg Hr Hin HQ. unfold reap_locked. apply wp_bind. unfold wp at 1, st_modify. cbn [fst snd].
  set (w1 := mkWorld _ _ _ _ _ _ _).
  assert (Hg1 : good w1).
  { destruct Hg. constructor; try done. unfold pending. cbn [w1 w_waiting w_reaped]. intros q Hq.
    apply g_pending0. destruct Hq as [?|Hq]; [by left|right]. eapply gmultiset_elem_of_subseteq; [exact Hq|].
    clear. multiset_solver. }
  assert (Hr1 : tracked w1 r) by exact Hr.
  apply wp_bind. unfold get_manager, wp at 1. cbn [fst snd].
  destruct (Z.eqb_spec (m_pid (w_manager w1)) pid) as [Hm|Hm]; cbn [negb].
  2:{ apply wp_ret, (HQ _ r); [done|done|]. change (view (w_os w1) r) with (view (w_os w) r). constructor. }
  apply wp_bind. unfold wp at 1, with_manager, st_modify. cbn [fst snd]. set (w2 := mkWorld _ _ _ _ _ _ _).
  assert (Hk12 : keeps w1 w2) by by constructor.
  assert (Hg2 : good w2) by (eapply good_keeps; [exact Hg1|exact Hk12|intros q Hq; by right|done]).
  apply wp_bind, wp_drop_pid_file; [exact Hg2|].
  intros w3 Hg3 Hk3 Hm3 Hkn3. apply wp_bind, quiet_state. intros ok w4 Hs4. apply wp_ret.
  assert (Hg4 : good w4) by by eapply good_evolves, same_core_evolves.
  assert (Hk14 : keeps w1 w4) by (etransitivity; [exact Hk12|etransitivity; [exact Hk3|by apply same_core_keeps]]).
  destruct (tracked_exists w4 Hg4) as [t4 Ht4]. apply (HQ _ t4); [done|done|]. rewrite (kp_access _ _ Hk14).
  change (m_lastAccess (w_manager w1)) with (m_lastAccess (w_manager w)).
  pose proof (tracked_runs w r Hr Hg) as Hru. pose proof (tracked_runs w4 t4 Ht4 Hg4) as Hru4.
  assert (Hlive : forall q, live_at (w_os w4) q <-> live_at (w_os w) q) by (intros q; by apply (keeps_live w1 w4)).
  destruct (view (w_os w) r) as [q|]; destruct (view (w_os w4) t4) as [q4|].
  - assert (q4 = q) as ->; [|constructor].
    eapply (g_one _ Hg); apply live_at_own; [by apply Hlive, Hru4|apply Hru].
  - assert (q = pid) as ->; [|constructor].
    assert (0 < pid) by (apply (g_pending _ Hg); by right).
    cbn in Hm. destruct (g_memory _ Hg q) as [Hq|Hz]; [apply live_at_own, Hru|congruence|lia].
  - exfalso. destruct Hru4 as [Hl4%Hlive Hk4]. apply (Hru q4); [done|].
    assert (Hk2 : known w2 q4).
    { apply Hkn3. destruct Hk4 as [Hq|(d & Hd & Ha)]; [left; by rewrite <- (sc_manager _ _ Hs4)|right].
      exists d. by rewrite <- (sc_pid_file _ _ Hs4). }
    destruct Hk2 as [Hz|?]; [|by right]. cbn in Hz.
    destruct (live_at_own _ _ Hl4) as (p & Hp & _). pose proof (g_range _ Hg q4 (ex_intro _ p Hp)). lia.
  - constructor.
Qed.

(** One step: goodness is kept and the collector makes the corresponding step. *)
Lemma step_refines text embedded w a w' r :
  good w -> tracked w r -> step text embedded w a w' ->
  good w' /\ exists r', tracked w' r' /\
    collector_step (w_os w) (w_os w') a (mkCollector (view (w_os w) r) (m_lastAccess (w_manager w)))
      (mkCollector (view (w_os w') r') (m_lastAccess (w_manager w'))).
Proof.
  intros Hg Hr Hs.
  assert (Hwp : forall A (m : M A) (a0 : A) w', m w = (a0, w') ->
            forall Q, wp m Q w -> Q a0 w') by (intros A m a0 w0 Hm Q HQ; unfold wp in HQ; by rewrite Hm in HQ).
  destruct Hs as [w res w' Hs|w state stopped w' Hs|w w' _ Hs|w pid w' Hin Hdead Hs|w pid err w' Hin Hs|
    w status w' Hs|w o' Hmv|w].
  - apply (Hwp _ _ _ _ Hs (fun res w' => _)). eapply wp_pipeline; [done|exact Hr|]. intros res0 w0 r' Hg' Hr' Hc.
    split; [done|]. by exists r'.
  - apply (Hwp _ _ _ _ Hs (fun stopped w' => _)). unfold stopNeighborCollection. apply wp_bind.
    unfold wp at 1, with_manager, st_modify. cbn [fst snd]. set (w1 := mkWorld _ _ _ _ _ _ _).
    assert (Hg1 : good w1) by (destruct Hg; by constructor).
    eapply wp_stop; [exact Hg1|exact Hr|]. intros w2 Hg2 Hr2 _ _ Ha2. split; [done|].
    destruct (tracked_exists w2 Hg2) as [t2 Ht2]. exists t2. split; [done|].
    rewrite (runs_unique w2 (view (w_os w2) t2) None Hg2 (tracked_runs _ _ Ht2 Hg2) Hr2), Ha2.
    destruct r as [pid|]; [|apply CStop]. change (bool_decide (is_Some (Some pid))) with true.
    destruct (own_cases (w_os w) pid) as [Hl|Hd]; [apply Hr|..].
    + rewrite view_live by done. change true with (bool_decide (is_Some (Some pid))). apply CStop.
    + rewrite view_dying by done. by apply (CStopDying _ _ pid).
  - apply (Hwp _ _ _ _ Hs (fun _ w' => _)). eapply wp_monitor; [done|exact Hr|]. intros w0 r' Hg' Hr' Hc.
    split; [done|]. by exists r'.
  - assert (Hone : forall q, q ∈ ({[pid]} : gset Z) -> ended (w_os w) q = true) by by intros q ->%elem_of_singleton.
    assert (He : evolves w w').
    { replace w' with (reap_wait {[pid]} w).2 by (by rewrite Hs). apply reap_wait_evolves; [done| |done].
      by apply singleton_subseteq_l. }
    assert (Hback : forall q, own_at (w_os w) q -> o_procs (w_os w') !! q = o_procs (w_os w) !! q).
    { intros q Ho. replace w' with (reap_wait {[pid]} w).2 by (by rewrite Hs). by apply reap_wait_own. }
    split; [by eapply good_evolves|]. exists r. rewrite (ev_manager _ _ He).
    assert (Hv : view (w_os w') r = view (w_os w) r).
    { destruct r as [q|]; [|done]. unfold view. cbn. by rewrite Hback by apply Hr. }
    rewrite Hv. split; [|constructor]. destruct r as [q|].
    + destruct Hr as [Ho Hk]. split; [|by apply (known_evolves w)]. pose proof Ho as (p & Hp & Hop).
      exists p. by rewrite Hback.
    + intros q Hq. rewrite (known_evolves w) by done. apply Hr. by eapply evolves_own.
  - apply (Hwp _ _ _ _ Hs (fun _ w' => _)). eapply wp_reap; [done|exact Hr|done|]. intros w0 r' Hg' Hr' Hc.
    split; [done|]. by exists r'.
  - apply (Hwp _ _ _ _ Hs (fun _ w' => _)). unfold NeighborServiceStatusHandler. apply wp_bind.
    unfold get_os at 1, wp at 1. cbn [fst snd]. apply wp_bind. eapply wp_refresh; [done|exact Hr|].
    intros w1 Hg1 Hr1 Hk1 _ _. apply wp_bind. unfold get_os, wp at 1. cbn [fst snd].
    apply wp_bind. unfold get_manager, wp at 1. cbn [fst snd]. apply wp_ret. split; [done|]. exists r.
    split; [done|]. rewrite (kp_access _ _ Hk1), (keeps_view w w1) by done. constructor.
  - assert (He : evolves w (mkWorld (w_next w) o' (w_manager w) (w_takeover w) (w_monitor w) (w_waiting w) (w_reaped w))).
    { destruct Hmv. constructor; auto. cbn [w_os]. rewrite mv_kills0. apply Hg. }
    split; [by eapply good_evolves|]. destruct (tracked_evolves _ _ r Hg He Hr) as (r' & Hr' & Hsh).
    exists r'. split; [done|]. by constructor.
  - assert (Hg' : good (restarted w)).
    { destruct Hg. constructor; try done; [intros q Hq; by right|].
      intros q [Hq|Hq]; [by apply elem_of_empty in Hq|by apply gmultiset_not_elem_of_empty in Hq]. }
    split; [done|]. destruct (tracked_exists _ Hg') as [t Ht]. exists t. split; [done|]. constructor.
    apply (view_shrinks w (restarted w)); try done. intros q (p & Hp & _) [Hk|Hk]; [|by right].
    cbn in Hk. pose proof (g_range _ Hg q (ex_intro _ p Hp)). lia.
Qed.

End Operations.

(** ** Requests and assets *)

Section Requests.
Context `{HSort : SortSlice} `{HEnv : Environment} `{HLaws : !EnvironmentLaws}.
Context (read : nat -> string -> option (list Z)) (cancelled : nat -> nat -> nat -> bool) (deadline : nat -> bool).

Lemma findNeighborQMDLFiles_length ring : (length (findNeighborQMDLFiles ring) <= 4)%nat.
Proof.
  unfold findNeighborQMDLFiles. destruct ring; [|simpl; lia]. cbv zeta.
  rewrite length_fmap, length_drop. unfold neighborRingFileCount. lia.
Qed.

Lemma wp_wait_first n w (Q : unit -> world -> Prop) :
  good w -> (forall w', evolves w w' -> good w' -> Q tt w') -> wp (wait_first n) Q w.
Proof.
  revert w. induction n as [|n IH]; intros w Hg HQ; cbn [wait_first].
  - apply wp_ret, HQ; [by apply evolves_refl|done].
  - apply wp_bind, quiet_attempt. intros ok w1 Hs1. pose proof (same_core_evolves _ _ Hg Hs1) as He1.
    assert (Hg1 : good w1) by by eapply good_evolves. destruct ok; [by apply wp_ret, HQ|].
    apply wp_bind, wp_sleep; [done|]. intros w2 He2 Hg2. apply wp_bind. unfold get_os, wp at 1. cbn [fst snd].
    assert (He12 : evolves w w2) by by etransitivity.
    destruct (findNeighborQMDLFiles _); [|by apply wp_ret, HQ].
    apply IH; [done|]. intros w3 He3 Hg3. apply HQ; [by etransitivity|done].
Qed.

(** A parse that succeeded was one of at most four files; no attempt panics. *)
Definition parsed (r : parseError + NeighborQmdl.nativeNeighborResult) : Prop :=
  match r with
  | inl e => e <> ErrPanic
  | inr native => exists n paths, paths <> [] /\ (length paths <= 4)%nat /\
      NeighborQmdl.parseNeighborQMDLFiles (cancelled n) (read n <$> paths) = Ok native
  end.

Lemma wp_parse_attempt n w (Q : _ -> world -> Prop) :
  (forall r, parsed r -> Q r w) -> wp (parse_attempt read cancelled deadline n) Q w.
Proof.
  intros HQ. unfold parse_attempt. apply wp_bind. unfold get_os, wp at 1. cbn [fst snd].
  pose proof (findNeighborQMDLFiles_length (o_ring (w_os w))) as Hl.
  destruct (findNeighborQMDLFiles _) as [|path paths]; [by apply wp_ret, HQ|]. apply wp_ret, HQ.
  pose proof (NeighborQmdl.parseNeighborQMDLFiles_no_panic (cancelled n) (read n <$> path :: paths)) as Hp.
  destruct (NeighborQmdl.parseNeighborQMDLFiles _ _) as [native|e|] eqn:E; [|by destruct (deadline n)|done].
  exists n, (path :: paths). done.
Qed.

Lemma wp_parse w (Q : _ -> world -> Prop) :
  (forall r, parsed r -> Q r w) -> wp (parseNeighborQMDL read cancelled deadline) Q w.
Proof.
  intros HQ. unfold parseNeighborQMDL. apply wp_bind, wp_parse_attempt. intros [e|native] Hr; [|by apply wp_ret, HQ].
  destruct e; [by apply wp_ret, HQ|by apply wp_parse_attempt..].
Qed.

End Requests.

(** Nothing but operations that change no file the manager reads. *)
Definition same_config (w w' : world) : Prop := same_core w w' /\ o_config (w_os w') = o_config (w_os w).

#[export] Instance same_config_refl : Reflexive same_config.
Proof. by split. Qed.
#[export] Instance same_config_trans : Transitive same_config.
Proof. intros x y z [? ?] [? ?]. split; [by etransitivity|congruence]. Qed.

Section Assets.
Context `{HSort : SortSlice} `{HEnv : Environment}.

Lemma config_attempt w0 w (Q : bool -> world -> Prop) :
  same_config w0 w -> (forall ok w', same_config w0 w' -> Q ok w') -> wp attempt Q w.
Proof. intros H HQ. apply HQ. etransitivity; [exact H|]. by repeat constructor. Qed.

(** A chain of fallible operations in front of [k]. *)
Lemma config_chain e w0 w (k : M (option managerError)) (Q : option managerError -> world -> Prop) :
  same_config w0 w -> (forall w', same_config w0 w' -> Q (Some e) w') ->
  (forall w', same_config w0 w' -> wp k Q w') -> wp (and_then (fallible e) k) Q w.
Proof.
  intros Hs HQ Hk. apply wp_bind, wp_bind. eapply config_attempt; [exact Hs|]. intros ok w1 Hs1. apply wp_ret.
  destruct ok; [by apply Hk|]. by apply wp_ret, HQ.
Qed.

(** The file was installed, or nothing happened to it. *)
Definition installed (w0 : world) (valid : list Z -> Prop) (mode : Z) (e : option managerError) (w' : world) : Prop :=
  same_core w0 w' /\
  match e with
  | None => exists data, o_config (w_os w') = Some (Regular data mode) /\ valid data
  | Some err => o_config (w_os w') = o_config (w_os w0) /\ err <> ErrAssetHash
  end.

Lemma wp_install w0 w data mode (valid : list Z -> Prop) (Q : option managerError -> world -> Prop) :
  same_config w0 w -> valid data -> (forall e w', installed w0 valid mode e w' -> Q e w') ->
  wp (install_asset data mode) Q w.
Proof.
  intros Hs Hv HQ. unfold install_asset. revert w Hs.
  do 6 (intros ? Hs; eapply config_chain; [exact Hs|intros ? [? ?]; by apply HQ|]; clear Hs).
  intros w7 [Hs Hc]. apply wp_bind. unfold wp at 1, with_os, st_modify. cbn [fst snd]. apply wp_ret, HQ.
  split; [|by exists data]. etransitivity; [exact Hs|by constructor].
Qed.

Lemma wp_asset w0 w data mode hash (Q : option managerError -> world -> Prop) :
  same_config w0 w -> asset_valid data hash = true ->
  (forall e w', same_core w0 w' ->
     match e with
     | None => exists data, o_config (w_os w') = Some (Regular data mode) /\ asset_valid data hash = true
     | Some err => (o_config (w_os w') = o_config (w_os w0) \/
                    o_config (w_os w0) = Some Special /\ o_config (w_os w') = None) /\ err <> ErrAssetHash
     end -> Q e w') ->
  wp (writeAssetIfChanged data mode hash) Q w.
Proof.
  intros [Hs0 Hc0] Hv HQ.
  assert (Hinst : forall w2, same_config w0 w2 -> wp (install_asset data mode) Q w2).
  { intros w2 Hs2. eapply (wp_install w0 _ _ _ (fun d => asset_valid d hash = true)); [exact Hs2|done|].
    intros e w' [Hs Hi]. apply HQ; [done|]. destruct e; [|done]. destruct Hi. auto. }
  unfold writeAssetIfChanged. apply wp_bind. unfold get_os, wp at 1. cbn [fst snd].
  apply wp_bind. eapply (config_attempt w0); [by split|]. intros lstat w1 Hs1. rewrite Hc0.
  destruct (o_config (w_os w0)) as [[current old|]|] eqn:Hcfg; [| |by apply Hinst]; (destruct lstat; cbn [negb]; [|by apply Hinst]).
  - apply wp_bind. eapply config_attempt; [exact Hs1|]. intros read w2 Hs2.
    destruct (read && asset_valid current hash) eqn:Hr; [|by apply Hinst]. apply andb_true_iff in Hr as [_ Hr].
    apply wp_bind. eapply config_attempt; [exact Hs2|]. intros ok w3 Hs3. destruct ok.
    + apply wp_bind. unfold wp at 1, with_os, st_modify. cbn [fst snd]. apply wp_ret, HQ.
      * etransitivity; [apply Hs3|by constructor].
      * by exists current.
    + apply wp_ret, HQ; [apply Hs3|]. split; [|done]. left. destruct Hs3 as [_ ->]. done.
  - apply wp_bind. eapply config_attempt; [exact Hs1|]. intros removed w2 Hs2.
    destruct removed; cbn [negb].
    2:{ apply wp_ret, HQ; [apply Hs2|]. split; [|done]. left. destruct Hs2 as [_ ->]. done. }
    apply wp_bind. unfold wp at 1, with_os, st_modify. cbn [fst snd]. set (w3 := mkWorld _ _ _ _ _ _ _).
    assert (Hs3 : same_core w0 w3) by (etransitivity; [apply Hs2|by constructor]).
    eapply (wp_install w3 _ _ _ (fun d => asset_valid d hash = true)); [reflexivity|done|].
    intros e w' [Hs Hi]. apply HQ; [by etransitivity|]. destruct e; [|done]. destruct Hi as [Hi ?]. split; [|done].
    right. split; [done|exact Hi].
Qed.

(** The configuration of the repository has the pinned digest. *)
Lemma embedded_config_valid : asset_valid ProbeQTrace.qtrace_cfg neighborConfigSHA256 = true.
Proof. vm_compute. reflexivity. Qed.

Lemma extract_spec embedded w :
  let '(e, w') := extractNeighborAssets embedded w in
  same_core w w' /\
  match e with
  | None => exists data, o_config (w_os w') = Some (Regular data mode0600) /\
      asset_valid data neighborConfigSHA256 = true
  | Some err =>
      (o_config (w_os w') = o_config (w_os w) \/ o_config (w_os w) = Some Special /\ o_config (w_os w') = None) /\
      (err = ErrAssetHash -> asset_valid embedded neighborConfigSHA256 = false)
  end.
Proof.
  apply (wp_elim _ (fun e w' => _)). unfold extractNeighborAssets.
  assert (Hfail : forall e w', same_config w w' -> e <> ErrAssetHash ->
    same_core w w' /\ ((o_config (w_os w') = o_config (w_os w) \/
      o_config (w_os w) = Some Special /\ o_config (w_os w') = None) /\
      (e = ErrAssetHash -> asset_valid embedded neighborConfigSHA256 = false))).
  { intros e w' [Hs Hc] He. split; [exact Hs|]. split; [by left|]. by intros ->. }
  match goal with |- wp ?m ?Q w => cut (forall w1, same_config w w1 -> wp m Q w1); [by intros Hw; apply Hw|] end.
  do 5 (intros ? Hs; eapply config_chain; [exact Hs|by intros; apply Hfail|]; clear Hs).
  intros w2 Hs2. destruct (asset_valid embedded neighborConfigSHA256) eqn:Hv; cbn [negb].
  2:{ apply wp_ret. destruct Hs2 as [? ?]. split; [done|]. split; [by left|]. done. }
  eapply wp_asset; [exact Hs2|exact Hv|]. intros e w3 Hs3 He. split; [exact Hs3|].
  destruct e; [|exact He]. destruct He as [He Hne]. by split.
Qed.

End Assets.

(** * Properties *)

#[export] Instance sample_laws : EnvironmentLaws.
Proof.
  constructor.
  - intros n o Hr. constructor; try done. intros pid p Hp _. by exists p.
  - intros n o s pid. cbn [env_pid sample_environment]. intros [Hin Hc]%List.find_some.
    apply andb_true_iff in Hc as [Hf%bool_decide_eq_true Hs%bool_decide_eq_true].
    apply list_elem_of_In, elem_of_seqZ in Hin. split_and!; [unfold max_pid; lia..|done|done].
  - intros o Hr. exists (sample_pids o).
    assert (Hin : forall pid, pid ∈ sample_pids o <-> exists p, o_procs o !! pid = Some p /\ p_diag p = true).
    { intros pid. unfold sample_pids. rewrite list_elem_of_fmap. split.
      - intros ([q p] & -> & [Hd Hl]%list_elem_of_filter). apply elem_of_map_to_list in Hl. by exists p.
      - intros (p & Hl & Hd). exists (pid, p). split; [done|]. apply list_elem_of_filter.
        split; [done|]. by apply elem_of_map_to_list. }
    split; [|done]. cbn [env_pidof sample_environment default from_option id].
    apply Fields_Join, Forall_fmap, Forall_forall. intros pid Hp%list_elem_of_In. apply Itoa_word.
    apply Hin in Hp as (p & Hp & _). assert (0 < pid < max_pid) by (apply Hr; by exists p). lia.
Qed.

Section Properties.
Context `{HSort : SortSlice} `{HEnv : Environment} `{HLaws : !EnvironmentLaws}.

Lemma reachable_good text embedded w0 w : good w0 -> reachable text embedded w0 w -> good w.
Proof.
  intros Hg. induction 1 as [|w a w' _ IH Hs]; [done|]. destruct (tracked_exists w IH) as [r Hr].
  by destruct (step_refines text embedded w a w' r IH Hr Hs).
Qed.

(** C2: The manager implements the abstract collector: in every state the service
    can reach, whatever the environment does between the steps and during their
    sleeps, a request, a stop, a tick of the monitor, the end of a child, a
    status query and a restart have exactly the effect the collector's step
    says on the process that runs for the service and on who wants it.  A
    process that was sent SIGKILL runs no more, but is taken for a running one
    while the system takes it down; pids of children that were waited for come
    again, and then a late reaper makes the service forget the new collector. *)
Theorem manager_refines (text : managerError -> string) (embedded : list Z) (w0 w : world) (a : action) (w' : world) :
  good w0 -> reachable text embedded w0 w -> step text embedded w a w' ->
  exists r r', runs w r /\ runs w' r' /\ (forall r2, runs w' r2 -> r2 = r') /\
    collector_step (w_os w) (w_os w') a (mkCollector r (m_lastAccess (w_manager w)))
      (mkCollector r' (m_lastAccess (w_manager w'))).
Proof.
  intros Hg0 Hre Hs. pose proof (reachable_good _ _ _ _ Hg0 Hre) as Hg. destruct (tracked_exists w Hg) as [r Hr].
  destruct (step_refines text embedded w a w' r Hg Hr Hs) as (Hg' & r' & Hr' & Hc).
  exists (view (w_os w) r), (view (w_os w') r').
  split_and!; [by apply tracked_runs..| |done]. intros r2 Hr2. eapply runs_unique; [done..|]. by apply tracked_runs.
Qed.

(** In every reachable state there is at most one collector process, dying ones
    included, every signal ever sent went to a process of the service, and the
    remembered child is the remembered process. *)
Theorem manager_safe (text : managerError -> string) (embedded : list Z) (w0 w : world) :
  good w0 -> reachable text embedded w0 w ->
  (forall pid pid', own_at (w_os w) pid -> own_at (w_os w) pid' -> pid = pid') /\
  Forall kill_ok (o_kills (w_os w)) /\
  (forall pid, m_child (w_manager w) = Some pid -> m_pid (w_manager w) = pid).
Proof.
  intros Hg0 Hre. destruct (reachable_good _ _ _ _ Hg0 Hre). split_and!; auto.
Qed.

(** A request is answered from the capture when the collector could be started
    and the capture parsed, from the ubus snapshot with a warning when not, and
    with an error only when there is no snapshot either; the parser never
    panics and reads at most four files.  Whatever the answer, a request that
    started the collector leaves none running and nobody waiting for one. *)
Theorem NeighborCellHandler_spec (read : nat -> string -> option (list Z)) (cancelled : nat -> nat -> nat -> bool)
    (deadline : nat -> bool) (embedded : list Z) (ubus : option NeighborCell.neighborUbusSnapshot) (w : world) :
  good w ->
  let '(resp, w') := NeighborCellHandler read cancelled deadline embedded ubus w in
  let stopped := runs w' None /\ m_lastAccess (w_manager w') = 0 in
  good w' /\
  match resp with
  | RNative r => stopped /\ exists native n paths,
      (1 <= length paths <= 4)%nat /\
      NeighborQmdl.parseNeighborQMDLFiles (cancelled n) (read n <$> paths) = Ok native /\
      r = NeighborCell.adaptNativeNeighborResult native (default ∅ ubus)
  | RUbus r warning => exists snapshot e, ubus = Some snapshot /\ warning = Some e /\
      r = NeighborCell.neighborResultFromUbus snapshot /\
      match e with PipelineParse e => stopped /\ e <> ErrPanic | PipelineStart _ => True end
  | RFailed failure => ubus = None /\ exists e, failure = Some e /\
      match e with PipelineParse e => stopped /\ e <> ErrPanic | PipelineStart _ => True end
  end.
Proof.
  intros Hg. destruct (tracked_exists w Hg) as [r Hr]. apply (wp_elim _ (fun resp w' => _)).
  unfold NeighborCellHandler. apply wp_bind. eapply wp_pipeline; [exact Hg|exact Hr|].
  intros res w1 r1 Hg1 Hr1 _. destruct res as [err|].
  - apply wp_ret. destruct ubus as [snapshot|]; cbn [fallback]; (split; [done|]).
    + by exists snapshot, (PipelineStart err).
    + split; [done|]. by exists (PipelineStart err).
  - apply wp_bind.
    assert (Hwait : wp waitForFirstQMDL (fun _ w' => evolves w1 w' /\ good w') w1).
    { unfold waitForFirstQMDL. apply wp_bind. unfold get_os, wp at 1. cbn [fst snd].
      pose proof (evolves_refl w1 Hg1). destruct (findNeighborQMDLFiles _); [|by apply wp_ret].
      by apply wp_wait_first. }
    eapply wp_mono; [exact Hwait|]. intros [] w2 [He2 Hg2]. apply wp_bind, wp_parse. intros out Hout.
    destruct (tracked_evolves w1 w2 r1 Hg1 He2 Hr1) as (r2 & Hr2 & _).
    apply wp_bind. unfold stopNeighborCollection. apply wp_bind. unfold wp at 1, with_manager, st_modify. cbn [fst snd].
    set (w3 := mkWorld _ _ _ _ _ _ _). assert (Hg3 : good w3) by (destruct Hg2; by constructor).
    eapply wp_stop; [exact Hg3|exact Hr2|]. intros w4 Hg4 Hr4 _ _ Ha4. apply wp_ret.
    assert (Hstop : runs w4 None /\ m_lastAccess (w_manager w4) = 0) by done. clear Ha4.
    destruct out as [e|native].
    + destruct ubus as [snapshot|]; cbn [fallback]; (split; [done|]).
      * by exists snapshot, (PipelineParse e).
      * split; [done|]. by exists (PipelineParse e).
    + destruct Hout as (n & paths & Hne & Hl & Hp). split; [done|]. split; [done|]. exists native, n, paths.
      split_and!; try done. destruct paths; [done|simpl; lia].
Qed.

(** Installing the configuration: after success the file is the one the program
    carries, with mode 0600; after an error it is what it was, or gone when it
    was no regular file; no partial file is ever installed, nothing else
    changes, and the configuration of the repository passes the check. *)
Theorem extractNeighborAssets_spec (embedded : list Z) (w : world) :
  let '(e, w') := extractNeighborAssets embedded w in
  same_core w w' /\
  match e with
  | None => exists data, o_config (w_os w') = Some (Regular data mode0600) /\
      asset_valid data neighborConfigSHA256 = true
  | Some err =>
      (o_config (w_os w') = o_config (w_os w) \/ o_config (w_os w) = Some Special /\ o_config (w_os w') = None) /\
      (err = ErrAssetHash -> asset_valid embedded neighborConfigSHA256 = false)
  end /\ asset_valid ProbeQTrace.qtrace_cfg neighborConfigSHA256 = true.
Proof.
  pose proof (extract_spec embedded w) as Hx. destruct (extractNeighborAssets embedded w) as [e w'].
  destruct Hx as [Hs He]. split; [exact Hs|]. split; [exact He|exact embedded_config_valid].
Qed.

End Properties.

(** * Concrete runs *)

Lemma sample_world_good : good sample_world.
Proof.
  constructor; try done.
  - intros pid pid' (p & Hp & Ho). exfalso. cbn in Hp. apply lookup_singleton_Some in Hp as [<- <-].
    vm_compute in Ho. discriminate.
  - intros pid p Hp Ho. exfalso. cbn in Hp. apply lookup_singleton_Some in Hp as [<- <-]. vm_compute in Ho. discriminate.
  - intros pid [p Hp]. cbn in Hp. apply lookup_singleton_Some in Hp as [<- _]. unfold max_pid. lia.
  - intros pid Ho. by right.
  - intros pid [Hq|Hq]; [by apply elem_of_empty in Hq|by apply gmultiset_not_elem_of_empty in Hq].
Qed.

Definition sample_text (e : managerError) : string := "error".

Lemma manager_refines_witness :
  good sample_world /\
  exists w', step sample_text ProbeQTrace.qtrace_cfg sample_world (AEnsure None) w' /\
    sample_pids (w_os w') = [1] /\ exists r r', runs sample_world r /\ runs w' r'.
Proof.
  split; [exact sample_world_good|].
  assert (H : exists w', ensureNeighborPipeline ProbeQTrace.qtrace_cfg sample_world = (None, w') /\
            sample_pids (w_os w') = [1]) by (eexists; split; [vm_compute; reflexivity|reflexivity]).
  destruct H as (w' & H & Hpids). exists w'.
  assert (Hs : step sample_text ProbeQTrace.qtrace_cfg sample_world (AEnsure None) w') by (apply StepEnsure; exact H).
  split; [exact Hs|]. split; [exact Hpids|].
  destruct (manager_refines sample_text ProbeQTrace.qtrace_cfg sample_world sample_world (AEnsure None) w'
    sample_world_good (ReachInit _ _ _) Hs) as (r & r' & Hr & Hr' & _).
  exists r, r'. split; [exact Hr|exact Hr'].
Defined.

Lemma manager_safe_witness :
  good sample_world /\
  exists w, reachable sample_text ProbeQTrace.qtrace_cfg sample_world w /\ length (o_kills (w_os w)) = 2%nat /\
    Forall kill_ok (o_kills (w_os w)).
Proof.
  split; [exact sample_world_good|].
  assert (H : exists w1 w2, ensureNeighborPipeline ProbeQTrace.qtrace_cfg sample_world = (None, w1) /\
            stopNeighborCollection "stopped" w1 = (true, w2) /\ length (o_kills (w_os w2)) = 2%nat).
  { eexists _, _. split; [vm_compute; reflexivity|]. split; [vm_compute; reflexivity|]. reflexivity. }
  destruct H as (w1 & w2 & H1 & H2 & Hl). exists w2.
  assert (Hr : reachable sample_text ProbeQTrace.qtrace_cfg sample_world w2).
  { eapply ReachStep; [eapply ReachStep; [apply ReachInit|apply (StepEnsure _ _ _ _ _ H1)]|].
    apply (StepStop _ _ _ _ _ _ H2). }
  split; [exact Hr|]. split; [exact Hl|].
  apply (manager_safe sample_text ProbeQTrace.qtrace_cfg sample_world w2 sample_world_good Hr).
Defined.

Lemma NeighborCellHandler_spec_witness :
  good sample_world /\
  exists w', NeighborCellHandler (fun _ _ => None) (fun _ _ _ => false) (fun _ => false) ProbeQTrace.qtrace_cfg
               None (mkWorld 0 sample_os (mkManager 0 None 0 0 0 0) None false ∅ ∅) =
             (RFailed (Some (PipelineParse ErrNotExist)), w') /\ runs w' None.
Proof.
  split; [exact sample_world_good|].
  set (run := NeighborCellHandler _ _ _ _ _ _).
  assert (H : run.1 = RFailed (Some (PipelineParse ErrNotExist))) by (vm_compute; reflexivity).
  pose proof (NeighborCellHandler_spec (fun _ _ => None) (fun _ _ _ => false) (fun _ => false)
    ProbeQTrace.qtrace_cfg None sample_world sample_world_good) as Hspec.
  change (NeighborCellHandler _ _ _ _ _ sample_world) with run in Hspec.
  destruct run as [resp w']. cbn [fst] in H. subst resp. exists w'. split; [reflexivity|].
  destruct Hspec as (_ & _ & e & He & Hstop). injection He as <-. apply Hstop.
Defined.

(** The end of a request stops the collector for every other request: here the
    second of two overlapping ones loses it when the first is answered. *)
Lemma overlapping_requests :
  let first := (ensureNeighborPipeline ProbeQTrace.qtrace_cfg sample_world).2 in
  let second := (ensureNeighborPipeline ProbeQTrace.qtrace_cfg first).2 in
  let answered := (stopNeighborCollection "stopped: request completed" second).2 in
  sample_pids (w_os first) = [1] /\ sample_pids (w_os second) = [1] /\
  (p_killed <$> o_procs (w_os answered) !! 1) = Some true.
Proof. vm_compute. split; [reflexivity|]. split; reflexivity. Qed.

(** A collector that hangs is stopped and started again: with one that does not
    end within the second it is given, the new start finds the killed process
    and adopts it, and reports success with nothing running. *)
Lemma killed_collector_adopted :
  let first := (ensureNeighborPipeline ProbeQTrace.qtrace_cfg sample_world).2 in
  let late := mkWorld (w_next first) (mkOS (o_procs (w_os first)) (o_pid_file (w_os first)) None None None (Some [])
                (1000 + neighborStaleTimeout) []) (w_manager first) (w_takeover first) true
                (w_waiting first) (w_reaped first) in
  let ticked := (monitor_tick sample_text late).2 in
  m_pid (w_manager ticked) = 1 /\ (p_killed <$> o_procs (w_os ticked) !! 1) = Some true.
Proof. vm_compute. split; reflexivity. Qed.

(** The child of the first collector was waited for; the second collector gets
    its pid; the reaper of the first then takes the second for its child. *)
Lemma late_reaper_forgets :
  let first := (ensureNeighborPipeline ProbeQTrace.qtrace_cfg sample_world).2 in
  let waited := (reap_wait {[1]} first).2 in
  let second := (ensureNeighborPipeline ProbeQTrace.qtrace_cfg waited).2 in
  let reaped := (reap_locked 1 None second).2 in
  m_pid (w_manager second) = 1 /\ m_pid (w_manager reaped) = 0 /\ o_pid_file (w_os reaped) = None /\
  isNeighborDiag (w_os reaped) 1 = true.
Proof. vm_compute. repeat split; reflexivity. Qed.
