(* ===== verification/ProbeModel.v ===== *)
(** Records the parts of the crossband probe share,
    [src/tools/u60-nr-crossband-probe/model.go].  Time stamps the code takes
    from the clock are left out; [At] of an event read from a trace line is the
    pair of seconds and nanoseconds, [None] when the clock supplies it. *)

From S2P Require Import Prelude.
From S2P Require Import GoFloat.
Open Scope Z_scope.

Inductive experimentID := experimentA | experimentB | experimentC | experimentD | experimentE | experimentF.

#[export] Instance experimentID_eq_dec : EqDecision experimentID.
Proof. solve_decision. Defined.

Record targetSpec := mkTarget { TBand : Z; TARFCN : Z; TPCI : option Z }.

Record qmiEvent := mkEvent {
  At : option (Z * Z); Service : string; Event : string; Direction : string; Kind : string;
  MessageID : string; Transaction : Z; Caller : string; Raw : string;
  Result : option Z; Error : option Z; ScanStatus : option Z; Description : string }.

Record ml1Result := mkML1 {
  RPCI : Z; RARFCN : Z; RBand : Z; RValid : Z; RSRP : float64; RSRPInteger : Z;
  SINR : float64; SINRInteger : Z; RSRQ : float64; SearchEnergy : Z; RWords : list Z }.

Record qshEvidence := mkEvidence {
  EHash : Z; EKind : string; EARFCN : option Z; EPCI : option Z; EWords : list Z }.

(** [CapturedAt] and the raw map are left out. *)
Record networkSnapshot := mkSnapshot {
  NetSelect : string; NetworkType : string; NRBandSA : string; NRBandNSA : string;
  NRCellLockRaw : string; NRCellLockPCI : string; NRCellLockARFCN : string; NRCellLockBand : string;
  ServingBand : string; ServingARFCN : string; ServingPCI : string }.
