(* ===== verification/ProbeQmi.v ===== *)
(** QMI packets of the crossband probe,
    [src/tools/u60-nr-crossband-probe/qmi_protocol.go] and the TLV decoder of
    [diff.go]: the request encoder, the packet parser and the command-line
    channel list. *)

From S2P Require Import Prelude.
From S2P Require Import GoInt.
From S2P Require Import GoStrings.
Open Scope Z_scope.

Definition qmiFlagRequest : Z := 0x00.
Definition qmiFlagResponse : Z := 0x02.
Definition qmiFlagIndication : Z := 0x04.
Definition qmiIncrementalScan : Z := 0x0085.
Definition qmiAbortNetworkScan : Z := 0x00c2.

Record qmiTLV := mkTLV { TType : Z; TValue : list Z }.

#[export] Instance qmiTLV_eq_dec : EqDecision qmiTLV.
Proof. solve_decision. Defined.

Inductive qmiError :=
| ErrTLVTooLarge (type : Z) (n : nat)
| ErrPayloadTooLarge (n : nat)
| ErrARFCNCount (n : nat)
| ErrScanType (scanType : Z)
| ErrARFCN (arfcn : Z)
| ErrZeroRATMask
| ErrPacketShort (n : nat)
| ErrLengthMismatch (declared actual : nat)
| ErrTLVHeader
| ErrTLVTruncated (type : Z)
| ErrResultLength (n : nat)
| ErrNoResult
| ErrStatusLength (n : nat)
| ErrOutOfFuel.

(** ** Requests *)

Definition check_tlv (payloadLength : nat) (tlv : qmiTLV) : go qmiError nat :=
  let n := length (TValue tlv) in
  if bool_decide (0xffff < Z.of_nat n) then Err (ErrTLVTooLarge (TType tlv) n)
  else mret (payloadLength + (3 + n))%nat.

Definition encode_tlv (tlv : qmiTLV) : list Z :=
  let n := Z.of_nat (length (TValue tlv)) in
  [TType tlv; u8 n; u8 (Z.shiftr n 8)] ++ TValue tlv.

Definition encode_tlvs (tlvs : list qmiTLV) : list Z := flat_map encode_tlv tlvs.

Definition makeQMIRequest (transactionID messageID : Z) (tlvs : list qmiTLV) : go qmiError (list Z) :=
  payloadLength ← go_fold check_tlv 0%nat tlvs;
  if bool_decide (0xffff < Z.of_nat payloadLength) then Err (ErrPayloadTooLarge payloadLength) else
  mret ([qmiFlagRequest] ++ put_u16 transactionID ++ put_u16 messageID ++
        put_u16 (u16 (Z.of_nat payloadLength)) ++ encode_tlvs tlvs).

Definition check_arfcn (channelList : list Z) (arfcn : Z) : go qmiError (list Z) :=
  if (arfcn =? 0) || (3279165 <? arfcn) then Err (ErrARFCN arfcn) else mret (channelList ++ put_u32 arfcn).

Definition makeNRIncrementalScanRequest (transactionID : Z) (arfcns : list Z) (scanType : Z)
    : go qmiError (list Z) :=
  let n := length arfcns in
  if bool_decide (n < 1)%nat || bool_decide (10 < n)%nat then Err (ErrARFCNCount n) else
  if negb (scanType =? 0) && negb (scanType =? 2) then Err (ErrScanType scanType) else
  channelList ← go_fold check_arfcn [u8 (Z.of_nat n)] arfcns;
  makeQMIRequest transactionID qmiIncrementalScan
    [mkTLV 0x10 [0x10]; mkTLV 0x11 (put_u32 scanType); mkTLV 0x18 (put_u16 60);
     mkTLV 0x19 [1]; mkTLV 0x1a [1]; mkTLV 0x1d channelList].

Definition makeQCRILOneShotExpectedRequest (transactionID currentModeRATMask : Z)
    : go qmiError (list Z) :=
  if currentModeRATMask =? 0 then Err ErrZeroRATMask else
  makeQMIRequest transactionID qmiIncrementalScan [mkTLV 0x10 [currentModeRATMask]].

Definition makeAbortRequest (transactionID : Z) : go qmiError (list Z) :=
  makeQMIRequest transactionID qmiAbortNetworkScan [].

(** ** Packets *)

(** The loop of [parseQMIPacket] from [offset] on; every iteration consumes at
    least three bytes, so the length of the packet is enough fuel. *)
Fixpoint tlv_loop (fuel : nat) (packet : list Z) (offset : nat) (tlvs : list qmiTLV)
    : go qmiError (list qmiTLV) :=
  if bool_decide (length packet <= offset)%nat then mret tlvs else
  match fuel with
  | O => Err ErrOutOfFuel
  | S fuel =>
    if bool_decide (length packet - offset < 3)%nat then Err ErrTLVHeader else
    typeID ← index packet offset;
    n ← (b ← slice packet (offset + 1) (offset + 3); Uint16 b);
    let n := Z.to_nat n in
    let offset := (offset + 3)%nat in
    if bool_decide (length packet - offset < n)%nat then Err (ErrTLVTruncated typeID) else
    value ← slice packet offset (offset + n);
    tlv_loop fuel packet (offset + n) (tlvs ++ [mkTLV typeID value])
  end.

Record qmiPacket := mkPacket { PFlags : Z; PTransaction : Z; PMessage : Z; PTLVs : list qmiTLV }.

(** [parseQMIPacket]; no caller reads the header of a packet it refuses. *)
Definition parseQMIPacket (packet : list Z) : go qmiError qmiPacket :=
  if bool_decide (length packet < 7)%nat then Err (ErrPacketShort (length packet)) else
  flags ← index packet 0;
  transaction ← (b ← slice packet 1 3; Uint16 b);
  message ← (b ← slice packet 3 5; Uint16 b);
  payloadLength ← (b ← slice packet 5 7; Uint16 b);
  if negb (bool_decide (Z.to_nat payloadLength = length packet - 7)%nat)
  then Err (ErrLengthMismatch (Z.to_nat payloadLength) (length packet - 7)) else
  tlvs ← tlv_loop (length packet) packet 7 [];
  mret (mkPacket flags transaction message tlvs).

(** [parseTLVPayload] of [diff.go]: the same loop on a bare payload. *)
Definition parseTLVPayload (payload : list Z) : go qmiError (list qmiTLV) :=
  tlv_loop (length payload) payload 0 [].

Definition find_tlv (type : Z) (tlvs : list qmiTLV) : option qmiTLV :=
  List.find (fun tlv => TType tlv =? type) tlvs.

Definition qmiResult (packet : list Z) : go qmiError (Z * Z) :=
  p ← parseQMIPacket packet;
  match find_tlv 0x02 (PTLVs p) with
  | None => Err ErrNoResult
  | Some tlv =>
    if negb (bool_decide (length (TValue tlv) = 4)%nat) then Err (ErrResultLength (length (TValue tlv))) else
    result ← Uint16 (TValue tlv);
    error ← (b ← slice_from (TValue tlv) 2; Uint16 b);
    mret (result, error)
  end.

Definition indicationStatus (packet : list Z) : go qmiError (option Z) :=
  p ← parseQMIPacket packet;
  match find_tlv 0x01 (PTLVs p) with
  | None => mret None
  | Some tlv =>
    if negb (bool_decide (length (TValue tlv) = 4)%nat) then Err (ErrStatusLength (length (TValue tlv))) else
    status ← Uint32 (TValue tlv);
    mret (Some status)
  end.

(** ** Command-line values *)

Inductive argError := ErrEmptyHex | ErrBadHex | ErrListLength | ErrListEntry (part : string).

Definition parseHexPacket (value : string) : go argError (list Z) :=
  let value := TrimSpace (TrimPrefix value "0x") in
  if bool_decide (value = ""%string) then Err ErrEmptyHex else
  match hex_DecodeString value with None => Err ErrBadHex | Some packet => mret packet end.

Definition comma : ascii := chr 44.

(** The loop of [parseARFCNList]; [seen] holds exactly the results so far. *)
Definition add_arfcn (st : gset Z * list Z) (part : string) : go argError (gset Z * list Z) :=
  match ParseUint0 (TrimSpace part) 32 with
  | None => Err (ErrListEntry part)
  | Some parsed =>
    if (parsed =? 0) || (3279165 <? parsed) then Err (ErrListEntry part) else
    if bool_decide (parsed ∈ st.1) then mret st else mret ({[parsed]} ∪ st.1, st.2 ++ [parsed])
  end.

Definition parseARFCNList (value : string) : go argError (list Z) :=
  let parts := Split1 value comma in
  if bool_decide (TrimSpace value = ""%string) || bool_decide (10 < length parts)%nat
  then Err ErrListLength else
  st ← go_fold add_arfcn (∅, []) parts;
  mret st.2.

(** ** Predicates of the statements *)

Definition tlv_ok (tlv : qmiTLV) : Prop := is_byte (TType tlv) /\ bytes_ok (TValue tlv).

Definition tlvs_length (tlvs : list qmiTLV) : nat := sum_list ((fun t => 3 + length (TValue t))%nat <$> tlvs).

Definition arfcn_ok (arfcn : Z) : Prop := 1 <= arfcn <= 3279165.

Example request_advanced :
  match makeNRIncrementalScanRequest 1 [504990] 2 with
  | Ok p => drop 31 p | _ => [] end = [0x1d; 5; 0; 1; 0x9e; 0xb4; 7; 0].
Proof. vm_compute. reflexivity. Qed.

Example arfcn_list_1 : parseARFCNList "504990, 0x7B49E,154_810" = Ok [504990; 154810].
Proof. vm_compute. reflexivity. Qed.

(** * The TLV loop *)

Definition tlv_fits (tlv : qmiTLV) : Prop := (length (TValue tlv) <= Z.to_nat 0xffff)%nat.

Lemma encode_tlv_length tlv : length (encode_tlv tlv) = (3 + length (TValue tlv))%nat.
Proof. done. Qed.

Lemma encode_tlvs_length tlvs : length (encode_tlvs tlvs) = tlvs_length tlvs.
Proof.
  unfold tlvs_length. induction tlvs as [|t tlvs IH]; [done|].
  cbn [encode_tlvs flat_map]. rewrite length_app, encode_tlv_length.
  fold (encode_tlvs tlvs). by rewrite IH.
Qed.

(** A 16-bit length survives its encoding. *)
Lemma length_word (n : nat) :
  (n <= Z.to_nat 0xffff)%nat -> Z.to_nat (le16 (u8 (Z.of_nat n)) (u8 (Z.shiftr (Z.of_nat n) 8))) = n.
Proof. intros H. rewrite le16_put by (unfold in_range; lia). lia. Qed.

Lemma tlv_loop_encoded fuel pre tlvs acc :
  Forall tlv_fits tlvs -> (length (encode_tlvs tlvs) <= fuel)%nat ->
  tlv_loop fuel (pre ++ encode_tlvs tlvs) (length pre) acc = Ok (acc ++ tlvs).
Proof.
  intros Hf. revert fuel pre acc. induction Hf as [|t tlvs Ht _ IH]; intros fuel pre acc Hfuel.
  - destruct fuel; cbn [tlv_loop]; rewrite bool_decide_eq_true_2 by (rewrite length_app; simpl; lia);
      by rewrite app_nil_r.
  - cbn [encode_tlvs flat_map] in *. fold (encode_tlvs tlvs) in *.
    rewrite length_app, encode_tlv_length in Hfuel.
    destruct fuel as [|fuel]; [lia|]. cbn [tlv_loop].
    assert (Hlen : length (pre ++ encode_tlv t ++ encode_tlvs tlvs) =
                   (length pre + 3 + length (TValue t) + length (encode_tlvs tlvs))%nat)
      by (rewrite !length_app, encode_tlv_length; lia).
    rewrite Hlen, !bool_decide_eq_false_2 by lia.
    rewrite (index_ok _ _ (TType t)); [|by rewrite lookup_app_r, Nat.sub_diag by lia].
    cbn [mbind go_bind]. rewrite slice_ok by lia. rewrite drop_app_ge by lia.
    replace (length pre + 1 - length pre)%nat with 1%nat by lia.
    replace (length pre + 3 - (length pre + 1))%nat with 2%nat by lia.
    cbn [encode_tlv app drop take Uint16 mbind go_bind]. rewrite length_word by done.
    rewrite bool_decide_eq_false_2 by lia. rewrite slice_ok by (cbn [app encode_tlv] in Hlen; lia).
    replace (length pre + 3 + length (TValue t) - (length pre + 3))%nat with (length (TValue t)) by lia.
    rewrite drop_app_ge by lia. replace (length pre + 3 - length pre)%nat with 3%nat by lia.
    rewrite !skipn_cons, skipn_O, take_app_length. cbn [mbind go_bind].
    destruct t as [ty v]. cbn [TType TValue] in *.
    specialize (IH fuel (pre ++ encode_tlv (mkTLV ty v)) (acc ++ [mkTLV ty v]) ltac:(lia)).
    rewrite length_app, encode_tlv_length, <- app_assoc in IH. cbn [TValue] in IH.
    rewrite <- app_assoc in IH. cbn [app encode_tlv TValue TType] in IH |- *.
    rewrite <- IH. f_equal. lia.
Qed.

Lemma encode_tlvs_app l1 l2 : encode_tlvs (l1 ++ l2) = encode_tlvs l1 ++ encode_tlvs l2.
Proof. apply flat_map_app. Qed.

(** What the loop returns is what stands in the packet. *)
Lemma tlv_loop_inv fuel packet off acc :
  bytes_ok packet -> (off <= length packet)%nat -> (length packet - off <= fuel)%nat ->
  match tlv_loop fuel packet off acc with
  | Ok out => exists tlvs, out = acc ++ tlvs /\ Forall tlv_fits tlvs /\ Forall tlv_ok tlvs /\
                drop off packet = encode_tlvs tlvs
  | Err e => e = ErrTLVHeader \/ exists ty, e = ErrTLVTruncated ty
  | Panic => False
  end.
Proof.
  intros Hb. revert off acc. induction fuel as [|fuel IH]; intros off acc Hoff Hfuel; cbn [tlv_loop].
  - rewrite bool_decide_eq_true_2 by lia. exists []. rewrite app_nil_r.
    split_and!; [done|constructor..|]. apply drop_ge. lia.
  - case_bool_decide as Hend.
    { exists []. rewrite app_nil_r. split_and!; [done|constructor..|]. apply drop_ge. lia. }
    case_bool_decide as Hhdr; [by left|].
    destruct (drop off packet) as [|ty [|a [|b rest]]] eqn:Hd;
      try (apply (f_equal length) in Hd; rewrite length_drop in Hd; simpl in Hd; lia).
    assert (Hrest : bytes_ok (ty :: a :: b :: rest)) by (rewrite <- Hd; auto with bytes).
    assert (Hlen : (length packet = off + 3 + length rest)%nat)
      by (apply (f_equal length) in Hd; rewrite length_drop in Hd; simpl in Hd; lia).
    assert (Hpk : packet = take off packet ++ ty :: a :: b :: rest) by by rewrite <- Hd, take_drop.
    assert (Hto : length (take off packet) = off) by (rewrite length_take; lia).
    rewrite (index_ok _ _ ty); [|by rewrite Hpk, lookup_app_r, Hto, Nat.sub_diag by lia].
    cbn [mbind go_bind]. rewrite slice_ok by lia.
    replace (off + 3 - (off + 1))%nat with 2%nat by lia.
    replace (drop (off + 1) packet) with (a :: b :: rest) by (rewrite <- drop_drop, Hd; done).
    cbn [take Uint16 mbind go_bind]. bytes_inv.
    pose proof (le16_range a b ltac:(done) ltac:(done)) as Hr. unfold in_range in Hr.
    case_bool_decide as Htrunc; [right; by eexists|]. rewrite slice_ok by lia.
    set (n := Z.to_nat (le16 a b)) in *. cbn [mbind go_bind].
    replace (off + 3 + n - (off + 3))%nat with n by lia.
    replace (drop (off + 3) packet) with rest by (rewrite <- drop_drop, Hd; done).
    specialize (IH (off + 3 + n)%nat (acc ++ [mkTLV ty (take n rest)]) ltac:(lia) ltac:(lia)).
    destruct (tlv_loop fuel packet (off + 3 + n) _) as [out| |]; [|done..].
    destruct IH as (tlvs & -> & Hfits & Hok & Hdrop).
    assert (Htake : length (take n rest) = n) by (rewrite length_take; lia).
    exists (mkTLV ty (take n rest) :: tlvs). rewrite <- app_assoc. split_and!; [done| | |].
    + constructor; [|done]. unfold tlv_fits. cbn [TValue]. lia.
    + constructor; [|done]. split; [done|]. cbn [TValue]. by apply Forall_take.
    + cbn [encode_tlvs flat_map]. fold (encode_tlvs tlvs). unfold encode_tlv. cbn [TValue TType].
      rewrite Htake. unfold n at 1 2. rewrite Z2Nat.id by lia.
      pose proof (put_u16_le16 a b ltac:(done) ltac:(done)) as Hp. injection Hp as -> ->.
      cbn [app]. f_equal. f_equal. f_equal. rewrite <- Hdrop.
      rewrite <- (take_drop n rest) at 1. f_equal.
      replace rest with (drop (off + 3) packet) by (rewrite <- drop_drop, Hd; done).
      by rewrite drop_drop.
Qed.

(** * Requests and packets *)

Lemma tlvs_length_cons t tlvs :
  tlvs_length (t :: tlvs) = (3 + length (TValue t) + tlvs_length tlvs)%nat.
Proof. reflexivity. Qed.

Lemma check_tlvs_ok n tlvs :
  Forall tlv_fits tlvs -> go_fold check_tlv n tlvs = Ok (n + tlvs_length tlvs)%nat.
Proof.
  intros Hf. revert n. induction Hf as [|t tlvs Ht _ IH]; intros n; cbn [go_fold].
  - unfold tlvs_length. simpl. f_equal. lia.
  - unfold check_tlv at 1. unfold tlv_fits in Ht. rewrite bool_decide_eq_false_2 by lia.
    cbn [mret go_ret]. rewrite IH, tlvs_length_cons. f_equal. lia.
Qed.

Lemma check_tlvs_inv n m tlvs :
  go_fold check_tlv n tlvs = Ok m -> Forall tlv_fits tlvs.
Proof.
  revert n. induction tlvs as [|t tlvs IH]; intros n; cbn [go_fold]; [constructor|].
  unfold check_tlv at 1. case_bool_decide as Hn; [done|]. cbn [mret go_ret]. intros H.
  constructor; [unfold tlv_fits; lia|by eapply IH].
Qed.

Lemma makeQMIRequest_ok tx msg tlvs :
  Forall tlv_fits tlvs -> (tlvs_length tlvs <= Z.to_nat 0xffff)%nat ->
  makeQMIRequest tx msg tlvs =
    Ok (qmiFlagRequest :: put_u16 tx ++ put_u16 msg ++ put_u16 (Z.of_nat (tlvs_length tlvs)) ++ encode_tlvs tlvs).
Proof.
  intros Hf Hl. unfold makeQMIRequest. rewrite check_tlvs_ok by done. cbn [mbind go_bind].
  rewrite Nat.add_0_l, bool_decide_eq_false_2 by lia. rewrite wrap_id; [done|].
  unfold in_range. lia.
Qed.

(** The shape of a packet: header fields and payload. *)
Lemma parse_header f t0 t1 m0 m1 l0 l1 payload :
  parseQMIPacket (f :: t0 :: t1 :: m0 :: m1 :: l0 :: l1 :: payload) =
  if negb (bool_decide (Z.to_nat (le16 l0 l1) = length payload)) then
    Err (ErrLengthMismatch (Z.to_nat (le16 l0 l1)) (length payload))
  else
    tlvs ← tlv_loop (7 + length payload) (f :: t0 :: t1 :: m0 :: m1 :: l0 :: l1 :: payload) 7 [];
    mret (mkPacket f (le16 t0 t1) (le16 m0 m1) tlvs).
Proof.
  unfold parseQMIPacket. rewrite bool_decide_eq_false_2 by (simpl; lia).
  rewrite !slice_ok by (simpl; lia). cbn [index from_option_panic lookup list_lookup mbind go_bind].
  cbn [Nat.sub drop take Uint16 mbind go_bind length]. by rewrite Nat.sub_0_r.
Qed.

Lemma parse_short packet :
  (length packet < 7)%nat -> parseQMIPacket packet = Err (ErrPacketShort (length packet)).
Proof. intros H. unfold parseQMIPacket. by rewrite bool_decide_eq_true_2. Qed.

Lemma parse_encoded tx msg tlvs p :
  in_range 16 tx -> in_range 16 msg -> makeQMIRequest tx msg tlvs = Ok p ->
  parseQMIPacket p = Ok (mkPacket qmiFlagRequest tx msg tlvs) /\
  length p = (7 + tlvs_length tlvs)%nat /\ Forall tlv_fits tlvs /\ (tlvs_length tlvs <= Z.to_nat 0xffff)%nat.
Proof.
  intros Htx Hmsg H. assert (Hf : Forall tlv_fits tlvs).
  { unfold makeQMIRequest in H. destruct (go_fold check_tlv 0%nat tlvs) eqn:E; [|done..].
    by eapply check_tlvs_inv. }
  assert (Hl : (tlvs_length tlvs <= Z.to_nat 0xffff)%nat).
  { unfold makeQMIRequest in H. rewrite check_tlvs_ok in H by done. cbn [mbind go_bind] in H.
    case_bool_decide; [done|]. lia. }
  rewrite makeQMIRequest_ok in H by done. injection H as <-. split_and!; [| |done|done].
  - cbn [put_u16 app]. rewrite parse_header, !le16_put by (done || unfold in_range; lia).
    rewrite Nat2Z.id, encode_tlvs_length, bool_decide_eq_true_2 by done. cbn [negb].
    pose proof (tlv_loop_encoded (7 + tlvs_length tlvs)
      (qmiFlagRequest :: put_u16 tx ++ put_u16 msg ++ put_u16 (Z.of_nat (tlvs_length tlvs))) tlvs []) as Hloop.
    cbn [put_u16 app length] in Hloop. rewrite Hloop; [done|done|]. rewrite encode_tlvs_length. lia.
  - cbn [put_u16 app length]. by rewrite encode_tlvs_length.
Qed.

(** Encoding and parsing are inverse.  A request is refused exactly when a
    value or the payload exceeds 65535 bytes; otherwise parsing it returns the
    flags, transaction, message and TLVs it was made of. *)
Theorem qmi_request_roundtrip (tx msg : Z) (tlvs : list qmiTLV) :
  in_range 16 tx -> in_range 16 msg ->
  (is_ok (makeQMIRequest tx msg tlvs) <->
   Forall tlv_fits tlvs /\ (tlvs_length tlvs <= Z.to_nat 0xffff)%nat) /\
  forall p, makeQMIRequest tx msg tlvs = Ok p ->
    parseQMIPacket p = Ok (mkPacket qmiFlagRequest tx msg tlvs) /\ length p = (7 + tlvs_length tlvs)%nat.
Proof.
  intros Htx Hmsg. split.
  - split.
    + destruct (makeQMIRequest tx msg tlvs) as [p| |] eqn:H; [|done..]. intros _.
      apply parse_encoded in H as (_ & _ & ? & ?); done.
    + intros [Hf Hl]. by rewrite makeQMIRequest_ok.
  - intros p H. by apply parse_encoded in H as (? & ? & _).
Qed.

Lemma qmi_request_roundtrip_witness :
  in_range 16 1 /\ in_range 16 0x85 /\
  exists p, makeQMIRequest 1 0x85 [mkTLV 0x10 [0x10]; mkTLV 0x1d []] = Ok p /\
    parseQMIPacket p = Ok (mkPacket 0 1 0x85 [mkTLV 0x10 [0x10]; mkTLV 0x1d []]).
Proof.
  assert (H1 : in_range 16 1) by (unfold in_range; lia).
  assert (H2 : in_range 16 0x85) by (unfold in_range; lia).
  split; [exact H1|]. split; [exact H2|]. eexists. split; [vm_compute; reflexivity|].
  apply (qmi_request_roundtrip 1 0x85 _ H1 H2). vm_compute. reflexivity.
Defined.

(** Parsing reads every byte string without panicking or running out of fuel,
    and an accepted packet is nothing but its own re-encoding: seven header
    bytes with the exact payload length and the TLVs one after the other. *)
Theorem parseQMIPacket_sound (packet : list Z) :
  bytes_ok packet ->
  match parseQMIPacket packet with
  | Ok p =>
    packet = PFlags p :: put_u16 (PTransaction p) ++ put_u16 (PMessage p) ++
             put_u16 (Z.of_nat (tlvs_length (PTLVs p))) ++ encode_tlvs (PTLVs p) /\
    Forall tlv_ok (PTLVs p) /\ Forall tlv_fits (PTLVs p) /\
    (PFlags p = qmiFlagRequest ->
     makeQMIRequest (PTransaction p) (PMessage p) (PTLVs p) = Ok packet)
  | Err e => e <> ErrOutOfFuel /\ e <> ErrNoResult
  | Panic => False
  end.
Proof.
  intros Hb. destruct (decide (length packet < 7)%nat) as [Hs|Hs]; [by rewrite parse_short|].
  destruct packet as [|f [|t0 [|t1 [|m0 [|m1 [|l0 [|l1 payload]]]]]]]; try (simpl in Hs; lia).
  rewrite parse_header. case_bool_decide as Hlen; cbn [negb]; [|done].
  pose proof (tlv_loop_inv (7 + length payload) _ 7 [] Hb ltac:(simpl; lia) ltac:(simpl; lia)) as Hloop.
  destruct (tlv_loop _ _ _ _) as [out| e |]; cbn [mbind go_bind]; [|by destruct Hloop as [->|[? ->]]|done].
  destruct Hloop as (tlvs & -> & Hfits & Hok & Hd). change (payload = encode_tlvs tlvs) in Hd. subst payload.
  rewrite encode_tlvs_length in Hlen. cbn [PFlags PTransaction PMessage PTLVs app mret go_ret].
  bytes_inv. rewrite !put_u16_le16 by done.
  pose proof (le16_range l0 l1 ltac:(done) ltac:(done)) as Hr. unfold in_range in Hr.
  rewrite <- Hlen, Z2Nat.id by lia. rewrite put_u16_le16 by done. cbn [app].
  split_and!; [done..|]. intros ->. rewrite makeQMIRequest_ok; [|done|lia].
  rewrite <- Hlen, Z2Nat.id by lia. by rewrite !put_u16_le16.
Qed.

Lemma parseQMIPacket_sound_witness :
  let packet := [2; 1; 0; 0x85; 0; 7; 0; 2; 4; 0; 0; 0; 0; 0] in
  bytes_ok packet /\ exists p, parseQMIPacket packet = Ok p /\ Forall tlv_ok (PTLVs p).
Proof.
  intros packet. assert (Hb : bytes_ok packet) by (apply (bool_decide_unpack _); vm_compute; exact I).
  split; [exact Hb|]. pose proof (parseQMIPacket_sound packet Hb) as H.
  destruct (parseQMIPacket packet) as [p| |] eqn:E; [|vm_compute in E; discriminate E..].
  exists p. split; [reflexivity|apply H].
Defined.

(** * The incremental NR scan *)

Lemma check_arfcn_fold acc arfcns :
  go_fold check_arfcn acc arfcns =
  match List.find (fun a => (a =? 0) || (3279165 <? a)) arfcns with
  | Some a => Err (ErrARFCN a)
  | None => Ok (acc ++ flat_map put_u32 arfcns)
  end.
Proof.
  revert acc. induction arfcns as [|a arfcns IH]; intros acc; cbn [go_fold List.find flat_map].
  - by rewrite app_nil_r.
  - unfold check_arfcn at 1. destruct ((a =? 0) || (3279165 <? a)); [done|].
    cbn [mret go_ret]. rewrite IH. destruct (List.find _ arfcns); [done|]. by rewrite app_assoc.
Qed.

Lemma find_bad_arfcn arfcns :
  Forall (in_range 32) arfcns ->
  List.find (fun a => (a =? 0) || (3279165 <? a)) arfcns = None <-> Forall arfcn_ok arfcns.
Proof.
  induction 1 as [|a arfcns Ha _ IH]; cbn [List.find]; [split; [constructor|done]|].
  unfold in_range in Ha. destruct ((a =? 0) || (3279165 <? a)) eqn:E.
  - split; [done|]. intros H. apply Forall_cons in H as [H _]. unfold arfcn_ok in H.
    apply orb_true_iff in E as [E|E]; lia.
  - bool_to_prop. rewrite IH, Forall_cons. unfold arfcn_ok at 2. split; [intros; split; [lia|done]|by intros [_ ?]].
Qed.

(** The six TLVs of a scan of [arfcns]. *)
Definition scan_tlvs (arfcns : list Z) (scanType : Z) : list qmiTLV :=
  [mkTLV 0x10 [0x10]; mkTLV 0x11 (put_u32 scanType); mkTLV 0x18 (put_u16 60);
   mkTLV 0x19 [1]; mkTLV 0x1a [1];
   mkTLV 0x1d (Z.of_nat (length arfcns) :: flat_map put_u32 arfcns)].

Lemma channel_list_length arfcns : length (flat_map put_u32 arfcns) = (4 * length arfcns)%nat.
Proof. induction arfcns as [|a l IH]; [done|]. cbn [flat_map length]. rewrite length_app, IH. simpl. lia. Qed.

Lemma channel_list_lookup arfcns i a rest :
  Forall (in_range 32) arfcns -> arfcns !! i = Some a ->
  @Uint32 qmiError (drop (4 * i) (flat_map put_u32 arfcns ++ rest)) = Ok a.
Proof.
  intros Hr. revert i. induction Hr as [|x l Hx _ IH]; intros i Hi; [done|].
  destruct i as [|i]; cbn [flat_map].
  - injection Hi as ->. cbn [Nat.mul]. rewrite drop_0. cbn [put_u32 app Uint32]. by rewrite le32_put.
  - rewrite <- app_assoc. replace (4 * S i)%nat with (length (put_u32 x) + 4 * i)%nat by (simpl; lia).
    rewrite drop_app_add. by apply IH.
Qed.

Lemma scan_request_eq tx arfcns scanType :
  (1 <= length arfcns <= 10)%nat -> scanType = 0 \/ scanType = 2 -> Forall (in_range 32) arfcns ->
  Forall arfcn_ok arfcns ->
  makeNRIncrementalScanRequest tx arfcns scanType =
    makeQMIRequest tx qmiIncrementalScan (scan_tlvs arfcns scanType).
Proof.
  intros Hn Hs Hr Hok. unfold makeNRIncrementalScanRequest. rewrite !bool_decide_eq_false_2 by lia.
  cbn [orb]. assert (Hst : negb (scanType =? 0) && negb (scanType =? 2) = false)
    by (clear - Hs; destruct Hs as [->| ->]; reflexivity).
  rewrite Hst.
  rewrite check_arfcn_fold. apply find_bad_arfcn in Hok as ->; [|done]. cbn [mbind go_bind].
  unfold scan_tlvs. rewrite wrap_id; [done|]. unfold in_range. lia.
Qed.

Lemma scan_tlvs_fit arfcns scanType :
  (length arfcns <= 10)%nat ->
  Forall tlv_fits (scan_tlvs arfcns scanType) /\ (tlvs_length (scan_tlvs arfcns scanType) <= 100)%nat.
Proof.
  intros Hn. split.
  - unfold scan_tlvs. repeat (apply List.Forall_cons; [unfold tlv_fits; cbn [TValue length put_u32 put_u16];
      rewrite ?channel_list_length; lia|]). apply List.Forall_nil.
  - unfold scan_tlvs. rewrite !tlvs_length_cons. cbn [TValue length put_u32 put_u16].
    rewrite channel_list_length. unfold tlvs_length. simpl sum_list. simpl. lia.
Qed.

Lemma scan_request_ok tx arfcns scanType :
  (1 <= length arfcns <= 10)%nat -> scanType = 0 \/ scanType = 2 -> Forall (in_range 32) arfcns ->
  Forall arfcn_ok arfcns -> is_ok (makeNRIncrementalScanRequest tx arfcns scanType).
Proof.
  intros. rewrite scan_request_eq by done.
  destruct (scan_tlvs_fit arfcns scanType) as [Hf Hl]; [lia|]. rewrite makeQMIRequest_ok; [done|done|lia].
Qed.

Lemma parse_not_empty tx arfcns scanType p :
  makeNRIncrementalScanRequest tx arfcns scanType = Ok p -> p <> [].
Proof.
  unfold makeNRIncrementalScanRequest, makeQMIRequest. intros H ->.
  repeat case_match; try done.
  destruct (go_fold check_arfcn _ arfcns); cbn [mbind go_bind] in H; try done.
  destruct (go_fold check_tlv _ _); cbn [mbind go_bind] in H; try done. by case_bool_decide.
Qed.

(** A scan request exists exactly for one to ten channels between 1 and
    3279165 and the scan types 0 and 2.  It then parses as message 0x0085 with
    the six TLVs, and the little-endian words of TLV 0x1d are the channels in
    order. *)
Theorem makeNRIncrementalScanRequest_spec (tx : Z) (arfcns : list Z) (scanType : Z) :
  in_range 16 tx -> Forall (in_range 32) arfcns ->
  (is_ok (makeNRIncrementalScanRequest tx arfcns scanType) <->
   (1 <= length arfcns <= 10)%nat /\ (scanType = 0 \/ scanType = 2) /\ Forall arfcn_ok arfcns) /\
  forall p, makeNRIncrementalScanRequest tx arfcns scanType = Ok p ->
    parseQMIPacket p = Ok (mkPacket qmiFlagRequest tx qmiIncrementalScan (scan_tlvs arfcns scanType)) /\
    forall i a, arfcns !! i = Some a -> forall tlv, find_tlv 0x1d (scan_tlvs arfcns scanType) = Some tlv ->
      @Uint32 qmiError (drop (1 + 4 * i) (TValue tlv)) = Ok a.
Proof.
  intros Htx Hr.
  assert (Hcond : is_ok (makeNRIncrementalScanRequest tx arfcns scanType) ->
    (1 <= length arfcns <= 10)%nat /\ (scanType = 0 \/ scanType = 2) /\ Forall arfcn_ok arfcns).
  { unfold makeNRIncrementalScanRequest. repeat case_bool_decide; try done. cbn [orb].
    destruct (negb (scanType =? 0) && negb (scanType =? 2)) eqn:Hs; [done|].
    rewrite check_arfcn_fold. destruct (List.find _ arfcns) eqn:Hf; [done|].
    intros _. split_and!; [lia|lia| |by apply find_bad_arfcn].
    apply andb_false_iff in Hs as [Hs|Hs]; bool_to_prop; auto. }
  split.
  - split; [done|]. intros (Hn & Hs & Hok). by apply scan_request_ok.
  - intros p Hp. destruct Hcond as (Hn & Hs & Hok); [by rewrite Hp|].
    rewrite scan_request_eq in Hp by done. apply parse_encoded in Hp as (Hp & _); [|done|unfold in_range; done].
    split; [done|]. intros i a Hi tlv [= <-]. cbn [TValue Nat.add]. rewrite skipn_cons.
    rewrite <- (app_nil_r (flat_map _ _)). by apply channel_list_lookup.
Qed.

Lemma makeNRIncrementalScanRequest_spec_witness :
  in_range 16 1 /\ Forall (in_range 32) [504990; 154810] /\
  exists p, makeNRIncrementalScanRequest 1 [504990; 154810] 2 = Ok p /\
    parseQMIPacket p = Ok (mkPacket 0 1 0x85 (scan_tlvs [504990; 154810] 2)).
Proof.
  assert (H1 : in_range 16 1) by (unfold in_range; lia).
  assert (H2 : Forall (in_range 32) [504990; 154810])
    by (apply (bool_decide_unpack _); vm_compute; exact I).
  split; [exact H1|]. split; [exact H2|].
  destruct (makeNRIncrementalScanRequest_spec 1 _ 2 H1 H2) as [_ Hspec].
  eexists. split; [vm_compute; reflexivity|].
  apply Hspec. vm_compute. reflexivity.
Defined.

(** * The channel list of the command line *)

(** What the loop knows after some parts. *)
Definition list_inv (st : gset Z * list Z) (parts : list string) : Prop :=
  (forall v, v ∈ st.1 <-> v ∈ st.2) /\ NoDup st.2 /\ (length st.2 <= length parts)%nat /\
  (forall v, v ∈ st.2 <-> exists part, part ∈ parts /\ ParseUint0 (TrimSpace part) 32 = Some v) /\
  Forall arfcn_ok st.2.

Lemma list_inv_nil : list_inv (∅, []) [].
Proof.
  unfold list_inv. cbn [fst snd length]. split_and!; [set_solver|constructor|lia| |constructor].
  intros v. split; [intros H; by apply elem_of_nil in H|]. intros (part & H & _). by apply elem_of_nil in H.
Qed.

Lemma add_arfcn_inv st parts part st' :
  list_inv st parts -> add_arfcn st part = Ok st' -> list_inv st' (parts ++ [part]) /\ st'.2 <> [].
Proof.
  intros (Hset & Hnd & Hlen & Helem & Hall). unfold add_arfcn.
  destruct (ParseUint0 (TrimSpace part) 32) as [v|] eqn:Hv; [|done].
  destruct ((v =? 0) || (3279165 <? v)) eqn:Hrange; [done|]. bool_to_prop.
  apply ParseUint0_range in Hv as Hv32. unfold in_range in Hv32.
  assert (Hok : arfcn_ok v) by (unfold arfcn_ok; lia).
  assert (Hval : forall w, (exists p, p ∈ parts ++ [part] /\ ParseUint0 (TrimSpace p) 32 = Some w) <->
                 (exists p, p ∈ parts /\ ParseUint0 (TrimSpace p) 32 = Some w) \/ w = v).
  { intros w. split.
    - intros (p & Hp & Hw). apply elem_of_app in Hp as [Hp|Hp]; [left; by exists p|].
      apply list_elem_of_singleton in Hp as ->. right. congruence.
    - intros [(p & Hp & Hw)| ->]; [exists p|exists part]; (split; [|done]); apply elem_of_app; [by left|right; left]. }
  case_bool_decide as Hin; intros [= <-].
  - apply Hset in Hin as Hin2. split; [|by destruct st.2; [apply elem_of_nil in Hin2|]].
    split_and!; [done|done|rewrite length_app; lia| |done]. intros w. rewrite Hval, Helem. split; [tauto|].
    intros [Hw| ->]; [done|]. by apply Helem.
  - split; [|cbn [snd]; by destruct st.2].
    unfold list_inv. cbn [fst snd]. assert (Hnin : v ∉ st.2) by by rewrite <- Hset.
    split_and!.
    + intros w. rewrite elem_of_union, elem_of_singleton, elem_of_app, list_elem_of_singleton, Hset. tauto.
    + apply NoDup_app. split_and!; [done| |apply NoDup_singleton].
      intros w Hw ->%list_elem_of_singleton. done.
    + rewrite !length_app. simpl. lia.
    + intros w. rewrite elem_of_app, list_elem_of_singleton, Hval, Helem. done.
    + apply Forall_app. split; [done|]. by constructor.
Qed.

Lemma add_arfcn_fold parts st done_ st' :
  list_inv st done_ -> go_fold add_arfcn st parts = Ok st' ->
  list_inv st' (done_ ++ parts) /\ (parts <> [] -> st'.2 <> []).
Proof.
  revert st done_. induction parts as [|p parts IH]; intros st done_ Hinv H; cbn [go_fold] in H.
  - injection H as <-. by rewrite app_nil_r.
  - destruct (add_arfcn st p) as [st1| |] eqn:Hp; try done.
    destruct (add_arfcn_inv _ _ _ _ Hinv Hp) as [Hinv1 Hne].
    destruct (IH _ _ Hinv1 H) as [Hinv2 Hne2]. rewrite <- app_assoc in Hinv2. split; [done|].
    intros _. destruct parts as [|q parts]; [by injection H as <-|by apply Hne2].
Qed.

(** An accepted command-line list has one to ten distinct channels, exactly the
    values of its comma-separated parts, all of them valid; every such list
    makes a scan request with either scan type. *)
Theorem parseARFCNList_spec (value : string) (arfcns : list Z) :
  parseARFCNList value = Ok arfcns ->
  (1 <= length arfcns <= 10)%nat /\ NoDup arfcns /\
  (forall v, v ∈ arfcns <-> exists part, part ∈ Split1 value comma /\ ParseUint0 (TrimSpace part) 32 = Some v) /\
  Forall arfcn_ok arfcns /\
  forall tx scanType, scanType = 0 \/ scanType = 2 ->
    is_ok (makeNRIncrementalScanRequest tx arfcns scanType).
Proof.
  unfold parseARFCNList. case_bool_decide as Hempty; [done|]. case_bool_decide as Hten; [done|]. cbn [orb].
  destruct (go_fold add_arfcn (∅, []) (Split1 value comma)) as [st| |] eqn:Hst; [|done..].
  intros [= <-]. apply (add_arfcn_fold _ _ []) in Hst as [(_ & Hnd & Hlen & Helem & Hok) Hne]; [|apply list_inv_nil].
  cbn [app] in *.
  assert (Hpos : (1 <= length st.2)%nat).
  { destruct (st.2) eqn:E; [|simpl; lia]. exfalso. apply Hne; [|done].
    unfold Split1. intros Hn%fmap_nil_inv. by apply split_on_nonempty in Hn. }
  assert (Hr : Forall (in_range 32) st.2).
  { apply Forall_forall. intros v Hv. apply Helem in Hv as (p & _ & Hp).
    by apply ParseUint0_range in Hp. }
  split_and!; [lia|lia|done|done|done|].
  intros tx scanType Hs. apply scan_request_ok; [lia|done..].
Qed.

Lemma parseARFCNList_spec_witness :
  parseARFCNList "504990, 0x7B49E,154_810" = Ok [504990; 154810] /\ NoDup [504990; 154810] /\
  is_ok (makeNRIncrementalScanRequest 1 [504990; 154810] 0).
Proof.
  assert (H : parseARFCNList "504990, 0x7B49E,154_810" = Ok [504990; 154810]) by (vm_compute; reflexivity).
  split; [exact H|]. destruct (parseARFCNList_spec _ _ H) as (_ & Hnd & _ & _ & Hscan).
  split; [exact Hnd|]. apply Hscan. by left.
Defined.
