(* ===== verification/ProbeScan.v ===== *)
(** The raw NR scan of the crossband probe over an AF_QIPCRTR socket,
    [src/tools/u60-nr-crossband-probe/qmi_linux.go].

    The socket is an environment: the outcome of every system call and the
    datagrams in the order they arrive.  The functions pass the number of
    receive calls made so far, the datagrams sent and the events emitted. *)

From S2P Require Import Prelude.
From S2P Require Import GoInt.
From S2P Require Import GoStrings.
From S2P Require Import Sha256.
From S2P Require Import ProbeModel.
From S2P Require Import ProbeQmi.
Open Scope Z_scope.

Definition nasService : Z := 3.
Definition qrtrPortCtrl : Z := 0xfffffffe.
Definition qrtrTypeNewServ : Z := 4.
Definition qrtrTypeNewLook : Z := 10.

Record sockaddrQRTR := mkAddr { Node : Z; Port : Z }.
Record qrtrServer := mkServer { SVersion : Z; SInstance : Z; SNode : Z; SPort : Z }.

#[export] Instance sockaddrQRTR_eq_dec : EqDecision sockaddrQRTR.
Proof. solve_decision. Defined.

(** [recvQRTR]: a transient errno (EINTR, EAGAIN, EWOULDBLOCK), another one, or
    a datagram and its sender. *)
Inductive received := RecvTransient | RecvFatal | Recv (from : sockaddrQRTR) (packet : list Z).

Record environment := mkEnv {
  e_socket : bool; e_timeout : bool; e_name : option sockaddrQRTR;
  e_send : nat -> bool;         (** outcome of the n-th [sendto] *)
  e_recv : nat -> received;     (** outcome of the n-th [recvfrom] *)
  e_done : nat -> bool;         (** the context is done before the n-th [recvfrom] *)
  e_abort_timeout : bool }.

Record scanState := mkScan {
  s_recv : nat; s_tried : nat; s_sent : list (sockaddrQRTR * list Z); s_events : list qmiEvent }.

Inductive scanError :=
| ErrRequest (e : qmiError)
| ErrSocket
| ErrTimeoutOption
| ErrSockName
| ErrLookupSend
| ErrLookupReceive
| ErrNASNotFound
| ErrScanSend
| ErrNotReceived
| ErrScanReceive
| ErrScanResult (e : qmiError)
| ErrScanStatus (e : qmiError)
| ErrScanRejected (error : Z)
| ErrAbortTimeout
| ErrAbortRequest (e : qmiError)
| ErrAbortSend
| ErrAbortReceive
| ErrAbortResult (e : qmiError)
| ErrAbortRejected (error : Z)
| ErrAbortNotReceived.

Section Scan.
Context (env : environment).

Definition recvQRTR (st : scanState) : received * scanState :=
  (e_recv env (s_recv st), mkScan (S (s_recv st)) (s_tried st) (s_sent st) (s_events st)).

(** [sendQRTR]: an empty payload is refused before the system call. *)
Definition sendQRTR (st : scanState) (payload : list Z) (address : sockaddrQRTR) : bool * scanState :=
  match payload with
  | [] => (false, st)
  | _ =>
    if e_send env (s_tried st)
    then (true, mkScan (s_recv st) (S (s_tried st)) (s_sent st ++ [(address, payload)]) (s_events st))
    else (false, mkScan (s_recv st) (S (s_tried st)) (s_sent st) (s_events st))
  end.

Definition emit (st : scanState) (event : qmiEvent) : scanState :=
  mkScan (s_recv st) (s_tried st) (s_sent st) (s_events st ++ [event]).

(** ** Service lookup *)

Definition lookup_request : list Z :=
  put_u32 qrtrTypeNewLook ++ put_u32 nasService ++ replicate 12 0.

Definition server_of (packet : list Z) : go qmiError (option qrtrServer) :=
  if bool_decide (length packet < 20)%nat then mret None else
  type ← (b ← slice packet 0 4; Uint32 b);
  if negb (type =? qrtrTypeNewServ) then mret None else
  serviceID ← (b ← slice packet 4 8; Uint32 b);
  instanceField ← (b ← slice packet 8 12; Uint32 b);
  node ← (b ← slice packet 12 16; Uint32 b);
  port ← (b ← slice packet 16 20; Uint32 b);
  if (serviceID =? nasService) && negb (node =? 0) && negb (port =? 0)
  then mret (Some (mkServer (Z.land instanceField 0xff) (Z.shiftr instanceField 8) node port))
  else mret None.

Fixpoint lookup_loop (attempts : nat) (st : scanState) : (scanError + qrtrServer) * scanState :=
  match attempts with
  | O => (inl ErrNASNotFound, st)
  | S attempts =>
    let '(r, st) := recvQRTR st in
    match r with
    | RecvTransient => lookup_loop attempts st
    | RecvFatal => (inl ErrLookupReceive, st)
    | Recv _ packet =>
      match server_of packet with
      | Ok (Some server) => (inr server, st)
      | _ => lookup_loop attempts st
      end
    end
  end.

Definition lookupNAS (st : scanState) (local : sockaddrQRTR) : (scanError + qrtrServer) * scanState :=
  let '(ok, st) := sendQRTR st lookup_request (mkAddr (Node local) qrtrPortCtrl) in
  if negb ok then (inl ErrLookupSend, st) else lookup_loop 64 st.

(** ** Events *)

Definition tx_event (message : string) (transaction : Z) (request : list Z) (description : string) : qmiEvent :=
  mkEvent None "3" "RAW_QRTR" "tx" "request" message transaction "" (hex_EncodeToString request)
    None None None description.

Definition rx_event (kind message : string) (transaction : Z) (packet : list Z)
    (result error status : option Z) : qmiEvent :=
  mkEvent None "3" "RAW_QRTR" "rx" kind message transaction "" (hex_EncodeToString packet)
    result error status "".

(** ** Abort *)

Fixpoint abort_loop (attempts : nat) (server : qrtrServer) (transaction : Z) (st : scanState)
    : option scanError * scanState :=
  match attempts with
  | O => (Some ErrAbortNotReceived, st)
  | S attempts =>
    let '(r, st) := recvQRTR st in
    match r with
    | RecvTransient => abort_loop attempts server transaction st
    | RecvFatal => (Some ErrAbortReceive, st)
    | Recv from packet =>
      if negb (Node from =? SNode server) || negb (Port from =? SPort server) ||
         bool_decide (length packet < 7)%nat
      then abort_loop attempts server transaction st else
      match parseQMIPacket packet with
      | Ok p =>
        if negb (PFlags p =? qmiFlagResponse) || negb (PTransaction p =? transaction) ||
           negb (PMessage p =? qmiAbortNetworkScan)
        then abort_loop attempts server transaction st else
        match qmiResult packet with
        | Ok (result, qmiError) =>
          let st := emit st (rx_event "response" "0x00c2" (PTransaction p) packet (Some result) (Some qmiError) None) in
          if negb (result =? 0) then (Some (ErrAbortRejected qmiError), st) else (None, st)
        | Err e => (Some (ErrAbortResult e), st)
        | Panic => (Some (ErrAbortResult ErrOutOfFuel), st)
        end
      | _ => abort_loop attempts server transaction st
      end
    end
  end.

Definition abortNRScan (server : qrtrServer) (transaction : Z) (st : scanState) : option scanError * scanState :=
  if negb (e_abort_timeout env) then (Some ErrAbortTimeout, st) else
  match makeAbortRequest transaction with
  | Ok request =>
    let st := emit st (tx_event "0x00c2" transaction request "bounded scan cleanup") in
    let '(ok, st) := sendQRTR st request (mkAddr (SNode server) (SPort server)) in
    if negb ok then (Some ErrAbortSend, st) else abort_loop 12 server transaction st
  | Err e => (Some (ErrAbortRequest e), st)
  | Panic => (Some (ErrAbortRequest ErrOutOfFuel), st)
  end.

(** ** Scan *)

(** The outcome of the receive loop: the returned error, [scanMayBeActive] at
    the return, and the state. *)
Record scanOutcome := mkOutcome { o_err : option scanError; o_active : bool; o_state : scanState }.

(** [scan_loop fuel server responseSeen st]: the receive loop until it
    returns, [None] when the fuel does not reach. *)
Fixpoint scan_loop (fuel : nat) (server : qrtrServer) (responseSeen : bool) (st : scanState) : option scanOutcome :=
  match fuel with
  | O => None
  | S fuel =>
    if e_done env (s_recv st) then
      Some (mkOutcome (if responseSeen then None else Some ErrNotReceived) true st)
    else
    let '(r, st) := recvQRTR st in
    match r with
    | RecvTransient => scan_loop fuel server responseSeen st
    | RecvFatal => Some (mkOutcome (Some ErrScanReceive) true st)
    | Recv from packet =>
      if negb (Node from =? SNode server) || negb (Port from =? SPort server) ||
         bool_decide (length packet < 7)%nat
      then scan_loop fuel server responseSeen st else
      match parseQMIPacket packet with
      | Ok p =>
        if negb (PMessage p =? qmiIncrementalScan) then scan_loop fuel server responseSeen st else
        if PFlags p =? qmiFlagResponse then
          match qmiResult packet with
          | Ok (result, qmiError) =>
            let st := emit st (rx_event "response" "0x0085" (PTransaction p) packet (Some result) (Some qmiError) None) in
            if negb (result =? 0) then Some (mkOutcome (Some (ErrScanRejected qmiError)) false st)
            else scan_loop fuel server true st
          | Err e => Some (mkOutcome (Some (ErrScanResult e)) true st)
          | Panic => Some (mkOutcome (Some (ErrScanResult ErrOutOfFuel)) true st)
          end
        else if PFlags p =? qmiFlagIndication then
          match indicationStatus packet with
          | Ok status =>
            let st := emit st (rx_event "indication" "0x0085" (PTransaction p) packet None None status) in
            if match status with Some v => (v =? 0) || (v =? 2) | None => false end
            then Some (mkOutcome None false st)
            else scan_loop fuel server responseSeen st
          | Err e => Some (mkOutcome (Some (ErrScanStatus e)) true st)
          | Panic => Some (mkOutcome (Some (ErrScanStatus ErrOutOfFuel)) true st)
          end
        else scan_loop fuel server responseSeen st
      | _ => scan_loop fuel server responseSeen st
      end
    end
  end.

(** The deferred function: an unfinished scan is aborted, and the abort's error
    is returned when the scan itself had none. *)
Definition deferred_abort (server : qrtrServer) (o : scanOutcome) : option scanError * scanState :=
  if negb (o_active o) then (o_err o, o_state o) else
  let '(abortErr, st) := abortNRScan server 2 (o_state o) in
  (match o_err o with None => abortErr | e => e end, st).

Definition runRawNRScan (fuel : nat) (arfcns : list Z) (scanType : Z) : option (option scanError * scanState) :=
  let st := mkScan 0 0 [] [] in
  match makeNRIncrementalScanRequest 1 arfcns scanType with
  | Ok request =>
    if negb (e_socket env) then Some (Some ErrSocket, st) else
    if negb (e_timeout env) then Some (Some ErrTimeoutOption, st) else
    match e_name env with
    | None => Some (Some ErrSockName, st)
    | Some local =>
      let '(found, st) := lookupNAS st local in
      match found with
      | inl e => Some (Some e, st)
      | inr server =>
        let st := emit st (tx_event "0x0085" 1 request
                    ("NAS node=" ++ Itoa (SNode server) ++ " port=" ++ Itoa (SPort server))%string) in
        let '(ok, st) := sendQRTR st request (mkAddr (SNode server) (SPort server)) in
        if negb ok then Some (Some ErrScanSend, st) else
        o ← scan_loop fuel server false st;
        mret (deferred_abort server o)
      end
    end
  | Err e => Some (Some (ErrRequest e), st)
  | Panic => Some (Some (ErrRequest ErrOutOfFuel), st)
  end.

(** ** Predicates of the statements *)

Definition server_addr (server : qrtrServer) : sockaddrQRTR := mkAddr (SNode server) (SPort server).

(** The modem itself ended the scan: the last event is a final indication, or the
    refusal of the request. *)
Definition scan_finished (st : scanState) : Prop :=
  exists ev, last (s_events st) = Some ev /\ Direction ev = "rx"%string /\ MessageID ev = "0x0085"%string /\
    (ScanStatus ev = Some 0 \/ ScanStatus ev = Some 2).
Definition scan_refused (st : scanState) : Prop :=
  exists ev, last (s_events st) = Some ev /\ Direction ev = "rx"%string /\ MessageID ev = "0x0085"%string /\
    exists r, Result ev = Some r /\ r <> 0.

(** The abort could not be sent: its time-out could not be set, or the third
    [sendto] (after the lookup and the scan) failed. *)
Definition abort_impossible : Prop := e_abort_timeout env = false \/ e_send env 2 = false.

(** The abort request was acknowledged without error. *)
Definition abort_acknowledged (st : scanState) : Prop :=
  exists ev, last (s_events st) = Some ev /\ Direction ev = "rx"%string /\ MessageID ev = "0x00c2"%string /\
    Result ev = Some 0.

End Scan.

(** A socket on which the NAS service answers: it accepts the scan, the context
    is done before the fourth receive, and it acknowledges the abort. *)
Definition sample_env : environment :=
  mkEnv true true (Some (mkAddr 1 77)) (fun _ => true)
    (fun n => nth n
       [RecvTransient;
        Recv (mkAddr 1 0xfffffffe)
          (put_u32 qrtrTypeNewServ ++ put_u32 nasService ++ put_u32 0x101 ++ put_u32 5 ++ put_u32 42);
        Recv (mkAddr 5 42) [2; 1; 0; 0x85; 0; 7; 0; 2; 4; 0; 0; 0; 0; 0];
        Recv (mkAddr 5 42) [2; 2; 0; 0xc2; 0; 7; 0; 2; 4; 0; 0; 0; 0; 0]] RecvTransient)
    (fun n => (3 <=? n)%nat) true.

(** * The loops *)

Section ScanFacts.
Context (env : environment).

Lemma lookup_loop_state n st r st' :
  lookup_loop env n st = (r, st') -> s_sent st' = s_sent st /\ s_tried st' = s_tried st.
Proof.
  revert st. induction n as [|n IH]; intros st H; cbn [lookup_loop recvQRTR] in H.
  - by injection H as _ <-.
  - destruct (e_recv env (s_recv st)) as [| |from packet]; [by apply IH in H|by injection H as _ <-|].
    destruct (server_of packet) as [[server|]| |]; [by injection H as _ <-|by apply IH in H..].
Qed.

Lemma abort_loop_state n server tx st err st' :
  abort_loop env n server tx st = (err, st') ->
  s_sent st' = s_sent st /\ (err = None -> abort_acknowledged st').
Proof.
  revert st. induction n as [|n IH]; intros st H; cbn [abort_loop recvQRTR] in H.
  - by injection H as <- <-.
  - destruct (e_recv env (s_recv st)) as [| |from packet]; [by apply IH in H|by injection H as <- <-|].
    destruct (_ || _ || _); [by apply IH in H|].
    destruct (parseQMIPacket packet) as [p| |]; [|by apply IH in H..].
    destruct (_ || _ || _); [by apply IH in H|].
    destruct (qmiResult packet) as [[result error]|e|]; [|by injection H as <- <-..].
    destruct (result =? 0) eqn:Hr; cbn [negb] in H; injection H as <- <-; [|done].
    bool_to_prop. subst result. split; [done|]. intros _. unfold abort_acknowledged, emit. cbn [s_events].
    rewrite last_snoc. by eexists.
Qed.

Lemma abort_request tx : makeAbortRequest tx = Ok (0 :: put_u16 tx ++ [0xc2; 0; 0; 0]).
Proof. unfold makeAbortRequest. rewrite makeQMIRequest_ok; [done|constructor|unfold tlvs_length; simpl; lia]. Qed.

Lemma abort_state server tx st err st' :
  abortNRScan env server tx st = (err, st') ->
  (s_sent st' = s_sent st /\ err <> None /\ (e_abort_timeout env = false \/ e_send env (s_tried st) = false)) \/
  (exists request, makeAbortRequest tx = Ok request /\
     s_sent st' = s_sent st ++ [(server_addr server, request)] /\ (err = None -> abort_acknowledged st')).
Proof.
  unfold abortNRScan. destruct (e_abort_timeout env); cbn [negb]; [|intros [= <- <-]; left; auto].
  rewrite abort_request. unfold sendQRTR. cbn [emit s_tried s_sent].
  destruct (e_send env (s_tried st)); cbn [negb]; [|intros [= <- <-]; left; auto].
  intros H. apply abort_loop_state in H as [Hs Ha]. right. eexists. split; [done|].
  split; [exact Hs|done].
Qed.

Lemma scan_loop_state fuel server seen st o :
  scan_loop env fuel server seen st = Some o ->
  s_sent (o_state o) = s_sent st /\ s_tried (o_state o) = s_tried st /\
  (o_active o = false -> scan_finished (o_state o) \/ scan_refused (o_state o) /\ o_err o <> None).
Proof.
  revert seen st. induction fuel as [|fuel IH]; intros seen st H; cbn [scan_loop recvQRTR] in H; [done|].
  destruct (e_done env (s_recv st)); [by injection H as <-|].
  destruct (e_recv env (s_recv st)) as [| |from packet]; [by apply IH in H|by injection H as <-|].
  destruct (_ || _ || _); [by apply IH in H|].
  destruct (parseQMIPacket packet) as [p| |]; [|by apply IH in H..].
  destruct (PMessage p =? qmiIncrementalScan); cbn [negb] in H; [|by apply IH in H].
  destruct (PFlags p =? qmiFlagResponse).
  - destruct (qmiResult packet) as [[result error]|e|]; [|by injection H as <-..].
    destruct (result =? 0) eqn:Hr; cbn [negb] in H; [by apply IH in H|]. injection H as <-.
    bool_to_prop. split_and!; [done..|]. intros _. right. split; [|done]. unfold scan_refused, emit. cbn [o_state s_events].
    rewrite last_snoc. eexists. split_and!; [done..|]. by eexists.
  - destruct (PFlags p =? qmiFlagIndication); [|by apply IH in H].
    destruct (indicationStatus packet) as [status|e|]; [|by injection H as <-..].
    destruct (match status with Some v => _ | None => false end) eqn:Hs; [|by apply IH in H].
    injection H as <-. split_and!; [done..|]. intros _. left. unfold scan_finished, emit. cbn [o_state s_events].
    rewrite last_snoc. eexists. split_and!; [done..|]. cbn [ScanStatus].
    destruct status as [v|]; [|done]. apply orb_true_iff in Hs as [Hs|Hs]; bool_to_prop; subst v; auto.
Qed.

Lemma scan_loop_total N k server seen st :
  (forall n, (N <= n)%nat -> e_done env n = true) -> (N <= s_recv st + k)%nat ->
  exists o, scan_loop env (S k) server seen st = Some o.
Proof.
  intros Hdone. revert seen st. induction k as [|k IH]; intros seen st Hle.
  - cbn [scan_loop]. rewrite Hdone by lia. by eexists.
  - remember (S k) as k' eqn:Hk'. cbn [scan_loop recvQRTR]. subst k'.
    destruct (e_done env (s_recv st)) eqn:Hd; [by eexists|].
    assert (Hnext : forall b evs, exists o, scan_loop env (S k) server b
              (mkScan (S (s_recv st)) (s_tried st) (s_sent st) evs) = Some o).
    { intros b evs. apply IH. cbn [s_recv]. lia. }
    repeat (case_match; try (by eexists); try apply Hnext).
Qed.

Lemma lookup_state st local found st' :
  lookupNAS env st local = (found, st') ->
  (s_sent st' = s_sent st /\ found = inl ErrLookupSend) \/
  (s_sent st' = s_sent st ++ [(mkAddr (Node local) qrtrPortCtrl, lookup_request)] /\ s_tried st' = S (s_tried st)).
Proof.
  unfold lookupNAS. generalize 64%nat. intros attempts.
  assert (Hne : exists v rest, lookup_request = v :: rest) by by eexists _, _.
  destruct Hne as (v & rest & ->). cbn [sendQRTR].
  destruct (e_send env (s_tried st)); cbn [negb].
  - intros H. apply lookup_loop_state in H as [Hs Ht]. by right.
  - intros [= <- <-]. by left.
Qed.

Lemma send_state st payload address ok st' :
  payload <> [] -> sendQRTR env st payload address = (ok, st') ->
  s_sent st' = (if ok then s_sent st ++ [(address, payload)] else s_sent st) /\ s_tried st' = S (s_tried st).
Proof.
  destruct payload as [|v rest]; [done|]. cbn [sendQRTR]. intros _.
  destruct (e_send env (s_tried st)); by intros [= <- <-].
Qed.

(** The outcome of a run, by how far it got. *)
Lemma run_cases fuel arfcns scanType err st :
  runRawNRScan env fuel arfcns scanType = Some (err, st) ->
  (err <> None /\ (length (s_sent st) <= 1)%nat) \/
  exists request server,
    makeNRIncrementalScanRequest 1 arfcns scanType = Ok request /\
    let scan := (server_addr server, request) in
    ((exists lookup, s_sent st = [lookup; scan]) /\ (scan_finished st \/ err <> None /\ (scan_refused st \/ abort_impossible env))) \/
    (exists lookup abort, s_sent st = [lookup; scan; (server_addr server, abort)] /\
       makeAbortRequest 2 = Ok abort /\ (err = None -> abort_acknowledged st)).
Proof.
  unfold runRawNRScan. set (st0 := mkScan 0 0 [] []).
  assert (H0 : s_sent st0 = []) by reflexivity. assert (Ht0 : s_tried st0 = 0%nat) by reflexivity. clearbody st0.
  destruct (makeNRIncrementalScanRequest 1 arfcns scanType) as [request|e|] eqn:Hreq;
    [|intros [= <- <-]; left; rewrite H0; split; [done|simpl; lia]..].
  destruct (e_socket env); cbn [negb]; [|intros [= <- <-]; left; rewrite H0; split; [done|simpl; lia]].
  destruct (e_timeout env); cbn [negb]; [|intros [= <- <-]; left; rewrite H0; split; [done|simpl; lia]].
  destruct (e_name env) as [local|]; [|intros [= <- <-]; left; rewrite H0; split; [done|simpl; lia]].
  destruct (lookupNAS env st0 local) as [found st1] eqn:Hlookup.
  apply lookup_state in Hlookup. rewrite H0 in Hlookup. cbn [app] in Hlookup.
  destruct found as [e|server].
  { intros [= <- <-]. left. split; [done|]. destruct Hlookup as [[-> _]|[-> _]]; simpl; lia. }
  destruct Hlookup as [[_ ?]|[H1 Ht1]]; [done|]. revert H1. generalize (mkAddr (Node local) qrtrPortCtrl, lookup_request).
  intros lookup H1. destruct (sendQRTR _ _ _ _) as [ok st2] eqn:Hsend.
  apply send_state in Hsend as [Hsend Ht2]; [|by eapply parse_not_empty]. cbn [emit s_sent s_tried] in Hsend, Ht2.
  rewrite H1 in Hsend. rewrite Ht1, Ht0 in Ht2.
  destruct ok; cbn [negb]; [|intros [= <- <-]; left; rewrite Hsend; split; [done|simpl; lia]].
  destruct (scan_loop _ _ _ _ _) as [o|] eqn:Hloop; [|done]. cbn [mbind option_bind mret option_ret].
  intros [= Hd]. apply scan_loop_state in Hloop as (Hs & Ht & Hfin). rewrite Hsend in Hs. rewrite Ht2 in Ht.
  right. exists request, server. split; [done|]. unfold deferred_abort in Hd.
  destruct (o_active o); cbn [negb] in Hd.
  - destruct (abortNRScan env server 2 (o_state o)) as [aerr st3] eqn:Ha. injection Hd as <- <-.
    apply abort_state in Ha as [(Hs2 & Hne & Himp)|(ab & Hab & Hs2 & Hack)].
    + left. split; [exists lookup; by rewrite Hs2|]. right. rewrite Ht in Himp. split; [by destruct (o_err o)|by right].
    + right. exists lookup, ab. split_and!; [by rewrite Hs2, Hs|done|].
      intros Herr. apply Hack. by destruct (o_err o).
  - injection Hd as <- <-. left. split; [by exists lookup|]. destruct (Hfin eq_refl) as [?|[? ?]]; [by left|right; auto].
Qed.

End ScanFacts.

(** C38: The probe never leaves a scan running in silence: when it returns, either
    no scan request was sent and an error says why; or the modem ended the scan
    with a final indication; or it refused the request, or the abort could not be
    sent, and the run fails; or the abort request was sent to the same server as
    the last datagram, after the scan and the lookup.  A run without error ended
    with the modem's final indication or with an acknowledged abort. *)
Theorem scan_never_left_running (env : environment) (fuel : nat) (arfcns : list Z) (scanType : Z)
    (err : option scanError) (st : scanState) :
  runRawNRScan env fuel arfcns scanType = Some (err, st) ->
  ((err <> None /\ (length (s_sent st) <= 1)%nat) \/
   exists request server,
     makeNRIncrementalScanRequest 1 arfcns scanType = Ok request /\
     let scan := (server_addr server, request) in
     ((exists lookup, s_sent st = [lookup; scan]) /\ (scan_finished st \/ err <> None /\ (scan_refused st \/ abort_impossible env))) \/
     (exists lookup abort, s_sent st = [lookup; scan; (server_addr server, abort)] /\
        makeAbortRequest 2 = Ok abort)) /\
  (err = None -> scan_finished st \/ abort_acknowledged st).
Proof.
  intros H. apply run_cases in H as [[Herr Hl]|(request & server & Hreq & [[Hs Hf]|(lk & ab & Hs & Hab & Hack)])].
  - split; [by left|done].
  - split; [right; exists request, server; split; [done|by left]|].
    intros ->. destruct Hf as [?|[? _]]; [by left|done].
  - split; [right; exists request, server; split; [done|right; by exists lk, ab]|]. intros Herr. right. auto.
Qed.

(** A scan run returns once its context is done, whatever the socket delivers. *)
Theorem runRawNRScan_terminates (env : environment) (N : nat) (arfcns : list Z) (scanType : Z) :
  (forall n, (N <= n)%nat -> e_done env n = true) ->
  exists err st, runRawNRScan env (S N) arfcns scanType = Some (err, st).
Proof.
  intros Hdone. unfold runRawNRScan.
  destruct (makeNRIncrementalScanRequest 1 arfcns scanType); [|by eexists _, _..].
  destruct (negb (e_socket env)); [by eexists _, _|]. destruct (negb (e_timeout env)); [by eexists _, _|].
  destruct (e_name env); [|by eexists _, _].
  destruct (lookupNAS _ _ _) as [[e|server] st]; [by eexists _, _|].
  destruct (sendQRTR _ _ _ _) as [[] st2]; cbn [negb]; [|by eexists _, _].
  destruct (scan_loop_total env N N server false st2 Hdone) as [o ->]; [lia|].
  cbn [mbind option_bind mret option_ret]. destruct (deferred_abort env server o) as [e st3]. by eexists _, _.
Qed.

Lemma scan_never_left_running_witness :
  exists st, runRawNRScan sample_env 4 [504990] 2 = Some (None, st) /\
    length (s_sent st) = 3%nat /\ (scan_finished st \/ abort_acknowledged st).
Proof.
  assert (H : exists st, runRawNRScan sample_env 4 [504990] 2 = Some (None, st) /\ length (s_sent st) = 3%nat)
    by (eexists; split; [vm_compute; reflexivity|reflexivity]).
  destruct H as (st & H & Hl). exists st. split; [exact H|]. split; [exact Hl|].
  apply (scan_never_left_running _ _ _ _ _ _ H). reflexivity.
Defined.

Lemma runRawNRScan_terminates_witness :
  (forall n, (3 <= n)%nat -> e_done sample_env n = true) /\
  exists err st, runRawNRScan sample_env 4 [504990] 2 = Some (err, st).
Proof.
  assert (H : forall n, (3 <= n)%nat -> e_done sample_env n = true)
    by (intros n Hn; apply Nat.leb_le; exact Hn).
  split; [exact H|]. apply (runRawNRScan_terminates sample_env 3 [504990] 2 H).
Defined.
