(* ===== verification/ProbeTrace.v ===== *)
(** QMI traces of the crossband probe: [src/tools/u60-nr-crossband-probe/diff.go]
    compares the scan requests of two traces, and [qmi_trace.go] reads the
    events of a trace window. *)

From S2P Require Import Prelude.
From S2P Require Import GoInt.
From S2P Require Import GoFloat.
From S2P Require Import GoSort.
From S2P Require Import GoStrings.
From S2P Require Import GoStrconv.
From S2P Require Import Sha256.
From S2P Require Import ProbeModel.
From S2P Require Import ProbeQmi.
Open Scope Z_scope.

(** ** Fields of a line *)

(** The classes [\s] and [A-Za-z0-9_] of [traceFieldPattern]. *)
Definition re_space (c : ascii) : bool :=
  (ord c =? 9) || (ord c =? 10) || (ord c =? 12) || (ord c =? 13) || (ord c =? 32).
Definition re_word (c : ascii) : bool := is_letter c || is_digit c || (ord c =? 95).

(** The maximal runs of characters outside [\s]. *)
Fixpoint re_tokens (cur : list ascii) (l : list ascii) : list (list ascii) :=
  match l with
  | [] => match cur with [] => [] | _ => [rev cur] end
  | c :: l' => if re_space c
               then match cur with [] => re_tokens [] l' | _ => rev cur :: re_tokens [] l' end
               else re_tokens (c :: cur) l'
  end.

Fixpoint take_while {A} (f : A -> bool) (l : list A) : list A :=
  match l with x :: l' => if f x then x :: take_while f l' else [] | [] => [] end.

(** [([A-Za-z0-9_]+)=([^\s]+)] at the start of a token; the value takes the
    rest of the token. *)
Definition match_token (token : list ascii) : option (string * string) :=
  match take_while re_word token, drop_while re_word token with
  | (_ :: _) as key, eq :: ((_ :: _) as value) =>
    if ord eq =? 61 then Some (of_chars key, of_chars value) else None
  | _, _ => None
  end.

Definition is_quote (c : ascii) : bool := ord c =? 34.

(** [FindAllStringSubmatch] and the map built from it: a match starts at the
    line or after one [\s], so every token gives at most one. *)
Definition trace_fields (line : string) : gmap string string :=
  fold_left (fun fields kv => <[kv.1 := TrimFunc is_quote kv.2]> fields)
    (omap match_token (re_tokens [] (chars line))) ∅.

Definition field (fields : gmap string string) (key : string) : string := default ""%string (fields !! key).

(** The padding loop of [normalizeMessage]: at most four zeros are missing. *)
Fixpoint pad_message (fuel : nat) (value : string) : string :=
  match fuel with
  | O => value
  | S fuel => if (strlen value <? 4)%nat then pad_message fuel ("0" ++ value)%string else value
  end.

Definition normalizeMessage (value : string) : string :=
  ("0x" ++ pad_message 4 (TrimPrefix (ToLower (TrimSpace value)) "0x"))%string.

(** ** Lines of a file *)

(** [bufio.Scanner] with [ScanLines] and a buffer of at most 4 MiB: the lines
    without their end, and whether one did not fit. *)
Definition max_line : Z := 4 * 1024 * 1024.

Definition drop_cr (l : list ascii) : list ascii :=
  match rev l with c :: r => if ord c =? 13 then rev r else l | [] => l end.

Definition newline : ascii := chr 10.

Definition scan_lines (data : list ascii) : list string * bool :=
  let segs := split_on newline data in
  let segs := match last segs with Some [] => removelast segs | _ => segs end in
  let fitting := take_while (fun s => Z.of_nat (length s) <? max_line) segs in
  ((fun s => of_chars (drop_cr s)) <$> fitting, negb (length fitting =? length segs)%nat).

(** ** Differences of two traces *)

Record traceRequest := mkTraceRequest {
  QLine : nat; QEvent : string; QService : string; QMessage : string; QCaller : string; QRaw : string;
  QTLVs : gmap string string; QHasChannel : bool }.

Inductive traceError := ErrRawHex (line : nat) | ErrRawTLV (line : nat) (e : qmiError) | ErrLongLine.

Definition tlv_key (type : Z) : string := ("0x" ++ hex_EncodeToString [type])%string.

Definition add_tlv (st : gmap string string * bool) (tlv : qmiTLV) : gmap string string * bool :=
  (<[tlv_key (TType tlv) := hex_EncodeToString (TValue tlv)]> st.1, (TType tlv =? 0x1d) || st.2).

(** One line of [extract0085Requests]. *)
Definition extract_line (st : nat * list traceRequest) (line : string) : go traceError (nat * list traceRequest) :=
  let lineNumber := S st.1 in
  let fields := trace_fields line in
  if negb (bool_decide (field fields "service" = "3"%string)) ||
     negb (EqualFold (field fields "kind") "REQ") ||
     negb (bool_decide (normalizeMessage (field fields "msg") = "0x0085"%string)) ||
     negb (bool_decide (field fields "event" = "TX_IDL_ENCODE"%string))
  then mret (lineNumber, st.2) else
  let raw := field fields "raw" in
  match hex_DecodeString raw with
  | None => Err (ErrRawHex lineNumber)
  | Some payload =>
    match parseTLVPayload payload with
    | Ok tlvs =>
      let '(map, hasChannel) := fold_left add_tlv tlvs (∅, false) in
      mret (lineNumber, st.2 ++ [mkTraceRequest lineNumber (field fields "event") (field fields "service")
                                   "0x0085" (field fields "caller") raw map hasChannel])
    | Err e => Err (ErrRawTLV lineNumber e)
    | Panic => Panic
    end
  end.

Definition extract0085Requests (data : string) : go traceError (list traceRequest) :=
  let '(lines, too_long) := scan_lines (chars data) in
  st ← go_fold extract_line (0%nat, []) lines;
  if too_long : bool then Err ErrLongLine else mret st.2.

(** [diffTLVs]: the two maps are iterated in an unspecified order, [left_order]
    and [right_order]. *)
Definition diff_left (right : gmap string string) (acc : list string * list string) (kv : string * string)
    : list string * list string :=
  match right !! kv.1 with
  | None => (acc.1 ++ [kv.1], acc.2)
  | Some other => if bool_decide (kv.2 = other) then acc else (acc.1, acc.2 ++ [kv.1])
  end.

Definition diff_right (left : gmap string string) (acc : list string) (kv : string * string) : list string :=
  match left !! kv.1 with None => acc ++ [kv.1] | Some _ => acc end.

Definition diffTLVs `{SortSlice} (left right : gmap string string) (left_order right_order : list (string * string))
    : list string * list string * list string :=
  let '(leftOnly, different) := fold_left (diff_left right) left_order ([], []) in
  let rightOnly := fold_left (diff_right left) right_order [] in
  (sort_Strings leftOnly, sort_Strings rightOnly, sort_Strings different).

Record qmiDiffReport := mkDiff {
  DManual : list traceRequest; DQCRIL : list traceRequest; DFirstRawEqual : bool;
  DManualOnly : list string; DQCRILOnly : list string; DDifferent : list string }.

Inductive diffError := ErrTrace (e : traceError) | ErrMissingRequest (manual qcril : nat).

(** [runDiffQMI] between reading the two files and writing the report. *)
Definition runDiffQMI `{SortSlice} (order : gmap string string -> list (string * string))
    (manual_data qcril_data : string) : go diffError qmiDiffReport :=
  manual ← map_err ErrTrace (extract0085Requests manual_data);
  qcril ← map_err ErrTrace (extract0085Requests qcril_data);
  match manual, qcril with
  | m :: _, q :: _ =>
    let '(leftOnly, rightOnly, different) := diffTLVs (QTLVs m) (QTLVs q) (order (QTLVs m)) (order (QTLVs q)) in
    mret (mkDiff manual qcril (bool_decide (QRaw m = QRaw q)) leftOnly rightOnly different)
  | _, _ => Err (ErrMissingRequest (length manual) (length qcril))
  end.

(** ** Events of a trace window *)

Fixpoint firstUint16 (fields : gmap string string) (keys : list string) : option Z :=
  match keys with
  | [] => None
  | key :: keys =>
    let value := TrimSpace (field fields key) in
    if bool_decide (value = ""%string) then firstUint16 fields keys else
    match ParseUint0 value 16 with
    | Some parsed => Some parsed
    | None => firstUint16 fields keys
    end
  end.

(** The time of a line: its first word as seconds; the zero [time.Time], one
    of the year 1, gives way to the clock. *)
Definition event_time (line : string) : option (Z * Z) :=
  match Fields line with
  | [] => None
  | first :: _ =>
    seconds ← ParseFloat first;
    let whole := f_trunc seconds in
    let nanos := f_trunc (fmul (fsub seconds (f_of_Z whole)) (f_of_Z 1000000000)) in
    if whole * 1000000000 + nanos =? -62135596800 * 1000000000 then None else Some (whole, nanos)
  end.

Definition parseCCITraceEvent (line : string) : option qmiEvent :=
  let fields := trace_fields line in
  let kind := ToUpper (field fields "kind") in
  if bool_decide (field fields "service" = ""%string) || bool_decide (field fields "msg" = ""%string) ||
     (negb (bool_decide (kind = "REQ"%string)) && negb (bool_decide (kind = "RESP"%string)) &&
      negb (bool_decide (kind = "IND"%string)))
  then None else
  let request := bool_decide (kind = "REQ"%string) in
  let raw := field fields "raw" in
  Some (mkEvent (event_time line) (field fields "service") (field fields "event")
    (if request then "tx" else "rx")
    (if request then "request" else if bool_decide (kind = "RESP"%string) then "response" else "indication")
    (normalizeMessage (field fields "msg"))
    (default 0 (firstUint16 fields ["txn"; "transaction"]%string))
    (field fields "caller")
    (if bool_decide (raw = ""%string) then field fields (if request then "req_c" else "resp_c") else raw)
    (firstUint16 fields ["qmi_result"; "result"]%string)
    (firstUint16 fields ["qmi_error"; "error"]%string)
    None
    (if bool_decide (field fields "rc" = ""%string) then "" else ("rc=" ++ field fields "rc")%string)).

(** [readCCITraceEvents] on the contents of the file; an offset outside of it
    stands for a truncated log, which is read from the start. *)
Definition readCCITraceEvents (data : string) (offset : Z) : list qmiEvent * bool :=
  let bytes := chars data in
  let offset := if (offset <? 0) || (Z.of_nat (length bytes) <? offset) then 0 else offset in
  let '(lines, too_long) := scan_lines (drop (Z.to_nat offset) bytes) in
  (omap parseCCITraceEvent lines, too_long).

Definition hasQMIRequest (events : list qmiEvent) (service message : string) : bool :=
  let message := normalizeMessage message in
  existsb (fun e => bool_decide (Service e = service) && bool_decide (Direction e = "tx"%string) &&
                    bool_decide (Kind e = "request"%string) && bool_decide (MessageID e = message)) events.

Inductive windowError := ErrEmptyPath | ErrNoEvents.

Definition validateCCITraceWindow (path : string) (events : list qmiEvent) : option windowError :=
  if bool_decide (TrimSpace path = ""%string) then Some ErrEmptyPath else
  match events with [] => Some ErrNoEvents | _ => None end.

Definition lines_of (ls : list string) : string := String.concat (String newline "") ls.

Example events_from_offset :
  let old := "1786582158.000000 pid=1 event=TX_IDL_ENCODE service=3 kind=REQ msg=0x0043 raw="%string in
  let request := "1786582158.814164 pid=469 event=TX_IDL_ENCODE service=3 kind=REQ msg=0x0085 rc=0 caller=libqmi.so raw=10010010"%string in
  let response := "1786582158.900000 pid=469 event=RX_IDL_DECODE service=3 kind=RESP msg=0x0085 qmi_result=0 qmi_error=0 raw=02040000000000"%string in
  let r := readCCITraceEvents (lines_of [old; request; response; ""%string])
             (Z.of_nat (S (strlen old))) in
  ((fun e => (Direction e, Result e, Error e)) <$> r.1, r.2, hasQMIRequest r.1 "3" "0x0085") =
  ([("tx"%string, None, None); ("rx"%string, Some 0, Some 0)], false, true).
Proof. vm_compute. reflexivity. Qed.

Example extract_request :
  let line := "1 event=TX_IDL_ENCODE service=3 kind=REQ msg=0x0085 caller=qcril raw=100100101d0500019eb40700"%string in
  match extract0085Requests line with
  | Ok [r] => (QHasChannel r, QTLVs r !! "0x1d"%string)
  | _ => (false, None)
  end = (true, Some "019eb40700"%string).
Proof. vm_compute. reflexivity. Qed.

(** * Differences *)

(** The two selections of [diffTLVs], on one entry. *)
Definition only_in (other : gmap string string) (kv : string * string) : option string :=
  match other !! kv.1 with None => Some kv.1 | Some _ => None end.

Definition differs (other : gmap string string) (kv : string * string) : option string :=
  match other !! kv.1 with
  | Some value => if bool_decide (kv.2 = value) then None else Some kv.1
  | None => None
  end.

Lemma diff_left_fold right l acc :
  fold_left (diff_left right) l acc = (acc.1 ++ omap (only_in right) l, acc.2 ++ omap (differs right) l).
Proof.
  revert acc. induction l as [|kv l IH]; intros [a b]; cbn [fold_left omap list_omap].
  - by rewrite !app_nil_r.
  - rewrite IH. unfold diff_left, only_in at 2, differs at 2. cbn [fst snd].
    destruct (right !! kv.1) as [other|]; cbn [fst snd].
    + case_bool_decide; cbn [fst snd]; [done|]. by rewrite <- app_assoc.
    + by rewrite <- app_assoc.
Qed.

Lemma diff_right_fold left l acc :
  fold_left (diff_right left) l acc = acc ++ omap (only_in left) l.
Proof.
  revert acc. induction l as [|kv l IH]; intros acc; cbn [fold_left omap list_omap].
  - by rewrite app_nil_r.
  - rewrite IH. unfold diff_right, only_in at 2. destruct (left !! kv.1); [done|]. by rewrite <- app_assoc.
Qed.

Section Diff.
Context `{SortSlice}.

Lemma elem_of_diff (m : gmap string string) order (f : string * string -> option string) k :
  order ≡ₚ map_to_list m -> (forall kv k', f kv = Some k' -> k' = kv.1) ->
  k ∈ sort_Strings (omap f order) <-> exists v, m !! k = Some v /\ f (k, v) = Some k.
Proof.
  intros Hp Hf. unfold sort_Strings. rewrite elem_of_sortSlice, list_elem_of_omap. split.
  - intros ([k' v] & Hin & Hk). pose proof (Hf _ _ Hk) as ->. exists v.
    rewrite Hp in Hin. by apply elem_of_map_to_list in Hin.
  - intros (v & Hm & Hk). exists (k, v). split; [|done]. rewrite Hp. by apply elem_of_map_to_list.
Qed.

Lemma elem_of_only (m other : gmap string string) order k :
  order ≡ₚ map_to_list m ->
  k ∈ sort_Strings (omap (only_in other) order) <-> is_Some (m !! k) /\ other !! k = None.
Proof.
  intros Hp. rewrite (elem_of_diff m) by (done || (unfold only_in; intros; by case_match; simplify_eq)).
  unfold only_in. cbn [fst]. split.
  - intros (v & -> & Hk). split; [by eexists|]. by destruct (other !! k).
  - intros [[v ->] ->]. by exists v.
Qed.

Lemma elem_of_differs (m other : gmap string string) order k :
  order ≡ₚ map_to_list m ->
  k ∈ sort_Strings (omap (differs other) order) <->
  exists v w, m !! k = Some v /\ other !! k = Some w /\ v <> w.
Proof.
  intros Hp. rewrite (elem_of_diff m) by (done || (unfold differs; intros; repeat case_match; by simplify_eq)).
  unfold differs. cbn [fst snd]. split.
  - intros (v & Hv & Hk). destruct (other !! k) as [w|]; [|done]. case_bool_decide; [done|]. by exists v, w.
  - intros (v & w & -> & -> & Hne). exists v. split; [done|]. by rewrite bool_decide_eq_false_2.
Qed.

(** No key is reported exactly when the maps are equal. *)
Lemma no_difference (left right : gmap string string) :
  (forall k, ~ (is_Some (left !! k) /\ right !! k = None)) ->
  (forall k, ~ (is_Some (right !! k) /\ left !! k = None)) ->
  (forall k, ~ exists v w, left !! k = Some v /\ right !! k = Some w /\ v <> w) -> left = right.
Proof.
  intros H1 H2 H3. apply map_eq. intros k. specialize (H1 k). specialize (H2 k). specialize (H3 k).
  destruct (left !! k) as [v|], (right !! k) as [w|]; [|exfalso; eauto..|done].
  f_equal. destruct (decide (v = w)) as [|Hne]; [done|]. exfalso. eauto 6.
Qed.

(** The comparison of two TLV maps is exact and does not depend on the order in
    which the maps are iterated: the first list are the keys of the left map
    only, the second those of the right map only, the third the common keys
    with different values, each sorted; all are empty exactly when the maps are
    equal. *)
Theorem diffTLVs_spec (left right : gmap string string) (lo ro lo' ro' : list (string * string)) :
  lo ≡ₚ map_to_list left -> ro ≡ₚ map_to_list right -> lo' ≡ₚ lo -> ro' ≡ₚ ro ->
  let '(leftOnly, rightOnly, different) := diffTLVs left right lo ro in
  diffTLVs left right lo' ro' = (leftOnly, rightOnly, different) /\
  (forall k, k ∈ leftOnly <-> is_Some (left !! k) /\ right !! k = None) /\
  (forall k, k ∈ rightOnly <-> is_Some (right !! k) /\ left !! k = None) /\
  (forall k, k ∈ different <-> exists v w, left !! k = Some v /\ right !! k = Some w /\ v <> w) /\
  Forall (StronglySorted (fun x y => string_less y x = false)) [leftOnly; rightOnly; different] /\
  (leftOnly = [] /\ rightOnly = [] /\ different = [] <-> left = right).
Proof.
  intros Hlo Hro Hlo' Hro'. unfold diffTLVs. rewrite !diff_left_fold, !diff_right_fold. cbn [fst snd app].
  pose proof (fun k => elem_of_only left right lo k Hlo) as H1.
  pose proof (fun k => elem_of_only right left ro k Hro) as H2.
  pose proof (fun k => elem_of_differs left right lo k Hlo) as H3.
  split_and!; [|done..| |].
  - rewrite !(sort_Strings_perm (omap _ lo') (omap _ lo)) by by rewrite Hlo'.
    by rewrite (sort_Strings_perm (omap _ ro') (omap _ ro)) by by rewrite Hro'.
  - unfold sort_Strings. repeat constructor; apply sortSlice_sorted, string_less_sw.
  - split.
    + intros (E1 & E2 & E3).
      apply no_difference; intros k Hk; [apply H1 in Hk; rewrite E1 in Hk|apply H2 in Hk; rewrite E2 in Hk|
        apply H3 in Hk; rewrite E3 in Hk]; by apply elem_of_nil in Hk.
    + intros ->. split_and!; apply elem_of_nil_inv; intros k Hk.
      * apply H1 in Hk as [[v Hv] Hn]. congruence.
      * apply H2 in Hk as [[v Hv] Hn]. congruence.
      * apply H3 in Hk as (v & w & Hv & Hw & Hne). congruence.
Qed.

End Diff.

Lemma diffTLVs_spec_witness :
  let left : gmap string string := {["0x10" := "10"; "0x1d" := "019eb40700"]}%string in
  let right : gmap string string := {["0x10" := "10"]}%string in
  diffTLVs left right (map_to_list left) (map_to_list right) = (["0x1d"]%string, [], []) /\
  (forall k, k ∈ ["0x1d"]%string <-> is_Some (left !! k) /\ right !! k = None).
Proof.
  intros left right.
  assert (E : diffTLVs left right (map_to_list left) (map_to_list right) = (["0x1d"]%string, [], []))
    by (vm_compute; reflexivity).
  split; [exact E|].
  pose proof (diffTLVs_spec left right (map_to_list left) (map_to_list right)
    (map_to_list left) (map_to_list right) (Permutation_refl _) (Permutation_refl _)
    (Permutation_refl _) (Permutation_refl _)) as H.
  rewrite E in H. apply H.
Defined.

(** * Hexadecimal text *)

Lemma hex_digit_value v : 0 <= v < 16 -> digit_of 16 (hex_digit v) = Some v.
Proof.
  intros H. assert (Hv : v ∈ seqZ 0 16) by (apply elem_of_seqZ; lia). clear H. revert v Hv.
  apply Forall_forall. cbn. repeat constructor.
Qed.

Lemma hex_roundtrip l : bytes_ok l -> hex_DecodeString (hex_EncodeToString l) = Some l.
Proof.
  unfold hex_DecodeString. induction 1 as [|v l Hv _ IH]; [done|]. unfold in_range in Hv.
  cbn [hex_EncodeToString chars String.list_ascii_of_string hex_pairs].
  assert (Hhi : Z.shiftr v 4 = v / 16) by by rewrite Z.shiftr_div_pow2.
  assert (Hlo : Z.land v 15 = v `mod` 16) by by apply (Z.land_ones v 4).
  rewrite Hhi, Hlo, (hex_digit_value (v / 16)) by (split; [apply Z.div_pos; lia|apply Z.div_lt_upper_bound; lia]).
  cbn [mbind option_bind]. rewrite (hex_digit_value (v `mod` 16)) by (apply Z.mod_pos_bound; lia).
  cbn [mbind option_bind]. rewrite IH. cbn [mbind option_bind mret option_ret].
  f_equal. f_equal. rewrite <- Z.div_mod by lia. done.
Qed.

Definition hex_char (c : ascii) : bool := negb (re_space c) && negb (is_quote c).

Lemma hex_chars l : bytes_ok l -> Forall (fun c => hex_char c = true) (chars (hex_EncodeToString l)).
Proof.
  assert (Hd : forall v, 0 <= v < 16 -> hex_char (hex_digit v) = true).
  { intros v H. assert (Hv : v ∈ seqZ 0 16) by (apply elem_of_seqZ; lia). clear H. revert v Hv.
    apply Forall_forall. cbn. repeat constructor. }
  induction 1 as [|v l Hv _ IH]; [constructor|]. unfold in_range in Hv.
  cbn [hex_EncodeToString chars String.list_ascii_of_string]. constructor; [|constructor; [|done]]; apply Hd.
  - rewrite Z.shiftr_div_pow2 by lia. split; [apply Z.div_pos; lia|apply Z.div_lt_upper_bound; lia].
  - change 15 with (Z.ones 4). rewrite Z.land_ones by lia. apply Z.mod_pos_bound. lia.
Qed.

(** * Lines *)

Lemma re_tokens_word cur tok sp rest :
  Forall (fun c => re_space c = false) tok -> re_space sp = true -> cur <> [] \/ tok <> [] ->
  re_tokens cur (tok ++ sp :: rest) = (rev cur ++ tok) :: re_tokens [] rest.
Proof.
  intros Htok Hsp. revert cur. induction Htok as [|c tok Hc _ IH]; intros cur Hne; cbn [app re_tokens].
  - rewrite Hsp, app_nil_r. destruct cur; [by destruct Hne|done].
  - rewrite Hc, IH by by left. cbn [rev]. by rewrite <- app_assoc.
Qed.

(** A field the pattern matches as written. *)
Definition kv_ok (kv : string * string) : Prop :=
  kv.1 <> ""%string /\ Forall (fun c => re_word c = true) (chars kv.1) /\
  kv.2 <> ""%string /\ Forall (fun c => re_space c = false) (chars kv.2).

Definition kv_chars (kv : string * string) : list ascii := chars kv.1 ++ chr 61 :: chars kv.2.

(** Fields written one after the other, each followed by a space. *)
Definition render (kvs : list (string * string)) : string :=
  of_chars (flat_map (fun kv => kv_chars kv ++ [chr 32]) kvs).

Lemma word_not_space c : re_word c = true -> re_space c = false.
Proof.
  unfold re_word, re_space, is_letter, is_lower, is_upper, is_digit. intros H.
  repeat (apply orb_false_iff; split); apply Z.eqb_neq; intros E; rewrite E in H; discriminate H.
Qed.

Lemma take_while_app {A} (f : A -> bool) l x r :
  Forall (fun c => f c = true) l -> f x = false ->
  take_while f (l ++ x :: r) = l /\ drop_while f (l ++ x :: r) = x :: r.
Proof.
  intros Hl Hx. induction Hl as [|c l Hc _ [IH1 IH2]]; cbn [app take_while drop_while].
  - by rewrite Hx.
  - by rewrite Hc, IH1, IH2.
Qed.

Lemma match_token_kv kv : kv_ok kv -> match_token (kv_chars kv) = Some kv.
Proof.
  destruct kv as [k v]. intros (Hk & Hkw & Hv & _). cbn [fst snd] in *. unfold match_token, kv_chars.
  cbn [fst snd]. destruct (take_while_app re_word (chars k) (chr 61) (chars v) Hkw eq_refl) as [-> ->].
  destruct (chars k) as [|c0 k0] eqn:Ek; [by apply (chars_inj _ "") in Ek|].
  destruct (chars v) as [|d0 v0] eqn:Ev; [by apply (chars_inj _ "") in Ev|].
  change (ord (chr 61) =? 61) with true. cbv iota.
  by rewrite <- Ek, <- Ev, !String.string_of_list_ascii_of_string.
Qed.

Lemma tokens_render kvs :
  Forall kv_ok kvs -> re_tokens [] (chars (render kvs)) = kv_chars <$> kvs.
Proof.
  intros Hok. unfold render. rewrite String.list_ascii_of_string_of_list_ascii.
  induction Hok as [|kv kvs (Hk & Hkw & Hv & Hvs) _ IH]; [done|].
  cbn [flat_map]. rewrite <- app_assoc. cbn [app]. rewrite re_tokens_word.
  - cbn [rev app fmap list_fmap]. f_equal. exact IH.
  - unfold kv_chars. apply Forall_app. split; [by eapply Forall_impl; [exact Hkw|apply word_not_space]|].
    by constructor.
  - done.
  - right. unfold kv_chars. by destruct (chars kv.1).
Qed.

Lemma fields_fold (l : list (string * string)) (m : gmap string string) :
  fold_left (fun fields kv => <[kv.1 := TrimFunc is_quote kv.2]> fields) l m =
  (TrimFunc is_quote <$> list_to_map (reverse l)) ∪ m.
Proof.
  revert m. induction l as [|[k v] l IH]; intros m; cbn [fold_left].
  - change (list_to_map (reverse [])) with (∅ : gmap string string). by rewrite fmap_empty, (left_id_L ∅ (∪)).
  - rewrite IH, reverse_cons, list_to_map_app, map_fmap_union. cbn [fst snd].
    rewrite <- (assoc _). f_equal. rewrite insert_union_singleton_l. f_equal.
    cbn [list_to_map foldr]. by rewrite insert_empty, map_fmap_singleton.
Qed.

(** A rendered line is read back: the last occurrence of a key gives its value,
    without quotation marks at its ends. *)
Theorem trace_fields_render (kvs : list (string * string)) :
  Forall kv_ok kvs ->
  trace_fields (render kvs) = TrimFunc is_quote <$> (list_to_map (reverse kvs) : gmap string string).
Proof.
  intros Hok. unfold trace_fields. rewrite tokens_render by done.
  assert (Hm : omap match_token (kv_chars <$> kvs) = kvs).
  { induction Hok as [|kv kvs Hkv _ IH]; [done|]. cbn [fmap list_fmap omap list_omap].
    by rewrite match_token_kv, IH. }
  rewrite Hm, fields_fold. by rewrite (right_id ∅ _).
Qed.

(** * A scan request seen by the trace hook *)

(** The fields the hook writes for an encoded NAS request with payload [p]. *)
Definition scan_fields (payload : list Z) : list (string * string) :=
  [("event", "TX_IDL_ENCODE"); ("service", "3"); ("kind", "REQ"); ("msg", "0x0085");
   ("raw", hex_EncodeToString payload)]%string.

Lemma trace_field_last pre kvs k v :
  Forall kv_ok (pre ++ kvs) -> (list_to_map (reverse kvs) : gmap string string) !! k = Some v ->
  Forall (fun c => is_quote c = false) (chars v) ->
  trace_fields (render (pre ++ kvs)) !! k = Some v.
Proof.
  intros Hok Hk Hq. rewrite trace_fields_render by done.
  rewrite reverse_app, list_to_map_app, lookup_fmap, (lookup_union_Some_l _ _ _ v) by done.
  cbn [fmap option_fmap option_map]. by rewrite TrimFunc_none.
Qed.

Lemma scan_payload_ok arfcns scanType :
  in_range 32 scanType -> Forall (in_range 32) arfcns -> (length arfcns <= 10)%nat ->
  bytes_ok (encode_tlvs (scan_tlvs arfcns scanType)).
Proof.
  intros Hs Hr Hl. unfold scan_tlvs, encode_tlvs. cbn [flat_map]. rewrite app_nil_r.
  assert (Hch : bytes_ok (flat_map put_u32 arfcns)).
  { clear Hl. induction Hr as [|a l _ _ IH]; [constructor|]. cbn [flat_map].
    apply bytes_ok_app. split; [apply put_u32_bytes|done]. }
  repeat (apply bytes_ok_app; split); unfold encode_tlv; cbn [TType TValue];
    try (apply bytes_ok_app; split); auto with bytes; cbn [length];
    bytes_list; auto with bytes; unfold in_range; try lia; done.
Qed.

Lemma scan_payload tx arfcns scanType p :
  Forall (in_range 32) arfcns -> in_range 16 tx -> makeNRIncrementalScanRequest tx arfcns scanType = Ok p ->
  let payload := drop 7 p in
  payload = encode_tlvs (scan_tlvs arfcns scanType) /\ bytes_ok payload /\
  parseTLVPayload payload = Ok (scan_tlvs arfcns scanType) /\ hex_EncodeToString payload <> ""%string.
Proof.
  intros Hr Htx Hp payload. assert (Hpl : payload = encode_tlvs (scan_tlvs arfcns scanType)).
  { destruct (makeNRIncrementalScanRequest_spec tx arfcns scanType Htx Hr) as [Hiff _].
    destruct Hiff as [Hc _]. destruct Hc as (Hn & Hs & Hok); [by rewrite Hp|].
    rewrite scan_request_eq in Hp by done. destruct (scan_tlvs_fit arfcns scanType) as [Hf Hl]; [lia|].
    rewrite makeQMIRequest_ok in Hp by (done || lia). injection Hp as Hp. unfold payload. by rewrite <- Hp. }
  destruct (makeNRIncrementalScanRequest_spec tx arfcns scanType Htx Hr) as [[Hc _] _].
  destruct Hc as (Hn & Hs & Hok); [by rewrite Hp|].
  split_and!; [done| | |].
  - rewrite Hpl. apply scan_payload_ok; [unfold in_range; lia|done|lia].
  - rewrite Hpl. unfold parseTLVPayload. destruct (scan_tlvs_fit arfcns scanType) as [Hf _]; [lia|].
    exact (tlv_loop_encoded _ [] _ [] Hf (le_n _)).
  - by rewrite Hpl.
Qed.

Lemma scan_fields_ok payload :
  bytes_ok payload -> hex_EncodeToString payload <> ""%string -> Forall kv_ok (scan_fields payload).
Proof.
  intros Hb Hne. assert (Hhex : Forall (fun c => re_space c = false) (chars (hex_EncodeToString payload))).
  { eapply Forall_impl; [by apply hex_chars|]. intros c Hc. unfold hex_char in Hc. by bool_to_prop. }
  unfold scan_fields. apply Forall_cons; split; [by repeat constructor|].
  do 3 (apply Forall_cons; split; [by repeat constructor|]). apply Forall_cons; split; [|constructor].
  split_and!; [done|by repeat constructor|done|done].
Qed.

Lemma scan_map arfcns scanType :
  exists m, fold_left add_tlv (scan_tlvs arfcns scanType) (∅, false) = (m, true) /\
    m !! "0x1d"%string = Some (hex_EncodeToString (Z.of_nat (length arfcns) :: flat_map put_u32 arfcns)) /\
    forall k, is_Some (m !! k) <-> k ∈ ["0x10"; "0x11"; "0x18"; "0x19"; "0x1a"; "0x1d"]%string.
Proof.
  unfold scan_tlvs. cbn [fold_left]. unfold add_tlv. cbn [fst snd TType TValue].
  eexists. split; [reflexivity|]. split; [by rewrite lookup_insert_eq|].
  intros k. change (tlv_key 0x10) with "0x10"%string. change (tlv_key 0x11) with "0x11"%string.
  change (tlv_key 0x18) with "0x18"%string. change (tlv_key 0x19) with "0x19"%string.
  change (tlv_key 0x1a) with "0x1a"%string. change (tlv_key 0x1d) with "0x1d"%string.
  rewrite !lookup_insert_is_Some', lookup_empty, !elem_of_cons, elem_of_nil.
  pose proof (is_Some_None (A := string)). intuition congruence.
Qed.

(** A scan request the probe sends is recognised in the trace of the CCI hook,
    whatever other fields the line carries before the ones of the request: the
    comparison tool reads its six TLVs with the channel list in TLV 0x1d, and
    the window reader counts it as a NAS 0x0085 request. *)
Theorem scan_request_recognised (tx : Z) (arfcns : list Z) (scanType : Z) (p : list Z)
    (pre : list (string * string)) (n : nat) (acc : list traceRequest) :
  in_range 16 tx -> Forall (in_range 32) arfcns -> Forall kv_ok pre ->
  makeNRIncrementalScanRequest tx arfcns scanType = Ok p ->
  let line := render (pre ++ scan_fields (drop 7 p)) in
  (exists r, extract_line (n, acc) line = Ok (S n, acc ++ [r]) /\
     QHasChannel r = true /\ QRaw r = hex_EncodeToString (drop 7 p) /\
     QTLVs r !! "0x1d"%string = Some (hex_EncodeToString (Z.of_nat (length arfcns) :: flat_map put_u32 arfcns)) /\
     forall k, is_Some (QTLVs r !! k) <-> k ∈ ["0x10"; "0x11"; "0x18"; "0x19"; "0x1a"; "0x1d"]%string) /\
  exists e, parseCCITraceEvent line = Some e /\ Raw e = hex_EncodeToString (drop 7 p) /\
    hasQMIRequest [e] "3" "0x0085" = true.
Proof.
  intros Htx Hr Hpre Hp line. destruct (scan_payload tx arfcns scanType p Hr Htx Hp) as (Hpl & Hb & Hparse & Hne).
  set (payload := drop 7 p) in *.
  assert (Hok : Forall kv_ok (pre ++ scan_fields payload))
    by (apply Forall_app; split; [done|by apply scan_fields_ok]).
  assert (Hq : Forall (fun c => is_quote c = false) (chars (hex_EncodeToString payload))).
  { eapply Forall_impl; [by apply hex_chars|]. intros c Hc. unfold hex_char in Hc. by bool_to_prop. }
  assert (Hf : forall k v, (list_to_map (reverse (scan_fields payload)) : gmap string string) !! k = Some v ->
            Forall (fun c => is_quote c = false) (chars v) -> field (trace_fields line) k = v).
  { intros k v Hk Hv. unfold field, line. by rewrite (trace_field_last pre _ k v). }
  assert (Hraw : field (trace_fields line) "raw" = hex_EncodeToString payload) by by apply Hf.
  assert (Hservice : field (trace_fields line) "service" = "3"%string) by (apply Hf; [done|by repeat constructor]).
  assert (Hkind : field (trace_fields line) "kind" = "REQ"%string) by (apply Hf; [done|by repeat constructor]).
  assert (Hmsg : field (trace_fields line) "msg" = "0x0085"%string) by (apply Hf; [done|by repeat constructor]).
  assert (Hevent : field (trace_fields line) "event" = "TX_IDL_ENCODE"%string)
    by (apply Hf; [done|by repeat constructor]).
  clear Hf. clearbody line. split.
  - unfold extract_line. rewrite Hservice, Hkind, Hmsg, Hevent, Hraw, hex_roundtrip, Hparse by done.
    destruct (scan_map arfcns scanType) as (m & Hm & Hlk & Hdom).
    cbn [fst snd]. rewrite Hm. eexists. by split_and!.
  - unfold parseCCITraceEvent. rewrite Hservice, Hkind, Hmsg, Hraw.
    eexists. split; [reflexivity|]. split; [|reflexivity]. cbn [Raw]. by rewrite bool_decide_eq_false_2.
Qed.

Lemma scan_request_recognised_witness :
  exists p r, makeNRIncrementalScanRequest 1 [504990] 2 = Ok p /\
    extract_line (0%nat, []) (render ([("pid", "469")]%string ++ scan_fields (drop 7 p))) = Ok (1%nat, [] ++ [r]) /\
    QTLVs r !! "0x1d"%string = Some "019eb40700"%string.
Proof.
  assert (H1 : in_range 16 1) by (unfold in_range; lia).
  assert (H2 : Forall (in_range 32) [504990]) by (apply (bool_decide_unpack _); vm_compute; exact I).
  assert (H3 : Forall kv_ok [("pid", "469")]%string)
    by (constructor; [split; [discriminate|split; [repeat constructor|split; [discriminate|repeat constructor]]]|constructor]).
  assert (Hp : exists p, makeNRIncrementalScanRequest 1 [504990] 2 = Ok p) by (eexists; vm_compute; reflexivity).
  destruct Hp as [p Hp].
  destruct (scan_request_recognised 1 [504990] 2 p _ 0%nat [] H1 H2 H3 Hp) as [(r & Hr & _ & _ & Hch & _) _].
  exists p, r. split; [exact Hp|]. split; [exact Hr|]. exact Hch.
Defined.
