(* ===== verification/ProbeActive.v ===== *)
(** The ML1 result parser of the crossband probe,
    [src/tools/u60-nr-crossband-probe/qmdl.go]: HDLC frames of a QMDL capture,
    the QSH hashes the probe looks for, and the target match. *)

From S2P Require Import Prelude.
From S2P Require Import GoInt.
From S2P Require Import GoFloat.
From S2P Require Import GoSort.
From S2P Require Import GoStrings.
From S2P Require Hdlc.
From S2P Require Import ProbeModel.
From S2P Require Import ProbeQTrace.
Open Scope Z_scope.

Definition activeResultHash : Z := 0xd8f582a8.
Definition foundCellHash : Z := 0xd8fa712c.
Definition arfcnCountHash : Z := 0xf9f48cf1.
Definition nrARFCNHash : Z := 0xf9f48e26.
Definition nr2nrStartHash1 : Z := 0xfa16e120.
Definition nr2nrStartHash2 : Z := 0xfa16e20f.
Definition nr2nrStartHash3 : Z := 0xfa16e581.

Record qmdlMetrics := mkQmdl {
  QSHFrameCount : Z; ActiveHashCount : Z; MalformedFrameCount : Z; QMDLBytes : Z;
  Results : list ml1Result; Evidence : list qshEvidence }.

Definition noQmdl : qmdlMetrics := mkQmdl 0 0 0 0 [] [].

Definition incMalformed (m : qmdlMetrics) := mkQmdl (QSHFrameCount m) (ActiveHashCount m)
  (MalformedFrameCount m + 1) (QMDLBytes m) (Results m) (Evidence m).
Definition incQSH (m : qmdlMetrics) := mkQmdl (QSHFrameCount m + 1) (ActiveHashCount m)
  (MalformedFrameCount m) (QMDLBytes m) (Results m) (Evidence m).
Definition incActive (m : qmdlMetrics) := mkQmdl (QSHFrameCount m) (ActiveHashCount m + 1)
  (MalformedFrameCount m) (QMDLBytes m) (Results m) (Evidence m).
Definition addBytes (n : Z) (m : qmdlMetrics) := mkQmdl (QSHFrameCount m) (ActiveHashCount m)
  (MalformedFrameCount m) (QMDLBytes m + n) (Results m) (Evidence m).
Definition addResult (r : ml1Result) (m : qmdlMetrics) := mkQmdl (QSHFrameCount m) (ActiveHashCount m)
  (MalformedFrameCount m) (QMDLBytes m) (Results m ++ [r]) (Evidence m).
Definition addEvidence (e : qshEvidence) (m : qmdlMetrics) := mkQmdl (QSHFrameCount m) (ActiveHashCount m)
  (MalformedFrameCount m) (QMDLBytes m) (Results m) (Evidence m ++ [e]).

Definition nrBandForARFCN (arfcn : Z) : Z :=
  if (151600 <=? arfcn) && (arfcn <=? 160600) then 28
  else if (499200 <=? arfcn) && (arfcn <=? 537999) then 41 else 0.

Definition is_nr2nr (hash : Z) : bool :=
  (hash =? nr2nrStartHash1) || (hash =? nr2nrStartHash2) || (hash =? nr2nrStartHash3).

Definition qshEvidenceKind (hash : Z) : string :=
  if hash =? foundCellHash then "ml1-found-cell"
  else if hash =? arfcnCountHash then "cm-arfcn-count"
  else if hash =? nrARFCNHash then "cm-nr-arfcn"
  else if is_nr2nr hash then "nr2nr-search-start"
  else "unknown".

(** [float64(raw) / 128]. *)
Definition q7 (raw : Z) : float64 := fdiv (f_of_Z raw) (f_of_Z 128).

Definition decodeActiveResult (words : list Z) (target : targetSpec) : go Empty_set (option ml1Result) :=
  if bool_decide (length words < 9)%nat then mret None else
  pci ← index words 0; arfcn ← index words 1; valid ← index words 2;
  if (1007 <? pci) || (arfcn =? 0) || (3279165 <? arfcn) || negb (valid =? 1) then mret None else
  w3 ← index words 3;
  let rsrp := q7 (i32 w3) in
  if fltb rsrp (f_of_Z (-160)) || fltb (f_of_Z (-20)) rsrp then mret None else
  w5 ← index words 5; w6 ← index words 6; w7 ← index words 7; w8 ← index words 8; w4 ← index words 4;
  let band := if arfcn =? TARFCN target then TBand target else nrBandForARFCN arfcn in
  mret (Some (mkML1 pci arfcn band valid rsrp (i32 w4) (q7 (i32 w5)) (i32 w6) (q7 (i32 w7)) (i32 w8) words)).

(** The evidence of a frame that is not an ML1 result. *)
Definition evidence_of (hash : Z) (words : list Z) : go Empty_set qshEvidence :=
  if (hash =? foundCellHash) && bool_decide (2 <= length words)%nat then
    arfcn ← index words 0; pci ← index words 1;
    mret (mkEvidence hash (qshEvidenceKind hash) (Some arfcn) (Some pci) words)
  else if (hash =? nrARFCNHash) && bool_decide (2 <= length words)%nat then
    arfcn ← index words 1;
    mret (mkEvidence hash (qshEvidenceKind hash) (Some arfcn) None words)
  else if is_nr2nr hash && bool_decide (0 < length words)%nat then
    arfcn ← index words (length words - 1);
    mret (mkEvidence hash (qshEvidenceKind hash)
            (if (0 <? arfcn) && (arfcn <=? 3279165) then Some arfcn else None) None words)
  else mret (mkEvidence hash (qshEvidenceKind hash) None None words).

Definition known_hash (hash : Z) : bool :=
  (hash =? activeResultHash) || (hash =? foundCellHash) || (hash =? arfcnCountHash) ||
  (hash =? nrARFCNHash) || is_nr2nr hash.

Definition read_words (payload : list Z) (wordCount : nat) : go Empty_set (list Z) :=
  go_map (fun i => b ← slice_from payload (16 + i * 4); Uint32 b) (seq 0 wordCount).

Definition consumeQMDLFrame (frame : list Z) (escaped : bool) (target : targetSpec) (m : qmdlMetrics)
    : go Empty_set qmdlMetrics :=
  if escaped || bool_decide (length frame < 18)%nat then mret (incMalformed m) else
  payload ← trim_end 2 frame;
  got ← (b ← slice_from frame (length frame - 2); Uint16 b);
  if negb (got =? diagCRC16 payload) then mret (incMalformed m) else
  b0 ← index payload 0;
  if negb (b0 =? 0x9d) || bool_decide (length payload < 16)%nat then mret m else
  let m := incQSH m in
  b4 ← index payload 4;
  let wordCount := b4 - 0x13 in
  if (wordCount <? 0) || (236 <? wordCount) || (Z.of_nat (length payload) <? 16 + wordCount * 4)
  then mret (incMalformed m) else
  hash ← (b ← slice payload 12 16; Uint32 b);
  if negb (known_hash hash) then mret m else
  words ← read_words payload (Z.to_nat wordCount);
  if hash =? activeResultHash then
    let m := incActive m in
    result ← decodeActiveResult words target;
    mret (match result with Some r => addResult r m | None => m end)
  else
    evidence ← evidence_of hash words;
    mret (addEvidence evidence m).

(** The state of the reader between two bytes. *)
Record readState := mkRead { rd_frame : list Z; rd_escaped : bool; rd_metrics : qmdlMetrics }.

Definition read_byte (target : targetSpec) (st : readState) (value : Z) : go Empty_set readState :=
  if value =? 0x7e then
    match rd_frame st with
    | [] => mret (mkRead [] false (rd_metrics st))
    | frame => m ← consumeQMDLFrame frame (rd_escaped st) target (rd_metrics st);
               mret (mkRead [] false m)
    end
  else if rd_escaped st then mret (mkRead (rd_frame st ++ [Z.lxor value 0x20]) false (rd_metrics st))
  else if value =? 0x7d then mret (mkRead (rd_frame st) true (rd_metrics st))
  else mret (mkRead (rd_frame st ++ [value]) false (rd_metrics st)).

(** [consumeQMDL] on a source that ends without a read error. *)
Definition consumeQMDL (source : list Z) (target : targetSpec) (m : qmdlMetrics) : go Empty_set qmdlMetrics :=
  st ← go_fold (read_byte target) (mkRead [] false m) source;
  mret (rd_metrics st).

(** [analyzeQMDLFiles]: [read path] is the contents of a file, [None] when it
    cannot be opened; the metrics so far are returned with the error. *)
Fixpoint analyze_files (read : string -> option (list Z)) (paths : list string) (target : targetSpec)
    (m : qmdlMetrics) : go Empty_set (qmdlMetrics * option string) :=
  match paths with
  | [] => mret (m, None)
  | path :: paths =>
    match read path with
    | None => mret (m, Some path)
    | Some data => m ← consumeQMDL data target (addBytes (Z.of_nat (length data)) m);
                   analyze_files read paths target m
    end
  end.

Definition analyzeQMDLFiles `{SortSlice} (read : string -> option (list Z)) (paths : list string)
    (target : targetSpec) : go Empty_set (qmdlMetrics * option string) :=
  analyze_files read (sort_Strings paths) target noQmdl.

Definition matchesTargetResult (result : ml1Result) (target : targetSpec) : bool :=
  (RARFCN result =? TARFCN target) &&
  match TPCI target with None => true | Some pci => RPCI result =? pci end.

Definition hasTargetResult (results : list ml1Result) (target : targetSpec) : bool :=
  existsb (fun r => matchesTargetResult r target) results.

Definition countTargetResults (results : list ml1Result) (target : targetSpec) : Z :=
  fold_left (fun count r => if matchesTargetResult r target then count + 1 else count) results 0.

(** [parseTarget] of [main.go]. *)
Inductive targetError := ErrTargetBand (band : Z) | ErrTargetARFCN (arfcn : Z) | ErrTargetPCI (pci : string).

Definition parseTarget (bandValue arfcnValue : Z) (pciValue : string) : go targetError targetSpec :=
  if (bandValue =? 0) || (1024 <? bandValue) then Err (ErrTargetBand bandValue) else
  if (arfcnValue =? 0) || (3279165 <? arfcnValue) then Err (ErrTargetARFCN arfcnValue) else
  if bool_decide (TrimSpace pciValue = ""%string) then mret (mkTarget (u32 bandValue) (u32 arfcnValue) None) else
  match ParseUint (TrimSpace pciValue) 10 32 with
  | None => Err (ErrTargetPCI pciValue)
  | Some value => if 1007 <? value then Err (ErrTargetPCI pciValue)
                  else mret (mkTarget (u32 bandValue) (u32 arfcnValue) (Some (u32 value)))
  end.

(** ** Predicates of the statements *)

(** What every reported result satisfies. *)
Record result_ok (target : targetSpec) (r : ml1Result) : Prop := mkResultOk {
  ro_pci : 0 <= RPCI r <= 1007;
  ro_arfcn : 1 <= RARFCN r <= 3279165;
  ro_valid : RValid r = 1;
  ro_band : RBand r = if RARFCN r =? TARFCN target then TBand target else nrBandForARFCN (RARFCN r);
  ro_rsrp : exists raw, in_range 32 raw /\ RSRP r = q7 (i32 raw) /\
              fltb (RSRP r) (f_of_Z (-160)) = false /\ fltb (f_of_Z (-20)) (RSRP r) = false }.

Record metrics_ok (target : targetSpec) (m : qmdlMetrics) : Prop := mkMetricsOk {
  mo_results : Forall (result_ok target) (Results m);
  mo_evidence : Forall (fun e => EKind e <> "unknown"%string) (Evidence m);
  mo_active : Z.of_nat (length (Results m)) <= ActiveHashCount m;
  mo_frames : ActiveHashCount m + Z.of_nat (length (Evidence m)) <= QSHFrameCount m;
  mo_malformed : 0 <= MalformedFrameCount m }.

(** A QSH frame: twelve header bytes with the tag and the word count, the
    hash and the words. *)
Definition qsh_payload (b1 b2 b3 : Z) (header : list Z) (hash : Z) (words : list Z) : list Z :=
  [0x9d; b1; b2; b3; 0x13 + Z.of_nat (length words)] ++ header ++ put_u32 hash ++ flat_map put_u32 words.

(** An ML1 result frame: header bytes around the words. *)
Record activeFrame := mkActive { af_b1 : Z; af_b2 : Z; af_b3 : Z; af_header : list Z; af_words : list Z }.

Definition active_payload (f : activeFrame) : list Z :=
  qsh_payload (af_b1 f) (af_b2 f) (af_b3 f) (af_header f) activeResultHash (af_words f).

Definition active_ok (f : activeFrame) : Prop :=
  bytes_ok [af_b1 f; af_b2 f; af_b3 f] /\ bytes_ok (af_header f) /\ length (af_header f) = 7%nat /\
  Forall (in_range 32) (af_words f) /\ (length (af_words f) <= 236)%nat.

Definition active_result (target : targetSpec) (f : activeFrame) : option ml1Result :=
  match decodeActiveResult (af_words f) target with Ok r => r | _ => None end.

(** The stream of escaped frames, each followed by the delimiter. *)
Definition qmdl_stream (payloads : list (list Z)) : list Z :=
  flat_map (fun p => Hdlc.hdlcEscape (sealed p) ++ [0x7e]) payloads.

(** * No index out of bounds *)

Lemma word_range payload k w :
  bytes_ok payload -> (b ← @slice_from Empty_set _ payload k; Uint32 b) = Ok w -> in_range 32 w.
Proof.
  intros Hb. unfold slice_from, slice. case_bool_decide as Hk; [|done]. cbn [mbind go_bind].
  assert (Hd : bytes_ok (take (length payload - k) (drop k payload))) by auto with bytes.
  destruct (take _ (drop k payload)) as [|a [|b [|c [|d l]]]]; cbn [Uint32]; try done.
  intros [= <-]. bytes_inv. by apply le32_range.
Qed.

Lemma read_words_spec payload n :
  bytes_ok payload -> (16 + n * 4 <= length payload)%nat ->
  exists words, read_words payload n = Ok words /\ length words = n /\ Forall (in_range 32) words.
Proof.
  intros Hb Hl.
  assert (Ht : total (read_words payload n)).
  { apply total_go_map. intros i Hi. apply elem_of_seq in Hi. apply total_uint32. lia. }
  destruct Ht as [words Hw]. exists words. split; [done|]. apply go_map_inv in Hw. split.
  - apply Forall2_length in Hw. by rewrite length_seq in Hw.
  - apply Forall_forall. intros w Hin. apply list_elem_of_lookup in Hin as [i Hi].
    destruct (Forall2_lookup_r _ _ _ _ _ Hw Hi) as (k & _ & Hk). by eapply word_range.
Qed.

Lemma word_index words i :
  (i < length words)%nat -> Forall (in_range 32) words ->
  exists w, @index Empty_set _ words i = Ok w /\ in_range 32 w.
Proof.
  intros Hl Hw. destruct (@index_in_range Empty_set _ words i Hl) as (w & Hi & Hok).
  exists w. split; [done|]. by eapply Forall_lookup_1.
Qed.

Lemma decodeActiveResult_ok words target :
  Forall (in_range 32) words ->
  exists r, decodeActiveResult words target = Ok r /\ forall x, r = Some x -> result_ok target x.
Proof.
  intros Hw. unfold decodeActiveResult. case_bool_decide as Hl; [by eexists|].
  destruct (word_index words 0 ltac:(lia) Hw) as (pci & -> & Hpci). cbn [mbind go_bind].
  destruct (word_index words 1 ltac:(lia) Hw) as (arfcn & -> & Harfcn). cbn [mbind go_bind].
  destruct (word_index words 2 ltac:(lia) Hw) as (valid & -> & _). cbn [mbind go_bind].
  destruct (_ || _ || _ || _) eqn:Hc; [by eexists|]. bool_to_prop.
  destruct (word_index words 3 ltac:(lia) Hw) as (w3 & -> & H3). cbn [mbind go_bind].
  destruct (fltb (q7 (i32 w3)) _ || fltb _ (q7 (i32 w3))) eqn:Hr; [by eexists|]. bool_to_prop.
  destruct (word_index words 5 ltac:(lia) Hw) as (w5 & -> & _). cbn [mbind go_bind].
  destruct (word_index words 6 ltac:(lia) Hw) as (w6 & -> & _). cbn [mbind go_bind].
  destruct (word_index words 7 ltac:(lia) Hw) as (w7 & -> & _). cbn [mbind go_bind].
  destruct (word_index words 8 ltac:(lia) Hw) as (w8 & -> & _). cbn [mbind go_bind].
  destruct (word_index words 4 ltac:(lia) Hw) as (w4 & -> & _). cbn [mbind go_bind].
  eexists. split; [reflexivity|]. intros x [= <-]. unfold in_range in *.
  constructor; cbn [RPCI RARFCN RValid RBand RSRP]; [lia|lia|done|done|].
  exists w3. split_and!; done.
Qed.

Lemma evidence_of_ok hash words :
  known_hash hash = true -> hash <> activeResultHash ->
  exists e, evidence_of hash words = Ok e /\ EKind e <> "unknown"%string.
Proof.
  intros Hk Hne. assert (Hkind : qshEvidenceKind hash <> "unknown"%string).
  { unfold qshEvidenceKind, known_hash in *. apply Z.eqb_neq in Hne. rewrite Hne in Hk. cbn [orb] in Hk.
    destruct (hash =? foundCellHash); [done|]. destruct (hash =? arfcnCountHash); [done|].
    destruct (hash =? nrARFCNHash); [done|]. cbn [orb] in Hk. by rewrite Hk. }
  unfold evidence_of.
  destruct (_ && bool_decide (2 <= length words)%nat) eqn:H1; bool_to_prop.
  { destruct (@index_in_range Empty_set _ words 0 ltac:(lia)) as (a & _ & ->). cbn [mbind go_bind].
    destruct (@index_in_range Empty_set _ words 1 ltac:(lia)) as (b & _ & ->). cbn [mbind go_bind]. by eexists. }
  destruct ((hash =? nrARFCNHash) && _) eqn:H2; bool_to_prop.
  { destruct (@index_in_range Empty_set _ words 1 ltac:(lia)) as (b & _ & ->). cbn [mbind go_bind]. by eexists. }
  destruct (is_nr2nr hash && _) eqn:H3; bool_to_prop; [|by eexists].
  destruct (@index_in_range Empty_set _ words (length words - 1) ltac:(lia)) as (b & _ & ->).
  cbn [mbind go_bind]. by eexists.
Qed.

Lemma consume_frame_ok frame escaped target m :
  bytes_ok frame -> metrics_ok target m ->
  exists m', consumeQMDLFrame frame escaped target m = Ok m' /\ metrics_ok target m' /\
    QMDLBytes m' = QMDLBytes m.
Proof.
  intros Hb [Hres Hev Hact Hfr Hmal]. unfold consumeQMDLFrame.
  assert (Hbad : metrics_ok target (incMalformed m)) by (constructor; simpl; try done; lia).
  assert (Hgood : metrics_ok target (incQSH m)) by (constructor; simpl; try done; lia).
  assert (Hworse : metrics_ok target (incMalformed (incQSH m))) by (constructor; simpl; try done; lia).
  destruct (escaped || bool_decide (length frame < 18)%nat) eqn:Hs; [by eexists|]. bool_to_prop.
  rewrite trim_end_ok by lia. cbn [mbind go_bind]. set (payload := take (length frame - 2) frame).
  assert (Hlen : length payload = (length frame - 2)%nat) by (unfold payload; rewrite length_take; lia).
  assert (Hp : bytes_ok payload) by (unfold payload; auto with bytes).
  destruct (total_uint16 frame (length frame - 2)) as [got ->]; [lia|]. cbn [mbind go_bind].
  destruct (negb (got =? diagCRC16 payload)); [by eexists|].
  destruct (@index_in_range Empty_set _ payload 0 ltac:(lia)) as (b0 & _ & ->). cbn [mbind go_bind].
  destruct (negb (b0 =? 0x9d) || _); [by eexists|].
  destruct (@index_in_range Empty_set _ payload 4 ltac:(lia)) as (b4 & _ & ->). cbn [mbind go_bind].
  destruct (_ || _ || _) eqn:Hw; [by eexists|]. bool_to_prop.
  destruct (total_slice32 payload 12 16) as [hash ->]; [lia|lia|]. cbn [mbind go_bind].
  destruct (known_hash hash) eqn:Hk; cbn [negb]; [|by eexists].
  destruct (read_words_spec payload (Z.to_nat (b4 - 0x13)) Hp ltac:(lia)) as (words & -> & _ & Hwords).
  cbn [mbind go_bind]. destruct (hash =? activeResultHash) eqn:Ha.
  - destruct (decodeActiveResult_ok words target Hwords) as (r & -> & Hr). cbn [mbind go_bind].
    eexists. split; [reflexivity|]. destruct r as [r|]; (split; [|done]); constructor; simpl; try done; try lia.
    + apply Forall_app. split; [done|]. constructor; [by apply Hr|constructor].
    + rewrite length_app. simpl. lia.
  - bool_to_prop. destruct (evidence_of_ok hash words Hk Ha) as (e & -> & He). cbn [mbind go_bind].
    eexists. split; [reflexivity|]. split; [|done]. constructor; simpl; try done; try lia.
    + apply Forall_app. split; [done|]. by constructor.
    + rewrite length_app. simpl. lia.
Qed.

Lemma consume_ok source target m :
  bytes_ok source -> metrics_ok target m ->
  exists m', consumeQMDL source target m = Ok m' /\ metrics_ok target m' /\ QMDLBytes m' = QMDLBytes m.
Proof.
  intros Hb Hm. unfold consumeQMDL.
  enough (H : forall fr esc m, bytes_ok fr -> metrics_ok target m ->
    exists st, go_fold (read_byte target) (mkRead fr esc m) source = Ok st /\
      metrics_ok target (rd_metrics st) /\ QMDLBytes (rd_metrics st) = QMDLBytes m).
  { destruct (H [] false m (List.Forall_nil _) Hm) as (st & -> & Hst & Hbytes). cbn [mbind go_bind]. by eexists. }
  clear m Hm. induction Hb as [|v source Hv _ IH]; intros fr esc m Hfr Hm; cbn [go_fold]; [by eexists|].
  unfold read_byte at 1. cbn [rd_frame rd_escaped rd_metrics]. destruct (v =? 0x7e).
  - destruct fr as [|x fr]; cbn [mret go_ret]; [by apply IH; [constructor|]|].
    destruct (consume_frame_ok (x :: fr) esc target m Hfr Hm) as (m' & -> & Hm' & Hbytes).
    cbn [mbind go_bind mret go_ret]. rewrite <- Hbytes. apply IH; [constructor|done].
  - destruct esc; [|destruct (v =? 0x7d)]; cbn [mret go_ret]; apply IH; try done.
    + apply bytes_ok_app. split; [done|]. bytes_list. apply lxor_range; done || lia.
    + apply bytes_ok_app. split; [done|]. by bytes_list.
Qed.

Lemma analyze_files_ok read target ps m :
  (forall path data, read path = Some data -> bytes_ok data) -> metrics_ok target m ->
  exists m' err, analyze_files read ps target m = Ok (m', err) /\ metrics_ok target m' /\
    match err with
    | None => (forall path, path ∈ ps -> is_Some (read path)) /\
              QMDLBytes m' = fold_left (fun n path => n + Z.of_nat (length (default [] (read path)))) ps (QMDLBytes m)
    | Some path => path ∈ ps /\ read path = None
    end.
Proof.
  intros Hread. revert m. induction ps as [|path ps IH]; intros m Hm; cbn [analyze_files].
  - eexists _, None. split_and!; [done|done| |done]. intros p Hp. by apply elem_of_nil in Hp.
  - destruct (read path) as [data|] eqn:Hp.
    2:{ eexists _, (Some path). split_and!; [done|done|left|done]. }
    destruct (consume_ok data target (addBytes (Z.of_nat (length data)) m)) as (m' & -> & Hm' & Hbytes).
    { by eapply Hread. } { destruct Hm. by constructor. }
    cbn [mbind go_bind]. destruct (IH m' Hm') as (m2 & err & -> & Hm2 & Herr).
    eexists _, err. split_and!; [done|done|]. destruct err as [e|].
    + destruct Herr as [He Hne]. split; [by right|done].
    + destruct Herr as [Hall Hsum]. split.
      * intros p Hpin. apply elem_of_cons in Hpin as [->|Hpin]; [by eexists|auto].
      * cbn [fold_left]. by rewrite Hsum, Hbytes, Hp.
Qed.

(** The parser accepts every byte stream: it never panics, a missing file is
    the only error, every result it reports passed the validity checks (cell,
    channel, valid flag, power between -160 and -20 dBm) with the band it
    attributes, the counters account for the results and the evidence, and the
    byte count is that of the files read. *)
Theorem analyzeQMDLFiles_sound `{SortSlice} (read : string -> option (list Z)) (paths : list string)
    (target : targetSpec) :
  (forall path data, read path = Some data -> bytes_ok data) ->
  exists m err, analyzeQMDLFiles read paths target = Ok (m, err) /\ metrics_ok target m /\
    match err with
    | None => (forall path, path ∈ paths -> is_Some (read path)) /\
              QMDLBytes m = fold_left (fun n path => n + Z.of_nat (length (default [] (read path))))
                              (sort_Strings paths) 0
    | Some path => path ∈ paths /\ read path = None
    end.
Proof.
  intros Hread. unfold analyzeQMDLFiles.
  assert (Hm : metrics_ok target noQmdl) by (constructor; simpl; try lia; constructor).
  destruct (analyze_files_ok read target (sort_Strings paths) noQmdl Hread Hm) as (m & err & -> & Hm' & Herr).
  exists m, err. split_and!; [done|done|]. destruct err as [path|].
  - destruct Herr as [Hin Hn]. split; [|done]. by apply elem_of_sortSlice in Hin.
  - destruct Herr as [Hall Hsum]. split; [|done]. intros p Hp. apply Hall. by apply elem_of_sortSlice.
Qed.

(** * Frames of a stream *)

Lemma read_escaped target l fr m :
  go_fold (read_byte target) (mkRead fr false m) (Hdlc.hdlcEscape l) = Ok (mkRead (fr ++ l) false m).
Proof.
  revert fr. induction l as [|v l IH]; intros fr; [by rewrite app_nil_r|].
  rewrite Hdlc.escape_cons. destruct ((v =? 0x7d) || (v =? 0x7e)) eqn:Hv.
  - assert (Hx : (Z.lxor v 0x20 =? 0x7e) = false)
      by (apply orb_true_iff in Hv as [Hv|Hv]; apply Z.eqb_eq in Hv as ->; reflexivity).
    cbn [app go_fold read_byte Z.eqb Pos.eqb rd_escaped rd_frame rd_metrics mret go_ret].
    unfold read_byte at 1. cbn [rd_frame rd_escaped rd_metrics]. rewrite Hx. cbn [mret go_ret].
    by rewrite IH, Hdlc.lxor_0x20_invol, <- app_assoc.
  - bool_to_prop. cbn [app go_fold]. unfold read_byte at 1. cbn [rd_frame rd_escaped rd_metrics].
    rewrite (proj2 (Z.eqb_neq v 0x7e)), (proj2 (Z.eqb_neq v 0x7d)) by done. cbn [mret go_ret].
    by rewrite IH, <- app_assoc.
Qed.

Lemma read_frame target payload m rest :
  go_fold (read_byte target) (mkRead [] false m) ((Hdlc.hdlcEscape (sealed payload) ++ [0x7e]) ++ rest) =
  (m' ← consumeQMDLFrame (sealed payload) false target m;
   go_fold (read_byte target) (mkRead [] false m') rest).
Proof.
  rewrite <- app_assoc, go_fold_app, read_escaped. cbn [mbind go_bind app go_fold].
  unfold read_byte at 1. cbn [Z.eqb Pos.eqb rd_frame rd_escaped rd_metrics].
  assert (Hne : exists v l, sealed payload = v :: l) by (unfold sealed; destruct payload; by eexists _, _).
  destruct Hne as (v & l & ->). destruct (consumeQMDLFrame (v :: l) false target m); done.
Qed.

Lemma flat_map_word words i w :
  Forall (in_range 32) words -> words !! i = Some w ->
  @Uint32 Empty_set (drop (i * 4) (flat_map put_u32 words)) = Ok w.
Proof.
  intros Hr. revert i. induction Hr as [|x l Hx _ IH]; intros i Hi; [done|].
  destruct i as [|i]; cbn [flat_map].
  - injection Hi as ->. cbn [Nat.mul]. rewrite drop_0. cbn [put_u32 app Uint32]. by rewrite le32_put.
  - replace (S i * 4)%nat with (length (put_u32 x) + i * 4)%nat by (simpl; lia).
    rewrite drop_app_add. by apply IH.
Qed.

Lemma flat_map_words_length words : length (flat_map put_u32 words) = (length words * 4)%nat.
Proof. induction words as [|a l IH]; [done|]. cbn [flat_map length]. rewrite length_app, IH. done. Qed.

Lemma qsh_payload_words b1 b2 b3 header hash words :
  length header = 7%nat -> Forall (in_range 32) words ->
  read_words (qsh_payload b1 b2 b3 header hash words) (length words) = Ok words.
Proof.
  intros Hh Hw. unfold read_words. apply go_map_Ok. apply Forall2_same_length_lookup_2; [by rewrite length_seq|].
  intros i k w Hk Hi. apply lookup_seq in Hk as [-> Hlt]. rewrite Nat.add_0_l.
  assert (Hlen : length (qsh_payload b1 b2 b3 header hash words) = (16 + length words * 4)%nat)
    by (unfold qsh_payload; rewrite !length_app, flat_map_words_length, Hh; reflexivity).
  rewrite slice_from_ok by lia. cbn [mbind go_bind]. rewrite <- drop_drop.
  assert (Hd : drop 16 (qsh_payload b1 b2 b3 header hash words) = flat_map put_u32 words).
  { unfold qsh_payload. rewrite !app_assoc. apply drop_app_length'.
    rewrite !length_app, Hh. reflexivity. }
  rewrite Hd. by apply flat_map_word.
Qed.

Lemma active_payload_length f : active_ok f -> length (active_payload f) = (16 + length (af_words f) * 4)%nat.
Proof.
  intros (_ & _ & Hh & _). unfold active_payload, qsh_payload.
  rewrite !length_app, flat_map_words_length, Hh. reflexivity.
Qed.

Lemma active_payload_bytes f : active_ok f -> bytes_ok (active_payload f).
Proof.
  intros (Hb & Hh & _ & _ & Hl). unfold active_payload, qsh_payload.
  apply bytes_ok_app. split.
  - bytes_inv. bytes_list; try done; unfold in_range; lia.
  - apply bytes_ok_app. split; [done|]. apply bytes_ok_app. split; [auto with bytes|].
    induction (af_words f) as [|w l IH]; [constructor|]. cbn [flat_map]. apply bytes_ok_app.
    split; [auto with bytes|]. apply IH. simpl in Hl. lia.
Qed.

Lemma consume_active target m f :
  active_ok f ->
  consumeQMDLFrame (sealed (active_payload f)) false target m =
  Ok (match active_result target f with
      | Some r => addResult r (incActive (incQSH m))
      | None => incActive (incQSH m)
      end).
Proof.
  intros Hf. pose proof (active_payload_length f Hf) as Hlen. pose proof (active_payload_bytes f Hf) as Hb.
  unfold consumeQMDLFrame. cbn [orb].
  assert (Hls : length (sealed (active_payload f)) = (length (active_payload f) + 2)%nat)
    by (unfold sealed; by rewrite length_app).
  rewrite bool_decide_eq_false_2 by lia.
  assert (Htr : @trim_end Empty_set _ 2 (sealed (active_payload f)) = Ok (active_payload f)) by by apply trim_end_app.
  rewrite Htr. cbn [mbind go_bind]. rewrite slice_from_ok by lia.
  rewrite Hls. replace (length (active_payload f) + 2 - 2)%nat with (length (active_payload f)) by lia.
  assert (Hdr : drop (length (active_payload f)) (sealed (active_payload f)) =
                put_u16 (diagCRC16 (active_payload f))) by apply drop_app_length.
  rewrite Hdr. cbn [mbind go_bind put_u16 Uint16].
  rewrite le16_put by (rewrite diagCRC16_agrees; by apply Hdlc.diagCRC16_range).
  rewrite Z.eqb_refl. cbn [negb]. clear Hdr Htr Hls.
  rewrite (index_ok _ 0 0x9d) by reflexivity. cbn [mbind go_bind].
  rewrite bool_decide_eq_false_2 by lia. cbn [Z.eqb Pos.eqb negb orb].
  rewrite (index_ok _ 4 (0x13 + Z.of_nat (length (af_words f)))) by reflexivity. cbn [mbind go_bind].
  destruct Hf as (_ & _ & Hh & Hw & Hl).
  replace (0x13 + Z.of_nat (length (af_words f)) - 0x13) with (Z.of_nat (length (af_words f))) by lia.
  assert (Hcond : (Z.of_nat (length (af_words f)) <? 0) || (236 <? Z.of_nat (length (af_words f))) ||
    (Z.of_nat (length (active_payload f)) <? 16 + Z.of_nat (length (af_words f)) * 4) = false)
    by (rewrite !orb_false_iff, !Z.ltb_ge; lia).
  rewrite Hcond, slice_ok by lia.
  assert (Hd : drop 12 (active_payload f) = put_u32 activeResultHash ++ flat_map put_u32 (af_words f)).
  { unfold active_payload, qsh_payload. rewrite (app_assoc _ (af_header f)). apply drop_app_length'.
    rewrite length_app, Hh. reflexivity. }
  rewrite Hd. cbn [put_u32 app Nat.sub take mbind go_bind Uint32].
  rewrite le32_put by (unfold in_range, activeResultHash; lia).
  change (known_hash activeResultHash) with true. cbn [negb]. rewrite Nat2Z.id.
  unfold active_payload. rewrite qsh_payload_words by done. cbn [mbind go_bind]. rewrite Z.eqb_refl.
  unfold active_result. destruct (decodeActiveResult_ok (af_words f) target Hw) as (r & -> & _). by destruct r.
Qed.

(** A capture of escaped ML1 result frames is read completely: no frame is
    lost or malformed, every one is counted, and the results are exactly the
    valid ones, in the order of the frames. *)
Theorem consumeQMDL_active_frames (fs : list activeFrame) (target : targetSpec) (m : qmdlMetrics) :
  Forall active_ok fs ->
  consumeQMDL (qmdl_stream (active_payload <$> fs)) target m =
  Ok (mkQmdl (QSHFrameCount m + Z.of_nat (length fs)) (ActiveHashCount m + Z.of_nat (length fs))
        (MalformedFrameCount m) (QMDLBytes m) (Results m ++ omap (active_result target) fs) (Evidence m)).
Proof.
  intros Hfs. unfold consumeQMDL, qmdl_stream. revert m. induction Hfs as [|f fs Hf _ IH]; intros m.
  - cbn [fmap list_fmap flat_map go_fold mbind go_bind rd_metrics length omap list_omap].
    rewrite app_nil_r, !Z.add_0_r. by destruct m.
  - cbn [fmap list_fmap flat_map]. rewrite read_frame, consume_active by done. cbn [mbind go_bind].
    etransitivity; [apply IH|]. cbn [length omap list_omap]. destruct (active_result target f) as [r|];
      cbn [addResult incActive incQSH QSHFrameCount ActiveHashCount MalformedFrameCount QMDLBytes Results Evidence];
      rewrite <- ?app_assoc; do 2 f_equal; lia.
Qed.

Lemma consumeQMDL_active_frames_witness :
  let f := mkActive 1 2 3 (replicate 7 0) [77; 504990; 1; 4294956032; 4294967208; 1280; 10; 4294965888; 500] in
  Forall active_ok [f] /\
  exists m, consumeQMDL (qmdl_stream [active_payload f]) (mkTarget 41 504990 None) noQmdl = Ok m /\
    hasTargetResult (Results m) (mkTarget 41 504990 None) = true.
Proof.
  intros f. assert (H : Forall active_ok [f]).
  { constructor; [|constructor]. split_and!; apply (bool_decide_unpack _); vm_compute; exact I. }
  split; [exact H|]. eexists. split; [apply (consumeQMDL_active_frames [f] _ _ H)|]. vm_compute. reflexivity.
Defined.

Lemma analyzeQMDLFiles_sound_witness :
  let read := fun path : string => if bool_decide (path = "a.qmdl"%string) then Some [0x7e; 1; 2; 0x7e] else None in
  (forall path data, read path = Some data -> bytes_ok data) /\
  exists m err, analyzeQMDLFiles read ["a.qmdl"%string] (mkTarget 41 504990 None) = Ok (m, err) /\
    metrics_ok (mkTarget 41 504990 None) m.
Proof.
  intros read. assert (H : forall path data, read path = Some data -> bytes_ok data).
  { intros path data. unfold read. case_bool_decide; [|discriminate]. intros [= <-].
    apply (bool_decide_unpack _). vm_compute. exact I. }
  split; [exact H|].
  destruct (analyzeQMDLFiles_sound read ["a.qmdl"%string] (mkTarget 41 504990 None) H) as (m & err & E & Hm & _).
  exists m, err. split; [exact E|exact Hm].
Defined.
