(* ===== verification/ProbeRun.v ===== *)
(** The transaction of a probe run, [src/tools/u60-nr-crossband-probe]:
    [runner.go] (a run and the restoration of the production trace) and
    [device.go] (the recovery journal and the restoration of the network
    settings).

    The outside world is an oracle: the n-th fallible operation succeeds iff
    [oracle n].  The program's state is the number of operations so far, the
    recovery journal on disk and a log of the effects on the device, each with
    the journal as it stood when the effect took place, so that "the journal is
    written before the device is touched" is a statement about the log. *)

From S2P Require Import Prelude.
From S2P Require Import Effects.
From S2P Require Import GoInt.
From S2P Require Import GoFloat.
From S2P Require Import GoStrings.
From S2P Require Import ProbeModel.
From S2P Require Import ProbeQTrace.
From S2P Require ProbeQmi.
From S2P Require Import ProbeActive.
Open Scope Z_scope.

(** ** Data *)

Inductive ubusCall :=
| SetNRBand (kind bands : string)
| SetNetSelect (mode : string)
| SetNRCellLock (pci arfcn band : string).

#[export] Instance ubusCall_eq_dec : EqDecision ubusCall.
Proof. solve_decision. Defined.

Inductive runError :=
| ErrOS | ErrLocked | ErrBadJournal | ErrPending | ErrDiagRunning | ErrResources | ErrConfig | ErrSnapshot
| ErrJournal | ErrStart | ErrWait | ErrStop | ErrUbus (call : ubusCall) | ErrEmptyNetSelect | ErrAction
| ErrCleanupTimeout | ErrParse | ErrMeasurement | ErrRemove | ErrNoProductionTrace | ErrBadProductionTrace
| ErrNeedConfirmation.

(** Time stamps, tool version and the paths of the journal are left out. *)
Record recoveryState := mkState {
  Schema : Z; Experiment : experimentID; Target : targetSpec; Status : string; Stage : string;
  Snapshot : networkSnapshot; CompletedActions : list string; RestoreAttempts : Z;
  TraceRestoreRequired : bool; NetworkRestoreRequired : bool; ProductionQTrace : list Z;
  LastError : list runError }.

Definition stateSchema : Z := 1.

Definition set_status (status stage : string) (errors : list runError) (s : recoveryState) : recoveryState :=
  mkState (Schema s) (Experiment s) (Target s) status stage (Snapshot s) (CompletedActions s)
    (RestoreAttempts s) (TraceRestoreRequired s) (NetworkRestoreRequired s) (ProductionQTrace s) errors.
Definition set_stage (stage : string) (s : recoveryState) : recoveryState :=
  set_status (Status s) stage (LastError s) s.
Definition set_trace (required : bool) (s : recoveryState) : recoveryState :=
  mkState (Schema s) (Experiment s) (Target s) (Status s) (Stage s) (Snapshot s) (CompletedActions s)
    (RestoreAttempts s) required (NetworkRestoreRequired s) (ProductionQTrace s) (LastError s).
Definition add_action (action : string) (s : recoveryState) : recoveryState :=
  mkState (Schema s) (Experiment s) (Target s) (Status s) (Stage s) (Snapshot s)
    (CompletedActions s ++ [action]) (RestoreAttempts s) (TraceRestoreRequired s)
    (NetworkRestoreRequired s) (ProductionQTrace s) (LastError s).
Definition inc_attempts (s : recoveryState) : recoveryState :=
  mkState (Schema s) (Experiment s) (Target s) (Status s) (Stage s) (Snapshot s) (CompletedActions s)
    (RestoreAttempts s + 1) (TraceRestoreRequired s) (NetworkRestoreRequired s) (ProductionQTrace s)
    (LastError s).

(** Effects on the device. *)
Inductive effect :=
| ENetwork (call : ubusCall) (ok : bool)
| EActiveTrace                       (** diag_mdlog started with the active configuration *)
| EProductionTrace (ok : bool).      (** it ran with the production one; [ok]: to its end *)

Record world := mkWorld {
  w_next : nat; w_journal : option recoveryState; w_log : list (effect * option recoveryState) }.

(** ** What the log says *)

(** The journal is ahead of the device: a network change happens under a
    journal that asks for the restoration of the network, the active trace
    starts under one that asks for the restoration of the trace and carries
    the production configuration. *)
Definition entry_ok (production : list Z) (e : effect * option recoveryState) : Prop :=
  match e.1 with
  | ENetwork _ _ => exists s, e.2 = Some s /\ NetworkRestoreRequired s = true
  | EActiveTrace => exists s, e.2 = Some s /\ TraceRestoreRequired s = true /\ ProductionQTrace s = production
  | EProductionTrace _ => True
  end.

(** The production configuration ran to its end after every active trace. *)
Definition trace_step (clean : bool) (e : effect * option recoveryState) : bool :=
  match e.1 with EActiveTrace => false | EProductionTrace true => true | _ => clean end.
Definition trace_clean (log : list (effect * option recoveryState)) : bool := fold_left trace_step log true.

Definition network_call (e : effect * option recoveryState) : option (ubusCall * bool) :=
  match e.1 with ENetwork call ok => Some (call, ok) | _ => None end.
Definition network_calls (log : list (effect * option recoveryState)) : list (ubusCall * bool) :=
  omap network_call log.

(** ** State monad *)

Abbreviation M := (ST world).

Section Run.
Context (oracle : nat -> bool).

(** One fallible operation. *)
Definition attempt : M bool := fun w =>
  (oracle (w_next w), mkWorld (S (w_next w)) (w_journal w) (w_log w)).

Definition effect_now (e : effect) : M unit := fun w =>
  (tt, mkWorld (w_next w) (w_journal w) (w_log w ++ [(e, w_journal w)])).

Definition get_journal : M (option recoveryState) := fun w => (w_journal w, w).

(** [writeState]: the journal is replaced as a whole or not at all. *)
Definition writeState (s : recoveryState) : M bool := fun w =>
  let '(ok, w) := attempt w in
  (ok, if ok then mkWorld (w_next w) (Some s) (w_log w) else w).

Definition removeState : M bool := fun w =>
  let '(ok, w) := attempt w in
  (ok, if ok then mkWorld (w_next w) None (w_log w) else w).

(** ** Network settings, [device.go] *)

Definition callUBUS (call : ubusCall) : M (option runError) :=
  ok ← attempt;
  _ ← effect_now (ENetwork call ok);
  mret (if ok : bool then None else Some (ErrUbus call)).

Definition setNRBand (kind bands : string) : M (option runError) :=
  callUBUS (SetNRBand (ToUpper (if bool_decide (kind = ""%string) then "SA" else kind)) bands).

Definition setNetSelect (mode : string) : M (option runError) :=
  if bool_decide (mode = ""%string) then mret (Some ErrEmptyNetSelect) else callUBUS (SetNetSelect mode).

Definition setNRCellLock (pci arfcn band : string) : M (option runError) :=
  callUBUS (SetNRCellLock pci arfcn band).

Definition isActiveCellLock (s : networkSnapshot) : bool :=
  existsb (fun value => match ParseUint (TrimSpace value) 10 64 with
                        | Some parsed => 0 <? parsed
                        | None => false
                        end)
    [NRCellLockPCI s; NRCellLockARFCN s; NRCellLockBand s].

(** The calls of a complete restoration. *)
Definition restore_calls (snap : networkSnapshot) : list ubusCall :=
  [SetNRCellLock "0" "0" "0"; SetNRBand "SA" (NRBandSA snap); SetNRBand "NSA" (NRBandNSA snap)] ++
  (if bool_decide (NetSelect snap = ""%string) then [] else [SetNetSelect (NetSelect snap)]) ++
  (if isActiveCellLock snap
   then [SetNRCellLock (NRCellLockPCI snap) (NRCellLockARFCN snap) (NRCellLockBand snap)] else []).

(** The network was not touched, or the last calls are a complete restoration
    in which every call succeeded. *)
Definition net_restored (snap : networkSnapshot) (log : list (effect * option recoveryState)) : Prop :=
  network_calls log = [] \/
  exists pre, network_calls log = pre ++ ((fun call => (call, true)) <$> restore_calls snap).

(** [record] of [restoreNetwork]: the state and the errors so far. *)
Definition record (stage : string) (acc : recoveryState * list runError) (err : option runError)
    : M (recoveryState * list runError) :=
  let s := match err with
           | None => set_stage stage acc.1
           | Some e => set_status (Status acc.1) stage [e] acc.1
           end in
  _ ← writeState s;
  mret (s, acc.2 ++ match err with None => [] | Some e => [e] end).

Definition restoreNetwork (state : recoveryState) : M (recoveryState * list runError) :=
  let state := inc_attempts (set_status "restoring" "restore-started" (LastError state) state) in
  ok ← writeState state;
  if negb ok then mret (state, [ErrJournal]) else
  let snap := Snapshot state in
  e ← setNRCellLock "0" "0" "0";
  acc ← record "restore-unlock-cell" (state, []) e;
  e ← setNRBand "SA" (NRBandSA snap);
  acc ← record "restore-sa-band" acc e;
  e ← setNRBand "NSA" (NRBandNSA snap);
  acc ← record "restore-nsa-band" acc e;
  acc ← (if bool_decide (NetSelect snap = ""%string) then mret acc else
         e ← setNetSelect (NetSelect snap); record "restore-net-select" acc e);
  acc ← (if isActiveCellLock snap then
           e ← setNRCellLock (NRCellLockPCI snap) (NRCellLockARFCN snap) (NRCellLockBand snap);
           record "restore-cell-lock" acc e
         else mret acc);
  match acc.2 with
  | _ :: _ =>
    let s := set_status "restore-failed" "restore-incomplete" acc.2 acc.1 in
    _ ← writeState s; mret (s, acc.2)
  | [] =>
    let s := set_status "restoring" "network-restored" [] acc.1 in
    ok ← writeState s; mret (s, if ok : bool then [] else [ErrJournal])
  end.

(** ** The trace configuration, [runner.go] *)

Definition ensureNoDiagMDLog : M (option runError) :=
  ok ← attempt; mret (if ok : bool then None else Some ErrDiagRunning).

Definition fallible (e : runError) : M (option runError) :=
  ok ← attempt; mret (if ok : bool then None else Some e).

(** [startDiagMDLog]: the check, the output directory, the log file, the start. *)
Definition startDiagMDLog (active : bool) : M (option runError) :=
  and_then ensureNoDiagMDLog (and_then (fallible ErrOS) (and_then (fallible ErrOS)
    (ok ← attempt;
     if ok : bool then
       _ ← (if active then effect_now EActiveTrace else mret tt); mret None
     else mret (Some ErrStart)))).

Definition stop : M (option runError) := fallible ErrStop.
Definition waitContext : M (option runError) := fallible ErrWait.

Definition option_list {A} (o : option A) : list A := match o with Some a => [a] | None => [] end.

Definition restoreProductionTrace : M (list runError) :=
  e ← and_then ensureNoDiagMDLog (startDiagMDLog false);
  match e with
  | Some err => mret [err]
  | None =>
    waitErr ← waitContext;
    stopErr ← stop;
    let errors := option_list waitErr ++ option_list stopErr in
    _ ← effect_now (EProductionTrace (match errors with [] => true | _ => false end));
    mret errors
  end.

(** ** The experiments *)

Definition markRecoveryAction (state : recoveryState) (action : string) (err : option runError)
    : M recoveryState :=
  let s := match err with
           | Some e => set_status (Status state) (action ++ "-failed") [e] state
           | None => set_stage action (add_action action state)
           end in
  _ ← writeState s; mret s.

Definition nrBandKind (s : networkSnapshot) : string :=
  if Contains (ToUpper (NetworkType s)) "NSA" then "NSA" else "SA".

(** One setter call of [startExperimentAction] with its mark. *)
Definition marked (state : recoveryState) (call : M (option runError)) (action : string)
    : M (recoveryState * option runError) :=
  e ← call; s ← markRecoveryAction state action e; mret (s, e).

(** What the select of the monitor loop receives: the end of the context, the
    end of the action, the deadline, or a tick with the resource sample (memory
    and free space) and the results of the capture so far. *)
Inductive monitorEvent :=
| EvDone
| EvAction
| EvDeadline
| EvTick (sample : option (Z * Z)) (metrics : option (list ml1Result)).

(** The environment of a measurement window: the outcome of the scan of
    experiments A and B, whether the action's error is the context's
    cancellation, the limits, the events of the loop (the deadline ends the
    list), whether the action ends within the four seconds after it, and the
    results of the final analysis. *)
Record measurement := mkMeasurement {
  ms_action : option runError; ms_canceled : bool; ms_min_memory : Z; ms_min_free : Z;
  ms_events : list monitorEvent; ms_cleanup : bool; ms_final : option (list ml1Result) }.

Definition ms_results (ms : measurement) : list ml1Result := default [] (ms_final ms).

(** The variables of the loop: the results, [actionErr], whether [failure] is
    set, whether [actionDone] is still awaited. *)
Record monitorState := mkMonitor {
  mn_results : list ml1Result; mn_actionErr : list runError; mn_failure : bool; mn_pending : bool }.

Definition failing (m : monitorState) : monitorState :=
  mkMonitor (mn_results m) (mn_actionErr m) true (mn_pending m).

(** One round: the state and whether the loop goes on. *)
Definition monitor_step (target : targetSpec) (ms : measurement) (actionErr : list runError)
    (m : monitorState) (ev : monitorEvent) : monitorState * bool :=
  match ev with
  | EvDone | EvDeadline => (failing m, false)
  | EvAction =>
    if negb (mn_pending m) then (m, true) else
    match actionErr with
    | [] => (mkMonitor (mn_results m) (mn_actionErr m) (mn_failure m) false, true)
    | _ => (mkMonitor (mn_results m) actionErr true false, false)
    end
  | EvTick None _ => (failing m, false)
  | EvTick (Some (memory, free)) metrics =>
    if (memory <? ms_min_memory ms) || (free <? ms_min_free ms) then (failing m, false) else
    match metrics with
    | None => (m, true)
    | Some results =>
      (mkMonitor results (mn_actionErr m) (mn_failure m) (mn_pending m), negb (hasTargetResult results target))
    end
  end.

Fixpoint monitor (target : targetSpec) (ms : measurement) (actionErr : list runError) (m : monitorState)
    (events : list monitorEvent) : monitorState :=
  match events with
  | [] => failing m
  | ev :: events =>
    let '(m, continue) := monitor_step target ms actionErr m ev in
    if continue : bool then monitor target ms actionErr m events else m
  end.

(** The loop and the wait for the action after it: the results and
    [actionErr]. *)
Definition observe (target : targetSpec) (ms : measurement) (actionErr : option runError)
    : list ml1Result * list runError :=
  let err := if ms_canceled ms then [] else option_list actionErr in
  let m := monitor target ms err (mkMonitor [] [] false true) (ms_events ms) in
  (mn_results m,
   if negb (mn_pending m) then mn_actionErr m
   else if ms_cleanup ms then match err with [] => mn_actionErr m | _ => err end
   else mn_actionErr m ++ [ErrCleanupTimeout]).

(** The switch of [startExperimentAction]; the command line admits experiment
    F only with a target PCI. *)
Definition run_action (exp : experimentID) (target : targetSpec) (ms : measurement) (state : recoveryState)
    : M (recoveryState * option runError) :=
  let snap := Snapshot state in
  let band := Itoa (TBand target) in
  match exp with
  | experimentA | experimentB => mret (state, ms_action ms)
  | experimentC => marked state (setNRBand (nrBandKind snap) band) "target-band-applied"
  | experimentD =>
    r ← marked state (setNRBand (nrBandKind snap) band) "target-band-applied";
    match r.2 with
    | Some _ => mret r
    | None =>
      let mode := if bool_decide (NetSelect snap = ""%string) then "WL_AND_5G"%string else NetSelect snap in
      marked r.1 (setNetSelect mode) "automatic-reselection-requested"
    end
  | experimentE =>
    r ← marked state (setNetSelect "Only_LTE") "nr-temporarily-disabled";
    match r.2 with
    | Some _ => mret r
    | None =>
      w ← waitContext;
      match w with
      | Some e => mret (r.1, Some e)
      | None =>
        r ← marked r.1 (setNRBand "SA" band) "target-band-applied";
        match r.2 with
        | Some _ => mret r
        | None => marked r.1 (setNetSelect "Only_5G") "target-nr-acquisition-started"
        end
      end
    end
  | experimentF =>
    match TPCI target with
    | None => mret (state, Some ErrAction)
    | Some pci =>
      r ← marked state (setNRCellLock (Itoa pci) (Itoa (TARFCN target)) band) "known-target-cell-lock-applied";
      match r.2 with
      | Some _ => mret r
      | None => marked r.1 (setNetSelect "Only_5G") "positive-control-acquisition-started"
      end
    end
  end.

Definition networkChanged (exp : experimentID) : bool :=
  match exp with experimentA | experimentB => false | _ => true end.

(** ** A run *)

(** The variables the deferred function of [runExperiment] reads. *)
Record locals := mkLocals { l_state : recoveryState; l_traceApplied : bool; l_process : bool }.

(** The returned error, as the list of the joined ones, and the result of the
    record. *)
Record runResult := mkResult { r_errors : list runError; r_success : bool; r_restored : bool }.

Definition failed_with (errors : list runError) : runResult := mkResult errors false false.

Definition is_nil {A} (l : list A) : bool := match l with [] => true | _ => false end.

(** From the restoration of the trace to the end of the body. *)
Definition finish_run (exp : experimentID) (target : targetSpec) (ms : measurement) (monitored : list ml1Result)
    (actionErr : list runError) (state : recoveryState) : M (locals * runResult) :=
  traceErr ← restoreProductionTrace;
  state ← (if is_nil traceErr then
             let s := set_stage "trace-restored" (add_action "production-qsh-mask-restored" (set_trace false state)) in
             _ ← writeState s; mret s
           else mret state);
  r ← (if networkChanged exp then restoreNetwork state
       else let s := set_stage "network-unchanged" state in _ ← writeState s; mret (s, []));
  let '(state, restoreErr) := r in
  r ← (if is_nil restoreErr && is_nil traceErr then
         let s := set_status "restored" "complete" [] state in
         ok ← writeState s;
         if negb ok then mret (s, [ErrJournal]) else
         removed ← removeState;
         mret (s, if removed : bool then [] else [ErrRemove])
       else mret (state, restoreErr));
  let '(state, restoreErr) := r in
  _ ← attempt;
  let parseErr := match ms_final ms with Some _ => [] | None => [ErrParse] end in
  let results := match ms_final ms with Some results => results | None => monitored end in
  let success := hasTargetResult results target && is_nil actionErr && is_nil parseErr &&
                 is_nil restoreErr && is_nil traceErr in
  mret (mkLocals state (negb (is_nil traceErr)) false,
        mkResult ((if success then [] else [ErrMeasurement]) ++ actionErr ++ parseErr ++ restoreErr ++ traceErr)
          success (is_nil restoreErr && is_nil traceErr)).

Definition experiment_body (exp : experimentID) (target : targetSpec) (ms : measurement) (state : recoveryState)
    : M (locals * runResult) :=
  let state := set_stage "active-trace-starting" (set_trace true state) in
  ok ← writeState state;
  if negb ok then mret (mkLocals state false false, failed_with [ErrJournal]) else
  started ← startDiagMDLog true;
  match started with
  | Some err =>
    let s := set_status "failed" "diag-start" [err] state in
    _ ← writeState s; mret (mkLocals s true false, failed_with [err])
  | None =>
    let state := set_stage "active-trace-running" state in
    _ ← writeState state;
    settled ← waitContext;
    match settled with
    | Some err => mret (mkLocals state true true, failed_with [err])
    | None =>
      r ← run_action exp target ms state;
      let '(monitored, actionErr) := observe target ms r.2 in
      _ ← stop;
      finish_run exp target ms monitored actionErr r.1
    end
  end.

(** The deferred function. *)
Definition deferred (exp : experimentID) (l : locals) (r : runResult) : M runResult :=
  _ ← (if l_process l then stop else mret None);
  t ← (if l_traceApplied l then
         e ← restoreProductionTrace;
         if is_nil e then let s := set_trace false (l_state l) in _ ← writeState s; mret (s, r_errors r)
         else mret (l_state l, r_errors r ++ e)
       else mret (l_state l, r_errors r));
  let '(state, errors) := t in
  journal ← get_journal;
  match journal with
  | None => mret (mkResult errors (r_success r) (r_restored r))
  | Some _ =>
    if networkChanged exp then
      n ← restoreNetwork state;
      if is_nil n.2 then
        _ ← (if TraceRestoreRequired n.1 then mret true else removeState);
        mret (mkResult errors (r_success r) (r_restored r))
      else mret (mkResult (errors ++ n.2) (r_success r) (r_restored r))
    else
      _ ← (if TraceRestoreRequired state then mret true else removeState);
      mret (mkResult errors (r_success r) (r_restored r))
  end.

(** [loadRecoveryState]: the schema check; the journal always has a snapshot. *)
Definition valid_journal (s : recoveryState) : bool := Schema s =? stateSchema.

(** [config1] and [config2] are the two reads of the production configuration,
    [snap] the answer of the modem to the snapshot request. *)
Record runInput := mkInput {
  in_exp : experimentID; in_target : targetSpec; in_config1 : option (list Z); in_config2 : option (list Z);
  in_snapshot : networkSnapshot; in_measurement : measurement }.

Definition initial_state (i : runInput) (production : list Z) : recoveryState :=
  mkState stateSchema (in_exp i) (in_target i) "running" "snapshot-saved" (in_snapshot i) [] 0 false
    (networkChanged (in_exp i)) production [].

(** Everything before the journal is written. *)
Definition preflight (i : runInput) : M (runError + list Z) :=
  e ← and_then (fallible ErrOS) (fallible ErrLocked);
  match e with Some err => mret (inl err) | None =>
  journal ← get_journal;
  match journal with
  | Some s => mret (inl (if valid_journal s then ErrPending else ErrBadJournal))
  | None =>
    e ← and_then ensureNoDiagMDLog (and_then (fallible ErrResources) (fallible ErrOS));
    match e with Some err => mret (inl err) | None =>
    match in_config1 i with
    | None => mret (inl ErrConfig)
    | Some data =>
      match patchActiveQTrace data with
      | Ok _ =>
        e ← fallible ErrOS;
        match e with Some err => mret (inl err) | None =>
        match in_config2 i with
        | None => mret (inl ErrConfig)
        | Some production =>
          e ← fallible ErrSnapshot;
          match e with Some err => mret (inl err) | None => mret (inr production) end
        end end
      | _ => mret (inl ErrConfig)
      end
    end end
  end end.

Definition runExperiment (i : runInput) : M runResult :=
  pre ← preflight i;
  match pre with
  | inl err => mret (failed_with [err])
  | inr production =>
    let state := initial_state i production in
    ok ← writeState state;
    if negb ok then mret (failed_with [ErrJournal]) else
    b ← experiment_body (in_exp i) (in_target i) (in_measurement i) state;
    deferred (in_exp i) b.1 b.2
  end.

(** ** The command line *)

Record runFlags := mkFlags {
  f_experiment : string; f_band : Z; f_arfcn : Z; f_pci : string; f_confirmActive : bool;
  f_confirmNetwork : bool; f_qcrilStart : string; f_window : Z; f_fileSize : Z; f_fileCount : Z }.

Inductive commandError :=
| ErrExperiment (value : string) | ErrTargetFlags (e : targetError) | ErrConfirmActive | ErrConfirmNetwork
| ErrNeedQCRIL | ErrNeedPCI | ErrWindow | ErrFiles.

Definition parseExperiment (value : string) : go commandError experimentID :=
  let value := ToUpper (TrimSpace value) in
  if bool_decide (value = "A"%string) then mret experimentA
  else if bool_decide (value = "B"%string) then mret experimentB
  else if bool_decide (value = "C"%string) then mret experimentC
  else if bool_decide (value = "D"%string) then mret experimentD
  else if bool_decide (value = "E"%string) then mret experimentE
  else if bool_decide (value = "F"%string) then mret experimentF
  else Err (ErrExperiment value).

(** Durations are in nanoseconds. *)
Definition second : Z := 1000000000.

(** [runExperimentCommand] up to the call of [runExperiment]. *)
Definition command_target (f : runFlags) : go commandError (experimentID * targetSpec) :=
  experiment ← parseExperiment (f_experiment f);
  target ← map_err ErrTargetFlags (parseTarget (f_band f) (f_arfcn f) (f_pci f));
  if negb (f_confirmActive f) then Err ErrConfirmActive else
  if networkChanged experiment && negb (f_confirmNetwork f) then Err ErrConfirmNetwork else
  if bool_decide (experiment = experimentB) && bool_decide (TrimSpace (f_qcrilStart f) = ""%string)
  then Err ErrNeedQCRIL else
  if bool_decide (experiment = experimentF) && bool_decide (TPCI target = None) then Err ErrNeedPCI else
  if (f_window f <? second) || (30 * second <? f_window f) then Err ErrWindow else
  if (f_fileSize f <? 1) || (4 <? f_fileSize f) || (f_fileCount f <? 1) || (4 <? f_fileCount f)
  then Err ErrFiles else
  mret (experiment, target).

(** ** Recovery *)

(** [restoreProductionTraceFromState]: validation of the journaled
    configuration, the temporary directory, the file, the restoration. *)
Definition restoreProductionTraceFromState (state : recoveryState) : M (recoveryState * list runError) :=
  if negb (TraceRestoreRequired state) then mret (state, []) else
  match ProductionQTrace state with
  | [] => mret (state, [ErrNoProductionTrace])
  | data =>
    match patchActiveQTrace data with
    | Ok _ =>
      e ← and_then (fallible ErrOS) (fallible ErrOS);
      match e with Some err => mret (state, [err]) | None =>
      e ← restoreProductionTrace;
      if is_nil e then mret (set_status (Status state) "trace-restored" [] (set_trace false state), [])
      else mret (state, e)
      end
    | _ => mret (state, [ErrBadProductionTrace])
    end
  end.

Definition runRecoverCommand (confirm : bool) : M (list runError) :=
  journal ← get_journal;
  match journal with
  | None => mret [ErrBadJournal]
  | Some state =>
    if negb (valid_journal state) then mret [ErrBadJournal] else
    if NetworkRestoreRequired state && negb confirm then mret [ErrNeedConfirmation] else
    t ← restoreProductionTraceFromState state;
    let '(state, traceErr) := t in
    n ← (if NetworkRestoreRequired state then restoreNetwork state
         else let s := set_stage "network-unchanged" state in
              ok ← writeState s; mret (s, if ok : bool then [] else [ErrJournal]));
    let '(state, networkErr) := n in
    match traceErr ++ networkErr with
    | _ :: _ =>
      _ ← writeState (set_status "restore-failed" "restore-incomplete" (traceErr ++ networkErr) state);
      mret (traceErr ++ networkErr)
    | [] =>
      ok ← writeState (set_status "restored" "complete" [] state);
      if negb ok then mret [ErrJournal] else
      removed ← removeState;
      mret (if removed : bool then [] else [ErrRemove])
    end
  end.

End Run.

Definition sample_snapshot : networkSnapshot :=
  mkSnapshot "WL_AND_5G" "NR5G_SA" "1,28,41" "41" "123,504990,41" "123" "504990" "41" "28" "154810" "77".

Definition sample_input (exp : experimentID) : runInput :=
  mkInput exp (mkTarget 41 504990 None) (Some qtrace_cfg) (Some qtrace_cfg) sample_snapshot
    (mkMeasurement None false 1 1 [EvTick (Some (2, 2)) (Some []); EvAction; EvTick (Some (2, 2)) None] true
       (Some [mkML1 77 504990 41 1 (f_of_Z (-90)) 0 (f_of_Z 0) 0 (f_of_Z 0) 0 []])).

Definition sample_journal : recoveryState :=
  set_trace true (initial_state (sample_input experimentE) qtrace_cfg).

(** * Reasoning about the monad *)

(** The in-memory state and the journal agree on what a recovery needs. *)
Record core_eq (s j : recoveryState) : Prop := mkCore {
  ce_schema : Schema j = Schema s; ce_network : NetworkRestoreRequired j = NetworkRestoreRequired s;
  ce_snapshot : Snapshot j = Snapshot s; ce_production : ProductionQTrace j = ProductionQTrace s }.

#[export] Instance core_eq_refl : Reflexive core_eq.
Proof. by constructor. Qed.
#[export] Instance core_eq_sym : Symmetric core_eq.
Proof. intros x y []. by constructor. Qed.
#[export] Instance core_eq_trans : Transitive core_eq.
Proof. intros x y z [] []. constructor; congruence. Qed.

(** The journal is on disk.  It may still ask for a trace restoration that was
    already done; only when [lenient] it may not ask for one the in-memory state
    asks for. *)
Definition armed_if (lenient : Prop) (s : recoveryState) (w : world) : Prop :=
  exists j, w_journal w = Some j /\ core_eq s j /\
    (TraceRestoreRequired s = true -> TraceRestoreRequired j = true \/ lenient).

(** A new in-memory state that does not ask for more. *)
Definition weaker (s s' : recoveryState) : Prop :=
  core_eq s s' /\ (TraceRestoreRequired s' = true -> TraceRestoreRequired s = true).

Definition same_flags (s s' : recoveryState) : Prop :=
  core_eq s s' /\ TraceRestoreRequired s' = TraceRestoreRequired s.

Lemma same_flags_weaker s s' : same_flags s s' -> weaker s s'.
Proof. intros [? H]. split; [done|]. by rewrite H. Qed.

#[export] Instance same_flags_refl : Reflexive same_flags.
Proof. by split. Qed.
#[export] Instance same_flags_trans : Transitive same_flags.
Proof. intros x y z [? H1] [? H2]. split; [by etransitivity|congruence]. Qed.

Section Specs.
Context (oracle : nat -> bool) (lenient : Prop).
Abbreviation armed := (armed_if lenient).

Lemma wp_attempt Q w :
  (forall ok, Q ok (mkWorld (S (w_next w)) (w_journal w) (w_log w))) -> wp (attempt oracle) Q w.
Proof. intros H. apply H. Qed.

Lemma wp_fallible e Q w :
  (forall r n, Q r (mkWorld n (w_journal w) (w_log w))) -> wp (fallible oracle e) Q w.
Proof. intros H. apply H. Qed.

Lemma wp_effect e (Q : unit -> world -> Prop) w :
  Q tt (mkWorld (w_next w) (w_journal w) (w_log w ++ [(e, w_journal w)])) -> wp (effect_now e) Q w.
Proof. done. Qed.

(** Writing a state that does not ask for more keeps the journal armed. *)
Lemma wp_writeState s s' Q w :
  armed s w -> weaker s s' ->
  (forall ok w', armed s' w' -> w_log w' = w_log w -> (ok = true -> w_journal w' = Some s') -> Q ok w') ->
  wp (writeState oracle s') Q w.
Proof.
  intros (j & Hj & Hcore & Htr) [Hc Hw] H. unfold wp, writeState, attempt. cbn [fst snd w_next].
  destruct (oracle (w_next w)); cbn [fst snd]; apply H; cbn [w_log w_journal]; try done.
  - exists s'. split_and!; [done|done|by left].
  - exists j. split_and!; [done|etransitivity; [by symmetry|done]|auto].
Qed.

Lemma wp_callUBUS call Q w :
  (forall ok w', w_journal w' = w_journal w -> w_log w' = w_log w ++ [(ENetwork call ok, w_journal w)] ->
     Q (if ok then None else Some (ErrUbus call)) w') ->
  wp (callUBUS oracle call) Q w.
Proof. intros H. unfold wp, callUBUS, attempt, effect_now, mbind, st_bind, mret, st_ret. cbn [fst snd]. by apply H. Qed.

Lemma armed_journal s w w' : w_journal w' = w_journal w -> armed s w -> armed s w'.
Proof. intros Hj (j & H & ?). exists j. by rewrite Hj. Qed.

(** The log grew by network changes under an armed journal. *)
Definition net_step (w : world) (calls : list (ubusCall * bool)) (w' : world) : Prop :=
  exists entries, w_log w' = w_log w ++ entries /\ network_calls entries = calls /\
    Forall (fun e => (exists call ok, e.1 = ENetwork call ok) /\
                     exists s, e.2 = Some s /\ NetworkRestoreRequired s = true) entries.

Lemma net_step_refl w w' : w_log w' = w_log w -> net_step w [] w'.
Proof. intros H. exists []. rewrite app_nil_r. split_and!; [done|done|constructor]. Qed.

Lemma net_step_trans w1 c1 w2 c2 w3 : net_step w1 c1 w2 -> net_step w2 c2 w3 -> net_step w1 (c1 ++ c2) w3.
Proof.
  intros (e1 & H1 & <- & F1) (e2 & H2 & <- & F2). exists (e1 ++ e2).
  rewrite H2, H1, <- app_assoc. split_and!; [done|by apply omap_app|by apply Forall_app].
Qed.

Lemma net_step_log w calls w' w'' : net_step w calls w' -> w_log w'' = w_log w' -> net_step w calls w''.
Proof. intros (e & H & ?). intros Hl. exists e. by rewrite Hl. Qed.

Lemma net_step_entries production w calls w' :
  net_step w calls w' -> Forall (entry_ok production) (w_log w) -> Forall (entry_ok production) (w_log w').
Proof.
  intros (e & -> & _ & F) H. apply Forall_app. split; [done|]. eapply Forall_impl; [exact F|].
  intros [eff j] [(call & ok & He) Hj]. unfold entry_ok. cbn [fst snd] in *. by rewrite He.
Qed.

Lemma trace_clean_app l1 l2 : trace_clean (l1 ++ l2) = fold_left trace_step l2 (trace_clean l1).
Proof. apply fold_left_app. Qed.

Lemma net_step_trace w calls w' : net_step w calls w' -> trace_clean (w_log w') = trace_clean (w_log w).
Proof.
  intros (e & -> & _ & F). rewrite trace_clean_app. generalize (trace_clean (w_log w)).
  induction F as [|[eff j] e [(call & ok & He) _] _ IH]; intros b; [done|].
  cbn [fold_left fst] in *. rewrite IH. unfold trace_step. cbn [fst]. by rewrite He.
Qed.

Lemma net_step_calls w calls w' :
  net_step w calls w' -> network_calls (w_log w') = network_calls (w_log w) ++ calls.
Proof. intros (e & -> & <- & _). apply omap_app. Qed.

(** One setter call and its record. *)
Lemma wp_recorded call stage s errs (Q : recoveryState * list runError -> world -> Prop) w :
  armed s w -> NetworkRestoreRequired s = true ->
  (forall s' ok w', armed s' w' -> same_flags s s' -> net_step w [(call, ok)] w' ->
     Q (s', errs ++ (if ok then [] else [ErrUbus call])) w') ->
  wp (e ← callUBUS oracle call; record oracle stage (s, errs) e) Q w.
Proof.
  intros Ha Hn H. apply wp_bind, wp_callUBUS. intros ok w' Hj Hl.
  unfold record. apply wp_bind. eapply wp_writeState; [by eapply armed_journal| |].
  { by destruct ok. }
  intros ok' w2 Ha2 Hl2 _. apply wp_ret. cbn [snd].
  assert (Hstep : net_step w [(call, ok)] w2).
  { exists [(ENetwork call ok, w_journal w)]. rewrite Hl2, Hl. split_and!; [done|done|].
    constructor; [|constructor]. split; [by eexists _, _|]. destruct Ha as (j & Hjw & Hc & _).
    exists j. split; [done|]. by rewrite (ce_network _ _ Hc). }
  pose proof (H (if ok then set_stage stage s else set_status (Status s) stage [ErrUbus call] s) ok w2) as Hq.
  destruct ok; by apply Hq.
Qed.

(** Errors say which calls failed. *)
Definition call_errors (calls : list (ubusCall * bool)) : list runError :=
  omap (fun c => if c.2 : bool then None else Some (ErrUbus c.1)) calls.

Lemma call_errors_nil calls : call_errors calls = [] -> calls = (fun c => (c, true)) <$> calls.*1.
Proof.
  induction calls as [|[c ok] calls IH]; [done|]. unfold call_errors. cbn [omap list_omap snd fst].
  destruct ok; [|done]. intros H. cbn [fmap list_fmap fst]. f_equal. by apply IH.
Qed.

(** The situation between two calls of a restoration that began in [w] with
    [s]: [calls] were made. *)
Record restoring (s : recoveryState) (w : world) (calls : list (ubusCall * bool))
    (acc : recoveryState * list runError) (w' : world) : Prop := mkRestoring {
  re_armed : armed acc.1 w'; re_flags : same_flags s acc.1; re_step : net_step w calls w';
  re_errors : acc.2 = call_errors calls }.

Lemma wp_restore_call call stage s w calls acc w1 (K : recoveryState * list runError -> M (recoveryState * list runError)) Q :
  NetworkRestoreRequired s = true -> restoring s w calls acc w1 ->
  (forall ok acc' w', restoring s w (calls ++ [(call, ok)]) acc' w' -> wp (K acc') Q w') ->
  wp (e ← callUBUS oracle call; acc' ← record oracle stage acc e; K acc') Q w1.
Proof.
  intros Hn [Ha Hf Hs He] H. destruct acc as [s1 errs]. cbn [fst snd] in *.
  assert (Hr : wp (e ← callUBUS oracle call; record oracle stage (s1, errs) e) (fun acc' w' => wp (K acc') Q w') w1).
  { apply wp_recorded; [done| |].
    - destruct Hf as [Hc _]. by rewrite (ce_network _ _ Hc).
    - intros s' ok w' Ha' Hf' Hs'. apply (H ok). constructor; cbn [fst snd].
      + done.
      + by etransitivity.
      + by eapply net_step_trans.
      + rewrite He. unfold call_errors. rewrite omap_app. by destruct ok. }
  apply (proj1 (wp_bind _ _ _ _)) in Hr. apply wp_bind. eapply wp_mono; [exact Hr|]. intros e w2 H2. apply wp_bind. exact H2.
Qed.

(** The end of the restoration, after all calls of the snapshot. *)
Lemma wp_restore_end s w calls acc w1 (Q : recoveryState * list runError -> world -> Prop) :
  restoring s w calls acc w1 -> calls.*1 = restore_calls (Snapshot s) ->
  (forall s' errs w', armed s' w' -> same_flags s s' ->
     (exists calls, net_step w calls w' /\ (errs = [] -> calls = (fun c => (c, true)) <$> restore_calls (Snapshot s))) ->
     Q (s', errs) w') ->
  wp (match acc.2 with
      | _ :: _ =>
        let s := set_status "restore-failed" "restore-incomplete" acc.2 acc.1 in
        _ ← writeState oracle s; mret (s, acc.2)
      | [] =>
        let s := set_status "restoring" "network-restored" [] acc.1 in
        ok ← writeState oracle s; mret (s, if ok : bool then [] else [ErrJournal])
      end) Q w1.
Proof.
  intros [Ha Hf Hs He] Hcalls H. destruct acc as [s1 errs]. cbn [fst snd] in *.
  destruct errs as [|e errs]; cbv zeta; apply wp_bind;
    (eapply (wp_writeState s1); [done|done|]); intros ok w2 Ha2 Hl2 _; apply wp_ret; apply H; try done.
  - by etransitivity.
  - exists calls. split; [by eapply net_step_log|]. intros _. rewrite <- Hcalls. by apply call_errors_nil.
  - by etransitivity.
  - exists calls. split; [by eapply net_step_log|done].
Qed.

Lemma setNetSelect_call mode :
  bool_decide (mode = ""%string) = false -> setNetSelect oracle mode = callUBUS oracle (SetNetSelect mode).
Proof. intros H. unfold setNetSelect. by rewrite H. Qed.

(** Restoring the network makes exactly the calls of the snapshot, unless the
    journal cannot be written before them. *)
Lemma wp_restoreNetwork s (Q : recoveryState * list runError -> world -> Prop) w :
  armed s w -> NetworkRestoreRequired s = true ->
  (forall s' errs w', armed s' w' -> same_flags s s' ->
     (exists calls, net_step w calls w' /\ (errs = [] -> calls = (fun c => (c, true)) <$> restore_calls (Snapshot s))) ->
     Q (s', errs) w') ->
  wp (restoreNetwork oracle s) Q w.
Proof.
  intros Ha Hn H. unfold restoreNetwork.
  set (s0 := inc_attempts (set_status "restoring" "restore-started" (LastError s) s)).
  assert (H0 : same_flags s s0) by done.
  apply wp_bind. eapply (wp_writeState s); [done|by apply same_flags_weaker|].
  intros ok w0 Ha0 Hl0 _. destruct ok; cbn [negb].
  2:{ apply wp_ret. apply H; [done|done|]. exists []. split; [by apply net_step_refl|done]. }
  assert (Hr0 : restoring s w [] (s0, []) w0) by (constructor; try done; by apply net_step_refl).
  change (Snapshot s0) with (Snapshot s). clearbody s0.
  change (setNRCellLock oracle "0" "0" "0") with (callUBUS oracle (SetNRCellLock "0" "0" "0")).
  change (setNRBand oracle "SA" (NRBandSA (Snapshot s))) with (callUBUS oracle (SetNRBand "SA" (NRBandSA (Snapshot s)))).
  change (setNRBand oracle "NSA" (NRBandNSA (Snapshot s)))
    with (callUBUS oracle (SetNRBand "NSA" (NRBandNSA (Snapshot s)))).
  eapply wp_restore_call; [done|exact Hr0|]. intros ok1 acc1 w1 Hr1.
  eapply wp_restore_call; [done|exact Hr1|]. intros ok2 acc2 w2 Hr2.
  eapply wp_restore_call; [done|exact Hr2|]. intros ok3 acc3 w3 Hr3.
  unfold setNRCellLock.
  destruct (bool_decide (NetSelect (Snapshot s) = ""%string)) eqn:Hsel.
  - apply wp_bind, wp_ret. destruct (isActiveCellLock (Snapshot s)) eqn:Hlock.
    + eapply wp_restore_call; [done|exact Hr3|]. intros ok4 acc4 w4 Hr4.
      eapply wp_restore_end; [exact Hr4| |exact H]. unfold restore_calls. by rewrite Hsel, Hlock.
    + apply wp_bind, wp_ret. eapply wp_restore_end; [exact Hr3| |exact H]. unfold restore_calls.
      by rewrite Hsel, Hlock.
  - rewrite setNetSelect_call by done. eapply wp_restore_call; [done|exact Hr3|]. intros ok4 acc4 w4 Hr4.
    destruct (isActiveCellLock (Snapshot s)) eqn:Hlock.
    + eapply wp_restore_call; [done|exact Hr4|]. intros ok5 acc5 w5 Hr5.
      eapply wp_restore_end; [exact Hr5| |exact H]. unfold restore_calls. by rewrite Hsel, Hlock.
    + apply wp_bind, wp_ret. eapply wp_restore_end; [exact Hr4| |exact H]. unfold restore_calls.
      by rewrite Hsel, Hlock.
Qed.

(** * The invariant of a run *)

Section Invariant.
Context (production : list Z) (nc : bool) (snap : networkSnapshot).

(** What holds of the in-memory state and the world while a run or a recovery
    is under way. *)
Record inv (s : recoveryState) (w : world) : Prop := mkInv {
  i_armed : armed s w; i_entries : Forall (entry_ok production) (w_log w);
  i_schema : Schema s = stateSchema; i_network : NetworkRestoreRequired s = nc; i_snapshot : Snapshot s = snap;
  i_production : ProductionQTrace s = production;
  i_trace : TraceRestoreRequired s = false -> trace_clean (w_log w) = true;
  i_calls : nc = false -> network_calls (w_log w) = [];
  i_lenient : lenient -> trace_clean (w_log w) = true }.

(** What holds of the world when nothing is under way. *)
Definition settled (w : world) : Prop :=
  Forall (entry_ok production) (w_log w) /\
  match w_journal w with
  | None => trace_clean (w_log w) = true /\ net_restored snap (w_log w)
  | Some j => Schema j = stateSchema /\ NetworkRestoreRequired j = nc /\ Snapshot j = snap /\
              ProductionQTrace j = production /\
              (TraceRestoreRequired j = false -> trace_clean (w_log w) = true) /\
              (nc = false -> network_calls (w_log w) = [])
  end.

Lemma inv_settled s w : inv s w -> settled w.
Proof.
  intros [(j & Hj & Hc & Htr) He Hs Hn Hsn Hp Ht Hcalls Hlen]. split; [done|]. rewrite Hj.
  destruct Hc as [H1 H2 H3 H4]. split_and!; [congruence..| |done].
  intros Hjf. destruct (TraceRestoreRequired s); [|auto]. destruct (Htr eq_refl); [congruence|auto].
Qed.

Lemma inv_same s w w' : inv s w -> w_journal w' = w_journal w -> w_log w' = w_log w -> inv s w'.
Proof.
  intros [Ha He Hs Hn Hsn Hp Ht Hcalls Hlen] Hj Hl. constructor; rewrite ?Hl; try done. by eapply armed_journal.
Qed.

Lemma inv_state s s' w :
  inv s w -> same_flags s s' -> inv s' w.
Proof.
  intros [Ha He Hs Hn Hsn Hp Ht Hcalls Hlen] [[H1 H2 H3 H4] H5]. constructor; try done; try congruence.
  - destruct Ha as (j & Hj & [] & Htr). exists j. split_and!; [done|constructor; congruence|]. by rewrite H5.
  - by rewrite H5.
Qed.

Lemma wp_inv_write s s' Q w :
  inv s w -> weaker s s' -> (TraceRestoreRequired s' = false -> trace_clean (w_log w) = true) ->
  (forall ok w', inv s' w' -> w_log w' = w_log w -> (ok = true -> w_journal w' = Some s') -> Q ok w') ->
  wp (writeState oracle s') Q w.
Proof.
  intros [Ha He Hs Hn Hsn Hp Ht Hcalls Hlen] Hw Hclean H. eapply wp_writeState; [done|done|].
  intros ok w' Ha' Hl Hj. apply H; [|done|done]. destruct Hw as [[H1 H2 H3 H4] H5].
  constructor; rewrite ?Hl; try done; congruence.
Qed.

(** Steps that keep the invariant. *)
Definition safe_step (s : recoveryState) (m : M (option runError)) : Prop :=
  forall w Q, inv s w -> (forall e w', inv s w' -> Q e w') -> wp m Q w.

Lemma safe_fallible s e : safe_step s (fallible oracle e).
Proof. intros w Q Hi H. apply wp_fallible. intros r n. apply H. by eapply inv_same. Qed.

Lemma safe_ret s e : safe_step s (mret e).
Proof. intros w Q Hi H. by apply H. Qed.

Lemma safe_callUBUS s call : nc = true -> safe_step s (callUBUS oracle call).
Proof.
  intros Hnc w Q Hi H. apply wp_callUBUS. intros ok w' Hj Hl. apply H.
  destruct Hi as [Ha He Hs Hn Hsn Hp Ht Hcalls Hlen]. constructor; rewrite ?Hl; try done.
  - by eapply armed_journal.
  - apply Forall_app. split; [done|]. constructor; [|constructor]. destruct Ha as (j & Hjw & [] & _).
    exists j. split; [done|congruence].
  - intros Hf. rewrite trace_clean_app, (Ht Hf). done.
  - congruence.
  - intros Hf. rewrite trace_clean_app, (Hlen Hf). done.
Qed.

Lemma safe_setNetSelect s mode : nc = true -> safe_step s (setNetSelect oracle mode).
Proof. intros Hnc. unfold setNetSelect. case_bool_decide; [apply safe_ret|by apply safe_callUBUS]. Qed.

Lemma wp_marked s call action Q w :
  safe_step s call -> inv s w ->
  (forall s' e w', inv s' w' -> same_flags s s' -> Q (s', e) w') -> wp (marked oracle s call action) Q w.
Proof.
  intros Hcall Hi H. unfold marked, markRecoveryAction. apply wp_bind, Hcall; [done|]. intros e w1 Hi1.
  apply wp_bind, wp_bind. eapply (wp_inv_write s); [done|by destruct e| |].
  - intros Hf. apply (i_trace _ _ Hi1). by destruct e.
  - intros ok w2 Hi2 _ _. apply wp_ret, wp_ret. apply H; [done|by destruct e].
Qed.

Lemma wp_run_action exp target ms s Q w :
  networkChanged exp = nc -> inv s w ->
  (forall s' e w', inv s' w' -> same_flags s s' -> Q (s', e) w') -> wp (run_action oracle exp target ms s) Q w.
Proof.
  intros Hexp Hi H.
  assert (Hmarked : forall s1 call action w1 (K : recoveryState * option runError -> M (recoveryState * option runError)),
    nc = true -> inv s1 w1 -> same_flags s s1 -> safe_step s1 call ->
    (forall s2 w2, inv s2 w2 -> same_flags s s2 -> wp (K (s2, None)) Q w2) ->
    wp (r ← marked oracle s1 call action; match r.2 with Some _ => mret r | None => K r end) Q w1).
  { intros s1 call action w1 K Hnc Hi1 Hf1 Hc HK. apply wp_bind. eapply wp_marked; [done|done|].
    intros s2 e w2 Hi2 Hf2. assert (same_flags s s2) by by etransitivity.
    destruct e; cbn [snd]; [apply wp_ret; by apply H|by apply HK]. }
  assert (Hlast : forall s1 call action w1, nc = true -> inv s1 w1 -> same_flags s s1 -> safe_step s1 call ->
    wp (marked oracle s1 call action) Q w1).
  { intros s1 call action w1 Hnc Hi1 Hf1 Hc. eapply wp_marked; [done|done|]. intros s2 e w2 Hi2 Hf2.
    apply H; [done|by etransitivity]. }
  unfold run_action. destruct exp; cbn [networkChanged] in Hexp.
  - apply wp_ret. by apply H.
  - apply wp_ret. by apply H.
  - apply Hlast; [done..|]. by apply safe_callUBUS.
  - apply Hmarked; [done..|by apply safe_callUBUS|]. intros s2 w2 Hi2 Hf2. cbn [fst].
    apply Hlast; [done..|by apply safe_setNetSelect].
  - apply Hmarked; [done..|by apply safe_setNetSelect|]. intros s2 w2 Hi2 Hf2. cbn [fst].
    apply wp_bind. eapply safe_fallible; [exact Hi2|]. intros e w3 Hi3.
    destruct e; [apply wp_ret; by apply H|].
    apply Hmarked; [done..|by apply safe_callUBUS|]. intros s4 w4 Hi4 Hf4. cbn [fst].
    apply Hlast; [done..|by apply safe_setNetSelect].
  - destruct (TPCI target); [|apply wp_ret; by apply H].
    apply Hmarked; [done..|by apply safe_callUBUS|]. intros s2 w2 Hi2 Hf2. cbn [fst].
    apply Hlast; [done..|by apply safe_setNetSelect].
Qed.

(** ** Trace configurations *)

Lemma wp_and_then s m k Q w :
  safe_step s m -> inv s w ->
  (forall e w', inv s w' -> Q (Some e) w') -> (forall w', inv s w' -> wp k Q w') -> wp (and_then m k) Q w.
Proof.
  intros Hm Hi He Hk. unfold and_then. apply wp_bind, Hm; [done|]. intros e w' Hi'.
  destruct e; [apply wp_ret; by apply He|by apply Hk].
Qed.

Lemma safe_and_then s m k : safe_step s m -> safe_step s k -> safe_step s (and_then m k).
Proof. intros Hm Hk w Q Hi H. eapply wp_and_then; [done|done|auto|]. intros w' Hi'. by apply Hk. Qed.

Lemma safe_ensure s : safe_step s (ensureNoDiagMDLog oracle).
Proof. apply safe_fallible. Qed.

Lemma safe_start_production s : safe_step s (startDiagMDLog oracle false).
Proof.
  unfold startDiagMDLog. repeat (apply safe_and_then; [apply safe_fallible|]).
  intros w Q Hi H. apply wp_bind, wp_attempt. intros ok. destruct ok; apply H; by eapply inv_same.
Qed.

Lemma safe_start_active s :
  ~ lenient -> TraceRestoreRequired s = true -> safe_step s (startDiagMDLog oracle true).
Proof.
  intros Hstrict Htr. unfold startDiagMDLog. repeat (apply safe_and_then; [apply safe_fallible|]).
  intros w Q Hi H. apply wp_bind, wp_attempt. intros ok. destruct ok; [|apply H; by eapply inv_same].
  apply wp_bind, wp_effect, wp_ret, H. cbn [w_next w_journal w_log].
  destruct Hi as [Ha He Hs Hn Hsn Hp Ht Hcalls Hlen]. constructor; cbn [w_log]; try done.
  - apply Forall_app. split; [done|]. constructor; [|constructor]. destruct Ha as (j & Hj & [] & Hjt).
    exists j. split_and!; [done|by destruct (Hjt Htr)|congruence].
  - rewrite Htr. done.
  - intros Hnc. unfold network_calls. rewrite omap_app. cbn. rewrite app_nil_r. by apply Hcalls.
Qed.

Lemma wp_restoreProductionTrace s Q w :
  inv s w -> (forall errs w', inv s w' -> (errs = [] -> trace_clean (w_log w') = true) -> Q errs w') ->
  wp (restoreProductionTrace oracle) Q w.
Proof.
  intros Hi H. unfold restoreProductionTrace. apply wp_bind.
  apply (safe_and_then s); [apply safe_ensure|apply safe_start_production|done|].
  intros e w1 Hi1. destruct e as [e|]; [by apply wp_ret, H|].
  apply wp_bind. eapply safe_fallible; [exact Hi1|]. intros e1 w2 Hi2.
  apply wp_bind. eapply safe_fallible; [exact Hi2|]. intros e2 w3 Hi3.
  apply wp_bind, wp_effect, wp_ret. apply H; cbn [w_log].
  - destruct Hi3 as [Ha He Hs Hn Hsn Hp Ht Hcalls Hlen]. constructor; cbn [w_log]; try done.
    + apply Forall_app. split; [done|]. by repeat constructor.
    + intros Hf. rewrite trace_clean_app, (Ht Hf). by destruct (option_list e1 ++ option_list e2).
    + intros Hnc. unfold network_calls. rewrite omap_app. cbn. rewrite app_nil_r. by apply Hcalls.
    + intros Hf. rewrite trace_clean_app, (Hlen Hf). by destruct (option_list e1 ++ option_list e2).
  - intros ->. by rewrite trace_clean_app.
Qed.

Lemma wp_inv_restoreNetwork_clean s Q w :
  nc = true -> inv s w ->
  (forall s' errs w', inv s' w' -> same_flags s s' -> trace_clean (w_log w') = trace_clean (w_log w) ->
     (errs = [] -> net_restored snap (w_log w')) -> Q (s', errs) w') ->
  wp (restoreNetwork oracle s) Q w.
Proof.
  intros Hnc Hi H. pose proof Hi as [Ha He Hs Hn Hsn Hp Ht Hcalls Hlen].
  eapply wp_restoreNetwork; [done|congruence|]. intros s' errs w' Ha' Hf (calls & Hstep & Hok).
  apply H; [|done| |].
  - destruct Hf as [[H1 H2 H3 H4] H5]. constructor; try congruence; try done.
    + by eapply net_step_entries.
    + intros Hf'. rewrite (net_step_trace _ _ _ Hstep). apply Ht. congruence.
    + intros Hf'. rewrite (net_step_trace _ _ _ Hstep). auto.
  - by eapply net_step_trace.
  - intros ->. right. exists (network_calls (w_log w)). rewrite (net_step_calls _ _ _ Hstep).
    by rewrite Hok, Hsn.
Qed.

(** ** The run *)

Lemma wp_removeState (Q : bool -> world -> Prop) w :
  (forall (ok : bool) w', w_log w' = w_log w -> w_journal w' = (if ok then None else w_journal w) -> Q ok w') ->
  wp (removeState oracle) Q w.
Proof.
  intros H. unfold wp, removeState, attempt. cbn [fst snd w_next]. destruct (oracle (w_next w)); by apply H.
Qed.

Lemma is_nil_true {A} (l : list A) : is_nil l = true <-> l = (@nil A).
Proof. by destruct l. Qed.

(** The end of the body: an error-free run met the target and removed the
    journal; otherwise the journal is still there. *)
Definition body_post (target : targetSpec) (ms : measurement) (b : locals * runResult)
    (w : world) : Prop :=
  settled w /\
  (r_errors b.2 = [] -> r_success b.2 = true /\ hasTargetResult (ms_results ms) target = true /\ w_journal w = None) /\
  match w_journal w with
  | None => l_traceApplied b.1 = false
  | Some _ => inv (l_state b.1) w /\ r_errors b.2 <> []
  end.

Lemma finish_post target ms monitored actionErr state traceErr restoreErr w :
  settled w -> (restoreErr = [] -> traceErr = [] -> w_journal w = None) ->
  match w_journal w with
  | None => is_nil traceErr = true
  | Some _ => inv state w /\ restoreErr ++ traceErr <> []
  end ->
  let parseErr := match ms_final ms with Some _ => [] | None => [ErrParse] end in
  let results := match ms_final ms with Some results => results | None => monitored end in
  let success := hasTargetResult results target && is_nil actionErr && is_nil parseErr &&
                 is_nil restoreErr && is_nil traceErr in
  body_post target ms
    (mkLocals state (negb (is_nil traceErr)) false,
     mkResult ((if success then [] else [ErrMeasurement]) ++ actionErr ++ parseErr ++ restoreErr ++ traceErr)
       success (is_nil restoreErr && is_nil traceErr)) w.
Proof.
  intros Hs Hnone Hj parseErr results success. split; [done|]. cbn [fst snd r_errors r_success l_state l_traceApplied]. split.
  - intros Hnil. destruct success eqn:Hsucc; [|done]. unfold success in Hsucc.
    rewrite !andb_true_iff, !is_nil_true in Hsucc. destruct Hsucc as ((((Ht & _) & Hp) & Hr) & Htr).
    unfold ms_results. unfold results, parseErr in *. destruct (ms_final ms); [auto|done].
  - destruct (w_journal w); [|by rewrite Hj]. destruct Hj as [Hi Hne]. split; [done|].
    intros Hnil. apply Hne. destruct (if success then _ else _); [|done].
    destruct actionErr; [|done]. by destruct parseErr.
Qed.

Lemma wp_attempt_inv s (Q : bool -> world -> Prop) w : inv s w -> (forall ok w', inv s w' -> w_journal w' = w_journal w -> Q ok w') -> wp (attempt oracle) Q w.
Proof. intros Hi H. apply wp_attempt. intros ok. apply H; [by eapply inv_same|done]. Qed.

Lemma wp_finish_run exp target ms monitored actionErr s Q w :
  networkChanged exp = nc -> inv s w ->
  (forall b w', body_post target ms b w' -> Q b w') -> wp (finish_run oracle exp target ms monitored actionErr s) Q w.
Proof.
  intros Hexp Hi H. unfold finish_run. apply wp_bind. eapply wp_restoreProductionTrace; [exact Hi|].
  intros traceErr w1 Hi1 Hclean1. apply wp_bind.
  assert (Htrace : forall Q' : recoveryState -> world -> Prop, (forall s2 w2, inv s2 w2 -> (is_nil traceErr = true -> trace_clean (w_log w2) = true) -> Q' s2 w2) ->
    wp (if is_nil traceErr then
          let s := set_stage "trace-restored" (add_action "production-qsh-mask-restored" (set_trace false s)) in
          _ ← writeState oracle s; mret s
        else mret s) Q' w1).
  { intros Q' HQ. destruct (is_nil traceErr) eqn:Hn; [|apply wp_ret, HQ; done]. apply is_nil_true in Hn.
    cbv zeta. apply wp_bind. eapply (wp_inv_write s); [done|done|by intros; apply Hclean1|].
    intros ok w2 Hi2 Hl2 _. apply wp_ret, HQ; [done|]. intros _. rewrite Hl2. by apply Hclean1. }
  apply Htrace. clear Htrace. intros s2 w2 Hi2 Hclean2. apply wp_bind.
  assert (Hnet : forall Q' : recoveryState * list runError -> world -> Prop, (forall s3 errs w3, inv s3 w3 -> same_flags s2 s3 ->
        (is_nil traceErr = true -> trace_clean (w_log w3) = true) -> (errs = [] -> net_restored snap (w_log w3)) ->
        Q' (s3, errs) w3) ->
    wp (if networkChanged exp then restoreNetwork oracle s2
        else let s := set_stage "network-unchanged" s2 in _ ← writeState oracle s; mret (s, [])) Q' w2).
  { intros Q' HQ. destruct (networkChanged exp) eqn:Hnc.
    - eapply wp_inv_restoreNetwork_clean; [by rewrite <- Hexp|exact Hi2|]. intros s3 errs w3 Hi3 Hf3 Hc3 Hr3.
      apply HQ; [done|done| |done]. intros Hn. rewrite Hc3. by apply Hclean2.
    - cbv zeta. apply wp_bind. eapply (wp_inv_write s2); [done|done|apply (i_trace _ _ Hi2)|].
      intros ok w3 Hi3 Hl3 _. apply wp_ret, HQ; [done|done| |].
      + intros Hn. rewrite Hl3. by apply Hclean2.
      + intros _. left. by apply (i_calls _ _ Hi3). }
  apply Hnet. clear Hnet. intros s3 restoreErr w3 Hi3 Hf3 Hclean3 Hnet3. apply wp_bind.
  destruct (is_nil restoreErr && is_nil traceErr) eqn:Hboth.
  - apply andb_true_iff in Hboth as [Hr Ht]. apply is_nil_true in Hr as ->. apply is_nil_true in Ht as ->.
    cbv zeta. apply wp_bind. eapply (wp_inv_write s3); [done|done|apply (i_trace _ _ Hi3)|].
    intros ok w4 Hi4 Hl4 _. destruct ok; cbn [negb].
    + apply wp_bind, wp_removeState. intros removed w5 Hl5 Hj5. apply wp_ret, wp_bind, wp_attempt. intros ok.
      apply wp_ret, H. apply finish_post; destruct removed; cbn [w_journal w_log]; rewrite ?Hj5; try done.
      * split; cbn [w_log w_journal]; [rewrite Hl5; apply (i_entries _ _ Hi4)|]. rewrite Hl5, Hl4. auto.
      * eapply inv_settled, inv_same; [exact Hi4|done|done].
      * destruct Hi4 as [(j & Hj & ?) ? ? ? ? ? ?]. rewrite Hj. split; [|done].
        eapply inv_same; [by constructor; [exists j|..]|done|done].
    + apply wp_ret, wp_bind. eapply wp_attempt_inv; [exact Hi4|]. intros ok w5 Hi5 _. apply wp_ret, H.
      apply finish_post; [by eapply inv_settled|done|].
      destruct (i_armed _ _ Hi5) as (j & -> & _). done.
  - apply wp_ret, wp_bind. eapply wp_attempt_inv; [exact Hi3|]. intros ok w5 Hi5 _. apply wp_ret, H.
    apply finish_post; [by eapply inv_settled| |].
    + intros -> ->. done.
    + destruct (i_armed _ _ Hi5) as (j & -> & _). split; [done|].
      intros Hnil. apply app_eq_nil in Hnil as [-> ->]. done.
Qed.

Lemma body_post_early target ms s traceApplied process errors w :
  inv s w -> errors <> [] -> body_post target ms (mkLocals s traceApplied process, failed_with errors) w.
Proof.
  intros Hi Hne. split; [by eapply inv_settled|]. cbn [fst snd r_errors failed_with]. split; [done|].
  by destruct (i_armed _ _ Hi) as (j & -> & _).
Qed.

End Invariant.
End Specs.

Section Transaction.
Context (oracle : nat -> bool) (production : list Z) (exp : experimentID) (snap : networkSnapshot).
Abbreviation nc := (networkChanged exp).
Abbreviation invariant := (fun lenient => inv lenient production nc snap).

(** The first write that asks for the restoration of the trace: until it
    succeeds the trace is untouched. *)
Lemma wp_write_required s (Q : bool -> world -> Prop) w :
  let s' := set_stage "active-trace-starting" (set_trace true s) in
  invariant False s w -> TraceRestoreRequired s = false ->
  (forall w', invariant False s' w' -> Q true w') ->
  (forall w', invariant True s' w' -> Q false w') ->
  wp (writeState oracle s') Q w.
Proof.
  intros s' Hi Hs Ht Hf. unfold wp, writeState, attempt. cbn [fst snd w_next].
  destruct Hi as [Ha He Hsc Hn Hsn Hp Htr Hcalls Hlen].
  destruct (oracle (w_next w)); cbn [fst snd]; [apply Ht|apply Hf]; constructor; try done.
  - exists s'. split_and!; [done|done|by left].
  - destruct Ha as (j & Hj & Hc & _). exists j. split_and!; [done|by destruct Hc; constructor|by right].
  - intros _. by apply Htr.
Qed.

(** What the deferred function may rely on. *)
Definition pending (target : targetSpec) (ms : measurement) (b : locals * runResult) (w : world) : Prop :=
  exists lenient, body_post lenient production nc snap target ms b w.

Lemma wp_experiment_body target ms s (Q : locals * runResult -> world -> Prop) w :
  invariant False s w -> TraceRestoreRequired s = false ->
  (forall b w', pending target ms b w' -> Q b w') -> wp (experiment_body oracle exp target ms s) Q w.
Proof.
  intros Hi Htr H. unfold experiment_body. cbv zeta. apply wp_bind. apply wp_write_required; [done|done| |].
  2:{ intros w1 Hi1. apply wp_ret, H. exists True. by apply body_post_early. }
  set (s1 := set_stage "active-trace-starting" (set_trace true s)). intros w1 Hi1.
  assert (Hs1 : TraceRestoreRequired s1 = true) by done. clearbody s1. cbn [negb].
  apply wp_bind. eapply safe_start_active; [|exact Hs1|exact Hi1|]; [tauto|]. intros started w2 Hi2.
  assert (Hweak : forall s2, core_eq s1 s2 -> TraceRestoreRequired s2 = true -> weaker s1 s2) by by intros.
  destruct started as [err|].
  - apply wp_bind. eapply (wp_inv_write _ _ _ _ _ s1); [exact Hi2|by apply Hweak|
      intros Hf; change (TraceRestoreRequired s1 = false) in Hf; congruence|].
    intros ok w3 Hi3 _ _. apply wp_ret, H. exists False. by apply body_post_early.
  - apply wp_bind. eapply (wp_inv_write _ _ _ _ _ s1); [exact Hi2|by apply Hweak|
      intros Hf; change (TraceRestoreRequired s1 = false) in Hf; congruence|].
    intros ok w3 Hi3 _ _. apply wp_bind. eapply safe_fallible; [exact Hi3|]. intros settled4 w4 Hi4.
    destruct settled4 as [err|]; [apply wp_ret, H; exists False; by apply body_post_early|].
    apply wp_bind. eapply wp_run_action; [done|exact Hi4|]. intros s5 e w5 Hi5 _.
    cbn [snd]. destruct (observe target ms e) as [monitored actionErr].
    apply wp_bind. eapply safe_fallible; [exact Hi5|]. intros e6 w6 Hi6.
    eapply wp_finish_run; [done|exact Hi6|]. intros b w7 Hb. apply H. by exists False.
Qed.

(** The result of the deferred function: the world is settled, and an
    error-free run is one whose body was. *)
Lemma wp_deferred target ms b (Q : runResult -> world -> Prop) w :
  pending target ms b w ->
  (forall r w', settled production nc snap w' ->
     (r_errors r = [] -> r_success r = true /\ hasTargetResult (ms_results ms) target = true /\ w_journal w' = None) ->
     Q r w') ->
  wp (deferred oracle exp b.1 b.2) Q w.
Proof.
  intros (lenient & Hset & Hok & Hj) H. unfold deferred. destruct (w_journal w) as [j0|] eqn:Hw.
  2:{ rewrite Hj. apply wp_bind.
      assert (Hstop : forall Q', (forall e n, Q' e (mkWorld n (w_journal w) (w_log w))) ->
        wp (if l_process b.1 then stop oracle else mret None) Q' w).
      { intros Q' HQ. destruct (l_process b.1); [by apply wp_fallible|]. apply wp_ret.
        specialize (HQ None (w_next w)). by destruct w. }
      apply Hstop. intros e n. apply wp_bind, wp_ret, wp_bind. unfold wp, get_journal. cbn [fst snd w_journal].
      rewrite Hw. apply H; [|done]. unfold settled in *. by rewrite Hw in *. }
  destruct Hj as [Hi Hne]. clear Hok Hset Hw.
  assert (Hfail : forall errs w', settled production nc snap w' ->
            Q (mkResult (r_errors b.2 ++ errs) (r_success b.2) (r_restored b.2)) w').
  { intros errs w' Hs. apply H; [done|]. cbn [r_errors]. intros Hnil. by apply app_eq_nil in Hnil as [? _]. }
  assert (Hfail0 : forall w', settled production nc snap w' ->
            Q (mkResult (r_errors b.2) (r_success b.2) (r_restored b.2)) w').
  { intros w' Hs. specialize (Hfail [] w' Hs). by rewrite app_nil_r in Hfail. }
  apply wp_bind.
  assert (Hstop : forall Q' : option runError -> world -> Prop, (forall e w', invariant lenient (l_state b.1) w' -> Q' e w') ->
    wp (if l_process b.1 then stop oracle else mret None) Q' w).
  { intros Q' HQ. destruct (l_process b.1); [eapply safe_fallible; [exact Hi|exact HQ]|apply wp_ret; by apply HQ]. }
  apply Hstop. clear Hstop. intros e w1 Hi1. apply wp_bind.
  assert (Htrace : forall Q' : recoveryState * list runError -> world -> Prop,
    (forall s' errs w', invariant lenient s' w' -> Q' (s', r_errors b.2 ++ errs) w') ->
    wp (if l_traceApplied b.1 then
          e ← restoreProductionTrace oracle;
          if is_nil e then let s := set_trace false (l_state b.1) in _ ← writeState oracle s; mret (s, r_errors b.2)
          else mret (l_state b.1, r_errors b.2 ++ e)
        else mret (l_state b.1, r_errors b.2)) Q' w1).
  { intros Q' HQ. destruct (l_traceApplied b.1).
    - apply wp_bind. eapply wp_restoreProductionTrace; [exact Hi1|]. intros errs w2 Hi2 Hclean.
      destruct errs as [|err errs]; cbn [is_nil]; [|apply wp_ret; by apply HQ].
      cbv zeta. apply wp_bind. eapply (wp_inv_write _ _ _ _ _ (l_state b.1)); [exact Hi2|done|by intros; apply Hclean|].
      intros ok w3 Hi3 _ _. apply wp_ret. rewrite <- (app_nil_r (r_errors b.2)). by apply HQ.
    - apply wp_ret. rewrite <- (app_nil_r (r_errors b.2)). by apply HQ. }
  apply Htrace. clear Htrace. intros s2 errs w2 Hi2. apply wp_bind. unfold wp at 1, get_journal. cbn [fst snd].
  destruct (i_armed _ _ _ _ _ _ Hi2) as (j & Hj & _). rewrite Hj. clear j Hj j0.
  destruct (networkChanged exp) eqn:Hnc.
  - apply wp_bind. eapply (wp_inv_restoreNetwork_clean _ _ _ true); [done|exact Hi2|]. intros s3 nerrs w3 Hi3 _ _ Hnet.
    destruct nerrs as [|err nerrs]; cbn [is_nil fst snd].
    2:{ apply wp_ret. rewrite <- app_assoc. apply Hfail. by eapply inv_settled. }
    apply wp_bind. destruct (TraceRestoreRequired s3) eqn:Ht; [apply wp_ret|apply wp_removeState].
    + apply wp_ret, Hfail. by eapply inv_settled.
    + intros ok w4 Hl4 Hj4. apply wp_ret, Hfail. destruct ok.
      * split; [rewrite Hl4; apply (i_entries _ _ _ _ _ _ Hi3)|]. rewrite Hj4, Hl4.
        split; [by apply (i_trace _ _ _ _ _ _ Hi3)|by apply Hnet].
      * eapply inv_settled, inv_same; [exact Hi3|done|done].
  - apply wp_bind. destruct (TraceRestoreRequired s2) eqn:Ht; [apply wp_ret|apply wp_removeState].
    + apply wp_ret, Hfail. by eapply inv_settled.
    + intros ok w4 Hl4 Hj4. apply wp_ret, Hfail. destruct ok.
      * split; [rewrite Hl4; apply (i_entries _ _ _ _ _ _ Hi2)|]. rewrite Hj4, Hl4.
        split; [by apply (i_trace _ _ _ _ _ _ Hi2)|left; by apply (i_calls _ _ _ _ _ _ Hi2)].
      * eapply inv_settled, inv_same; [exact Hi2|done|done].
Qed.

End Transaction.

(** * Theorems *)

(** Steps that touch neither the journal nor the device. *)
Definition quiet (m : M (option runError)) : Prop :=
  forall w Q, (forall e n, Q e (mkWorld n (w_journal w) (w_log w))) -> wp m Q w.

Lemma quiet_fallible oracle e : quiet (fallible oracle e).
Proof. intros w Q H. apply H. Qed.

Lemma quiet_and_then m k : quiet m -> quiet k -> quiet (and_then m k).
Proof.
  intros Hm Hk w Q H. unfold and_then. apply wp_bind, Hm. intros e n. destruct e; [apply H|].
  apply Hk. intros e n'. apply H.
Qed.

Lemma preflight_spec oracle i (Q : runError + list Z -> world -> Prop) w :
  (forall e n, Q (inl e) (mkWorld n (w_journal w) (w_log w))) ->
  (forall production n, w_journal w = None -> in_config2 i = Some production ->
     Q (inr production) (mkWorld n None (w_log w))) ->
  wp (preflight oracle i) Q w.
Proof.
  intros He Hok. unfold preflight.
  apply wp_bind, quiet_and_then; [apply quiet_fallible..|]. intros e n. destruct e; [apply He|].
  apply wp_bind. unfold wp at 1, get_journal. cbn [fst snd w_journal w_log].
  destruct (w_journal w) as [j|] eqn:Hj; [apply He|].
  apply wp_bind, quiet_and_then; [apply quiet_fallible|apply quiet_and_then; apply quiet_fallible|].
  intros e n1. cbn [w_journal w_log]. destruct e; [apply He|].
  destruct (in_config1 i) as [data|]; [|apply He]. destruct (patchActiveQTrace data); [|apply He..].
  apply wp_bind, quiet_fallible. intros e n2. cbn [w_journal w_log]. destruct e; [apply He|].
  destruct (in_config2 i) as [production|] eqn:Hc; [|apply He].
  apply wp_bind, quiet_fallible. intros e n3. cbn [w_journal w_log]. destruct e; [apply He|].
  by apply Hok.
Qed.

(** C1: A run is a transaction on the device.  Whatever fails, at every moment the
    journal on disk is ahead of the device; when the run returns, either the
    journal is gone, and then the production trace ran to its end after every
    active one and the network, if it was touched, was restored by a last
    sequence of calls that all succeeded; or the journal is there with the
    snapshot and the production configuration, and it asks for whatever is not
    yet restored.  A run without error found the target and left no journal. *)
Theorem runExperiment_transaction (oracle : nat -> bool) (i : runInput) (n : nat) :
  let '(r, w) := runExperiment oracle i (mkWorld n None []) in
  (r_errors r = [] -> r_success r = true /\ w_journal w = None /\
     hasTargetResult (ms_results (in_measurement i)) (in_target i) = true) /\
  ((w_journal w = None /\ w_log w = [] /\ r_errors r <> []) \/
   exists production, in_config2 i = Some production /\
     settled production (networkChanged (in_exp i)) (in_snapshot i) w).
Proof.
  apply (wp_elim _ (fun r w => _)). unfold runExperiment. apply wp_bind, preflight_spec.
  { intros e n1. apply wp_ret. split; [done|]. by left. }
  intros production n1 _ Hconfig. cbn [w_log]. cbv zeta. apply wp_bind.
  set (s := initial_state i production). unfold wp at 1, writeState, attempt. cbn [fst snd w_next].
  destruct (oracle n1); cbn [fst snd negb w_next w_journal w_log].
  2:{ apply wp_ret. split; [done|]. by left. }
  assert (Hi : inv False production (networkChanged (in_exp i)) (in_snapshot i) s (mkWorld (S n1) (Some s) [])).
  { constructor; cbn [w_log w_journal]; try done. exists s. split_and!; [done|done|by left]. }
  apply wp_bind. eapply wp_experiment_body; [exact Hi|done|]. intros b w1 Hb.
  eapply wp_deferred; [exact Hb|]. intros r w2 Hs Hr. split.
  - intros Hnil. destruct (Hr Hnil) as (? & ? & ?). done.
  - right. by exists production.
Qed.

(** A pending journal stops a run before it touches anything. *)
Lemma runExperiment_pending oracle i n j :
  let '(r, w) := runExperiment oracle i (mkWorld n (Some j) []) in
  r_errors r <> [] /\ w_journal w = Some j /\ w_log w = [].
Proof.
  apply (wp_elim _ (fun r w => _)). unfold runExperiment. apply wp_bind, preflight_spec; [|done].
  intros e n1. apply wp_ret. by split_and!.
Qed.

Lemma settled_inv production nc snap w j :
  settled production nc snap w -> w_journal w = Some j -> inv False production nc snap j w.
Proof.
  intros [He Hs] Hj. rewrite Hj in Hs. destruct Hs as (H1 & H2 & H3 & H4 & H5 & H6).
  constructor; try done. exists j. split_and!; [done|done|by left].
Qed.

Lemma wp_trace_from_state oracle production nc snap s (Q : recoveryState * list runError -> world -> Prop) w :
  inv False production nc snap s w ->
  (forall s' errs w', inv False production nc snap s' w' -> (errs = [] -> trace_clean (w_log w') = true) ->
     Q (s', errs) w') ->
  wp (restoreProductionTraceFromState oracle s) Q w.
Proof.
  intros Hi H. unfold restoreProductionTraceFromState.
  destruct (TraceRestoreRequired s) eqn:Ht; cbn [negb].
  2:{ apply wp_ret, H; [done|]. intros _. by apply (i_trace _ _ _ _ _ _ Hi). }
  destruct (ProductionQTrace s) as [|v data]; [by apply wp_ret, H|].
  destruct (patchActiveQTrace (v :: data)); [|by apply wp_ret, H..].
  apply wp_bind, (safe_and_then False production nc snap s); [apply safe_fallible..|exact Hi|]. intros e w1 Hi1.
  destruct e; [by apply wp_ret, H|].
  apply wp_bind. eapply wp_restoreProductionTrace; [exact Hi1|]. intros errs w2 Hi2 Hclean.
  destruct errs as [|err errs]; cbn [is_nil]; apply wp_ret, H; try done.
  destruct Hi2 as [(j & Hj & Hc & _) He Hs Hn Hsn Hp Htr Hcalls Hlen]. constructor; try done.
  - exists j. split_and!; [done|by destruct Hc; constructor|done].
  - intros _. by apply Hclean.
Qed.

(** C37: Recovering keeps what a run guarantees: it removes the journal only after
    everything the journal asked for was restored, removes it exactly when it
    reports no error, and otherwise leaves a journal to try again with. *)
Theorem runRecoverCommand_spec (oracle : nat -> bool) (confirm : bool) (production : list Z) (nc : bool)
    (snap : networkSnapshot) (w : world) (j : recoveryState) :
  settled production nc snap w -> w_journal w = Some j ->
  let '(errors, w') := runRecoverCommand oracle confirm w in
  settled production nc snap w' /\ (errors = [] <-> w_journal w' = None).
Proof.
  intros Hs Hj. pose proof (settled_inv _ _ _ _ _ Hs Hj) as Hi. apply (wp_elim _ (fun r w => _)).
  unfold runRecoverCommand. apply wp_bind. unfold wp at 1, get_journal. cbn [fst snd]. rewrite Hj.
  assert (Hkeep : forall (errs : list runError) lenient s' w', errs <> [] -> inv lenient production nc snap s' w' ->
            settled production nc snap w' /\ (errs = [] <-> w_journal w' = None)).
  { intros errs lenient s' w' Hne Hi'. split; [by eapply inv_settled|].
    destruct (i_armed _ _ _ _ _ _ Hi') as (j' & -> & _). done. }
  destruct (valid_journal j); cbn [negb]; [|by apply wp_ret, (Hkeep _ False j)].
  destruct (NetworkRestoreRequired j && negb confirm); [by apply wp_ret, (Hkeep _ False j)|].
  apply wp_bind. eapply wp_trace_from_state; [exact Hi|]. intros s1 traceErr w1 Hi1 Hclean. apply wp_bind.
  assert (Hnet : forall Q' : recoveryState * list runError -> world -> Prop,
    (forall s2 errs w2, inv False production nc snap s2 w2 -> trace_clean (w_log w2) = trace_clean (w_log w1) ->
       (errs = [] -> net_restored snap (w_log w2)) -> Q' (s2, errs) w2) ->
    wp (if NetworkRestoreRequired s1 then restoreNetwork oracle s1
        else let s := set_stage "network-unchanged" s1 in
             ok ← writeState oracle s; mret (s, if ok : bool then [] else [ErrJournal])) Q' w1).
  { intros Q' HQ. rewrite (i_network _ _ _ _ _ _ Hi1). destruct nc eqn:Hnc.
    - eapply (wp_inv_restoreNetwork_clean _ _ _ true); [done|exact Hi1|]. intros s2 errs w2 Hi2 _ Hc Hr. by apply HQ.
    - cbv zeta. apply wp_bind. eapply (wp_inv_write _ _ _ _ _ s1); [exact Hi1|done|apply (i_trace _ _ _ _ _ _ Hi1)|].
      intros ok w2 Hi2 Hl2 _. apply wp_ret, HQ; [done|by rewrite Hl2|].
      intros _. left. by apply (i_calls _ _ _ _ _ _ Hi2). }
  apply Hnet. clear Hnet. intros s2 netErr w2 Hi2 Hc2 Hr2.
  destruct (traceErr ++ netErr) as [|err errs] eqn:Herrs.
  - apply app_eq_nil in Herrs as [-> ->]. apply wp_bind.
    eapply (wp_inv_write _ _ _ _ _ s2); [exact Hi2|done|apply (i_trace _ _ _ _ _ _ Hi2)|].
    intros ok w3 Hi3 Hl3 _. destruct ok; cbn [negb]; [|by apply wp_ret, (Hkeep _ False (set_status "restored" "complete" [] s2))].
    apply wp_bind, wp_removeState. intros removed w4 Hl4 Hj4. apply wp_ret. destruct removed.
    + split; [|by rewrite Hj4]. split; [rewrite Hl4; apply (i_entries _ _ _ _ _ _ Hi3)|].
      rewrite Hj4, Hl4, Hl3, Hc2. auto.
    + eapply (Hkeep _ False); [done|]. eapply inv_same; [exact Hi3|done|done].
  - apply wp_bind. eapply (wp_inv_write _ _ _ _ _ s2); [exact Hi2|done|apply (i_trace _ _ _ _ _ _ Hi2)|].
    intros ok w3 Hi3 _ _. by eapply wp_ret, (Hkeep _ False).
Qed.

Section Success.
Context (oracle : nat -> bool) (Hsuccess : forall n, oracle n = true).

Lemma ok_write s (Q : bool -> world -> Prop) w : (forall w', Q true w') -> wp (writeState oracle s) Q w.
Proof. intros H. unfold wp, writeState, attempt. cbn [fst snd w_next]. rewrite Hsuccess. apply H. Qed.

Lemma ok_fallible e (Q : option runError -> world -> Prop) w : (forall w', Q None w') -> wp (fallible oracle e) Q w.
Proof. intros H. unfold fallible. apply wp_bind. unfold wp at 1, attempt. cbn [fst snd]. rewrite Hsuccess. apply H. Qed.

Lemma ok_and_then m k (Q : option runError -> world -> Prop) w :
  (forall Q' w, (forall w', Q' None w') -> wp m Q' w) -> (forall w', wp k Q w') -> wp (and_then m k) Q w.
Proof. intros Hm Hk. unfold and_then. apply wp_bind, Hm. apply Hk. Qed.

Lemma ok_callUBUS call (Q : option runError -> world -> Prop) w :
  (forall w', Q None w') -> wp (callUBUS oracle call) Q w.
Proof.
  intros H. unfold wp, callUBUS, attempt, effect_now, mbind, st_bind, mret, st_ret. cbn [fst snd].
  rewrite Hsuccess. apply H.
Qed.

Lemma ok_restore_call call stage acc (K : recoveryState * list runError -> M (recoveryState * list runError)) Q w :
  acc.2 = [] -> (forall s w', wp (K (s, [])) Q w') ->
  wp (e ← callUBUS oracle call; acc' ← record oracle stage acc e; K acc') Q w.
Proof.
  intros Hacc H. apply wp_bind, ok_callUBUS. intros w1. apply wp_bind. unfold record.
  apply wp_bind, ok_write. intros w2. apply wp_ret. rewrite Hacc. apply H.
Qed.

Lemma ok_restoreNetwork s (Q : recoveryState * list runError -> world -> Prop) w :
  (forall s' w', Q (s', []) w') -> wp (restoreNetwork oracle s) Q w.
Proof.
  intros H. unfold restoreNetwork. cbv zeta. apply wp_bind, ok_write. intros w1. cbn [negb]. unfold setNRCellLock.
  generalize (Snapshot (inc_attempts (set_status "restoring" "restore-started" (LastError s) s))). intros snap.
  change (setNRBand oracle "SA" (NRBandSA snap)) with (callUBUS oracle (SetNRBand "SA" (NRBandSA snap))).
  change (setNRBand oracle "NSA" (NRBandNSA snap)) with (callUBUS oracle (SetNRBand "NSA" (NRBandNSA snap))).
  apply ok_restore_call; [done|]. intros s2 w2. apply ok_restore_call; [done|]. intros s3 w3.
  apply ok_restore_call; [done|]. intros s4 w4.
  assert (Hend : forall s5 w5, wp (acc ← (if isActiveCellLock snap then
        e ← callUBUS oracle (SetNRCellLock (NRCellLockPCI snap) (NRCellLockARFCN snap) (NRCellLockBand snap));
        record oracle "restore-cell-lock" (s5, []) e
      else mret (s5, []));
    match acc.2 with
    | _ :: _ => let s := set_status "restore-failed" "restore-incomplete" acc.2 acc.1 in
                _ ← writeState oracle s; mret (s, acc.2)
    | [] => let s := set_status "restoring" "network-restored" [] acc.1 in
            ok ← writeState oracle s; mret (s, if ok : bool then [] else [ErrJournal])
    end) Q w5).
  { intros s5 w5. destruct (isActiveCellLock snap); [apply ok_restore_call; [done|]; intros s6 w6|apply wp_bind, wp_ret];
      cbn [fst snd]; apply wp_bind, ok_write; intros w7; apply wp_ret, H. }
  destruct (bool_decide (NetSelect snap = ""%string)) eqn:Hsel; [apply wp_bind, wp_ret; apply Hend|].
  rewrite setNetSelect_call by done. apply ok_restore_call; [done|]. intros s5 w5. apply Hend.
Qed.

Lemma ok_restoreProductionTrace (Q : list runError -> world -> Prop) w :
  (forall w', Q [] w') -> wp (restoreProductionTrace oracle) Q w.
Proof.
  intros H. unfold restoreProductionTrace. apply wp_bind. unfold startDiagMDLog.
  repeat (apply ok_and_then; [intros; by apply ok_fallible|]; intros).
  apply wp_bind. unfold wp at 1, attempt. cbn [fst snd]. rewrite Hsuccess. apply wp_bind, wp_ret, wp_ret.
  apply wp_bind, ok_fallible. intros w2. apply wp_bind, ok_fallible. intros w3. apply wp_bind, wp_effect, wp_ret, H.
Qed.

Lemma ok_trace_from_state s (Q : recoveryState * list runError -> world -> Prop) w :
  (TraceRestoreRequired s = true ->
     ProductionQTrace s <> [] /\ is_ok (patchActiveQTrace (ProductionQTrace s)) = true) ->
  (forall s' w', Q (s', []) w') -> wp (restoreProductionTraceFromState oracle s) Q w.
Proof.
  intros Hprod H. unfold restoreProductionTraceFromState. destruct (TraceRestoreRequired s); cbn [negb]; [|by apply wp_ret].
  destruct (Hprod eq_refl) as [Hne Hok]. destruct (ProductionQTrace s) as [|v data]; [exfalso; exact (Hne eq_refl)|].
  destruct (patchActiveQTrace (v :: data)); [|discriminate Hok..].
  apply wp_bind, ok_and_then; [intros; by apply ok_fallible|]. intros w1. apply ok_fallible. intros w2.
  apply wp_bind, ok_restoreProductionTrace. intros w3. cbn [is_nil]. apply wp_ret, H.
Qed.

End Success.

(** When every operation succeeds, recovery completes: a journal left by a run
    whose production configuration did not change between its two reads is
    worked off and removed. *)
Theorem recover_completes (oracle : nat -> bool) (confirm : bool) (w : world) (j : recoveryState) :
  (forall n, oracle n = true) -> w_journal w = Some j -> Schema j = stateSchema ->
  (NetworkRestoreRequired j = true -> confirm = true) ->
  (TraceRestoreRequired j = true ->
     ProductionQTrace j <> [] /\ is_ok (patchActiveQTrace (ProductionQTrace j)) = true) ->
  let '(errors, w') := runRecoverCommand oracle confirm w in errors = [] /\ w_journal w' = None.
Proof.
  intros Ho Hj Hs Hconfirm Hprod. apply (wp_elim _ (fun r w => _)).
  unfold runRecoverCommand. apply wp_bind. unfold wp at 1, get_journal. cbn [fst snd]. rewrite Hj.
  unfold valid_journal. rewrite Hs, Z.eqb_refl. cbn [negb].
  assert (Hc : NetworkRestoreRequired j && negb confirm = false)
    by (destruct (NetworkRestoreRequired j); [by rewrite Hconfirm|done]).
  rewrite Hc. apply wp_bind. apply ok_trace_from_state; [done|done|]. intros s1 w1. apply wp_bind.
  assert (Hnet : forall Q : recoveryState * list runError -> world -> Prop, (forall s2 w2, Q (s2, []) w2) ->
    wp (if NetworkRestoreRequired s1 then restoreNetwork oracle s1
        else let s := set_stage "network-unchanged" s1 in
             ok ← writeState oracle s; mret (s, if ok : bool then [] else [ErrJournal])) Q w1).
  { intros Q HQ. destruct (NetworkRestoreRequired s1); [by apply ok_restoreNetwork|].
    cbv zeta. apply wp_bind, ok_write; [done|]. intros w2. apply wp_ret, HQ. }
  apply Hnet. intros s2 w2. cbn [app]. apply wp_bind, ok_write; [done|]. intros w3. cbn [negb].
  apply wp_bind. unfold wp at 1, removeState, attempt. cbn [fst snd w_next]. rewrite Ho. by apply wp_ret.
Qed.

(** * Concrete runs *)

(** Experiment E without a failure: the three changes, then the restoration in
    its order, and no journal. *)
Example run_E :
  let '(r, w) := runExperiment (fun _ => true) (sample_input experimentE) (mkWorld 0 None []) in
  (r_errors r, w_journal w, network_calls (w_log w)) =
  ([], None, (fun c => (c, true)) <$>
    [SetNetSelect "Only_LTE"; SetNRBand "SA" "41"; SetNetSelect "Only_5G";
     SetNRCellLock "0" "0" "0"; SetNRBand "SA" "1,28,41"; SetNRBand "NSA" "41"; SetNetSelect "WL_AND_5G";
     SetNRCellLock "123" "504990" "41"]).
Proof. vm_compute. reflexivity. Qed.

Lemma runRecoverCommand_spec_witness :
  let w := mkWorld 0 (Some sample_journal) [] in
  settled qtrace_cfg true sample_snapshot w /\
  let '(errors, w') := runRecoverCommand (fun n => (n <? 9)%nat) true w in
  settled qtrace_cfg true sample_snapshot w' /\ (errors = [] <-> w_journal w' = None).
Proof.
  intros w. assert (H : settled qtrace_cfg true sample_snapshot w).
  { split; [constructor|]. repeat split; try reflexivity. }
  split; [exact H|].
  exact (runRecoverCommand_spec (fun n => (n <? 9)%nat) true qtrace_cfg true sample_snapshot w sample_journal H eq_refl).
Defined.

Lemma recover_completes_witness :
  let w := mkWorld 0 (Some sample_journal) [] in
  TraceRestoreRequired sample_journal = true /\
  let '(errors, w') := runRecoverCommand (fun _ => true) true w in errors = [] /\ w_journal w' = None.
Proof.
  intros w. split; [reflexivity|].
  assert (Hp : TraceRestoreRequired sample_journal = true ->
    ProductionQTrace sample_journal <> [] /\ is_ok (patchActiveQTrace (ProductionQTrace sample_journal)) = true)
    by (intros _; split; [discriminate|vm_compute; reflexivity]).
  exact (recover_completes (fun _ => true) true w sample_journal (fun _ => eq_refl) eq_refl eq_refl
    (fun _ => eq_refl) Hp).
Defined.

Lemma parseTarget_range band arfcn pci t :
  0 <= band -> 0 <= arfcn -> parseTarget band arfcn pci = Ok t ->
  1 <= TBand t <= 1024 /\ 1 <= TARFCN t <= 3279165 /\ forall p, TPCI t = Some p -> 0 <= p <= 1007.
Proof.
  intros Hb Ha. unfold parseTarget. destruct ((band =? 0) || _) eqn:H1; [done|].
  destruct ((arfcn =? 0) || _) eqn:H2; [done|]. bool_to_prop.
  assert (Hwb : u32 band = band) by (apply wrap_id; unfold in_range; lia).
  assert (Hwa : u32 arfcn = arfcn) by (apply wrap_id; unfold in_range; lia).
  rewrite Hwb, Hwa. case_bool_decide; [intros [= <-]; cbn [TBand TARFCN TPCI]; split_and!; (lia || done)|].
  destruct (ParseUint (TrimSpace pci) 10 32) as [v|] eqn:Hv; [|done].
  apply ParseUint_range in Hv; [|lia]. destruct (1007 <? v) eqn:Hlt; [done|]. bool_to_prop.
  intros [= <-]. cbn [TBand TARFCN TPCI]. split_and!; [lia..|]. intros p [= <-].
  rewrite wrap_id by (unfold in_range; lia). lia.
Qed.

(** What the command line lets through: a measurement is confirmed, a change of
    the network too, the cell lock of experiment F has its cell, the target is
    in range, and the scan request for it can be built. *)
Theorem command_target_spec (f : runFlags) (exp : experimentID) (target : targetSpec) :
  0 <= f_band f -> 0 <= f_arfcn f -> command_target f = Ok (exp, target) ->
  f_confirmActive f = true /\ (networkChanged exp = true -> f_confirmNetwork f = true) /\
  (exp = experimentF -> exists pci, TPCI target = Some pci /\ 0 <= pci <= 1007) /\
  1 <= TBand target <= 1024 /\ 1 <= TARFCN target <= 3279165 /\
  is_ok (ProbeQmi.makeNRIncrementalScanRequest 1 [TARFCN target] 2) = true.
Proof.
  intros Hb Ha. unfold command_target. destruct (parseExperiment (f_experiment f)) as [e|err|]; [|done..].
  cbn [mbind go_bind]. destruct (parseTarget _ _ _) as [t|err|] eqn:Ht; [|done..].
  apply parseTarget_range in Ht as (Hband & Harfcn & Hpci); [|done..]. cbn [map_err mbind go_bind].
  destruct (f_confirmActive f); cbn [negb]; [|done].
  destruct (networkChanged e && negb (f_confirmNetwork f)) eqn:Hnet; [done|].
  destruct (_ && bool_decide (TrimSpace _ = _)); [done|].
  destruct (bool_decide (e = experimentF) && bool_decide (TPCI t = None)) eqn:HF; [done|].
  destruct ((f_window f <? second) || _); [done|]. destruct (_ || _ || _ || _); [done|].
  intros [= <- <-]. split_and!; try done; try lia.
  - intros Hnc. rewrite Hnc in Hnet. by destruct (f_confirmNetwork f).
  - intros ->. rewrite bool_decide_eq_true_2 in HF by done. apply bool_decide_eq_false in HF.
    destruct (TPCI t) as [pci|]; [|done]. exists pci. split; [done|by apply Hpci].
  - apply Is_true_eq_true, ProbeQmi.scan_request_ok; [simpl; lia|by right|constructor; [|constructor]..].
    + unfold in_range. lia.
    + unfold ProbeQmi.arfcn_ok. lia.
Qed.

Lemma command_target_spec_witness :
  let f := mkFlags "f" 41 504990 " 123" true true "" (8 * second) 2 2 in
  0 <= f_band f /\ 0 <= f_arfcn f /\
  command_target f = Ok (experimentF, mkTarget 41 504990 (Some 123)) /\ f_confirmNetwork f = true.
Proof.
  intros f. assert (H1 : 0 <= f_band f) by (cbn; lia). assert (H2 : 0 <= f_arfcn f) by (cbn; lia).
  assert (H : command_target f = Ok (experimentF, mkTarget 41 504990 (Some 123))) by (vm_compute; reflexivity).
  split; [exact H1|]. split; [exact H2|]. split; [exact H|].
  destruct (command_target_spec f _ _ H1 H2 H) as (_ & Hn & _). exact (Hn eq_refl).
Defined.
